(* ===== verification/_CoqProject ===== *)
-Q . S2P
Prelude.v
Opcodes.v
Opcode_26_4.v
OpcodeCompatibility.v
Emit.v
Assembler.v
A64.v
EmitDecode.v
BitmaskImm.v
F64.v
X87State.v
X87Props.v
F64Props.v
X87Runtime.v
X87RuntimeProps.v
F64Exact.v
CompareProps.v
FistProps.v
Float80Props.v
BcdProps.v
F32Props.v
GuestMem.v
IROperand.v
X87IR.v
X87IRBuild.v
Fpu.v
X87IREval.v
X87IRInv.v
F80Promote.v
X87IRWf.v
X87IRBuildProps.v
GuestProps.v
X87IRRefine.v
X87IROptimize.v
X87IRSim.v
X87IRUses.v
F64Round.v
F64Algebra.v
X87IROptProps.v
FmaProps.v
ConstArithProps.v
OptimizeProps.v
FusionProps.v
Compile.v
A64Exec.v
CodeExec.v
TranslatorHelpers.v
ImmediateProps.v
Pools.v
AccessProps.v
TranslatorHelpersProps.v
InsnRules.v
X87Helpers.v
X87BridgeDemand.v
X87Cache.v
X87IRPlan.v
X87IRLower.v
X87IRCompile.v
X87CacheProps.v
BridgeDemandProps.v
X87Memory.v
X87HelpersProps.v
PermProps.v
StateRefine.v
LowerRel.v
LowerValues.v
LowerEffects.v
LowerGuest.v
LowerNodes.v
LowerEpilogue.v
LowerProps.v
TranslatorX87Internal.v
TranslatorX87.v
TranslatorX87Fusion.v
Translator.v
TranslatorProps.v
CacheView.v
CacheRefine.v
TranslateProps.v
