(* ===== verification/Prelude.v ===== *)
(** * A verification of rosettax87_jit

    The program replaces the x87 support of an x86-to-Arm64 translator.  It
    computes with doubles where the x87 has 80-bit registers, in two ways.
    A runtime library (src/rosetta_runtime) has one C++ handler per x87
    instruction.  A JIT (src/rosetta_core) is called for every instruction of
    a block ([Translator.cpp]).  [X87Cache.cpp] looks ahead for a run of x87
    instructions, with the few integer instructions between them, and the
    run is compiled to A64 code as a whole where that succeeds:
    [X87IRBuild.cpp] executes the stack symbolically and makes an array of SSA
    nodes, [X87IROptimize.cpp] rewrites the array in place, and
    [X87IRLower.cpp] allocates registers and emits code with the encoders of
    [AssemblerHelpers.cpp].  Otherwise two to four adjacent instructions are
    translated together where a pattern of [TranslatorX87Fusion.cpp] applies,
    and an instruction by its own function ([TranslatorX87.cpp]) where none
    does, the cache carrying registers and deferred updates of the x87 state
    from one to the next.

    ** Where each part is modelled

    Machine words are [Z]s with their wrap-around written out ([wrap], [sgn]
    below).  A double is its 64-bit pattern; the arithmetic on it is the
    kernel's [SpecFloat], with the NaN propagation of the A64 instructions
    ([F64]).  Mutable C++ objects are records passed along, and an assertion
    or a read outside an array is [None].

    - Encoders ([AssemblerHelpers.cpp]): [Assembler], over the buffer monad of
      [Emit].  [A64] is the architecture's decoding and execution of the
      instructions.  [EmitDecode] shows what every emitted word decodes to,
      [emit_ldr_str_imm_ext] included, whose words are not those its comment
      names, and [BitmaskImm] that the logical-immediate recogniser is exact.
    - Runtime ([X87State.h], [X87Float80.h], [X87.cpp]): [X87State] is the
      register stack with its status, control and tag words; [X87Runtime]
      has a definition per handler.  Their theorems are in [X87Props] (words and
      stack), [X87RuntimeProps] (the effect of every handler on TOP, the tags
      and the condition codes), [CompareProps], [FistProps], [Float80Props] and
      [BcdProps].  The libm calls and the symbol addresses are
      parameters.
    - Doubles: [F64Props], [F64Exact], [F32Props], [F64Round] and
      [F64Algebra] hold what the parts above and the optimizer need of binary64:
      ranges, exact conversions, negation, scaling, units, exact products.
    - Instruction IR ([IROperand.h], [Register.h], [IRInstr.h]): [IROperand].
      The opcode numbers are in [Opcodes] ([Opcode.h], [Opcode.cpp]) and
      [Opcode_26_4]; [OpcodeCompatibility] translates between the two
      numberings.
    - Nodes and builder state ([X87IR.h]): [X87IR]; the builder functions
      ([X87IRBuild.cpp]): [X87IRBuild].
    - Optimizer ([X87IROptimize.cpp]): [X87IROptimize], one definition per pass.
    - Translator helpers ([TranslatorHelpers.cpp]): register pools, the
      addresses of operands, immediates, loads and stores of guest registers
      and memory: [TranslatorHelpers].  [X87Helpers] has the x87 part of them
      ([TranslatorX87Helpers.cpp]): TOP, tags, push and pop, condition codes,
      the FXCH permutation, rounding-control dispatch.
    - Cross-instruction cache ([X87Cache.h], [X87Cache.cpp]): [X87Cache] has the
      pinned and carried registers, the deferred TOP, tag and FXCH updates, and
      the lookahead that delimits a run.  [X87BridgeDemand]
      ([X87BridgeDemand.cpp]) is the number of scratch registers Rosetta's own
      translation of an instruction inside a run may hold at once; [X87Cache]
      takes it as a parameter, which [TranslatorProps] gives.
    - One instruction ([TranslatorX87.cpp], [TranslatorX87Internal.hpp],
      [Translator.cpp], [TranslatorCustom.cpp]): [TranslatorX87Internal] has the
      preamble, the epilogue, push, pop and the flushes, [TranslatorX87] a
      definition per translator, [Translator] the start of a run, the choice
      of the translator, the bookkeeping after it, runtime calls and bridged
      instructions inside a run.
    - Adjacent instructions ([TranslatorX87Fusion.cpp]): [TranslatorX87Fusion]
      has a definition per pattern ([try_fuse_*], with its code in [fuse_*]),
      the groups of patterns by the first instruction's opcode and
      [try_peephole]; [Translator.translate_next] tries them first.
    - Lowering ([X87IRLower.cpp]): [X87IRPlan] plans (last uses, dead flags,
      cached bases, LDP/STP pairs, register pressure), [X87IRLower] emits the
      code of every node and the epilogue, [X87IRCompile] is compile_run.
    - Emitted code: [A64Exec] runs decoded instructions on registers, flags
      and memory, and [CodeExec] runs a list of words with branches.

    ** The specifications

    [Fpu] is the abstract machine: an eight-deep stack of doubles, the status
    and control words, the flags FCOMI sets, guest registers and guest memory
    ([GuestMem]), with [exec] the effect of one instruction.  [X87IREval] is the
    meaning of a node array: a value per node and, in node order, the effects on
    the same machine.  Both are written independently of the builder; the
    lowering's [switch] over node kinds is where [X87IREval] is to be read
    against the source.

    ** What is proved

    - The compiled run.  [X87IRInv] is the invariant between a builder
      context and the machine its nodes compute.  [X87IRBuildProps],
      [GuestProps] and [X87IRRefine] show that every builder function, the
      dispatch, the loop over the instructions and the carried-in register
      permutation preserve it, so evaluating the built nodes ends in
      the state [exec] reaches.  [X87IRWf] shows that a built array is in SSA
      form.  [X87IRSim] and [X87IRUses] relate two arrays and count uses;
      [X87IROptProps] (with the dead compares), [FmaProps], [ConstArithProps]
      and [OptimizeProps] show that each pass keeps what a run computes, and
      [FusionProps] what marking a compare and an FSTSW as fused promises.
      [Compile] composes builder and optimizer.  The conditions of these
      theorems are boolean functions: no signalling NaN, no NaN under a
      negation that moves, exact products and no NaN subtracted where a
      multiply-add is fused, and status-word metadata that no rewrite hits.
      Each marks an input on which the pass really changes the result;
      [Compile] says what a rewrite of the metadata does to an FSTSW.
    - The 80-bit, packed-decimal and float conversions: round trips
      ([Float80Props], [BcdProps], [F32Props]), the ten bytes FBSTP stores for
      every double ([BcdProps]), and the builder's own 80-bit conversion against
      the runtime's ([F80Promote]).
    - The encoders and the logical immediates, against [A64].
    - The emission helpers, by what their code does when it runs.
      [ImmediateProps], [Pools], [AccessProps] and
      [TranslatorHelpersProps] have the translator helpers.  [Pools] and
      [InsnRules] are the rules the x87 helpers are proved with: a pool is the
      set of scratch registers not in use, and every emitter has one rule for
      what its instruction writes.  [X87Memory] reads an [X87State] out
      of memory, [X87HelpersProps] and [PermProps] relate the code of each
      helper to the operations of [X87State], and [StateRefine] states
      the results for whole pushes, pops, loads and stores.
    - The lowered run.  [LowerRel] is the simulation between an evaluation
      state of the nodes and a machine in the middle of the code;
      [LowerValues], [LowerEffects], [LowerGuest] and [LowerNodes] show that
      the code of each node keeps it, [LowerEpilogue] that the epilogue writes
      the stack back, and [LowerProps] composes them: [stands] relates a
      machine to a state of [Fpu], and the body of a lowered run takes one that
      stands for the state before the run to one that stands for the state
      after.  The plan is checked by boolean functions, [body_fits] (registers,
      the compare whose flags are pending, saved flags) and [body_runs]
      (addresses apart from the x87 state, stack slots, the rounding mode);
      LDP/STP pairs are not among the nodes it accepts, and TOP is in its
      register, not known as a constant.
    - The run that is not compiled.  [CacheView] says what stack the memory
      and the deferred updates of a cache stand for together, and that
      deferring, writing and cancelling an update keeps it; [CacheRefine] has
      the code of push, pop and the flushes; [TranslateProps] has the
      translators, the fusions, and the sequence of them that makes a run,
      again against [stands] and [Fpu.exec].  [single_ok] lists the
      instructions covered: constants, FLD, FST and FSTP of registers, floats
      and doubles, the arithmetic instructions and their popping forms, FCHS,
      FABS, FSQRT, FXCH, deferred or not, and FNOP, with memory operands apart
      from the x87 state.  [fusion_ok] lists the patterns covered, with what
      each needs of the state: FLD with a popping operation, with FSTP, with an
      operation and FSTP or a popping operation, FXCH with a popping operation,
      an operation or a popping operation with FSTP, FMUL with a popping
      addition, and FSTP with FLD.
      A multiply-add must round to what the two instructions do, an exchanged
      sum or product must not have two NaNs.  Any of the fusions may be
      disabled, and opcodes outside the run.  The option that turns deferred
      exchanges off is not set, and the configuration is otherwise free.  Two
      more theorems are about code that breaks the cache's invariant: an FSTSW
      that ends a run ([fstsw_drops_deferred] says when the machine is right
      after it), and TOP written while pushes are deferred, as FLDCW and the
      fusions of FXCH with FSTP and of compares with FSTSW do
      ([flushed_top_goes_stale]).
    - The run cache ([X87CacheProps], [BridgeDemandProps], [TranslatorProps]):
      the lookahead answers the longest run, the demand model counts what a
      trace of allocations holds and is bounded by family, a bridged
      instruction is translated from a pool with a register to spare, a
      carried base keeps its address across it but for SETcc, CMOVcc, CQO and
      the 16-bit PUSH and POP, the keep-alive table agrees with the runtime's
      handlers, and the translator's switch has a case for exactly the opcodes
      a run counts.
    - The opcode numberings translate back and forth ([OpcodeCompatibility]).

    ** Bounds and fuel

    The node table has [kMaxNodes] = 128 entries and the stack eight
    slots, as in the source.  The builder, the passes and the evaluation
    recurse on lists and need no fuel.  Loops of the handlers (BCD digits, the
    bitmask rotation, normalisation) run a fixed number of rounds that the
    source's own bound gives.  The other loops take fuel: the lookahead the
    number of instructions left (each round consumes one; [lookahead_longest]
    proves it never runs out), a cycle of the FXCH permutation the eight
    registers ([perm_flush_correct] proves that enough), the float32 chains
    of [X87IROptimize] the number of nodes, the halving of a bitmask element
    six rounds, and the population count of a pool its 32 bits.
    A run has fewer than 2^15 instructions, the cache's counter being an
    int16_t.

    ** Not modelled

    - [AssemblerBuffer.cpp] and the list containers: growable arrays over
      mmap; an instruction buffer is a list of words here.
    - hook.cpp, RuntimeSymbols.cpp, the loader and the AOT tool: platform I/O
      and binary patching.  [Config.cpp]: environment parsing; its options are
      parameters of the definitions that read them.  Logging and telemetry.
    - Nothing is proved about the optimizer's opt-in float32 passes, the paired
      accesses of the lowering, the code of the translators outside
      [single_ok] but FSTSW (compares, conditional moves, integer operands, the
      control word, 80-bit and BCD operands) and of the fusions outside
      [fusion_ok] (compares, FXCH with FSTP, FILD sources), which are defined.
*)

From Stdlib Require Export ZArith List Bool Lia.
Export ListNotations.

#[global] Open Scope Z_scope.
#[global] Open Scope list_scope.

(** An option's value, where it has one. *)
Notation "'let?' x ':=' e 'in' k" := (match e with Some x => k | None => None end)
  (at level 10, x pattern, e at level 100, k at level 200).

(** ** Machine integers

    A w-bit unsigned integer is a [Z] in [0, 2^w); a C conversion to it is
    [wrap w].  A signed integer is the [Z] it denotes; a conversion to it is
    [sgn w]. *)

Definition wrap (w x : Z) : Z := x mod 2 ^ w.

Definition sgn (w x : Z) : Z :=
  let y := wrap w x in if Z.testbit y (w - 1) then y - 2 ^ w else y.

Abbreviation u8 := (wrap 8).
Abbreviation u16 := (wrap 16).
Abbreviation u32 := (wrap 32).
Abbreviation u64 := (wrap 64).
Abbreviation s8 := (sgn 8).
Abbreviation s16 := (sgn 16).
Abbreviation s32 := (sgn 32).
Abbreviation s64 := (sgn 64).

Definition b2z (b : bool) : Z := if b then 1 else 0.

(** C's truth value of an integer. *)
Definition nz (x : Z) : bool := negb (x =? 0).

(** Bits [lo, lo+n) of a word. *)
Definition bits (w lo n : Z) : Z := Z.land (Z.shiftr w lo) (Z.ones n).

(** C's bitwise complement at a width, [~x]. *)
Definition unot (w x : Z) : Z := Z.lxor x (Z.ones w).

Create HintDb words.

Lemma wrap_range w x : 0 <= w -> 0 <= wrap w x < 2 ^ w.
Proof. intros Hw. apply Z.mod_pos_bound, Z.pow_pos_nonneg; lia. Qed.

Lemma wrap_small w x : 0 <= x < 2 ^ w -> wrap w x = x.
Proof. apply Z.mod_small. Qed.

Lemma wrap_wrap w x : 0 <= w -> wrap w (wrap w x) = wrap w x.
Proof. intros Hw. apply wrap_small, wrap_range, Hw. Qed.

Lemma wrap_land w x : 0 <= w -> wrap w x = Z.land x (Z.ones w).
Proof. intros. symmetry. apply Z.land_ones; lia. Qed.

Lemma wrap_testbit w x i :
  0 <= w -> Z.testbit (wrap w x) i = (i <? w) && Z.testbit x i.
Proof.
  intros Hw. rewrite wrap_land by lia. rewrite Z.land_spec.
  destruct (Z.ltb_spec i w).
  - destruct (Z.leb_spec 0 i).
    + rewrite Z.ones_spec_low by lia. apply andb_true_r.
    + rewrite !Z.testbit_neg_r by lia. reflexivity.
  - rewrite Z.ones_spec_high by lia. apply andb_false_r.
Qed.

Lemma sgn_wrap w x : 0 < w -> wrap w (sgn w x) = wrap w x.
Proof.
  intros Hw. unfold sgn. destruct (Z.testbit _ _).
  - unfold wrap. rewrite <- (Z_mod_plus_full (x mod 2^w - 2^w) 1 (2^w)).
    rewrite Z.mul_1_l, Z.sub_add. apply Z.mod_mod.
    pose proof (Z.pow_pos_nonneg 2 w); lia.
  - apply wrap_wrap; lia.
Qed.

Lemma wrap_eqm w x y : 0 <= w -> wrap w x = wrap w y <-> (x - y) mod 2 ^ w = 0.
Proof.
  intros Hw. unfold wrap. pose proof (Z.pow_pos_nonneg 2 w ltac:(lia) Hw) as Hp.
  split; intros H.
  - rewrite Zminus_mod, H, Z.sub_diag. apply Z.mod_0_l; lia.
  - apply Z.mod_divide in H; [|lia]. destruct H as [k Hk].
    replace x with (y + k * 2 ^ w) by lia. apply Z_mod_plus_full.
Qed.

Lemma testbit_top w y :
  0 < w -> 0 <= y < 2 ^ w -> Z.testbit y (w - 1) = (2 ^ (w - 1) <=? y).
Proof.
  intros Hw Hy. rewrite Z.testbit_eqb by lia.
  assert (E : 2 ^ w = 2 * 2 ^ (w - 1)).
  { replace w with (Z.succ (w - 1)) at 1 by lia. apply Z.pow_succ_r; lia. }
  pose proof (Z.pow_pos_nonneg 2 (w - 1) ltac:(lia) ltac:(lia)) as Hp.
  destruct (Z.leb_spec (2 ^ (w - 1)) y) as [H|H].
  - replace (y / 2 ^ (w - 1)) with 1; [reflexivity|].
    apply Z.div_unique with (y - 2 ^ (w - 1)); lia.
  - rewrite (Z.div_small y) by lia. reflexivity.
Qed.

Lemma sgn_range w x : 0 < w -> - 2 ^ (w - 1) <= sgn w x < 2 ^ (w - 1).
Proof.
  intros Hw. unfold sgn.
  pose proof (wrap_range w x ltac:(lia)) as Hr.
  rewrite (testbit_top w) by (assumption || lia).
  assert (E : 2 ^ w = 2 * 2 ^ (w - 1)).
  { replace w with (Z.succ (w - 1)) at 1 by lia. apply Z.pow_succ_r; lia. }
  destruct (Z.leb_spec (2 ^ (w - 1)) (wrap w x)); lia.
Qed.

Lemma sgn_small w x : 0 < w -> - 2 ^ (w - 1) <= x < 2 ^ (w - 1) -> sgn w x = x.
Proof.
  intros Hw Hx. pose proof (sgn_range w x Hw) as Hr.
  assert (E : 2 ^ w = 2 * 2 ^ (w - 1)).
  { replace w with (Z.succ (w - 1)) at 1 by lia. apply Z.pow_succ_r; lia. }
  pose proof (sgn_wrap w x Hw) as H. apply wrap_eqm in H; [|lia].
  apply Z.mod_divide in H; [|lia]. destruct H as [k Hk].
  assert (k = 0) as -> by (rewrite E in Hk; nia). lia.
Qed.

Lemma s16_small x : 0 <= x < 2 ^ 15 -> sgn 16 x = x.
Proof. intros H. apply sgn_small; lia. Qed.

(** ** Packed fields

    Instruction words are built as [C | (x1 & m1) << k1 | ...].  [bits_lor]
    and [bits_fld] take a field of such a word to the field of the one
    component that reaches it; the masks are closed terms, computed. *)

Lemma bits_lor a b lo n : bits (Z.lor a b) lo n = Z.lor (bits a lo n) (bits b lo n).
Proof. unfold bits. rewrite Z.shiftr_lor, Z.land_lor_distr_l. reflexivity. Qed.

Lemma bits_fld x m k lo n :
  0 <= k -> 0 <= lo ->
  bits (Z.shiftl (Z.land x m) k) lo n =
  Z.land (Z.shiftr (Z.shiftl x k) lo) (bits (Z.shiftl m k) lo n).
Proof.
  intros. unfold bits. rewrite Z.shiftl_land, Z.shiftr_land, Z.land_assoc.
  reflexivity.
Qed.

Lemma bits_land x m lo n : bits (Z.land x m) lo n = Z.land (Z.shiftr x lo) (bits m lo n).
Proof. unfold bits. rewrite Z.shiftr_land, Z.land_assoc. reflexivity. Qed.

Lemma bits_bool (b : bool) k lo n :
  bits (Z.shiftl (b2z b) k) lo n = if b then bits (Z.shiftl 1 k) lo n else 0.
Proof.
  destruct b; [reflexivity|]. unfold bits. cbn [b2z].
  rewrite Z.shiftl_0_l, Z.shiftr_0_l. reflexivity.
Qed.

Lemma shiftl_shiftr_same x k : 0 <= k -> Z.shiftr (Z.shiftl x k) k = x.
Proof.
  intros. rewrite Z.shiftr_shiftl_l, Z.sub_diag by lia. apply Z.shiftl_0_r.
Qed.

Lemma wrap_lor w a b : 0 <= w -> wrap w (Z.lor a b) = Z.lor (wrap w a) (wrap w b).
Proof. intros. rewrite !wrap_land by lia. apply Z.land_lor_distr_l. Qed.

Lemma lor_bound a b w :
  0 <= w -> 0 <= a < 2 ^ w -> 0 <= b < 2 ^ w -> 0 <= Z.lor a b < 2 ^ w.
Proof.
  intros Hw Ha Hb. rewrite <- (wrap_small w a Ha), <- (wrap_small w b Hb).
  rewrite <- wrap_lor by lia. apply wrap_range, Hw.
Qed.

Lemma land_bound x m w : 0 <= w -> 0 <= m < 2 ^ w -> 0 <= Z.land x m < 2 ^ w.
Proof.
  intros Hw Hm. rewrite <- (wrap_small w m Hm), wrap_land, Z.land_assoc, <- wrap_land by lia.
  apply wrap_range, Hw.
Qed.

Lemma fld_bound x m k w :
  0 <= k -> 0 <= w -> 0 <= Z.shiftl m k < 2 ^ w -> 0 <= Z.shiftl (Z.land x m) k < 2 ^ w.
Proof. intros Hk Hw Hm. rewrite Z.shiftl_land. apply land_bound; assumption. Qed.

Lemma b2z_range b : 0 <= b2z b <= 1.
Proof. destruct b; cbn; lia. Qed.

(** [fields] computes every [bits] of a packed word in the goal. *)
Ltac close_bits :=
  repeat match goal with
  | |- context [bits ?w ?lo ?n] =>
      let b := eval vm_compute in (bits w lo n) in
      lazymatch b with
      | Z0 => idtac | Zpos _ => idtac | Zneg _ => idtac
      end;
      change (bits w lo n) with b
  end.

(** ** Lists indexed by integers *)

Fixpoint list_set {A} (l : list A) (n : nat) (x : A) : list A :=
  match l, n with
  | [], _ => []
  | _ :: t, O => x :: t
  | h :: t, S n' => h :: list_set t n' x
  end.

Definition zget (l : list Z) (i : Z) : Z := nth (Z.to_nat i) l 0.
Definition zset (l : list Z) (i x : Z) : list Z := list_set l (Z.to_nat i) x.

Lemma list_set_length {A} (l : list A) n x : length (list_set l n x) = length l.
Proof. revert n; induction l; intros [|n]; cbn; auto. Qed.

Lemma nth_list_set_eq {A} (l : list A) n x d : (n < length l)%nat -> nth n (list_set l n x) d = x.
Proof. revert n; induction l; intros [|n] H; cbn in *; try lia; auto. apply IHl; lia. Qed.

Lemma nth_list_set_ne {A} (l : list A) n m x d : n <> m -> nth m (list_set l n x) d = nth m l d.
Proof.
  revert n m; induction l; intros [|n] [|m] H; cbn; auto; try congruence.
Qed.

Lemma zset_length l i x : length (zset l i x) = length l.
Proof. apply list_set_length. Qed.

Lemma zget_zset_eq l i x : 0 <= i < Z.of_nat (length l) -> zget (zset l i x) i = x.
Proof. intros. unfold zget, zset. apply nth_list_set_eq. lia. Qed.

Lemma zget_zset_ne l i j x : 0 <= i -> 0 <= j -> i <> j -> zget (zset l i x) j = zget l j.
Proof. intros. unfold zget, zset. apply nth_list_set_ne. lia. Qed.

Lemma Forall_list_set {A} (P : A -> Prop) l n x : Forall P l -> P x -> Forall P (list_set l n x).
Proof.
  intros H Hx. revert n. induction H; intros [|n]; cbn; constructor; auto.
Qed.

Lemma Forall_zget (P : Z -> Prop) l i : Forall P l -> P 0 -> P (zget l i).
Proof.
  intros H H0. unfold zget. destruct (nth_in_or_default (Z.to_nat i) l 0) as [Hi| ->]; [|assumption].
  revert Hi. apply Forall_forall. exact H.
Qed.

(** ** Bits of signed words *)

Lemma sgn_testbit w x i : 0 < w -> i < w -> Z.testbit (sgn w x) i = Z.testbit x i.
Proof.
  intros Hw Hi.
  assert (H : forall y, Z.testbit (wrap w y) i = Z.testbit y i).
  { intros y. rewrite wrap_testbit by lia. replace (i <? w) with true; [reflexivity|].
    symmetry. apply Z.ltb_lt. exact Hi. }
  rewrite <- (H x), <- sgn_wrap, H by lia. reflexivity.
Qed.

Lemma land_testbit_eq a b m :
  (forall i, 0 <= i -> Z.testbit m i = true -> Z.testbit a i = Z.testbit b i) ->
  Z.land a m = Z.land b m.
Proof.
  intros H. apply Z.bits_inj'. intros i Hi. rewrite !Z.land_spec.
  destruct (Z.testbit m i) eqn:E; [rewrite H by assumption; reflexivity | rewrite !andb_false_r; reflexivity].
Qed.

(** The two bits of a 2-bit mask. *)
Lemma testbit_3 i : 0 <= i -> Z.testbit 3 i = (i <? 2).
Proof. intros. change 3 with (Z.ones 2). apply Z.testbit_ones_nonneg; lia. Qed.

Lemma testbit_7 i : 0 <= i -> Z.testbit 7 i = (i <? 3).
Proof. intros. change 7 with (Z.ones 3). apply Z.testbit_ones_nonneg; lia. Qed.

Lemma land7_mod x : Z.land x 7 = x mod 8.
Proof. change 7 with (Z.ones 3). apply Z.land_ones; lia. Qed.

Lemma land7_range x : 0 <= Z.land x 7 < 8.
Proof. rewrite land7_mod. apply Z.mod_pos_bound; lia. Qed.

(** ** Little-endian bytes *)

(** Little-endian bytes of an integer, what memcpy from it gives. *)
Fixpoint le_bytes (n : nat) (x : Z) : list Z :=
  match n with O => [] | S n' => Z.land x 0xFF :: le_bytes n' (Z.shiftr x 8) end.

Fixpoint le_value (l : list Z) : Z :=
  match l with [] => 0 | b :: t => Z.lor b (Z.shiftl (le_value t) 8) end.

(** ** Options and lists *)

Lemma some_inj {A} (a b : A) : Some a = Some b -> a = b.
Proof. congruence. Qed.

Lemma Forall_firstn {A} (P : A -> Prop) n l : Forall P l -> Forall P (firstn n l).
Proof. intros H. revert n. induction H; intros [|n]; cbn [firstn]; constructor; auto. Qed.
