(* ===== verification/Opcode_26_4.v ===== *)
(** Opcode_26_4.h: the numbering of macOS 26.4. *)

From S2P Require Import Prelude.

Definition kVersion_26_4 : Z := 0x16F0140000000.

Module kOpcode_26_4.
Definition aaa := 0x0.
Definition aad := 0x1.
Definition aam := 0x2.
Definition aas := 0x3.
Definition adc := 0x4.
Definition add := 0x5.
Definition and := 0x6.
Definition andn := 0x7.
Definition bextr := 0x8.
Definition blsi := 0x9.
Definition blsmsk := 0xA.
Definition blsr := 0xB.
Definition bsf := 0xC.
Definition bsr := 0xD.
Definition bt := 0xE.
Definition btc := 0xF.
Definition btr := 0x10.
Definition bts := 0x11.
Definition bzhi := 0x12.
Definition clc := 0x13.
Definition cld := 0x14.
Definition cmc := 0x15.
Definition cmovcc := 0x16.
Definition cmp := 0x17.
Definition cmpsb_string := 0x18.
Definition cmpsd_string := 0x19.
Definition cmpsq_string := 0x1A.
Definition cmpsw_string := 0x1B.
Definition cmpxchg := 0x1C.
Definition cmpxchg16b := 0x1D.
Definition cmpxchg8b := 0x1E.
Definition comisd := 0x1F.
Definition comiss := 0x20.
Definition daa := 0x21.
Definition das := 0x22.
Definition dec := 0x23.
Definition div := 0x24.
Definition fcmovb := 0x25.
Definition fcmovbe := 0x26.
Definition fcmove := 0x27.
Definition fcmovnb := 0x28.
Definition fcmovnbe := 0x29.
Definition fcmovne := 0x2A.
Definition fcmovnu := 0x2B.
Definition fcmovu := 0x2C.
Definition fcomi := 0x2D.
Definition fcomip := 0x2E.
Definition fucomi := 0x2F.
Definition fucomip := 0x30.
Definition idiv := 0x31.
Definition imul := 0x32.
Definition inc := 0x33.
Definition insb := 0x34.
Definition insd := 0x35.
Definition insw := 0x36.
Definition jcc := 0x37.
Definition lahf := 0x38.
Definition lodsb := 0x39.
Definition lodsd := 0x3A.
Definition lodsq := 0x3B.
Definition lodsw := 0x3C.
Definition loope := 0x3D.
Definition looped := 0x3E.
Definition loopew := 0x3F.
Definition loopne := 0x40.
Definition loopned := 0x41.
Definition loopnew := 0x42.
Definition lsl := 0x43.
Definition lzcnt := 0x44.
Definition movsb_string := 0x45.
Definition movsd_string := 0x46.
Definition mul := 0x47.
Definition mulx := 0x48.
Definition neg := 0x49.
Definition or := 0x4A.
Definition outsb := 0x4B.
Definition outsd := 0x4C.
Definition outsw := 0x4D.
Definition popcnt := 0x4E.
Definition popf := 0x4F.
Definition popfd := 0x50.
Definition popfq := 0x51.
Definition ptest := 0x52.
Definition pushf := 0x53.
Definition pushfd := 0x54.
Definition pushfq := 0x55.
Definition rcl := 0x56.
Definition rcr := 0x57.
Definition rdrand := 0x58.
Definition rol := 0x59.
Definition ror := 0x5A.
Definition sahf := 0x5B.
Definition sar := 0x5C.
Definition sbb := 0x5D.
Definition scasb := 0x5E.
Definition scasd := 0x5F.
Definition scasq := 0x60.
Definition scasw := 0x61.
Definition setcc := 0x62.
Definition shl := 0x63.
Definition shld := 0x64.
Definition shr := 0x65.
Definition shrd := 0x66.
Definition stc := 0x67.
Definition std := 0x68.
Definition stosb := 0x69.
Definition stosd := 0x6A.
Definition stosq := 0x6B.
Definition stosw := 0x6C.
Definition sub := 0x6D.
Definition test := 0x6E.
Definition tzcnt := 0x6F.
Definition ucomisd := 0x70.
Definition ucomiss := 0x71.
Definition vtestpd := 0x72.
Definition vtestps := 0x73.
Definition xadd := 0x74.
Definition xor := 0x75.
Definition addpd := 0x76.
Definition addps := 0x77.
Definition addsd := 0x78.
Definition addss := 0x79.
Definition addsubpd := 0x7A.
Definition addsubps := 0x7B.
Definition aesdec := 0x7C.
Definition aesdeclast := 0x7D.
Definition aesenc := 0x7E.
Definition aesenclast := 0x7F.
Definition aesimc := 0x80.
Definition aeskeygenassist := 0x81.
Definition andnpd := 0x82.
Definition andnps := 0x83.
Definition andpd := 0x84.
Definition andps := 0x85.
Definition blendpd := 0x86.
Definition blendps := 0x87.
Definition blendvpd := 0x88.
Definition blendvps := 0x89.
Definition bound := 0x8A.
Definition bswap := 0x8B.
Definition call := 0x8C.
Definition call_far := 0x8D.
Definition cbw := 0x8E.
Definition cdq := 0x8F.
Definition cdqe := 0x90.
Definition clflush := 0x91.
Definition cli := 0x92.
Definition cmppd := 0x93.
Definition cmpps := 0x94.
Definition cmpsd := 0x95.
Definition cmpss := 0x96.
Definition cpuid := 0x97.
Definition cqo := 0x98.
Definition crc32 := 0x99.
Definition cvtdq2pd := 0x9A.
Definition cvtdq2ps := 0x9B.
Definition cvtpd2dq := 0x9C.
Definition cvtpd2pi := 0x9D.
Definition cvtpd2ps := 0x9E.
Definition cvtpi2pd := 0x9F.
Definition cvtpi2ps := 0xA0.
Definition cvtps2dq := 0xA1.
Definition cvtps2pd := 0xA2.
Definition cvtps2pi := 0xA3.
Definition cvtsd2si := 0xA4.
Definition cvtsd2ss := 0xA5.
Definition cvtsi2sd := 0xA6.
Definition cvtsi2ss := 0xA7.
Definition cvtss2sd := 0xA8.
Definition cvtss2si := 0xA9.
Definition cvttpd2dq := 0xAA.
Definition cvttpd2pi := 0xAB.
Definition cvttps2dq := 0xAC.
Definition cvttps2pi := 0xAD.
Definition cvttsd2si := 0xAE.
Definition cvttss2si := 0xAF.
Definition cwd := 0xB0.
Definition cwde := 0xB1.
Definition divpd := 0xB2.
Definition divps := 0xB3.
Definition divsd := 0xB4.
Definition divss := 0xB5.
Definition dppd := 0xB6.
Definition dpps := 0xB7.
Definition emms := 0xB8.
Definition enter := 0xB9.
Definition enterd := 0xBA.
Definition enterw := 0xBB.
Definition extractps := 0xBC.
Definition f2xm1 := 0xBD.
Definition fabs := 0xBE.
Definition fadd := 0xBF.
Definition faddp := 0xC0.
Definition fbld := 0xC1.
Definition fbstp := 0xC2.
Definition fchs := 0xC3.
Definition fclex := 0xC4.
Definition fcom := 0xC5.
Definition fcomp := 0xC6.
Definition fcompp := 0xC7.
Definition fcos := 0xC8.
Definition fdecstp := 0xC9.
Definition fdisi := 0xCA.
Definition fdiv := 0xCB.
Definition fdivp := 0xCC.
Definition fdivr := 0xCD.
Definition fdivrp := 0xCE.
Definition feni := 0xCF.
Definition ffree := 0xD0.
Definition fiadd := 0xD1.
Definition ficom := 0xD2.
Definition ficomp := 0xD3.
Definition fidiv := 0xD4.
Definition fidivr := 0xD5.
Definition fild := 0xD6.
Definition fimul := 0xD7.
Definition fincstp := 0xD8.
Definition finit := 0xD9.
Definition fist := 0xDA.
Definition fistp := 0xDB.
Definition fisttp := 0xDC.
Definition fisub := 0xDD.
Definition fisubr := 0xDE.
Definition fld := 0xDF.
Definition fld1 := 0xE0.
Definition fldcw := 0xE1.
Definition fldenv := 0xE2.
Definition fldl2e := 0xE3.
Definition fldl2t := 0xE4.
Definition fldlg2 := 0xE5.
Definition fldln2 := 0xE6.
Definition fldpi := 0xE7.
Definition fldz := 0xE8.
Definition fmul := 0xE9.
Definition fmulp := 0xEA.
Definition fnop := 0xEB.
Definition fnstcw := 0xEC.
Definition fpatan := 0xED.
Definition fprem := 0xEE.
Definition fprem1 := 0xEF.
Definition fptan := 0xF0.
Definition frndint := 0xF1.
Definition frstor := 0xF2.
Definition fsave := 0xF3.
Definition fscale := 0xF4.
Definition fsin := 0xF5.
Definition fsincos := 0xF6.
Definition fsqrt := 0xF7.
Definition fst := 0xF8.
Definition fst_stack := 0xF9.
Definition fstenv := 0xFA.
Definition fstp := 0xFB.
Definition fstp_stack := 0xFC.
Definition fstsw := 0xFD.
Definition fsub := 0xFE.
Definition fsubp := 0xFF.
Definition fsubr := 0x100.
Definition fsubrp := 0x101.
Definition ftst := 0x102.
Definition fucom := 0x103.
Definition fucomp := 0x104.
Definition fucompp := 0x105.
Definition fxam := 0x106.
Definition fxch := 0x107.
Definition fxrstor := 0x108.
Definition fxsave := 0x109.
Definition fxtract := 0x10A.
Definition fyl2x := 0x10B.
Definition fyl2xp1 := 0x10C.
Definition haddpd := 0x10D.
Definition haddps := 0x10E.
Definition hlt := 0x10F.
Definition hsubpd := 0x110.
Definition hsubps := 0x111.
Definition in_ := 0x112.
Definition insertps := 0x113.
Definition int := 0x114.
Definition int3 := 0x115.
Definition invd := 0x116.
Definition invlpg := 0x117.
Definition iret := 0x118.
Definition iret_64 := 0x119.
Definition jcxz := 0x11A.
Definition jecxz := 0x11B.
Definition jmp := 0x11C.
Definition jmp_far := 0x11D.
Definition jrcxz := 0x11E.
Definition l_segment := 0x11F.
Definition lddqu := 0x120.
Definition ldmxcsr := 0x121.
Definition lea := 0x122.
Definition leave := 0x123.
Definition leaved := 0x124.
Definition leavew := 0x125.
Definition lfence := 0x126.
Definition lgdt := 0x127.
Definition lidt := 0x128.
Definition lmsw := 0x129.
Definition loop := 0x12A.
Definition loopd := 0x12B.
Definition loopw := 0x12C.
Definition maskmovdqu := 0x12D.
Definition maskmovq := 0x12E.
Definition maxpd := 0x12F.
Definition maxps := 0x130.
Definition maxsd := 0x131.
Definition maxss := 0x132.
Definition mfence := 0x133.
Definition minpd := 0x134.
Definition minps := 0x135.
Definition minsd := 0x136.
Definition minss := 0x137.
Definition monitor := 0x138.
Definition mov := 0x139.
Definition mov_segment := 0x13A.
Definition movapd := 0x13B.
Definition movaps := 0x13C.
Definition movbe := 0x13D.
Definition movd := 0x13E.
Definition movddup := 0x13F.
Definition movdq2q := 0x140.
Definition movdqa := 0x141.
Definition movdqu := 0x142.
Definition movhlps := 0x143.
Definition movhpd := 0x144.
Definition movhps := 0x145.
Definition movlhps := 0x146.
Definition movlpd := 0x147.
Definition movlps := 0x148.
Definition movmskpd := 0x149.
Definition movmskps := 0x14A.
Definition movntdq := 0x14B.
Definition movntdqa := 0x14C.
Definition movnti := 0x14D.
Definition movntpd := 0x14E.
Definition movntps := 0x14F.
Definition movntq := 0x150.
Definition movq := 0x151.
Definition movq2dq := 0x152.
Definition movsd := 0x153.
Definition movshdup := 0x154.
Definition movsldup := 0x155.
Definition movsq_string := 0x156.
Definition movss := 0x157.
Definition movsw_string := 0x158.
Definition movsx := 0x159.
Definition movsxd := 0x15A.
Definition movupd := 0x15B.
Definition movups := 0x15C.
Definition movzx := 0x15D.
Definition mpsadbw := 0x15E.
Definition mulpd := 0x15F.
Definition mulps := 0x160.
Definition mulsd := 0x161.
Definition mulss := 0x162.
Definition mwait := 0x163.
Definition nop := 0x164.
Definition not := 0x165.
Definition orpd := 0x166.
Definition orps := 0x167.
Definition out := 0x168.
Definition pabsb := 0x169.
Definition pabsd := 0x16A.
Definition pabsw := 0x16B.
Definition packssdw := 0x16C.
Definition packsswb := 0x16D.
Definition packusdw := 0x16E.
Definition packuswb := 0x16F.
Definition paddb := 0x170.
Definition paddd := 0x171.
Definition paddq := 0x172.
Definition paddsb := 0x173.
Definition paddsw := 0x174.
Definition paddusb := 0x175.
Definition paddusw := 0x176.
Definition paddw := 0x177.
Definition palignr := 0x178.
Definition pand := 0x179.
Definition pandn := 0x17A.
Definition pavgb := 0x17B.
Definition pavgw := 0x17C.
Definition pblendvb := 0x17D.
Definition pblendw := 0x17E.
Definition pclmulqdq := 0x17F.
Definition pcmpeqb := 0x180.
Definition pcmpeqd := 0x181.
Definition pcmpeqq := 0x182.
Definition pcmpeqw := 0x183.
Definition pcmpestri_32 := 0x184.
Definition pcmpestri_64 := 0x185.
Definition pcmpestrm_32 := 0x186.
Definition pcmpestrm_64 := 0x187.
Definition pcmpgtb := 0x188.
Definition pcmpgtd := 0x189.
Definition pcmpgtq := 0x18A.
Definition pcmpgtw := 0x18B.
Definition pcmpistri_32 := 0x18C.
Definition pcmpistri_64 := 0x18D.
Definition pcmpistrm := 0x18E.
Definition pdep := 0x18F.
Definition pext := 0x190.
Definition pextrb := 0x191.
Definition pextrdq := 0x192.
Definition pextrw := 0x193.
Definition phaddd := 0x194.
Definition phaddsw := 0x195.
Definition phaddw := 0x196.
Definition phminposuw := 0x197.
Definition phsubd := 0x198.
Definition phsubsw := 0x199.
Definition phsubw := 0x19A.
Definition pinsrb := 0x19B.
Definition pinsrdq := 0x19C.
Definition pinsrw := 0x19D.
Definition pmaddubsw := 0x19E.
Definition pmaddwd := 0x19F.
Definition pmaxsb := 0x1A0.
Definition pmaxsd := 0x1A1.
Definition pmaxsw := 0x1A2.
Definition pmaxub := 0x1A3.
Definition pmaxud := 0x1A4.
Definition pmaxuw := 0x1A5.
Definition pminsb := 0x1A6.
Definition pminsd := 0x1A7.
Definition pminsw := 0x1A8.
Definition pminub := 0x1A9.
Definition pminud := 0x1AA.
Definition pminuw := 0x1AB.
Definition pmovmskb := 0x1AC.
Definition pmovsxbd := 0x1AD.
Definition pmovsxbq := 0x1AE.
Definition pmovsxbw := 0x1AF.
Definition pmovsxdq := 0x1B0.
Definition pmovsxwd := 0x1B1.
Definition pmovsxwq := 0x1B2.
Definition pmovzxbd := 0x1B3.
Definition pmovzxbq := 0x1B4.
Definition pmovzxbw := 0x1B5.
Definition pmovzxdq := 0x1B6.
Definition pmovzxwd := 0x1B7.
Definition pmovzxwq := 0x1B8.
Definition pmuldq := 0x1B9.
Definition pmulhrsw := 0x1BA.
Definition pmulhuw := 0x1BB.
Definition pmulhw := 0x1BC.
Definition pmulld := 0x1BD.
Definition pmullw := 0x1BE.
Definition pmuludq := 0x1BF.
Definition pop := 0x1C0.
Definition pop_segment := 0x1C1.
Definition popa := 0x1C2.
Definition popad := 0x1C3.
Definition popd := 0x1C4.
Definition popd_segment := 0x1C5.
Definition popw := 0x1C6.
Definition popw_segment := 0x1C7.
Definition por := 0x1C8.
Definition prefetchnta := 0x1C9.
Definition prefetcht0 := 0x1CA.
Definition prefetcht1 := 0x1CB.
Definition prefetcht2 := 0x1CC.
Definition prefetchw := 0x1CD.
Definition prefetchwt1 := 0x1CE.
Definition psadbw := 0x1CF.
Definition pshufb := 0x1D0.
Definition pshufd := 0x1D1.
Definition pshufhw := 0x1D2.
Definition pshuflw := 0x1D3.
Definition pshufw := 0x1D4.
Definition psignb := 0x1D5.
Definition psignd := 0x1D6.
Definition psignw := 0x1D7.
Definition pslld := 0x1D8.
Definition pslldq := 0x1D9.
Definition psllq := 0x1DA.
Definition psllw := 0x1DB.
Definition psrad := 0x1DC.
Definition psraw := 0x1DD.
Definition psrld := 0x1DE.
Definition psrldq := 0x1DF.
Definition psrlq := 0x1E0.
Definition psrlw := 0x1E1.
Definition psubb := 0x1E2.
Definition psubd := 0x1E3.
Definition psubq := 0x1E4.
Definition psubsb := 0x1E5.
Definition psubsw := 0x1E6.
Definition psubusb := 0x1E7.
Definition psubusw := 0x1E8.
Definition psubw := 0x1E9.
Definition punpckhbw := 0x1EA.
Definition punpckhdq := 0x1EB.
Definition punpckhqdq := 0x1EC.
Definition punpckhwd := 0x1ED.
Definition punpcklbw := 0x1EE.
Definition punpckldq := 0x1EF.
Definition punpcklqdq := 0x1F0.
Definition punpcklwd := 0x1F1.
Definition push := 0x1F2.
Definition push_segment := 0x1F3.
Definition pusha := 0x1F4.
Definition pushad := 0x1F5.
Definition pushd := 0x1F6.
Definition pushd_segment := 0x1F7.
Definition pushw := 0x1F8.
Definition pushw_segment := 0x1F9.
Definition pxor := 0x1FA.
Definition rcpps := 0x1FB.
Definition rcpss := 0x1FC.
Definition rdmsr := 0x1FD.
Definition rdpmc := 0x1FE.
Definition rdtsc := 0x1FF.
Definition rdtscp := 0x200.
Definition ret := 0x201.
Definition ret_far := 0x202.
Definition rorx := 0x203.
Definition roundpd := 0x204.
Definition roundps := 0x205.
Definition roundsd := 0x206.
Definition roundss := 0x207.
Definition rsqrtps := 0x208.
Definition rsqrtss := 0x209.
Definition sarx := 0x20A.
Definition sfence := 0x20B.
Definition sgdt := 0x20C.
Definition sgdtd := 0x20D.
Definition shlx := 0x20E.
Definition shrx := 0x20F.
Definition shufpd := 0x210.
Definition shufps := 0x211.
Definition sidt := 0x212.
Definition sldt := 0x213.
Definition sldt32 := 0x214.
Definition smsw := 0x215.
Definition sqrtpd := 0x216.
Definition sqrtps := 0x217.
Definition sqrtsd := 0x218.
Definition sqrtss := 0x219.
Definition sti := 0x21A.
Definition stmxcsr := 0x21B.
Definition str := 0x21C.
Definition subpd := 0x21D.
Definition subps := 0x21E.
Definition subsd := 0x21F.
Definition subss := 0x220.
Definition swapgs := 0x221.
Definition syscall := 0x222.
Definition sysenter := 0x223.
Definition sysexit := 0x224.
Definition sysret := 0x225.
Definition ud2 := 0x226.
Definition unpckhpd := 0x227.
Definition unpckhps := 0x228.
Definition unpcklpd := 0x229.
Definition unpcklps := 0x22A.
Definition vbroadcastf128 := 0x22B.
Definition vbroadcasti128 := 0x22C.
Definition vbroadcastsd := 0x22D.
Definition vbroadcastss := 0x22E.
Definition vcvtph2ps := 0x22F.
Definition vcvtps2ph := 0x230.
Definition vextractf128 := 0x231.
Definition vextracti128 := 0x232.
Definition vfmadd132pd := 0x233.
Definition vfmadd132ps := 0x234.
Definition vfmadd132sd := 0x235.
Definition vfmadd132ss := 0x236.
Definition vfmadd213pd := 0x237.
Definition vfmadd213ps := 0x238.
Definition vfmadd213sd := 0x239.
Definition vfmadd213ss := 0x23A.
Definition vfmadd231pd := 0x23B.
Definition vfmadd231ps := 0x23C.
Definition vfmadd231sd := 0x23D.
Definition vfmadd231ss := 0x23E.
Definition vfmaddsub132pd := 0x23F.
Definition vfmaddsub132ps := 0x240.
Definition vfmaddsub213pd := 0x241.
Definition vfmaddsub213ps := 0x242.
Definition vfmaddsub231pd := 0x243.
Definition vfmaddsub231ps := 0x244.
Definition vfmsub132pd := 0x245.
Definition vfmsub132ps := 0x246.
Definition vfmsub132sd := 0x247.
Definition vfmsub132ss := 0x248.
Definition vfmsub213pd := 0x249.
Definition vfmsub213ps := 0x24A.
Definition vfmsub213sd := 0x24B.
Definition vfmsub213ss := 0x24C.
Definition vfmsub231pd := 0x24D.
Definition vfmsub231ps := 0x24E.
Definition vfmsub231sd := 0x24F.
Definition vfmsub231ss := 0x250.
Definition vfmsubadd132pd := 0x251.
Definition vfmsubadd132ps := 0x252.
Definition vfmsubadd213pd := 0x253.
Definition vfmsubadd213ps := 0x254.
Definition vfmsubadd231pd := 0x255.
Definition vfmsubadd231ps := 0x256.
Definition vfnmadd132pd := 0x257.
Definition vfnmadd132ps := 0x258.
Definition vfnmadd132sd := 0x259.
Definition vfnmadd132ss := 0x25A.
Definition vfnmadd213pd := 0x25B.
Definition vfnmadd213ps := 0x25C.
Definition vfnmadd213sd := 0x25D.
Definition vfnmadd213ss := 0x25E.
Definition vfnmadd231pd := 0x25F.
Definition vfnmadd231ps := 0x260.
Definition vfnmadd231sd := 0x261.
Definition vfnmadd231ss := 0x262.
Definition vfnmsub132pd := 0x263.
Definition vfnmsub132ps := 0x264.
Definition vfnmsub132sd := 0x265.
Definition vfnmsub132ss := 0x266.
Definition vfnmsub213pd := 0x267.
Definition vfnmsub213ps := 0x268.
Definition vfnmsub213sd := 0x269.
Definition vfnmsub213ss := 0x26A.
Definition vfnmsub231pd := 0x26B.
Definition vfnmsub231ps := 0x26C.
Definition vfnmsub231sd := 0x26D.
Definition vfnmsub231ss := 0x26E.
Definition vgatherdpd := 0x26F.
Definition vgatherdps := 0x270.
Definition vgatherqpd := 0x271.
Definition vgatherqps := 0x272.
Definition vinsertf128 := 0x273.
Definition vinserti128 := 0x274.
Definition vmaskmovpd := 0x275.
Definition vmaskmovps := 0x276.
Definition vpblendd := 0x277.
Definition vpbroadcastb := 0x278.
Definition vpbroadcastd := 0x279.
Definition vpbroadcastq := 0x27A.
Definition vpbroadcastw := 0x27B.
Definition vperm2f128 := 0x27C.
Definition vperm2i128 := 0x27D.
Definition vpermd := 0x27E.
Definition vpermilpd := 0x27F.
Definition vpermilps := 0x280.
Definition vpermpd := 0x281.
Definition vpermps := 0x282.
Definition vpermq := 0x283.
Definition vpgatherdd := 0x284.
Definition vpgatherdq := 0x285.
Definition vpgatherqd := 0x286.
Definition vpgatherqq := 0x287.
Definition vpmaskmovd := 0x288.
Definition vpmaskmovq := 0x289.
Definition vpsllvd := 0x28A.
Definition vpsllvq := 0x28B.
Definition vpsravd := 0x28C.
Definition vpsrlvd := 0x28D.
Definition vpsrlvq := 0x28E.
Definition vzeroall := 0x28F.
Definition vzeroupper := 0x290.
Definition wait := 0x291.
Definition wbinv := 0x292.
Definition wrmsr := 0x293.
Definition xchg := 0x294.
Definition xgetbv := 0x295.
Definition xlat := 0x296.
Definition xorpd := 0x297.
Definition xorps := 0x298.
Definition xrstor := 0x299.
Definition xsave := 0x29A.
Definition xsetbv := 0x29B.
Definition arpl := 0x29C.
End kOpcode_26_4.
