(* ===== verification/OpcodeCompatibility.v ===== *)
(** OpcodeCompatibility.cpp: between the numbering of macOS 26.4 and the
    translator's.  The runtime version is a parameter. *)

From S2P Require Import Prelude Opcodes Opcode_26_4.

(** A [switch] over constants, each case a [return]. *)
Definition switch (cases : list (Z * Z)) (x : Z) : option Z :=
  option_map snd (find (fun c => fst c =? x) cases).

Definition host_to_internal_cases : list (Z * Z) :=
  [ (kOpcode_26_4.aaa, kOpcodeName.aaa);
    (kOpcode_26_4.aad, kOpcodeName.aad);
    (kOpcode_26_4.aam, kOpcodeName.aam);
    (kOpcode_26_4.aas, kOpcodeName.aas);
    (kOpcode_26_4.adc, kOpcodeName.adc);
    (kOpcode_26_4.add, kOpcodeName.add);
    (kOpcode_26_4.and, kOpcodeName.and);
    (kOpcode_26_4.andn, kOpcodeName.andn);
    (kOpcode_26_4.bextr, kOpcodeName.bextr);
    (kOpcode_26_4.blsi, kOpcodeName.blsi);
    (kOpcode_26_4.blsmsk, kOpcodeName.blsmsk);
    (kOpcode_26_4.blsr, kOpcodeName.blsr);
    (kOpcode_26_4.bsf, kOpcodeName.bsf);
    (kOpcode_26_4.bsr, kOpcodeName.bsr);
    (kOpcode_26_4.bt, kOpcodeName.bt);
    (kOpcode_26_4.btc, kOpcodeName.btc);
    (kOpcode_26_4.btr, kOpcodeName.btr);
    (kOpcode_26_4.bts, kOpcodeName.bts);
    (kOpcode_26_4.bzhi, kOpcodeName.bzhi);
    (kOpcode_26_4.clc, kOpcodeName.clc);
    (kOpcode_26_4.cld, kOpcodeName.cld);
    (kOpcode_26_4.cmc, kOpcodeName.cmc);
    (kOpcode_26_4.cmovcc, kOpcodeName.cmovcc);
    (kOpcode_26_4.cmp, kOpcodeName.cmp);
    (kOpcode_26_4.cmpsb_string, kOpcodeName.cmpsb_string);
    (kOpcode_26_4.cmpsd_string, kOpcodeName.cmpsd_string);
    (kOpcode_26_4.cmpsq_string, kOpcodeName.cmpsq_string);
    (kOpcode_26_4.cmpsw_string, kOpcodeName.cmpsw_string);
    (kOpcode_26_4.cmpxchg, kOpcodeName.cmpxchg);
    (kOpcode_26_4.cmpxchg16b, kOpcodeName.cmpxchg16b);
    (kOpcode_26_4.cmpxchg8b, kOpcodeName.cmpxchg8b);
    (kOpcode_26_4.comisd, kOpcodeName.comisd);
    (kOpcode_26_4.comiss, kOpcodeName.comiss);
    (kOpcode_26_4.daa, kOpcodeName.daa);
    (kOpcode_26_4.das, kOpcodeName.das);
    (kOpcode_26_4.dec, kOpcodeName.dec);
    (kOpcode_26_4.div, kOpcodeName.div);
    (kOpcode_26_4.fcmovb, kOpcodeName.fcmovb);
    (kOpcode_26_4.fcmovbe, kOpcodeName.fcmovbe);
    (kOpcode_26_4.fcmove, kOpcodeName.fcmove);
    (kOpcode_26_4.fcmovnb, kOpcodeName.fcmovnb);
    (kOpcode_26_4.fcmovnbe, kOpcodeName.fcmovnbe);
    (kOpcode_26_4.fcmovne, kOpcodeName.fcmovne);
    (kOpcode_26_4.fcmovnu, kOpcodeName.fcmovnu);
    (kOpcode_26_4.fcmovu, kOpcodeName.fcmovu);
    (kOpcode_26_4.fcomi, kOpcodeName.fcomi);
    (kOpcode_26_4.fcomip, kOpcodeName.fcomip);
    (kOpcode_26_4.fucomi, kOpcodeName.fucomi);
    (kOpcode_26_4.fucomip, kOpcodeName.fucomip);
    (kOpcode_26_4.idiv, kOpcodeName.idiv);
    (kOpcode_26_4.imul, kOpcodeName.imul);
    (kOpcode_26_4.inc, kOpcodeName.inc);
    (kOpcode_26_4.insb, kOpcodeName.insb);
    (kOpcode_26_4.insd, kOpcodeName.insd);
    (kOpcode_26_4.insw, kOpcodeName.insw);
    (kOpcode_26_4.jcc, kOpcodeName.jcc);
    (kOpcode_26_4.lahf, kOpcodeName.lahf);
    (kOpcode_26_4.lodsb, kOpcodeName.lodsb);
    (kOpcode_26_4.lodsd, kOpcodeName.lodsd);
    (kOpcode_26_4.lodsq, kOpcodeName.lodsq);
    (kOpcode_26_4.lodsw, kOpcodeName.lodsw);
    (kOpcode_26_4.loope, kOpcodeName.loope);
    (kOpcode_26_4.looped, kOpcodeName.looped);
    (kOpcode_26_4.loopew, kOpcodeName.loopew);
    (kOpcode_26_4.loopne, kOpcodeName.loopne);
    (kOpcode_26_4.loopned, kOpcodeName.loopned);
    (kOpcode_26_4.loopnew, kOpcodeName.loopnew);
    (kOpcode_26_4.lsl, kOpcodeName.lsl);
    (kOpcode_26_4.lzcnt, kOpcodeName.lzcnt);
    (kOpcode_26_4.movsb_string, kOpcodeName.movsb_string);
    (kOpcode_26_4.movsd_string, kOpcodeName.movsd_string);
    (kOpcode_26_4.mul, kOpcodeName.mul);
    (kOpcode_26_4.neg, kOpcodeName.neg);
    (kOpcode_26_4.or, kOpcodeName.or);
    (kOpcode_26_4.outsb, kOpcodeName.outsb);
    (kOpcode_26_4.outsd, kOpcodeName.outsd);
    (kOpcode_26_4.outsw, kOpcodeName.outsw);
    (kOpcode_26_4.popcnt, kOpcodeName.popcnt);
    (kOpcode_26_4.popf, kOpcodeName.popf);
    (kOpcode_26_4.popfd, kOpcodeName.popfd);
    (kOpcode_26_4.popfq, kOpcodeName.popfq);
    (kOpcode_26_4.ptest, kOpcodeName.ptest);
    (kOpcode_26_4.pushf, kOpcodeName.pushf);
    (kOpcode_26_4.pushfd, kOpcodeName.pushfd);
    (kOpcode_26_4.pushfq, kOpcodeName.pushfq);
    (kOpcode_26_4.rcl, kOpcodeName.rcl);
    (kOpcode_26_4.rcr, kOpcodeName.rcr);
    (kOpcode_26_4.rdrand, kOpcodeName.rdrand);
    (kOpcode_26_4.rol, kOpcodeName.rol);
    (kOpcode_26_4.ror, kOpcodeName.ror);
    (kOpcode_26_4.sahf, kOpcodeName.sahf);
    (kOpcode_26_4.sar, kOpcodeName.sar);
    (kOpcode_26_4.sbb, kOpcodeName.sbb);
    (kOpcode_26_4.scasb, kOpcodeName.scasb);
    (kOpcode_26_4.scasd, kOpcodeName.scasd);
    (kOpcode_26_4.scasq, kOpcodeName.scasq);
    (kOpcode_26_4.scasw, kOpcodeName.scasw);
    (kOpcode_26_4.setcc, kOpcodeName.setcc);
    (kOpcode_26_4.shl, kOpcodeName.shl);
    (kOpcode_26_4.shld, kOpcodeName.shld);
    (kOpcode_26_4.shr, kOpcodeName.shr);
    (kOpcode_26_4.shrd, kOpcodeName.shrd);
    (kOpcode_26_4.stc, kOpcodeName.stc);
    (kOpcode_26_4.std, kOpcodeName.std);
    (kOpcode_26_4.stosb, kOpcodeName.stosb);
    (kOpcode_26_4.stosd, kOpcodeName.stosd);
    (kOpcode_26_4.stosq, kOpcodeName.stosq);
    (kOpcode_26_4.stosw, kOpcodeName.stosw);
    (kOpcode_26_4.sub, kOpcodeName.sub);
    (kOpcode_26_4.test, kOpcodeName.test);
    (kOpcode_26_4.tzcnt, kOpcodeName.tzcnt);
    (kOpcode_26_4.ucomisd, kOpcodeName.ucomisd);
    (kOpcode_26_4.ucomiss, kOpcodeName.ucomiss);
    (kOpcode_26_4.vtestpd, kOpcodeName.vtestpd);
    (kOpcode_26_4.vtestps, kOpcodeName.vtestps);
    (kOpcode_26_4.xadd, kOpcodeName.xadd);
    (kOpcode_26_4.xor, kOpcodeName.xor);
    (kOpcode_26_4.addpd, kOpcodeName.addpd);
    (kOpcode_26_4.addps, kOpcodeName.addps);
    (kOpcode_26_4.addsd, kOpcodeName.addsd);
    (kOpcode_26_4.addss, kOpcodeName.addss);
    (kOpcode_26_4.addsubpd, kOpcodeName.addsubpd);
    (kOpcode_26_4.addsubps, kOpcodeName.addsubps);
    (kOpcode_26_4.aesdec, kOpcodeName.aesdec);
    (kOpcode_26_4.aesdeclast, kOpcodeName.aesdeclast);
    (kOpcode_26_4.aesenc, kOpcodeName.aesenc);
    (kOpcode_26_4.aesenclast, kOpcodeName.aesenclast);
    (kOpcode_26_4.aesimc, kOpcodeName.aesimc);
    (kOpcode_26_4.aeskeygenassist, kOpcodeName.aeskeygenassist);
    (kOpcode_26_4.andnpd, kOpcodeName.andnpd);
    (kOpcode_26_4.andnps, kOpcodeName.andnps);
    (kOpcode_26_4.andpd, kOpcodeName.andpd);
    (kOpcode_26_4.andps, kOpcodeName.andps);
    (kOpcode_26_4.blendpd, kOpcodeName.blendpd);
    (kOpcode_26_4.blendps, kOpcodeName.blendps);
    (kOpcode_26_4.blendvpd, kOpcodeName.blendvpd);
    (kOpcode_26_4.blendvps, kOpcodeName.blendvps);
    (kOpcode_26_4.bound, kOpcodeName.bound);
    (kOpcode_26_4.bswap, kOpcodeName.bswap);
    (kOpcode_26_4.call, kOpcodeName.call);
    (kOpcode_26_4.call_far, kOpcodeName.call_far);
    (kOpcode_26_4.cbw, kOpcodeName.cbw);
    (kOpcode_26_4.cdq, kOpcodeName.cdq);
    (kOpcode_26_4.cdqe, kOpcodeName.cdqe);
    (kOpcode_26_4.clflush, kOpcodeName.clflush);
    (kOpcode_26_4.cli, kOpcodeName.cli);
    (kOpcode_26_4.cmppd, kOpcodeName.cmppd);
    (kOpcode_26_4.cmpps, kOpcodeName.cmpps);
    (kOpcode_26_4.cmpsd, kOpcodeName.cmpsd);
    (kOpcode_26_4.cmpss, kOpcodeName.cmpss);
    (kOpcode_26_4.cpuid, kOpcodeName.cpuid);
    (kOpcode_26_4.cqo, kOpcodeName.cqo);
    (kOpcode_26_4.crc32, kOpcodeName.crc32);
    (kOpcode_26_4.cvtdq2pd, kOpcodeName.cvtdq2pd);
    (kOpcode_26_4.cvtdq2ps, kOpcodeName.cvtdq2ps);
    (kOpcode_26_4.cvtpd2dq, kOpcodeName.cvtpd2dq);
    (kOpcode_26_4.cvtpd2pi, kOpcodeName.cvtpd2pi);
    (kOpcode_26_4.cvtpd2ps, kOpcodeName.cvtpd2ps);
    (kOpcode_26_4.cvtpi2pd, kOpcodeName.cvtpi2pd);
    (kOpcode_26_4.cvtpi2ps, kOpcodeName.cvtpi2ps);
    (kOpcode_26_4.cvtps2dq, kOpcodeName.cvtps2dq);
    (kOpcode_26_4.cvtps2pd, kOpcodeName.cvtps2pd);
    (kOpcode_26_4.cvtps2pi, kOpcodeName.cvtps2pi);
    (kOpcode_26_4.cvtsd2si, kOpcodeName.cvtsd2si);
    (kOpcode_26_4.cvtsd2ss, kOpcodeName.cvtsd2ss);
    (kOpcode_26_4.cvtsi2sd, kOpcodeName.cvtsi2sd);
    (kOpcode_26_4.cvtsi2ss, kOpcodeName.cvtsi2ss);
    (kOpcode_26_4.cvtss2sd, kOpcodeName.cvtss2sd);
    (kOpcode_26_4.cvtss2si, kOpcodeName.cvtss2si);
    (kOpcode_26_4.cvttpd2dq, kOpcodeName.cvttpd2dq);
    (kOpcode_26_4.cvttpd2pi, kOpcodeName.cvttpd2pi);
    (kOpcode_26_4.cvttps2dq, kOpcodeName.cvttps2dq);
    (kOpcode_26_4.cvttps2pi, kOpcodeName.cvttps2pi);
    (kOpcode_26_4.cvttsd2si, kOpcodeName.cvttsd2si);
    (kOpcode_26_4.cvttss2si, kOpcodeName.cvttss2si);
    (kOpcode_26_4.cwd, kOpcodeName.cwd);
    (kOpcode_26_4.cwde, kOpcodeName.cwde);
    (kOpcode_26_4.divpd, kOpcodeName.divpd);
    (kOpcode_26_4.divps, kOpcodeName.divps);
    (kOpcode_26_4.divsd, kOpcodeName.divsd);
    (kOpcode_26_4.divss, kOpcodeName.divss);
    (kOpcode_26_4.dppd, kOpcodeName.dppd);
    (kOpcode_26_4.dpps, kOpcodeName.dpps);
    (kOpcode_26_4.emms, kOpcodeName.emms);
    (kOpcode_26_4.enter, kOpcodeName.enter);
    (kOpcode_26_4.enterd, kOpcodeName.enterd);
    (kOpcode_26_4.enterw, kOpcodeName.enterw);
    (kOpcode_26_4.extractps, kOpcodeName.extractps);
    (kOpcode_26_4.f2xm1, kOpcodeName.f2xm1);
    (kOpcode_26_4.fabs, kOpcodeName.fabs);
    (kOpcode_26_4.fadd, kOpcodeName.fadd);
    (kOpcode_26_4.faddp, kOpcodeName.faddp);
    (kOpcode_26_4.fbld, kOpcodeName.fbld);
    (kOpcode_26_4.fbstp, kOpcodeName.fbstp);
    (kOpcode_26_4.fchs, kOpcodeName.fchs);
    (kOpcode_26_4.fclex, kOpcodeName.fclex);
    (kOpcode_26_4.fcom, kOpcodeName.fcom);
    (kOpcode_26_4.fcomp, kOpcodeName.fcomp);
    (kOpcode_26_4.fcompp, kOpcodeName.fcompp);
    (kOpcode_26_4.fcos, kOpcodeName.fcos);
    (kOpcode_26_4.fdecstp, kOpcodeName.fdecstp);
    (kOpcode_26_4.fdisi, kOpcodeName.fdisi);
    (kOpcode_26_4.fdiv, kOpcodeName.fdiv);
    (kOpcode_26_4.fdivp, kOpcodeName.fdivp);
    (kOpcode_26_4.fdivr, kOpcodeName.fdivr);
    (kOpcode_26_4.fdivrp, kOpcodeName.fdivrp);
    (kOpcode_26_4.feni, kOpcodeName.feni);
    (kOpcode_26_4.ffree, kOpcodeName.ffree);
    (kOpcode_26_4.fiadd, kOpcodeName.fiadd);
    (kOpcode_26_4.ficom, kOpcodeName.ficom);
    (kOpcode_26_4.ficomp, kOpcodeName.ficomp);
    (kOpcode_26_4.fidiv, kOpcodeName.fidiv);
    (kOpcode_26_4.fidivr, kOpcodeName.fidivr);
    (kOpcode_26_4.fild, kOpcodeName.fild);
    (kOpcode_26_4.fimul, kOpcodeName.fimul);
    (kOpcode_26_4.fincstp, kOpcodeName.fincstp);
    (kOpcode_26_4.finit, kOpcodeName.finit);
    (kOpcode_26_4.fist, kOpcodeName.fist);
    (kOpcode_26_4.fistp, kOpcodeName.fistp);
    (kOpcode_26_4.fisttp, kOpcodeName.fisttp);
    (kOpcode_26_4.fisub, kOpcodeName.fisub);
    (kOpcode_26_4.fisubr, kOpcodeName.fisubr);
    (kOpcode_26_4.fld, kOpcodeName.fld);
    (kOpcode_26_4.fld1, kOpcodeName.fld1);
    (kOpcode_26_4.fldcw, kOpcodeName.fldcw);
    (kOpcode_26_4.fldenv, kOpcodeName.fldenv);
    (kOpcode_26_4.fldl2e, kOpcodeName.fldl2e);
    (kOpcode_26_4.fldl2t, kOpcodeName.fldl2t);
    (kOpcode_26_4.fldlg2, kOpcodeName.fldlg2);
    (kOpcode_26_4.fldln2, kOpcodeName.fldln2);
    (kOpcode_26_4.fldpi, kOpcodeName.fldpi);
    (kOpcode_26_4.fldz, kOpcodeName.fldz);
    (kOpcode_26_4.fmul, kOpcodeName.fmul);
    (kOpcode_26_4.fmulp, kOpcodeName.fmulp);
    (kOpcode_26_4.fnop, kOpcodeName.fnop);
    (kOpcode_26_4.fnstcw, kOpcodeName.fnstcw);
    (kOpcode_26_4.fpatan, kOpcodeName.fpatan);
    (kOpcode_26_4.fprem, kOpcodeName.fprem);
    (kOpcode_26_4.fprem1, kOpcodeName.fprem1);
    (kOpcode_26_4.fptan, kOpcodeName.fptan);
    (kOpcode_26_4.frndint, kOpcodeName.frndint);
    (kOpcode_26_4.frstor, kOpcodeName.frstor);
    (kOpcode_26_4.fsave, kOpcodeName.fsave);
    (kOpcode_26_4.fscale, kOpcodeName.fscale);
    (kOpcode_26_4.fsin, kOpcodeName.fsin);
    (kOpcode_26_4.fsincos, kOpcodeName.fsincos);
    (kOpcode_26_4.fsqrt, kOpcodeName.fsqrt);
    (kOpcode_26_4.fst, kOpcodeName.fst);
    (kOpcode_26_4.fst_stack, kOpcodeName.fst_stack);
    (kOpcode_26_4.fstenv, kOpcodeName.fstenv);
    (kOpcode_26_4.fstp, kOpcodeName.fstp);
    (kOpcode_26_4.fstp_stack, kOpcodeName.fstp_stack);
    (kOpcode_26_4.fstsw, kOpcodeName.fstsw);
    (kOpcode_26_4.fsub, kOpcodeName.fsub);
    (kOpcode_26_4.fsubp, kOpcodeName.fsubp);
    (kOpcode_26_4.fsubr, kOpcodeName.fsubr);
    (kOpcode_26_4.fsubrp, kOpcodeName.fsubrp);
    (kOpcode_26_4.ftst, kOpcodeName.ftst);
    (kOpcode_26_4.fucom, kOpcodeName.fucom);
    (kOpcode_26_4.fucomp, kOpcodeName.fucomp);
    (kOpcode_26_4.fucompp, kOpcodeName.fucompp);
    (kOpcode_26_4.fxam, kOpcodeName.fxam);
    (kOpcode_26_4.fxch, kOpcodeName.fxch);
    (kOpcode_26_4.fxrstor, kOpcodeName.fxrstor);
    (kOpcode_26_4.fxsave, kOpcodeName.fxsave);
    (kOpcode_26_4.fxtract, kOpcodeName.fxtract);
    (kOpcode_26_4.fyl2x, kOpcodeName.fyl2x);
    (kOpcode_26_4.fyl2xp1, kOpcodeName.fyl2xp1);
    (kOpcode_26_4.haddpd, kOpcodeName.haddpd);
    (kOpcode_26_4.haddps, kOpcodeName.haddps);
    (kOpcode_26_4.hlt, kOpcodeName.hlt);
    (kOpcode_26_4.hsubpd, kOpcodeName.hsubpd);
    (kOpcode_26_4.hsubps, kOpcodeName.hsubps);
    (kOpcode_26_4.in_, kOpcodeName.in_);
    (kOpcode_26_4.insertps, kOpcodeName.insertps);
    (kOpcode_26_4.int, kOpcodeName.int);
    (kOpcode_26_4.int3, kOpcodeName.int3);
    (kOpcode_26_4.invd, kOpcodeName.invd);
    (kOpcode_26_4.invlpg, kOpcodeName.invlpg);
    (kOpcode_26_4.iret, kOpcodeName.iret);
    (kOpcode_26_4.iret_64, kOpcodeName.iret_64);
    (kOpcode_26_4.jcxz, kOpcodeName.jcxz);
    (kOpcode_26_4.jecxz, kOpcodeName.jecxz);
    (kOpcode_26_4.jmp, kOpcodeName.jmp);
    (kOpcode_26_4.jmp_far, kOpcodeName.jmp_far);
    (kOpcode_26_4.jrcxz, kOpcodeName.jrcxz);
    (kOpcode_26_4.l_segment, kOpcodeName.l_segment);
    (kOpcode_26_4.lddqu, kOpcodeName.lddqu);
    (kOpcode_26_4.ldmxcsr, kOpcodeName.ldmxcsr);
    (kOpcode_26_4.lea, kOpcodeName.lea);
    (kOpcode_26_4.leave, kOpcodeName.leave);
    (kOpcode_26_4.leaved, kOpcodeName.leaved);
    (kOpcode_26_4.leavew, kOpcodeName.leavew);
    (kOpcode_26_4.lfence, kOpcodeName.lfence);
    (kOpcode_26_4.lgdt, kOpcodeName.lgdt);
    (kOpcode_26_4.lidt, kOpcodeName.lidt);
    (kOpcode_26_4.lmsw, kOpcodeName.lmsw);
    (kOpcode_26_4.loop, kOpcodeName.loop);
    (kOpcode_26_4.loopd, kOpcodeName.loopd);
    (kOpcode_26_4.loopw, kOpcodeName.loopw);
    (kOpcode_26_4.maskmovdqu, kOpcodeName.maskmovdqu);
    (kOpcode_26_4.maskmovq, kOpcodeName.maskmovq);
    (kOpcode_26_4.maxpd, kOpcodeName.maxpd);
    (kOpcode_26_4.maxps, kOpcodeName.maxps);
    (kOpcode_26_4.maxsd, kOpcodeName.maxsd);
    (kOpcode_26_4.maxss, kOpcodeName.maxss);
    (kOpcode_26_4.mfence, kOpcodeName.mfence);
    (kOpcode_26_4.minpd, kOpcodeName.minpd);
    (kOpcode_26_4.minps, kOpcodeName.minps);
    (kOpcode_26_4.minsd, kOpcodeName.minsd);
    (kOpcode_26_4.minss, kOpcodeName.minss);
    (kOpcode_26_4.monitor, kOpcodeName.monitor);
    (kOpcode_26_4.mov, kOpcodeName.mov);
    (kOpcode_26_4.mov_segment, kOpcodeName.mov_segment);
    (kOpcode_26_4.movapd, kOpcodeName.movapd);
    (kOpcode_26_4.movaps, kOpcodeName.movaps);
    (kOpcode_26_4.movbe, kOpcodeName.movbe);
    (kOpcode_26_4.movd, kOpcodeName.movd);
    (kOpcode_26_4.movddup, kOpcodeName.movddup);
    (kOpcode_26_4.movdq2q, kOpcodeName.movdq2q);
    (kOpcode_26_4.movdqa, kOpcodeName.movdqa);
    (kOpcode_26_4.movdqu, kOpcodeName.movdqu);
    (kOpcode_26_4.movhlps, kOpcodeName.movhlps);
    (kOpcode_26_4.movhpd, kOpcodeName.movhpd);
    (kOpcode_26_4.movhps, kOpcodeName.movhps);
    (kOpcode_26_4.movlhps, kOpcodeName.movlhps);
    (kOpcode_26_4.movlpd, kOpcodeName.movlpd);
    (kOpcode_26_4.movlps, kOpcodeName.movlps);
    (kOpcode_26_4.movmskpd, kOpcodeName.movmskpd);
    (kOpcode_26_4.movmskps, kOpcodeName.movmskps);
    (kOpcode_26_4.movntdq, kOpcodeName.movntdq);
    (kOpcode_26_4.movntdqa, kOpcodeName.movntdqa);
    (kOpcode_26_4.movnti, kOpcodeName.movnti);
    (kOpcode_26_4.movntpd, kOpcodeName.movntpd);
    (kOpcode_26_4.movntps, kOpcodeName.movntps);
    (kOpcode_26_4.movntq, kOpcodeName.movntq);
    (kOpcode_26_4.movq, kOpcodeName.movq);
    (kOpcode_26_4.movq2dq, kOpcodeName.movq2dq);
    (kOpcode_26_4.movsd, kOpcodeName.movsd);
    (kOpcode_26_4.movshdup, kOpcodeName.movshdup);
    (kOpcode_26_4.movsldup, kOpcodeName.movsldup);
    (kOpcode_26_4.movsq_string, kOpcodeName.movsq_string);
    (kOpcode_26_4.movss, kOpcodeName.movss);
    (kOpcode_26_4.movsw_string, kOpcodeName.movsw_string);
    (kOpcode_26_4.movsx, kOpcodeName.movsx);
    (kOpcode_26_4.movsxd, kOpcodeName.movsxd);
    (kOpcode_26_4.movupd, kOpcodeName.movupd);
    (kOpcode_26_4.movups, kOpcodeName.movups);
    (kOpcode_26_4.movzx, kOpcodeName.movzx);
    (kOpcode_26_4.mpsadbw, kOpcodeName.mpsadbw);
    (kOpcode_26_4.mulpd, kOpcodeName.mulpd);
    (kOpcode_26_4.mulps, kOpcodeName.mulps);
    (kOpcode_26_4.mulsd, kOpcodeName.mulsd);
    (kOpcode_26_4.mulss, kOpcodeName.mulss);
    (kOpcode_26_4.mulx, kOpcodeName.mulx);
    (kOpcode_26_4.mwait, kOpcodeName.mwait);
    (kOpcode_26_4.nop, kOpcodeName.nop);
    (kOpcode_26_4.not, kOpcodeName.not);
    (kOpcode_26_4.orpd, kOpcodeName.orpd);
    (kOpcode_26_4.orps, kOpcodeName.orps);
    (kOpcode_26_4.out, kOpcodeName.out);
    (kOpcode_26_4.pabsb, kOpcodeName.pabsb);
    (kOpcode_26_4.pabsd, kOpcodeName.pabsd);
    (kOpcode_26_4.pabsw, kOpcodeName.pabsw);
    (kOpcode_26_4.packssdw, kOpcodeName.packssdw);
    (kOpcode_26_4.packsswb, kOpcodeName.packsswb);
    (kOpcode_26_4.packusdw, kOpcodeName.packusdw);
    (kOpcode_26_4.packuswb, kOpcodeName.packuswb);
    (kOpcode_26_4.paddb, kOpcodeName.paddb);
    (kOpcode_26_4.paddd, kOpcodeName.paddd);
    (kOpcode_26_4.paddq, kOpcodeName.paddq);
    (kOpcode_26_4.paddsb, kOpcodeName.paddsb);
    (kOpcode_26_4.paddsw, kOpcodeName.paddsw);
    (kOpcode_26_4.paddusb, kOpcodeName.paddusb);
    (kOpcode_26_4.paddusw, kOpcodeName.paddusw);
    (kOpcode_26_4.paddw, kOpcodeName.paddw);
    (kOpcode_26_4.palignr, kOpcodeName.palignr);
    (kOpcode_26_4.pand, kOpcodeName.pand);
    (kOpcode_26_4.pandn, kOpcodeName.pandn);
    (kOpcode_26_4.pavgb, kOpcodeName.pavgb);
    (kOpcode_26_4.pavgw, kOpcodeName.pavgw);
    (kOpcode_26_4.pblendvb, kOpcodeName.pblendvb);
    (kOpcode_26_4.pblendw, kOpcodeName.pblendw);
    (kOpcode_26_4.pclmulqdq, kOpcodeName.pclmulqdq);
    (kOpcode_26_4.pcmpeqb, kOpcodeName.pcmpeqb);
    (kOpcode_26_4.pcmpeqd, kOpcodeName.pcmpeqd);
    (kOpcode_26_4.pcmpeqq, kOpcodeName.pcmpeqq);
    (kOpcode_26_4.pcmpeqw, kOpcodeName.pcmpeqw);
    (kOpcode_26_4.pcmpestri_32, kOpcodeName.pcmpestri_32);
    (kOpcode_26_4.pcmpestri_64, kOpcodeName.pcmpestri_64);
    (kOpcode_26_4.pcmpestrm_32, kOpcodeName.pcmpestrm_32);
    (kOpcode_26_4.pcmpestrm_64, kOpcodeName.pcmpestrm_64);
    (kOpcode_26_4.pcmpgtb, kOpcodeName.pcmpgtb);
    (kOpcode_26_4.pcmpgtd, kOpcodeName.pcmpgtd);
    (kOpcode_26_4.pcmpgtq, kOpcodeName.pcmpgtq);
    (kOpcode_26_4.pcmpgtw, kOpcodeName.pcmpgtw);
    (kOpcode_26_4.pcmpistri_32, kOpcodeName.pcmpistri_32);
    (kOpcode_26_4.pcmpistri_64, kOpcodeName.pcmpistri_64);
    (kOpcode_26_4.pcmpistrm, kOpcodeName.pcmpistrm);
    (kOpcode_26_4.pdep, kOpcodeName.pdep);
    (kOpcode_26_4.pext, kOpcodeName.pext);
    (kOpcode_26_4.pextrb, kOpcodeName.pextrb);
    (kOpcode_26_4.pextrdq, kOpcodeName.pextrdq);
    (kOpcode_26_4.pextrw, kOpcodeName.pextrw);
    (kOpcode_26_4.phaddd, kOpcodeName.phaddd);
    (kOpcode_26_4.phaddsw, kOpcodeName.phaddsw);
    (kOpcode_26_4.phaddw, kOpcodeName.phaddw);
    (kOpcode_26_4.phminposuw, kOpcodeName.phminposuw);
    (kOpcode_26_4.phsubd, kOpcodeName.phsubd);
    (kOpcode_26_4.phsubsw, kOpcodeName.phsubsw);
    (kOpcode_26_4.phsubw, kOpcodeName.phsubw);
    (kOpcode_26_4.pinsrb, kOpcodeName.pinsrb);
    (kOpcode_26_4.pinsrdq, kOpcodeName.pinsrdq);
    (kOpcode_26_4.pinsrw, kOpcodeName.pinsrw);
    (kOpcode_26_4.pmaddubsw, kOpcodeName.pmaddubsw);
    (kOpcode_26_4.pmaddwd, kOpcodeName.pmaddwd);
    (kOpcode_26_4.pmaxsb, kOpcodeName.pmaxsb);
    (kOpcode_26_4.pmaxsd, kOpcodeName.pmaxsd);
    (kOpcode_26_4.pmaxsw, kOpcodeName.pmaxsw);
    (kOpcode_26_4.pmaxub, kOpcodeName.pmaxub);
    (kOpcode_26_4.pmaxud, kOpcodeName.pmaxud);
    (kOpcode_26_4.pmaxuw, kOpcodeName.pmaxuw);
    (kOpcode_26_4.pminsb, kOpcodeName.pminsb);
    (kOpcode_26_4.pminsd, kOpcodeName.pminsd);
    (kOpcode_26_4.pminsw, kOpcodeName.pminsw);
    (kOpcode_26_4.pminub, kOpcodeName.pminub);
    (kOpcode_26_4.pminud, kOpcodeName.pminud);
    (kOpcode_26_4.pminuw, kOpcodeName.pminuw);
    (kOpcode_26_4.pmovmskb, kOpcodeName.pmovmskb);
    (kOpcode_26_4.pmovsxbd, kOpcodeName.pmovsxbd);
    (kOpcode_26_4.pmovsxbq, kOpcodeName.pmovsxbq);
    (kOpcode_26_4.pmovsxbw, kOpcodeName.pmovsxbw);
    (kOpcode_26_4.pmovsxdq, kOpcodeName.pmovsxdq);
    (kOpcode_26_4.pmovsxwd, kOpcodeName.pmovsxwd);
    (kOpcode_26_4.pmovsxwq, kOpcodeName.pmovsxwq);
    (kOpcode_26_4.pmovzxbd, kOpcodeName.pmovzxbd);
    (kOpcode_26_4.pmovzxbq, kOpcodeName.pmovzxbq);
    (kOpcode_26_4.pmovzxbw, kOpcodeName.pmovzxbw);
    (kOpcode_26_4.pmovzxdq, kOpcodeName.pmovzxdq);
    (kOpcode_26_4.pmovzxwd, kOpcodeName.pmovzxwd);
    (kOpcode_26_4.pmovzxwq, kOpcodeName.pmovzxwq);
    (kOpcode_26_4.pmuldq, kOpcodeName.pmuldq);
    (kOpcode_26_4.pmulhrsw, kOpcodeName.pmulhrsw);
    (kOpcode_26_4.pmulhuw, kOpcodeName.pmulhuw);
    (kOpcode_26_4.pmulhw, kOpcodeName.pmulhw);
    (kOpcode_26_4.pmulld, kOpcodeName.pmulld);
    (kOpcode_26_4.pmullw, kOpcodeName.pmullw);
    (kOpcode_26_4.pmuludq, kOpcodeName.pmuludq);
    (kOpcode_26_4.pop, kOpcodeName.pop);
    (kOpcode_26_4.pop_segment, kOpcodeName.pop_segment);
    (kOpcode_26_4.popa, kOpcodeName.popa);
    (kOpcode_26_4.popad, kOpcodeName.popad);
    (kOpcode_26_4.popd, kOpcodeName.popd);
    (kOpcode_26_4.popd_segment, kOpcodeName.popd_segment);
    (kOpcode_26_4.popw, kOpcodeName.popw);
    (kOpcode_26_4.popw_segment, kOpcodeName.popw_segment);
    (kOpcode_26_4.por, kOpcodeName.por);
    (kOpcode_26_4.prefetchnta, kOpcodeName.prefetchnta);
    (kOpcode_26_4.prefetcht0, kOpcodeName.prefetcht0);
    (kOpcode_26_4.prefetcht1, kOpcodeName.prefetcht1);
    (kOpcode_26_4.prefetcht2, kOpcodeName.prefetcht2);
    (kOpcode_26_4.prefetchw, kOpcodeName.prefetchw);
    (kOpcode_26_4.prefetchwt1, kOpcodeName.prefetchwt1);
    (kOpcode_26_4.psadbw, kOpcodeName.psadbw);
    (kOpcode_26_4.pshufb, kOpcodeName.pshufb);
    (kOpcode_26_4.pshufd, kOpcodeName.pshufd);
    (kOpcode_26_4.pshufhw, kOpcodeName.pshufhw);
    (kOpcode_26_4.pshuflw, kOpcodeName.pshuflw);
    (kOpcode_26_4.pshufw, kOpcodeName.pshufw);
    (kOpcode_26_4.psignb, kOpcodeName.psignb);
    (kOpcode_26_4.psignd, kOpcodeName.psignd);
    (kOpcode_26_4.psignw, kOpcodeName.psignw);
    (kOpcode_26_4.pslld, kOpcodeName.pslld);
    (kOpcode_26_4.pslldq, kOpcodeName.pslldq);
    (kOpcode_26_4.psllq, kOpcodeName.psllq);
    (kOpcode_26_4.psllw, kOpcodeName.psllw);
    (kOpcode_26_4.psrad, kOpcodeName.psrad);
    (kOpcode_26_4.psraw, kOpcodeName.psraw);
    (kOpcode_26_4.psrld, kOpcodeName.psrld);
    (kOpcode_26_4.psrldq, kOpcodeName.psrldq);
    (kOpcode_26_4.psrlq, kOpcodeName.psrlq);
    (kOpcode_26_4.psrlw, kOpcodeName.psrlw);
    (kOpcode_26_4.psubb, kOpcodeName.psubb);
    (kOpcode_26_4.psubd, kOpcodeName.psubd);
    (kOpcode_26_4.psubq, kOpcodeName.psubq);
    (kOpcode_26_4.psubsb, kOpcodeName.psubsb);
    (kOpcode_26_4.psubsw, kOpcodeName.psubsw);
    (kOpcode_26_4.psubusb, kOpcodeName.psubusb);
    (kOpcode_26_4.psubusw, kOpcodeName.psubusw);
    (kOpcode_26_4.psubw, kOpcodeName.psubw);
    (kOpcode_26_4.punpckhbw, kOpcodeName.punpckhbw);
    (kOpcode_26_4.punpckhdq, kOpcodeName.punpckhdq);
    (kOpcode_26_4.punpckhqdq, kOpcodeName.punpckhqdq);
    (kOpcode_26_4.punpckhwd, kOpcodeName.punpckhwd);
    (kOpcode_26_4.punpcklbw, kOpcodeName.punpcklbw);
    (kOpcode_26_4.punpckldq, kOpcodeName.punpckldq);
    (kOpcode_26_4.punpcklqdq, kOpcodeName.punpcklqdq);
    (kOpcode_26_4.punpcklwd, kOpcodeName.punpcklwd);
    (kOpcode_26_4.push, kOpcodeName.push);
    (kOpcode_26_4.push_segment, kOpcodeName.push_segment);
    (kOpcode_26_4.pusha, kOpcodeName.pusha);
    (kOpcode_26_4.pushad, kOpcodeName.pushad);
    (kOpcode_26_4.pushd, kOpcodeName.pushd);
    (kOpcode_26_4.pushd_segment, kOpcodeName.pushd_segment);
    (kOpcode_26_4.pushw, kOpcodeName.pushw);
    (kOpcode_26_4.pushw_segment, kOpcodeName.pushw_segment);
    (kOpcode_26_4.pxor, kOpcodeName.pxor);
    (kOpcode_26_4.rcpps, kOpcodeName.rcpps);
    (kOpcode_26_4.rcpss, kOpcodeName.rcpss);
    (kOpcode_26_4.rdmsr, kOpcodeName.rdmsr);
    (kOpcode_26_4.rdpmc, kOpcodeName.rdpmc);
    (kOpcode_26_4.rdtsc, kOpcodeName.rdtsc);
    (kOpcode_26_4.rdtscp, kOpcodeName.rdtscp);
    (kOpcode_26_4.ret, kOpcodeName.ret);
    (kOpcode_26_4.ret_far, kOpcodeName.ret_far);
    (kOpcode_26_4.rorx, kOpcodeName.rorx);
    (kOpcode_26_4.roundpd, kOpcodeName.roundpd);
    (kOpcode_26_4.roundps, kOpcodeName.roundps);
    (kOpcode_26_4.roundsd, kOpcodeName.roundsd);
    (kOpcode_26_4.roundss, kOpcodeName.roundss);
    (kOpcode_26_4.rsqrtps, kOpcodeName.rsqrtps);
    (kOpcode_26_4.rsqrtss, kOpcodeName.rsqrtss);
    (kOpcode_26_4.sarx, kOpcodeName.sarx);
    (kOpcode_26_4.sfence, kOpcodeName.sfence);
    (kOpcode_26_4.sgdt, kOpcodeName.sgdt);
    (kOpcode_26_4.sgdtd, kOpcodeName.sgdtd);
    (kOpcode_26_4.shlx, kOpcodeName.shlx);
    (kOpcode_26_4.shrx, kOpcodeName.shrx);
    (kOpcode_26_4.shufpd, kOpcodeName.shufpd);
    (kOpcode_26_4.shufps, kOpcodeName.shufps);
    (kOpcode_26_4.sidt, kOpcodeName.sidt);
    (kOpcode_26_4.sldt, kOpcodeName.sldt);
    (kOpcode_26_4.sldt32, kOpcodeName.sldt32);
    (kOpcode_26_4.smsw, kOpcodeName.smsw);
    (kOpcode_26_4.sqrtpd, kOpcodeName.sqrtpd);
    (kOpcode_26_4.sqrtps, kOpcodeName.sqrtps);
    (kOpcode_26_4.sqrtsd, kOpcodeName.sqrtsd);
    (kOpcode_26_4.sqrtss, kOpcodeName.sqrtss);
    (kOpcode_26_4.sti, kOpcodeName.sti);
    (kOpcode_26_4.stmxcsr, kOpcodeName.stmxcsr);
    (kOpcode_26_4.str, kOpcodeName.str);
    (kOpcode_26_4.subpd, kOpcodeName.subpd);
    (kOpcode_26_4.subps, kOpcodeName.subps);
    (kOpcode_26_4.subsd, kOpcodeName.subsd);
    (kOpcode_26_4.subss, kOpcodeName.subss);
    (kOpcode_26_4.swapgs, kOpcodeName.swapgs);
    (kOpcode_26_4.syscall, kOpcodeName.syscall);
    (kOpcode_26_4.sysenter, kOpcodeName.sysenter);
    (kOpcode_26_4.sysexit, kOpcodeName.sysexit);
    (kOpcode_26_4.sysret, kOpcodeName.sysret);
    (kOpcode_26_4.ud2, kOpcodeName.ud2);
    (kOpcode_26_4.unpckhpd, kOpcodeName.unpckhpd);
    (kOpcode_26_4.unpckhps, kOpcodeName.unpckhps);
    (kOpcode_26_4.unpcklpd, kOpcodeName.unpcklpd);
    (kOpcode_26_4.unpcklps, kOpcodeName.unpcklps);
    (kOpcode_26_4.vbroadcastf128, kOpcodeName.vbroadcastf128);
    (kOpcode_26_4.vbroadcasti128, kOpcodeName.vbroadcasti128);
    (kOpcode_26_4.vbroadcastsd, kOpcodeName.vbroadcastsd);
    (kOpcode_26_4.vbroadcastss, kOpcodeName.vbroadcastss);
    (kOpcode_26_4.vcvtph2ps, kOpcodeName.vcvtph2ps);
    (kOpcode_26_4.vcvtps2ph, kOpcodeName.vcvtps2ph);
    (kOpcode_26_4.vextractf128, kOpcodeName.vextractf128);
    (kOpcode_26_4.vextracti128, kOpcodeName.vextracti128);
    (kOpcode_26_4.vfmadd132pd, kOpcodeName.vfmadd132pd);
    (kOpcode_26_4.vfmadd132ps, kOpcodeName.vfmadd132ps);
    (kOpcode_26_4.vfmadd132sd, kOpcodeName.vfmadd132sd);
    (kOpcode_26_4.vfmadd132ss, kOpcodeName.vfmadd132ss);
    (kOpcode_26_4.vfmadd213pd, kOpcodeName.vfmadd213pd);
    (kOpcode_26_4.vfmadd213ps, kOpcodeName.vfmadd213ps);
    (kOpcode_26_4.vfmadd213sd, kOpcodeName.vfmadd213sd);
    (kOpcode_26_4.vfmadd213ss, kOpcodeName.vfmadd213ss);
    (kOpcode_26_4.vfmadd231pd, kOpcodeName.vfmadd231pd);
    (kOpcode_26_4.vfmadd231ps, kOpcodeName.vfmadd231ps);
    (kOpcode_26_4.vfmadd231sd, kOpcodeName.vfmadd231sd);
    (kOpcode_26_4.vfmadd231ss, kOpcodeName.vfmadd231ss);
    (kOpcode_26_4.vfmaddsub132pd, kOpcodeName.vfmaddsub132pd);
    (kOpcode_26_4.vfmaddsub132ps, kOpcodeName.vfmaddsub132ps);
    (kOpcode_26_4.vfmaddsub213pd, kOpcodeName.vfmaddsub213pd);
    (kOpcode_26_4.vfmaddsub213ps, kOpcodeName.vfmaddsub213ps);
    (kOpcode_26_4.vfmaddsub231pd, kOpcodeName.vfmaddsub231pd);
    (kOpcode_26_4.vfmaddsub231ps, kOpcodeName.vfmaddsub231ps);
    (kOpcode_26_4.vfmsub132pd, kOpcodeName.vfmsub132pd);
    (kOpcode_26_4.vfmsub132ps, kOpcodeName.vfmsub132ps);
    (kOpcode_26_4.vfmsub132sd, kOpcodeName.vfmsub132sd);
    (kOpcode_26_4.vfmsub132ss, kOpcodeName.vfmsub132ss);
    (kOpcode_26_4.vfmsub213pd, kOpcodeName.vfmsub213pd);
    (kOpcode_26_4.vfmsub213ps, kOpcodeName.vfmsub213ps);
    (kOpcode_26_4.vfmsub213sd, kOpcodeName.vfmsub213sd);
    (kOpcode_26_4.vfmsub213ss, kOpcodeName.vfmsub213ss);
    (kOpcode_26_4.vfmsub231pd, kOpcodeName.vfmsub231pd);
    (kOpcode_26_4.vfmsub231ps, kOpcodeName.vfmsub231ps);
    (kOpcode_26_4.vfmsub231sd, kOpcodeName.vfmsub231sd);
    (kOpcode_26_4.vfmsub231ss, kOpcodeName.vfmsub231ss);
    (kOpcode_26_4.vfmsubadd132pd, kOpcodeName.vfmsubadd132pd);
    (kOpcode_26_4.vfmsubadd132ps, kOpcodeName.vfmsubadd132ps);
    (kOpcode_26_4.vfmsubadd213pd, kOpcodeName.vfmsubadd213pd);
    (kOpcode_26_4.vfmsubadd213ps, kOpcodeName.vfmsubadd213ps);
    (kOpcode_26_4.vfmsubadd231pd, kOpcodeName.vfmsubadd231pd);
    (kOpcode_26_4.vfmsubadd231ps, kOpcodeName.vfmsubadd231ps);
    (kOpcode_26_4.vfnmadd132pd, kOpcodeName.vfnmadd132pd);
    (kOpcode_26_4.vfnmadd132ps, kOpcodeName.vfnmadd132ps);
    (kOpcode_26_4.vfnmadd132sd, kOpcodeName.vfnmadd132sd);
    (kOpcode_26_4.vfnmadd132ss, kOpcodeName.vfnmadd132ss);
    (kOpcode_26_4.vfnmadd213pd, kOpcodeName.vfnmadd213pd);
    (kOpcode_26_4.vfnmadd213ps, kOpcodeName.vfnmadd213ps);
    (kOpcode_26_4.vfnmadd213sd, kOpcodeName.vfnmadd213sd);
    (kOpcode_26_4.vfnmadd213ss, kOpcodeName.vfnmadd213ss);
    (kOpcode_26_4.vfnmadd231pd, kOpcodeName.vfnmadd231pd);
    (kOpcode_26_4.vfnmadd231ps, kOpcodeName.vfnmadd231ps);
    (kOpcode_26_4.vfnmadd231sd, kOpcodeName.vfnmadd231sd);
    (kOpcode_26_4.vfnmadd231ss, kOpcodeName.vfnmadd231ss);
    (kOpcode_26_4.vfnmsub132pd, kOpcodeName.vfnmsub132pd);
    (kOpcode_26_4.vfnmsub132ps, kOpcodeName.vfnmsub132ps);
    (kOpcode_26_4.vfnmsub132sd, kOpcodeName.vfnmsub132sd);
    (kOpcode_26_4.vfnmsub132ss, kOpcodeName.vfnmsub132ss);
    (kOpcode_26_4.vfnmsub213pd, kOpcodeName.vfnmsub213pd);
    (kOpcode_26_4.vfnmsub213ps, kOpcodeName.vfnmsub213ps);
    (kOpcode_26_4.vfnmsub213sd, kOpcodeName.vfnmsub213sd);
    (kOpcode_26_4.vfnmsub213ss, kOpcodeName.vfnmsub213ss);
    (kOpcode_26_4.vfnmsub231pd, kOpcodeName.vfnmsub231pd);
    (kOpcode_26_4.vfnmsub231ps, kOpcodeName.vfnmsub231ps);
    (kOpcode_26_4.vfnmsub231sd, kOpcodeName.vfnmsub231sd);
    (kOpcode_26_4.vfnmsub231ss, kOpcodeName.vfnmsub231ss);
    (kOpcode_26_4.vgatherdpd, kOpcodeName.vgatherdpd);
    (kOpcode_26_4.vgatherdps, kOpcodeName.vgatherdps);
    (kOpcode_26_4.vgatherqpd, kOpcodeName.vgatherqpd);
    (kOpcode_26_4.vgatherqps, kOpcodeName.vgatherqps);
    (kOpcode_26_4.vinsertf128, kOpcodeName.vinsertf128);
    (kOpcode_26_4.vinserti128, kOpcodeName.vinserti128);
    (kOpcode_26_4.vmaskmovpd, kOpcodeName.vmaskmovpd);
    (kOpcode_26_4.vmaskmovps, kOpcodeName.vmaskmovps);
    (kOpcode_26_4.vpblendd, kOpcodeName.vpblendd);
    (kOpcode_26_4.vpbroadcastb, kOpcodeName.vpbroadcastb);
    (kOpcode_26_4.vpbroadcastd, kOpcodeName.vpbroadcastd);
    (kOpcode_26_4.vpbroadcastq, kOpcodeName.vpbroadcastq);
    (kOpcode_26_4.vpbroadcastw, kOpcodeName.vpbroadcastw);
    (kOpcode_26_4.vperm2f128, kOpcodeName.vperm2f128);
    (kOpcode_26_4.vperm2i128, kOpcodeName.vperm2i128);
    (kOpcode_26_4.vpermd, kOpcodeName.vpermd);
    (kOpcode_26_4.vpermilpd, kOpcodeName.vpermilpd);
    (kOpcode_26_4.vpermilps, kOpcodeName.vpermilps);
    (kOpcode_26_4.vpermpd, kOpcodeName.vpermpd);
    (kOpcode_26_4.vpermps, kOpcodeName.vpermps);
    (kOpcode_26_4.vpermq, kOpcodeName.vpermq);
    (kOpcode_26_4.vpgatherdd, kOpcodeName.vpgatherdd);
    (kOpcode_26_4.vpgatherdq, kOpcodeName.vpgatherdq);
    (kOpcode_26_4.vpgatherqd, kOpcodeName.vpgatherqd);
    (kOpcode_26_4.vpgatherqq, kOpcodeName.vpgatherqq);
    (kOpcode_26_4.vpmaskmovd, kOpcodeName.vpmaskmovd);
    (kOpcode_26_4.vpmaskmovq, kOpcodeName.vpmaskmovq);
    (kOpcode_26_4.vpsllvd, kOpcodeName.vpsllvd);
    (kOpcode_26_4.vpsllvq, kOpcodeName.vpsllvq);
    (kOpcode_26_4.vpsravd, kOpcodeName.vpsravd);
    (kOpcode_26_4.vpsrlvd, kOpcodeName.vpsrlvd);
    (kOpcode_26_4.vpsrlvq, kOpcodeName.vpsrlvq);
    (kOpcode_26_4.vzeroall, kOpcodeName.vzeroall);
    (kOpcode_26_4.vzeroupper, kOpcodeName.vzeroupper);
    (kOpcode_26_4.wait, kOpcodeName.wait);
    (kOpcode_26_4.wbinv, kOpcodeName.wbinv);
    (kOpcode_26_4.wrmsr, kOpcodeName.wrmsr);
    (kOpcode_26_4.xchg, kOpcodeName.xchg);
    (kOpcode_26_4.xgetbv, kOpcodeName.xgetbv);
    (kOpcode_26_4.xlat, kOpcodeName.xlat);
    (kOpcode_26_4.xorpd, kOpcodeName.xorpd);
    (kOpcode_26_4.xorps, kOpcodeName.xorps);
    (kOpcode_26_4.xrstor, kOpcodeName.xrstor);
    (kOpcode_26_4.xsave, kOpcodeName.xsave);
    (kOpcode_26_4.xsetbv, kOpcodeName.xsetbv);
    (kOpcode_26_4.arpl, kOpcodeName.arpl) ].

Definition internal_to_host_cases : list (Z * Z) :=
  [ (kOpcodeName.aaa, kOpcode_26_4.aaa);
    (kOpcodeName.aad, kOpcode_26_4.aad);
    (kOpcodeName.aam, kOpcode_26_4.aam);
    (kOpcodeName.aas, kOpcode_26_4.aas);
    (kOpcodeName.adc, kOpcode_26_4.adc);
    (kOpcodeName.add, kOpcode_26_4.add);
    (kOpcodeName.and, kOpcode_26_4.and);
    (kOpcodeName.andn, kOpcode_26_4.andn);
    (kOpcodeName.bextr, kOpcode_26_4.bextr);
    (kOpcodeName.blsi, kOpcode_26_4.blsi);
    (kOpcodeName.blsmsk, kOpcode_26_4.blsmsk);
    (kOpcodeName.blsr, kOpcode_26_4.blsr);
    (kOpcodeName.bsf, kOpcode_26_4.bsf);
    (kOpcodeName.bsr, kOpcode_26_4.bsr);
    (kOpcodeName.bt, kOpcode_26_4.bt);
    (kOpcodeName.btc, kOpcode_26_4.btc);
    (kOpcodeName.btr, kOpcode_26_4.btr);
    (kOpcodeName.bts, kOpcode_26_4.bts);
    (kOpcodeName.bzhi, kOpcode_26_4.bzhi);
    (kOpcodeName.clc, kOpcode_26_4.clc);
    (kOpcodeName.cld, kOpcode_26_4.cld);
    (kOpcodeName.cmc, kOpcode_26_4.cmc);
    (kOpcodeName.cmovcc, kOpcode_26_4.cmovcc);
    (kOpcodeName.cmp, kOpcode_26_4.cmp);
    (kOpcodeName.cmpsb_string, kOpcode_26_4.cmpsb_string);
    (kOpcodeName.cmpsd_string, kOpcode_26_4.cmpsd_string);
    (kOpcodeName.cmpsq_string, kOpcode_26_4.cmpsq_string);
    (kOpcodeName.cmpsw_string, kOpcode_26_4.cmpsw_string);
    (kOpcodeName.cmpxchg, kOpcode_26_4.cmpxchg);
    (kOpcodeName.cmpxchg16b, kOpcode_26_4.cmpxchg16b);
    (kOpcodeName.cmpxchg8b, kOpcode_26_4.cmpxchg8b);
    (kOpcodeName.comisd, kOpcode_26_4.comisd);
    (kOpcodeName.comiss, kOpcode_26_4.comiss);
    (kOpcodeName.daa, kOpcode_26_4.daa);
    (kOpcodeName.das, kOpcode_26_4.das);
    (kOpcodeName.dec, kOpcode_26_4.dec);
    (kOpcodeName.div, kOpcode_26_4.div);
    (kOpcodeName.fcmovb, kOpcode_26_4.fcmovb);
    (kOpcodeName.fcmovbe, kOpcode_26_4.fcmovbe);
    (kOpcodeName.fcmove, kOpcode_26_4.fcmove);
    (kOpcodeName.fcmovnb, kOpcode_26_4.fcmovnb);
    (kOpcodeName.fcmovnbe, kOpcode_26_4.fcmovnbe);
    (kOpcodeName.fcmovne, kOpcode_26_4.fcmovne);
    (kOpcodeName.fcmovnu, kOpcode_26_4.fcmovnu);
    (kOpcodeName.fcmovu, kOpcode_26_4.fcmovu);
    (kOpcodeName.fcomi, kOpcode_26_4.fcomi);
    (kOpcodeName.fcomip, kOpcode_26_4.fcomip);
    (kOpcodeName.fucomi, kOpcode_26_4.fucomi);
    (kOpcodeName.fucomip, kOpcode_26_4.fucomip);
    (kOpcodeName.idiv, kOpcode_26_4.idiv);
    (kOpcodeName.imul, kOpcode_26_4.imul);
    (kOpcodeName.inc, kOpcode_26_4.inc);
    (kOpcodeName.insb, kOpcode_26_4.insb);
    (kOpcodeName.insd, kOpcode_26_4.insd);
    (kOpcodeName.insw, kOpcode_26_4.insw);
    (kOpcodeName.jcc, kOpcode_26_4.jcc);
    (kOpcodeName.lahf, kOpcode_26_4.lahf);
    (kOpcodeName.lodsb, kOpcode_26_4.lodsb);
    (kOpcodeName.lodsd, kOpcode_26_4.lodsd);
    (kOpcodeName.lodsq, kOpcode_26_4.lodsq);
    (kOpcodeName.lodsw, kOpcode_26_4.lodsw);
    (kOpcodeName.loope, kOpcode_26_4.loope);
    (kOpcodeName.looped, kOpcode_26_4.looped);
    (kOpcodeName.loopew, kOpcode_26_4.loopew);
    (kOpcodeName.loopne, kOpcode_26_4.loopne);
    (kOpcodeName.loopned, kOpcode_26_4.loopned);
    (kOpcodeName.loopnew, kOpcode_26_4.loopnew);
    (kOpcodeName.lsl, kOpcode_26_4.lsl);
    (kOpcodeName.lzcnt, kOpcode_26_4.lzcnt);
    (kOpcodeName.movsb_string, kOpcode_26_4.movsb_string);
    (kOpcodeName.movsd_string, kOpcode_26_4.movsd_string);
    (kOpcodeName.mul, kOpcode_26_4.mul);
    (kOpcodeName.neg, kOpcode_26_4.neg);
    (kOpcodeName.or, kOpcode_26_4.or);
    (kOpcodeName.outsb, kOpcode_26_4.outsb);
    (kOpcodeName.outsd, kOpcode_26_4.outsd);
    (kOpcodeName.outsw, kOpcode_26_4.outsw);
    (kOpcodeName.popcnt, kOpcode_26_4.popcnt);
    (kOpcodeName.popf, kOpcode_26_4.popf);
    (kOpcodeName.popfd, kOpcode_26_4.popfd);
    (kOpcodeName.popfq, kOpcode_26_4.popfq);
    (kOpcodeName.ptest, kOpcode_26_4.ptest);
    (kOpcodeName.pushf, kOpcode_26_4.pushf);
    (kOpcodeName.pushfd, kOpcode_26_4.pushfd);
    (kOpcodeName.pushfq, kOpcode_26_4.pushfq);
    (kOpcodeName.rcl, kOpcode_26_4.rcl);
    (kOpcodeName.rcr, kOpcode_26_4.rcr);
    (kOpcodeName.rdrand, kOpcode_26_4.rdrand);
    (kOpcodeName.rol, kOpcode_26_4.rol);
    (kOpcodeName.ror, kOpcode_26_4.ror);
    (kOpcodeName.sahf, kOpcode_26_4.sahf);
    (kOpcodeName.sar, kOpcode_26_4.sar);
    (kOpcodeName.sbb, kOpcode_26_4.sbb);
    (kOpcodeName.scasb, kOpcode_26_4.scasb);
    (kOpcodeName.scasd, kOpcode_26_4.scasd);
    (kOpcodeName.scasq, kOpcode_26_4.scasq);
    (kOpcodeName.scasw, kOpcode_26_4.scasw);
    (kOpcodeName.setcc, kOpcode_26_4.setcc);
    (kOpcodeName.shl, kOpcode_26_4.shl);
    (kOpcodeName.shld, kOpcode_26_4.shld);
    (kOpcodeName.shr, kOpcode_26_4.shr);
    (kOpcodeName.shrd, kOpcode_26_4.shrd);
    (kOpcodeName.stc, kOpcode_26_4.stc);
    (kOpcodeName.std, kOpcode_26_4.std);
    (kOpcodeName.stosb, kOpcode_26_4.stosb);
    (kOpcodeName.stosd, kOpcode_26_4.stosd);
    (kOpcodeName.stosq, kOpcode_26_4.stosq);
    (kOpcodeName.stosw, kOpcode_26_4.stosw);
    (kOpcodeName.sub, kOpcode_26_4.sub);
    (kOpcodeName.test, kOpcode_26_4.test);
    (kOpcodeName.tzcnt, kOpcode_26_4.tzcnt);
    (kOpcodeName.ucomisd, kOpcode_26_4.ucomisd);
    (kOpcodeName.ucomiss, kOpcode_26_4.ucomiss);
    (kOpcodeName.vtestpd, kOpcode_26_4.vtestpd);
    (kOpcodeName.vtestps, kOpcode_26_4.vtestps);
    (kOpcodeName.xadd, kOpcode_26_4.xadd);
    (kOpcodeName.xor, kOpcode_26_4.xor);
    (kOpcodeName.addpd, kOpcode_26_4.addpd);
    (kOpcodeName.addps, kOpcode_26_4.addps);
    (kOpcodeName.addsd, kOpcode_26_4.addsd);
    (kOpcodeName.addss, kOpcode_26_4.addss);
    (kOpcodeName.addsubpd, kOpcode_26_4.addsubpd);
    (kOpcodeName.addsubps, kOpcode_26_4.addsubps);
    (kOpcodeName.aesdec, kOpcode_26_4.aesdec);
    (kOpcodeName.aesdeclast, kOpcode_26_4.aesdeclast);
    (kOpcodeName.aesenc, kOpcode_26_4.aesenc);
    (kOpcodeName.aesenclast, kOpcode_26_4.aesenclast);
    (kOpcodeName.aesimc, kOpcode_26_4.aesimc);
    (kOpcodeName.aeskeygenassist, kOpcode_26_4.aeskeygenassist);
    (kOpcodeName.andnpd, kOpcode_26_4.andnpd);
    (kOpcodeName.andnps, kOpcode_26_4.andnps);
    (kOpcodeName.andpd, kOpcode_26_4.andpd);
    (kOpcodeName.andps, kOpcode_26_4.andps);
    (kOpcodeName.blendpd, kOpcode_26_4.blendpd);
    (kOpcodeName.blendps, kOpcode_26_4.blendps);
    (kOpcodeName.blendvpd, kOpcode_26_4.blendvpd);
    (kOpcodeName.blendvps, kOpcode_26_4.blendvps);
    (kOpcodeName.bound, kOpcode_26_4.bound);
    (kOpcodeName.bswap, kOpcode_26_4.bswap);
    (kOpcodeName.call, kOpcode_26_4.call);
    (kOpcodeName.call_far, kOpcode_26_4.call_far);
    (kOpcodeName.cbw, kOpcode_26_4.cbw);
    (kOpcodeName.cdq, kOpcode_26_4.cdq);
    (kOpcodeName.cdqe, kOpcode_26_4.cdqe);
    (kOpcodeName.clflush, kOpcode_26_4.clflush);
    (kOpcodeName.cli, kOpcode_26_4.cli);
    (kOpcodeName.cmppd, kOpcode_26_4.cmppd);
    (kOpcodeName.cmpps, kOpcode_26_4.cmpps);
    (kOpcodeName.cmpsd, kOpcode_26_4.cmpsd);
    (kOpcodeName.cmpss, kOpcode_26_4.cmpss);
    (kOpcodeName.cpuid, kOpcode_26_4.cpuid);
    (kOpcodeName.cqo, kOpcode_26_4.cqo);
    (kOpcodeName.crc32, kOpcode_26_4.crc32);
    (kOpcodeName.cvtdq2pd, kOpcode_26_4.cvtdq2pd);
    (kOpcodeName.cvtdq2ps, kOpcode_26_4.cvtdq2ps);
    (kOpcodeName.cvtpd2dq, kOpcode_26_4.cvtpd2dq);
    (kOpcodeName.cvtpd2pi, kOpcode_26_4.cvtpd2pi);
    (kOpcodeName.cvtpd2ps, kOpcode_26_4.cvtpd2ps);
    (kOpcodeName.cvtpi2pd, kOpcode_26_4.cvtpi2pd);
    (kOpcodeName.cvtpi2ps, kOpcode_26_4.cvtpi2ps);
    (kOpcodeName.cvtps2dq, kOpcode_26_4.cvtps2dq);
    (kOpcodeName.cvtps2pd, kOpcode_26_4.cvtps2pd);
    (kOpcodeName.cvtps2pi, kOpcode_26_4.cvtps2pi);
    (kOpcodeName.cvtsd2si, kOpcode_26_4.cvtsd2si);
    (kOpcodeName.cvtsd2ss, kOpcode_26_4.cvtsd2ss);
    (kOpcodeName.cvtsi2sd, kOpcode_26_4.cvtsi2sd);
    (kOpcodeName.cvtsi2ss, kOpcode_26_4.cvtsi2ss);
    (kOpcodeName.cvtss2sd, kOpcode_26_4.cvtss2sd);
    (kOpcodeName.cvtss2si, kOpcode_26_4.cvtss2si);
    (kOpcodeName.cvttpd2dq, kOpcode_26_4.cvttpd2dq);
    (kOpcodeName.cvttpd2pi, kOpcode_26_4.cvttpd2pi);
    (kOpcodeName.cvttps2dq, kOpcode_26_4.cvttps2dq);
    (kOpcodeName.cvttps2pi, kOpcode_26_4.cvttps2pi);
    (kOpcodeName.cvttsd2si, kOpcode_26_4.cvttsd2si);
    (kOpcodeName.cvttss2si, kOpcode_26_4.cvttss2si);
    (kOpcodeName.cwd, kOpcode_26_4.cwd);
    (kOpcodeName.cwde, kOpcode_26_4.cwde);
    (kOpcodeName.divpd, kOpcode_26_4.divpd);
    (kOpcodeName.divps, kOpcode_26_4.divps);
    (kOpcodeName.divsd, kOpcode_26_4.divsd);
    (kOpcodeName.divss, kOpcode_26_4.divss);
    (kOpcodeName.dppd, kOpcode_26_4.dppd);
    (kOpcodeName.dpps, kOpcode_26_4.dpps);
    (kOpcodeName.emms, kOpcode_26_4.emms);
    (kOpcodeName.enter, kOpcode_26_4.enter);
    (kOpcodeName.enterd, kOpcode_26_4.enterd);
    (kOpcodeName.enterw, kOpcode_26_4.enterw);
    (kOpcodeName.extractps, kOpcode_26_4.extractps);
    (kOpcodeName.f2xm1, kOpcode_26_4.f2xm1);
    (kOpcodeName.fabs, kOpcode_26_4.fabs);
    (kOpcodeName.fadd, kOpcode_26_4.fadd);
    (kOpcodeName.faddp, kOpcode_26_4.faddp);
    (kOpcodeName.fbld, kOpcode_26_4.fbld);
    (kOpcodeName.fbstp, kOpcode_26_4.fbstp);
    (kOpcodeName.fchs, kOpcode_26_4.fchs);
    (kOpcodeName.fclex, kOpcode_26_4.fclex);
    (kOpcodeName.fcom, kOpcode_26_4.fcom);
    (kOpcodeName.fcomp, kOpcode_26_4.fcomp);
    (kOpcodeName.fcompp, kOpcode_26_4.fcompp);
    (kOpcodeName.fcos, kOpcode_26_4.fcos);
    (kOpcodeName.fdecstp, kOpcode_26_4.fdecstp);
    (kOpcodeName.fdisi, kOpcode_26_4.fdisi);
    (kOpcodeName.fdiv, kOpcode_26_4.fdiv);
    (kOpcodeName.fdivp, kOpcode_26_4.fdivp);
    (kOpcodeName.fdivr, kOpcode_26_4.fdivr);
    (kOpcodeName.fdivrp, kOpcode_26_4.fdivrp);
    (kOpcodeName.feni, kOpcode_26_4.feni);
    (kOpcodeName.ffree, kOpcode_26_4.ffree);
    (kOpcodeName.fiadd, kOpcode_26_4.fiadd);
    (kOpcodeName.ficom, kOpcode_26_4.ficom);
    (kOpcodeName.ficomp, kOpcode_26_4.ficomp);
    (kOpcodeName.fidiv, kOpcode_26_4.fidiv);
    (kOpcodeName.fidivr, kOpcode_26_4.fidivr);
    (kOpcodeName.fild, kOpcode_26_4.fild);
    (kOpcodeName.fimul, kOpcode_26_4.fimul);
    (kOpcodeName.fincstp, kOpcode_26_4.fincstp);
    (kOpcodeName.finit, kOpcode_26_4.finit);
    (kOpcodeName.fist, kOpcode_26_4.fist);
    (kOpcodeName.fistp, kOpcode_26_4.fistp);
    (kOpcodeName.fisttp, kOpcode_26_4.fisttp);
    (kOpcodeName.fisub, kOpcode_26_4.fisub);
    (kOpcodeName.fisubr, kOpcode_26_4.fisubr);
    (kOpcodeName.fld, kOpcode_26_4.fld);
    (kOpcodeName.fld1, kOpcode_26_4.fld1);
    (kOpcodeName.fldcw, kOpcode_26_4.fldcw);
    (kOpcodeName.fldenv, kOpcode_26_4.fldenv);
    (kOpcodeName.fldl2e, kOpcode_26_4.fldl2e);
    (kOpcodeName.fldl2t, kOpcode_26_4.fldl2t);
    (kOpcodeName.fldlg2, kOpcode_26_4.fldlg2);
    (kOpcodeName.fldln2, kOpcode_26_4.fldln2);
    (kOpcodeName.fldpi, kOpcode_26_4.fldpi);
    (kOpcodeName.fldz, kOpcode_26_4.fldz);
    (kOpcodeName.fmul, kOpcode_26_4.fmul);
    (kOpcodeName.fmulp, kOpcode_26_4.fmulp);
    (kOpcodeName.fnop, kOpcode_26_4.fnop);
    (kOpcodeName.fnstcw, kOpcode_26_4.fnstcw);
    (kOpcodeName.fpatan, kOpcode_26_4.fpatan);
    (kOpcodeName.fprem, kOpcode_26_4.fprem);
    (kOpcodeName.fprem1, kOpcode_26_4.fprem1);
    (kOpcodeName.fptan, kOpcode_26_4.fptan);
    (kOpcodeName.frndint, kOpcode_26_4.frndint);
    (kOpcodeName.frstor, kOpcode_26_4.frstor);
    (kOpcodeName.fsave, kOpcode_26_4.fsave);
    (kOpcodeName.fscale, kOpcode_26_4.fscale);
    (kOpcodeName.fsin, kOpcode_26_4.fsin);
    (kOpcodeName.fsincos, kOpcode_26_4.fsincos);
    (kOpcodeName.fsqrt, kOpcode_26_4.fsqrt);
    (kOpcodeName.fst, kOpcode_26_4.fst);
    (kOpcodeName.fst_stack, kOpcode_26_4.fst_stack);
    (kOpcodeName.fstenv, kOpcode_26_4.fstenv);
    (kOpcodeName.fstp, kOpcode_26_4.fstp);
    (kOpcodeName.fstp_stack, kOpcode_26_4.fstp_stack);
    (kOpcodeName.fstsw, kOpcode_26_4.fstsw);
    (kOpcodeName.fsub, kOpcode_26_4.fsub);
    (kOpcodeName.fsubp, kOpcode_26_4.fsubp);
    (kOpcodeName.fsubr, kOpcode_26_4.fsubr);
    (kOpcodeName.fsubrp, kOpcode_26_4.fsubrp);
    (kOpcodeName.ftst, kOpcode_26_4.ftst);
    (kOpcodeName.fucom, kOpcode_26_4.fucom);
    (kOpcodeName.fucomp, kOpcode_26_4.fucomp);
    (kOpcodeName.fucompp, kOpcode_26_4.fucompp);
    (kOpcodeName.fxam, kOpcode_26_4.fxam);
    (kOpcodeName.fxch, kOpcode_26_4.fxch);
    (kOpcodeName.fxrstor, kOpcode_26_4.fxrstor);
    (kOpcodeName.fxsave, kOpcode_26_4.fxsave);
    (kOpcodeName.fxtract, kOpcode_26_4.fxtract);
    (kOpcodeName.fyl2x, kOpcode_26_4.fyl2x);
    (kOpcodeName.fyl2xp1, kOpcode_26_4.fyl2xp1);
    (kOpcodeName.haddpd, kOpcode_26_4.haddpd);
    (kOpcodeName.haddps, kOpcode_26_4.haddps);
    (kOpcodeName.hlt, kOpcode_26_4.hlt);
    (kOpcodeName.hsubpd, kOpcode_26_4.hsubpd);
    (kOpcodeName.hsubps, kOpcode_26_4.hsubps);
    (kOpcodeName.in_, kOpcode_26_4.in_);
    (kOpcodeName.insertps, kOpcode_26_4.insertps);
    (kOpcodeName.int, kOpcode_26_4.int);
    (kOpcodeName.int3, kOpcode_26_4.int3);
    (kOpcodeName.invd, kOpcode_26_4.invd);
    (kOpcodeName.invlpg, kOpcode_26_4.invlpg);
    (kOpcodeName.iret, kOpcode_26_4.iret);
    (kOpcodeName.iret_64, kOpcode_26_4.iret_64);
    (kOpcodeName.jcxz, kOpcode_26_4.jcxz);
    (kOpcodeName.jecxz, kOpcode_26_4.jecxz);
    (kOpcodeName.jmp, kOpcode_26_4.jmp);
    (kOpcodeName.jmp_far, kOpcode_26_4.jmp_far);
    (kOpcodeName.jrcxz, kOpcode_26_4.jrcxz);
    (kOpcodeName.l_segment, kOpcode_26_4.l_segment);
    (kOpcodeName.lddqu, kOpcode_26_4.lddqu);
    (kOpcodeName.ldmxcsr, kOpcode_26_4.ldmxcsr);
    (kOpcodeName.lea, kOpcode_26_4.lea);
    (kOpcodeName.leave, kOpcode_26_4.leave);
    (kOpcodeName.leaved, kOpcode_26_4.leaved);
    (kOpcodeName.leavew, kOpcode_26_4.leavew);
    (kOpcodeName.lfence, kOpcode_26_4.lfence);
    (kOpcodeName.lgdt, kOpcode_26_4.lgdt);
    (kOpcodeName.lidt, kOpcode_26_4.lidt);
    (kOpcodeName.lmsw, kOpcode_26_4.lmsw);
    (kOpcodeName.loop, kOpcode_26_4.loop);
    (kOpcodeName.loopd, kOpcode_26_4.loopd);
    (kOpcodeName.loopw, kOpcode_26_4.loopw);
    (kOpcodeName.maskmovdqu, kOpcode_26_4.maskmovdqu);
    (kOpcodeName.maskmovq, kOpcode_26_4.maskmovq);
    (kOpcodeName.maxpd, kOpcode_26_4.maxpd);
    (kOpcodeName.maxps, kOpcode_26_4.maxps);
    (kOpcodeName.maxsd, kOpcode_26_4.maxsd);
    (kOpcodeName.maxss, kOpcode_26_4.maxss);
    (kOpcodeName.mfence, kOpcode_26_4.mfence);
    (kOpcodeName.minpd, kOpcode_26_4.minpd);
    (kOpcodeName.minps, kOpcode_26_4.minps);
    (kOpcodeName.minsd, kOpcode_26_4.minsd);
    (kOpcodeName.minss, kOpcode_26_4.minss);
    (kOpcodeName.monitor, kOpcode_26_4.monitor);
    (kOpcodeName.mov, kOpcode_26_4.mov);
    (kOpcodeName.mov_segment, kOpcode_26_4.mov_segment);
    (kOpcodeName.movapd, kOpcode_26_4.movapd);
    (kOpcodeName.movaps, kOpcode_26_4.movaps);
    (kOpcodeName.movbe, kOpcode_26_4.movbe);
    (kOpcodeName.movd, kOpcode_26_4.movd);
    (kOpcodeName.movddup, kOpcode_26_4.movddup);
    (kOpcodeName.movdq2q, kOpcode_26_4.movdq2q);
    (kOpcodeName.movdqa, kOpcode_26_4.movdqa);
    (kOpcodeName.movdqu, kOpcode_26_4.movdqu);
    (kOpcodeName.movhlps, kOpcode_26_4.movhlps);
    (kOpcodeName.movhpd, kOpcode_26_4.movhpd);
    (kOpcodeName.movhps, kOpcode_26_4.movhps);
    (kOpcodeName.movlhps, kOpcode_26_4.movlhps);
    (kOpcodeName.movlpd, kOpcode_26_4.movlpd);
    (kOpcodeName.movlps, kOpcode_26_4.movlps);
    (kOpcodeName.movmskpd, kOpcode_26_4.movmskpd);
    (kOpcodeName.movmskps, kOpcode_26_4.movmskps);
    (kOpcodeName.movntdq, kOpcode_26_4.movntdq);
    (kOpcodeName.movntdqa, kOpcode_26_4.movntdqa);
    (kOpcodeName.movnti, kOpcode_26_4.movnti);
    (kOpcodeName.movntpd, kOpcode_26_4.movntpd);
    (kOpcodeName.movntps, kOpcode_26_4.movntps);
    (kOpcodeName.movntq, kOpcode_26_4.movntq);
    (kOpcodeName.movq, kOpcode_26_4.movq);
    (kOpcodeName.movq2dq, kOpcode_26_4.movq2dq);
    (kOpcodeName.movsd, kOpcode_26_4.movsd);
    (kOpcodeName.movshdup, kOpcode_26_4.movshdup);
    (kOpcodeName.movsldup, kOpcode_26_4.movsldup);
    (kOpcodeName.movsq_string, kOpcode_26_4.movsq_string);
    (kOpcodeName.movss, kOpcode_26_4.movss);
    (kOpcodeName.movsw_string, kOpcode_26_4.movsw_string);
    (kOpcodeName.movsx, kOpcode_26_4.movsx);
    (kOpcodeName.movsxd, kOpcode_26_4.movsxd);
    (kOpcodeName.movupd, kOpcode_26_4.movupd);
    (kOpcodeName.movups, kOpcode_26_4.movups);
    (kOpcodeName.movzx, kOpcode_26_4.movzx);
    (kOpcodeName.mpsadbw, kOpcode_26_4.mpsadbw);
    (kOpcodeName.mulpd, kOpcode_26_4.mulpd);
    (kOpcodeName.mulps, kOpcode_26_4.mulps);
    (kOpcodeName.mulsd, kOpcode_26_4.mulsd);
    (kOpcodeName.mulss, kOpcode_26_4.mulss);
    (kOpcodeName.mulx, kOpcode_26_4.mulx);
    (kOpcodeName.mwait, kOpcode_26_4.mwait);
    (kOpcodeName.nop, kOpcode_26_4.nop);
    (kOpcodeName.not, kOpcode_26_4.not);
    (kOpcodeName.orpd, kOpcode_26_4.orpd);
    (kOpcodeName.orps, kOpcode_26_4.orps);
    (kOpcodeName.out, kOpcode_26_4.out);
    (kOpcodeName.pabsb, kOpcode_26_4.pabsb);
    (kOpcodeName.pabsd, kOpcode_26_4.pabsd);
    (kOpcodeName.pabsw, kOpcode_26_4.pabsw);
    (kOpcodeName.packssdw, kOpcode_26_4.packssdw);
    (kOpcodeName.packsswb, kOpcode_26_4.packsswb);
    (kOpcodeName.packusdw, kOpcode_26_4.packusdw);
    (kOpcodeName.packuswb, kOpcode_26_4.packuswb);
    (kOpcodeName.paddb, kOpcode_26_4.paddb);
    (kOpcodeName.paddd, kOpcode_26_4.paddd);
    (kOpcodeName.paddq, kOpcode_26_4.paddq);
    (kOpcodeName.paddsb, kOpcode_26_4.paddsb);
    (kOpcodeName.paddsw, kOpcode_26_4.paddsw);
    (kOpcodeName.paddusb, kOpcode_26_4.paddusb);
    (kOpcodeName.paddusw, kOpcode_26_4.paddusw);
    (kOpcodeName.paddw, kOpcode_26_4.paddw);
    (kOpcodeName.palignr, kOpcode_26_4.palignr);
    (kOpcodeName.pand, kOpcode_26_4.pand);
    (kOpcodeName.pandn, kOpcode_26_4.pandn);
    (kOpcodeName.pavgb, kOpcode_26_4.pavgb);
    (kOpcodeName.pavgw, kOpcode_26_4.pavgw);
    (kOpcodeName.pblendvb, kOpcode_26_4.pblendvb);
    (kOpcodeName.pblendw, kOpcode_26_4.pblendw);
    (kOpcodeName.pclmulqdq, kOpcode_26_4.pclmulqdq);
    (kOpcodeName.pcmpeqb, kOpcode_26_4.pcmpeqb);
    (kOpcodeName.pcmpeqd, kOpcode_26_4.pcmpeqd);
    (kOpcodeName.pcmpeqq, kOpcode_26_4.pcmpeqq);
    (kOpcodeName.pcmpeqw, kOpcode_26_4.pcmpeqw);
    (kOpcodeName.pcmpestri_32, kOpcode_26_4.pcmpestri_32);
    (kOpcodeName.pcmpestri_64, kOpcode_26_4.pcmpestri_64);
    (kOpcodeName.pcmpestrm_32, kOpcode_26_4.pcmpestrm_32);
    (kOpcodeName.pcmpestrm_64, kOpcode_26_4.pcmpestrm_64);
    (kOpcodeName.pcmpgtb, kOpcode_26_4.pcmpgtb);
    (kOpcodeName.pcmpgtd, kOpcode_26_4.pcmpgtd);
    (kOpcodeName.pcmpgtq, kOpcode_26_4.pcmpgtq);
    (kOpcodeName.pcmpgtw, kOpcode_26_4.pcmpgtw);
    (kOpcodeName.pcmpistri_32, kOpcode_26_4.pcmpistri_32);
    (kOpcodeName.pcmpistri_64, kOpcode_26_4.pcmpistri_64);
    (kOpcodeName.pcmpistrm, kOpcode_26_4.pcmpistrm);
    (kOpcodeName.pdep, kOpcode_26_4.pdep);
    (kOpcodeName.pext, kOpcode_26_4.pext);
    (kOpcodeName.pextrb, kOpcode_26_4.pextrb);
    (kOpcodeName.pextrdq, kOpcode_26_4.pextrdq);
    (kOpcodeName.pextrw, kOpcode_26_4.pextrw);
    (kOpcodeName.phaddd, kOpcode_26_4.phaddd);
    (kOpcodeName.phaddsw, kOpcode_26_4.phaddsw);
    (kOpcodeName.phaddw, kOpcode_26_4.phaddw);
    (kOpcodeName.phminposuw, kOpcode_26_4.phminposuw);
    (kOpcodeName.phsubd, kOpcode_26_4.phsubd);
    (kOpcodeName.phsubsw, kOpcode_26_4.phsubsw);
    (kOpcodeName.phsubw, kOpcode_26_4.phsubw);
    (kOpcodeName.pinsrb, kOpcode_26_4.pinsrb);
    (kOpcodeName.pinsrdq, kOpcode_26_4.pinsrdq);
    (kOpcodeName.pinsrw, kOpcode_26_4.pinsrw);
    (kOpcodeName.pmaddubsw, kOpcode_26_4.pmaddubsw);
    (kOpcodeName.pmaddwd, kOpcode_26_4.pmaddwd);
    (kOpcodeName.pmaxsb, kOpcode_26_4.pmaxsb);
    (kOpcodeName.pmaxsd, kOpcode_26_4.pmaxsd);
    (kOpcodeName.pmaxsw, kOpcode_26_4.pmaxsw);
    (kOpcodeName.pmaxub, kOpcode_26_4.pmaxub);
    (kOpcodeName.pmaxud, kOpcode_26_4.pmaxud);
    (kOpcodeName.pmaxuw, kOpcode_26_4.pmaxuw);
    (kOpcodeName.pminsb, kOpcode_26_4.pminsb);
    (kOpcodeName.pminsd, kOpcode_26_4.pminsd);
    (kOpcodeName.pminsw, kOpcode_26_4.pminsw);
    (kOpcodeName.pminub, kOpcode_26_4.pminub);
    (kOpcodeName.pminud, kOpcode_26_4.pminud);
    (kOpcodeName.pminuw, kOpcode_26_4.pminuw);
    (kOpcodeName.pmovmskb, kOpcode_26_4.pmovmskb);
    (kOpcodeName.pmovsxbd, kOpcode_26_4.pmovsxbd);
    (kOpcodeName.pmovsxbq, kOpcode_26_4.pmovsxbq);
    (kOpcodeName.pmovsxbw, kOpcode_26_4.pmovsxbw);
    (kOpcodeName.pmovsxdq, kOpcode_26_4.pmovsxdq);
    (kOpcodeName.pmovsxwd, kOpcode_26_4.pmovsxwd);
    (kOpcodeName.pmovsxwq, kOpcode_26_4.pmovsxwq);
    (kOpcodeName.pmovzxbd, kOpcode_26_4.pmovzxbd);
    (kOpcodeName.pmovzxbq, kOpcode_26_4.pmovzxbq);
    (kOpcodeName.pmovzxbw, kOpcode_26_4.pmovzxbw);
    (kOpcodeName.pmovzxdq, kOpcode_26_4.pmovzxdq);
    (kOpcodeName.pmovzxwd, kOpcode_26_4.pmovzxwd);
    (kOpcodeName.pmovzxwq, kOpcode_26_4.pmovzxwq);
    (kOpcodeName.pmuldq, kOpcode_26_4.pmuldq);
    (kOpcodeName.pmulhrsw, kOpcode_26_4.pmulhrsw);
    (kOpcodeName.pmulhuw, kOpcode_26_4.pmulhuw);
    (kOpcodeName.pmulhw, kOpcode_26_4.pmulhw);
    (kOpcodeName.pmulld, kOpcode_26_4.pmulld);
    (kOpcodeName.pmullw, kOpcode_26_4.pmullw);
    (kOpcodeName.pmuludq, kOpcode_26_4.pmuludq);
    (kOpcodeName.pop, kOpcode_26_4.pop);
    (kOpcodeName.pop_segment, kOpcode_26_4.pop_segment);
    (kOpcodeName.popa, kOpcode_26_4.popa);
    (kOpcodeName.popad, kOpcode_26_4.popad);
    (kOpcodeName.popd, kOpcode_26_4.popd);
    (kOpcodeName.popd_segment, kOpcode_26_4.popd_segment);
    (kOpcodeName.popw, kOpcode_26_4.popw);
    (kOpcodeName.popw_segment, kOpcode_26_4.popw_segment);
    (kOpcodeName.por, kOpcode_26_4.por);
    (kOpcodeName.prefetchnta, kOpcode_26_4.prefetchnta);
    (kOpcodeName.prefetcht0, kOpcode_26_4.prefetcht0);
    (kOpcodeName.prefetcht1, kOpcode_26_4.prefetcht1);
    (kOpcodeName.prefetcht2, kOpcode_26_4.prefetcht2);
    (kOpcodeName.prefetchw, kOpcode_26_4.prefetchw);
    (kOpcodeName.prefetchwt1, kOpcode_26_4.prefetchwt1);
    (kOpcodeName.psadbw, kOpcode_26_4.psadbw);
    (kOpcodeName.pshufb, kOpcode_26_4.pshufb);
    (kOpcodeName.pshufd, kOpcode_26_4.pshufd);
    (kOpcodeName.pshufhw, kOpcode_26_4.pshufhw);
    (kOpcodeName.pshuflw, kOpcode_26_4.pshuflw);
    (kOpcodeName.pshufw, kOpcode_26_4.pshufw);
    (kOpcodeName.psignb, kOpcode_26_4.psignb);
    (kOpcodeName.psignd, kOpcode_26_4.psignd);
    (kOpcodeName.psignw, kOpcode_26_4.psignw);
    (kOpcodeName.pslld, kOpcode_26_4.pslld);
    (kOpcodeName.pslldq, kOpcode_26_4.pslldq);
    (kOpcodeName.psllq, kOpcode_26_4.psllq);
    (kOpcodeName.psllw, kOpcode_26_4.psllw);
    (kOpcodeName.psrad, kOpcode_26_4.psrad);
    (kOpcodeName.psraw, kOpcode_26_4.psraw);
    (kOpcodeName.psrld, kOpcode_26_4.psrld);
    (kOpcodeName.psrldq, kOpcode_26_4.psrldq);
    (kOpcodeName.psrlq, kOpcode_26_4.psrlq);
    (kOpcodeName.psrlw, kOpcode_26_4.psrlw);
    (kOpcodeName.psubb, kOpcode_26_4.psubb);
    (kOpcodeName.psubd, kOpcode_26_4.psubd);
    (kOpcodeName.psubq, kOpcode_26_4.psubq);
    (kOpcodeName.psubsb, kOpcode_26_4.psubsb);
    (kOpcodeName.psubsw, kOpcode_26_4.psubsw);
    (kOpcodeName.psubusb, kOpcode_26_4.psubusb);
    (kOpcodeName.psubusw, kOpcode_26_4.psubusw);
    (kOpcodeName.psubw, kOpcode_26_4.psubw);
    (kOpcodeName.punpckhbw, kOpcode_26_4.punpckhbw);
    (kOpcodeName.punpckhdq, kOpcode_26_4.punpckhdq);
    (kOpcodeName.punpckhqdq, kOpcode_26_4.punpckhqdq);
    (kOpcodeName.punpckhwd, kOpcode_26_4.punpckhwd);
    (kOpcodeName.punpcklbw, kOpcode_26_4.punpcklbw);
    (kOpcodeName.punpckldq, kOpcode_26_4.punpckldq);
    (kOpcodeName.punpcklqdq, kOpcode_26_4.punpcklqdq);
    (kOpcodeName.punpcklwd, kOpcode_26_4.punpcklwd);
    (kOpcodeName.push, kOpcode_26_4.push);
    (kOpcodeName.push_segment, kOpcode_26_4.push_segment);
    (kOpcodeName.pusha, kOpcode_26_4.pusha);
    (kOpcodeName.pushad, kOpcode_26_4.pushad);
    (kOpcodeName.pushd, kOpcode_26_4.pushd);
    (kOpcodeName.pushd_segment, kOpcode_26_4.pushd_segment);
    (kOpcodeName.pushw, kOpcode_26_4.pushw);
    (kOpcodeName.pushw_segment, kOpcode_26_4.pushw_segment);
    (kOpcodeName.pxor, kOpcode_26_4.pxor);
    (kOpcodeName.rcpps, kOpcode_26_4.rcpps);
    (kOpcodeName.rcpss, kOpcode_26_4.rcpss);
    (kOpcodeName.rdmsr, kOpcode_26_4.rdmsr);
    (kOpcodeName.rdpmc, kOpcode_26_4.rdpmc);
    (kOpcodeName.rdtsc, kOpcode_26_4.rdtsc);
    (kOpcodeName.rdtscp, kOpcode_26_4.rdtscp);
    (kOpcodeName.ret, kOpcode_26_4.ret);
    (kOpcodeName.ret_far, kOpcode_26_4.ret_far);
    (kOpcodeName.rorx, kOpcode_26_4.rorx);
    (kOpcodeName.roundpd, kOpcode_26_4.roundpd);
    (kOpcodeName.roundps, kOpcode_26_4.roundps);
    (kOpcodeName.roundsd, kOpcode_26_4.roundsd);
    (kOpcodeName.roundss, kOpcode_26_4.roundss);
    (kOpcodeName.rsqrtps, kOpcode_26_4.rsqrtps);
    (kOpcodeName.rsqrtss, kOpcode_26_4.rsqrtss);
    (kOpcodeName.sarx, kOpcode_26_4.sarx);
    (kOpcodeName.sfence, kOpcode_26_4.sfence);
    (kOpcodeName.sgdt, kOpcode_26_4.sgdt);
    (kOpcodeName.sgdtd, kOpcode_26_4.sgdtd);
    (kOpcodeName.shlx, kOpcode_26_4.shlx);
    (kOpcodeName.shrx, kOpcode_26_4.shrx);
    (kOpcodeName.shufpd, kOpcode_26_4.shufpd);
    (kOpcodeName.shufps, kOpcode_26_4.shufps);
    (kOpcodeName.sidt, kOpcode_26_4.sidt);
    (kOpcodeName.sldt, kOpcode_26_4.sldt);
    (kOpcodeName.sldt32, kOpcode_26_4.sldt32);
    (kOpcodeName.smsw, kOpcode_26_4.smsw);
    (kOpcodeName.sqrtpd, kOpcode_26_4.sqrtpd);
    (kOpcodeName.sqrtps, kOpcode_26_4.sqrtps);
    (kOpcodeName.sqrtsd, kOpcode_26_4.sqrtsd);
    (kOpcodeName.sqrtss, kOpcode_26_4.sqrtss);
    (kOpcodeName.sti, kOpcode_26_4.sti);
    (kOpcodeName.stmxcsr, kOpcode_26_4.stmxcsr);
    (kOpcodeName.str, kOpcode_26_4.str);
    (kOpcodeName.subpd, kOpcode_26_4.subpd);
    (kOpcodeName.subps, kOpcode_26_4.subps);
    (kOpcodeName.subsd, kOpcode_26_4.subsd);
    (kOpcodeName.subss, kOpcode_26_4.subss);
    (kOpcodeName.swapgs, kOpcode_26_4.swapgs);
    (kOpcodeName.syscall, kOpcode_26_4.syscall);
    (kOpcodeName.sysenter, kOpcode_26_4.sysenter);
    (kOpcodeName.sysexit, kOpcode_26_4.sysexit);
    (kOpcodeName.sysret, kOpcode_26_4.sysret);
    (kOpcodeName.ud2, kOpcode_26_4.ud2);
    (kOpcodeName.unpckhpd, kOpcode_26_4.unpckhpd);
    (kOpcodeName.unpckhps, kOpcode_26_4.unpckhps);
    (kOpcodeName.unpcklpd, kOpcode_26_4.unpcklpd);
    (kOpcodeName.unpcklps, kOpcode_26_4.unpcklps);
    (kOpcodeName.vbroadcastf128, kOpcode_26_4.vbroadcastf128);
    (kOpcodeName.vbroadcasti128, kOpcode_26_4.vbroadcasti128);
    (kOpcodeName.vbroadcastsd, kOpcode_26_4.vbroadcastsd);
    (kOpcodeName.vbroadcastss, kOpcode_26_4.vbroadcastss);
    (kOpcodeName.vcvtph2ps, kOpcode_26_4.vcvtph2ps);
    (kOpcodeName.vcvtps2ph, kOpcode_26_4.vcvtps2ph);
    (kOpcodeName.vextractf128, kOpcode_26_4.vextractf128);
    (kOpcodeName.vextracti128, kOpcode_26_4.vextracti128);
    (kOpcodeName.vfmadd132pd, kOpcode_26_4.vfmadd132pd);
    (kOpcodeName.vfmadd132ps, kOpcode_26_4.vfmadd132ps);
    (kOpcodeName.vfmadd132sd, kOpcode_26_4.vfmadd132sd);
    (kOpcodeName.vfmadd132ss, kOpcode_26_4.vfmadd132ss);
    (kOpcodeName.vfmadd213pd, kOpcode_26_4.vfmadd213pd);
    (kOpcodeName.vfmadd213ps, kOpcode_26_4.vfmadd213ps);
    (kOpcodeName.vfmadd213sd, kOpcode_26_4.vfmadd213sd);
    (kOpcodeName.vfmadd213ss, kOpcode_26_4.vfmadd213ss);
    (kOpcodeName.vfmadd231pd, kOpcode_26_4.vfmadd231pd);
    (kOpcodeName.vfmadd231ps, kOpcode_26_4.vfmadd231ps);
    (kOpcodeName.vfmadd231sd, kOpcode_26_4.vfmadd231sd);
    (kOpcodeName.vfmadd231ss, kOpcode_26_4.vfmadd231ss);
    (kOpcodeName.vfmaddsub132pd, kOpcode_26_4.vfmaddsub132pd);
    (kOpcodeName.vfmaddsub132ps, kOpcode_26_4.vfmaddsub132ps);
    (kOpcodeName.vfmaddsub213pd, kOpcode_26_4.vfmaddsub213pd);
    (kOpcodeName.vfmaddsub213ps, kOpcode_26_4.vfmaddsub213ps);
    (kOpcodeName.vfmaddsub231pd, kOpcode_26_4.vfmaddsub231pd);
    (kOpcodeName.vfmaddsub231ps, kOpcode_26_4.vfmaddsub231ps);
    (kOpcodeName.vfmsub132pd, kOpcode_26_4.vfmsub132pd);
    (kOpcodeName.vfmsub132ps, kOpcode_26_4.vfmsub132ps);
    (kOpcodeName.vfmsub132sd, kOpcode_26_4.vfmsub132sd);
    (kOpcodeName.vfmsub132ss, kOpcode_26_4.vfmsub132ss);
    (kOpcodeName.vfmsub213pd, kOpcode_26_4.vfmsub213pd);
    (kOpcodeName.vfmsub213ps, kOpcode_26_4.vfmsub213ps);
    (kOpcodeName.vfmsub213sd, kOpcode_26_4.vfmsub213sd);
    (kOpcodeName.vfmsub213ss, kOpcode_26_4.vfmsub213ss);
    (kOpcodeName.vfmsub231pd, kOpcode_26_4.vfmsub231pd);
    (kOpcodeName.vfmsub231ps, kOpcode_26_4.vfmsub231ps);
    (kOpcodeName.vfmsub231sd, kOpcode_26_4.vfmsub231sd);
    (kOpcodeName.vfmsub231ss, kOpcode_26_4.vfmsub231ss);
    (kOpcodeName.vfmsubadd132pd, kOpcode_26_4.vfmsubadd132pd);
    (kOpcodeName.vfmsubadd132ps, kOpcode_26_4.vfmsubadd132ps);
    (kOpcodeName.vfmsubadd213pd, kOpcode_26_4.vfmsubadd213pd);
    (kOpcodeName.vfmsubadd213ps, kOpcode_26_4.vfmsubadd213ps);
    (kOpcodeName.vfmsubadd231pd, kOpcode_26_4.vfmsubadd231pd);
    (kOpcodeName.vfmsubadd231ps, kOpcode_26_4.vfmsubadd231ps);
    (kOpcodeName.vfnmadd132pd, kOpcode_26_4.vfnmadd132pd);
    (kOpcodeName.vfnmadd132ps, kOpcode_26_4.vfnmadd132ps);
    (kOpcodeName.vfnmadd132sd, kOpcode_26_4.vfnmadd132sd);
    (kOpcodeName.vfnmadd132ss, kOpcode_26_4.vfnmadd132ss);
    (kOpcodeName.vfnmadd213pd, kOpcode_26_4.vfnmadd213pd);
    (kOpcodeName.vfnmadd213ps, kOpcode_26_4.vfnmadd213ps);
    (kOpcodeName.vfnmadd213sd, kOpcode_26_4.vfnmadd213sd);
    (kOpcodeName.vfnmadd213ss, kOpcode_26_4.vfnmadd213ss);
    (kOpcodeName.vfnmadd231pd, kOpcode_26_4.vfnmadd231pd);
    (kOpcodeName.vfnmadd231ps, kOpcode_26_4.vfnmadd231ps);
    (kOpcodeName.vfnmadd231sd, kOpcode_26_4.vfnmadd231sd);
    (kOpcodeName.vfnmadd231ss, kOpcode_26_4.vfnmadd231ss);
    (kOpcodeName.vfnmsub132pd, kOpcode_26_4.vfnmsub132pd);
    (kOpcodeName.vfnmsub132ps, kOpcode_26_4.vfnmsub132ps);
    (kOpcodeName.vfnmsub132sd, kOpcode_26_4.vfnmsub132sd);
    (kOpcodeName.vfnmsub132ss, kOpcode_26_4.vfnmsub132ss);
    (kOpcodeName.vfnmsub213pd, kOpcode_26_4.vfnmsub213pd);
    (kOpcodeName.vfnmsub213ps, kOpcode_26_4.vfnmsub213ps);
    (kOpcodeName.vfnmsub213sd, kOpcode_26_4.vfnmsub213sd);
    (kOpcodeName.vfnmsub213ss, kOpcode_26_4.vfnmsub213ss);
    (kOpcodeName.vfnmsub231pd, kOpcode_26_4.vfnmsub231pd);
    (kOpcodeName.vfnmsub231ps, kOpcode_26_4.vfnmsub231ps);
    (kOpcodeName.vfnmsub231sd, kOpcode_26_4.vfnmsub231sd);
    (kOpcodeName.vfnmsub231ss, kOpcode_26_4.vfnmsub231ss);
    (kOpcodeName.vgatherdpd, kOpcode_26_4.vgatherdpd);
    (kOpcodeName.vgatherdps, kOpcode_26_4.vgatherdps);
    (kOpcodeName.vgatherqpd, kOpcode_26_4.vgatherqpd);
    (kOpcodeName.vgatherqps, kOpcode_26_4.vgatherqps);
    (kOpcodeName.vinsertf128, kOpcode_26_4.vinsertf128);
    (kOpcodeName.vinserti128, kOpcode_26_4.vinserti128);
    (kOpcodeName.vmaskmovpd, kOpcode_26_4.vmaskmovpd);
    (kOpcodeName.vmaskmovps, kOpcode_26_4.vmaskmovps);
    (kOpcodeName.vpblendd, kOpcode_26_4.vpblendd);
    (kOpcodeName.vpbroadcastb, kOpcode_26_4.vpbroadcastb);
    (kOpcodeName.vpbroadcastd, kOpcode_26_4.vpbroadcastd);
    (kOpcodeName.vpbroadcastq, kOpcode_26_4.vpbroadcastq);
    (kOpcodeName.vpbroadcastw, kOpcode_26_4.vpbroadcastw);
    (kOpcodeName.vperm2f128, kOpcode_26_4.vperm2f128);
    (kOpcodeName.vperm2i128, kOpcode_26_4.vperm2i128);
    (kOpcodeName.vpermd, kOpcode_26_4.vpermd);
    (kOpcodeName.vpermilpd, kOpcode_26_4.vpermilpd);
    (kOpcodeName.vpermilps, kOpcode_26_4.vpermilps);
    (kOpcodeName.vpermpd, kOpcode_26_4.vpermpd);
    (kOpcodeName.vpermps, kOpcode_26_4.vpermps);
    (kOpcodeName.vpermq, kOpcode_26_4.vpermq);
    (kOpcodeName.vpgatherdd, kOpcode_26_4.vpgatherdd);
    (kOpcodeName.vpgatherdq, kOpcode_26_4.vpgatherdq);
    (kOpcodeName.vpgatherqd, kOpcode_26_4.vpgatherqd);
    (kOpcodeName.vpgatherqq, kOpcode_26_4.vpgatherqq);
    (kOpcodeName.vpmaskmovd, kOpcode_26_4.vpmaskmovd);
    (kOpcodeName.vpmaskmovq, kOpcode_26_4.vpmaskmovq);
    (kOpcodeName.vpsllvd, kOpcode_26_4.vpsllvd);
    (kOpcodeName.vpsllvq, kOpcode_26_4.vpsllvq);
    (kOpcodeName.vpsravd, kOpcode_26_4.vpsravd);
    (kOpcodeName.vpsrlvd, kOpcode_26_4.vpsrlvd);
    (kOpcodeName.vpsrlvq, kOpcode_26_4.vpsrlvq);
    (kOpcodeName.vzeroall, kOpcode_26_4.vzeroall);
    (kOpcodeName.vzeroupper, kOpcode_26_4.vzeroupper);
    (kOpcodeName.wait, kOpcode_26_4.wait);
    (kOpcodeName.wbinv, kOpcode_26_4.wbinv);
    (kOpcodeName.wrmsr, kOpcode_26_4.wrmsr);
    (kOpcodeName.xchg, kOpcode_26_4.xchg);
    (kOpcodeName.xgetbv, kOpcode_26_4.xgetbv);
    (kOpcodeName.xlat, kOpcode_26_4.xlat);
    (kOpcodeName.xorpd, kOpcode_26_4.xorpd);
    (kOpcodeName.xorps, kOpcode_26_4.xorps);
    (kOpcodeName.xrstor, kOpcode_26_4.xrstor);
    (kOpcodeName.xsave, kOpcode_26_4.xsave);
    (kOpcodeName.xsetbv, kOpcode_26_4.xsetbv);
    (kOpcodeName.arpl, kOpcode_26_4.arpl) ].

Definition opcode_host_to_internal (runtime_version opcode : Z) : Z :=
  if kVersion_26_4 <? runtime_version then opcode
  else match switch host_to_internal_cases opcode with Some o => o | None => 0 end.

Definition opcode_internal_to_host (runtime_version opcode : Z) : Z :=
  if kVersion_26_4 <? runtime_version then opcode
  else match switch internal_to_host_cases opcode with Some o => o | None => 0 end.

(** ** Theorems *)

(** The opcodes in use, 0 to 0x29C. *)
Definition known_opcode (o : Z) : Prop := 0 <= o < 669.

Lemma known_In o : known_opcode o -> In o (map Z.of_nat (seq 0 669)).
Proof.
  intros H. apply in_map_iff. exists (Z.to_nat o). unfold known_opcode in H. split; [lia|].
  apply in_seq. lia.
Qed.

(** The two switches on the known opcodes, computed. *)
Definition inverse_at (o : Z) : bool :=
  match switch host_to_internal_cases o, switch internal_to_host_cases o with
  | Some i, Some h =>
      (0 <=? i) && (i <? 669) && (0 <=? h) && (h <? 669) &&
      match switch internal_to_host_cases i, switch host_to_internal_cases h with
      | Some o1, Some o2 => (o1 =? o) && (o2 =? o)
      | _, _ => false
      end
  | _, _ => false
  end.

Lemma switches_inverse o : known_opcode o -> inverse_at o = true.
Proof.
  intros H.
  assert (A : forallb inverse_at (map Z.of_nat (seq 0 669)) = true) by (vm_compute; reflexivity).
  rewrite forallb_forall in A. apply A, known_In, H.
Qed.

Lemma switch_none cases o :
  forallb (fun c => (0 <=? fst c) && (fst c <? 669)) cases = true -> ~ known_opcode o ->
  switch cases o = None.
Proof.
  intros Hc Ho. unfold switch. destruct (find _ cases) as [c|] eqn:E; [|reflexivity].
  apply find_some in E as [Hin E]. apply Z.eqb_eq in E. rewrite forallb_forall in Hc.
  specialize (Hc c Hin). apply andb_true_iff in Hc as [H0 H1].
  apply Z.leb_le in H0. apply Z.ltb_lt in H1. unfold known_opcode in Ho. lia.
Qed.

(** C34: on every opcode the numberings name, on either side of the version,
    the two translations are inverse to each other and stay within the known
    opcodes, so IRInstr::set_opcode followed by IRInstr::opcode gives back the
    opcode; outside them, for 26.4, both answer 0, which is AAA. *)
Theorem opcode_translation_roundtrip v o :
  (known_opcode o ->
     known_opcode (opcode_host_to_internal v o) /\ known_opcode (opcode_internal_to_host v o) /\
     opcode_host_to_internal v (opcode_internal_to_host v o) = o /\
     opcode_internal_to_host v (opcode_host_to_internal v o) = o) /\
  (~ known_opcode o -> v <= kVersion_26_4 ->
     opcode_host_to_internal v o = kOpcodeName.aaa /\ opcode_internal_to_host v o = kOpcode_26_4.aaa).
Proof.
  unfold opcode_host_to_internal, opcode_internal_to_host. split.
  - intros H. destruct (kVersion_26_4 <? v); [auto|]. pose proof (switches_inverse o H) as I.
    unfold inverse_at in I. revert I.
    destruct (switch host_to_internal_cases o) as [i|]; [|discriminate].
    destruct (switch internal_to_host_cases o) as [h|]; [|discriminate].
    destruct (switch internal_to_host_cases i) as [o1|]; [|rewrite andb_false_r; discriminate].
    destruct (switch host_to_internal_cases h) as [o2|]; [|rewrite andb_false_r; discriminate].
    rewrite !andb_true_iff, !Z.leb_le, !Z.ltb_lt, !Z.eqb_eq. unfold known_opcode. lia.
  - intros H Hv. replace (kVersion_26_4 <? v) with false by (symmetry; apply Z.ltb_ge; exact Hv).
    rewrite !switch_none by (exact H || (vm_compute; reflexivity)). split; reflexivity.
Qed.

Lemma opcode_translation_roundtrip_witness :
  known_opcode kOpcodeName.xor /\
  opcode_internal_to_host 0 kOpcodeName.xor <> kOpcodeName.xor /\
  opcode_host_to_internal 0 (opcode_internal_to_host 0 kOpcodeName.xor) = kOpcodeName.xor /\
  opcode_host_to_internal 0 0x29D = 0.
Proof.
  split; [unfold known_opcode, kOpcodeName.xor; lia|]. split; [vm_compute; discriminate|]. split.
  - apply (opcode_translation_roundtrip 0 kOpcodeName.xor). unfold known_opcode, kOpcodeName.xor. lia.
  - apply (opcode_translation_roundtrip 0 0x29D); unfold known_opcode, kVersion_26_4; lia.
Defined.
