(* ===== verification/Emit.v ===== *)
(** The state the JIT's emitters share: the instruction buffer of
    AssemblerBuffer.h, the two free-register masks and the fixup lists of
    TranslationResult, threaded by a state monad whose failure is an assertion
    that fires ([RT_ASSERT] calls [rt_assert_fail], which does not return). *)

From S2P Require Import Prelude.

(** Fixup.h *)
Inductive FixupKind :=
| Abs64 | Branch26 | Branch19 | Branch14 | Arm64Adr21 | Arm64Page21 | Arm64PageOffset12.

Record Fixup := mkFixup { fixup_kind : FixupKind; insn_offset : Z; target : Z }.

(** [insn_buf] holds the words emitted so far, in order; [_fixups] and
    [external_fixups] are the two lists addresses need. *)
Record asm := mkAsm {
  insn_buf : list Z;
  free_gpr_mask : Z;
  free_fpr_mask : Z;
  _fixups : list Fixup;
  external_fixups : list Fixup
}.

(** [insn_buf.end], a byte offset. *)
Definition buf_end (s : asm) : Z := 4 * Z.of_nat (length (insn_buf s)).

Definition set_gpr_mask (s : asm) (m : Z) : asm :=
  mkAsm (insn_buf s) m (free_fpr_mask s) (_fixups s) (external_fixups s).
Definition set_fpr_mask (s : asm) (m : Z) : asm :=
  mkAsm (insn_buf s) (free_gpr_mask s) m (_fixups s) (external_fixups s).

(** [insn_buf] with [c] appended. *)
Definition append_code (s : asm) (c : list Z) : asm :=
  mkAsm (insn_buf s ++ c) (free_gpr_mask s) (free_fpr_mask s) (_fixups s) (external_fixups s).

Definition M (A : Type) : Type := asm -> option (A * asm).

Definition ret {A} (a : A) : M A := fun s => Some (a, s).

Definition bind {A B} (m : M A) (k : A -> M B) : M B := fun s =>
  match m s with Some (a, s') => k a s' | None => None end.

(** [assert(b)]. *)
Definition rt_assert (b : bool) : M unit := fun s => if b then Some (tt, s) else None.

(** [buf.emit(value)]; the argument is a uint32_t. *)
Definition emit (value : Z) : M unit := fun s =>
  Some (tt, append_code s [u32 value]).

(** [result._fixups.push_back], [result.external_fixups.push_back]: a record
    for the word about to be emitted. *)
Definition push_fixup (k : FixupKind) (t : Z) : M unit := fun s =>
  Some (tt, mkAsm (insn_buf s) (free_gpr_mask s) (free_fpr_mask s)
    (_fixups s ++ [mkFixup k (buf_end s) t]) (external_fixups s)).
Definition push_external_fixup (k : FixupKind) (t : Z) : M unit := fun s =>
  Some (tt, mkAsm (insn_buf s) (free_gpr_mask s) (free_fpr_mask s)
    (_fixups s) (external_fixups s ++ [mkFixup k (buf_end s) t])).

Declare Scope emit_scope.
Delimit Scope emit_scope with emit.
Notation "x <- m ;; k" := (bind m (fun x => k))
  (at level 100, m at next level, right associativity) : emit_scope.
Notation "' x <- m ;; k" := (bind m (fun x => k))
  (at level 100, x pattern, m at next level, right associativity) : emit_scope.
Notation "m ;;; k" := (bind m (fun _ => k)) (at level 100, right associativity) : emit_scope.
#[global] Open Scope emit_scope.

(** A for loop whose body only emits, [for (int i = lo; i < lo + n; i++)]. *)
Fixpoint for_ (lo : Z) (n : nat) (body : Z -> M unit) : M unit :=
  match n with
  | O => ret tt
  | S n' => body lo ;;; for_ (lo + 1) n' body
  end.

(** The same over a list of indices. *)
Fixpoint for_each {I} (l : list I) (body : I -> M unit) : M unit :=
  match l with
  | [] => ret tt
  | i :: l => body i ;;; for_each l body
  end.

(** [emits m a c]: from any state [m] returns [a], appends the words [c] and
    leaves everything else alone. *)
Definition emits {A} (m : M A) (a : A) (c : list Z) : Prop :=
  forall s, m s = Some (a, append_code s c).

Create HintDb emits.

Lemma append_code_nil s : append_code s [] = s.
Proof. destruct s; unfold append_code; cbn. rewrite app_nil_r. reflexivity. Qed.

Lemma append_code_app s c d : append_code (append_code s c) d = append_code s (c ++ d).
Proof. unfold append_code; cbn. rewrite app_assoc. reflexivity. Qed.

Lemma emits_ret {A} (a : A) : emits (ret a) a [].
Proof. intros s. rewrite append_code_nil. reflexivity. Qed.

Lemma emits_bind {A B} (m : M A) (k : A -> M B) a c b d :
  emits m a c -> emits (k a) b d -> emits (bind m k) b (c ++ d).
Proof.
  intros Hm Hk s. unfold bind. rewrite Hm, Hk, append_code_app. reflexivity.
Qed.

Lemma emits_emit w : emits (emit w) tt [u32 w].
Proof. intros s. reflexivity. Qed.

Lemma emits_assert b : b = true -> emits (rt_assert b) tt [].
Proof. intros -> s. unfold rt_assert. rewrite append_code_nil. reflexivity. Qed.

#[export] Hint Resolve emits_ret emits_bind emits_emit emits_assert : emits.
