(* ===== verification/Assembler.v ===== *)
(** AssemblerHelpers.cpp: the A64 instruction emitters and the logical
    immediate encoder.  Integer arguments are the [Z] they denote; a narrower
    parameter type converts its argument with [sgn] or [wrap]. *)

From S2P Require Import Prelude Emit.

Module GPR.
Definition XZR : Z := 31.
Definition SP : Z := 63.
End GPR.

(** [(uint32_t)(x & m) << k] *)
Definition fld (x m k : Z) : Z := Z.shiftl (Z.land x m) k.

Arguments fld : simpl never.

(** [(uint32_t)(x != 0) << k] *)
Definition flag (x k : Z) : Z := Z.shiftl (b2z (nz x)) k.

Arguments flag : simpl never.

Declare Scope insn_scope.
Notation "a .| b" := (Z.lor a b) (at level 50, left associativity) : insn_scope.
Open Scope insn_scope.

(** ** is_bitmask_immediate *)

Record LogicalImmEncoding := mkEnc { N : bool; immr : Z; imms : Z }.

(** [__builtin_ctzll] and [__builtin_clzll] of a nonzero 64-bit word. *)
Fixpoint ctz_pos (p : positive) : Z :=
  match p with xO q => ctz_pos q + 1 | _ => 0 end.

Definition ctzll (x : Z) : Z :=
  match x with Zpos p => ctz_pos p | _ => 64 end.

Definition clzll (x : Z) : Z :=
  match x with Zpos p => 63 - Z.log2 (Zpos p) | _ => 64 end.

(** The do/while that halves the element while its halves agree; from 64 it
    runs at most five times. *)
Fixpoint element_size_loop (fuel : nat) (value element_size : Z) : Z :=
  match fuel with
  | O => element_size
  | S fuel' =>
      let half := Z.shiftr element_size 1 in
      let element_size := Z.land element_size (unot 32 1) in
      let mask := unot 64 (u64 (Z.shiftl (Z.ones 64) half)) in
      if nz (Z.land (Z.lxor (Z.shiftr value half) value) mask) then element_size
      else if 2 <? half then element_size_loop fuel' value half else half
  end.

(** Steps 2 and the two run tests: rotation and run length of the element. *)
Definition contiguous (x : Z) : bool :=
  let filled := Z.lor (u64 (x - 1)) x in Z.land (u64 (filled + 1)) filled =? 0.

Definition find_run (value element_size : Z) : option (Z * Z) :=
  let element_mask := Z.shiftr (Z.ones 64) (64 - element_size) in
  let element := Z.land element_mask value in
  if nz element && contiguous element then
    let rotation := u8 (ctzll element) in
    Some (rotation, u8 (ctzll (unot 64 (Z.shiftr element rotation))))
  else
    let zeros := Z.land element_mask (unot 64 value) in
    if zeros =? 0 then None
    else if negb (contiguous zeros) then None
    else
      let lz := clzll zeros in
      let tz := ctzll zeros in
      Some (u8 (64 - lz), u8 (lz + tz - (64 - element_size))).

Inductive bitmask_result :=
| NotBitmask
| Bitmask (out : LogicalImmEncoding)
| BitmaskAssert.

Definition is_bitmask_immediate (is_64bit : bool) (value : Z) : bitmask_result :=
  let go value element_size0 :=
    let element_size := element_size_loop 6 value element_size0 in
    match find_run value element_size with
    | None => NotBitmask
    | Some (rotation, run_len) =>
        if rotation <=? element_size then
          let imms_raw := u8 (Z.lor (run_len - 1) (u8 (0xFE * element_size))) in
          Bitmask (mkEnc (Z.land imms_raw 0x40 =? 0)
                         (u8 (Z.land (u32 (element_size - rotation)) (element_size - 1)))
                         (Z.land imms_raw 0x3F))
        else BitmaskAssert
    end in
  if is_64bit then
    if u64 (value + 1) <? 2 then NotBitmask else go value 64
  else
    if u32 (value + 1) <? 2 then NotBitmask else go (u32 value) 32.

(** ** GPR data processing *)

Definition emit_add_imm (is_64bit is_sub is_set_flags shift imm12 Rn Rd : Z) : M unit :=
  emit (0x11000000 .| flag is_64bit 31 .| flag is_sub 30 .| flag is_set_flags 29
        .| fld shift 0x3 22 .| fld imm12 0xFFF 10 .| fld Rn 0x1F 5 .| fld Rd 0x1F 0).

Definition emit_bitfield (is_64bit opc N immr imms Rn Rd : Z) : M unit :=
  emit (0x13000000 .| flag is_64bit 31 .| fld opc 0x3 29 .| fld N 0x1 22
        .| fld (s8 immr) 0x3F 16 .| fld (s8 imms) 0x3F 10 .| fld Rn 0x1F 5 .| fld Rd 0x1F 0).

Definition emit_movn (is_64bit opc hw imm16 Rd : Z) : M unit :=
  emit (0x12800000 .| flag is_64bit 31 .| fld opc 0x3 29 .| fld hw 0x3 21
        .| Z.shiftl (u16 imm16) 5 .| fld Rd 0x1F 0).

Definition emit_lslv (is_64bit Rm Rn Rd : Z) : M unit :=
  emit (0x1AC02000 .| flag is_64bit 31 .| fld Rm 0x1F 16 .| fld Rn 0x1F 5 .| fld Rd 0x1F 0).

Definition emit_add_sub_shifted_reg
    (is_64bit is_sub is_set_flags shift_type Rm shift_amount Rn Rd : Z) : M unit :=
  emit (0x0B000000 .| flag is_64bit 31 .| flag is_sub 30 .| flag is_set_flags 29
        .| fld shift_type 0x3 22 .| fld Rm 0x1F 16 .| fld (s8 shift_amount) 0x3F 10
        .| fld Rn 0x1F 5 .| fld Rd 0x1F 0).

Definition emit_subs_reg (is_64bit Rn Rm Rd : Z) : M unit :=
  emit_add_sub_shifted_reg is_64bit 1 1 0 Rm 0 Rn Rd.

Definition emit_logical_shifted_reg
    (is_64bit opc n shift_type Rm shift_amount Rn Rd : Z) : M unit :=
  emit (0x0A000000 .| flag is_64bit 31 .| fld opc 0x3 29 .| fld shift_type 0x3 22
        .| fld n 0x1 21 .| fld Rm 0x1F 16 .| fld (s8 shift_amount) 0x3F 10
        .| fld Rn 0x1F 5 .| fld Rd 0x1F 0).

Definition emit_mov_reg (is_64bit Rd Rn : Z) : M unit :=
  if (Rd =? GPR.SP) || (Rn =? GPR.SP) then emit_add_imm is_64bit 0 0 0 0 Rn Rd
  else emit_logical_shifted_reg is_64bit 1 0 0 Rn 0 GPR.XZR Rd.

Definition emit_add_reg (is_64bit dst lhs rhs : Z) : M unit :=
  if (dst =? GPR.SP) || (lhs =? GPR.SP) then
    let ext := if nz is_64bit then 3 else 2 in
    emit (0x0B200000 .| flag is_64bit 31 .| fld rhs 0x1F 16 .| fld ext 0x7 13
          .| fld lhs 0x1F 5 .| fld dst 0x1F 0)
  else emit_add_sub_shifted_reg is_64bit 0 0 0 rhs 0 lhs dst.

Definition emit_logical_imm (is_64bit opc N immr imms Rn Rd : Z) : M unit :=
  rt_assert (negb (Rn =? GPR.SP)) ;;;
  rt_assert (negb (Rd =? GPR.SP)) ;;;
  emit (0x12000000 .| flag is_64bit 31 .| fld opc 0x3 29 .| flag N 22
        .| fld (s8 immr) 0x3F 16 .| fld (s8 imms) 0x3F 10 .| fld Rn 0x1F 5 .| fld Rd 0x1F 0).

Definition emit_and_imm (is_64bit Rd N immr imms Rn : Z) : M unit :=
  rt_assert ((is_64bit =? 1) || (N =? 0)) ;;;
  emit_logical_imm is_64bit 0 N (s8 immr) (s8 imms) Rn Rd.

Definition emit_orr_imm (is_64bit Rd Rn N immr imms : Z) : M unit :=
  rt_assert ((is_64bit =? 1) || (N =? 0)) ;;;
  emit_logical_imm is_64bit 1 N (s8 immr) (s8 imms) Rn Rd.

Definition emit_adr (is_adrp Rd imm : Z) : M unit :=
  rt_assert (negb (Rd =? GPR.XZR)) ;;;
  emit ((if nz is_adrp then 0x90000000 else 0x10000000)
        .| fld Rd 0x1F 0 .| fld imm 0x3 29 .| fld (Z.shiftr imm 2) 0x7FFFF 5).

Definition emit_cset (is_64bit cond Rd : Z) : M unit :=
  let inv_cond := u32 (Z.lxor cond 1) in
  emit (0x1A9F07E0 .| fld is_64bit 1 31 .| fld inv_cond 0xF 12 .| fld Rd 0x1F 0).

(** ** Loads and stores *)

Definition emit_ldr_str_imm (size is_fp opc imm12 Rn Rt : Z) : M unit :=
  let effective_opc := if size =? 4 then Z.lor opc 2 else opc in
  emit (0x39000000 .| fld size 0x3 30 .| fld is_fp 0x1 26 .| fld effective_opc 0x3 22
        .| fld (u16 (s16 imm12)) 0xFFF 10 .| fld Rn 0x1F 5 .| fld Rt 0x1F 0).

Definition emit_ldr_str_reg (size is_fp opc Rm shift Rn Rt : Z) : M unit :=
  let effective_opc := if size =? 4 then Z.lor opc 2 else opc in
  emit (0x38206800 .| fld size 0x3 30 .| fld is_fp 0x1 26 .| fld effective_opc 0x3 22
        .| fld Rm 0x1F 16 .| flag shift 12 .| fld Rn 0x1F 5 .| fld Rt 0x1F 0).

Definition emit_ldr_str_imm_ext
    (data_size write_back extend_mode offset Rn Rt : Z) : M unit :=
  let effective_opc := if data_size =? 4 then Z.lor extend_mode 2 else extend_mode in
  emit (0x38000000 .| fld data_size 0x3 30 .| fld effective_opc 0x3 22
        .| fld (s16 offset) 0x1FF 12 .| fld write_back 0x1 11
        .| fld Rn 0x1F 5 .| fld Rt 0x1F 0).

Definition emit_ldr_imm (size Rt Rn imm12 : Z) : M unit :=
  emit_ldr_str_imm size 0 1 (s16 imm12) Rn Rt.

Definition emit_str_imm (size Rt Rn imm12 : Z) : M unit :=
  emit_ldr_str_imm size 0 0 (s16 imm12) Rn Rt.

Definition emit_fldr_imm (size Dt Rn imm12 : Z) : M unit :=
  emit_ldr_str_imm size 1 1 (s16 imm12) Rn Dt.

Definition emit_fstr_imm (size Dt Rn imm12 : Z) : M unit :=
  emit_ldr_str_imm size 1 0 (s16 imm12) Rn Dt.

Definition emit_fldur_fstur (size is_load imm9 Rn Vt : Z) : M unit :=
  emit (0x3C000000 .| fld size 3 30 .| fld is_load 1 22 .| fld (u32 (s16 imm9)) 0x1FF 12
        .| fld Rn 0x1F 5 .| fld Vt 0x1F 0).

Definition emit_ldur_stur (size is_load imm9 Rn Rt : Z) : M unit :=
  emit (0x38000000 .| fld size 3 30 .| fld is_load 1 22 .| fld (u32 (s16 imm9)) 0x1FF 12
        .| fld Rn 0x1F 5 .| fld Rt 0x1F 0).

Definition classify_ldst_disp (disp size_log2 : Z) : Z :=
  if (0 <=? disp) && (Z.land disp (Z.shiftl 1 size_log2 - 1) =? 0)
     && (Z.shiftr disp size_log2 <=? 4095) then 1
  else if (-256 <=? disp) && (disp <=? 255) then 2
  else 0.

Definition try_emit_fp_ldst_disp (size is_load Vt Rn disp : Z) : M bool :=
  let c := classify_ldst_disp disp size in
  if c =? 1 then
    emit_ldr_str_imm size 1 is_load (s16 (Z.shiftr disp size)) Rn Vt ;;; ret true
  else if c =? 2 then
    emit_fldur_fstur size is_load (s16 disp) Rn Vt ;;; ret true
  else ret false.

Definition emit_fldp_fstp_d (is_load imm7_scaled Rn Vt1 Vt2 : Z) : M unit :=
  emit (0x6D000000 .| fld is_load 1 22 .| fld (u32 (s16 imm7_scaled)) 0x7F 15
        .| fld Vt2 0x1F 10 .| fld Rn 0x1F 5 .| fld Vt1 0x1F 0).

Definition emit_fldp_fstp_s (is_load imm7_scaled Rn Vt1 Vt2 : Z) : M unit :=
  emit (0x2D000000 .| fld is_load 1 22 .| fld (u32 (s16 imm7_scaled)) 0x7F 15
        .| fld Vt2 0x1F 10 .| fld Rn 0x1F 5 .| fld Vt1 0x1F 0).

Definition emit_fldr_reg (size Dt Rn Rm shift : Z) : M unit :=
  emit_ldr_str_reg size 1 1 Rm shift Rn Dt.

Definition emit_fstr_reg (size Dt Rn Rm shift : Z) : M unit :=
  emit_ldr_str_reg size 1 0 Rm shift Rn Dt.

(** IROperandSize: S8=0, S16=1, S32=2, S64=3. *)
Definition emit_ldrs (is_64bit size dst_gpr addr_gpr : Z) : M unit :=
  let data_size := if is_64bit =? 1 then 2 else 1 in
  rt_assert (size <=? data_size) ;;;
  rt_assert (negb (dst_gpr =? GPR.SP)) ;;;
  let opc := if is_64bit =? 1 then 2 else 3 in
  emit_ldr_str_imm (s32 size) 0 opc 0 addr_gpr dst_gpr.

(** ** Scalar floating point *)

Definition emit_fp_dp2 (type opcode Rd Rn Rm : Z) : M unit :=
  emit (0x1E200800 .| fld type 0x3 22 .| fld Rm 0x1F 16 .| fld opcode 0xF 12
        .| fld Rn 0x1F 5 .| fld Rd 0x1F 0).

Definition emit_fadd_f64 (Dd Dn Dm : Z) : M unit := emit_fp_dp2 1 2 Dd Dn Dm.
Definition emit_fsub_f64 (Dd Dn Dm : Z) : M unit := emit_fp_dp2 1 3 Dd Dn Dm.
Definition emit_fmul_f64 (Dd Dn Dm : Z) : M unit := emit_fp_dp2 1 0 Dd Dn Dm.
Definition emit_fnmul_f64 (Dd Dn Dm : Z) : M unit := emit_fp_dp2 1 8 Dd Dn Dm.
Definition emit_fdiv_f64 (Dd Dn Dm : Z) : M unit := emit_fp_dp2 1 1 Dd Dn Dm.

Definition emit_fp_dp3 (type o1 o0 Rd Rn Rm Ra : Z) : M unit :=
  emit (0x1F000000 .| fld type 0x3 22 .| fld o1 0x1 21 .| fld Rm 0x1F 16
        .| fld o0 0x1 15 .| fld Ra 0x1F 10 .| fld Rn 0x1F 5 .| fld Rd 0x1F 0).

Definition emit_fmadd_f64 (Dd Dn Dm Da : Z) : M unit := emit_fp_dp3 1 0 0 Dd Dn Dm Da.
Definition emit_fmsub_f64 (Dd Dn Dm Da : Z) : M unit := emit_fp_dp3 1 0 1 Dd Dn Dm Da.
Definition emit_fnmsub_f64 (Dd Dn Dm Da : Z) : M unit := emit_fp_dp3 1 1 1 Dd Dn Dm Da.

Definition emit_fp_dp1 (type opcode Rd Rn : Z) : M unit :=
  emit (0x1E204000 .| fld type 0x3 22 .| fld opcode 0x3F 15 .| fld Rn 0x1F 5
        .| fld Rd 0x1F 0).

Definition emit_fmov_f64 (Dd Dn : Z) : M unit := emit_fp_dp1 1 0 Dd Dn.
Definition emit_fabs_f64 (Dd Dn : Z) : M unit := emit_fp_dp1 1 1 Dd Dn.
Definition emit_fneg_f64 (Dd Dn : Z) : M unit := emit_fp_dp1 1 2 Dd Dn.
Definition emit_fsqrt_f64 (Dd Dn : Z) : M unit := emit_fp_dp1 1 3 Dd Dn.

Definition emit_fp_cmp (type Rn Rm : Z) : M unit :=
  emit (0x1E202000 .| fld type 0x3 22 .| fld Rm 0x1F 16 .| fld Rn 0x1F 5).

Definition emit_fcmp_f64 (Dn Dm : Z) : M unit := emit_fp_cmp 1 Dn Dm.

Definition emit_fcsel_f64 (Dd Dn Dm cond : Z) : M unit :=
  emit (0x1E600C00 .| fld Dm 0x1F 16 .| fld cond 0xF 12 .| fld Dn 0x1F 5 .| fld Dd 0x1F 0).

Definition emit_fcmp_zero_f64 (Dn : Z) : M unit := emit (0x1E602008 .| fld Dn 0x1F 5).

Definition emit_fcvt (dst_type src_type Rd Rn : Z) : M unit :=
  emit_fp_dp1 src_type (Z.lor 4 (Z.land dst_type 0x3)) Rd Rn.

Definition emit_fcvt_s_to_d (Dd Sn : Z) : M unit := emit_fcvt 1 0 Dd Sn.
Definition emit_fcvt_d_to_s (Sd Dn : Z) : M unit := emit_fcvt 0 1 Sd Dn.

Definition emit_fmov_gpr_fpr (dir gpr fpr : Z) : M unit :=
  if dir =? 0 then emit (0x9E670000 .| fld gpr 0x1F 5 .| fld fpr 0x1F 0)
  else emit (0x9E660000 .| fld fpr 0x1F 5 .| fld gpr 0x1F 0).

Definition emit_fmov_x_to_d (Dd Xn : Z) : M unit := emit_fmov_gpr_fpr 0 Xn Dd.
Definition emit_fmov_d_to_x (Xd Dn : Z) : M unit := emit_fmov_gpr_fpr 1 Xd Dn.

Definition emit_movi_d_zero (Dd : Z) : M unit := emit (0x2F00E400 .| fld Dd 0x1F 0).

Definition emit_fmov_d_one (Dd : Z) : M unit := emit (0x1E6E1000 .| fld Dd 0x1F 0).

(** The out-parameter is the [Some]; the function's result is its presence. *)
Definition f64_fmov_imm8 (w : Z) : option Z :=
  let imm8 := u8 (Z.land (Z.shiftr w 56) 0x80 .| Z.shiftl (Z.land (Z.shiftr w 54) 1) 6
                  .| Z.land (Z.shiftr w 48) 0x3F) in
  let b6 := Z.land (Z.shiftr imm8 6) 1 in
  let rec := u64 (Z.shiftl (Z.shiftr imm8 7) 63) .| Z.shiftl (Z.lxor b6 1) 62
             .| (if nz b6 then Z.shiftl 0xFF 54 else 0)
             .| Z.shiftl (Z.land imm8 0x3F) 48 in
  if rec =? w then Some imm8 else None.

Definition emit_fmov_d_imm8 (Dd imm8 : Z) : M unit :=
  emit (0x1E601000 .| Z.shiftl (u8 imm8) 13 .| fld Dd 0x1F 0).

Definition emit_scvtf (is_64bit_int ftype Rd Rn : Z) : M unit :=
  emit (0x1E220000 .| flag is_64bit_int 31 .| fld ftype 0x3 22 .| fld Rn 0x1F 5
        .| fld Rd 0x1F 0).

Definition emit_scvtf_x_to_d (Dd Xn : Z) : M unit := emit_scvtf 1 1 Dd Xn.

Definition emit_scvtf_d_from_d (Dd Dn : Z) : M unit :=
  emit (0x5E61D800 .| fld Dn 0x1F 5 .| fld Dd 0x1F 0).

Definition emit_fcvtzs (ftype is_64bit_int Rd Rn : Z) : M unit :=
  emit (0x1E380000 .| flag is_64bit_int 31 .| fld ftype 0x3 22 .| fld Rn 0x1F 5
        .| fld Rd 0x1F 0).

Definition emit_fmov_f64_reg (Dd Dn : Z) : M unit :=
  emit (0x1E604000 .| fld Dn 0x1F 5 .| fld Dd 0x1F 0).

Definition emit_fcvt_fp_to_int (sf ftype rmode Rd Rn : Z) : M unit :=
  emit (0x1E200000 .| flag sf 31 .| fld ftype 0x3 22 .| Z.shiftl 1 21
        .| fld rmode 0x3 19 .| fld Rn 0x1F 5 .| fld Rd 0x1F 0).

(** ** Flags and branches *)

Definition emit_mrs_nzcv (Xd : Z) : M unit := emit (0xD53B4200 .| fld Xd 0x1F 0).
Definition emit_msr_nzcv (Xd : Z) : M unit := emit (0xD51B4200 .| fld Xd 0x1F 0).

Definition emit_cbz (is_64bit is_nz Rt imm19 : Z) : M unit :=
  emit (0x34000000 .| flag is_64bit 31 .| flag is_nz 24 .| fld imm19 0x7FFFF 5
        .| fld Rt 0x1F 0).

Definition emit_tbz (is_nz bit Rt imm14 : Z) : M unit :=
  emit (0x36000000 .| flag is_nz 24 .| fld (Z.shiftr bit 5) 1 31 .| fld bit 0x1F 19
        .| fld imm14 0x3FFF 5 .| fld Rt 0x1F 0).

Definition emit_b (imm26 : Z) : M unit := emit (0x14000000 .| fld imm26 0x3FFFFFF 0).

Definition emit_b_cond (cond imm19 : Z) : M unit :=
  emit (0x54000000 .| fld imm19 0x7FFFF 5 .| fld cond 0xF 0).

Definition emit_ldr_literal_f64 (Dd constant : Z) : M unit :=
  emit (0x5C000040 .| fld Dd 0x1F 0) ;;;
  emit_b 3 ;;;
  emit (Z.land constant 0xFFFFFFFF) ;;;
  emit (Z.shiftr constant 32).
