(* ===== verification/A64.v ===== *)
(** The A64 instructions the emitters produce, as the Arm architecture defines
    them: their decoding from a 32-bit word and their effect on a machine with
    31 general registers, 32 SIMD registers, NZCV and a byte memory.  Nothing
    here models code of the repository: it is the instruction set its output
    is run on. *)

From S2P Require Import Prelude.

(** Load/store size and class: [size] is log2 of the byte count, [fp] selects
    the SIMD&FP register file, [opc] is the raw two-bit field. *)
Inductive insn :=
| AddSubImm (sf sub setf : bool) (sh : Z) (imm12 rn rd : Z)
| LogicalImm (sf : bool) (opc n immr imms rn rd : Z)
| MoveWide (sf : bool) (opc hw imm16 rd : Z)
| Bitfield (sf : bool) (opc n immr imms rn rd : Z)
| Adr (page : bool) (imm21 rd : Z)
| LogicalReg (sf : bool) (opc : Z) (invert : bool) (shift rm imm6 rn rd : Z)
| AddSubReg (sf sub setf : bool) (shift rm imm6 rn rd : Z)
| AddSubExt (sf sub setf : bool) (rm option imm3 rn rd : Z)
| Lslv (sf : bool) (rm rn rd : Z)
| Csinc (sf : bool) (rm cond rn rd : Z)
| LdStImm (size : Z) (fp : bool) (opc imm12 rn rt : Z)
| LdStReg (size : Z) (fp : bool) (opc rm option : Z) (s : bool) (rn rt : Z)
| LdStUnscaled (size : Z) (fp : bool) (opc imm9 rn rt : Z)
| LdStUnpriv (size : Z) (fp : bool) (opc imm9 rn rt : Z)
| LdpStpFp (opc : Z) (load : bool) (imm7 rt2 rn rt : Z)
| LdrLitFp (opc imm19 rt : Z)
| Fp1 (type opcode rn rd : Z)
| Fp2 (type rm opcode rn rd : Z)
| Fp3 (type : Z) (o1 o0 : bool) (rm ra rn rd : Z)
| Fcmp (type rm rn : Z) (zero : bool)
| Fcsel (type rm cond rn rd : Z)
| FmovImm (type imm8 rd : Z)
| FpInt (sf : bool) (type rmode opcode rn rd : Z)
| MoviD (rd : Z)
| ScvtfD (rn rd : Z)
| MrsNzcv (rt : Z)
| MsrNzcv (rt : Z)
| Cbz (sf nonzero : bool) (imm19 rt : Z)
| Tbz (nonzero : bool) (bit imm14 rt : Z)
| B (imm26 : Z)
| Bcond (cond imm19 : Z).

Definition bitb (w i : Z) : bool := bits w i 1 =? 1.

(** Signed fields. *)
Definition sbits (w lo n : Z) : Z := sgn n (bits w lo n).

(** Decoding follows the encoding tables of the Arm ARM, top level on bits
    28:25; words outside the classes above decode to [None]. *)
Definition decode_dp_imm (w : Z) : option insn :=
  let sf := bitb w 31 in
  let rn := bits w 5 5 in let rd := bits w 0 5 in
  let op := bits w 23 3 in
  if bits w 24 2 =? 0 then
    Some (Adr (bitb w 31) (Z.lor (Z.shiftl (bits w 5 19) 2) (bits w 29 2)) rd)
  else if op =? 2 then
    Some (AddSubImm sf (bitb w 30) (bitb w 29) (bits w 22 1) (bits w 10 12) rn rd)
  else if op =? 4 then
    Some (LogicalImm sf (bits w 29 2) (bits w 22 1) (bits w 16 6) (bits w 10 6) rn rd)
  else if op =? 5 then Some (MoveWide sf (bits w 29 2) (bits w 21 2) (bits w 5 16) rd)
  else if op =? 6 then
    Some (Bitfield sf (bits w 29 2) (bits w 22 1) (bits w 16 6) (bits w 10 6) rn rd)
  else None.

Definition decode_dp_reg (w : Z) : option insn :=
  let sf := bitb w 31 in
  let rm := bits w 16 5 in let rn := bits w 5 5 in let rd := bits w 0 5 in
  if bits w 24 5 =? 10 then
    Some (LogicalReg sf (bits w 29 2) (bitb w 21) (bits w 22 2) rm (bits w 10 6) rn rd)
  else if bits w 24 5 =? 11 then
    if bitb w 21 then
      if bits w 22 2 =? 0 then
        Some (AddSubExt sf (bitb w 30) (bitb w 29) rm (bits w 13 3) (bits w 10 3) rn rd)
      else None
    else Some (AddSubReg sf (bitb w 30) (bitb w 29) (bits w 22 2) rm (bits w 10 6) rn rd)
  else if (bits w 21 10 =? 214) && (bits w 10 6 =? 8) then Some (Lslv sf rm rn rd)
  else if (bits w 21 10 =? 212) && (bits w 10 2 =? 1) then
    Some (Csinc sf rm (bits w 12 4) rn rd)
  else None.

Definition decode_ldst (w : Z) : option insn :=
  let size := bits w 30 2 in let fp := bitb w 26 in let opc := bits w 22 2 in
  let rn := bits w 5 5 in let rt := bits w 0 5 in
  if bits w 27 3 =? 7 then
    if bits w 24 2 =? 1 then Some (LdStImm size fp opc (bits w 10 12) rn rt)
    else if bits w 24 2 =? 0 then
      if bitb w 21 then
        if bits w 10 2 =? 2 then
          Some (LdStReg size fp opc (bits w 16 5) (bits w 13 3) (bitb w 12) rn rt)
        else None
      else if bits w 10 2 =? 0 then Some (LdStUnscaled size fp opc (sbits w 12 9) rn rt)
      else if bits w 10 2 =? 2 then Some (LdStUnpriv size fp opc (sbits w 12 9) rn rt)
      else None
    else None
  else if (bits w 27 3 =? 5) && fp && (bits w 23 3 =? 2) then
    Some (LdpStpFp size (bitb w 22) (sbits w 15 7) (bits w 10 5) rn rt)
  else if (bits w 27 3 =? 3) && fp && (bits w 24 2 =? 0) then
    Some (LdrLitFp size (sbits w 5 19) rt)
  else None.

Definition decode_fp (w : Z) : option insn :=
  let type := bits w 22 2 in
  let rm := bits w 16 5 in let rn := bits w 5 5 in let rd := bits w 0 5 in
  if bits w 24 7 =? 30 then
    if bitb w 21 then
      if bits w 10 2 =? 2 then
        if bitb w 31 then None else Some (Fp2 type rm (bits w 12 4) rn rd)
      else if bits w 10 2 =? 3 then
        if bitb w 31 then None else Some (Fcsel type rm (bits w 12 4) rn rd)
      else if bits w 10 3 =? 4 then
        if bitb w 31 then None else
        if bits w 5 5 =? 0 then Some (FmovImm type (bits w 13 8) rd) else None
      else if bits w 10 5 =? 16 then
        if bitb w 31 then None else Some (Fp1 type (bits w 15 6) rn rd)
      else if bits w 10 6 =? 8 then
        if bitb w 31 then None else
        if bits w 0 3 =? 0 then Some (Fcmp type rm rn (bitb w 3)) else None
      else if bits w 10 6 =? 0 then
        Some (FpInt (bitb w 31) type (bits w 19 2) (bits w 16 3) rn rd)
      else None
    else None
  else if bits w 24 8 =? 31 then
    Some (Fp3 type (bitb w 21) (bitb w 15) rm (bits w 10 5) rn rd)
  else if bits w 10 22 =? bits 0x5E61D800 10 22 then Some (ScvtfD rn rd)
  else if bits w 5 27 =? bits 0x2F00E400 5 27 then Some (MoviD rd)
  else None.

Definition decode_branch (w : Z) : option insn :=
  let rt := bits w 0 5 in
  if bits w 26 5 =? 5 then
    if bitb w 31 then None else Some (B (sbits w 0 26))
  else if bits w 26 5 =? 13 then
    if bits w 25 1 =? 0 then Some (Cbz (bitb w 31) (bitb w 24) (sbits w 5 19) rt)
    else
      Some (Tbz (bitb w 24) (Z.lor (Z.shiftl (bits w 31 1) 5) (bits w 19 5)) (sbits w 5 14) rt)
  else if (bits w 24 8 =? 84) && negb (bitb w 4) then Some (Bcond (bits w 0 4) (sbits w 5 19))
  else if bits w 5 27 =? bits 0xD53B4200 5 27 then Some (MrsNzcv rt)
  else if bits w 5 27 =? bits 0xD51B4200 5 27 then Some (MsrNzcv rt)
  else None.

Definition decode (w : Z) : option insn :=
  if (bits w 26 3 =? 4) then decode_dp_imm w
  else if bits w 26 3 =? 5 then decode_branch w
  else if bits w 25 3 =? 5 then decode_dp_reg w
  else if (bits w 25 1 =? 0) && (bits w 27 1 =? 1) then decode_ldst w
  else if bits w 25 3 =? 7 then decode_fp w
  else None.
