(* ===== verification/EmitDecode.v ===== *)
(** Every emitter produces a word of 32 bits that decodes to the instruction
    its documentation names. *)

From S2P Require Import Prelude Emit Assembler A64.

Lemma bits_0 lo n : bits 0 lo n = 0.
Proof. unfold bits. rewrite Z.shiftr_0_l. reflexivity. Qed.

Lemma bits_fld' x m k lo n :
  0 <= k -> 0 <= lo ->
  bits (fld x m k) lo n = Z.land (Z.shiftr (Z.shiftl x k) lo) (bits (Z.shiftl m k) lo n).
Proof. apply bits_fld. Qed.

Lemma bits_flag x k lo n :
  bits (flag x k) lo n = if nz x then bits (Z.shiftl 1 k) lo n else 0.
Proof. apply bits_bool. Qed.

Lemma bits_flag_out x k lo n : bits (Z.shiftl 1 k) lo n = 0 -> bits (flag x k) lo n = 0.
Proof. intros H. rewrite bits_flag, H. destruct (nz x); reflexivity. Qed.

Lemma bits_flag_in x k lo n : bits (Z.shiftl 1 k) lo n = 1 -> bits (flag x k) lo n = b2z (nz x).
Proof. intros H. rewrite bits_flag, H. destruct (nz x); reflexivity. Qed.

(** [x & m] moved to position [k] is seen from [k] as itself. *)
Lemma bits_fld_at x m k n :
  0 <= k -> bits (Z.shiftl m k) k n = m -> bits (fld x m k) k n = Z.land x m.
Proof.
  intros Hk Hm. rewrite bits_fld', Hm by lia. rewrite shiftl_shiftr_same by lia. reflexivity.
Qed.

Lemma bits_fld_out x m k lo n :
  0 <= k -> 0 <= lo -> bits (Z.shiftl m k) lo n = 0 -> bits (fld x m k) lo n = 0.
Proof. intros. rewrite bits_fld', H1 by lia. apply Z.land_0_r. Qed.

Lemma bits_wrap x lo n w : 0 <= lo -> 0 <= n -> lo + n <= w -> bits (wrap w x) lo n = bits x lo n.
Proof.
  intros. unfold bits. apply Z.bits_inj'. intros i Hi.
  rewrite !Z.land_spec, !Z.shiftr_spec, wrap_testbit by lia.
  destruct (Z.ltb_spec i n).
  - replace (i + lo <? w) with true by (symmetry; apply Z.ltb_lt; lia). reflexivity.
  - rewrite Z.ones_spec_high by lia. rewrite !andb_false_r. reflexivity.
Qed.

Lemma land_sub x m y : (forall i, 0 <= i -> Z.testbit m i = true -> Z.testbit x i = Z.testbit y i) ->
  Z.land x m = Z.land y m.
Proof.
  intros H. apply Z.bits_inj'. intros i Hi. rewrite !Z.land_spec.
  destruct (Z.testbit m i) eqn:E; [rewrite H by assumption; reflexivity | rewrite !andb_false_r; reflexivity].
Qed.

Lemma land_wrap x m w : 0 <= w -> 0 <= m < 2 ^ w -> Z.land (wrap w x) m = Z.land x m.
Proof.
  intros Hw Hm. rewrite wrap_land, <- Z.land_assoc by lia. f_equal.
  rewrite Z.land_comm, Z.land_ones by lia. apply Z.mod_small; lia.
Qed.

Lemma land_sgn x m w : 0 < w -> 0 <= m < 2 ^ w -> Z.land (sgn w x) m = Z.land x m.
Proof.
  intros Hw Hm. rewrite <- (land_wrap (sgn w x) m w), sgn_wrap, land_wrap by lia. reflexivity.
Qed.

Lemma fld_sgn x m k w : 0 < w -> 0 <= m < 2 ^ w -> fld (sgn w x) m k = fld x m k.
Proof. intros. unfold fld. rewrite land_sgn by lia. reflexivity. Qed.

Lemma fld_wrap x m k w : 0 <= w -> 0 <= m < 2 ^ w -> fld (wrap w x) m k = fld x m k.
Proof. intros. unfold fld. rewrite land_wrap by lia. reflexivity. Qed.

Lemma shiftl_wrap_fld x k w : 0 <= w -> Z.shiftl (wrap w x) k = fld x (Z.ones w) k.
Proof. intros. unfold fld. rewrite wrap_land by lia. reflexivity. Qed.

Lemma b2z_eqb b : (b2z b =? 1) = b.
Proof. destruct b; reflexivity. Qed.

Ltac norm_args :=
  repeat match goal with
  | |- context [fld (sgn ?w ?x) ?m ?k] =>
      rewrite (fld_sgn x m k w) by (vm_compute; intuition (reflexivity || discriminate))
  | |- context [fld (wrap ?w ?x) ?m ?k] =>
      rewrite (fld_wrap x m k w) by (vm_compute; intuition (reflexivity || discriminate))
  | |- context [Z.shiftl (wrap ?w ?x) ?k] =>
      rewrite (shiftl_wrap_fld x k w) by (vm_compute; discriminate);
      let v := eval vm_compute in (Z.ones w) in change (Z.ones w) with v
  | |- context [Z.shiftl 1 21] => change (Z.shiftl 1 21) with 0x200000
  end.

Ltac field1 :=
  match goal with
  | |- context [bits (wrap 32 ?a) ?lo ?n] =>
      rewrite (bits_wrap a lo n 32) by (vm_compute; discriminate)
  | |- context [bits (Z.lor ?a ?b) ?lo ?n] => rewrite (bits_lor a b lo n)
  | |- context [bits (fld ?x ?m ?k) ?lo ?n] =>
      first [ rewrite (bits_fld_out x m k lo n) by (vm_compute; (reflexivity || discriminate))
            | rewrite (bits_fld_at x m k n) by (vm_compute; (reflexivity || discriminate))
            | rewrite (bits_fld' x m k lo n) by (vm_compute; discriminate);
              let v := eval vm_compute in (bits (Z.shiftl m k) lo n) in
              change (bits (Z.shiftl m k) lo n) with v ]
  | |- context [bits (flag ?x ?k) ?lo ?n] =>
      first [ rewrite (bits_flag_out x k lo n) by (vm_compute; reflexivity)
            | rewrite (bits_flag_in x k lo n) by (vm_compute; reflexivity)
            | rewrite (bits_flag x k lo n) ]
  | |- context [bits (Zpos ?c) ?lo ?n] =>
      let v := eval vm_compute in (bits (Zpos c) lo n) in
      change (bits (Zpos c) lo n) with v
  | |- context [Z.lor 0 ?a] => rewrite (Z.lor_0_l a)
  | |- context [Z.lor ?a 0] => rewrite (Z.lor_0_r a)
  end.

Ltac fields := unfold bitb, sbits; repeat field1.

(** Resolve the conditions of the decoding tree one at a time. *)
Ltac decide_if :=
  match goal with
  | |- (if ?c then _ else _) = _ =>
      let E := fresh in
      first [ assert (E : c = true) by (fields; reflexivity)
            | assert (E : c = false) by (fields; reflexivity)
            | destruct c eqn:E ];
      rewrite ?E; clear E
  end.

Ltac decoding :=
  unfold decode, decode_dp_imm, decode_dp_reg, decode_ldst, decode_fp, decode_branch;
  cbv zeta; repeat decide_if; fields.

(** [assembles m a code]: [m] returns [a] having appended words that decode to
    the instructions [code]. *)
Definition word_of (w : Z) (i : insn) : Prop := 0 <= w < 2 ^ 32 /\ decode w = Some i.

Definition assembles {A} (m : M A) (a : A) (code : list insn) : Prop :=
  exists ws, emits m a ws /\ Forall2 word_of ws code.

Create HintDb asm.

Lemma assembles_ret {A} (a : A) : assembles (ret a) a [].
Proof. exists []. split; [apply emits_ret | constructor]. Qed.

Lemma assembles_bind {A B} (m : M A) (k : A -> M B) a b code code2 :
  assembles m a code -> assembles (k a) b code2 -> assembles (bind m k) b (code ++ code2).
Proof.
  intros (ws & Hm & Hw) (vs & Hk & Hv). exists (ws ++ vs).
  split; [eapply emits_bind; eassumption | apply Forall2_app; assumption].
Qed.

Lemma assembles_assert {B} b (k : M B) r code :
  b = true -> assembles k r code -> assembles (rt_assert b ;;; k) r code.
Proof.
  intros -> H. apply (assembles_bind _ _ tt r [] code); [|exact H].
  exists []. split; [apply emits_assert; reflexivity | constructor].
Qed.

Lemma assembles_emit w i : decode (u32 w) = Some i -> assembles (emit w) tt [i].
Proof.
  intros H. exists [u32 w]. split; [apply emits_emit|].
  repeat constructor; try apply (wrap_range 32); try lia; exact H.
Qed.

Ltac one_insn :=
  intros; apply assembles_emit; norm_args; decoding; rewrite ?b2z_eqb; reflexivity.

Abbreviation reg x := (Z.land x 31).

Lemma asm_add_imm sf sub setf sh imm rn rd :
  0 <= sh <= 1 ->
  assembles (emit_add_imm sf sub setf sh imm rn rd) tt
    [AddSubImm (nz sf) (nz sub) (nz setf) sh (Z.land imm 0xFFF) (reg rn) (reg rd)].
Proof.
  intros H. assert (sh = 0 \/ sh = 1) as [-> | ->] by lia; one_insn.
Qed.

Lemma asm_bitfield sf opc n r s rn rd :
  assembles (emit_bitfield sf opc n r s rn rd) tt
    [Bitfield (nz sf) (Z.land opc 3) (Z.land n 1) (Z.land r 63) (Z.land s 63) (reg rn) (reg rd)].
Proof. one_insn. Qed.

Lemma asm_movn sf opc hw imm rd :
  assembles (emit_movn sf opc hw imm rd) tt
    [MoveWide (nz sf) (Z.land opc 3) (Z.land hw 3) (Z.land imm 0xFFFF) (reg rd)].
Proof. one_insn. Qed.

Lemma asm_lslv sf rm rn rd :
  assembles (emit_lslv sf rm rn rd) tt [Lslv (nz sf) (reg rm) (reg rn) (reg rd)].
Proof. one_insn. Qed.

Lemma asm_add_sub_shifted_reg sf sub setf st rm amt rn rd :
  assembles (emit_add_sub_shifted_reg sf sub setf st rm amt rn rd) tt
    [AddSubReg (nz sf) (nz sub) (nz setf) (Z.land st 3) (reg rm) (Z.land amt 63) (reg rn) (reg rd)].
Proof. one_insn. Qed.

Lemma asm_logical_shifted_reg sf opc n st rm amt rn rd :
  assembles (emit_logical_shifted_reg sf opc n st rm amt rn rd) tt
    [LogicalReg (nz sf) (Z.land opc 3) (Z.land n 1 =? 1) (Z.land st 3) (reg rm)
       (Z.land amt 63) (reg rn) (reg rd)].
Proof. one_insn. Qed.

Lemma asm_logical_imm sf opc n r s rn rd :
  rn <> GPR.SP -> rd <> GPR.SP ->
  assembles (emit_logical_imm sf opc n r s rn rd) tt
    [LogicalImm (nz sf) (Z.land opc 3) (b2z (nz n)) (Z.land r 63) (Z.land s 63) (reg rn) (reg rd)].
Proof.
  intros Hn Hd. unfold emit_logical_imm.
  apply assembles_assert; [apply negb_true_iff, Z.eqb_neq, Hn|].
  apply assembles_assert; [apply negb_true_iff, Z.eqb_neq, Hd|]. one_insn.
Qed.

Lemma asm_and_imm sf rd n r s rn :
  (sf =? 1) || (n =? 0) = true -> rn <> GPR.SP -> rd <> GPR.SP ->
  assembles (emit_and_imm sf rd n r s rn) tt
    [LogicalImm (nz sf) 0 (b2z (nz n)) (Z.land r 63) (Z.land s 63) (reg rn) (reg rd)].
Proof.
  intros Hn Hr Hd. apply assembles_assert; [exact Hn|].
  rewrite <- (land_sgn r 63 8), <- (land_sgn s 63 8) by lia.
  apply (asm_logical_imm sf 0 n (s8 r) (s8 s)); assumption.
Qed.

Lemma asm_orr_imm sf rd rn n r s :
  (sf =? 1) || (n =? 0) = true -> rn <> GPR.SP -> rd <> GPR.SP ->
  assembles (emit_orr_imm sf rd rn n r s) tt
    [LogicalImm (nz sf) 1 (b2z (nz n)) (Z.land r 63) (Z.land s 63) (reg rn) (reg rd)].
Proof.
  intros Hn Hr Hd. apply assembles_assert; [exact Hn|].
  rewrite <- (land_sgn r 63 8), <- (land_sgn s 63 8) by lia.
  apply (asm_logical_imm sf 1 n (s8 r) (s8 s)); assumption.
Qed.

Lemma asm_adr page rd imm :
  rd <> GPR.XZR ->
  assembles (emit_adr page rd imm) tt
    [Adr (nz page) (Z.lor (Z.shiftl (Z.land (Z.shiftr imm 2) 0x7FFFF) 2) (Z.land imm 3)) (reg rd)].
Proof.
  intros Hd. apply assembles_assert; [apply negb_true_iff, Z.eqb_neq, Hd|].
  destruct (nz page); one_insn.
Qed.

Lemma asm_cset sf cond rd :
  0 <= sf <= 1 ->
  assembles (emit_cset sf cond rd) tt
    [Csinc (nz sf) 31 (Z.land (Z.lxor cond 1) 15) 31 (reg rd)].
Proof. intros H. assert (sf = 0 \/ sf = 1) as [-> | ->] by lia; one_insn. Qed.

Lemma asm_ldr_str_imm size fp opc imm rn rt :
  0 <= fp <= 1 ->
  assembles (emit_ldr_str_imm size fp opc imm rn rt) tt
    [LdStImm (Z.land size 3) (nz fp) (Z.land (if size =? 4 then Z.lor opc 2 else opc) 3)
       (Z.land imm 0xFFF) (reg rn) (reg rt)].
Proof.
  intros H. unfold emit_ldr_str_imm. cbv zeta.
  generalize (if size =? 4 then Z.lor opc 2 else opc) as o; intros o.
  assert (fp = 0 \/ fp = 1) as [-> | ->] by lia; one_insn.
Qed.

Lemma asm_ldr_str_reg size fp opc rm shift rn rt :
  0 <= fp <= 1 ->
  assembles (emit_ldr_str_reg size fp opc rm shift rn rt) tt
    [LdStReg (Z.land size 3) (nz fp) (Z.land (if size =? 4 then Z.lor opc 2 else opc) 3)
       (reg rm) 3 (nz shift) (reg rn) (reg rt)].
Proof.
  intros H. unfold emit_ldr_str_reg. cbv zeta.
  generalize (if size =? 4 then Z.lor opc 2 else opc) as o; intros o.
  assert (fp = 0 \/ fp = 1) as [-> | ->] by lia; one_insn.
Qed.

Lemma asm_ldr_str_imm_ext size wb ext off rn rt :
  0 <= wb <= 1 ->
  assembles (emit_ldr_str_imm_ext size wb ext off rn rt) tt
    [(if wb =? 0 then LdStUnscaled else LdStUnpriv) (Z.land size 3) false
       (Z.land (if size =? 4 then Z.lor ext 2 else ext) 3)
       (sgn 9 (Z.land off 0x1FF)) (reg rn) (reg rt)].
Proof.
  intros H. unfold emit_ldr_str_imm_ext. cbv zeta.
  generalize (if size =? 4 then Z.lor ext 2 else ext) as o; intros o.
  assert (wb = 0 \/ wb = 1) as [-> | ->] by lia; one_insn.
Qed.

Lemma fld_u32_s16 x m k : 0 <= m < 2 ^ 16 -> fld (u32 (s16 x)) m k = fld x m k.
Proof. intros. rewrite fld_wrap, fld_sgn by lia. reflexivity. Qed.

Lemma asm_fldur_fstur size ld imm rn vt :
  assembles (emit_fldur_fstur size ld imm rn vt) tt
    [LdStUnscaled (Z.land size 3) true (Z.land ld 1) (sgn 9 (Z.land imm 0x1FF)) (reg rn) (reg vt)].
Proof. one_insn. Qed.

Lemma asm_ldur_stur size ld imm rn rt :
  assembles (emit_ldur_stur size ld imm rn rt) tt
    [LdStUnscaled (Z.land size 3) false (Z.land ld 1) (sgn 9 (Z.land imm 0x1FF)) (reg rn) (reg rt)].
Proof. one_insn. Qed.

Lemma asm_fldp_fstp_d ld imm rn v1 v2 :
  assembles (emit_fldp_fstp_d ld imm rn v1 v2) tt
    [LdpStpFp 1 (Z.land ld 1 =? 1) (sgn 7 (Z.land imm 0x7F)) (reg v2) (reg rn) (reg v1)].
Proof. one_insn. Qed.

Lemma asm_fldp_fstp_s ld imm rn v1 v2 :
  assembles (emit_fldp_fstp_s ld imm rn v1 v2) tt
    [LdpStpFp 0 (Z.land ld 1 =? 1) (sgn 7 (Z.land imm 0x7F)) (reg v2) (reg rn) (reg v1)].
Proof. one_insn. Qed.

Lemma asm_fp_dp2 type opcode rd rn rm :
  assembles (emit_fp_dp2 type opcode rd rn rm) tt
    [Fp2 (Z.land type 3) (reg rm) (Z.land opcode 15) (reg rn) (reg rd)].
Proof. one_insn. Qed.

Lemma asm_fp_dp3 type o1 o0 rd rn rm ra :
  assembles (emit_fp_dp3 type o1 o0 rd rn rm ra) tt
    [Fp3 (Z.land type 3) (Z.land o1 1 =? 1) (Z.land o0 1 =? 1) (reg rm) (reg ra) (reg rn) (reg rd)].
Proof. one_insn. Qed.

Lemma asm_fp_dp1 type opcode rd rn :
  assembles (emit_fp_dp1 type opcode rd rn) tt
    [Fp1 (Z.land type 3) (Z.land opcode 63) (reg rn) (reg rd)].
Proof. one_insn. Qed.

Lemma asm_fp_cmp type rn rm :
  assembles (emit_fp_cmp type rn rm) tt [Fcmp (Z.land type 3) (reg rm) (reg rn) false].
Proof. one_insn. Qed.

Lemma asm_fcsel_f64 rd rn rm cond :
  assembles (emit_fcsel_f64 rd rn rm cond) tt [Fcsel 1 (reg rm) (Z.land cond 15) (reg rn) (reg rd)].
Proof. one_insn. Qed.

Lemma asm_fcmp_zero_f64 rn : assembles (emit_fcmp_zero_f64 rn) tt [Fcmp 1 0 (reg rn) true].
Proof. one_insn. Qed.

Lemma asm_fcvt dst src rd rn :
  assembles (emit_fcvt dst src rd rn) tt
    [Fp1 (Z.land src 3) (Z.lor 4 (Z.land dst 3)) (reg rn) (reg rd)].
Proof.
  replace (Z.lor 4 (Z.land dst 3)) with (Z.land (Z.lor 4 (Z.land dst 3)) 63).
  - apply asm_fp_dp1.
  - rewrite Z.land_lor_distr_l, <- Z.land_assoc. reflexivity.
Qed.

Lemma asm_fmov_x_to_d rd rn : assembles (emit_fmov_x_to_d rd rn) tt [FpInt true 1 0 7 (reg rn) (reg rd)].
Proof. one_insn. Qed.

Lemma asm_fmov_d_to_x rd rn : assembles (emit_fmov_d_to_x rd rn) tt [FpInt true 1 0 6 (reg rn) (reg rd)].
Proof. one_insn. Qed.

Lemma asm_movi_d_zero rd : assembles (emit_movi_d_zero rd) tt [MoviD (reg rd)].
Proof. one_insn. Qed.

Lemma asm_fmov_d_one rd : assembles (emit_fmov_d_one rd) tt [FmovImm 1 0x70 (reg rd)].
Proof. one_insn. Qed.

Lemma asm_fmov_d_imm8 rd imm : assembles (emit_fmov_d_imm8 rd imm) tt [FmovImm 1 (Z.land imm 255) (reg rd)].
Proof. one_insn. Qed.

Lemma asm_scvtf sf type rd rn :
  assembles (emit_scvtf sf type rd rn) tt [FpInt (nz sf) (Z.land type 3) 0 2 (reg rn) (reg rd)].
Proof. one_insn. Qed.

Lemma asm_scvtf_d_from_d rd rn : assembles (emit_scvtf_d_from_d rd rn) tt [ScvtfD (reg rn) (reg rd)].
Proof. one_insn. Qed.

Lemma asm_fcvtzs type sf rd rn :
  assembles (emit_fcvtzs type sf rd rn) tt [FpInt (nz sf) (Z.land type 3) 3 0 (reg rn) (reg rd)].
Proof. one_insn. Qed.

Lemma asm_fmov_f64_reg rd rn : assembles (emit_fmov_f64_reg rd rn) tt [Fp1 1 0 (reg rn) (reg rd)].
Proof. one_insn. Qed.

Lemma asm_fcvt_fp_to_int sf type rmode rd rn :
  assembles (emit_fcvt_fp_to_int sf type rmode rd rn) tt
    [FpInt (nz sf) (Z.land type 3) (Z.land rmode 3) 0 (reg rn) (reg rd)].
Proof. one_insn. Qed.

Lemma asm_mrs_nzcv rd : assembles (emit_mrs_nzcv rd) tt [MrsNzcv (reg rd)].
Proof. one_insn. Qed.

Lemma asm_msr_nzcv rd : assembles (emit_msr_nzcv rd) tt [MsrNzcv (reg rd)].
Proof. one_insn. Qed.

Lemma asm_cbz sf z rt imm :
  assembles (emit_cbz sf z rt imm) tt [Cbz (nz sf) (nz z) (sgn 19 (Z.land imm 0x7FFFF)) (reg rt)].
Proof. one_insn. Qed.

Lemma asm_tbz z bit rt imm :
  assembles (emit_tbz z bit rt imm) tt
    [Tbz (nz z) (Z.lor (Z.shiftl (Z.land (Z.shiftr bit 5) 1) 5) (Z.land bit 31))
       (sgn 14 (Z.land imm 0x3FFF)) (reg rt)].
Proof. one_insn. Qed.

Lemma asm_b imm : assembles (emit_b imm) tt [B (sgn 26 (Z.land imm 0x3FFFFFF))].
Proof. one_insn. Qed.

Lemma asm_b_cond cond imm :
  assembles (emit_b_cond cond imm) tt [Bcond (Z.land cond 15) (sgn 19 (Z.land imm 0x7FFFF))].
Proof. one_insn. Qed.

(** The literal load is followed by a branch over its two data words. *)
Lemma asm_ldr_literal_f64 rd c :
  0 <= c < 2 ^ 64 ->
  exists w b, emits (emit_ldr_literal_f64 rd c) tt [w; b; Z.land c 0xFFFFFFFF; Z.shiftr c 32] /\
    word_of w (LdrLitFp 1 2 (reg rd)) /\ word_of b (B 3).
Proof.
  intros Hc.
  exists (u32 (0x5C000040 .| fld rd 0x1F 0)), (u32 (0x14000000 .| fld 3 0x3FFFFFF 0)).
  split; [|split; (split; [apply (wrap_range 32); lia|])].
  - intros s. unfold emit_ldr_literal_f64, emit_b, bind, emit. cbn [insn_buf free_gpr_mask free_fpr_mask].
    unfold append_code. cbn [insn_buf free_gpr_mask free_fpr_mask _fixups external_fixups]. rewrite <- !app_assoc. cbn [app].
    rewrite (wrap_small 32 (Z.land c 0xFFFFFFFF)), (wrap_small 32 (Z.shiftr c 32)); [reflexivity| |].
    + rewrite Z.shiftr_div_pow2 by lia. split; [apply Z.div_pos; lia|].
      apply Z.div_lt_upper_bound; [lia|]. change (2 ^ 32 * 2 ^ 32) with (2 ^ 64). lia.
    + apply land_bound; lia.
  - decoding. reflexivity.
  - vm_compute. reflexivity.
Qed.

#[export] Hint Resolve assembles_ret assembles_bind : asm.
#[export] Hint Resolve asm_add_imm asm_bitfield asm_movn asm_lslv asm_add_sub_shifted_reg
  asm_logical_shifted_reg asm_logical_imm asm_and_imm asm_orr_imm asm_adr asm_cset
  asm_ldr_str_imm asm_ldr_str_reg asm_fldur_fstur asm_ldur_stur asm_fldp_fstp_d asm_fldp_fstp_s
  asm_fp_dp1 asm_fp_dp2 asm_fp_dp3 asm_fp_cmp asm_fcsel_f64 asm_fcvt_fp_to_int
  asm_mrs_nzcv asm_msr_nzcv asm_cbz asm_tbz asm_b asm_b_cond : asm.

Lemma asm_ldrs sf size dst addr :
  0 <= size <= (if sf =? 1 then 2 else 1) -> dst <> GPR.SP ->
  assembles (emit_ldrs sf size dst addr) tt [LdStImm size false (if sf =? 1 then 2 else 3) 0 (reg addr) (reg dst)].
Proof.
  intros Hs Hd. unfold emit_ldrs. apply assembles_assert; [apply Z.leb_le, Hs|].
  apply assembles_assert; [apply negb_true_iff, Z.eqb_neq, Hd|].
  assert (E : size = 0 \/ size = 1 \/ size = 2 /\ sf = 1) by (destruct (Z.eqb_spec sf 1); lia).
  pose proof (fun n o => asm_ldr_str_imm n 0 o 0 addr dst ltac:(lia)) as H.
  destruct E as [-> | [-> | [-> ->]]]; [destruct (sf =? 1); [exact (H 0 2) | exact (H 0 3)] | destruct (sf =? 1); [exact (H 1 2) | exact (H 1 3)] | exact (H 2 2)].
Qed.

Lemma asm_mov_reg sf rd rn :
  assembles (emit_mov_reg sf rd rn) tt
    [if (rd =? GPR.SP) || (rn =? GPR.SP) then AddSubImm (nz sf) false false 0 0 (reg rn) (reg rd)
     else LogicalReg (nz sf) 1 false 0 (reg rn) 0 31 (reg rd)].
Proof.
  unfold emit_mov_reg. destruct (_ || _); [exact (asm_add_imm sf 0 0 0 0 rn rd ltac:(lia)) | exact (asm_logical_shifted_reg sf 1 0 0 rn 0 GPR.XZR rd)].
Qed.

Lemma asm_add_reg sf dst lhs rhs :
  assembles (emit_add_reg sf dst lhs rhs) tt
    [if (dst =? GPR.SP) || (lhs =? GPR.SP) then AddSubExt (nz sf) false false (reg rhs) (if nz sf then 3 else 2) 0 (reg lhs) (reg dst)
     else AddSubReg (nz sf) false false 0 (reg rhs) 0 (reg lhs) (reg dst)].
Proof.
  unfold emit_add_reg. destruct (_ || _); [|exact (asm_add_sub_shifted_reg sf 0 0 0 rhs 0 lhs dst)].
  destruct (nz sf) eqn:E; cbv zeta iota; apply assembles_emit; norm_args; decoding; rewrite ?b2z_eqb, ?E; reflexivity.
Qed.

Lemma asm_ldr_str_s16 size fp opc imm rn rt : 0 <= fp <= 1 ->
  assembles (emit_ldr_str_imm size fp opc (s16 imm) rn rt) tt
    [LdStImm (Z.land size 3) (nz fp) (Z.land (if size =? 4 then Z.lor opc 2 else opc) 3)
       (Z.land imm 0xFFF) (reg rn) (reg rt)].
Proof. intros H. rewrite <- (land_sgn imm 0xFFF 16) by lia. apply asm_ldr_str_imm, H. Qed.

(** ** Words that are data

    A literal lies between the instructions; [spells] counts it among the
    words. *)
Inductive item :=
| Insn (i : insn)
| Data (w : Z).

Definition item_word (w : Z) (x : item) : Prop :=
  match x with
  | Insn i => word_of w i
  | Data d => w = d /\ 0 <= d < 2 ^ 32
  end.

Definition spells {A} (m : M A) (a : A) (code : list item) : Prop :=
  exists ws, emits m a ws /\ Forall2 item_word ws code.

Lemma assembles_spells {A} (m : M A) (a : A) i : assembles m a [i] -> spells m a [Insn i].
Proof.
  intros (ws & E & H). exists ws. split; [exact E|]. inversion H as [|? ? ? ? Hw Hn]; subst. inversion Hn; subst.
  repeat constructor; apply Hw.
Qed.

(** ** The encoders together

    One constructor per encoder of the assembler; [code_of] is the instruction
    its header comment documents (for emit_ldr_str_imm_ext, whose comment
    names the indexed forms, the one it encodes), [call_ok] the assertions in
    its body and the range of the flags it masks rather than tests. *)
Inductive call :=
| CAddImm (sf sub setf sh imm rn rd : Z)
| CBitfield (sf opc n r s rn rd : Z)
| CMovn (sf opc hw imm rd : Z)
| CLslv (sf rm rn rd : Z)
| CAddSubReg (sf sub setf st rm amt rn rd : Z)
| CLogicalReg (sf opc n st rm amt rn rd : Z)
| CLogicalImm (sf opc n r s rn rd : Z)
| CAdr (page rd imm : Z)
| CCset (sf cond rd : Z)
| CLdStImm (size fp opc imm rn rt : Z)
| CLdStReg (size fp opc rm shift rn rt : Z)
| CLdurF (size ld imm rn vt : Z)
| CLdurG (size ld imm rn rt : Z)
| CLdpD (ld imm rn v1 v2 : Z)
| CLdpS (ld imm rn v1 v2 : Z)
| CFp1 (type opcode rd rn : Z)
| CFp2 (type opcode rd rn rm : Z)
| CFp3 (type o1 o0 rd rn rm ra : Z)
| CFcmp (type rn rm : Z)
| CFcmpZero (rn : Z)
| CFcsel (rd rn rm cond : Z)
| CFcvt (dst src rd rn : Z)
| CFmovXD (rd rn : Z)
| CFmovDX (rd rn : Z)
| CMoviZero (rd : Z)
| CFmovImm (rd imm : Z)
| CScvtf (sf type rd rn : Z)
| CScvtfD (rd rn : Z)
| CFcvtInt (sf type rmode rd rn : Z)
| CMrs (rd : Z)
| CMsr (rd : Z)
| CCbz (sf z rt imm : Z)
| CTbz (z bit rt imm : Z)
| CB (imm : Z)
| CBcond (cond imm : Z)
| CSubsReg (sf rn rm rd : Z)
| CMovReg (sf rd rn : Z)
| CAddReg (sf rd rn rm : Z)
| CAndImm (sf rd n r s rn : Z)
| COrrImm (sf rd rn n r s : Z)
| CLdStExt (size wb ext off rn rt : Z)
| CLdrImm (size rt rn imm : Z)
| CStrImm (size rt rn imm : Z)
| CFldrImm (size rt rn imm : Z)
| CFstrImm (size rt rn imm : Z)
| CFldrReg (size rt rn rm shift : Z)
| CFstrReg (size rt rn rm shift : Z)
| CLdrs (sf size rt rn : Z)
| CFadd (rd rn rm : Z)
| CFsub (rd rn rm : Z)
| CFmul (rd rn rm : Z)
| CFnmul (rd rn rm : Z)
| CFdiv (rd rn rm : Z)
| CFmadd (rd rn rm ra : Z)
| CFmsub (rd rn rm ra : Z)
| CFnmsub (rd rn rm ra : Z)
| CFmov (rd rn : Z)
| CFabs (rd rn : Z)
| CFneg (rd rn : Z)
| CFsqrt (rd rn : Z)
| CFcmpF64 (rn rm : Z)
| CFcvtSD (rd rn : Z)
| CFcvtDS (rd rn : Z)
| CFmovGprFpr (dir g f : Z)
| CFmovOne (rd : Z)
| CScvtfX (rd rn : Z)
| CFcvtzs (type sf rd rn : Z)
| CFmovReg (rd rn : Z)
| CLdrLiteral (rd v : Z).

Definition emit_call (c : call) : M unit :=
  match c with
  | CAddImm sf sub setf sh imm rn rd => emit_add_imm sf sub setf sh imm rn rd
  | CBitfield sf opc n r s rn rd => emit_bitfield sf opc n r s rn rd
  | CMovn sf opc hw imm rd => emit_movn sf opc hw imm rd
  | CLslv sf rm rn rd => emit_lslv sf rm rn rd
  | CAddSubReg sf sub setf st rm amt rn rd => emit_add_sub_shifted_reg sf sub setf st rm amt rn rd
  | CLogicalReg sf opc n st rm amt rn rd => emit_logical_shifted_reg sf opc n st rm amt rn rd
  | CLogicalImm sf opc n r s rn rd => emit_logical_imm sf opc n r s rn rd
  | CAdr page rd imm => emit_adr page rd imm
  | CCset sf cond rd => emit_cset sf cond rd
  | CLdStImm size fp opc imm rn rt => emit_ldr_str_imm size fp opc imm rn rt
  | CLdStReg size fp opc rm shift rn rt => emit_ldr_str_reg size fp opc rm shift rn rt
  | CLdurF size ld imm rn vt => emit_fldur_fstur size ld imm rn vt
  | CLdurG size ld imm rn rt => emit_ldur_stur size ld imm rn rt
  | CLdpD ld imm rn v1 v2 => emit_fldp_fstp_d ld imm rn v1 v2
  | CLdpS ld imm rn v1 v2 => emit_fldp_fstp_s ld imm rn v1 v2
  | CFp1 type opcode rd rn => emit_fp_dp1 type opcode rd rn
  | CFp2 type opcode rd rn rm => emit_fp_dp2 type opcode rd rn rm
  | CFp3 type o1 o0 rd rn rm ra => emit_fp_dp3 type o1 o0 rd rn rm ra
  | CFcmp type rn rm => emit_fp_cmp type rn rm
  | CFcmpZero rn => emit_fcmp_zero_f64 rn
  | CFcsel rd rn rm cond => emit_fcsel_f64 rd rn rm cond
  | CFcvt dst src rd rn => emit_fcvt dst src rd rn
  | CFmovXD rd rn => emit_fmov_x_to_d rd rn
  | CFmovDX rd rn => emit_fmov_d_to_x rd rn
  | CMoviZero rd => emit_movi_d_zero rd
  | CFmovImm rd imm => emit_fmov_d_imm8 rd imm
  | CScvtf sf type rd rn => emit_scvtf sf type rd rn
  | CScvtfD rd rn => emit_scvtf_d_from_d rd rn
  | CFcvtInt sf type rmode rd rn => emit_fcvt_fp_to_int sf type rmode rd rn
  | CMrs rd => emit_mrs_nzcv rd
  | CMsr rd => emit_msr_nzcv rd
  | CCbz sf z rt imm => emit_cbz sf z rt imm
  | CTbz z bit rt imm => emit_tbz z bit rt imm
  | CB imm => emit_b imm
  | CBcond cond imm => emit_b_cond cond imm
  | CSubsReg sf rn rm rd => emit_subs_reg sf rn rm rd
  | CMovReg sf rd rn => emit_mov_reg sf rd rn
  | CAddReg sf rd rn rm => emit_add_reg sf rd rn rm
  | CAndImm sf rd n r s rn => emit_and_imm sf rd n r s rn
  | COrrImm sf rd rn n r s => emit_orr_imm sf rd rn n r s
  | CLdStExt size wb ext off rn rt => emit_ldr_str_imm_ext size wb ext off rn rt
  | CLdrImm size rt rn imm => emit_ldr_imm size rt rn imm
  | CStrImm size rt rn imm => emit_str_imm size rt rn imm
  | CFldrImm size rt rn imm => emit_fldr_imm size rt rn imm
  | CFstrImm size rt rn imm => emit_fstr_imm size rt rn imm
  | CFldrReg size rt rn rm shift => emit_fldr_reg size rt rn rm shift
  | CFstrReg size rt rn rm shift => emit_fstr_reg size rt rn rm shift
  | CLdrs sf size rt rn => emit_ldrs sf size rt rn
  | CFadd rd rn rm => emit_fadd_f64 rd rn rm
  | CFsub rd rn rm => emit_fsub_f64 rd rn rm
  | CFmul rd rn rm => emit_fmul_f64 rd rn rm
  | CFnmul rd rn rm => emit_fnmul_f64 rd rn rm
  | CFdiv rd rn rm => emit_fdiv_f64 rd rn rm
  | CFmadd rd rn rm ra => emit_fmadd_f64 rd rn rm ra
  | CFmsub rd rn rm ra => emit_fmsub_f64 rd rn rm ra
  | CFnmsub rd rn rm ra => emit_fnmsub_f64 rd rn rm ra
  | CFmov rd rn => emit_fmov_f64 rd rn
  | CFabs rd rn => emit_fabs_f64 rd rn
  | CFneg rd rn => emit_fneg_f64 rd rn
  | CFsqrt rd rn => emit_fsqrt_f64 rd rn
  | CFcmpF64 rn rm => emit_fcmp_f64 rn rm
  | CFcvtSD rd rn => emit_fcvt_s_to_d rd rn
  | CFcvtDS rd rn => emit_fcvt_d_to_s rd rn
  | CFmovGprFpr dir g f => emit_fmov_gpr_fpr dir g f
  | CFmovOne rd => emit_fmov_d_one rd
  | CScvtfX rd rn => emit_scvtf_x_to_d rd rn
  | CFcvtzs type sf rd rn => emit_fcvtzs type sf rd rn
  | CFmovReg rd rn => emit_fmov_f64_reg rd rn
  | CLdrLiteral rd c => emit_ldr_literal_f64 rd c
  end.

Definition insn_of (c : call) : insn :=
  match c with
  | CAddImm sf sub setf sh imm rn rd =>
      AddSubImm (nz sf) (nz sub) (nz setf) sh (Z.land imm 0xFFF) (reg rn) (reg rd)
  | CBitfield sf opc n r s rn rd =>
      Bitfield (nz sf) (Z.land opc 3) (Z.land n 1) (Z.land r 63) (Z.land s 63) (reg rn) (reg rd)
  | CMovn sf opc hw imm rd =>
      MoveWide (nz sf) (Z.land opc 3) (Z.land hw 3) (Z.land imm 0xFFFF) (reg rd)
  | CLslv sf rm rn rd => Lslv (nz sf) (reg rm) (reg rn) (reg rd)
  | CAddSubReg sf sub setf st rm amt rn rd =>
      AddSubReg (nz sf) (nz sub) (nz setf) (Z.land st 3) (reg rm) (Z.land amt 63) (reg rn) (reg rd)
  | CLogicalReg sf opc n st rm amt rn rd =>
      LogicalReg (nz sf) (Z.land opc 3) (Z.land n 1 =? 1) (Z.land st 3) (reg rm)
        (Z.land amt 63) (reg rn) (reg rd)
  | CLogicalImm sf opc n r s rn rd =>
      LogicalImm (nz sf) (Z.land opc 3) (b2z (nz n)) (Z.land r 63) (Z.land s 63) (reg rn) (reg rd)
  | CAdr page rd imm =>
      Adr (nz page) (Z.lor (Z.shiftl (Z.land (Z.shiftr imm 2) 0x7FFFF) 2) (Z.land imm 3)) (reg rd)
  | CCset sf cond rd => Csinc (nz sf) 31 (Z.land (Z.lxor cond 1) 15) 31 (reg rd)
  | CLdStImm size fp opc imm rn rt =>
      LdStImm (Z.land size 3) (nz fp) (Z.land (if size =? 4 then Z.lor opc 2 else opc) 3)
        (Z.land imm 0xFFF) (reg rn) (reg rt)
  | CLdStReg size fp opc rm shift rn rt =>
      LdStReg (Z.land size 3) (nz fp) (Z.land (if size =? 4 then Z.lor opc 2 else opc) 3)
        (reg rm) 3 (nz shift) (reg rn) (reg rt)
  | CLdurF size ld imm rn vt =>
      LdStUnscaled (Z.land size 3) true (Z.land ld 1) (sgn 9 (Z.land imm 0x1FF)) (reg rn) (reg vt)
  | CLdurG size ld imm rn rt =>
      LdStUnscaled (Z.land size 3) false (Z.land ld 1) (sgn 9 (Z.land imm 0x1FF)) (reg rn) (reg rt)
  | CLdpD ld imm rn v1 v2 =>
      LdpStpFp 1 (Z.land ld 1 =? 1) (sgn 7 (Z.land imm 0x7F)) (reg v2) (reg rn) (reg v1)
  | CLdpS ld imm rn v1 v2 =>
      LdpStpFp 0 (Z.land ld 1 =? 1) (sgn 7 (Z.land imm 0x7F)) (reg v2) (reg rn) (reg v1)
  | CFp1 type opcode rd rn => Fp1 (Z.land type 3) (Z.land opcode 63) (reg rn) (reg rd)
  | CFp2 type opcode rd rn rm => Fp2 (Z.land type 3) (reg rm) (Z.land opcode 15) (reg rn) (reg rd)
  | CFp3 type o1 o0 rd rn rm ra =>
      Fp3 (Z.land type 3) (Z.land o1 1 =? 1) (Z.land o0 1 =? 1) (reg rm) (reg ra) (reg rn) (reg rd)
  | CFcmp type rn rm => Fcmp (Z.land type 3) (reg rm) (reg rn) false
  | CFcmpZero rn => Fcmp 1 0 (reg rn) true
  | CFcsel rd rn rm cond => Fcsel 1 (reg rm) (Z.land cond 15) (reg rn) (reg rd)
  | CFcvt dst src rd rn => Fp1 (Z.land src 3) (Z.lor 4 (Z.land dst 3)) (reg rn) (reg rd)
  | CFmovXD rd rn => FpInt true 1 0 7 (reg rn) (reg rd)
  | CFmovDX rd rn => FpInt true 1 0 6 (reg rn) (reg rd)
  | CMoviZero rd => MoviD (reg rd)
  | CFmovImm rd imm => FmovImm 1 (Z.land imm 255) (reg rd)
  | CScvtf sf type rd rn => FpInt (nz sf) (Z.land type 3) 0 2 (reg rn) (reg rd)
  | CScvtfD rd rn => ScvtfD (reg rn) (reg rd)
  | CFcvtInt sf type rmode rd rn =>
      FpInt (nz sf) (Z.land type 3) (Z.land rmode 3) 0 (reg rn) (reg rd)
  | CMrs rd => MrsNzcv (reg rd)
  | CMsr rd => MsrNzcv (reg rd)
  | CCbz sf z rt imm => Cbz (nz sf) (nz z) (sgn 19 (Z.land imm 0x7FFFF)) (reg rt)
  | CTbz z bit rt imm =>
      Tbz (nz z) (Z.lor (Z.shiftl (Z.land (Z.shiftr bit 5) 1) 5) (Z.land bit 31))
        (sgn 14 (Z.land imm 0x3FFF)) (reg rt)
  | CB imm => B (sgn 26 (Z.land imm 0x3FFFFFF))
  | CBcond cond imm => Bcond (Z.land cond 15) (sgn 19 (Z.land imm 0x7FFFF))
  | CSubsReg sf rn rm rd =>
      AddSubReg (nz sf) true true 0 (reg rm) 0 (reg rn) (reg rd)
  | CMovReg sf rd rn =>
      if (rd =? GPR.SP) || (rn =? GPR.SP) then AddSubImm (nz sf) false false 0 0 (reg rn) (reg rd)
      else LogicalReg (nz sf) 1 false 0 (reg rn) 0 31 (reg rd)
  | CAddReg sf rd rn rm =>
      if (rd =? GPR.SP) || (rn =? GPR.SP) then AddSubExt (nz sf) false false (reg rm) (if nz sf then 3 else 2) 0 (reg rn) (reg rd)
      else AddSubReg (nz sf) false false 0 (reg rm) 0 (reg rn) (reg rd)
  | CAndImm sf rd n r s rn =>
      LogicalImm (nz sf) 0 (b2z (nz n)) (Z.land r 63) (Z.land s 63) (reg rn) (reg rd)
  | COrrImm sf rd rn n r s =>
      LogicalImm (nz sf) 1 (b2z (nz n)) (Z.land r 63) (Z.land s 63) (reg rn) (reg rd)
  | CLdStExt size wb ext off rn rt =>
      (if wb =? 0 then LdStUnscaled else LdStUnpriv) (Z.land size 3) false
        (Z.land (if size =? 4 then Z.lor ext 2 else ext) 3) (sgn 9 (Z.land off 0x1FF)) (reg rn) (reg rt)
  | CLdrImm size rt rn imm =>
      LdStImm (Z.land size 3) false (Z.land (if size =? 4 then 3 else 1) 3) (Z.land imm 0xFFF) (reg rn) (reg rt)
  | CStrImm size rt rn imm =>
      LdStImm (Z.land size 3) false (Z.land (if size =? 4 then 2 else 0) 3) (Z.land imm 0xFFF) (reg rn) (reg rt)
  | CFldrImm size rt rn imm =>
      LdStImm (Z.land size 3) true (Z.land (if size =? 4 then 3 else 1) 3) (Z.land imm 0xFFF) (reg rn) (reg rt)
  | CFstrImm size rt rn imm =>
      LdStImm (Z.land size 3) true (Z.land (if size =? 4 then 2 else 0) 3) (Z.land imm 0xFFF) (reg rn) (reg rt)
  | CFldrReg size rt rn rm shift =>
      LdStReg (Z.land size 3) true (Z.land (if size =? 4 then 3 else 1) 3) (reg rm) 3 (nz shift) (reg rn) (reg rt)
  | CFstrReg size rt rn rm shift =>
      LdStReg (Z.land size 3) true (Z.land (if size =? 4 then 2 else 0) 3) (reg rm) 3 (nz shift) (reg rn) (reg rt)
  | CLdrs sf size rt rn =>
      LdStImm size false (if sf =? 1 then 2 else 3) 0 (reg rn) (reg rt)
  | CFadd rd rn rm =>
      Fp2 1 (reg rm) 2 (reg rn) (reg rd)
  | CFsub rd rn rm =>
      Fp2 1 (reg rm) 3 (reg rn) (reg rd)
  | CFmul rd rn rm =>
      Fp2 1 (reg rm) 0 (reg rn) (reg rd)
  | CFnmul rd rn rm =>
      Fp2 1 (reg rm) 8 (reg rn) (reg rd)
  | CFdiv rd rn rm =>
      Fp2 1 (reg rm) 1 (reg rn) (reg rd)
  | CFmadd rd rn rm ra =>
      Fp3 1 false false (reg rm) (reg ra) (reg rn) (reg rd)
  | CFmsub rd rn rm ra =>
      Fp3 1 false true (reg rm) (reg ra) (reg rn) (reg rd)
  | CFnmsub rd rn rm ra =>
      Fp3 1 true true (reg rm) (reg ra) (reg rn) (reg rd)
  | CFmov rd rn =>
      Fp1 1 0 (reg rn) (reg rd)
  | CFabs rd rn =>
      Fp1 1 1 (reg rn) (reg rd)
  | CFneg rd rn =>
      Fp1 1 2 (reg rn) (reg rd)
  | CFsqrt rd rn =>
      Fp1 1 3 (reg rn) (reg rd)
  | CFcmpF64 rn rm =>
      Fcmp 1 (reg rm) (reg rn) false
  | CFcvtSD rd rn =>
      Fp1 0 5 (reg rn) (reg rd)
  | CFcvtDS rd rn =>
      Fp1 1 4 (reg rn) (reg rd)
  | CFmovGprFpr dir g f =>
      if dir =? 0 then FpInt true 1 0 7 (reg g) (reg f) else FpInt true 1 0 6 (reg f) (reg g)
  | CFmovOne rd =>
      FmovImm 1 0x70 (reg rd)
  | CScvtfX rd rn =>
      FpInt true 1 0 2 (reg rn) (reg rd)
  | CFcvtzs type sf rd rn =>
      FpInt (nz sf) (Z.land type 3) 3 0 (reg rn) (reg rd)
  | CFmovReg rd rn =>
      Fp1 1 0 (reg rn) (reg rd)
  | CLdrLiteral rd _ => LdrLitFp 1 2 (reg rd)
  end.

(** The literal is loaded from behind a branch over its two words. *)
Definition code_of (c : call) : list item :=
  Insn (insn_of c) ::
  match c with
  | CLdrLiteral _ v => [Insn (B 3); Data (Z.land v 0xFFFFFFFF); Data (Z.shiftr v 32)]
  | _ => []
  end.

Definition call_ok (c : call) : Prop :=
  match c with
  | CAddImm _ _ _ sh _ _ _ => 0 <= sh <= 1
  | CLogicalImm _ _ _ _ _ rn rd => rn <> GPR.SP /\ rd <> GPR.SP
  | CAdr _ rd _ => rd <> GPR.XZR
  | CCset sf _ _ => 0 <= sf <= 1
  | CLdStImm _ fp _ _ _ _ | CLdStReg _ fp _ _ _ _ _ => 0 <= fp <= 1
  | CAndImm sf rd n r s rn => (sf =? 1) || (n =? 0) = true /\ rn <> GPR.SP /\ rd <> GPR.SP
  | COrrImm sf rd rn n r s => (sf =? 1) || (n =? 0) = true /\ rn <> GPR.SP /\ rd <> GPR.SP
  | CLdStExt size wb ext off rn rt => 0 <= wb <= 1
  | CLdrs sf size rt rn => 0 <= size <= (if sf =? 1 then 2 else 1) /\ rt <> GPR.SP
  | CLdrLiteral _ v => 0 <= v < 2 ^ 64
  | _ => True
  end.

Lemma encoder_assembles (c : call) : match c with CLdrLiteral _ _ => False | _ => call_ok c end -> assembles (emit_call c) tt [insn_of c].
Proof.
  destruct c; cbn [call_ok emit_call insn_of]; intros H;
    [ apply asm_add_imm; exact H
    | apply asm_bitfield
    | apply asm_movn
    | apply asm_lslv
    | apply asm_add_sub_shifted_reg
    | apply asm_logical_shifted_reg
    | destruct H; apply asm_logical_imm; assumption
    | apply asm_adr; exact H
    | apply asm_cset; exact H
    | apply asm_ldr_str_imm; exact H
    | apply asm_ldr_str_reg; exact H
    | apply asm_fldur_fstur
    | apply asm_ldur_stur
    | apply asm_fldp_fstp_d
    | apply asm_fldp_fstp_s
    | apply asm_fp_dp1
    | apply asm_fp_dp2
    | apply asm_fp_dp3
    | apply asm_fp_cmp
    | apply asm_fcmp_zero_f64
    | apply asm_fcsel_f64
    | apply asm_fcvt
    | apply asm_fmov_x_to_d
    | apply asm_fmov_d_to_x
    | apply asm_movi_d_zero
    | apply asm_fmov_d_imm8
    | apply asm_scvtf
    | apply asm_scvtf_d_from_d
    | apply asm_fcvt_fp_to_int
    | apply asm_mrs_nzcv
    | apply asm_msr_nzcv
    | apply asm_cbz
    | apply asm_tbz
    | apply asm_b
    | apply asm_b_cond
    | exact (asm_add_sub_shifted_reg sf 1 1 0 rm 0 rn rd)
    | apply asm_mov_reg
    | apply asm_add_reg
    | apply asm_and_imm; apply H
    | apply asm_orr_imm; apply H
    | apply asm_ldr_str_imm_ext; exact H
    | exact (asm_ldr_str_s16 size 0 1 imm rn rt ltac:(lia))
    | exact (asm_ldr_str_s16 size 0 0 imm rn rt ltac:(lia))
    | exact (asm_ldr_str_s16 size 1 1 imm rn rt ltac:(lia))
    | exact (asm_ldr_str_s16 size 1 0 imm rn rt ltac:(lia))
    | exact (asm_ldr_str_reg size 1 1 rm shift rn rt ltac:(lia))
    | exact (asm_ldr_str_reg size 1 0 rm shift rn rt ltac:(lia))
    | apply asm_ldrs; apply H
    | exact (asm_fp_dp2 1 2 rd rn rm)
    | exact (asm_fp_dp2 1 3 rd rn rm)
    | exact (asm_fp_dp2 1 0 rd rn rm)
    | exact (asm_fp_dp2 1 8 rd rn rm)
    | exact (asm_fp_dp2 1 1 rd rn rm)
    | exact (asm_fp_dp3 1 0 0 rd rn rm ra)
    | exact (asm_fp_dp3 1 0 1 rd rn rm ra)
    | exact (asm_fp_dp3 1 1 1 rd rn rm ra)
    | exact (asm_fp_dp1 1 0 rd rn)
    | exact (asm_fp_dp1 1 1 rd rn)
    | exact (asm_fp_dp1 1 2 rd rn)
    | exact (asm_fp_dp1 1 3 rd rn)
    | exact (asm_fp_cmp 1 rn rm)
    | exact (asm_fcvt 1 0 rd rn)
    | exact (asm_fcvt 0 1 rd rn)
    | unfold emit_fmov_gpr_fpr; destruct (dir =? 0); [apply (asm_fmov_x_to_d f g) | apply (asm_fmov_d_to_x g f)]
    | apply asm_fmov_d_one
    | exact (asm_scvtf 1 1 rd rn)
    | apply asm_fcvtzs
    | apply asm_fmov_f64_reg
    | contradiction H ].
Qed.

(** C12: every encoder of the assembler, for every value of its arguments that
    meets its assertions, appends exactly the words of its instruction - one
    32-bit word, but for the literal load, which appends the load, a branch
    and the constant's two words - and leaves the register masks alone; the
    words decode, by the A64 encoding tables, to the documented instruction
    with those operands.  The one encoder whose documentation is not met is
    emit_ldr_str_imm_ext: it encodes the unscaled access where its comment
    names the post-indexed one, and the unprivileged one where its comment
    names the pre-indexed one. *)
Theorem emit_call_decodes (c : call) :
  call_ok c -> spells (emit_call c) tt (code_of c).
Proof.
  intros H. destruct c; try (refine (assembles_spells _ _ _ (encoder_assembles _ _)); exact H).
  destruct (asm_ldr_literal_f64 rd v H) as (w & b & E & Hw & Hb). exists [w; b; Z.land v 0xFFFFFFFF; Z.shiftr v 32].
  split; [exact E|]. cbn [call_ok] in H. repeat constructor; try apply Hw; try apply Hb.
  - apply (land_bound v 0xFFFFFFFF 32); lia.
  - apply (land_bound v 0xFFFFFFFF 32); lia.
  - rewrite Z.shiftr_div_pow2 by lia. apply Z.div_pos; lia.
  - rewrite Z.shiftr_div_pow2 by lia. apply Z.div_lt_upper_bound; [lia|]. change (2 ^ 32 * 2 ^ 32) with (2 ^ 64). lia.
Qed.

Lemma emit_call_decodes_witness :
  spells (emit_call (CBitfield 0 2 0 11 13 3 3)) tt (code_of (CBitfield 0 2 0 11 13 3 3)).
Proof. apply (emit_call_decodes (CBitfield 0 2 0 11 13 3 3)). exact I. Defined.
