(* ===== verification/BitmaskImm.v ===== *)
(** [is_bitmask_immediate] against the Arm pseudocode [DecodeBitMasks]: it
    accepts exactly the values a logical immediate can encode, and the fields
    it returns decode back to the value. *)

From S2P Require Import Prelude Emit Assembler.

(** ** DecodeBitMasks (Arm ARM, shared/functions/integer) *)

(** [ROR(x, r)] of an [e]-bit element. *)
Definition ror (e x r : Z) : Z :=
  Z.lor (Z.shiftr x r) (Z.land (Z.shiftl x (e - r)) (Z.ones e)).

(** [Replicate(x)] of an [e]-bit element to [w] bits. *)
Definition replicate (w e x : Z) : Z := x * ((2 ^ w - 1) / (2 ^ e - 1)).

Definition decode_bit_masks (w n imms immr : Z) : option Z :=
  let len := Z.log2 (Z.lor (Z.shiftl n 6) (Z.lxor imms 0x3F)) in
  let levels := Z.ones len in
  let S := Z.land imms levels in
  let R := Z.land immr levels in
  if len <? 1 then None
  else if w <? 2 ^ len then None
  else if S =? levels then None
  else Some (replicate w (2 ^ len) (ror (2 ^ len) (Z.ones (S + 1)) R)).

Definition width (is_64bit : bool) : Z := if is_64bit then 64 else 32.

(** The value [enc] stands for in an instruction of that width. *)
Definition enc_value (is_64bit : bool) (enc : LogicalImmEncoding) : option Z :=
  decode_bit_masks (width is_64bit) (b2z (N enc)) (imms enc) (immr enc).

(** ** Runs of ones *)

Lemma lor_odd_even a b : Z.lor (2 * a + 1) (2 * b) = 2 * Z.lor a b + 1.
Proof.
  apply Z.bits_inj'. intros i Hi. destruct (Z.eq_dec i 0) as [->|].
  - rewrite Z.lor_spec, !Z.testbit_odd_0. reflexivity.
  - replace i with (Z.succ (i - 1)) by lia.
    rewrite Z.lor_spec, !Z.testbit_odd_succ, Z.testbit_even_succ, Z.lor_spec by lia.
    reflexivity.
Qed.

Lemma land_odd_even a b : Z.land (2 * a + 1) (2 * b) = 2 * Z.land a b.
Proof.
  apply Z.bits_inj'. intros i Hi. destruct (Z.eq_dec i 0) as [->|].
  - rewrite Z.land_spec, !Z.testbit_odd_0, !Z.testbit_even_0. reflexivity.
  - replace i with (Z.succ (i - 1)) by lia.
    rewrite Z.land_spec, !Z.testbit_odd_succ, !Z.testbit_even_succ, Z.land_spec by lia.
    reflexivity.
Qed.

Lemma filled_run p :
  exists r, 0 <= r /\ Z.lor (Zpos p - 1) (Zpos p) = Zpos p + 2 ^ r - 1.
Proof.
  induction p as [q IH|q IH|].
  - exists 0. split; [lia|]. rewrite Pos2Z.inj_xI.
    replace (2 * Zpos q + 1 - 1) with (2 * Zpos q) by lia.
    rewrite Z.lor_comm, lor_odd_even, Z.lor_diag. cbn. lia.
  - destruct IH as (r & Hr & IH). exists (r + 1). split; [lia|].
    rewrite Pos2Z.inj_xO. replace (2 * Zpos q - 1) with (2 * (Zpos q - 1) + 1) by lia.
    rewrite lor_odd_even, IH, Z.pow_add_r by lia. lia.
  - exists 0. split; [lia|]. reflexivity.
Qed.

Lemma pow2_of_land p : Z.land (Zpos p) (Zpos p - 1) = 0 -> exists k, 0 <= k /\ Zpos p = 2 ^ k.
Proof.
  induction p as [q IH|q IH|]; intros H.
  - exfalso. rewrite Pos2Z.inj_xI in H. replace (2 * Zpos q + 1 - 1) with (2 * Zpos q) in H by lia.
    rewrite land_odd_even, Z.land_diag in H. lia.
  - rewrite (Pos2Z.inj_xO q) in H |- *. replace (2 * Zpos q - 1) with (2 * (Zpos q - 1) + 1) in H by lia.
    rewrite Z.land_comm, land_odd_even, Z.land_comm in H.
    assert (H0 : Z.land (Zpos q) (Zpos q - 1) = 0) by lia.
    destruct (IH H0) as (k & Hk & E). exists (k + 1). split; [lia|].
    rewrite Z.pow_add_r, E by lia. lia.
  - exists 0. split; [lia|reflexivity].
Qed.

(** A nonzero 64-bit word passes the [contiguous] test only when it is a run
    of ones: bits [r, k). *)
Lemma contiguous_run x :
  0 < x < 2 ^ 64 -> contiguous x = true ->
  exists r k, 0 <= r /\ r < k <= 64 /\ x = 2 ^ k - 2 ^ r.
Proof.
  intros Hx H. unfold contiguous in H. apply Z.eqb_eq in H.
  destruct x as [|p|p]; try lia.
  rewrite (wrap_small 64 (Zpos p - 1)) in H by lia.
  destruct (filled_run p) as (r & Hr & E). rewrite E in H.
  replace (Zpos p + 2 ^ r - 1 + 1) with (Zpos p + 2 ^ r) in H by lia.
  pose proof (Z.pow_pos_nonneg 2 r ltac:(lia) Hr) as Hp.
  assert (Hb : 0 <= Z.lor (Zpos p - 1) (Zpos p) < 2 ^ 64) by (apply lor_bound; lia).
  rewrite E in Hb.
  assert (Hk : exists k, 0 <= k <= 64 /\ Zpos p + 2 ^ r = 2 ^ k).
  { destruct (Z.eq_dec (Zpos p + 2 ^ r) (2 ^ 64)) as [->|Hne]; [exists 64; lia|].
    rewrite wrap_small in H by lia.
    destruct (Zpos p + 2 ^ r) as [|y|y] eqn:Ey; try lia.
    destruct (pow2_of_land y H) as (k & Hk & Ek). exists k. split; [|assumption].
    split; [lia|]. apply Z.pow_le_mono_r_iff with 2; lia. }
  destruct Hk as (k & Hk & Ek). exists r, k.
  assert (r < k) by (apply Z.pow_lt_mono_r_iff with 2; lia). lia.
Qed.

(** ** The element size *)

(** Equal halves: the loop's test passes. *)
Lemma equal_halves v h :
  0 <= h -> Z.land (Z.lxor (Z.shiftr v h) v) (Z.ones h) = 0 ->
  v mod 2 ^ (2 * h) = (v mod 2 ^ h) * (2 ^ h + 1).
Proof.
  intros Hh H.
  assert (E : (v / 2 ^ h) mod 2 ^ h = v mod 2 ^ h).
  { rewrite <- Z.shiftr_div_pow2, <- !Z.land_ones by lia.
    apply Z.lxor_eq.
    rewrite <- H. apply Z.bits_inj'. intros i Hi.
    rewrite !Z.lxor_spec, !Z.land_spec, !Z.lxor_spec.
    destruct (Z.testbit (Z.ones h) i), (Z.testbit v i), (Z.testbit (Z.shiftr v h) i); reflexivity. }
  replace (2 * h) with (h + h) by lia. rewrite Z.pow_add_r by lia.
  pose proof (Z.pow_pos_nonneg 2 h ltac:(lia) Hh).
  rewrite Z.rem_mul_r by lia. rewrite E. ring.
Qed.

Definition sizes (is_64bit : bool) : list Z :=
  if is_64bit then [64; 32; 16; 8; 4; 2] else [32; 16; 8; 4; 2].

Lemma halves_differ v h :
  0 <= h -> v mod 2 ^ (2 * h) = (v mod 2 ^ h) * (2 ^ h + 1) ->
  Z.land (Z.lxor (Z.shiftr v h) v) (Z.ones h) = 0.
Proof.
  intros Hh H. replace (2 * h) with (h + h) in H by lia.
  pose proof (Z.pow_pos_nonneg 2 h ltac:(lia) Hh) as Hp.
  rewrite Z.pow_add_r, Z.rem_mul_r in H by lia.
  assert (E : (v / 2 ^ h) mod 2 ^ h = v mod 2 ^ h) by nia.
  rewrite <- Z.shiftr_div_pow2, <- !Z.land_ones in E by lia.
  apply Z.bits_inj'. intros i Hi.
  assert (Ei := f_equal (fun z => Z.testbit z i) E). cbv beta in Ei.
  rewrite !Z.land_spec in Ei. rewrite Z.land_spec, Z.lxor_spec, Z.bits_0.
  destruct (Z.testbit (Z.ones h) i), (Z.testbit v i), (Z.testbit (Z.shiftr v h) i);
    cbn in *; congruence.
Qed.

Definition same_halves (v h : Z) : bool :=
  v mod 2 ^ (2 * h) =? (v mod 2 ^ h) * (2 ^ h + 1).

Lemma same_halves_test v h :
  0 <= h -> nz (Z.land (Z.lxor (Z.shiftr v h) v) (Z.ones h)) = negb (same_halves v h).
Proof.
  intros Hh. unfold nz, same_halves. f_equal. apply eq_true_iff_eq. rewrite !Z.eqb_eq.
  split; [apply equal_halves | apply halves_differ]; assumption.
Qed.

Lemma loop_step fuel v e h :
  In (e, h) [(64, 32); (32, 16); (16, 8); (8, 4); (4, 2)] ->
  element_size_loop (S fuel) v e =
    if same_halves v h then (if 2 <? h then element_size_loop fuel v h else h) else e.
Proof.
  intros Hin. cbn [element_size_loop].
  assert (E : Z.shiftr e 1 = h /\ Z.land e (unot 32 1) = e /\
              unot 64 (u64 (Z.shiftl (Z.ones 64) h)) = Z.ones h /\ 0 <= h).
  { repeat (destruct Hin as [[= <- <-]|Hin]; [vm_compute; intuition discriminate|]). destruct Hin. }
  destruct E as (E1 & E2 & E3 & E4). rewrite E1, E2, E3, same_halves_test by exact E4.
  destruct (same_halves v h); reflexivity.
Qed.

(** Evaluate the closed powers and quotients of [replicate]. *)
Ltac eval_consts :=
  repeat match goal with
  | |- context [2 ^ Zpos ?n] =>
      let k := eval vm_compute in (2 ^ Zpos n) in change (2 ^ Zpos n) with k in *
  | H : context [2 ^ Zpos ?n] |- _ =>
      let k := eval vm_compute in (2 ^ Zpos n) in change (2 ^ Zpos n) with k in *
  | |- context [(Zpos ?a - 1) / (Zpos ?b - 1)] =>
      let k := eval vm_compute in ((Zpos a - 1) / (Zpos b - 1)) in
      change ((Zpos a - 1) / (Zpos b - 1)) with k
  end.

Ltac halve n e h P :=
  rewrite (loop_step n _ e h) by (cbn; tauto);
  destruct (same_halves _ h); [specialize (P eq_refl)|]; cbv beta iota;
  [ change (2 <? h) with (2 <? h); let b := eval vm_compute in (2 <? h) in change (2 <? h) with b
  | cbn; split; [tauto|]; unfold replicate ].

Lemma loop_size (is_64bit : bool) v :
  0 <= v < 2 ^ width is_64bit ->
  In (element_size_loop 6 v (width is_64bit)) (sizes is_64bit) /\
    let e := element_size_loop 6 v (width is_64bit) in
    v = replicate (width is_64bit) e (v mod 2 ^ e).
Proof.
  intros Hv.
  assert (P : forall h, same_halves v h = true -> v mod 2 ^ (2 * h) = (v mod 2 ^ h) * (2 ^ h + 1)).
  { intros h H. apply Z.eqb_eq, H. }
  assert (P32 : same_halves v 32 = true -> v mod 18446744073709551616 = (v mod 4294967296) * 4294967297) by apply (P 32).
  assert (P16 : same_halves v 16 = true -> v mod 4294967296 = (v mod 65536) * 65537) by apply (P 16).
  assert (P8 : same_halves v 8 = true -> v mod 65536 = (v mod 256) * 257) by apply (P 8).
  assert (P4 : same_halves v 4 = true -> v mod 256 = (v mod 16) * 17) by apply (P 4).
  assert (P2 : same_halves v 2 = true -> v mod 16 = (v mod 4) * 5) by apply (P 2).
  clear P.
  assert (Hw : v mod 2 ^ width is_64bit = v) by (apply Z.mod_small, Hv).
  destruct is_64bit; cbn [width sizes] in *.
  - halve 5%nat 64 32 P32; [halve 4%nat 32 16 P16; [halve 3%nat 16 8 P8;
      [halve 2%nat 8 4 P4; [halve 1%nat 4 2 P2|]|]|]|]; cbv iota zeta;
    try (split; [cbn; tauto|]); unfold replicate;
    eval_consts; lia.
  - halve 5%nat 32 16 P16; [halve 4%nat 16 8 P8;
      [halve 3%nat 8 4 P4; [halve 2%nat 4 2 P2|]|]|]; cbv iota zeta;
    try (split; [cbn; tauto|]); unfold replicate;
    eval_consts; lia.
Qed.

(** ** The run test of one element *)

Lemma lxor_ones e x : 0 <= e -> 0 <= x < 2 ^ e -> Z.lxor x (Z.ones e) = 2 ^ e - 1 - x.
Proof.
  intros He Hx.
  assert (H : x + Z.lxor x (Z.ones e) = Z.ones e).
  { rewrite Z.add_nocarry_lxor.
    - rewrite <- Z.lxor_assoc, Z.lxor_nilpotent. apply Z.lxor_0_l.
    - apply Z.bits_inj'. intros i Hi. rewrite Z.land_spec, Z.lxor_spec, Z.bits_0.
      destruct (Z.ltb_spec i e).
      + rewrite Z.ones_spec_low by lia. destruct (Z.testbit x i); reflexivity.
      + rewrite Z.ones_spec_high by lia.
        assert (Z.testbit x i = false) as ->; [|reflexivity].
        rewrite <- (Z.mod_small x (2 ^ e)) by lia. apply Z.mod_pow2_bits_high; lia. }
  rewrite Z.ones_equiv in H. rewrite Z.ones_equiv. lia.
Qed.

Lemma unot_element e v :
  0 <= e <= 64 -> Z.land (Z.ones e) (unot 64 v) = 2 ^ e - 1 - v mod 2 ^ e.
Proof.
  intros He. rewrite <- lxor_ones; [|lia|apply Z.mod_pos_bound, Z.pow_pos_nonneg; lia].
  rewrite <- Z.land_ones by lia. unfold unot. apply Z.bits_inj'. intros i Hi.
  rewrite Z.land_spec, !Z.lxor_spec, Z.land_spec.
  destruct (Z.ltb_spec i e).
  - rewrite !Z.ones_spec_low by lia. rewrite andb_true_r. reflexivity.
  - rewrite (Z.ones_spec_high e) by lia. rewrite andb_false_r. reflexivity.
Qed.

(** The elements [find_run] accepts: a run of ones or of zeros. *)
Definition run_element (e x : Z) : Prop :=
  exists r k, 0 <= r /\ r < k <= e /\ (x = 2 ^ k - 2 ^ r \/ x = 2 ^ e - 1 - (2 ^ k - 2 ^ r)).

Lemma run_fits e r k : 0 <= r -> r < k -> 0 <= e -> 2 ^ k - 2 ^ r < 2 ^ e -> k <= e.
Proof.
  intros Hr Hk He H.
  assert (2 ^ r <= 2 ^ (k - 1)) by (apply Z.pow_le_mono_r; lia).
  assert (E : 2 ^ k = 2 * 2 ^ (k - 1)).
  { replace k with (Z.succ (k - 1)) at 1 by lia. apply Z.pow_succ_r; lia. }
  assert (k - 1 < e) by (apply Z.pow_lt_mono_r_iff with 2; lia). lia.
Qed.

Lemma find_run_some v e p :
  0 <= e <= 64 -> Z.shiftr (Z.ones 64) (64 - e) = Z.ones e ->
  find_run v e = Some p -> run_element e (v mod 2 ^ e).
Proof.
  intros He Hm H. unfold find_run in H. rewrite Hm in H.
  pose proof (Z.mod_pos_bound v (2 ^ e) ltac:(apply Z.pow_pos_nonneg; lia)) as Hx.
  assert (2 ^ e <= 2 ^ 64) by (apply Z.pow_le_mono_r; lia).
  assert (El : Z.land (Z.ones e) v = v mod 2 ^ e) by (rewrite Z.land_comm, Z.land_ones; lia).
  rewrite unot_element, El in H by exact He.
  set (x := v mod 2 ^ e) in *. clearbody x.
  destruct (nz x && contiguous x) eqn:E.
  - apply andb_true_iff in E as [E1 E2]. apply negb_true_iff, Z.eqb_neq in E1.
    destruct (contiguous_run x) as (r & k & Hr & Hk & ->); [lia|assumption|].
    exists r, k. pose proof (run_fits e r k). split; [lia|]. split; [lia|]. left; reflexivity.
  - destruct (Z.eqb_spec (2 ^ e - 1 - x) 0); [discriminate|].
    destruct (contiguous (2 ^ e - 1 - x)) eqn:E2; [|discriminate].
    destruct (contiguous_run (2 ^ e - 1 - x)) as (r & k & Hr & Hk & Ek); [lia|assumption|].
    exists r, k. pose proof (run_fits e r k). split; [lia|]. split; [lia|]. right; lia.
Qed.

(** ** The finitely many candidates, evaluated *)

Definition range (n : Z) : list Z := map Z.of_nat (seq 0 (Z.to_nat n)).

Lemma in_range n x : 0 <= x < n -> In x (range n).
Proof.
  intros H. unfold range. replace x with (Z.of_nat (Z.to_nat x)) by lia.
  apply in_map, in_seq. lia.
Qed.

Definition accepts (is_64bit : bool) (v : Z) : bool :=
  match is_bitmask_immediate is_64bit v with
  | Bitmask enc =>
      match enc_value is_64bit enc with
      | Some v' => (v' =? v) && (0 <=? immr enc) && (immr enc <? 64)
                   && (0 <=? imms enc) && (imms enc <? 64)
      | None => false
      end
  | _ => false
  end.

Definition trivial (w v : Z) : bool := (v =? 0) || (v =? 2 ^ w - 1).

Definition check_runs (is_64bit : bool) : bool :=
  let w := width is_64bit in
  forallb (fun e => forallb (fun r => forallb (fun k =>
    let x := 2 ^ k - 2 ^ r in
    let v1 := replicate w e x in let v2 := replicate w e (2 ^ e - 1 - x) in
    negb (r <? k) ||
    ((trivial w v1 || accepts is_64bit v1) && (trivial w v2 || accepts is_64bit v2)))
    (range (e + 1))) (range e)) (sizes is_64bit).

Lemma check_runs_ok is_64bit : check_runs is_64bit = true.
Proof. destruct is_64bit; vm_compute; reflexivity. Qed.

Lemma run_accepted is_64bit e x :
  In e (sizes is_64bit) -> run_element e x ->
  let v := replicate (width is_64bit) e x in
  trivial (width is_64bit) v = true \/ accepts is_64bit v = true.
Proof.
  intros He (r & k & Hr & Hk & Hx).
  pose proof (check_runs_ok is_64bit) as H. unfold check_runs in H.
  rewrite forallb_forall in H. specialize (H e He).
  rewrite forallb_forall in H. specialize (H r ltac:(apply in_range; lia)).
  rewrite forallb_forall in H. specialize (H k ltac:(apply in_range; lia)).
  replace (r <? k) with true in H by (symmetry; apply Z.ltb_lt; lia). cbn [negb orb] in H.
  apply andb_true_iff in H as [H1 H2].
  destruct Hx as [-> | ->]; cbv zeta; apply orb_true_iff; assumption.
Qed.

Definition check_codes (is_64bit : bool) : bool :=
  let w := width is_64bit in
  forallb (fun n => forallb (fun s => forallb (fun r =>
    match decode_bit_masks w n s r with
    | Some v => accepts is_64bit v
    | None => true
    end) (range 64)) (range 64)) (range 2).

Lemma check_codes_ok is_64bit : check_codes is_64bit = true.
Proof. destruct is_64bit; vm_compute; reflexivity. Qed.

Lemma code_accepted is_64bit n s r v :
  0 <= n < 2 -> 0 <= s < 64 -> 0 <= r < 64 ->
  decode_bit_masks (width is_64bit) n s r = Some v -> accepts is_64bit v = true.
Proof.
  intros Hn Hs Hr E. pose proof (check_codes_ok is_64bit) as H. unfold check_codes in H.
  rewrite forallb_forall in H. specialize (H n ltac:(apply in_range; lia)).
  rewrite forallb_forall in H. specialize (H s ltac:(apply in_range; lia)).
  rewrite forallb_forall in H. specialize (H r ltac:(apply in_range; lia)).
  rewrite E in H. exact H.
Qed.

(** ** Soundness and completeness *)

Lemma size_facts is_64bit e :
  In e (sizes is_64bit) -> 0 <= e <= 64 /\ Z.shiftr (Z.ones 64) (64 - e) = Z.ones e.
Proof.
  destruct is_64bit; cbn [sizes In]; intros H;
    repeat (destruct H as [<-|H]; [vm_compute; intuition discriminate|]); destruct H.
Qed.

Lemma accepts_bitmask is_64bit v :
  accepts is_64bit v = true ->
  exists enc, is_bitmask_immediate is_64bit v = Bitmask enc /\ enc_value is_64bit enc = Some v /\
    0 <= immr enc < 64 /\ 0 <= imms enc < 64.
Proof.
  unfold accepts. destruct (is_bitmask_immediate is_64bit v) as [|enc|]; try discriminate.
  destruct (enc_value is_64bit enc) as [v'|] eqn:E; [|discriminate].
  rewrite !andb_true_iff, Z.eqb_eq, !Z.leb_le, !Z.ltb_lt. intros ((((-> & ?) & ?) & ?) & ?).
  exists enc. auto.
Qed.

(** The function looks only at the bits of its width. *)
Lemma is_bitmask_low is_64bit v :
  0 <= v < 2 ^ 64 ->
  is_bitmask_immediate is_64bit v = is_bitmask_immediate is_64bit (wrap (width is_64bit) v).
Proof.
  intros Hv. destruct is_64bit; cbn [width].
  - rewrite (wrap_small 64 v) by exact Hv. reflexivity.
  - unfold is_bitmask_immediate. rewrite wrap_wrap by lia.
    replace (u32 (u32 v + 1)) with (u32 (v + 1)); [reflexivity|].
    unfold wrap. rewrite Zplus_mod_idemp_l. reflexivity.
Qed.

Lemma trivial_rejected is_64bit v :
  0 <= v < 2 ^ width is_64bit ->
  is_bitmask_immediate is_64bit v = NotBitmask \/ trivial (width is_64bit) v = false.
Proof.
  intros Hv. unfold trivial.
  destruct (Z.eqb_spec v 0) as [->|H0]; [left; destruct is_64bit; reflexivity|].
  destruct (Z.eqb_spec v (2 ^ width is_64bit - 1)) as [->|H1]; [|right; reflexivity].
  left; destruct is_64bit; reflexivity.
Qed.

(** A value that reaches the run test and passes it is accepted. *)
Lemma not_rejected is_64bit v :
  0 <= v < 2 ^ width is_64bit ->
  is_bitmask_immediate is_64bit v = NotBitmask \/ accepts is_64bit v = true.
Proof.
  intros Hv. destruct (trivial_rejected is_64bit v Hv) as [|Ht]; [left; assumption|].
  destruct (loop_size is_64bit v Hv) as [He Hrep]. cbv zeta in Hrep.
  set (e := element_size_loop 6 v (width is_64bit)) in *.
  destruct (find_run v e) as [p|] eqn:Ef.
  - right. destruct (size_facts is_64bit e He) as [Hr Hm].
    destruct (run_accepted is_64bit e (v mod 2 ^ e) He (find_run_some v e p Hr Hm Ef)) as [Ha|Ha];
      rewrite <- Hrep in Ha; [congruence | assumption].
  - left. unfold is_bitmask_immediate. destruct is_64bit; cbn [width] in *.
    + fold e. rewrite Ef. destruct (u64 (v + 1) <? 2); reflexivity.
    + rewrite (wrap_small 32 v) by lia. fold e. rewrite Ef.
      destruct (u32 (v + 1) <? 2); reflexivity.
Qed.

(** What the function answers for a value of its width. *)
Lemma bitmask_answer is_64bit v :
  0 <= v < 2 ^ width is_64bit ->
  is_bitmask_immediate is_64bit v = NotBitmask \/
  exists enc, is_bitmask_immediate is_64bit v = Bitmask enc /\
    enc_value is_64bit enc = Some v /\ 0 <= immr enc < 64 /\ 0 <= imms enc < 64.
Proof.
  intros Hv. destruct (not_rejected is_64bit v Hv) as [E|Ha]; [left; exact E|right].
  apply accepts_bitmask in Ha. exact Ha.
Qed.

(** C13: [is_bitmask_immediate] is sound and complete for the Arm logical
    immediates and its internal assertion never fires: on acceptance the
    fields it returns fit their six bits and decode (DecodeBitMasks) to the
    value; on rejection no (N, immr, imms) encodes the value. *)
Theorem is_bitmask_immediate_correct (is_64bit : bool) (value : Z) :
  0 <= value < 2 ^ 64 ->
  match is_bitmask_immediate is_64bit value with
  | Bitmask enc =>
      enc_value is_64bit enc = Some (wrap (width is_64bit) value) /\
      0 <= immr enc < 64 /\ 0 <= imms enc < 64
  | NotBitmask =>
      forall n s r, 0 <= n < 2 -> 0 <= s < 64 -> 0 <= r < 64 ->
        decode_bit_masks (width is_64bit) n s r <> Some (wrap (width is_64bit) value)
  | BitmaskAssert => False
  end.
Proof.
  intros Hv. rewrite is_bitmask_low by exact Hv.
  assert (Hw : 0 <= wrap (width is_64bit) value < 2 ^ width is_64bit).
  { apply wrap_range. destruct is_64bit; cbn; lia. }
  destruct (not_rejected is_64bit _ Hw) as [E|Ha].
  - rewrite E. intros n s r Hn Hs Hr Ed.
    apply (code_accepted is_64bit n s r _ Hn Hs Hr), accepts_bitmask in Ed.
    destruct Ed as (enc & E' & _). congruence.
  - apply accepts_bitmask in Ha as (enc & -> & H1 & H2 & H3). auto.
Qed.

Lemma is_bitmask_immediate_correct_witness :
  is_bitmask_immediate true 0x0F0F0F0F0F0F0F0F = Bitmask (mkEnc false 0 51) /\
  enc_value true (mkEnc false 0 51) = Some (wrap 64 0x0F0F0F0F0F0F0F0F).
Proof.
  split; [vm_compute; reflexivity|].
  assert (H : 0 <= 0x0F0F0F0F0F0F0F0F < 2 ^ 64) by lia.
  exact (proj1 (is_bitmask_immediate_correct true 0x0F0F0F0F0F0F0F0F H)).
Defined.
