(* ===== verification/F64.v ===== *)
(** IEEE-754 binary64 and binary32 as C++ and the A64 FP instructions compute
    them.  A double is its bit pattern, a [Z] in [0, 2^64); a float is one in
    [0, 2^32).  Arithmetic rounds to nearest even through the kernel's
    [SpecFloat]; NaN operands propagate the way the A64 instructions do (first
    operand's signalling NaN first, quieted), an invalid operation gives the
    default NaN. *)

From S2P Require Import Prelude.
From Corelib Require Import SpecFloat.

(** Field layout of a format: [mw] fraction bits, [ew] exponent bits. *)
Record fmt := mkFmt { mw : Z; ew : Z }.

Definition f64 : fmt := mkFmt 52 11.
Definition f32 : fmt := mkFmt 23 8.

Definition prec (f : fmt) : Z := mw f + 1.
Definition emax (f : fmt) : Z := 2 ^ (ew f - 1).
Definition size (f : fmt) : Z := mw f + ew f + 1.

(** Exponent of the unit in the last place of a subnormal. *)
Definition qmin (f : fmt) : Z := 3 - emax f - prec f.

Definition sign_of (f : fmt) (b : Z) : bool := Z.testbit b (mw f + ew f).
Definition exp_of (f : fmt) (b : Z) : Z := bits b (mw f) (ew f).
Definition frac_of (f : fmt) (b : Z) : Z := bits b 0 (mw f).
Definition exp_ones (f : fmt) : Z := Z.ones (ew f).

Definition pack (f : fmt) (s : bool) (e m : Z) : Z :=
  b2z s * 2 ^ (mw f + ew f) + wrap (ew f) e * 2 ^ mw f + wrap (mw f) m.

Definition is_nan (f : fmt) (b : Z) : bool := (exp_of f b =? exp_ones f) && nz (frac_of f b).
Definition is_inf (f : fmt) (b : Z) : bool := (exp_of f b =? exp_ones f) && (frac_of f b =? 0).
Definition is_snan (f : fmt) (b : Z) : bool := is_nan f b && negb (Z.testbit b (mw f - 1)).

Definition quiet (f : fmt) (b : Z) : Z := Z.lor b (2 ^ (mw f - 1)).
Definition default_nan (f : fmt) : Z := pack f false (exp_ones f) (2 ^ (mw f - 1)).

Definition of_bits (f : fmt) (b : Z) : spec_float :=
  let s := sign_of f b in let e := exp_of f b in let m := frac_of f b in
  if e =? exp_ones f then (if m =? 0 then S754_infinity s else S754_nan)
  else if e =? 0 then
    match m with Zpos p => S754_finite s p (qmin f) | _ => S754_zero s end
  else
    match m + 2 ^ mw f with Zpos p => S754_finite s p (e + qmin f - 1) | _ => S754_zero s end.

Definition to_bits (f : fmt) (x : spec_float) : Z :=
  match x with
  | S754_zero s => pack f s 0 0
  | S754_infinity s => pack f s (exp_ones f) 0
  | S754_nan => default_nan f
  | S754_finite s m e =>
      if Zpos m <? 2 ^ mw f then pack f s 0 (Zpos m)
      else pack f s (e - qmin f + 1) (Zpos m - 2 ^ mw f)
  end.

(** FPProcessNaNs of the Arm ARM for two operands. *)
Definition process_nans (f : fmt) (a b : Z) : option Z :=
  if is_snan f a then Some (quiet f a)
  else if is_snan f b then Some (quiet f b)
  else if is_nan f a then Some a
  else if is_nan f b then Some b
  else None.

Definition arith2 (f : fmt) (op : Z -> Z -> spec_float -> spec_float -> spec_float) (a b : Z) : Z :=
  match process_nans f a b with
  | Some r => r
  | None => to_bits f (op (prec f) (emax f) (of_bits f a) (of_bits f b))
  end.

Definition fadd (f : fmt) : Z -> Z -> Z := arith2 f SFadd.
Definition fsub (f : fmt) : Z -> Z -> Z := arith2 f SFsub.
Definition fmul (f : fmt) : Z -> Z -> Z := arith2 f (fun p e => SFmul p e).
Definition fdiv (f : fmt) : Z -> Z -> Z := arith2 f SFdiv.

Definition fsqrt (f : fmt) (a : Z) : Z :=
  if is_nan f a then quiet f a else to_bits f (SFsqrt (prec f) (emax f) (of_bits f a)).

(** Sign operations act on the bit pattern, NaNs included. *)
Definition fneg (f : fmt) (a : Z) : Z := Z.lxor a (2 ^ (mw f + ew f)).
Definition fabs (f : fmt) (a : Z) : Z := Z.land a (Z.ones (mw f + ew f)).

(** FMADD: a * b + c with one rounding.  NaNs in the order of FPProcessNaNs3
    (the addend first); an infinity times a zero is invalid, even when the
    addend is a quiet NaN. *)
Definition process_nans3 (f : fmt) (c a b : Z) : option Z :=
  if is_snan f c then Some (quiet f c)
  else match (if is_snan f a || is_snan f b then process_nans f a b else None) with
  | Some r => Some r
  | None => if is_nan f c then Some c else process_nans f a b
  end.

Definition exact_sum (p e : Z) (x y : bool * Z * Z) : spec_float :=
  let '(sx, mx, ex) := x in let '(sy, my, ey) := y in
  let q := Z.min ex ey in
  let term (s : bool) m e := (if s then -1 else 1) * Z.shiftl m (e - q) in
  binary_normalize p e (term sx mx ex + term sy my ey) q (sx && sy).

Definition fma (f : fmt) (a b c : Z) : Z :=
  let zero x := match of_bits f x with S754_zero _ => true | _ => false end in
  let sp := xorb (sign_of f a) (sign_of f b) in
  let invalid := is_inf f a && zero b || zero a && is_inf f b in
  if invalid && (is_nan f c && negb (is_snan f c)) then default_nan f
  else match process_nans3 f c a b with
  | Some r => r
  | None =>
      if invalid then default_nan f
      else if is_inf f a || is_inf f b then
        if is_inf f c && negb (Bool.eqb sp (sign_of f c)) then default_nan f
        else pack f sp (exp_ones f) 0
      else if is_inf f c then c
      else
        let parts x := match of_bits f x with S754_finite _ m e => (Zpos m, e) | _ => (0, 0) end in
        let '(ma, ea) := parts a in let '(mb, eb) := parts b in let '(mc, ec) := parts c in
        to_bits f (exact_sum (prec f) (emax f) (sp, ma * mb, ea + eb) (sign_of f c, mc, ec))
  end.

(** FMSUB: c - a * b, FNMSUB: a * b - c, FNMUL: -(a * b). *)
Definition fmsub (f : fmt) (a b c : Z) : Z := fma f (fneg f a) b c.
Definition fnmsub (f : fmt) (a b c : Z) : Z := fma f a b (fneg f c).
Definition fnmul (f : fmt) (a b : Z) : Z := fneg f (fmul f a b).

(** ** Comparison

    A finite value is an integer multiple of the least subnormal; [scaled]
    is that integer, so ordering doubles is ordering integers. *)
Definition scaled (f : fmt) (b : Z) : Z :=
  let e := exp_of f b in let m := frac_of f b in
  let n := if e =? 0 then m else Z.shiftl (m + 2 ^ mw f) (e - 1) in
  if sign_of f b then - n else n.

Definition fcompare (f : fmt) (a b : Z) : option comparison :=
  if is_nan f a || is_nan f b then None
  else
    let key x :=
      if is_inf f x then (if sign_of f x then - 2 ^ (2 ^ ew f + mw f) else 2 ^ (2 ^ ew f + mw f))
      else scaled f x in
    Some (Z.compare (key a) (key b)).

Definition flt (f : fmt) (a b : Z) : bool :=
  match fcompare f a b with Some Lt => true | _ => false end.
Definition feq (f : fmt) (a b : Z) : bool :=
  match fcompare f a b with Some Eq => true | _ => false end.
Definition fle (f : fmt) (a b : Z) : bool :=
  match fcompare f a b with Some (Lt | Eq) => true | _ => false end.

(** ** Conversions *)

Definition of_int (f : fmt) (n : Z) : Z :=
  to_bits f (binary_normalize (prec f) (emax f) n 0 false).

(** float -> double and double -> float; a NaN keeps its sign and the top of
    its payload, quieted. *)
Definition convert (src dst : fmt) (a : Z) : Z :=
  if is_nan src a then
    let m := frac_of src a in
    let m' := if mw src <=? mw dst then Z.shiftl m (mw dst - mw src)
              else Z.shiftr m (mw src - mw dst) in
    quiet dst (pack dst (sign_of src a) (exp_ones dst) m')
  else
    match of_bits src a with
    | S754_finite true m e => to_bits dst (binary_normalize (prec dst) (emax dst) (Zneg m) e true)
    | S754_finite false m e => to_bits dst (binary_normalize (prec dst) (emax dst) (Zpos m) e false)
    | x => to_bits dst x
    end.

Definition widen : Z -> Z := convert f32 f64.
Definition narrow : Z -> Z := convert f64 f32.

(** ** Rounding to integral values *)

Inductive rmode := RNE | RDown | RUp | RZero.

(** The integer nearest to m * 2^e in mode [r]. *)
Definition round_int (r : rmode) (m e : Z) : Z :=
  if 0 <=? e then Z.shiftl m e
  else
    let d := 2 ^ (- e) in
    let q := m / d in let rem := m mod d in
    match r with
    | RDown => q
    | RUp => if rem =? 0 then q else q + 1
    | RZero => if (m <? 0) && nz rem then q + 1 else q
    | RNE =>
        match Z.compare (2 * rem) d with
        | Lt => q
        | Gt => q + 1
        | Eq => if Z.even q then q else q + 1
        end
    end.

(** The integer a finite double rounds to; [scaled] is a multiple of 2^qmin. *)
Definition int_of (r : rmode) (f : fmt) (a : Z) : Z := round_int r (scaled f a) (qmin f).

(** floor, ceil, trunc, nearbyint (the default rounding mode), FRINT*. *)
Definition round_integral (r : rmode) (f : fmt) (a : Z) : Z :=
  if is_nan f a then quiet f a
  else if is_inf f a then a
  else
    let n := int_of r f a in
    if n =? 0 then pack f (sign_of f a) 0 0 else of_int f n.

(** The value of a double that is an integer, as C++'s cast of one in range. *)
Definition cast_int (f : fmt) (a : Z) : Z := int_of RZero f a.

(** FCVT*S: to a signed w-bit integer, saturating, NaN to zero. *)
Definition fcvt_int (r : rmode) (w : Z) (f : fmt) (a : Z) : Z :=
  if is_nan f a then 0
  else if is_inf f a then (if sign_of f a then - 2 ^ (w - 1) else 2 ^ (w - 1) - 1)
  else Z.max (- 2 ^ (w - 1)) (Z.min (2 ^ (w - 1) - 1) (int_of r f a)).

(** ** Constants *)
Definition f_one : Z := 0x3FF0000000000000.
Definition f_zero : Z := 0.
Definition f_qnan : Z := 0x7FF8000000000000.
Definition f_inf : Z := 0x7FF0000000000000.

Example add_1_2 : fadd f64 f_one 0x4000000000000000 = 0x4008000000000000.
Proof. vm_compute. reflexivity. Qed.
Example third : fdiv f64 f_one 0x4008000000000000 = 0x3FD5555555555555.
Proof. vm_compute. reflexivity. Qed.
Example sqrt2 : fsqrt f64 0x4000000000000000 = 0x3FF6A09E667F3BCD.
Proof. vm_compute. reflexivity. Qed.
Example narrow_third : narrow 0x3FD5555555555555 = 0x3EAAAAAB.
Proof. vm_compute. reflexivity. Qed.
Example widen_third : widen 0x3EAAAAAB = 0x3FD5555560000000.
Proof. vm_compute. reflexivity. Qed.
Example int_m3 : of_int f64 (-3) = 0xC008000000000000.
Proof. vm_compute. reflexivity. Qed.
Example round_half : round_integral RNE f64 0x4004000000000000 = 0x4000000000000000.
Proof. vm_compute. reflexivity. Qed.
Example floor_neg : round_integral RDown f64 0xBFE0000000000000 = 0xBFF0000000000000.
Proof. vm_compute. reflexivity. Qed.
Example cmp_lt : flt f64 0xC008000000000000 f_one = true.
Proof. vm_compute. reflexivity. Qed.
Example min_sub : fadd f64 1 1 = 2.
Proof. vm_compute. reflexivity. Qed.
Example of_to : to_bits f64 (of_bits f64 0x0010000000000000) = 0x0010000000000000.
Proof. vm_compute. reflexivity. Qed.
Example fma_3_3_m1 : fma f64 0x4008000000000000 0x4008000000000000 0xBFF0000000000000 = 0x4020000000000000.
Proof. vm_compute. reflexivity. Qed.
Example fma_one_rounding :
  fma f64 0x3FF0000000000001 0x3FF0000000000001 0xBFF0000000000002 = 0x3970000000000000 /\
  fsub f64 (fmul f64 0x3FF0000000000001 0x3FF0000000000001) 0x3FF0000000000002 = 0.
Proof. vm_compute. auto. Qed.
