(* ===== verification/X87State.v ===== *)
(** rosetta_runtime/src/X87State.h: the x87 state the runtime and the
    generated code share, and its methods.  The alignment word [pad] carries
    nothing and is left out.  [tagWord] is a signed 16-bit integer in the
    source; its bit operations are C's, on the promoted int, converted back. *)

From S2P Require Import Prelude F64.

(** X87StatusWordFlag *)
Definition kInvalidOperation := 0x0001.
Definition kUnderflow := 0x0010.
Definition kOverflow := 0x0008.
Definition kPrecision := 0x0020.
Definition kStackFault := 0x0040.
Definition kConditionCode0 := 0x0100.
Definition kConditionCode1 := 0x0200.
Definition kConditionCode2 := 0x0400.
Definition kConditionCode3 := 0x4000.
Definition kTopOfStack := 0x3800.

(** X87ControlWord *)
Definition kInvalidOpMask := 0x0001.
Definition kZeroDivideMask := 0x0004.
Definition kRoundingControlMask := 0x0C00.
Definition kRoundDown := 0x0400.
Definition kRoundUp := 0x0800.
Definition kRoundToZero := 0x0C00.

(** enum class X87TagState *)
Definition kValid := 0.
Definition kZero := 1.
Definition kSpecial := 2.
Definition kEmpty := 3.

Definition x87_is_nan (b : Z) : bool :=
  (Z.land b 0x7FF0000000000000 =? 0x7FF0000000000000) && nz (Z.land b 0x000FFFFFFFFFFFFF).
Definition x87_is_inf (b : Z) : bool := Z.land b 0x7FFFFFFFFFFFFFFF =? 0x7FF0000000000000.
Definition x87_is_nan_or_inf (b : Z) : bool := Z.land b 0x7FF0000000000000 =? 0x7FF0000000000000.
Definition x87_is_subnormal (b : Z) : bool :=
  (Z.land b 0x7FF0000000000000 =? 0) && nz (Z.land b 0x000FFFFFFFFFFFFF).

Record X87State := mkX87 {
  controlWord : Z;
  statusWord : Z;
  tagWord : Z;
  st : list Z
}.

Definition with_sw (s : X87State) (w : Z) : X87State := mkX87 (controlWord s) w (tagWord s) (st s).
Definition with_tag (s : X87State) (w : Z) : X87State := mkX87 (controlWord s) (statusWord s) w (st s).
Definition with_st (s : X87State) (l : list Z) : X87State := mkX87 (controlWord s) (statusWord s) (tagWord s) l.

(** [statusWord |= m] and [statusWord &= ~m]. *)
Definition sw_or (s : X87State) (m : Z) : X87State := with_sw s (u16 (Z.lor (statusWord s) m)).
Definition sw_clear (s : X87State) (m : Z) : X87State := with_sw s (u16 (Z.land (statusWord s) (Z.lnot m))).

(** The constructor. *)
Definition X87State_init : X87State := mkX87 0x037F 0x0000 (s16 0xFFFF) (repeat f_zero 8).

Definition topIndex (s : X87State) : Z := Z.land (Z.shiftr (statusWord s) 11) 7.

Definition getStIndex (s : X87State) (stOffset : Z) : Z := Z.land (u32 (stOffset + topIndex s)) 7.

(** [(tagWord >> (regIdx * 2)) & 3] *)
Definition tag_at (s : X87State) (regIdx : Z) : Z := Z.land (Z.shiftr (tagWord s) (regIdx * 2)) 3.

Definition getSt (s : X87State) (stOffset : Z) : Z * X87State :=
  let regIdx := getStIndex s stOffset in
  if tag_at s regIdx =? kEmpty then (f_qnan, sw_or s (Z.lor kStackFault kInvalidOperation))
  else (zget (st s) regIdx, s).

Definition getStConst (s : X87State) (stOffset : Z) : Z * Z :=
  let regIdx := getStIndex s stOffset in
  let newStatusWord := u16 (Z.land (statusWord s) (Z.lnot kConditionCode1)) in
  if tag_at s regIdx =? kEmpty then
    (f_qnan, u16 (Z.lor (Z.lor newStatusWord kStackFault) kInvalidOperation))
  else (zget (st s) regIdx, newStatusWord).

Definition getStConst32 (s : X87State) (stOffset : Z) : Z * Z :=
  let regIdx := getStIndex s stOffset in
  let newStatusWord := u16 (Z.land (statusWord s) (Z.lnot kConditionCode1)) in
  if tag_at s regIdx =? kEmpty then
    (0x7FC00000, u16 (Z.lor (Z.lor newStatusWord kStackFault) kInvalidOperation))
  else (narrow (zget (st s) regIdx), newStatusWord).

Definition getStTag (s : X87State) (stOffset : Z) : Z := tag_at s (getStIndex s stOffset).

Definition push (s : X87State) : X87State :=
  let currentTop := topIndex s in
  let newTop := Z.land (currentTop - 1) 7 in
  let s := with_sw s (u16 (Z.lor (Z.land (statusWord s) (Z.lnot kTopOfStack)) (Z.shiftl newTop 11))) in
  with_tag s (s16 (Z.land (tagWord s) (Z.lnot (Z.shiftl 3 (newTop * 2))))).

Definition pop (s : X87State) : X87State :=
  let currentTop := topIndex s in
  let s := with_tag s (s16 (Z.lor (tagWord s) (Z.shiftl 3 (currentTop * 2)))) in
  let s := with_st s (zset (st s) currentTop f_zero) in
  with_sw s (u16 (Z.lor (Z.land (statusWord s) (Z.lnot kTopOfStack))
                        (Z.shiftl (Z.land (currentTop + 1) 7) 11))).

Definition setSt (s : X87State) (stOffset value : Z) : X87State :=
  let stIdx := getStIndex s stOffset in
  let s := with_st s (zset (st s) stIdx value) in
  let tag :=
    if feq f64 value f_zero then kZero
    else if x87_is_nan_or_inf value || x87_is_subnormal value then kSpecial
    else kValid in
  let s := with_tag s (s16 (Z.land (tagWord s) (Z.lnot (Z.shiftl 3 (stIdx * 2))))) in
  with_tag s (s16 (Z.lor (tagWord s) (Z.shiftl tag (stIdx * 2)))).

Definition setStFast (s : X87State) (stOffset value : Z) : X87State :=
  let idx := getStIndex s stOffset in
  let s := with_st s (zset (st s) idx value) in
  with_tag s (s16 (Z.land (u32 (tagWord s)) (unot 32 (u32 (Z.shiftl 3 (idx * 2)))))).

Definition getStFast (s : X87State) (stOffset : Z) : Z := zget (st s) (getStIndex s stOffset).

Definition swap_registers (s : X87State) (regOffset1 regOffset2 : Z) : X87State :=
  let regIdx1 := getStIndex s regOffset1 in
  let regIdx2 := getStIndex s regOffset2 in
  let temp := zget (st s) regIdx1 in
  let s := with_st s (zset (st s) regIdx1 (zget (st s) regIdx2)) in
  let s := with_st s (zset (st s) regIdx2 temp) in
  let tag1 := tag_at s regIdx1 in
  let tag2 := tag_at s regIdx2 in
  let s := with_tag s (s16 (Z.land (tagWord s)
             (Z.lnot (Z.lor (Z.shiftl 3 (regIdx1 * 2)) (Z.shiftl 3 (regIdx2 * 2)))))) in
  with_tag s (s16 (Z.lor (tagWord s) (Z.lor (Z.shiftl tag2 (regIdx1 * 2)) (Z.shiftl tag1 (regIdx2 * 2))))).

(** ConvertX87RegisterToFloat64: the value, and the flags it ORs into
    [*statusFlags] when the pointer is not null. *)
Record X87Float80 := mkF80 { mantissa : Z; exponent : Z }.

Definition ConvertX87RegisterToFloat64 (x87 : X87Float80) : Z * Z :=
  let mantissa := mantissa x87 in
  let biasedExp := Z.land (exponent x87) 0x7FFF in
  let sign := if nz (Z.land (exponent x87) 0x8000) then 0x8000000000000000 else 0 in
  if mantissa =? 0 then (sign, 0)
  else if biasedExp =? 0x7FFF then
    if negb (mantissa =? 0x8000000000000000) then (Z.lor sign 0x7FF8000000000000, kInvalidOperation)
    else (Z.lor sign 0x7FF0000000000000, 0)
  else
    let exp := biasedExp - 16383 + 1023 in
    if (exp <=? 0) && (exp <? -52) then (sign, kUnderflow)
    else
      let flags := if exp <=? 0 then kUnderflow else 0 in
      let mantissa := if exp <=? 0 then Z.shiftr mantissa (1 - exp) else mantissa in
      let exp := if exp <=? 0 then 0 else exp in
      if 2047 <=? exp then (Z.lor sign 0x7FF0000000000000, Z.lor flags kOverflow)
      else
        let significant := Z.land (Z.shiftr mantissa 11) 0xFFFFFFFFFFFFF in
        let roundBit := Z.land (Z.shiftr mantissa 10) 1 in
        let stickyBits := b2z (nz (Z.land mantissa (Z.shiftl 1 10 - 1))) in
        let flags := if nz roundBit || nz stickyBits then Z.lor flags kPrecision else flags in
        if nz roundBit && (nz stickyBits || nz (Z.land significant 1)) then
          let significant := significant + 1 in
          if significant =? 0x10000000000000 then
            let exp := exp + 1 in
            if 2047 <=? exp then (Z.lor sign 0x7FF0000000000000, Z.lor flags kOverflow)
            else (Z.lor (Z.lor sign (Z.shiftl exp 52)) 0, flags)
          else (Z.lor (Z.lor sign (Z.shiftl exp 52)) significant, flags)
        else (Z.lor (Z.lor sign (Z.shiftl exp 52)) significant, flags).
