(* ===== verification/X87Props.v ===== *)
(** The methods of X87State: what each does to TOP, to the tags and to the
    register file, the state invariant, and the calculus of effects the
    handlers are checked with. *)

From S2P Require Import Prelude F64 X87State.

Definition in64 (x : Z) : Prop := 0 <= x < 2 ^ 64.
Definition in32 (x : Z) : Prop := 0 <= x < 2 ^ 32.

(** ** The state invariant *)
Record wf (s : X87State) : Prop := mkWf {
  wf_cw : 0 <= controlWord s < 2 ^ 16;
  wf_sw : 0 <= statusWord s < 2 ^ 16;
  wf_tag : - 2 ^ 15 <= tagWord s < 2 ^ 15;
  wf_len : length (st s) = 8%nat;
  wf_st : Forall in64 (st s)
}.

Create HintDb x87.
#[export] Hint Resolve wf_cw wf_sw wf_tag wf_len wf_st : x87.

Lemma in64_0 : in64 0.
Proof. unfold in64. lia. Qed.

Lemma in64_zget s i : wf s -> in64 (zget (st s) i).
Proof. intros H. apply Forall_zget; [apply wf_st, H | apply in64_0]. Qed.

Lemma in64_getStFast s i : wf s -> in64 (getStFast s i).
Proof. apply in64_zget. Qed.

#[export] Hint Resolve in64_0 in64_zget in64_getStFast : x87.

(** ** TOP *)

Lemma topIndex_range s : 0 <= topIndex s < 8.
Proof. apply land7_range. Qed.

Lemma getStIndex_range s i : 0 <= getStIndex s i < 8.
Proof. apply land7_range. Qed.

Lemma mod8_u32 x : u32 x mod 8 = x mod 8.
Proof.
  unfold wrap. change (2 ^ 32) with (8 * 2 ^ 29).
  rewrite Z.rem_mul_r by lia. rewrite Z.mul_comm, Z_mod_plus_full. apply Z.mod_mod. lia.
Qed.

(** The physical register of ST(i). *)
Lemma getStIndex_mod s i : getStIndex s i = (topIndex s + i) mod 8.
Proof. unfold getStIndex. rewrite land7_mod, mod8_u32. f_equal. lia. Qed.

Lemma top_insert w t : 0 <= t < 8 ->
  Z.land (Z.shiftr (u16 (Z.lor (Z.land w (Z.lnot kTopOfStack)) (Z.shiftl t 11))) 11) 7 = t.
Proof.
  intros Ht. apply Z.bits_inj'. intros i Hi.
  rewrite Z.land_spec, testbit_7, Z.shiftr_spec, wrap_testbit, Z.lor_spec, Z.land_spec,
    Z.lnot_spec, Z.shiftl_spec by lia.
  destruct (Z.ltb_spec i 3).
  - replace (i + 11 <? 16) with true by (symmetry; apply Z.ltb_lt; lia).
    replace (i + 11 - 11) with i by lia.
    assert (Z.testbit kTopOfStack (i + 11) = true) as ->.
    { assert (i = 0 \/ i = 1 \/ i = 2) as [-> | [-> | ->]] by lia; reflexivity. }
    rewrite andb_false_r, andb_true_r. reflexivity.
  - rewrite andb_false_r. symmetry.
    rewrite <- (Z.mod_small t (2 ^ 3)) by (change (2 ^ 3) with 8; lia).
    apply Z.mod_pow2_bits_high. lia.
Qed.

(** A status-word update outside bits 13:11 keeps TOP. *)
Lemma top_keep w w' :
  (forall i, 11 <= i < 14 -> Z.testbit w' i = Z.testbit w i) ->
  Z.land (Z.shiftr w' 11) 7 = Z.land (Z.shiftr w 11) 7.
Proof.
  intros H. apply land_testbit_eq. intros i Hi Hb. rewrite testbit_7 in Hb by lia.
  apply Z.ltb_lt in Hb. rewrite !Z.shiftr_spec by lia. apply H. lia.
Qed.

Definition off_top (m : Z) : Prop := Z.land m kTopOfStack = 0.

Lemma off_top_bit m i : off_top m -> 11 <= i < 14 -> Z.testbit m i = false.
Proof.
  intros H Hi. assert (E : Z.testbit (Z.land m kTopOfStack) i = false) by (rewrite H; apply Z.bits_0).
  rewrite Z.land_spec in E. replace (Z.testbit kTopOfStack i) with true in E.
  - rewrite andb_true_r in E. exact E.
  - assert (i = 11 \/ i = 12 \/ i = 13) as [-> | [-> | ->]] by lia; reflexivity.
Qed.

Lemma top_sw_or s m : off_top m -> topIndex (sw_or s m) = topIndex s.
Proof.
  intros H. apply top_keep. intros i Hi. cbn [sw_or with_sw statusWord].
  rewrite wrap_testbit, Z.lor_spec, (off_top_bit m i H Hi), orb_false_r by lia.
  replace (i <? 16) with true by (symmetry; apply Z.ltb_lt; lia). reflexivity.
Qed.

Lemma top_sw_clear s m : off_top m -> topIndex (sw_clear s m) = topIndex s.
Proof.
  intros H. apply top_keep. intros i Hi. cbn [sw_clear with_sw statusWord].
  rewrite wrap_testbit, Z.land_spec, Z.lnot_spec, (off_top_bit m i H Hi), andb_true_r by lia.
  replace (i <? 16) with true by (symmetry; apply Z.ltb_lt; lia). reflexivity.
Qed.

Lemma top_push s : topIndex (push s) = (topIndex s - 1) mod 8.
Proof. rewrite <- land7_mod. apply top_insert, land7_range. Qed.

Lemma top_pop s : topIndex (pop s) = (topIndex s + 1) mod 8.
Proof. rewrite <- land7_mod. apply top_insert, land7_range. Qed.

(** ** Tags *)

Lemma testbit_shl3 k i : 0 <= k -> 0 <= i -> Z.testbit (Z.shiftl 3 k) i = (k <=? i) && (i <? k + 2).
Proof.
  intros Hk Hi. rewrite Z.shiftl_spec by lia. destruct (Z.leb_spec k i).
  - rewrite testbit_3 by lia. cbn. destruct (Z.ltb_spec (i - k) 2), (Z.ltb_spec i (k + 2)); lia.
  - apply Z.testbit_neg_r. lia.
Qed.

Lemma testbit_shl_small k t i : 0 <= k -> 0 <= t < 4 -> 0 <= i ->
  Z.testbit (Z.shiftl t k) i = (k <=? i) && (i <? k + 2) && Z.testbit t (i - k).
Proof.
  intros Hk Ht Hi. rewrite Z.shiftl_spec by lia. destruct (Z.leb_spec k i); cbn.
  - destruct (Z.ltb_spec i (k + 2)); [reflexivity|]. cbn.
    rewrite <- (Z.mod_small t (2 ^ 2)) by (change (2 ^ 2) with 4; lia).
    apply Z.mod_pow2_bits_high. lia.
  - apply Z.testbit_neg_r. lia.
Qed.

(** The tag word with the pair at [k] cleared, then set to [t]. *)
Definition tag_put (w k t : Z) : Z :=
  s16 (Z.lor (s16 (Z.land w (Z.lnot (Z.shiftl 3 k)))) (Z.shiftl t k)).

Lemma tag_put_testbit w k t i : 0 <= k -> 0 <= t < 4 -> 0 <= i < 16 ->
  Z.testbit (tag_put w k t) i =
    if (k <=? i) && (i <? k + 2) then Z.testbit t (i - k) else Z.testbit w i.
Proof.
  intros Hk Ht Hi. unfold tag_put.
  rewrite sgn_testbit, Z.lor_spec, sgn_testbit, Z.land_spec, Z.lnot_spec, testbit_shl3,
    testbit_shl_small by lia.
  destruct (k <=? i), (i <? k + 2), (Z.testbit w i), (Z.testbit t (i - k)); reflexivity.
Qed.

Lemma tag_put_eq w k t : 0 <= k <= 14 -> 0 <= t < 4 -> Z.land (Z.shiftr (tag_put w k t) k) 3 = t.
Proof.
  intros Hk Ht. replace t with (Z.land t 3) at 2.
  - apply land_testbit_eq. intros i Hi Hb. rewrite testbit_3 in Hb by lia. apply Z.ltb_lt in Hb.
    rewrite Z.shiftr_spec, tag_put_testbit by lia.
    replace (k <=? i + k) with true by (symmetry; apply Z.leb_le; lia).
    replace (i + k <? k + 2) with true by (symmetry; apply Z.ltb_lt; lia).
    cbn. f_equal. lia.
  - change 3 with (Z.ones 2). rewrite Z.land_ones by lia. apply Z.mod_small. exact Ht.
Qed.

Lemma tag_put_ne w i j t : 0 <= i < 8 -> 0 <= j < 8 -> i <> j -> 0 <= t < 4 ->
  Z.land (Z.shiftr (tag_put w (i * 2) t) (j * 2)) 3 = Z.land (Z.shiftr w (j * 2)) 3.
Proof.
  intros Hi Hj Hne Ht. apply land_testbit_eq. intros n Hn Hb. rewrite testbit_3 in Hb by lia.
  apply Z.ltb_lt in Hb. rewrite !Z.shiftr_spec, tag_put_testbit by lia.
  replace ((i * 2 <=? n + j * 2) && (n + j * 2 <? i * 2 + 2)) with false; [reflexivity|].
  symmetry. apply andb_false_iff. rewrite Z.leb_gt, Z.ltb_ge. lia.
Qed.

Lemma sgn_ext w x y : 0 < w ->
  (forall i, 0 <= i < w -> Z.testbit x i = Z.testbit y i) -> sgn w x = sgn w y.
Proof.
  intros Hw H. unfold sgn. replace (wrap w x) with (wrap w y); [reflexivity|].
  apply Z.bits_inj'. intros i Hi. rewrite !wrap_testbit by lia.
  destruct (Z.ltb_spec i w); [rewrite H by lia|]; reflexivity.
Qed.

Lemma sgn_sgn w x : 0 < w -> sgn w (sgn w x) = sgn w x.
Proof. intros. apply sgn_small; [lia | apply sgn_range; lia]. Qed.

Lemma tag_put_clear w k : 0 <= k -> s16 (Z.land w (Z.lnot (Z.shiftl 3 k))) = tag_put w k 0.
Proof.
  intros Hk. unfold tag_put. rewrite Z.shiftl_0_l, Z.lor_0_r, sgn_sgn by lia. reflexivity.
Qed.

Lemma tag_put_set w k : 0 <= k -> s16 (Z.lor w (Z.shiftl 3 k)) = tag_put w k 3.
Proof.
  intros Hk. apply sgn_ext; [lia|]. intros i Hi.
  rewrite !Z.lor_spec, sgn_testbit, Z.land_spec, Z.lnot_spec, testbit_shl3 by lia.
  destruct (k <=? i), (i <? k + 2), (Z.testbit w i); reflexivity.
Qed.

Lemma tag_put_clear_u32 w k : 0 <= k ->
  s16 (Z.land (u32 w) (unot 32 (u32 (Z.shiftl 3 k)))) = tag_put w k 0.
Proof.
  intros Hk. rewrite <- tag_put_clear by lia. apply sgn_ext; [lia|]. intros i Hi. unfold unot.
  rewrite !Z.land_spec, Z.lxor_spec, !wrap_testbit, Z.lnot_spec, Z.ones_spec_low by lia.
  replace (i <? 32) with true by (symmetry; apply Z.ltb_lt; lia). cbn.
  rewrite xorb_true_r. reflexivity.
Qed.

Definition value_tag (value : Z) : Z :=
  if feq f64 value f_zero then kZero
  else if x87_is_nan_or_inf value || x87_is_subnormal value then kSpecial
  else kValid.

Lemma value_tag_range v : 0 <= value_tag v < 4.
Proof.
  unfold value_tag, kZero, kSpecial, kValid.
  destruct (feq f64 v f_zero), (x87_is_nan_or_inf v || x87_is_subnormal v); lia.
Qed.

(** The methods as updates of one register and one tag. *)
Definition put (s : X87State) (r v t : Z) : X87State :=
  mkX87 (controlWord s) (statusWord s) (tag_put (tagWord s) (r * 2) t) (zset (st s) r v).

Lemma setSt_put s i v : setSt s i v = put s (getStIndex s i) v (value_tag v).
Proof. reflexivity. Qed.

Lemma setStFast_put s i v : setStFast s i v = put s (getStIndex s i) v kValid.
Proof.
  pose proof (getStIndex_range s i). unfold setStFast, put, with_st, with_tag. cbn.
  rewrite tag_put_clear_u32 by lia. reflexivity.
Qed.

Lemma list_set_nth {A} (l : list A) n d : (n < length l)%nat -> list_set l n (nth n l d) = l.
Proof.
  revert n. induction l; intros [|n] H; cbn in *; try lia; [reflexivity|].
  f_equal. apply IHl. lia.
Qed.

(** ** Effects

    [effect s t d W]: [t] keeps the invariant and the control word, its TOP
    is [d] above that of [s] modulo 8, and every register outside
    ST-relative offsets [W] (counted from the TOP of [s]) keeps its value
    and its tag. *)
Definition phys (s : X87State) (i : Z) : Z := (topIndex s + i) mod 8.

Record effect (s t : X87State) (d : Z) (W : list Z) : Prop := mkEffect {
  eff_wf : wf t;
  eff_cw : controlWord t = controlWord s;
  eff_top : topIndex t = (topIndex s + d) mod 8;
  eff_frame : forall r, 0 <= r < 8 -> ~ In r (map (phys s) W) ->
    zget (st t) r = zget (st s) r /\ tag_at t r = tag_at s r
}.

Lemma effect_refl s : wf s -> effect s s 0 [].
Proof.
  intros H. constructor; auto. rewrite Z.add_0_r. symmetry.
  apply Z.mod_small, topIndex_range.
Qed.

Lemma effect_weaken s t d W d' W' : effect s t d W -> d = d' -> incl W W' -> effect s t d' W'.
Proof.
  intros [H1 H2 H3 H4] <- Hi. constructor; auto.
  intros r Hr Hn. apply H4; [exact Hr|]. intros Hin. apply Hn.
  apply in_map_iff in Hin as (x & <- & Hx). apply in_map, Hi, Hx.
Qed.

Lemma wf_with_sw s w : wf s -> 0 <= w < 2 ^ 16 -> wf (with_sw s w).
Proof. intros [H1 H2 H3 H4 H5] Hw. constructor; cbn; assumption. Qed.

Lemma effect_sw s t d W w : effect s t d W -> 0 <= w < 2 ^ 16 ->
  Z.land (Z.shiftr w 11) 7 = topIndex t -> effect s (with_sw t w) d W.
Proof.
  intros [H1 H2 H3 H4] Hw Ht. constructor; [apply wf_with_sw; assumption | exact H2 | | exact H4].
  change (topIndex (with_sw t w)) with (Z.land (Z.shiftr w 11) 7). rewrite Ht. exact H3.
Qed.

Lemma effect_sw_or s t d W m : effect s t d W -> off_top m -> effect s (sw_or t m) d W.
Proof.
  intros H Hm. apply effect_sw; [exact H | apply (wrap_range 16); lia | apply (top_sw_or t m Hm)].
Qed.

Lemma effect_sw_clear s t d W m : effect s t d W -> off_top m -> effect s (sw_clear t m) d W.
Proof.
  intros H Hm. apply effect_sw; [exact H | apply (wrap_range 16); lia | apply (top_sw_clear t m Hm)].
Qed.

Lemma tag_put_range w k t : - 2 ^ 15 <= tag_put w k t < 2 ^ 15.
Proof. apply (sgn_range 16). lia. Qed.

Lemma wf_put s r v t : wf s -> in64 v -> wf (put s r v t).
Proof.
  intros [H1 H2 H3 H4 H5] Hv. constructor; cbn.
  - exact H1.
  - exact H2.
  - apply tag_put_range.
  - rewrite zset_length. exact H4.
  - apply Forall_list_set; assumption.
Qed.

Lemma phys_shift s t d W i : effect s t d W -> getStIndex t i = phys s (d + i).
Proof.
  intros H. rewrite getStIndex_mod, (eff_top _ _ _ _ H). unfold phys.
  rewrite Zplus_mod_idemp_l. f_equal. lia.
Qed.

Lemma effect_put s t d W r v g :
  effect s t d W -> in64 v -> 0 <= g < 4 -> effect s (put t (phys s r) v g) d (r :: W).
Proof.
  intros [H1 H2 H3 H4] Hv Hg. constructor; auto.
  - apply wf_put; assumption.
  - intros q Hq Hn. cbn [map In] in Hn. apply Decidable.not_or in Hn as [Hne Hn].
    specialize (H4 q Hq Hn). pose proof (Z.mod_pos_bound (topIndex s + r) 8 ltac:(lia)).
    unfold phys in *. split.
    + cbn [put st]. rewrite zget_zset_ne by lia. apply H4.
    + unfold tag_at. cbn [put tagWord]. rewrite tag_put_ne by lia. apply H4.
Qed.

Lemma effect_setSt s t d W i v :
  effect s t d W -> in64 v -> effect s (setSt t i v) d ((d + i) :: W).
Proof.
  intros H Hv. rewrite setSt_put, (phys_shift s t d W i H).
  apply effect_put; [exact H | exact Hv | apply value_tag_range].
Qed.

Lemma effect_setStFast s t d W i v :
  effect s t d W -> in64 v -> effect s (setStFast t i v) d ((d + i) :: W).
Proof.
  intros H Hv. rewrite setStFast_put, (phys_shift s t d W i H).
  apply effect_put; [exact H | exact Hv | unfold kValid; lia].
Qed.

Lemma push_eq t : length (st t) = 8%nat ->
  push t = with_sw (put t ((topIndex t - 1) mod 8) (zget (st t) ((topIndex t - 1) mod 8)) kValid)
    (u16 (Z.lor (Z.land (statusWord t) (Z.lnot kTopOfStack))
                (Z.shiftl ((topIndex t - 1) mod 8) 11))).
Proof.
  intros Hl. unfold push. rewrite land7_mod.
  pose proof (Z.mod_pos_bound (topIndex t - 1) 8 ltac:(lia)).
  unfold with_sw, with_tag, put. cbn. rewrite tag_put_clear by lia. f_equal.
  unfold zset, zget. rewrite list_set_nth by lia. reflexivity.
Qed.

Lemma pop_eq t :
  pop t = with_sw (put t (topIndex t) f_zero kEmpty)
    (u16 (Z.lor (Z.land (statusWord t) (Z.lnot kTopOfStack))
                (Z.shiftl ((topIndex t + 1) mod 8) 11))).
Proof.
  unfold pop. rewrite land7_mod. unfold with_sw, with_tag, with_st, put. cbn.
  pose proof (topIndex_range t). rewrite tag_put_set by lia. reflexivity.
Qed.

(** Writing TOP itself. *)
Lemma effect_set_top s t d W d' w :
  effect s t d W -> 0 <= w < 2 ^ 16 ->
  Z.land (Z.shiftr w 11) 7 = (topIndex t + d') mod 8 -> effect s (with_sw t w) (d + d') W.
Proof.
  intros [H1 H2 H3 H4] Hw Ht. constructor; [apply wf_with_sw; assumption | exact H2 | | exact H4].
  change (topIndex (with_sw t w)) with (Z.land (Z.shiftr w 11) 7).
  rewrite Ht, H3, Zplus_mod_idemp_l. f_equal. lia.
Qed.

Lemma effect_push s t d W : effect s t d W -> effect s (push t) (d - 1) ((d - 1) :: W).
Proof.
  intros H. pose proof (eff_wf _ _ _ _ H) as Hw. rewrite push_eq by apply Hw.
  assert (E : (topIndex t - 1) mod 8 = phys s (d - 1)).
  { rewrite (eff_top _ _ _ _ H). unfold phys. rewrite Zminus_mod_idemp_l. f_equal. lia. }
  rewrite E. apply (effect_set_top s _ d _ (-1)).
  - apply effect_put; [exact H | apply in64_zget, Hw | unfold kValid; lia].
  - apply (wrap_range 16). lia.
  - rewrite top_insert by (apply Z.mod_pos_bound; lia). rewrite <- E. reflexivity.
Qed.

Lemma effect_pop s t d W : effect s t d W -> effect s (pop t) (d + 1) (d :: W).
Proof.
  intros H. rewrite pop_eq.
  assert (E : topIndex t = phys s d) by apply (eff_top _ _ _ _ H).
  apply effect_set_top.
  - rewrite E. apply effect_put; [exact H | apply in64_0 | unfold kEmpty; lia].
  - apply (wrap_range 16). lia.
  - apply top_insert. apply Z.mod_pos_bound. lia.
Qed.

(** Reading a register: the state may pick up the stack-fault flags. *)
Lemma getSt_cases s i :
  getSt s i = (getStFast s i, s) \/
  getSt s i = (f_qnan, sw_or s (Z.lor kStackFault kInvalidOperation)).
Proof. unfold getSt. destruct (tag_at _ _ =? _); auto. Qed.

Lemma in64_qnan : in64 f_qnan.
Proof. unfold in64, f_qnan. lia. Qed.

Lemma getSt_effect s t d W i v t' :
  getSt t i = (v, t') -> effect s t d W -> in64 v /\ effect s t' d W.
Proof.
  intros E H. destruct (getSt_cases t i) as [E'|E']; rewrite E' in E; injection E as <- <-.
  - split; [apply in64_getStFast, (eff_wf _ _ _ _ H) | exact H].
  - split; [apply in64_qnan | apply effect_sw_or; [exact H | reflexivity]].
Qed.

(** The initial state is well formed. *)
Lemma wf_init : wf X87State_init.
Proof.
  constructor; cbn [X87State_init controlWord statusWord tagWord st]; [lia | lia | | reflexivity |].
  - apply (sgn_range 16). lia.
  - unfold f_zero, in64. repeat constructor; lia.
Qed.
