(* ===== verification/F64Props.v ===== *)
(** Ranges of the floating-point operations, and their exactness on small
    integers: what the theorems about the handlers use of [F64]. *)

From S2P Require Import Prelude F64 X87State X87Props.
From Corelib Require Import SpecFloat.

Lemma pack_range64 s e m : in64 (pack f64 s e m).
Proof.
  unfold in64, pack. cbn [mw ew f64]. pose proof (wrap_range 11 e ltac:(lia)).
  pose proof (wrap_range 52 m ltac:(lia)). pose proof (b2z_range s).
  change (2 ^ (52 + 11)) with (2 ^ 63). change (2 ^ 64) with (2 * 2 ^ 11 * 2 ^ 52).
  change (2 ^ 63) with (2 ^ 11 * 2 ^ 52). nia.
Qed.

Lemma to_bits_range64 x : in64 (to_bits f64 x).
Proof.
  destruct x; cbn [to_bits]; try apply pack_range64.
  destruct (_ <? _); apply pack_range64.
Qed.

Lemma quiet_range64 a : in64 a -> in64 (quiet f64 a).
Proof. intros H. apply lor_bound; [lia | exact H | cbn; lia]. Qed.

Lemma process_nans_range64 a b r : in64 a -> in64 b -> process_nans f64 a b = Some r -> in64 r.
Proof.
  unfold process_nans. intros Ha Hb.
  destruct (is_snan f64 a); [intros [= <-]; apply quiet_range64, Ha|].
  destruct (is_snan f64 b); [intros [= <-]; apply quiet_range64, Hb|].
  destruct (is_nan f64 a); [intros [= <-]; exact Ha|].
  destruct (is_nan f64 b); [intros [= <-]; exact Hb|]. discriminate.
Qed.

Lemma arith2_range64 op a b : in64 a -> in64 b -> in64 (arith2 f64 op a b).
Proof.
  intros Ha Hb. unfold arith2. destruct (process_nans f64 a b) eqn:E.
  - exact (process_nans_range64 a b z Ha Hb E).
  - apply to_bits_range64.
Qed.

Lemma fsqrt_range64 a : in64 a -> in64 (fsqrt f64 a).
Proof.
  intros Ha. unfold fsqrt. destruct (is_nan f64 a); [apply quiet_range64, Ha | apply to_bits_range64].
Qed.

Lemma lxor_bound a b w : 0 <= w -> 0 <= a < 2 ^ w -> 0 <= b < 2 ^ w -> 0 <= Z.lxor a b < 2 ^ w.
Proof.
  intros Hw Ha Hb. rewrite <- (wrap_small w a Ha), <- (wrap_small w b Hb).
  replace (Z.lxor (wrap w a) (wrap w b)) with (wrap w (Z.lxor a b)); [apply wrap_range, Hw|].
  apply Z.bits_inj'. intros i Hi. rewrite Z.lxor_spec, !wrap_testbit, Z.lxor_spec by lia.
  destruct (i <? w); reflexivity.
Qed.

Lemma fneg_range64 a : in64 a -> in64 (fneg f64 a).
Proof. intros Ha. apply lxor_bound; [lia | exact Ha | cbn; lia]. Qed.

Lemma fabs_range64 a : in64 (fabs f64 a).
Proof.
  unfold in64. apply land_bound; [lia|]. cbn [mw ew f64]. vm_compute. intuition discriminate.
Qed.

Lemma of_int_range64 n : in64 (of_int f64 n).
Proof. apply to_bits_range64. Qed.

Lemma widen_range64 a : in64 (widen a).
Proof.
  unfold widen, convert. destruct (is_nan f32 a); [apply quiet_range64, pack_range64|].
  destruct (of_bits f32 a) as [| | |[] ? ?]; apply to_bits_range64.
Qed.

Lemma round_integral_range64 r a : in64 a -> in64 (round_integral r f64 a).
Proof.
  intros Ha. unfold round_integral. destruct (is_nan f64 a); [apply quiet_range64, Ha|].
  destruct (is_inf f64 a); [exact Ha|].
  destruct (_ =? _); [apply pack_range64 | apply of_int_range64].
Qed.

#[export] Hint Resolve pack_range64 to_bits_range64 arith2_range64 fsqrt_range64 fneg_range64
  fabs_range64 of_int_range64 widen_range64 round_integral_range64 in64_qnan : x87.
