(* ===== verification/X87Runtime.v ===== *)
(** rosetta_runtime/src/X87.cpp: the runtime's x87 instruction handlers, each
    a function from the state it is given to the state it leaves (and its
    result).  The register guards (SIMDGuard...), which save and restore host
    SIMD registers around a handler, and the LOG calls do not touch the x87
    state and are left out.  The transcendental functions are the vendored
    openlibm, a parameter [LibM]. *)

From S2P Require Import Prelude F64 X87State.

(** The openlibm functions the handlers call, on bit patterns; ilogb and
    remquo's quotient are ints. *)
Class LibM := {
  openlibm_exp2 : Z -> Z;
  openlibm_log2 : Z -> Z;
  openlibm_pow : Z -> Z -> Z;
  openlibm_sin : Z -> Z;
  openlibm_cos : Z -> Z;
  openlibm_tan : Z -> Z;
  openlibm_atan2 : Z -> Z -> Z;
  openlibm_fmod : Z -> Z -> Z;
  openlibm_remquo : Z -> Z -> Z * Z;
  openlibm_ilogb : Z -> Z;
  openlibm_scalbn : Z -> Z -> Z
}.

Definition kCC0123 := Z.lor (Z.lor (Z.lor kConditionCode0 kConditionCode1) kConditionCode2) kConditionCode3.
Definition kCC023 := Z.lor (Z.lor kConditionCode0 kConditionCode2) kConditionCode3.

Definition signbit (b : Z) : bool := sign_of f64 b.
Definition fgt (a b : Z) : bool := flt f64 b a.

Definition x87_init (s : X87State) : X87State := X87State_init.

Definition x87_set_init_state (s : X87State) : X87State :=
  mkX87 0x037F 0x0000 (s16 0xFFFF)
    (zset (zset (zset (zset (zset (zset (zset (zset (st s) 0 f_zero) 1 f_zero) 2 f_zero) 3 f_zero)
       4 f_zero) 5 f_zero) 6 f_zero) 7 f_zero).

Definition x87_pop_register_stack (s : X87State) : X87State := pop s.

Definition x87_fabs (s : X87State) : X87State :=
  let s := sw_clear s kConditionCode1 in
  setStFast s 0 (fabs f64 (getStFast s 0)).

Definition x87_fchs (s : X87State) : X87State :=
  let s := sw_clear s kConditionCode1 in
  setStFast s 0 (fneg f64 (getStFast s 0)).

(** ** Arithmetic on registers *)

Definition x87_fadd_ST (s : X87State) (st_offset_1 st_offset_2 : Z) (pop_stack : bool) : X87State :=
  let s := sw_clear s kConditionCode1 in
  let val1 := getStFast s st_offset_1 in
  let val2 := getStFast s st_offset_2 in
  let s := setStFast s st_offset_1 (fadd f64 val1 val2) in
  if pop_stack then pop s else s.

Definition x87_fmul_ST (s : X87State) (st_offset_1 st_offset_2 : Z) (pop_stack : bool) : X87State :=
  let s := sw_clear s kConditionCode1 in
  let val1 := getStFast s st_offset_1 in
  let val2 := getStFast s st_offset_2 in
  let s := setStFast s st_offset_1 (fmul f64 val1 val2) in
  if pop_stack then pop s else s.

Definition x87_fsub_ST (s : X87State) (st_offset1 st_offset2 : Z) (pop_stack : bool) : X87State :=
  let s := sw_clear s kConditionCode1 in
  let val1 := getStFast s st_offset1 in
  let val2 := getStFast s st_offset2 in
  let s := setStFast s st_offset1 (fsub f64 val1 val2) in
  if pop_stack then pop s else s.

Definition x87_fsubr_ST (s : X87State) (st_offset1 st_offset2 : Z) (pop_stack : bool) : X87State :=
  let s := sw_clear s kConditionCode1 in
  let val1 := getStFast s st_offset1 in
  let val2 := getStFast s st_offset2 in
  let s := setStFast s st_offset1 (fsub f64 val2 val1) in
  if pop_stack then pop s else s.

Definition x87_fdiv_ST (s : X87State) (st_offset_1 st_offset_2 : Z) (pop_stack : bool) : X87State :=
  let s := sw_clear s kConditionCode1 in
  let val1 := getStFast s st_offset_1 in
  let val2 := getStFast s st_offset_2 in
  let s := setStFast s st_offset_1 (fdiv f64 val1 val2) in
  if pop_stack then pop s else s.

Definition x87_fdivr_ST (s : X87State) (st_offset_1 st_offset_2 : Z) (pop_stack : bool) : X87State :=
  let s := sw_clear s kConditionCode1 in
  let val1 := getStFast s st_offset_1 in
  let val2 := getStFast s st_offset_2 in
  let s := setStFast s st_offset_1 (fdiv f64 val2 val1) in
  if pop_stack then pop s else s.

(** ** Arithmetic with a memory operand *)

Definition x87_fadd_f32 (s : X87State) (fp32 : Z) : X87State :=
  let s := sw_clear s kConditionCode1 in
  let st0 := getStFast s 0 in
  setStFast s 0 (fadd f64 st0 (widen fp32)).

Definition x87_fadd_f64 (s : X87State) (val : Z) : X87State :=
  let s := sw_clear s kConditionCode1 in
  let st0 := getStFast s 0 in
  setStFast s 0 (fadd f64 st0 val).

Definition x87_fmul_f32 (s : X87State) (fp32 : Z) : X87State :=
  let s := sw_clear s kConditionCode1 in
  let st0 := getStFast s 0 in
  setStFast s 0 (fmul f64 st0 (widen fp32)).

Definition x87_fmul_f64 (s : X87State) (val : Z) : X87State :=
  let s := sw_clear s kConditionCode1 in
  let st0 := getStFast s 0 in
  setStFast s 0 (fmul f64 st0 val).

Definition x87_fsub_f32 (s : X87State) (val : Z) : X87State :=
  let s := sw_clear s kConditionCode1 in
  let st0 := getStFast s 0 in
  setStFast s 0 (fsub f64 st0 (widen val)).

Definition x87_fsub_f64 (s : X87State) (val : Z) : X87State :=
  let s := sw_clear s kConditionCode1 in
  let st0 := getStFast s 0 in
  setStFast s 0 (fsub f64 st0 val).

Definition x87_fsubr_f32 (s : X87State) (val : Z) : X87State :=
  let s := sw_clear s kConditionCode1 in
  let st0 := getStFast s 0 in
  setStFast s 0 (fsub f64 (widen val) st0).

Definition x87_fsubr_f64 (s : X87State) (val : Z) : X87State :=
  let s := sw_clear s kConditionCode1 in
  let st0 := getStFast s 0 in
  setStFast s 0 (fsub f64 val st0).

Definition x87_fdiv_f32 (s : X87State) (val : Z) : X87State :=
  let s := sw_clear s kConditionCode1 in
  let st0 := getStFast s 0 in
  setStFast s 0 (fdiv f64 st0 (widen val)).

Definition x87_fdiv_f64 (s : X87State) (val : Z) : X87State :=
  let s := sw_clear s kConditionCode1 in
  let st0 := getStFast s 0 in
  setStFast s 0 (fdiv f64 st0 val).

Definition x87_fdivr_f32 (s : X87State) (val : Z) : X87State :=
  let s := sw_clear s kConditionCode1 in
  let st0 := getStFast s 0 in
  setStFast s 0 (fdiv f64 (widen val) st0).

Definition x87_fdivr_f64 (s : X87State) (val : Z) : X87State :=
  let s := sw_clear s kConditionCode1 in
  let st0 := getStFast s 0 in
  setStFast s 0 (fdiv f64 val st0).

(** ** Arithmetic with an integer operand *)

Definition x87_fiadd (s : X87State) (m32int : Z) : X87State :=
  let s := sw_clear s kConditionCode1 in
  let '(st0, s) := getSt s 0 in
  setSt s 0 (fadd f64 st0 (of_int f64 m32int)).

Definition x87_fimul (s : X87State) (val : Z) : X87State :=
  let s := sw_clear s kConditionCode1 in
  let '(value, s) := getSt s 0 in
  setSt s 0 (fmul f64 value (of_int f64 val)).

Definition x87_fisub (s : X87State) (val : Z) : X87State :=
  let s := sw_clear s kConditionCode1 in
  let '(value, s) := getSt s 0 in
  setSt s 0 (fsub f64 value (of_int f64 val)).

Definition x87_fisubr (s : X87State) (val : Z) : X87State :=
  let s := sw_clear s kConditionCode1 in
  let '(value, s) := getSt s 0 in
  setSt s 0 (fsub f64 (of_int f64 val) value).

Definition x87_fidiv (s : X87State) (val : Z) : X87State :=
  let s := sw_clear s kConditionCode1 in
  let '(value, s) := getSt s 0 in
  setSt s 0 (fdiv f64 value (of_int f64 val)).

Definition x87_fidivr (s : X87State) (val : Z) : X87State :=
  let s := sw_clear s kConditionCode1 in
  let '(value, s) := getSt s 0 in
  setSt s 0 (fdiv f64 (of_int f64 val) value).

(** ** Loads *)

Definition x87_fild (s : X87State) (value : Z) : X87State :=
  let s := push s in setSt s 0 (of_int f64 value).

Definition x87_fld_STi (s : X87State) (st_offset : Z) : X87State :=
  let s := sw_clear s 0x200 in
  let '(value, s) := getSt s st_offset in
  let s := push s in
  setSt s 0 value.

(** enum X87Constant *)
Definition x87_fld_constant (s : X87State) (val : Z) : X87State :=
  let load v := setSt (push s) 0 v in
  if val =? 0 then load f_one
  else if val =? 1 then load f_zero
  else if val =? 2 then load 0x400921FB54442D18
  else if val =? 3 then load 0x3FF71547652B82FE
  else if val =? 4 then load 0x3FE62E42FEFA39EF
  else if val =? 5 then load 0x400A934F0979A371
  else if val =? 6 then load 0x3FD34413509F79FF
  else s.

Definition x87_fld_fp32 (s : X87State) (val : Z) : X87State :=
  let s := push s in setSt s 0 (widen val).

Definition x87_fld_fp64 (s : X87State) (val : Z) : X87State :=
  let s := push s in setSt s 0 val.

Definition x87_fld_fp80 (s : X87State) (val : X87Float80) : X87State :=
  let '(ieee754, flags) := ConvertX87RegisterToFloat64 val in
  let s := sw_or s flags in
  let s := push s in
  setSt s 0 ieee754.

(** ** Packed BCD *)

Fixpoint BCD2Double_loop (bcd : list Z) (tmp mult : Z) : Z * Z :=
  match bcd with
  | [] => (tmp, mult)
  | piece :: rest =>
      let tmp := u64 (tmp + u64 (mult * Z.land piece 0x0F)) in
      let mult := u64 (mult * 10) in
      let tmp := u64 (tmp + u64 (mult * Z.land (Z.shiftr piece 4) 0x0F)) in
      let mult := u64 (mult * 10) in
      BCD2Double_loop rest tmp mult
  end.

Definition BCD2Double (bcd : list Z) : Z :=
  let '(tmp, mult) := BCD2Double_loop (firstn 9 bcd) 0 1 in
  let piece := zget bcd 9 in
  let tmp := u64 (tmp + u64 (mult * Z.land piece 0x0F)) in
  let value := of_int f64 tmp in
  if nz (Z.land piece 0x80) then fneg f64 value else value.

Definition x87_fbld (s : X87State) (val1 val2 : Z) : X87State :=
  let s := sw_clear s kConditionCode1 in
  let bcd := le_bytes 8 val1 ++ le_bytes 2 val2 in
  let value := BCD2Double bcd in
  let s := push s in
  setSt s 0 value.

(** The nine bytes of two digits, least significant first, and what is left. *)
Fixpoint bcd_loop (n : nat) (integer_part : Z) : list Z * Z :=
  match n with
  | O => ([], integer_part)
  | S n' =>
      let digit1 := u8 (integer_part mod 10) in
      let integer_part := integer_part / 10 in
      let digit2 := u8 (integer_part mod 10) in
      let integer_part := integer_part / 10 in
      let '(rest, remaining) := bcd_loop n' integer_part in
      (u8 (Z.lor digit1 (Z.shiftl digit2 4)) :: rest, remaining)
  end.

(** The ten BCD bytes x87_fbstp stores for [st0]. *)
Definition fbstp_bytes (st0 : Z) : list Z :=
  let is_negative := signbit st0 in
  let sgn_bit := if is_negative then 0x80 else 0 in
  if x87_is_nan_or_inf st0 then repeat 0 9 ++ [sgn_bit]
  else
    let abs_value := round_integral RZero f64 (fabs f64 st0) in
    (* the literal 999999999999999999.0 is the double 1e18 *)
    if fgt abs_value 0x43ABC16D674EC800 then repeat 0x99 9 ++ [Z.lor 0x09 sgn_bit]
    else
      let integer_part := u64 (cast_int f64 abs_value) in
      let '(digits, remaining) := bcd_loop 9 integer_part in
      digits ++ [Z.lor (u8 (remaining mod 10)) sgn_bit].

(** The two halves of the uint128_t result. *)
Definition x87_fbstp (s : X87State) : (Z * Z) * X87State :=
  let '(st0, s) := getSt s 0 in
  let s := pop s in
  let bcd := fbstp_bytes st0 ++ repeat 0 6 in
  ((le_value (firstn 8 bcd), le_value (skipn 8 bcd)), s).

(** ** Moves *)

Definition x87_fcmov (s : X87State) (condition st_offset : Z) : X87State :=
  let s := sw_clear s kConditionCode1 in
  let stTagWord := getStTag s st_offset in
  if negb (stTagWord =? kEmpty) then
    if condition =? 0 then s
    else let '(value, s) := getSt s st_offset in setSt s 0 value
  else
    let s := sw_or s 0x41 in
    setSt s 0 f_zero.

Definition x87_fst_STi (s : X87State) (st_offset : Z) (pop_ : bool) : X87State :=
  let s := sw_clear s kConditionCode1 in
  let '(value, s) := getSt s 0 in
  let s := setSt s st_offset value in
  if pop_ then pop s else s.

Definition x87_fxch (s : X87State) (st_offset : Z) : X87State :=
  let s := sw_clear s kConditionCode1 in
  let '(st0, s) := getSt s 0 in
  let '(sti, s) := getSt s st_offset in
  let s := setSt s 0 sti in
  setSt s st_offset st0.

(** ** Comparisons *)

Definition pop_n (s : X87State) (n : Z) : X87State := Nat.iter (Z.to_nat n) pop s.

(** The shared body of fcom with the codes it clears first: the order test,
    then, when the invalid-operation exception is masked, the NaN override. *)
Definition fcom_codes (s : X87State) (clear st0 src : Z) : X87State :=
  let s := sw_clear s clear in
  let s :=
    if fgt st0 src then s
    else if flt f64 st0 src then sw_or s kConditionCode0
    else sw_or s kConditionCode3 in
  if Z.land (controlWord s) kInvalidOpMask =? kInvalidOpMask then
    if x87_is_nan st0 || x87_is_nan src then sw_or s kCC023 else s
  else s.

Definition x87_fcom_ST (s : X87State) (st_offset number_of_pops : Z) : X87State :=
  let '(st0, s) := getSt s 0 in
  let '(src, s) := getSt s st_offset in
  pop_n (fcom_codes s kCC023 st0 src) number_of_pops.

Definition x87_fcom_f32 (s : X87State) (fp32 : Z) (pop_ : bool) : X87State :=
  let '(st0, s) := getSt s 0 in
  let src := widen fp32 in
  let s := fcom_codes s kCC0123 st0 src in
  if pop_ then pop s else s.

Definition x87_fcom_f64 (s : X87State) (src : Z) (pop_ : bool) : X87State :=
  let '(st0, s) := getSt s 0 in
  let s := fcom_codes s kCC023 st0 src in
  if pop_ then pop s else s.

Definition fcomi_flags (st0_val sti_val : Z) : Z :=
  if x87_is_nan st0_val || x87_is_nan sti_val then 0x54000000
  else if flt f64 st0_val sti_val then 0x00000000
  else if fgt st0_val sti_val then 0x20000000
  else 0x60000000.

Definition x87_fcomi (s : X87State) (st_offset : Z) (pop_ : bool) : Z * X87State :=
  let s := sw_clear s kConditionCode0 in
  let '(st0_val, s) := getSt s 0 in
  let '(sti_val, s) := getSt s st_offset in
  (fcomi_flags st0_val sti_val, if pop_ then pop s else s).

Definition x87_fucomi (s : X87State) (st_offset : Z) (pop_stack : bool) : Z * X87State :=
  let s := sw_clear s kConditionCode1 in
  let '(st0_val, s) := getSt s 0 in
  let '(sti_val, s) := getSt s st_offset in
  (fcomi_flags st0_val sti_val, if pop_stack then pop s else s).

Definition unordered_codes (s : X87State) (st0 src : Z) (nan : bool) : X87State :=
  let s := sw_clear s kCC023 in
  if nan then sw_or s kCC023
  else if fgt st0 src then s
  else if flt f64 st0 src then sw_or s kConditionCode0
  else sw_or s kConditionCode3.

Definition x87_ficom (s : X87State) (src : Z) (pop_ : bool) : X87State :=
  let '(st0, s) := getSt s 0 in
  let s := unordered_codes s st0 (of_int f64 src) (x87_is_nan st0) in
  if pop_ then pop s else s.

Definition x87_fucom (s : X87State) (st_offset pop_ : Z) : X87State :=
  let '(st0, s) := getSt s 0 in
  let '(src, s) := getSt s st_offset in
  pop_n (unordered_codes s st0 src (x87_is_nan st0 || x87_is_nan src)) pop_.

Definition x87_fxam (s : X87State) : X87State :=
  let tag := getStTag s 0 in
  let s := sw_clear s kCC0123 in
  if tag =? kEmpty then sw_or s (Z.lor kConditionCode3 kConditionCode0)
  else if tag =? kZero then
    let s := sw_or s kConditionCode3 in
    let '(value, s) := getSt s 0 in
    if signbit value then sw_or s kConditionCode1 else s
  else
    let '(value, s) := getSt s 0 in
    let s := if signbit value then sw_or s kConditionCode1 else s in
    if feq f64 value f_zero then sw_or s kConditionCode3
    else if x87_is_nan value then sw_or s kConditionCode0
    else if x87_is_inf value then sw_or s (Z.lor kConditionCode2 kConditionCode0)
    else if x87_is_subnormal value then sw_or s (Z.lor kConditionCode3 kConditionCode2)
    else sw_or s kConditionCode2.

(** ** TOP *)

Definition x87_fdecstp (s : X87State) : X87State :=
  let current_top := Z.shiftr (Z.land (statusWord s) kTopOfStack) 11 in
  let new_top := u16 (Z.land (current_top - 1) 7) in
  let s := sw_clear s kConditionCode1 in
  with_sw s (u16 (Z.lor (Z.land (statusWord s) (Z.lnot kTopOfStack)) (Z.shiftl new_top 11))).

Definition x87_fincstp (s : X87State) : X87State :=
  let s := sw_clear s kConditionCode1 in
  let top := u16 (Z.shiftr (Z.land (statusWord s) kTopOfStack) 11) in
  let top := u16 (Z.land (top + 1) 0x7) in
  let s := sw_clear s kTopOfStack in
  sw_or s (Z.shiftl top 11).

(** ** Rounding and integer stores *)

Definition rc_mode (controlWord : Z) : rmode :=
  let rc := Z.land controlWord kRoundingControlMask in
  if rc =? kRoundDown then RDown
  else if rc =? kRoundUp then RUp
  else if rc =? kRoundToZero then RZero
  else RNE.

Definition x87_round_by_rc (value controlWord : Z) : Z :=
  round_integral (rc_mode controlWord) f64 value.

Record X87ResultStatusWord := mkResult { signedResult : Z; resultStatusWord : Z }.

(** [!(rounded >= lo && rounded <= hi)] -> the indefinite integer and C1. *)
Definition x87_fist_i16 (s : X87State) : X87ResultStatusWord :=
  let '(value, statusWord) := getStConst s 0 in
  let rounded := x87_round_by_rc value (controlWord s) in
  if negb (fle f64 0xC0E0000000000000 rounded && fle f64 rounded 0x40DFFFC000000000) then
    mkResult (-32768) (u16 (Z.lor statusWord kConditionCode1))
  else mkResult (s16 (cast_int f64 rounded)) statusWord.

Definition x87_fist_i32 (s : X87State) : X87ResultStatusWord :=
  let '(value, statusWord) := getStConst s 0 in
  let rounded := x87_round_by_rc value (controlWord s) in
  if negb (fle f64 0xC1E0000000000000 rounded && fle f64 rounded 0x41DFFFFFFFC00000) then
    mkResult (-2147483648) (u16 (Z.lor statusWord kConditionCode1))
  else mkResult (s32 (cast_int f64 rounded)) statusWord.

Definition x87_fist_i64 (s : X87State) : X87ResultStatusWord :=
  let '(value, statusWord) := getStConst s 0 in
  let rounded := x87_round_by_rc value (controlWord s) in
  if negb (fle f64 0xC3E0000000000000 rounded && flt f64 rounded 0x43E0000000000000) then
    mkResult (-9223372036854775808) (u16 (Z.lor statusWord kConditionCode1))
  else mkResult (s64 (cast_int f64 rounded)) statusWord.

Definition x87_fistt_i16 (s : X87State) : X87ResultStatusWord :=
  let '(value, statusWord) := getStConst s 0 in
  let t := round_integral RZero f64 value in
  if negb (fle f64 0xC0E0000000000000 t && fle f64 t 0x40DFFFC000000000) then
    mkResult (-32768) (u16 (Z.lor statusWord kConditionCode1))
  else mkResult (s16 (cast_int f64 t)) statusWord.

Definition x87_fistt_i32 (s : X87State) : X87ResultStatusWord :=
  let '(value, statusWord) := getStConst s 0 in
  let t := round_integral RZero f64 value in
  if negb (fle f64 0xC1E0000000000000 t && fle f64 t 0x41DFFFFFFFC00000) then
    mkResult (-2147483648) (u16 (Z.lor statusWord kConditionCode1))
  else mkResult (s32 (cast_int f64 t)) statusWord.

Definition x87_fistt_i64 (s : X87State) : X87ResultStatusWord :=
  let '(value, statusWord) := getStConst s 0 in
  let t := round_integral RZero f64 value in
  if negb (fle f64 0xC3E0000000000000 t && flt f64 t 0x43E0000000000000) then
    mkResult (-9223372036854775808) (u16 (Z.lor statusWord kConditionCode1))
  else mkResult (s64 (cast_int f64 t)) statusWord.

Definition x87_frndint (s : X87State) : X87State :=
  let s := sw_clear s kConditionCode1 in
  setStFast s 0 (x87_round_by_rc (getStFast s 0) (controlWord s)).

(** ** Floating-point stores *)

Definition x87_fst_fp32 (s : X87State) : X87ResultStatusWord :=
  let '(value, statusWord) := getStConst32 s 0 in mkResult value statusWord.

Definition x87_fst_fp64 (s : X87State) : X87ResultStatusWord :=
  let '(value, statusWord) := getStConst s 0 in mkResult value statusWord.

Definition x87_fst_fp80 (s : X87State) : X87Float80 * Z :=
  let '(value, statusWord) := getStConst s 0 in
  let mantissa := Z.land value 0xFFFFFFFFFFFFF in
  let exp := Z.land (Z.shiftr value 52) 0x7FF in
  let sign := u16 (Z.shiftl (Z.shiftr value 63) 15) in
  if exp =? 0 then (mkF80 0 sign, statusWord)
  else if exp =? 0x7FF then
    (mkF80 (Z.lor (u64 (Z.shiftl mantissa 11)) 0x8000000000000000) (Z.lor sign 0x7FFF), statusWord)
  else
    (mkF80 (Z.lor (u64 (Z.shiftl mantissa 11)) 0x8000000000000000)
           (Z.lor sign (u16 (exp + 16383 - 1023))), statusWord).

Definition x87_fsqrt (s : X87State) : X87State :=
  let s := sw_clear s kConditionCode1 in
  let value := getStFast s 0 in
  let s := sw_or s kPrecision in
  setStFast s 0 (fsqrt f64 value).

(** ** Transcendentals and remainders *)

Section Lib.
Context {libm : LibM}.

Definition x87_f2xm1 (s : X87State) : X87State :=
let x := getStFast s 0 in
if flt f64 x 0xBFF0000000000000 || fgt x f_one then setStFast s 0 f_zero
else setStFast s 0 (fsub f64 (openlibm_exp2 x) f_one).

Definition x87_fcos (s : X87State) : X87State :=
let s := sw_clear s (Z.lor kConditionCode1 kConditionCode2) in
let value := getStFast s 0 in
setStFast s 0 (openlibm_cos value).

Definition x87_fsin (s : X87State) : X87State :=
let s := sw_clear s (Z.lor kConditionCode1 kConditionCode2) in
let value := getStFast s 0 in
setStFast s 0 (openlibm_sin value).

Definition x87_fsincos (s : X87State) : X87State :=
let s := sw_clear s (Z.lor kConditionCode1 kConditionCode2) in
let value := getStFast s 0 in
let sin_value := openlibm_sin value in
let cos_value := openlibm_cos value in
let s := setStFast s 0 sin_value in
let s := push s in
let s := setStFast s 0 cos_value in
sw_clear s kConditionCode2.

Definition x87_fptan (s : X87State) : X87State :=
let s := sw_clear s (Z.lor kConditionCode1 kConditionCode2) in
let '(value, s) := getSt s 0 in
let tan_value := openlibm_tan value in
let s := setSt s 0 tan_value in
let s := push s in
setSt s 0 f_one.

Definition x87_fpatan (s : X87State) : X87State :=
let s := sw_clear s kConditionCode1 in
let '(st0, s) := getSt s 0 in
let '(st1, s) := getSt s 1 in
let result := openlibm_atan2 st1 st0 in
let s := setSt s 1 result in
pop s.

(** Quotient bits to condition codes: Q2 -> CC0, Q0 -> CC1, Q1 -> CC3. *)
Definition quotient_codes (s : X87State) (q : Z) : X87State :=
let s := if nz (Z.land q 0x4) then sw_or s kConditionCode0 else s in
let s := if nz (Z.land q 0x1) then sw_or s kConditionCode1 else s in
if nz (Z.land q 0x2) then sw_or s kConditionCode3 else s.

Definition x87_fprem (s : X87State) : X87State :=
let s := sw_clear s kCC0123 in
let '(st0, s) := getSt s 0 in
let '(st1, s) := getSt s 1 in
if x87_is_nan st0 || x87_is_nan st1 || x87_is_inf st0 || feq f64 st1 f_zero then
  sw_or (setSt s 0 f_qnan) kInvalidOperation
else if is_inf f64 st1 then s
else
  let rem := openlibm_fmod st0 st1 in
  let s := setSt s 0 rem in
  if feq f64 st0 f_zero then s
  else
    let D := s32 (openlibm_ilogb st0 - openlibm_ilogb st1) in
    if 64 <=? D then sw_or s kConditionCode2
    else
      let a := fabs f64 st0 in let b := fabs f64 st1 in
      let r8 :=
        if fle f64 b 0x7FBFFFFFFFFFFFFF then openlibm_fmod a (fmul f64 0x4020000000000000 b)
        else a in
      let q := s32 (fcvt_int RNE 64 f64 (fdiv f64 (fsub f64 r8 (fabs f64 rem)) b)) in
      quotient_codes s q.

Definition x87_fprem1 (s : X87State) : X87State :=
let s := sw_clear s kCC0123 in
let '(st0, s) := getSt s 0 in
let '(st1, s) := getSt s 1 in
if x87_is_nan st0 || x87_is_nan st1 || x87_is_inf st0 || feq f64 st1 f_zero then
  sw_or (setSt s 0 f_qnan) kInvalidOperation
else if is_inf f64 st1 then s
else
  let '(rem, q) := openlibm_remquo st0 st1 in
  let s := setSt s 0 rem in
  if feq f64 st0 f_zero then s
  else
    let s := quotient_codes s q in
    let D := s32 (openlibm_ilogb st0 - openlibm_ilogb st1) in
    if 64 <=? D then sw_or s kConditionCode2 else s.

Definition x87_fscale (s : X87State) : X87State :=
let s := sw_clear s kConditionCode1 in
let '(st0, s) := getSt s 0 in
let '(st1, s) := getSt s 1 in
if x87_is_nan st1 then setSt s 0 f_qnan
else
  let scale :=
    if fle f64 (of_int f64 100000) st1 then 100000
    else if fle f64 st1 (of_int f64 (-100000)) then -100000
    else cast_int f64 st1 in
  setSt s 0 (openlibm_scalbn st0 scale).

Definition x87_fxtract (s : X87State) : X87State :=
let '(st0, s) := getSt s 0 in
if nz (Z.land (controlWord s) kZeroDivideMask) && feq f64 st0 f_zero then
  let s := setSt s 0 (fneg f64 f_inf) in
  let s := push s in
  setSt s 0 (pack f64 (signbit st0) 0 0)
else if is_inf f64 st0 then
  let s := setSt s 0 f_inf in
  let s := push s in
  setSt s 0 st0
else
  let e := round_integral RDown f64 (openlibm_log2 (fabs f64 st0)) in
  let m := fdiv f64 st0 (openlibm_pow 0x4000000000000000 e) in
  let s := setSt s 0 e in
  let s := push s in
  setSt s 0 m.

(** The products and differences of the polynomial are rounded one by one. *)
Definition fyl2x_common (s : X87State) (constant : Z) : X87State :=
let s := sw_clear s kConditionCode1 in
let '(st0, s) := getSt s 0 in
let '(st1, s) := getSt s 1 in
let result :=
  if feq f64 constant f_one && flt f64 (fabs f64 st0) 0x3EB0000000000000 then
    let kLog2e := 0x3FF71547652B82FE in
    let third := 0x3FD5555555555555 in
    fmul f64 st1
      (fmul f64
         (fmul f64 st0
            (fsub f64 f_one
               (fmul f64 st0 (fsub f64 0x3FE0000000000000 (fmul f64 st0 third)))))
         kLog2e)
  else fmul f64 st1 (openlibm_log2 (fadd f64 st0 constant)) in
let s := pop s in
setSt s 0 result.

Definition x87_fyl2x (s : X87State) : X87State := fyl2x_common s f_zero.
Definition x87_fyl2xp1 (s : X87State) : X87State := fyl2x_common s f_one.

End Lib.
