(* ===== verification/X87RuntimeProps.v ===== *)
(** The handlers' effect on the machine: which way each moves TOP, which
    registers and tags it may touch, and that the state invariant survives. *)

From S2P Require Import Prelude F64 X87State X87Props F64Props X87Runtime.

(** What the handlers rely on of openlibm: doubles go in and come out. *)
Class LibMOk (libm : LibM) : Prop := {
  exp2_ok : forall x, in64 (openlibm_exp2 x);
  log2_ok : forall x, in64 (openlibm_log2 x);
  pow_ok : forall x y, in64 (openlibm_pow x y);
  sin_ok : forall x, in64 (openlibm_sin x);
  cos_ok : forall x, in64 (openlibm_cos x);
  tan_ok : forall x, in64 (openlibm_tan x);
  atan2_ok : forall x y, in64 (openlibm_atan2 x y);
  fmod_ok : forall x y, in64 (openlibm_fmod x y);
  remquo_ok : forall x y, in64 (fst (openlibm_remquo x y));
  scalbn_ok : forall x n, in64 (openlibm_scalbn x n)
}.

(** The handlers that run on a state and leave one, with their operands. *)
Inductive handler :=
| Hfabs | Hfchs | Hfsqrt | Hfrndint | Hfxam | Hpop | Hfincstp | Hfdecstp
| Hf2xm1 | Hfcos | Hfsin | Hfsincos | Hfptan | Hfpatan | Hfprem | Hfprem1
| Hfscale | Hfxtract | Hfyl2x | Hfyl2xp1 | Hfbstp
| HaddST (i j : Z) (p : bool) | HmulST (i j : Z) (p : bool) | HsubST (i j : Z) (p : bool)
| HsubrST (i j : Z) (p : bool) | HdivST (i j : Z) (p : bool) | HdivrST (i j : Z) (p : bool)
| Hadd32 (v : Z) | Hadd64 (v : Z) | Hmul32 (v : Z) | Hmul64 (v : Z) | Hsub32 (v : Z) | Hsub64 (v : Z)
| Hsubr32 (v : Z) | Hsubr64 (v : Z) | Hdiv32 (v : Z) | Hdiv64 (v : Z) | Hdivr32 (v : Z) | Hdivr64 (v : Z)
| Hiadd (v : Z) | Himul (v : Z) | Hisub (v : Z) | Hisubr (v : Z) | Hidiv (v : Z) | Hidivr (v : Z)
| Hild (v : Z) | HldSTi (i : Z) | Hldconst (c : Z) | Hld32 (v : Z) | Hld64 (v : Z) | Hld80 (v : X87Float80)
| Hbld (v1 v2 : Z) | Hcmov (c i : Z) | HstSTi (i : Z) (p : bool) | Hxch (i : Z)
| HcomST (i n : Z) | Hcom32 (v : Z) (p : bool) | Hcom64 (v : Z) (p : bool) | Hcomi (i : Z) (p : bool)
| Hucom (i n : Z) | Hucomi (i : Z) (p : bool) | Hicom (v : Z) (p : bool).

Section Handlers.
Context {libm : LibM} {libm_ok : LibMOk libm}.

Definition run (h : handler) (s : X87State) : X87State :=
match h with
| Hfabs => x87_fabs s | Hfchs => x87_fchs s | Hfsqrt => x87_fsqrt s
| Hfrndint => x87_frndint s | Hfxam => x87_fxam s | Hpop => x87_pop_register_stack s
| Hfincstp => x87_fincstp s | Hfdecstp => x87_fdecstp s
| Hf2xm1 => x87_f2xm1 s | Hfcos => x87_fcos s | Hfsin => x87_fsin s | Hfsincos => x87_fsincos s
| Hfptan => x87_fptan s | Hfpatan => x87_fpatan s | Hfprem => x87_fprem s | Hfprem1 => x87_fprem1 s
| Hfscale => x87_fscale s | Hfxtract => x87_fxtract s | Hfyl2x => x87_fyl2x s
| Hfyl2xp1 => x87_fyl2xp1 s | Hfbstp => snd (x87_fbstp s)
| HaddST i j p => x87_fadd_ST s i j p | HmulST i j p => x87_fmul_ST s i j p
| HsubST i j p => x87_fsub_ST s i j p | HsubrST i j p => x87_fsubr_ST s i j p
| HdivST i j p => x87_fdiv_ST s i j p | HdivrST i j p => x87_fdivr_ST s i j p
| Hadd32 v => x87_fadd_f32 s v | Hadd64 v => x87_fadd_f64 s v
| Hmul32 v => x87_fmul_f32 s v | Hmul64 v => x87_fmul_f64 s v
| Hsub32 v => x87_fsub_f32 s v | Hsub64 v => x87_fsub_f64 s v
| Hsubr32 v => x87_fsubr_f32 s v | Hsubr64 v => x87_fsubr_f64 s v
| Hdiv32 v => x87_fdiv_f32 s v | Hdiv64 v => x87_fdiv_f64 s v
| Hdivr32 v => x87_fdivr_f32 s v | Hdivr64 v => x87_fdivr_f64 s v
| Hiadd v => x87_fiadd s v | Himul v => x87_fimul s v | Hisub v => x87_fisub s v
| Hisubr v => x87_fisubr s v | Hidiv v => x87_fidiv s v | Hidivr v => x87_fidivr s v
| Hild v => x87_fild s v | HldSTi i => x87_fld_STi s i | Hldconst c => x87_fld_constant s c
| Hld32 v => x87_fld_fp32 s v | Hld64 v => x87_fld_fp64 s v | Hld80 v => x87_fld_fp80 s v
| Hbld v1 v2 => x87_fbld s v1 v2 | Hcmov c i => x87_fcmov s c i
| HstSTi i p => x87_fst_STi s i p | Hxch i => x87_fxch s i
| HcomST i n => x87_fcom_ST s i n | Hcom32 v p => x87_fcom_f32 s v p
| Hcom64 v p => x87_fcom_f64 s v p | Hcomi i p => snd (x87_fcomi s i p)
| Hucom i n => x87_fucom s i n | Hucomi i p => snd (x87_fucomi s i p)
| Hicom v p => x87_ficom s v p
end.

(** How far the handler moves TOP: pops are +1, pushes -1. *)
Definition delta (h : handler) : Z :=
match h with
| Hpop | Hfincstp | Hfpatan | Hfyl2x | Hfyl2xp1 | Hfbstp => 1
| Hfdecstp | Hfsincos | Hfptan | Hfxtract => -1
| Hild _ | HldSTi _ | Hld32 _ | Hld64 _ | Hld80 _ | Hbld _ _ => -1
| Hldconst c => if (0 <=? c) && (c <=? 6) then -1 else 0
| HaddST _ _ p | HmulST _ _ p | HsubST _ _ p | HsubrST _ _ p | HdivST _ _ p | HdivrST _ _ p
| HstSTi _ p | Hcom32 _ p | Hcom64 _ p | Hcomi _ p | Hucomi _ p | Hicom _ p => b2z p
| HcomST _ n | Hucom _ n => n
| _ => 0
end.

(** The ST-relative slots the handler may write or retag. *)
Definition touches (h : handler) : list Z :=
match h with
| Hfxam | Hfincstp | Hfdecstp => []
| Hpop | Hfbstp => [0]
| Hfsincos | Hfptan | Hfxtract => [-1; 0]
| Hfpatan | Hfyl2x | Hfyl2xp1 => [0; 1]
| Hild _ | HldSTi _ | Hld32 _ | Hld64 _ | Hld80 _ | Hbld _ _ | Hldconst _ => [-1]
| HaddST i _ _ | HmulST i _ _ | HsubST i _ _ | HsubrST i _ _ | HdivST i _ _ | HdivrST i _ _
| HstSTi i _ | Hxch i => [0; i]
| HcomST _ n | Hucom _ n => map Z.of_nat (seq 0 (Z.to_nat n))
| Hcom32 _ p | Hcom64 _ p | Hcomi _ p | Hucomi _ p | Hicom _ p => [0]
| _ => [0]
end.

(** Operands have the width of their C types. *)
Definition handler_ok (h : handler) : Prop :=
match h with
| Hadd64 v | Hmul64 v | Hsub64 v | Hsubr64 v | Hdiv64 v | Hdivr64 v | Hld64 v | Hcom64 v _ => in64 v
| Hld80 v => in64 (mantissa v) /\ 0 <= exponent v < 2 ^ 16
| HcomST _ n | Hucom _ n => 0 <= n
| _ => True
end.

(** ** Effects of the shared bodies *)

Lemma effect_if (b : bool) s t u d W : effect s t d W -> effect s u d W -> effect s (if b then t else u) d W.
Proof. destruct b; auto. Qed.

Lemma effect_popn s t d W n : 0 <= n -> effect s t d W ->
effect s (pop_n t n) (d + n) (map (fun k => d + Z.of_nat k) (seq 0 (Z.to_nat n)) ++ W).
Proof.
intros Hn H. unfold pop_n. replace (d + n) with (d + Z.of_nat (Z.to_nat n)) by lia.
generalize (Z.to_nat n) as k. induction k as [|k IH].
- rewrite Z.add_0_r. exact H.
- rewrite seq_S, map_app. apply effect_pop in IH.
  eapply effect_weaken; [exact IH | lia |].
  intros x Hx. cbn [map app In] in *. rewrite !in_app_iff in *. cbn [In map].
  destruct Hx as [<-|[Hx|Hx]]; auto.
Qed.

Lemma effect_bool_pop (b : bool) s t d W :
effect s t d W -> effect s (if b then pop t else t) (d + b2z b) (d :: W).
Proof.
intros H. destruct b; [apply effect_pop, H|].
eapply effect_weaken; [exact H | cbn; lia | intros x Hx; right; exact Hx].
Qed.

Lemma effect_fcom_codes s t d W m a b :
off_top m -> effect s t d W -> effect s (fcom_codes t m a b) d W.
Proof.
intros Hm H. unfold fcom_codes. pose proof (effect_sw_clear s t d W m H Hm) as H1.
repeat apply effect_if; repeat apply effect_sw_or; try exact H1; try reflexivity.
all: repeat apply effect_if; repeat apply effect_sw_or; try exact H1; reflexivity.
Qed.

Lemma effect_unordered_codes s t d W a b n :
effect s t d W -> effect s (unordered_codes t a b n) d W.
Proof.
intros H. unfold unordered_codes. pose proof (effect_sw_clear s t d W kCC023 H eq_refl) as H1.
repeat apply effect_if; repeat apply effect_sw_or; try exact H1; reflexivity.
Qed.

Lemma effect_quotient_codes s t d W q :
effect s t d W -> effect s (quotient_codes t q) d W.
Proof.
intros H. unfold quotient_codes.
repeat (first [apply effect_if | apply effect_sw_or | exact H | reflexivity]).
Qed.

Lemma top_field w : Z.shiftr (Z.land w kTopOfStack) 11 = Z.land (Z.shiftr w 11) 7.
Proof. rewrite Z.shiftr_land. reflexivity. Qed.

Lemma f80_flags_off_top x : off_top (snd (ConvertX87RegisterToFloat64 x)).
Proof.
unfold ConvertX87RegisterToFloat64.
repeat match goal with |- context [if ?b then _ else _] => destruct b end; reflexivity.
Qed.

Lemma wf_sw_clear s m : wf s -> wf (sw_clear s m).
Proof. intros H. apply wf_with_sw; [exact H | apply (wrap_range 16); lia]. Qed.

Lemma wf_sw_or s m : wf s -> wf (sw_or s m).
Proof. intros H. apply wf_with_sw; [exact H | apply (wrap_range 16); lia]. Qed.

Lemma wf_push s : wf s -> wf (push s).
Proof. intros H. eapply eff_wf, effect_push, effect_refl, H. Qed.

Lemma wf_setStFast s i v : wf s -> in64 v -> wf (setStFast s i v).
Proof. intros H Hv. eapply eff_wf, effect_setStFast; [apply effect_refl, H | exact Hv]. Qed.

(** Walk a handler's chain of updates back to the state it was given. *)
Lemma in64_BCD2Double l : in64 (BCD2Double l).
Proof.
unfold BCD2Double. destruct (BCD2Double_loop _ _ _) as [tmp mult].
destruct (nz _); [apply fneg_range64|]; apply of_int_range64.
Qed.

Lemma shl52_bound e : 0 <= e < 2 ^ 11 -> 0 <= Z.shiftl e 52 < 2 ^ 64.
Proof. intros He. rewrite Z.shiftl_mul_pow2 by lia. lia. Qed.

Lemma in64_convert80 x : in64 (mantissa x) -> 0 <= exponent x < 2 ^ 16 ->
in64 (fst (ConvertX87RegisterToFloat64 x)).
Proof.
intros Hm He. unfold ConvertX87RegisterToFloat64.
set (sign := if nz (Z.land (exponent x) 0x8000) then 0x8000000000000000 else 0).
assert (Hs : 0 <= sign < 2 ^ 64) by (subst sign; destruct (nz _); lia).
clearbody sign.
assert (Hb : 0 <= Z.land (exponent x) 0x7FFF < 2 ^ 15) by (apply land_bound; lia).
set (b := Z.land (exponent x) 0x7FFF) in *. clearbody b.
assert (Hsig : forall m, 0 <= Z.land (Z.shiftr m 11) 0xFFFFFFFFFFFFF < 2 ^ 52)
  by (intros m; apply land_bound; lia).
unfold in64.
repeat match goal with
| |- context [if ?c then _ else _] => destruct c eqn:?
end; cbn [fst];
repeat match goal with
| H : (_ && _) = true |- _ => apply andb_true_iff in H as [? ?]
| H : (_ <=? _) = true |- _ => apply Z.leb_le in H
| H : (_ <=? _) = false |- _ => apply Z.leb_gt in H
end;
try exact Hs;
repeat apply lor_bound; try lia; try (apply shl52_bound; lia);
match goal with |- context [Z.land (Z.shiftr ?m 11) ?k] => pose proof (Hsig m); lia end.
Qed.

Ltac v64 :=
solve [ assumption
      | lazymatch goal with |- in64 (BCD2Double _) => apply in64_BCD2Double end
      | apply of_int_range64 | apply widen_range64 | apply pack_range64 | apply in64_qnan
      | apply fabs_range64
      | apply exp2_ok | apply log2_ok | apply pow_ok | apply sin_ok | apply cos_ok | apply tan_ok
      | apply atan2_ok | apply fmod_ok | apply remquo_ok | apply scalbn_ok
      | unfold in64, f_one, f_zero, f_inf, f_qnan; lia
      | unfold fadd, fsub, fmul, fdiv; apply arith2_range64; v64
      | apply round_integral_range64; v64 | apply fneg_range64; v64 | apply fsqrt_range64; v64
      | apply in64_getStFast; wf_go ]
with wf_go :=
lazymatch goal with
| |- wf (sw_clear _ _) => apply wf_sw_clear; wf_go
| |- wf (sw_or _ _) => apply wf_sw_or; wf_go
| |- wf (push _) => apply wf_push; wf_go
| |- wf (setStFast _ _ _) => apply wf_setStFast; [wf_go | v64]
| |- _ => first [assumption | eapply eff_wf; eassumption]
end
with eff_go :=
lazymatch goal with
| |- effect ?s ?s _ _ => apply effect_refl; assumption
| |- effect _ (if _ then pop ?t else ?t) _ _ => apply effect_bool_pop; eff_go
| |- effect _ (if _ then _ else _) _ _ => apply effect_if; eff_go
| |- effect _ (setSt _ _ _) _ _ => eapply effect_setSt; [eff_go | v64]
| |- effect _ (setStFast _ _ _) _ _ => eapply effect_setStFast; [eff_go | v64]
| |- effect _ (push _) _ _ => eapply effect_push; eff_go
| |- effect _ (pop _) _ _ => eapply effect_pop; eff_go
| |- effect _ (sw_or _ _) _ _ => eapply effect_sw_or; [eff_go | first [assumption | reflexivity]]
| |- effect _ (sw_clear _ _) _ _ => eapply effect_sw_clear; [eff_go | reflexivity]
| |- effect _ (fcom_codes _ _ _ _) _ _ => eapply effect_fcom_codes; [reflexivity | eff_go]
| |- effect _ (unordered_codes _ _ _ _) _ _ => eapply effect_unordered_codes; eff_go
| |- effect _ (quotient_codes _ _) _ _ => eapply effect_quotient_codes; eff_go
| |- effect _ (pop_n _ _) _ _ => apply effect_popn; [assumption | eff_go]
| |- effect _ ?t _ _ => eassumption
end.

(** Name the results of the register reads and the branches taken. *)
Ltac reads :=
repeat (cbv beta zeta;
  match goal with
  | |- effect ?s0 ?body _ _ =>
      match body with context [getSt ?t ?i] =>
        let v := fresh "v" in let u := fresh "u" in let E := fresh "E" in
        destruct (getSt t i) as [v u] eqn:E;
        eapply (getSt_effect s0) in E; [destruct E as [? E] | eff_go]
      end
  | |- effect _ (if _ then pop ?t else ?t) _ _ => fail 1
  | |- effect _ (if ?b then _ else _) _ _ => destruct b
  end).

Ltac unfold_handler :=
match goal with |- effect _ ?b _ _ =>
  let h := lazymatch b with snd ?x => x | ?x => x end in
  let rec head t := lazymatch t with ?f _ => head f | _ => t end in
  let f := head h in unfold f
end.

Ltac leaf :=
eapply effect_weaken;
[ eff_go
| try reflexivity; lia
| let x := fresh in let Hx := fresh in intros x Hx; cbn in Hx |- *; tauto ].

Ltac handler_effect := intros; unfold_handler; reads; cbn [snd]; leaf.

Lemma fcomi_effect s i p : wf s -> effect s (snd (x87_fcomi s i p)) (b2z p) [0].
Proof.
intros H. unfold x87_fcomi. eapply effect_weaken; [reads; cbn [snd]; eff_go | reflexivity | ].
intros x Hx. exact Hx.
Qed.

Lemma fucomi_effect s i p : wf s -> effect s (snd (x87_fucomi s i p)) (b2z p) [0].
Proof.
intros H. unfold x87_fucomi. eapply effect_weaken; [reads; cbn [snd]; eff_go | reflexivity | ].
intros x Hx. exact Hx.
Qed.

Lemma fbstp_effect s : wf s -> effect s (snd (x87_fbstp s)) 1 [0].
Proof.
intros H. unfold x87_fbstp. eapply effect_weaken; [reads; cbn [snd]; eff_go | reflexivity | ].
intros x Hx. exact Hx.
Qed.

Lemma fld_constant_effect s c : wf s ->
effect s (x87_fld_constant s c) (if (0 <=? c) && (c <=? 6) then -1 else 0) [-1].
Proof.
intros H. unfold x87_fld_constant. cbv zeta.
assert (L : forall v, in64 v -> effect s (setSt (push s) 0 v) (-1) [-1]).
{ intros v Hv. eapply effect_weaken; [apply effect_setSt; [apply effect_push, effect_refl, H | exact Hv]
   | reflexivity | intros x Hx; cbn in *; tauto]. }
assert (K : forall n, 0 <= n <= 6 -> c = n ->
  (if (0 <=? c) && (c <=? 6) then -1 else 0) = -1).
{ intros n Hn ->. destruct (Z.leb_spec 0 n), (Z.leb_spec n 6); cbn; lia. }
repeat match goal with
| |- context [if ?c =? ?n then _ else _] =>
    destruct (Z.eqb_spec c n); [rewrite (K n) by lia; apply L; unfold in64, f_one, f_zero; lia|]
end.
replace ((0 <=? c) && (c <=? 6)) with false.
- eapply effect_weaken; [apply effect_refl, H | reflexivity | intros x []].
- symmetry. apply andb_false_iff. rewrite !Z.leb_gt. lia.
Qed.

Lemma set_top_field w t : 0 <= t < 8 ->
Z.land (Z.shiftr (u16 (Z.lor (u16 (Z.land w (Z.lnot kTopOfStack))) (Z.shiftl t 11))) 11) 7 = t.
Proof.
intros Ht. rewrite wrap_lor, wrap_wrap, <- wrap_lor by lia. apply top_insert, Ht.
Qed.

Lemma fdecstp_effect s : wf s -> effect s (x87_fdecstp s) (-1) [].
Proof.
intros H. unfold x87_fdecstp. rewrite top_field. cbv zeta.
change (Z.land (Z.shiftr (statusWord s) 11) 7) with (topIndex s). rewrite land7_mod.
pose proof (Z.mod_pos_bound (topIndex s - 1) 8 ltac:(lia)).
rewrite (wrap_small 16 ((topIndex s - 1) mod 8)) by lia.
apply (effect_set_top s _ 0 [] (-1)).
- eff_go.
- apply (wrap_range 16). lia.
- rewrite top_insert, top_sw_clear by (reflexivity || lia). reflexivity.
Qed.

Lemma fincstp_effect s : wf s -> effect s (x87_fincstp s) 1 [].
Proof.
intros H. unfold x87_fincstp. rewrite top_field. cbv zeta.
change (Z.land (Z.shiftr (statusWord (sw_clear s kConditionCode1)) 11) 7)
  with (topIndex (sw_clear s kConditionCode1)).
pose proof (topIndex_range (sw_clear s kConditionCode1)).
rewrite (wrap_small 16 (topIndex _)), land7_mod by lia.
pose proof (Z.mod_pos_bound (topIndex (sw_clear s kConditionCode1) + 1) 8 ltac:(lia)).
rewrite (wrap_small 16 (_ mod 8)) by lia.
apply (effect_set_top s (sw_clear s kConditionCode1) 0 [] 1).
- eff_go.
- apply (wrap_range 16). lia.
- apply (set_top_field (statusWord (sw_clear s kConditionCode1))). lia.
Qed.

Lemma fprem_effect s : wf s -> effect s (x87_fprem s) 0 [0].
Proof. handler_effect. Qed.

Lemma fprem1_effect s : wf s -> effect s (x87_fprem1 s) 0 [0].
Proof.
intros H. unfold x87_fprem1. reads; try leaf.
all: match goal with |- context [openlibm_remquo ?a ?b] =>
  pose proof (remquo_ok a b); destruct (openlibm_remquo a b) as [rem q] end.
all: cbn [fst] in *; reads; leaf.
Qed.

Lemma fxtract_effect s : wf s -> effect s (x87_fxtract s) (-1) [-1; 0].
Proof. handler_effect. Qed.

Lemma fyl2x_common_effect s c : wf s -> effect s (fyl2x_common s c) 1 [0; 1].
Proof.
intros H. unfold fyl2x_common. reads.
match goal with |- context [setSt _ _ ?v] => assert (in64 v) by (destruct (_ && _); v64) end.
leaf.
Qed.

Lemma fcom_ST_effect s i n : wf s -> 0 <= n ->
effect s (x87_fcom_ST s i n) n (map Z.of_nat (seq 0 (Z.to_nat n))).
Proof.
intros H Hn. unfold x87_fcom_ST. reads.
eapply effect_weaken; [eff_go | lia | rewrite app_nil_r; apply incl_refl].
Qed.

Lemma fucom_effect s i n : wf s -> 0 <= n ->
effect s (x87_fucom s i n) n (map Z.of_nat (seq 0 (Z.to_nat n))).
Proof.
intros H Hn. unfold x87_fucom. reads.
eapply effect_weaken; [eff_go | lia | rewrite app_nil_r; apply incl_refl].
Qed.

Lemma fld_fp80_effect s x : wf s -> in64 (mantissa x) -> 0 <= exponent x < 2 ^ 16 ->
effect s (x87_fld_fp80 s x) (-1) [-1].
Proof.
intros H Hm He. unfold x87_fld_fp80. pose proof (in64_convert80 x Hm He).
pose proof (f80_flags_off_top x). destruct (ConvertX87RegisterToFloat64 x) as [v fl].
cbn [fst snd] in *. leaf.
Qed.

(** C14: every runtime handler, from a well-formed x87 state, leaves a
  well-formed state with the same control word, moves TOP by exactly its
  documented number of pops and pushes (modulo 8), and leaves the value and
  the tag of every register outside its operands unchanged. *)
Theorem run_effect (h : handler) (s : X87State) :
wf s -> handler_ok h -> effect s (run h s) (delta h) (touches h).
Proof.
intros Hs Hok. destruct h; cbn [run delta touches handler_ok] in *;
  lazymatch goal with
  | |- effect _ (snd (x87_fcomi _ _ _)) _ _ => apply fcomi_effect; exact Hs
  | |- effect _ (snd (x87_fucomi _ _ _)) _ _ => apply fucomi_effect; exact Hs
  | |- effect _ (snd (x87_fbstp _)) _ _ => apply fbstp_effect; exact Hs
  | |- effect _ (x87_fld_constant _ _) _ _ => apply fld_constant_effect; exact Hs
  | |- effect _ (x87_fincstp _) _ _ => apply fincstp_effect; exact Hs
  | |- effect _ (x87_fdecstp _) _ _ => apply fdecstp_effect; exact Hs
  | |- effect _ (x87_fprem _) _ _ => apply fprem_effect; exact Hs
  | |- effect _ (x87_fprem1 _) _ _ => apply fprem1_effect; exact Hs
  | |- effect _ (x87_fxtract _) _ _ => apply fxtract_effect; exact Hs
  | |- effect _ (x87_fyl2x _) _ _ => apply fyl2x_common_effect; exact Hs
  | |- effect _ (x87_fyl2xp1 _) _ _ => apply fyl2x_common_effect; exact Hs
  | |- effect _ (x87_fcom_ST _ _ _) _ _ => apply fcom_ST_effect; assumption
  | |- effect _ (x87_fucom _ _ _) _ _ => apply fucom_effect; assumption
  | |- effect _ (x87_fld_fp80 _ _) _ _ => apply fld_fp80_effect; [exact Hs | apply Hok | apply Hok]
  | |- _ => handler_effect
  end.
Qed.

End Handlers.

(** A concrete library, for closed instances of the theorems. *)
Definition trivial_libm : LibM := {|
  openlibm_exp2 := fun _ => f_one; openlibm_log2 := fun _ => f_zero;
  openlibm_pow := fun _ _ => f_one; openlibm_sin := fun _ => f_zero;
  openlibm_cos := fun _ => f_one; openlibm_tan := fun _ => f_zero;
  openlibm_atan2 := fun _ _ => f_zero; openlibm_fmod := fun _ _ => f_zero;
  openlibm_remquo := fun _ _ => (f_zero, 0); openlibm_ilogb := fun _ => 0;
  openlibm_scalbn := fun _ _ => f_zero |}.

Lemma trivial_libm_ok : LibMOk trivial_libm.
Proof. constructor; intros; unfold in64; cbn; unfold f_one, f_zero; lia. Qed.

Lemma run_effect_witness :
  effect X87State_init (@run trivial_libm (Hild 7) X87State_init) (delta (Hild 7)) (touches (Hild 7)).
Proof. exact (@run_effect trivial_libm trivial_libm_ok (Hild 7) X87State_init wf_init I). Defined.
