(* ===== verification/F64Exact.v ===== *)
(** Integers with at most 53 significant bits convert to double exactly. *)

From S2P Require Import Prelude F64 X87State X87Props F64Props.
From Corelib Require Import SpecFloat.

Lemma digits2_log2 p : Zpos (digits2_pos p) = Z.log2 (Zpos p) + 1.
Proof.
  induction p as [p IH|p IH|]; cbn [digits2_pos].
  - rewrite Pos2Z.inj_succ, IH, Pos2Z.inj_xI, Z.log2_succ_double by lia. lia.
  - rewrite Pos2Z.inj_succ, IH, (Pos2Z.inj_xO p), Z.log2_double by lia. lia.
  - reflexivity.
Qed.

Lemma iter_xO m d : Zpos (Pos.iter xO m d) = Zpos m * 2 ^ Zpos d.
Proof.
  revert m. induction d as [|d IH] using Pos.peano_ind; intros m.
  - cbn [Pos.iter]. lia.
  - rewrite Pos.iter_succ, Pos2Z.inj_xO, IH, Pos2Z.inj_succ, Z.pow_succ_r by lia. ring.
Qed.

Definition rec0 (m : Z) : shr_record := Build_shr_record m false false.

Lemma shr_1_even m : 0 < m -> shr_1 (rec0 (2 * m)) = rec0 m.
Proof. destruct m; try lia; intros _; reflexivity. Qed.

Lemma iter_pos_comm {A} (f : A -> A) n x : iter_pos f n (f x) = f (iter_pos f n x).
Proof.
  revert x. induction n as [n IH|n IH|]; intros x; cbn [iter_pos]; rewrite ?IH; reflexivity.
Qed.

Lemma iter_pos_succ {A} (f : A -> A) n x : iter_pos f (Pos.succ n) x = iter_pos f n (f x).
Proof.
  revert x. induction n as [n IH|n IH|]; intros x; cbn [iter_pos Pos.succ]; [|reflexivity|reflexivity].
  rewrite !IH, !iter_pos_comm. reflexivity.
Qed.

Lemma shr_even p m : 0 < m -> iter_pos shr_1 p (rec0 (m * 2 ^ Zpos p)) = rec0 m.
Proof.
  induction p as [|p IH] using Pos.peano_ind; intros Hm.
  - cbn [iter_pos]. replace (m * 2 ^ 1) with (2 * m) by lia. apply shr_1_even, Hm.
  - rewrite iter_pos_succ, Pos2Z.inj_succ, Z.pow_succ_r by lia.
    replace (m * (2 * 2 ^ Zpos p)) with (2 * (m * 2 ^ Zpos p)) by ring.
    rewrite shr_1_even, IH; [reflexivity | exact Hm |].
    pose proof (Z.pow_pos_nonneg 2 (Zpos p)). nia.
Qed.

(** A mantissa already at its exponent is left alone by the rounding. *)
Lemma shr_fexp_id m e :
  2 ^ 52 <= Zpos m < 2 ^ 53 -> -1074 <= e ->
  shr_fexp 53 1024 (Zpos m) e loc_Exact = (rec0 (Zpos m), e).
Proof.
  intros Hm He. unfold shr_fexp, fexp, emin. cbn [Zdigits2].
  rewrite digits2_log2. replace (Z.log2 (Zpos m)) with 52.
  - replace (Z.max (52 + 1 + e - 53) (3 - 1024 - 53) - e) with 0 by lia. reflexivity.
  - symmetry. apply Z.log2_unique; lia.
Qed.

Lemma round_aux_id s m e :
  2 ^ 52 <= Zpos m < 2 ^ 53 -> -1074 <= e <= 971 ->
  binary_round_aux 53 1024 s (Zpos m) e loc_Exact = S754_finite s m e.
Proof.
  intros Hm He. unfold binary_round_aux. rewrite shr_fexp_id by lia.
  cbn [rec0 shr_m loc_of_shr_record round_nearest_even]. rewrite shr_fexp_id by lia.
  cbn [rec0 shr_m]. replace (e <=? 1024 - 53) with true by (symmetry; apply Z.leb_le; lia).
  reflexivity.
Qed.

(** The canonical form of a 53-bit mantissa times a power of two. *)
Lemma round_exact s m k :
  0 < m < 2 ^ 53 -> 0 <= k -> k + Z.log2 m <= 1023 ->
  exists p e, binary_round 53 1024 s (Z.to_pos (m * 2 ^ k)) 0 = S754_finite s p e /\
    2 ^ 52 <= Zpos p < 2 ^ 53 /\ -52 <= e <= 971 /\ Zpos p * 2 ^ (e + 1074) = m * 2 ^ k * 2 ^ 1074.
Proof.
  intros Hm Hk Hl.
  pose proof (Z.pow_pos_nonneg 2 k ltac:(lia) Hk) as H2k.
  pose proof (Z.log2_spec m ltac:(lia)) as Hlog.
  assert (Hl0 : 0 <= Z.log2 m) by apply Z.log2_nonneg.
  assert (Hl52 : Z.log2 m <= 52) by (assert (Z.log2 m < 53) by (apply Z.log2_lt_pow2; lia); lia).
  set (l := Z.log2 m) in *.
  assert (Hpos : 0 < m * 2 ^ k) by nia.
  destruct (m * 2 ^ k) as [|x|x] eqn:Ex; try lia. cbn [Z.to_pos].
  assert (Hdx : Zpos (digits2_pos x) = l + k + 1).
  { rewrite digits2_log2, <- Ex, Z.log2_mul_pow2 by lia. subst l. lia. }
  unfold binary_round. rewrite Hdx. unfold fexp, emin.
  replace (Z.max (l + k + 1 + 0 - 53) (3 - 1024 - 53)) with (l + k - 52) by lia.
  assert (Hlow : 2 ^ 52 <= m * 2 ^ (52 - l) < 2 ^ 53).
  { pose proof (Z.pow_pos_nonneg 2 (52 - l) ltac:(lia) ltac:(lia)).
    replace (2 ^ 52) with (2 ^ l * 2 ^ (52 - l)) by (rewrite <- Z.pow_add_r by lia; f_equal; lia).
    replace (2 ^ 53) with (2 ^ Z.succ l * 2 ^ (52 - l)) by (rewrite <- Z.pow_add_r by lia; f_equal; lia).
    nia. }
  assert (Hval : m * 2 ^ (52 - l) * 2 ^ (l + k - 52 + 1074) = m * 2 ^ k * 2 ^ 1074).
  { rewrite <- !Z.mul_assoc, <- !Z.pow_add_r by lia. do 2 f_equal. lia. }
  unfold shl_align. destruct (l + k - 52 - 0) as [|d|d] eqn:Ed.
  - (* already 53 bits *)
    assert (k = 52 - l) as -> by lia. rewrite Ex in Hlow, Hval.
    exists x, 0. rewrite round_aux_id by lia.
    split; [reflexivity|]. split; [exact Hlow|]. split; [lia|].
    rewrite Z.add_0_l, <- Ex. reflexivity.
  - (* more: the low bits shifted out are zero *)
    set (q := m * 2 ^ (52 - l)) in *.
    assert (Hq : Zpos x = q * 2 ^ Zpos d).
    { subst q. rewrite <- Ex, <- Z.mul_assoc, <- Z.pow_add_r by lia. do 2 f_equal. lia. }
    destruct q as [|p|p]; try lia.
    exists p, (Zpos d). split; [|split; [exact Hlow|split; [lia|]]].
    + unfold binary_round_aux.
      assert (Es : shr_fexp 53 1024 (Zpos x) 0 loc_Exact = (rec0 (Zpos p), Zpos d)).
      { unfold shr_fexp, fexp, emin. cbn [Zdigits2]. rewrite Hdx.
        replace (Z.max (l + k + 1 + 0 - 53) (3 - 1024 - 53) - 0) with (Zpos d) by lia.
        cbn [shr shr_record_of_loc]. fold (rec0 (Zpos x)). rewrite Hq, shr_even by lia. reflexivity. }
      rewrite Es. cbn [rec0 shr_m loc_of_shr_record round_nearest_even].
      rewrite shr_fexp_id by lia. cbn [rec0 shr_m].
      replace (Zpos d <=? 1024 - 53) with true by (symmetry; apply Z.leb_le; lia). reflexivity.
    + replace (Zpos d) with (l + k - 52) by lia. rewrite Hval, Ex. reflexivity.
  - (* fewer: shifted left to 53 bits *)
    assert (Hx : Zpos (Pos.iter xO x d) = m * 2 ^ (52 - l)).
    { rewrite iter_xO, <- Ex, <- Z.mul_assoc, <- Z.pow_add_r by lia. do 2 f_equal. lia. }
    exists (Pos.iter xO x d), (l + k - 52). rewrite <- Hx in Hlow, Hval.
    rewrite round_aux_id by lia.
    split; [reflexivity|]. split; [exact Hlow|]. split; [lia|]. rewrite Hval, Ex. reflexivity.
Qed.

(** ** Fields of a packed double *)

Lemma bits_divmod w lo n : 0 <= lo -> 0 <= n -> bits w lo n = (w / 2 ^ lo) mod 2 ^ n.
Proof. intros. unfold bits. rewrite Z.land_ones, Z.shiftr_div_pow2 by lia. reflexivity. Qed.

Lemma pack_eq s e m : 0 <= e < 2 ^ 11 -> 0 <= m < 2 ^ 52 ->
  pack f64 s e m = (b2z s * 2 ^ 11 + e) * 2 ^ 52 + m.
Proof.
  intros He Hm. unfold pack. cbn [mw ew f64]. rewrite !wrap_small by lia.
  change (2 ^ (52 + 11)) with (2 ^ 11 * 2 ^ 52). ring.
Qed.

Lemma pack_frac s e m : 0 <= e < 2 ^ 11 -> 0 <= m < 2 ^ 52 -> frac_of f64 (pack f64 s e m) = m.
Proof.
  intros He Hm. unfold frac_of. rewrite bits_divmod, pack_eq by (cbn; lia). cbn [mw f64].
  rewrite Z.pow_0_r, Z.div_1_r, Z.add_comm, Z_mod_plus_full. apply Z.mod_small, Hm.
Qed.

Lemma pack_exp s e m : 0 <= e < 2 ^ 11 -> 0 <= m < 2 ^ 52 -> exp_of f64 (pack f64 s e m) = e.
Proof.
  intros He Hm. unfold exp_of. rewrite bits_divmod, pack_eq by (cbn; lia). cbn [mw ew f64].
  rewrite Z.div_add_l, (Z.div_small m), Z.add_0_r by lia.
  rewrite Z.add_comm, Z_mod_plus_full. apply Z.mod_small, He.
Qed.

Lemma pack_sign s e m : 0 <= e < 2 ^ 11 -> 0 <= m < 2 ^ 52 -> sign_of f64 (pack f64 s e m) = s.
Proof.
  intros He Hm. unfold sign_of. cbn [mw ew f64]. change (52 + 11) with 63.
  rewrite Z.testbit_eqb, pack_eq by lia. change (2 ^ 63) with (2 ^ 52 * 2 ^ 11).
  rewrite <- Z.div_div, Z.div_add_l, (Z.div_small m), Z.add_0_r by lia.
  rewrite Z.div_add_l, (Z.div_small e), Z.add_0_r by lia. destruct s; reflexivity.
Qed.

(** A double that is a number, as an exact multiple of 2^-1074. *)
Definition is_num (b x : Z) : Prop :=
  is_nan f64 b = false /\ is_inf f64 b = false /\ scaled f64 b = x.

Lemma finite_num s p e :
  2 ^ 52 <= Zpos p < 2 ^ 53 -> -1074 <= e <= 971 ->
  let b := to_bits f64 (S754_finite s p e) in
  is_num b ((if s then -1 else 1) * (Zpos p * 2 ^ (e + 1074))) /\ sign_of f64 b = s.
Proof.
  intros Hp He b. subst b. unfold to_bits. cbn [mw f64].
  replace (Zpos p <? 2 ^ 52) with false by (symmetry; apply Z.ltb_ge; lia).
  change (qmin f64) with (-1074). replace (e - -1074 + 1) with (e + 1075) by lia.
  unfold is_num, is_nan, is_inf, scaled.
  rewrite pack_exp, pack_frac, pack_sign by lia. change (exp_ones f64) with 2047.
  replace (e + 1075 =? 2047) with false by (symmetry; apply Z.eqb_neq; lia).
  replace (e + 1075 =? 0) with false by (symmetry; apply Z.eqb_neq; lia).
  cbn [andb mw f64]. rewrite Z.shiftl_mul_pow2 by lia.
  replace (e + 1075 - 1) with (e + 1074) by lia.
  replace (Zpos p - 2 ^ 52 + 2 ^ 52) with (Zpos p) by lia.
  split; [|reflexivity]. split; [reflexivity|]. split; [reflexivity|]. destruct s; lia.
Qed.

Lemma of_int_num n m k :
  Z.abs n = m * 2 ^ k -> 0 <= m < 2 ^ 53 -> 0 <= k -> k + Z.log2 m <= 1023 ->
  is_num (of_int f64 n) (n * 2 ^ 1074) /\ sign_of f64 (of_int f64 n) = (n <? 0).
Proof.
  intros Hn Hm Hk Hl. destruct (Z.eq_dec m 0) as [->|Hm0].
  { assert (n = 0) as -> by lia. vm_compute. auto. }
  pose proof (Z.pow_pos_nonneg 2 k ltac:(lia) Hk).
  destruct (round_exact (n <? 0) m k ltac:(lia) Hk Hl) as (p & e & E & Hp & He & Hv).
  rewrite <- Hn in E, Hv. unfold of_int, binary_normalize. change (prec f64) with 53. change (emax f64) with 1024.
  destruct n as [|x|x]; [nia| |]; cbn [Z.abs Z.to_pos Z.ltb Z.compare] in E, Hv |- *; rewrite E.
  - destruct (finite_num false p e Hp ltac:(lia)) as [H1 H2]. split; [|exact H2].
    cbv beta iota in H1. rewrite Hv, Z.mul_1_l in H1. exact H1.
  - destruct (finite_num true p e Hp ltac:(lia)) as [H1 H2]. split; [|exact H2].
    cbv beta iota in H1. rewrite Hv in H1.
    replace (-1 * (Zpos x * 2 ^ 1074)) with (Zneg x * 2 ^ 1074) in H1 by lia. exact H1.
Qed.

(** Ordering numbers is ordering integers. *)
Lemma fle_num a b x y : is_num a x -> is_num b y -> fle f64 a b = (x <=? y).
Proof.
  intros (Ha & Ha' & <-) (Hb & Hb' & <-). unfold fle, fcompare. rewrite Ha, Ha', Hb, Hb'.
  cbn [orb]. unfold Z.leb. destruct (_ ?= _); reflexivity.
Qed.

Lemma flt_num a b x y : is_num a x -> is_num b y -> flt f64 a b = (x <? y).
Proof.
  intros (Ha & Ha' & <-) (Hb & Hb' & <-). unfold flt, fcompare. rewrite Ha, Ha', Hb, Hb'.
  cbn [orb]. unfold Z.ltb. destruct (_ ?= _); reflexivity.
Qed.

(** An integral double casts to its integer. *)
Lemma int_of_num r a n : is_num a (n * 2 ^ 1074) -> int_of r f64 a = n.
Proof.
  intros (_ & _ & E). unfold int_of. rewrite E. change (qmin f64) with (-1074).
  unfold round_int. change (0 <=? -1074) with false. cbv iota zeta.
  change (- -1074) with 1074. rewrite Z.div_mul, Z.mod_mul by lia.
  destruct r; try reflexivity. rewrite andb_false_r. reflexivity.
Qed.
