(* ===== verification/CompareProps.v ===== *)
(** The comparison handlers: the condition codes are the IEEE comparison of
    the operands, whichever handler computes them. *)

From S2P Require Import Prelude F64 X87State X87Props X87Runtime.

(** ** The bit tests of X87State.h are the IEEE classes *)

Lemma land_shl_mask b m k : 0 <= k ->
  Z.land b (Z.shiftl m k) = Z.shiftl (Z.land (Z.shiftr b k) m) k.
Proof.
  intros Hk. apply Z.bits_inj'. intros i Hi. rewrite Z.land_spec, !Z.shiftl_spec by lia.
  destruct (Z.ltb_spec i k).
  - rewrite !(Z.testbit_neg_r _ (i - k)) by lia. apply andb_false_r.
  - rewrite Z.land_spec, Z.shiftr_spec by lia. replace (i - k + k) with i by lia. reflexivity.
Qed.

Lemma shl_eqb x y k : 0 <= k -> (Z.shiftl x k =? Z.shiftl y k) = (x =? y).
Proof.
  intros Hk. rewrite !Z.shiftl_mul_pow2 by lia.
  pose proof (Z.pow_pos_nonneg 2 k ltac:(lia) Hk).
  destruct (Z.eqb_spec x y) as [->|Hne]; [apply Z.eqb_refl|].
  apply Z.eqb_neq. nia.
Qed.

Lemma exp_mask b : Z.land b 0x7FF0000000000000 = Z.shiftl (exp_of f64 b) 52.
Proof. apply (land_shl_mask b (Z.ones 11) 52). lia. Qed.

Lemma frac_mask b : Z.land b 0x000FFFFFFFFFFFFF = frac_of f64 b.
Proof. unfold frac_of, bits. rewrite Z.shiftr_0_r. reflexivity. Qed.

Lemma exp_max_test b :
  (Z.land b 0x7FF0000000000000 =? 0x7FF0000000000000) = (exp_of f64 b =? exp_ones f64).
Proof. rewrite exp_mask. apply (shl_eqb (exp_of f64 b) (Z.ones 11) 52). lia. Qed.

Lemma exp_min_test b : (Z.land b 0x7FF0000000000000 =? 0) = (exp_of f64 b =? 0).
Proof. rewrite exp_mask. apply (shl_eqb (exp_of f64 b) 0 52). lia. Qed.

Lemma x87_is_nan_spec b : x87_is_nan b = is_nan f64 b.
Proof. unfold x87_is_nan. rewrite exp_max_test, frac_mask. reflexivity. Qed.

(** ** Condition codes *)

(** C3, C2 and C0 for the outcome of a comparison (Intel SDM, FCOM). *)
Definition cc_bits (c : option comparison) : Z :=
  match c with
  | Some Gt => 0
  | Some Lt => kConditionCode0
  | Some Eq => kConditionCode3
  | None => kCC023
  end.

Lemma fcompare_swap f a b : fcompare f b a = option_map CompOpp (fcompare f a b).
Proof.
  unfold fcompare. rewrite (orb_comm (is_nan f b)).
  destruct (is_nan f a || is_nan f b); [reflexivity|]. cbn. rewrite Z.compare_antisym. reflexivity.
Qed.

Lemma fcompare_nan f a b : fcompare f a b = None <-> is_nan f a || is_nan f b = true.
Proof. unfold fcompare. destruct (is_nan f a || is_nan f b); split; congruence. Qed.

Lemma sw_or_0 s : 0 <= statusWord s < 2 ^ 16 -> sw_or s 0 = s.
Proof.
  intros H. unfold sw_or, with_sw. rewrite Z.lor_0_r, wrap_small by exact H. destruct s; reflexivity.
Qed.

Lemma sw_or_or s m n : sw_or (sw_or s m) n = sw_or s (Z.lor m n).
Proof.
  unfold sw_or, with_sw. cbn. f_equal.
  rewrite !wrap_lor, !wrap_wrap, Z.lor_assoc by lia. reflexivity.
Qed.

Lemma sw_clear_range s m : 0 <= statusWord (sw_clear s m) < 2 ^ 16.
Proof. apply (wrap_range 16). lia. Qed.

(** fcom, ficom and fucom all leave the codes of the comparison; fcom does so
    when the invalid-operation exception is masked. *)
Lemma unordered_codes_spec s a b :
  unordered_codes s a b (is_nan f64 a || is_nan f64 b) =
  sw_or (sw_clear s kCC023) (cc_bits (fcompare f64 a b)).
Proof.
  unfold unordered_codes, fgt, flt. rewrite (fcompare_swap f64 a b).
  destruct (is_nan f64 a || is_nan f64 b) eqn:E.
  - apply fcompare_nan in E. rewrite E. reflexivity.
  - destruct (fcompare f64 a b) as [[]|] eqn:C; cbn [option_map CompOpp cc_bits]; try reflexivity.
    + rewrite sw_or_0 by apply sw_clear_range. reflexivity.
    + apply fcompare_nan in C. congruence.
Qed.

Lemma fcom_codes_spec s clear a b :
  Z.land (controlWord s) kInvalidOpMask = kInvalidOpMask ->
  fcom_codes s clear a b = sw_or (sw_clear s clear) (cc_bits (fcompare f64 a b)).
Proof.
  intros Hm. unfold fcom_codes, fgt, flt. rewrite (fcompare_swap f64 a b), !x87_is_nan_spec.
  destruct (fcompare f64 a b) as [[]|] eqn:C;
    [ | | | pose proof (proj1 (fcompare_nan f64 a b) C) as E];
    try assert (E : is_nan f64 a || is_nan f64 b = false)
      by (apply not_true_iff_false; intros H; apply fcompare_nan in H; congruence);
    cbn [option_map CompOpp cc_bits]; rewrite E;
    cbn [controlWord sw_or sw_clear with_sw]; rewrite Hm;
    change (kInvalidOpMask =? kInvalidOpMask) with true; cbn iota.
  - reflexivity.
  - reflexivity.
  - rewrite sw_or_0 by apply sw_clear_range. reflexivity.
  - rewrite sw_or_or. reflexivity.
Qed.

Lemma getSt_nonempty s i : getStTag s i <> kEmpty -> getSt s i = (getStFast s i, s).
Proof.
  intros H. unfold getSt. unfold getStTag in H.
  destruct (tag_at s (getStIndex s i) =? kEmpty) eqn:E; [apply Z.eqb_eq in E; contradiction|].
  reflexivity.
Qed.

(** C15: on occupied registers the comparison handlers set C3, C2, C0 to the
    IEEE outcome of comparing ST(0) with the operand (greater 000, less 001,
    equal 100, unordered 111), clear exactly those codes first (fcom_f32 also
    C1), and then pop; FCOM does so with the invalid-operation exception
    masked, FUCOM and FICOM always. *)
Theorem compare_handlers_classify (s : X87State) (i n v : Z) (p : bool) :
  getStTag s 0 <> kEmpty -> getStTag s i <> kEmpty ->
  let st0 := getStFast s 0 in
  let codes clear src := sw_or (sw_clear s clear) (cc_bits (fcompare f64 st0 src)) in
  let finish t := if p then pop t else t in
  (Z.land (controlWord s) kInvalidOpMask = kInvalidOpMask ->
     x87_fcom_ST s i n = pop_n (codes kCC023 (getStFast s i)) n /\
     x87_fcom_f64 s v p = finish (codes kCC023 v) /\
     x87_fcom_f32 s v p = finish (codes kCC0123 (widen v))) /\
  x87_fucom s i n = pop_n (codes kCC023 (getStFast s i)) n /\
  (is_nan f64 (of_int f64 v) = false -> x87_ficom s v p = finish (codes kCC023 (of_int f64 v))).
Proof.
  intros H0 Hi. cbv zeta.
  unfold x87_fcom_ST, x87_fcom_f64, x87_fcom_f32, x87_fucom, x87_ficom.
  rewrite !(getSt_nonempty s 0 H0). rewrite !(getSt_nonempty s i Hi). split; [|split].
  - intros Hm. rewrite !fcom_codes_spec by exact Hm. auto.
  - rewrite !x87_is_nan_spec, unordered_codes_spec. reflexivity.
  - intros Hn. rewrite x87_is_nan_spec, <- (orb_false_r (is_nan f64 (getStFast s 0))), <- Hn.
    rewrite unordered_codes_spec. reflexivity.
Qed.

Lemma compare_handlers_classify_witness :
  let s := x87_fld_fp64 (x87_fld_fp64 X87State_init 0x4000000000000000) 0x3FF0000000000000 in
  x87_fucom s 1 1 = pop_n (sw_or (sw_clear s kCC023) kConditionCode0) 1.
Proof.
  cbv zeta.
  refine (proj1 (proj2 (compare_handlers_classify
    (x87_fld_fp64 (x87_fld_fp64 X87State_init 0x4000000000000000) 0x3FF0000000000000) 1 1 0 false _ _)));
    vm_compute; discriminate.
Defined.
