(* ===== verification/FistProps.v ===== *)
(** FIST, FISTT and FRNDINT: rounding in the mode of the control word, the
    range check on the rounded value, and the indefinite integer. *)

From S2P Require Import Prelude F64 X87State X87Props F64Props F64Exact X87Runtime CompareProps.

(** ** Rounding a number gives an integral number *)

Lemma exp_of_range b : 0 <= exp_of f64 b < 2 ^ 11.
Proof. unfold exp_of. rewrite bits_divmod by (cbn; lia). apply Z.mod_pos_bound. cbn; lia. Qed.

Lemma frac_of_range b : 0 <= frac_of f64 b < 2 ^ 52.
Proof. unfold frac_of. rewrite bits_divmod by (cbn; lia). apply Z.mod_pos_bound. cbn; lia. Qed.

Lemma scaled_shape b : is_nan f64 b = false -> is_inf f64 b = false ->
  exists m e, Z.abs (scaled f64 b) = m * 2 ^ e /\ 0 <= m < 2 ^ 53 /\ 0 <= e <= 2045.
Proof.
  intros Hn Hi. pose proof (exp_of_range b) as He. pose proof (frac_of_range b) as Hf.
  assert (Hne : exp_of f64 b <> 2047).
  { intros E. unfold is_nan, is_inf, nz in Hn, Hi. change (exp_ones f64) with 2047 in Hn, Hi.
    rewrite E in Hn, Hi. cbn [Z.eqb Pos.eqb andb] in Hn, Hi.
    destruct (frac_of f64 b =? 0); discriminate. }
  unfold scaled. destruct (Z.eqb_spec (exp_of f64 b) 0).
  - exists (frac_of f64 b), 0. split; [destruct (sign_of f64 b); lia | lia].
  - exists (frac_of f64 b + 2 ^ 52), (exp_of f64 b - 1). cbn [mw f64].
    rewrite Z.shiftl_mul_pow2 by lia. pose proof (Z.pow_pos_nonneg 2 (exp_of f64 b - 1)).
    split; [destruct (sign_of f64 b); nia | lia].
Qed.

(** A multiple of 2^1074 is its own quotient in every mode. *)
Lemma round_int_exact r n : round_int r (n * 2 ^ 1074) (-1074) = n.
Proof.
  unfold round_int. change (0 <=? -1074) with false. cbv iota zeta.
  change (- -1074) with 1074. rewrite Z.div_mul, Z.mod_mul by lia.
  destruct r; try reflexivity. rewrite andb_false_r. reflexivity.
Qed.

Lemma round_int_small r x : Z.abs x < 2 ^ 52 * 2 ^ 1074 -> Z.abs (round_int r x (-1074)) < 2 ^ 53.
Proof.
  intros Hx. unfold round_int. change (0 <=? -1074) with false. cbv iota zeta.
  change (- -1074) with 1074.
  assert (Hq : - 2 ^ 52 <= x / 2 ^ 1074 < 2 ^ 52).
  { split; [apply Z.div_le_lower_bound; lia | apply Z.div_lt_upper_bound; lia]. }
  assert (Hr : forall q, q = x / 2 ^ 1074 \/ q = x / 2 ^ 1074 + 1 -> Z.abs q < 2 ^ 53) by lia.
  apply Hr. destruct r; auto.
  - destruct (_ ?= _); auto. destruct (Z.even _); auto.
  - destruct (_ =? _); auto.
  - destruct (_ && _); auto.
Qed.

Lemma int_of_shape r b : is_nan f64 b = false -> is_inf f64 b = false ->
  exists m k, Z.abs (int_of r f64 b) = m * 2 ^ k /\ 0 <= m < 2 ^ 53 /\ 0 <= k /\ k + Z.log2 m <= 1023.
Proof.
  intros Hn Hi. destruct (scaled_shape b Hn Hi) as (m & e & E & Hm & He).
  assert (Hlog : Z.log2 m <= 52).
  { destruct (Z.eq_dec m 0) as [->|]; [cbn; lia|].
    assert (Z.log2 m < 53) by (apply Z.log2_lt_pow2; lia). lia. }
  unfold int_of. change (qmin f64) with (-1074).
  destruct (Z.leb_spec 1074 e) as [H|H].
  - assert (E' : exists n, scaled f64 b = n * 2 ^ 1074 /\ Z.abs n = m * 2 ^ (e - 1074)).
    { assert (Hp : m * 2 ^ e = m * 2 ^ (e - 1074) * 2 ^ 1074).
      { rewrite <- Z.mul_assoc, <- Z.pow_add_r by lia. do 2 f_equal. lia. }
      pose proof (Z.pow_pos_nonneg 2 (e - 1074)).
      destruct (Z.abs_spec (scaled f64 b)) as [[_ A]|[_ A]].
      - exists (m * 2 ^ (e - 1074)). split; [lia | nia].
      - exists (- (m * 2 ^ (e - 1074))). split; [lia | nia]. }
    destruct E' as (n & -> & En). rewrite round_int_exact. exists m, (e - 1074). lia.
  - exists (Z.abs (round_int r (scaled f64 b) (-1074))), 0.
    assert (Hs : Z.abs (scaled f64 b) < 2 ^ 52 * 2 ^ 1074).
    { rewrite E. assert (2 ^ e <= 2 ^ 1073) by (apply Z.pow_le_mono_r; lia).
      replace (2 ^ 52 * 2 ^ 1074) with (2 ^ 53 * 2 ^ 1073) by reflexivity. nia. }
    pose proof (round_int_small r _ Hs) as Hr. split; [lia|]. split; [lia|]. split; [lia|].
    destruct (Z.eq_dec (Z.abs (round_int r (scaled f64 b) (-1074))) 0) as [->|]; [cbn; lia|].
    assert (Z.log2 (Z.abs (round_int r (scaled f64 b) (-1074))) < 53) by (apply Z.log2_lt_pow2; lia). lia.
Qed.

Lemma round_integral_num r b : is_nan f64 b = false -> is_inf f64 b = false ->
  is_num (round_integral r f64 b) (int_of r f64 b * 2 ^ 1074).
Proof.
  intros Hn Hi. unfold round_integral. rewrite Hn, Hi. cbv zeta.
  destruct (Z.eqb_spec (int_of r f64 b) 0) as [->|Hz].
  - unfold is_num, is_nan, is_inf, scaled. rewrite pack_exp, pack_frac by lia.
    split; [reflexivity|]. split; [reflexivity|]. rewrite pack_sign by lia.
    destruct (sign_of f64 b); reflexivity.
  - destruct (int_of_shape r b Hn Hi) as (m & k & E & Hm & Hk & Hl).
    apply (of_int_num (int_of r f64 b) m k E Hm Hk Hl).
Qed.

Lemma round_integral_special r b :
  is_nan f64 b || is_inf f64 b = true ->
  is_nan f64 (round_integral r f64 b) || is_inf f64 (round_integral r f64 b) = true.
Proof.
  intros H. unfold round_integral. destruct (is_nan f64 b) eqn:En.
  - apply orb_true_iff. left. unfold is_nan in *. apply andb_true_iff in En as [E1 E2].
    apply andb_true_iff. split.
    + unfold exp_of, quiet in *. rewrite bits_lor. cbn [mw ew f64] in *.
      change (bits (2 ^ (52 - 1)) 52 11) with 0. rewrite Z.lor_0_r. exact E1.
    + unfold nz, frac_of, quiet in *. rewrite bits_lor. cbn [mw f64] in *.
      apply negb_true_iff, Z.eqb_neq. intros C. apply Z.lor_eq_0_iff in C as [_ C]. discriminate C.
  - cbn [orb] in H. rewrite H, En, H. reflexivity.
Qed.

(** Comparisons with a special operand. *)
Lemma special_bounds b lo hi x y :
  is_nan f64 b || is_inf f64 b = true -> is_num lo x -> is_num hi y ->
  - 2 ^ 2097 < x -> y < 2 ^ 2097 ->
  fle f64 lo b && fle f64 b hi = false /\ fle f64 lo b && flt f64 b hi = false.
Proof.
  intros Hs (Hl & Hl' & <-) (Hh & Hh' & <-) Hx Hy. unfold fle, flt, fcompare.
  rewrite Hl, Hh, Hl', Hh'. destruct (is_nan f64 b); cbn [orb] in *; [auto|].
  rewrite Hs. change (2 ^ ew f64 + mw f64) with 2100.
  destruct (sign_of f64 b).
  - replace (scaled f64 lo ?= - 2 ^ 2100) with Gt; [auto|]. symmetry. apply Z.compare_gt_iff. lia.
  - replace (2 ^ 2100 ?= scaled f64 hi) with Gt; [rewrite !andb_false_r; auto|].
    symmetry. apply Z.compare_gt_iff. lia.
Qed.

(** ** The integer stores *)

(** The integer [value] rounds to in mode [r], when it is a number and the
    integer lies in [lo, hi]. *)
Definition fist_value (r : rmode) (lo hi value : Z) : option Z :=
  if is_nan f64 value || is_inf f64 value then None
  else
    let n := int_of r f64 value in
    if (lo <=? n) && (n <=? hi) then Some n else None.

(** The masked response: the indefinite integer and C1. *)
Definition fist_result (lo sw : Z) (v : option Z) : X87ResultStatusWord :=
  match v with
  | Some n => mkResult n sw
  | None => mkResult lo (u16 (Z.lor sw kConditionCode1))
  end.

Lemma scale_leb a b : (a * 2 ^ 1074 <=? b * 2 ^ 1074) = (a <=? b).
Proof.
  apply eq_true_iff_eq. rewrite !Z.leb_le. rewrite <- Z.mul_le_mono_pos_r by lia. reflexivity.
Qed.

Lemma scale_ltb a b : (a * 2 ^ 1074 <? b * 2 ^ 1074) = (a <=? b - 1).
Proof.
  apply eq_true_iff_eq. rewrite Z.ltb_lt, Z.leb_le, <- Z.mul_lt_mono_pos_r by lia. lia.
Qed.

(** The range test on the rounded double is the range test on the integer. *)
Lemma fist_range r lo hi flo fhi value :
  is_num flo (lo * 2 ^ 1074) -> is_num fhi (hi * 2 ^ 1074) -> - 2 ^ 64 < lo -> hi < 2 ^ 64 ->
  let t := round_integral r f64 value in
  fle f64 flo t && fle f64 t fhi =
    match fist_value r lo hi value with Some _ => true | None => false end /\
  fle f64 flo t && flt f64 t fhi =
    match fist_value r lo (hi - 1) value with Some _ => true | None => false end.
Proof.
  intros Hl Hh Bl Bh t. unfold fist_value.
  destruct (is_nan f64 value || is_inf f64 value) eqn:E.
  - apply (special_bounds t flo fhi (lo * 2 ^ 1074) (hi * 2 ^ 1074)); try assumption; try lia.
    apply round_integral_special, E.
  - apply orb_false_iff in E as [En Ei]. pose proof (round_integral_num r value En Ei) as Ht.
    rewrite (fle_num flo t _ _ Hl Ht), (fle_num t fhi _ _ Ht Hh), (flt_num t fhi _ _ Ht Hh).
    rewrite !scale_leb, scale_ltb. cbv zeta.
    split; [destruct (_ && (_ <=? hi)) | destruct (_ && (_ <=? hi - 1))]; reflexivity.
Qed.

Lemma cast_rounded r lo hi value n :
  fist_value r lo hi value = Some n ->
  lo <= n <= hi /\ cast_int f64 (round_integral r f64 value) = n.
Proof.
  unfold fist_value. destruct (is_nan f64 value || is_inf f64 value) eqn:E; [discriminate|].
  apply orb_false_iff in E as [En Ei]. cbv zeta.
  destruct ((lo <=? _) && (_ <=? hi)) eqn:B; [|discriminate]. intros [= <-].
  apply andb_true_iff in B as [B1 B2]. apply Z.leb_le in B1, B2.
  split; [lia | apply int_of_num, round_integral_num; assumption].
Qed.

(** One handler: [w]-bit, closed upper bound. *)
Lemma fist_closed w r lo hi flo fhi value sw :
  0 < w -> lo = - 2 ^ (w - 1) -> hi = 2 ^ (w - 1) - 1 -> w <= 64 ->
  is_num flo (lo * 2 ^ 1074) -> is_num fhi (hi * 2 ^ 1074) ->
  let t := round_integral r f64 value in
  (if negb (fle f64 flo t && fle f64 t fhi) then mkResult lo (u16 (Z.lor sw kConditionCode1))
   else mkResult (sgn w (cast_int f64 t)) sw) = fist_result lo sw (fist_value r lo hi value).
Proof.
  intros Hw -> -> Hw' Hl Hh t.
  assert (2 ^ (w - 1) < 2 ^ 64) by (apply Z.pow_lt_mono_r; lia).
  pose proof (Z.pow_pos_nonneg 2 (w - 1) ltac:(lia) ltac:(lia)).
  destruct (fist_range r _ _ flo fhi value Hl Hh ltac:(lia) ltac:(lia)) as [E _].
  cbv zeta in E. fold t in E. rewrite E.
  destruct (fist_value r _ _ value) as [n|] eqn:F; [|reflexivity].
  apply cast_rounded in F as [B C]. fold t in C. rewrite C. cbn [negb fist_result].
  rewrite sgn_small by lia. reflexivity.
Qed.

(** The 64-bit handlers test against 2^63 with a strict bound. *)
Lemma fist_open r value sw :
  let t := round_integral r f64 value in
  (if negb (fle f64 0xC3E0000000000000 t && flt f64 t 0x43E0000000000000)
   then mkResult (-9223372036854775808) (u16 (Z.lor sw kConditionCode1))
   else mkResult (s64 (cast_int f64 t)) sw) =
  fist_result (- 2 ^ 63) sw (fist_value r (- 2 ^ 63) (2 ^ 63 - 1) value).
Proof.
  intros t.
  assert (Hl : is_num 0xC3E0000000000000 (- 2 ^ 63 * 2 ^ 1074)) by (vm_compute; auto).
  assert (Hh : is_num 0x43E0000000000000 (2 ^ 63 * 2 ^ 1074)) by (vm_compute; auto).
  destruct (fist_range r _ _ _ _ value Hl Hh ltac:(lia) ltac:(lia)) as [_ E].
  cbv zeta in E. fold t in E. rewrite E.
  destruct (fist_value r (- 2 ^ 63) (2 ^ 63 - 1) value) as [n|] eqn:F; [|reflexivity].
  apply cast_rounded in F as [B C]. fold t in C. rewrite C. cbn [negb fist_result].
  rewrite sgn_small by lia. reflexivity.
Qed.

(** C16: on an occupied ST(0), every FIST (in the control word's rounding mode)
    and FISTT (towards zero) returns the correctly rounded integer when it
    fits the destination, and otherwise - NaN and infinities included - the
    indefinite integer with C1 set; the range is checked after rounding. *)
Theorem fist_correct (s : X87State) :
  getStTag s 0 <> kEmpty ->
  let v := getStFast s 0 in
  let r := rc_mode (controlWord s) in
  let sw := u16 (Z.land (statusWord s) (Z.lnot kConditionCode1)) in
  let store r w := fist_result (- 2 ^ (w - 1)) sw (fist_value r (- 2 ^ (w - 1)) (2 ^ (w - 1) - 1) v) in
  (x87_fist_i16 s = store r 16 /\ x87_fist_i32 s = store r 32 /\ x87_fist_i64 s = store r 64) /\
  (x87_fistt_i16 s = store RZero 16 /\ x87_fistt_i32 s = store RZero 32 /\
   x87_fistt_i64 s = store RZero 64).
Proof.
  intros H0. cbv zeta.
  assert (G : getStConst s 0 = (getStFast s 0, u16 (Z.land (statusWord s) (Z.lnot kConditionCode1)))).
  { unfold getStConst. unfold getStTag in H0.
    destruct (Z.eqb_spec (tag_at s (getStIndex s 0)) kEmpty); [contradiction | reflexivity]. }
  assert (L16 : is_num 0xC0E0000000000000 (- 2 ^ 15 * 2 ^ 1074)) by (vm_compute; auto).
  assert (U16 : is_num 0x40DFFFC000000000 ((2 ^ 15 - 1) * 2 ^ 1074)) by (vm_compute; auto).
  assert (L32 : is_num 0xC1E0000000000000 (- 2 ^ 31 * 2 ^ 1074)) by (vm_compute; auto).
  assert (U32 : is_num 0x41DFFFFFFFC00000 ((2 ^ 31 - 1) * 2 ^ 1074)) by (vm_compute; auto).
  unfold x87_fist_i16, x87_fist_i32, x87_fist_i64, x87_fistt_i16, x87_fistt_i32, x87_fistt_i64,
    x87_round_by_rc.
  rewrite G. repeat split;
    first [ apply fist_open | apply (fist_closed 16); (reflexivity || lia || assumption)
          | apply (fist_closed 32); (reflexivity || lia || assumption) ].
Qed.

Lemma fist_correct_witness :
  signedResult (x87_fist_i16 (x87_fld_fp64 X87State_init 0x40DFFFD000000000)) = 32767.
Proof.
  assert (H : getStTag (x87_fld_fp64 X87State_init 0x40DFFFD000000000) 0 <> kEmpty)
    by (vm_compute; discriminate).
  rewrite (proj1 (proj1 (fist_correct _ H))). vm_compute. reflexivity.
Defined.
