(* ===== verification/Float80Props.v ===== *)
(** The 80-bit store and load: FSTP m80 followed by FLD m80. *)

From S2P Require Import Prelude F64 X87State X87Props F64Props F64Exact X87Runtime CompareProps FistProps.

Lemma lor_add x y k : 0 <= k -> 0 <= y < 2 ^ k -> Z.lor (x * 2 ^ k) y = x * 2 ^ k + y.
Proof.
  intros Hk Hy. rewrite <- Z.add_lor_land.
  replace (Z.land (x * 2 ^ k) y) with 0; [lia|]. symmetry. apply Z.bits_inj'. intros i Hi. rewrite Z.land_spec, Z.bits_0.
  destruct (Z.ltb_spec i k).
  - rewrite Z.mul_pow2_bits_low by lia. reflexivity.
  - rewrite <- (Z.mod_small y (2 ^ k)) by lia. rewrite Z.mod_pow2_bits_high by lia.
    apply andb_false_r.
Qed.

(** A double in its fields. *)
Lemma double_split b : in64 b ->
  exists s e m, b = s * 2 ^ 63 + e * 2 ^ 52 + m /\ 0 <= s <= 1 /\ e = exp_of f64 b /\
    m = frac_of f64 b /\ (s = b2z (sign_of f64 b)).
Proof.
  intros Hb. unfold in64 in Hb. exists (b / 2 ^ 63), (exp_of f64 b), (frac_of f64 b).
  assert (Hs : 0 <= b / 2 ^ 63 <= 1).
  { split; [apply Z.div_pos; lia|]. apply Z.lt_succ_r, Z.div_lt_upper_bound; lia. }
  split; [|split; [exact Hs|split; [reflexivity|split; [reflexivity|]]]].
  - unfold exp_of, frac_of. rewrite !bits_divmod by (cbn; lia). cbn [mw ew f64].
    rewrite Z.pow_0_r, Z.div_1_r.
    pose proof (Z.div_mod b (2 ^ 52) ltac:(lia)) as E1.
    pose proof (Z.div_mod (b / 2 ^ 52) (2 ^ 11) ltac:(lia)) as E2.
    rewrite Z.div_div in E2 by lia. change (2 ^ 52 * 2 ^ 11) with (2 ^ 63) in E2.
    change (2 ^ 63) with (2 ^ 52 * 2 ^ 11) at 2. nia.
  - unfold sign_of. cbn [mw ew f64]. change (52 + 11) with 63. rewrite Z.testbit_eqb by lia.
    destruct (Z.eqb_spec ((b / 2 ^ 63) mod 2) 1) as [E|E]; cbn; [|];
      assert (b / 2 ^ 63 = 0 \/ b / 2 ^ 63 = 1) as [Q|Q] by lia; rewrite Q in *; cbn in *; lia.
Qed.

Definition fst_fp80_value (b : Z) : X87Float80 :=
  let mantissa := Z.land b 0xFFFFFFFFFFFFF in
  let exp := Z.land (Z.shiftr b 52) 0x7FF in
  let sign := u16 (Z.shiftl (Z.shiftr b 63) 15) in
  if exp =? 0 then mkF80 0 sign
  else if exp =? 0x7FF then
    mkF80 (Z.lor (u64 (Z.shiftl mantissa 11)) 0x8000000000000000) (Z.lor sign 0x7FFF)
  else
    mkF80 (Z.lor (u64 (Z.shiftl mantissa 11)) 0x8000000000000000)
          (Z.lor sign (u16 (exp + 16383 - 1023))).

Lemma fst_fp80_occupied s : getStTag s 0 <> kEmpty ->
  fst (x87_fst_fp80 s) = fst_fp80_value (getStFast s 0).
Proof.
  intros H0. unfold x87_fst_fp80, getStConst, getStTag in *.
  destruct (Z.eqb_spec (tag_at s (getStIndex s 0)) kEmpty); [contradiction|].
  unfold fst_fp80_value, getStFast.
  destruct (_ =? 0); [reflexivity|]. destruct (_ =? 0x7FF); reflexivity.
Qed.

(** The packed fields of the stored extended value. *)
Lemma fst_fp80_fields b s e m :
  b = s * 2 ^ 63 + e * 2 ^ 52 + m -> 0 <= s <= 1 -> 0 <= e < 2 ^ 11 -> 0 <= m < 2 ^ 52 ->
  fst_fp80_value b =
    if e =? 0 then mkF80 0 (s * 2 ^ 15)
    else mkF80 (2 ^ 63 + m * 2 ^ 11) (s * 2 ^ 15 + (if e =? 2047 then 2 ^ 15 - 1 else e + 15360)).
Proof.
  intros Hb Hs He Hm. unfold fst_fp80_value.
  replace (Z.land b 0xFFFFFFFFFFFFF) with m.
  2:{ change 0xFFFFFFFFFFFFF with (Z.ones 52). rewrite Z.land_ones, Hb by lia.
      replace (s * 2 ^ 63 + e * 2 ^ 52 + m) with (m + (s * 2 ^ 11 + e) * 2 ^ 52) by lia.
      rewrite Z_mod_plus_full, Z.mod_small; lia. }
  replace (Z.land (Z.shiftr b 52) 0x7FF) with e.
  2:{ change 0x7FF with (Z.ones 11). rewrite Z.land_ones, Z.shiftr_div_pow2, Hb by lia.
      replace (s * 2 ^ 63 + e * 2 ^ 52 + m) with ((s * 2 ^ 11 + e) * 2 ^ 52 + m) by lia.
      rewrite Z.div_add_l, (Z.div_small m), Z.add_0_r by lia.
      rewrite Z.add_comm, Z_mod_plus_full, Z.mod_small; lia. }
  replace (Z.shiftr b 63) with s.
  2:{ rewrite Z.shiftr_div_pow2, Hb by lia.
      apply Z.div_unique with (e * 2 ^ 52 + m); lia. }
  cbv zeta. rewrite !Z.shiftl_mul_pow2 by lia. rewrite (wrap_small 16 (s * 2 ^ 15)) by lia.
  destruct (e =? 0); [reflexivity|].
  rewrite (wrap_small 64 (m * 2 ^ 11)) by lia.
  assert (Hl : Z.lor (m * 2 ^ 11) 0x8000000000000000 = 2 ^ 63 + m * 2 ^ 11).
  { rewrite Z.lor_comm. apply (lor_add 1 (m * 2 ^ 11) 63); lia. }
  rewrite Hl. change 0x7FF with 2047.
  destruct (Z.eqb_spec e 2047).
  - rewrite lor_add by lia. reflexivity.
  - rewrite (wrap_small 16 (e + 16383 - 1023)), lor_add by lia. f_equal. lia.
Qed.

Lemma sign_bits s f : 0 <= s <= 1 -> 0 <= f < 2 ^ 15 ->
  Z.land (s * 2 ^ 15 + f) 0x7FFF = f /\ nz (Z.land (s * 2 ^ 15 + f) 0x8000) = (s =? 1).
Proof.
  intros Hs Hf. split.
  - change 0x7FFF with (Z.ones 15). rewrite Z.land_ones by lia.
    rewrite Z.add_comm, Z_mod_plus_full, Z.mod_small; lia.
  - change 0x8000 with (Z.shiftl (Z.ones 1) 15). rewrite land_shl_mask, Z.shiftr_div_pow2 by lia.
    rewrite Z.div_add_l, (Z.div_small f), Z.add_0_r by lia.
    assert (s = 0 \/ s = 1) as [-> | ->] by lia; reflexivity.
Qed.

(** Loading back what was stored. *)
Lemma convert_fst_fp80 b s e m :
  b = s * 2 ^ 63 + e * 2 ^ 52 + m -> 0 <= s <= 1 -> 0 <= e < 2 ^ 11 -> 0 <= m < 2 ^ 52 ->
  ConvertX87RegisterToFloat64 (fst_fp80_value b) =
    if e =? 0 then (s * 2 ^ 63, 0)
    else if (e =? 2047) && nz m then (s * 2 ^ 63 + 0x7FF8000000000000, kInvalidOperation)
    else (b, 0).
Proof.
  intros Hb Hs He Hm. rewrite (fst_fp80_fields b s e m Hb Hs He Hm).
  assert (Hsg : forall c, c = (s =? 1) -> (if c then 0x8000000000000000 else 0) = s * 2 ^ 63).
  { intros c ->. assert (s = 0 \/ s = 1) as [-> | ->] by lia; reflexivity. }
  unfold ConvertX87RegisterToFloat64. destruct (Z.eqb_spec e 0) as [E0|E0].
  - cbn [mantissa exponent]. destruct (sign_bits s 0 Hs ltac:(lia)) as [_ S].
    rewrite Z.add_0_r in S. rewrite (Hsg _ S). reflexivity.
  - set (f := if e =? 2047 then 2 ^ 15 - 1 else e + 15360).
    assert (Hf : 0 <= f < 2 ^ 15) by (subst f; destruct (e =? 2047); lia).
    cbn [mantissa exponent]. destruct (sign_bits s f Hs Hf) as [F S]. rewrite F, (Hsg _ S).
    replace (2 ^ 63 + m * 2 ^ 11 =? 0) with false by (symmetry; apply Z.eqb_neq; lia).
    destruct (Z.eqb_spec e 2047) as [E1|E1].
    + subst f. change (2 ^ 15 - 1 =? 0x7FFF) with true. cbv iota. cbn [andb].
      change 0x8000000000000000 with (2 ^ 63).
      unfold nz. destruct (Z.eqb_spec m 0) as [Em|Em].
      * rewrite Em, Z.mul_0_l, Z.add_0_r, Z.eqb_refl. cbn [negb]. rewrite lor_add by lia.
        f_equal. subst. lia.
      * replace (2 ^ 63 + m * 2 ^ 11 =? 2 ^ 63) with false by (symmetry; apply Z.eqb_neq; lia).
        cbn [negb]. rewrite lor_add by lia. reflexivity.
    + subst f. cbn [andb].
      replace (e + 15360 =? 0x7FFF) with false by (symmetry; apply Z.eqb_neq; lia).
      replace (e + 15360 - 16383 + 1023) with e by lia. cbv zeta.
      replace (e <=? 0) with false by (symmetry; apply Z.leb_gt; lia). cbn [andb].
      replace (2047 <=? e) with false by (symmetry; apply Z.leb_gt; lia).
      set (M := 2 ^ 63 + m * 2 ^ 11).
      assert (R : forall k, 0 <= k <= 10 -> Z.shiftr M k = (2 ^ 52 + m) * 2 ^ (11 - k)).
      { intros k Hk. subst M. rewrite Z.shiftr_div_pow2 by lia.
        replace (2 ^ 63 + m * 2 ^ 11) with ((2 ^ 52 + m) * 2 ^ (11 - k) * 2 ^ k).
        - apply Z.div_mul. pose proof (Z.pow_pos_nonneg 2 k). lia.
        - rewrite <- Z.mul_assoc, <- Z.pow_add_r by lia. replace (11 - k + k) with 11 by lia. lia. }
      replace (Z.land (Z.shiftr M 11) 0xFFFFFFFFFFFFF) with m.
      2:{ subst M. rewrite Z.shiftr_div_pow2 by lia.
          replace (2 ^ 63 + m * 2 ^ 11) with ((2 ^ 52 + m) * 2 ^ 11) by lia.
          rewrite Z.div_mul by lia. change 0xFFFFFFFFFFFFF with (Z.ones 52).
          rewrite Z.land_ones by lia. replace (2 ^ 52 + m) with (m + 1 * 2 ^ 52) by lia.
          rewrite Z_mod_plus_full, Z.mod_small; lia. }
      replace (Z.land (Z.shiftr M 10) 1) with 0.
      2:{ rewrite (R 10) by lia. change 1 with (Z.ones 1). rewrite Z.land_ones by lia.
          symmetry. apply Z.mod_mul. lia. }
      replace (Z.land M (Z.shiftl 1 10 - 1)) with 0.
      2:{ change (Z.shiftl 1 10 - 1) with (Z.ones 10). rewrite Z.land_ones by lia. subst M.
          replace (2 ^ 63 + m * 2 ^ 11) with ((2 ^ 53 + m * 2) * 2 ^ 10) by lia.
          symmetry. apply Z.mod_mul. lia. }
      change (nz 0 || nz (b2z (nz 0))) with false. change (nz 0 && _) with false. cbv iota.
      rewrite Z.shiftl_mul_pow2 by lia. f_equal.
      rewrite (lor_add s (e * 2 ^ 52) 63) by lia.
      replace (s * 2 ^ 63 + e * 2 ^ 52) with ((s * 2 ^ 11 + e) * 2 ^ 52) by lia.
      rewrite lor_add by lia. subst b. lia.
Qed.

(** C17: storing an occupied ST(0) as an 80-bit real and loading it back pushes
    the same double, without raising a flag, for every normal number, zero and
    infinity; a subnormal comes back as a zero of its sign, a NaN as the quiet
    NaN of its sign with the invalid-operation flag. *)
Theorem fp80_roundtrip (s t : X87State) :
  wf s -> wf t -> getStTag s 0 <> kEmpty ->
  let b := getStFast s 0 in
  let reload := x87_fld_fp80 t (fst (x87_fst_fp80 s)) in
  let signed z := Z.lor (Z.land b 0x8000000000000000) z in
  reload =
    if x87_is_subnormal b then x87_fld_fp64 t (signed 0)
    else if x87_is_nan b then x87_fld_fp64 (sw_or t kInvalidOperation) (signed 0x7FF8000000000000)
    else x87_fld_fp64 t b.
Proof.
  intros Hs Ht H0. cbv zeta. rewrite fst_fp80_occupied by exact H0.
  set (b := getStFast s 0). assert (Hb : in64 b) by (apply in64_getStFast, Hs). clearbody b.
  destruct (double_split b Hb) as (g & e & m & Eb & Hg & Ee & Em & _).
  pose proof (exp_of_range b) as He. pose proof (frac_of_range b) as Hm. rewrite <- Ee in He.
  rewrite <- Em in Hm. unfold x87_fld_fp80. rewrite (convert_fst_fp80 b g e m Eb Hg He Hm).
  assert (Hsign : Z.land b 0x8000000000000000 = g * 2 ^ 63).
  { change 0x8000000000000000 with (Z.shiftl (Z.ones 1) 63).
    rewrite land_shl_mask, Z.shiftr_div_pow2 by lia.
    replace (b / 2 ^ 63) with g by (apply Z.div_unique with (e * 2 ^ 52 + m); lia).
    rewrite Z.land_ones, Z.shiftl_mul_pow2, Z.mod_small; lia. }
  unfold x87_is_subnormal, x87_is_nan. rewrite exp_min_test, exp_max_test, frac_mask, <- Ee, <- Em.
  change (exp_ones f64) with 2047. rewrite Hsign. unfold x87_fld_fp64.
  pose proof (sw_or_0 t (wf_sw t Ht)) as T0.
  destruct (Z.eqb_spec e 0) as [E0|E0].
  - unfold nz. destruct (Z.eqb_spec m 0) as [M0|M0]; cbn [negb andb].
    + rewrite T0. replace (e =? 2047) with false by (symmetry; apply Z.eqb_neq; lia). cbn [andb].
      replace (g * 2 ^ 63) with b by lia. reflexivity.
    + rewrite T0, Z.lor_0_r. reflexivity.
  - cbn [andb]. destruct ((e =? 2047) && nz m).
    + rewrite lor_add by lia. reflexivity.
    + rewrite T0. reflexivity.
Qed.

Lemma fp80_roundtrip_witness :
  let s := x87_fld_fp64 X87State_init 0xC00921FB54442D18 in
  x87_fld_fp80 X87State_init (fst (x87_fst_fp80 s)) = x87_fld_fp64 X87State_init 0xC00921FB54442D18.
Proof.
  cbv zeta. set (s := x87_fld_fp64 X87State_init 0xC00921FB54442D18).
  pose proof wf_init as Hi.
  assert (Hs : wf s).
  { apply eff_wf with (s := X87State_init) (d := -1) (W := [-1; -1]).
    apply (effect_setSt X87State_init _ (-1) [-1] 0); [|unfold in64; lia].
    apply (effect_push X87State_init _ 0 []), effect_refl, Hi. }
  assert (Ht : getStTag s 0 <> kEmpty) by (vm_compute; discriminate).
  rewrite (fp80_roundtrip s X87State_init Hs Hi Ht). vm_compute. reflexivity.
Defined.
