(* ===== verification/BcdProps.v ===== *)
(** Packed BCD: FBSTP followed by FBLD. *)

From S2P Require Import Prelude F64 X87State X87Props F64Props F64Exact X87Runtime CompareProps.
From S2P Require Import FistProps Float80Props.
From Corelib Require Import SpecFloat.

(** ** Bytes *)

Definition byte (b : Z) : Prop := 0 <= b < 256.

Lemma le_value_nonneg l : Forall byte l -> 0 <= le_value l.
Proof.
  induction 1 as [|b l Hb _ IH]; cbn [le_value]; [lia|]. unfold byte in Hb.
  apply Z.lor_nonneg. split; [lia|]. apply Z.shiftl_nonneg, IH.
Qed.

Lemma le_bytes_value n l : Forall byte l -> (n <= length l)%nat -> le_bytes n (le_value l) = firstn n l.
Proof.
  intros H. revert n. induction H as [|b l Hb Hl IH]; intros [|n] Hn; cbn [length] in Hn; try lia; [reflexivity|reflexivity|].
  cbn [le_value le_bytes firstn]. unfold byte in Hb.
  assert (E : Z.lor b (Z.shiftl (le_value l) 8) = le_value l * 2 ^ 8 + b).
  { rewrite Z.lor_comm, Z.shiftl_mul_pow2, lor_add by lia. reflexivity. }
  rewrite E. f_equal.
  - change 0xFF with (Z.ones 8). rewrite Z.land_ones by lia.
    rewrite Z.add_comm, Z_mod_plus_full. apply Z.mod_small. lia.
  - rewrite Z.shiftr_div_pow2, Z.div_add_l, (Z.div_small b), Z.add_0_r by lia. apply IH. lia.
Qed.

(** ** Digits *)

Lemma pack_digits a b : 0 <= a < 10 -> 0 <= b < 10 ->
  let p := u8 (Z.lor a (Z.shiftl b 4)) in
  byte p /\ Z.land p 0x0F = a /\ Z.land (Z.shiftr p 4) 0x0F = b.
Proof.
  intros Ha Hb p.
  assert (E : p = b * 2 ^ 4 + a).
  { subst p. rewrite Z.lor_comm, Z.shiftl_mul_pow2, lor_add, wrap_small by lia. reflexivity. }
  rewrite E. change 0x0F with (Z.ones 4). rewrite !Z.land_ones, Z.shiftr_div_pow2 by lia.
  unfold byte. split; [lia|]. split.
  - rewrite Z.add_comm, Z_mod_plus_full. apply Z.mod_small. lia.
  - rewrite Z.div_add_l, (Z.div_small a), Z.add_0_r by lia. apply Z.mod_small. lia.
Qed.

Lemma bcd_loop_spec n x :
  0 <= x ->
  let '(ds, remaining) := bcd_loop n x in
  length ds = n /\ Forall byte ds /\ remaining = x / 100 ^ Z.of_nat n /\
  forall tmp mult, 0 <= tmp -> 0 <= mult ->
    tmp + mult * (x mod 100 ^ Z.of_nat n) < 2 ^ 64 -> mult * 100 ^ Z.of_nat n < 2 ^ 64 ->
    BCD2Double_loop ds tmp mult = (tmp + mult * (x mod 100 ^ Z.of_nat n), mult * 100 ^ Z.of_nat n).
Proof.
  revert x. induction n as [|n IH]; intros x Hx.
  - cbn [bcd_loop]. change (100 ^ Z.of_nat 0) with 1. rewrite Z.div_1_r, Z.mod_1_r.
    repeat split; auto. intros. cbn [BCD2Double_loop]. f_equal; lia.
  - cbn [bcd_loop]. specialize (IH (x / 10 / 10) ltac:(apply Z.div_pos; [apply Z.div_pos|]; lia)).
    destruct (bcd_loop n (x / 10 / 10)) as [ds remaining]. destruct IH as (Hl & Hb & Hr & Hd).
    assert (H100 : 100 ^ Z.of_nat (S n) = 100 * 100 ^ Z.of_nat n)
      by (rewrite Nat2Z.inj_succ, Z.pow_succ_r by lia; reflexivity).
    pose proof (Z.pow_pos_nonneg 100 (Z.of_nat n) ltac:(lia) ltac:(lia)) as Hp.
    set (P := 100 ^ Z.of_nat n) in *. rewrite H100.
    pose proof (Z.mod_pos_bound x 10 ltac:(lia)) as Ha.
    pose proof (Z.mod_pos_bound (x / 10) 10 ltac:(lia)) as Hb'.
    rewrite (wrap_small 8 (x mod 10)), (wrap_small 8 ((x / 10) mod 10)) by lia.
    destruct (pack_digits (x mod 10) ((x / 10) mod 10) Ha Hb') as (Bp & D1 & D2).
    assert (Em : x mod (100 * P) = x mod 10 + 10 * ((x / 10) mod 10) + 100 * ((x / 10 / 10) mod P)).
    { rewrite Z.rem_mul_r by lia. replace (x / 100) with (x / 10 / 10) by (rewrite Z.div_div by lia; reflexivity).
      change 100 with (10 * 10) at 1. rewrite Z.rem_mul_r by lia. reflexivity. }
    split; [cbn; lia|]. split; [constructor; assumption|]. split.
    { rewrite Hr, !Z.div_div by lia. f_equal. lia. }
    intros tmp mult Ht Hmu Hsum Hmul. cbn [BCD2Double_loop]. rewrite D1, D2, Em in *.
    pose proof (Z.mod_pos_bound (x / 10 / 10) P Hp) as Hq.
    set (a := x mod 10) in *. set (b := (x / 10) mod 10) in *. set (q := (x / 10 / 10) mod P) in *.
    clearbody a b q. clear D1 D2 Em Hr H100.
    assert (mult * 100 < 2 ^ 64) by nia.
    rewrite (wrap_small 64 (mult * a)) by nia. rewrite (wrap_small 64 (tmp + mult * a)) by nia.
    rewrite (wrap_small 64 (mult * 10)) by nia.
    rewrite (wrap_small 64 (mult * 10 * b)) by nia.
    rewrite (wrap_small 64 (tmp + mult * a + mult * 10 * b)) by nia.
    rewrite (wrap_small 64 (mult * 10 * 10)) by nia.
    rewrite Hd; [f_equal; ring | nia | nia | nia | nia].
Qed.

(** ** Signs *)

Lemma fneg_pack s e m : 0 <= e < 2 ^ 11 -> 0 <= m < 2 ^ 52 ->
  fneg f64 (pack f64 s e m) = pack f64 (negb s) e m.
Proof.
  intros He Hm. unfold fneg. cbn [mw ew f64]. change (52 + 11) with 63. rewrite !pack_eq by lia.
  assert (L : forall x, 0 <= x < 2 ^ 63 -> Z.lxor x (2 ^ 63) = x + 2 ^ 63).
  { intros x Hx. symmetry. apply Z.add_nocarry_lxor. apply Z.bits_inj'. intros i Hi.
    rewrite Z.land_spec, Z.bits_0, Z.pow2_bits_eqb by lia.
    destruct (Z.eqb_spec 63 i) as [<-|]; [|apply andb_false_r].
    rewrite <- (Z.mod_small x (2 ^ 63)) by lia. rewrite Z.mod_pow2_bits_high by lia. reflexivity. }
  destruct s; cbn [b2z negb].
  - replace ((1 * 2 ^ 11 + e) * 2 ^ 52 + m) with (e * 2 ^ 52 + m + 2 ^ 63) by lia.
    rewrite <- (L (e * 2 ^ 52 + m)) by lia. rewrite Z.lxor_assoc, Z.lxor_nilpotent, Z.lxor_0_r. lia.
  - rewrite L by lia. lia.
Qed.

Lemma binary_round_aux_opp s m e l :
  match binary_round_aux 53 1024 s m e l with
  | S754_nan => True
  | x => binary_round_aux 53 1024 (negb s) m e l = SFopp x
  end.
Proof.
  unfold binary_round_aux. destruct (shr_fexp 53 1024 m e l) as [r1 e1].
  destruct (shr_fexp 53 1024 _ e1 loc_Exact) as [r2 e2].
  destruct (shr_m r2); cbn [SFopp]; auto. destruct (_ <=? _); reflexivity.
Qed.

Lemma of_int_neg n m k :
  n = m * 2 ^ k -> 0 < m < 2 ^ 53 -> 0 <= k -> k + Z.log2 m <= 1023 ->
  of_int f64 (- n) = fneg f64 (of_int f64 n).
Proof.
  intros Hn Hm Hk Hl. pose proof (Z.pow_pos_nonneg 2 k ltac:(lia) Hk).
  destruct (round_exact false m k Hm Hk Hl) as (p & e & E & Hp & He & _).
  destruct (round_exact true m k Hm Hk Hl) as (p' & e' & E' & Hp' & He' & _).
  unfold of_int, binary_normalize. change (prec f64) with 53. change (emax f64) with 1024.
  rewrite <- Hn in E, E'. destruct n as [|x|x]; try nia. cbn [Z.opp Z.to_pos] in *.
  assert (Eo : binary_round 53 1024 true x 0 = SFopp (binary_round 53 1024 false x 0)).
  { unfold binary_round in *. destruct (shl_align _ _ _) as [mz ez].
    pose proof (binary_round_aux_opp false (Zpos mz) ez loc_Exact) as H1. rewrite E in *. exact H1. }
  rewrite Eo, E. cbn [SFopp negb]. unfold to_bits. cbn [mw f64].
  replace (Zpos p <? 2 ^ 52) with false by (symmetry; apply Z.ltb_ge; lia).
  change (qmin f64) with (-1074). rewrite fneg_pack by lia. reflexivity.
Qed.

Lemma fabs_fields b :
  exp_of f64 (fabs f64 b) = exp_of f64 b /\ frac_of f64 (fabs f64 b) = frac_of f64 b /\
  sign_of f64 (fabs f64 b) = false.
Proof.
  unfold exp_of, frac_of, sign_of, fabs. cbn [mw ew f64]. change (52 + 11) with 63.
  rewrite !bits_land, Z.land_spec, Z.ones_spec_high by lia. rewrite andb_false_r.
  change (bits (Z.ones 63) 52 11) with (Z.ones 11). change (bits (Z.ones 63) 0 52) with (Z.ones 52).
  auto.
Qed.

Lemma fabs_num b x : is_num b x -> is_num (fabs f64 b) (Z.abs x).
Proof.
  destruct (fabs_fields b) as (E & F & S). unfold is_num, is_nan, is_inf, scaled.
  rewrite E, F, S. intros (Hn & Hi & <-). split; [exact Hn|]. split; [exact Hi|].
  set (n := if exp_of f64 b =? 0 then _ else _).
  assert (0 <= n).
  { subst n. pose proof (frac_of_range b) as H. destruct (exp_of f64 b =? 0); [apply H|].
    apply Z.shiftl_nonneg. cbn [mw f64]. lia. }
  destruct (sign_of f64 b); lia.
Qed.

(** Rounding towards zero is C's truncating division. *)
Lemma round_zero_quot x : round_int RZero x (-1074) = Z.quot x (2 ^ 1074).
Proof.
  unfold round_int. change (0 <=? -1074) with false. cbv iota zeta. change (- -1074) with 1074.
  pose proof (Z.div_mod x (2 ^ 1074) ltac:(lia)) as E.
  pose proof (Z.mod_pos_bound x (2 ^ 1074) ltac:(lia)) as B.
  unfold nz. destruct (Z.ltb_spec x 0) as [Hx|Hx].
  - destruct (Z.eqb_spec (x mod 2 ^ 1074) 0) as [Hr|Hr]; cbn [negb andb].
    + apply Z.quot_unique_exact; lia.
    + replace (Z.quot x (2 ^ 1074)) with (- Z.quot (- x) (2 ^ 1074))
        by (rewrite Z.quot_opp_l by lia; lia).
      rewrite Z.quot_div_nonneg by lia.
      rewrite <- (Z.div_unique (- x) (2 ^ 1074) (- (x / 2 ^ 1074 + 1)) (2 ^ 1074 - x mod 2 ^ 1074));
        lia.
  - cbn [andb]. symmetry. apply Z.quot_div_nonneg; lia.
Qed.

Lemma int_of_abs b x : is_num b x -> int_of RZero f64 (fabs f64 b) = Z.abs (int_of RZero f64 b).
Proof.
  intros H. destruct (fabs_num b x H) as (_ & _ & E). destruct H as (_ & _ & E').
  unfold int_of. change (qmin f64) with (-1074). rewrite E, E', !round_zero_quot.
  destruct (Z.abs_spec x) as [[Hx ->]|[Hx ->]].
  - symmetry. apply Z.abs_eq, Z.quot_pos; lia.
  - rewrite Z.quot_opp_l by lia.
    assert (H : 0 <= Z.quot (- x) (2 ^ 1074)) by (apply Z.quot_pos; lia).
    rewrite Z.quot_opp_l in H by lia. lia.
Qed.

Definition bcd_sign (b : Z) : Z := if signbit b then 0x80 else 0.

(** The packed byte of the digits 2k and 2k+1 of [n]. *)
Definition digit_pair (n : Z) (k : nat) : Z :=
  16 * ((n / 10 ^ (2 * Z.of_nat k + 1)) mod 10) + (n / 10 ^ (2 * Z.of_nat k)) mod 10.

Lemma digit_pair_0 n : digit_pair n 0 = u8 (Z.lor (u8 (n mod 10)) (Z.shiftl (u8 ((n / 10) mod 10)) 4)).
Proof.
  pose proof (Z.mod_pos_bound n 10 ltac:(lia)). pose proof (Z.mod_pos_bound (n / 10) 10 ltac:(lia)).
  unfold digit_pair. change (2 * Z.of_nat 0 + 1) with 1. change (2 * Z.of_nat 0) with 0.
  rewrite Z.pow_0_r, Z.pow_1_r, Z.div_1_r, (Z.mul_comm 16).
  rewrite (wrap_small 8 (n mod 10)), (wrap_small 8 ((n / 10) mod 10)) by lia.
  rewrite Z.lor_comm, Z.shiftl_mul_pow2, lor_add, wrap_small by lia. reflexivity.
Qed.

Lemma digit_pair_S n k : digit_pair n (S k) = digit_pair (n / 10 / 10) k.
Proof.
  unfold digit_pair. rewrite Nat2Z.inj_succ, !Z.div_div by lia.
  replace (2 * Z.succ (Z.of_nat k) + 1) with (2 + (2 * Z.of_nat k + 1)) by lia.
  replace (2 * Z.succ (Z.of_nat k)) with (2 + 2 * Z.of_nat k) by lia.
  rewrite !Z.pow_add_r by lia. change (10 ^ 2) with (10 * 10). rewrite <- !Z.mul_assoc. reflexivity.
Qed.

Lemma bcd_loop_digits j : forall n, fst (bcd_loop j n) = map (digit_pair n) (seq 0 j).
Proof.
  induction j as [|j IH]; intros n; [reflexivity|]. cbn [bcd_loop].
  specialize (IH (n / 10 / 10)). destruct (bcd_loop j (n / 10 / 10)) as [ds r]. cbn [fst] in *.
  cbn [seq map]. rewrite digit_pair_0, IH, <- seq_shift, map_map. f_equal.
  apply map_ext. intros k. symmetry. apply digit_pair_S.
Qed.

Lemma special_fields b : x87_is_nan_or_inf b = is_nan f64 b || is_inf f64 b.
Proof.
  unfold x87_is_nan_or_inf. rewrite exp_max_test. unfold is_nan, is_inf, nz.
  destruct (exp_of f64 b =? exp_ones f64); [|reflexivity]. destruct (frac_of f64 b =? 0); reflexivity.
Qed.

(** The ten bytes of a number. *)
Lemma fbstp_bytes_num b x n : is_num b x -> n = Z.abs (int_of RZero f64 b) ->
  fbstp_bytes b =
    if 10 ^ 18 <? n then repeat 0x99 9 ++ [Z.lor 0x09 (bcd_sign b)]
    else map (digit_pair n) (seq 0 9) ++ [Z.lor (n / 10 ^ 18) (bcd_sign b)].
Proof.
  intros Hb Hn. pose proof Hb as (Nn & Ni & Ex).
  unfold fbstp_bytes. rewrite special_fields, Nn, Ni. cbn [orb].
  destruct (fabs_num b x Hb) as (An & Ai & Ax).
  pose proof (round_integral_num RZero (fabs f64 b) An Ai) as Hr.
  rewrite (int_of_abs b x Hb), <- Hn in Hr. cbv zeta.
  assert (K : is_num 0x43ABC16D674EC800 (10 ^ 18 * 2 ^ 1074)) by (vm_compute; auto).
  unfold fgt. rewrite (flt_num _ _ _ _ K Hr), scale_ltb. fold (bcd_sign b).
  replace (10 ^ 18 <=? n - 1) with (10 ^ 18 <? n) by (apply eq_true_iff_eq; rewrite Z.leb_le, Z.ltb_lt; lia).
  destruct (Z.ltb_spec (10 ^ 18) n) as [Hlt|Hge]; [reflexivity|].
  unfold cast_int. rewrite (int_of_num RZero _ n Hr), (wrap_small 64 n) by lia.
  rewrite <- bcd_loop_digits. pose proof (bcd_loop_spec 9 n ltac:(lia)) as Hs.
  destruct (bcd_loop 9 n) as [ds remaining]. destruct Hs as (_ & _ & -> & _). cbn [fst].
  change (100 ^ Z.of_nat 9) with (10 ^ 18).
  assert (0 <= n / 10 ^ 18 < 10) by (split; [apply Z.div_pos | apply Z.div_lt_upper_bound]; lia).
  rewrite (Z.mod_small (n / 10 ^ 18)), wrap_small by lia. reflexivity.
Qed.

(** The ten bytes of a value that fits eighteen digits. *)
Lemma fbstp_bytes_spec b x n :
  is_num b x -> n = Z.abs (int_of RZero f64 b) -> n < 10 ^ 18 ->
  fbstp_bytes b = fst (bcd_loop 9 n) ++ [bcd_sign b].
Proof.
  intros Hb Hn Hlt. rewrite (fbstp_bytes_num b x n Hb Hn), bcd_loop_digits.
  replace (10 ^ 18 <? n) with false by (symmetry; apply Z.ltb_ge; lia). rewrite Z.div_small by lia. reflexivity.
Qed.

Lemma bcd_sign_byte b : byte (bcd_sign b).
Proof. unfold bcd_sign, byte. destruct (signbit b); lia. Qed.

Lemma BCD2Double_digits n b :
  0 <= n < 10 ^ 18 ->
  BCD2Double (fst (bcd_loop 9 n) ++ [bcd_sign b]) =
    if signbit b then fneg f64 (of_int f64 n) else of_int f64 n.
Proof.
  intros Hn. pose proof (bcd_loop_spec 9 n ltac:(lia)) as H.
  destruct (bcd_loop 9 n) as [ds remaining]. destruct H as (Hl & _ & _ & Hd). cbn [fst].
  unfold BCD2Double. rewrite firstn_app, Hl, Nat.sub_diag, firstn_O, app_nil_r, <- Hl, firstn_all.
  change (100 ^ Z.of_nat 9) with (10 ^ 18) in Hd.
  rewrite (Z.mod_small n) in Hd by lia. rewrite (Hd 0 1) by lia.
  assert (Z9 : zget (ds ++ [bcd_sign b]) 9 = bcd_sign b).
  { unfold zget. change (Z.to_nat 9) with 9%nat. rewrite <- Hl. apply nth_middle. }
  rewrite Z9. unfold bcd_sign. destruct (signbit b).
  - change (Z.land 0x80 0x0F) with 0. change (nz (Z.land 0x80 0x80)) with true.
    change (u64 (1 * 10 ^ 18 * 0)) with 0. rewrite wrap_small by lia.
    replace (0 + 1 * n + 0) with n by lia. reflexivity.
  - change (Z.land 0 0x0F) with 0. change (nz (Z.land 0 0x80)) with false.
    change (u64 (1 * 10 ^ 18 * 0)) with 0. rewrite wrap_small by lia.
    replace (0 + 1 * n + 0) with n by lia. reflexivity.
Qed.

(** ** The store and the load *)

Lemma getSt_occupied_state s i : getStTag s i <> kEmpty -> getSt s i = (getStFast s i, s).
Proof. apply getSt_nonempty. Qed.

Lemma fbld_fbstp s : getStTag s 0 <> kEmpty ->
  forall ds, fbstp_bytes (getStFast s 0) = ds -> Forall byte ds -> length ds = 10%nat ->
  forall t, x87_fbld t (fst (fst (x87_fbstp s))) (snd (fst (x87_fbstp s))) =
    setSt (push (sw_clear t kConditionCode1)) 0 (BCD2Double ds).
Proof.
  intros H0 ds E Hb Hl t. unfold x87_fbstp. rewrite (getSt_nonempty s 0 H0), E. cbn [fst snd].
  unfold x87_fbld. do 2 f_equal.
  assert (Hall : Forall byte (ds ++ repeat 0 6)).
  { apply Forall_app. split; [exact Hb|]. unfold byte. repeat constructor; lia. }
  rewrite !le_bytes_value.
  - do 11 (destruct ds as [|? ds]; try discriminate). reflexivity.
  - rewrite <- (firstn_skipn 8 (ds ++ repeat 0 6)) in Hall. apply Forall_app in Hall. apply Hall.
  - rewrite length_skipn, length_app, Hl. cbn. lia.
  - rewrite <- (firstn_skipn 8 (ds ++ repeat 0 6)) in Hall. apply Forall_app in Hall. apply Hall.
  - rewrite length_firstn, length_app, Hl. cbn. lia.
Qed.

(** C18: for an occupied ST(0) holding a number below 10^18 in magnitude, the
    ten bytes FBSTP stores, loaded back by FBLD, push ST(0) truncated to an
    integer (sign of zero included): the decimal digits and the sign survive. *)
Theorem bcd_roundtrip (s t : X87State) :
  getStTag s 0 <> kEmpty ->
  let v := getStFast s 0 in
  is_nan f64 v = false -> is_inf f64 v = false -> Z.abs (int_of RZero f64 v) < 10 ^ 18 ->
  x87_fbld t (fst (fst (x87_fbstp s))) (snd (fst (x87_fbstp s))) =
    setSt (push (sw_clear t kConditionCode1)) 0 (round_integral RZero f64 v).
Proof.
  intros H0 v Hn Hi Hlt.
  assert (Hv : is_num v (scaled f64 v)) by (split; [exact Hn | split; [exact Hi | reflexivity]]).
  pose proof (fbstp_bytes_spec v _ _ Hv eq_refl Hlt) as E.
  set (n := Z.abs (int_of RZero f64 v)) in *. assert (Hn0 : 0 <= n) by (subst n; lia).
  pose proof (bcd_loop_spec 9 n Hn0) as Hs. pose proof (BCD2Double_digits n v ltac:(lia)) as Hd.
  rewrite (fbld_fbstp s H0 _ E).
  - do 2 f_equal. rewrite Hd. unfold round_integral. rewrite Hn, Hi. cbv zeta. unfold signbit.
    destruct (int_of_shape RZero v Hn Hi) as (m & k & Em & Hm & Hk & Hl). fold n in Em.
    destruct (Z.eqb_spec (int_of RZero f64 v) 0) as [Hz|Hz].
    + assert (n = 0) as -> by (subst n; lia). destruct (sign_of f64 v); reflexivity.
    + assert (Hm0 : 0 < m) by (destruct (Z.eq_dec m 0) as [->|]; [subst n; lia | lia]).
      assert (Hsign : sign_of f64 v = (int_of RZero f64 v <? 0)).
      { unfold int_of in *. change (qmin f64) with (-1074) in *. rewrite round_zero_quot in *.
        pose proof (frac_of_range v) as Hf.
        assert (Hpos : 0 <= (if exp_of f64 v =? 0 then frac_of f64 v
                            else Z.shiftl (frac_of f64 v + 2 ^ 52) (exp_of f64 v - 1))).
        { destruct (exp_of f64 v =? 0); [apply Hf|]. apply Z.shiftl_nonneg. destruct Hf; lia. }
        unfold scaled in *. cbn [mw f64] in *. set (q := if exp_of f64 v =? 0 then _ else _) in *.
        destruct (sign_of f64 v); symmetry; [apply Z.ltb_lt | apply Z.ltb_ge].
        - rewrite Z.quot_opp_l in * by lia.
          assert (0 <= Z.quot q (2 ^ 1074)) by (apply Z.quot_pos; lia). lia.
        - apply Z.quot_pos; lia. }
      rewrite Hsign. destruct (Z.ltb_spec (int_of RZero f64 v) 0).
      * rewrite <- (of_int_neg n m k Em ltac:(lia) Hk Hl). f_equal. subst n. lia.
      * f_equal. subst n. lia.
  - destruct (bcd_loop 9 n) as [ds r]. cbn [fst]. apply Forall_app. split; [apply Hs|].
    repeat constructor; apply bcd_sign_byte.
  - destruct (bcd_loop 9 n) as [ds r]. cbn [fst]. rewrite length_app. cbn. destruct Hs. lia.
Qed.

Lemma bcd_roundtrip_witness :
  let s := x87_fld_fp64 X87State_init 0xC0FE240CCCCCCCCD in
  x87_fbld X87State_init (fst (fst (x87_fbstp s))) (snd (fst (x87_fbstp s))) =
    x87_fld_fp64 X87State_init 0xC0FE240000000000.
Proof.
  cbv zeta. set (s := x87_fld_fp64 X87State_init 0xC0FE240CCCCCCCCD).
  rewrite (bcd_roundtrip s X87State_init).
  - vm_compute. reflexivity.
  - vm_compute. discriminate.
  - vm_compute. reflexivity.
  - vm_compute. reflexivity.
  - vm_compute. reflexivity.
Defined.

(** C40: The ten bytes FBSTP stores, for every double in ST(0): nine zero bytes
    and the sign for a NaN or an infinity; eighteen nines and a nineteenth for
    a magnitude, truncated to an integer, above 10^18; the eighteen decimal
    digits and the sign up to 10^18 - 1.  The overflow literal is the double
    10^18, so exactly the magnitude 10^18 is neither: it is stored as
    eighteen zeros with a nineteenth digit 1 in the byte that holds the sign. *)
Theorem fbstp_bytes_correct (v : Z) :
  let n := Z.abs (int_of RZero f64 v) in
  fbstp_bytes v =
    if is_nan f64 v || is_inf f64 v then repeat 0 9 ++ [bcd_sign v]
    else if 10 ^ 18 <? n then repeat 0x99 9 ++ [Z.lor 0x09 (bcd_sign v)]
    else if n =? 10 ^ 18 then repeat 0 9 ++ [Z.lor 1 (bcd_sign v)]
    else map (digit_pair n) (seq 0 9) ++ [bcd_sign v].
Proof.
  intros n. destruct (is_nan f64 v) eqn:Hn; [unfold fbstp_bytes; rewrite special_fields, Hn; reflexivity|].
  destruct (is_inf f64 v) eqn:Hi; [unfold fbstp_bytes; rewrite special_fields, Hn, Hi; reflexivity|]. cbn [orb].
  rewrite (fbstp_bytes_num v (scaled f64 v) n) by (auto; repeat split; auto).
  destruct (Z.ltb_spec (10 ^ 18) n) as [Hlt|Hge]; [reflexivity|]. destruct (Z.eqb_spec n (10 ^ 18)) as [->|Hne]; [reflexivity|].
  rewrite (Z.div_small n) by lia. reflexivity.
Qed.
