(* ===== verification/F32Props.v ===== *)
(** float <-> double: a float that is no signalling NaN survives widening and
    narrowing, and narrowing never makes a signalling NaN.

    Ranges of the operations in either format, and what reads a format's
    fields only. *)

From S2P Require Import Prelude F64 X87State X87Props F64Props F64Exact.
From Corelib Require Import SpecFloat.

(** ** Fields of a packed value, at either width *)

Definition fmt_ok (f : fmt) : Prop := 0 < mw f /\ 0 < ew f.
Lemma f32_ok : fmt_ok f32. Proof. split; reflexivity. Qed.
Lemma f64_ok : fmt_ok f64. Proof. split; reflexivity. Qed.

Section Fields.
Context (f : fmt) (Hf : fmt_ok f).

Let pm : 0 < 2 ^ mw f. Proof. apply Z.pow_pos_nonneg; destruct Hf; lia. Qed.
Let pe : 0 < 2 ^ ew f. Proof. apply Z.pow_pos_nonneg; destruct Hf; lia. Qed.

Lemma pack_form s e m : 0 <= e < 2 ^ ew f -> 0 <= m < 2 ^ mw f ->
  pack f s e m = (b2z s * 2 ^ ew f + e) * 2 ^ mw f + m.
Proof.
  intros He Hm. destruct Hf. unfold pack.
  rewrite !wrap_small, (Z.pow_add_r 2 (mw f)) by lia. ring.
Qed.

Lemma pack_fields s e m : 0 <= e < 2 ^ ew f -> 0 <= m < 2 ^ mw f ->
  sign_of f (pack f s e m) = s /\ exp_of f (pack f s e m) = e /\ frac_of f (pack f s e m) = m.
Proof.
  intros He Hm. destruct Hf. rewrite pack_form by assumption.
  unfold sign_of, exp_of, frac_of. rewrite !bits_divmod by lia.
  rewrite Z.pow_0_r, Z.div_1_r, Z.testbit_eqb, (Z.pow_add_r 2 (mw f)), <- Z.div_div by lia.
  rewrite !Z.div_add_l, (Z.div_small m), Z.add_0_r by lia.
  rewrite Z.div_add_l, (Z.div_small e), Z.add_0_r by lia.
  split; [destruct s; reflexivity|split].
  - rewrite Z.add_comm, Z_mod_plus_full. apply Z.mod_small, He.
  - rewrite Z.add_comm, Z_mod_plus_full. apply Z.mod_small, Hm.
Qed.

Lemma exp_of_bound b : 0 <= exp_of f b < 2 ^ ew f.
Proof. destruct Hf. unfold exp_of. rewrite bits_divmod by lia. apply Z.mod_pos_bound, pe. Qed.

Lemma frac_of_bound b : 0 <= frac_of f b < 2 ^ mw f.
Proof. destruct Hf. unfold frac_of. rewrite bits_divmod by lia. apply Z.mod_pos_bound, pm. Qed.

Lemma exp_ones_eq : exp_ones f = 2 ^ ew f - 1.
Proof. destruct Hf. unfold exp_ones. rewrite Z.ones_equiv. lia. Qed.

Lemma pack_unpack b : 0 <= b < 2 ^ size f ->
  pack f (sign_of f b) (exp_of f b) (frac_of f b) = b.
Proof.
  intros Hb. destruct Hf. rewrite pack_form by (apply exp_of_bound || apply frac_of_bound).
  unfold sign_of, exp_of, frac_of. rewrite !bits_divmod by lia.
  rewrite Z.pow_0_r, Z.div_1_r, Z.testbit_eqb, (Z.pow_add_r 2 (mw f)), <- Z.div_div by lia.
  unfold size in Hb. rewrite !Z.pow_add_r in Hb by lia.
  pose proof (Z.div_mod b (2 ^ mw f) ltac:(lia)) as E1.
  pose proof (Z.div_mod (b / 2 ^ mw f) (2 ^ ew f) ltac:(lia)) as E2.
  assert (Hs : 0 <= b / 2 ^ mw f / 2 ^ ew f < 2).
  { split; [apply Z.div_pos; [apply Z.div_pos|]; lia|].
    apply Z.div_lt_upper_bound; [lia|]. apply Z.div_lt_upper_bound; lia. }
  rewrite Z.mod_small by lia.
  assert (E3 : b2z (b / 2 ^ mw f / 2 ^ ew f =? 1) = b / 2 ^ mw f / 2 ^ ew f).
  { destruct (Z.eqb_spec (b / 2 ^ mw f / 2 ^ ew f) 1); cbn [b2z]; lia. }
  rewrite E3. lia.
Qed.

Lemma pack_not_snan s e m : 0 <= e < exp_ones f -> is_snan f (pack f s e m) = false.
Proof.
  intros He. rewrite exp_ones_eq in He.
  replace (pack f s e m) with (pack f s e (wrap (mw f) m)).
  - destruct (pack_fields s e (wrap (mw f) m)) as (_ & E & _);
      [lia | apply wrap_range; destruct Hf; lia |].
    unfold is_snan, is_nan. rewrite E, exp_ones_eq.
    replace (e =? 2 ^ ew f - 1) with false by (symmetry; apply Z.eqb_neq; lia). reflexivity.
  - unfold pack. destruct Hf. rewrite wrap_wrap by lia. reflexivity.
Qed.
End Fields.

(** ** Exact rounding *)

Section Exact.
Context (prec emax : Z).

Lemma fexp_eq e : fexp prec emax e = Z.max (e - prec) (3 - emax - prec).
Proof. reflexivity. Qed.

Lemma shr_fexp_none m e :
  fexp prec emax (Z.log2 (Zpos m) + 1 + e) <= e ->
  shr_fexp prec emax (Zpos m) e loc_Exact = (rec0 (Zpos m), e).
Proof.
  intros H. unfold shr_fexp. cbn [Zdigits2]. rewrite digits2_log2.
  destruct (_ - e) eqn:E; try reflexivity. lia.
Qed.

(** Rounding a significand of p * 2^d back to p. *)
Lemma round_aux_exact s p d e :
  0 <= d -> fexp prec emax (Z.log2 (Zpos p) + 1 + (e + d)) = e + d -> e + d <= emax - prec ->
  binary_round_aux prec emax s (Zpos p * 2 ^ d) e loc_Exact = S754_finite s p (e + d).
Proof.
  intros Hd Hf Hm. pose proof (Z.pow_pos_nonneg 2 d ltac:(lia) Hd) as H2.
  assert (E1 : shr_fexp prec emax (Zpos p * 2 ^ d) e loc_Exact = (rec0 (Zpos p), e + d)).
  { unfold shr_fexp. destruct (Zpos p * 2 ^ d) as [|q|] eqn:Eq; try lia. cbn [Zdigits2].
    rewrite digits2_log2, <- Eq.
    replace (Z.log2 (Zpos p * 2 ^ d)) with (Z.log2 (Zpos p) + d)
      by (rewrite Z.log2_mul_pow2 by lia; lia).
    replace (Z.log2 (Zpos p) + d + 1 + e) with (Z.log2 (Zpos p) + 1 + (e + d)) by lia.
    rewrite Hf. replace (e + d - e) with d by lia. unfold shr.
    change (shr_record_of_loc (Zpos p * 2 ^ d) loc_Exact) with (rec0 (Zpos p * 2 ^ d)).
    destruct d as [|d|]; [|rewrite shr_even by lia; f_equal; lia|lia].
    rewrite Z.pow_0_r, Z.mul_1_r, Z.add_0_r. reflexivity. }
  unfold binary_round_aux. rewrite E1. cbn [rec0 shr_m loc_of_shr_record round_nearest_even].
  rewrite shr_fexp_none by lia. cbn [rec0 shr_m].
  replace (e + d <=? emax - prec) with true by (symmetry; apply Z.leb_le; lia). reflexivity.
Qed.

(** A significand short of [prec] digits is shifted up to them. *)
Lemma round_up_exact s p d e :
  0 <= d -> Z.log2 (Zpos p) + 1 + d = prec -> 3 - emax - prec <= e - d <= emax - prec ->
  exists q, Zpos q = Zpos p * 2 ^ d /\ binary_round prec emax s p e = S754_finite s q (e - d).
Proof.
  intros Hd Hl Hr. unfold binary_round. rewrite digits2_log2, fexp_eq.
  replace (Z.max (Z.log2 (Zpos p) + 1 + e - prec) (3 - emax - prec)) with (e - d) by lia.
  assert (A : forall q, Zpos q = Zpos p * 2 ^ d ->
    binary_round_aux prec emax s (Zpos q) (e - d) loc_Exact = S754_finite s q (e - d)).
  { intros q Hq. pose proof (round_aux_exact s q 0 (e - d) ltac:(lia)) as H.
    rewrite Z.pow_0_r, Z.mul_1_r, Z.add_0_r in H. apply H; [|lia].
    rewrite Hq, Z.log2_mul_pow2, fexp_eq by lia. lia. }
  unfold shl_align. replace (e - d - e) with (- d) by lia. destruct d as [|d|]; [| |lia].
  - exists p. split; [lia|]. cbn [Z.opp]. rewrite Z.sub_0_r in *. apply A. lia.
  - exists (Pos.iter xO p d). pose proof (iter_xO p d) as Eq.
    split; [exact Eq|]. cbn [Z.opp]. apply A, Eq.
Qed.

(** A value of more digits that are zeros is shifted down. *)
Lemma round_down_exact s p d e :
  0 <= d -> fexp prec emax (Z.log2 (Zpos p) + 1 + (e + d)) = e + d -> e + d <= emax - prec ->
  forall q, Zpos q = Zpos p * 2 ^ d ->
  binary_round prec emax s q e = S754_finite s p (e + d).
Proof.
  intros Hd Hf Hm q Hq. unfold binary_round. rewrite digits2_log2, Hq, Z.log2_mul_pow2 by lia.
  replace (d + Z.log2 (Zpos p) + 1 + e) with (Z.log2 (Zpos p) + 1 + (e + d)) by lia.
  rewrite Hf. unfold shl_align. replace (e + d - e) with d by lia.
  destruct d as [|d|]; [| |lia]; rewrite Hq; apply round_aux_exact; assumption || lia.
Qed.

(** A finite result of a rounding has an exponent of the format. *)
Lemma shr_exp m e n : snd (shr m e n) = Z.max e (e + n).
Proof. destruct n; cbn [shr snd]; lia. Qed.

Lemma round_aux_bounds s m e l s' m' e' :
  binary_round_aux prec emax s m e l = S754_finite s' m' e' ->
  3 - emax - prec <= e' <= emax - prec.
Proof.
  unfold binary_round_aux. destruct (shr_fexp prec emax m e l) as [r1 e1].
  destruct (shr_fexp _ _ _ e1 loc_Exact) as [r2 e2] eqn:E2.
  assert (3 - emax - prec <= e2).
  { pose proof (f_equal snd E2) as H. unfold shr_fexp in H. rewrite shr_exp, fexp_eq in H.
    cbn [snd] in H. lia. }
  destruct (shr_m r2); try discriminate.
  destruct (Z.leb_spec e2 (emax - prec)); [|discriminate]. intros [= <- <- <-]. lia.
Qed.
End Exact.

(** ** Conversions *)

Definition raw_ok (r : Z) : Prop := in32 r /\ is_snan f32 r = false.

Lemma f32_split b : in32 b -> pack f32 (sign_of f32 b) (exp_of f32 b) (frac_of f32 b) = b.
Proof. intros Hb. exact (pack_unpack f32 f32_ok b Hb). Qed.

Lemma f32_exp b : 0 <= exp_of f32 b < 2 ^ 8.
Proof. exact (exp_of_bound f32 f32_ok b). Qed.

Lemma f32_frac b : 0 <= frac_of f32 b < 2 ^ 23.
Proof. exact (frac_of_bound f32 f32_ok b). Qed.

Lemma pack_range32 s e m : in32 (pack f32 s e m).
Proof.
  unfold in32, pack. cbn [mw ew f32]. pose proof (wrap_range 8 e ltac:(lia)).
  pose proof (wrap_range 23 m ltac:(lia)). pose proof (b2z_range s). lia.
Qed.

Lemma to_bits_range32 x : in32 (to_bits f32 x).
Proof.
  destruct x; cbn [to_bits]; try apply pack_range32.
  destruct (_ <? _); apply pack_range32.
Qed.

Lemma quiet_not_snan f b : 0 < mw f -> is_snan f (quiet f b) = false.
Proof.
  intros Hm. unfold is_snan, quiet. rewrite Z.lor_spec, Z.pow2_bits_true by lia.
  rewrite orb_true_r, andb_false_r. reflexivity.
Qed.

(** What rounding to float gives is never a signalling NaN. *)
Lemma round_to_f32_not_snan s m e :
  is_snan f32 (to_bits f32 (binary_round 24 128 s m e)) = false.
Proof.
  destruct (binary_round 24 128 s m e) as [b|b| |s' m' e'] eqn:E;
    [destruct b; reflexivity | destruct b; reflexivity | reflexivity |].
  unfold binary_round in E. destruct (shl_align _ _ _) as [mz ez].
  apply round_aux_bounds in E.
  unfold to_bits. destruct (_ <? _); (apply pack_not_snan; [exact f32_ok|]);
    change (exp_ones f32) with 255; change (qmin f32) with (-149); lia.
Qed.

Lemma narrow_raw_ok a : raw_ok (narrow a).
Proof.
  unfold narrow, convert. destruct (is_nan f64 a).
  - split; [|apply quiet_not_snan; reflexivity].
    apply lor_bound; [lia | apply pack_range32 | cbn; lia].
  - destruct (of_bits f64 a) as [b|b| |b m e]; try (split; [apply to_bits_range32 | destruct b; reflexivity]).
    + split; [apply to_bits_range32 | reflexivity].
    + destruct b; (split; [apply to_bits_range32 | apply round_to_f32_not_snan]).
Qed.

(** The quiet NaN of a float keeps its payload through double. *)
Lemma narrow_widen_nan s m : 2 ^ 22 <= m < 2 ^ 23 ->
  narrow (quiet f64 (pack f64 s 2047 (Z.shiftl m 29))) = pack f32 s 255 m.
Proof.
  intros Hm.
  assert (Eq : quiet f64 (pack f64 s 2047 (Z.shiftl m 29)) = pack f64 s 2047 (m * 2 ^ 29)).
  { rewrite Z.shiftl_mul_pow2 by lia. unfold quiet. cbn [mw f64].
    apply Z.bits_inj'. intros i Hi. rewrite Z.lor_spec.
    destruct (Z.eq_dec i 51) as [->|Hne].
    - change (Z.testbit (2 ^ (52 - 1)) 51) with true. rewrite orb_true_r. symmetry.
      rewrite pack_eq by lia.
      replace ((b2z s * 2 ^ 11 + 2047) * 2 ^ 52 + m * 2 ^ 29)
        with (((b2z s * 2 ^ 11 + 2047) * 2 ^ 23 + m) * 2 ^ 29) by ring.
      rewrite Z.mul_pow2_bits by lia. rewrite Z.testbit_eqb by lia. change (2 ^ (51 - 29)) with (2 ^ 22).
      replace ((b2z s * 2 ^ 11 + 2047) * 2 ^ 23 + m) with ((2 * (b2z s * 2 ^ 11 + 2047)) * 2 ^ 22 + m) by ring.
      rewrite Z.div_add_l by lia. replace (m / 2 ^ 22) with 1 by (apply Z.div_unique with (m - 2 ^ 22); lia).
      apply Z.eqb_eq. rewrite Z.add_comm, (Z.mul_comm 2), Z_mod_plus_full. reflexivity.
    - replace (Z.testbit (2 ^ (52 - 1)) i) with false; [apply orb_false_r|].
      symmetry. apply Z.pow2_bits_false. lia. }
  rewrite Eq. unfold narrow, convert. destruct (pack_fields f64 f64_ok s 2047 (m * 2 ^ 29)) as (Es & Ee & Ef); [cbn [mw ew f64]; lia|cbn [mw ew f64]; lia|].
  unfold is_nan. rewrite Es, Ee, Ef. change (2047 =? exp_ones f64) with true.
  unfold nz. replace (m * 2 ^ 29 =? 0) with false by (symmetry; apply Z.eqb_neq; lia). cbn [negb andb].
  cbn [mw f32 f64]. change (52 <=? 23) with false. cbv iota. change (52 - 23) with 29.
  rewrite Z.shiftr_div_pow2, Z.div_mul by lia. change (exp_ones f32) with 255.
  unfold quiet. cbn [mw f32]. change (2 ^ (23 - 1)) with (2 ^ 22).
  rewrite pack_form by (exact f32_ok || (cbn [mw ew f32]; lia)). cbn [mw ew f32].
  apply Z.bits_inj'. intros i Hi. rewrite Z.lor_spec.
  destruct (Z.eq_dec i 22) as [->|Hne]; [|rewrite Z.pow2_bits_false by lia; apply orb_false_r].
  rewrite Z.pow2_bits_true, orb_true_r by lia. symmetry. rewrite Z.testbit_eqb by lia.
  replace ((b2z s * 2 ^ 8 + 255) * 2 ^ 23 + m) with ((2 * (b2z s * 2 ^ 8 + 255)) * 2 ^ 22 + m) by ring.
  rewrite Z.div_add_l by lia. replace (m / 2 ^ 22) with 1 by (apply Z.div_unique with (m - 2 ^ 22); lia).
  apply Z.eqb_eq. rewrite Z.add_comm, (Z.mul_comm 2), Z_mod_plus_full. reflexivity.
Qed.

(** A finite float, widened and narrowed. *)
Lemma narrow_widen_finite s p e :
  (2 ^ 23 <= Zpos p < 2 ^ 24 /\ -149 <= e <= 104) \/ (Zpos p < 2 ^ 23 /\ e = -149) ->
  narrow (to_bits f64 (binary_round 53 1024 s p e)) = to_bits f32 (S754_finite s p e).
Proof.
  intros H. assert (Hl : 0 <= Z.log2 (Zpos p) <= 23).
  { split; [apply Z.log2_nonneg|]. assert (Z.log2 (Zpos p) < 24) by (apply Z.log2_lt_pow2; lia). lia. }
  assert (exists d, d = 52 - Z.log2 (Zpos p)) as [d Ed] by eauto. assert (Hd : 29 <= d <= 52) by lia.
  destruct (round_up_exact 53 1024 s p d e) as (q & Eq & ->); [lia|lia|lia|].
  pose proof (Z.log2_spec (Zpos p) ltac:(lia)) as Hlog.
  assert (Hq : 2 ^ 52 <= Zpos q < 2 ^ 53).
  { rewrite Eq. replace (2 ^ 52) with (2 ^ Z.log2 (Zpos p) * 2 ^ d)
      by (rewrite <- Z.pow_add_r by lia; f_equal; lia).
    replace (2 ^ 53) with (2 ^ Z.succ (Z.log2 (Zpos p)) * 2 ^ d)
      by (rewrite <- Z.pow_add_r by lia; f_equal; lia).
    pose proof (Z.pow_pos_nonneg 2 d ltac:(lia) ltac:(lia)). nia. }
  unfold to_bits at 1. cbn [mw f64]. replace (Zpos q <? 2 ^ 52) with false by (symmetry; apply Z.ltb_ge; lia).
  change (qmin f64) with (-1074).
  destruct (pack_fields f64 f64_ok s (e - d - -1074 + 1) (Zpos q - 2 ^ 52)) as (Es & Ee & Ef);
    [cbn [mw ew f64]; lia|cbn [mw ew f64]; lia|].
  unfold narrow, convert, is_nan, of_bits. rewrite Es, Ee, Ef. change (exp_ones f64) with 2047.
  replace (e - d - -1074 + 1 =? 2047) with false by (symmetry; apply Z.eqb_neq; lia).
  replace (e - d - -1074 + 1 =? 0) with false by (symmetry; apply Z.eqb_neq; lia). cbn [andb].
  cbn [mw f64]. replace (Zpos q - 2 ^ 52 + 2 ^ 52) with (Zpos q) by lia.
  change (qmin f64) with (-1074). replace (e - d - -1074 + 1 + -1074 - 1) with (e - d) by lia.
  assert (R : binary_round 24 128 s q (e - d) = S754_finite s p e).
  { rewrite (round_down_exact 24 128 s p d (e - d) ltac:(lia)).
    - f_equal. lia.
    - rewrite fexp_eq. destruct H as [H|H].
      + assert (Z.log2 (Zpos p) = 23) by (apply Z.log2_unique; lia). lia.
      + assert (Z.log2 (Zpos p) < 23) by (apply Z.log2_lt_pow2; lia). lia.
    - lia.
    - exact Eq. }
  destruct s; cbn [binary_normalize]; change (prec f32) with 24; change (emax f32) with 128; rewrite R; reflexivity.
Qed.

(** Copy elision: narrow(widen(x)) == x. *)
Lemma narrow_widen r : raw_ok r -> narrow (widen r) = r.
Proof.
  intros [Hr Hs]. pose proof (f32_split r Hr) as Er. pose proof (f32_exp r) as He. pose proof (f32_frac r) as Hm.
  unfold widen, convert. destruct (is_nan f32 r) eqn:En.
  - cbn [mw f32 f64]. change (23 <=? 52) with true. cbv iota. change (52 - 23) with 29.
    assert (Hq : 2 ^ 22 <= frac_of f32 r).
    { unfold is_snan in Hs. rewrite En in Hs. cbn [andb] in Hs. apply negb_false_iff in Hs.
      cbn [mw f32] in Hs. change (23 - 1) with 22 in Hs.
      assert (Hb : Z.testbit (frac_of f32 r) 22 = true).
      { unfold frac_of. cbn [mw f32]. unfold bits. rewrite Z.shiftr_0_r, Z.land_spec, Hs. reflexivity. }
      destruct (Z.lt_ge_cases (frac_of f32 r) (2 ^ 22)) as [C|]; [|assumption].
      rewrite <- (wrap_small 22 (frac_of f32 r)), wrap_testbit in Hb by lia. discriminate. }
    unfold is_nan in En. apply andb_true_iff in En as [En _]. apply Z.eqb_eq in En.
    change (exp_ones f64) with 2047. rewrite narrow_widen_nan by lia.
    change (exp_ones f32) with 255 in En. rewrite <- En. exact Er.
  - unfold is_nan in En. unfold of_bits. change (exp_ones f32) with 255 in *.
    destruct (Z.eqb_spec (exp_of f32 r) 255) as [E1|E1].
    + cbn [andb] in En. apply negb_false_iff, Z.eqb_eq in En. rewrite En in *. cbn [Z.eqb].
      rewrite <- Er at 2. rewrite E1. destruct (sign_of f32 r); reflexivity.
    + assert (F : forall s p e, sign_of f32 r = s ->
        (2 ^ 23 <= Zpos p < 2 ^ 24 /\ -149 <= e <= 104) \/ (Zpos p < 2 ^ 23 /\ e = -149) ->
        to_bits f32 (S754_finite s p e) = r ->
        narrow match S754_finite s p e with
          | S754_finite true m e0 => to_bits f64 (binary_normalize (F64.prec f64) (F64.emax f64) (Zneg m) e0 true)
          | S754_finite false m e0 => to_bits f64 (binary_normalize (F64.prec f64) (F64.emax f64) (Zpos m) e0 false)
          | x => to_bits f64 x end = r).
      { intros s p e _ H Hb. rewrite <- Hb.
        destruct s; cbn [binary_normalize]; change (F64.prec f64) with 53; change (F64.emax f64) with 1024;
          apply narrow_widen_finite, H. }
      change (qmin f32) with (-149) in *. cbn [mw f32].
      destruct (Z.eqb_spec (exp_of f32 r) 0) as [E0|E0].
      * rewrite E0 in Er. destruct (frac_of f32 r) as [|p|p] eqn:Em; [|apply F; [reflexivity|right; lia|]|lia].
        -- rewrite <- Er. destruct (sign_of f32 r); reflexivity.
        -- rewrite <- Er at 2. unfold to_bits. cbn [mw f32].
           replace (Zpos p <? 2 ^ 23) with true by (symmetry; apply Z.ltb_lt; lia). reflexivity.
      * destruct (frac_of f32 r + 2 ^ 23) as [|p|p] eqn:Em; [lia| |lia].
        apply F; [reflexivity|left; lia|]. etransitivity; [|exact Er]. unfold to_bits. cbn [mw f32].
        replace (Zpos p <? 2 ^ 23) with false by (symmetry; apply Z.ltb_ge; lia).
        change (qmin f32) with (-149).
        replace (exp_of f32 r + -149 - 1 - -149 + 1) with (exp_of f32 r) by lia.
        replace (Zpos p - 2 ^ 23) with (frac_of f32 r) by lia. reflexivity.
Qed.

Definition in_fmt (f : fmt) (x : Z) : Prop := 0 <= x < 2 ^ size f.

Lemma in_fmt_64 x : in_fmt f64 x <-> in64 x.
Proof. reflexivity. Qed.

Lemma wrap_in_fmt f x : in_fmt f x -> wrap (size f) x = x.
Proof. exact (wrap_small (size f) x). Qed.

(** A single is a double's width too. *)
Lemma in_fmt_wide f x : f = f64 \/ f = f32 -> in_fmt f x -> in64 x.
Proof. intros [-> | ->]; unfold in_fmt, in64; cbn; lia. Qed.

Section Ranges.
Context (f : fmt) (Hf : f = f64 \/ f = f32).

Lemma pack_fmt s e m : in_fmt f (pack f s e m).
Proof. destruct Hf as [-> | ->]; [apply pack_range64 | apply pack_range32]. Qed.

Lemma to_bits_fmt x : in_fmt f (to_bits f x).
Proof. destruct Hf as [-> | ->]; [apply to_bits_range64 | apply to_bits_range32]. Qed.

Lemma quiet_fmt a : in_fmt f a -> in_fmt f (quiet f a).
Proof. destruct Hf as [-> | ->]; intros H; (apply lor_bound; [cbn; lia | exact H | cbn; lia]). Qed.

Lemma fneg_fmt a : in_fmt f a -> in_fmt f (fneg f a).
Proof. destruct Hf as [-> | ->]; intros H; (apply lxor_bound; [cbn; lia | exact H | cbn; lia]). Qed.

Lemma fabs_fmt a : in_fmt f (fabs f a).
Proof. destruct Hf as [-> | ->]; unfold in_fmt; apply land_bound; cbn; lia. Qed.

#[local] Hint Resolve pack_fmt to_bits_fmt quiet_fmt fneg_fmt : core.

Lemma process_nans_fmt a b r : in_fmt f a -> in_fmt f b -> process_nans f a b = Some r -> in_fmt f r.
Proof. unfold process_nans. intros Ha Hb H. repeat (destruct (_ : bool) in H; [injection H as <-; auto|]). discriminate. Qed.

Lemma arith2_fmt op a b : in_fmt f a -> in_fmt f b -> in_fmt f (arith2 f op a b).
Proof. intros Ha Hb. unfold arith2. destruct (process_nans f a b) eqn:E; [exact (process_nans_fmt a b z Ha Hb E) | auto]. Qed.

Lemma fsqrt_fmt a : in_fmt f a -> in_fmt f (fsqrt f a).
Proof. intros Ha. unfold fsqrt. destruct (is_nan f a); auto. Qed.

Lemma fnmul_fmt a b : in_fmt f a -> in_fmt f b -> in_fmt f (fnmul f a b).
Proof. intros Ha Hb. apply fneg_fmt, arith2_fmt; assumption. Qed.

Lemma process_nans3_fmt c a b r :
  in_fmt f a -> in_fmt f b -> in_fmt f c -> process_nans3 f c a b = Some r -> in_fmt f r.
Proof.
  intros Ha Hb Hc. unfold process_nans3. destruct (is_snan f c); [intros [= <-]; auto|].
  destruct (is_snan f a || is_snan f b); destruct (process_nans f a b) eqn:E;
    try (intros [= <-]; exact (process_nans_fmt a b z Ha Hb E));
    destruct (is_nan f c); try (intros [= <-]; auto); try (exact (process_nans_fmt a b _ Ha Hb E)); discriminate.
Qed.

Lemma fma_fmt a b c : in_fmt f a -> in_fmt f b -> in_fmt f c -> in_fmt f (fma f a b c).
Proof.
  intros Ha Hb Hc. unfold fma. cbv zeta. destruct (_ && _); [apply pack_fmt|].
  destruct (process_nans3 f c a b) eqn:E; [exact (process_nans3_fmt c a b z Ha Hb Hc E)|].
  destruct (_ || _); [apply pack_fmt|]. destruct (_ || _); [destruct (_ && _); apply pack_fmt|].
  destruct (is_inf f c); [exact Hc|].
  repeat match goal with |- context [let '(_, _) := ?x in _] => destruct x end. apply to_bits_fmt.
Qed.

Lemma fmsub_fmt a b c : in_fmt f a -> in_fmt f b -> in_fmt f c -> in_fmt f (fmsub f a b c).
Proof. intros. apply fma_fmt; auto. Qed.

Lemma fnmsub_fmt a b c : in_fmt f a -> in_fmt f b -> in_fmt f c -> in_fmt f (fnmsub f a b c).
Proof. intros. apply fma_fmt; auto. Qed.

Lemma of_int_fmt x : in_fmt f (of_int f x).
Proof. apply to_bits_fmt. Qed.
End Ranges.

Lemma narrow_fmt a : in_fmt f32 (narrow a).
Proof. exact (proj1 (narrow_raw_ok a)). Qed.

(** Widening reads the low word only. *)
Lemma bits_u32 x i n : 0 <= i -> 0 <= n -> i + n <= 32 -> bits (u32 x) i n = bits x i n.
Proof.
  intros Hi Hn H. unfold bits. apply Z.bits_inj'. intros k Hk.
  rewrite !Z.land_spec, Z.testbit_ones_nonneg, !Z.shiftr_spec, wrap_testbit by lia.
  destruct (Z.ltb_spec k n); [|rewrite !andb_false_r; reflexivity].
  replace (k + i <? 32) with true by (symmetry; apply Z.ltb_lt; lia). reflexivity.
Qed.

Lemma widen_u32 x : widen (u32 x) = widen x.
Proof.
  assert (Ef : frac_of f32 (u32 x) = frac_of f32 x) by (apply bits_u32; cbn; lia).
  assert (Ee : exp_of f32 (u32 x) = exp_of f32 x) by (apply bits_u32; cbn; lia).
  assert (Es : sign_of f32 (u32 x) = sign_of f32 x).
  { unfold sign_of. rewrite wrap_testbit by (cbn; lia). reflexivity. }
  unfold widen, convert, is_nan, of_bits. rewrite Ef, Ee, Es. reflexivity.
Qed.
