(* ===== verification/GuestMem.v ===== *)
(** Guest memory: a byte per address, little-endian accesses of 1 to 10
    bytes, and what a store changes. *)

From S2P Require Import Prelude.

Definition mem := Z -> Z.

Fixpoint load (n : nat) (m : mem) (a : Z) : Z :=
  match n with
  | O => 0
  | S n' => u8 (m a) + 2 ^ 8 * load n' m (a + 1)
  end.

Definition store (n : nat) (m : mem) (a v : Z) : mem := fun x =>
  if (a <=? x) && (x <? a + Z.of_nat n) then Z.shiftr v (8 * (x - a)) else m x.

Lemma load_range n m a : 0 <= load n m a < 2 ^ (8 * Z.of_nat n).
Proof.
  revert a. induction n as [|n IH]; intros a; [cbn; lia|].
  cbn [load]. specialize (IH (a + 1)). pose proof (wrap_range 8 (m a) ltac:(lia)).
  replace (8 * Z.of_nat (S n)) with (8 + 8 * Z.of_nat n) by lia.
  rewrite Z.pow_add_r by lia. lia.
Qed.

Lemma load_ext n m m' a :
  (forall x, a <= x < a + Z.of_nat n -> u8 (m x) = u8 (m' x)) -> load n m a = load n m' a.
Proof.
  revert a. induction n as [|n IH]; intros a H; [reflexivity|].
  cbn [load]. rewrite (H a) by lia. rewrite (IH (a + 1)); [reflexivity|]. intros x Hx. apply H. lia.
Qed.

(** A store leaves every disjoint range as it was. *)
Lemma load_store_disjoint n n' m a b v :
  a + Z.of_nat n <= b \/ b + Z.of_nat n' <= a -> load n (store n' m b v) a = load n m a.
Proof.
  intros H. apply load_ext. intros x Hx. unfold store.
  destruct (Z.leb_spec b x), (Z.ltb_spec x (b + Z.of_nat n')); cbn; try reflexivity. lia.
Qed.

Lemma shiftr_shiftr_8 v k : 0 <= k -> Z.shiftr (Z.shiftr v 8) (8 * k) = Z.shiftr v (8 * (k + 1)).
Proof. intros. rewrite Z.shiftr_shiftr by lia. f_equal. lia. Qed.

(** A load gives back the low bytes of what was stored there. *)
Lemma load_store_same n m a v : load n (store n m a v) a = wrap (8 * Z.of_nat n) v.
Proof.
  assert (G : forall n a v (f : mem),
    (forall x, a <= x < a + Z.of_nat n -> f x = Z.shiftr v (8 * (x - a))) ->
    load n f a = wrap (8 * Z.of_nat n) v).
  { clear. intros n. induction n as [|n IH]; intros a v f Hf; [cbn; unfold wrap; rewrite Z.mod_1_r; reflexivity|].
    cbn [load]. rewrite (Hf a) by lia. rewrite Z.sub_diag. rewrite Z.mul_0_r, Z.shiftr_0_r.
    rewrite (IH (a + 1) (Z.shiftr v 8)).
    - assert (E : 2 ^ (8 * Z.of_nat (S n)) = 2 ^ 8 * 2 ^ (8 * Z.of_nat n)).
      { rewrite <- Z.pow_add_r by lia. f_equal. lia. }
      unfold wrap. rewrite E, Z.rem_mul_r by lia.
      rewrite Z.shiftr_div_pow2 by lia. lia.
    - intros x Hx. rewrite Hf, shiftr_shiftr_8 by lia. f_equal. lia. }
  apply G. intros x Hx. unfold store.
  destruct (Z.leb_spec a x), (Z.ltb_spec x (a + Z.of_nat n)); cbn; try reflexivity; lia.
Qed.
