(* ===== verification/IROperand.v ===== *)
(** Rosetta's instruction IR as the x87 compiler reads it: the encoded
    register byte (Register.h), the 16-byte operand union (IROperand.h) and
    the instruction (IRInstr.h), with the classes of opcodes the run builder
    treats alike. *)

From S2P Require Import Prelude.
From S2P Require Export Opcodes.

(** ** Register.h *)

Definition is_mm (value : Z) : bool := (Z.land value 0xF0 =? 0x60) && (Z.land value 0x08 =? 0).
Definition index (value : Z) : Z := if is_mm value then Z.land value 0x07 else Z.land value 0x0F.
Definition is_gpr (value : Z) : bool := value <? 0x50.
Definition is_stack (value : Z) : bool := Z.land value 0xF0 =? 0x70.

(** ** IROperand.h *)

Module IROperandKind.
Definition Register : Z := 0.
Definition MemRef : Z := 1.
Definition AbsMem : Z := 2.
Definition Immediate : Z := 3.
Definition BranchOffset : Z := 4.
Definition ConditionCode : Z := 5.
Definition SegmentRegister : Z := 6.
End IROperandKind.

Module IROperandSize.
Definition S8 : Z := 0.
Definition S16 : Z := 1.
Definition S32 : Z := 2.
Definition S64 : Z := 3.
Definition S80 : Z := 0xFF.
End IROperandSize.

(** The union by its bytes.  The members overlay: byte +1 is also the
    condition code, byte +2 is the register of a register operand and the
    address size of a memory operand, the
    doubleword at +8 is the displacement, the absolute address or the
    immediate, as a signed 64-bit integer. *)
Record IROperand := mkOperand {
  kind : Z;          (* +0 *)
  op_size : Z;       (* +1 *)
  byte2 : Z;         (* +2 *)
  seg_override : Z;  (* +3 *)
  mem_flags : Z;     (* +4 *)
  base_reg : Z;      (* +5 *)
  index_reg : Z;     (* +6 *)
  shift_amount : Z;  (* +7 *)
  value : Z          (* +8 *)
}.

Abbreviation reg := byte2.
Abbreviation addr_size := byte2.
Abbreviation disp := value.

Definition null_operand : IROperand := mkOperand 0 0 0 0 0 0 0 0 0.

(** ** IRInstr.h: the fields the x87 compiler reads; [opcode] is what
    IRInstr::opcode() returns. *)
Record IRInstr := mkIRInstr {
  opcode : Z;
  num_operands : Z;
  operands : list IROperand;
  rep_prefix : Z;
  flag_liveness : Z
}.

(** An instruction without a prefix, no flag of which is read later. *)
Definition mkInstr (op n : Z) (l : list IROperand) : IRInstr := mkIRInstr op n l 0 0.

Module FlagLiveness.
Definition FLAG_AF : Z := 0x02.
Definition FLAG_PF_LO : Z := 0x04.
Definition FLAG_PF_HI : Z := 0x08.
Definition FLAG_PF : Z := 0x0C.
Definition FLAG_OF : Z := 0x10.
Definition FLAG_CF : Z := 0x20.
Definition FLAG_ZF : Z := 0x40.
Definition FLAG_SF : Z := 0x80.
End FlagLiveness.

Definition operand (i : IRInstr) (n : nat) : IROperand := nth n (operands i) null_operand.

(** ** Instruction classes: the groups of opcodes a switch treats alike *)

Inductive arith := Add | Sub | Mul | Div.
(** ST(0) < ST(i), <=, =, unordered: the FCMOV conditions. *)
Inductive cond := Below | BelowEq | Equal | Unordered.

Inductive x87op :=
| Fconst (bits : Z)
| Fld | Fild
| Fst (pops : bool)
| Fist (truncate pops : bool)
| Farith (o : arith) (reversed : bool)
| Fiarith (o : arith) (reversed : bool)
| Farithp (o : arith) (reversed : bool)
| Fchs | Fabs | Fsqrt | Frndint | Fxch
| Fcom (pops : nat) (pp : bool)
| Ficom (pops : bool)
| Fcomi (pops : bool)
| Fcmov (c : cond) (negated : bool)
| Ftst | Fstsw | Fldcw | Fnstcw | Fnop
| Guest.

Definition x87op_table : list (Z * x87op) :=
  [ (kOpcodeName.fldz, Fconst 0); (kOpcodeName.fld1, Fconst 0x3FF0000000000000);
    (kOpcodeName.fldl2e, Fconst 0x3FF71547652B82FE); (kOpcodeName.fldl2t, Fconst 0x400A934F0979A371);
    (kOpcodeName.fldlg2, Fconst 0x3FD34413509F79FF); (kOpcodeName.fldln2, Fconst 0x3FE62E42FEFA39EF);
    (kOpcodeName.fldpi, Fconst 0x400921FB54442D18);
    (kOpcodeName.fld, Fld); (kOpcodeName.fild, Fild);
    (kOpcodeName.fst, Fst false); (kOpcodeName.fst_stack, Fst false);
    (kOpcodeName.fstp, Fst true); (kOpcodeName.fstp_stack, Fst true);
    (kOpcodeName.fist, Fist false false); (kOpcodeName.fistp, Fist false true); (kOpcodeName.fisttp, Fist true true);
    (kOpcodeName.fadd, Farith Add false); (kOpcodeName.fmul, Farith Mul false);
    (kOpcodeName.fsub, Farith Sub false); (kOpcodeName.fsubr, Farith Sub true);
    (kOpcodeName.fdiv, Farith Div false); (kOpcodeName.fdivr, Farith Div true);
    (kOpcodeName.fiadd, Fiarith Add false); (kOpcodeName.fimul, Fiarith Mul false);
    (kOpcodeName.fisub, Fiarith Sub false); (kOpcodeName.fisubr, Fiarith Sub true);
    (kOpcodeName.fidiv, Fiarith Div false); (kOpcodeName.fidivr, Fiarith Div true);
    (kOpcodeName.faddp, Farithp Add false); (kOpcodeName.fmulp, Farithp Mul false);
    (kOpcodeName.fsubp, Farithp Sub false); (kOpcodeName.fsubrp, Farithp Sub true);
    (kOpcodeName.fdivp, Farithp Div false); (kOpcodeName.fdivrp, Farithp Div true);
    (kOpcodeName.fchs, Fchs); (kOpcodeName.fabs, Fabs); (kOpcodeName.fsqrt, Fsqrt);
    (kOpcodeName.frndint, Frndint); (kOpcodeName.fxch, Fxch);
    (kOpcodeName.fcom, Fcom 0 false); (kOpcodeName.fucom, Fcom 0 false);
    (kOpcodeName.fcomp, Fcom 1 false); (kOpcodeName.fucomp, Fcom 1 false);
    (kOpcodeName.fcompp, Fcom 2 true); (kOpcodeName.fucompp, Fcom 2 true);
    (kOpcodeName.ficom, Ficom false); (kOpcodeName.ficomp, Ficom true);
    (kOpcodeName.fcomi, Fcomi false); (kOpcodeName.fucomi, Fcomi false);
    (kOpcodeName.fcomip, Fcomi true); (kOpcodeName.fucomip, Fcomi true);
    (kOpcodeName.fcmovb, Fcmov Below false); (kOpcodeName.fcmovnb, Fcmov Below true);
    (kOpcodeName.fcmovbe, Fcmov BelowEq false); (kOpcodeName.fcmovnbe, Fcmov BelowEq true);
    (kOpcodeName.fcmove, Fcmov Equal false); (kOpcodeName.fcmovne, Fcmov Equal true);
    (kOpcodeName.fcmovu, Fcmov Unordered false); (kOpcodeName.fcmovnu, Fcmov Unordered true);
    (kOpcodeName.ftst, Ftst); (kOpcodeName.fstsw, Fstsw);
    (kOpcodeName.fldcw, Fldcw); (kOpcodeName.fnstcw, Fnstcw); (kOpcodeName.fnop, Fnop);
    (kOpcodeName.mov, Guest); (kOpcodeName.movzx, Guest); (kOpcodeName.movsx, Guest);
    (kOpcodeName.movsxd, Guest); (kOpcodeName.lea, Guest); (kOpcodeName.nop, Guest); (kOpcodeName.wait, Guest) ].

Definition x87op_of (opc : Z) : option x87op :=
  option_map snd (find (fun e => fst e =? opc) x87op_table).

Lemma index_range v : 0 <= index v < 16.
Proof.
  unfold index. destruct (is_mm v).
  - pose proof (land_bound v 7 3). lia.
  - pose proof (land_bound v 0xF 4). lia.
Qed.
#[export] Hint Resolve index_range : words.
