(* ===== verification/X87IR.v ===== *)
(** X87IR.h: the SSA nodes of a run of x87 instructions and the builder's
    context with its methods.  The node array is a list in node-id order, so
    [num_nodes] is its length; a [mem_operand] pointer is the operand it
    points to, which nothing writes. *)

From S2P Require Import Prelude IROperand.

Definition kMaxNodes : Z := 128.

Inductive Op :=
| ReadSt | LoadF64 | LoadF32Raw | LoadI16 | LoadI32 | LoadI64
| ConstZero | ConstOne | ConstF64
| CvtF32ToF64 | CvtF64ToF32
| FAdd | FSub | FMul | FDiv | FNMul
| FMAdd | FMSub | FNMSub
| FNeg | FAbs | FSqrt | FRndInt
| FCSel
| StoreF64 | StoreF32Raw | StoreI16 | StoreI32 | StoreI64
| FCmp | FTst | FComI | FStsw
| StoreCW | LoadCW
| GuestMovRR | GuestMovRI | GuestLea | GuestExt
| GuestLoad | GuestStoreR | GuestStoreI.

Definition Op_eq_dec (a b : Op) : {a = b} + {a <> b}.
Proof. decide equality. Defined.

Definition Op_eqb (a b : Op) : bool := if Op_eq_dec a b then true else false.

(** NodeFlags. *)
Definition kNone : Z := 0.
Definition kDead : Z := Z.shiftl 1 0.
Definition kFcomFused : Z := Z.shiftl 1 1.
Definition kTruncate : Z := Z.shiftl 1 2.
Definition kFcomIPopping : Z := Z.shiftl 1 3.
Definition kF32 : Z := Z.shiftl 1 5.

(** ** Guest payload *)

Record GuestPayload := mkPayload {
  p_imm : Z; p_dst : Z; p_src : Z; p_idx : Z; p_cls : Z;
  p_is64 : bool; p_sign : bool; p_has_base : bool; p_has_index : bool; p_addr32 : bool
}.

Definition guest_pack (p : GuestPayload) : Z :=
  Z.lor (Z.lor (Z.lor (Z.lor (Z.lor (Z.lor (Z.lor (Z.lor (Z.lor
    (p_imm p)
    (Z.shiftl (Z.land (p_dst p) 0xF) 32))
    (Z.shiftl (Z.land (p_src p) 0xF) 36))
    (Z.shiftl (Z.land (p_idx p) 0xF) 40))
    (Z.shiftl (Z.land (p_cls p) 0x3) 44))
    (Z.shiftl (b2z (p_is64 p)) 46))
    (Z.shiftl (b2z (p_sign p)) 47))
    (Z.shiftl (b2z (p_has_base p)) 48))
    (Z.shiftl (b2z (p_has_index p)) 49))
    (Z.shiftl (b2z (p_addr32 p)) 50).

Definition guest_unpack (b : Z) : GuestPayload :=
  mkPayload
    (u32 b)
    (Z.land (Z.shiftr b 32) 0xF)
    (Z.land (Z.shiftr b 36) 0xF)
    (Z.land (Z.shiftr b 40) 0xF)
    (Z.land (Z.shiftr b 44) 0x3)
    (nz (Z.land (Z.shiftr b 46) 1))
    (nz (Z.land (Z.shiftr b 47) 1))
    (nz (Z.land (Z.shiftr b 48) 1))
    (nz (Z.land (Z.shiftr b 49) 1))
    (nz (Z.land (Z.shiftr b 50) 1)).

(** ** Nodes *)

(** The union of imm_bits, mem_operand and initial_depth. *)
Inductive payload :=
| PImm (imm_bits : Z)
| PMem (mem_operand : IROperand)
| PDepth (initial_depth : Z).

Record Node := mkNode {
  op : Op;
  flags : Z;
  inputs : list Z;   (* three; -1 is unused *)
  data : payload;
  aux : Z
}.

Definition imm_bits (n : Node) : Z := match data n with PImm b => b | _ => 0 end.
Definition mem_operand (n : Node) : IROperand := match data n with PMem o => o | _ => null_operand end.
Definition initial_depth (n : Node) : Z := match data n with PDepth d => d | _ => 0 end.
Definition input (n : Node) (j : Z) : Z := nth (Z.to_nat j) (inputs n) (-1).

Definition dead (n : Node) : bool := nz (Z.land (flags n) kDead).

Definition with_op (n : Node) (o : Op) : Node := mkNode o (flags n) (inputs n) (data n) (aux n).
Definition with_flags (n : Node) (f : Z) : Node := mkNode (op n) f (inputs n) (data n) (aux n).
Definition with_inputs (n : Node) (l : list Z) : Node := mkNode (op n) (flags n) l (data n) (aux n).
Definition with_data (n : Node) (p : payload) : Node := mkNode (op n) (flags n) (inputs n) p (aux n).
Definition with_aux (n : Node) (a : Z) : Node := mkNode (op n) (flags n) (inputs n) (data n) a.

Definition null_node : Node := mkNode ReadSt 0 [-1; -1; -1] (PImm 0) 0.

(** ** Context *)

Definition kMemCSESlots : Z := 8.
Definition kConstF64Slots : Z := 4.

Record Context := mkContext {
  nodes : list Node;
  slot_val : list Z;                    (* 8 *)
  top_delta : Z;
  initial_read : list Z;                (* 8 *)
  mem_cse : list (IROperand * Op * Z);  (* mem_cse_op, _kind, _val; _count is the length *)
  mem_cse_next : Z;
  last_narrow_input : Z;
  last_narrow_node : Z;
  const_zero_node : Z;
  const_one_node : Z;
  const_f64 : list (Z * Z);             (* const_f64_node, _bits; _count is the length *)
  const_f64_next : Z;
  last_fcmp : Z;
  last_fcomi : Z;
  consumed : Z;
  const_promote : bool;
  guest_written_mask : Z
}.

Section Setters.
Context (c : Context).
Definition with_nodes v := mkContext v (slot_val c) (top_delta c) (initial_read c) (mem_cse c)
  (mem_cse_next c) (last_narrow_input c) (last_narrow_node c) (const_zero_node c) (const_one_node c)
  (const_f64 c) (const_f64_next c) (last_fcmp c) (last_fcomi c) (consumed c) (const_promote c) (guest_written_mask c).
Definition with_slots v t := mkContext (nodes c) v t (initial_read c) (mem_cse c)
  (mem_cse_next c) (last_narrow_input c) (last_narrow_node c) (const_zero_node c) (const_one_node c)
  (const_f64 c) (const_f64_next c) (last_fcmp c) (last_fcomi c) (consumed c) (const_promote c) (guest_written_mask c).
Definition with_initial_read v := mkContext (nodes c) (slot_val c) (top_delta c) v (mem_cse c)
  (mem_cse_next c) (last_narrow_input c) (last_narrow_node c) (const_zero_node c) (const_one_node c)
  (const_f64 c) (const_f64_next c) (last_fcmp c) (last_fcomi c) (consumed c) (const_promote c) (guest_written_mask c).
Definition with_mem_cse v n := mkContext (nodes c) (slot_val c) (top_delta c) (initial_read c) v
  n (last_narrow_input c) (last_narrow_node c) (const_zero_node c) (const_one_node c)
  (const_f64 c) (const_f64_next c) (last_fcmp c) (last_fcomi c) (consumed c) (const_promote c) (guest_written_mask c).
Definition with_last_narrow i n := mkContext (nodes c) (slot_val c) (top_delta c) (initial_read c) (mem_cse c)
  (mem_cse_next c) i n (const_zero_node c) (const_one_node c)
  (const_f64 c) (const_f64_next c) (last_fcmp c) (last_fcomi c) (consumed c) (const_promote c) (guest_written_mask c).
Definition with_const_zero v := mkContext (nodes c) (slot_val c) (top_delta c) (initial_read c) (mem_cse c)
  (mem_cse_next c) (last_narrow_input c) (last_narrow_node c) v (const_one_node c)
  (const_f64 c) (const_f64_next c) (last_fcmp c) (last_fcomi c) (consumed c) (const_promote c) (guest_written_mask c).
Definition with_const_one v := mkContext (nodes c) (slot_val c) (top_delta c) (initial_read c) (mem_cse c)
  (mem_cse_next c) (last_narrow_input c) (last_narrow_node c) (const_zero_node c) v
  (const_f64 c) (const_f64_next c) (last_fcmp c) (last_fcomi c) (consumed c) (const_promote c) (guest_written_mask c).
Definition with_const_f64 v n := mkContext (nodes c) (slot_val c) (top_delta c) (initial_read c) (mem_cse c)
  (mem_cse_next c) (last_narrow_input c) (last_narrow_node c) (const_zero_node c) (const_one_node c)
  v n (last_fcmp c) (last_fcomi c) (consumed c) (const_promote c) (guest_written_mask c).
Definition with_last_fcmp v := mkContext (nodes c) (slot_val c) (top_delta c) (initial_read c) (mem_cse c)
  (mem_cse_next c) (last_narrow_input c) (last_narrow_node c) (const_zero_node c) (const_one_node c)
  (const_f64 c) (const_f64_next c) v (last_fcomi c) (consumed c) (const_promote c) (guest_written_mask c).
Definition with_last_fcomi v := mkContext (nodes c) (slot_val c) (top_delta c) (initial_read c) (mem_cse c)
  (mem_cse_next c) (last_narrow_input c) (last_narrow_node c) (const_zero_node c) (const_one_node c)
  (const_f64 c) (const_f64_next c) (last_fcmp c) v (consumed c) (const_promote c) (guest_written_mask c).
Definition with_consumed v := mkContext (nodes c) (slot_val c) (top_delta c) (initial_read c) (mem_cse c)
  (mem_cse_next c) (last_narrow_input c) (last_narrow_node c) (const_zero_node c) (const_one_node c)
  (const_f64 c) (const_f64_next c) (last_fcmp c) (last_fcomi c) v (const_promote c) (guest_written_mask c).
Definition with_const_promote v := mkContext (nodes c) (slot_val c) (top_delta c) (initial_read c) (mem_cse c)
  (mem_cse_next c) (last_narrow_input c) (last_narrow_node c) (const_zero_node c) (const_one_node c)
  (const_f64 c) (const_f64_next c) (last_fcmp c) (last_fcomi c) (consumed c) v (guest_written_mask c).
Definition with_guest_written v := mkContext (nodes c) (slot_val c) (top_delta c) (initial_read c) (mem_cse c)
  (mem_cse_next c) (last_narrow_input c) (last_narrow_node c) (const_zero_node c) (const_one_node c)
  (const_f64 c) (const_f64_next c) (last_fcmp c) (last_fcomi c) (consumed c) (const_promote c) v.
End Setters.

Definition num_nodes (c : Context) : Z := Z.of_nat (length (nodes c)).
Definition node (c : Context) (id : Z) : Node := nth (Z.to_nat id) (nodes c) null_node.
Definition set_node (c : Context) (id : Z) (f : Node -> Node) : Context :=
  with_nodes c (list_set (nodes c) (Z.to_nat id) (f (node c id))).

Definition slot (c : Context) (d : Z) : Z := zget (slot_val c) d.
Definition set_slot (c : Context) (d v : Z) : Context := with_slots c (zset (slot_val c) d v) (top_delta c).

Definition Context_init : Context :=
  mkContext [] (map (fun i => - (i + 1)) [0; 1; 2; 3; 4; 5; 6; 7]) 0 (repeat (-1) 8) [] 0
    (-1) (-1) (-1) (-1) [] 0 (-1) (-1) 0 false 0.

Definition add_node (c : Context) (o : Op) (in0 in1 in2 : Z) : Z * Context :=
  if kMaxNodes <=? num_nodes c then (-1, c)
  else (num_nodes c, with_nodes c (nodes c ++ [mkNode o kNone [in0; in1; in2] (PImm 0) 0])).

Definition resolve (c : Context) (d : Z) : Z * Context :=
  if (d <? 0) || (8 <=? d) then (-1, c)
  else
    let val := slot c d in
    if 0 <=? val then (val, c)
    else
      let init_d := - (val + 1) in
      if (init_d <? 0) || (8 <=? init_d) then (-1, c)
      else if 0 <=? zget (initial_read c) init_d then
        (zget (initial_read c) init_d, set_slot c d (zget (initial_read c) init_d))
      else
        let '(id, c) := add_node c ReadSt (-1) (-1) (-1) in
        if id <? 0 then (-1, c)
        else
          let c := set_node c id (fun n => with_data n (PDepth init_d)) in
          let c := with_initial_read c (zset (initial_read c) init_d id) in
          (id, set_slot c d id).

Definition push (c : Context) (node_id : Z) : Context :=
  with_slots c (node_id :: firstn 7 (slot_val c)) (s16 (top_delta c - 1)).

(** The freed slot 7 gets the sentinel "popped past end". *)
Definition pop (c : Context) : Context :=
  with_slots c (tl (slot_val c) ++ [-100]) (s16 (top_delta c + 1)).
