(* ===== verification/X87IRBuild.v ===== *)
(** X87IRBuild.cpp: building the SSA form of a run of x87 instructions.
    [range_is_readonly] asks the kernel about a mapping and [host_mem] is the
    translating process's own memory; both are parameters, as is the
    [transparent_int] option.  A builder returns a node id, -1 on failure, or
    a bool, with the context it leaves; [build_instr] is [None] where the
    source writes outside [slot_val]. *)

From S2P Require Import Prelude F64 GuestMem IROperand X87IR.

(** [auto id = e; if (id < 0) return -1;] and [... return false;]. *)
Definition or_neg (r : Z * Context) (k : Z -> Context -> Z * Context) : Z * Context :=
  let '(id, c) := r in if id <? 0 then (-1, c) else k id c.
Definition or_fail (r : Z * Context) (k : Z -> Context -> bool * Context) : bool * Context :=
  let '(id, c) := r in if id <? 0 then (false, c) else k id c.

Declare Scope build_scope.
Delimit Scope build_scope with build.
Notation "'get!' x , c <- e ;; k" := (or_neg e (fun x c => k))
  (at level 100, x binder, c binder, e at next level, right associativity) : build_scope.
Notation "'need!' x , c <- e ;; k" := (or_fail e (fun x c => k))
  (at level 100, x binder, c binder, e at next level, right associativity) : build_scope.
#[local] Open Scope build_scope.

(** ** Operand identity and aliasing *)

Definition mask_addr32 (addr_size a : Z) : Z :=
  if addr_size =? IROperandSize.S32 then Z.land a 0xFFFFFFFF else a.

(** [None] where the source returns false. *)
Definition const_promote_addr (o : IROperand) : option Z :=
  let ok a := if nz a then Some a else None in
  if kind o =? IROperandKind.AbsMem then ok (mask_addr32 (addr_size o) (u64 (value o)))
  else if (kind o =? IROperandKind.MemRef) && (seg_override o =? 0) && (Z.land (mem_flags o) 3 =? 0)
  then ok (mask_addr32 (addr_size o) (u64 (disp o)))
  else None.

Definition mem_operand_equal (a b : IROperand) : bool :=
  if negb (kind a =? kind b) then false
  else if kind a =? IROperandKind.MemRef then
    (op_size a =? op_size b) && (addr_size a =? addr_size b) && (seg_override a =? seg_override b) &&
    (mem_flags a =? mem_flags b) && (base_reg a =? base_reg b) && (index_reg a =? index_reg b) &&
    (shift_amount a =? shift_amount b) && (disp a =? disp b)
  else if kind a =? IROperandKind.AbsMem then
    (op_size a =? op_size b) && (addr_size a =? addr_size b) && (value a =? value b)
  else false.

Definition mem_operand_width (o : IROperand) : Z :=
  let sz := op_size o in
  if sz =? IROperandSize.S16 then 2
  else if sz =? IROperandSize.S32 then 4
  else if sz =? IROperandSize.S64 then 8
  else 0.

Definition mem_operands_no_alias (a b : IROperand) : bool :=
  let aw := mem_operand_width a in
  let bw := mem_operand_width b in
  if (aw =? 0) || (bw =? 0) then false
  else if (kind a =? IROperandKind.MemRef) && (kind b =? IROperandKind.MemRef) then
    if nz (seg_override a) || nz (seg_override b) then false
    else if negb (addr_size a =? addr_size b) || negb (mem_flags a =? mem_flags b) ||
            negb (base_reg a =? base_reg b) || negb (index_reg a =? index_reg b) ||
            negb (shift_amount a =? shift_amount b) then false
    else (disp a + aw <=? disp b) || (disp b + bw <=? disp a)
  else if (kind a =? IROperandKind.AbsMem) && (kind b =? IROperandKind.AbsMem) then
    let aa := mask_addr32 (addr_size a) (u64 (value a)) in
    let ba := mask_addr32 (addr_size b) (u64 (value b)) in
    (u64 (aa + aw) <=? ba) || (u64 (ba + bw) <=? aa)
  else false.

(** ** The memory CSE table *)

Definition mem_cse_evict_may_alias (c : Context) (store_op : IROperand) : Context :=
  with_mem_cse c (filter (fun e => mem_operands_no_alias (fst (fst e)) store_op) (mem_cse c)) 0.

Definition mem_operand_uses_reg (o : IROperand) (r : Z) : bool :=
  if negb (kind o =? IROperandKind.MemRef) then false
  else if nz (Z.land (mem_flags o) 1) && (Z.land (base_reg o) 0xF =? r) then true
  else if nz (Z.land (mem_flags o) 2) && (Z.land (index_reg o) 0xF =? r) then true
  else false.

Definition mem_cse_evict_reg (c : Context) (r : Z) : Context :=
  with_mem_cse c (filter (fun e => negb (mem_operand_uses_reg (fst (fst e)) r)) (mem_cse c)) 0.

Fixpoint cse_find (l : list (IROperand * Op * Z)) (o : IROperand) (k : Op) : Z :=
  match l with
  | [] => -1
  | (eo, ek, ev) :: t => if Op_eqb ek k && mem_operand_equal eo o then ev else cse_find t o k
  end.

Definition mem_cse_lookup (c : Context) (o : IROperand) (k : Op) : Z := cse_find (mem_cse c) o k.

Definition mem_cse_insert (c : Context) (o : IROperand) (k : Op) (val : Z) : Context :=
  if negb (kind o =? IROperandKind.MemRef) && negb (kind o =? IROperandKind.AbsMem) then c
  else if Z.of_nat (length (mem_cse c)) <? kMemCSESlots then
    with_mem_cse c (mem_cse c ++ [(o, k, val)]) (mem_cse_next c)
  else
    let slot := mem_cse_next c in
    with_mem_cse c (list_set (mem_cse c) (Z.to_nat slot) (o, k, val)) ((slot + 1) mod kMemCSESlots).

(** ** Constants *)

Fixpoint const_find (l : list (Z * Z)) (bits : Z) : option Z :=
  match l with
  | [] => None
  | (n, b) :: t => if b =? bits then Some n else const_find t bits
  end.

Definition build_const (c : Context) (bits : Z) : Z * Context :=
  match const_find (const_f64 c) bits with
  | Some n => (n, c)
  | None =>
      get! id, c <- add_node c ConstF64 (-1) (-1) (-1) ;;
      let c := set_node c id (fun n => with_data n (PImm bits)) in
      (id,
       if Z.of_nat (length (const_f64 c)) <? kConstF64Slots then
         with_const_f64 c (const_f64 c ++ [(id, bits)]) (const_f64_next c)
       else
         let slot := const_f64_next c in
         with_const_f64 c (list_set (const_f64 c) (Z.to_nat slot) (id, bits)) ((slot + 1) mod kConstF64Slots))
  end.

(** The shared bodies of const_node_for_bits, fldz and fld1. *)
Definition build_zero (c : Context) : Z * Context :=
  if 0 <=? const_zero_node c then (const_zero_node c, c)
  else
    let '(id, c) := add_node c ConstZero (-1) (-1) (-1) in
    (id, if 0 <=? id then with_const_zero c id else c).

Definition build_one (c : Context) : Z * Context :=
  if 0 <=? const_one_node c then (const_one_node c, c)
  else
    let '(id, c) := add_node c ConstOne (-1) (-1) (-1) in
    (id, if 0 <=? id then with_const_one c id else c).

Definition const_node_for_bits (c : Context) (bits : Z) : Z * Context :=
  if bits =? 0 then build_zero c
  else if bits =? 0x3FF0000000000000 then build_one c
  else build_const c bits.

(** [clzll] of a nonzero 64-bit value. *)
Definition clz64 (m : Z) : Z := 63 - Z.log2 m.

Definition f80_to_f64_bits (m se : Z) : option Z :=
  let sign := Z.shiftl (Z.shiftr se 15) 63 in
  let e := Z.land se 0x7FFF in
  if m =? 0 then (if nz e then None else Some sign)
  else if e =? 0x7FFF then
    if u64 (Z.shiftl m 1) =? 0 then Some (Z.lor sign 0x7FF0000000000000)
    else
      let frac := Z.land (Z.shiftr m 11) 0x000FFFFFFFFFFFFF in
      let frac := Z.lor frac 0x0008000000000000 in
      Some (Z.lor (Z.lor sign 0x7FF0000000000000) frac)
  else
    let e := if e =? 0 then 1 else e in
    let shift := clz64 m in
    let m := u64 (Z.shiftl m shift) in
    let E := (e - 16383) - shift in
    let mant := Z.shiftr m 11 in
    let rem := Z.land m 0x7FF in
    let '(mant, E) :=
      if (0x400 <? rem) || ((rem =? 0x400) && nz (Z.land mant 1)) then
        let mant := mant + 1 in
        if mant =? Z.shiftl 1 53 then (Z.shiftr mant 1, E + 1) else (mant, E)
      else (mant, E) in
    if 1023 <? E then Some (Z.lor sign 0x7FF0000000000000)
    else if E <? -1022 then None
    else Some (Z.lor (Z.lor sign (Z.shiftl (E + 1023) 52)) (Z.land mant 0x000FFFFFFFFFFFFF)).

Section Build.
Context (range_is_readonly : Z -> Z -> bool) (host_mem : mem) (transparent_int : bool).

Definition try_const_promote (c : Context) (o : IROperand) (load_op : Op) : Z * Context :=
  if negb (const_promote c) then (-1, c)
  else match const_promote_addr o with
  | None => (-1, c)
  | Some addr =>
      let width := if Op_eqb load_op LoadF32Raw then 4 else 8 in
      if negb (range_is_readonly addr width) then (-1, c)
      else
        let bits :=
          if Op_eqb load_op LoadF32Raw then widen (load 4 host_mem addr)
          else load 8 host_mem addr in
        const_node_for_bits c bits
  end.

Definition try_const_promote_m80 (c : Context) (o : IROperand) : Z * Context :=
  if negb (const_promote c) then (-1, c)
  else match const_promote_addr o with
  | None => (-1, c)
  | Some addr =>
      if negb (range_is_readonly addr 10) then (-1, c)
      else
        match f80_to_f64_bits (load 8 host_mem addr) (load 2 host_mem (addr + 8)) with
        | None => (-1, c)
        | Some bits => const_node_for_bits c bits
        end
  end.

(** ** Loads and stores *)

Definition set_mem_operand (c : Context) (id : Z) (o : IROperand) : Context :=
  set_node c id (fun n => with_data n (PMem o)).

Definition build_fp_load (c : Context) (o : IROperand) : Z * Context :=
  let is_f32 := op_size o =? IROperandSize.S32 in
  if negb is_f32 && negb (op_size o =? IROperandSize.S64) then
    if op_size o =? IROperandSize.S80 then try_const_promote_m80 c o else (-1, c)
  else
    let load_op := if is_f32 then LoadF32Raw else LoadF64 in
    let '(promoted, c) := try_const_promote c o load_op in
    if 0 <=? promoted then (promoted, c)
    else
      let hit := mem_cse_lookup c o load_op in
      if 0 <=? hit then (hit, c)
      else
        get! id, c <- add_node c load_op (-1) (-1) (-1) ;;
        let c := set_mem_operand c id o in
        if is_f32 then
          get! id, c <- add_node c CvtF32ToF64 id (-1) (-1) ;;
          (id, mem_cse_insert c o load_op id)
        else (id, mem_cse_insert c o load_op id).

Definition int_load_op (sz : Z) : option Op :=
  if sz =? IROperandSize.S16 then Some LoadI16
  else if sz =? IROperandSize.S32 then Some LoadI32
  else if sz =? IROperandSize.S64 then Some LoadI64
  else None.

Definition build_int_load (c : Context) (o : IROperand) : Z * Context :=
  match int_load_op (op_size o) with
  | None => (-1, c)
  | Some load_op =>
      let hit := mem_cse_lookup c o load_op in
      if 0 <=? hit then (hit, c)
      else
        get! id, c <- add_node c load_op (-1) (-1) (-1) ;;
        let c := set_mem_operand c id o in
        (id, mem_cse_insert c o load_op id)
  end.

(** The raw-f32 node an f32 store of [val_node] writes; false when the
    narrowing node cannot be added. *)
Definition narrow_for_store (c : Context) (val_node : Z) : bool * Z * Context :=
  if Op_eqb (op (node c val_node)) CvtF32ToF64 then (true, input (node c val_node) 0, c)
  else if last_narrow_input c =? val_node then (true, last_narrow_node c, c)
  else
    let '(store_val, c) := add_node c CvtF64ToF32 val_node (-1) (-1) in
    if store_val <? 0 then (false, store_val, c)
    else (true, store_val, with_last_narrow c val_node store_val).

Definition build_fp_store (c : Context) (o : IROperand) (val_node : Z) : bool * Context :=
  let is_f32 := op_size o =? IROperandSize.S32 in
  if negb is_f32 && negb (op_size o =? IROperandSize.S64) then (false, c)
  else
    let '(ok, store_val, c) := if is_f32 then narrow_for_store c val_node else (true, val_node, c) in
    if negb ok then (false, c)
    else
      let store_op := if is_f32 then StoreF32Raw else StoreF64 in
      need! id, c <- add_node c store_op store_val (-1) (-1) ;;
      let c := set_mem_operand c id o in
      let c := mem_cse_evict_may_alias c o in
      if is_f32 then
        let '(fwd, c) :=
          if Op_eqb (op (node c val_node)) CvtF32ToF64 then (val_node, c)
          else add_node c CvtF32ToF64 store_val (-1) (-1) in
        (true, if 0 <=? fwd then mem_cse_insert c o LoadF32Raw fwd else c)
      else (true, mem_cse_insert c o LoadF64 val_node).

Definition int_store_op (sz : Z) : option Op :=
  if sz =? IROperandSize.S16 then Some StoreI16
  else if sz =? IROperandSize.S32 then Some StoreI32
  else if sz =? IROperandSize.S64 then Some StoreI64
  else None.

Definition build_int_store (c : Context) (o : IROperand) (val_node : Z) (truncate : bool) : bool * Context :=
  match int_store_op (op_size o) with
  | None => (false, c)
  | Some store_op =>
      need! id, c <- add_node c store_op val_node (-1) (-1) ;;
      let c := set_mem_operand c id o in
      let c := if truncate then set_node c id (fun n => with_flags n (Z.lor (flags n) kTruncate)) else c in
      (true, mem_cse_evict_may_alias c o)
  end.

(** ** Arithmetic *)

Definition add_arith (c : Context) (base_op : Op) (reversed : bool) (a b : Z) : Z * Context :=
  if reversed then add_node c base_op b a (-1) else add_node c base_op a b (-1).

Definition build_arith (c : Context) (i : IRInstr) (base_op : Op) (reversed : bool) : bool * Context :=
  if kind (operand i 0) =? IROperandKind.Register then
    let depth_dst := index (reg (operand i 0)) in
    let depth_src := index (reg (operand i 1)) in
    let '(dst_val, c) := resolve c depth_dst in
    let '(src_val, c) := resolve c depth_src in
    if (dst_val <? 0) || (src_val <? 0) then (false, c)
    else
      need! id, c <- add_arith c base_op reversed dst_val src_val ;;
      (true, set_slot c depth_dst id)
  else
    need! st0, c <- resolve c 0 ;;
    need! mem_val, c <- build_fp_load c (operand i 0) ;;
    need! id, c <- add_arith c base_op reversed st0 mem_val ;;
    (true, set_slot c 0 id).

Definition build_arithp (c : Context) (i : IRInstr) (base_op : Op) (reversed : bool) : bool * Context :=
  let depth_dst := index (reg (operand i 0)) in
  let '(dst_val, c) := resolve c depth_dst in
  let '(src_val, c) := resolve c 0 in
  if (dst_val <? 0) || (src_val <? 0) then (false, c)
  else
    need! id, c <- add_arith c base_op reversed dst_val src_val ;;
    (true, pop (set_slot c depth_dst id)).

(** fiadd ... fidivr. *)
Definition build_iarith (c : Context) (i : IRInstr) (arith_op : Op) (reversed : bool) : bool * Context :=
  need! st0, c <- resolve c 0 ;;
  need! mem_val, c <- build_int_load c (operand i 0) ;;
  need! id, c <- add_arith c arith_op reversed st0 mem_val ;;
  (true, set_slot c 0 id).

(** fabs, fsqrt, frndint. *)
Definition build_unary (c : Context) (o : Op) : bool * Context :=
  need! st0, c <- resolve c 0 ;;
  need! id, c <- add_node c o st0 (-1) (-1) ;;
  (true, set_slot c 0 id).

Definition build_fchs (c : Context) : bool * Context :=
  need! st0, c <- resolve c 0 ;;
  if Op_eqb (op (node c st0)) FNeg then (true, set_slot c 0 (input (node c st0) 0))
  else
    need! id, c <- add_node c FNeg st0 (-1) (-1) ;;
    (true, set_slot c 0 id).

(** ** Comparisons *)

Definition pops (c : Context) (n : nat) : Context := Nat.iter n pop c.

Definition build_fcom (c : Context) (i : IRInstr) (num_pops : nat) (is_fcompp : bool) : bool * Context :=
  need! lhs, c <- resolve c 0 ;;
  need! rhs, c <-
    (if is_fcompp then resolve c 1
     else if kind (operand i 1) =? IROperandKind.Register then resolve c (index (reg (operand i 1)))
     else build_fp_load c (operand i 1)) ;;
  need! id, c <- add_node c FCmp lhs rhs (-1) ;;
  (true, pops (with_last_fcmp c id) num_pops).

Definition build_ficom (c : Context) (i : IRInstr) (is_popping : bool) : bool * Context :=
  need! lhs, c <- resolve c 0 ;;
  need! rhs, c <- build_int_load c (operand i 0) ;;
  need! id, c <- add_node c FCmp lhs rhs (-1) ;;
  let c := with_last_fcmp c id in
  (true, if is_popping then pop c else c).

Definition build_fcomi (c : Context) (i : IRInstr) (is_popping : bool) : bool * Context :=
  need! st0, c <- resolve c 0 ;;
  need! src, c <- resolve c (index (reg (operand i 1))) ;;
  need! id, c <- add_node c FComI st0 src (-1) ;;
  let c := if is_popping then set_node c id (fun n => with_flags n (Z.lor (flags n) kFcomIPopping)) else c in
  let c := with_last_fcomi c id in
  (true, if is_popping then pop c else c).

Definition build_fcmov (c : Context) (i : IRInstr) (aarch64_cond : Z) : bool * Context :=
  if last_fcomi c <? 0 then (false, c)
  else
    need! st0, c <- resolve c 0 ;;
    need! src, c <- resolve c (index (reg (operand i 1))) ;;
    need! id, c <- add_node c FCSel st0 src (-1) ;;
    let c := set_node c id (fun n => with_data n (PImm (u64 aarch64_cond))) in
    (true, set_slot c 0 id).

Definition build_ftst (c : Context) : bool * Context :=
  need! st0, c <- resolve c 0 ;;
  need! id, c <- add_node c FTst st0 (-1) (-1) ;;
  (true, with_last_fcmp c id).

(** ** Guest integer instructions *)

Definition guest_mem_operand_ok (m : IROperand) (allow64 : bool) : bool :=
  let size_ok :=
    if (op_size m =? IROperandSize.S8) || (op_size m =? IROperandSize.S16) || (op_size m =? IROperandSize.S32)
    then true
    else if op_size m =? IROperandSize.S64 then allow64 else false in
  if kind m =? IROperandKind.MemRef then (if nz (seg_override m) then false else size_ok)
  else if kind m =? IROperandKind.AbsMem then size_ok
  else false.

Definition is_mem (o : IROperand) : bool :=
  (kind o =? IROperandKind.MemRef) || (kind o =? IROperandKind.AbsMem).

(** [ctx.guest_written_mask |= 1 << r; mem_cse_evict_reg(ctx, r)]. *)
Definition guest_write (c : Context) (r : Z) : Context :=
  mem_cse_evict_reg (with_guest_written c (Z.lor (guest_written_mask c) (u16 (Z.shiftl 1 r)))) r.

(** mov m, r and mov m, i. *)
Definition build_guest_store (c : Context) (dst src : IROperand) : bool * Context :=
  let finish r :=
    need! id, c <- r ;;
    let c := set_mem_operand c id dst in
    (true, mem_cse_evict_may_alias c dst) in
  if kind src =? IROperandKind.Register then
    if negb (is_gpr (reg src)) then (false, c)
    else if Z.land (reg src) 0xF0 =? 0x10 then (false, c)
    else if negb (guest_mem_operand_ok dst true) then (false, c)
    else finish (get! id, c <- add_node c GuestStoreR (-1) (-1) (-1) ;;
                 (id, set_node c id (fun n => with_aux n (index (reg src)))))
  else if is_mem src then (false, c)
  else if (kind src =? IROperandKind.Immediate) && nz (mem_flags src) then (false, c)
  else if negb (guest_mem_operand_ok dst false) then (false, c)
  else finish (get! id, c <- add_node c GuestStoreI (-1) (-1) (-1) ;;
               (id, set_node c id (fun n => with_aux n (u32 (value src))))).

(** mov r, m and movzx/movsx r32, m. *)
Definition build_guest_load (c : Context) (opc : Z) (dst src : IROperand) (dst64 : bool) : bool * Context :=
  let is_mov := opc =? kOpcodeName.mov in
  if negb (guest_mem_operand_ok src (is_mov && dst64)) then (false, c)
  else if negb is_mov && dst64 then (false, c)
  else
    need! id, c <- add_node c GuestLoad (-1) (-1) (-1) ;;
    let c := set_mem_operand c id src in
    let c := set_node c id (fun n => with_aux n
               (Z.lor (index (reg dst)) (if opc =? kOpcodeName.movsx then Z.shiftl 1 4 else 0))) in
    (true, guest_write c (index (reg dst))).

(** The register forms: the node's op and payload, or a refusal. *)
Definition guest_mov (dst src : IROperand) (dst64 : bool) : option (Op * GuestPayload) :=
  let d := index (reg dst) in
  if kind src =? IROperandKind.Register then
    if negb (is_gpr (reg src)) || negb (op_size src =? op_size dst) then None
    else Some (GuestMovRR, mkPayload 0 d (index (reg src)) 0 0 dst64 false false false false)
  else if (kind src =? IROperandKind.Immediate) && nz (mem_flags src) then None
  else if dst64 then None
  else Some (GuestMovRI, mkPayload (u32 (value src)) d 0 0 0 dst64 false false false false).

Definition ext_class (opc : Z) (src : IROperand) : option Z :=
  if op_size src =? IROperandSize.S8 then
    if 0x10 <? Z.land (reg src) 0xF0 then None
    else Some (if Z.land (reg src) 0xF0 =? 0x10 then 1 else 0)
  else if op_size src =? IROperandSize.S16 then Some 2
  else if op_size src =? IROperandSize.S32 then
    if negb (opc =? kOpcodeName.movsxd) then None else Some 3
  else None.

Definition guest_ext (opc : Z) (dst src : IROperand) (dst64 : bool) : option (Op * GuestPayload) :=
  if negb (kind src =? IROperandKind.Register) || negb (is_gpr (reg src)) then None
  else match ext_class opc src with
  | None => None
  | Some cls =>
      Some (GuestExt, mkPayload 0 (index (reg dst)) (index (reg src)) 0 cls dst64
                        (negb (opc =? kOpcodeName.movzx)) false false false)
  end.

Definition guest_lea (dst src : IROperand) (dst64 : bool) : option (Op * GuestPayload) :=
  if negb (kind src =? IROperandKind.MemRef) then None
  else if nz (seg_override src) then None
  else
    let d := disp src in
    if (d <? - 2 ^ 31) || (2 ^ 31 - 1 <? d) then None
    else if 3 <? shift_amount src then None
    else Some (GuestLea, mkPayload (u32 d) (index (reg dst)) (Z.land (base_reg src) 0xF)
                 (Z.land (index_reg src) 0xF) (shift_amount src) dst64 false
                 (nz (Z.land (mem_flags src) 1)) (nz (Z.land (mem_flags src) 2))
                 (addr_size src =? IROperandSize.S32)).

Definition guest_reg_form (opc : Z) (dst src : IROperand) (dst64 : bool) : option (Op * GuestPayload) :=
  if opc =? kOpcodeName.mov then guest_mov dst src dst64
  else if (opc =? kOpcodeName.movzx) || (opc =? kOpcodeName.movsx) || (opc =? kOpcodeName.movsxd)
  then guest_ext opc dst src dst64
  else if opc =? kOpcodeName.lea then guest_lea dst src dst64
  else None.

Definition build_guest_int (c : Context) (i : IRInstr) : bool * Context :=
  let opc := opcode i in
  if negb transparent_int then (false, c)
  else if (opc =? kOpcodeName.nop) || (opc =? kOpcodeName.wait) then (true, c)
  else if num_operands i <? 2 then (false, c)
  else
    let dst := operand i 0 in
    let src := operand i 1 in
    if (opc =? kOpcodeName.mov) && is_mem dst then build_guest_store c dst src
    else if negb (kind dst =? IROperandKind.Register) || negb (is_gpr (reg dst)) then (false, c)
    else
      let dst64 := op_size dst =? IROperandSize.S64 in
      if negb dst64 && negb (op_size dst =? IROperandSize.S32) then (false, c)
      else if is_mem src && ((opc =? kOpcodeName.mov) || (opc =? kOpcodeName.movzx) || (opc =? kOpcodeName.movsx))
      then build_guest_load c opc dst src dst64
      else match guest_reg_form opc dst src dst64 with
      | None => (false, c)
      | Some (node_op, p) =>
          need! id, c <- add_node c node_op (-1) (-1) (-1) ;;
          let c := set_node c id (fun n => with_data n (PImm (guest_pack p))) in
          (true, guest_write c (p_dst p))
      end.

(** ** The main loop *)

Definition push_id (r : Z * Context) : bool * Context := need! id, c <- r ;; (true, push c id).

Definition build_fld (c : Context) (i : IRInstr) : bool * Context :=
  if kind (operand i 0) =? IROperandKind.Register then push_id (resolve c (index (reg (operand i 1))))
  else push_id (build_fp_load c (operand i 0)).

(** [None]: a depth of 8 or more, which the source does not check, is
    written outside [slot_val]. *)
Definition build_fst (c : Context) (i : IRInstr) (is_pop : bool) : option (bool * Context) :=
  let finish c := (true, if is_pop then pop c else c) in
  let '(st0, c) := resolve c 0 in
  if st0 <? 0 then Some (false, c)
  else if kind (operand i 0) =? IROperandKind.Register then
    let dst_depth := index (reg (operand i 0)) in
    if dst_depth =? 0 then Some (finish c)
    else if 8 <=? dst_depth then None
    else Some (finish (set_slot c dst_depth st0))
  else
    let '(ok, c) := build_fp_store c (operand i 0) st0 in
    Some (if ok then finish c else (false, c)).

Definition build_fist (c : Context) (i : IRInstr) (truncate is_pop : bool) : bool * Context :=
  need! st0, c <- resolve c 0 ;;
  let '(ok, c) := build_int_store c (operand i 0) st0 truncate in
  if ok then (true, if is_pop then pop c else c) else (false, c).

(** A failed [resolve] is ignored, as in the source. *)
Definition build_fxch (c : Context) (i : IRInstr) : bool * Context :=
  let depth := index (reg (operand i 1)) in
  if (depth <=? 0) || (8 <=? depth) then (false, c)
  else
    let c := snd (resolve c 0) in
    let c := snd (resolve c depth) in
    let tmp := slot c 0 in
    let c := set_slot c 0 (slot c depth) in
    (true, set_slot c depth tmp).

Definition build_fstsw (c : Context) (i : IRInstr) : bool * Context :=
  if negb (kind (operand i 0) =? IROperandKind.Register) then (false, c)
  else
    need! id, c <- add_node c FStsw (-1) (-1) (-1) ;;
    let c := set_node c id (fun n =>
               with_inputs n [last_fcmp c; index (reg (operand i 0)); top_delta c]) in
    (true, mem_cse_evict_reg c 0).

Definition build_fldcw (c : Context) (i : IRInstr) : bool * Context :=
  need! id, c <- add_node c StoreCW (-1) (-1) (-1) ;;
  (true, set_mem_operand c id (operand i 0)).

Definition build_fnstcw (c : Context) (i : IRInstr) : bool * Context :=
  need! id, c <- add_node c LoadCW (-1) (-1) (-1) ;;
  let c := set_mem_operand c id (operand i 0) in
  (true, mem_cse_evict_may_alias c (operand i 0)).

Definition arith_op (o : arith) : Op :=
  match o with Add => FAdd | Sub => FSub | Mul => FMul | Div => FDiv end.

(** The AArch64 condition the FCMOV cases pass. *)
Definition cond_code (cc : cond) (negated : bool) : Z :=
  match cc, negated with
  | Below, false => 3 | BelowEq, false => 9 | Equal, false => 0 | Unordered, false => 6
  | Below, true => 2 | BelowEq, true => 8 | Equal, true => 1 | Unordered, true => 7
  end.

(** The switch of the main loop. *)
Definition build_instr (c : Context) (i : IRInstr) : option (bool * Context) :=
  match x87op_of (opcode i) with
  | Some (Fconst bits) => Some (push_id (const_node_for_bits c bits))
  | Some Fld => Some (build_fld c i)
  | Some Fild => Some (push_id (build_int_load c (operand i 0)))
  | Some (Fst is_pop) => build_fst c i is_pop
  | Some (Fist truncate is_pop) => Some (build_fist c i truncate is_pop)
  | Some (Farith o reversed) => Some (build_arith c i (arith_op o) reversed)
  | Some (Fiarith o reversed) => Some (build_iarith c i (arith_op o) reversed)
  | Some (Farithp o reversed) => Some (build_arithp c i (arith_op o) reversed)
  | Some Fchs => Some (build_fchs c)
  | Some Fabs => Some (build_unary c FAbs)
  | Some Fsqrt => Some (build_unary c FSqrt)
  | Some Frndint => Some (build_unary c FRndInt)
  | Some Fxch => Some (build_fxch c i)
  | Some (Fcom n pp) => Some (build_fcom c i n pp)
  | Some (Ficom is_popping) => Some (build_ficom c i is_popping)
  | Some (Fcomi is_popping) => Some (build_fcomi c i is_popping)
  | Some (Fcmov cc negated) => Some (build_fcmov c i (cond_code cc negated))
  | Some Ftst => Some (build_ftst c)
  | Some Fstsw => Some (build_fstsw c i)
  | Some Fldcw => Some (build_fldcw c i)
  | Some Fnstcw => Some (build_fnstcw c i)
  | Some Fnop => Some (true, c)
  | Some Guest => Some (build_guest_int c i)
  | None => Some (false, c)
  end.

(** The loop over the run's instructions, [i] of them consumed so far. *)
Fixpoint build_loop (c : Context) (l : list IRInstr) (i : Z) : option Context :=
  match l with
  | [] => Some c
  | ins :: rest =>
      match build_instr c ins with
      | None => None
      | Some (false, c) => Some c
      | Some (true, c) => build_loop (with_consumed c (s16 (i + 1))) rest (i + 1)
      end
  end.

(** The carried-in FXCH permutation: [slot_val] from [perm], then every
    displaced slot resolved. *)
Fixpoint resolve_perm (c : Context) (perm : list Z) (d : Z) : bool * Context :=
  match perm with
  | [] => (true, c)
  | p :: rest =>
      if p =? d then resolve_perm c rest (d + 1)
      else
        let '(id, c) := resolve c d in
        if id <? 0 then (false, c) else resolve_perm c rest (d + 1)
  end.

Definition build (instr_array : list IRInstr) (start_idx run_length : nat)
  (perm : option (list Z)) (promote : bool) : option (bool * Context) :=
  let c := with_const_promote Context_init promote in
  let '(ok, c) :=
    match perm with
    | None => (true, c)
    | Some p => resolve_perm (with_slots c (map (fun x => - (x + 1)) p) (top_delta c)) p 0
    end in
  if ok then
    match build_loop c (firstn run_length (skipn start_idx instr_array)) 0 with
    | Some c => Some (2 <=? consumed c, c)
    | None => None
    end
  else Some (false, c).
End Build.

(** fld1; fld dword [eax]; faddp; fstp qword [esp+4]: four nodes of work. *)
Example build_run :
  let st i := mkOperand 0 2 (0x70 + i) 0 0 0 0 0 0 in
  let m32 := mkOperand 1 2 2 0 1 0 0 0 0 in
  let m64 := mkOperand 1 3 2 0 1 4 0 0 4 in
  match build (fun _ _ => false) (fun _ => 0) false
    [mkInstr kOpcodeName.fld1 0 []; mkInstr kOpcodeName.fld 1 [m32];
     mkInstr kOpcodeName.faddp 2 [st 1; st 0]; mkInstr kOpcodeName.fstp 1 [m64]] 0 4 None false with
  | Some (ok, c) => (ok, consumed c, top_delta c, map (fun n => (op n, inputs n)) (nodes c), slot_val c)
  | None => (false, 0, 0, [], [])
  end =
  (true, 4, 0,
   [(ConstOne, [-1; -1; -1]); (LoadF32Raw, [-1; -1; -1]); (CvtF32ToF64, [1; -1; -1]);
    (FAdd, [0; 2; -1]); (StoreF64, [3; -1; -1])],
   [-1; -2; -3; -4; -5; -6; -100; -100]).
Proof. vm_compute. reflexivity. Qed.
