(* ===== verification/Fpu.v ===== *)
(** The abstract machine a run of x87 instructions is specified by: the
    eight-deep register stack of doubles, the status and control words, the
    x86 flags FCOMI sets, guest registers and guest memory.  [exec] executes
    one instruction the way the instruction set describes it, with the
    program's choice of 64-bit doubles for the stack.  [None] is what the run
    compiler does not model: reading an empty register (stack fault), a
    signalling NaN read as a float, a conversion to an integer out of range,
    an access that wraps the address space, or a store to a read-only page. *)

From S2P Require Import Prelude F64 GuestMem IROperand.
From S2P Require X87State X87Runtime CompareProps.

Definition guard {A} (b : bool) (k : option A) : option A := if b then k else None.

Record fpu := mkFpu {
  stack : list (option Z);   (* ST(0) first; [None] is an empty register *)
  top : Z;
  sw : Z;                    (* the status word, its TOP field unused *)
  cw : Z;
  zf : bool; pf : bool; cf : bool;
  regs : Z -> Z;
  gmem : mem
}.

Definition with_stack s v t := mkFpu v t (sw s) (cw s) (zf s) (pf s) (cf s) (regs s) (gmem s).
Definition with_sw s v := mkFpu (stack s) (top s) v (cw s) (zf s) (pf s) (cf s) (regs s) (gmem s).
Definition with_cw s v := mkFpu (stack s) (top s) (sw s) v (zf s) (pf s) (cf s) (regs s) (gmem s).
Definition with_flags s z p c := mkFpu (stack s) (top s) (sw s) (cw s) z p c (regs s) (gmem s).
Definition with_regs s v := mkFpu (stack s) (top s) (sw s) (cw s) (zf s) (pf s) (cf s) v (gmem s).
Definition with_gmem s v := mkFpu (stack s) (top s) (sw s) (cw s) (zf s) (pf s) (cf s) (regs s) v.

(** The status word as FSTSW reads it. *)
Definition status_word (w t : Z) : Z := Z.lor (Z.land w (Z.lnot 0x3800)) (Z.shiftl t 11).

(** C3, C2, C0 of a comparison, C1 cleared (Intel SDM, FCOM). *)
Definition set_cc (w : Z) (c : option comparison) : Z :=
  Z.lor (Z.land w (Z.lnot X87Runtime.kCC0123)) (CompareProps.cc_bits c).

Definition set_reg (r : Z -> Z) (d v : Z) : Z -> Z := fun x => if x =? d then v else r x.

Definition size_bytes (sz : Z) : nat :=
  if sz =? IROperandSize.S8 then 1
  else if sz =? IROperandSize.S16 then 2
  else if sz =? IROperandSize.S32 then 4
  else if sz =? IROperandSize.S64 then 8 else 0.

Definition st (s : fpu) (d : Z) : option Z := nth (Z.to_nat d) (stack s) None.
Definition set_st (s : fpu) (d v : Z) : fpu :=
  with_stack s (list_set (stack s) (Z.to_nat d) (Some v)) (top s).
Definition fpush (s : fpu) (v : Z) : fpu :=
  with_stack s (Some v :: firstn 7 (stack s)) ((top s - 1) mod 8).
Definition fpop (s : fpu) : fpu := with_stack s (tl (stack s) ++ [None]) ((top s + 1) mod 8).
Definition fpops (s : fpu) (n : nat) : fpu := Nat.iter n fpop s.

Definition arith_fn (o : arith) : Z -> Z -> Z :=
  match o with Add => fadd f64 | Sub => fsub f64 | Mul => fmul f64 | Div => fdiv f64 end.
Definition arith_apply (o : arith) (reversed : bool) (a b : Z) : Z :=
  if reversed then arith_fn o b a else arith_fn o a b.

(** ** Addressing *)

Section Machine.
Context (segbase : Z -> Z) (ro : Z -> bool).

Definition asize (o : IROperand) : Z := if addr_size o =? IROperandSize.S64 then 64 else 32.

Definition mem_sum (r : Z -> Z) (o : IROperand) : Z :=
  (if nz (Z.land (mem_flags o) 1) then wrap (asize o) (r (Z.land (base_reg o) 0xF)) else 0) +
  (if nz (Z.land (mem_flags o) 2)
   then Z.shiftl (wrap (asize o) (r (Z.land (index_reg o) 0xF))) (shift_amount o) else 0) +
  disp o.

(** The address a memory operand denotes. *)
Definition addr (r : Z -> Z) (o : IROperand) : Z :=
  if kind o =? IROperandKind.MemRef then
    let a := wrap (asize o) (mem_sum r o) in
    if seg_override o =? 0 then a else u64 (segbase (seg_override o) + a)
  else wrap (asize o) (value o).

(** An access of [n] bytes that does not wrap. *)
Definition in_model (r : Z -> Z) (o : IROperand) (n : nat) : bool :=
  ((addr_size o =? IROperandSize.S32) || (addr_size o =? IROperandSize.S64)) &&
  (if kind o =? IROperandKind.MemRef
   then (0 <=? mem_sum r o) && (mem_sum r o + Z.of_nat n <? 2 ^ asize o)
   else kind o =? IROperandKind.AbsMem) &&
  (addr r o + Z.of_nat n <? 2 ^ 64).

Definition writable (a : Z) (n : nat) : bool :=
  forallb (fun k => negb (ro (a + Z.of_nat k))) (seq 0 n).

Definition read (s : fpu) (o : IROperand) (n : nat) : option Z :=
  guard (in_model (regs s) o n) (Some (load n (gmem s) (addr (regs s) o))).

Definition write (s : fpu) (o : IROperand) (n : nat) (v : Z) : option fpu :=
  guard (in_model (regs s) o n && writable (addr (regs s) o) n)
    (Some (with_gmem s (store n (gmem s) (addr (regs s) o) v))).

(** An 80-bit real in canonical form, as the runtime converts it. *)
Definition read80 (s : fpu) (o : IROperand) : option Z :=
  guard (in_model (regs s) o 10)
    (let m := load 8 (gmem s) (addr (regs s) o) in
     let se := load 2 (gmem s) (addr (regs s) o + 8) in
     let e := Z.land se 0x7FFF in
     guard (((m =? 0) && (e =? 0)) ||
            (Z.testbit m 63 && negb (e =? 0) && ((m =? 2 ^ 63) || negb (e =? 0x7FFF))))
       (Some (fst (X87State.ConvertX87RegisterToFloat64 (X87State.mkF80 m se))))).

Definition fp_load (s : fpu) (o : IROperand) : option Z :=
  if op_size o =? IROperandSize.S32 then
    let? r := read s o 4 in guard (negb (is_snan f32 r)) (Some (widen r))
  else if op_size o =? IROperandSize.S64 then read s o 8
  else if op_size o =? IROperandSize.S80 then read80 s o
  else None.

Definition is_int_size (sz : Z) : bool :=
  (sz =? IROperandSize.S16) || (sz =? IROperandSize.S32) || (sz =? IROperandSize.S64).

Definition int_load (s : fpu) (o : IROperand) : option Z :=
  let n := size_bytes (op_size o) in
  guard (is_int_size (op_size o))
    (let? r := read s o n in Some (of_int f64 (sgn (8 * Z.of_nat n) r))).

Definition fp_store (s : fpu) (o : IROperand) (v : Z) : option fpu :=
  if op_size o =? IROperandSize.S32 then write s o 4 (narrow v)
  else if op_size o =? IROperandSize.S64 then write s o 8 v
  else None.

(** FIST and FISTTP of a value that fits. *)
Definition int_store (s : fpu) (o : IROperand) (v : Z) (truncate : bool) : option fpu :=
  let n := size_bytes (op_size o) in
  let w := 8 * Z.of_nat n in
  let i := int_of (if truncate then RZero else X87Runtime.rc_mode (cw s)) f64 v in
  guard (is_int_size (op_size o) && negb (is_nan f64 v || is_inf f64 v) &&
         (- 2 ^ (w - 1) <=? i) && (i <? 2 ^ (w - 1)))
    (write s o n i).

(** ** Guest integer instructions *)

Definition exec_mov_store (s : fpu) (dst src : IROperand) : option fpu :=
  let n := size_bytes (op_size dst) in
  guard (0 <? Z.of_nat n)
    (if kind src =? IROperandKind.Register then write s dst n (regs s (index (reg src)))
     else write s dst n (u32 (value src))).

(** mov zero-extends a 32-bit result, as movzx does; movsx is to 32 bits. *)
Definition exec_mov_load (s : fpu) (opc : Z) (dst src : IROperand) : option fpu :=
  let n := size_bytes (op_size src) in
  guard (0 <? Z.of_nat n)
    (let? v := read s src n in
     Some (with_regs s (set_reg (regs s) (index (reg dst))
       (if opc =? kOpcodeName.movsx then u32 (sgn (8 * Z.of_nat n) v) else v)))).

(** The source of movzx, movsx and movsxd: width and value. *)
Definition ext_source (s : fpu) (src : IROperand) : Z * Z :=
  let r := regs s (index (reg src)) in
  if op_size src =? IROperandSize.S8 then
    (8, if Z.land (reg src) 0xF0 =? 0x10 then bits r 8 8 else bits r 0 8)
  else if op_size src =? IROperandSize.S16 then (16, bits r 0 16)
  else (32, bits r 0 32).

Definition exec_reg (s : fpu) (opc : Z) (dst src : IROperand) : option Z :=
  let dw := if op_size dst =? IROperandSize.S64 then 64 else 32 in
  if opc =? kOpcodeName.mov then
    if kind src =? IROperandKind.Register then Some (wrap dw (regs s (index (reg src))))
    else Some (u32 (value src))
  else if opc =? kOpcodeName.movzx then Some (snd (ext_source s src))
  else if (opc =? kOpcodeName.movsx) || (opc =? kOpcodeName.movsxd) then
    Some (wrap dw (sgn (fst (ext_source s src)) (snd (ext_source s src))))
  else if opc =? kOpcodeName.lea then
    guard (((addr_size src =? IROperandSize.S32) || (addr_size src =? IROperandSize.S64)) &&
           (0 <=? shift_amount src))
      (Some (wrap dw (wrap (asize src) (mem_sum (regs s) src))))
  else None.

Definition is_mem_kind (o : IROperand) : bool :=
  (kind o =? IROperandKind.MemRef) || (kind o =? IROperandKind.AbsMem).

Definition exec_guest (s : fpu) (i : IRInstr) : option fpu :=
  let opc := opcode i in
  let dst := operand i 0 in
  let src := operand i 1 in
  if (opc =? kOpcodeName.nop) || (opc =? kOpcodeName.wait) then Some s
  else if is_mem_kind dst then exec_mov_store s dst src
  else if is_mem_kind src && negb (opc =? kOpcodeName.lea) then exec_mov_load s opc dst src
  else let? v := exec_reg s opc dst src in
       Some (with_regs s (set_reg (regs s) (index (reg dst)) v)).

(** ** One instruction *)

Definition compare (s : fpu) (a b : Z) : fpu := with_sw s (set_cc (sw s) (fcompare f64 a b)).

Definition exec_arith (s : fpu) (i : IRInstr) (o : arith) (rev : bool) : option fpu :=
  if kind (operand i 0) =? IROperandKind.Register then
    let? a := st s (index (reg (operand i 0))) in
    let? b := st s (index (reg (operand i 1))) in
    Some (set_st s (index (reg (operand i 0))) (arith_apply o rev a b))
  else
    let? a := st s 0 in
    let? b := fp_load s (operand i 0) in
    Some (set_st s 0 (arith_apply o rev a b)).

Definition exec_fst (s : fpu) (i : IRInstr) (pops : bool) : option fpu :=
  let? v := st s 0 in
  let? s :=
    if kind (operand i 0) =? IROperandKind.Register
    then Some (set_st s (index (reg (operand i 0))) v)
    else fp_store s (operand i 0) v in
  Some (if pops then fpop s else s).

Definition exec_fcom (s : fpu) (i : IRInstr) (n : nat) (pp : bool) : option fpu :=
  let? a := st s 0 in
  let? b :=
    if pp then st s 1
    else if kind (operand i 1) =? IROperandKind.Register then st s (index (reg (operand i 1)))
    else fp_load s (operand i 1) in
  Some (fpops (compare s a b) n).

(** ZF, PF, CF = 1,1,1 unordered; 0,0,1 less; 0,0,0 greater; 1,0,0 equal. *)
Definition fcomi_state (s : fpu) (c : option comparison) : fpu :=
  match c with
  | None => with_flags s true true true
  | Some Lt => with_flags s false false true
  | Some Gt => with_flags s false false false
  | Some Eq => with_flags s true false false
  end.

Definition exec_fcomi (s : fpu) (i : IRInstr) (pops : bool) : option fpu :=
  let? a := st s 0 in
  let? b := st s (index (reg (operand i 1))) in
  let s := fcomi_state s (fcompare f64 a b) in
  Some (if pops then fpop s else s).

Definition cond_holds (s : fpu) (c : cond) (negated : bool) : bool :=
  xorb negated
    match c with
    | Below => cf s | BelowEq => cf s || zf s | Equal => zf s | Unordered => pf s
    end.

Definition unary (s : fpu) (f : Z -> Z) : option fpu :=
  let? v := st s 0 in Some (set_st s 0 (f v)).

Definition exec (s : fpu) (i : IRInstr) : option fpu :=
  match x87op_of (opcode i) with
  | Some (Fconst b) => Some (fpush s b)
  | Some Fld =>
      let? v :=
        if kind (operand i 0) =? IROperandKind.Register then st s (index (reg (operand i 1)))
        else fp_load s (operand i 0) in
      Some (fpush s v)
  | Some Fild => let? v := int_load s (operand i 0) in Some (fpush s v)
  | Some (Fst pops) => exec_fst s i pops
  | Some (Fist truncate pops) =>
      let? v := st s 0 in
      let? s := int_store s (operand i 0) v truncate in
      Some (if pops then fpop s else s)
  | Some (Farith o rev) => exec_arith s i o rev
  | Some (Fiarith o rev) =>
      let? a := st s 0 in
      let? b := int_load s (operand i 0) in
      Some (set_st s 0 (arith_apply o rev a b))
  | Some (Farithp o rev) =>
      let? a := st s (index (reg (operand i 0))) in
      let? b := st s 0 in
      Some (fpop (set_st s (index (reg (operand i 0))) (arith_apply o rev a b)))
  | Some Fchs => unary s (fneg f64)
  | Some Fabs => unary s (fabs f64)
  | Some Fsqrt => unary s (fsqrt f64)
  | Some Frndint => unary s (round_integral (X87Runtime.rc_mode (cw s)) f64)
  | Some Fxch =>
      let? a := st s 0 in
      let? b := st s (index (reg (operand i 1))) in
      Some (set_st (set_st s 0 b) (index (reg (operand i 1))) a)
  | Some (Fcom n pp) => exec_fcom s i n pp
  | Some (Ficom pops) =>
      let? a := st s 0 in
      let? b := int_load s (operand i 0) in
      Some (if pops then fpop (compare s a b) else compare s a b)
  | Some (Fcomi pops) => exec_fcomi s i pops
  | Some (Fcmov c negated) =>
      let? a := st s 0 in
      let? b := st s (index (reg (operand i 1))) in
      Some (set_st s 0 (if cond_holds s c negated then b else a))
  | Some Ftst => let? a := st s 0 in Some (compare s a f_zero)
  | Some Fstsw =>
      guard (index (reg (operand i 0)) =? 0)
        (Some (with_regs s (set_reg (regs s) 0
           (Z.lor (Z.land (regs s 0) (Z.lnot 0xFFFF)) (u16 (status_word (sw s) (top s)))))))
  | Some Fldcw => let? v := read s (operand i 0) 2 in Some (with_cw s v)
  | Some Fnstcw =>
      guard (op_size (operand i 0) =? IROperandSize.S16) (write s (operand i 0) 2 (cw s))
  | Some Fnop => Some s
  | Some Guest => exec_guest s i
  | None => None
  end.

Fixpoint exec_all (s : fpu) (l : list IRInstr) : option fpu :=
  match l with
  | [] => Some s
  | i :: l => let? s := exec s i in exec_all s l
  end.
End Machine.
