(* ===== verification/X87IREval.v ===== *)
(** What the nodes of a run mean: the value each computes and the effect it
    has, in node order, which is program order.  This is the contract of the
    lowering (X87IRLower.cpp, [case Op::...]): each value node's FPR holds
    this bit pattern, memory and state accesses are these. *)

From S2P Require Import Prelude F64 GuestMem IROperand X87IR Fpu.
From S2P Require X87Runtime.

Record ir := mkIr {
  vals : list Z;          (* by node id; 0 for a node without a value *)
  i_regs : Z -> Z;
  i_mem : mem;
  i_cw : Z;
  i_sw : Z;
  i_nzcv : Z
}.

Definition add_val s v := mkIr (vals s ++ [v]) (i_regs s) (i_mem s) (i_cw s) (i_sw s) (i_nzcv s).
Definition ir_regs s r := mkIr (vals s) r (i_mem s) (i_cw s) (i_sw s) (i_nzcv s).
Definition ir_mem s m := mkIr (vals s) (i_regs s) m (i_cw s) (i_sw s) (i_nzcv s).
Definition ir_cw s w := mkIr (vals s) (i_regs s) (i_mem s) w (i_sw s) (i_nzcv s).
Definition ir_sw s w := mkIr (vals s) (i_regs s) (i_mem s) (i_cw s) w (i_nzcv s).
Definition ir_nzcv s v := mkIr (vals s) (i_regs s) (i_mem s) (i_cw s) (i_sw s) v.

(** ConditionHolds of the Arm ARM on an NZCV word. *)
Definition a64_cond (c nzcv : Z) : bool :=
  let n := Z.testbit nzcv 31 in let z := Z.testbit nzcv 30 in
  let cy := Z.testbit nzcv 29 in let v := Z.testbit nzcv 28 in
  let b :=
    match Z.shiftr c 1 with
    | 0 => z | 1 => cy | 2 => n | 3 => v
    | 4 => cy && negb z | 5 => Bool.eqb n v | 6 => Bool.eqb n v && negb z
    | _ => true
    end in
  if Z.testbit c 0 && negb (c =? 15) then negb b else b.

(** The guest instructions by their payload (emit_guest_node). *)
Definition guest_value (o : Op) (r : Z -> Z) (p : GuestPayload) : Z :=
  match o with
  | GuestMovRR => wrap (if p_is64 p then 64 else 32) (r (p_src p))
  | GuestMovRI => p_imm p
  | GuestExt =>
      let lsb := if p_cls p =? 1 then 8 else 0 in
      let width := if 2 <=? p_cls p then (if p_cls p =? 3 then 32 else 16) else 8 in
      let x := bits (r (p_src p)) lsb width in
      if p_sign p then wrap (if p_is64 p then 64 else 32) (sgn width x) else x
  | _ => (* GuestLea *)
      let w := if p_is64 p && negb (p_addr32 p) then 64 else 32 in
      wrap w ((if p_has_base p then r (p_src p) else 0) +
              (if p_has_index p then Z.shiftl (r (p_idx p)) (p_cls p) else 0) + s32 (p_imm p))
  end.

Section Eval.
Context (segbase : Z -> Z) (stack0 : list (option Z)) (top0 : Z).

Definition initial (d : Z) : Z :=
  match nth (Z.to_nat d) stack0 None with Some x => x | None => 0 end.

(** The machine state a node leaves and its value, [v j] the value of its
    j-th input. *)
Definition node_sem (s : ir) (v : Z -> Z) (n : Node) : ir * Z :=
  let f := if nz (Z.land (flags n) kF32) then f32 else f64 in
  let a := addr segbase (i_regs s) (mem_operand n) in
  let get k := load k (i_mem s) a in
  let put k x := (ir_mem s (store k (i_mem s) a x), 0) in
  let rc := if nz (Z.land (flags n) kTruncate) then RZero else X87Runtime.rc_mode (i_cw s) in
  let sz := size_bytes (op_size (mem_operand n)) in
  let p := guest_unpack (imm_bits n) in
  if dead n then (s, 0)
  else match op n with
  | ReadSt => (s, initial (initial_depth n))
  | LoadF64 => (s, get 8%nat)
  | LoadF32Raw => (s, get 4%nat)
  | LoadI16 => (s, of_int f64 (s16 (get 2%nat)))
  | LoadI32 => (s, of_int f64 (s32 (get 4%nat)))
  | LoadI64 => (s, of_int f64 (s64 (get 8%nat)))
  | ConstZero => (s, f_zero)
  | ConstOne => (s, f_one)
  | ConstF64 => (s, imm_bits n)
  | CvtF32ToF64 => (s, widen (v 0))
  | CvtF64ToF32 => (s, narrow (v 0))
  | FAdd => (s, fadd f (v 0) (v 1))
  | FSub => (s, fsub f (v 0) (v 1))
  | FMul => (s, fmul f (v 0) (v 1))
  | FDiv => (s, fdiv f (v 0) (v 1))
  | FNMul => (s, fnmul f (v 0) (v 1))
  | FMAdd => (s, fma f (v 0) (v 1) (v 2))
  | FMSub => (s, fmsub f (v 0) (v 1) (v 2))
  | FNMSub => (s, fnmsub f (v 0) (v 1) (v 2))
  | FNeg => (s, fneg f (v 0))
  | FAbs => (s, fabs f (v 0))
  | FSqrt => (s, fsqrt f (v 0))
  | FRndInt => (s, round_integral (X87Runtime.rc_mode (i_cw s)) f64 (v 0))
  | FCSel => (s, if a64_cond (Z.land (imm_bits n) 0xF) (i_nzcv s) then v 1 else v 0)
  | StoreF64 => put 8%nat (v 0)
  | StoreF32Raw => put 4%nat (v 0)
  | StoreI16 => put 2%nat (fcvt_int rc 32 f64 (v 0))
  | StoreI32 => put 4%nat (fcvt_int rc 32 f64 (v 0))
  | StoreI64 => put 8%nat (fcvt_int rc 64 f64 (v 0))
  | FCmp => (ir_sw s (set_cc (i_sw s) (fcompare f64 (v 0) (v 1))), 0)
  | FTst => (ir_sw s (set_cc (i_sw s) (fcompare f64 (v 0) f_zero)), 0)
  | FComI => (ir_nzcv s (X87Runtime.fcomi_flags (v 0) (v 1)), 0)
  | FStsw =>
      let d := input n 1 in
      let w := status_word (i_sw s) ((top0 + input n 2) mod 8) in
      (ir_regs s (set_reg (i_regs s) d
        (Z.lor (Z.land (i_regs s d) (Z.lnot 0xFFFF)) (u16 w))), 0)
  | StoreCW => (ir_cw s (get 2%nat), 0)
  | LoadCW => put 2%nat (i_cw s)
  | GuestMovRR | GuestMovRI | GuestLea | GuestExt =>
      (ir_regs s (set_reg (i_regs s) (p_dst p) (guest_value (op n) (i_regs s) p)), 0)
  | GuestLoad =>
      let x := get sz in
      let x := if Z.testbit (aux n) 4 then u32 (sgn (8 * Z.of_nat sz) x) else x in
      (ir_regs s (set_reg (i_regs s) (Z.land (aux n) 0xF) x), 0)
  | GuestStoreR => put sz (i_regs s (Z.land (aux n) 0xF))
  | GuestStoreI => put sz (u32 (aux n))
  end.

Definition eval_node (s : ir) (n : Node) : ir :=
  let r := node_sem s (fun j => zget (vals s) (input n j)) n in
  add_val (fst r) (snd r).

Definition eval (s : ir) (l : list Node) : ir := fold_left eval_node l s.

(** The value a stack slot stands for. *)
Definition slot_value (s : ir) (v : Z) : option Z :=
  if 0 <=? v then Some (zget (vals s) v)
  else if -8 <=? v then nth (Z.to_nat (- (v + 1))) stack0 None
  else None.
End Eval.

(** Running the nodes of a context on a machine state, and the state it
    leaves: what the epilogue of the lowering writes back. *)
Definition ir_start (s : fpu) (nzcv : Z) : ir := mkIr [] (regs s) (gmem s) (cw s) (sw s) nzcv.

Definition eval_context (segbase : Z -> Z) (c : Context) (s : fpu) (nzcv : Z) : ir :=
  eval segbase (stack s) (top s) (ir_start s nzcv) (nodes c).

Definition ir_result (c : Context) (s : fpu) (e : ir) : fpu :=
  let keep := last_fcomi c <? 0 in
  mkFpu (map (slot_value (stack s) e) (slot_val c)) ((top s + top_delta c) mod 8) (i_sw e) (i_cw e)
    (if keep then zf s else Z.testbit (i_nzcv e) 30)
    (if keep then pf s else Z.testbit (i_nzcv e) 28)
    (if keep then cf s else negb (Z.testbit (i_nzcv e) 29))
    (i_regs e) (i_mem e).
