(* ===== verification/X87IRInv.v ===== *)
(** The invariant that ties a builder context to the machine state its nodes
    compute, and how each primitive of the context preserves it. *)

From S2P Require Import Prelude F64 X87State X87Props F64Props F32Props GuestMem IROperand X87IR.
From S2P Require Import X87IRBuild Fpu X87IREval.

(** ** Appending a node *)

Definition append (c : Context) (n : Node) : Context := with_nodes c (nodes c ++ [n]).
Definition new_node (o : Op) (i0 i1 i2 : Z) : Node := mkNode o kNone [i0; i1; i2] (PImm 0) 0.

(** [c'] has the nodes of [c], and more. *)
Definition mono (c c' : Context) : Prop := exists l, nodes c' = nodes c ++ l.

Lemma mono_refl c : mono c c.
Proof. exists []. symmetry. apply app_nil_r. Qed.

Lemma mono_nodes c c' : nodes c' = nodes c -> mono c c'.
Proof. intros H. exists []. rewrite H. symmetry. apply app_nil_r. Qed.

Lemma mono_trans c c' c'' : mono c c' -> mono c' c'' -> mono c c''.
Proof. intros [l H] [l' H']. exists (l ++ l'). rewrite H', H, app_assoc. reflexivity. Qed.

Lemma mono_append c n : mono c (append c n).
Proof. exists [n]. reflexivity. Qed.

Lemma mono_num c c' : mono c c' -> num_nodes c <= num_nodes c'.
Proof. intros [l H]. unfold num_nodes. rewrite H, length_app. lia. Qed.

Lemma num_append c n : num_nodes (append c n) = num_nodes c + 1.
Proof. unfold num_nodes, append. cbn [nodes with_nodes]. rewrite length_app. cbn. lia. Qed.

Lemma num_nonneg c : 0 <= num_nodes c.
Proof. unfold num_nodes. lia. Qed.

Lemma mono_node c c' id : mono c c' -> 0 <= id < num_nodes c -> node c' id = node c id.
Proof. intros [l H] Hid. unfold node, num_nodes in *. rewrite H, app_nth1 by lia. reflexivity. Qed.

Lemma node_append_new c n : node (append c n) (num_nodes c) = n.
Proof.
  unfold node, num_nodes, append. cbn [nodes with_nodes].
  rewrite Nat2Z.id, app_nth2, Nat.sub_diag by lia. reflexivity.
Qed.

Lemma list_set_last {A} (l : list A) x y : list_set (l ++ [x]) (length l) y = l ++ [y].
Proof. induction l; cbn; congruence. Qed.

Lemma set_node_append c n f : set_node (append c n) (num_nodes c) f = append c (f n).
Proof.
  unfold set_node. rewrite node_append_new. unfold append, num_nodes.
  cbn [nodes with_nodes]. rewrite Nat2Z.id, list_set_last. reflexivity.
Qed.

Lemma add_node_cases c o i0 i1 i2 :
  add_node c o i0 i1 i2 = (-1, c) \/
  add_node c o i0 i1 i2 = (num_nodes c, append c (new_node o i0 i1 i2)).
Proof. unfold add_node. destruct (_ <=? _); auto. Qed.

(** ** Slots *)

Lemma slot_set_eq c d v : 0 <= d < 8 -> length (slot_val c) = 8%nat -> slot (set_slot c d v) d = v.
Proof. intros Hd Hl. unfold slot, set_slot. cbn [slot_val with_slots]. apply zget_zset_eq. lia. Qed.

Lemma slot_set_ne c d d' v : 0 <= d -> 0 <= d' -> d <> d' -> slot (set_slot c d v) d' = slot c d'.
Proof. intros. unfold slot, set_slot. cbn [slot_val with_slots]. apply zget_zset_ne; assumption. Qed.

Lemma st_set_eq s d v : 0 <= d < 8 -> length (stack s) = 8%nat -> st (set_st s d v) d = Some v.
Proof. intros Hd Hl. unfold st, set_st. cbn [stack with_stack]. apply nth_list_set_eq. lia. Qed.

Lemma st_set_ne s d d' v : 0 <= d -> 0 <= d' -> d <> d' -> st (set_st s d v) d' = st s d'.
Proof. intros. unfold st, set_st. cbn [stack with_stack]. apply nth_list_set_ne. lia. Qed.

Lemma nth_firstn_lt {A} (l : list A) n k d : (n < k)%nat -> nth n (firstn k l) d = nth n l d.
Proof.
  revert n k. induction l as [|a l IH]; intros n k H.
  - rewrite firstn_nil. reflexivity.
  - destruct k; [lia|]. destruct n; [reflexivity|]. cbn. apply IH. lia.
Qed.

Lemma slot_push c v d : 0 <= d < 8 ->
  slot (X87IR.push c v) d = if d =? 0 then v else slot c (d - 1).
Proof.
  intros Hd. unfold slot, zget, X87IR.push. cbn [slot_val with_slots].
  destruct (Z.eqb_spec d 0) as [->|Hne]; [reflexivity|].
  replace (Z.to_nat d) with (S (Z.to_nat (d - 1))) by lia. cbn [nth]. apply nth_firstn_lt. lia.
Qed.

Lemma st_fpush s v d : 0 <= d < 8 -> st (fpush s v) d = if d =? 0 then Some v else st s (d - 1).
Proof.
  intros Hd. unfold st, fpush. cbn [stack with_stack].
  destruct (Z.eqb_spec d 0) as [->|Hne]; [reflexivity|].
  replace (Z.to_nat d) with (S (Z.to_nat (d - 1))) by lia. cbn [nth]. apply nth_firstn_lt. lia.
Qed.

Lemma nth_tl_app {A} (l : list A) x n d : length l = 8%nat -> (n < 8)%nat ->
  nth n (tl l ++ [x]) d = if (n =? 7)%nat then x else nth (S n) l d.
Proof.
  intros Hl Hn. destruct l as [|a l]; [discriminate|]. injection Hl as Hl. cbn [tl nth].
  destruct (Nat.eqb_spec n 7) as [->|Hne].
  - rewrite app_nth2, Hl, Nat.sub_diag by lia. reflexivity.
  - rewrite app_nth1 by lia. reflexivity.
Qed.

Lemma slot_pop c d : length (slot_val c) = 8%nat -> 0 <= d < 8 ->
  slot (X87IR.pop c) d = if d =? 7 then -100 else slot c (d + 1).
Proof.
  intros Hl Hd. unfold slot, zget, X87IR.pop. cbn [slot_val with_slots].
  rewrite nth_tl_app by lia. replace (Z.to_nat (d + 1)) with (S (Z.to_nat d)) by lia.
  destruct (Z.eqb_spec d 7) as [->|]; [reflexivity|].
  destruct (Nat.eqb_spec (Z.to_nat d) 7); [lia | reflexivity].
Qed.

Lemma st_fpop s d : length (stack s) = 8%nat -> 0 <= d < 8 ->
  st (fpop s) d = if d =? 7 then None else st s (d + 1).
Proof.
  intros Hl Hd. unfold st, fpop. cbn [stack with_stack].
  rewrite nth_tl_app by lia. replace (Z.to_nat (d + 1)) with (S (Z.to_nat d)) by lia.
  destruct (Z.eqb_spec d 7) as [->|]; [reflexivity|].
  destruct (Nat.eqb_spec (Z.to_nat d) 7); [lia | reflexivity].
Qed.

Lemma st_range s d x : length (stack s) = 8%nat -> 0 <= d -> st s d = Some x -> d < 8.
Proof.
  intros Hl Hd H. destruct (Z.lt_ge_cases d 8); [assumption|].
  unfold st in H. rewrite nth_overflow in H by lia. discriminate.
Qed.

Lemma s16_mod8 x : s16 x mod 8 = x mod 8.
Proof.
  pose proof (sgn_wrap 16 x ltac:(lia)) as H. unfold wrap in H.
  assert (E : forall y, (y mod 2 ^ 16) mod 8 = y mod 8).
  { intros y. change (2 ^ 16) with (8 * 2 ^ 13). rewrite Z.rem_mul_r by lia.
    rewrite Z.mul_comm, Z_mod_plus_full. apply Z.mod_mod. lia. }
  rewrite <- (E (s16 x)), H, E. reflexivity.
Qed.

Lemma top_step t d k : (t + s16 (d + k)) mod 8 = ((t + d) mod 8 + k) mod 8.
Proof.
  rewrite <- (Z.add_mod_idemp_r t), s16_mod8, Z.add_mod_idemp_r by lia.
  rewrite Z.add_mod_idemp_l by lia. f_equal. lia.
Qed.

(** ** The invariant *)

(** The width of the access a load node makes, and the value it gives. *)
Definition load_width (k : Op) : nat :=
  match k with LoadF32Raw | LoadI32 => 4 | LoadI16 => 2 | _ => 8 end.

Definition load_value (k : Op) (x : Z) : Z :=
  match k with
  | LoadF32Raw => widen x
  | LoadI16 => of_int f64 (s16 x)
  | LoadI32 => of_int f64 (s32 x)
  | LoadI64 => of_int f64 (s64 x)
  | _ => x
  end.

Section Inv.
Context (segbase : Z -> Z) (ro : Z -> bool) (host_mem : mem) (s0 : fpu) (nzcv0 : Z)
  (stack0 : list (option Z)).

(** The initial state's stack in physical order is [stack0]. *)
Definition E (c : Context) : ir := eval segbase stack0 (top s0) (ir_start s0 nzcv0) (nodes c).
Definition V (c : Context) (id : Z) : Z := zget (vals (E c)) id.
Definition sv (c : Context) (v : Z) : option Z := slot_value stack0 (E c) v.

Lemma E_append c n : E (append c n) = eval_node segbase stack0 (top s0) (E c) n.
Proof. unfold E, eval, append. cbn [nodes with_nodes]. rewrite fold_left_app. reflexivity. Qed.

Lemma eval_node_vals s n : exists x, vals (eval_node segbase stack0 (top s0) s n) = vals s ++ [x].
Proof.
  unfold eval_node, node_sem. destruct (dead n); [eexists; reflexivity|].
  destruct (op n); eexists; reflexivity.
Qed.

Lemma vals_length c : length (vals (E c)) = length (nodes c).
Proof.
  unfold E. induction (nodes c) as [|n l IH] using rev_ind; [reflexivity|].
  unfold eval in *. rewrite fold_left_app. cbn [fold_left].
  destruct (eval_node_vals (fold_left (eval_node segbase stack0 (top s0)) l (ir_start s0 nzcv0)) n) as [x ->].
  rewrite !length_app, IH. reflexivity.
Qed.

Lemma vals_mono c c' : mono c c' -> exists l, vals (E c') = vals (E c) ++ l.
Proof.
  intros [l H]. unfold E. rewrite H. unfold eval. rewrite fold_left_app.
  generalize (fold_left (eval_node segbase stack0 (top s0)) (nodes c) (ir_start s0 nzcv0)).
  clear. induction l as [|n l IH]; intros s; cbn [fold_left].
  - exists []. symmetry. apply app_nil_r.
  - destruct (eval_node_vals s n) as [x Hx]. destruct (IH (eval_node segbase stack0 (top s0) s n)) as [l' Hl'].
    exists (x :: l'). rewrite Hl', Hx, <- app_assoc. reflexivity.
Qed.

Lemma V_mono c c' id : mono c c' -> 0 <= id < num_nodes c -> V c' id = V c id.
Proof.
  intros Hm Hid. destruct (vals_mono c c' Hm) as [l Hl]. unfold V, zget. rewrite Hl.
  apply app_nth1. rewrite vals_length. unfold num_nodes in Hid. lia.
Qed.

Lemma V_new c n x e :
  E (append c n) = e -> vals e = vals (E c) ++ [x] -> V (append c n) (num_nodes c) = x.
Proof.
  intros <- H. unfold V, zget. rewrite H. unfold num_nodes.
  rewrite Nat2Z.id, app_nth2; rewrite vals_length; [|lia]. rewrite Nat.sub_diag. reflexivity.
Qed.

Lemma sv_mono c c' v : mono c c' -> v < num_nodes c -> sv c' v = sv c v.
Proof.
  intros Hm Hv. unfold sv, slot_value. destruct (Z.leb_spec 0 v); [|reflexivity].
  fold (V c' v) (V c v). rewrite (V_mono c c') by (assumption || lia). reflexivity.
Qed.

Lemma sv_id c id : 0 <= id -> sv c id = Some (V c id).
Proof. intros H. unfold sv, slot_value. rewrite (proj2 (Z.leb_le 0 id) H). reflexivity. Qed.

(** The flags FCOMI leaves, as the NZCV the JIT keeps them in. *)
Definition flags_of (nzcv : Z) (s : fpu) : Prop :=
  zf s = Z.testbit nzcv 30 /\ pf s = Z.testbit nzcv 28 /\ cf s = negb (Z.testbit nzcv 29).

Definition flags_rel (c : Context) (s : fpu) : Prop :=
  if last_fcomi c <? 0 then zf s = zf s0 /\ pf s = pf s0 /\ cf s = cf s0
  else flags_of (i_nzcv (E c)) s.

(** The state the nodes compute is [s], register by register where [s]
    defines one. *)
Record rel (c : Context) (s : fpu) : Prop := mkRel {
  rel_slots : length (slot_val c) = 8%nat;
  rel_stack : length (stack s) = 8%nat;
  rel_regs : i_regs (E c) = regs s;
  rel_mem : i_mem (E c) = gmem s;
  rel_cw : i_cw (E c) = cw s;
  rel_sw : i_sw (E c) = sw s;
  rel_top : (top s0 + top_delta c) mod 8 = top s;
  rel_flags : flags_rel c s;
  rel_st : forall d x, 0 <= d < 8 -> st s d = Some x -> sv c (slot c d) = Some x;
  rel_valid : forall d, 0 <= d < 8 -> slot c d < num_nodes c
}.

(** What the value of a widening or a negation says of its input. *)
Definition node_ok (c : Context) (id : Z) : Prop :=
  let i := input (node c id) 0 in
  match op (node c id) with
  | CvtF32ToF64 => 0 <= i < id /\ V c id = widen (V c i) /\ raw_ok (V c i)
  | FNeg => 0 <= i < id /\ V c id = fneg f64 (V c i)
  | _ => True
  end.

Definition cse_ok (c : Context) (s : fpu) (e : IROperand * Op * Z) : Prop :=
  let '(o, k, v) := e in
  0 <= v < num_nodes c /\ mem_operand_width o = Z.of_nat (load_width k) /\
  in_model segbase (regs s) o (load_width k) = true /\
  V c v = load_value k (load (load_width k) (gmem s) (addr segbase (regs s) o)).

(** Everything but the CSE table. *)
Record core (c : Context) (s : fpu) : Prop := mkCore {
  inv_rel : rel c s;
  inv_reads : length (initial_read c) = 8%nat;
  inv_read : forall d, 0 <= d < 8 -> 0 <= zget (initial_read c) d ->
    zget (initial_read c) d < num_nodes c /\ V c (zget (initial_read c) d) = initial stack0 d;
  inv_vals : Forall in64 (vals (E c));
  inv_node : forall id, 0 <= id < num_nodes c -> node_ok c id;
  inv_zero : 0 <= const_zero_node c -> const_zero_node c < num_nodes c /\ V c (const_zero_node c) = f_zero;
  inv_one : 0 <= const_one_node c -> const_one_node c < num_nodes c /\ V c (const_one_node c) = f_one;
  inv_consts : Forall (fun e => 0 <= fst e < num_nodes c /\ V c (fst e) = snd e) (const_f64 c);
  inv_narrow : 0 <= last_narrow_input c ->
    last_narrow_input c < num_nodes c /\ 0 <= last_narrow_node c < num_nodes c /\
    V c (last_narrow_node c) = narrow (V c (last_narrow_input c));
  inv_ro : forall a, ro a = true -> u8 (gmem s a) = u8 (host_mem a)
}.

Definition inv (c : Context) (s : fpu) : Prop := core c s /\ Forall (cse_ok c s) (mem_cse c).

(** ** Appending a node *)

(** The node may be a FComI that becomes [last_fcomi]. *)
Lemma rel_append_gen c s s' n k :
  let c' := with_last_fcomi (append c n) k in
  rel c s -> stack s' = stack s -> top s' = top s ->
  i_regs (E c') = regs s' -> i_mem (E c') = gmem s' ->
  i_cw (E c') = cw s' -> i_sw (E c') = sw s' -> flags_rel c' s' -> rel c' s'.
Proof.
  intros c' H Hst Ht Hr Hm Hc Hw Hf.
  assert (Hn : num_nodes c' = num_nodes c + 1) by apply num_append.
  assert (Hmono : mono c c') by apply mono_append.
  destruct H as [? ? ? ? ? ? ? ? Hs Hv]. constructor; try assumption; try congruence.
  - rewrite Ht. assumption.
  - intros d x Hd. unfold st. rewrite Hst. intros Hx.
    change (slot c' d) with (slot c d).
    rewrite (sv_mono c) by auto. apply Hs; assumption.
  - intros d Hd. change (slot c' d) with (slot c d). specialize (Hv d Hd). lia.
Qed.

Lemma rel_append c s n x : rel c s -> E (append c n) = add_val (E c) x -> rel (append c n) s.
Proof.
  intros H He. change (rel (with_last_fcomi (append c n) (last_fcomi c)) s).
  assert (He' : E (with_last_fcomi (append c n) (last_fcomi c)) = add_val (E c) x) by exact He.
  apply (rel_append_gen c s); try reflexivity; try assumption;
    rewrite ?He'; try apply H.
  unfold flags_rel. rewrite He'. exact (rel_flags c s H).
Qed.

Lemma node_ok_mono c c' id : mono c c' -> 0 <= id < num_nodes c -> node_ok c id -> node_ok c' id.
Proof.
  intros Hm Hid. unfold node_ok. rewrite (mono_node c c' id Hm Hid). cbv zeta.
  destruct (op (node c id)); try (intros _; exact I);
    intros (Hi & H); rewrite !(V_mono c c') by (assumption || lia); exact (conj Hi H).
Qed.

Lemma core_append_gen c s s' n x k :
  let c' := with_last_fcomi (append c n) k in
  core c s -> rel c' s' -> vals (E c') = vals (E c) ++ [x] -> in64 x ->
  node_ok c' (num_nodes c) ->
  (forall a, ro a = true -> u8 (gmem s' a) = u8 (host_mem a)) -> core c' s'.
Proof.
  intros c' H Hrel Hx H64 Hok Hro.
  assert (Hn : num_nodes c' = num_nodes c + 1) by apply num_append.
  assert (Hm : mono c c') by apply mono_append.
  destruct H as [_ Hl Hread Hvals Hnode Hz Ho Hk Hnarrow _].
  constructor; try assumption; subst c'; unfold append; cbn [initial_read const_zero_node const_one_node
    const_f64 last_narrow_input last_narrow_node with_nodes with_last_fcomi]; fold (append c n);
    set (c' := with_last_fcomi (append c n) k) in *.
  - intros d Hd H0. destruct (Hread d Hd H0) as [H1 H2].
    rewrite (V_mono c) by (assumption || lia). split; [lia | exact H2].
  - rewrite Hx. apply Forall_app. auto.
  - intros id Hid. destruct (Z.eq_dec id (num_nodes c)) as [->|]; [assumption|].
    apply (node_ok_mono c); [assumption|lia|]. apply Hnode. lia.
  - intros H0. destruct (Hz H0). rewrite (V_mono c) by (assumption || lia). split; [lia|assumption].
  - intros H0. destruct (Ho H0). rewrite (V_mono c) by (assumption || lia). split; [lia|assumption].
  - revert Hk. apply Forall_impl. intros e [H1 H2].
    rewrite (V_mono c) by (assumption || lia). split; [lia|assumption].
  - intros H0. destruct (Hnarrow H0) as (H1 & H2 & H3).
    rewrite !(V_mono c c') by (assumption || lia). split; [lia|split; [lia|assumption]].
Qed.

Lemma cse_mono c c' s s' e :
  mono c c' -> regs s' = regs s -> gmem s' = gmem s -> cse_ok c s e -> cse_ok c' s' e.
Proof.
  intros Hm Hr Hg. destruct e as [[o k] v]. unfold cse_ok. intros (H1 & H2 & H3 & H4).
  pose proof (mono_num c c' Hm). rewrite Hr, Hg, (V_mono c c') by assumption.
  split; [lia|auto].
Qed.

(** A pure node: value [x], no effect. *)
Lemma inv_append c s n x :
  inv c s -> E (append c n) = add_val (E c) x -> in64 x ->
  node_ok (append c n) (num_nodes c) -> inv (append c n) s.
Proof.
  intros [H Hc] He H64 Hok. split.
  - change (core (with_last_fcomi (append c n) (last_fcomi c)) s).
    apply (core_append_gen c s s n x); try assumption.
    + apply (rel_append c s n x); [apply H|assumption].
    + transitivity (vals (E (append c n))); [reflexivity|]. rewrite He. reflexivity.
    + apply H.
  - revert Hc. apply Forall_impl. intros e. apply cse_mono; auto using mono_append.
Qed.

Lemma in64_V c s id : core c s -> in64 (V c id).
Proof. intros H. unfold V. apply (Forall_zget in64); [apply H | apply in64_0]. Qed.

(** ** The symbolic stack *)

Lemma inv_with_slots c s s' v t :
  inv c s -> regs s' = regs s -> gmem s' = gmem s ->
  rel (with_slots c v t) s' -> inv (with_slots c v t) s'.
Proof.
  intros [H Hc] Hr Hg Hrel. split.
  - destruct H. constructor; try assumption. rewrite Hg. assumption.
  - revert Hc. apply Forall_impl. intros e. apply cse_mono; auto using mono_nodes.
Qed.

Lemma rel_set_slot c s d id x :
  rel c s -> 0 <= d < 8 -> 0 <= id < num_nodes c -> V c id = x ->
  rel (set_slot c d id) (set_st s d x).
Proof.
  intros H Hd Hid Hx. destruct H as [Hl1 Hl2 ? ? ? ? ? ? Hs Hv].
  constructor; try assumption.
  - unfold set_slot. cbn [slot_val with_slots]. rewrite zset_length. assumption.
  - unfold set_st. cbn [stack with_stack]. rewrite list_set_length. assumption.
  - intros d' y Hd' Hy. destruct (Z.eq_dec d d') as [<-|Hne].
    + rewrite st_set_eq in Hy by assumption. injection Hy as <-.
      rewrite slot_set_eq by assumption. rewrite <- Hx. exact (sv_id c id ltac:(lia)).
    + rewrite st_set_ne in Hy by lia. rewrite slot_set_ne by lia. apply Hs; assumption.
  - intros d' Hd'. destruct (Z.eq_dec d d') as [<-|Hne].
    + rewrite slot_set_eq by assumption. apply Hid.
    + rewrite slot_set_ne by lia. apply Hv. assumption.
Qed.

Lemma rel_reslot c s d id :
  rel c s -> 0 <= d < 8 -> 0 <= id < num_nodes c ->
  (forall x, st s d = Some x -> V c id = x) -> rel (set_slot c d id) s.
Proof.
  intros H Hd Hid Hx. destruct H as [Hl1 Hl2 ? ? ? ? ? ? Hs Hv].
  constructor; try assumption.
  - unfold set_slot. cbn [slot_val with_slots]. rewrite zset_length. assumption.
  - intros d' y Hd' Hy. destruct (Z.eq_dec d d') as [<-|Hne].
    + rewrite slot_set_eq by assumption. rewrite <- (Hx y Hy). exact (sv_id c id ltac:(lia)).
    + rewrite slot_set_ne by lia. apply Hs; assumption.
  - intros d' Hd'. destruct (Z.eq_dec d d') as [<-|Hne].
    + rewrite slot_set_eq by assumption. apply Hid.
    + rewrite slot_set_ne by lia. apply Hv. assumption.
Qed.

Lemma rel_push c s id x :
  rel c s -> 0 <= id < num_nodes c -> V c id = x -> rel (X87IR.push c id) (fpush s x).
Proof.
  intros H Hid Hx. destruct H as [Hl1 Hl2 ? ? ? ? Ht ? Hs Hv].
  constructor; try assumption.
  - cbn [X87IR.push slot_val with_slots length]. rewrite length_firstn. lia.
  - cbn [fpush stack with_stack length]. rewrite length_firstn. lia.
  - cbn [X87IR.push top_delta with_slots fpush top with_stack]. rewrite <- Ht. apply top_step.
  - intros d y Hd Hy. rewrite st_fpush in Hy by lia. rewrite slot_push by lia.
    destruct (Z.eqb_spec d 0).
    + injection Hy as <-. rewrite <- Hx. exact (sv_id c id ltac:(lia)).
    + apply Hs; [lia | assumption].
  - intros d Hd. rewrite slot_push by lia. destruct (Z.eqb_spec d 0); [apply Hid | apply Hv; lia].
Qed.

Lemma rel_pop c s : rel c s -> rel (X87IR.pop c) (fpop s).
Proof.
  intros H. pose proof (num_nonneg c) as Hn. destruct H as [Hl1 Hl2 ? ? ? ? Ht ? Hs Hv].
  constructor; try assumption.
  - unfold X87IR.pop. cbn [slot_val with_slots]. rewrite length_app, length_tl. cbn [length]. lia.
  - unfold fpop. cbn [stack with_stack]. rewrite length_app, length_tl. cbn [length]. lia.
  - cbn [X87IR.pop top_delta with_slots fpop top with_stack]. rewrite <- Ht. apply top_step.
  - intros d y Hd Hy. rewrite st_fpop in Hy by assumption. rewrite slot_pop by assumption.
    destruct (Z.eqb_spec d 7); [discriminate|]. apply Hs; [lia | assumption].
  - intros d Hd. rewrite slot_pop by assumption.
    change (num_nodes (X87IR.pop c)) with (num_nodes c).
    destruct (Z.eqb_spec d 7); [lia | apply Hv; lia].
Qed.

Lemma inv_set_slot c s d id x :
  inv c s -> 0 <= d < 8 -> 0 <= id < num_nodes c -> V c id = x ->
  inv (set_slot c d id) (set_st s d x).
Proof.
  intros H Hd Hid Hx. apply (inv_with_slots c s); try reflexivity; [exact H|].
  apply rel_set_slot; try assumption. apply H.
Qed.

Lemma inv_push c s id x :
  inv c s -> 0 <= id < num_nodes c -> V c id = x -> inv (X87IR.push c id) (fpush s x).
Proof.
  intros H Hid Hx. apply (inv_with_slots c s); try reflexivity; [exact H|].
  apply rel_push; try assumption. apply H.
Qed.

Lemma inv_pop c s : inv c s -> inv (X87IR.pop c) (fpop s).
Proof.
  intros H. apply (inv_with_slots c s); try reflexivity; [exact H|]. apply rel_pop, H.
Qed.

Lemma inv_pops n c s : inv c s -> inv (pops c n) (fpops s n).
Proof. intros H. induction n as [|n IH]; [exact H|]. apply inv_pop, IH. Qed.

(** ** The CSE table *)

Lemma rel_with_cse c s l k : rel c s -> rel (with_mem_cse c l k) s.
Proof. intros []. constructor; assumption. Qed.

Lemma core_with_cse c s l k : core c s -> core (with_mem_cse c l k) s.
Proof. intros []. constructor; try assumption. apply rel_with_cse. assumption. Qed.

Lemma inv_with_cse c s l k : inv c s -> Forall (cse_ok c s) l -> inv (with_mem_cse c l k) s.
Proof. intros [H _] Hl. split; [apply core_with_cse, H | exact Hl]. Qed.

Lemma rel_insert c s o k v : rel c s -> rel (mem_cse_insert c o k v) s.
Proof.
  intros H. unfold mem_cse_insert. destruct (_ && _); [exact H|].
  destruct (_ <? _); apply rel_with_cse, H.
Qed.

Lemma inv_insert c s o k v : inv c s -> cse_ok c s (o, k, v) -> inv (mem_cse_insert c o k v) s.
Proof.
  intros H He. unfold mem_cse_insert. destruct (_ && _); [exact H|].
  destruct (_ <? _); apply inv_with_cse; try exact H.
  - apply Forall_app. split; [apply H | auto].
  - apply Forall_list_set; [apply H | exact He].
Qed.

Lemma insert_nodes c o k v : nodes (mem_cse_insert c o k v) = nodes c.
Proof. unfold mem_cse_insert. destruct (_ && _); [reflexivity|]. destruct (_ <? _); reflexivity. Qed.

(** ** Effects *)

Definition value_op (o : Op) : bool :=
  match o with CvtF32ToF64 | FNeg => true | _ => false end.

Lemma node_ok_plain c id : value_op (op (node c id)) = false -> node_ok c id.
Proof. unfold node_ok. cbv zeta. destruct (op (node c id)); try discriminate; intros; exact I. Qed.

(** A node with an effect and no value takes the invariant's core to the
    state with that effect. *)
Lemma core_effect c s s' n e k :
  let c' := with_last_fcomi (append c n) k in
  core c s -> E (append c n) = add_val e 0 -> vals e = vals (E c) -> value_op (op n) = false ->
  stack s' = stack s -> top s' = top s ->
  i_regs e = regs s' -> i_mem e = gmem s' -> i_cw e = cw s' -> i_sw e = sw s' ->
  (if k <? 0 then zf s' = zf s0 /\ pf s' = pf s0 /\ cf s' = cf s0 else flags_of (i_nzcv e) s') ->
  (forall a, ro a = true -> u8 (gmem s' a) = u8 (host_mem a)) -> core c' s'.
Proof.
  intros c' H He Hv Hop Hst Ht Hr Hm Hc Hw Hf Hro.
  assert (He' : E c' = add_val e 0) by exact He.
  apply (core_append_gen c s s' n 0); try assumption.
  - apply (rel_append_gen c s s' n k); try assumption; fold c'; rewrite ?He'; try assumption.
    + apply H.
    + unfold flags_rel. rewrite He'. exact Hf.
  - fold c'. rewrite He'. cbn [add_val vals]. rewrite Hv. reflexivity.
  - apply in64_0.
  - apply node_ok_plain. change (node _ (num_nodes c)) with (node (append c n) (num_nodes c)).
    rewrite node_append_new. exact Hop.
Qed.

(** An effect outside registers and memory leaves the CSE table alone. *)
Lemma cse_keep c c' s s' l :
  mono c c' -> regs s' = regs s -> gmem s' = gmem s -> Forall (cse_ok c s) l -> Forall (cse_ok c' s') l.
Proof. intros Hm Hr Hg. apply Forall_impl. intros e. apply cse_mono; assumption. Qed.

(** *** Stores *)

Lemma writable_spec a n x : writable ro a n = true -> a <= x < a + Z.of_nat n -> ro x = false.
Proof.
  unfold writable. rewrite forallb_forall. intros H Hx.
  specialize (H (Z.to_nat (x - a))). rewrite in_seq in H. specialize (H ltac:(lia)).
  apply negb_true_iff in H. rewrite <- H. f_equal. lia.
Qed.

Lemma write_inv s o n v s' : write segbase ro s o n v = Some s' ->
  in_model segbase (regs s) o n = true /\ writable ro (addr segbase (regs s) o) n = true /\
  s' = with_gmem s (store n (gmem s) (addr segbase (regs s) o) v).
Proof.
  unfold write, guard. destruct (in_model _ _ _ _ && _) eqn:Ew; [|discriminate].
  apply andb_true_iff in Ew as [H1 H2]. intros [= <-]. auto.
Qed.

Lemma store_ro s a n v x :
  writable ro a n = true -> ro x = true -> store n (gmem s) a v x = gmem s x.
Proof.
  intros Hw Hx. unfold store. destruct (Z.leb_spec a x); [|reflexivity].
  destruct (Z.ltb_spec x (a + Z.of_nat n)); [|reflexivity].
  rewrite (writable_spec a n x Hw) in Hx by lia. discriminate.
Qed.

Lemma in_model_bounds r o n : in_model segbase r o n = true ->
  addr segbase r o + Z.of_nat n < 2 ^ 64 /\
  (addr_size o = IROperandSize.S32 \/ addr_size o = IROperandSize.S64) /\
  (kind o = IROperandKind.MemRef -> 0 <= mem_sum r o /\ mem_sum r o + Z.of_nat n < 2 ^ asize o).
Proof.
  unfold in_model. rewrite !andb_true_iff, orb_true_iff, Z.ltb_lt, !Z.eqb_eq.
  intros [[H1 H2] H3]. split; [exact H3|]. split; [exact H1|]. intros Hk.
  rewrite (proj2 (Z.eqb_eq _ _) Hk) in H2. apply andb_true_iff in H2 as [H2 H4].
  apply Z.leb_le in H2. apply Z.ltb_lt in H4. auto.
Qed.

Lemma addr_memref r o n : kind o = IROperandKind.MemRef -> seg_override o = 0 ->
  in_model segbase r o n = true -> addr segbase r o = mem_sum r o.
Proof.
  intros Hk Hs Hi. destruct (in_model_bounds r o n Hi) as (_ & _ & H). specialize (H Hk).
  unfold addr. rewrite Hk, Hs. cbn. apply wrap_small. lia.
Qed.

Lemma asize_pos o : 0 < asize o.
Proof. unfold asize. destruct (_ =? _); reflexivity. Qed.

Lemma addr_abs r o : kind o = IROperandKind.AbsMem -> addr segbase r o = wrap (asize o) (value o).
Proof. intros Hk. unfold addr. rewrite Hk. reflexivity. Qed.

Lemma addr_absmem r o : kind o = IROperandKind.AbsMem ->
  (addr_size o = IROperandSize.S32 \/ addr_size o = IROperandSize.S64) ->
  addr segbase r o = mask_addr32 (addr_size o) (u64 (value o)).
Proof.
  intros Hk Hs. unfold addr, mask_addr32, asize. rewrite Hk. cbn [Z.eqb].
  destruct Hs as [-> | ->]; [|reflexivity].
  change (wrap 32 (value o) = Z.land (u64 (value o)) (Z.ones 32)). rewrite <- wrap_land by lia.
  unfold wrap. change (2 ^ 64) with (2 ^ 32 * 2 ^ 32). rewrite Z.rem_mul_r by lia.
  rewrite Z.mul_comm, Z_mod_plus_full, Z.mod_mod by lia. reflexivity.
Qed.

(** Accesses the builder takes for disjoint are. *)
Lemma no_alias_disjoint r a b na nb :
  mem_operands_no_alias a b = true ->
  mem_operand_width a = Z.of_nat na -> mem_operand_width b = Z.of_nat nb \/ mem_operand_width b = 0 ->
  in_model segbase r a na = true -> in_model segbase r b nb = true ->
  addr segbase r a + Z.of_nat na <= addr segbase r b \/ addr segbase r b + Z.of_nat nb <= addr segbase r a.
Proof.
  intros Hn Ha Hb Hia Hib. unfold mem_operands_no_alias in Hn. cbv zeta in Hn.
  destruct ((mem_operand_width a =? 0) || (mem_operand_width b =? 0)) eqn:E0; [discriminate|].
  apply orb_false_iff in E0 as [_ E0]. apply Z.eqb_neq in E0.
  destruct Hb as [Hb|Hb]; [|lia]. rewrite Ha, Hb in Hn.
  destruct (in_model_bounds r a na Hia) as (Ba & Sa & Ma).
  destruct (in_model_bounds r b nb Hib) as (Bb & Sb & Mb).
  destruct ((kind a =? IROperandKind.MemRef) && (kind b =? IROperandKind.MemRef)) eqn:Ek.
  - apply andb_true_iff in Ek as [Ka Kb]. apply Z.eqb_eq in Ka, Kb.
    unfold nz in Hn. rewrite <- negb_andb in Hn.
    destruct ((seg_override a =? 0) && (seg_override b =? 0)) eqn:Es; [|discriminate].
    apply andb_true_iff in Es as [Sga Sgb]. apply Z.eqb_eq in Sga, Sgb. cbn [negb] in Hn.
    rewrite <- !negb_andb in Hn. destruct (_ && _) eqn:Eq in Hn; [|discriminate]. cbn [negb] in Hn.
    rewrite !andb_true_iff, !Z.eqb_eq in Eq. destruct Eq as [[[[E1 E2] E3] E4] E5].
    rewrite (addr_memref r a na), (addr_memref r b nb) by assumption.
    assert (Hsum : mem_sum r a - disp a = mem_sum r b - disp b).
    { unfold mem_sum, asize. rewrite E1, E2, E3, E4, E5. lia. }
    apply orb_true_iff in Hn as [Hn|Hn]; apply Z.leb_le in Hn; lia.
  - destruct ((kind a =? IROperandKind.AbsMem) && (kind b =? IROperandKind.AbsMem)) eqn:Ek'; [|discriminate].
    apply andb_true_iff in Ek' as [Ka Kb]. apply Z.eqb_eq in Ka, Kb.
    rewrite <- (addr_absmem r a Ka Sa), <- (addr_absmem r b Kb Sb) in Hn.
    assert (Na : 0 <= addr segbase r a).
    { rewrite addr_abs by assumption. apply wrap_range. pose proof (asize_pos a). lia. }
    assert (Nb : 0 <= addr segbase r b).
    { rewrite addr_abs by assumption. apply wrap_range. pose proof (asize_pos b). lia. }
    rewrite !wrap_small in Hn by lia.
    apply orb_true_iff in Hn as [Hn|Hn]; apply Z.leb_le in Hn; lia.
Qed.

(** A store, with the aliasing entries dropped. *)
Lemma inv_store c s s' n o k v :
  inv c s -> write segbase ro s o k v = Some s' ->
  mem_operand_width o = Z.of_nat k \/ mem_operand_width o = 0 ->
  E (append c n) = add_val (ir_mem (E c) (store k (gmem s) (addr segbase (regs s) o) v)) 0 ->
  value_op (op n) = false -> inv (mem_cse_evict_may_alias (append c n) o) s'.
Proof.
  intros [H Hc] Hw Hwd He Hop. apply write_inv in Hw as (Hi & Hwr & ->). split.
  - apply core_with_cse.
    change (core (with_last_fcomi (append c n) (last_fcomi c))
      (with_gmem s (store k (gmem s) (addr segbase (regs s) o) v))).
    apply (core_effect c s _ n _ _ H He); try reflexivity; try assumption; try apply H.
    intros a Ha. cbn [gmem with_gmem]. rewrite store_ro by assumption. apply H. exact Ha.
  - cbn [mem_cse_evict_may_alias with_mem_cse mem_cse]. apply Forall_forall. intros e He'.
    apply filter_In in He' as [He1 He2]. rewrite Forall_forall in Hc. specialize (Hc e He1).
    destruct e as [[eo ek] ev]. cbn [fst] in He2. destruct Hc as (H1 & H2 & H3 & H4).
    pose proof (no_alias_disjoint (regs s) eo o _ k He2 H2 Hwd H3 Hi) as Hd.
    split; [|split; [exact H2|split; [exact H3|]]].
    + change (num_nodes (mem_cse_evict_may_alias (append c n) o)) with (num_nodes (append c n)).
      rewrite num_append. lia.
    + change (V (mem_cse_evict_may_alias (append c n) o) ev) with (V (append c n) ev).
      rewrite (V_mono c) by (apply mono_append || assumption). rewrite H4.
      cbn [gmem regs with_gmem]. rewrite load_store_disjoint by exact Hd. reflexivity.
Qed.

(** *** Register writes *)

Lemma uses_reg_addr r o d v : mem_operand_uses_reg o d = false ->
  addr segbase (set_reg r d v) o = addr segbase r o /\
  (forall n, in_model segbase (set_reg r d v) o n = in_model segbase r o n).
Proof.
  intros H. assert (A : addr segbase (set_reg r d v) o = addr segbase r o /\
    (kind o = IROperandKind.MemRef -> mem_sum (set_reg r d v) o = mem_sum r o)).
  { unfold mem_operand_uses_reg in H. unfold addr.
    destruct (Z.eqb_spec (kind o) IROperandKind.MemRef) as [Ek|Ek]; [|split; [reflexivity|intros C; contradiction]].
    cbn [negb] in H.
    assert (Hs : mem_sum (set_reg r d v) o = mem_sum r o).
    { unfold mem_sum, set_reg.
      destruct (nz (Z.land (mem_flags o) 1)); cbn [andb] in H;
        destruct (nz (Z.land (mem_flags o) 2)); cbn [andb] in H;
        repeat match type of H with context [if ?b then _ else _] => destruct b; [discriminate|] end;
        reflexivity. }
    rewrite Hs. split; reflexivity. }
  destruct A as [A B]. split; [exact A|]. intros n. unfold in_model. rewrite A.
  destruct (Z.eqb_spec (kind o) IROperandKind.MemRef) as [Ek|Ek]; [|reflexivity].
  rewrite (B Ek). reflexivity.
Qed.

Lemma inv_set_reg c s n d v :
  inv c s -> E (append c n) = add_val (ir_regs (E c) (set_reg (regs s) d v)) 0 ->
  value_op (op n) = false ->
  inv (mem_cse_evict_reg (append c n) d) (with_regs s (set_reg (regs s) d v)).
Proof.
  intros [H Hc] He Hop. split.
  - apply core_with_cse.
    change (core (with_last_fcomi (append c n) (last_fcomi c)) (with_regs s (set_reg (regs s) d v))).
    apply (core_effect c s _ n _ _ H He); try reflexivity; try assumption; try apply H.
  - cbn [mem_cse_evict_reg with_mem_cse mem_cse]. apply Forall_forall. intros e He'.
    apply filter_In in He' as [He1 He2]. rewrite Forall_forall in Hc. specialize (Hc e He1).
    destruct e as [[eo ek] ev]. cbn [fst] in He2. apply negb_true_iff in He2.
    destruct Hc as (H1 & H2 & H3 & H4). destruct (uses_reg_addr (regs s) eo d v He2) as [A B].
    unfold cse_ok. cbn [regs gmem with_regs]. rewrite A, B.
    split; [|split; [exact H2|split; [exact H3|]]].
    + change (num_nodes (mem_cse_evict_reg (append c n) d)) with (num_nodes (append c n)).
      rewrite num_append. lia.
    + change (V (mem_cse_evict_reg (append c n) d) ev) with (V (append c n) ev).
      rewrite (V_mono c) by (apply mono_append || assumption). exact H4.
Qed.

(** *** Status word, control word and NZCV *)

Lemma inv_effect c s s' n e k :
  inv c s -> E (append c n) = add_val e 0 -> vals e = vals (E c) -> value_op (op n) = false ->
  stack s' = stack s -> top s' = top s -> regs s' = regs s -> gmem s' = gmem s ->
  i_regs e = regs s -> i_mem e = gmem s -> i_cw e = cw s' -> i_sw e = sw s' ->
  (if k <? 0 then zf s' = zf s0 /\ pf s' = pf s0 /\ cf s' = cf s0 else flags_of (i_nzcv e) s') ->
  inv (with_last_fcomi (append c n) k) s'.
Proof.
  intros [H Hc] He Hv Hop Hst Ht Hr Hg Hir Him Hic Hiw Hf. split.
  - apply (core_effect c s s' n e k); try assumption; try congruence.
    intros a Ha. rewrite Hg. apply H, Ha.
  - apply (cse_keep c _ s); try assumption. apply mono_append.
Qed.

(** ** Fields outside the invariant *)

Lemma inv_last_fcmp c s v : inv c s -> inv (with_last_fcmp c v) s.
Proof.
  intros [[] Hc]. split; [|exact Hc]. constructor; try assumption.
  destruct inv_rel0. constructor; assumption.
Qed.

Lemma inv_consumed c s v : inv c s -> inv (with_consumed c v) s.
Proof.
  intros [[] Hc]. split; [|exact Hc]. constructor; try assumption.
  destruct inv_rel0. constructor; assumption.
Qed.

Lemma rel_consumed c s v : rel c s -> rel (with_consumed c v) s.
Proof. intros []. constructor; assumption. Qed.

Lemma inv_guest_written c s v : inv c s -> inv (with_guest_written c v) s.
Proof.
  intros [[] Hc]. split; [|exact Hc]. constructor; try assumption.
  destruct inv_rel0. constructor; assumption.
Qed.
End Inv.
