(* ===== verification/F80Promote.v ===== *)
(** f80_to_f64_bits of the IR builder against the runtime's conversion of an
    80-bit real: the same double for every canonical operand it accepts. *)

From S2P Require Import Prelude F64 GuestMem IROperand X87IR X87IRBuild Fpu.
From S2P Require Import X87State X87Props F64Props F64Exact.

Lemma land_ones_mod x n : 0 <= n -> Z.land x (2 ^ n - 1) = x mod 2 ^ n.
Proof. intros H. replace (2 ^ n - 1) with (Z.ones n) by (rewrite Z.ones_equiv; lia). apply Z.land_ones, H. Qed.

Lemma sign_eq se : 0 <= se < 2 ^ 16 ->
  Z.shiftl (Z.shiftr se 15) 63 = if nz (Z.land se 0x8000) then 0x8000000000000000 else 0.
Proof.
  intros H. change 0x8000 with (Z.shiftl 1 15). unfold nz.
  assert (Hs : Z.shiftr se 15 = 0 \/ Z.shiftr se 15 = 1).
  { rewrite Z.shiftr_div_pow2 by lia. assert (0 <= se / 2 ^ 15 < 2); [|lia].
    split; [apply Z.div_pos; lia | apply Z.div_lt_upper_bound; lia]. }
  assert (E : Z.land se (Z.shiftl 1 15) = Z.shiftl (Z.shiftr se 15) 15).
  { apply Z.bits_inj'. intros i Hi. rewrite Z.land_spec.
    destruct (Z.lt_ge_cases i 15).
    - rewrite !Z.shiftl_spec_low, andb_false_r by lia. reflexivity.
    - rewrite !Z.shiftl_spec by lia. destruct (Z.eq_dec i 15) as [->|].
      + rewrite Z.shiftr_spec by lia. apply andb_true_r.
      + rewrite (Z.bits_above_log2 1) by (cbn; lia). rewrite andb_false_r.
        symmetry. destruct Hs as [-> | ->]; [apply Z.bits_0 | apply Z.bits_above_log2; cbn; lia]. }
  rewrite E. destruct Hs as [-> | ->]; reflexivity.
Qed.

Lemma sign_range se : 0 <= se < 2 ^ 16 -> in64 (Z.shiftl (Z.shiftr se 15) 63).
Proof. intros H. rewrite sign_eq by exact H. destruct (nz _); [vm_compute; intuition discriminate | apply in64_0]. Qed.

(** Every promoted bit pattern is a double. *)
Lemma f80_range m se b : 0 <= se < 2 ^ 16 -> f80_to_f64_bits m se = Some b -> in64 b.
Proof.
  intros Hse. unfold f80_to_f64_bits. pose proof (sign_range se Hse) as Hs.
  set (sign := Z.shiftl (Z.shiftr se 15) 63) in *. clearbody sign. cbv zeta.
  destruct (m =? 0); [destruct (nz _); [discriminate | intros [= <-]; exact Hs]|].
  assert (Hinf : in64 (Z.lor sign 0x7FF0000000000000)) by (apply lor_bound; [lia|exact Hs|lia]).
  destruct (_ =? 0x7FFF).
  - destruct (_ =? 0); intros [= <-]; [exact Hinf|].
    apply lor_bound; [lia|exact Hinf|]. apply lor_bound; [lia| |lia]. apply land_bound; lia.
  - destruct (if _ || _ then _ else _) as [mant E]. destruct (Z.ltb_spec 1023 E); [intros [= <-]; exact Hinf|].
    destruct (Z.ltb_spec E (-1022)); [discriminate|]. intros Hb. injection Hb as <-.
    assert (He : in64 (Z.shiftl (E + 1023) 52)) by (unfold in64; rewrite Z.shiftl_mul_pow2; lia).
    apply lor_bound; [lia| |apply land_bound; lia]. apply lor_bound; [lia|exact Hs|exact He].
Qed.

Definition canonical (m e : Z) : bool :=
  ((m =? 0) && (e =? 0)) ||
  (Z.testbit m 63 && negb (e =? 0) && ((m =? 2 ^ 63) || negb (e =? 0x7FFF))).

Section Normal.
(** A significand with its integer bit, split at the rounding point. *)
Context (q r : Z) (Hq : 2 ^ 52 <= q < 2 ^ 53) (Hr : 0 <= r < 2 ^ 11).
Let m := q * 2 ^ 11 + r.

Lemma norm_shift k : 0 <= k <= 11 -> Z.shiftr m (11 + k) = q / 2 ^ k.
Proof.
  intros Hk. unfold m. rewrite Z.shiftr_div_pow2, Z.pow_add_r, <- Z.div_div by (try apply Z.pow_nonzero; lia).
  rewrite Z.div_add_l, (Z.div_small r), Z.add_0_r by lia. reflexivity.
Qed.

Lemma norm_q : Z.shiftr m 11 = q.
Proof. rewrite <- (Z.div_1_r q). exact (norm_shift 0 ltac:(lia)). Qed.

Lemma norm_rem : Z.land m 0x7FF = r.
Proof.
  change 0x7FF with (2 ^ 11 - 1). rewrite land_ones_mod by lia. unfold m.
  rewrite Z.add_comm, Z_mod_plus_full. apply Z.mod_small, Hr.
Qed.

Lemma norm_frac : Z.land q 0xFFFFFFFFFFFFF = q - 2 ^ 52.
Proof.
  change 0xFFFFFFFFFFFFF with (2 ^ 52 - 1). rewrite land_ones_mod by lia.
  symmetry. apply Z.mod_unique with 1; lia.
Qed.

Lemma norm_round : Z.land (Z.shiftr m 10) 1 = r / 2 ^ 10.
Proof.
  change 1 with (2 ^ 1 - 1). rewrite land_ones_mod, Z.shiftr_div_pow2 by lia. unfold m.
  replace (q * 2 ^ 11 + r) with (2 * q * 2 ^ 10 + r) by ring. rewrite Z.div_add_l by lia.
  assert (0 <= r / 2 ^ 10 < 2) by (split; [apply Z.div_pos; lia | apply Z.div_lt_upper_bound; lia]).
  symmetry. apply Z.mod_unique with q; lia.
Qed.

Lemma norm_sticky : Z.land m (Z.shiftl 1 10 - 1) = r mod 2 ^ 10.
Proof.
  change (Z.shiftl 1 10 - 1) with (2 ^ 10 - 1). rewrite land_ones_mod by lia. unfold m.
  replace (q * 2 ^ 11 + r) with (r + 2 * q * 2 ^ 10) by ring. apply Z_mod_plus_full.
Qed.

(** Both round to nearest even. *)
Lemma norm_round_up :
  (0x400 <? r) || ((r =? 0x400) && nz (Z.land q 1)) =
  nz (r / 2 ^ 10) && (nz (b2z (nz (r mod 2 ^ 10))) || nz (Z.land (q - 2 ^ 52) 1)).
Proof.
  assert (Ho : Z.land (q - 2 ^ 52) 1 = Z.land q 1).
  { change 1 with (2 ^ 1 - 1). rewrite !land_ones_mod by lia. change (2 ^ 1) with 2.
    replace (q - 2 ^ 52) with (q + - 2 ^ 51 * 2) by lia. apply Z_mod_plus_full. }
  rewrite Ho. unfold nz.
  destruct (Z.lt_ge_cases r 1024).
  - rewrite Z.div_small by (change (2 ^ 10) with 1024; lia). cbn [Z.eqb negb andb].
    destruct (Z.ltb_spec 0x400 r); [lia|]. destruct (Z.eqb_spec r 0x400); [lia|]. reflexivity.
  - replace (r / 2 ^ 10) with 1 by (apply Z.div_unique with (r - 1024); lia).
    replace (r mod 2 ^ 10) with (r - 1024) by (apply Z.mod_unique with 1; lia).
    cbn [Z.eqb negb andb]. destruct (Z.ltb_spec 0x400 r), (Z.eqb_spec r 0x400), (Z.eqb_spec (r - 1024) 0);
      try lia; reflexivity.
Qed.

Lemma norm_log2 : clz64 m = 0.
Proof. unfold clz64. replace (Z.log2 m) with 63; [reflexivity|]. symmetry. apply Z.log2_unique; unfold m; lia. Qed.

Lemma norm_wrap : u64 (Z.shiftl m 0) = m.
Proof. rewrite Z.shiftl_0_r. apply wrap_small. unfold m. lia. Qed.
End Normal.

(** A significand with its integer bit set, in its parts. *)
Lemma integer_bit_split m : 0 <= m < 2 ^ 64 -> Z.testbit m 63 = true ->
  exists q r, m = q * 2 ^ 11 + r /\ 2 ^ 52 <= q < 2 ^ 53 /\ 0 <= r < 2 ^ 11.
Proof.
  intros Hm Hb. rewrite (testbit_top 64) in Hb by lia. apply Z.leb_le in Hb. change (64 - 1) with 63 in Hb.
  exists (m / 2 ^ 11), (m mod 2 ^ 11). pose proof (Z.div_mod m (2 ^ 11) ltac:(lia)).
  pose proof (Z.mod_pos_bound m (2 ^ 11) ltac:(lia)). split; [lia|split; [|assumption]].
  split; [apply Z.div_le_lower_bound | apply Z.div_lt_upper_bound]; lia.
Qed.

Section Agree.
Context (se q r : Z) (Hse : 0 <= se < 2 ^ 16) (Hq : 2 ^ 52 <= q < 2 ^ 53) (Hr : 0 <= r < 2 ^ 11).
Let m := q * 2 ^ 11 + r.
Let e := Z.land se 0x7FFF.
Let sign := if nz (Z.land se 0x8000) then 0x8000000000000000 else 0.
Let up := (0x400 <? r) || ((r =? 0x400) && nz (Z.land q 1)).

(** The builder's result for a normal operand. *)
Lemma f80_normal : e <> 0 -> e <> 0x7FFF ->
  f80_to_f64_bits m se =
  let mant := if up then (if q + 1 =? 2 ^ 53 then 2 ^ 52 else q + 1) else q in
  let E := if up && (q + 1 =? 2 ^ 53) then e - 16383 + 1 else e - 16383 in
  if 1023 <? E then Some (Z.lor sign 0x7FF0000000000000)
  else if E <? -1022 then None
  else Some (Z.lor (Z.lor sign (Z.shiftl (E + 1023) 52)) (Z.land mant 0x000FFFFFFFFFFFFF)).
Proof.
  intros He0 He1. unfold f80_to_f64_bits. rewrite sign_eq by exact Hse. fold sign e m.
  replace (m =? 0) with false by (symmetry; apply Z.eqb_neq; unfold m; lia).
  rewrite (proj2 (Z.eqb_neq e 0x7FFF) He1), (proj2 (Z.eqb_neq e 0) He0). cbv zeta.
  unfold m. rewrite norm_log2, norm_wrap, norm_q, norm_rem by assumption. fold up.
  rewrite Z.sub_0_r. change (Z.shiftl 1 53) with (2 ^ 53).
  destruct up; cbn [andb]; [|reflexivity].
  destruct (Z.eqb_spec (q + 1) (2 ^ 53)) as [Eq|]; [|reflexivity]. rewrite Eq. reflexivity.
Qed.

Let exp := e - 16383 + 1023.

(** The runtime's result when no bits are denormalised away. *)
Lemma convert_normal : 0 < exp ->  e <> 0x7FFF ->
  fst (ConvertX87RegisterToFloat64 (mkF80 m se)) =
  if 2047 <=? exp then Z.lor sign 0x7FF0000000000000
  else if up then
    if q + 1 =? 2 ^ 53 then
      if 2047 <=? exp + 1 then Z.lor sign 0x7FF0000000000000
      else Z.lor (Z.lor sign (Z.shiftl (exp + 1) 52)) 0
    else Z.lor (Z.lor sign (Z.shiftl exp 52)) (q - 2 ^ 52 + 1)
  else Z.lor (Z.lor sign (Z.shiftl exp 52)) (q - 2 ^ 52).
Proof.
  intros He0 He1. unfold ConvertX87RegisterToFloat64. cbn [mantissa exponent]. fold m e sign exp.
  replace (m =? 0) with false by (symmetry; apply Z.eqb_neq; unfold m; lia).
  rewrite (proj2 (Z.eqb_neq e 0x7FFF) He1). cbv zeta.
  replace (exp <=? 0) with false by (symmetry; apply Z.leb_gt; lia). cbn [andb].
  destruct (2047 <=? exp); [reflexivity|].
  unfold m. rewrite norm_q, norm_frac, norm_round, norm_sticky by assumption.
  rewrite <- norm_round_up by assumption. fold up. destruct up; [|reflexivity].
  change 0x10000000000000 with (2 ^ 52).
  destruct (Z.eqb_spec (q - 2 ^ 52 + 1) (2 ^ 52)), (Z.eqb_spec (q + 1) (2 ^ 53)); try lia; [|reflexivity].
  destruct (2047 <=? exp + 1); reflexivity.
Qed.

(** Just below the least normal, a significand that rounds up to it. *)
Lemma convert_min_normal : exp = 0 -> up = true -> q + 1 = 2 ^ 53 ->
  fst (ConvertX87RegisterToFloat64 (mkF80 m se)) = Z.lor (Z.lor sign (Z.shiftl 1 52)) 0.
Proof.
  intros He0 Hup Hq1. assert (Hr4 : 0x400 <= r).
  { unfold up in Hup. apply orb_true_iff in Hup as [H|H]; [apply Z.ltb_lt in H; lia|].
    apply andb_true_iff in H as [H _]. apply Z.eqb_eq in H. lia. }
  assert (He1 : e <> 0x7FFF) by (unfold exp in He0; lia).
  unfold ConvertX87RegisterToFloat64. cbn [mantissa exponent]. fold m e sign exp.
  replace (m =? 0) with false by (symmetry; apply Z.eqb_neq; unfold m; lia).
  rewrite (proj2 (Z.eqb_neq e 0x7FFF) He1), He0. cbv zeta. cbn [Z.leb Z.compare Z.ltb andb].
  change (1 - 0) with 1. rewrite !Z.shiftr_shiftr by lia. change (1 + 11) with (11 + 1).
  unfold m. rewrite norm_shift by lia. change (1 + 10) with 11. rewrite norm_q by assumption.
  replace (q / 2 ^ 1) with (2 ^ 52 - 1) by (apply Z.div_unique with 1; lia).
  replace (Z.land (2 ^ 52 - 1) 0xFFFFFFFFFFFFF) with (2 ^ 52 - 1) by reflexivity.
  replace (Z.land q 1) with 1 by (replace q with (2 ^ 53 - 1) by lia; reflexivity).
  assert (Hst : nz (Z.land (Z.shiftr (q * 2 ^ 11 + r) 1) (Z.shiftl 1 10 - 1)) = true).
  { change (Z.shiftl 1 10 - 1) with (2 ^ 10 - 1). rewrite land_ones_mod, Z.shiftr_div_pow2 by lia.
    replace (q * 2 ^ 11 + r) with (r + (q * 2 ^ 10) * 2 ^ 1) by lia. rewrite Z.div_add by lia.
    rewrite Z_mod_plus_full. unfold nz. apply negb_true_iff, Z.eqb_neq.
    assert (2 ^ 9 <= r / 2 ^ 1 < 2 ^ 10)
      by (split; [apply Z.div_le_lower_bound | apply Z.div_lt_upper_bound]; lia).
    rewrite Z.mod_small by lia. lia. }
  rewrite Hst. reflexivity.
Qed.
End Agree.

(** A constant the builder promotes from a canonical m80 operand is the double
    the runtime's fld_fp80 would have loaded. *)
Lemma f80_promote_agrees m se b :
  0 <= m < 2 ^ 64 -> 0 <= se < 2 ^ 16 -> canonical m (Z.land se 0x7FFF) = true ->
  f80_to_f64_bits m se = Some b -> b = fst (ConvertX87RegisterToFloat64 (mkF80 m se)).
Proof.
  intros Hm Hse Hcan Hf. unfold canonical in Hcan. apply orb_true_iff in Hcan as [Hz|Hn].
  - apply andb_true_iff in Hz as [H0 He]. apply Z.eqb_eq in H0, He. subst m.
    unfold f80_to_f64_bits in Hf. rewrite sign_eq, He in Hf by exact Hse.
    injection Hf as <-. reflexivity.
  - apply andb_true_iff in Hn as [Hn Hor]. apply andb_true_iff in Hn as [Hbit He].
    apply negb_true_iff, Z.eqb_neq in He.
    destruct (Z.eq_dec (Z.land se 0x7FFF) 0x7FFF) as [E|E].
    + assert (m = 2 ^ 63) as ->.
      { rewrite E in Hor. cbn [Z.eqb negb orb] in Hor. rewrite orb_false_r in Hor.
        apply Z.eqb_eq, Hor. }
      unfold f80_to_f64_bits in Hf. rewrite sign_eq, E in Hf by exact Hse.
      injection Hf as <-. unfold ConvertX87RegisterToFloat64. cbn [mantissa exponent]. rewrite E. reflexivity.
    + destruct (integer_bit_split m Hm Hbit) as (q & r & -> & Hq & Hr).
      rewrite f80_normal in Hf by assumption. cbv zeta in Hf.
      set (up := (0x400 <? r) || _) in *. set (e := Z.land se 0x7FFF) in *.
      destruct (Z.lt_ge_cases 0 (e - 16383 + 1023)) as [Hp|Hp].
      * rewrite convert_normal by assumption. fold up e.
        destruct up eqn:Eup; cbn [andb] in Hf.
        -- destruct (Z.eqb_spec (q + 1) (2 ^ 53)) as [Eq|Eq];
             destruct (Z.ltb_spec 1023 (e - 16383 + 1)); destruct (Z.ltb_spec 1023 (e - 16383));
             destruct (Z.ltb_spec (e - 16383 + 1) (-1022)); destruct (Z.ltb_spec (e - 16383) (-1022));
             destruct (Z.leb_spec 2047 (e - 16383 + 1023)); destruct (Z.leb_spec 2047 (e - 16383 + 1023 + 1));
             try lia; injection Hf as <-; try reflexivity.
           ++ replace (e - 16383 + 1 + 1023) with (e - 16383 + 1023 + 1) by lia. reflexivity.
           ++ f_equal. change 0x000FFFFFFFFFFFFF with (2 ^ 52 - 1). rewrite land_ones_mod by lia.
              symmetry. apply Z.mod_unique with 1; lia.
           ++ f_equal. change 0x000FFFFFFFFFFFFF with (2 ^ 52 - 1). rewrite land_ones_mod by lia.
              symmetry. apply Z.mod_unique with 1; lia.
        -- destruct (Z.ltb_spec 1023 (e - 16383)); destruct (Z.ltb_spec (e - 16383) (-1022));
             destruct (Z.leb_spec 2047 (e - 16383 + 1023)); try lia; injection Hf as <-; [reflexivity|].
           f_equal. apply (norm_frac q r); assumption.
      * destruct up eqn:Eup; cbn [andb] in Hf.
        -- destruct (Z.eqb_spec (q + 1) (2 ^ 53)) as [Eq|Eq].
           ++ destruct (Z.ltb_spec 1023 (e - 16383 + 1)); [lia|].
              destruct (Z.ltb_spec (e - 16383 + 1) (-1022)); [discriminate|]. injection Hf as <-.
              rewrite (convert_min_normal se q r Hq Hr); [|fold e; lia|exact Eup|exact Eq]. fold e.
              replace (e - 16383 + 1 + 1023) with 1 by lia. reflexivity.
           ++ destruct (Z.ltb_spec 1023 (e - 16383)); [lia|].
              destruct (Z.ltb_spec (e - 16383) (-1022)); [discriminate|lia].
        -- destruct (Z.ltb_spec 1023 (e - 16383)); [lia|].
           destruct (Z.ltb_spec (e - 16383) (-1022)); [discriminate|lia].
Qed.
