(* ===== verification/X87IRWf.v ===== *)
(** Well-formedness of the builder's context, whatever the instructions: the
    node table and the caches stay within their arrays, every operand of a
    node is an earlier node, and each node carries the payload its operation
    reads. *)

From S2P Require Import Prelude GuestMem IROperand X87IR X87IRBuild X87IREval X87IRInv.

(** How many of [inputs] an operation reads as node ids. *)
Definition arity (o : Op) : Z :=
  match o with
  | CvtF32ToF64 | CvtF64ToF32 | FNeg | FAbs | FSqrt | FRndInt | FTst
  | StoreF64 | StoreF32Raw | StoreI16 | StoreI32 | StoreI64 => 1
  | FAdd | FSub | FMul | FDiv | FNMul | FCmp | FComI | FCSel => 2
  | FMAdd | FMSub | FNMSub => 3
  | _ => 0
  end.

Definition has_mem (o : Op) : bool :=
  match o with
  | LoadF64 | LoadF32Raw | LoadI16 | LoadI32 | LoadI64
  | StoreF64 | StoreF32Raw | StoreI16 | StoreI32 | StoreI64
  | StoreCW | LoadCW | GuestLoad | GuestStoreR | GuestStoreI => true
  | _ => false
  end.

Definition payload_wf (o : Op) (p : payload) : Prop :=
  match p with
  | PMem _ => has_mem o = true
  | PDepth d => o = ReadSt /\ 0 <= d < 8
  | PImm _ => has_mem o = false /\ o <> ReadSt
  end.

Record node_wf (k : Z) (n : Node) : Prop := {
  nw_inputs : length (inputs n) = 3%nat;
  nw_ids : forall j, 0 <= j < arity (op n) -> 0 <= input n j < k;
  nw_payload : payload_wf (op n) (data n);
  nw_flags : Z.land (flags n) kF32 = 0
}.

Record wf (c : Context) : Prop := {
  wf_num : num_nodes c <= kMaxNodes;
  wf_nodes : forall id, 0 <= id < num_nodes c -> node_wf id (node c id);
  wf_slots : length (slot_val c) = 8%nat /\ Forall (fun v => v < num_nodes c) (slot_val c);
  wf_reads : length (initial_read c) = 8%nat /\ Forall (fun v => v < num_nodes c) (initial_read c);
  wf_cse : Z.of_nat (length (mem_cse c)) <= kMemCSESlots /\ 0 <= mem_cse_next c < kMemCSESlots /\
    Forall (fun e => 0 <= snd e < num_nodes c) (mem_cse c);
  wf_consts : Z.of_nat (length (const_f64 c)) <= kConstF64Slots /\
    0 <= const_f64_next c < kConstF64Slots /\ Forall (fun e => 0 <= fst e < num_nodes c) (const_f64 c);
  wf_named : const_zero_node c < num_nodes c /\ const_one_node c < num_nodes c /\
    last_fcmp c < num_nodes c /\ last_fcomi c < num_nodes c;
  wf_narrow : 0 <= last_narrow_input c -> 0 <= last_narrow_node c < num_nodes c
}.

(** What every builder function does to a well-formed context. *)
Record ext (c c' : Context) : Prop := {
  ext_wf : wf c';
  ext_num : num_nodes c <= num_nodes c';
  ext_consumed : consumed c' = consumed c
}.

Lemma ext_refl c : wf c -> ext c c.
Proof. intros H. constructor; [exact H|lia|reflexivity]. Qed.

Lemma ext_trans c c1 c2 : ext c c1 -> ext c1 c2 -> ext c c2.
Proof. intros [] []. constructor; [assumption|lia|congruence]. Qed.

Lemma ext_then c1 c c2 : ext c c1 -> (wf c1 -> ext c1 c2) -> ext c c2.
Proof. intros H H2. apply (ext_trans _ c1); [exact H|]. apply H2, H. Qed.

(** ** The primitives *)

Lemma Forall_lt_mono {A} (f : A -> Z) l n m : n <= m ->
  Forall (fun e => f e < n) l -> Forall (fun e => f e < m) l.
Proof. intros H. apply Forall_impl. intros. lia. Qed.

Lemma Forall_in_mono {A} (f : A -> Z) l n m : n <= m ->
  Forall (fun e => 0 <= f e < n) l -> Forall (fun e => 0 <= f e < m) l.
Proof. intros H. apply Forall_impl. intros. lia. Qed.

Lemma ext_append c n : wf c -> num_nodes c < kMaxNodes -> node_wf (num_nodes c) n -> ext c (append c n).
Proof.
  intros [Hn Hnodes [Hs1 Hs2] [Hr1 Hr2] (Hc1 & Hc2 & Hc3) (Hk1 & Hk2 & Hk3) Hm Hw] Hlt Hok.
  pose proof (num_append c n) as E. constructor; [constructor|lia|reflexivity]; rewrite ?E.
  - lia.
  - intros id Hid. destruct (Z.eq_dec id (num_nodes c)) as [->|]; [rewrite node_append_new; exact Hok|].
    rewrite (mono_node c (append c n)) by (apply mono_append || lia). apply Hnodes. lia.
  - split; [exact Hs1|]. apply (Forall_lt_mono (fun v => v) _ (num_nodes c)); [lia|exact Hs2].
  - split; [exact Hr1|]. apply (Forall_lt_mono (fun v => v) _ (num_nodes c)); [lia|exact Hr2].
  - split; [exact Hc1|]. split; [exact Hc2|]. apply (Forall_in_mono snd _ (num_nodes c)); [lia|exact Hc3].
  - split; [exact Hk1|]. split; [exact Hk2|]. apply (Forall_in_mono fst _ (num_nodes c)); [lia|exact Hk3].
  - cbn [append const_zero_node const_one_node last_fcmp last_fcomi with_nodes]. lia.
  - cbn [append last_narrow_input last_narrow_node with_nodes]. lia.
Qed.

Lemma add_node_room c o i0 i1 i2 :
  add_node c o i0 i1 i2 = (-1, c) \/
  (num_nodes c < kMaxNodes /\ add_node c o i0 i1 i2 = (num_nodes c, append c (new_node o i0 i1 i2))).
Proof. unfold add_node. destruct (Z.leb_spec kMaxNodes (num_nodes c)); auto. Qed.

Lemma ext_slots c v t : wf c -> length v = 8%nat -> Forall (fun x => x < num_nodes c) v ->
  ext c (with_slots c v t).
Proof. intros [] Hl Hv. constructor; [constructor; auto|apply Z.le_refl|reflexivity]. Qed.

Lemma ext_set_slot c d v : wf c -> v < num_nodes c -> ext c (set_slot c d v).
Proof.
  intros H Hv. apply ext_slots; [exact H| |].
  - rewrite zset_length. apply H.
  - apply Forall_list_set; [apply H | exact Hv].
Qed.

Lemma ext_push c v : wf c -> v < num_nodes c -> ext c (push c v).
Proof.
  intros H Hv. destruct (wf_slots c H) as [Hl Hs]. apply ext_slots; [exact H| |].
  - cbn [length]. rewrite length_firstn. lia.
  - constructor; [exact Hv|]. apply Forall_firstn, Hs.
Qed.

Lemma ext_pop c : wf c -> ext c (pop c).
Proof.
  intros H. destruct (wf_slots c H) as [Hl Hs]. apply ext_slots; [exact H| |].
  - rewrite length_app, length_tl. cbn [length]. lia.
  - apply Forall_app. split; [destruct Hs; [constructor|assumption]|].
    constructor; [pose proof (num_nonneg c); lia|constructor].
Qed.

Lemma ext_pops n c : wf c -> ext c (pops c n).
Proof.
  intros H. induction n as [|n IH]; [apply ext_refl, H|].
  apply (ext_trans _ (pops c n)); [exact IH|]. apply ext_pop, IH.
Qed.

Lemma ext_initial_read c d v : wf c -> v < num_nodes c ->
  ext c (with_initial_read c (zset (initial_read c) d v)).
Proof.
  intros [] Hv. constructor; [constructor; auto|apply Z.le_refl|reflexivity].
  cbn [initial_read with_initial_read]. rewrite zset_length. split; [apply wf_reads0|].
  apply Forall_list_set; [apply wf_reads0|exact Hv].
Qed.

Lemma ext_cse c l k : wf c -> Z.of_nat (length l) <= kMemCSESlots -> 0 <= k < kMemCSESlots ->
  Forall (fun e => 0 <= snd e < num_nodes c) l -> ext c (with_mem_cse c l k).
Proof. intros [] Hl Hk Hf. constructor; [constructor; auto|apply Z.le_refl|reflexivity]. Qed.

Lemma ext_const_f64 c l k : wf c -> Z.of_nat (length l) <= kConstF64Slots -> 0 <= k < kConstF64Slots ->
  Forall (fun e => 0 <= fst e < num_nodes c) l -> ext c (with_const_f64 c l k).
Proof. intros [] Hl Hk Hf. constructor; [constructor; auto|apply Z.le_refl|reflexivity]. Qed.

Lemma ext_evict c p : wf c -> ext c (with_mem_cse c (filter p (mem_cse c)) 0).
Proof.
  intros H. destruct (wf_cse c H) as (H1 & H2 & H3). apply ext_cse; [exact H| |vm_compute; intuition discriminate|].
  - assert (L : forall l : list (IROperand * Op * Z), (length (filter p l) <= length l)%nat).
    { intros l. induction l as [|a l IH]; [auto|]. cbn [filter]. destruct (p a); cbn [length]; lia. }
    specialize (L (mem_cse c)). lia.
  - apply incl_Forall with (2 := H3). apply incl_filter.
Qed.

Lemma ext_insert c o k v : wf c -> 0 <= v < num_nodes c -> ext c (mem_cse_insert c o k v).
Proof.
  intros H Hv. destruct (wf_cse c H) as (H1 & H2 & H3). unfold mem_cse_insert.
  destruct (_ && _); [apply ext_refl, H|]. destruct (Z.ltb_spec (Z.of_nat (length (mem_cse c))) kMemCSESlots).
  - apply ext_cse; [exact H|rewrite length_app; cbn [length]; lia|exact H2|].
    apply Forall_app. split; [exact H3|]. constructor; [exact Hv|constructor].
  - apply ext_cse; [exact H|rewrite list_set_length; exact H1|apply Z.mod_pos_bound; reflexivity|].
    apply Forall_list_set; [exact H3|exact Hv].
Qed.

Lemma ext_named c z o f g : wf c ->
  z < num_nodes c -> o < num_nodes c -> f < num_nodes c -> g < num_nodes c ->
  ext c (with_last_fcomi (with_last_fcmp (with_const_one (with_const_zero c z) o) f) g).
Proof. intros [] Hz Ho Hf Hg. constructor; [constructor; auto|apply Z.le_refl|reflexivity]. Qed.

Lemma ext_last_fcmp c v : wf c -> v < num_nodes c -> ext c (with_last_fcmp c v).
Proof. intros H Hv. destruct (wf_named c H) as (H1 & H2 & H3 & H4). exact (ext_named c _ _ _ _ H H1 H2 Hv H4). Qed.
Lemma ext_last_fcomi c v : wf c -> v < num_nodes c -> ext c (with_last_fcomi c v).
Proof. intros H Hv. destruct (wf_named c H) as (H1 & H2 & H3 & H4). exact (ext_named c _ _ _ _ H H1 H2 H3 Hv). Qed.
Lemma ext_const_zero c v : wf c -> v < num_nodes c -> ext c (with_const_zero c v).
Proof. intros H Hv. destruct (wf_named c H) as (H1 & H2 & H3 & H4). exact (ext_named c _ _ _ _ H Hv H2 H3 H4). Qed.
Lemma ext_const_one c v : wf c -> v < num_nodes c -> ext c (with_const_one c v).
Proof. intros H Hv. destruct (wf_named c H) as (H1 & H2 & H3 & H4). exact (ext_named c _ _ _ _ H H1 Hv H3 H4). Qed.

Lemma ext_narrow c i v : wf c -> 0 <= v < num_nodes c -> ext c (with_last_narrow c i v).
Proof. intros [] Hv. constructor; [constructor; auto|apply Z.le_refl|reflexivity]. Qed.

Lemma ext_guest_written c m : wf c -> ext c (with_guest_written c m).
Proof. intros []. constructor; [constructor; auto|apply Z.le_refl|reflexivity]. Qed.

(** ** Results *)

(** A builder of a node: -1, or a node of the context it leaves. *)
Definition makes (c : Context) (r : Z * Context) : Prop := ext c (snd r) /\ fst r < num_nodes (snd r).

(** A builder of an instruction. *)
Definition does {A} (c : Context) (r : A * Context) : Prop := ext c (snd r).

Lemma makes_neg c c1 : ext c c1 -> makes c (-1, c1).
Proof. intros H. split; [exact H|]. pose proof (num_nonneg c1). cbn [fst snd]. lia. Qed.

Lemma makes_id c c1 id : ext c c1 -> id < num_nodes c1 -> makes c (id, c1).
Proof. split; assumption. Qed.

Lemma or_neg_makes c r k : makes c r ->
  (forall id c1, ext c c1 -> 0 <= id < num_nodes c1 -> makes c (k id c1)) -> makes c (or_neg r k).
Proof.
  intros [He Hn] Hk. unfold or_neg. destruct r as [id c1]. cbn [fst snd] in *.
  destruct (Z.ltb_spec id 0); [apply makes_neg, He | apply Hk; [exact He|lia]].
Qed.

Lemma or_fail_does c r k : makes c r ->
  (forall id c1, ext c c1 -> 0 <= id < num_nodes c1 -> does c (k id c1)) -> does c (or_fail r k).
Proof.
  intros [He Hn] Hk. unfold or_fail. destruct r as [id c1]. cbn [fst snd] in *.
  destruct (Z.ltb_spec id 0); [exact He | apply Hk; [exact He|lia]].
Qed.

Lemma makes_then c c1 r : ext c c1 -> makes c1 r -> makes c r.
Proof. intros H [H1 H2]. split; [exact (ext_trans _ _ _ H H1)|exact H2]. Qed.

Lemma does_then {A} c c1 (r : A * Context) : ext c c1 -> does c1 r -> does c r.
Proof. apply ext_trans. Qed.

Lemma node_wf_intro k o f i0 i1 i2 p a :
  (1 <= arity o -> 0 <= i0 < k) -> (2 <= arity o -> 0 <= i1 < k) -> (3 <= arity o -> 0 <= i2 < k) ->
  payload_wf o p -> Z.land f kF32 = 0 -> node_wf k (mkNode o f [i0; i1; i2] p a).
Proof.
  intros H0 H1 H2 Hp Hf. constructor; [reflexivity| |exact Hp|exact Hf]. cbn [op]. intros j Hj.
  assert (arity o <= 3) by (destruct o; cbn; lia). unfold input. cbn [inputs].
  assert (Hc : j = 0 \/ j = 1 \/ j = 2) by lia.
  destruct Hc as [-> | [-> | ->]]; cbn [Z.to_nat Pos.to_nat Pos.iter_op Nat.add nth]; auto with zarith.
Qed.

Lemma ext_new c c1 o f i0 i1 i2 p a : ext c c1 -> num_nodes c1 < kMaxNodes ->
  (1 <= arity o -> 0 <= i0 < num_nodes c1) -> (2 <= arity o -> 0 <= i1 < num_nodes c1) ->
  (3 <= arity o -> 0 <= i2 < num_nodes c1) -> payload_wf o p -> Z.land f kF32 = 0 ->
  ext c (append c1 (mkNode o f [i0; i1; i2] p a)).
Proof.
  intros H Hr H0 H1 H2 Hp Hf. apply (ext_trans _ c1 _ H). apply ext_append; [apply H|exact Hr|].
  apply node_wf_intro; assumption.
Qed.

(** [add_node], with what is set in the node afterwards as [upd]. *)
Lemma or_fail_new c c1 o i0 i1 i2 k :
  ext c c1 -> (num_nodes c1 < kMaxNodes -> does c (k (num_nodes c1) (append c1 (new_node o i0 i1 i2)))) ->
  does c (or_fail (add_node c1 o i0 i1 i2) k).
Proof.
  intros H Hk. unfold or_fail. destruct (add_node_room c1 o i0 i1 i2) as [-> | [Hr ->]]; [exact H|].
  replace (num_nodes c1 <? 0) with false by (symmetry; apply Z.ltb_ge, num_nonneg). apply Hk, Hr.
Qed.

Lemma or_neg_new c c1 o i0 i1 i2 k :
  ext c c1 -> (num_nodes c1 < kMaxNodes -> makes c (k (num_nodes c1) (append c1 (new_node o i0 i1 i2)))) ->
  makes c (or_neg (add_node c1 o i0 i1 i2) k).
Proof.
  intros H Hk. unfold or_neg. destruct (add_node_room c1 o i0 i1 i2) as [-> | [Hr ->]]; [apply makes_neg, H|].
  replace (num_nodes c1 <? 0) with false by (symmetry; apply Z.ltb_ge, num_nonneg). apply Hk, Hr.
Qed.

(** A node that carries nothing but its inputs. *)
Lemma add_makes c c1 o i0 i1 i2 : ext c c1 -> has_mem o = false -> o <> ReadSt ->
  (1 <= arity o -> 0 <= i0 < num_nodes c1) -> (2 <= arity o -> 0 <= i1 < num_nodes c1) ->
  arity o <= 2 -> makes c (add_node c1 o i0 i1 i2).
Proof.
  intros H Hm Ho H0 H1 Ha. destruct (add_node_room c1 o i0 i1 i2) as [-> | [Hr ->]]; [apply makes_neg, H|].
  split; cbn [fst snd]; [|rewrite num_append; lia].
  apply ext_new; auto; try lia. exact (conj Hm Ho).
Qed.

Lemma insert_num c o k v : num_nodes (mem_cse_insert c o k v) = num_nodes c.
Proof. unfold num_nodes. rewrite insert_nodes. reflexivity. Qed.

(** ** Automation

    [chain] shows that a sequence of context updates extends; [bound] that an
    id is a node of the context. *)

Ltac bound :=
  repeat match goal with H : ext _ _ |- _ => apply ext_num in H end;
  rewrite ?num_append;
  repeat match goal with
  | |- context [num_nodes (append ?c ?n)] => rewrite (num_append c n)
  | |- context [num_nodes (mem_cse_evict_may_alias ?c _)] => change (num_nodes (mem_cse_evict_may_alias c _)) with (num_nodes c)
  | |- context [num_nodes (set_slot ?c ?d ?v)] => change (num_nodes (set_slot c d v)) with (num_nodes c)
  | |- context [num_nodes (with_last_fcmp ?c ?v)] => change (num_nodes (with_last_fcmp c v)) with (num_nodes c)
  | |- context [num_nodes (with_last_fcomi ?c ?v)] => change (num_nodes (with_last_fcomi c v)) with (num_nodes c)
  end; lia.

Ltac chain :=
  lazymatch goal with
  | |- does _ (_, _) => red; cbn [snd]; chain
  | |- ext ?c ?c => apply ext_refl; assumption
  | |- ext _ (append _ (new_node _ _ _ _)) => unfold new_node; chain
  | |- ext _ (append ?c1 (mkNode _ _ _ _ _)) =>
      apply ext_new; [chain|assumption|cbn [arity]; try lia; try (intros _; bound)..|
        cbn; repeat split; (reflexivity || discriminate || assumption || lia)|reflexivity]
  | |- ext _ (set_slot ?c1 _ _) => apply (ext_then c1); [chain|intro; apply ext_set_slot; [assumption|bound]]
  | |- ext _ (push ?c1 _) => apply (ext_then c1); [chain|intro; apply ext_push; [assumption|bound]]
  | |- ext _ (pop ?c1) => apply (ext_then c1); [chain|intro; apply ext_pop; assumption]
  | |- ext _ (pops ?c1 _) => apply (ext_then c1); [chain|intro; apply ext_pops; assumption]
  | |- ext _ (mem_cse_evict_may_alias ?c1 _) => apply (ext_then c1); [chain|intro; apply ext_evict; assumption]
  | |- ext _ (mem_cse_evict_reg ?c1 _) => apply (ext_then c1); [chain|intro; apply ext_evict; assumption]
  | |- ext _ (mem_cse_insert ?c1 _ _ _) => apply (ext_then c1); [chain|intro; apply ext_insert; [assumption|bound]]
  | |- ext _ (with_last_fcmp ?c1 _) => apply (ext_then c1); [chain|intro; apply ext_last_fcmp; [assumption|bound]]
  | |- ext _ (with_last_fcomi ?c1 _) => apply (ext_then c1); [chain|intro; apply ext_last_fcomi; [assumption|bound]]
  | |- ext _ (with_guest_written ?c1 _) => apply (ext_then c1); [chain|intro; apply ext_guest_written; assumption]
  | |- ext _ (if ?b then _ else _) => destruct b; chain
  | H : ext ?c ?c1 |- ext ?c ?c1 => exact H
  | H : ext ?c1 ?c2 |- ext _ ?c2 => apply (ext_trans _ c1); [chain|exact H]
  end.

(** ** resolve and constants *)

Lemma zget_bound l n d : length l = 8%nat -> Forall (fun v => v < n) l -> 0 <= d < 8 -> zget l d < n.
Proof.
  intros Hl Hf Hd. unfold zget. apply (proj1 (Forall_forall _ _) Hf), nth_In. lia.
Qed.

Lemma slot_bound c d : wf c -> 0 <= d < 8 -> slot c d < num_nodes c.
Proof. intros H. apply zget_bound; apply H. Qed.

Lemma resolve_makes c c1 d : ext c c1 -> makes c (resolve c1 d).
Proof.
  intros H. pose proof (ext_wf _ _ H) as W. unfold resolve.
  destruct ((d <? 0) || (8 <=? d)) eqn:Ed; [apply makes_neg, H|].
  apply orb_false_iff in Ed as [Ed1 Ed2]. apply Z.ltb_ge in Ed1. apply Z.leb_gt in Ed2.
  cbv zeta. destruct (_ <=? _); [apply makes_id; [exact H|apply slot_bound; [exact W|lia]]|].
  set (k := - (slot c1 d + 1)).
  destruct ((k <? 0) || (8 <=? k)) eqn:Ek; [apply makes_neg, H|].
  apply orb_false_iff in Ek as [Ek1 Ek2]. apply Z.ltb_ge in Ek1. apply Z.leb_gt in Ek2.
  destruct (_ <=? _).
  - assert (B : zget (initial_read c1) k < num_nodes c1) by (apply zget_bound; [apply W|apply W|lia]).
    apply makes_id; [chain|exact B].
  - destruct (add_node_room c1 ReadSt (-1) (-1) (-1)) as [-> | [Hr ->]]; [apply makes_neg, H|].
    replace (num_nodes c1 <? 0) with false by (symmetry; apply Z.ltb_ge, num_nonneg).
    rewrite set_node_append. set (c2 := append c1 _).
    assert (H2 : ext c c2) by (unfold c2, new_node, with_data; cbn [op flags inputs aux]; chain).
    assert (B : num_nodes c1 < num_nodes c2) by (unfold c2; rewrite num_append; lia).
    assert (H3 : ext c (with_initial_read c2 (zset (initial_read c2) k (num_nodes c1)))).
    { apply (ext_trans _ c2); [exact H2|]. apply ext_initial_read; [apply H2|exact B]. }
    apply makes_id; [|exact B].
    eapply ext_trans; [exact H3|]. apply ext_set_slot; [apply H3|exact B].
Qed.

Lemma const_find_wf l bits n k : const_find l bits = Some n ->
  Forall (fun e => 0 <= fst e < k) l -> n < k.
Proof.
  intros H Hf. induction l as [|[n' b] l IH]; [discriminate|]. cbn [const_find] in H.
  inversion Hf as [|? ? Hd Ht]; subst. destruct (b =? bits); [|auto].
  injection H as ->. cbn [fst] in Hd. lia.
Qed.

Lemma build_const_makes c c1 b : ext c c1 -> makes c (build_const c1 b).
Proof.
  intros H. pose proof (ext_wf _ _ H) as W. unfold build_const.
  destruct (const_find _ _) as [n|] eqn:Ef.
  - apply makes_id; [exact H|]. eapply const_find_wf; [exact Ef|apply W].
  - apply or_neg_new; [exact H|]. intros Hr. rewrite set_node_append. set (c2 := append c1 _).
    assert (H2 : ext c c2) by (unfold c2, new_node, with_data; cbn [op flags inputs aux]; chain).
    assert (B : 0 <= num_nodes c1 < num_nodes c2)
      by (unfold c2; rewrite num_append; pose proof (num_nonneg c1); lia).
    destruct (wf_consts _ (ext_wf _ _ H2)) as (C1 & C2 & C3).
    cbv zeta. apply makes_id; [|destruct (_ <? _); apply B]. apply (ext_trans _ c2 _ H2).
    destruct (Z.ltb_spec (Z.of_nat (length (const_f64 c2))) kConstF64Slots);
      (apply ext_const_f64; [apply H2| | |]).
    + rewrite length_app. cbn [length]. lia.
    + exact C2.
    + apply Forall_app. split; [exact C3|]. constructor; [exact B|constructor].
    + rewrite list_set_length. exact C1.
    + apply Z.mod_pos_bound. reflexivity.
    + apply Forall_list_set; [exact C3|exact B].
Qed.

Lemma const_node_makes c c1 b : ext c c1 -> makes c (const_node_for_bits c1 b).
Proof.
  intros H. destruct (wf_named _ (ext_wf _ _ H)) as (Hz & Ho & _). unfold const_node_for_bits, build_zero, build_one.
  destruct (b =? 0); [|destruct (b =? _); [|apply build_const_makes, H]].
  - destruct (_ <=? _); [apply makes_id; assumption|].
    destruct (add_makes c c1 ConstZero (-1) (-1) (-1) H eq_refl) as [A B]; try (cbn; lia || discriminate).
    destruct (add_node _ _ _ _ _) as [id c2]. cbn [fst snd] in *.
    destruct (_ <=? _); apply makes_id; try assumption.
    apply (ext_trans _ c2 _ A). apply ext_const_zero; [apply A|exact B].
  - destruct (_ <=? _); [apply makes_id; assumption|].
    destruct (add_makes c c1 ConstOne (-1) (-1) (-1) H eq_refl) as [A B]; try (cbn; lia || discriminate).
    destruct (add_node _ _ _ _ _) as [id c2]. cbn [fst snd] in *.
    destruct (_ <=? _); apply makes_id; try assumption.
    apply (ext_trans _ c2 _ A). apply ext_const_one; [apply A|exact B].
Qed.

Section Builders.
Context (range_is_readonly : Z -> Z -> bool) (host_mem : mem) (transparent_int : bool).

(** ** Loads and stores *)

Lemma try_const_promote_makes c c1 o k : ext c c1 -> makes c (try_const_promote range_is_readonly host_mem c1 o k).
Proof.
  intros H. unfold try_const_promote. destruct (negb _); [apply makes_neg, H|].
  destruct (const_promote_addr o); [|apply makes_neg, H].
  cbv zeta. destruct (negb _); [apply makes_neg, H|apply const_node_makes, H].
Qed.

Lemma try_const_promote_m80_makes c c1 o : ext c c1 -> makes c (try_const_promote_m80 range_is_readonly host_mem c1 o).
Proof.
  intros H. unfold try_const_promote_m80. destruct (negb _); [apply makes_neg, H|].
  destruct (const_promote_addr o); [|apply makes_neg, H]. destruct (negb _); [apply makes_neg, H|].
  destruct (f80_to_f64_bits _ _); [apply const_node_makes, H|apply makes_neg, H].
Qed.

Lemma lookup_bound c o k : wf c -> mem_cse_lookup c o k < num_nodes c.
Proof.
  intros H. destruct (wf_cse c H) as (_ & _ & Hc). unfold mem_cse_lookup.
  induction (mem_cse c) as [|[[eo ek] ev] l IH]; cbn [cse_find]; [pose proof (num_nonneg c); lia|].
  inversion Hc as [|? ? Hd Ht]; subst. cbn [snd] in Hd. destruct (_ && _); [lia|auto].
Qed.

(** A load node, after which the caller goes on. *)
Lemma ext_load c c1 k o i0 : ext c c1 -> num_nodes c1 < kMaxNodes -> has_mem k = true -> arity k <= 1 ->
  (1 <= arity k -> 0 <= i0 < num_nodes c1) ->
  ext c (set_mem_operand (append c1 (new_node k i0 (-1) (-1))) (num_nodes c1) o).
Proof.
  intros H Hr Hk Ha Hi. unfold set_mem_operand. rewrite set_node_append.
  apply ext_new; auto; cbn [op new_node payload_wf]; lia.
Qed.

Lemma num_mem_node c n id o : num_nodes (set_mem_operand (append c n) id o) = num_nodes c + 1.
Proof.
  unfold set_mem_operand, set_node, num_nodes, append. cbn [nodes with_nodes].
  rewrite list_set_length, length_app. cbn [length]. lia.
Qed.

Lemma build_int_load_makes c c1 o : ext c c1 -> makes c (build_int_load c1 o).
Proof.
  intros H. unfold build_int_load. destruct (int_load_op (op_size o)) as [k|] eqn:Ek; [|apply makes_neg, H].
  assert (Hk : has_mem k = true /\ arity k = 0).
  { unfold int_load_op in Ek. repeat (destruct (_ =? _); [injection Ek as <-; auto|]). discriminate. }
  destruct Hk as [Hk Ha].
  cbv zeta. destruct (_ <=? _); [apply makes_id; [exact H|apply lookup_bound, H]|].
  apply or_neg_new; [exact H|]. intros Hr.
  pose proof (ext_load c c1 k o (-1) H Hr Hk ltac:(lia) ltac:(lia)) as H2.
  pose proof (num_nonneg c1) as Hn. pose proof (num_mem_node c1 (new_node k (-1) (-1) (-1)) (num_nodes c1) o) as Hm.
  set (c2 := set_mem_operand _ _ _) in *.
  apply makes_id; [|rewrite insert_num; lia].
  apply (ext_then c2 _ _ H2). intros W. apply ext_insert; [exact W|lia].
Qed.

Lemma build_fp_load_makes c c1 o : ext c c1 -> makes c (build_fp_load range_is_readonly host_mem c1 o).
Proof.
  intros H. unfold build_fp_load. cbv zeta. destruct (_ && _).
  { destruct (_ =? _); [apply try_const_promote_m80_makes, H|apply makes_neg, H]. }
  set (k := if op_size o =? IROperandSize.S32 then LoadF32Raw else LoadF64).
  destruct (try_const_promote_makes c c1 o k H) as [A B].
  destruct (try_const_promote _ _ c1 o k) as [pr c2]. cbn [fst snd] in *.
  destruct (_ <=? _); [apply makes_id; assumption|].
  destruct (_ <=? _); [apply makes_id; [exact A|apply lookup_bound, A]|].
  apply or_neg_new; [exact A|]. intros Hr.
  assert (Hk : has_mem k = true /\ arity k = 0) by (unfold k; destruct (_ =? _); auto). destruct Hk as [Hk Ha].
  pose proof (ext_load c c2 k o (-1) A Hr Hk ltac:(lia) ltac:(lia)) as H2.
  pose proof (num_nonneg c2) as Hn. pose proof (num_mem_node c2 (new_node k (-1) (-1) (-1)) (num_nodes c2) o) as Hm.
  set (c3 := set_mem_operand _ _ _) in *.
  destruct (op_size o =? IROperandSize.S32).
  - apply or_neg_makes; [apply add_makes; try exact H2; try discriminate; try reflexivity; cbn [arity]; lia|].
    intros id c4 H4 B4. apply makes_id; [|rewrite insert_num; apply B4]. chain.
  - apply makes_id; [|rewrite insert_num; lia].
    apply (ext_then c3 _ _ H2). intros W. apply ext_insert; [exact W|lia].
Qed.

Lemma input_bound c id : wf c -> 0 <= id < num_nodes c -> 1 <= arity (op (node c id)) ->
  0 <= input (node c id) 0 < num_nodes c.
Proof. intros H Hid Ha. pose proof (nw_ids _ _ (wf_nodes c H id Hid) 0 ltac:(lia)). lia. Qed.

Lemma narrow_does c c1 v b w c2 : ext c c1 -> 0 <= v < num_nodes c1 ->
  narrow_for_store c1 v = (b, w, c2) -> ext c c2 /\ (b = true -> 0 <= w < num_nodes c2) /\ num_nodes c1 <= num_nodes c2.
Proof.
  intros H Hv. pose proof (ext_wf _ _ H) as W. unfold narrow_for_store.
  destruct (Op_eqb _ _) eqn:Eo.
  { intros [= <- <- <-]. split; [exact H|split; [|lia]]. intros _. apply input_bound; [exact W|exact Hv|].
    unfold Op_eqb in Eo. destruct (Op_eq_dec _ _) as [->|]; [cbn; lia|discriminate]. }
  destruct (Z.eqb_spec (last_narrow_input c1) v) as [E|E].
  { intros [= <- <- <-]. split; [exact H|split; [|lia]]. intros _. apply (wf_narrow c1 W). lia. }
  destruct (add_makes c1 c1 CvtF64ToF32 v (-1) (-1) (ext_refl _ W) eq_refl) as [A B];
    [discriminate|intros _; exact Hv|cbn; lia|cbn; lia|].
  destruct (add_node _ _ _ _ _) as [id c3]. cbn [fst snd] in *.
  pose proof (ext_num _ _ A) as Hnum. pose proof (ext_trans _ _ _ H A) as H3.
  destruct (Z.ltb_spec id 0); intros [= <- <- <-].
  - split; [exact H3|split; [discriminate|lia]].
  - split; [|split; [intros _; split; [lia|exact B]|exact Hnum]].
    apply (ext_then c3 _ _ H3). intros W3. apply ext_narrow; [exact W3|lia].
Qed.

Lemma build_fp_store_does c c1 o v : ext c c1 -> 0 <= v < num_nodes c1 -> does c (build_fp_store c1 o v).
Proof.
  intros H Hv. unfold build_fp_store. cbv zeta. destruct (_ && _); [exact H|].
  set (r := if _ =? _ then narrow_for_store c1 v else _).
  assert (G : ext c (snd r) /\ (fst (fst r) = true -> 0 <= snd (fst r) < num_nodes (snd r)) /\
    num_nodes c1 <= num_nodes (snd r)).
  { unfold r. destruct (_ =? _); [|split; [exact H|split; [intros _; exact Hv|apply Z.le_refl]]].
    destruct (narrow_for_store c1 v) as [[b w] c2] eqn:En. exact (narrow_does c c1 v b w c2 H Hv En). }
  destruct r as [[b w] c2]. cbn [fst snd] in G. destruct G as (H2 & Hw & Hnum).
  destruct b; [|exact H2]. specialize (Hw eq_refl). cbn [negb].
  apply or_fail_new; [exact H2|]. intros Hr. set (k := if _ =? _ then StoreF32Raw else StoreF64).
  assert (Hk : has_mem k = true /\ arity k = 1) by (unfold k; destruct (_ =? _); auto). destruct Hk as [Hk Ha].
  pose proof (ext_load c c2 k o w H2 Hr Hk ltac:(lia) ltac:(auto)) as H3.
  pose proof (num_nonneg c2) as Hn. pose proof (num_mem_node c2 (new_node k w (-1) (-1)) (num_nodes c2) o) as Hm.
  set (c3 := set_mem_operand _ _ _) in *.
  assert (H4 : ext c (mem_cse_evict_may_alias c3 o)) by chain. set (c4 := mem_cse_evict_may_alias c3 o) in *.
  assert (N4 : num_nodes c4 = num_nodes c3) by reflexivity.
  destruct (op_size o =? IROperandSize.S32); [|red; cbn [snd]; apply (ext_then c4 _ _ H4); intros W; apply ext_insert; [exact W|lia]].
  set (f := if Op_eqb _ _ then _ else _).
  assert (G : makes c f).
  { unfold f. destruct (Op_eqb _ _); [apply makes_id; [exact H4|lia]|].
    apply add_makes; try exact H4; try discriminate; try reflexivity; cbn [arity]; lia. }
  destruct f as [fwd c5]. destruct G as [G1 G2]. cbn [fst snd] in *. red. cbn [snd].
  destruct (Z.leb_spec 0 fwd); [|exact G1]. apply (ext_then c5 _ _ G1). intros W. apply ext_insert; [exact W|lia].
Qed.

Lemma build_int_store_does c c1 o v t : ext c c1 -> 0 <= v < num_nodes c1 -> does c (build_int_store c1 o v t).
Proof.
  intros H Hv. unfold build_int_store. destruct (int_store_op (op_size o)) as [k|] eqn:Ek; [|exact H].
  assert (Hk : has_mem k = true /\ arity k = 1).
  { unfold int_store_op in Ek. repeat (destruct (_ =? _); [injection Ek as <-; auto|]). discriminate. }
  destruct Hk as [Hk Ha]. apply or_fail_new; [exact H|]. intros Hr. cbv zeta.
  unfold set_mem_operand. rewrite set_node_append, set_node_append. red. cbn [snd].
  destruct t; unfold X87IR.with_flags, with_data, new_node; cbn [op flags inputs aux data]; chain.
Qed.
(** ** Instructions *)

Lemma or_fail_step c c1 r k : ext c c1 -> (wf c1 -> makes c1 r) ->
  (forall id c2, ext c1 c2 -> 0 <= id < num_nodes c2 -> does c (k id c2)) -> does c (or_fail r k).
Proof.
  intros H Hr Hk. destruct (Hr (ext_wf _ _ H)) as [He Hn]. unfold or_fail. destruct r as [id c2].
  cbn [fst snd] in *. destruct (Z.ltb_spec id 0).
  - exact (ext_trans _ _ _ H He).
  - apply Hk; [exact He|lia].
Qed.

(** One step through a builder: a lookup, a node, or a test. *)
Ltac plain_node := apply add_makes;
  [try chain|reflexivity|discriminate|cbn [arity arith_op]; try lia; intros _; bound..].
Ltac find :=
  repeat match goal with
  | |- does _ (or_fail (resolve ?c1 _) _) =>
      apply (or_fail_step _ c1); [chain|intro; apply resolve_makes, ext_refl; assumption|intros ? ? ? ?]
  | |- does _ (or_fail (build_int_load ?c1 _) _) =>
      apply (or_fail_step _ c1); [chain|intro; apply build_int_load_makes, ext_refl; assumption|intros ? ? ? ?]
  | |- does _ (or_fail (build_fp_load _ _ ?c1 _) _) =>
      apply (or_fail_step _ c1); [chain|intro; apply build_fp_load_makes, ext_refl; assumption|intros ? ? ? ?]
  | |- does _ (let '(_, _) := resolve ?c1 ?d in _) =>
      let A := fresh "A" in let B := fresh "B" in
      assert (A : makes c1 (resolve c1 d)) by (apply resolve_makes, ext_refl; eapply ext_wf; eassumption || assumption);
      destruct (resolve c1 d) as [? ?]; destruct A as [A B]; cbn [fst snd] in A, B
  | |- does _ (if ?b then (false, _) else _) => let E := fresh "E" in destruct b eqn:E; [chain|]
  | |- does _ (if ?b then _ else (false, _)) => let E := fresh "E" in destruct b eqn:E; [|chain]
  | |- does _ (true, _) => chain
  end.
Ltac walk :=
  repeat (progress find || match goal with
  | |- does _ (or_fail (add_node ?c1 _ _ _ _) _) =>
      apply (or_fail_step _ c1); [chain|intro; plain_node|intros ? ? ? ?]
  end).

Lemma add_arith_makes c c1 o rev a b : ext c c1 -> 0 <= a < num_nodes c1 -> 0 <= b < num_nodes c1 ->
  makes c (add_arith c1 (arith_op o) rev a b).
Proof. intros. unfold add_arith. destruct rev, o; plain_node. Qed.

Lemma or_fail_arith c c1 o rev a b k : ext c c1 -> 0 <= a < num_nodes c1 -> 0 <= b < num_nodes c1 ->
  (forall id c2, ext c1 c2 -> 0 <= id < num_nodes c2 -> does c (k id c2)) ->
  does c (or_fail (add_arith c1 (arith_op o) rev a b) k).
Proof. intros. apply (or_fail_step c c1); [assumption|intro; apply add_arith_makes; try apply ext_refl; assumption|assumption]. Qed.

Lemma build_arith_does c i o rev : wf c ->
  does c (build_arith range_is_readonly host_mem c i (arith_op o) rev).
Proof.
  intros H. pose proof (ext_refl c H) as H0. unfold build_arith. cbv zeta.
  destruct (_ =? _); walk.
  - apply orb_false_iff in E as [E1 E2]. apply Z.ltb_ge in E1, E2.
    apply or_fail_arith; [chain|bound|bound|]. intros. walk.
  - apply or_fail_arith; [chain|bound|bound|]. intros. walk.
Qed.

Lemma build_arithp_does c i o rev : wf c -> does c (build_arithp c i (arith_op o) rev).
Proof.
  intros H. pose proof (ext_refl c H) as H0. unfold build_arithp. cbv zeta. walk.
  apply orb_false_iff in E as [E1 E2]. apply Z.ltb_ge in E1, E2.
  apply or_fail_arith; [chain|bound|bound|]. intros. walk.
Qed.

Lemma build_iarith_does c i o rev : wf c -> does c (build_iarith c i (arith_op o) rev).
Proof.
  intros H. pose proof (ext_refl c H) as H0. unfold build_iarith. walk.
  apply or_fail_arith; [chain|bound|bound|]. intros. walk.
Qed.
Lemma build_unary_does c k : wf c -> k = FAbs \/ k = FSqrt \/ k = FRndInt -> does c (build_unary c k).
Proof.
  intros H Hk. pose proof (ext_refl c H) as H0. unfold build_unary.
  destruct Hk as [-> | [-> | ->]]; walk.
Qed.

Lemma build_fchs_does c : wf c -> does c (build_fchs c).
Proof.
  intros H. pose proof (ext_refl c H) as H0. unfold build_fchs. walk. destruct (Op_eqb _ _) eqn:Eo; walk.
  unfold Op_eqb in Eo. destruct (Op_eq_dec _ _) as [E|]; [|discriminate].
  assert (0 <= input (node c2 id) 0 < num_nodes c2)
    by (apply input_bound; [eapply ext_wf; eassumption|assumption|rewrite E; cbn; lia]).
  chain.
Qed.

Lemma build_fcom_does c i n pp : wf c -> does c (build_fcom range_is_readonly host_mem c i n pp).
Proof.
  intros H. pose proof (ext_refl c H) as H0. unfold build_fcom. walk.
  match goal with |- does _ (or_fail (if _ then resolve ?x _ else _) _) =>
    apply (or_fail_step _ x); [chain| |intros ? ? ? ?; walk] end.
  intros W. destruct pp; [apply resolve_makes, ext_refl, W|].
  destruct (_ =? _); [apply resolve_makes, ext_refl, W|apply build_fp_load_makes, ext_refl, W].
Qed.

Lemma build_ficom_does c i p : wf c -> does c (build_ficom c i p).
Proof. intros H. pose proof (ext_refl c H) as H0. unfold build_ficom. walk. Qed.

Lemma build_ftst_does c : wf c -> does c (build_ftst c).
Proof. intros H. pose proof (ext_refl c H) as H0. unfold build_ftst. walk. Qed.

(** A node whose fields are set after it is added. *)
Ltac new_node_set :=
  rewrite ?set_node_append; unfold X87IR.with_flags, with_data, with_inputs, with_aux, new_node;
  cbn [op flags inputs aux data]; red; cbn [snd].

Lemma build_fcomi_does c i p : wf c -> does c (build_fcomi c i p).
Proof.
  intros H. pose proof (ext_refl c H) as H0. unfold build_fcomi. find.
  apply or_fail_new; [chain|]. intros Hr. cbv zeta. destruct p; new_node_set; chain.
Qed.

Lemma build_fcmov_does c i k : wf c -> does c (build_fcmov c i k).
Proof.
  intros H. pose proof (ext_refl c H) as H0. unfold build_fcmov. destruct (_ <? _); [exact H0|]. find.
  apply or_fail_new; [chain|]. intros Hr. cbv zeta. new_node_set; chain.
Qed.

Lemma push_id_does c r : makes c r -> does c (push_id r).
Proof. intros Hr. unfold push_id. apply or_fail_does; [exact Hr|]. intros. walk. Qed.

Lemma build_fld_does c i : wf c -> does c (build_fld range_is_readonly host_mem c i).
Proof.
  intros H. unfold build_fld. destruct (_ =? _); apply push_id_does.
  - apply resolve_makes, ext_refl, H.
  - apply build_fp_load_makes, ext_refl, H.
Qed.

Lemma build_fst_does c i p r : wf c -> build_fst c i p = Some r -> does c r.
Proof.
  intros H. pose proof (ext_refl c H) as H0. unfold build_fst. cbv zeta.
  destruct (resolve_makes c c 0 H0) as [A B]. destruct (resolve c 0) as [a c1]. cbn [fst snd] in *.
  destruct (Z.ltb_spec a 0); [intros [= <-]; exact A|]. destruct (_ =? _).
  - destruct (_ =? 0); [intros [= <-]; chain|]. destruct (_ <=? _); [discriminate|].
    intros [= <-]. chain.
  - pose proof (build_fp_store_does c c1 (operand i 0) a A ltac:(lia)) as S.
    destruct (build_fp_store _ _ _) as [ok c2]. red in S. cbn [snd] in S.
    destruct ok; intros [= <-]; chain.
Qed.

Lemma build_fist_does c i t p : wf c -> does c (build_fist c i t p).
Proof.
  intros H. pose proof (ext_refl c H) as H0. unfold build_fist. walk.
  pose proof (build_int_store_does c c2 (operand i 0) id t H1 ltac:(assumption)) as S.
  destruct (build_int_store _ _ _ _) as [ok c3]. red in S. cbn [snd] in S. destruct ok; chain.
Qed.

Lemma build_fxch_does c i : wf c -> does c (build_fxch c i).
Proof.
  intros H. pose proof (ext_refl c H) as H0. unfold build_fxch. cbv zeta.
  destruct (_ || _) eqn:E; [exact H0|]. apply orb_false_iff in E as [E1 E2].
  apply Z.leb_gt in E1, E2. set (d := index _) in *.
  destruct (resolve_makes c c 0 H0) as [A _]. set (c1 := snd (resolve c 0)) in *.
  destruct (resolve_makes c c1 d A) as [A2 _]. set (c2 := snd (resolve c1 d)) in *.
  pose proof (ext_wf _ _ A2) as W.
  pose proof (slot_bound c2 d W ltac:(lia)). pose proof (slot_bound c2 0 W ltac:(lia)). chain.
Qed.

Lemma build_fstsw_does c i : wf c -> does c (build_fstsw c i).
Proof.
  intros H. pose proof (ext_refl c H) as H0. unfold build_fstsw. destruct (negb _); [exact H0|].
  apply or_fail_new; [exact H0|]. intros Hr. cbv zeta. new_node_set; chain.
Qed.

Lemma build_fldcw_does c i : wf c -> does c (build_fldcw c i).
Proof.
  intros H. pose proof (ext_refl c H) as H0. unfold build_fldcw.
  apply or_fail_new; [exact H0|]. intros Hr. unfold set_mem_operand. new_node_set; chain.
Qed.

Lemma build_fnstcw_does c i : wf c -> does c (build_fnstcw c i).
Proof.
  intros H. pose proof (ext_refl c H) as H0. unfold build_fnstcw.
  apply or_fail_new; [exact H0|]. intros Hr. cbv zeta. unfold set_mem_operand. new_node_set; chain.
Qed.
(** ** Guest instructions *)

Lemma guest_access_does c k o a : wf c -> k = GuestStoreR \/ k = GuestStoreI ->
  does c (or_fail (or_neg (add_node c k (-1) (-1) (-1)) (fun id c1 => (id, set_node c1 id (fun n => with_aux n a))))
            (fun id c1 => (true, mem_cse_evict_may_alias (set_mem_operand c1 id o) o))).
Proof.
  intros H Hk. pose proof (ext_refl c H) as H0. unfold or_neg, or_fail.
  destruct (add_node_room c k (-1) (-1) (-1)) as [-> | [Hr ->]]; [exact H0|].
  replace (num_nodes c <? 0) with false by (symmetry; apply Z.ltb_ge, num_nonneg).
  replace (num_nodes c <? 0) with false by (symmetry; apply Z.ltb_ge, num_nonneg).
  unfold set_mem_operand. destruct Hk as [-> | ->]; new_node_set; chain.
Qed.

Lemma build_guest_store_does c dst src : wf c -> does c (build_guest_store c dst src).
Proof.
  intros H. pose proof (ext_refl c H) as H0. unfold build_guest_store. cbv zeta. destruct (_ =? _).
  - repeat (destruct (_ : bool); [exact H0|]). apply guest_access_does; auto.
  - repeat (destruct (_ : bool); [exact H0|]). apply guest_access_does; auto.
Qed.

Lemma build_guest_load_does c opc dst src d64 : wf c -> does c (build_guest_load c opc dst src d64).
Proof.
  intros H. pose proof (ext_refl c H) as H0. unfold build_guest_load, guest_write. cbv zeta.
  destruct (negb _); [exact H0|]. destruct (_ && _); [exact H0|].
  apply or_fail_new; [exact H0|]. intros Hr. unfold set_mem_operand. new_node_set; chain.
Qed.

Lemma guest_reg_op opc dst src d64 k p : guest_reg_form opc dst src d64 = Some (k, p) ->
  k = GuestMovRR \/ k = GuestMovRI \/ k = GuestLea \/ k = GuestExt.
Proof.
  unfold guest_reg_form, guest_mov, guest_ext, guest_lea. cbv zeta.
  repeat match goal with
  | |- (if ?b then _ else _) = _ -> _ => destruct b
  | |- match ?e with Some _ => _ | None => _ end = _ -> _ => destruct e
  | |- None = _ -> _ => discriminate
  | |- Some _ = _ -> _ => intros [= <- <-]; auto
  end.
Qed.

Lemma build_guest_int_does c i : wf c -> does c (build_guest_int transparent_int c i).
Proof.
  intros H. pose proof (ext_refl c H) as H0. unfold build_guest_int. cbv zeta.
  destruct (negb transparent_int); [exact H0|]. destruct (_ || _); [exact H0|].
  destruct (_ <? _); [exact H0|]. destruct (_ && _); [apply build_guest_store_does, H|].
  destruct (_ || _); [exact H0|]. destruct (_ && _); [exact H0|].
  destruct (_ && _); [apply build_guest_load_does, H|].
  destruct (guest_reg_form _ _ _ _) as [[k p]|] eqn:Ef; [|exact H0].
  apply guest_reg_op in Ef. apply or_fail_new; [exact H0|]. intros Hr. unfold guest_write.
  destruct Ef as [-> | [-> | [-> | ->]]]; new_node_set; chain.
Qed.

(** ** The run *)

Lemma build_instr_does c i r :
  wf c -> build_instr range_is_readonly host_mem transparent_int c i = Some r -> does c r.
Proof.
  intros H. pose proof (ext_refl c H) as H0. unfold build_instr.
  destruct (x87op_of (opcode i)) as [[]|]; try (apply build_fst_does; exact H);
    intros Hr; apply some_inj in Hr; subst r;
    auto using push_id_does, const_node_makes, build_fld_does, build_int_load_makes, build_fist_does,
      build_arith_does, build_iarith_does, build_arithp_does, build_fchs_does, build_unary_does,
      build_fxch_does, build_fcom_does, build_ficom_does, build_fcomi_does, build_fcmov_does,
      build_ftst_does, build_fstsw_does, build_fldcw_does, build_fnstcw_does, build_guest_int_does.
Qed.

Lemma wf_consumed c k : wf c -> wf (with_consumed c k).
Proof. intros []. constructor; assumption. Qed.

Lemma build_loop_wf l : forall c i c', wf c -> consumed c = s16 i ->
  build_loop range_is_readonly host_mem transparent_int c l i = Some c' ->
  wf c' /\ exists k, (k <= length l)%nat /\ consumed c' = s16 (i + Z.of_nat k).
Proof.
  induction l as [|ins l IH]; intros c i c' H Hc Hb; cbn [build_loop] in Hb.
  - injection Hb as <-. split; [exact H|]. exists 0%nat. rewrite Z.add_0_r. auto.
  - destruct (build_instr _ _ _ c ins) as [[ok c1]|] eqn:Ei; [|discriminate].
    destruct (build_instr_does c ins _ H Ei) as [W _ Ec]. cbn [snd] in *. destruct ok.
    + destruct (IH _ (i + 1) c' (wf_consumed c1 _ W) eq_refl Hb) as (W' & k & Hk & Hck).
      split; [exact W'|]. exists (S k). cbn [length]. split; [lia|]. rewrite Hck. f_equal. lia.
    + injection Hb as <-. split; [exact W|]. exists 0%nat. split; [lia|]. rewrite Ec, Hc. f_equal. lia.
Qed.

(** Register forms name one of the eight stack registers. *)
Definition operands_ok (i : IRInstr) : Prop :=
  forall pops, x87op_of (opcode i) = Some (Fst pops) ->
  kind (operand i 0) = IROperandKind.Register -> index (reg (operand i 0)) < 8.

Lemma build_instr_some c i : operands_ok i ->
  build_instr range_is_readonly host_mem transparent_int c i <> None.
Proof.
  intros H. unfold build_instr. destruct (x87op_of (opcode i)) as [[]|] eqn:Ek; try discriminate.
  unfold build_fst. cbv zeta. destruct (resolve c 0) as [a c1]. destruct (_ <? _); [discriminate|].
  destruct (Z.eqb_spec (kind (operand i 0)) IROperandKind.Register) as [E|].
  - destruct (_ =? 0); [discriminate|]. specialize (H pops Ek E).
    destruct (Z.leb_spec 8 (index (reg (operand i 0)))); [lia|discriminate].
  - destruct (build_fp_store _ _ _). discriminate.
Qed.

Lemma build_loop_some l : Forall operands_ok l -> forall c i,
  build_loop range_is_readonly host_mem transparent_int c l i <> None.
Proof.
  induction 1 as [|ins l Hi _ IH]; intros c i; cbn [build_loop]; [discriminate|].
  pose proof (build_instr_some c ins Hi). destruct (build_instr _ _ _ c ins) as [[[] c1]|];
    [apply IH|discriminate|contradiction].
Qed.

(** [perm] is a permutation array: eight physical depths. *)
Definition perm_ok (perm : option (list Z)) : Prop :=
  match perm with Some p => length p = 8%nat /\ Forall (fun d => 0 <= d < 8) p | None => True end.

Lemma context_init_wf promote : wf (with_const_promote Context_init promote).
Proof.
  constructor.
  - discriminate.
  - intros id Hid. change (num_nodes _) with 0 in Hid. lia.
  - split; [reflexivity|]. repeat constructor.
  - split; [reflexivity|]. repeat constructor.
  - split; [discriminate|]. split; [split; [discriminate|reflexivity]|constructor].
  - split; [discriminate|]. split; [split; [discriminate|reflexivity]|constructor].
  - repeat split.
  - intros Hn. exfalso. apply Hn. reflexivity.
Qed.

Lemma resolve_perm_does perm : forall c d, wf c -> does c (resolve_perm c perm d).
Proof.
  induction perm as [|p perm IH]; intros c d H; cbn [resolve_perm]; [apply ext_refl, H|].
  destruct (p =? d); [apply IH, H|]. destruct (resolve_makes c c d (ext_refl c H)) as [A B].
  destruct (resolve c d) as [id c1]. cbn [fst snd] in *. destruct (_ <? _); [exact A|].
  apply (does_then c c1); [exact A|apply IH, A].
Qed.

Lemma wf_perm c p : wf c -> length p = 8%nat -> Forall (fun d => 0 <= d < 8) p ->
  ext c (with_slots c (map (fun x => - (x + 1)) p) (top_delta c)).
Proof.
  intros H Hl Hp. apply ext_slots; [exact H|rewrite length_map; exact Hl|].
  pose proof (num_nonneg c). apply Forall_map. revert Hp. apply Forall_impl. intros. lia.
Qed.
End Builders.

Lemma build_run_wf range_is_readonly host_mem transparent_int instrs start n perm promote :
  Forall operands_ok instrs -> perm_ok perm -> Z.of_nat n < 2 ^ 15 ->
  exists ok c k, build range_is_readonly host_mem transparent_int instrs start n perm promote = Some (ok, c) /\
    wf c /\ (k <= n)%nat /\ consumed c = Z.of_nat k /\ ok = (2 <=? consumed c).
Proof.
  intros Hops Hp Hn. unfold build. cbv zeta. set (c0 := with_const_promote Context_init promote).
  pose proof (context_init_wf promote) as W0. fold c0 in W0.
  set (r := match perm with Some _ => _ | None => _ end).
  assert (G : wf (snd r) /\ consumed (snd r) = 0).
  { unfold r. destruct perm as [p|]; [|exact (conj W0 eq_refl)]. destruct Hp as [Hl Hp].
    pose proof (wf_perm c0 p W0 Hl Hp) as A. destruct (resolve_perm_does p _ 0 (ext_wf _ _ A)) as [B _ C].
    split; [exact B|]. rewrite C. apply A. }
  destruct r as [ok c1]. cbn [snd] in G. destruct G as [W1 E1]. destruct ok.
  - set (l := firstn n (skipn start instrs)).
    assert (Hl : Forall operands_ok l) by (apply Forall_firstn; rewrite <- (firstn_skipn start instrs) in Hops; apply Forall_app in Hops; apply Hops).
    pose proof (build_loop_some range_is_readonly host_mem transparent_int l Hl c1 0) as Hs.
    destruct (build_loop _ _ _ c1 l 0) as [c|] eqn:Eb; [|contradiction].
    destruct (build_loop_wf _ _ _ l c1 0 c W1 E1 Eb) as (W & k & Hk & Hc).
    pose proof (firstn_le_length n (skipn start instrs)).
    fold l in H. rewrite s16_small in Hc by lia.
    exists (2 <=? consumed c), c, k. split; [reflexivity|]. split; [exact W|]. split; [lia|]. split; [exact Hc|reflexivity].
  - exists false, c1, 0%nat. rewrite E1. split; [reflexivity|]. split; [exact W1|]. split; [lia|]. split; reflexivity.
Qed.

(** C5: building a run of instructions whose register operands name stack
    registers always returns a context; its tables are within their arrays,
    every operand of a node is an earlier node, every node carries the
    payload its operation reads, and [consumed] counts the instructions
    compiled, the run being worthwhile when that is at least two. *)
Theorem build_well_formed range_is_readonly host_mem transparent_int instrs start n perm promote :
  Forall operands_ok instrs -> perm_ok perm -> Z.of_nat n < 2 ^ 15 ->
  exists ok c, build range_is_readonly host_mem transparent_int instrs start n perm promote = Some (ok, c) /\
    wf c /\ 0 <= consumed c <= Z.of_nat n /\ ok = (2 <=? consumed c).
Proof.
  intros Ho Hp Hn.
  destruct (build_run_wf range_is_readonly host_mem transparent_int instrs start n perm promote Ho Hp Hn)
    as (ok & c & k & Hb & W & Hk & Hc & Hok).
  exists ok, c. split; [exact Hb|]. split; [exact W|]. split; [lia|exact Hok].
Qed.

(** fld st(1); fst st(3); fstp qword [rax], with ST(0) and ST(2) exchanged. *)
Definition wf_run : list IRInstr :=
  let st i := mkOperand 0 2 (0x70 + i) 0 0 0 0 0 0 in
  [ mkInstr kOpcodeName.fld 2 [st 0; st 1]; mkInstr kOpcodeName.fst_stack 1 [st 3];
    mkInstr kOpcodeName.fstp 1 [mkOperand 1 3 3 0 1 0 0 0 0] ].

Lemma build_well_formed_witness :
  exists ok c, build (fun _ _ => false) (fun _ => 0) false wf_run 0 3 (Some [2; 1; 0; 3; 4; 5; 6; 7]) false = Some (ok, c) /\
    wf c /\ 0 <= consumed c <= Z.of_nat 3 /\ ok = (2 <=? consumed c).
Proof.
  apply build_well_formed.
  - repeat constructor; intros pops Hp Hk; vm_compute in Hp, Hk |- *; try discriminate; reflexivity.
  - split; [reflexivity|]. repeat constructor; lia.
  - reflexivity.
Defined.
