(* ===== verification/X87IRBuildProps.v ===== *)
(** The builder refines the abstract machine: every builder function keeps
    the invariant and makes a node with the value the instruction computes.
    On failure the nodes it may have added change nothing. *)

From S2P Require Import Prelude F64 X87State X87Props F64Props F32Props GuestMem IROperand X87IR.
From S2P Require Import X87IRBuild Fpu X87IREval X87IRInv F80Promote.
From S2P Require X87Runtime CompareProps.

Section Build.
Context (segbase : Z -> Z) (ro : Z -> bool) (host_mem : mem) (s0 : fpu) (nzcv0 : Z)
  (stack0 : list (option Z)) (range_is_readonly : Z -> Z -> bool) (transparent_int : bool).

#[local] Abbreviation E := (E segbase s0 nzcv0 stack0).
#[local] Abbreviation V := (V segbase s0 nzcv0 stack0).
#[local] Abbreviation inv := (inv segbase ro host_mem s0 nzcv0 stack0).
#[local] Abbreviation core := (core segbase ro host_mem s0 nzcv0 stack0).
#[local] Abbreviation rel := (rel segbase s0 nzcv0 stack0).
#[local] Abbreviation node_ok := (node_ok segbase s0 nzcv0 stack0).
#[local] Abbreviation cse_ok := (cse_ok segbase s0 nzcv0 stack0).

Definition stack_ok (l : list (option Z)) : Prop :=
  Forall (fun o => match o with Some x => in64 x | None => True end) l.

Hypothesis Hstack0 : stack_ok stack0.

(** A read-only mapping never becomes writable, and is the translator's. *)
Hypothesis Hreadonly : forall a n, range_is_readonly a n = true ->
  forall x, a <= x < a + n -> ro x = true.

Lemma in64_initial d : in64 (initial stack0 d).
Proof.
  unfold initial. destruct (nth_in_or_default (Z.to_nat d) stack0 None) as [H| ->]; [|apply in64_0].
  pose proof (proj1 (Forall_forall _ _) Hstack0 _ H) as H'.
  destruct (nth _ _ _); [exact H' | apply in64_0].
Qed.

(** The node [r] of [c'] is a value, equal to [x]. *)
Definition is_node (c' : Context) (r x : Z) : Prop := 0 <= r < num_nodes c' /\ V c' r = x.

Lemma is_node_mono c c' r x : mono c c' -> is_node c r x -> is_node c' r x.
Proof.
  intros Hm [Hr Hx]. pose proof (mono_num c c' Hm). unfold is_node.
  rewrite (V_mono segbase s0 nzcv0 stack0 c c') by assumption. split; [lia|exact Hx].
Qed.

Lemma node_new c n x : E (append c n) = add_val (E c) x -> is_node (append c n) (num_nodes c) x.
Proof.
  intros He. split; [rewrite num_append; pose proof (num_nonneg c); lia|].
  apply (V_new _ _ _ _ c n x _ He). reflexivity.
Qed.

(** ** Adding a pure node *)

Lemma add_value c s n x :
  inv c s -> E (append c n) = add_val (E c) x -> in64 x -> node_ok (append c n) (num_nodes c) ->
  inv (append c n) s /\ mono c (append c n) /\ is_node (append c n) (num_nodes c) x.
Proof.
  intros H He Hx Hok. split; [exact (inv_append _ _ _ _ _ _ c s n x H He Hx Hok)|].
  split; [apply mono_append | apply node_new, He].
Qed.

Lemma plain_new c n : value_op (op n) = false -> node_ok (append c n) (num_nodes c).
Proof. intros H. apply node_ok_plain. rewrite node_append_new. exact H. Qed.

(** [add_node] of a plain operation on values. *)
Lemma add_node_value c s o i0 i1 i2 x r c' :
  inv c s -> add_node c o i0 i1 i2 = (r, c') -> value_op o = false -> in64 x ->
  E (append c (new_node o i0 i1 i2)) = add_val (E c) x ->
  inv c' s /\ mono c c' /\ (0 <= r -> is_node c' r x).
Proof.
  intros H Ha Ho Hx He. destruct (add_node_cases c o i0 i1 i2) as [Hc|Hc]; rewrite Hc in Ha;
    injection Ha as <- <-.
  - split; [exact H|split; [apply mono_refl|lia]].
  - destruct (add_value c s _ x H He Hx) as (H1 & H2 & H3); [apply plain_new, Ho|].
    auto.
Qed.

(** ** resolve *)

Lemma inv_initial_read c s d id :
  inv c s -> 0 <= d < 8 -> is_node c id (initial stack0 d) ->
  inv (with_initial_read c (zset (initial_read c) d id)) s.
Proof.
  intros [[] Hc] Hd [Hid Hx]. split; [|exact Hc]. constructor; try assumption.
  - destruct inv_rel. constructor; assumption.
  - cbn [initial_read with_initial_read]. rewrite zset_length. assumption.
  - intros d' Hd' H0. cbn [initial_read with_initial_read] in *.
    destruct (Z.eq_dec d d') as [<-|Hne].
    + rewrite zget_zset_eq by lia. split; [apply Hid | exact Hx].
    + rewrite zget_zset_ne in * by lia. apply inv_read; assumption.
Qed.

Lemma inv_reslot c s d id :
  inv c s -> 0 <= d < 8 -> 0 <= id < num_nodes c ->
  (forall x, st s d = Some x -> V c id = x) -> inv (set_slot c d id) s.
Proof.
  intros H Hd Hid Hx. apply (inv_with_slots _ _ _ _ _ _ c s); try reflexivity; [exact H|].
  apply rel_reslot; try assumption. apply H.
Qed.

Lemma resolve_spec c s d r c' :
  inv c s -> resolve c d = (r, c') ->
  inv c' s /\ mono c c' /\
  (0 <= r -> 0 <= d < 8 /\ 0 <= r < num_nodes c' /\ (forall x, st s d = Some x -> V c' r = x)).
Proof.
  intros H. unfold resolve.
  assert (F : inv c s /\ mono c c /\ (0 <= -1 -> 0 <= d < 8 /\ 0 <= -1 < num_nodes c /\
    (forall x, st s d = Some x -> V c (-1) = x))).
  { split; [exact H|split; [apply mono_refl|lia]]. }
  destruct ((d <? 0) || (8 <=? d)) eqn:Ed; [intros [= <- <-]; exact F|].
  apply orb_false_iff in Ed as [Ed1 Ed2]. apply Z.ltb_ge in Ed1. apply Z.leb_gt in Ed2.
  assert (Hd : 0 <= d < 8) by lia.
  assert (Hst : forall x, st s d = Some x -> slot_value stack0 (E c) (slot c d) = Some x).
  { intros x. apply H. exact Hd. }
  cbv zeta. destruct (Z.leb_spec 0 (slot c d)) as [Hs|Hs].
  - intros [= <- <-]. split; [exact H|split; [apply mono_refl|]]. intros _.
    split; [exact Hd|split].
    + split; [exact Hs|]. apply H. exact Hd.
    + intros x Hx. specialize (Hst x Hx). unfold slot_value in Hst.
      rewrite (proj2 (Z.leb_le _ _) Hs) in Hst. injection Hst as Hst. exact Hst.
  - set (k := - (slot c d + 1)) in *.
    destruct ((k <? 0) || (8 <=? k)) eqn:Ek; [intros [= <- <-]; exact F|].
    apply orb_false_iff in Ek as [Ek1 Ek2]. apply Z.ltb_ge in Ek1. apply Z.leb_gt in Ek2.
    assert (Hinit : forall x, st s d = Some x -> initial stack0 k = x).
    { intros x Hx. specialize (Hst x Hx). unfold slot_value in Hst.
      rewrite (proj2 (Z.leb_gt 0 _) Hs) in Hst. destruct (-8 <=? slot c d); [|discriminate].
      fold k in Hst. unfold initial. rewrite Hst. reflexivity. }
    destruct (Z.leb_spec 0 (zget (initial_read c) k)) as [Hr|Hr].
    + intros [= <- <-]. destruct (proj1 H) as [_ _ Hread _ _ _ _ _ _ _].
      destruct (Hread k ltac:(lia) Hr) as [Hlt Hv].
      split; [|split; [apply mono_nodes; reflexivity|]].
      * apply inv_reslot; try assumption; [lia|]. intros x Hx. rewrite Hv. apply Hinit, Hx.
      * intros _. split; [exact Hd|split; [exact (conj Hr Hlt)|]]. intros x Hx.
        change (V c (zget (initial_read c) k) = x). rewrite Hv. apply Hinit, Hx.
    + destruct (add_node_cases c ReadSt (-1) (-1) (-1)) as [-> | ->].
      * intros [= <- <-]. exact F.
      * replace (num_nodes c <? 0) with false by (symmetry; apply Z.ltb_ge, num_nonneg).
        rewrite set_node_append.
        set (n := with_data _ _). assert (He : E (append c n) = add_val (E c) (initial stack0 k)).
        { rewrite E_append. reflexivity. }
        destruct (add_value c s n _ H He (in64_initial k)) as (Hi & Hm & Hn); [apply plain_new; reflexivity|].
        intros [= <- <-]. pose proof (inv_initial_read _ s k (num_nodes c) Hi ltac:(lia) Hn) as Hi2.
        split; [|split; [exact Hm|]].
        -- apply inv_reslot; [exact Hi2|exact Hd|apply Hn|]. intros x Hx.
           transitivity (initial stack0 k); [exact (proj2 Hn) | apply Hinit, Hx].
        -- intros _. split; [exact Hd|split; [apply Hn|]]. intros x Hx.
           transitivity (initial stack0 k); [exact (proj2 Hn) | apply Hinit, Hx].
Qed.

(** ** Constants *)

Lemma rel_frame c c' s : rel c s -> nodes c' = nodes c -> slot_val c' = slot_val c ->
  top_delta c' = top_delta c -> last_fcomi c' = last_fcomi c -> rel c' s.
Proof.
  destruct c, c'. cbn. intros [] -> -> -> ->. constructor; assumption.
Qed.

Ltac frame_core H :=
  destruct H as [[] ?Hc]; split; [|assumption]; constructor; try assumption;
  [eapply rel_frame; [eassumption|reflexivity..] | ..].

Lemma inv_const_zero c s id : inv c s -> is_node c id f_zero -> inv (with_const_zero c id) s.
Proof. intros H [Hid Hv]. frame_core H. intros _. split; [apply Hid | exact Hv]. Qed.

Lemma inv_const_one c s id : inv c s -> is_node c id f_one -> inv (with_const_one c id) s.
Proof. intros H [Hid Hv]. frame_core H. intros _. split; [apply Hid | exact Hv]. Qed.

Lemma inv_const_f64 c s l k :
  inv c s -> Forall (fun e => is_node c (fst e) (snd e)) l -> inv (with_const_f64 c l k) s.
Proof. intros H Hl. frame_core H. Qed.

Lemma inv_last_narrow c s i n x :
  inv c s -> is_node c i x -> is_node c n (narrow x) -> inv (with_last_narrow c i n) s.
Proof.
  intros H [Hi Hx] [Hn Hv]. frame_core H. intros _.
  split; [apply Hi|split; [exact Hn|]]. change (V c n = narrow (V c i)). congruence.
Qed.

Lemma inv_consts_in c s n b : inv c s -> In (n, b) (const_f64 c) -> is_node c n b.
Proof.
  intros [[] _] Hin. exact (proj1 (Forall_forall _ _) inv_consts (n, b) Hin).
Qed.

Lemma const_find_in l bits n : const_find l bits = Some n -> In (n, bits) l.
Proof.
  induction l as [|[n' b] l IH]; [discriminate|]. cbn [const_find].
  destruct (Z.eqb_spec b bits) as [->|]; [intros [= ->]; left; reflexivity | right; auto].
Qed.

(** The outcome of building a value [x]. *)
Definition builds (c : Context) (s : fpu) (r : Z) (c' : Context) (x : Z) : Prop :=
  inv c' s /\ mono c c' /\ (0 <= r -> is_node c' r x).

Lemma builds_fail c s x : inv c s -> builds c s (-1) c x.
Proof. intros H. split; [exact H|split; [apply mono_refl|lia]]. Qed.

Lemma build_const_spec c s bits r c' :
  inv c s -> in64 bits -> build_const c bits = (r, c') -> builds c s r c' bits.
Proof.
  intros H Hb. unfold build_const. destruct (const_find (const_f64 c) bits) as [n|] eqn:Ef.
  - intros [= <- <-]. split; [exact H|split; [apply mono_refl|]]. intros _.
    apply (inv_consts_in c s n bits H), const_find_in, Ef.
  - unfold or_neg. destruct (add_node_cases c ConstF64 (-1) (-1) (-1)) as [-> | ->].
    + intros [= <- <-]. apply builds_fail, H.
    + replace (num_nodes c <? 0) with false by (symmetry; apply Z.ltb_ge, num_nonneg).
      rewrite set_node_append. set (n := with_data _ _).
      assert (He : E (append c n) = add_val (E c) bits) by (rewrite E_append; reflexivity).
      destruct (add_value c s n _ H He Hb) as (Hi & Hm & Hn); [apply plain_new; reflexivity|].
      assert (Hold : Forall (fun e => is_node (append c n) (fst e) (snd e)) (const_f64 (append c n))).
      { apply Forall_forall. intros [a b] Hin. apply (inv_consts_in _ s); assumption. }
      destruct (_ <? _); intros [= <- <-];
        (split; [apply inv_const_f64; [exact Hi|] | split; [exact Hm|intros _; exact Hn]]).
      * apply Forall_app. split; [exact Hold | constructor; [exact Hn | constructor]].
      * apply Forall_list_set; [exact Hold | exact Hn].
Qed.

Lemma build_zero_spec c s r c' : inv c s -> build_zero c = (r, c') -> builds c s r c' f_zero.
Proof.
  intros H. unfold build_zero. destruct (Z.leb_spec 0 (const_zero_node c)) as [Hz|Hz].
  - intros [= <- <-]. split; [exact H|split; [apply mono_refl|]]. intros _.
    destruct (inv_zero _ _ _ _ _ _ _ _ (proj1 H) Hz). split; [lia|assumption].
  - destruct (add_node c ConstZero (-1) (-1) (-1)) as [id c1] eqn:Ea.
    destruct (add_node_value c s ConstZero _ _ _ f_zero id c1 H Ea) as (Hi & Hm & Hn);
      [reflexivity|exact in64_0|rewrite E_append; reflexivity|].
    intros [= <- <-]. destruct (Z.leb_spec 0 id) as [Hid|Hid].
    + split; [apply inv_const_zero; auto|split; [exact Hm|exact Hn]].
    + split; [exact Hi|split; [exact Hm|exact Hn]].
Qed.

Lemma in64_one : in64 f_one. Proof. vm_compute. intuition discriminate. Qed.

Lemma build_one_spec c s r c' : inv c s -> build_one c = (r, c') -> builds c s r c' f_one.
Proof.
  intros H. unfold build_one. destruct (Z.leb_spec 0 (const_one_node c)) as [Hz|Hz].
  - intros [= <- <-]. split; [exact H|split; [apply mono_refl|]]. intros _.
    destruct (inv_one _ _ _ _ _ _ _ _ (proj1 H) Hz). split; [lia|assumption].
  - destruct (add_node c ConstOne (-1) (-1) (-1)) as [id c1] eqn:Ea.
    destruct (add_node_value c s ConstOne _ _ _ f_one id c1 H Ea) as (Hi & Hm & Hn);
      [reflexivity|exact in64_one|rewrite E_append; reflexivity|].
    intros [= <- <-]. destruct (Z.leb_spec 0 id) as [Hid|Hid].
    + split; [apply inv_const_one; auto|split; [exact Hm|exact Hn]].
    + split; [exact Hi|split; [exact Hm|exact Hn]].
Qed.

Lemma const_node_for_bits_spec c s bits r c' :
  inv c s -> in64 bits -> const_node_for_bits c bits = (r, c') -> builds c s r c' bits.
Proof.
  intros H Hb. unfold const_node_for_bits.
  destruct (Z.eqb_spec bits 0) as [->|]; [apply build_zero_spec, H|].
  destruct (Z.eqb_spec bits 0x3FF0000000000000) as [->|]; [apply build_one_spec, H|].
  apply build_const_spec; assumption.
Qed.

(** ** Promoted loads *)

Lemma promote_addr o a r n :
  const_promote_addr o = Some a -> in_model segbase r o n = true -> addr segbase r o = a.
Proof.
  intros Hp Hi. destruct (in_model_bounds segbase r o n Hi) as (_ & Hs & Hm).
  unfold const_promote_addr in Hp. cbv zeta in Hp.
  destruct (Z.eqb_spec (kind o) IROperandKind.AbsMem) as [Hk|Hk].
  - rewrite (addr_absmem segbase r o Hk Hs). destruct (nz _); [|discriminate]. congruence.
  - destruct (_ && _) eqn:Ec in Hp; [|discriminate].
    rewrite !andb_true_iff, !Z.eqb_eq in Ec. destruct Ec as [[Hk' Hseg] Hfl].
    destruct (nz _); [|discriminate]. injection Hp as <-.
    rewrite (addr_memref segbase r o n Hk' Hseg Hi). specialize (Hm Hk') as [Hm0 Hm1].
    assert (Hsum : mem_sum r o = disp o).
    { unfold mem_sum.
      assert (H1 : Z.land (mem_flags o) 1 = 0).
      { change 1 with (Z.land 3 1). rewrite Z.land_assoc, Hfl. reflexivity. }
      assert (H2 : Z.land (mem_flags o) 2 = 0).
      { change 2 with (Z.land 3 2). rewrite Z.land_assoc, Hfl. reflexivity. }
      rewrite H1, H2. reflexivity. }
    rewrite Hsum in Hm0, Hm1 |- *. unfold mask_addr32. destruct Hs as [Es|Es].
    + assert (Ha : asize o = 32) by (unfold asize; rewrite Es; reflexivity).
      rewrite Ha in Hm1. rewrite Es. cbn [Z.eqb Pos.eqb IROperandSize.S32].
      change 0xFFFFFFFF with (Z.ones 32). rewrite <- wrap_land by lia.
      rewrite !wrap_small; rewrite ?wrap_small; lia.
    + assert (Ha : asize o = 64) by (unfold asize; rewrite Es; reflexivity).
      rewrite Ha in Hm1. rewrite Es. cbn [Z.eqb Pos.eqb IROperandSize.S32 IROperandSize.S64].
      rewrite wrap_small by lia. reflexivity.
Qed.

Lemma host_load c s n a k b :
  inv c s -> range_is_readonly a k = true -> a <= b -> b + Z.of_nat n <= a + k ->
  load n host_mem b = load n (gmem s) b.
Proof.
  intros [[] _] Hr Hb Hk. apply load_ext. intros x Hx. symmetry. apply inv_ro.
  apply (Hreadonly a k Hr). lia.
Qed.

Lemma in64_load8 m a : in64 (load 8 m a).
Proof. exact (load_range 8 m a). Qed.

Lemma in32_load4 m a : in32 (load 4 m a).
Proof. exact (load_range 4 m a). Qed.

(** A value that is right whenever the machine reads the operand. *)
Definition loads (c : Context) (s : fpu) (r : Z) (c' : Context) (x : option Z) : Prop :=
  rel c' s /\ mono c c' /\
  (0 <= r -> forall v, x = Some v -> inv c' s /\ is_node c' r v).

Lemma loads_of_builds c s r c' y x :
  builds c s r c' y -> (forall v, x = Some v -> v = y) -> loads c s r c' x.
Proof.
  intros (Hi & Hm & Hn) Hx. split; [apply Hi|split; [exact Hm|]].
  intros Hr v Hv. rewrite (Hx v Hv). auto.
Qed.

Lemma loads_fail c s x : rel c s -> loads c s (-1) c x.
Proof. intros H. split; [exact H|split; [apply mono_refl|lia]]. Qed.

#[local] Abbreviation try_const_promote := (try_const_promote range_is_readonly host_mem).
#[local] Abbreviation try_const_promote_m80 := (try_const_promote_m80 range_is_readonly host_mem).

Definition promoted_value (k : Op) (x : Z) : Z := if Op_eqb k LoadF32Raw then widen x else x.

Lemma try_const_promote_spec c s o k r c' :
  inv c s -> (k = LoadF64 \/ k = LoadF32Raw) -> try_const_promote c o k = (r, c') ->
  inv c' s /\ mono c c' /\
  (0 <= r -> forall x, read segbase s o (load_width k) = Some x -> is_node c' r (load_value k x)).
Proof.
  intros H Hk. unfold try_const_promote.
  assert (F : inv c s /\ mono c c /\
    (0 <= -1 -> forall x, read segbase s o (load_width k) = Some x -> is_node c (-1) (load_value k x))).
  { split; [exact H|split; [apply mono_refl|lia]]. }
  destruct (negb (const_promote c)); [intros [= <- <-]; exact F|].
  destruct (const_promote_addr o) as [a|] eqn:Ea; [|intros [= <- <-]; exact F].
  set (w := if Op_eqb k LoadF32Raw then 4 else 8).
  destruct (range_is_readonly a w) eqn:Er; cbn [negb]; [|intros [= <- <-]; exact F].
  intros Hc. apply (const_node_for_bits_spec c s) in Hc; [|exact H|].
  - destruct Hc as (Hi & Hm & Hn). split; [exact Hi|split; [exact Hm|]].
    intros Hr x Hx. unfold read, guard in Hx. destruct (in_model _ _ _ _) eqn:Em; [|discriminate].
    injection Hx as <-. rewrite (promote_addr o a (regs s) _ Ea Em).
    specialize (Hn Hr). subst w. destruct Hk as [-> | ->]; cbn [Op_eqb Op_eq_dec load_value load_width] in *.
    + change (Op_eqb LoadF64 LoadF32Raw) with false in *. cbv iota in *.
      rewrite <- (host_load c s 8 a 8 a) by (assumption || lia). exact Hn.
    + change (Op_eqb LoadF32Raw LoadF32Raw) with true in *. cbv iota in *.
      rewrite <- (host_load c s 4 a 4 a) by (assumption || lia). exact Hn.
  - destruct (Op_eqb k LoadF32Raw); [apply widen_range64 | apply in64_load8].
Qed.

Lemma load2_range m a : 0 <= load 2 m a < 2 ^ 16.
Proof. exact (load_range 2 m a). Qed.

Lemma try_const_promote_m80_spec c s o r c' :
  inv c s -> try_const_promote_m80 c o = (r, c') -> loads c s r c' (read80 segbase s o).
Proof.
  intros H. unfold try_const_promote_m80.
  pose proof (loads_fail c s (read80 segbase s o) (inv_rel _ _ _ _ _ _ _ _ (proj1 H))) as F.
  destruct (negb (const_promote c)); [intros [= <- <-]; exact F|].
  destruct (const_promote_addr o) as [a|] eqn:Ea; [|intros [= <- <-]; exact F].
  destruct (range_is_readonly a 10) eqn:Er; cbn [negb]; [|intros [= <- <-]; exact F].
  destruct (f80_to_f64_bits _ _) as [b|] eqn:Eb; [|intros [= <- <-]; exact F].
  intros Hc. apply (const_node_for_bits_spec c s) in Hc; [|exact H|].
  - apply (loads_of_builds c s r c' b); [exact Hc|]. intros v Hv.
    unfold read80, guard in Hv. destruct (in_model _ _ _ _) eqn:Em; [|discriminate].
    rewrite (promote_addr o a (regs s) _ Ea Em) in Hv. cbv zeta in Hv.
    destruct (_ || _) eqn:Ecan in Hv; [|discriminate]. injection Hv as <-.
    rewrite (host_load c s 8 a 10 a), (host_load c s 2 a 10 (a + 8)) in Eb by (assumption || lia).
    symmetry. apply f80_promote_agrees; [apply in64_load8|apply load2_range|exact Ecan|exact Eb].
  - exact (f80_range _ _ b (load2_range _ _) Eb).
Qed.

(** ** Memory loads *)

Lemma operand_equal_addr a b : mem_operand_equal a b = true ->
  op_size a = op_size b /\ forall r, addr segbase r a = addr segbase r b.
Proof.
  unfold mem_operand_equal. destruct (Z.eqb_spec (kind a) (kind b)) as [Ek|]; [|discriminate].
  cbn [negb]. destruct (Z.eqb_spec (kind a) IROperandKind.MemRef) as [Em|Em].
  - rewrite !andb_true_iff, !Z.eqb_eq. intros [[[[[[[E1 E2] E3] E4] E5] E6] E7] E8].
    destruct a, b. cbn in *. subst. auto.
  - destruct (Z.eqb_spec (kind a) IROperandKind.AbsMem) as [Ea|]; [|discriminate].
    rewrite !andb_true_iff, !Z.eqb_eq. intros [[E1 E2] E3]. split; [exact E1|]. intros r.
    rewrite (addr_abs segbase r a Ea), (addr_abs segbase r b) by congruence.
    unfold asize. rewrite E2, E3. reflexivity.
Qed.

Lemma cse_hit c s o k v :
  inv c s -> mem_cse_lookup c o k = v -> 0 <= v ->
  is_node c v (load_value k (load (load_width k) (gmem s) (addr segbase (regs s) o))).
Proof.
  intros [_ Hc]. unfold mem_cse_lookup. induction (mem_cse c) as [|[[eo ek] ev] l IH]; cbn [cse_find].
  - intros <- H. lia.
  - inversion Hc as [|e l' He Hl]; subst. destruct (Op_eqb ek k && mem_operand_equal eo o) eqn:Em;
      [|apply IH; exact Hl].
    intros <- _. apply andb_true_iff in Em as [E1 E2]. unfold Op_eqb in E1.
    destruct (Op_eq_dec ek k) as [->|]; [|discriminate].
    destruct He as (H1 & _ & _ & H4). destruct (operand_equal_addr eo o E2) as [_ Ha].
    split; [exact H1|]. rewrite H4, Ha. reflexivity.
Qed.

Definition load_node (k : Op) (o : IROperand) : Node := mkNode k kNone [-1; -1; -1] (PMem o) 0.

Definition is_load (k : Op) : bool :=
  match k with LoadF64 | LoadF32Raw | LoadI16 | LoadI32 | LoadI64 => true | _ => false end.

(** The value of the load node itself: raw bits for a float. *)
Definition node_value (k : Op) (x : Z) : Z := if Op_eqb k LoadF32Raw then x else load_value k x.

Lemma load_node_eval c s k o : rel c s -> is_load k = true ->
  E (append c (load_node k o)) =
  add_val (E c) (node_value k (load (load_width k) (gmem s) (addr segbase (regs s) o))).
Proof.
  intros H Hk. rewrite E_append, <- (rel_regs _ _ _ _ _ _ H), <- (rel_mem _ _ _ _ _ _ H).
  destruct k; try discriminate; reflexivity.
Qed.

Lemma in64_node_value k m a : is_load k = true -> in64 (node_value k (load (load_width k) m a)).
Proof.
  destruct k; try discriminate; intros _; try apply of_int_range64.
  - apply in64_load8.
  - pose proof (in32_load4 m a) as H. unfold in32 in H. change (0 <= load 4 m a < 2 ^ 64). lia.
Qed.

Lemma set_mem_new c k o :
  set_mem_operand (append c (new_node k (-1) (-1) (-1))) (num_nodes c) o = append c (load_node k o).
Proof. apply set_node_append. Qed.

Lemma num_ltb c : (num_nodes c <? 0) = false.
Proof. apply Z.ltb_ge, num_nonneg. Qed.

(** A load node that is not a float's, entered into the CSE table. *)
Lemma load_insert c s k o r c' x :
  inv c s -> is_load k = true -> k <> LoadF32Raw ->
  mem_operand_width o = Z.of_nat (load_width k) ->
  (get! id, c <- add_node c k (-1) (-1) (-1) ;;
   let c := set_mem_operand c id o in (id, mem_cse_insert c o k id))%build = (r, c') ->
  (forall v, x = Some v -> in_model segbase (regs s) o (load_width k) = true /\
     v = load_value k (load (load_width k) (gmem s) (addr segbase (regs s) o))) ->
  loads c s r c' x.
Proof.
  intros H Hk Hne Hw. unfold or_neg. destruct (add_node_cases c k (-1) (-1) (-1)) as [-> | ->].
  - intros [= <- <-] _. apply loads_fail, H.
  - rewrite num_ltb, set_mem_new. intros [= <- <-] Hx.
    pose proof (load_node_eval c s k o (inv_rel _ _ _ _ _ _ _ _ (proj1 H)) Hk) as He.
    destruct (add_value c s _ _ H He (in64_node_value k _ _ Hk)) as (Hi & Hm & Hn);
      [apply plain_new; destruct k; try discriminate; reflexivity|].
    split; [apply rel_insert, Hi|split].
    + apply (mono_trans _ _ _ Hm), mono_nodes, insert_nodes.
    + intros _ v Hv. destruct (Hx v Hv) as [Him Hval].
      assert (Hnv : is_node (append c (load_node k o)) (num_nodes c) v).
      { rewrite Hval. unfold node_value in Hn. destruct (Op_eqb k LoadF32Raw) eqn:Eq; [|exact Hn].
        unfold Op_eqb in Eq. destruct (Op_eq_dec k LoadF32Raw); [contradiction|discriminate]. }
      split; [|apply (is_node_mono _ _ _ _ (mono_nodes _ _ (insert_nodes _ _ _ _)) Hnv)].
      apply inv_insert; [exact Hi|]. split; [apply Hnv|split; [exact Hw|split; [exact Him|]]].
      rewrite <- Hval. apply Hnv.
Qed.

Lemma width_of_size o n : size_bytes (op_size o) = n -> (1 < n)%nat -> mem_operand_width o = Z.of_nat n.
Proof.
  intros <-. unfold size_bytes, mem_operand_width, IROperandSize.S8, IROperandSize.S16,
    IROperandSize.S32, IROperandSize.S64.
  destruct (Z.eqb_spec (op_size o) 0), (Z.eqb_spec (op_size o) 1), (Z.eqb_spec (op_size o) 2),
    (Z.eqb_spec (op_size o) 3); try lia; reflexivity.
Qed.

Lemma loads_trans c c1 s r c' x : mono c c1 -> loads c1 s r c' x -> loads c s r c' x.
Proof. intros Hm (H1 & H2 & H3). split; [exact H1|split; [exact (mono_trans _ _ _ Hm H2)|exact H3]]. Qed.

Lemma loads_node c s r x : inv c s -> (0 <= r -> forall v, x = Some v -> is_node c r v) -> loads c s r c x.
Proof. intros H Hn. split; [apply H|split; [apply mono_refl|]]. intros Hr v Hv. split; [exact H|auto]. Qed.

Lemma read_some s o n x : read segbase s o n = Some x ->
  in_model segbase (regs s) o n = true /\ x = load n (gmem s) (addr segbase (regs s) o).
Proof. unfold read, guard. destruct (in_model _ _ _ _); [|discriminate]. intros [= <-]. auto. Qed.

Lemma build_int_load_spec c s o r c' :
  inv c s -> build_int_load c o = (r, c') -> loads c s r c' (int_load segbase s o).
Proof.
  intros H. unfold build_int_load, int_load.
  assert (G : forall k, is_load k = true -> k <> LoadF32Raw -> (1 < load_width k)%nat ->
    size_bytes (op_size o) = load_width k -> is_int_size (op_size o) = true ->
    (forall y, load_value k y = of_int f64 (sgn (8 * Z.of_nat (load_width k)) y)) ->
    (let hit := mem_cse_lookup c o k in
     if 0 <=? hit then (hit, c)
     else get! id, c <- add_node c k (-1) (-1) (-1) ;;
          let c := set_mem_operand c id o in (id, mem_cse_insert c o k id))%build = (r, c') ->
    loads c s r c' (guard (is_int_size (op_size o))
      (let? y := read segbase s o (size_bytes (op_size o)) in
       Some (of_int f64 (sgn (8 * Z.of_nat (size_bytes (op_size o))) y))))).
  { intros k Hk Hne Hw Hs Hint Hval. cbv zeta. rewrite Hint, Hs. cbn [guard].
    assert (Hx : forall v, (let? y := read segbase s o (load_width k) in
        Some (of_int f64 (sgn (8 * Z.of_nat (load_width k)) y))) = Some v ->
      in_model segbase (regs s) o (load_width k) = true /\
      v = load_value k (load (load_width k) (gmem s) (addr segbase (regs s) o))).
    { intros v. destruct (read _ _ _ _) as [y|] eqn:Er; [|discriminate]. intros [= <-].
      apply read_some in Er as [Hi ->]. rewrite Hval. auto. }
    destruct (Z.leb_spec 0 (mem_cse_lookup c o k)) as [Hh|Hh].
    - intros [= <- <-]. apply loads_node; [exact H|]. intros _ v Hv.
      destruct (Hx v Hv) as [_ ->]. apply (cse_hit c s o k _ H eq_refl Hh).
    - intros Hb. apply (load_insert c s k o); try assumption. apply width_of_size; assumption. }
  unfold int_load_op.
  destruct (Z.eqb_spec (op_size o) IROperandSize.S16) as [E16|];
    [apply (G LoadI16); first [reflexivity | discriminate | cbn; lia | rewrite E16; reflexivity]|].
  destruct (Z.eqb_spec (op_size o) IROperandSize.S32) as [E32|];
    [apply (G LoadI32); first [reflexivity | discriminate | cbn; lia | rewrite E32; reflexivity]|].
  destruct (Z.eqb_spec (op_size o) IROperandSize.S64) as [E64|];
    [apply (G LoadI64); first [reflexivity | discriminate | cbn; lia | rewrite E64; reflexivity]|].
  intros [= <- <-]. apply loads_fail, H.
Qed.

#[local] Abbreviation build_fp_load := (build_fp_load range_is_readonly host_mem).

(** A widening node over a raw float, and its CSE entry. *)
Definition widen_node (i : Z) : Node := new_node CvtF32ToF64 i (-1) (-1).

Lemma widen_eval c i : E (append c (widen_node i)) = add_val (E c) (widen (V c i)).
Proof. rewrite E_append. reflexivity. Qed.

Lemma widen_ok c i x : is_node c i x -> raw_ok x -> node_ok (append c (widen_node i)) (num_nodes c).
Proof.
  intros [Hi Hx] Hr. unfold X87IRInv.node_ok. rewrite node_append_new. cbn [widen_node new_node op input inputs nth].
  change (input (widen_node i) 0) with i.
  destruct (node_new c (widen_node i) _ (widen_eval c i)) as [_ ->].
  rewrite (V_mono segbase s0 nzcv0 stack0 c _ i (mono_append c _) Hi).
  split; [exact Hi|split; [reflexivity|]]. rewrite Hx. exact Hr.
Qed.

Lemma add_widen c s i x :
  inv c s -> is_node c i x -> raw_ok x ->
  inv (append c (widen_node i)) s /\ mono c (append c (widen_node i)) /\
  is_node (append c (widen_node i)) (num_nodes c) (widen x).
Proof.
  intros H Hn Hr. pose proof (widen_eval c i) as He. rewrite (proj2 Hn) in He.
  apply (add_value c s); try assumption; [apply widen_range64 | apply (widen_ok c i x Hn Hr)].
Qed.

Lemma width32 o : op_size o = IROperandSize.S32 -> mem_operand_width o = Z.of_nat (load_width LoadF32Raw).
Proof. intros E. apply width_of_size; [rewrite E; reflexivity | cbn; lia]. Qed.

Lemma width64 o : op_size o = IROperandSize.S64 -> mem_operand_width o = Z.of_nat (load_width LoadF64).
Proof. intros E. apply width_of_size; [rewrite E; reflexivity | cbn; lia]. Qed.

(** fld m32: raw load, widening, CSE entry. *)
Lemma f32_load_insert c s o r c' :
  inv c s -> op_size o = IROperandSize.S32 ->
  (get! id, c <- add_node c LoadF32Raw (-1) (-1) (-1) ;;
   let c := set_mem_operand c id o in
   get! id, c <- add_node c CvtF32ToF64 id (-1) (-1) ;;
   (id, mem_cse_insert c o LoadF32Raw id))%build = (r, c') ->
  loads c s r c' (fp_load segbase s o).
Proof.
  intros H Hs. unfold or_neg. destruct (add_node_cases c LoadF32Raw (-1) (-1) (-1)) as [-> | ->];
    [intros [= <- <-]; apply loads_fail, H|].
  rewrite num_ltb, set_mem_new.
  pose proof (load_node_eval c s LoadF32Raw o (inv_rel _ _ _ _ _ _ _ _ (proj1 H)) eq_refl) as He.
  destruct (add_value c s _ _ H He (in64_node_value LoadF32Raw _ _ eq_refl)) as (Hi & Hm & Hn);
    [apply plain_new; reflexivity|].
  set (c1 := append c (load_node LoadF32Raw o)) in *.
  change (node_value LoadF32Raw _) with (load 4 (gmem s) (addr segbase (regs s) o)) in Hn.
  destruct (add_node_cases c1 CvtF32ToF64 (num_nodes c) (-1) (-1)) as [-> | ->].
  - intros [= <- <-]. apply (loads_trans c c1); [exact Hm|]. apply loads_fail, Hi.
  - rewrite num_ltb. fold (widen_node (num_nodes c)). intros [= <- <-].
    apply (loads_trans c c1); [exact Hm|]. split; [|split].
    + apply rel_insert. apply (rel_append _ _ _ _ c1 s _ _ (inv_rel _ _ _ _ _ _ _ _ (proj1 Hi)) (widen_eval c1 _)).
    + apply (mono_trans _ _ _ (mono_append c1 (widen_node (num_nodes c)))), mono_nodes, insert_nodes.
    + intros _ v Hv. unfold fp_load in Hv. rewrite Hs in Hv. cbn [Z.eqb Pos.eqb IROperandSize.S32] in Hv.
      destruct (read segbase s o 4) as [x|] eqn:Er; [|discriminate]. unfold guard in Hv.
      apply read_some in Er as [Him ->].
      destruct (negb _) eqn:Es in Hv; [|discriminate]. injection Hv as <-. apply negb_true_iff in Es.
      destruct (add_widen c1 s (num_nodes c) _ Hi Hn (conj (in32_load4 _ _) Es)) as (Hi2 & Hm2 & Hn2).
      split; [|exact (is_node_mono _ _ _ _ (mono_nodes _ _ (insert_nodes _ _ _ _)) Hn2)].
      apply inv_insert; [exact Hi2|]. split; [apply Hn2|split; [apply width32, Hs|split; [exact Him|]]].
      apply Hn2.
Qed.

Lemma build_fp_load_spec c s o r c' :
  inv c s -> build_fp_load c o = (r, c') -> loads c s r c' (fp_load segbase s o).
Proof.
  intros H. unfold X87IRBuild.build_fp_load. cbv zeta.
  destruct (Z.eqb_spec (op_size o) IROperandSize.S32) as [E32|N32]; cbn [negb andb].
  - destruct (try_const_promote c o LoadF32Raw) as [p c1] eqn:Ep.
    destruct (try_const_promote_spec c s o LoadF32Raw p c1 H (or_intror eq_refl) Ep) as (Hi & Hm & Hp).
    assert (Hx : forall v, fp_load segbase s o = Some v ->
      exists x, read segbase s o 4 = Some x /\ v = widen x).
    { intros v. unfold fp_load. rewrite E32. cbn [Z.eqb Pos.eqb IROperandSize.S32].
      destruct (read segbase s o 4) as [x|]; [|discriminate]. unfold guard.
      destruct (negb _); [|discriminate]. intros [= <-]. eauto. }
    destruct (Z.leb_spec 0 p) as [Hp0|Hp0].
    + intros [= <- <-]. apply (loads_trans c c1); [exact Hm|]. apply loads_node; [exact Hi|].
      intros _ v Hv. destruct (Hx v Hv) as (x & Hr & ->). exact (Hp Hp0 x Hr).
    + destruct (Z.leb_spec 0 (mem_cse_lookup c1 o LoadF32Raw)) as [Hh|Hh].
      * intros [= <- <-]. apply (loads_trans c c1); [exact Hm|]. apply loads_node; [exact Hi|].
        intros _ v Hv. destruct (Hx v Hv) as (x & Hr & ->). apply read_some in Hr as [_ ->].
        exact (cse_hit c1 s o LoadF32Raw _ Hi eq_refl Hh).
      * intros Hb. apply (loads_trans c c1); [exact Hm|]. exact (f32_load_insert c1 s o r c' Hi E32 Hb).
  - destruct (Z.eqb_spec (op_size o) IROperandSize.S64) as [E64|N64]; cbn [negb].
    + destruct (try_const_promote c o LoadF64) as [p c1] eqn:Ep.
      destruct (try_const_promote_spec c s o LoadF64 p c1 H (or_introl eq_refl) Ep) as (Hi & Hm & Hp).
      assert (Hx : forall v, fp_load segbase s o = Some v -> read segbase s o 8 = Some v).
      { intros v. unfold fp_load. rewrite E64. auto. }
      destruct (Z.leb_spec 0 p) as [Hp0|Hp0].
      * intros [= <- <-]. apply (loads_trans c c1); [exact Hm|]. apply loads_node; [exact Hi|].
        intros _ v Hv. exact (Hp Hp0 v (Hx v Hv)).
      * destruct (Z.leb_spec 0 (mem_cse_lookup c1 o LoadF64)) as [Hh|Hh].
        -- intros [= <- <-]. apply (loads_trans c c1); [exact Hm|]. apply loads_node; [exact Hi|].
           intros _ v Hv. apply Hx, read_some in Hv as [_ ->].
           exact (cse_hit c1 s o LoadF64 _ Hi eq_refl Hh).
        -- intros Hb. apply (loads_trans c c1); [exact Hm|].
           apply (load_insert c1 s LoadF64 o r c'); try assumption; try reflexivity; try discriminate.
           ++ apply width64, E64.
           ++ intros v Hv. apply Hx, read_some in Hv as [Him ->]. auto.
    + unfold fp_load. rewrite (proj2 (Z.eqb_neq _ _) N32), (proj2 (Z.eqb_neq _ _) N64).
      destruct (op_size o =? IROperandSize.S80); [apply try_const_promote_m80_spec, H|].
      intros [= <- <-]. apply loads_fail, H.
Qed.

(** ** Memory stores *)

(** The raw float an f32 store of a value writes. *)
Lemma narrow_for_store_spec c s v x ok r c' :
  inv c s -> is_node c v x -> narrow_for_store c v = (ok, r, c') ->
  inv c' s /\ mono c c' /\ (ok = true -> is_node c' r (narrow x)).
Proof.
  intros H [Hv Hx]. unfold narrow_for_store.
  destruct (Op_eqb (op (node c v)) CvtF32ToF64) eqn:Eo.
  - intros [= <- <- <-]. split; [exact H|split; [apply mono_refl|]]. intros _.
    unfold Op_eqb in Eo. destruct (Op_eq_dec _ _) as [Eo'|]; [|discriminate].
    pose proof (inv_node _ _ _ _ _ _ _ _ (proj1 H) v Hv) as Hok. unfold X87IRInv.node_ok in Hok.
    rewrite Eo' in Hok. destruct Hok as (Hi & Hval & Hraw).
    split; [lia|]. rewrite <- Hx, Hval. symmetry. apply narrow_widen, Hraw.
  - destruct (Z.eqb_spec (last_narrow_input c) v) as [En|En].
    + intros [= <- <- <-]. split; [exact H|split; [apply mono_refl|]]. intros _.
      destruct (inv_narrow _ _ _ _ _ _ _ _ (proj1 H)) as (H1 & H2 & H3); [lia|].
      split; [exact H2|]. rewrite H3, En, Hx. reflexivity.
    + destruct (add_node c CvtF64ToF32 v (-1) (-1)) as [id c1] eqn:Ea.
      destruct (add_node_value c s CvtF64ToF32 v _ _ (narrow x) id c1 H Ea) as (Hi & Hm & Hn).
      * reflexivity.
      * destruct (narrow_raw_ok x) as [Hr _]. unfold in32 in Hr. unfold in64. lia.
      * rewrite E_append, <- Hx. reflexivity.
      * destruct (Z.ltb_spec id 0) as [Hid|Hid]; intros [= <- <- <-].
        -- split; [exact Hi|split; [exact Hm|discriminate]].
        -- split; [|split; [exact Hm|intros _; exact (Hn Hid)]].
           apply (inv_last_narrow c1 s v id x); [exact Hi| |exact (Hn Hid)].
           exact (is_node_mono _ _ _ _ Hm (conj Hv Hx)).
Qed.

(** The outcome of an instruction: on success the invariant holds at the
    state the machine reaches. *)
Definition steps (s : fpu) (ok : bool) (c' : Context) (s' : option fpu) : Prop :=
  if ok then forall t, s' = Some t -> inv c' t else rel c' s.

Definition store_node (k : Op) (i : Z) (o : IROperand) (f : Z) : Node := mkNode k f [i; -1; -1] (PMem o) 0.

Lemma set_mem_store c k i o :
  set_mem_operand (append c (new_node k i (-1) (-1))) (num_nodes c) o = append c (store_node k i o kNone).
Proof. apply set_node_append. Qed.

Definition stored (k : Op) : nat :=
  match k with StoreF32Raw | StoreI32 => 4 | StoreI16 => 2 | _ => 8 end.

Lemma fp_store_eval c s k i o x :
  rel c s -> (k = StoreF64 \/ k = StoreF32Raw) -> V c i = x ->
  E (append c (store_node k i o kNone)) =
  add_val (ir_mem (E c) (store (stored k) (gmem s) (addr segbase (regs s) o) x)) 0.
Proof.
  intros H Hk <-. rewrite E_append, <- (rel_regs _ _ _ _ _ _ H), <- (rel_mem _ _ _ _ _ _ H).
  destruct Hk as [-> | ->]; reflexivity.
Qed.

(** The value a store leaves for later loads of its operand. *)
Lemma forward_ok c s o k t v x y :
  write segbase ro s o (load_width k) x = Some t -> mem_operand_width o = Z.of_nat (load_width k) ->
  is_node c v y -> y = load_value k (wrap (8 * Z.of_nat (load_width k)) x) -> cse_ok c t (o, k, v).
Proof.
  intros Hw Hwd [Hv Hy] Ey. apply write_inv in Hw as (Hi & _ & ->).
  split; [exact Hv|split; [exact Hwd|split; [exact Hi|]]].
  cbn [gmem regs with_gmem]. rewrite load_store_same, Hy. exact Ey.
Qed.

Lemma fp_store64 c s o v x t :
  inv c s -> is_node c v x -> op_size o = IROperandSize.S64 -> write segbase ro s o 8 x = Some t ->
  inv (mem_cse_insert (mem_cse_evict_may_alias (append c (store_node StoreF64 v o kNone)) o) o LoadF64 v) t.
Proof.
  intros H Hn E64 Hw. set (c2 := mem_cse_evict_may_alias _ o).
  assert (Hi : inv c2 t).
  { apply (inv_store _ _ _ _ _ _ c s t (store_node StoreF64 v o kNone) o 8 x H Hw).
    - left. apply (width64 o E64).
    - apply (fp_store_eval c s StoreF64 v o x (inv_rel _ _ _ _ _ _ _ _ (proj1 H)) (or_introl eq_refl) (proj2 Hn)).
    - reflexivity. }
  apply inv_insert; [exact Hi|].
  assert (Hn2 : is_node c2 v x).
  { apply (is_node_mono c); [|exact Hn]. exact (mono_append c (store_node StoreF64 v o kNone)). }
  apply (forward_ok c2 s o LoadF64 t v x x Hw (width64 o E64) Hn2).
  cbn [load_value load_width]. symmetry. apply wrap_small.
  destruct Hn as [_ <-]. exact (in64_V _ _ _ _ _ _ c s v (proj1 H)).
Qed.

Lemma fp_store32 c s o v w x t fwd c4 :
  inv c s -> is_node c v x -> is_node c w (narrow x) -> op_size o = IROperandSize.S32 ->
  write segbase ro s o 4 (narrow x) = Some t ->
  let c3 := mem_cse_evict_may_alias (append c (store_node StoreF32Raw w o kNone)) o in
  (if Op_eqb (op (node c3 v)) CvtF32ToF64 then (v, c3) else add_node c3 CvtF32ToF64 w (-1) (-1)) = (fwd, c4) ->
  inv (if 0 <=? fwd then mem_cse_insert c4 o LoadF32Raw fwd else c4) t.
Proof.
  intros H Hn Hnw E32 Hw c3 Hf.
  assert (Hm : mono c c3) by exact (mono_append c (store_node StoreF32Raw w o kNone)).
  assert (Hi : inv c3 t).
  { apply (inv_store _ _ _ _ _ _ c s t (store_node StoreF32Raw w o kNone) o 4 (narrow x) H Hw).
    - left. apply (width32 o E32).
    - apply (fp_store_eval c s StoreF32Raw w o (narrow x) (inv_rel _ _ _ _ _ _ _ _ (proj1 H))
               (or_intror eq_refl) (proj2 Hnw)).
    - reflexivity. }
  pose proof (is_node_mono c c3 v x Hm Hn) as Hn3.
  pose proof (is_node_mono c c3 w (narrow x) Hm Hnw) as Hw3.
  assert (Hwrap : wrap (8 * Z.of_nat (load_width LoadF32Raw)) (narrow x) = narrow x).
  { apply wrap_small. apply (proj1 (narrow_raw_ok x)). }
  assert (G : forall c5 id, inv c5 t -> is_node c5 id (widen (narrow x)) ->
    inv (if 0 <=? id then mem_cse_insert c5 o LoadF32Raw id else c5) t).
  { intros c5 id Hi5 Hid. destruct (0 <=? id); [|exact Hi5]. apply inv_insert; [exact Hi5|].
    apply (forward_ok c5 s o LoadF32Raw t id (narrow x) _ Hw (width32 o E32) Hid).
    rewrite Hwrap. reflexivity. }
  destruct (Op_eqb (op (node c3 v)) CvtF32ToF64) eqn:Eo.
  - injection Hf as <- <-. apply G; [exact Hi|]. split; [apply Hn3|].
    unfold Op_eqb in Eo. destruct (Op_eq_dec _ _) as [Eo'|]; [|discriminate].
    pose proof (inv_node _ _ _ _ _ _ _ _ (proj1 Hi) v (proj1 Hn3)) as Hok.
    unfold X87IRInv.node_ok in Hok. rewrite Eo' in Hok. destruct Hok as (_ & Hval & Hraw).
    rewrite (proj2 Hn3) in *. rewrite Hval, narrow_widen by exact Hraw. reflexivity.
  - destruct (add_node_cases c3 CvtF32ToF64 w (-1) (-1)) as [Hc|Hc]; rewrite Hc in Hf; injection Hf as <- <-.
    + exact Hi.
    + destruct (add_widen c3 t w (narrow x) Hi Hw3 (narrow_raw_ok x)) as (Hi5 & _ & Hn5).
      apply G; assumption.
Qed.

Lemma build_fp_store_spec c s o v x ok c' :
  inv c s -> is_node c v x -> build_fp_store c o v = (ok, c') ->
  steps s ok c' (fp_store segbase ro s o x).
Proof.
  intros H Hn. unfold build_fp_store, fp_store. cbv zeta.
  destruct (Z.eqb_spec (op_size o) IROperandSize.S32) as [E32|N32]; cbn [negb andb].
  - destruct (narrow_for_store c v) as [[ok1 w] c1] eqn:En.
    destruct (narrow_for_store_spec c s v x ok1 w c1 H Hn En) as (Hi & Hm & Hw).
    destruct ok1; cbn [negb]; [|intros [= <- <-]; apply Hi].
    specialize (Hw eq_refl). unfold or_fail.
    destruct (add_node_cases c1 StoreF32Raw w (-1) (-1)) as [-> | ->]; [intros [= <- <-]; apply Hi|].
    rewrite num_ltb, set_mem_store.
    destruct (if Op_eqb _ _ then _ else _) as [fwd c4] eqn:Ef. intros [= <- <-] t Ht.
    apply (fp_store32 c1 s o v w x t fwd c4); try assumption. exact (is_node_mono _ _ _ _ Hm Hn).
  - destruct (Z.eqb_spec (op_size o) IROperandSize.S64) as [E64|N64]; cbn [negb].
    + unfold or_fail. destruct (add_node_cases c StoreF64 v (-1) (-1)) as [-> | ->];
        [intros [= <- <-]; apply H|].
      rewrite num_ltb, set_mem_store. intros [= <- <-] t Ht. apply (fp_store64 c s o v x t); assumption.
    + intros [= <- <-]. apply H.
Qed.

(** ** Integer stores *)

Lemma fcvt_in_range r w W v : 0 < w <= W ->
  is_nan f64 v || is_inf f64 v = false ->
  - 2 ^ (w - 1) <= int_of r f64 v < 2 ^ (w - 1) -> fcvt_int r W f64 v = int_of r f64 v.
Proof.
  intros Hw Hn Hi. apply orb_false_iff in Hn as [H1 H2]. unfold fcvt_int. rewrite H1, H2.
  assert (2 ^ (w - 1) <= 2 ^ (W - 1)) by (apply Z.pow_le_mono_r; lia). lia.
Qed.

Lemma int_store_eval c s k i o (truncate : bool) x :
  rel c s -> (k = StoreI16 \/ k = StoreI32 \/ k = StoreI64) -> V c i = x ->
  E (append c (store_node k i o (if truncate then kTruncate else kNone))) =
  add_val (ir_mem (E c) (store (stored k) (gmem s) (addr segbase (regs s) o)
    (fcvt_int (if truncate then RZero else X87Runtime.rc_mode (cw s))
       (match k with StoreI64 => 64 | _ => 32 end) f64 x))) 0.
Proof.
  intros H Hk <-. rewrite E_append, <- (rel_regs _ _ _ _ _ _ H), <- (rel_mem _ _ _ _ _ _ H),
    <- (rel_cw _ _ _ _ _ _ H).
  destruct truncate; destruct Hk as [-> | [-> | ->]]; reflexivity.
Qed.

Lemma build_int_store_spec c s o v x truncate ok c' :
  inv c s -> is_node c v x -> build_int_store c o v truncate = (ok, c') ->
  steps s ok c' (int_store segbase ro s o x truncate).
Proof.
  intros H Hn. unfold build_int_store.
  assert (G : forall k n, (k = StoreI16 \/ k = StoreI32 \/ k = StoreI64) ->
    stored k = n -> (1 < n)%nat -> (8 * Z.of_nat n <= match k with StoreI64 => 64 | _ => 32 end) ->
    size_bytes (op_size o) = n ->
    (need! id, c <- add_node c k v (-1) (-1) ;;
     let c := set_mem_operand c id o in
     let c := if truncate then set_node c id (fun n => X87IR.with_flags n (Z.lor (flags n) kTruncate)) else c in
     (true, mem_cse_evict_may_alias c o))%build = (ok, c') ->
    steps s ok c' (int_store segbase ro s o x truncate)).
  { intros k n Hk Hst Hn1 Hle Hs. unfold or_fail.
    destruct (add_node_cases c k v (-1) (-1)) as [-> | ->]; [intros [= <- <-]; apply H|].
    rewrite num_ltb, set_mem_store. cbv zeta.
    assert (Hset : (if truncate
      then set_node (append c (store_node k v o kNone)) (num_nodes c) (fun n => X87IR.with_flags n (Z.lor (flags n) kTruncate))
      else append c (store_node k v o kNone)) =
      append c (store_node k v o (if truncate then kTruncate else kNone))).
    { destruct truncate; [apply set_node_append | reflexivity]. }
    rewrite Hset. intros [= <- <-] t Ht. unfold int_store, guard in Ht. cbv zeta in Ht. rewrite Hs in Ht.
    destruct (_ && _) eqn:Eg in Ht; [|discriminate].
    rewrite !andb_true_iff, Z.leb_le, Z.ltb_lt, negb_true_iff in Eg. destruct Eg as [[[_ Hnan] Hlo] Hhi].
    apply (inv_store _ _ _ _ _ _ c s t _ o n _ H Ht).
    - left. apply width_of_size; assumption.
    - rewrite (int_store_eval c s k v o truncate x (inv_rel _ _ _ _ _ _ _ _ (proj1 H)) Hk (proj2 Hn)), Hst.
      do 3 f_equal. apply (fcvt_in_range _ (8 * Z.of_nat n)); [lia|exact Hnan|lia].
    - destruct Hk as [-> | [-> | ->]]; reflexivity. }
  unfold int_store_op.
  destruct (Z.eqb_spec (op_size o) IROperandSize.S16) as [E16|];
    [apply (G StoreI16 2%nat); first [tauto | reflexivity | cbn; lia | rewrite E16; reflexivity]|].
  destruct (Z.eqb_spec (op_size o) IROperandSize.S32) as [E32|];
    [apply (G StoreI32 4%nat); first [tauto | reflexivity | cbn; lia | rewrite E32; reflexivity]|].
  destruct (Z.eqb_spec (op_size o) IROperandSize.S64) as [E64|];
    [apply (G StoreI64 8%nat); first [tauto | reflexivity | cbn; lia | rewrite E64; reflexivity]|].
  intros [= <- <-]. apply H.
Qed.

(** ** Instructions *)

#[local] Abbreviation exec := (exec segbase ro).

Lemma resolve_rel c s d r c' : inv c s -> resolve c d = (r, c') -> rel c' s.
Proof. intros H Hr. apply (resolve_spec c s d r c' H Hr). Qed.

Lemma resolve_node c s d r c' x :
  inv c s -> resolve c d = (r, c') -> 0 <= r -> st s d = Some x -> is_node c' r x.
Proof.
  intros H Hr H0 Hx. destruct (resolve_spec c s d r c' H Hr) as (_ & _ & G).
  destruct (G H0) as (_ & G1 & G2). split; [exact G1|exact (G2 x Hx)].
Qed.

Lemma in64_node c s r x : inv c s -> is_node c r x -> in64 x.
Proof. intros H [_ <-]. exact (in64_V _ _ _ _ _ _ c s r (proj1 H)). Qed.

Lemma arith_range o rev x y : in64 x -> in64 y -> in64 (arith_apply o rev x y).
Proof. intros Hx Hy. destruct o, rev; apply arith2_range64; assumption. Qed.

(** The same, found by the equation. *)
Lemma resolved c s d r c' x :
  resolve c d = (r, c') -> inv c s -> 0 <= r -> st s d = Some x -> is_node c' r x.
Proof. intros Hr H. exact (resolve_node c s d r c' x H Hr). Qed.

Definition arith_node (o : Op) (rev : bool) (a b : Z) : Node :=
  if rev then new_node o b a (-1) else new_node o a b (-1).

Lemma add_arith_cases c o rev a b :
  add_arith c o rev a b = (-1, c) \/
  add_arith c o rev a b = (num_nodes c, append c (arith_node o rev a b)).
Proof. unfold add_arith, arith_node. destruct rev; apply add_node_cases. Qed.

Lemma arith_finish c s d o rev a b x y :
  inv c s -> 0 <= d < 8 -> is_node c a x -> is_node c b y ->
  inv (set_slot (append c (arith_node (arith_op o) rev a b)) d (num_nodes c))
      (set_st s d (arith_apply o rev x y)).
Proof.
  intros H Hd Ha Hb.
  assert (He : E (append c (arith_node (arith_op o) rev a b)) = add_val (E c) (arith_apply o rev x y)).
  { rewrite E_append, <- (proj2 Ha), <- (proj2 Hb). destruct o, rev; reflexivity. }
  destruct (add_value c s _ _ H He) as (Hi & Hm & Hn);
    [apply arith_range; eapply in64_node; eassumption | apply plain_new; destruct o, rev; reflexivity |].
  apply (inv_set_slot _ _ _ _ _ _ _ s); [exact Hi|exact Hd|apply Hn|apply Hn].
Qed.

Ltac some_of H := match type of H with
  | context [match ?e with Some _ => _ | None => None end] => destruct e eqn:?; [|discriminate H]
  end.

Lemma build_arith_spec c s i o rev ok c' :
  inv c s -> build_arith range_is_readonly host_mem c i (arith_op o) rev = (ok, c') ->
  steps s ok c' (exec_arith segbase s i o rev).
Proof.
  intros H. unfold build_arith, exec_arith.
  destruct (kind (operand i 0) =? IROperandKind.Register).
  - destruct (resolve c _) as [a c1] eqn:Ea. destruct (resolve_spec _ s _ _ _ H Ea) as (Hi1 & Hm1 & H1).
    destruct (resolve c1 _) as [b c2] eqn:Eb. destruct (resolve_spec _ s _ _ _ Hi1 Eb) as (Hi2 & Hm2 & H2).
    destruct (Z.ltb_spec a 0); [intros [= <- <-]; apply Hi2|].
    destruct (Z.ltb_spec b 0); [intros [= <- <-]; apply Hi2|]. cbn [orb]. unfold or_fail.
    destruct (add_arith_cases c2 (arith_op o) rev a b) as [-> | ->]; [intros [= <- <-]; apply Hi2|].
    rewrite num_ltb. intros [= <- <-] t Ht. some_of Ht. some_of Ht. injection Ht as <-.
    apply arith_finish; [exact Hi2|apply H1; assumption| |].
    + apply (is_node_mono c1); [exact Hm2|]. apply (resolve_node c s _ a c1 _ H Ea); assumption.
    + apply (resolve_node c1 s _ b c2 _ Hi1 Eb); assumption.
  - unfold or_fail. destruct (resolve c 0) as [a c1] eqn:Ea.
    destruct (resolve_spec _ s _ _ _ H Ea) as (Hi1 & Hm1 & H1).
    destruct (Z.ltb_spec a 0); [intros [= <- <-]; apply Hi1|].
    destruct (build_fp_load c1 (operand i 0)) as [b c2] eqn:Eb.
    destruct (build_fp_load_spec c1 s _ b c2 Hi1 Eb) as (Hr2 & Hm2 & H2).
    destruct (Z.ltb_spec b 0); [intros [= <- <-]; exact Hr2|].
    destruct (add_arith_cases c2 (arith_op o) rev a b) as [-> | ->]; [intros [= <- <-]; exact Hr2|].
    rewrite num_ltb. intros [= <- <-] t Ht. some_of Ht. some_of Ht. injection Ht as <-.
    destruct (H2 ltac:(assumption) _ eq_refl) as [Hi2 Hb].
    apply arith_finish; [exact Hi2|lia| |exact Hb].
    apply (is_node_mono c1); [exact Hm2|]. apply (resolve_node c s _ a c1 _ H Ea); assumption.
Qed.

Lemma build_iarith_spec c s i o rev ok c' :
  inv c s -> build_iarith c i (arith_op o) rev = (ok, c') ->
  steps s ok c' (let? a := st s 0 in let? b := int_load segbase s (operand i 0) in
                 Some (set_st s 0 (arith_apply o rev a b))).
Proof.
  intros H. unfold build_iarith, or_fail. destruct (resolve c 0) as [a c1] eqn:Ea.
  destruct (resolve_spec _ s _ _ _ H Ea) as (Hi1 & Hm1 & H1).
  destruct (Z.ltb_spec a 0); [intros [= <- <-]; apply Hi1|].
  destruct (build_int_load c1 (operand i 0)) as [b c2] eqn:Eb.
  destruct (build_int_load_spec c1 s _ b c2 Hi1 Eb) as (Hr2 & Hm2 & H2).
  destruct (Z.ltb_spec b 0); [intros [= <- <-]; exact Hr2|].
  destruct (add_arith_cases c2 (arith_op o) rev a b) as [-> | ->]; [intros [= <- <-]; exact Hr2|].
  rewrite num_ltb. intros [= <- <-] t Ht. some_of Ht. some_of Ht. injection Ht as <-.
  destruct (H2 ltac:(assumption) _ eq_refl) as [Hi2 Hb].
  apply arith_finish; [exact Hi2|lia| |exact Hb].
  apply (is_node_mono c1); [exact Hm2|]. apply (resolve_node c s _ a c1 _ H Ea); assumption.
Qed.

Lemma build_arithp_spec c s i o rev ok c' :
  inv c s -> build_arithp c i (arith_op o) rev = (ok, c') ->
  steps s ok c' (let? a := st s (index (reg (operand i 0))) in let? b := st s 0 in
                 Some (fpop (set_st s (index (reg (operand i 0))) (arith_apply o rev a b)))).
Proof.
  intros H. unfold build_arithp.
  destruct (resolve c _) as [a c1] eqn:Ea. destruct (resolve_spec _ s _ _ _ H Ea) as (Hi1 & Hm1 & H1).
  destruct (resolve c1 0) as [b c2] eqn:Eb. destruct (resolve_spec _ s _ _ _ Hi1 Eb) as (Hi2 & Hm2 & H2).
  destruct (Z.ltb_spec a 0); [intros [= <- <-]; apply Hi2|].
  destruct (Z.ltb_spec b 0); [intros [= <- <-]; apply Hi2|]. cbn [orb]. unfold or_fail.
  destruct (add_arith_cases c2 (arith_op o) rev a b) as [-> | ->]; [intros [= <- <-]; apply Hi2|].
  rewrite num_ltb. intros [= <- <-] t Ht. some_of Ht. some_of Ht. injection Ht as <-.
  apply inv_pop, arith_finish; [exact Hi2|apply H1; assumption| |].
  - apply (is_node_mono c1); [exact Hm2|]. apply (resolve_node c s _ a c1 _ H Ea); assumption.
  - apply (resolve_node c1 s _ b c2 _ Hi1 Eb); assumption.
Qed.

(** A node replacing ST(0). *)
Lemma replace_top c s n x :
  inv c s -> E (append c n) = add_val (E c) x -> in64 x -> node_ok (append c n) (num_nodes c) ->
  inv (set_slot (append c n) 0 (num_nodes c)) (set_st s 0 x).
Proof.
  intros H He Hx Hok. destruct (add_value c s n x H He Hx Hok) as (Hi & _ & Hn).
  apply (inv_set_slot _ _ _ _ _ _ _ s); [exact Hi|lia|apply Hn|apply Hn].
Qed.

Definition unary_fn (k : Op) (s : fpu) : Z -> Z :=
  match k with
  | FAbs => fabs f64
  | FSqrt => fsqrt f64
  | _ => round_integral (X87Runtime.rc_mode (cw s)) f64
  end.

Lemma build_unary_spec c s k ok c' :
  inv c s -> (k = FAbs \/ k = FSqrt \/ k = FRndInt) -> build_unary c k = (ok, c') ->
  steps s ok c' (unary s (unary_fn k s)).
Proof.
  intros H Hk. unfold build_unary, or_fail, unary. destruct (resolve c 0) as [a c1] eqn:Ea.
  destruct (resolve_spec _ s _ _ _ H Ea) as (Hi & Hm & H1).
  destruct (Z.ltb_spec a 0); [intros [= <- <-]; apply Hi|].
  destruct (add_node_cases c1 k a (-1) (-1)) as [-> | ->]; [intros [= <- <-]; apply Hi|].
  rewrite num_ltb. intros [= <- <-] t Ht. some_of Ht. injection Ht as <-.
  pose proof (resolve_node c s 0 a c1 _ H Ea ltac:(assumption) Heqo) as Hn.
  pose proof (in64_node c1 s a _ Hi Hn) as H64.
  apply replace_top; [exact Hi| | |apply plain_new; destruct Hk as [-> | [-> | ->]]; reflexivity].
  - rewrite E_append, <- (proj2 Hn).
    destruct Hk as [-> | [-> | ->]]; cbn [unary_fn]; rewrite <- ?(rel_cw _ _ _ _ _ _ (inv_rel _ _ _ _ _ _ _ _ (proj1 Hi)));
      reflexivity.
  - destruct Hk as [-> | [-> | ->]];
      [apply fabs_range64 | apply fsqrt_range64, H64 | apply round_integral_range64, H64].
Qed.

Lemma fneg_involutive x : in64 x -> fneg f64 (fneg f64 x) = x.
Proof. intros _. unfold fneg. rewrite Z.lxor_assoc, Z.lxor_nilpotent. apply Z.lxor_0_r. Qed.

Lemma build_fchs_spec c s ok c' :
  inv c s -> build_fchs c = (ok, c') -> steps s ok c' (unary s (fneg f64)).
Proof.
  intros H. unfold build_fchs, or_fail, unary. destruct (resolve c 0) as [a c1] eqn:Ea.
  destruct (resolve_spec _ s _ _ _ H Ea) as (Hi & Hm & H1).
  destruct (Z.ltb_spec a 0); [intros [= <- <-]; apply Hi|].
  destruct (Op_eqb (op (node c1 a)) FNeg) eqn:Eo.
  - intros [= <- <-] t Ht. some_of Ht. injection Ht as <-.
    pose proof (resolve_node c s 0 a c1 _ H Ea ltac:(assumption) Heqo) as [Ha Hv].
    unfold Op_eqb in Eo. destruct (Op_eq_dec _ _) as [Eo'|]; [|discriminate].
    pose proof (inv_node _ _ _ _ _ _ _ _ (proj1 Hi) a Ha) as Hok. unfold X87IRInv.node_ok in Hok.
    rewrite Eo' in Hok. destruct Hok as (Hin & Hval).
    apply (inv_set_slot _ _ _ _ _ _ _ s); [exact Hi|lia|lia|].
    rewrite <- Hv, Hval, fneg_involutive; [reflexivity|]. exact (in64_V _ _ _ _ _ _ c1 s _ (proj1 Hi)).
  - destruct (add_node_cases c1 FNeg a (-1) (-1)) as [-> | ->]; [intros [= <- <-]; apply Hi|].
    rewrite num_ltb. intros [= <- <-] t Ht. some_of Ht. injection Ht as <-.
    pose proof (resolve_node c s 0 a c1 _ H Ea ltac:(assumption) Heqo) as Hn.
    assert (He : E (append c1 (new_node FNeg a (-1) (-1))) = add_val (E c1) (fneg f64 z)).
    { rewrite E_append, <- (proj2 Hn). reflexivity. }
    apply replace_top; [exact Hi|exact He|apply fneg_range64, (in64_node c1 s a _ Hi Hn)|].
    unfold X87IRInv.node_ok. rewrite node_append_new. change (input (new_node FNeg a (-1) (-1)) 0) with a.
    cbn [op new_node]. destruct (node_new c1 _ _ He) as [_ ->].
    rewrite (V_mono segbase s0 nzcv0 stack0 c1 _ a (mono_append c1 _)) by apply Hn.
    split; [apply Hn|]. rewrite (proj2 Hn). reflexivity.
Qed.

(** ** Comparisons *)

Lemma machine_eq c s : inv c s ->
  i_regs (E c) = regs s /\ i_mem (E c) = gmem s /\ i_cw (E c) = cw s /\ i_sw (E c) = sw s.
Proof. intros [[[] _ _ _ _ _ _ _ _ _] _]. auto. Qed.

(** An effect that leaves registers, memory and the flags alone. *)
Lemma plain_effect c s s' n e :
  inv c s -> E (append c n) = add_val e 0 -> vals e = vals (E c) -> value_op (op n) = false ->
  stack s' = stack s -> top s' = top s -> regs s' = regs s -> gmem s' = gmem s ->
  zf s' = zf s -> pf s' = pf s -> cf s' = cf s ->
  i_regs e = regs s -> i_mem e = gmem s -> i_cw e = cw s' -> i_sw e = sw s' -> i_nzcv e = i_nzcv (E c) ->
  inv (append c n) s'.
Proof.
  intros H He Hv Hop Hst Ht Hr Hg Hz Hp Hc Hir Him Hic Hiw Hin.
  apply (inv_effect _ _ _ _ _ _ c s s' n e (last_fcomi c)); try assumption.
  pose proof (rel_flags _ _ _ _ _ _ (inv_rel _ _ _ _ _ _ _ _ (proj1 H))) as Hf.
  unfold flags_rel, flags_of in *. rewrite Hin, Hz, Hp, Hc. exact Hf.
Qed.

Lemma compare_finish c s n x y :
  inv c s -> value_op (op n) = false ->
  E (append c n) = add_val (ir_sw (E c) (set_cc (i_sw (E c)) (fcompare f64 x y))) 0 ->
  inv (append c n) (compare s x y).
Proof.
  intros H Hop He. destruct (machine_eq c s H) as (H1 & H2 & H3 & H4).
  apply (plain_effect c s _ n _ H He); try reflexivity; try assumption.
  cbn [ir_sw i_sw compare with_sw sw]. rewrite H4. reflexivity.
Qed.

Lemma fcmp_eval c a b x y : is_node c a x -> is_node c b y ->
  E (append c (new_node FCmp a b (-1))) =
  add_val (ir_sw (E c) (set_cc (i_sw (E c)) (fcompare f64 x y))) 0.
Proof. intros [_ <-] [_ <-]. rewrite E_append. reflexivity. Qed.

Lemma fcom_finish c s a b x y n :
  inv c s -> is_node c a x -> is_node c b y ->
  inv (pops (with_last_fcmp (append c (new_node FCmp a b (-1))) (num_nodes c)) n) (fpops (compare s x y) n).
Proof.
  intros H Ha Hb. apply inv_pops, inv_last_fcmp, compare_finish;
    [exact H|reflexivity|apply fcmp_eval; assumption].
Qed.

Lemma build_fcom_spec c s i n pp ok c' :
  inv c s -> build_fcom range_is_readonly host_mem c i n pp = (ok, c') ->
  steps s ok c' (exec_fcom segbase s i n pp).
Proof.
  intros H. unfold build_fcom, exec_fcom, or_fail. destruct (resolve c 0) as [a c1] eqn:Ea.
  destruct (resolve_spec _ s _ _ _ H Ea) as (Hi1 & Hm1 & H1).
  destruct (Z.ltb_spec a 0); [intros [= <- <-]; apply Hi1|].
  set (rhs := if pp then resolve c1 1 else _). set (y := if pp then st s 1 else _).
  destruct rhs as [b c2] eqn:Eb.
  assert (G : loads c1 s b c2 y).
  { subst rhs y. destruct pp; [|destruct (_ =? _)].
    1,2: destruct (resolve_spec _ s _ _ _ Hi1 Eb) as (Hi2 & Hm2 & H2);
      split; [apply Hi2|split; [exact Hm2|intros Hb v Hv; split; [exact Hi2|]]];
      eapply resolved; eassumption.
    apply build_fp_load_spec; assumption. }
  destruct G as (Hr2 & Hm2 & H2).
  destruct (Z.ltb_spec b 0); [intros [= <- <-]; exact Hr2|].
  destruct (add_node_cases c2 FCmp a b (-1)) as [-> | ->]; [intros [= <- <-]; exact Hr2|].
  rewrite num_ltb. intros [= <- <-] t Ht. some_of Ht. destruct y as [y|]; [|discriminate].
  injection Ht as <-. destruct (H2 ltac:(assumption) _ eq_refl) as [Hi2 Hb].
  apply fcom_finish; [exact Hi2| |exact Hb].
  apply (is_node_mono c1); [exact Hm2|]. eapply resolved; eassumption.
Qed.

Lemma build_ficom_spec c s i pops ok c' :
  inv c s -> build_ficom c i pops = (ok, c') ->
  steps s ok c' (let? a := st s 0 in let? b := int_load segbase s (operand i 0) in
                 Some (if pops then fpop (compare s a b) else compare s a b)).
Proof.
  intros H. unfold build_ficom, or_fail. destruct (resolve c 0) as [a c1] eqn:Ea.
  destruct (resolve_spec _ s _ _ _ H Ea) as (Hi1 & Hm1 & H1).
  destruct (Z.ltb_spec a 0); [intros [= <- <-]; apply Hi1|].
  destruct (build_int_load c1 (operand i 0)) as [b c2] eqn:Eb.
  destruct (build_int_load_spec c1 s _ b c2 Hi1 Eb) as (Hr2 & Hm2 & H2).
  destruct (Z.ltb_spec b 0); [intros [= <- <-]; exact Hr2|].
  destruct (add_node_cases c2 FCmp a b (-1)) as [-> | ->]; [intros [= <- <-]; exact Hr2|].
  rewrite num_ltb. intros [= <- <-] t Ht. some_of Ht. some_of Ht. injection Ht as <-.
  destruct (H2 ltac:(assumption) _ eq_refl) as [Hi2 Hb].
  assert (Ha : is_node c2 a z).
  { apply (is_node_mono c1); [exact Hm2|]. eapply resolved; eassumption. }
  destruct pops; [apply (fcom_finish c2 s a b _ _ 1) | apply (fcom_finish c2 s a b _ _ 0)]; assumption.
Qed.

Lemma build_ftst_spec c s ok c' :
  inv c s -> build_ftst c = (ok, c') -> steps s ok c' (let? a := st s 0 in Some (compare s a f_zero)).
Proof.
  intros H. unfold build_ftst, or_fail. destruct (resolve c 0) as [a c1] eqn:Ea.
  destruct (resolve_spec _ s _ _ _ H Ea) as (Hi1 & Hm1 & H1).
  destruct (Z.ltb_spec a 0); [intros [= <- <-]; apply Hi1|].
  destruct (add_node_cases c1 FTst a (-1) (-1)) as [-> | ->]; [intros [= <- <-]; apply Hi1|].
  rewrite num_ltb. intros [= <- <-] t Ht. some_of Ht. injection Ht as <-.
  apply inv_last_fcmp, compare_finish; [exact Hi1|reflexivity|].
  pose proof (resolve_node c s 0 a c1 _ H Ea ltac:(assumption) Heqo) as [_ <-].
  rewrite E_append. reflexivity.
Qed.

(** ** FCOMI and FCMOV *)

Lemma fcomi_flags_of s x y : flags_of (X87Runtime.fcomi_flags x y) (fcomi_state s (fcompare f64 x y)).
Proof.
  unfold X87Runtime.fcomi_flags, X87Runtime.fgt, flt. rewrite !CompareProps.x87_is_nan_spec.
  rewrite (CompareProps.fcompare_swap f64 x y).
  destruct (fcompare f64 x y) as [[]|] eqn:Ec;
    try (assert (Hn : is_nan f64 x || is_nan f64 y = false)
           by (apply not_true_iff_false; intros C; apply CompareProps.fcompare_nan in C; congruence);
         rewrite Hn; repeat split; reflexivity).
  apply CompareProps.fcompare_nan in Ec. rewrite Ec. repeat split; reflexivity.
Qed.

Lemma fcomi_finish c s a b x y f :
  inv c s -> is_node c a x -> is_node c b y -> Z.land f kDead = 0 ->
  inv (with_last_fcomi (append c (mkNode FComI f [a; b; -1] (PImm 0) 0)) (num_nodes c))
      (fcomi_state s (fcompare f64 x y)).
Proof.
  intros H [_ <-] [_ <-] Hf. destruct (machine_eq c s H) as (H1 & H2 & H3 & H4).
  assert (He : E (append c (mkNode FComI f [a; b; -1] (PImm 0) 0)) =
    add_val (ir_nzcv (E c) (X87Runtime.fcomi_flags (V c a) (V c b))) 0).
  { rewrite E_append. unfold eval_node, node_sem, dead. cbn [flags]. rewrite Hf. reflexivity. }
  set (w := fcompare _ _ _).
  apply (inv_effect _ _ _ _ _ _ c s _ _ _ (num_nodes c) H He); try reflexivity;
    try (cbn [ir_nzcv i_regs i_mem i_cw i_sw]; assumption);
    try (destruct w as [[]|]; reflexivity);
    try (destruct w as [[]|]; assumption).
  rewrite num_ltb. apply fcomi_flags_of.
Qed.

Lemma build_fcomi_spec c s i pops ok c' :
  inv c s -> build_fcomi c i pops = (ok, c') -> steps s ok c' (exec_fcomi s i pops).
Proof.
  intros H. unfold build_fcomi, exec_fcomi, or_fail. destruct (resolve c 0) as [a c1] eqn:Ea.
  destruct (resolve_spec _ s _ _ _ H Ea) as (Hi1 & Hm1 & H1).
  destruct (Z.ltb_spec a 0); [intros [= <- <-]; apply Hi1|].
  destruct (resolve c1 _) as [b c2] eqn:Eb. destruct (resolve_spec _ s _ _ _ Hi1 Eb) as (Hi2 & Hm2 & H2).
  destruct (Z.ltb_spec b 0); [intros [= <- <-]; apply Hi2|].
  destruct (add_node_cases c2 FComI a b (-1)) as [-> | ->]; [intros [= <- <-]; apply Hi2|].
  rewrite num_ltb. cbv zeta.
  assert (G : forall t, exec_fcomi s i pops = Some t -> exists x y,
    is_node c2 a x /\ is_node c2 b y /\
    t = if pops then fpop (fcomi_state s (fcompare f64 x y)) else fcomi_state s (fcompare f64 x y)).
  { intros t Ht. unfold exec_fcomi in Ht. some_of Ht. some_of Ht. apply some_inj in Ht. subst t.
    exists z, z0. split; [|split; [eapply resolved; eassumption|reflexivity]].
    apply (is_node_mono c1); [exact Hm2|]. eapply resolved; eassumption. }
  destruct pops.
  - rewrite set_node_append. intros [= <- <-] t Ht. destruct (G t Ht) as (x & y & Hx & Hy & ->).
    apply inv_pop. apply (fcomi_finish c2 s a b x y (Z.lor kNone kFcomIPopping)); auto.
  - intros [= <- <-] t Ht. destruct (G t Ht) as (x & y & Hx & Hy & ->).
    apply (fcomi_finish c2 s a b x y kNone); auto.
Qed.

Lemma cond_code_holds s nzcv cc negated : flags_of nzcv s ->
  a64_cond (Z.land (u64 (cond_code cc negated)) 0xF) nzcv = cond_holds s cc negated.
Proof.
  intros (Hz & Hp & Hc). unfold cond_holds. rewrite Hz, Hp, Hc.
  unfold a64_cond. generalize (Z.testbit nzcv 31), (Z.testbit nzcv 30), (Z.testbit nzcv 29), (Z.testbit nzcv 28).
  destruct cc, negated; intros [] [] [] []; reflexivity.
Qed.

Lemma fcsel_eval c a b k :
  E (append c (mkNode FCSel kNone [a; b; -1] (PImm k) 0)) =
  add_val (E c) (if a64_cond (Z.land k 0xF) (i_nzcv (E c)) then V c b else V c a).
Proof. rewrite E_append. reflexivity. Qed.

Lemma build_fcmov_spec c s i cc negated ok c' :
  inv c s -> build_fcmov c i (cond_code cc negated) = (ok, c') ->
  steps s ok c' (let? a := st s 0 in let? b := st s (index (reg (operand i 1))) in
                 Some (set_st s 0 (if cond_holds s cc negated then b else a))).
Proof.
  intros H. unfold build_fcmov, or_fail.
  destruct (Z.ltb_spec (last_fcomi c) 0) as [|Hl]; [intros [= <- <-]; apply H|].
  destruct (resolve c 0) as [a c1] eqn:Ea. destruct (resolve_spec _ s _ _ _ H Ea) as (Hi1 & Hm1 & H1).
  destruct (Z.ltb_spec a 0); [intros [= <- <-]; apply Hi1|].
  destruct (resolve c1 _) as [b c2] eqn:Eb. destruct (resolve_spec _ s _ _ _ Hi1 Eb) as (Hi2 & Hm2 & H2).
  destruct (Z.ltb_spec b 0); [intros [= <- <-]; apply Hi2|].
  destruct (add_node_cases c2 FCSel a b (-1)) as [-> | ->]; [intros [= <- <-]; apply Hi2|].
  rewrite num_ltb, set_node_append. intros [= <- <-] t Ht. some_of Ht. some_of Ht. injection Ht as <-.
  assert (Ha : is_node c2 a z).
  { apply (is_node_mono c1); [exact Hm2|]. eapply resolved; eassumption. }
  assert (Hb : is_node c2 b z0) by (eapply resolved; eassumption).
  assert (Hl2 : last_fcomi c2 = last_fcomi c).
  { assert (R : forall c d r c', resolve c d = (r, c') -> last_fcomi c' = last_fcomi c).
    { clear. intros c d r c'. unfold resolve. destruct (_ || _); [intros [= <- <-]; reflexivity|].
      cbv zeta. destruct (_ <=? _); [intros [= <- <-]; reflexivity|].
      destruct (_ || _); [intros [= <- <-]; reflexivity|].
      destruct (_ <=? _); [intros [= <- <-]; reflexivity|].
      destruct (add_node_cases c ReadSt (-1) (-1) (-1)) as [-> | ->]; [intros [= <- <-]; reflexivity|].
      rewrite num_ltb, set_node_append. intros [= <- <-]. reflexivity. }
    rewrite (R _ _ _ _ Eb), (R _ _ _ _ Ea). reflexivity. }
  pose proof (rel_flags _ _ _ _ _ _ (inv_rel _ _ _ _ _ _ _ _ (proj1 Hi2))) as Hf.
  unfold flags_rel in Hf. rewrite Hl2, (proj2 (Z.ltb_ge _ _) Hl) in Hf.
  apply replace_top; [exact Hi2| | |apply plain_new; reflexivity].
  - etransitivity; [apply (fcsel_eval c2 a b (u64 (cond_code cc negated)))|].
    rewrite (cond_code_holds s _ cc negated Hf), (proj2 Ha), (proj2 Hb). reflexivity.
  - destruct (cond_holds _ _ _); eapply in64_node; eassumption.
Qed.

(** ** Loads, stores and exchanges *)

Lemma push_id_spec c s r ok c' x :
  (forall id c1, r = (id, c1) -> loads c s id c1 x) -> push_id r = (ok, c') ->
  steps s ok c' (let? v := x in Some (fpush s v)).
Proof.
  intros G. unfold push_id, or_fail. destruct r as [id c1] eqn:Er.
  destruct (G id c1 eq_refl) as (Hr & _ & Hn).
  destruct (Z.ltb_spec id 0); [intros [= <- <-]; exact Hr|].
  intros [= <- <-] t Ht. some_of Ht. injection Ht as <-.
  destruct (Hn ltac:(assumption) _ eq_refl) as [Hi [Hid Hv]].
  apply inv_push; assumption.
Qed.

Lemma build_fconst_spec c s bits ok c' :
  inv c s -> in64 bits -> push_id (const_node_for_bits c bits) = (ok, c') ->
  steps s ok c' (Some (fpush s bits)).
Proof.
  intros H Hb. apply (push_id_spec c s _ ok c' (Some bits)). intros id c1 Hc.
  apply (loads_of_builds c s id c1 bits); [|congruence].
  exact (const_node_for_bits_spec c s bits id c1 H Hb Hc).
Qed.

Lemma build_fld_spec c s i ok c' :
  inv c s -> build_fld range_is_readonly host_mem c i = (ok, c') ->
  steps s ok c' (let? v := (if kind (operand i 0) =? IROperandKind.Register
                            then st s (index (reg (operand i 1))) else fp_load segbase s (operand i 0)) in
                 Some (fpush s v)).
Proof.
  intros H. unfold build_fld. destruct (_ =? _).
  - apply (push_id_spec c). intros id c1 Er.
    destruct (resolve_spec _ s _ _ _ H Er) as (Hi & Hm & _).
    split; [apply Hi|split; [exact Hm|]]. intros Hid v Hv. split; [exact Hi|].
    eapply resolved; eassumption.
  - apply (push_id_spec c). intros id c1 Er. exact (build_fp_load_spec c s _ id c1 H Er).
Qed.

Lemma build_fild_spec c s i ok c' :
  inv c s -> push_id (build_int_load c (operand i 0)) = (ok, c') ->
  steps s ok c' (let? v := int_load segbase s (operand i 0) in Some (fpush s v)).
Proof. intros H. apply (push_id_spec c). intros id c1. apply build_int_load_spec, H. Qed.

Lemma set_st_same s d v : st s d = Some v -> set_st s d v = s.
Proof.
  intros H. unfold set_st, with_stack. replace (list_set (stack s) (Z.to_nat d) (Some v)) with (stack s);
    [destruct s; reflexivity|].
  revert H. unfold st. generalize (Z.to_nat d) as n. induction (stack s) as [|a l IH]; intros [|n]; cbn.
  - reflexivity.
  - discriminate.
  - intros ->. reflexivity.
  - intros Hn. f_equal. apply IH, Hn.
Qed.

Lemma pop_if (b : bool) c s : inv c s -> inv (if b then X87IR.pop c else c) (if b then fpop s else s).
Proof. intros H. destruct b; [apply inv_pop, H | exact H]. Qed.

Lemma build_fst_spec c s i pops ok c' :
  inv c s -> build_fst c i pops = Some (ok, c') -> steps s ok c' (exec_fst segbase ro s i pops).
Proof.
  intros H. unfold build_fst, exec_fst. cbv zeta. destruct (resolve c 0) as [a c1] eqn:Ea.
  destruct (resolve_spec _ s _ _ _ H Ea) as (Hi & Hm & H1).
  destruct (Z.ltb_spec a 0); [intros [= <- <-]; apply Hi|].
  pose proof (index_range (reg (operand i 0))) as Hdi.
  destruct (kind (operand i 0) =? IROperandKind.Register).
  - destruct (Z.eqb_spec (index (reg (operand i 0))) 0) as [E0|N0].
    + intros [= <- <-] t Ht. some_of Ht. injection Ht as <-. rewrite E0, set_st_same by assumption.
      apply pop_if, Hi.
    + destruct (Z.leb_spec 8 (index (reg (operand i 0)))); [discriminate|].
      intros [= <- <-] t Ht. some_of Ht. injection Ht as <-.
      apply pop_if. assert (Hn : is_node c1 a z) by (eapply resolved; eassumption).
      apply (inv_set_slot _ _ _ _ _ _ _ s); [exact Hi|lia|apply Hn|apply Hn].
  - destruct (build_fp_store c1 (operand i 0) a) as [ok1 c2] eqn:Es. intros Hr.
    destruct (st s 0) as [v|] eqn:Hv.
    + pose proof (build_fp_store_spec c1 s _ a v ok1 c2 Hi (resolved _ _ _ _ _ _ Ea H ltac:(assumption) Hv) Es) as G.
      destruct ok1; injection Hr as <- <-; [|exact G].
      intros t Ht. some_of Ht. injection Ht as <-. apply pop_if, (G _ eq_refl).
    + destruct ok1; injection Hr as <- <-; [discriminate|].
      pose proof (build_fp_store_spec c1 s (operand i 0) a (V c1 a) false c2 Hi) as G.
      apply G; [|exact Es]. split; [apply (H1 ltac:(assumption))|reflexivity].
Qed.

Lemma build_fist_spec c s i truncate pops ok c' :
  inv c s -> build_fist c i truncate pops = (ok, c') ->
  steps s ok c' (let? v := st s 0 in let? s := int_store segbase ro s (operand i 0) v truncate in
                 Some (if pops then fpop s else s)).
Proof.
  intros H. unfold build_fist, or_fail. destruct (resolve c 0) as [a c1] eqn:Ea.
  destruct (resolve_spec _ s _ _ _ H Ea) as (Hi & Hm & H1).
  destruct (Z.ltb_spec a 0); [intros [= <- <-]; apply Hi|].
  destruct (build_int_store c1 (operand i 0) a truncate) as [ok1 c2] eqn:Es. intros Hr.
  assert (Hn : is_node c1 a (V c1 a)) by (split; [apply (H1 ltac:(assumption))|reflexivity]).
  destruct ok1; injection Hr as <- <-.
  - intros t Ht. some_of Ht. some_of Ht. injection Ht as <-. apply pop_if.
    apply (build_int_store_spec c1 s (operand i 0) a z truncate true c2 Hi); [|exact Es|assumption].
    eapply resolved; eassumption.
  - exact (build_int_store_spec c1 s _ a _ truncate false c2 Hi Hn Es).
Qed.

Lemma rel_swap c s d a b :
  rel c s -> 0 < d < 8 -> st s 0 = Some a -> st s d = Some b ->
  rel (set_slot (set_slot c 0 (slot c d)) d (slot c 0)) (set_st (set_st s 0 b) d a).
Proof.
  intros H Hd Ha Hb. destruct H as [Hl1 Hl2 ? ? ? ? ? ? Hs Hv].
  assert (L1 : length (slot_val (set_slot c 0 (slot c d))) = 8%nat)
    by (unfold set_slot; cbn [slot_val with_slots]; rewrite zset_length; assumption).
  assert (L2 : length (stack (set_st s 0 b)) = 8%nat)
    by (unfold set_st; cbn [stack with_stack]; rewrite list_set_length; assumption).
  constructor; try assumption.
  - unfold set_slot at 1. cbn [slot_val with_slots]. rewrite zset_length. exact L1.
  - unfold set_st at 1. cbn [stack with_stack]. rewrite list_set_length. exact L2.
  - intros d' x Hd' Hx. change (X87IRInv.sv segbase s0 nzcv0 stack0 _) with (X87IRInv.sv segbase s0 nzcv0 stack0 c).
    destruct (Z.eq_dec d d') as [<-|Hne].
    + rewrite st_set_eq in Hx by (assumption || lia). rewrite slot_set_eq by (assumption || lia).
      injection Hx as <-. apply Hs; [lia|exact Ha].
    + rewrite st_set_ne in Hx by lia. rewrite slot_set_ne by lia.
      destruct (Z.eq_dec d' 0) as [->|Hne0].
      * rewrite st_set_eq in Hx by (assumption || lia). rewrite slot_set_eq by (assumption || lia).
        injection Hx as <-. apply Hs; [lia|exact Hb].
      * rewrite st_set_ne in Hx by lia. rewrite slot_set_ne by lia. apply Hs; assumption.
  - intros d' Hd'. change (num_nodes _) with (num_nodes c).
    destruct (Z.eq_dec d d') as [<-|Hne]; [rewrite slot_set_eq by (assumption || lia); apply Hv; lia|].
    rewrite slot_set_ne by lia. destruct (Z.eq_dec d' 0) as [->|Hne0].
    + rewrite slot_set_eq by (assumption || lia). apply Hv. lia.
    + rewrite slot_set_ne by lia. apply Hv. exact Hd'.
Qed.

Lemma build_fxch_spec c s i ok c' :
  inv c s -> build_fxch c i = (ok, c') ->
  steps s ok c' (let? a := st s 0 in let? b := st s (index (reg (operand i 1))) in
                 Some (set_st (set_st s 0 b) (index (reg (operand i 1))) a)).
Proof.
  intros H. unfold build_fxch. cbv zeta. set (d := index (reg (operand i 1))).
  destruct (Z.leb_spec d 0); [intros [= <- <-]; apply H|].
  destruct (Z.leb_spec 8 d); [intros [= <- <-]; apply H|]. cbn [orb].
  destruct (resolve c 0) as [a c1] eqn:Ea. destruct (resolve_spec _ s _ _ _ H Ea) as (Hi1 & _ & _).
  cbn [snd]. destruct (resolve c1 d) as [b c2] eqn:Eb.
  destruct (resolve_spec _ s _ _ _ Hi1 Eb) as (Hi2 & _ & _). cbn [snd].
  intros [= <- <-] t Ht. some_of Ht. some_of Ht. injection Ht as <-.
  change (inv (with_slots c2 (zset (zset (slot_val c2) 0 (slot c2 d)) d (slot c2 0)) (top_delta c2))
    (set_st (set_st s 0 z0) d z)).
  apply (inv_with_slots _ _ _ _ _ _ c2 s); try reflexivity; [exact Hi2|].
  apply (rel_swap c2 s d z z0); [apply Hi2|lia|assumption|assumption].
Qed.

(** ** Status and control words *)

Lemma fstsw_eval c f d td :
  E (append c (mkNode FStsw kNone [f; d; td] (PImm 0) 0)) =
  add_val (ir_regs (E c) (set_reg (i_regs (E c)) d
    (Z.lor (Z.land (i_regs (E c) d) (Z.lnot 0xFFFF))
           (u16 (status_word (i_sw (E c)) ((top s0 + td) mod 8)))))) 0.
Proof. rewrite E_append. reflexivity. Qed.

Lemma build_fstsw_spec c s i ok c' :
  inv c s -> build_fstsw c i = (ok, c') ->
  steps s ok c' (guard (index (reg (operand i 0)) =? 0)
    (Some (with_regs s (set_reg (regs s) 0
       (Z.lor (Z.land (regs s 0) (Z.lnot 0xFFFF)) (u16 (status_word (sw s) (top s)))))))).
Proof.
  intros H. unfold build_fstsw. destruct (negb _); [intros [= <- <-]; apply H|]. unfold or_fail.
  destruct (add_node_cases c FStsw (-1) (-1) (-1)) as [-> | ->]; [intros [= <- <-]; apply H|].
  rewrite num_ltb, set_node_append. intros [= <- <-] t Ht. unfold guard in Ht.
  destruct (Z.eqb_spec (index (reg (operand i 0))) 0) as [E0|]; [|discriminate]. injection Ht as <-.
  destruct (machine_eq c s H) as (H1 & H2 & H3 & H4).
  pose proof (rel_top _ _ _ _ _ _ (inv_rel _ _ _ _ _ _ _ _ (proj1 H))) as Ht.
  apply inv_set_reg; [exact H| |reflexivity].
  etransitivity; [apply (fstsw_eval c (last_fcmp c) (index (reg (operand i 0))) (top_delta c))|].
  rewrite E0, H1, H4, Ht. reflexivity.
Qed.

Lemma build_fldcw_spec c s i ok c' :
  inv c s -> build_fldcw c i = (ok, c') ->
  steps s ok c' (let? v := read segbase s (operand i 0) 2 in Some (with_cw s v)).
Proof.
  intros H. unfold build_fldcw, or_fail.
  destruct (add_node_cases c StoreCW (-1) (-1) (-1)) as [-> | ->]; [intros [= <- <-]; apply H|].
  rewrite num_ltb, set_mem_new. intros [= <- <-] t Ht. some_of Ht. injection Ht as <-.
  apply read_some in Heqo as [_ ->]. destruct (machine_eq c s H) as (H1 & H2 & H3 & H4).
  assert (He : E (append c (load_node StoreCW (operand i 0))) =
    add_val (ir_cw (E c) (load 2 (gmem s) (addr segbase (regs s) (operand i 0)))) 0).
  { rewrite E_append, <- H1, <- H2. reflexivity. }
  apply (plain_effect c s _ _ _ H He); try reflexivity; assumption.
Qed.

Lemma build_fnstcw_spec c s i ok c' :
  inv c s -> build_fnstcw c i = (ok, c') ->
  steps s ok c' (guard (op_size (operand i 0) =? IROperandSize.S16)
    (write segbase ro s (operand i 0) 2 (cw s))).
Proof.
  intros H. unfold build_fnstcw, or_fail.
  destruct (add_node_cases c LoadCW (-1) (-1) (-1)) as [-> | ->]; [intros [= <- <-]; apply H|].
  rewrite num_ltb, set_mem_new. intros [= <- <-] t Ht. unfold guard in Ht.
  destruct (Z.eqb_spec (op_size (operand i 0)) IROperandSize.S16) as [E16|]; [|discriminate].
  destruct (machine_eq c s H) as (H1 & H2 & H3 & H4).
  apply (inv_store _ _ _ _ _ _ c s t _ (operand i 0) 2 (cw s) H Ht); [| |reflexivity].
  - left. apply width_of_size; [rewrite E16; reflexivity | lia].
  - rewrite E_append, <- H1, <- H2, <- H3. reflexivity.
Qed.
End Build.
