(* ===== verification/GuestProps.v ===== *)
(** The guest integer instructions of the builder: the payload survives its
    packing, and the value an inlined instruction writes is the one the
    instruction set gives. *)

From S2P Require Import Prelude F64 GuestMem IROperand X87IR X87IRBuild Fpu X87IREval.

(** ** Payload packing *)

Record payload_ok (p : GuestPayload) : Prop := {
  ok_imm : 0 <= p_imm p < 2 ^ 32;
  ok_dst : 0 <= p_dst p < 16;
  ok_src : 0 <= p_src p < 16;
  ok_idx : 0 <= p_idx p < 16;
  ok_cls : 0 <= p_cls p < 4
}.

Lemma land_small x n : 0 <= n -> 0 <= x < 2 ^ n -> Z.land x (Z.ones n) = x.
Proof. intros Hn Hx. rewrite Z.land_ones by lia. apply Z.mod_small, Hx. Qed.

(** One field of the packed word. *)
Lemma field_of w lo n x :
  0 <= lo -> 0 <= n -> 0 <= x < 2 ^ n ->
  (forall i, lo <= i < lo + n -> Z.testbit w i = Z.testbit x (i - lo)) ->
  Z.land (Z.shiftr w lo) (Z.ones n) = x.
Proof.
  intros Hlo Hn Hx H. rewrite <- (land_small x n Hn Hx). apply land_testbit_eq.
  intros i Hi Hb. rewrite Z.testbit_ones_nonneg in Hb by lia. apply Z.ltb_lt in Hb.
  rewrite Z.shiftr_spec, H by lia. f_equal. lia.
Qed.

Lemma high_bit x n i : 0 <= x < 2 ^ n -> 0 <= n <= i -> Z.testbit x i = false.
Proof.
  intros Hx Hi. rewrite <- (wrap_small n x Hx), wrap_testbit by lia.
  replace (i <? n) with false; [reflexivity|]. symmetry. apply Z.ltb_ge. lia.
Qed.

Lemma b2z_bits b : 0 <= b2z b < 2 ^ 1.
Proof. destruct b; cbn; lia. Qed.

Lemma nz_b2z b : nz (b2z b) = b.
Proof. destruct b; reflexivity. Qed.

(** The packed word with its fields in range. *)
Definition packed (imm dst src idx cls : Z) (b64 sg hb hi a32 : bool) : Z :=
  Z.lor (Z.lor (Z.lor (Z.lor (Z.lor (Z.lor (Z.lor (Z.lor (Z.lor
    imm (Z.shiftl dst 32)) (Z.shiftl src 36)) (Z.shiftl idx 40)) (Z.shiftl cls 44))
    (Z.shiftl (b2z b64) 46)) (Z.shiftl (b2z sg) 47)) (Z.shiftl (b2z hb) 48))
    (Z.shiftl (b2z hi) 49)) (Z.shiftl (b2z a32) 50).

Ltac packed_bit :=
  intros i Hi; unfold packed; rewrite !Z.lor_spec;
  repeat match goal with
  | |- context [Z.testbit (Z.shiftl ?x ?k) i] =>
      first [ rewrite (Z.shiftl_spec_low x k i) by lia
            | rewrite (Z.shiftl_spec x k i) by lia ]
  end;
  repeat match goal with
  | |- context [Z.testbit (b2z ?b) (i - ?k)] =>
      rewrite (high_bit (b2z b) 1 (i - k)) by (apply b2z_bits || lia)
  | |- context [Z.testbit ?x (i - ?k)] =>
      first [rewrite (high_bit x 2 (i - k)) by lia | rewrite (high_bit x 4 (i - k)) by lia]
  | |- context [Z.testbit ?x i] => rewrite (high_bit x 32 i) by lia
  end;
  rewrite ?orb_false_r, ?orb_false_l, ?Z.sub_0_r; reflexivity.

Lemma guest_unpack_pack p : payload_ok p -> guest_unpack (guest_pack p) = p.
Proof.
  intros [Himm Hd Hs Hx Hc]. destruct p as [imm dst src idx cls b64 sg hb hi a32].
  cbn [p_imm p_dst p_src p_idx p_cls] in *.
  assert (Ep : guest_pack (mkPayload imm dst src idx cls b64 sg hb hi a32) =
               packed imm dst src idx cls b64 sg hb hi a32).
  { unfold guest_pack, packed. cbn [p_imm p_dst p_src p_idx p_cls p_is64 p_sign p_has_base p_has_index p_addr32].
    change 0xF with (Z.ones 4). change 0x3 with (Z.ones 2). rewrite !land_small by lia. reflexivity. }
  rewrite Ep. clear Ep. unfold guest_unpack. rewrite wrap_land by lia.
  rewrite <- (Z.shiftr_0_r (packed imm dst src idx cls b64 sg hb hi a32)) at 1.
  rewrite (field_of _ 0 32 imm) by (lia || packed_bit).
  change 0xF with (Z.ones 4). change 0x3 with (Z.ones 2).
  rewrite (field_of _ 32 4 dst), (field_of _ 36 4 src), (field_of _ 40 4 idx), (field_of _ 44 2 cls)
    by (lia || packed_bit).
  assert (B : forall b k, (forall i, k <= i < k + 1 ->
      Z.testbit (packed imm dst src idx cls b64 sg hb hi a32) i = Z.testbit (b2z b) (i - k)) -> 0 <= k ->
      nz (Z.land (Z.shiftr (packed imm dst src idx cls b64 sg hb hi a32) k) 1) = b).
  { intros b k Hb Hk. change 1 with (Z.ones 1). rewrite (field_of _ k 1 (b2z b)); [apply nz_b2z|..];
      try lia; try apply b2z_bits. exact Hb. }
  f_equal; apply B; (lia || packed_bit).
Qed.

(** ** Address arithmetic at two widths *)

Lemma wrap_wrap_le v w x : 0 <= v <= w -> wrap v (wrap w x) = wrap v x.
Proof.
  intros H. apply Z.bits_inj'. intros i Hi. rewrite !wrap_testbit by lia.
  destruct (Z.ltb_spec i v); [|reflexivity]. replace (i <? w) with true; [reflexivity|].
  symmetry. apply Z.ltb_lt. lia.
Qed.

Lemma wrap_wrap_ge v w x : 0 <= w <= v -> wrap v (wrap w x) = wrap w x.
Proof.
  intros H. apply wrap_small. pose proof (wrap_range w x ltac:(lia)).
  pose proof (Z.pow_le_mono_r 2 w v ltac:(lia) ltac:(lia)). lia.
Qed.

Lemma wrap_add w x y : 0 <= w -> wrap w (x + y) = wrap w (wrap w x + wrap w y).
Proof.
  intros Hw. unfold wrap. apply Z.add_mod. pose proof (Z.pow_pos_nonneg 2 w). lia.
Qed.

(** Equality modulo [2^w] goes through sums and scaling. *)
Lemma wrap_sum w a a' b b' : 0 <= w ->
  wrap w a = wrap w a' -> wrap w b = wrap w b' -> wrap w (a + b) = wrap w (a' + b').
Proof. intros Hw Ha Hb. rewrite wrap_add, Ha, Hb, <- wrap_add by lia. reflexivity. Qed.

Lemma wrap_scale w x y k : 0 <= w -> 0 <= k ->
  wrap w x = wrap w y -> wrap w (Z.shiftl x k) = wrap w (Z.shiftl y k).
Proof.
  intros Hw Hk. rewrite !Z.shiftl_mul_pow2 by lia. unfold wrap. intros H.
  pose proof (Z.pow_pos_nonneg 2 w ltac:(lia) Hw).
  rewrite Z.mul_mod, H, <- Z.mul_mod by lia. reflexivity.
Qed.

Lemma s32_u32 d : - 2 ^ 31 <= d < 2 ^ 31 -> s32 (u32 d) = d.
Proof.
  intros H. unfold sgn. rewrite wrap_wrap by lia. fold (sgn 32 d). apply (sgn_small 32); lia.
Qed.

(** The effective address taken at the width the lea of the node uses. *)
Lemma lea_sum r o w : 0 <= w <= asize o -> 0 <= shift_amount o ->
  wrap w ((if nz (Z.land (mem_flags o) 1) then r (Z.land (base_reg o) 0xF) else 0) +
          (if nz (Z.land (mem_flags o) 2)
           then Z.shiftl (r (Z.land (index_reg o) 0xF)) (shift_amount o) else 0) + disp o) =
  wrap w (mem_sum r o).
Proof.
  intros Hw Hk. unfold mem_sum. apply wrap_sum; [lia| |reflexivity]. apply wrap_sum; [lia|..].
  - destruct (nz _); [|reflexivity]. symmetry. apply wrap_wrap_le. exact Hw.
  - destruct (nz _); [|reflexivity]. apply wrap_scale; [lia..|]. symmetry. apply wrap_wrap_le. exact Hw.
Qed.

Lemma land15_range v : 0 <= Z.land v 0xF < 16.
Proof. apply (land_bound v 0xF 4); lia. Qed.

#[export] Hint Resolve land15_range : words.

(** ** The inlined instruction writes the value the instruction set gives *)

Section Forms.
Context (s : fpu) (opc : Z) (dst src : IROperand).

#[local] Abbreviation dst64 := (op_size dst =? IROperandSize.S64).

(** A register form against the machine. *)
Definition form_ok (f : option (Op * GuestPayload)) : Prop :=
  forall o p v, f = Some (o, p) -> exec_reg s opc dst src = Some v ->
  payload_ok p /\ p_dst p = index (reg dst) /\ guest_value o (regs s) p = v /\
  (o = GuestMovRR \/ o = GuestMovRI \/ o = GuestLea \/ o = GuestExt).

Lemma payload_in imm d sr i cls b64 sg hb hi a32 :
  0 <= imm < 2 ^ 32 -> 0 <= d < 16 -> 0 <= sr < 16 -> 0 <= i < 16 -> 0 <= cls < 4 ->
  payload_ok (mkPayload imm d sr i cls b64 sg hb hi a32).
Proof. constructor; assumption. Qed.

Lemma guest_mov_form : opc = kOpcodeName.mov -> form_ok (guest_mov dst src dst64).
Proof.
  intros Ho o p v. unfold guest_mov, exec_reg. cbv zeta. rewrite Ho.
  cbn [Z.eqb Pos.eqb kOpcodeName.mov]. destruct (kind src =? IROperandKind.Register).
  - destruct (_ || _); [discriminate|]. intros [= <- <-] [= <-].
    split; [apply payload_in; auto with words; lia|]. auto.
  - destruct (_ && _); [discriminate|]. destruct (op_size dst =? IROperandSize.S64); [discriminate|].
    intros [= <- <-] [= <-].
    split; [apply payload_in; auto with words; try lia; apply wrap_range; lia|]. auto.
Qed.

Lemma guest_ext_form :
  opc = kOpcodeName.movzx \/ opc = kOpcodeName.movsx \/ opc = kOpcodeName.movsxd ->
  form_ok (guest_ext opc dst src dst64).
Proof.
  intros Ho o p v. unfold guest_ext. destruct (_ || _); [discriminate|].
  destruct (ext_class opc src) as [cls|] eqn:Ec; [|discriminate]. intros [= <- <-] Hv.
  assert (Hc : 0 <= cls < 4 /\
    ext_source s src =
    (if 2 <=? cls then (if cls =? 3 then 32 else 16) else 8,
     bits (regs s (index (reg src))) (if cls =? 1 then 8 else 0)
       (if 2 <=? cls then (if cls =? 3 then 32 else 16) else 8))).
  { unfold ext_class in Ec. unfold ext_source. cbv zeta.
    destruct (op_size src =? IROperandSize.S8).
    - destruct (_ <? _); [discriminate|]. injection Ec as <-. destruct (_ =? 0x10); split; (lia || reflexivity).
    - destruct (op_size src =? IROperandSize.S16); [injection Ec as <-; split; (lia || reflexivity)|].
      destruct (op_size src =? IROperandSize.S32); [|discriminate].
      destruct (negb _); [discriminate|]. injection Ec as <-. split; (lia || reflexivity). }
  destruct Hc as [Hc Hs]. split; [apply payload_in; auto with words; lia|].
  split; [reflexivity|]. split; [|auto].
  unfold exec_reg in Hv. rewrite Hs in Hv. unfold guest_value.
  cbn [p_cls p_src p_sign p_is64] in *.
  destruct Ho as [-> | [-> | ->]]; injection Hv as <-; reflexivity.
Qed.

Lemma guest_lea_form : opc = kOpcodeName.lea -> form_ok (guest_lea dst src dst64).
Proof.
  intros Ho o p v. unfold guest_lea, exec_reg, guard. rewrite Ho. cbv zeta.
  destruct (negb (kind src =? IROperandKind.MemRef)); [discriminate|].
  destruct (nz (seg_override src)); [discriminate|].
  destruct (Z.ltb_spec (disp src) (- 2 ^ 31)), (Z.ltb_spec (2 ^ 31 - 1) (disp src)); try discriminate.
  destruct (Z.ltb_spec 3 (shift_amount src)); [discriminate|]. cbn [orb].
  intros [= <- <-]. cbn -[wrap Z.land Z.leb]. destruct (_ && _) eqn:Eg; [|discriminate].
  apply andb_true_iff in Eg as [Es Ek]. apply Z.leb_le in Ek. intros [= <-].
  split; [apply payload_in; auto with words; try lia; apply wrap_range; lia|].
  split; [reflexivity|]. split; [|auto].
  rewrite s32_u32 by lia. rewrite lea_sum; [|split; [destruct (_ && _); lia|]|exact Ek].
  - unfold asize. rewrite orb_true_iff, !Z.eqb_eq in Es.
    destruct Es as [-> | ->], (op_size dst =? IROperandSize.S64); cbn [andb negb Z.eqb Pos.eqb IROperandSize.S32 IROperandSize.S64];
      rewrite ?wrap_wrap_le, ?wrap_wrap_ge by lia; reflexivity.
  - unfold asize. rewrite orb_true_iff, !Z.eqb_eq in Es.
    destruct Es as [-> | ->], (op_size dst =? IROperandSize.S64); cbn; lia.
Qed.

Lemma guest_reg_form_ok : form_ok (guest_reg_form opc dst src dst64).
Proof.
  unfold guest_reg_form. destruct (Z.eqb_spec opc kOpcodeName.mov); [apply guest_mov_form; assumption|].
  destruct (_ || _) eqn:Eo.
  - apply guest_ext_form. rewrite !orb_true_iff, !Z.eqb_eq in Eo. intuition.
  - destruct (Z.eqb_spec opc kOpcodeName.lea); [apply guest_lea_form; assumption|]. intros o p v [=].
Qed.
End Forms.
