(* ===== verification/X87IRRefine.v ===== *)
(** The builder refines the abstract machine: the guest instructions, the
    dispatch, the loop over a run and the carried-in permutation. *)

From S2P Require Import Prelude F64 X87State X87Props F64Props F32Props GuestMem IROperand X87IR.
From S2P Require Import X87IRBuild Fpu X87IREval X87IRInv F80Promote X87IRWf X87IRBuildProps.
From S2P Require Import GuestProps.

Section Build.
Context (segbase : Z -> Z) (ro : Z -> bool) (host_mem : mem) (s0 : fpu) (nzcv0 : Z)
  (stack0 : list (option Z)) (range_is_readonly : Z -> Z -> bool) (transparent_int : bool).

#[local] Abbreviation E := (E segbase s0 nzcv0 stack0).
#[local] Abbreviation inv := (inv segbase ro host_mem s0 nzcv0 stack0).
#[local] Abbreviation rel := (rel segbase s0 nzcv0 stack0).
#[local] Abbreviation steps := (steps segbase ro host_mem s0 nzcv0 stack0).

Hypothesis Hstack0 : stack_ok stack0.
Hypothesis Hreadonly : forall a n, range_is_readonly a n = true ->
  forall x, a <= x < a + n -> ro x = true.

(** ** Guest integer instructions *)

Definition guest_node (k : Op) (o : IROperand) (a : Z) : Node := mkNode k kNone [-1; -1; -1] (PMem o) a.

(** [add_node] of a guest access, its operand and its aux set. *)
Lemma guest_node_new c k o a :
  set_mem_operand (set_node (append c (new_node k (-1) (-1) (-1))) (num_nodes c) (fun n => with_aux n a))
    (num_nodes c) o = append c (guest_node k o a).
Proof. rewrite set_node_append. unfold set_mem_operand. rewrite set_node_append. reflexivity. Qed.

Lemma guest_node_new' c k o a :
  set_node (set_mem_operand (append c (new_node k (-1) (-1) (-1))) (num_nodes c) o)
    (num_nodes c) (fun n => with_aux n a) = append c (guest_node k o a).
Proof. unfold set_mem_operand. rewrite !set_node_append. reflexivity. Qed.

Lemma width_or_zero o : mem_operand_width o = Z.of_nat (size_bytes (op_size o)) \/ mem_operand_width o = 0.
Proof.
  unfold mem_operand_width, size_bytes.
  destruct (Z.eqb_spec (op_size o) IROperandSize.S8) as [->|]; [right; reflexivity|].
  repeat (destruct (_ =? _); [left; reflexivity|]). right. reflexivity.
Qed.

Lemma land_index v : Z.land (index v) 0xF = index v.
Proof. apply (land_small (index v) 4); [lia|apply index_range]. Qed.

(** A store of a register or of an immediate. *)
Lemma guest_store_step c s o k a v ok c' :
  inv c s -> (k = GuestStoreR /\ v = regs s (Z.land a 0xF)) \/ (k = GuestStoreI /\ v = u32 a) ->
  (let '(id, c1) := (get! id, c1 <- add_node c k (-1) (-1) (-1) ;;
                     (id, set_node c1 id (fun n => with_aux n a)))%build in
   if id <? 0 then (false, c1) else (true, mem_cse_evict_may_alias (set_mem_operand c1 id o) o)) = (ok, c') ->
  steps s ok c' (write segbase ro s o (size_bytes (op_size o)) v).
Proof.
  intros H Hk. unfold or_neg.
  destruct (add_node_cases c k (-1) (-1) (-1)) as [-> | ->]; [intros [= <- <-]; apply H|].
  rewrite num_ltb, num_ltb, guest_node_new. intros [= <- <-] t Ht.
  destruct (machine_eq _ _ _ _ _ _ c s H) as (H1 & H2 & _).
  apply (inv_store _ _ _ _ _ _ c s t _ o _ v H Ht (width_or_zero o)); [|destruct Hk as [[-> _]|[-> _]]; reflexivity].
  rewrite E_append, <- H1, <- H2. destruct Hk as [[-> ->]|[-> ->]]; [rewrite <- H1|]; reflexivity.
Qed.

Lemma build_guest_store_spec c s dst src ok c' :
  inv c s -> build_guest_store c dst src = (ok, c') -> steps s ok c' (exec_mov_store segbase ro s dst src).
Proof.
  intros H. unfold build_guest_store, exec_mov_store, or_fail. cbv zeta.
  assert (G : forall r, steps s ok c' r -> steps s ok c' (guard (0 <? Z.of_nat (size_bytes (op_size dst))) r)).
  { intros r. unfold guard. destruct (_ <? _); [auto|]. destruct ok; [intros _ t [=] | auto]. }
  destruct (kind src =? IROperandKind.Register).
  - destruct (negb (is_gpr _)); [intros [= <- <-]; apply H|].
    destruct (_ =? 0x10); [intros [= <- <-]; apply H|].
    destruct (negb _); [intros [= <- <-]; apply H|]. intros Hb. apply G.
    apply (guest_store_step c s dst GuestStoreR (index (reg src))); [exact H| |exact Hb].
    left. rewrite land_index. auto.
  - destruct (is_mem src); [intros [= <- <-]; apply H|].
    destruct (_ && _); [intros [= <- <-]; apply H|].
    destruct (negb _); [intros [= <- <-]; apply H|]. intros Hb. apply G.
    apply (guest_store_step c s dst GuestStoreI (u32 (value src))); [exact H| |exact Hb].
    right. rewrite wrap_wrap by lia. auto.
Qed.

(** A node that writes register [d]. *)
Lemma guest_write_inv c s n d v m :
  inv c s -> E (append c n) = add_val (ir_regs (E c) (set_reg (regs s) d v)) 0 ->
  value_op (op n) = false ->
  inv (mem_cse_evict_reg (with_guest_written (append c n) m) d) (with_regs s (set_reg (regs s) d v)).
Proof.
  intros H He Hop. change (mem_cse_evict_reg (with_guest_written (append c n) m) d)
    with (with_guest_written (mem_cse_evict_reg (append c n) d) m).
  apply inv_guest_written, inv_set_reg; assumption.
Qed.

Lemma load_aux r b : let a := Z.lor (index r) (if (b : bool) then 16 else 0) in
  Z.land a 0xF = index r /\ Z.testbit a 4 = b.
Proof.
  cbv zeta. pose proof (index_range r). split.
  - rewrite Z.land_lor_distr_l, land_index. destruct b; apply Z.lor_0_r.
  - rewrite Z.lor_spec, (high_bit (index r) 4) by lia. destruct b; reflexivity.
Qed.

Lemma guest_load_eval c o a :
  E (append c (guest_node GuestLoad o a)) =
  (let sz := size_bytes (op_size o) in
   let x := load sz (i_mem (E c)) (addr segbase (i_regs (E c)) o) in
   let x := if Z.testbit a 4 then u32 (sgn (8 * Z.of_nat sz) x) else x in
   add_val (ir_regs (E c) (set_reg (i_regs (E c)) (Z.land a 0xF) x)) 0).
Proof. rewrite E_append. reflexivity. Qed.

Lemma build_guest_load_spec c s opc dst src dst64 ok c' :
  inv c s -> build_guest_load c opc dst src dst64 = (ok, c') ->
  steps s ok c' (exec_mov_load segbase s opc dst src).
Proof.
  intros H. unfold build_guest_load, or_fail. cbv zeta.
  destruct (negb _); [intros [= <- <-]; apply H|]. destruct (_ && _); [intros [= <- <-]; apply H|].
  destruct (add_node_cases c GuestLoad (-1) (-1) (-1)) as [-> | ->]; [intros [= <- <-]; apply H|].
  rewrite num_ltb, guest_node_new'. intros [= <- <-] t Ht. unfold exec_mov_load, guard in Ht.
  cbv zeta in Ht. destruct (_ <? _); [|discriminate].
  destruct (read _ _ _ _) as [v|] eqn:Er; [|discriminate]. apply some_inj in Ht. subst t.
  apply read_some in Er as [_ Ev]. destruct (machine_eq _ _ _ _ _ _ c s H) as (H1 & H2 & _).
  destruct (load_aux (reg dst) (opc =? kOpcodeName.movsx)) as [A B].
  apply guest_write_inv; [exact H| |reflexivity].
  rewrite guest_load_eval. cbv zeta in *. rewrite A, B, H1, H2, <- Ev. reflexivity.
Qed.
(** A register-form node. *)
Lemma guest_form_eval c k p :
  payload_ok p -> k = GuestMovRR \/ k = GuestMovRI \/ k = GuestLea \/ k = GuestExt ->
  E (append c (mkNode k kNone [-1; -1; -1] (PImm (guest_pack p)) 0)) =
  add_val (ir_regs (E c) (set_reg (i_regs (E c)) (p_dst p) (guest_value k (i_regs (E c)) p))) 0.
Proof.
  intros Hp Hk. rewrite E_append. rewrite <- (guest_unpack_pack p Hp) at 2 3.
  destruct Hk as [-> | [-> | [-> | ->]]]; reflexivity.
Qed.

Lemma build_guest_form_spec c s opc dst src k p ok c' :
  inv c s -> guest_reg_form opc dst src (op_size dst =? IROperandSize.S64) = Some (k, p) ->
  (let '(id, c1) := add_node c k (-1) (-1) (-1) in
   if id <? 0 then (false, c1)
   else (true, guest_write (set_node c1 id (fun n => with_data n (PImm (guest_pack p)))) (p_dst p))) = (ok, c') ->
  steps s ok c' (let? v := exec_reg s opc dst src in
                 Some (with_regs s (set_reg (regs s) (index (reg dst)) v))).
Proof.
  intros H Hf. destruct (add_node_cases c k (-1) (-1) (-1)) as [-> | ->]; [intros [= <- <-]; apply H|].
  rewrite num_ltb, set_node_append. intros Hb. injection Hb as <- <-. intros t Ht.
  destruct (exec_reg s opc dst src) as [v|] eqn:Ev; [|discriminate].
  apply some_inj in Ht. subst t.
  destruct (guest_reg_form_ok s opc dst src k p v Hf Ev) as (Hp & Hd & Hv & Hk).
  destruct (machine_eq _ _ _ _ _ _ c s H) as (H1 & _). rewrite <- Hd.
  apply guest_write_inv; [exact H| |destruct Hk as [-> | [-> | [-> | ->]]]; reflexivity].
  etransitivity; [apply (guest_form_eval c k p Hp Hk)|]. rewrite H1, Hv. reflexivity.
Qed.

Lemma build_guest_int_spec c s i ok c' :
  inv c s -> build_guest_int transparent_int c i = (ok, c') -> steps s ok c' (exec_guest segbase ro s i).
Proof.
  intros H. unfold build_guest_int, exec_guest. cbv zeta.
  set (opc := opcode i). set (dst := operand i 0). set (src := operand i 1).
  destruct (negb transparent_int); [intros [= <- <-]; apply H|].
  destruct ((opc =? kOpcodeName.nop) || (opc =? kOpcodeName.wait)).
  { intros [= <- <-] t [= <-]. exact H. }
  destruct (num_operands i <? 2); [intros [= <- <-]; apply H|].
  change (is_mem_kind dst) with (is_mem dst). change (is_mem_kind src) with (is_mem src).
  destruct ((opc =? kOpcodeName.mov) && is_mem dst) eqn:Es.
  { apply andb_true_iff in Es as [_ ->]. apply build_guest_store_spec, H. }
  destruct (negb _ || negb _) eqn:Er; [intros [= <- <-]; apply H|].
  apply orb_false_iff in Er as [Er _]. apply negb_false_iff, Z.eqb_eq in Er.
  assert (Hd : is_mem dst = false) by (unfold is_mem; rewrite Er; reflexivity).
  rewrite Hd. destruct (negb (op_size dst =? _) && _); [intros [= <- <-]; apply H|].
  destruct (is_mem src && (_ || _)) eqn:El.
  { apply andb_true_iff in El as [Em El]. rewrite !orb_true_iff, !Z.eqb_eq in El.
    assert (Hl : is_mem src && negb (opc =? kOpcodeName.lea) = true).
    { rewrite Em. destruct El as [[-> | ->] | ->]; reflexivity. }
    rewrite Hl. apply build_guest_load_spec, H. }
  destruct (guest_reg_form _ _ _ _) as [[k p]|] eqn:Ef; [|intros [= <- <-]; apply H].
  assert (Hl : (is_mem src && negb (opc =? kOpcodeName.lea)) = false).
  { destruct (is_mem src) eqn:Em; [|reflexivity]. cbn [andb] in El |- *.
    rewrite !orb_false_iff in El. destruct El as [[E1 E2] E3].
    unfold guest_reg_form, guest_ext in Ef. rewrite E1, E2, E3 in Ef. cbn [orb] in Ef.
    assert (Hr : (kind src =? IROperandKind.Register) = false).
    { unfold is_mem in Em. rewrite orb_true_iff, !Z.eqb_eq in Em. destruct Em as [-> | ->]; reflexivity. }
    rewrite Hr in Ef. cbn [negb orb] in Ef.
    destruct (opc =? kOpcodeName.movsxd); [discriminate|].
    destruct (opc =? kOpcodeName.lea); [reflexivity|discriminate]. }
  rewrite Hl. intros Hb. exact (build_guest_form_spec c s opc dst src k p ok c' H Ef Hb).
Qed.
(** ** Dispatch *)

Lemma fconst_in64 opc b : x87op_of opc = Some (Fconst b) -> in64 b.
Proof.
  unfold x87op_of. destruct (find _ _) as [[k x]|] eqn:Ef; [|discriminate]. cbn [option_map snd].
  intros [= ->]. apply find_some in Ef as [Hin _].
  assert (A : Forall (fun e => match snd e with Fconst b => in64 b | _ => True end) x87op_table).
  { unfold x87op_table. repeat constructor; cbn; unfold in64; lia. }
  exact (proj1 (Forall_forall _ _) A _ Hin).
Qed.

Lemma build_instr_spec c s i ok c' :
  inv c s -> build_instr range_is_readonly host_mem transparent_int c i = Some (ok, c') ->
  steps s ok c' (exec segbase ro s i).
Proof.
  intros H. unfold build_instr, exec. destruct (x87op_of (opcode i)) as [k|] eqn:Ek.
  - destruct k; try (intros Hb; apply some_inj in Hb; revert Hb).
    + apply build_fconst_spec; [exact H|]. exact (fconst_in64 _ _ Ek).
    + apply build_fld_spec; assumption.
    + apply build_fild_spec; assumption.
    + apply build_fst_spec; assumption.
    + apply build_fist_spec; assumption.
    + apply build_arith_spec; assumption.
    + apply build_iarith_spec; assumption.
    + apply build_arithp_spec; assumption.
    + apply build_fchs_spec; assumption.
    + apply (build_unary_spec _ _ _ _ _ _ Hstack0 c s FAbs); auto.
    + apply (build_unary_spec _ _ _ _ _ _ Hstack0 c s FSqrt); auto.
    + apply (build_unary_spec _ _ _ _ _ _ Hstack0 c s FRndInt); auto.
    + apply build_fxch_spec; assumption.
    + apply build_fcom_spec; assumption.
    + apply build_ficom_spec; assumption.
    + apply build_fcomi_spec; assumption.
    + apply build_fcmov_spec; assumption.
    + apply build_ftst_spec; assumption.
    + apply build_fstsw_spec; assumption.
    + apply build_fldcw_spec; assumption.
    + apply build_fnstcw_spec; assumption.
    + intros [= <- <-] t [= <-]. exact H.
    + apply build_guest_int_spec; assumption.
  - intros [= <- <-]. apply H.
Qed.

(** ** The loop *)

#[local] Abbreviation loop := (build_loop range_is_readonly host_mem transparent_int).

Lemma build_loop_spec l : forall c s i c',
  inv c s -> wf c -> consumed c = s16 i -> loop c l i = Some c' ->
  exists k, (k <= length l)%nat /\ consumed c' = s16 (i + Z.of_nat k) /\
    (forall s', exec_all segbase ro s (firstn k l) = Some s' -> rel c' s').
Proof.
  induction l as [|ins l IH]; intros c s i c' H W Hc Hb; cbn [build_loop] in Hb.
  - injection Hb as <-. exists 0%nat. split; [auto|]. rewrite Z.add_0_r. split; [exact Hc|].
    intros s' [= <-]. apply H.
  - destruct (build_instr _ _ _ c ins) as [[ok c1]|] eqn:Ei; [|discriminate].
    pose proof (build_instr_spec c s ins ok c1 H Ei) as Hs.
    destruct (build_instr_does _ _ _ c ins _ W Ei) as [W1 _ Ec]. cbn [snd] in W1, Ec.
    apply (wf_consumed c1 (s16 (i + 1))) in W1 as W2. destruct ok.
    + destruct (exec segbase ro s ins) as [t|] eqn:Et.
      * destruct (IH _ t (i + 1) c' (inv_consumed _ _ _ _ _ _ _ _ _ (Hs t eq_refl)) W2 eq_refl Hb)
          as (k & Hk & Hck & Hx).
        exists (S k). cbn [length firstn exec_all]. split; [lia|].
        split; [rewrite Hck; f_equal; lia|]. rewrite Et. exact Hx.
      * destruct (build_loop_wf _ _ _ l _ (i + 1) c' W2 eq_refl Hb) as (_ & k & Hk & Hck).
        exists (S k). cbn [length firstn exec_all]. split; [lia|].
        split; [rewrite Hck; f_equal; lia|]. rewrite Et. discriminate.
    + injection Hb as <-. exists 0%nat. split; [lia|]. rewrite Ec, Hc, Z.add_0_r. split; [reflexivity|].
      intros s' [= <-]. exact Hs.
Qed.

Lemma resolve_perm_spec perm : forall c s d b c',
  inv c s -> resolve_perm c perm d = (b, c') -> inv c' s.
Proof.
  induction perm as [|p perm IH]; intros c s d b c' H; cbn [resolve_perm]; [intros [= <- <-]; exact H|].
  destruct (p =? d); [apply IH, H|].
  destruct (resolve c d) as [id c1] eqn:Er.
  destruct (resolve_spec segbase ro host_mem s0 nzcv0 stack0 Hstack0 c s d id c1 H Er) as (H1 & _).
  destruct (_ <? _); [intros [= <- <-]; exact H1|apply IH, H1].
Qed.
End Build.

(** ** The initial context *)

(** The stack as the run sees it, through the carried-in permutation. *)
Definition logical (perm : option (list Z)) (s : fpu) : fpu :=
  match perm with
  | None => s
  | Some p => with_stack s (map (fun d => nth (Z.to_nat d) (stack s) None) p) (top s)
  end.

Definition start_context (perm : option (list Z)) (promote : bool) : Context :=
  let c := with_const_promote Context_init promote in
  match perm with
  | None => c
  | Some p => with_slots c (map (fun x => - (x + 1)) p) (top_delta c)
  end.

(** The permutation as an array, identity by default. *)
Definition perm_array (perm : option (list Z)) : list Z :=
  match perm with Some p => p | None => [0; 1; 2; 3; 4; 5; 6; 7] end.

Lemma start_slots perm promote :
  start_context perm promote =
  with_slots (with_const_promote Context_init promote) (map (fun x => - (x + 1)) (perm_array perm)) 0.
Proof. destruct perm; reflexivity. Qed.

Lemma logical_stack perm s : length (stack s) = 8%nat ->
  stack (logical perm s) = map (fun d => nth (Z.to_nat d) (stack s) None) (perm_array perm).
Proof.
  intros Hl. destruct perm; [reflexivity|]. cbn [logical perm_array].
  destruct (stack s) as [|x0 [|x1 [|x2 [|x3 [|x4 [|x5 [|x6 [|x7 [|x8 l]]]]]]]]]; try discriminate. reflexivity.
Qed.

Lemma perm_array_ok perm : perm_ok perm ->
  length (perm_array perm) = 8%nat /\ Forall (fun d => 0 <= d < 8) (perm_array perm).
Proof. destruct perm; [auto|]. intros _. split; [reflexivity|repeat constructor; lia]. Qed.

Lemma rel_start segbase s nzcv perm promote :
  length (stack s) = 8%nat -> 0 <= top s < 8 -> perm_ok perm ->
  rel segbase s nzcv (stack s) (start_context perm promote) (logical perm s).
Proof.
  intros Hl Ht Hp. destruct (perm_array_ok perm Hp) as [Hpl Hpr]. pose proof (logical_stack perm s Hl) as El.
  assert (Hd : forall d, 0 <= d < 8 -> 0 <= nth (Z.to_nat d) (perm_array perm) 0 < 8 /\
    slot (start_context perm promote) d = - (nth (Z.to_nat d) (perm_array perm) 0 + 1)).
  { intros d Hd. split.
    - apply (proj1 (Forall_forall _ _) Hpr), nth_In. lia.
    - rewrite start_slots. unfold slot, zget. cbn [slot_val with_slots].
      rewrite nth_indep with (d' := (fun x => - (x + 1)) 0) by (rewrite length_map; lia).
      apply (map_nth (fun x => - (x + 1))). }
  constructor; try (rewrite start_slots; destruct perm; reflexivity).
  - rewrite start_slots. cbn [slot_val with_slots]. rewrite length_map. exact Hpl.
  - rewrite El, length_map. exact Hpl.
  - rewrite start_slots. cbn [top_delta with_slots]. rewrite Z.add_0_r.
    transitivity (top s); [apply Z.mod_small, Ht|destruct perm; reflexivity].
  - unfold flags_rel. rewrite start_slots. destruct perm; cbn; auto.
  - intros d x Hdr. destruct (Hd d Hdr) as [Hn ->]. unfold st. rewrite El.
    rewrite nth_indep with (d' := (fun d => nth (Z.to_nat d) (stack s) None) 0) by (rewrite length_map; lia).
    rewrite (map_nth (fun d => nth (Z.to_nat d) (stack s) None)). intros <-.
    unfold sv, slot_value. set (k := nth _ _ 0) in *.
    rewrite (proj2 (Z.leb_gt 0 _)) by lia. rewrite (proj2 (Z.leb_le (-8) _)) by lia. f_equal. lia.
  - intros d Hdr. destruct (Hd d Hdr) as [Hn ->]. pose proof (num_nonneg (start_context perm promote)). lia.
Qed.

Lemma inv_start segbase ro host_mem s nzcv perm promote :
  length (stack s) = 8%nat -> 0 <= top s < 8 -> perm_ok perm ->
  (forall a, ro a = true -> u8 (gmem s a) = u8 (host_mem a)) ->
  inv segbase ro host_mem s nzcv (stack s) (start_context perm promote) (logical perm s).
Proof.
  intros Hl Ht Hp Hro. pose proof (rel_start segbase s nzcv perm promote Hl Ht Hp) as R.
  assert (Eg : gmem (logical perm s) = gmem s) by (destruct perm; reflexivity).
  split; [constructor|]; rewrite ?Eg; try exact R; try exact Hro; rewrite start_slots in *.
  - reflexivity.
  - intros d Hd H0. exfalso. cbn [initial_read with_slots with_const_promote Context_init] in H0.
    unfold zget in H0. rewrite nth_repeat_lt in H0 by lia. lia.
  - constructor.
  - intros id Hid. change (num_nodes _) with 0 in Hid. lia.
  - intros Hz. exfalso. apply Hz. reflexivity.
  - intros Hz. exfalso. apply Hz. reflexivity.
  - constructor.
  - intros Hz. exfalso. apply Hz. reflexivity.
  - constructor.
Qed.

(** ** The refinement *)

(** [r] is the state [s'], register by register where [s'] defines one. *)
Record implements (s' r : fpu) : Prop := {
  im_len : length (stack r) = 8%nat;
  im_stack : forall d x, 0 <= d < 8 -> st s' d = Some x -> st r d = Some x;
  im_top : top r = top s';
  im_sw : sw r = sw s';
  im_cw : cw r = cw s';
  im_flags : zf r = zf s' /\ pf r = pf s' /\ cf r = cf s';
  im_regs : regs r = regs s';
  im_mem : gmem r = gmem s'
}.

Lemma rel_implements segbase s nzcv c s' :
  rel segbase s nzcv (stack s) c s' -> implements s' (ir_result c s (eval_context segbase c s nzcv)).
Proof.
  intros [Hl1 Hl2 Hr Hm Hc Hw Ht Hf Hs Hv]. change (E segbase s nzcv (stack s) c) with (eval_context segbase c s nzcv) in *.
  unfold sv, flags_rel, flags_of in *.
  change (E segbase s nzcv (stack s) c) with (eval_context segbase c s nzcv) in *.
  constructor; cbn [ir_result stack top sw cw zf pf cf regs gmem]; try assumption.
  - rewrite length_map. exact Hl1.
  - intros d x Hd Hx. unfold st. cbn [ir_result stack].
    rewrite nth_indep with (d' := slot_value (stack s) (eval_context segbase c s nzcv) 0)
      by (rewrite length_map; lia).
    rewrite map_nth. apply (Hs d x Hd Hx).
  - destruct (last_fcomi c <? 0); destruct Hf as (H1 & H2 & H3); rewrite H1, H2, H3; auto.
Qed.

(** Where a mapping is read-only, its bytes are the translator's own. *)
Definition host_agrees (ro : Z -> bool) (range_is_readonly : Z -> Z -> bool) (host_mem : mem) (s : fpu) : Prop :=
  (forall a n, range_is_readonly a n = true -> forall x, a <= x < a + n -> ro x = true) /\
  (forall a, ro a = true -> u8 (gmem s a) = u8 (host_mem a)).

Record machine_ok (s : fpu) : Prop := {
  mo_len : length (stack s) = 8%nat;
  mo_top : 0 <= top s < 8;
  mo_stack : stack_ok (stack s)
}.

Lemma build_rel segbase ro host_mem range_is_readonly transparent_int nzcv s instrs start n perm promote ok c :
  machine_ok s -> host_agrees ro range_is_readonly host_mem s -> perm_ok perm -> Z.of_nat n < 2 ^ 15 ->
  build range_is_readonly host_mem transparent_int instrs start n perm promote = Some (ok, c) ->
  forall s', exec_all segbase ro (logical perm s) (firstn (Z.to_nat (consumed c)) (skipn start instrs)) = Some s' ->
  rel segbase s nzcv (stack s) c s'.
Proof.
  intros [Hl Ht Hst] [Hro Hhost] Hp Hn. unfold build. cbv zeta.
  set (r := match perm with Some _ => _ | None => _ end).
  assert (G : inv segbase ro host_mem s nzcv (stack s) (snd r) (logical perm s) /\
    wf (snd r) /\ consumed (snd r) = 0).
  { pose proof (inv_start segbase ro host_mem s nzcv perm promote Hl Ht Hp Hhost) as I.
    pose proof (context_init_wf promote) as W0. unfold r. destruct perm as [p|]; [|exact (conj I (conj W0 eq_refl))].
    destruct Hp as [Hpl Hp]. pose proof (wf_perm _ p W0 Hpl Hp) as A.
    change (with_slots _ _ _) with (start_context (Some p) promote) in A |- *.
    destruct (resolve_perm (start_context (Some p) promote) p 0) as [b c1] eqn:Er.
    pose proof (resolve_perm_does p _ 0 (ext_wf _ _ A)) as [B _ C]. rewrite Er in B, C. cbn [snd] in *.
    split; [|split; [exact B|rewrite C; apply A]].
    exact (resolve_perm_spec segbase ro host_mem s nzcv (stack s) Hst p _ _ 0 b c1 I Er). }
  destruct r as [b c1]. cbn [snd] in G. destruct G as (I1 & W1 & E1). destruct b.
  - destruct (build_loop _ _ _ c1 _ 0) as [c2|] eqn:Eb; [|discriminate]. intros [= _ <-] s' Hx.
    destruct (build_loop_spec segbase ro host_mem s nzcv (stack s) range_is_readonly transparent_int Hst Hro
      _ c1 (logical perm s) 0 c2 I1 W1 E1 Eb) as (k & Hk & Hc & Hrel).
    apply Hrel. pose proof (firstn_le_length n (skipn start instrs)) as Hlen.
    rewrite s16_small in Hc by lia. rewrite Hc in Hx. rewrite firstn_firstn.
    replace (Nat.min k n) with (Z.to_nat (0 + Z.of_nat k)) by lia. exact Hx.
  - intros [= _ <-] s' Hx. rewrite E1 in Hx. injection Hx as <-. apply I1.
Qed.

(** C2: compiling a run preserves its meaning.  Whatever the instructions
    and the carried-in permutation of the stack, if the instructions the
    builder consumed take the machine to [s'], then running the nodes it
    built and writing back the symbolic stack leaves that state: the same
    registers, memory, top of stack, status word, control word and x86 flags,
    and every stack register [s'] defines.  Constants promoted from
    read-only memory, the memory value cache, the narrowing and constant
    caches and the inlined integer instructions are all covered. *)
Theorem build_refines segbase ro host_mem range_is_readonly transparent_int nzcv s instrs start n perm promote ok c :
  machine_ok s -> host_agrees ro range_is_readonly host_mem s -> perm_ok perm -> Z.of_nat n < 2 ^ 15 ->
  build range_is_readonly host_mem transparent_int instrs start n perm promote = Some (ok, c) ->
  forall s', exec_all segbase ro (logical perm s) (firstn (Z.to_nat (consumed c)) (skipn start instrs)) = Some s' ->
  implements s' (ir_result c s (eval_context segbase c s nzcv)).
Proof.
  intros Hm Hh Hp Hn Hb s' Hx. apply rel_implements.
  exact (build_rel segbase ro host_mem range_is_readonly transparent_int nzcv s instrs start n perm promote
    ok c Hm Hh Hp Hn Hb s' Hx).
Qed.

(** fld dword [rax]; fadd st(0), st(2); mov ecx, 7; fstp qword [rax+8];
    fld qword [rax+8]; fcomip st(0), st(1); fstsw ax, with ST(0) and ST(1)
    exchanged and 1.5f at the address in rax. *)
Definition run_prog : list IRInstr :=
  let st i := mkOperand 0 2 (0x70 + i) 0 0 0 0 0 0 in
  let r32 i := mkOperand 0 2 (0x20 + i) 0 0 0 0 0 0 in
  let m sz d := mkOperand 1 sz 3 0 1 0 0 0 d in
  [ mkInstr kOpcodeName.fld 1 [m 2 0]; mkInstr kOpcodeName.fadd 2 [st 0; st 2];
    mkInstr kOpcodeName.mov 2 [r32 1; mkOperand 3 2 0 0 0 0 0 0 7];
    mkInstr kOpcodeName.fstp 1 [m 3 8]; mkInstr kOpcodeName.fld 1 [m 3 8];
    mkInstr kOpcodeName.fcomip 2 [st 0; st 1];
    mkInstr kOpcodeName.fstsw 1 [mkOperand 0 1 0x10 0 0 0 0 0 0] ].

Definition run_state : fpu :=
  mkFpu [Some f_one; Some 0x4000000000000000; None; None; None; None; None; None] 6 0 0x37F
    false false false (fun r => if r =? 0 then 0x1000 else 0)
    (store 4 (fun _ => 0) 0x1000 0x3FC00000).

Definition run_perm : option (list Z) := Some [1; 0; 2; 3; 4; 5; 6; 7].

Definition run_ctx : Context :=
  match build (fun _ _ => false) (fun _ => 0) true run_prog 0 7 run_perm false with
  | Some (_, c) => c | None => Context_init end.

Example run_ctx_built :
  (consumed run_ctx, num_nodes run_ctx) = (7, 9) /\
  match exec_all (fun _ => 0) (fun _ => false) (logical run_perm run_state) run_prog with
  | Some s => (nth 0 (stack s) None, cf s, regs s 1, load 8 (gmem s) 0x1008)
  | None => (None, false, 0, 0) end = (Some 0x4000000000000000, false, 7, 0x4004000000000000).
Proof. split; vm_compute; reflexivity. Qed.

Definition run_final : fpu :=
  match exec_all (fun _ => 0) (fun _ => false) (logical run_perm run_state) (firstn 7 run_prog) with
  | Some s => s | None => run_state end.

Lemma build_refines_witness :
  implements run_final (ir_result run_ctx run_state (eval_context (fun _ => 0) run_ctx run_state 0)).
Proof.
  apply (build_refines (fun _ => 0) (fun _ => false) (fun _ => 0) (fun _ _ => false) true 0 run_state
    run_prog 0 7 run_perm false true run_ctx).
  - constructor; [reflexivity|cbn; lia|]. repeat constructor; vm_compute; intuition discriminate.
  - split; [discriminate|discriminate].
  - split; [reflexivity|repeat constructor; lia].
  - reflexivity.
  - vm_compute. reflexivity.
  - replace (consumed run_ctx) with 7 by (vm_compute; reflexivity).
    assert (G : forall o d, (match o with Some _ => true | None => false end) = true ->
      o = Some (match o with Some x => x | None => d end :> fpu)) by (intros [x|] d H; [reflexivity|discriminate]).
    apply G. vm_compute. reflexivity.
Defined.
