(* ===== verification/X87IROptimize.v ===== *)
(** X87IROptimize.cpp: the passes over a built run.  The node array is updated
    in place, node by node; a use count is a list of [kMaxNodes] integers.
    The options [fast_recip_div], [f32_narrow] and [f32_arith] of the
    configuration are parameters. *)

From S2P Require Import Prelude F64 IROperand X87IR.

(** [for (i = 0; i < num_nodes; i++)] and its downward form. *)
Definition indices (c : Context) : list Z := map Z.of_nat (seq 0 (length (nodes c))).

Definition with_input (n : Node) (j v : Z) : Node := with_inputs n (zset (inputs n) j v).
Definition set_flag (n : Node) (f : Z) : Node := with_flags n (Z.lor (flags n) f).
Definition has_flag (n : Node) (f : Z) : bool := nz (Z.land (flags n) f).

(** [nodes[i].flags |= kDead]. *)
Definition kill (c : Context) (i : Z) : Context := set_node c i (fun n => set_flag n kDead).

Definition in_nodes (c : Context) (i : Z) : bool := (0 <=? i) && (i <? num_nodes c).

(** ** Use counts *)

Definition bump (uc : list Z) (x d : Z) : list Z := zset uc x (zget uc x + d).

(** [if (x >= 0) use_count[x] += d]. *)
Definition bump_id (d : Z) (uc : list Z) (x : Z) : list Z := if 0 <=? x then bump uc x d else uc.

Definition use_counts (c : Context) : list Z :=
  let uc := fold_left (fun uc v => if in_nodes c v then bump uc v 1 else uc)
              (slot_val c) (repeat 0 (Z.to_nat kMaxNodes)) in
  fold_left (fun uc n => if dead n then uc else fold_left (bump_id 1) (inputs n) uc) (nodes c) uc.

(** ** Pass 0: dead compares *)

Definition dead_compares_step (s : Context * bool) (i : Z) : Context * bool :=
  let '(c, overwritten) := s in
  let n := node c i in
  if dead n then s
  else match op n with
  | FStsw => (c, false)
  | FCmp | FTst => if overwritten then (kill c i, true) else (c, true)
  | _ => s
  end.

Definition pass_dead_compares (c : Context) : Context :=
  fst (fold_left dead_compares_step (rev (indices c)) (c, false)).

(** ** Pass 0.5: constant arithmetic *)

Definition const_is (c : Context) (id : Z) (alias_op : option Op) (f64_bits : Z) : bool :=
  if negb (in_nodes c id) then false
  else
    let cn := node c id in
    if dead cn then false
    else if match alias_op with Some o => Op_eqb (op cn) o | None => false end then true
    else Op_eqb (op cn) ConstF64 && (imm_bits cn =? f64_bits).

Definition redirect (i keep v : Z) : Z := if v =? i then keep else v.

(** Replace every use of node [i] with [keep]. *)
Definition replace_uses (c : Context) (i keep : Z) : Context :=
  let c := with_nodes c (map (fun u => if dead u then u else with_inputs u (map (redirect i keep) (inputs u)))
                             (nodes c)) in
  with_slots c (map (redirect i keep) (slot_val c)) (top_delta c).

Definition fold_to (c : Context) (uc : list Z) (i keep cidx : Z) : Context * list Z :=
  let c := replace_uses c i keep in
  let uc := zset uc keep (zget uc keep + zget uc i - 1) in
  let uc := zset uc i 0 in
  let c := kill c i in
  let uc := bump uc cidx (-1) in
  (if zget uc cidx =? 0 then kill c cidx else c, uc).

Definition kOneBits : Z := 0x3FF0000000000000.
Definition kMZeroBits : Z := 0x8000000000000000.

(** The operand an identity keeps and the constant it drops. *)
Definition identity_fold (c : Context) (n : Node) : option (Z * Z) :=
  if (Op_eqb (op n) FMul || Op_eqb (op n) FDiv) && const_is c (input n 1) (Some ConstOne) kOneBits
  then Some (input n 0, input n 1)
  else if Op_eqb (op n) FMul && const_is c (input n 0) (Some ConstOne) kOneBits
  then Some (input n 1, input n 0)
  else if Op_eqb (op n) FSub && const_is c (input n 1) (Some ConstZero) 0
  then Some (input n 0, input n 1)
  else if Op_eqb (op n) FAdd && const_is c (input n 1) None kMZeroBits
  then Some (input n 0, input n 1)
  else None.

Section Options.
Context (fast_recip_div : bool).

(** The reciprocal a constant divisor is replaced by. *)
Definition reciprocal (b : Z) : option Z :=
  let exp := Z.land (Z.shiftr b 52) 0x7FF in
  if (Z.land b 0x000FFFFFFFFFFFFF =? 0) && (1 <=? exp) && (exp <=? 2045) then
    Some (Z.lor (Z.land b 0x8000000000000000) (Z.shiftl (2046 - exp) 52))
  else if fast_recip_div && (1 <=? exp) && (exp <=? 2046) then
    let rb := fdiv f64 f_one b in
    let rexp := Z.land (Z.shiftr rb 52) 0x7FF in
    if (1 <=? rexp) && (rexp <=? 2046) then Some rb else None
  else None.

Definition recip_step (c : Context) (uc : list Z) (i : Z) : Context * list Z :=
  let k := input (node c i) 1 in
  if negb (in_nodes c k) then (c, uc)
  else
    let cn := node c k in
    if negb (Op_eqb (op cn) ConstF64) || dead cn || negb (zget uc k =? 1) then (c, uc)
    else match reciprocal (imm_bits cn) with
    | Some r =>
        (set_node (set_node c k (fun n => with_data n (PImm r))) i (fun n => with_op n FMul), uc)
    | None => (c, uc)
    end.

Definition test_step (c : Context) (uc : list Z) (i : Z) : Context * list Z :=
  let k := input (node c i) 1 in
  if negb (in_nodes c k) then (c, uc)
  else
    let cn := node c k in
    if dead cn then (c, uc)
    else if negb (Op_eqb (op cn) ConstZero ||
                  Op_eqb (op cn) ConstF64 && (u64 (Z.shiftl (imm_bits cn) 1) =? 0)) then (c, uc)
    else
      let c := set_node c i (fun n => with_input (with_op n FTst) 1 (-1)) in
      let uc := bump uc k (-1) in
      (if zget uc k =? 0 then kill c k else c, uc).

Definition const_arith_step (s : Context * list Z) (i : Z) : Context * list Z :=
  let '(c, uc) := s in
  let n := node c i in
  if dead n then s
  else
    let rest :=
      match op n with
      | FDiv => recip_step c uc i
      | FCmp => test_step c uc i
      | _ => s
      end in
    match identity_fold c n with
    | Some (keep, cidx) => if 0 <=? keep then fold_to c uc i keep cidx else rest
    | None => rest
    end.

Definition pass_const_arith (c : Context) : Context :=
  fst (fold_left const_arith_step (indices c) (c, use_counts c)).
End Options.

(** ** Pass 1: dead nodes *)

Definition has_effect (o : Op) : bool :=
  match o with
  | StoreF64 | StoreF32Raw | StoreI16 | StoreI32 | StoreI64
  | FCmp | FTst | FStsw | FComI | StoreCW | LoadCW
  | GuestMovRR | GuestMovRI | GuestLea | GuestExt | GuestLoad | GuestStoreR | GuestStoreI => true
  | _ => false
  end.

Definition dse_step (s : Context * list Z) (i : Z) : Context * list Z :=
  let '(c, uc) := s in
  let n := node c i in
  if dead n then s
  else if has_effect (op n) then s
  else if zget uc i =? 0 then (kill c i, fold_left (bump_id (-1)) (inputs n) uc)
  else s.

(** Two backward sweeps, the second for what the first one uncovered. *)
Definition pass_dse (c : Context) : Context :=
  let s := fold_left dse_step (rev (indices c)) (c, use_counts c) in
  fst (fold_left dse_step (rev (indices c)) s).

(** ** Pass 1.5: FNeg folding *)

Definition single_use_op (c : Context) (uc : list Z) (id : Z) (o : Op) : bool :=
  in_nodes c id && Op_eqb (op (node c id)) o && negb (dead (node c id)) && (zget uc id =? 1).

Definition fneg_fold_step (s : Context * list Z) (i : Z) : Context * list Z :=
  let '(c, uc) := s in
  let n := node c i in
  if dead n then s
  else
    let in0 := input n 0 in
    let in1 := input n 1 in
    match op n with
    | FAdd | FSub =>
        if single_use_op c uc in1 FNeg then
          let y := input (node c in1) 0 in
          let c := set_node c i (fun n => with_input (with_op n (if Op_eqb (op n) FAdd then FSub else FAdd)) 1 y) in
          (kill c in1, bump_id 1 (zset uc in1 0) y)
        else if Op_eqb (op n) FAdd && single_use_op c uc in0 FNeg then
          let x := input (node c in0) 0 in
          let c := set_node c i (fun n => with_input (with_input (with_op n FSub) 0 in1) 1 x) in
          (kill c in0, bump_id 1 (zset uc in0 0) x)
        else s
    | FNeg =>
        if single_use_op c uc in0 FMul then
          let a := input (node c in0) 0 in
          let b := input (node c in0) 1 in
          let c := set_node c i (fun n => with_input (with_input (with_op n FNMul) 0 a) 1 b) in
          (kill c in0, bump_id 1 (bump_id 1 (zset uc in0 0) a) b)
        else s
    | _ => s
    end.

Definition pass_fneg_fold (c : Context) : Context :=
  fst (fold_left fneg_fold_step (indices c) (c, use_counts c)).

(** ** Pass 2: FMA *)

(** Fuse the product at input [j] of node [i], the other input the addend;
    [f32] restricts to single-precision nodes. *)
Definition try_fuse (single : bool) (c : Context) (uc : list Z) (i j : Z) : option (Context * list Z) :=
  let n := node c i in
  let mul_id := input n j in
  let other_id := input n (1 - j) in
  if negb (in_nodes c mul_id) then None
  else
    let mul := node c mul_id in
    if negb (Op_eqb (op mul) FMul) || (single && negb (has_flag mul kF32)) then None
    else if dead mul then None
    else if negb (zget uc mul_id =? 1) then None
    else
      let fma_op := if Op_eqb (op n) FAdd then FMAdd else if j =? 0 then FNMSub else FMSub in
      let a := input mul 0 in
      let b := input mul 1 in
      let c := set_node c i (fun n => with_inputs (with_op n fma_op) [a; b; other_id]) in
      Some (kill c mul_id, bump_id 1 (bump_id 1 (zset uc mul_id 0) a) b).

Definition fma_step (single : bool) (s : Context * list Z) (i : Z) : Context * list Z :=
  let '(c, uc) := s in
  let n := node c i in
  if dead n then s
  else if single && negb (has_flag n kF32) then s
  else if negb (Op_eqb (op n) FAdd) && negb (Op_eqb (op n) FSub) then s
  else match try_fuse single c uc i 0 with
  | Some s' => s'
  | None => match try_fuse single c uc i 1 with Some s' => s' | None => s end
  end.

Definition pass_fma (c : Context) : Context :=
  fst (fold_left (fma_step false) (indices c) (c, use_counts c)).
Definition pass_f32_fma (c : Context) : Context :=
  fst (fold_left (fma_step true) (indices c) (c, use_counts c)).

(** ** Pass 2.5: f32 narrowing *)

Definition f32_narrowable_op (o : Op) : option Z :=
  match o with
  | FAdd | FSub | FMul | FDiv | FNMul => Some 2
  | FNeg | FAbs | FSqrt => Some 1
  | _ => None
  end.

(** The raw-f32 node under a live widening. *)
Definition widened (c : Context) (id : Z) : option Z :=
  if in_nodes c id && Op_eqb (op (node c id)) CvtF32ToF64 && negb (dead (node c id))
  then Some (input (node c id) 0) else None.

(** An input of the narrowed node loses one use, its raw source gains one. *)
Definition release (s : Context * list Z) (e : Z * Z) : Context * list Z :=
  let '(c, uc) := s in
  let '(wide, raw) := e in
  let uc := bump uc wide (-1) in
  (if zget uc wide =? 0 then kill c wide else c, bump uc raw 1).

Definition f32_narrow_step (s : Context * list Z) (i : Z) : Context * list Z :=
  let '(c, uc) := s in
  let cn := node c i in
  if dead cn then s
  else if negb (Op_eqb (op cn) CvtF64ToF32) then s
  else
    let x := input cn 0 in
    if negb (in_nodes c x) then s
    else
      let xn := node c x in
      if dead xn || has_flag xn kF32 then s
      else match f32_narrowable_op (op xn) with
      | None => s
      | Some nin =>
          if negb (zget uc x =? 1) then s
          else
            let w0 := input xn 0 in
            let w1 := input xn 1 in
            match widened c w0, (if nin =? 2 then widened c w1 else Some (-1)) with
            | Some r0, Some r1 =>
                let c := set_node c i (fun n =>
                           with_input (with_input (set_flag (with_op n (op xn)) kF32) 0 r0) 1 r1) in
                let c := kill c x in
                let uc := zset uc x 0 in
                fold_left release (if nin =? 2 then [(w0, r0); (w1, r1)] else [(w0, r0)]) (c, uc)
            | _, _ => s
            end
      end.

Definition pass_f32_narrow (c : Context) : Context :=
  fst (fold_left f32_narrow_step (indices c) (c, use_counts c)).

(** ** Pass 2.6: f32 chains *)

Definition is_elig (elig : list bool) (i : Z) : bool := (0 <=? i) && nth (Z.to_nat i) elig false.
Definition drop_elig (elig : list bool) (i : Z) : list bool := list_set elig (Z.to_nat i) false.

Definition narrowable_inputs (n : Node) : list Z :=
  match f32_narrowable_op (op n) with Some nin => firstn (Z.to_nat nin) (inputs n) | None => [] end.

Definition chain_candidates (c : Context) : list bool :=
  map (fun n => negb (has_flag n (Z.lor kDead kF32)) &&
                match f32_narrowable_op (op n) with Some _ => true | None => false end) (nodes c).

Definition chain_input_ok (c : Context) (elig : list bool) (v : Z) : bool :=
  in_nodes c v && negb (dead (node c v)) &&
  (Op_eqb (op (node c v)) CvtF32ToF64 || has_flag (node c v) kF32 ||
   Op_eqb (op (node c v)) ConstZero || is_elig elig v).

(** One node of a sweep, with the [changed] flag. *)
Definition chain_step (c : Context) (s : list bool * bool) (i : Z) : list bool * bool :=
  let '(elig, changed) := s in
  let n := node c i in
  if dead n then s
  else
    let '(elig, changed) :=
      if is_elig elig i && negb (forallb (chain_input_ok c elig) (narrowable_inputs n))
      then (drop_elig elig i, true) else (elig, changed) in
    if Op_eqb (op n) CvtF64ToF32 || is_elig elig i then (elig, changed)
    else fold_left (fun s v =>
           let '(elig, changed) := s in
           if in_nodes c v && is_elig elig v then (drop_elig elig v, true) else s)
         (inputs n) (elig, changed).

Definition chain_sweep (c : Context) (elig : list bool) : list bool * bool :=
  fold_left (chain_step c) (indices c) (elig, false).

(** [while (changed)]. *)
Fixpoint chain_fix (fuel : nat) (c : Context) (elig : list bool) : option (list bool) :=
  match fuel with
  | O => None
  | S fuel =>
      let '(elig, changed) := chain_sweep c elig in
      if changed then chain_fix fuel c elig else Some elig
  end.

Definition unwrap_widen (c : Context) (v : Z) : Z :=
  if Op_eqb (op (node c v)) CvtF32ToF64 then input (node c v) 0 else v.

Definition chain_flip (elig : list bool) (c : Context) (i : Z) : Context :=
  if is_elig elig i then
    set_node c i (fun n =>
      let k := length (narrowable_inputs n) in
      set_flag (with_inputs n (map (unwrap_widen c) (firstn k (inputs n)) ++ skipn k (inputs n))) kF32)
  else c.

(** A narrowing of a flipped producer is a copy. *)
Definition chain_bypass (elig : list bool) (c : Context) (i : Z) : Context :=
  let n := node c i in
  if dead n then c
  else if negb (Op_eqb (op n) CvtF64ToF32) then c
  else
    let src := input n 0 in
    if negb (in_nodes c src) || negb (is_elig elig src) then c
    else
      kill (with_nodes c (map (fun u => if dead u then u else with_inputs u (map (redirect i src) (inputs u)))
                              (nodes c))) i.

Definition pass_f32_chain (c : Context) : option Context :=
  let elig := chain_candidates c in
  if negb (existsb (fun b => b) elig) then Some c
  else
    let elig := fold_left (fun e v => if in_nodes c v then drop_elig e v else e) (slot_val c) elig in
    match chain_fix (S (length (nodes c))) c elig with
    | None => None
    | Some elig =>
        let c' := fold_left (chain_flip elig) (indices c) c in
        if negb (existsb (fun b => b) elig) then Some c'
        else Some (fold_left (chain_bypass elig) (indices c) c')
    end.

(** ** Pass 3: FCOM + FSTSW fusion *)

Definition fusion_step (c : Context) (i : Z) : Context :=
  let n := node c i in
  if dead n then c
  else if negb (Op_eqb (op n) FStsw) then c
  else
    let fcmp_id := input n 0 in
    let compare m := Op_eqb (op m) FCmp || Op_eqb (op m) FTst in
    if negb (in_nodes c fcmp_id) then c
    else if negb (compare (node c fcmp_id)) then c
    else if existsb (fun j => negb (dead (node c j)) && compare (node c j))
              (map (fun k => fcmp_id + 1 + Z.of_nat k) (seq 0 (Z.to_nat (i - (fcmp_id + 1)))))
    then c
    else set_node (set_node c fcmp_id (fun n => set_flag n kFcomFused)) i (fun n => set_flag n kFcomFused).

Definition pass_fcom_fstsw_fusion (c : Context) : Context := fold_left fusion_step (indices c) c.

(** ** optimize *)

Definition optimize (fast_recip_div f32_narrow f32_arith : bool) (c : Context) : option Context :=
  let c := pass_dead_compares c in
  let c := pass_const_arith fast_recip_div c in
  let c := pass_dse c in
  let c := pass_fneg_fold c in
  let c :=
    if f32_narrow && f32_arith then
      let c := pass_f32_narrow c in
      match pass_f32_chain c with
      | None => None
      | Some c => Some (pass_dse (pass_fma (pass_f32_fma c)))
      end
    else
      let c := pass_fma c in
      Some (if f32_narrow then pass_dse (pass_f32_narrow c) else c) in
  option_map pass_fcom_fstsw_fusion c.
