(* ===== verification/X87IRSim.v ===== *)
(** Passes that rewrite a run in place: what keeps the meaning of a context
    with respect to the evaluation of a base context, and how the use counts
    bound the uses of a node.

    The base fixes the machine state [M i] before each node and the values
    the stack slots end up with.  A context is [consistent] with values [val]
    when each of its live nodes takes [M i] to [M (i + 1)] and has value
    [val i], its operands being live (or of value 0, what a dead node
    evaluates to), and each dead node has no effect to lose.  A rewriting step
    only has to preserve that. *)

From S2P Require Import Prelude F64 GuestMem IROperand X87IR X87IRBuild Fpu X87IREval X87IRInv.
From S2P Require Import X87IRWf X87IROptimize.

(** ** Machine states without values *)

Definition mach (s : ir) : ir := mkIr [] (i_regs s) (i_mem s) (i_cw s) (i_sw s) (i_nzcv s).

Section Sem.
Context (segbase : Z -> Z) (stack0 : list (option Z)) (top0 : Z).

#[local] Abbreviation node_sem := (node_sem segbase stack0 top0).
#[local] Abbreviation eval_node := (eval_node segbase stack0 top0).

(** Only the machine state and the inputs an operation reads matter. *)
Lemma node_sem_ext s s' v v' n :
  mach s = mach s' -> (forall j, 0 <= j < arity (op n) -> v j = v' j) ->
  mach (fst (node_sem s v n)) = mach (fst (node_sem s' v' n)) /\ snd (node_sem s v n) = snd (node_sem s' v' n).
Proof.
  destruct s as [l r m w u z], s' as [l' r' m' w' u' z']. unfold mach. cbn [i_regs i_mem i_cw i_sw i_nzcv].
  intros [= -> -> -> -> ->] Hv. unfold X87IREval.node_sem. cbv zeta. cbn [i_regs i_mem i_cw i_sw i_nzcv].
  destruct (dead n); [split; reflexivity|].
  pose proof (Hv 0) as H0. pose proof (Hv 1) as H1. pose proof (Hv 2) as H2. clear Hv.
  destruct (op n); cbn [arity] in H0, H1, H2;
    rewrite ?H0 by lia; rewrite ?H1 by lia; rewrite ?H2 by lia; split; reflexivity.
Qed.

Lemma mach_mach s : mach (mach s) = mach s.
Proof. reflexivity. Qed.

(** An operation without effect leaves the machine alone. *)
Lemma node_sem_pure s v n : has_effect (op n) = false -> fst (node_sem s v n) = s.
Proof. unfold X87IREval.node_sem. cbv zeta. destruct (dead n); [reflexivity|]. destruct (op n); discriminate || reflexivity. Qed.

Lemma node_sem_dead s v n : dead n = true -> node_sem s v n = (s, 0).
Proof. intros H. unfold X87IREval.node_sem. rewrite H. reflexivity. Qed.

Lemma eval_node_mach s n : mach (eval_node s n) =
  mach (fst (node_sem s (fun j => zget (vals s) (input n j)) n)).
Proof. reflexivity. Qed.

Lemma vals_node_sem s v n : vals (fst (node_sem s v n)) = vals s.
Proof. unfold X87IREval.node_sem. cbv zeta. destruct (dead n); [reflexivity|]. destruct (op n); reflexivity. Qed.

Lemma eval_node_vals_eq s n : vals (eval_node s n) =
  vals s ++ [snd (node_sem s (fun j => zget (vals s) (input n j)) n)].
Proof.
  unfold X87IREval.eval_node. cbv zeta. unfold add_val. cbn [vals]. rewrite vals_node_sem. reflexivity.
Qed.
End Sem.

(** ** Consistency with a base *)

Section Sim.
Context (segbase : Z -> Z) (s0 : fpu) (nzcv0 : Z).

#[local] Abbreviation node_sem := (node_sem segbase (stack s0) (top s0)).
#[local] Abbreviation E := (E segbase s0 nzcv0 (stack s0)).
#[local] Abbreviation V := (V segbase s0 nzcv0 (stack s0)).

Definition prefix (c : Context) (i : Z) : Context := with_nodes c (firstn (Z.to_nat i) (nodes c)).

Lemma prefix_succ c i : 0 <= i < num_nodes c -> prefix c (i + 1) = append (prefix c i) (node c i).
Proof.
  intros H. unfold num_nodes in H. unfold prefix, append, node. cbn [nodes with_nodes].
  replace (Z.to_nat (i + 1)) with (S (Z.to_nat i)) by lia.
  assert (G : forall k (l : list Node), (k < length l)%nat -> firstn (S k) l = firstn k l ++ [nth k l null_node]).
  { clear. induction k as [|k IH]; intros [|a l] H; cbn [length] in H; try lia; [reflexivity|].
    cbn [firstn nth app]. f_equal. apply IH. lia. }
  rewrite G by lia. reflexivity.
Qed.

Lemma prefix_all c : prefix c (num_nodes c) = c.
Proof. unfold prefix, num_nodes. rewrite Nat2Z.id, firstn_all. destruct c; reflexivity. Qed.

Lemma num_prefix c i : 0 <= i <= num_nodes c -> num_nodes (prefix c i) = i.
Proof. intros H. unfold num_nodes in *. unfold prefix. cbn [nodes with_nodes]. rewrite length_firstn. lia. Qed.

Lemma mono_prefix c i : mono (prefix c i) c.
Proof. exists (skipn (Z.to_nat i) (nodes c)). unfold prefix. cbn [nodes with_nodes]. symmetry. apply firstn_skipn. Qed.

Lemma E_succ c i : 0 <= i < num_nodes c ->
  E (prefix c (i + 1)) = eval_node segbase (stack s0) (top s0) (E (prefix c i)) (node c i).
Proof. intros H. rewrite prefix_succ, E_append by exact H. reflexivity. Qed.

(** The base, and the machine states between its nodes. *)
Context (base : Context).

Definition M (i : Z) : ir := mach (E (prefix base i)).

Definition ref_ok (c : Context) (val : Z -> Z) (k : Z) : Prop := dead (node c k) = false \/ val k = 0.

Record node_good (c : Context) (val : Z -> Z) (i : Z) : Prop := {
  ng_sem : dead (node c i) = false ->
    let r := node_sem (M i) (fun j => val (input (node c i) j)) (node c i) in
    mach (fst r) = M (i + 1) /\ snd r = val i;
  ng_dead : dead (node c i) = true -> M (i + 1) = M i;
  ng_refs : dead (node c i) = false -> forall j, 0 <= j < arity (op (node c i)) ->
    0 <= input (node c i) j < i /\ ref_ok c val (input (node c i) j)
}.

(** The value of a slot, as [slot_value] with [val] for the values. *)
Definition slot_val_of (val : Z -> Z) (v : Z) : option Z :=
  if 0 <=? v then Some (val v)
  else if -8 <=? v then nth (Z.to_nat (- (v + 1))) (stack s0) None
  else None.

Definition slot_good (c : Context) (val : Z -> Z) (d : Z) : Prop :=
  slot_val_of val (slot c d) = slot_value (stack s0) (E base) (slot base d) /\
  (0 <= slot c d -> slot c d < num_nodes c /\ ref_ok c val (slot c d)).

Record consistent (c : Context) (val : Z -> Z) : Prop := {
  cs_num : num_nodes c = num_nodes base;
  cs_slots : length (slot_val c) = length (slot_val base);
  cs_top : top_delta c = top_delta base;
  cs_fcomi : last_fcomi c = last_fcomi base;
  cs_nodes : forall i, 0 <= i < num_nodes c -> node_good c val i;
  cs_slot : forall d, 0 <= d < Z.of_nat (length (slot_val c)) -> slot_good c val d
}.

(** *** A well-formed context is consistent with itself *)

Lemma V_prefix c i k : 0 <= k < i -> i <= num_nodes c -> V (prefix c i) k = V c k.
Proof.
  intros Hk Hi. symmetry. apply V_mono; [apply mono_prefix|]. rewrite num_prefix; lia.
Qed.

Lemma V_at c i : 0 <= i < num_nodes c ->
  V c i = snd (node_sem (E (prefix c i)) (fun j => V (prefix c i) (input (node c i) j)) (node c i)).
Proof.
  intros Hi. rewrite <- (V_prefix c (i + 1) i) by lia. unfold X87IRInv.V at 1. rewrite E_succ by exact Hi.
  rewrite eval_node_vals_eq. unfold zget at 1. rewrite app_nth2; rewrite vals_length; fold (num_nodes (prefix c i)).
  - replace (Z.to_nat i - length (nodes (prefix c i)))%nat with 0%nat; [reflexivity|].
    pose proof (num_prefix c i ltac:(lia)) as H. unfold num_nodes in H. lia.
  - pose proof (num_prefix c i ltac:(lia)) as H. unfold num_nodes in H. lia.
Qed.

Lemma consistent_base : wf base -> consistent base (V base).
Proof.
  intros W. constructor; try reflexivity.
  - intros i Hi. pose proof (wf_nodes base W i Hi) as [_ Hids _].
    assert (G : mach (fst (node_sem (M i) (fun j => V base (input (node base i) j)) (node base i))) = M (i + 1) /\
      snd (node_sem (M i) (fun j => V base (input (node base i) j)) (node base i)) = V base i).
    { rewrite (V_at base i Hi). unfold M at 2. rewrite E_succ by exact Hi. rewrite eval_node_mach.
      apply node_sem_ext; [reflexivity|]. intros j Hj. symmetry. apply V_prefix; [|lia]. apply Hids, Hj. }
    constructor.
    + intros _. exact G.
    + intros Hd. destruct G as [G _]. rewrite node_sem_dead in G by exact Hd. cbn [fst] in G. rewrite <- G. reflexivity.
    + intros _ j Hj. specialize (Hids j Hj). split; [exact Hids|]. unfold ref_ok.
      destruct (dead (node base (input (node base i) j))) eqn:Ed; [right|left; reflexivity].
      rewrite V_at, node_sem_dead by (assumption || lia). reflexivity.
  - intros d Hd. split; [reflexivity|]. intros H0. split; [|].
    + destruct (wf_slots base W) as [_ Hs]. unfold slot, zget.
      apply (proj1 (Forall_forall _ _) Hs), nth_In. lia.
    + unfold ref_ok. destruct (dead (node base (slot base d))) eqn:Ed; [right|left; reflexivity].
      destruct (wf_slots base W) as [_ Hs]. rewrite V_at, node_sem_dead; [reflexivity|exact Ed|].
      split; [exact H0|]. unfold slot, zget. apply (proj1 (Forall_forall _ _) Hs), nth_In. lia.
Qed.

(** *** A consistent context means what the base means *)

Lemma consistent_prefix c val : consistent c val -> forall n, Z.of_nat n <= num_nodes c ->
  mach (E (prefix c (Z.of_nat n))) = M (Z.of_nat n) /\
  (forall k, 0 <= k < Z.of_nat n -> V c k = if dead (node c k) then 0 else val k).
Proof.
  intros C. induction n as [|n IH]; intros Hn; [split; [reflexivity|lia]|].
  specialize (IH ltac:(lia)). destruct IH as [IHm IHv].
  replace (Z.of_nat (S n)) with (Z.of_nat n + 1) in * by lia. set (i := Z.of_nat n) in *.
  assert (Hi : 0 <= i < num_nodes c) by lia.
  destruct (cs_nodes c val C i Hi) as [Hsem Hdead Hrefs].
  destruct (dead (node c i)) eqn:Ed.
  - split.
    + rewrite E_succ, eval_node_mach, node_sem_dead by assumption. cbn [fst]. rewrite IHm. symmetry. apply Hdead. reflexivity.
    + intros k Hk. destruct (Z.eq_dec k i) as [->|]; [|apply IHv; lia].
      rewrite V_at, node_sem_dead, Ed by assumption. reflexivity.
  - specialize (Hsem eq_refl). cbv zeta in Hsem. specialize (Hrefs eq_refl).
    assert (X : mach (fst (node_sem (E (prefix c i)) (fun j => V (prefix c i) (input (node c i) j)) (node c i))) = M (i + 1) /\
      snd (node_sem (E (prefix c i)) (fun j => V (prefix c i) (input (node c i) j)) (node c i)) = val i).
    { destruct Hsem as [Hs1 Hs2]. rewrite <- Hs1, <- Hs2. apply node_sem_ext; [rewrite IHm; reflexivity|].
      intros j Hj. destruct (Hrefs j Hj) as [Hr Hl]. rewrite V_prefix, IHv by lia.
      destruct Hl as [-> | Hl]; [reflexivity|]. rewrite Hl. match goal with |- context [if ?b then _ else _] => destruct b end; reflexivity. }
    destruct X as [X1 X2]. split.
    + rewrite E_succ, eval_node_mach by exact Hi. exact X1.
    + intros k Hk. destruct (Z.eq_dec k i) as [->|]; [|apply IHv; lia]. rewrite V_at, Ed by exact Hi. exact X2.
Qed.

Lemma consistent_result c val : consistent c val ->
  ir_result c s0 (eval_context segbase c s0 nzcv0) = ir_result base s0 (eval_context segbase base s0 nzcv0).
Proof.
  intros C. destruct (consistent_prefix c val C (length (nodes c)) (Z.le_refl _)) as [Hm Hv].
  fold (num_nodes c) in Hm, Hv. rewrite prefix_all in Hm. rewrite (cs_num c val C) in Hm. unfold M in Hm.
  rewrite prefix_all in Hm. change (E c) with (eval_context segbase c s0 nzcv0) in Hm.
  change (E base) with (eval_context segbase base s0 nzcv0) in Hm.
  unfold ir_result. rewrite (cs_top c val C), (cs_fcomi c val C).
  assert (Hs : map (slot_value (stack s0) (eval_context segbase c s0 nzcv0)) (slot_val c) =
               map (slot_value (stack s0) (eval_context segbase base s0 nzcv0)) (slot_val base)).
  { apply (nth_ext _ _ None None); [rewrite !length_map; apply (cs_slots c val C)|].
    intros d Hd. rewrite length_map in Hd.
    assert (Hd' : 0 <= Z.of_nat d < Z.of_nat (length (slot_val c))) by lia.
    pose proof (cs_slots c val C) as Hlen. destruct (cs_slot c val C (Z.of_nat d) Hd') as [Hsl Href].
    rewrite (nth_indep _ None (slot_value (stack s0) (eval_context segbase c s0 nzcv0) 0)) by (rewrite length_map; lia).
    rewrite (nth_indep _ None (slot_value (stack s0) (eval_context segbase base s0 nzcv0) 0)) by (rewrite length_map; lia).
    rewrite !map_nth. unfold slot, zget in Hsl, Href. rewrite Nat2Z.id in Hsl, Href.
    change (E base) with (eval_context segbase base s0 nzcv0) in Hsl. rewrite <- Hsl.
    unfold slot_value, slot_val_of. destruct (Z.leb_spec 0 (nth d (slot_val c) 0)) as [H0|]; [|reflexivity].
    destruct (Href H0) as [Hlt Hr]. f_equal.
    change (V c (nth d (slot_val c) 0) = val (nth d (slot_val c) 0)). rewrite Hv by lia.
    destruct Hr as [-> | Hr]; [reflexivity|]. rewrite Hr. match goal with |- context [if ?b then _ else _] => destruct b end; reflexivity. }
  unfold mach in Hm. injection Hm as E1 E2 E3 E4 E5. rewrite Hs, E1, E2, E3, E4, E5. reflexivity.
Qed.
End Sim.
