(* ===== verification/X87IRUses.v ===== *)
(** Use counts, and the two rewriting steps the passes are made of: dropping
    an unused node, and absorbing a node into its only user. *)

From S2P Require Import Prelude F64 GuestMem IROperand X87IR X87IRBuild Fpu X87IREval X87IRInv.
From S2P Require Import X87IRWf X87IROptimize X87IRSim.

Lemma Op_eqb_eq a b : Op_eqb a b = true -> a = b.
Proof. unfold Op_eqb. destruct (Op_eq_dec a b); [auto|discriminate]. Qed.

(** ** Counting uses *)

Definition occ (x : Z) (l : list Z) : Z := Z.of_nat (count_occ Z.eq_dec l x).
Definition node_uses (n : Node) (x : Z) : Z := if dead n then 0 else occ x (inputs n).
Definition zsum (l : list Z) : Z := fold_right Z.add 0 l.
Definition uses (c : Context) (x : Z) : Z := occ x (slot_val c) + zsum (map (fun n => node_uses n x) (nodes c)).

Lemma occ_cons x y l : occ x (y :: l) = (if y =? x then 1 else 0) + occ x l.
Proof.
  unfold occ. cbn [count_occ]. destruct (Z.eq_dec y x) as [->|H].
  - rewrite Z.eqb_refl. lia.
  - rewrite (proj2 (Z.eqb_neq y x) H). lia.
Qed.

Lemma occ_nil x : occ x [] = 0.
Proof. reflexivity. Qed.

(** Comparing occurrences in lists given by their elements. *)
Ltac count :=
  rewrite ?occ_cons, ?occ_nil;
  repeat match goal with |- context [?a =? ?b] => destruct (Z.eqb_spec a b) end; lia.

Lemma occ_nonneg x l : 0 <= occ x l.
Proof. unfold occ. lia. Qed.

Lemma occ_in x l : In x l -> 1 <= occ x l.
Proof. intros H. apply (count_occ_In Z.eq_dec) in H. unfold occ. lia. Qed.

Lemma occ_zero x l : occ x l <= 0 -> ~ In x l.
Proof. intros H Hin. apply occ_in in Hin. lia. Qed.

Lemma node_uses_nonneg n x : 0 <= node_uses n x.
Proof. unfold node_uses. destruct (dead n); [lia|apply occ_nonneg]. Qed.

Lemma zsum_nonneg l : Forall (fun x => 0 <= x) l -> 0 <= zsum l.
Proof. induction 1; cbn; [lia|]. change (fold_right Z.add 0 l) with (zsum l). lia. Qed.

Lemma zsum_set {A} (f : A -> Z) l k y d : (k < length l)%nat ->
  zsum (map f (list_set l k y)) = zsum (map f l) - f (nth k l d) + f y.
Proof.
  revert k. induction l as [|a l IH]; intros k H; cbn [length] in H; [lia|].
  destruct k; cbn [list_set map zsum fold_right nth]; fold (zsum (map f l)); [lia|].
  change (fold_right Z.add 0 (map f (list_set l k y))) with (zsum (map f (list_set l k y))).
  rewrite IH by lia. lia.
Qed.

Lemma zsum_ge {A} (f : A -> Z) l k d : (forall a, 0 <= f a) -> (k < length l)%nat -> f (nth k l d) <= zsum (map f l).
Proof.
  intros Hf. revert k. induction l as [|a l IH]; intros k H; cbn [length] in H; [lia|].
  assert (0 <= zsum (map f l)) by (apply zsum_nonneg, Forall_map, Forall_forall; intros; apply Hf).
  destruct k; cbn [map zsum fold_right nth]; fold (zsum (map f l)); [lia|].
  specialize (IH k ltac:(lia)). specialize (Hf a). lia.
Qed.

(** ** Nodes after an update *)

Lemma node_set_eq c i f : 0 <= i < num_nodes c -> node (set_node c i f) i = f (node c i).
Proof. intros H. unfold num_nodes in H. unfold node at 1, set_node. cbn [nodes with_nodes]. apply nth_list_set_eq. lia. Qed.

Lemma node_set_ne c i k f : 0 <= i -> 0 <= k -> i <> k -> node (set_node c i f) k = node c k.
Proof. intros. unfold node at 1, set_node. cbn [nodes with_nodes]. apply nth_list_set_ne. lia. Qed.

Lemma num_set_node c i f : num_nodes (set_node c i f) = num_nodes c.
Proof. unfold num_nodes, set_node. cbn [nodes with_nodes]. rewrite list_set_length. reflexivity. Qed.

Lemma uses_set_node c i f x : 0 <= i < num_nodes c ->
  uses (set_node c i f) x = uses c x - node_uses (node c i) x + node_uses (f (node c i)) x.
Proof.
  intros H. unfold num_nodes in H. unfold uses, set_node. cbn [slot_val nodes with_nodes].
  rewrite (zsum_set (fun n => node_uses n x) (nodes c) (Z.to_nat i) _ null_node) by lia.
  cbv beta. fold (node c i). lia.
Qed.

Lemma uses_nonneg c x : 0 <= uses c x.
Proof.
  unfold uses. pose proof (occ_nonneg x (slot_val c)).
  assert (0 <= zsum (map (fun n => node_uses n x) (nodes c))).
  { apply zsum_nonneg, Forall_map, Forall_forall. intros. apply node_uses_nonneg. }
  lia.
Qed.

Lemma uses_node c i x : 0 <= i < num_nodes c -> node_uses (node c i) x + occ x (slot_val c) <= uses c x.
Proof.
  intros H. unfold num_nodes in H. unfold uses, node.
  pose proof (zsum_ge (fun n => node_uses n x) (nodes c) (Z.to_nat i) null_node
    (fun n => node_uses_nonneg n x) ltac:(lia)) as G. cbv beta in G. lia.
Qed.

Lemma uses_two c i k x : 0 <= i < num_nodes c -> 0 <= k < num_nodes c -> i <> k ->
  node_uses (node c i) x + node_uses (node c k) x + occ x (slot_val c) <= uses c x.
Proof.
  intros Hi Hk Hne.
  pose proof (uses_set_node c i (fun n => set_flag n kDead) x Hi) as E.
  pose proof (uses_node (set_node c i (fun n => set_flag n kDead)) k x ltac:(rewrite num_set_node; lia)) as G.
  rewrite node_set_ne in G by lia. change (slot_val (set_node c i _)) with (slot_val c) in G.
  cbv beta in E. assert (D : node_uses (set_flag (node c i) kDead) x = 0); [|lia].
  unfold node_uses. replace (dead (set_flag (node c i) kDead)) with true; [reflexivity|].
  symmetry. unfold dead, set_flag, nz. cbn [X87IR.with_flags flags]. apply negb_true_iff, Z.eqb_neq. intros C.
  rewrite Z.land_lor_distr_l in C. apply Z.lor_eq_0_iff in C. destruct C as [_ C]. discriminate.
Qed.

Lemma dead_set_flag n : dead (set_flag n kDead) = true.
Proof.
  unfold dead, set_flag, nz. cbn [X87IR.with_flags flags]. apply negb_true_iff, Z.eqb_neq. intros C.
  rewrite Z.land_lor_distr_l in C. apply Z.lor_eq_0_iff in C. destruct C as [_ C]. discriminate.
Qed.

Lemma uses_kill c i x : 0 <= i < num_nodes c -> uses (kill c i) x = uses c x - node_uses (node c i) x.
Proof.
  intros H. unfold kill. rewrite uses_set_node by exact H. unfold node_uses at 2. rewrite dead_set_flag. lia.
Qed.

(** ** The counters *)

Record counted (c : Context) (uc : list Z) : Prop := {
  cd_num : num_nodes c <= kMaxNodes;
  cd_len : length uc = Z.to_nat kMaxNodes;
  cd_le : forall x, 0 <= x < num_nodes c -> uses c x <= zget uc x
}.

Lemma zget_set l i x j : 0 <= i -> 0 <= j < Z.of_nat (length l) ->
  zget (zset l i x) j = if i =? j then x else zget l j.
Proof.
  intros Hi Hj. destruct (Z.eqb_spec i j) as [->|]; [apply zget_zset_eq; lia|apply zget_zset_ne; lia].
Qed.

Lemma zget_bump l i d j : 0 <= i -> 0 <= j < Z.of_nat (length l) ->
  zget (bump l i d) j = zget l j + (if i =? j then d else 0).
Proof. intros Hi Hj. unfold bump. rewrite zget_set by assumption. destruct (Z.eqb_spec i j) as [->|]; lia. Qed.

Lemma bump_length l i d : length (bump l i d) = length l.
Proof. apply zset_length. Qed.

Lemma bump_id_length d l x : length (bump_id d l x) = length l.
Proof. unfold bump_id. destruct (_ <=? _); [apply bump_length|reflexivity]. Qed.

Lemma bump_all_length d xs : forall l, length (fold_left (bump_id d) xs l) = length l.
Proof. induction xs as [|x xs IH]; intros l; [reflexivity|]. cbn [fold_left]. rewrite IH. apply bump_id_length. Qed.

Lemma zget_bump_all d xs : forall l j, 0 <= j < Z.of_nat (length l) ->
  zget (fold_left (bump_id d) xs l) j = zget l j + d * occ j xs.
Proof.
  induction xs as [|x xs IH]; intros l j Hj; cbn [fold_left]; [rewrite occ_nil; lia|].
  rewrite IH by (rewrite bump_id_length; exact Hj). rewrite occ_cons. unfold bump_id.
  destruct (Z.leb_spec 0 x) as [H|H].
  - rewrite zget_bump by assumption. destruct (x =? j); lia.
  - replace (x =? j) with false by (symmetry; apply Z.eqb_neq; lia). lia.
Qed.

Lemma use_counts_ok c : num_nodes c <= kMaxNodes -> counted c (use_counts c).
Proof.
  intros Hn. unfold use_counts.
  set (u0 := repeat 0 (Z.to_nat kMaxNodes)).
  assert (L0 : length u0 = Z.to_nat kMaxNodes) by apply repeat_length.
  assert (Z0 : forall j, zget u0 j = 0) by (intros; apply nth_repeat).
  set (slot_step := fun uc v => if in_nodes c v then bump uc v 1 else uc).
  assert (S1 : forall l u, length u = Z.to_nat kMaxNodes -> length (fold_left slot_step l u) = Z.to_nat kMaxNodes /\
    forall j, 0 <= j < num_nodes c -> zget (fold_left slot_step l u) j = zget u j + occ j l).
  { induction l as [|v l IH]; intros u Lu; cbn [fold_left]; [split; [exact Lu|intros; rewrite occ_nil; lia]|].
    assert (Lv : length (slot_step u v) = Z.to_nat kMaxNodes)
      by (unfold slot_step; destruct (in_nodes c v); [rewrite bump_length|]; exact Lu).
    destruct (IH _ Lv) as [H1 H2]. split; [exact H1|]. intros j Hj. rewrite H2, occ_cons by exact Hj.
    unfold slot_step, in_nodes. destruct (Z.leb_spec 0 v); cbn [andb].
    - destruct (Z.ltb_spec v (num_nodes c)); [rewrite zget_bump by (unfold kMaxNodes in *; lia); destruct (v =? j); lia|].
      replace (v =? j) with false by (symmetry; apply Z.eqb_neq; lia). lia.
    - replace (v =? j) with false by (symmetry; apply Z.eqb_neq; lia). lia. }
  set (node_step := fun uc n => if dead n then uc else fold_left (bump_id 1) (inputs n) uc).
  assert (S2 : forall l u, length u = Z.to_nat kMaxNodes -> length (fold_left node_step l u) = Z.to_nat kMaxNodes /\
    forall j, 0 <= j < num_nodes c -> zget (fold_left node_step l u) j = zget u j + zsum (map (fun n => node_uses n j) l)).
  { induction l as [|n l IH]; intros u Lu; cbn [fold_left]; [split; [exact Lu|intros; cbn; lia]|].
    assert (Lv : length (node_step u n) = Z.to_nat kMaxNodes)
      by (unfold node_step; destruct (dead n); [|rewrite bump_all_length]; exact Lu).
    destruct (IH _ Lv) as [H1 H2]. split; [exact H1|]. intros j Hj. rewrite H2 by exact Hj.
    cbn [map zsum fold_right]. change (fold_right Z.add 0 (map (fun n => node_uses n j) l)) with (zsum (map (fun n => node_uses n j) l)).
    unfold node_step, node_uses at 2. destruct (dead n); [lia|].
    rewrite zget_bump_all by (unfold kMaxNodes in *; lia). lia. }
  destruct (S1 (slot_val c) u0 L0) as [H1 H2]. destruct (S2 (nodes c) _ H1) as [H3 H4].
  constructor; [exact Hn|exact H3|]. intros x Hx. rewrite H4, H2, Z0 by exact Hx. unfold uses. lia.
Qed.

(** ** Steps that keep a context consistent *)

Section Steps.
Context (segbase : Z -> Z) (s0 : fpu) (nzcv0 : Z) (base : Context).

#[local] Abbreviation node_sem := (node_sem segbase (stack s0) (top s0)).
#[local] Abbreviation consistent := (consistent segbase s0 nzcv0 base).
#[local] Abbreviation node_good := (node_good segbase s0 nzcv0 base).
#[local] Abbreviation M := (M segbase s0 nzcv0 base).

(** What a pass keeps as it goes. *)
Record going (c : Context) (val : Z -> Z) (uc : list Z) : Prop := {
  go_consistent : consistent c val;
  go_counted : counted c uc;
  go_len : forall i, 0 <= i < num_nodes c -> length (inputs (node c i)) = 3%nat;
  go_f32 : forall i, 0 <= i < num_nodes c -> has_flag (node c i) kF32 = false
}.

Lemma input_in n j : length (inputs n) = 3%nat -> 0 <= j < 3 -> In (input n j) (inputs n).
Proof. intros Hl Hj. unfold input. apply nth_In. lia. Qed.

Lemma arity_le o : 0 <= arity o <= 3.
Proof. destruct o; cbn; lia. Qed.

Lemma ref_ok_set c val i f k : 0 <= i < num_nodes c -> 0 <= k ->
  (i = k -> dead (f (node c i)) = false \/ val k = 0) -> ref_ok c val k -> ref_ok (set_node c i f) val k.
Proof.
  intros Hi Hk Hf H. unfold ref_ok in *. destruct (Z.eq_dec i k) as [<-|Hne].
  - rewrite node_set_eq by exact Hi. apply Hf. reflexivity.
  - rewrite node_set_ne by lia. exact H.
Qed.

(** Replace node [i] by an equivalent one. *)
Lemma consistent_rewrite c val i f :
  consistent c val -> 0 <= i < num_nodes c -> dead (f (node c i)) = false ->
  (let r := node_sem (M i) (fun j => val (input (f (node c i)) j)) (f (node c i)) in
   mach (fst r) = M (i + 1) /\ snd r = val i) ->
  (forall j, 0 <= j < arity (op (f (node c i))) ->
     0 <= input (f (node c i)) j < i /\ ref_ok c val (input (f (node c i)) j)) ->
  consistent (set_node c i f) val.
Proof.
  intros C Hi Hlive Hsem Hrefs. destruct C as [C1 C2 C3 C4 C5 C6]. constructor; try assumption.
  - rewrite num_set_node. exact C1.
  - intros k Hk. rewrite num_set_node in Hk. destruct (Z.eq_dec i k) as [<-|Hne].
    + constructor; rewrite node_set_eq by exact Hi.
      * intros _. exact Hsem.
      * congruence.
      * intros _ j Hj. destruct (Hrefs j Hj) as [H1 H2]. split; [exact H1|].
        apply ref_ok_set; auto; lia.
    + destruct (C5 k Hk) as [G1 G2 G3]. constructor; rewrite node_set_ne by lia; [exact G1|exact G2|].
      intros Hd j Hj. destruct (G3 Hd j Hj) as [H1 H2]. split; [exact H1|]. apply ref_ok_set; auto; lia.
  - intros d Hd. destruct (C6 d Hd) as [S1 S2]. split; [exact S1|].
    intros H0. destruct (S2 H0) as [H1 H2]. split; [rewrite num_set_node; exact H1|]. apply ref_ok_set; auto.
Qed.

(** Drop a node nothing uses. *)
Lemma consistent_kill c val i :
  consistent c val -> 0 <= i < num_nodes c -> has_effect (op (node c i)) = false ->
  (forall k, 0 <= k < num_nodes c -> length (inputs (node c k)) = 3%nat) ->
  uses c i <= 0 -> consistent (kill c i) val.
Proof.
  intros C Hi He Hlen Hu. destruct C as [C1 C2 C3 C4 C5 C6].
  assert (R : forall k, i <> k -> 0 <= k -> ref_ok c val k -> ref_ok (kill c i) val k).
  { intros k Hne Hk H. apply ref_ok_set; auto; congruence. }
  constructor; try assumption.
  - unfold kill. rewrite num_set_node. exact C1.
  - intros k Hk. unfold kill in Hk. rewrite num_set_node in Hk. destruct (Z.eq_dec i k) as [<-|Hne].
    + constructor; unfold kill; rewrite node_set_eq by exact Hi; rewrite dead_set_flag; try discriminate.
      intros _. destruct (C5 i Hi) as [G1 G2 _]. destruct (dead (node c i)) eqn:Ed; [apply G2; reflexivity|].
      destruct (G1 eq_refl) as [G _]. rewrite <- G, node_sem_pure by exact He. reflexivity.
    + destruct (C5 k Hk) as [G1 G2 G3]. constructor; unfold kill; rewrite node_set_ne by lia; [exact G1|exact G2|].
      intros Hd j Hj. destruct (G3 Hd j Hj) as [H1 H2]. split; [exact H1|]. apply R; [|lia|exact H2].
      intros ->. pose proof (uses_node c k (input (node c k) j) Hk) as U. unfold node_uses in U. rewrite Hd in U.
      pose proof (arity_le (op (node c k))).
      pose proof (occ_in _ _ (input_in (node c k) j (Hlen k Hk) ltac:(lia))).
      pose proof (occ_nonneg (input (node c k) j) (slot_val c)). lia.
  - intros d Hd. destruct (C6 d Hd) as [S1 S2]. split; [exact S1|]. intros H0. destruct (S2 H0) as [H1 H2].
    change (slot (kill c i) d) with (slot c d) in *. unfold kill at 1. rewrite num_set_node. split; [exact H1|].
    apply R; [|exact H0|exact H2]. intros ->.
    assert (1 <= occ (slot c d) (slot_val c)).
    { apply occ_in. unfold slot, zget. apply nth_In. change (slot_val (kill c (slot c d))) with (slot_val c) in Hd. lia. }
    pose proof (uses_node c (slot c d) (slot c d) Hi). pose proof (node_uses_nonneg (node c (slot c d)) (slot c d)). lia.
Qed.

Lemma counted_le c c' uc uc' : counted c uc -> num_nodes c' = num_nodes c -> length uc' = length uc ->
  (forall x, 0 <= x < num_nodes c -> uses c x <= zget uc x -> uses c' x <= zget uc' x) -> counted c' uc'.
Proof. intros [H1 H2 H3] Hn Hl Hx. constructor; [lia|congruence|]. rewrite Hn. auto. Qed.

Lemma has_flag_set_dead n : has_flag (set_flag n kDead) kF32 = has_flag n kF32.
Proof.
  unfold has_flag, set_flag. cbn [X87IR.with_flags flags]. rewrite Z.land_lor_distr_l.
  change (Z.land kDead kF32) with 0. rewrite Z.lor_0_r. reflexivity.
Qed.

(** [kill] with the counters of its inputs lowered. *)
Lemma going_kill c val uc i : going c val uc -> 0 <= i < num_nodes c -> has_effect (op (node c i)) = false ->
  dead (node c i) = false -> zget uc i = 0 -> going (kill c i) val (fold_left (bump_id (-1)) (inputs (node c i)) uc).
Proof.
  intros [C K Hl Hf] Hi He Hd Hz. pose proof (cd_le c uc K i Hi). constructor.
  - apply consistent_kill; try assumption. lia.
  - apply (counted_le c _ uc); [exact K|apply num_set_node|apply bump_all_length|].
    intros x Hx Hle. rewrite uses_kill by exact Hi. unfold node_uses. rewrite Hd.
    destruct K as [K1 K2 _]. rewrite zget_bump_all by (rewrite K2; unfold kMaxNodes in *; lia). lia.
  - intros k Hk. unfold kill in *. rewrite num_set_node in Hk. destruct (Z.eq_dec i k) as [<-|].
    + rewrite node_set_eq by exact Hi. apply (Hl i Hi).
    + rewrite node_set_ne by lia. apply Hl, Hk.
  - intros k Hk. unfold kill in *. rewrite num_set_node in Hk. destruct (Z.eq_dec i k) as [<-|].
    + rewrite node_set_eq, has_flag_set_dead by exact Hi. apply Hf, Hi.
    + rewrite node_set_ne by lia. apply Hf, Hk.
Qed.

(** Node [i] absorbs [m], which it alone uses, and reads [more] instead. *)
Lemma going_absorb c val uc i m f more :
  going c val uc -> 0 <= i < num_nodes c -> 0 <= m < num_nodes c -> m <> i ->
  dead (node c i) = false -> has_effect (op (node c m)) = false ->
  zget uc m = 1 -> 1 <= occ m (inputs (node c i)) ->
  (forall x, 0 <= x -> occ x (inputs (f (node c i))) + (if m =? x then 1 else 0) <= occ x (inputs (node c i)) + occ x more) ->
  occ m more = 0 ->
  flags (f (node c i)) = flags (node c i) -> length (inputs (f (node c i))) = 3%nat ->
  (let r := node_sem (M i) (fun j => val (input (f (node c i)) j)) (f (node c i)) in
   mach (fst r) = M (i + 1) /\ snd r = val i) ->
  (forall j, 0 <= j < arity (op (f (node c i))) ->
     0 <= input (f (node c i)) j < i /\ ref_ok c val (input (f (node c i)) j)) ->
  going (kill (set_node c i f) m) val (fold_left (bump_id 1) more (zset uc m 0)).
Proof.
  intros [C K Hl Hf] Hi Hm Hne Hd He Hu1 Hocc Huse Hmore Hfl Hlen Hsem Hrefs.
  assert (Hd' : dead (f (node c i)) = false) by (unfold dead in *; rewrite Hfl; exact Hd).
  set (c1 := set_node c i f).
  assert (N1 : num_nodes c1 = num_nodes c) by apply num_set_node.
  assert (C1 : consistent c1 val) by (apply consistent_rewrite; assumption).
  assert (L1 : forall k, 0 <= k < num_nodes c1 -> length (inputs (node c1 k)) = 3%nat).
  { intros k Hk. rewrite N1 in Hk. unfold c1. destruct (Z.eq_dec i k) as [<-|].
    - rewrite node_set_eq by exact Hi. exact Hlen.
    - rewrite node_set_ne by lia. apply Hl, Hk. }
  assert (U1 : forall x, 0 <= x -> uses c1 x + (if m =? x then 1 else 0) <= uses c x + occ x more).
  { intros x Hx. unfold c1. rewrite uses_set_node by exact Hi. unfold node_uses. rewrite Hd, Hd'.
    specialize (Huse x Hx). lia. }
  assert (Em : node c1 m = node c m) by (apply node_set_ne; lia).
  pose proof (cd_le c uc K m Hm) as Km. rewrite Hu1 in Km.
  pose proof (U1 m ltac:(lia)) as Um. rewrite Z.eqb_refl, Hmore in Um.
  constructor.
  - apply consistent_kill; [exact C1|lia|rewrite Em; exact He|exact L1|lia].
  - apply (counted_le c _ uc); [exact K|unfold kill; rewrite num_set_node; exact N1|rewrite bump_all_length; apply zset_length|].
    intros x Hx Hle. rewrite uses_kill by lia. pose proof (node_uses_nonneg (node c1 m) x). specialize (U1 x ltac:(lia)).
    destruct K as [K1 K2 _].
    rewrite zget_bump_all by (rewrite zset_length, K2; unfold kMaxNodes in *; lia).
    rewrite zget_set by (rewrite ?K2; unfold kMaxNodes in *; lia).
    destruct (Z.eqb_spec m x) as [E|E]; [subst x|]; lia.
  - intros k Hk. unfold kill in *. rewrite num_set_node in Hk. destruct (Z.eq_dec m k) as [<-|].
    + rewrite node_set_eq by lia. apply (L1 m). lia.
    + rewrite node_set_ne by lia. apply L1. lia.
  - intros k Hk. unfold kill in *. rewrite num_set_node in Hk.
    assert (F1 : has_flag (node c1 k) kF32 = false).
    { unfold c1. destruct (Z.eq_dec i k) as [<-|].
      - rewrite node_set_eq by exact Hi. unfold has_flag. rewrite Hfl. apply Hf, Hi.
      - rewrite node_set_ne by lia. apply Hf. lia. }
    destruct (Z.eq_dec m k) as [<-|].
    + rewrite node_set_eq, has_flag_set_dead by lia. exact F1.
    + rewrite node_set_ne by lia. exact F1.
Qed.

(** ** A pass over the node indices *)

Lemma fold_going {S} (step : S -> Z -> S) (P : S -> Prop) l s :
  (forall s i, In i l -> P s -> P (step s i)) -> P s -> P (fold_left step l s).
Proof.
  revert s. induction l as [|i l IH]; intros s H Hs; [exact Hs|]. cbn [fold_left]. apply IH.
  - intros s' k Hk. apply H. right. exact Hk.
  - apply H; [left; reflexivity|exact Hs].
Qed.

Lemma indices_in c i : In i (indices c) -> 0 <= i < num_nodes c.
Proof.
  unfold indices, num_nodes. intros H. apply in_map_iff in H as (k & <- & Hk). apply in_seq in Hk. lia.
Qed.

Lemma going_start : wf base -> going base (V segbase s0 nzcv0 (stack s0) base) (use_counts base).
Proof.
  intros W. constructor.
  - apply consistent_base, W.
  - apply use_counts_ok, W.
  - intros i Hi. apply (wf_nodes base W i Hi).
  - intros i Hi. unfold has_flag. rewrite (nw_flags _ _ (wf_nodes base W i Hi)). reflexivity.
Qed.
Lemma going_recount c val uc : going c val uc -> going c val (use_counts c).
Proof. intros [C K Hl Hf]. constructor; try assumption. apply use_counts_ok, K. Qed.

Lemma going_result c val uc : going c val uc ->
  ir_result c s0 (eval_context segbase c s0 nzcv0) = ir_result base s0 (eval_context segbase base s0 nzcv0).
Proof. intros [C _ _ _]. exact (consistent_result segbase s0 nzcv0 base c val C). Qed.

Lemma going_num c val uc : going c val uc -> num_nodes c = num_nodes base.
Proof. intros [[H _ _ _ _ _] _ _ _]. exact H. Qed.

(** Running a step over all indices, with what the values of the nodes
    satisfy on the way. *)
Lemma going_sweep (step : Context * list Z -> Z -> Context * list Z) (Q : Context -> (Z -> Z) -> Prop) l c val uc :
  (forall c val uc i, Q c val -> going c val uc -> 0 <= i < num_nodes c ->
     exists val', Q (fst (step (c, uc) i)) val' /\ going (fst (step (c, uc) i)) val' (snd (step (c, uc) i))) ->
  Q c val -> going c val uc -> (forall i, In i l -> 0 <= i < num_nodes c) ->
  exists val', Q (fst (fold_left step l (c, uc))) val' /\
    going (fst (fold_left step l (c, uc))) val' (snd (fold_left step l (c, uc))).
Proof.
  intros Hstep. revert c val uc. induction l as [|i l IH]; intros c val uc HQ H Hl; [exists val; auto|].
  cbn [fold_left]. destruct (Hstep c val uc i HQ H (Hl i ltac:(left; reflexivity))) as (val' & HQ' & H').
  destruct (step (c, uc) i) as [c' uc'] eqn:Es. cbn [fst snd] in HQ', H'. apply (IH c' val' uc' HQ' H').
  intros k Hk. rewrite (going_num c' val' uc' H'), <- (going_num c val uc H). apply Hl. right. exact Hk.
Qed.

(** *** Arithmetic nodes *)

(** The value of an arithmetic node at double precision. *)
Definition arith_val (o : Op) (v : Z -> Z) : option Z :=
  match o with
  | FAdd => Some (fadd f64 (v 0) (v 1))
  | FSub => Some (fsub f64 (v 0) (v 1))
  | FMul => Some (fmul f64 (v 0) (v 1))
  | FDiv => Some (fdiv f64 (v 0) (v 1))
  | FNMul => Some (fnmul f64 (v 0) (v 1))
  | FMAdd => Some (fma f64 (v 0) (v 1) (v 2))
  | FMSub => Some (fmsub f64 (v 0) (v 1) (v 2))
  | FNMSub => Some (fnmsub f64 (v 0) (v 1) (v 2))
  | FNeg => Some (fneg f64 (v 0))
  | _ => None
  end.

Lemma arith_sem s v n x : dead n = false -> has_flag n kF32 = false -> arith_val (op n) v = Some x ->
  node_sem s v n = (s, x).
Proof.
  unfold X87IREval.node_sem, has_flag, arith_val. intros Hd Hf. rewrite Hd, Hf. cbv zeta iota.
  destruct (op n); try discriminate; intros [= <-]; reflexivity.
Qed.

Lemma arith_val_effect o v x : arith_val o v = Some x -> has_effect o = false.
Proof. destruct o; discriminate || reflexivity. Qed.

Lemma going_arith c val uc i x : going c val uc -> 0 <= i < num_nodes c -> dead (node c i) = false ->
  arith_val (op (node c i)) (fun j => val (input (node c i) j)) = Some x -> val i = x /\ M (i + 1) = M i.
Proof.
  intros [C _ _ Hf] Hi Hd Hx. destruct (cs_nodes _ _ _ _ _ _ C i Hi) as [Hs _ _]. specialize (Hs Hd).
  cbv zeta in Hs. rewrite (arith_sem _ _ _ x Hd (Hf i Hi) Hx) in Hs. cbn [fst snd] in Hs. destruct Hs as [<- <-]. auto.
Qed.

Lemma going_ref c val uc i j : going c val uc -> 0 <= i < num_nodes c -> dead (node c i) = false ->
  0 <= j < arity (op (node c i)) -> 0 <= input (node c i) j < i /\ ref_ok c val (input (node c i) j).
Proof. intros [C _ _ _] Hi Hd Hj. destruct (cs_nodes _ _ _ _ _ _ C i Hi) as [_ _ Hr]. apply Hr; assumption. Qed.

(** [going_absorb] where both nodes are arithmetic: the operation becomes [o]
    on the inputs [l], and its value has to be the old one. *)
Lemma going_fuse c val uc i m o l more x :
  going c val uc -> 0 <= i < num_nodes c -> dead (node c i) = false -> 0 <= m < i ->
  has_effect (op (node c m)) = false -> M (i + 1) = M i ->
  zget uc m = 1 -> 1 <= occ m (inputs (node c i)) -> length l = 3%nat ->
  (forall x, 0 <= x -> occ x l + (if m =? x then 1 else 0) <= occ x (inputs (node c i)) + occ x more) ->
  occ m more = 0 ->
  arith_val o (fun j => val (nth (Z.to_nat j) l (-1))) = Some x -> val i = x ->
  (forall j, 0 <= j < arity o -> 0 <= nth (Z.to_nat j) l (-1) < i /\ ref_ok c val (nth (Z.to_nat j) l (-1))) ->
  going (kill (set_node c i (fun n => with_inputs (with_op n o) l)) m) val (fold_left (bump_id 1) more (zset uc m 0)).
Proof.
  intros H Hi Hd Hm He HM Hu1 Hocc Hl Huse Hmore Hx Hv Hr. pose proof H as [C _ _ Hf].
  apply going_absorb; try assumption; try lia; [reflexivity|].
  cbv zeta. rewrite (arith_sem _ _ _ x); [cbn [fst snd]; auto|exact Hd|apply (Hf i Hi)|exact Hx].
Qed.

Lemma single_use_spec c uc m o : single_use_op c uc m o = true ->
  0 <= m < num_nodes c /\ op (node c m) = o /\ dead (node c m) = false /\ zget uc m = 1.
Proof.
  unfold single_use_op, in_nodes. intros H. repeat (apply andb_true_iff in H as [H ?]).
  apply Z.leb_le in H. apply negb_true_iff in H1. apply Z.eqb_eq in H0. apply Z.ltb_lt in H3.
  repeat split; try assumption. apply Op_eqb_eq. exact H2.
Qed.
End Steps.
