(* ===== verification/F64Round.v ===== *)
(** Arithmetic on negated operands: the identities the FNeg folding uses.
    They hold for every operand that is not a NaN; a NaN operand keeps its
    own sign, so there the two sides differ in the sign of the result.

    Rounding does not see how a value is split into significand and
    exponent: what makes a product by a power of two exact, a division by one
    the product by its inverse, and a fused multiply-add on an exact product
    the two separate operations. *)

From S2P Require Import Prelude F64.
From Corelib Require Import SpecFloat.
From S2P Require Import X87State X87Props F64Props F64Exact F32Props.

Lemma fneg_fields b : exp_of f64 (fneg f64 b) = exp_of f64 b /\ frac_of f64 (fneg f64 b) = frac_of f64 b /\
  sign_of f64 (fneg f64 b) = negb (sign_of f64 b).
Proof.
  unfold exp_of, frac_of, sign_of, fneg. cbn [mw ew f64]. change (52 + 11) with 63. split; [|split].
  - apply Z.bits_inj'. intros i Hi. unfold bits. rewrite <- !wrap_land by lia.
    rewrite !wrap_testbit, !Z.shiftr_spec, Z.lxor_spec by lia.
    destruct (Z.ltb_spec i 11); [|reflexivity]. cbn [andb]. rewrite Z.pow2_bits_false by lia. apply xorb_false_r.
  - apply Z.bits_inj'. intros i Hi. unfold bits. rewrite <- !wrap_land by lia.
    rewrite !wrap_testbit, !Z.shiftr_spec, Z.lxor_spec by lia.
    destruct (Z.ltb_spec i 52); [|reflexivity]. cbn [andb]. rewrite Z.pow2_bits_false by lia. apply xorb_false_r.
  - rewrite Z.lxor_spec, Z.pow2_bits_true by lia. apply xorb_true_r.
Qed.

Lemma is_nan_fneg b : is_nan f64 (fneg f64 b) = is_nan f64 b.
Proof. unfold is_nan. destruct (fneg_fields b) as (-> & -> & _). reflexivity. Qed.

Definition sf_neg (x : spec_float) : spec_float :=
  match x with
  | S754_zero s => S754_zero (negb s)
  | S754_infinity s => S754_infinity (negb s)
  | S754_nan => S754_nan
  | S754_finite s m e => S754_finite (negb s) m e
  end.

Lemma of_bits_fneg b : of_bits f64 (fneg f64 b) = sf_neg (of_bits f64 b).
Proof.
  unfold of_bits. cbv zeta. destruct (fneg_fields b) as (-> & -> & ->).
  destruct (exp_of f64 b =? exp_ones f64); [destruct (frac_of f64 b =? 0); reflexivity|].
  destruct (exp_of f64 b =? 0).
  - destruct (frac_of f64 b); reflexivity.
  - destruct (frac_of f64 b + 2 ^ mw f64); reflexivity.
Qed.

Lemma sf_add_neg p e x y : SFadd p e x (sf_neg y) = SFsub p e x y.
Proof. destruct x as [[]|[]| |[] ? ?], y as [[]|[]| |[] ? ?]; reflexivity. Qed.

Lemma sf_sub_neg p e x y : SFsub p e x (sf_neg y) = SFadd p e x y.
Proof. destruct x as [[]|[]| |[] ? ?], y as [[]|[]| |[] ? ?]; reflexivity. Qed.

Lemma sf_add_comm p e x y : SFadd p e x y = SFadd p e y x.
Proof.
  destruct x as [[]|[]| |[] ? ?], y as [[]|[]| |[] ? ?]; try reflexivity;
    cbn [SFadd]; cbv zeta; rewrite Z.min_comm, Z.add_comm; reflexivity.
Qed.

Lemma sf_neg_add p e x y : SFadd p e (sf_neg x) y = SFsub p e y x.
Proof. rewrite sf_add_comm. apply sf_add_neg. Qed.

Lemma snan_not_nan b : is_nan f64 b = false -> is_snan f64 b = false.
Proof. unfold is_snan. intros ->. reflexivity. Qed.

Lemma process_nans_not_r a b : is_nan f64 b = false ->
  process_nans f64 a b = if is_nan f64 a then Some (if is_snan f64 a then quiet f64 a else a) else None.
Proof.
  intros H. unfold process_nans. rewrite H, (snan_not_nan _ H). destruct (is_nan f64 a) eqn:E.
  - destruct (is_snan f64 a); reflexivity.
  - rewrite (snan_not_nan _ E). reflexivity.
Qed.

Lemma process_nans_not_l a b : is_nan f64 a = false ->
  process_nans f64 a b = if is_nan f64 b then Some (if is_snan f64 b then quiet f64 b else b) else None.
Proof.
  intros H. unfold process_nans. rewrite H, (snan_not_nan _ H). destruct (is_nan f64 b) eqn:E.
  - destruct (is_snan f64 b); reflexivity.
  - rewrite (snan_not_nan _ E). reflexivity.
Qed.

Lemma fadd_fneg_r a b : is_nan f64 b = false -> fadd f64 a (fneg f64 b) = fsub f64 a b.
Proof.
  intros H. unfold fadd, fsub, arith2. rewrite !process_nans_not_r by (rewrite ?is_nan_fneg; exact H).
  rewrite of_bits_fneg, sf_add_neg. reflexivity.
Qed.

Lemma fsub_fneg_r a b : is_nan f64 b = false -> fsub f64 a (fneg f64 b) = fadd f64 a b.
Proof.
  intros H. unfold fadd, fsub, arith2. rewrite !process_nans_not_r by (rewrite ?is_nan_fneg; exact H).
  rewrite of_bits_fneg, sf_sub_neg. reflexivity.
Qed.

Lemma fadd_fneg_l a b : is_nan f64 a = false -> fadd f64 (fneg f64 a) b = fsub f64 b a.
Proof.
  intros H. unfold fadd, fsub, arith2.
  rewrite (process_nans_not_l (fneg f64 a)) by (rewrite is_nan_fneg; exact H). rewrite process_nans_not_r by exact H.
  rewrite of_bits_fneg, sf_neg_add. reflexivity.
Qed.

(** ** Shifting right *)

Definition shrn (n : Z) (x : shr_record) : shr_record :=
  match n with Zpos p => iter_pos shr_1 p x | _ => x end.

Lemma shr_shrn x e n : 0 <= n -> shr x e n = (shrn n x, e + n).
Proof. destruct n; intros; cbn [shr shrn]; [f_equal; lia|reflexivity|lia]. Qed.

Lemma iter_pos_add {A} (f : A -> A) p q x : iter_pos f (p + q) x = iter_pos f q (iter_pos f p x).
Proof.
  revert x. induction p as [|p IH] using Pos.peano_ind; intros x.
  - rewrite Pos.add_1_l, iter_pos_succ. reflexivity.
  - rewrite Pos.add_succ_l, !iter_pos_succ. apply IH.
Qed.

Lemma shrn_add a b x : 0 <= a -> 0 <= b -> shrn (a + b) x = shrn b (shrn a x).
Proof.
  intros Ha Hb. destruct a as [|a|a]; [reflexivity| |lia]. destruct b as [|b|b]; [reflexivity| |lia].
  apply iter_pos_add.
Qed.

Lemma shrn_scaled m t : 0 < m -> 0 <= t -> shrn t (rec0 (m * 2 ^ t)) = rec0 m.
Proof.
  intros Hm Ht. destruct t as [|t|t]; [|apply shr_even, Hm|lia]. cbn [shrn]. rewrite Z.pow_0_r, Z.mul_1_r. reflexivity.
Qed.

(** The record after [n] steps: quotient, round bit, sticky bit. *)
Definition cut (m n : Z) : shr_record :=
  Build_shr_record (m / 2 ^ n) (Z.odd (m / 2 ^ (n - 1))) (nz (m mod 2 ^ (n - 1))).

Lemma shr_1_half m r s : 0 <= m ->
  shr_1 (Build_shr_record m r s) = Build_shr_record (m / 2) (Z.odd m) (orb r s).
Proof. destruct m as [|[p|p|]|]; try lia; intros _; cbn [shr_1]; f_equal; rewrite <- Z.div2_div; reflexivity. Qed.

Lemma shrn_cut m n : 0 <= m -> 0 < n -> shrn n (rec0 m) = cut m n.
Proof.
  intros Hm. destruct n as [|n|n]; try lia. intros _. induction n as [|n IH] using Pos.peano_ind.
  - cbn [shrn iter_pos]. unfold rec0. rewrite shr_1_half by exact Hm. unfold cut. change (1 - 1) with 0.
    rewrite Z.pow_0_r, Z.div_1_r, Z.mod_1_r. reflexivity.
  - rewrite Pos2Z.inj_succ, <- Z.add_1_r, shrn_add, IH by lia. cbn [shrn iter_pos]. unfold cut.
    set (k := Zpos n) in *. replace (k + 1 - 1) with k by lia.
    rewrite shr_1_half by (apply Z.div_pos; lia). f_equal.
    + rewrite Z.div_div, Z.pow_add_r by lia. reflexivity.
    + assert (Ek : 2 ^ k = 2 ^ (k - 1) * 2) by (rewrite Z.mul_comm, <- Z.pow_succ_r by lia; f_equal; lia).
      assert (0 < 2 ^ (k - 1)) by (apply Z.pow_pos_nonneg; lia). rewrite Ek.
      rewrite Z.rem_mul_r by lia. rewrite Zmod_odd. pose proof (Z.mod_pos_bound m (2 ^ (k - 1)) ltac:(lia)).
      unfold nz. destruct (Z.odd (m / 2 ^ (k - 1))); cbn [orb].
      * symmetry. apply negb_true_iff, Z.eqb_neq. lia.
      * rewrite Z.mul_0_r, Z.add_0_r. reflexivity.
Qed.

(** The location of a remainder is the record of the bits it stands for. *)
Lemma location_cut q r n : 0 <= q -> 0 <= r < 2 ^ n -> 0 < n ->
  shr_record_of_loc q (new_location (2 ^ n) r) = shrn n (rec0 (q * 2 ^ n + r)).
Proof.
  intros Hq Hr Hn. rewrite shrn_cut by nia. unfold cut.
  set (h := 2 ^ (n - 1)). assert (E : 2 ^ n = 2 * h).
  { unfold h. rewrite <- Z.pow_succ_r by lia. f_equal. lia. }
  assert (Hh : 0 < h) by (apply Z.pow_pos_nonneg; lia). rewrite E in *.
  rewrite Z.div_add_l, (Z.div_small r), Z.add_0_r by lia.
  replace (q * (2 * h) + r) with (2 * q * h + r) by ring.
  rewrite Z.div_add_l by lia. rewrite (Z.add_comm (2 * q * h)), Z_mod_plus_full.
  replace (Z.odd (2 * q + r / h)) with (h <=? r).
  2:{ rewrite Z.add_comm, Z.odd_add_mul_2. destruct (Z.leb_spec h r).
      - replace (r / h) with 1 by (apply Z.div_unique with (r - h); lia). reflexivity.
      - rewrite Z.div_small by lia. reflexivity. }
  unfold new_location. rewrite Z.even_mul. cbn [Z.even orb]. unfold new_location_even.
  destruct (Z.eqb_spec r 0) as [->|Hr0].
  - rewrite Z.mod_0_l by lia. replace (h <=? 0) with false by (symmetry; apply Z.leb_gt; lia). reflexivity.
  - destruct (Z.compare_spec (2 * r) (2 * h)) as [C|C|C]; cbn [shr_record_of_loc].
    + assert (r = h) as -> by lia. rewrite Z.leb_refl, Z.mod_same by lia. reflexivity.
    + replace (h <=? r) with false by (symmetry; apply Z.leb_gt; lia). rewrite Z.mod_small by lia.
      unfold nz. replace (r =? 0) with false by (symmetry; apply Z.eqb_neq; lia). reflexivity.
    + replace (h <=? r) with true by (symmetry; apply Z.leb_le; lia).
      replace (r mod h) with (r - h) by (apply Z.mod_unique with 1; lia).
      unfold nz. replace (r - h =? 0) with false by (symmetry; apply Z.eqb_neq; lia). reflexivity.
Qed.

(** ** Rounding a scaled significand *)

Section Round.
Context (prec emax : Z).

(** What is left to do once the significand is at its exponent. *)
Definition round_tail (s : bool) (x : shr_record * Z) : spec_float :=
  let '(mrs, e) := x in
  let '(mrs', e') := shr_fexp prec emax (round_nearest_even (shr_m mrs) (loc_of_shr_record mrs)) e loc_Exact in
  match shr_m mrs' with
  | Z0 => S754_zero s
  | Zpos m => if e' <=? emax - prec then S754_finite s m e' else S754_infinity s
  | _ => S754_nan
  end.

Lemma round_aux_tail s m e l :
  binary_round_aux prec emax s m e l = round_tail s (shr_fexp prec emax m e l).
Proof. reflexivity. Qed.

Lemma digits_log2 m : 0 < m -> Zdigits2 m = Z.log2 m + 1.
Proof. destruct m; try lia. intros _. apply digits2_log2. Qed.

(** The significand of [m * 2^E] written with [t] more zeros. *)
Lemma round_aux_scaled s m t E : 0 < m -> 0 <= t -> E - t <= fexp prec emax (Z.log2 m + 1 + E) ->
  binary_round_aux prec emax s (m * 2 ^ t) (E - t) loc_Exact = binary_round prec emax s (Z.to_pos m) E.
Proof.
  intros Hm Ht HT. set (T := fexp prec emax (Z.log2 m + 1 + E)) in *.
  assert (Hp : forall k, 0 <= k -> 0 < m * 2 ^ k) by (intros; apply Z.mul_pos_pos; [exact Hm|apply Z.pow_pos_nonneg; lia]).
  assert (L : shr_fexp prec emax (m * 2 ^ t) (E - t) loc_Exact = (shrn (T - E + t) (rec0 (m * 2 ^ t)), T)).
  { unfold shr_fexp. rewrite digits_log2, Z.log2_mul_pow2 by auto.
    replace (t + Z.log2 m + 1 + (E - t)) with (Z.log2 m + 1 + E) by lia. fold T.
    rewrite shr_shrn by lia. f_equal; [f_equal|]; lia. }
  rewrite round_aux_tail, L. unfold binary_round.
  assert (Em : Zpos (Z.to_pos m) = m) by (apply Z2Pos.id, Hm).
  rewrite digits2_log2, Em. fold T. unfold shl_align. destruct (T - E) as [|d|d] eqn:Ed.
  - rewrite round_aux_tail, Em. f_equal. unfold shr_fexp. rewrite digits_log2 by exact Hm. fold T. rewrite Ed.
    rewrite shr_shrn, Z.add_0_l, shrn_scaled by lia. cbn [shrn]. f_equal. lia.
  - rewrite round_aux_tail, Em. f_equal. unfold shr_fexp. rewrite digits_log2 by exact Hm. fold T. rewrite Ed.
    rewrite shr_shrn, (Z.add_comm (Zpos d)), shrn_add, shrn_scaled by lia. f_equal. lia.
  - rewrite round_aux_tail. f_equal. rewrite iter_xO, Em. unfold shr_fexp.
    assert (ET : T = E - Zpos d) by lia.
    rewrite digits_log2, Z.log2_mul_pow2 by (apply Hp || lia; lia).
    replace (Zpos d + Z.log2 m + 1 + T) with (Z.log2 m + 1 + E) by lia. fold T.
    replace (T - T) with 0 by lia. rewrite shr_shrn by lia. cbn [shrn]. rewrite Z.add_0_r. f_equal.
    replace (m * 2 ^ t) with (m * 2 ^ Zpos d * 2 ^ (t - Zpos d))
      by (rewrite <- Z.mul_assoc, <- Z.pow_add_r by lia; do 2 f_equal; lia).
    replace (Zneg d + t) with (t - Zpos d) by lia. apply shrn_scaled; [apply Hp; lia|lia].
Qed.

Lemma binary_round_scaled s m k e p : 0 < m -> 0 <= k -> Zpos p = m * 2 ^ k ->
  binary_round prec emax s p e = binary_round prec emax s (Z.to_pos m) (e + k).
Proof.
  intros Hm Hk Hp. unfold binary_round at 1. rewrite digits2_log2, Hp, Z.log2_mul_pow2 by lia.
  replace (k + Z.log2 m + 1 + e) with (Z.log2 m + 1 + (e + k)) by lia.
  set (T := fexp prec emax (Z.log2 m + 1 + (e + k))). unfold shl_align. destruct (T - e) as [|d|d] eqn:Ed.
  - rewrite Hp. replace e with (e + k - k) at 1 by lia. apply round_aux_scaled; [exact Hm|exact Hk|]. fold T. lia.
  - rewrite Hp. replace e with (e + k - k) at 1 by lia. apply round_aux_scaled; [exact Hm|exact Hk|]. fold T. lia.
  - rewrite iter_xO, Hp. rewrite <- Z.mul_assoc, <- Z.pow_add_r by lia.
    replace T with (e + k - (k + Zpos d)) at 1 by lia. apply round_aux_scaled; [exact Hm|lia|]. fold T. lia.
Qed.

Lemma normalize_scaled n k e z : 0 <= k ->
  binary_normalize prec emax (n * 2 ^ k) e z = binary_normalize prec emax n (e + k) z.
Proof.
  intros Hk. pose proof (Z.pow_pos_nonneg 2 k ltac:(lia) Hk) as H2. destruct n as [|n|n].
  - reflexivity.
  - destruct (Zpos n * 2 ^ k) as [|p|p] eqn:E; try lia. cbn [binary_normalize].
    apply (binary_round_scaled false (Zpos n) k e p); lia.
  - destruct (Zneg n * 2 ^ k) as [|p|p] eqn:E; try lia. cbn [binary_normalize].
    apply (binary_round_scaled true (Zpos n) k e p); lia.
Qed.

(** A quotient with the location of its remainder. *)
Lemma round_aux_location s q r n e : 0 <= q -> 0 <= r < 2 ^ n -> 0 < n -> 0 < q * 2 ^ n + r ->
  let T := fexp prec emax (Z.log2 (q * 2 ^ n + r) + 1 + (e - n)) in
  e <= T -> (q = 0 -> fexp prec emax e = T) ->
  binary_round_aux prec emax s q e (new_location (2 ^ n) r) =
  binary_round_aux prec emax s (q * 2 ^ n + r) (e - n) loc_Exact.
Proof.
  intros Hq Hr Hn HM T HT H0. rewrite !round_aux_tail. f_equal. unfold shr_fexp.
  rewrite location_cut, (digits_log2 (_ + _)) by assumption. fold T.
  assert (ED : fexp prec emax (Zdigits2 q + e) = T).
  { destruct (Z.eq_dec q 0) as [->|Hq0]; [exact (H0 eq_refl)|]. rewrite digits_log2 by lia. unfold T. f_equal.
    replace (Z.log2 (q * 2 ^ n + r)) with (Z.log2 q + n); [lia|]. symmetry. apply Z.log2_unique; [pose proof (Z.log2_nonneg q); lia|].
    pose proof (Z.log2_spec q ltac:(lia)) as [L1 L2]. pose proof (Z.log2_nonneg q).
    rewrite <- Z.add_succ_l, !Z.pow_add_r by lia. nia. }
  rewrite ED, !shr_shrn by lia. f_equal; [|lia].
  replace (T - (e - n)) with (n + (T - e)) by lia. rewrite shrn_add by lia. reflexivity.
Qed.
End Round.

(** ** Doubles as spec floats *)

Lemma exp64 b : 0 <= exp_of f64 b < 2 ^ 11.
Proof. exact (exp_of_bound f64 f64_ok b). Qed.
Lemma frac64 b : 0 <= frac_of f64 b < 2 ^ 52.
Proof. exact (frac_of_bound f64 f64_ok b). Qed.

(** The significand and exponent of a finite number. *)
Definition canonical64 (m : positive) (e : Z) : Prop :=
  fexp 53 1024 (Z.log2 (Zpos m) + 1 + e) = e /\ -1074 <= e <= 971 /\ Zpos m < 2 ^ 53 /\
  (Zpos m < 2 ^ 52 -> e = -1074).

Lemma finite_inj s m e s' m' e' : S754_finite s m e = S754_finite s' m' e' -> s = s' /\ m = m' /\ e = e'.
Proof. intros H. injection H. auto. Qed.

Lemma of_bits_finite b s m e : of_bits f64 b = S754_finite s m e ->
  canonical64 m e /\ sign_of f64 b = s /\ is_nan f64 b = false /\ is_inf f64 b = false /\
  scaled f64 b = (if s then - (Zpos m * 2 ^ (e + 1074)) else Zpos m * 2 ^ (e + 1074)).
Proof.
  unfold of_bits, is_nan, is_inf, scaled. cbv zeta. change (exp_ones f64) with 2047. change (qmin f64) with (-1074).
  pose proof (exp64 b) as He. pose proof (frac64 b) as Hf. cbn [mw f64] in *.
  destruct (Z.eqb_spec (exp_of f64 b) 2047); [destruct (_ =? 0); discriminate|]. cbn [andb].
  destruct (Z.eqb_spec (exp_of f64 b) 0) as [E0|E0].
  - destruct (frac_of f64 b) as [|p|p] eqn:Ef; try discriminate. intros X. apply finite_inj in X as (<- & <- & <-).
    assert (Z.log2 (Zpos p) < 52) by (apply Z.log2_lt_pow2; lia).
    repeat split; try lia; rewrite ?Z.pow_0_r, ?Z.mul_1_r; try reflexivity.
    rewrite fexp_eq. lia.
  - destruct (frac_of f64 b + 2 ^ 52) as [|p|p] eqn:Ef; try discriminate. intros X. apply finite_inj in X as (<- & <- & <-).
    assert (Z.log2 (Zpos p) = 52) by (apply Z.log2_unique; lia).
    repeat split; try lia; [rewrite fexp_eq; lia|].
    rewrite Z.shiftl_mul_pow2 by lia. replace (exp_of f64 b + -1074 - 1 + 1074) with (exp_of f64 b - 1) by lia. reflexivity.
Qed.

Lemma of_bits_zero b s : of_bits f64 b = S754_zero s ->
  sign_of f64 b = s /\ is_nan f64 b = false /\ is_inf f64 b = false /\ scaled f64 b = 0.
Proof.
  unfold of_bits, is_nan, is_inf, scaled. cbv zeta. change (exp_ones f64) with 2047.
  pose proof (frac64 b) as Hf. cbn [mw f64] in *.
  destruct (Z.eqb_spec (exp_of f64 b) 2047); [destruct (_ =? 0); discriminate|]. cbn [andb].
  destruct (Z.eqb_spec (exp_of f64 b) 0) as [E0|E0].
  - destruct (frac_of f64 b) as [|p|p] eqn:Ef; try discriminate; try lia. intros [= <-].
    repeat split. destruct (sign_of f64 b); reflexivity.
  - destruct (frac_of f64 b + 2 ^ 52) as [|p|p] eqn:Ef; try discriminate; lia.
Qed.

Lemma of_bits_inf b s : of_bits f64 b = S754_infinity s ->
  sign_of f64 b = s /\ is_nan f64 b = false /\ is_inf f64 b = true.
Proof.
  unfold of_bits, is_nan, is_inf, nz. cbv zeta. change (exp_ones f64) with 2047.
  destruct (exp_of f64 b =? 2047).
  - destruct (frac_of f64 b =? 0); intros [= <-]; auto.
  - destruct (exp_of f64 b =? 0); [destruct (frac_of f64 b)|destruct (_ + _)]; discriminate.
Qed.

Lemma of_bits_nan b : of_bits f64 b = S754_nan -> is_nan f64 b = true.
Proof.
  unfold of_bits, is_nan, nz. cbv zeta. change (exp_ones f64) with 2047.
  destruct (exp_of f64 b =? 2047).
  - destruct (frac_of f64 b =? 0); [discriminate|auto].
  - destruct (exp_of f64 b =? 0); [destruct (frac_of f64 b)|destruct (_ + _)]; discriminate.
Qed.

Lemma to_of_bits b : in64 b -> is_nan f64 b = false -> to_bits f64 (of_bits f64 b) = b.
Proof.
  intros Hb Hn. pose proof (pack_unpack f64 f64_ok b Hb) as U. pose proof (frac64 b) as Hf.
  unfold of_bits, is_nan, nz in *. cbv zeta. change (exp_ones f64) with 2047 in *. change (qmin f64) with (-1074).
  cbn [mw f64] in *. destruct (Z.eqb_spec (exp_of f64 b) 2047) as [E|E].
  - cbn [andb] in Hn. apply negb_false_iff, Z.eqb_eq in Hn. rewrite Hn, E in *. exact U.
  - destruct (Z.eqb_spec (exp_of f64 b) 0) as [E0|E0].
    + rewrite E0 in U. destruct (frac_of f64 b) as [|p|p] eqn:Ef; [exact U| |lia].
      unfold to_bits. cbn [mw f64]. replace (Zpos p <? 2 ^ 52) with true by (symmetry; apply Z.ltb_lt; lia). exact U.
    + destruct (frac_of f64 b + 2 ^ 52) as [|p|p] eqn:Ef; try lia.
      unfold to_bits. cbn [mw f64]. replace (Zpos p <? 2 ^ 52) with false by (symmetry; apply Z.ltb_ge; lia).
      change (qmin f64) with (-1074). etransitivity; [|exact U]. f_equal; lia.
Qed.

(** The value a NaN operand makes an operation return when the other is none. *)
Definition nan_of (a : Z) : Z := if is_snan f64 a then quiet f64 a else a.

Lemma arith2_num op a b : is_nan f64 b = false ->
  arith2 f64 op a b = if is_nan f64 a then nan_of a else to_bits f64 (op 53 1024 (of_bits f64 a) (of_bits f64 b)).
Proof. intros H. unfold arith2. rewrite process_nans_not_r by exact H. destruct (is_nan f64 a); reflexivity. Qed.

Lemma arith2_id op a c : in64 a -> is_snan f64 a = false -> is_nan f64 c = false ->
  op 53 1024 (of_bits f64 a) (of_bits f64 c) = of_bits f64 a -> arith2 f64 op a c = a.
Proof.
  intros Ha Hs Hc Hop. rewrite arith2_num by exact Hc. unfold nan_of. rewrite Hs, Hop.
  destruct (is_nan f64 a) eqn:E; [reflexivity|]. apply to_of_bits; assumption.
Qed.
