(* ===== verification/F64Algebra.v ===== *)
(** Identities of double arithmetic the optimizer relies on: units, division
    by a power of two, and fused multiply-add on an exact product. *)

From S2P Require Import Prelude F64 X87State X87Props F64Props F64Exact F32Props F64Round.
From Corelib Require Import SpecFloat.

(** ** Units *)

Abbreviation two52 := 4503599627370496%positive.

Lemma of_bits_one : of_bits f64 f_one = S754_finite false two52 (-52).
Proof. reflexivity. Qed.

Lemma sf_mul_one x s m e : x = S754_finite s m e -> canonical64 m e ->
  binary_round_aux 53 1024 s (Zpos m * 2 ^ 52) (e + -52) loc_Exact = x.
Proof.
  intros -> (H & He & _ & _). replace (S754_finite s m e) with (S754_finite s m (e + -52 + 52)) by (f_equal; lia).
  apply round_aux_exact; [lia| |lia]. replace (e + -52 + 52) with e by lia. exact H.
Qed.

Lemma fmul_one_r a : in64 a -> is_snan f64 a = false -> fmul f64 a f_one = a.
Proof.
  intros Ha Hs. apply arith2_id; try assumption; [reflexivity|]. rewrite of_bits_one.
  destruct (of_bits f64 a) as [s|s| |s m e] eqn:E; cbn [SFmul]; rewrite ?xorb_false_r; try reflexivity.
  rewrite Pos2Z.inj_mul. apply sf_mul_one; [reflexivity|]. apply (of_bits_finite a s m e E).
Qed.

Lemma sf_mul_comm p e x y : SFmul p e x y = SFmul p e y x.
Proof.
  destruct x as [s|s| |s m k], y as [s'|s'| |s' m' k']; cbn [SFmul]; try reflexivity; rewrite ?(xorb_comm s s'); try reflexivity.
  rewrite Pos.mul_comm, Z.add_comm. reflexivity.
Qed.

Lemma fmul_one_l a : in64 a -> is_snan f64 a = false -> fmul f64 f_one a = a.
Proof.
  intros Ha Hs. rewrite <- (fmul_one_r a Ha Hs) at 2. unfold fmul, arith2.
  rewrite process_nans_not_l, process_nans_not_r by reflexivity. rewrite sf_mul_comm. reflexivity.
Qed.

Lemma fsub_zero_r a : in64 a -> is_snan f64 a = false -> fsub f64 a f_zero = a.
Proof.
  intros Ha Hs. apply arith2_id; try assumption; [reflexivity|].
  destruct (of_bits f64 a) as [[]|s| |s m e]; reflexivity.
Qed.

Lemma fadd_mzero_r a : in64 a -> is_snan f64 a = false -> fadd f64 a 0x8000000000000000 = a.
Proof.
  intros Ha Hs. apply arith2_id; try assumption; [reflexivity|].
  destruct (of_bits f64 a) as [[]|s| |s m e]; reflexivity.
Qed.

(** ** Division by a power of two *)

Lemma sf_div_pow2 x s e : (exists b, x = of_bits f64 b) ->
  SFdiv 53 1024 x (S754_finite s two52 e) = SFmul 53 1024 x (S754_finite s two52 (- e - 104)).
Proof.
  intros [b ->]. destruct (of_bits f64 b) as [sx|sx| |sx m ex] eqn:Eb; try reflexivity.
  cbn [SFmul]. unfold SFdiv, SFdiv_core_binary. cbv zeta.
  rewrite (digits_log2 (Zpos m)) by lia. change (Zdigits2 (Zpos two52)) with 53.
  set (d := Z.log2 (Zpos m) + 1). assert (Hd : 1 <= d) by (unfold d; pose proof (Z.log2_nonneg (Zpos m)); lia).
  set (E := ex - e - 52). set (T := fexp 53 1024 (Z.log2 (Zpos m) + 1 + E)).
  assert (ET : T = Z.max (d + E - 53) (-1074)) by (unfold T, d; rewrite fexp_eq; lia).
  (* the product *)
  rewrite Pos2Z.inj_mul. change (Zpos two52) with (2 ^ 52). replace (ex + (- e - 104)) with (E - 52) by (unfold E; lia).
  rewrite round_aux_scaled by (fold T; lia).
  (* the quotient *)
  set (e' := Z.min (fexp 53 1024 (d + ex - (53 + e))) (ex - e)).
  assert (Ee' : e' = Z.min (Z.max (d + E - 54) (-1074)) (E + 52)) by (unfold e', E; rewrite fexp_eq; f_equal; [f_equal|]; lia).
  clearbody e'. set (k := ex - e - e'). assert (Hk : k = E + 52 - e') by (unfold k, E; lia).
  set (M := Zpos m * 2 ^ k). assert (HM : 0 < M) by (apply Z.mul_pos_pos; [lia|apply Z.pow_pos_nonneg; lia]).
  replace (match k with Z0 => Zpos m | Zpos _ => Z.shiftl (Zpos m) k | Zneg _ => 0 end) with M.
  2:{ unfold M. destruct k eqn:Ek; [lia|rewrite Z.shiftl_mul_pow2 by lia; reflexivity|lia]. }
  pose proof (Z_div_mod M (2 ^ 52) ltac:(reflexivity)) as DM. destruct (Z.div_eucl M (2 ^ 52)) as [q r].
  destruct DM as [EM Hr]. assert (Hq : 0 <= q) by nia. rewrite Z.mul_comm in EM.
  assert (LM : Z.log2 M = Z.log2 (Zpos m) + k) by (unfold M; rewrite Z.log2_mul_pow2 by lia; lia).
  assert (TM : fexp 53 1024 (Z.log2 (q * 2 ^ 52 + r) + 1 + (e' - 52)) = T).
  { rewrite <- EM, LM. unfold T. f_equal. lia. }
  rewrite (round_aux_location 53 1024 _ q r 52 e'); rewrite ?TM, <- ?EM; try lia.
  - unfold M. replace (e' - 52) with (E - k) by lia. apply round_aux_scaled; [lia|lia|fold T; lia].
  - intros ->. assert (Hlog : Z.log2 M < 52) by (apply Z.log2_lt_pow2; lia).
    rewrite fexp_eq. lia.
Qed.

(** The constants [recip_step] rewrites, and what it makes of them. *)
Definition power_of_two (b : Z) : bool :=
  (frac_of f64 b =? 0) && (1 <=? exp_of f64 b) && (exp_of f64 b <=? 2045).

Definition inverse_bits (b : Z) : Z :=
  Z.lor (Z.land b 0x8000000000000000) (Z.shiftl (2046 - exp_of f64 b) 52).

Lemma of_bits_pow2 s e : 1 <= e <= 2046 -> of_bits f64 (pack f64 s e 0) = S754_finite s two52 (e - 1075).
Proof.
  intros He. unfold of_bits. cbv zeta. destruct (pack_fields f64 f64_ok s e 0) as (-> & -> & ->); [cbn [ew f64]; lia|cbn [mw f64]; lia|].
  change (exp_ones f64) with 2047. replace (e =? 2047) with false by (symmetry; apply Z.eqb_neq; lia).
  replace (e =? 0) with false by (symmetry; apply Z.eqb_neq; lia). change (0 + 2 ^ mw f64) with (Zpos two52).
  change (qmin f64) with (-1074). replace (e + -1074 - 1) with (e - 1075) by lia. reflexivity.
Qed.

Lemma inverse_bits_pack b : power_of_two b = true ->
  inverse_bits b = pack f64 (sign_of f64 b) (2046 - exp_of f64 b) 0.
Proof.
  unfold power_of_two. intros H. apply andb_true_iff in H as [H H3]. apply andb_true_iff in H as [_ H2].
  apply Z.leb_le in H2, H3. unfold inverse_bits. set (e := 2046 - exp_of f64 b).
  assert (He : 1 <= e <= 2045) by (unfold e; lia). clearbody e.
  rewrite pack_eq by lia. rewrite Z.add_0_r. apply Z.bits_inj'. intros i Hi.
  change 0x8000000000000000 with (2 ^ 63). rewrite Z.lor_spec, Z.land_spec, Z.pow2_bits_eqb by lia.
  unfold sign_of. cbn [mw ew f64]. change (52 + 11) with 63.
  destruct (Z.lt_ge_cases i 52) as [Hi52|Hi52].
  - rewrite Z.shiftl_spec_low, Z.mul_pow2_bits_low by lia. destruct (Z.eqb_spec 63 i); [lia|]. rewrite andb_false_r. reflexivity.
  - rewrite Z.shiftl_spec, Z.mul_pow2_bits by lia. destruct (Z.eqb_spec 63 i) as [<-|Hne].
    + rewrite andb_true_r. rewrite (Z.testbit_eqb e) by lia. change (63 - 52) with 11.
      rewrite (Z.div_small e) by lia. cbn [Z.modulo]. rewrite orb_false_r. rewrite (Z.testbit_eqb (_ * _ + _)) by lia.
      change (63 - 52) with 11. rewrite Z.div_add_l, (Z.div_small e), Z.add_0_r by lia. destruct (Z.testbit b 63); reflexivity.
    + rewrite andb_false_r. cbn [orb]. destruct (Z.lt_ge_cases (i - 52) 11) as [Hl|Hl].
      * pose proof (wrap_testbit 11 (b2z (Z.testbit b 63) * 2 ^ 11 + e) (i - 52) ltac:(lia)) as W.
        unfold wrap in W. rewrite (Z.add_comm (_ * _)), Z_mod_plus_full, Z.mod_small in W by lia. rewrite W.
        replace (i - 52 <? 11) with true by (symmetry; apply Z.ltb_lt; lia). rewrite Z.add_comm. reflexivity.
      * rewrite !(Z.testbit_eqb _ (i - 52)) by lia.
        assert (Hp : 2 ^ 12 <= 2 ^ (i - 52)) by (apply Z.pow_le_mono_r; lia).
        pose proof (b2z_range (Z.testbit b 63)). rewrite !Z.div_small by lia. reflexivity.
Qed.

Lemma pow2_pack b : in64 b -> power_of_two b = true -> b = pack f64 (sign_of f64 b) (exp_of f64 b) 0.
Proof.
  intros Hb H. unfold power_of_two in H. apply andb_true_iff in H as [H _]. apply andb_true_iff in H as [H _].
  apply Z.eqb_eq in H. rewrite <- (pack_unpack f64 f64_ok b Hb) at 1. rewrite H. reflexivity.
Qed.

(** Dividing by a power of two is multiplying by its inverse. *)
Lemma fdiv_pow2 a b : in64 b -> power_of_two b = true -> fdiv f64 a b = fmul f64 a (inverse_bits b).
Proof.
  intros Hb H. pose proof H as H'. unfold power_of_two in H'. apply andb_true_iff in H' as [H' H3].
  apply andb_true_iff in H' as [_ H2]. apply Z.leb_le in H2, H3.
  rewrite (inverse_bits_pack b H). rewrite (pow2_pack b Hb H) at 1.
  set (s := sign_of f64 b). set (e := exp_of f64 b) in *.
  assert (N : forall e, 1 <= e <= 2046 -> is_nan f64 (pack f64 s e 0) = false).
  { intros x Hx. apply (of_bits_finite _ _ _ _ (of_bits_pow2 s x Hx)). }
  unfold fdiv, fmul. rewrite !arith2_num by (apply N; lia). rewrite !of_bits_pow2 by lia.
  rewrite sf_div_pow2 by (exists a; reflexivity). replace (- (e - 1075) - 104) with (2046 - e - 1075) by lia. reflexivity.
Qed.

Lemma inverse_not_nan b : power_of_two b = true -> is_nan f64 (inverse_bits b) = false /\ in64 (inverse_bits b).
Proof.
  intros H. rewrite inverse_bits_pack by exact H. split; [|apply pack_range64].
  unfold power_of_two in H. apply andb_true_iff in H as [H H3].
  apply andb_true_iff in H as [_ H2]. apply Z.leb_le in H2, H3.
  apply (of_bits_finite _ _ _ _ (of_bits_pow2 (sign_of f64 b) (2046 - exp_of f64 b) ltac:(lia))).
Qed.

(** ** Fused multiply-add on an exact product *)

Definition is_finite (b : Z) : bool := negb (is_nan f64 b) && negb (is_inf f64 b).

(** The product of [a] and [b] is a double, so rounding it changes nothing. *)
Definition exact_product (a b : Z) : bool :=
  is_finite a && is_finite b && is_finite (fmul f64 a b) &&
  (scaled f64 a * scaled f64 b =? scaled f64 (fmul f64 a b) * 2 ^ 1074).

(** Sign, significand and exponent of a finite number, zeros included. *)
Definition triple (b : Z) : bool * Z * Z :=
  match of_bits f64 b with S754_finite s m e => (s, Zpos m, e) | _ => (sign_of f64 b, 0, 0) end.

Definition signed (s : bool) (m : Z) : Z := (if s then -1 else 1) * m.

Lemma exact_sum_at sx mx ex sy my ey q : q <= ex -> q <= ey ->
  exact_sum 53 1024 (sx, mx, ex) (sy, my, ey) =
  binary_normalize 53 1024 (signed sx (mx * 2 ^ (ex - q)) + signed sy (my * 2 ^ (ey - q))) q (sx && sy).
Proof.
  intros Hx Hy. unfold exact_sum. set (t := Z.min ex ey). rewrite !Z.shiftl_mul_pow2 by lia.
  replace t with (q + (t - q)) at 3 by lia. rewrite <- normalize_scaled by lia. f_equal. unfold signed.
  replace (ex - q) with (ex - t + (t - q)) by lia. replace (ey - q) with (ey - t + (t - q)) by lia.
  rewrite !Z.pow_add_r by lia. ring.
Qed.

Lemma shl_align_fst m e q : q <= e -> Zpos (fst (shl_align m e q)) = Zpos m * 2 ^ (e - q).
Proof.
  intros H. unfold shl_align. destruct (q - e) as [|d|d] eqn:E; cbn [fst]; [|lia|].
  - replace (e - q) with 0 by lia. lia.
  - rewrite iter_xO. do 2 f_equal. lia.
Qed.

Lemma normalize_canonical s m e z : canonical64 m e ->
  binary_normalize 53 1024 (signed s (Zpos m)) e z = S754_finite s m e.
Proof.
  intros (H & He & _ & _).
  assert (R : forall s, binary_round 53 1024 s m e = S754_finite s m e).
  { intros s'. pose proof (round_down_exact 53 1024 s' m 0 e ltac:(lia)) as R. rewrite Z.add_0_r in R.
    apply R; [exact H|lia|lia]. }
  destruct s; apply R.
Qed.

Lemma cond_signed s m : cond_Zopp s m = signed s m.
Proof. unfold signed. destruct s; cbn [cond_Zopp]; lia. Qed.

(** Adding two finite numbers is rounding their sum. *)
Lemma fadd_exact_sum a b : is_finite a = true -> is_finite b = true ->
  SFadd 53 1024 (of_bits f64 a) (of_bits f64 b) = exact_sum 53 1024 (triple a) (triple b).
Proof.
  unfold is_finite. intros Ha Hb. apply andb_true_iff in Ha as [Na Ia]. apply andb_true_iff in Hb as [Nb Ib].
  apply negb_true_iff in Na, Ia, Nb, Ib. unfold triple.
  destruct (of_bits f64 a) as [sa|sa| |sa ma ea] eqn:Ea;
    [|apply of_bits_inf in Ea; destruct Ea as (_ & _ & Ea); congruence|apply of_bits_nan in Ea; congruence|];
  (destruct (of_bits f64 b) as [sb|sb| |sb mb eb] eqn:Eb;
    [|apply of_bits_inf in Eb; destruct Eb as (_ & _ & Eb); congruence|apply of_bits_nan in Eb; congruence|]).
  - apply of_bits_zero in Ea as (-> & _). apply of_bits_zero in Eb as (-> & _). destruct sa, sb; reflexivity.
  - rewrite (exact_sum_at _ _ _ _ _ _ (Z.min 0 eb)) by lia. rewrite Z.mul_0_l.
    replace (signed (sign_of f64 a) 0 + signed sb (Zpos mb * 2 ^ (eb - Z.min 0 eb))) with (signed sb (Zpos mb) * 2 ^ (eb - Z.min 0 eb))
      by (unfold signed; ring).
    rewrite normalize_scaled by lia. replace (Z.min 0 eb + (eb - Z.min 0 eb)) with eb by lia.
    rewrite normalize_canonical by apply (of_bits_finite _ _ _ _ Eb). reflexivity.
  - rewrite (exact_sum_at _ _ _ _ _ _ (Z.min 0 ea)) by lia. rewrite Z.mul_0_l.
    replace (signed sa (Zpos ma * 2 ^ (ea - Z.min 0 ea)) + signed (sign_of f64 b) 0) with (signed sa (Zpos ma) * 2 ^ (ea - Z.min 0 ea))
      by (unfold signed; ring).
    rewrite normalize_scaled by lia. replace (Z.min 0 ea + (ea - Z.min 0 ea)) with ea by lia.
    rewrite normalize_canonical by apply (of_bits_finite _ _ _ _ Ea). reflexivity.
  - rewrite (exact_sum_at _ _ _ _ _ _ (Z.min ea eb)) by lia. cbn [SFadd]. cbv zeta.
    rewrite !shl_align_fst, !cond_signed by lia.
    set (x := Zpos ma * _). set (y := Zpos mb * _).
    assert (0 < x) by (apply Z.mul_pos_pos; [lia|apply Z.pow_pos_nonneg; lia]).
    assert (0 < y) by (apply Z.mul_pos_pos; [lia|apply Z.pow_pos_nonneg; lia]).
    destruct sa, sb; try reflexivity. cbn [andb].
    destruct (signed true x + signed true y) eqn:E; [|reflexivity|reflexivity]. unfold signed in E. lia.
Qed.

Lemma scale_eq a b x y d : 0 <= x -> 0 <= y -> a * 2 ^ x = b * 2 ^ y -> 0 <= x - d -> 0 <= y - d ->
  a * 2 ^ (x - d) = b * 2 ^ (y - d).
Proof.
  intros Hx Hy H Hxd Hyd. destruct (Z.lt_ge_cases d 0) as [Hd|Hd].
  - replace (x - d) with (x + - d) by lia. replace (y - d) with (y + - d) by lia.
    rewrite !Z.pow_add_r, !Z.mul_assoc, H by lia. reflexivity.
  - apply (Z.mul_reg_r _ _ (2 ^ d)); [pose proof (Z.pow_pos_nonneg 2 d); lia|].
    rewrite <- !Z.mul_assoc, <- !Z.pow_add_r by lia.
    replace (x - d + d) with x by lia. replace (y - d + d) with y by lia. exact H.
Qed.

(** An exact product, as the numbers it is made of. *)
Lemma exact_product_triple a b : exact_product a b = true ->
  exists sp sa ma ea sb mb eb mp ep,
    triple a = (sa, ma, ea) /\ triple b = (sb, mb, eb) /\ triple (fmul f64 a b) = (sp, mp, ep) /\
    sp = xorb (sign_of f64 a) (sign_of f64 b) /\
    forall q, q <= ea + eb -> q <= ep -> ma * mb * 2 ^ (ea + eb - q) = mp * 2 ^ (ep - q).
Proof.
  unfold exact_product, is_finite. intros H. apply andb_true_iff in H as [H Hx]. apply Z.eqb_eq in Hx.
  apply andb_true_iff in H as [H Fp]. apply andb_true_iff in H as [Fa Fb].
  apply andb_true_iff in Fa as [Na Ia], Fb as [Nb Ib], Fp as [Np Ip]. apply negb_true_iff in Na, Ia, Nb, Ib, Np, Ip.
  assert (Ep : fmul f64 a b = to_bits f64 (SFmul 53 1024 (of_bits f64 a) (of_bits f64 b))).
  { unfold fmul. rewrite arith2_num, Na by exact Nb. reflexivity. }
  unfold triple.
  destruct (of_bits f64 a) as [sa|sa| |sa ma ea] eqn:Ea;
    [|apply of_bits_inf in Ea; destruct Ea as (_ & _ & Ea); congruence|apply of_bits_nan in Ea; congruence|];
  (destruct (of_bits f64 b) as [sb|sb| |sb mb eb] eqn:Eb;
    [|apply of_bits_inf in Eb; destruct Eb as (_ & _ & Eb); congruence|apply of_bits_nan in Eb; congruence|]).
  1-3: assert (Z0 : of_bits f64 (fmul f64 a b) = S754_zero (xorb sa sb))
    by (rewrite Ep; cbn [SFmul]; destruct (xorb sa sb); reflexivity);
    assert (Sa : sign_of f64 a = sa) by (apply of_bits_zero in Ea || apply of_bits_finite in Ea; intuition);
    assert (Sb : sign_of f64 b = sb) by (apply of_bits_zero in Eb || apply of_bits_finite in Eb; intuition);
    apply of_bits_zero in Z0 as Sp; destruct Sp as [Sp _]; rewrite Z0, Sp, Sa, Sb; do 9 eexists;
    (split; [reflexivity|]); (split; [reflexivity|]); (split; [reflexivity|]); (split; [reflexivity|]); intros; lia.
  destruct (of_bits_finite _ _ _ _ Ea) as ((_ & Rea & _) & -> & _ & _ & Va).
  destruct (of_bits_finite _ _ _ _ Eb) as ((_ & Reb & _) & -> & _ & _ & Vb).
  set (p := fmul f64 a b) in *.
  assert (Pa : 0 < Zpos ma * 2 ^ (ea + 1074)) by (apply Z.mul_pos_pos; [lia|apply Z.pow_pos_nonneg; lia]).
  assert (Pb : 0 < Zpos mb * 2 ^ (eb + 1074)) by (apply Z.mul_pos_pos; [lia|apply Z.pow_pos_nonneg; lia]).
  assert (Pab : 0 < (Zpos ma * 2 ^ (ea + 1074)) * (Zpos mb * 2 ^ (eb + 1074))) by (apply Z.mul_pos_pos; assumption).
  assert (P1074 : 0 < 2 ^ 1074) by (apply Z.pow_pos_nonneg; lia).
  destruct (of_bits f64 p) as [sp|sp| |sp mp ep] eqn:Epp;
    [|apply of_bits_inf in Epp; destruct Epp as (_ & _ & Epp); congruence|apply of_bits_nan in Epp; congruence|].
  { exfalso. apply of_bits_zero in Epp as (_ & _ & _ & V). rewrite Va, Vb, V in Hx. destruct sa, sb; nia. }
  destruct (of_bits_finite _ _ _ _ Epp) as ((_ & Rep & _) & _ & _ & _ & Vp). rewrite Va, Vb, Vp in Hx.
  assert (Pp : 0 < Zpos mp * 2 ^ (ep + 1074)) by (apply Z.mul_pos_pos; [lia|apply Z.pow_pos_nonneg; lia]).
  assert (X : sp = xorb sa sb /\ (Zpos ma * 2 ^ (ea + 1074)) * (Zpos mb * 2 ^ (eb + 1074)) = Zpos mp * 2 ^ (ep + 1074) * 2 ^ 1074)
    by (destruct sa, sb, sp; split; try reflexivity; nia).
  destruct X as [-> X]. clear Hx. do 9 eexists.
  (split; [reflexivity|]); (split; [reflexivity|]); (split; [reflexivity|]); (split; [reflexivity|]). intros q H1 H2.
  replace (ea + eb - q) with (ea + eb + 2148 - (q + 2148)) by lia.
  replace (ep - q) with (ep + 2148 - (q + 2148)) by lia. apply scale_eq; try lia.
  replace (ea + eb + 2148) with (ea + 1074 + (eb + 1074)) by lia. replace (ep + 2148) with (ep + 1074 + 1074) by lia.
  rewrite (Z.pow_add_r 2 (ea + 1074)), (Z.pow_add_r 2 (ep + 1074)) by lia. rewrite !Z.mul_assoc in *. rewrite <- X. ring.
Qed.

Lemma triple_parts b s m e : triple b = (s, m, e) -> is_finite b = true ->
  sign_of f64 b = s /\ match of_bits f64 b with S754_finite _ m e => (Zpos m, e) | _ => (0, 0) end = (m, e).
Proof.
  unfold triple, is_finite. intros H F. destruct (of_bits f64 b) as [x|x| |x p q] eqn:E.
  - injection H as <- <- <-. auto.
  - apply of_bits_inf in E as (_ & _ & E). rewrite E, andb_false_r in F. discriminate.
  - apply of_bits_nan in E. rewrite E in F. discriminate.
  - injection H as <- <- <-. split; [apply (of_bits_finite _ _ _ _ E)|reflexivity].
Qed.

Lemma finite_spec b : is_finite b = true -> is_nan f64 b = false /\ is_inf f64 b = false.
Proof. unfold is_finite. intros H. apply andb_true_iff in H as [H1 H2]. apply negb_true_iff in H1, H2. auto. Qed.

Lemma exact_sum_same sx mx ex px py y q0 : (forall q, q <= ex -> q <= py -> mx * 2 ^ (ex - q) = px * 2 ^ (py - q)) ->
  q0 = snd y -> exact_sum 53 1024 (sx, mx, ex) y = exact_sum 53 1024 (sx, px, py) y.
Proof.
  destruct y as [[sy my] ey]. cbn [snd]. intros H ->. set (q := Z.min (Z.min ex py) ey).
  rewrite !(exact_sum_at _ _ _ _ _ _ q) by lia. rewrite H by lia. reflexivity.
Qed.

Lemma is_inf_bits c : in64 c -> is_inf f64 c = true -> of_bits f64 c = S754_infinity (sign_of f64 c).
Proof.
  intros Hc H. unfold is_inf, of_bits in *. cbv zeta. apply andb_true_iff in H as [H1 H2]. rewrite H1, H2. reflexivity.
Qed.

(** The fused operation on an exact product is the product, then the sum. *)
Lemma fma_exact a b c : in64 c -> exact_product a b = true -> fma f64 a b c = fadd f64 (fmul f64 a b) c.
Proof.
  intros Hc H. destruct (exact_product_triple a b H) as (sp & sa & ma & ea & sb & mb & eb & mp & ep & Ta & Tb & Tp & Es & Ev).
  unfold exact_product in H. apply andb_true_iff in H as [H _]. apply andb_true_iff in H as [H Fp].
  apply andb_true_iff in H as [Fa Fb].
  destruct (triple_parts a _ _ _ Ta Fa) as [Sa Pa]. destruct (triple_parts b _ _ _ Tb Fb) as [Sb Pb].
  destruct (finite_spec _ Fa) as [Na Ia], (finite_spec _ Fb) as [Nb Ib], (finite_spec _ Fp) as [Np Ip].
  unfold fma. cbv zeta. rewrite Ia, Ib, Pa, Pb, !andb_false_r, !andb_false_l. cbn [orb].
  unfold process_nans3. rewrite (snan_not_nan a Na), (snan_not_nan b Nb). cbn [orb].
  unfold fadd, arith2. rewrite (process_nans_not_l (fmul f64 a b)) by exact Np.
  destruct (is_nan f64 c) eqn:Nc; [destruct (is_snan f64 c); reflexivity|]. rewrite (snan_not_nan c Nc).
  rewrite process_nans_not_l, Nb by exact Na. cbv iota beta.
  change (prec f64) with 53. change (emax f64) with 1024.
  destruct (is_inf f64 c) eqn:Ic.
  - pose proof (is_inf_bits c Hc Ic) as Bc. rewrite <- (to_of_bits c Hc Nc) at 1. rewrite Bc.
    destruct (of_bits f64 (fmul f64 a b)) eqn:Bp; try reflexivity.
    + apply of_bits_inf in Bp as (_ & _ & Bp). congruence.
    + apply of_bits_nan in Bp. congruence.
  - assert (Fc : is_finite c = true) by (unfold is_finite; rewrite Nc, Ic; reflexivity).
    rewrite fadd_exact_sum by assumption. destruct (triple c) as [[sc mc] ec] eqn:Tc.
    destruct (triple_parts c _ _ _ Tc Fc) as [Sc Pc]. rewrite Pc, Tp, Sc, <- Es. f_equal.
    exact (exact_sum_same sp (ma * mb) (ea + eb) mp ep (sc, mc, ec) ec Ev eq_refl).
Qed.

(** *** Negated products *)

Lemma pack_neg s e m : pack f64 (negb s) e m = fneg f64 (pack f64 s e m).
Proof.
  unfold pack, fneg. cbn [mw ew f64]. change (52 + 11) with 63.
  rewrite <- !Z.add_assoc. set (R := wrap 11 e * 2 ^ 52 + wrap 52 m).
  assert (HR : 0 <= R < 2 ^ 63).
  { unfold R. pose proof (wrap_range 11 e ltac:(lia)). pose proof (wrap_range 52 m ltac:(lia)). lia. }
  clearbody R. assert (HL : Z.land R (2 ^ 63) = 0).
  { apply Z.bits_inj'. intros i Hi. rewrite Z.land_spec, Z.bits_0, Z.pow2_bits_eqb by lia.
    destruct (Z.eqb_spec 63 i) as [<-|]; [|apply andb_false_r]. rewrite Z.testbit_eqb, Z.div_small by lia. reflexivity. }
  pose proof (Z.add_nocarry_lxor R (2 ^ 63) HL) as EL.
  destruct s; cbn [negb b2z].
  - replace (1 * 2 ^ 63 + R) with (R + 2 ^ 63) by lia. rewrite EL, Z.lxor_assoc, Z.lxor_nilpotent, Z.lxor_0_r. lia.
  - rewrite Z.mul_0_l, Z.add_0_l, <- EL. lia.
Qed.

Lemma to_bits_neg x : x <> S754_nan -> to_bits f64 (sf_neg x) = fneg f64 (to_bits f64 x).
Proof. destruct x; intros H; cbn [sf_neg to_bits]; try apply pack_neg; [contradiction|destruct (_ <? _); apply pack_neg]. Qed.

Lemma round_tail_neg s x : round_tail 53 1024 (negb s) x = sf_neg (round_tail 53 1024 s x).
Proof.
  destruct x as [r e]. unfold round_tail. destruct (shr_fexp _ _ _ _ _) as [r' e'].
  destruct (shr_m r'); try reflexivity. destruct (_ <=? _); reflexivity.
Qed.

Lemma sf_mul_neg x y : SFmul 53 1024 (sf_neg x) y = sf_neg (SFmul 53 1024 x y).
Proof.
  destruct x as [s|s| |s m k], y as [s'|s'| |s' m' k']; cbn [SFmul sf_neg]; try reflexivity;
    rewrite <- ?negb_xorb_l; try reflexivity. rewrite !round_aux_tail. apply round_tail_neg.
Qed.

Lemma fmul_fneg a b : is_nan f64 a = false -> is_nan f64 b = false -> is_nan f64 (fmul f64 a b) = false ->
  fmul f64 (fneg f64 a) b = fneg f64 (fmul f64 a b).
Proof.
  intros Ha Hb Hp. unfold fmul in *. rewrite !arith2_num in * by exact Hb. rewrite is_nan_fneg, Ha in *.
  rewrite of_bits_fneg, sf_mul_neg. apply to_bits_neg. intros E. rewrite E in Hp. discriminate.
Qed.

Lemma is_inf_fneg b : is_inf f64 (fneg f64 b) = is_inf f64 b.
Proof. unfold is_inf. destruct (fneg_fields b) as (-> & -> & _). reflexivity. Qed.

Lemma scaled_fneg b : scaled f64 (fneg f64 b) = - scaled f64 b.
Proof.
  unfold scaled. cbv zeta. destruct (fneg_fields b) as (-> & -> & ->).
  destruct (sign_of f64 b); cbn [negb]; lia.
Qed.

Lemma exact_product_fneg a b : exact_product a b = true ->
  exact_product (fneg f64 a) b = true /\ fmul f64 (fneg f64 a) b = fneg f64 (fmul f64 a b).
Proof.
  unfold exact_product. intros H. apply andb_true_iff in H as [H Hx]. apply Z.eqb_eq in Hx.
  apply andb_true_iff in H as [H Fp]. apply andb_true_iff in H as [Fa Fb].
  assert (E : fmul f64 (fneg f64 a) b = fneg f64 (fmul f64 a b)) by (apply fmul_fneg; apply finite_spec; assumption).
  split; [|exact E]. rewrite E. unfold is_finite in *. rewrite !is_nan_fneg, !is_inf_fneg, Fa, Fb, Fp. cbn [andb].
  apply Z.eqb_eq. rewrite !scaled_fneg. lia.
Qed.

(** FMSUB and FNMSUB on an exact product. *)
Lemma fmsub_exact a b c : in64 c -> exact_product a b = true -> fmsub f64 a b c = fsub f64 c (fmul f64 a b).
Proof.
  intros Hc H. destruct (exact_product_fneg a b H) as [H' E]. unfold fmsub. rewrite fma_exact, E by assumption.
  apply fadd_fneg_l. unfold exact_product in H. apply andb_true_iff in H as [H _]. apply andb_true_iff in H as [_ F].
  apply (finite_spec _ F).
Qed.

Lemma fnmsub_exact a b c : in64 c -> is_nan f64 c = false -> exact_product a b = true ->
  fnmsub f64 a b c = fsub f64 (fmul f64 a b) c.
Proof.
  intros Hc Nc H. unfold fnmsub. rewrite fma_exact; [apply fadd_fneg_r, Nc|apply fneg_range64, Hc|exact H].
Qed.

(** FADD commutes when the first operand is a number. *)
Lemma fadd_comm a b : is_nan f64 a = false -> fadd f64 a b = fadd f64 b a.
Proof.
  intros H. unfold fadd, arith2. rewrite process_nans_not_l, process_nans_not_r, sf_add_comm by exact H. reflexivity.
Qed.

(** ** Comparing with a zero *)

Lemma fcompare_zero a z : u64 (Z.shiftl z 1) = 0 -> in64 z -> fcompare f64 a z = fcompare f64 a f_zero.
Proof.
  intros H Hz. assert (z = 0 \/ z = 2 ^ 63) as [-> | ->].
  { rewrite Z.shiftl_mul_pow2 in H by lia. unfold wrap in H. change (2 ^ 64) with (2 ^ 63 * 2 ^ 1) in H.
    rewrite Z.mul_mod_distr_r in H by lia. unfold in64 in Hz.
    destruct (Z.lt_ge_cases z (2 ^ 63)); [rewrite Z.mod_small in H; lia|right].
    replace (z mod 2 ^ 63) with (z - 2 ^ 63) in H by (apply Z.mod_unique with 1; lia). lia. }
  - reflexivity.
  - reflexivity.
Qed.

Lemma fdiv_one_r a : in64 a -> is_snan f64 a = false -> fdiv f64 a f_one = a.
Proof.
  intros Ha Hs. rewrite fdiv_pow2 by (reflexivity || (vm_compute; split; [discriminate|reflexivity])). change (inverse_bits f_one) with f_one. apply fmul_one_r; assumption.
Qed.
