(* ===== verification/X87IROptProps.v ===== *)
(** Pass 0 of the optimizer: a compare whose condition codes are overwritten
    before anything reads them can be dropped.

    The optimizer's passes keep what a run computes. *)

From S2P Require Import Prelude F64 GuestMem IROperand X87IR X87IRBuild Fpu X87IREval X87IRInv.
From S2P Require Import X87IRWf X87IROptimize X87IRSim.
From S2P Require X87Runtime CompareProps.
From S2P Require Import X87IRUses F64Round.

(** ** The pass as a recursion from the end of the run *)

Fixpoint mark_dead (l : list Node) : list Node * bool :=
  match l with
  | [] => ([], false)
  | n :: t =>
      let '(t', overwritten) := mark_dead t in
      if dead n then (n :: t', overwritten)
      else match op n with
      | FStsw => (n :: t', false)
      | FCmp | FTst => ((if overwritten then set_flag n kDead else n) :: t', true)
      | _ => (n :: t', overwritten)
      end
  end.

Lemma list_set_mid {A} (l1 l2 : list A) x y : list_set (l1 ++ x :: l2) (length l1) y = l1 ++ y :: l2.
Proof. induction l1; cbn; congruence. Qed.

Lemma node_mid c l1 n l2 : nodes c = l1 ++ n :: l2 -> node c (Z.of_nat (length l1)) = n.
Proof. intros H. unfold node. rewrite H, Nat2Z.id, app_nth2, Nat.sub_diag by lia. reflexivity. Qed.

Lemma set_node_mid c l1 n l2 f : nodes c = l1 ++ n :: l2 ->
  set_node c (Z.of_nat (length l1)) f = with_nodes c (l1 ++ f n :: l2).
Proof.
  intros H. unfold set_node. rewrite (node_mid c l1 n l2 H), H, Nat2Z.id, list_set_mid. reflexivity.
Qed.

Lemma dead_compares_suffix l2 : forall c l1, nodes c = l1 ++ l2 ->
  fold_left dead_compares_step (rev (map Z.of_nat (seq (length l1) (length l2)))) (c, false) =
  (with_nodes c (l1 ++ fst (mark_dead l2)), snd (mark_dead l2)).
Proof.
  induction l2 as [|n t IH]; intros c l1 H.
  - cbn. rewrite <- H. destruct c; reflexivity.
  - cbn [length seq map rev]. rewrite fold_left_app.
    replace (S (length l1)) with (length (l1 ++ [n])) by (rewrite length_app; cbn; lia).
    rewrite (IH c (l1 ++ [n])) by (rewrite H, <- app_assoc; reflexivity).
    cbn [mark_dead]. destruct (mark_dead t) as [t' ow]. cbn [fst snd fold_left].
    rewrite <- app_assoc. cbn [app]. set (c' := with_nodes c (l1 ++ n :: t')).
    assert (Hn : nodes c' = l1 ++ n :: t') by reflexivity.
    unfold dead_compares_step. rewrite (node_mid c' l1 n t' Hn).
    destruct (dead n); [reflexivity|].
    destruct (op n); try reflexivity; destruct ow; try reflexivity;
      unfold kill; rewrite (set_node_mid c' l1 n t' _ Hn); reflexivity.
Qed.

Lemma pass_dead_compares_eq c : pass_dead_compares c = with_nodes c (fst (mark_dead (nodes c))).
Proof.
  unfold pass_dead_compares, indices.
  pose proof (dead_compares_suffix (nodes c) c [] eq_refl) as H. cbn [length app] in H. rewrite H. reflexivity.
Qed.

(** ** What the dropped compares change *)

Definition off_cc (w : Z) : Z := Z.land w (Z.lnot X87Runtime.kCC0123).

(** The states agree but for the condition codes, and on them too unless a
    compare is about to write them. *)
Record agree (overwritten : bool) (s s' : ir) : Prop := {
  ag_vals : vals s' = vals s;
  ag_regs : i_regs s' = i_regs s;
  ag_mem : i_mem s' = i_mem s;
  ag_cw : i_cw s' = i_cw s;
  ag_nzcv : i_nzcv s' = i_nzcv s;
  ag_off : off_cc (i_sw s') = off_cc (i_sw s);
  ag_sw : overwritten = false -> i_sw s' = i_sw s
}.

Lemma off_cc_set w c : off_cc (set_cc w c) = off_cc w.
Proof.
  unfold off_cc, set_cc. rewrite Z.land_lor_distr_l, <- Z.land_assoc, Z.land_diag.
  replace (Z.land (CompareProps.cc_bits c) (Z.lnot X87Runtime.kCC0123)) with 0; [apply Z.lor_0_r|].
  destruct c as [[]|]; reflexivity.
Qed.

Section Eval.
Context (segbase : Z -> Z) (stack0 : list (option Z)) (top0 : Z).
#[local] Abbreviation eval_node := (eval_node segbase stack0 top0).

Lemma agree_weaken ow s s' : agree false s s' -> agree ow s s'.
Proof. intros []. constructor; auto. Qed.

Lemma agree_node ow s s' n : agree ow s s' ->
  (op n = FStsw -> ow = false) ->
  agree (match op n with FCmp | FTst => false | _ => ow end) (eval_node s n) (eval_node s' n) \/ dead n = true.
Proof.
  intros A Hst. destruct (dead n) eqn:Ed; [right; reflexivity|left].
  destruct s as [l r m w u z], s' as [l' r' m' w' u' z'].
  destruct A as [E1 E2 E3 E4 E5 E6 E7]. cbn [vals i_regs i_mem i_cw i_sw i_nzcv] in *. subst l' r' m' w' z'.
  unfold X87IREval.eval_node, node_sem. cbv zeta. rewrite Ed.
  destruct (op n); constructor; try reflexivity; try exact E6; try exact E7;
    cbn [fst snd add_val ir_sw vals i_sw i_regs]; rewrite ?E7 by auto; try reflexivity.
  all: rewrite ?off_cc_set; try exact E6.
  all: intros _; unfold set_cc; f_equal; exact E6.
Qed.

Lemma mark_dead_agree l : forall s s',
  agree (snd (mark_dead l)) s s' -> agree false (eval segbase stack0 top0 s l) (eval segbase stack0 top0 s' (fst (mark_dead l))).
Proof.
  induction l as [|n t IH]; intros s s' A; [exact A|]. cbn [mark_dead] in A |- *.
  destruct (mark_dead t) as [t' ow]. cbn [fst snd] in IH. unfold eval in *. cbn [fold_left].
  destruct (dead n) eqn:Ed.
  - cbn [fst snd fold_left] in A |- *. apply IH. destruct A.
    unfold X87IREval.eval_node. rewrite !node_sem_dead by exact Ed. constructor; cbn; assumption || congruence.
  - assert (Keep : forall ow', (op n = FStsw -> ow' = false) -> agree ow' s s' ->
      agree (match op n with FCmp | FTst => false | _ => ow' end) (eval_node s n) (eval_node s' n)).
    { intros ow' Hst A'. destruct (agree_node ow' s s' n A' Hst) as [X|X]; [exact X|congruence]. }
    assert (Drop : forall o, op n = o -> (o = FCmp \/ o = FTst) -> agree true s s' ->
      agree true (eval_node s n) (eval_node s' (set_flag n kDead))).
    { intros o Ho Hc [E1 E2 E3 E4 E5 E6 E7]. unfold X87IREval.eval_node.
      assert (Hd : dead (set_flag n kDead) = true).
      { unfold dead, set_flag. cbn [X87IR.with_flags flags]. unfold nz. rewrite Z.land_lor_distr_l.
        change (Z.land kDead kDead) with kDead. destruct (Z.eqb_spec (Z.lor (Z.land (flags n) kDead) kDead) 0) as [E|]; [|reflexivity].
        apply Z.lor_eq_0_iff in E. destruct E as [_ E]. discriminate. }
      rewrite (node_sem_dead _ _ _ s' _ _ Hd).
      unfold node_sem. cbv zeta. rewrite Ed, Ho.
      destruct Hc as [-> | ->]; constructor; cbn; try assumption; try congruence; rewrite ?off_cc_set; assumption. }
    destruct (op n) eqn:Eo; cbn [fst snd fold_left] in A |- *;
      try (apply IH, Keep; [discriminate|exact A]).
    + apply IH. destruct ow; [apply (Drop FCmp); auto|]. apply (Keep true); [discriminate|exact A].
    + apply IH. destruct ow; [apply (Drop FTst); auto|]. apply (Keep true); [discriminate|exact A].
    + apply IH, agree_weaken, Keep; [reflexivity|exact A].
Qed.
End Eval.

Lemma mark_dead_length l : length (fst (mark_dead l)) = length l.
Proof.
  induction l as [|n t IH]; [reflexivity|]. cbn [mark_dead]. destruct (mark_dead t) as [t' ow]. cbn [fst] in IH.
  destruct (dead n); [cbn; congruence|]. destruct (op n); cbn; congruence.
Qed.

Lemma dead_compares_result segbase s nzcv c :
  ir_result (pass_dead_compares c) s (eval_context segbase (pass_dead_compares c) s nzcv) =
  ir_result c s (eval_context segbase c s nzcv).
Proof.
  rewrite pass_dead_compares_eq. unfold eval_context. cbn [nodes with_nodes].
  set (e := eval _ _ _ _ (nodes c)). set (e' := eval _ _ _ _ (fst _)).
  assert (A : agree false e e').
  { apply mark_dead_agree. constructor; reflexivity. }
  destruct A as [E1 E2 E3 E4 E5 _ E7]. specialize (E7 eq_refl).
  unfold ir_result. cbn [slot_val top_delta last_fcomi with_nodes]. rewrite E2, E3, E4, E5, E7.
  f_equal. apply map_ext. intros v. unfold slot_value. rewrite E1. reflexivity.
Qed.

(** What a context computes from a machine state. *)
Abbreviation meaning segbase s nzcv c := (ir_result c s (eval_context segbase c s nzcv)).

(** ** Dead nodes *)

Section Dse.
Context (segbase : Z -> Z) (s0 : fpu) (nzcv0 : Z) (base : Context).
#[local] Abbreviation going := (going segbase s0 nzcv0 base).

Lemma dse_step_going c val uc i : going c val uc -> 0 <= i < num_nodes c ->
  going (fst (dse_step (c, uc) i)) val (snd (dse_step (c, uc) i)).
Proof.
  intros H Hi. unfold dse_step. destruct (dead (node c i)) eqn:Ed; [exact H|].
  destruct (has_effect _) eqn:Ee; [exact H|]. destruct (Z.eqb_spec (zget uc i) 0) as [E|]; [|exact H].
  apply going_kill; assumption.
Qed.

Lemma dse_sweep c val uc l : going c val uc -> (forall i, In i l -> 0 <= i < num_nodes c) ->
  let s := fold_left dse_step l (c, uc) in going (fst s) val (snd s).
Proof.
  intros H Hl. destruct (going_sweep segbase s0 nzcv0 base dse_step (fun _ v => v = val) l c val uc) as (v & E & G);
    [|reflexivity|exact H|exact Hl|subst v; exact G].
  intros c1 v uc1 i -> H1 Hi. exists val. split; [reflexivity|]. apply dse_step_going; assumption.
Qed.

Lemma pass_dse_going c val uc : going c val uc -> exists uc', going (pass_dse c) val uc'.
Proof.
  intros H. apply going_recount in H. unfold pass_dse. cbv zeta.
  assert (R : forall i, In i (rev (indices c)) -> 0 <= i < num_nodes c).
  { intros i Hi. apply indices_in. apply in_rev. exact Hi. }
  pose proof (dse_sweep c val _ _ H R) as H1. cbv zeta in H1.
  destruct (fold_left dse_step (rev (indices c)) (c, use_counts c)) as [c1 uc1]. cbn [fst snd] in H1.
  eexists. apply (dse_sweep c1 val uc1); [exact H1|]. intros i Hi.
  rewrite (going_num _ _ _ _ _ _ _ H1), <- (going_num _ _ _ _ _ _ _ H). apply R, Hi.
Qed.
End Dse.

(** ** Folding negations *)

Section FNegFold.
Context (segbase : Z -> Z) (s0 : fpu) (nzcv0 : Z) (base : Context).
#[local] Abbreviation going := (going segbase s0 nzcv0 base).
Context (val0 : Z -> Z).

(** The values do not change, and a live negation's is no NaN. *)
Definition negs_ok (c : Context) (val : Z -> Z) : Prop :=
  val = val0 /\
  forall k, 0 <= k < num_nodes c -> dead (node c k) = false -> op (node c k) = FNeg -> is_nan f64 (val k) = false.

Lemma negs_ok_absorb c val i m f : negs_ok c val -> 0 <= i < num_nodes c -> 0 <= m < num_nodes c ->
  op (f (node c i)) <> FNeg -> negs_ok (kill (set_node c i f) m) val.
Proof.
  intros [E H] Hi Hm Ho. split; [exact E|]. intros k Hk Hd Hop. unfold kill in *. rewrite !num_set_node in Hk.
  destruct (Z.eq_dec m k) as [->|].
  - rewrite node_set_eq, dead_set_flag in Hd by (rewrite num_set_node; exact Hk). discriminate.
  - rewrite (node_set_ne _ m) in Hd, Hop by lia. destruct (Z.eq_dec i k) as [->|].
    + rewrite node_set_eq in Hop by exact Hk. contradiction.
    + rewrite node_set_ne in Hd, Hop by lia. apply H; assumption.
Qed.

(** A single-use negation: what it negates. *)
Lemma single_neg c val uc m i : going c val uc -> negs_ok c val -> single_use_op c uc m FNeg = true -> m < i ->
  0 <= m < num_nodes c /\ has_effect (op (node c m)) = false /\ zget uc m = 1 /\
  let y := input (node c m) 0 in
  0 <= y < m /\ ref_ok c val y /\ val m = fneg f64 (val y) /\ is_nan f64 (val y) = false.
Proof.
  intros H [_ Hn] Hs Hmi. apply single_use_spec in Hs as (Hm & Ho & Hd & Hu). cbv zeta.
  destruct (going_arith _ _ _ _ c val uc m (fneg f64 (val (input (node c m) 0))) H Hm Hd) as [E _]; [rewrite Ho; reflexivity|].
  destruct (going_ref _ _ _ _ c val uc m 0 H Hm Hd) as [R1 R2]; [rewrite Ho; cbn; lia|].
  repeat split; try lia; try assumption; [rewrite Ho; reflexivity|].
  rewrite <- is_nan_fneg, <- E. apply Hn; assumption.
Qed.

Lemma three (l : list Z) : length l = 3%nat -> exists a b d, l = [a; b; d].
Proof. destruct l as [|a [|b [|d [|]]]]; try discriminate. intros _. exists a, b, d. reflexivity. Qed.

Lemma fneg_add_r c val uc i : going c val uc -> negs_ok c val -> 0 <= i < num_nodes c -> dead (node c i) = false ->
  op (node c i) = FAdd \/ op (node c i) = FSub -> single_use_op c uc (input (node c i) 1) FNeg = true ->
  let y := input (node c (input (node c i) 1)) 0 in
  let o := if Op_eqb (op (node c i)) FAdd then FSub else FAdd in
  going (kill (set_node c i (fun n => with_inputs (with_op n o) (zset (inputs n) 1 y))) (input (node c i) 1)) val
        (bump_id 1 (zset uc (input (node c i) 1) 0) y).
Proof.
  intros H Hn Hi Hd Ho Hs. cbv zeta.
  assert (A : arity (op (node c i)) = 2) by (destruct Ho as [-> | ->]; reflexivity).
  destruct (going_ref _ _ _ _ c val uc i 0 H Hi Hd ltac:(lia)) as [R0 L0].
  destruct (going_ref _ _ _ _ c val uc i 1 H Hi Hd ltac:(lia)) as [R1 L1].
  destruct (single_neg c val uc _ i H Hn Hs ltac:(lia)) as (Hm & He & Hu & Hy & Ly & Ev & Enan).
  set (m := input (node c i) 1) in *. set (y := input (node c m) 0) in *.
  destruct (three _ (go_len _ _ _ _ c val uc H i Hi)) as (a & b & d & El).
  assert (Em : m = b) by (unfold m, input; rewrite El; reflexivity).
  assert (Ea : input (node c i) 0 = a) by (unfold input; rewrite El; reflexivity).
  set (o := if Op_eqb (op (node c i)) FAdd then FSub else FAdd).
  assert (X : exists x, arith_val (op (node c i)) (fun j => val (input (node c i) j)) = Some x /\
                        arith_val o (fun j => val (nth (Z.to_nat j) [a; y; d] (-1))) = Some x).
  { unfold o. destruct Ho as [-> | ->]; cbn [Op_eqb]; eexists; (split; [reflexivity|]);
      cbn [arith_val Z.to_nat Pos.to_nat Pos.iter_op nth Nat.add]; rewrite Ea; fold m; rewrite Ev;
      [rewrite fadd_fneg_r|rewrite fsub_fneg_r]; auto. }
  destruct X as (x & X1 & X2). destruct (going_arith _ _ _ _ c val uc i x H Hi Hd X1) as [Ex EM].
  replace (set_node c i _) with (set_node c i (fun n => with_inputs (with_op n o) [a; y; d]))
    by (unfold set_node; rewrite El; reflexivity).
  apply (going_fuse segbase s0 nzcv0 base c val uc i m o [a; y; d] [y] x); try assumption; try lia; try reflexivity.
  - rewrite El, Em. count.
  - intros z Hz. rewrite El, Em. count.
  - count.
  - intros j Hj. assert (j = 0 \/ j = 1) as [-> | ->].
    { unfold o in Hj. destruct (Op_eqb _ _) in Hj; cbn in Hj; lia. }
    + change (nth _ _ _) with a. rewrite <- Ea. auto.
    + change (nth _ _ _) with y. split; [lia|exact Ly].
Qed.

Lemma fneg_add_l c val uc i : going c val uc -> negs_ok c val -> 0 <= i < num_nodes c -> dead (node c i) = false ->
  op (node c i) = FAdd -> single_use_op c uc (input (node c i) 0) FNeg = true ->
  let x := input (node c (input (node c i) 0)) 0 in
  going (kill (set_node c i (fun n =>
           with_inputs (with_op n FSub) (zset (zset (inputs n) 0 (input (node c i) 1)) 1 x))) (input (node c i) 0)) val
        (bump_id 1 (zset uc (input (node c i) 0) 0) x).
Proof.
  intros H Hn Hi Hd Ho Hs. cbv zeta.
  assert (A : arity (op (node c i)) = 2) by (rewrite Ho; reflexivity).
  destruct (going_ref _ _ _ _ c val uc i 0 H Hi Hd ltac:(lia)) as [R0 L0].
  destruct (going_ref _ _ _ _ c val uc i 1 H Hi Hd ltac:(lia)) as [R1 L1].
  destruct (single_neg c val uc _ i H Hn Hs ltac:(lia)) as (Hm & He & Hu & Hy & Ly & Ev & Enan).
  set (m := input (node c i) 0) in *. set (y := input (node c m) 0) in *.
  destruct (three _ (go_len _ _ _ _ c val uc H i Hi)) as (a & b & d & El).
  assert (Em : m = a) by (unfold m, input; rewrite El; reflexivity).
  assert (Eb : input (node c i) 1 = b) by (unfold input; rewrite El; reflexivity).
  assert (X1 : arith_val (op (node c i)) (fun j => val (input (node c i) j)) = Some (fsub f64 (val b) (val y))).
  { rewrite Ho. cbn [arith_val]. fold m. rewrite Ev, Eb, fadd_fneg_l; auto. }
  destruct (going_arith _ _ _ _ c val uc i _ H Hi Hd X1) as [Ex EM].
  replace (set_node c i _) with (set_node c i (fun n => with_inputs (with_op n FSub) [b; y; d]))
    by (unfold set_node; rewrite El, Eb; reflexivity).
  apply (going_fuse segbase s0 nzcv0 base c val uc i m FSub [b; y; d] [y] (fsub f64 (val b) (val y)));
    try assumption; try lia; try reflexivity.
  - rewrite El, Em. count.
  - intros z Hz. rewrite El, Em. count.
  - count.
  - intros j Hj. assert (j = 0 \/ j = 1) as [-> | ->] by (cbn in Hj; lia).
    + change (nth _ _ _) with b. rewrite <- Eb. auto.
    + change (nth _ _ _) with y. split; [lia|exact Ly].
Qed.

Lemma fneg_mul c val uc i : going c val uc -> 0 <= i < num_nodes c -> dead (node c i) = false ->
  op (node c i) = FNeg -> single_use_op c uc (input (node c i) 0) FMul = true ->
  let a := input (node c (input (node c i) 0)) 0 in let b := input (node c (input (node c i) 0)) 1 in
  going (kill (set_node c i (fun n => with_inputs (with_op n FNMul) (zset (zset (inputs n) 0 a) 1 b)))
              (input (node c i) 0)) val
        (bump_id 1 (bump_id 1 (zset uc (input (node c i) 0) 0) a) b).
Proof.
  intros H Hi Hd Ho Hs. cbv zeta.
  destruct (going_ref _ _ _ _ c val uc i 0 H Hi Hd ltac:(rewrite Ho; cbn; lia)) as [R0 L0].
  apply single_use_spec in Hs as (Hm & Hmo & Hmd & Hu). set (m := input (node c i) 0) in *.
  destruct (going_ref _ _ _ _ c val uc m 0 H Hm Hmd ltac:(rewrite Hmo; cbn; lia)) as [Ra La].
  destruct (going_ref _ _ _ _ c val uc m 1 H Hm Hmd ltac:(rewrite Hmo; cbn; lia)) as [Rb Lb].
  set (a := input (node c m) 0) in *. set (b := input (node c m) 1) in *.
  destruct (going_arith _ _ _ _ c val uc m (fmul f64 (val a) (val b)) H Hm Hmd) as [Ev _]; [rewrite Hmo; reflexivity|].
  destruct (going_arith _ _ _ _ c val uc i (fnmul f64 (val a) (val b)) H Hi Hd) as [Ex EM].
  { rewrite Ho. cbn [arith_val]. fold m. rewrite Ev. reflexivity. }
  destruct (three _ (go_len _ _ _ _ c val uc H i Hi)) as (p & q & r & El).
  assert (Em : m = p) by (unfold m, input; rewrite El; reflexivity).
  replace (set_node c i _) with (set_node c i (fun n => with_inputs (with_op n FNMul) [a; b; r]))
    by (unfold set_node; rewrite El; reflexivity).
  apply (going_fuse segbase s0 nzcv0 base c val uc i m FNMul [a; b; r] [a; b] (fnmul f64 (val a) (val b)));
    try assumption; try lia; try reflexivity.
  - rewrite Hmo. reflexivity.
  - rewrite El, Em. count.
  - intros z Hz. rewrite El, Em. count.
  - count.
  - intros j Hj. assert (j = 0 \/ j = 1) as [-> | ->] by (cbn in Hj; lia).
    + change (nth _ _ _) with a. split; [lia|exact La].
    + change (nth _ _ _) with b. split; [lia|exact Lb].
Qed.

Lemma fneg_fold_step_going c val uc i : negs_ok c val -> going c val uc -> 0 <= i < num_nodes c ->
  exists val', negs_ok (fst (fneg_fold_step (c, uc) i)) val' /\
    going (fst (fneg_fold_step (c, uc) i)) val' (snd (fneg_fold_step (c, uc) i)).
Proof.
  intros Hn H Hi. exists val. unfold fneg_fold_step. cbv zeta.
  assert (Hm : forall m o, single_use_op c uc m o = true -> 0 <= m < num_nodes c).
  { intros m o Hs. apply single_use_spec in Hs. apply Hs. }
  destruct (dead (node c i)) eqn:Hd; [auto|].
  destruct (op (node c i)) eqn:Ho; try (split; assumption).
  - destruct (single_use_op c uc (input (node c i) 1) FNeg) eqn:S1.
    + cbn [fst snd]. split; [apply negs_ok_absorb; eauto; cbn; rewrite Ho; discriminate|].
      apply (fneg_add_r c val uc i); auto.
    + destruct (Op_eqb FAdd FAdd && _) eqn:S0; [|auto]. cbn [Op_eqb] in S0. apply andb_true_iff in S0 as [_ S0].
      cbn [fst snd]. split; [apply negs_ok_absorb; eauto; cbn; discriminate|].
      apply (fneg_add_l c val uc i); auto.
  - destruct (single_use_op c uc (input (node c i) 1) FNeg) eqn:S1; [|auto].
    cbn [fst snd]. split; [apply negs_ok_absorb; eauto; cbn; rewrite Ho; discriminate|].
    apply (fneg_add_r c val uc i); auto.
  - destruct (single_use_op c uc (input (node c i) 0) FMul) eqn:S1; [|auto].
    cbn [fst snd]. split; [apply negs_ok_absorb; eauto; cbn; discriminate|].
    apply (fneg_mul c val uc i); auto.
Qed.

Lemma pass_fneg_fold_going c uc : negs_ok c val0 -> going c val0 uc ->
  exists uc', going (pass_fneg_fold c) val0 uc'.
Proof.
  intros Hn H. apply going_recount in H. unfold pass_fneg_fold.
  destruct (going_sweep segbase s0 nzcv0 base fneg_fold_step negs_ok (indices c) c val0 _ fneg_fold_step_going Hn H
    (indices_in c)) as (v & [-> _] & G).
  eexists. exact G.
Qed.
End FNegFold.
