(* ===== verification/FmaProps.v ===== *)
(** The multiply-add pass keeps what a run computes when the products it
    fuses are exact: there, rounding once or twice is the same. *)

From S2P Require Import Prelude F64 X87State X87Props F64Props GuestMem IROperand X87IR X87IRBuild Fpu X87IREval.
From S2P Require Import X87IRInv X87IRWf X87IROptimize X87IRSim X87IRUses F64Round F64Algebra X87IROptProps.

Section Fma.
Context (segbase : Z -> Z) (s0 : fpu) (nzcv0 : Z) (base : Context).
#[local] Abbreviation going := (going segbase s0 nzcv0 base).

(** What the pass needs of the values of a run. *)
Record fma_ok (c : Context) (val : Z -> Z) : Prop := {
  fo_range : forall k, in64 (val k);
  fo_exact : forall k, 0 <= k < num_nodes c -> dead (node c k) = false -> op (node c k) = FMul ->
    exact_product (val (input (node c k) 0)) (val (input (node c k) 1)) = true;
  fo_sub : forall k, 0 <= k < num_nodes c -> dead (node c k) = false -> op (node c k) = FSub ->
    is_nan f64 (val (input (node c k) 1)) = false
}.

Lemma fma_ok_absorb c val i m f : fma_ok c val -> 0 <= i < num_nodes c -> 0 <= m < num_nodes c ->
  op (f (node c i)) <> FMul -> op (f (node c i)) <> FSub -> fma_ok (kill (set_node c i f) m) val.
Proof.
  intros [H1 H2 H3] Hi Hm Ho Ho'.
  assert (G : forall k, 0 <= k < num_nodes c -> dead (node (kill (set_node c i f) m) k) = false ->
    k = i /\ node (kill (set_node c i f) m) k = f (node c i) \/ node (kill (set_node c i f) m) k = node c k).
  { intros k Hk Hd. unfold kill in *. destruct (Z.eq_dec m k) as [->|].
    - rewrite node_set_eq, dead_set_flag in Hd by (rewrite num_set_node; exact Hk). discriminate.
    - rewrite (node_set_ne _ m) by lia. destruct (Z.eq_dec i k) as [->|].
      + left. rewrite node_set_eq by exact Hk. auto.
      + right. apply node_set_ne; lia. }
  constructor; [exact H1| |]; intros k Hk Hd Hop; unfold kill in Hk; rewrite !num_set_node in Hk;
    destruct (G k Hk Hd) as [[_ E]|E]; rewrite E in *; try contradiction; auto.
Qed.

(** Node [i] absorbs the product at its input [j]. *)
Lemma fma_absorb c val uc i j o x : going c val uc -> 0 <= i < num_nodes c -> dead (node c i) = false ->
  op (node c i) = FAdd \/ op (node c i) = FSub -> j = 0 \/ j = 1 ->
  let m := input (node c i) j in let a := input (node c m) 0 in let b := input (node c m) 1 in
  let l := [a; b; input (node c i) (1 - j)] in
  op (node c m) = FMul -> dead (node c m) = false -> zget uc m = 1 -> arity o = 3 ->
  arith_val (op (node c i)) (fun j => val (input (node c i) j)) = Some x ->
  arith_val o (fun j => val (nth (Z.to_nat j) l (-1))) = Some x ->
  going (kill (set_node c i (fun n => with_inputs (with_op n o) l)) m) val
        (bump_id 1 (bump_id 1 (zset uc m 0) a) b).
Proof.
  intros H Hi Hd Ho Hj m a b l Hmo Hmd Hu Ha X1 X2.
  assert (A : arity (op (node c i)) = 2) by (destruct Ho as [-> | ->]; reflexivity).
  destruct (going_ref _ _ _ _ c val uc i j H Hi Hd ltac:(lia)) as [Rm _].
  destruct (going_ref _ _ _ _ c val uc i (1 - j) H Hi Hd ltac:(lia)) as [Ro Lo]. fold m in Rm.
  assert (Hm : 0 <= m < num_nodes c) by lia.
  destruct (going_ref _ _ _ _ c val uc m 0 H Hm Hmd ltac:(rewrite Hmo; cbn; lia)) as [Ra La].
  destruct (going_ref _ _ _ _ c val uc m 1 H Hm Hmd ltac:(rewrite Hmo; cbn; lia)) as [Rb Lb].
  fold a in Ra, La. fold b in Rb, Lb.
  destruct (going_arith _ _ _ _ c val uc i x H Hi Hd X1) as [Ex EM].
  destruct (three _ (go_len _ _ _ _ c val uc H i Hi)) as (p & q & r & El).
  assert (Hin : forall z, occ z l + (if m =? z then 1 else 0) <= occ z (inputs (node c i)) + occ z [a; b]).
  { assert (I0 : input (node c i) 0 = p) by (unfold input; rewrite El; reflexivity).
    assert (I1 : input (node c i) 1 = q) by (unfold input; rewrite El; reflexivity).
    intros z. unfold l. rewrite El. subst m. destruct Hj as [-> | ->];
      [change (1 - 0) with 1|change (1 - 1) with 0]; rewrite ?I0, ?I1; count. }
  apply (going_fuse segbase s0 nzcv0 base c val uc i m o l [a; b] x); try assumption; try lia; try reflexivity.
  - rewrite Hmo. reflexivity.
  - apply occ_in, input_in; [apply (go_len _ _ _ _ c val uc H i Hi)|lia].
  - intros z _. apply Hin.
  - count.
  - intros k Hk. assert (k = 0 \/ k = 1 \/ k = 2) as [-> | [-> | ->]] by lia.
    + change (nth _ _ _) with a. split; [lia|assumption].
    + change (nth _ _ _) with b. split; [lia|assumption].
    + change (nth _ _ _) with (input (node c i) (1 - j)). auto.
Qed.

Lemma exact_num a b : exact_product a b = true -> is_nan f64 (fmul f64 a b) = false.
Proof.
  unfold exact_product. intros H. apply andb_true_iff in H as [H _]. apply andb_true_iff in H as [_ F].
  apply (finite_spec _ F).
Qed.

Lemma try_fuse_going c val uc i j c' uc' : fma_ok c val -> going c val uc -> 0 <= i < num_nodes c ->
  dead (node c i) = false -> op (node c i) = FAdd \/ op (node c i) = FSub -> j = 0 \/ j = 1 ->
  try_fuse false c uc i j = Some (c', uc') -> fma_ok c' val /\ going c' val uc'.
Proof.
  intros Hf H Hi Hd Ho Hj. unfold try_fuse. cbv zeta. set (m := input (node c i) j).
  destruct (in_nodes c m) eqn:Em; [|discriminate]. cbn [negb].
  destruct (Op_eqb (op (node c m)) FMul) eqn:Eo; [|discriminate]. cbn [negb orb andb].
  destruct (dead (node c m)) eqn:Ed; [discriminate|]. destruct (Z.eqb_spec (zget uc m) 1) as [Eu|]; [|discriminate].
  cbn [negb]. intros X. apply some_inj in X. injection X as <- <-. apply Op_eqb_eq in Eo.
  assert (Hm : 0 <= m < num_nodes c).
  { unfold in_nodes in Em. apply andb_true_iff in Em as [E1 E2]. apply Z.leb_le in E1. apply Z.ltb_lt in E2. lia. }
  set (o := if Op_eqb (op (node c i)) FAdd then FMAdd else if j =? 0 then FNMSub else FMSub).
  pose proof (fo_exact c val Hf m Hm Ed Eo) as Hx. pose proof (exact_num _ _ Hx) as Hnum.
  set (a := input (node c m) 0) in *. set (b := input (node c m) 1) in *.
  destruct (going_arith _ _ _ _ c val uc m (fmul f64 (val a) (val b)) H Hm Ed) as [Ev _]; [rewrite Eo; reflexivity|].
  pose proof (fo_range c val Hf (input (node c i) (1 - j))) as Rother.
  split.
  { apply fma_ok_absorb; try assumption; cbn [with_inputs with_op op]; unfold o;
      destruct (Op_eqb _ _), (j =? 0); discriminate. }
  assert (G : exists x, arith_val (op (node c i)) (fun j => val (input (node c i) j)) = Some x /\
    arith_val o (fun k => val (nth (Z.to_nat k) [a; b; input (node c i) (1 - j)] (-1))) = Some x).
  { unfold o. destruct Ho as [Ho | Ho]; destruct Hj as [Ej | Ej]; subst j; subst m; rewrite Ho;
      eexists; (split; [cbn [arith_val]; reflexivity|]); rewrite Ev.
    - exact (f_equal Some (fma_exact _ _ _ Rother Hx)).
    - rewrite <- fadd_comm by exact Hnum. exact (f_equal Some (fma_exact _ _ _ Rother Hx)).
    - exact (f_equal Some (fnmsub_exact _ _ _ Rother (fo_sub c val Hf i Hi Hd Ho) Hx)).
    - exact (f_equal Some (fmsub_exact _ _ _ Rother Hx)). }
  destruct G as (x & X1 & X2).
  apply (fma_absorb c val uc i j o x H Hi Hd Ho Hj Eo Ed Eu); [|exact X1|exact X2].
  unfold o. destruct (Op_eqb _ _), (j =? 0); reflexivity.
Qed.

Lemma fma_step_going c val uc i : fma_ok c val -> going c val uc -> 0 <= i < num_nodes c ->
  exists val', fma_ok (fst (fma_step false (c, uc) i)) val' /\
    going (fst (fma_step false (c, uc) i)) val' (snd (fma_step false (c, uc) i)).
Proof.
  intros Hf H Hi. exists val. unfold fma_step. destruct (dead (node c i)) eqn:Hd; [auto|]. cbn [andb].
  destruct (negb (Op_eqb (op (node c i)) FAdd) && negb (Op_eqb (op (node c i)) FSub)) eqn:Eo; [auto|].
  assert (Ho : op (node c i) = FAdd \/ op (node c i) = FSub).
  { apply andb_false_iff in Eo as [Eo|Eo]; apply negb_false_iff, Op_eqb_eq in Eo; auto. }
  destruct (try_fuse false c uc i 0) as [[c' uc']|] eqn:E0; [exact (try_fuse_going c val uc i 0 c' uc' Hf H Hi Hd Ho (or_introl eq_refl) E0)|].
  destruct (try_fuse false c uc i 1) as [[c' uc']|] eqn:E1; [exact (try_fuse_going c val uc i 1 c' uc' Hf H Hi Hd Ho (or_intror eq_refl) E1)|].
  auto.
Qed.

Lemma pass_fma_going c val uc : fma_ok c val -> going c val uc ->
  exists val' uc', going (pass_fma c) val' uc'.
Proof.
  intros Hf H. apply going_recount in H. unfold pass_fma.
  destruct (going_sweep segbase s0 nzcv0 base (fma_step false) fma_ok (indices c) c val _ fma_step_going Hf H
    (indices_in c)) as (v & _ & G).
  eauto.
Qed.
End Fma.
