(* ===== verification/ConstArithProps.v ===== *)
(** Constant arithmetic keeps what a run computes: identity folds, division
    by a power of two, and the compare with zero. *)

From S2P Require Import Prelude F64 X87State X87Props F64Props GuestMem IROperand X87IR X87IRBuild Fpu X87IREval.
From S2P Require Import X87IRInv X87IRWf X87IROptimize X87IRSim X87IRUses F64Round F64Algebra X87IROptProps.

(** ** Redirecting the uses of a node *)

Lemma occ_redirect x i keep l : keep <> i ->
  occ x (map (redirect i keep) l) = if x =? i then 0 else occ x l + (if x =? keep then occ i l else 0).
Proof.
  intros Hne. induction l as [|v l IH]; cbn [map].
  - rewrite !occ_nil. destruct (x =? i), (x =? keep); reflexivity.
  - rewrite !occ_cons, IH. unfold redirect.
    destruct (Z.eqb_spec v i), (Z.eqb_spec x i), (Z.eqb_spec x keep); subst; try lia;
      repeat match goal with |- context [?a =? ?b] => destruct (Z.eqb_spec a b) end; lia.
Qed.

Definition redirected (i keep : Z) (u : Node) : Node :=
  if dead u then u else with_inputs u (map (redirect i keep) (inputs u)).

Lemma replace_num c i keep : num_nodes (replace_uses c i keep) = num_nodes c.
Proof. unfold num_nodes, replace_uses. cbn [nodes with_slots with_nodes]. rewrite length_map. reflexivity. Qed.

Lemma replace_node c i keep k : 0 <= k < num_nodes c -> node (replace_uses c i keep) k = redirected i keep (node c k).
Proof.
  intros Hk. unfold num_nodes in Hk. unfold node, replace_uses. cbn [nodes with_slots with_nodes].
  rewrite (nth_indep _ null_node (redirected i keep null_node)) by (rewrite length_map; lia).
  exact (map_nth (redirected i keep) _ _ _).
Qed.

Lemma redirected_dead i keep u : dead (redirected i keep u) = dead u.
Proof. unfold redirected. destruct (dead u) eqn:E; [exact E|exact E]. Qed.

Lemma redirected_op i keep u : op (redirected i keep u) = op u /\ flags (redirected i keep u) = flags u.
Proof. unfold redirected. destruct (dead u); auto. Qed.

Lemma redirected_length i keep u : length (inputs (redirected i keep u)) = length (inputs u).
Proof. unfold redirected. destruct (dead u); [reflexivity|]. apply length_map. Qed.

Lemma redirected_uses i keep u x : keep <> i -> node_uses (redirected i keep u) x =
  if x =? i then 0 else node_uses u x + (if x =? keep then node_uses u i else 0).
Proof.
  intros Hne. unfold node_uses. rewrite redirected_dead. destruct (dead u) eqn:Ed.
  - destruct (x =? i), (x =? keep); reflexivity.
  - unfold redirected. rewrite Ed. apply occ_redirect, Hne.
Qed.

Lemma replace_uses_count c i keep x : keep <> i -> uses (replace_uses c i keep) x =
  if x =? i then 0 else uses c x + (if x =? keep then uses c i else 0).
Proof.
  intros Hne. unfold uses, replace_uses. cbn [nodes slot_val with_slots with_nodes].
  rewrite occ_redirect, map_map by exact Hne.
  assert (G : forall l, zsum (map (fun u => node_uses (redirected i keep u) x) l) =
    if x =? i then 0 else zsum (map (fun n => node_uses n x) l) +
      (if x =? keep then zsum (map (fun n => node_uses n i) l) else 0)).
  { induction l as [|u l IH]; cbn [map zsum fold_right].
    - destruct (x =? i), (x =? keep); reflexivity.
    - fold (zsum (map (fun u => node_uses (redirected i keep u) x) l)).
      fold (zsum (map (fun n => node_uses n x) l)). fold (zsum (map (fun n => node_uses n i) l)).
      rewrite IH, redirected_uses by exact Hne. destruct (x =? i), (x =? keep); lia. }
  specialize (G (nodes c)). unfold redirected in G. rewrite G. destruct (x =? i), (x =? keep); lia.
Qed.

Lemma redirected_input i keep u j : dead u = false -> length (inputs u) = 3%nat -> 0 <= j < 3 ->
  input (redirected i keep u) j = redirect i keep (input u j).
Proof.
  intros Hd Hl Hj. unfold redirected, input. rewrite Hd. cbn [inputs with_inputs].
  destruct (three _ Hl) as (a & b & d & ->).
  assert (j = 0 \/ j = 1 \/ j = 2) as [-> | [-> | ->]] by lia; reflexivity.
Qed.

Lemma node_sem_inputs segbase st t s v u l :
  (op u = FStsw -> input (with_inputs u l) 1 = input u 1 /\ input (with_inputs u l) 2 = input u 2) ->
  node_sem segbase st t s v (with_inputs u l) = node_sem segbase st t s v u.
Proof.
  intros H. unfold node_sem. cbv zeta. change (dead (with_inputs u l)) with (dead u).
  change (op (with_inputs u l)) with (op u). destruct (dead u); [reflexivity|].
  destruct (op u); try reflexivity. destruct (H eq_refl) as [-> ->]. reflexivity.
Qed.

Section ConstArith.
Context (segbase : Z -> Z) (s0 : fpu) (nzcv0 : Z) (base : Context).
#[local] Abbreviation going := (going segbase s0 nzcv0 base).
#[local] Abbreviation M := (M segbase s0 nzcv0 base).
#[local] Abbreviation consistent := (consistent segbase s0 nzcv0 base).

(** The operations an identity fold can remove. *)
Definition foldable (o : Op) : bool := match o with FMul | FDiv | FSub | FAdd => true | _ => false end.

(** The register number and the [top_delta] an FSTSW keeps in its inputs do
    not happen to name a node a fold could remove. *)
Definition meta_ok (c : Context) : Prop :=
  forall k j, 0 <= k < num_nodes c -> dead (node c k) = false -> op (node c k) = FStsw -> j = 1 \/ j = 2 ->
    0 <= input (node c k) j < num_nodes c -> foldable (op (node c (input (node c k) j))) = false.

Record ca_ok (c : Context) (val : Z -> Z) : Prop := {
  ca_range : forall k, in64 (val k);
  ca_snan : forall k, is_snan f64 (val k) = false;
  ca_meta : meta_ok c
}.

(** [c'] has the nodes of [c], some of them dropped, with operations that
    stay on their side of [foldable]. *)
Lemma meta_ok_sub c c' : num_nodes c' = num_nodes c -> meta_ok c ->
  (forall k, 0 <= k < num_nodes c -> (foldable (op (node c' k)) = true -> foldable (op (node c k)) = true) /\
     (dead (node c' k) = false -> op (node c' k) = FStsw ->
        dead (node c k) = false /\ op (node c k) = FStsw /\ forall j, j = 1 \/ j = 2 -> input (node c' k) j = input (node c k) j)) ->
  meta_ok c'.
Proof.
  intros Hn H Hk k j Hk1 Hd Ho Hj. rewrite Hn in *. destruct (Hk k Hk1) as [_ Hs]. destruct (Hs Hd Ho) as (Hd' & Ho' & Hi).
  rewrite Hi by exact Hj. intros Hin. specialize (H k j Hk1 Hd' Ho' Hj Hin).
  destruct (foldable (op (node c' _))) eqn:E; [|reflexivity]. apply (proj1 (Hk _ Hin)) in E. congruence.
Qed.

(** Updating a node that is not an FSTSW. *)
Lemma meta_ok_set c i f : 0 <= i < num_nodes c -> meta_ok c ->
  (foldable (op (f (node c i))) = true -> foldable (op (node c i)) = true) ->
  (dead (f (node c i)) = false -> op (f (node c i)) <> FStsw) -> meta_ok (set_node c i f).
Proof.
  intros Hi H Hf Hs. apply (meta_ok_sub c); [apply num_set_node|exact H|]. intros k Hk.
  destruct (Z.eq_dec i k) as [->|].
  - rewrite node_set_eq by exact Hk. split; [exact Hf|]. intros Hd Ho. exfalso. exact (Hs Hd Ho).
  - rewrite node_set_ne by lia. auto.
Qed.

Lemma meta_ok_kill c i : 0 <= i < num_nodes c -> meta_ok c -> meta_ok (kill c i).
Proof. intros Hi H. apply meta_ok_set; try assumption; [auto|]. rewrite dead_set_flag. discriminate. Qed.

(** *** Dropping an unused node *)

Lemma going_drop c val uc i : going c val uc -> 0 <= i < num_nodes c -> has_effect (op (node c i)) = false ->
  uses c i <= 0 -> going (kill c i) val uc.
Proof.
  intros [C K Hl Hf] Hi He Hu. constructor.
  - apply consistent_kill; assumption.
  - apply (counted_le c _ uc); [exact K|apply num_set_node|reflexivity|].
    intros x Hx Hle. rewrite uses_kill by exact Hi. pose proof (node_uses_nonneg (node c i) x). lia.
  - intros k Hk. unfold kill in *. rewrite num_set_node in Hk. destruct (Z.eq_dec i k) as [<-|].
    + rewrite node_set_eq by exact Hi. apply (Hl i Hi).
    + rewrite node_set_ne by lia. apply Hl, Hk.
  - intros k Hk. unfold kill in *. rewrite num_set_node in Hk. destruct (Z.eq_dec i k) as [<-|].
    + rewrite node_set_eq, has_flag_set_dead by exact Hi. apply Hf, Hi.
    + rewrite node_set_ne by lia. apply Hf, Hk.
Qed.

(** A constant whose last use is gone. *)
Lemma drop_constant c val uc k : going c val uc -> ca_ok c val -> 0 <= k < num_nodes c ->
  has_effect (op (node c k)) = false ->
  let c' := if zget uc k =? 0 then kill c k else c in ca_ok c' val /\ going c' val uc.
Proof.
  intros H [R1 R2 R3] Hk He. cbv zeta. destruct (Z.eqb_spec (zget uc k) 0) as [E|]; [|split; [constructor|]; assumption].
  split; [constructor; try assumption; apply meta_ok_kill; assumption|]. apply going_drop; try assumption.
  pose proof (cd_le c uc (go_counted _ _ _ _ _ _ _ H) k Hk). lia.
Qed.

(** *** Values of constants *)

Lemma const_value c val uc k : going c val uc -> 0 <= k < num_nodes c -> dead (node c k) = false ->
  (op (node c k) = ConstF64 -> val k = imm_bits (node c k)) /\ (op (node c k) = ConstOne -> val k = f_one) /\
  (op (node c k) = ConstZero -> val k = 0).
Proof.
  intros [C _ _ _] Hk Hd. destruct (cs_nodes _ _ _ _ _ _ C k Hk) as [Hs _ _]. specialize (Hs Hd). cbv zeta in Hs.
  destruct Hs as [_ Hs]. unfold node_sem in Hs. rewrite Hd in Hs. cbv zeta in Hs.
  repeat split; intros E; rewrite E in Hs; symmetry; exact Hs.
Qed.

Lemma in_nodes_spec c i : in_nodes c i = true <-> 0 <= i < num_nodes c.
Proof. unfold in_nodes. rewrite andb_true_iff, Z.leb_le, Z.ltb_lt. reflexivity. Qed.

Lemma const_is_spec c val uc k alias b : going c val uc -> const_is c k alias b = true ->
  (alias = None \/ alias = Some ConstOne /\ b = f_one \/ alias = Some ConstZero /\ b = 0) ->
  0 <= k < num_nodes c /\ dead (node c k) = false /\ has_effect (op (node c k)) = false /\ val k = b.
Proof.
  intros H Hc Ha. unfold const_is in Hc. cbv zeta in Hc.
  destruct (in_nodes c k) eqn:Ek; [|discriminate]. cbn [negb] in Hc. apply in_nodes_spec in Ek.
  destruct (dead (node c k)) eqn:Ed; [discriminate|]. destruct (const_value c val uc k H Ek Ed) as (V1 & V2 & V3).
  assert (G : op (node c k) = ConstF64 /\ imm_bits (node c k) = b \/ alias = Some (op (node c k))).
  { destruct alias as [o|].
    - destruct (Op_eqb (op (node c k)) o) eqn:Eo; [right; f_equal; symmetry; apply Op_eqb_eq, Eo|].
      apply andb_true_iff in Hc as [E1 E2]. apply Op_eqb_eq in E1. apply Z.eqb_eq in E2. auto.
    - apply andb_true_iff in Hc as [E1 E2]. apply Op_eqb_eq in E1. apply Z.eqb_eq in E2. auto. }
  destruct G as [[Eo <-]|Eo].
  - rewrite Eo in *. auto.
  - destruct Ha as [-> | [[-> ->] | [-> ->]]]; [discriminate| |]; injection Eo as Eo; rewrite <- Eo in *; auto.
Qed.

(** *** Folding an identity *)

Lemma slot_replace c i keep d : 0 <= d < Z.of_nat (length (slot_val c)) ->
  slot (replace_uses c i keep) d = redirect i keep (slot c d).
Proof.
  intros Hd. unfold slot, zget, replace_uses. cbn [slot_val with_slots with_nodes].
  rewrite (nth_indep (map _ _) 0 (redirect i keep 0)) by (rewrite length_map; lia). exact (map_nth (redirect i keep) _ _ _).
Qed.

Lemma consistent_replace c val uc i keep : going c val uc -> meta_ok c ->
  0 <= i < num_nodes c -> 0 <= keep < i -> ref_ok c val keep -> val keep = val i -> foldable (op (node c i)) = true ->
  consistent (replace_uses c i keep) val.
Proof.
  intros [[C1 C2 C3 C4 C5 C6] K Hl _] Hmeta Hi Hk Href Hval Hfold.
  assert (Rok : forall x, 0 <= x < num_nodes c -> ref_ok c val x -> ref_ok (replace_uses c i keep) val x).
  { intros x Hx H. unfold ref_ok in *. rewrite replace_node, redirected_dead by exact Hx. exact H. }
  assert (Vr : forall x, val (redirect i keep x) = val x).
  { intros x. unfold redirect. destruct (Z.eqb_spec x i) as [->|]; [exact Hval|reflexivity]. }
  constructor; try assumption.
  - rewrite replace_num. exact C1.
  - unfold replace_uses. cbn [slot_val with_slots with_nodes]. rewrite length_map. exact C2.
  - intros k Hkr. rewrite replace_num in Hkr. destruct (C5 k Hkr) as [G1 G2 G3].
    constructor; rewrite replace_node, redirected_dead by exact Hkr; [|exact G2|].
    + intros Hd. specialize (G1 Hd). cbv zeta in *. destruct G1 as [G1 G1'].
      assert (En : redirected i keep (node c k) = with_inputs (node c k) (map (redirect i keep) (inputs (node c k))))
        by (unfold redirected; rewrite Hd; reflexivity).
      destruct (node_sem_ext segbase (stack s0) (top s0) (M k) (M k)
        (fun j => val (input (redirected i keep (node c k)) j)) (fun j => val (input (node c k) j)) (node c k) eq_refl) as [X1 X2].
      { intros j Hj. pose proof (arity_le (op (node c k))).
        rewrite redirected_input by (lia || exact Hd || exact (Hl k Hkr)). apply Vr. }
      rewrite En in X1, X2 |- *. rewrite node_sem_inputs; [split; congruence|].
      intros Ho. rewrite <- En. rewrite !redirected_input by (lia || exact Hd || exact (Hl k Hkr)).
      assert (N : forall j, j = 1 \/ j = 2 -> redirect i keep (input (node c k) j) = input (node c k) j).
      { intros j Hj. unfold redirect. destruct (Z.eqb_spec (input (node c k) j) i) as [E|]; [|reflexivity].
        pose proof (Hmeta k j Hkr Hd Ho Hj ltac:(lia)) as F. rewrite E in F. congruence. }
      split; apply N; auto.
    + intros Hd j. destruct (redirected_op i keep (node c k)) as [-> _]. intros Hj.
      destruct (G3 Hd j Hj) as [H1 H2]. pose proof (arity_le (op (node c k))).
      rewrite redirected_input by (lia || exact Hd || exact (Hl k Hkr)). unfold redirect.
      destruct (Z.eqb_spec (input (node c k) j) i) as [E|]; (split; [lia|apply Rok; [lia|assumption]]).
  - intros d Hd. unfold replace_uses in Hd. cbn [slot_val with_slots with_nodes] in Hd. rewrite length_map in Hd.
    destruct (C6 d Hd) as [S1 S2]. unfold slot_good. rewrite slot_replace by exact Hd. rewrite replace_num. split.
    + rewrite <- S1. unfold slot_val_of, redirect. destruct (Z.eqb_spec (slot c d) i) as [->|]; [|reflexivity].
      destruct (Z.leb_spec 0 keep); [|lia]. destruct (Z.leb_spec 0 i); [|lia]. rewrite Hval. reflexivity.
    + unfold redirect. destruct (Z.eqb_spec (slot c d) i) as [E|].
      * intros _. split; [lia|]. apply Rok; [lia|exact Href].
      * intros H0. destruct (S2 H0) as [H1 H2]. split; [exact H1|]. apply Rok; [lia|exact H2].
Qed.

Lemma meta_replace c i keep : 0 <= i < num_nodes c -> meta_ok c -> foldable (op (node c i)) = true ->
  (forall k, 0 <= k < num_nodes c -> length (inputs (node c k)) = 3%nat) -> meta_ok (replace_uses c i keep).
Proof.
  intros Hi H Hf Hl. apply (meta_ok_sub c); [apply replace_num|exact H|]. intros k Hk.
  rewrite replace_node, redirected_dead by exact Hk. destruct (redirected_op i keep (node c k)) as [-> _].
  split; [auto|]. intros Hd Ho. split; [exact Hd|split; [exact Ho|]]. intros j Hj.
  rewrite redirected_input by (auto; lia). unfold redirect. destruct (Z.eqb_spec (input (node c k) j) i) as [E|]; [|reflexivity].
  pose proof (H k j Hk Hd Ho Hj ltac:(lia)) as F. rewrite E in F. congruence.
Qed.

(** The fold: node [i] is its operand [keep], the other one is the constant
    [q]. *)
Lemma fold_to_going c val uc i keep q : going c val uc -> ca_ok c val ->
  0 <= i < num_nodes c -> dead (node c i) = false -> foldable (op (node c i)) = true ->
  keep = input (node c i) 0 /\ q = input (node c i) 1 \/ keep = input (node c i) 1 /\ q = input (node c i) 0 ->
  has_effect (op (node c q)) = false -> val keep = val i ->
  ca_ok (fst (fold_to c uc i keep q)) val /\
  going (fst (fold_to c uc i keep q)) val (snd (fold_to c uc i keep q)).
Proof.
  intros H [R1 R2 R3] Hi Hd Hf Hkq He Hval. pose proof H as [C K Hl Hf32].
  assert (A : arity (op (node c i)) = 2) by (destruct (op (node c i)); discriminate || reflexivity).
  destruct (going_ref _ _ _ _ c val uc i 0 H Hi Hd ltac:(lia)) as [B0 L0].
  destruct (going_ref _ _ _ _ c val uc i 1 H Hi Hd ltac:(lia)) as [B1 L1].
  assert (Bk : 0 <= keep < i /\ ref_ok c val keep) by (destruct Hkq as [[-> _]|[-> _]]; auto).
  assert (Bq : 0 <= q < i) by (destruct Hkq as [[_ ->]|[_ ->]]; auto). destruct Bk as [Bk Lk].
  set (c1 := replace_uses c i keep).
  assert (N1 : num_nodes c1 = num_nodes c) by apply replace_num.
  assert (C1 : consistent c1 val) by (eapply consistent_replace; eassumption).
  assert (L1' : forall k, 0 <= k < num_nodes c1 -> length (inputs (node c1 k)) = 3%nat).
  { intros k Hk. rewrite N1 in Hk. unfold c1. rewrite replace_node, redirected_length by exact Hk. apply Hl, Hk. }
  assert (F1 : forall k, 0 <= k < num_nodes c1 -> has_flag (node c1 k) kF32 = false).
  { intros k Hk. rewrite N1 in Hk. unfold c1, has_flag. rewrite replace_node by exact Hk.
    destruct (redirected_op i keep (node c k)) as [_ ->]. apply Hf32, Hk. }
  assert (Ei : has_effect (op (node c1 i)) = false).
  { unfold c1. rewrite replace_node by exact Hi. destruct (redirected_op i keep (node c i)) as [-> _].
    destruct (op (node c i)); discriminate || reflexivity. }
  assert (U1 : forall x, uses c1 x = if x =? i then 0 else uses c x + (if x =? keep then uses c i else 0))
    by (intros; apply replace_uses_count; lia).
  set (uc1 := bump (zset (zset uc keep (zget uc keep + zget uc i - 1)) i 0) q (-1)).
  assert (G2 : going (kill c1 i) val uc1).
  { constructor.
    - apply consistent_kill; [exact C1|lia|exact Ei|exact L1'|]. rewrite U1, Z.eqb_refl. lia.
    - apply (counted_le c _ uc); [exact K|unfold kill; rewrite num_set_node; exact N1| |].
      { unfold uc1. rewrite bump_length, !zset_length. reflexivity. }
      intros x Hx Hle. destruct K as [K1 K2 K3]. pose proof (K3 i Hi) as Ki.
      rewrite uses_kill, U1 by lia. unfold uc1.
      rewrite zget_bump, !zget_set by (rewrite ?zset_length, ?K2; unfold kMaxNodes in *; lia).
      assert (Ui : (if x =? i then 0 else node_uses (node c i) x) <= node_uses (node c1 i) x).
      { unfold c1. rewrite replace_node, redirected_uses by lia. pose proof (node_uses_nonneg (node c i) i).
        destruct (x =? i), (x =? keep); lia. }
      assert (Un : (if keep =? x then 1 else 0) + (if q =? x then 1 else 0) <= node_uses (node c i) x).
      { unfold node_uses. rewrite Hd. destruct (three _ (Hl i Hi)) as (a & b & e & El). rewrite El.
        assert (I0 : input (node c i) 0 = a) by (unfold input; rewrite El; reflexivity).
        assert (I1 : input (node c i) 1 = b) by (unfold input; rewrite El; reflexivity).
        rewrite I0, I1 in Hkq. destruct Hkq as [[-> ->]|[-> ->]]; count. }
      pose proof (node_uses_nonneg (node c1 i) x).
      destruct (Z.eqb_spec x i), (Z.eqb_spec i x), (Z.eqb_spec x keep), (Z.eqb_spec keep x), (Z.eqb_spec q x); subst; lia.
    - intros k Hk. unfold kill in *. rewrite num_set_node in Hk. destruct (Z.eq_dec i k) as [<-|].
      + rewrite node_set_eq by lia. apply (L1' i). lia.
      + rewrite node_set_ne by lia. apply L1', Hk.
    - intros k Hk. unfold kill in *. rewrite num_set_node in Hk. destruct (Z.eq_dec i k) as [<-|].
      + rewrite node_set_eq, has_flag_set_dead by lia. apply F1. lia.
      + rewrite node_set_ne by lia. apply F1, Hk. }
  assert (O2 : ca_ok (kill c1 i) val).
  { constructor; [exact R1|exact R2|]. apply meta_ok_kill; [lia|]. apply meta_replace; assumption. }
  assert (Eq : has_effect (op (node (kill c1 i) q)) = false).
  { unfold kill. rewrite node_set_ne by lia. unfold c1. rewrite replace_node by lia.
    destruct (redirected_op i keep (node c q)) as [-> _]. exact He. }
  assert (Nq : 0 <= q < num_nodes (kill c1 i)) by (unfold kill; rewrite num_set_node; lia).
  exact (drop_constant (kill c1 i) val uc1 q G2 O2 Nq Eq).
Qed.

(** *** Division by a power of two *)

Lemma reciprocal_spec b r : reciprocal false b = Some r -> power_of_two b = true /\ r = inverse_bits b.
Proof.
  unfold reciprocal. cbv zeta. cbn [andb].
  change (Z.land b 0x000FFFFFFFFFFFFF) with (frac_of f64 b). change (Z.land (Z.shiftr b 52) 0x7FF) with (exp_of f64 b).
  fold (power_of_two b). destruct (power_of_two b); [|discriminate]. intros H. apply some_inj in H. auto.
Qed.

(** The only use of [k] is in node [i]: no other node reads it, and no slot. *)
Lemma sole_use c val uc i k : going c val uc -> 0 <= i < num_nodes c -> 0 <= k < num_nodes c ->
  zget uc k = 1 -> dead (node c i) = false -> In k (inputs (node c i)) ->
  (forall u, 0 <= u < num_nodes c -> u <> i -> dead (node c u) = false -> ~ In k (inputs (node c u))) /\
  ~ In k (slot_val c) /\ occ k (inputs (node c i)) = 1.
Proof.
  intros [_ K _ _] Hi Hk Hu Hd Hin. pose proof (cd_le c uc K k Hk) as U. rewrite Hu in U.
  apply occ_in in Hin. pose proof (uses_node c i k Hi) as Ui. unfold node_uses in Ui. rewrite Hd in Ui.
  pose proof (occ_nonneg k (slot_val c)). repeat split; [|apply occ_zero; lia|lia].
  intros u Hur Hne Hdu. apply occ_zero. pose proof (uses_two c i u k Hi Hur (not_eq_sym Hne)) as U2.
  unfold node_uses in U2. rewrite Hd, Hdu in U2. lia.
Qed.

Lemma slot_in c d : 0 <= d < Z.of_nat (length (slot_val c)) -> In (slot c d) (slot_val c).
Proof. intros H. unfold slot, zget. apply nth_In. lia. Qed.

Section Recip.
Context (c : Context) (val : Z -> Z) (uc : list Z) (i r : Z).
Context (H : going c val uc) (Hok : ca_ok c val) (Hi : 0 <= i < num_nodes c) (Hd : dead (node c i) = false).
Let k := input (node c i) 1.
Context (Ho : op (node c i) = FDiv) (Hk : op (node c k) = ConstF64) (Hkd : dead (node c k) = false) (Hu : zget uc k = 1).
Context (Hp : power_of_two (imm_bits (node c k)) = true) (Hr : r = inverse_bits (imm_bits (node c k))).

Let c' := set_node (set_node c k (fun n => with_data n (PImm r))) i (fun n => with_op n FMul).
Let val' x := if x =? k then r else val x.

Lemma recip_range : 0 <= k < i.
Proof. apply (going_ref _ _ _ _ c val uc i 1 H Hi Hd). rewrite Ho. cbn. lia. Qed.

Lemma recip_node x : 0 <= x < num_nodes c ->
  node c' x = if x =? i then with_op (node c i) FMul else if x =? k then with_data (node c k) (PImm r) else node c x.
Proof.
  intros Hx. pose proof recip_range as R. unfold c'. destruct (Z.eqb_spec x i) as [->|].
  - rewrite node_set_eq by (rewrite num_set_node; exact Hi). rewrite node_set_ne by lia. reflexivity.
  - rewrite node_set_ne by lia. destruct (Z.eqb_spec x k) as [->|]; [apply node_set_eq; lia|apply node_set_ne; lia].
Qed.

Lemma recip_shape x : 0 <= x < num_nodes c ->
  dead (node c' x) = dead (node c x) /\ inputs (node c' x) = inputs (node c x) /\ flags (node c' x) = flags (node c x) /\
  arity (op (node c' x)) = arity (op (node c x)).
Proof.
  intros Hx. rewrite recip_node by exact Hx. destruct (Z.eqb_spec x i) as [->|]; [rewrite Ho; auto|].
  destruct (Z.eqb_spec x k) as [->|]; auto.
Qed.

Lemma recip_num : num_nodes c' = num_nodes c.
Proof. unfold c'. rewrite !num_set_node. reflexivity. Qed.

Lemma recip_val_other u j : 0 <= u < num_nodes c -> u <> i -> dead (node c u) = false -> 0 <= j < arity (op (node c u)) ->
  val' (input (node c u) j) = val (input (node c u) j).
Proof.
  intros Hur Hne Hdu Hj. unfold val'. destruct (Z.eqb_spec (input (node c u) j) k) as [E|]; [|reflexivity].
  pose proof recip_range as R. pose proof (arity_le (op (node c u))). exfalso.
  apply (proj1 (sole_use c val uc i k H Hi ltac:(lia) Hu Hd
    (input_in _ 1 (go_len _ _ _ _ c val uc H i Hi) ltac:(lia))) u Hur Hne Hdu).
  rewrite <- E. apply input_in; [apply (go_len _ _ _ _ c val uc H u Hur)|lia].
Qed.

Lemma recip_input0 : input (node c i) 0 <> k.
Proof.
  intros E. pose proof recip_range as R.
  destruct (sole_use c val uc i k H Hi ltac:(lia) Hu Hd (input_in _ 1 (go_len _ _ _ _ c val uc H i Hi) ltac:(lia))) as (_ & _ & O).
  destruct (three _ (go_len _ _ _ _ c val uc H i Hi)) as (a & b & d & El).
  assert (I0 : input (node c i) 0 = a) by (unfold input; rewrite El; reflexivity).
  assert (I1 : k = b) by (unfold k, input; rewrite El; reflexivity).
  rewrite I0, I1 in E. rewrite El, I1, E, !occ_cons, Z.eqb_refl, occ_nil in O. destruct (d =? b); lia.
Qed.

Lemma recip_ref x : 0 <= x < num_nodes c -> ref_ok c val x -> ref_ok c' val' x.
Proof.
  intros Hx [E|E]; [left|]; [destruct (recip_shape x Hx) as [-> _]; exact E|].
  unfold val'. destruct (Z.eqb_spec x k) as [Exk|n]; [left; subst x; destruct (recip_shape k Hx) as [-> _]; exact Hkd|].
  right. apply Z.eqb_neq in n. rewrite n. exact E.
Qed.

Lemma recip_sem x : 0 <= x < num_nodes c -> dead (node c x) = false ->
  let s := node_sem segbase (stack s0) (top s0) (M x) (fun j => val' (input (node c' x) j)) (node c' x) in
  mach (fst s) = M (x + 1) /\ snd s = val' x.
Proof.
  intros Hx Hdx. pose proof recip_range as R. rewrite recip_node by exact Hx.
  assert (Vk : val k = imm_bits (node c k)) by (apply (const_value c val uc k H ltac:(lia) Hkd); exact Hk).
  destruct (Z.eqb_spec x i) as [->|Hxi].
  - assert (X : arith_val (op (node c i)) (fun j => val (input (node c i) j)) = Some (fmul f64 (val (input (node c i) 0)) r)).
    { rewrite Ho. cbn [arith_val]. fold k. rewrite Vk, Hr. f_equal. apply fdiv_pow2; [rewrite <- Vk; apply (ca_range c val Hok)|exact Hp]. }
    destruct (going_arith _ _ _ _ c val uc i _ H Hi Hd X) as [Ev EM].
    rewrite (arith_sem _ _ _ _ (with_op (node c i) FMul) (fmul f64 (val (input (node c i) 0)) r) Hd (go_f32 _ _ _ _ c val uc H i Hi)).
    + cbn [fst snd]. split; [rewrite EM; reflexivity|]. unfold val'. replace (i =? k) with false by (symmetry; apply Z.eqb_neq; lia). congruence.
    + cbn [op with_op arith_val]. change (input (with_op (node c i) FMul)) with (input (node c i)). fold k. unfold val'.
      rewrite Z.eqb_refl. pose proof recip_input0 as N. apply Z.eqb_neq in N. rewrite N. reflexivity.
  - destruct (cs_nodes _ _ _ _ _ _ (go_consistent _ _ _ _ _ _ _ H) x Hx) as [Hs _ _]. specialize (Hs Hdx). cbv zeta in *.
    destruct Hs as [Hs1 Hs2]. destruct (Z.eqb_spec x k) as [->|Hxk].
    + unfold node_sem in *. change (dead (with_data (node c k) (PImm r))) with (dead (node c k)).
      change (op (with_data (node c k) (PImm r))) with (op (node c k)). rewrite Hkd, Hk in *. cbv zeta in *. cbn [fst snd] in *.
      split; [exact Hs1|]. unfold val'. rewrite Z.eqb_refl. reflexivity.
    + destruct (node_sem_ext segbase (stack s0) (top s0) (M x) (M x) (fun j => val' (input (node c x) j))
        (fun j => val (input (node c x) j)) (node c x) eq_refl) as [X1 X2];
        [intros j Hj; apply recip_val_other; assumption|].
      split; [congruence|]. unfold val' at 2. apply Z.eqb_neq in Hxk. rewrite Hxk. congruence.
Qed.

Lemma recip_going : ca_ok c' val' /\ going c' val' uc.
Proof.
  pose proof recip_range as R. pose proof H as [C K Hl Hf]. destruct Hok as [R1 R2 R3].
  destruct (inverse_not_nan _ Hp) as [Nr Rr]. rewrite <- Hr in Nr, Rr. split; constructor.
  - intros x. unfold val'. destruct (x =? k); [exact Rr|apply R1].
  - intros x. unfold val'. destruct (x =? k); [apply snan_not_nan, Nr|apply R2].
  - apply meta_ok_set; [rewrite num_set_node; exact Hi|apply meta_ok_set; [lia|exact R3|auto|]|..].
    + cbn [with_data op]. rewrite Hk. discriminate.
    + intros _. rewrite node_set_ne by lia. rewrite Ho. reflexivity.
    + discriminate.
  - destruct C as [C1 C2 C3 C4 C5 C6]. constructor; try assumption.
    + rewrite recip_num. exact C1.
    + intros x Hx. rewrite recip_num in Hx. destruct (recip_shape x Hx) as (Ed & Ein & _ & Ea). destruct (C5 x Hx) as [_ G2 G3].
      constructor; rewrite Ed; [apply recip_sem, Hx|exact G2|].
      rewrite Ea. unfold input. rewrite Ein. intros Hdx j Hj. destruct (G3 Hdx j Hj) as [H1 H2].
      split; [exact H1|]. apply recip_ref; [unfold input in H1; lia|exact H2].
    + intros d Hds. change (slot_val c') with (slot_val c) in Hds. destruct (C6 d Hds) as [S1 S2].
      unfold slot_good. change (slot c' d) with (slot c d). rewrite recip_num. split.
      * rewrite <- S1. unfold slot_val_of. destruct (0 <=? slot c d); [|reflexivity]. f_equal. unfold val'.
        destruct (Z.eqb_spec (slot c d) k) as [E|]; [|reflexivity]. exfalso.
        apply (proj1 (proj2 (sole_use c val uc i k H Hi ltac:(lia) Hu Hd (input_in _ 1 (Hl i Hi) ltac:(lia))))).
        rewrite <- E. apply slot_in, Hds.
      * intros H0. destruct (S2 H0) as [H1 H2]. split; [exact H1|]. apply recip_ref; [lia|exact H2].
  - apply (counted_le c _ uc); [exact K|exact recip_num|reflexivity|]. intros x Hx Hle. unfold c'.
    rewrite uses_set_node, uses_set_node by (rewrite ?num_set_node; lia). rewrite (node_set_ne c k i) by lia.
    unfold node_uses. cbn [with_op with_data inputs]. change (dead (with_data (node c k) (PImm r))) with (dead (node c k)).
    change (dead (with_op (node c i) FMul)) with (dead (node c i)). lia.
  - intros x Hx. rewrite recip_num in Hx. destruct (recip_shape x Hx) as (_ & -> & _). apply Hl, Hx.
  - intros x Hx. rewrite recip_num in Hx. unfold has_flag. destruct (recip_shape x Hx) as (_ & _ & -> & _). apply Hf, Hx.
Qed.
End Recip.

Lemma recip_step_going c val uc i : going c val uc -> ca_ok c val -> 0 <= i < num_nodes c -> dead (node c i) = false ->
  op (node c i) = FDiv ->
  exists val', ca_ok (fst (recip_step false c uc i)) val' /\
    going (fst (recip_step false c uc i)) val' (snd (recip_step false c uc i)).
Proof.
  intros H Hok Hi Hd Ho. unfold recip_step. cbv zeta. set (k := input (node c i) 1).
  destruct (in_nodes c k); [|exists val; auto]. cbn [negb].
  destruct (Op_eqb (op (node c k)) ConstF64) eqn:Ek; [|exists val; auto]. apply Op_eqb_eq in Ek.
  destruct (dead (node c k)) eqn:Ed; [exists val; auto|]. cbn [negb orb].
  destruct (Z.eqb_spec (zget uc k) 1) as [Eu|]; [|exists val; auto]. cbn [negb].
  destruct (reciprocal false (imm_bits (node c k))) as [r|] eqn:Er; [|exists val; auto].
  apply reciprocal_spec in Er as [Hp Hr]. eexists.
  exact (recip_going c val uc i r H Hok Hi Hd Ho Ek Ed Eu Hp Hr).
Qed.

(** *** The compare with zero *)

Lemma test_step_going c val uc i : going c val uc -> ca_ok c val -> 0 <= i < num_nodes c -> dead (node c i) = false ->
  op (node c i) = FCmp ->
  ca_ok (fst (test_step c uc i)) val /\ going (fst (test_step c uc i)) val (snd (test_step c uc i)).
Proof.
  intros H Hok Hi Hd Ho. unfold test_step. cbv zeta. set (k := input (node c i) 1).
  destruct (in_nodes c k) eqn:En; [|auto]. apply in_nodes_spec in En. cbn [negb].
  destruct (dead (node c k)) eqn:Ed; [auto|].
  destruct (negb (Op_eqb (op (node c k)) ConstZero || Op_eqb (op (node c k)) ConstF64 && (u64 (Z.shiftl (imm_bits (node c k)) 1) =? 0))) eqn:Ez; [auto|].
  apply negb_false_iff in Ez. pose proof H as [C K Hl Hf]. destruct Hok as [R1 R2 R3].
  destruct (going_ref _ _ _ _ c val uc i 0 H Hi Hd ltac:(rewrite Ho; cbn; lia)) as [B0 L0].
  destruct (going_ref _ _ _ _ c val uc i 1 H Hi Hd ltac:(rewrite Ho; cbn; lia)) as [B1 _]. fold k in B1.
  destruct (const_value c val uc k H En Ed) as (V1 & _ & V3).
  assert (Z : fcompare f64 (val (input (node c i) 0)) (val k) = fcompare f64 (val (input (node c i) 0)) f_zero /\
              has_effect (op (node c k)) = false).
  { apply orb_true_iff in Ez as [E|E].
    - apply Op_eqb_eq in E. rewrite (V3 E), E. auto.
    - apply andb_true_iff in E as [E1 E2]. apply Op_eqb_eq in E1. apply Z.eqb_eq in E2. rewrite E1. split; [|reflexivity].
      apply fcompare_zero; [rewrite (V1 E1); exact E2|apply R1]. }
  destruct Z as [Zc Ze].
  set (f := fun n => with_input (with_op n FTst) 1 (-1)).
  destruct (three _ (Hl i Hi)) as (a & b & d & El).
  assert (If : inputs (f (node c i)) = [a; -1; d]) by (unfold f, with_input; cbn [with_inputs inputs with_op]; rewrite El; reflexivity).
  assert (I0 : input (f (node c i)) 0 = input (node c i) 0) by (unfold input; rewrite If, El; reflexivity).
  assert (Ik : k = b) by (unfold k, input; rewrite El; reflexivity).
  assert (G : going (set_node c i f) val (bump uc k (-1))).
  { constructor.
    - apply consistent_rewrite; [exact C|exact Hi|exact Hd| |].
      + cbv zeta. destruct (cs_nodes _ _ _ _ _ _ C i Hi) as [Hs _ _]. specialize (Hs Hd). cbv zeta in Hs.
        unfold node_sem in *. change (dead (f (node c i))) with (dead (node c i)).
        change (op (f (node c i))) with FTst. rewrite Hd, Ho in *. cbv zeta in *. fold k in Hs. rewrite I0, <- Zc. exact Hs.
      + change (op (f (node c i))) with FTst. cbn [arity]. intros j Hj. replace j with 0 by lia. rewrite I0. auto.
    - apply (counted_le c _ uc); [exact K|apply num_set_node|apply bump_length|]. intros x Hx Hle.
      destruct K as [K1 K2 _]. rewrite uses_set_node by exact Hi.
      rewrite zget_bump by (rewrite ?K2; unfold kMaxNodes in *; lia). unfold node_uses.
      change (dead (f (node c i))) with (dead (node c i)). rewrite Hd, If, El, Ik. count.
    - intros x Hx. rewrite num_set_node in Hx. destruct (Z.eq_dec i x) as [<-|].
      + rewrite node_set_eq, If by exact Hi. reflexivity.
      + rewrite node_set_ne by lia. apply Hl, Hx.
    - intros x Hx. rewrite num_set_node in Hx. destruct (Z.eq_dec i x) as [<-|].
      + rewrite node_set_eq by exact Hi. apply (Hf i Hi).
      + rewrite node_set_ne by lia. apply Hf, Hx. }
  assert (O : ca_ok (set_node c i f) val).
  { constructor; [exact R1|exact R2|]. apply meta_ok_set; [exact Hi|exact R3| |]; discriminate. }
  cbn [fst snd].
  exact (drop_constant (set_node c i f) val (bump uc k (-1)) k G O ltac:(rewrite num_set_node; exact En)
    ltac:(rewrite node_set_ne by lia; exact Ze)).
Qed.

(** *** A step of the pass *)

Lemma identity_spec c val uc i keep q : going c val uc -> ca_ok c val -> 0 <= i < num_nodes c -> dead (node c i) = false ->
  identity_fold c (node c i) = Some (keep, q) ->
  foldable (op (node c i)) = true /\ has_effect (op (node c q)) = false /\
  (keep = input (node c i) 0 /\ q = input (node c i) 1 \/ keep = input (node c i) 1 /\ q = input (node c i) 0) /\
  val keep = val i.
Proof.
  intros H [R1 R2 _] Hi Hd. unfold identity_fold.
  assert (V : forall x, arith_val (op (node c i)) (fun j => val (input (node c i) j)) = Some x -> val i = x).
  { intros x Hx. apply (going_arith _ _ _ _ c val uc i x H Hi Hd Hx). }
  assert (Q : forall j alias b, const_is c (input (node c i) j) alias b = true ->
    (alias = None \/ alias = Some ConstOne /\ b = f_one \/ alias = Some ConstZero /\ b = 0) ->
    has_effect (op (node c (input (node c i) j))) = false /\ val (input (node c i) j) = b).
  { intros j alias b Hc Ha. destruct (const_is_spec c val uc _ alias b H Hc Ha) as (_ & _ & E1 & E2). auto. }
  destruct ((Op_eqb (op (node c i)) FMul || Op_eqb (op (node c i)) FDiv) && const_is c (input (node c i) 1) (Some ConstOne) kOneBits) eqn:E1.
  { intros X. apply some_inj in X. injection X as <- <-. apply andb_true_iff in E1 as [Eo Ec].
    destruct (Q _ _ _ Ec) as [Qe Qv]; [right; left; auto|].
    apply orb_true_iff in Eo as [Eo|Eo]; apply Op_eqb_eq in Eo; rewrite Eo in *; repeat split; auto; symmetry; apply V;
      cbn [arith_val]; rewrite Qv; f_equal.
    - apply fmul_one_r; auto.
    - rewrite fdiv_one_r; auto. }
  destruct (Op_eqb (op (node c i)) FMul && const_is c (input (node c i) 0) (Some ConstOne) kOneBits) eqn:E2.
  { intros X. apply some_inj in X. injection X as <- <-. apply andb_true_iff in E2 as [Eo Ec].
    destruct (Q _ _ _ Ec) as [Qe Qv]; [right; left; auto|].
    apply Op_eqb_eq in Eo; rewrite Eo in *; repeat split; auto; symmetry; apply V; cbn [arith_val]; rewrite Qv; f_equal.
    apply fmul_one_l; auto. }
  destruct (Op_eqb (op (node c i)) FSub && const_is c (input (node c i) 1) (Some ConstZero) 0) eqn:E3.
  { intros X. apply some_inj in X. injection X as <- <-. apply andb_true_iff in E3 as [Eo Ec].
    destruct (Q _ _ _ Ec) as [Qe Qv]; [right; right; auto|].
    apply Op_eqb_eq in Eo; rewrite Eo in *; repeat split; auto; symmetry; apply V; cbn [arith_val]; rewrite Qv; f_equal.
    apply fsub_zero_r; auto. }
  destruct (Op_eqb (op (node c i)) FAdd && const_is c (input (node c i) 1) None kMZeroBits) eqn:E4; [|discriminate].
  intros X. apply some_inj in X. injection X as <- <-. apply andb_true_iff in E4 as [Eo Ec].
  destruct (Q _ _ _ Ec) as [Qe Qv]; [left; auto|].
  apply Op_eqb_eq in Eo; rewrite Eo in *; repeat split; auto; symmetry; apply V; cbn [arith_val]; rewrite Qv; f_equal.
  apply fadd_mzero_r; auto.
Qed.

Lemma const_arith_step_going c val uc i : ca_ok c val -> going c val uc -> 0 <= i < num_nodes c ->
  exists val', ca_ok (fst (const_arith_step false (c, uc) i)) val' /\
    going (fst (const_arith_step false (c, uc) i)) val' (snd (const_arith_step false (c, uc) i)).
Proof.
  intros Hok H Hi. unfold const_arith_step. destruct (dead (node c i)) eqn:Hd; [exists val; auto|]. cbv zeta.
  set (rest := match op (node c i) with FDiv => _ | FCmp => _ | _ => _ end).
  assert (R : exists val', ca_ok (fst rest) val' /\ going (fst rest) val' (snd rest)).
  { unfold rest. destruct (op (node c i)) eqn:Ho; try (exists val; split; assumption).
    - apply (recip_step_going c val); assumption.
    - exists val. apply test_step_going; assumption. }
  clearbody rest. destruct (identity_fold c (node c i)) as [[keep q]|] eqn:E; [|exact R].
  destruct (0 <=? keep); [|exact R]. exists val.
  destruct (identity_spec c val uc i keep q H Hok Hi Hd E) as (Hf & He & Hkq & Hv).
  apply fold_to_going; assumption.
Qed.

Lemma pass_const_arith_going c val uc : ca_ok c val -> going c val uc ->
  exists val' uc', ca_ok (pass_const_arith false c) val' /\ going (pass_const_arith false c) val' uc'.
Proof.
  intros Hok H. apply going_recount in H. unfold pass_const_arith.
  destruct (going_sweep segbase s0 nzcv0 base (const_arith_step false) ca_ok (indices c) c val _ const_arith_step_going Hok H
    (indices_in c)) as (v & O & G).
  eauto.
Qed.
End ConstArith.
