(* ===== verification/OptimizeProps.v ===== *)
(** The passes of the optimizer keep what a run computes, each on its own and
    one after the other. *)

From S2P Require Import Prelude F64 X87State X87Props F64Props GuestMem IROperand X87IR X87IRBuild Fpu X87IREval.
From S2P Require Import X87IRInv X87IRWf X87IROptimize X87IRSim X87IROptProps X87IRUses F64Round F64Algebra.
From S2P Require Import FmaProps ConstArithProps.

(** What a context computes from a machine state, and the value of a node. *)
Abbreviation meaning segbase s nzcv c := (ir_result c s (eval_context segbase c s nzcv)).
Definition node_val (segbase : Z -> Z) (s : fpu) (nzcv : Z) (c : Context) (k : Z) : Z :=
  zget (vals (eval_context segbase c s nzcv)) k.

(** ** Marking a compare and the FSTSW that reads it *)

(** The same node but for flags the meaning does not depend on. *)
Definition same_node (n n' : Node) : Prop :=
  op n' = op n /\ inputs n' = inputs n /\ data n' = data n /\ aux n' = aux n /\
  Z.land (flags n') (Z.lnot kFcomFused) = Z.land (flags n) (Z.lnot kFcomFused).

Lemma same_flag n n' f : same_node n n' -> Z.land f (Z.lnot kFcomFused) = f -> Z.land (flags n') f = Z.land (flags n) f.
Proof.
  intros (_ & _ & _ & _ & H) Hf. rewrite <- Hf, !(Z.land_comm f), !Z.land_assoc, H. reflexivity.
Qed.

Lemma same_node_sem segbase st t s v n n' : same_node n n' ->
  node_sem segbase st t s v n' = node_sem segbase st t s v n.
Proof.
  intros H. pose proof (same_flag n n' kDead H eq_refl) as F1. pose proof (same_flag n n' kF32 H eq_refl) as F2.
  pose proof (same_flag n n' kTruncate H eq_refl) as F3. destruct H as (Ho & Hi & Hd & Ha & _).
  unfold node_sem, dead, input, mem_operand, initial_depth, imm_bits. cbv zeta.
  rewrite F1, F2, F3, Ho, Hi, Hd, Ha. reflexivity.
Qed.

Lemma same_refl n : same_node n n.
Proof. repeat split. Qed.

Lemma same_fused n : same_node n (set_flag n kFcomFused).
Proof.
  repeat split. unfold set_flag. cbn [X87IR.with_flags flags]. rewrite Z.land_lor_distr_l.
  change (Z.land kFcomFused (Z.lnot kFcomFused)) with 0. apply Z.lor_0_r.
Qed.

Lemma same_trans n1 n2 n3 : same_node n1 n2 -> same_node n2 n3 -> same_node n1 n3.
Proof. intros (A1 & A2 & A3 & A4 & A5) (B1 & B2 & B3 & B4 & B5). repeat split; congruence. Qed.

(** Contexts of the same nodes. *)
Record same (c c' : Context) : Prop := {
  sa_nodes : Forall2 same_node (nodes c) (nodes c');
  sa_slots : slot_val c' = slot_val c;
  sa_top : top_delta c' = top_delta c;
  sa_fcomi : last_fcomi c' = last_fcomi c
}.

Lemma same_eval segbase st t l l' : Forall2 same_node l l' -> forall s, eval segbase st t s l' = eval segbase st t s l.
Proof.
  induction 1 as [|n n' l l' H _ IH]; intros s; [reflexivity|]. unfold eval in *. cbn [fold_left]. rewrite IH. f_equal.
  unfold eval_node. assert (Hi : inputs n' = inputs n) by apply H. unfold input. rewrite Hi.
  rewrite (same_node_sem segbase st t s _ n n' H). reflexivity.
Qed.

Lemma same_meaning segbase s nzcv c c' : same c c' -> meaning segbase s nzcv c' = meaning segbase s nzcv c.
Proof.
  intros [H1 H2 H3 H4]. unfold ir_result, eval_context. rewrite H2, H3, H4, (same_eval _ _ _ _ _ H1). reflexivity.
Qed.

Lemma Forall2_list_set (l l' : list Node) k y : Forall2 same_node l l' -> same_node (nth k l' null_node) y ->
  Forall2 same_node l (list_set l' k y).
Proof.
  intros H. revert k. induction H as [|n n' l l' Hn H IH]; intros k Hy; [destruct k; constructor|].
  destruct k; cbn [list_set nth] in *; constructor; auto. apply (same_trans _ n'); assumption.
Qed.

Lemma same_mark c c' i : same c c' -> same c (set_node c' i (fun n => set_flag n kFcomFused)).
Proof.
  intros [H1 H2 H3 H4]. constructor; try assumption. unfold set_node. cbn [nodes with_nodes].
  apply Forall2_list_set; [exact H1|]. apply same_fused.
Qed.

Lemma fusion_same c : same c (pass_fcom_fstsw_fusion c).
Proof.
  unfold pass_fcom_fstsw_fusion. apply (fold_going fusion_step (same c)).
  - intros c' i _ H. unfold fusion_step. cbv zeta. destruct (dead _); [exact H|].
    destruct (negb _); [exact H|]. destruct (negb _); [exact H|]. destruct (negb _); [exact H|].
    destruct (existsb _ _); [exact H|]. apply same_mark, same_mark, H.
  - constructor; try reflexivity. induction (nodes c); constructor; auto. apply same_refl.
Qed.

(** ** Dropped compares keep a context well-formed *)

Lemma wf_kill c i : 0 <= i < num_nodes c -> wf c -> wf (kill c i).
Proof.
  intros Hi [W1 W2 W3 W4 W5 W6 W7 W8]. pose proof (num_set_node c i (fun n => set_flag n kDead)) as N.
  change (set_node c i _) with (kill c i) in N. constructor; rewrite ?N; try assumption.
  intros k Hk. destruct (W2 k Hk) as [I1 I2 I3 I4]. unfold kill. destruct (Z.eq_dec i k) as [->|].
  - rewrite node_set_eq by exact Hk. constructor; try assumption. unfold set_flag. cbn [X87IR.with_flags flags].
    rewrite Z.land_lor_distr_l, I4. reflexivity.
  - rewrite node_set_ne by lia. constructor; assumption.
Qed.

Lemma wf_dead_compares c : wf c -> wf (pass_dead_compares c).
Proof.
  intros W. unfold pass_dead_compares.
  set (P := fun s : Context * bool => wf (fst s) /\ num_nodes (fst s) = num_nodes c).
  assert (G : P (fold_left dead_compares_step (rev (indices c)) (c, false))).
  { apply fold_going; [|split; [exact W|reflexivity]]. intros [c' ow] i Hi [H Hn]. cbn [fst] in *.
    apply in_rev, indices_in in Hi. unfold dead_compares_step. destruct (dead _); [split; assumption|].
    destruct (op _); try (split; assumption); destruct ow; split; cbn [fst]; try assumption.
    all: try (apply wf_kill; [lia|exact H]).
    all: unfold kill; rewrite num_set_node; exact Hn. }
  apply G.
Qed.

(** ** What the passes ask of a run *)

(** [p] of every live node. *)
Definition all_live (p : Z -> Node -> bool) (c : Context) : bool :=
  forallb (fun k => dead (node c k) || p k (node c k)) (indices c).

Lemma all_live_spec p c k : all_live p c = true -> 0 <= k < num_nodes c -> dead (node c k) = false ->
  p k (node c k) = true.
Proof.
  unfold all_live. rewrite forallb_forall. intros H Hk Hd. specialize (H k). rewrite Hd in H. apply H.
  unfold indices. apply in_map_iff. exists (Z.to_nat k). unfold num_nodes in Hk. split; [lia|]. apply in_seq. lia.
Qed.

(** The register number and the [top_delta] an FSTSW keeps in its inputs do
    not happen to name a node an identity fold could remove. *)
Definition metadata_apart (c : Context) : bool :=
  all_live (fun _ n => negb (Op_eqb (op n) FStsw) ||
    forallb (fun x => negb (in_nodes c x) || negb (foldable (op (node c x)))) [input n 1; input n 2]) c.

Lemma metadata_apart_spec c : metadata_apart c = true -> meta_ok c.
Proof.
  intros H k j Hk Hd Ho Hj Hin. pose proof (all_live_spec _ c k H Hk Hd) as P. cbv beta in P. rewrite Ho in P.
  change (Op_eqb FStsw FStsw) with true in P. cbn [negb orb forallb] in P.
  apply andb_true_iff in P as [P1 P2]. apply andb_true_iff in P2 as [P2 _].
  assert (P : negb (in_nodes c (input (node c k) j)) || negb (foldable (op (node c (input (node c k) j)))) = true)
    by (destruct Hj as [-> | ->]; assumption).
  rewrite (proj2 (in_nodes_spec _ _) Hin) in P. apply negb_true_iff, P.
Qed.

Section Conditions.
Context (segbase : Z -> Z) (s : fpu) (nzcv : Z).
#[local] Abbreviation value := (node_val segbase s nzcv).

(** Every value is a double and no signalling NaN. *)
Definition quiet_double (x : Z) : bool := (0 <=? x) && (x <? 2 ^ 64) && negb (is_snan f64 x).
Definition quiet_run (c : Context) : bool := forallb quiet_double (vals (eval_context segbase c s nzcv)).

(** No negation is of a NaN. *)
Definition negations_numeric (c : Context) : bool :=
  all_live (fun k n => negb (Op_eqb (op n) FNeg) || negb (is_nan f64 (value c k))) c.

(** Products are exact and nothing subtracted is a NaN. *)
Definition products_exact (c : Context) : bool :=
  all_live (fun _ n =>
    match op n with
    | FMul => exact_product (value c (input n 0)) (value c (input n 1))
    | FSub => negb (is_nan f64 (value c (input n 1)))
    | _ => true
    end) c.

Lemma quiet_run_spec c : quiet_run c = true ->
  (forall k, in64 (value c k)) /\ (forall k, is_snan f64 (value c k) = false).
Proof.
  unfold quiet_run. rewrite forallb_forall. intros H. unfold node_val, zget.
  assert (G : forall k, in64 (nth k (vals (eval_context segbase c s nzcv)) 0) /\
                        is_snan f64 (nth k (vals (eval_context segbase c s nzcv)) 0) = false).
  { intros k. destruct (nth_in_or_default k (vals (eval_context segbase c s nzcv)) 0) as [Hin| ->].
    - specialize (H _ Hin). unfold quiet_double in H. apply andb_true_iff in H as [H Hs]. apply andb_true_iff in H as [H1 H2].
      apply negb_true_iff in Hs. apply Z.leb_le in H1. apply Z.ltb_lt in H2. split; [split; assumption|exact Hs].
    - split; [apply in64_0|reflexivity]. }
  split; intros k; apply G.
Qed.

Lemma quiet_ca_ok c : quiet_run c = true -> metadata_apart c = true -> ca_ok c (value c).
Proof.
  intros H Hm. destruct (quiet_run_spec c H) as [R1 R2]. constructor; auto. apply metadata_apart_spec, Hm.
Qed.

Context (base : Context).
#[local] Abbreviation going := (going segbase s nzcv base).

(** A pass's values are those of the context it leaves. *)
Lemma going_value c val uc k : going c val uc -> 0 <= k < num_nodes c -> ref_ok c val k -> value c k = val k.
Proof.
  intros H Hk Hr. destruct (consistent_prefix segbase s nzcv base c val (go_consistent _ _ _ _ _ _ _ H)
    (length (nodes c)) (Z.le_refl _)) as [_ Hv].
  specialize (Hv k Hk). change (X87IRInv.V segbase s nzcv (stack s) c k) with (value c k) in Hv. rewrite Hv.
  destruct Hr as [-> | ->]; [reflexivity|]. destruct (dead _); reflexivity.
Qed.

Lemma negs_from c val uc : going c val uc -> negations_numeric c = true -> negs_ok val c val.
Proof.
  intros H Hn. split; [reflexivity|]. intros k Hk Hd Ho.
  rewrite <- (going_value c val uc k H Hk (or_introl Hd)).
  pose proof (all_live_spec _ c k Hn Hk Hd) as P. cbv beta in P. rewrite Ho in P.
  apply negb_true_iff, P.
Qed.

Lemma fma_from c val uc : going c val uc -> (forall k, in64 (val k)) -> products_exact c = true -> fma_ok c val.
Proof.
  intros H Hr Hx.
  assert (G : forall k j, 0 <= k < num_nodes c /\ dead (node c k) = false -> 0 <= j < arity (op (node c k)) ->
    value c (input (node c k) j) = val (input (node c k) j)).
  { intros k j [Hk Hd] Hj. destruct (going_ref _ _ _ _ c val uc k j H Hk Hd Hj) as [R1 R2].
    apply (going_value c val uc); [exact H|lia|exact R2]. }
  constructor; [exact Hr| |]; intros k Hk Hd Ho; pose proof (all_live_spec _ c k Hx Hk Hd) as P; cbv beta in P;
    rewrite Ho in P; rewrite <- !G by (rewrite ?Ho; cbn; auto; lia); [exact P|apply negb_true_iff, P].
Qed.
End Conditions.

(** ** The theorems *)

(** C10: dropping the compares whose condition codes a later compare
    overwrites before any FSTSW leaves what the run computes as it was, the
    status word included. *)
Theorem pass_dead_compares_correct segbase s nzcv c :
  meaning segbase s nzcv (pass_dead_compares c) = meaning segbase s nzcv c.
Proof. apply dead_compares_result. Qed.

(** C9: removing the value nodes nothing uses, in two sweeps from the end of
    the run, leaves what the run computes as it was, bit for bit. *)
Theorem pass_dse_correct segbase s nzcv c :
  wf c -> meaning segbase s nzcv (pass_dse c) = meaning segbase s nzcv c.
Proof.
  intros W. destruct (pass_dse_going segbase s nzcv c c _ _ (going_start segbase s nzcv c W)) as [uc H].
  exact (going_result segbase s nzcv c _ _ _ H).
Qed.

(** C8: folding negations into the additions, subtractions and products
    around them keeps what the run computes, bit for bit, as long as no
    negated value is a NaN. *)
Theorem pass_fneg_fold_correct segbase s nzcv c :
  wf c -> negations_numeric segbase s nzcv c = true ->
  meaning segbase s nzcv (pass_fneg_fold c) = meaning segbase s nzcv c.
Proof.
  intros W Hn. pose proof (going_start segbase s nzcv c W) as H.
  destruct (pass_fneg_fold_going segbase s nzcv c _ c _ (negs_from segbase s nzcv c c _ _ H Hn) H) as [uc G].
  exact (going_result segbase s nzcv c _ _ _ G).
Qed.

(** C6: folding units away, turning a division by a power of two into a
    product and a compare with zero into a test keeps what the run computes,
    bit for bit, on doubles that are no signalling NaN, when no FSTSW's
    metadata is the number of a node the pass folds. *)
Theorem pass_const_arith_correct segbase s nzcv c :
  wf c -> quiet_run segbase s nzcv c = true -> metadata_apart c = true ->
  meaning segbase s nzcv (pass_const_arith false c) = meaning segbase s nzcv c.
Proof.
  intros W Hq Hm. pose proof (going_start segbase s nzcv c W) as H.
  destruct (pass_const_arith_going segbase s nzcv c c _ _ (quiet_ca_ok segbase s nzcv c Hq Hm) H) as (val & uc & _ & G).
  exact (going_result segbase s nzcv c _ _ _ G).
Qed.

(** C7: fusing a product and a sum or difference into one multiply-add keeps
    what the run computes, bit for bit, when every product is exact, nothing
    subtracted is a NaN, and no value of the run is a signalling NaN.  Without
    the second condition it does not: FNMSUB takes the negation of a NaN
    subtrahend. *)
Theorem pass_fma_correct segbase s nzcv c :
  wf c -> quiet_run segbase s nzcv c = true -> products_exact segbase s nzcv c = true ->
  meaning segbase s nzcv (pass_fma c) = meaning segbase s nzcv c.
Proof.
  intros W Hq Hx. pose proof (going_start segbase s nzcv c W) as H.
  pose proof (fma_from segbase s nzcv c c _ _ H (proj1 (quiet_run_spec segbase s nzcv c Hq)) Hx) as F.
  destruct (pass_fma_going segbase s nzcv c c _ _ F H) as (val & uc & G).
  exact (going_result segbase s nzcv c _ _ _ G).
Qed.

(** *** The passes together *)

Lemma meta_dead_compares c : meta_ok c -> meta_ok (pass_dead_compares c).
Proof.
  intros Hm. unfold pass_dead_compares.
  set (P := fun s : Context * bool => meta_ok (fst s) /\ num_nodes (fst s) = num_nodes c).
  assert (G : P (fold_left dead_compares_step (rev (indices c)) (c, false))).
  { apply fold_going; [|split; [exact Hm|reflexivity]]. intros [c' ow] i Hi [H Hn]. cbn [fst] in *.
    apply in_rev, indices_in in Hi. unfold dead_compares_step. destruct (dead _); [split; assumption|].
    destruct (op _); try (split; assumption); destruct ow; split; cbn [fst]; try assumption.
    all: try (apply meta_ok_kill; [lia|exact H]).
    all: unfold kill; rewrite num_set_node; exact Hn. }
  apply G.
Qed.

(** Dropping compares leaves the values of the nodes alone. *)
Lemma dead_compares_values segbase s nzcv c k :
  node_val segbase s nzcv (pass_dead_compares c) k = node_val segbase s nzcv c k.
Proof.
  unfold node_val. f_equal. rewrite pass_dead_compares_eq. unfold eval_context. cbn [nodes with_nodes].
  apply (mark_dead_agree segbase (stack s) (top s) (nodes c)). constructor; reflexivity.
Qed.

Lemma optimize_keeps segbase s nzcv c f32_arith :
  wf c -> quiet_run segbase s nzcv c = true -> metadata_apart c = true ->
  let c3 := pass_dse (pass_const_arith false (pass_dead_compares c)) in
  negations_numeric segbase s nzcv c3 = true ->
  products_exact segbase s nzcv (pass_fneg_fold c3) = true ->
  exists c', optimize false false f32_arith c = Some c' /\
    meaning segbase s nzcv c' = meaning segbase s nzcv c.
Proof.
  intros W Hq Hm c3 Hn Hx. eexists. split; [reflexivity|].
  rewrite (same_meaning segbase s nzcv _ _ (fusion_same _)). set (c1 := pass_dead_compares c) in *.
  transitivity (meaning segbase s nzcv c1); [|apply dead_compares_result].
  pose proof (going_start segbase s nzcv c1 (wf_dead_compares c W)) as H1.
  assert (O : ca_ok c1 (node_val segbase s nzcv c1)).
  { destruct (quiet_run_spec segbase s nzcv c Hq) as [R1 R2].
    constructor; [intros k; unfold c1; rewrite dead_compares_values; auto..|].
    apply meta_dead_compares, metadata_apart_spec, Hm. }
  destruct (pass_const_arith_going segbase s nzcv c1 c1 _ _ O H1) as (val & uc2 & [Hr _ _] & H2).
  destruct (pass_dse_going segbase s nzcv c1 _ _ _ H2) as [uc3 H3]. fold c3 in H3.
  destruct (pass_fneg_fold_going segbase s nzcv c1 _ _ _ (negs_from segbase s nzcv c1 _ _ _ H3 Hn) H3) as [uc4 H4].
  destruct (pass_fma_going segbase s nzcv c1 _ _ _ (fma_from segbase s nzcv c1 _ _ _ H4 Hr Hx) H4) as (val5 & uc5 & H5).
  exact (going_result segbase s nzcv c1 _ _ _ H5).
Qed.

(** ** A run every pass works on *)

Lemma build_wf range_is_readonly host_mem transparent_int instrs start n perm promote ok c :
  Forall operands_ok instrs -> perm_ok perm -> Z.of_nat n < 2 ^ 15 ->
  build range_is_readonly host_mem transparent_int instrs start n perm promote = Some (ok, c) -> wf c.
Proof.
  intros Ho Hp Hn Hb.
  destruct (build_run_wf range_is_readonly host_mem transparent_int instrs start n perm promote Ho Hp Hn)
    as (ok' & c' & k & Hb' & W & _). rewrite Hb in Hb'. injection Hb' as _ <-. exact W.
Qed.

(** fld dword [rax]; fchs; fadd st(0), st(1); fmul st(0), st(2);
    fadd st(0), st(1); fld1; fmulp st(1); fst qword [rax+8]; fldz; fxch;
    fcompp; fstsw ax: a negation, a product to fuse, a unit, a compare with
    zero and the FSTSW that reads it. *)
Definition sample_prog : list IRInstr :=
  let st i := mkOperand 0 2 (0x70 + i) 0 0 0 0 0 0 in
  let m sz d := mkOperand 1 sz 3 0 1 0 0 0 d in
  [ mkInstr kOpcodeName.fld 1 [m 2 0]; mkInstr kOpcodeName.fchs 0 [];
    mkInstr kOpcodeName.fadd 2 [st 0; st 1]; mkInstr kOpcodeName.fmul 2 [st 0; st 2];
    mkInstr kOpcodeName.fadd 2 [st 0; st 1]; mkInstr kOpcodeName.fld1 0 [];
    mkInstr kOpcodeName.fmulp 2 [st 1; st 0]; mkInstr kOpcodeName.fst 1 [m 3 8];
    mkInstr kOpcodeName.fldz 0 []; mkInstr kOpcodeName.fxch 2 [st 0; st 1];
    mkInstr kOpcodeName.fcompp 0 []; mkInstr kOpcodeName.fstsw 1 [mkOperand 0 1 0x10 0 0 0 0 0 0] ].

Definition sample_state : fpu :=
  mkFpu [Some f_one; Some 0x4000000000000000; None; None; None; None; None; None] 6 0 0x37F
    false false false (fun r => if r =? 0 then 0x1000 else 0)
    (store 4 (fun _ => 0) 0x1000 0x3FC00000).

Definition sample_ctx : Context :=
  match build (fun _ _ => false) (fun _ => 0) true sample_prog 0 12 None false with
  | Some (_, c) => c | None => Context_init end.

Lemma sample_ops : Forall operands_ok sample_prog.
Proof. repeat constructor; intros pops Hp Hk; vm_compute in Hp, Hk |- *; try discriminate; reflexivity. Qed.

Lemma sample_built : build (fun _ _ => false) (fun _ => 0) true sample_prog 0 12 None false = Some (true, sample_ctx).
Proof. vm_compute. reflexivity. Qed.

Lemma sample_wf : wf sample_ctx.
Proof. exact (build_wf (fun _ _ => false) (fun _ => 0) true sample_prog 0 12 None false true sample_ctx sample_ops I eq_refl sample_built). Qed.

(** Every pass has something to do. *)
Example sample_optimized :
  option_map (fun c => map (fun n => (op n, dead n, has_flag n kFcomFused)) (nodes c))
    (optimize false false false sample_ctx) =
  Some [(LoadF32Raw, false, false); (CvtF32ToF64, false, false); (FNeg, true, false); (ReadSt, false, false);
        (FSub, false, false); (ReadSt, false, false); (FMul, true, false); (FMAdd, false, false);
        (ConstOne, true, false); (FMul, true, false); (StoreF64, false, false); (ConstZero, true, false);
        (FTst, false, true); (FStsw, false, true)].
Proof. vm_compute. reflexivity. Qed.

Lemma pass_dse_correct_witness :
  meaning (fun _ => 0) sample_state 0 (pass_dse sample_ctx) = meaning (fun _ => 0) sample_state 0 sample_ctx.
Proof. apply pass_dse_correct. exact sample_wf. Defined.

Lemma pass_fneg_fold_correct_witness :
  meaning (fun _ => 0) sample_state 0 (pass_fneg_fold sample_ctx) = meaning (fun _ => 0) sample_state 0 sample_ctx.
Proof. apply pass_fneg_fold_correct; [exact sample_wf|vm_compute; reflexivity]. Defined.

Lemma pass_const_arith_correct_witness :
  meaning (fun _ => 0) sample_state 0 (pass_const_arith false sample_ctx) = meaning (fun _ => 0) sample_state 0 sample_ctx.
Proof. apply pass_const_arith_correct; [exact sample_wf|vm_compute; reflexivity..]. Defined.

Lemma pass_fma_correct_witness :
  meaning (fun _ => 0) sample_state 0 (pass_fma sample_ctx) = meaning (fun _ => 0) sample_state 0 sample_ctx.
Proof. apply pass_fma_correct; [exact sample_wf|vm_compute; reflexivity..]. Defined.
