(* ===== verification/FusionProps.v ===== *)
(** What marking a compare and an FSTSW as fused is good for: the status word
    the FSTSW stores has the condition codes of that very compare. *)

From S2P Require Import Prelude F64 GuestMem IROperand X87IR X87IRBuild Fpu X87IREval.
From S2P Require Import X87IRInv X87IRWf X87IROptimize X87IRSim X87IRUses OptimizeProps.

Definition is_compare (n : Node) : bool := Op_eqb (op n) FCmp || Op_eqb (op n) FTst.

(** The FSTSW [i] names a compare no live compare follows before it. *)
Definition clean (c : Context) (i : Z) : Prop :=
  let k := input (node c i) 0 in
  0 <= k < num_nodes c /\ is_compare (node c k) = true /\
  forall j, k < j < i -> dead (node c j) = true \/ is_compare (node c j) = false.

Lemma same_at c c' k : same c c' -> same_node (node c k) (node c' k).
Proof.
  intros [H _ _ _]. unfold node. generalize (Z.to_nat k) as m. induction H as [|n n' l l' Hn _ IH]; intros m.
  - destruct m; apply same_refl.
  - destruct m; cbn [nth]; [exact Hn|apply IH].
Qed.

Lemma same_num c c' : same c c' -> num_nodes c' = num_nodes c.
Proof. intros [H _ _ _]. unfold num_nodes. f_equal. symmetry. eapply Forall2_length; exact H. Qed.

Lemma same_dead n n' : same_node n n' -> dead n' = dead n.
Proof. intros H. unfold dead. rewrite (same_flag n n' kDead H eq_refl). reflexivity. Qed.

Definition fused_clean (c c' : Context) : Prop :=
  same c c' /\
  forall i, 0 <= i < num_nodes c -> op (node c i) = FStsw ->
    has_flag (node c' i) kFcomFused = true -> has_flag (node c i) kFcomFused = true \/ clean c i.

Lemma fusion_step_clean c c' i : 0 <= i < num_nodes c -> fused_clean c c' -> fused_clean c (fusion_step c' i).
Proof.
  intros Hi [S H]. pose proof (same_num c c' S) as N.
  assert (Nd : forall k, op (node c' k) = op (node c k) /\ input (node c' k) 0 = input (node c k) 0 /\ dead (node c' k) = dead (node c k)).
  { intros k. pose proof (same_at c c' k S) as Sk. pose proof (same_dead _ _ Sk). destruct Sk as (A & B & _). unfold input.
    rewrite B. auto. }
  unfold fusion_step. cbv zeta. destruct (dead (node c' i)); [split; assumption|].
  destruct (Nd i) as (Ei & Ein & _). rewrite Ei, Ein. set (k := input (node c i) 0).
  destruct (Op_eqb (op (node c i)) FStsw) eqn:Eo; [|split; assumption]. cbn [negb].
  destruct (in_nodes c' k) eqn:Ek; [|split; assumption]. cbn [negb].
  destruct (Nd k) as (Eok & _ & _). rewrite Eok.
  destruct (Op_eqb (op (node c k)) FCmp || Op_eqb (op (node c k)) FTst) eqn:Ec; [|split; assumption]. cbn [negb].
  destruct (existsb _ _) eqn:Ex; [split; assumption|]. apply Op_eqb_eq in Eo.
  assert (Hk : 0 <= k < num_nodes c).
  { unfold in_nodes in Ek. apply andb_true_iff in Ek as [E1 E2]. apply Z.leb_le in E1. apply Z.ltb_lt in E2. lia. }
  split; [apply same_mark, same_mark, S|]. intros j Hj Hoj Hf.
  destruct (Z.eq_dec i j) as [<-|Hne].
  - right. split; [exact Hk|]. split; [exact Ec|]. intros x Hx. fold k in Hx.
    destruct (dead (node c x)) eqn:Ed; [auto|]. right.
    destruct (is_compare (node c x)) eqn:Exc; [|reflexivity]. exfalso.
    assert (T : existsb (fun j => negb (dead (node c' j)) && (Op_eqb (op (node c' j)) FCmp || Op_eqb (op (node c' j)) FTst))
      (map (fun m => k + 1 + Z.of_nat m) (seq 0 (Z.to_nat (i - (k + 1))))) = true); [|congruence].
    apply existsb_exists. exists x. split.
    + apply in_map_iff. exists (Z.to_nat (x - (k + 1))). split; [lia|]. apply in_seq. lia.
    + destruct (Nd x) as (-> & _ & ->). rewrite Ed. exact Exc.
  - rewrite node_set_ne in Hf by (rewrite ?num_set_node; lia). destruct (Z.eq_dec k j) as [E|].
    + exfalso. rewrite E, Hoj in Ec. discriminate.
    + rewrite node_set_ne in Hf by lia. apply H; assumption.
Qed.

Lemma fusion_clean c : fused_clean c (pass_fcom_fstsw_fusion c).
Proof.
  unfold pass_fcom_fstsw_fusion. apply (fold_going fusion_step (fused_clean c)).
  - intros c' i Hi H. apply fusion_step_clean; [apply indices_in, Hi|exact H].
  - split; [|auto]. constructor; try reflexivity. induction (nodes c); constructor; auto. apply same_refl.
Qed.

(** ** The status word along a run *)

Section Status.
Context (segbase : Z -> Z) (s : fpu) (nzcv : Z) (c : Context).

(** The state before node [k]. *)
Definition state_at (k : Z) : ir := eval_context segbase (prefix c k) s nzcv.

Lemma node_sem_sw st t s0 v n : dead n = true \/ is_compare n = false ->
  i_sw (fst (node_sem segbase st t s0 v n)) = i_sw s0.
Proof.
  unfold node_sem, is_compare. cbv zeta. intros [->|H]; [reflexivity|]. destruct (dead n); [reflexivity|].
  destruct (op n); discriminate || reflexivity.
Qed.

Lemma state_succ k : 0 <= k < num_nodes c ->
  state_at (k + 1) = eval_node segbase (stack s) (top s) (state_at k) (node c k).
Proof. exact (E_succ segbase s nzcv c k). Qed.

Lemma sw_between k i : 0 <= k <= i -> i <= num_nodes c ->
  (forall j, k <= j < i -> dead (node c j) = true \/ is_compare (node c j) = false) ->
  i_sw (state_at i) = i_sw (state_at k).
Proof.
  intros Hk Hi H. remember (Z.to_nat (i - k)) as m eqn:Em. revert i Hk Hi H Em.
  induction m as [|m IH]; intros i Hk Hi H Em; [replace i with k by lia; reflexivity|].
  replace i with (i - 1 + 1) by lia. rewrite state_succ by lia.
  unfold eval_node. change (i_sw (add_val ?a ?b)) with (i_sw a). rewrite node_sem_sw by (apply H; lia).
  apply IH; [lia|lia| |lia]. intros j Hj. apply H. lia.
Qed.

(** What a compare node compares. *)
Definition compared (n : Node) : option comparison :=
  fcompare f64 (node_val segbase s nzcv c (input n 0))
    (if Op_eqb (op n) FCmp then node_val segbase s nzcv c (input n 1) else f_zero).
End Status.

(** C11: once the pass has marked an FSTSW, the condition codes in the status
    word that reaches it are those its own compare set, whatever lies
    between the two. *)
Theorem fused_fstsw_reads_its_compare segbase s nzcv c i :
  wf c -> 0 <= i < num_nodes c -> op (node c i) = FStsw -> has_flag (node c i) kFcomFused = false ->
  let k := input (node c i) 0 in k < i -> dead (node c k) = false ->
  has_flag (node (pass_fcom_fstsw_fusion c) i) kFcomFused = true ->
  i_sw (state_at segbase s nzcv c i) =
  set_cc (i_sw (state_at segbase s nzcv c k)) (compared segbase s nzcv c (node c k)).
Proof.
  intros W Hi Ho Hn k Hki Hd Hf. destruct (fusion_clean c) as [_ H].
  destruct (H i Hi Ho Hf) as [|(Hk & Hc & Hb)]; [congruence|]. fold k in Hk, Hc, Hb.
  rewrite (sw_between segbase s nzcv c (k + 1) i) by (try lia; intros j Hj; apply Hb; lia).
  rewrite state_succ by exact Hk. unfold eval_node. change (i_sw (add_val ?a ?b)) with (i_sw a).
  assert (V : forall j, 0 <= j < arity (op (node c k)) ->
    zget (vals (state_at segbase s nzcv c k)) (input (node c k) j) = node_val segbase s nzcv c (input (node c k) j)).
  { intros j Hj. apply V_prefix; [|lia]. apply (nw_ids _ _ (wf_nodes c W k Hk)), Hj. }
  unfold compared, node_sem. cbv zeta. rewrite Hd. unfold is_compare in Hc. apply orb_true_iff in Hc as [E|E];
    apply Op_eqb_eq in E; rewrite E in *; cbn [fst ir_sw i_sw]; rewrite !V by (cbn; lia); reflexivity.
Qed.

Lemma fused_fstsw_reads_its_compare_witness :
  i_sw (state_at (fun _ => 0) sample_state 0 sample_ctx 13) =
  set_cc (i_sw (state_at (fun _ => 0) sample_state 0 sample_ctx 12))
    (compared (fun _ => 0) sample_state 0 sample_ctx (node sample_ctx 12)).
Proof.
  apply (fused_fstsw_reads_its_compare (fun _ => 0) sample_state 0 sample_ctx 13);
    [exact sample_wf|vm_compute; split; [discriminate|reflexivity]|vm_compute; reflexivity..].
Defined.
