(* ===== verification/Compile.v ===== *)
(** Building and optimizing a run, end to end, and what a fold does to an
    FSTSW whose metadata names the folded node. *)

From S2P Require Import Prelude F64 X87State X87Props F64Props GuestMem IROperand X87IR X87IRBuild Fpu X87IREval.
From S2P Require Import X87IRInv X87IRWf X87IRRefine X87IROptimize X87IRUses ConstArithProps OptimizeProps.

(** C1: the compiled run refines the guest: if the x87 (and the integer
    instructions the run inlines) takes the machine to [s'] over the
    instructions the builder consumed, then the nodes the optimizer leaves
    take it there too, provided the values of the run are doubles that are
    no signalling NaN, no negation is of a NaN, the products are exact where
    the multiply-add pass looks, and no FSTSW's metadata is the number of a
    folded node. *)
Theorem compile_refines segbase ro host_mem range_is_readonly transparent_int nzcv s instrs start n perm promote ok c
    f32_arith :
  machine_ok s -> host_agrees ro range_is_readonly host_mem s -> perm_ok perm -> Z.of_nat n < 2 ^ 15 ->
  Forall operands_ok instrs ->
  build range_is_readonly host_mem transparent_int instrs start n perm promote = Some (ok, c) ->
  quiet_run segbase s nzcv c = true -> metadata_apart c = true ->
  let c3 := pass_dse (pass_const_arith false (pass_dead_compares c)) in
  negations_numeric segbase s nzcv c3 = true ->
  products_exact segbase s nzcv (pass_fneg_fold c3) = true ->
  exists c', optimize false false f32_arith c = Some c' /\
    forall s', exec_all segbase ro (logical perm s) (firstn (Z.to_nat (consumed c)) (skipn start instrs)) = Some s' ->
    implements s' (ir_result c' s (eval_context segbase c' s nzcv)).
Proof.
  intros Hm Hh Hp Hn Ho Hb Hq Hmeta c3 Hneg Hx.
  pose proof (build_wf _ _ _ _ _ _ _ _ _ _ Ho Hp Hn Hb) as W.
  destruct (optimize_keeps segbase s nzcv c f32_arith W Hq Hmeta Hneg Hx) as (c' & Ec & Em).
  exists c'. split; [exact Ec|]. intros s' Hs. rewrite Em. apply rel_implements.
  exact (build_rel segbase ro host_mem range_is_readonly transparent_int nzcv s instrs start n perm promote
    ok c Hm Hh Hp Hn Hb s' Hs).
Qed.

Lemma compile_refines_witness :
  exists c', optimize false false false sample_ctx = Some c' /\
    forall s', exec_all (fun _ => 0) (fun _ => false) (logical None sample_state)
                 (firstn (Z.to_nat (consumed sample_ctx)) (skipn 0 sample_prog)) = Some s' ->
    implements s' (ir_result c' sample_state (eval_context (fun _ => 0) c' sample_state 0)).
Proof.
  apply (compile_refines (fun _ => 0) (fun _ => false) (fun _ => 0) (fun _ _ => false) true 0 sample_state
    sample_prog 0 12 None false true sample_ctx false).
  - constructor; [reflexivity|cbn; lia|]. repeat constructor; vm_compute; intuition discriminate.
  - split; [discriminate|discriminate].
  - exact I.
  - reflexivity.
  - exact sample_ops.
  - exact sample_built.
  - vm_compute. reflexivity.
  - vm_compute. reflexivity.
  - vm_compute. reflexivity.
  - vm_compute. reflexivity.
Defined.

(** The guest runs the sample to the end. *)
Example sample_runs : match exec_all (fun _ => 0) (fun _ => false) (logical None sample_state) sample_prog with
  | Some s => (regs s 0, load 8 (gmem s) 0x1008) | None => (0, 1) end = (0x4000 + 0x3000, 0).
Proof. vm_compute. reflexivity. Qed.

(** ** The FSTSW that is rewritten *)

Lemma sub_reg_top r w t : 0 <= t < 8 ->
  Z.land (Z.shiftr (Z.lor (Z.land r (Z.lnot 0xFFFF)) (u16 (status_word w t))) 11) 7 = t.
Proof.
  intros Ht. unfold status_word. change 7 with (Z.ones 3). apply Z.bits_inj'. intros n Hn.
  rewrite Z.land_spec, Z.testbit_ones_nonneg, Z.shiftr_spec, Z.lor_spec, Z.land_spec, Z.lnot_spec by lia.
  destruct (Z.ltb_spec n 3) as [L|L].
  - unfold u16, wrap. rewrite Z.mod_pow2_bits_low by lia.
    rewrite Z.lor_spec, Z.land_spec, Z.lnot_spec, Z.shiftl_spec by lia. replace (n + 11 - 11) with n by lia.
    assert (n = 0 \/ n = 1 \/ n = 2) as [-> | [-> | ->]] by lia;
      match goal with |- context[Z.testbit 0xFFFF ?k] => change (Z.testbit 0xFFFF k) with true end;
      match goal with |- context[Z.testbit 0x3800 ?k] => change (Z.testbit 0x3800 k) with true end;
      cbn [negb]; rewrite !andb_false_r, andb_true_r; reflexivity.
  - rewrite andb_false_r. symmetry. rewrite <- (Z.mod_small t (2 ^ 3)) by lia. apply Z.mod_pow2_bits_high. lia.
Qed.

(** TOP in the status word a register holds. *)
Definition top_in (r : Z) : Z := Z.land (Z.shiftr r 11) 7.

(** An identity fold keeps an operand of an arithmetic node and drops a
    constant. *)
Lemma identity_fold_nodes c n keep cidx : identity_fold c n = Some (keep, cidx) ->
  foldable (op n) = true /\ (keep = input n 0 \/ keep = input n 1) /\ 0 <= cidx /\
  (op (node c cidx) = ConstOne \/ op (node c cidx) = ConstZero \/ op (node c cidx) = ConstF64).
Proof.
  assert (K : forall id a bits, (a = Some ConstOne \/ a = Some ConstZero \/ a = None) -> const_is c id a bits = true ->
    0 <= id /\ (op (node c id) = ConstOne \/ op (node c id) = ConstZero \/ op (node c id) = ConstF64)).
  { intros id a bits Ha. unfold const_is. destruct (in_nodes c id) eqn:Ei; [|discriminate]. apply in_nodes_spec in Ei. destruct (dead (node c id)); [discriminate|].
    cbn [negb]. destruct Ha as [-> | [-> | ->]]; destruct (op (node c id)); cbn; try discriminate; (split; [lia | auto]). }
  unfold identity_fold. intros H.
  repeat match type of H with (if ?x then _ else _) = _ => destruct x eqn:?E end; try discriminate; injection H as <- <-;
    match goal with E : _ && const_is _ _ _ _ = true |- _ => apply andb_true_iff in E as [Eo Ec] end;
    (split; [destruct (op n); discriminate || reflexivity | split; [auto | eapply K; [|exact Ec]; auto]]).
Qed.

(** The node of an FSTSW after a fold. *)
Lemma fstsw_after_fold c uc i keep cidx k : wf c -> identity_fold c (node c i) = Some (keep, cidx) ->
  0 <= i < num_nodes c -> 0 <= k < num_nodes c -> dead (node c k) = false -> op (node c k) = FStsw ->
  node (fst (fold_to c uc i keep cidx)) k = redirected i keep (node c k).
Proof.
  intros W Hf Hi Hk Hd Ho. destruct (identity_fold_nodes _ _ _ _ Hf) as (F & _ & C).
  assert (i <> k) by (intros ->; rewrite Ho in F; discriminate).
  assert (cidx <> k) by (intros ->; rewrite Ho in C; intuition discriminate).
  unfold fold_to. cbv zeta. unfold fst. destruct (zget _ cidx =? 0); unfold kill; rewrite !node_set_ne by lia; apply replace_node, Hk.
Qed.

(** C39: FSTSW keeps its register and the TOP delta of the run at it in the two
    inputs after its compare's, and a fold replaces every input equal to the
    folded node's number: when that number is the delta, the status word the
    FSTSW stores has the TOP of another depth, and when it is the register's,
    another register gets it; a fold of any other number leaves what it stores. *)
Theorem fold_rewrites_metadata segbase stack0 top0 e v c uc i keep cidx k :
  wf c -> 0 <= i < num_nodes c -> dead (node c i) = false -> identity_fold c (node c i) = Some (keep, cidx) ->
  0 <= k < num_nodes c -> dead (node c k) = false -> op (node c k) = FStsw -> 0 <= input (node c k) 2 < 8 ->
  let stored c := i_regs (fst (node_sem segbase stack0 top0 e v (node c k))) in
  let c' := fst (fold_to c uc i keep cidx) in
  let r := input (node c k) 1 in let delta := input (node c k) 2 in
  (i = delta -> i <> r -> top_in (stored c r) = (top0 + i) mod 8 /\ top_in (stored c' r) = (top0 + keep) mod 8 /\
     stored c' r <> stored c r) /\
  (i = r -> stored c' r = i_regs e r /\ top_in (stored c' keep) = (top0 + redirect i keep delta) mod 8) /\
  (i <> r -> i <> delta -> stored c' = stored c).
Proof.
  intros W Hi Hdi Hf Hk Hd Ho Hdelta stored c' r delta.
  destruct (identity_fold_nodes _ _ _ _ Hf) as (F & Hkeep & _).
  assert (Bk : 0 <= keep < i).
  { assert (A : arity (op (node c i)) = 2) by (destruct (op (node c i)); discriminate || reflexivity).
    destruct Hkeep as [-> | ->]; apply (nw_ids _ _ (wf_nodes c W i Hi)); lia. }
  assert (En : node c' k = redirected i keep (node c k)) by (apply fstsw_after_fold; assumption).
  assert (Sem : forall n, dead n = false -> op n = FStsw -> i_regs (fst (node_sem segbase stack0 top0 e v n)) =
    set_reg (i_regs e) (input n 1) (Z.lor (Z.land (i_regs e (input n 1)) (Z.lnot 0xFFFF))
      (u16 (status_word (i_sw e) ((top0 + input n 2) mod 8))))).
  { intros n H1 H2. unfold node_sem. rewrite H1, H2. reflexivity. }
  assert (S0 := Sem (node c k) Hd Ho). fold (stored c) in S0.
  assert (S1 := Sem (node c' k)). fold (stored c') in S1. rewrite En in S1.
  pose proof (wf_nodes c W k Hk) as Wk. pose proof (nw_inputs _ _ Wk) as Hl.
  rewrite redirected_dead, (proj1 (redirected_op i keep (node c k))), !redirected_input in S1 by (auto; lia).
  specialize (S1 Hd Ho). fold r in S0, S1. fold delta in S0, S1, Hdelta.
  assert (T : forall x t, top_in (Z.lor (Z.land x (Z.lnot 0xFFFF)) (u16 (status_word (i_sw e) (t mod 8)))) = t mod 8)
    by (intros; apply sub_reg_top, Z.mod_pos_bound; lia).
  rewrite S0, S1. unfold redirect, set_reg. repeat split.
  - rewrite Z.eqb_refl, T. f_equal. lia.
  - subst i. replace (r =? delta) with false by (symmetry; apply Z.eqb_neq; lia). rewrite !Z.eqb_refl. apply T.
  - subst i. replace (r =? delta) with false by (symmetry; apply Z.eqb_neq; lia). rewrite !Z.eqb_refl.
    intros E. apply (f_equal top_in) in E. rewrite !T in E. Z.div_mod_to_equations. lia.
  - subst i. rewrite Z.eqb_refl. replace (r =? keep) with false by (symmetry; apply Z.eqb_neq; lia). reflexivity.
  - subst i. rewrite !Z.eqb_refl. apply T.
  - intros H1 H2. replace (r =? i) with false by (symmetry; apply Z.eqb_neq; lia).
    replace (delta =? i) with false by (symmetry; apply Z.eqb_neq; lia). reflexivity.
Qed.

(** fld1; fmulp st(1); fcompp; fstsw ax: the product is node 2, and the
    FSTSW, node 5, two pops into the run. *)
Definition fstsw_prog : list IRInstr :=
  let st i := mkOperand 0 2 (0x70 + i) 0 0 0 0 0 0 in
  [ mkInstr kOpcodeName.fld1 0 []; mkInstr kOpcodeName.fmulp 2 [st 1; st 0];
    mkInstr kOpcodeName.fcompp 0 []; mkInstr kOpcodeName.fstsw 1 [mkOperand 0 1 0x10 0 0 0 0 0 0] ].

Definition fstsw_ctx : Context :=
  match build (fun _ _ => false) (fun _ => 0) true fstsw_prog 0 4 None false with
  | Some (_, c) => c | None => Context_init end.

Lemma fstsw_ctx_wf : wf fstsw_ctx.
Proof.
  eapply (build_wf (fun _ _ => false) (fun _ => 0) true fstsw_prog 0 4 None false); [| exact I | reflexivity | vm_compute; reflexivity].
  repeat constructor; vm_compute; intuition discriminate.
Qed.

Lemma fold_rewrites_metadata_witness :
  let e := ir_start sample_state 0 in
  let stored c := i_regs (fst (node_sem (fun _ => 0) (stack sample_state) 6 e (fun _ => 0) (node c 5))) in
  let c' := fst (fold_to fstsw_ctx (use_counts fstsw_ctx) 2 1 0) in
  top_in (stored fstsw_ctx 0) = 0 /\ top_in (stored c' 0) = 7 /\ stored c' 0 <> stored fstsw_ctx 0.
Proof.
  apply (fold_rewrites_metadata (fun _ => 0) (stack sample_state) 6 (ir_start sample_state 0) (fun _ => 0)
    fstsw_ctx (use_counts fstsw_ctx) 2 1 0 5 fstsw_ctx_wf); vm_compute; intuition discriminate.
Defined.

(** The guest has TOP 0 in AX after it, the optimized run stores 7. *)
Example fstsw_run_rewritten :
  option_map (fun s => regs s 0) (exec_all (fun _ => 0) (fun _ => false) (logical None sample_state) fstsw_prog) = Some 0x100 /\
  option_map (fun c => regs (ir_result c sample_state (eval_context (fun _ => 0) c sample_state 0)) 0)
    (optimize false false false fstsw_ctx) = Some 0x3900 /\
  quiet_run (fun _ => 0) sample_state 0 fstsw_ctx = true /\ metadata_apart fstsw_ctx = false.
Proof. repeat split; vm_compute; reflexivity. Qed.
