(* ===== verification/A64Exec.v ===== *)
(** Running A64 code: the effect of each instruction of [A64] on a machine
    with 31 general registers and SP, the low 64 bits of the SIMD registers,
    NZCV and a byte memory, and the execution of an emitted buffer.  Nothing
    here models code of the repository.

    Register 31 of [xr] is SP; where an instruction means the zero register it
    is not looked up.  The [nzcv] word has N, Z, C, V in bits 31 to 28; bits 27
    and 26, which MRS and MSR move like the others, hold the two x86 flags
    without an Arm counterpart.  [None] is an instruction the code proved
    about does not contain (flag-setting integer arithmetic, PC-relative
    addresses, backward branches, calls). *)

From S2P Require Import Prelude F64 GuestMem A64 BitmaskImm Fpu X87IREval.

Record machine := mkMachine { xr : Z -> Z; vr : Z -> Z; nzcv : Z; mm : mem }.

Definition set_xr m f := mkMachine f (vr m) (nzcv m) (mm m).
Definition set_vr m f := mkMachine (xr m) f (nzcv m) (mm m).
Definition set_nzcv m v := mkMachine (xr m) (vr m) v (mm m).
Definition set_mm m v := mkMachine (xr m) (vr m) (nzcv m) v.

Definition w_of (sf : bool) : Z := if sf then 64 else 32.

(** [X[r]] with register 31 as zero, and as SP. *)
Definition rd_zr (sf : bool) (m : machine) (r : Z) : Z :=
  if r =? 31 then 0 else wrap (w_of sf) (xr m r).
Definition rd_sp (sf : bool) (m : machine) (r : Z) : Z := wrap (w_of sf) (xr m r).
Definition wr_sp (sf : bool) (m : machine) (r v : Z) : machine :=
  set_xr m (set_reg (xr m) r (wrap (w_of sf) v)).
Definition wr_zr (sf : bool) (m : machine) (r v : Z) : machine :=
  if r =? 31 then m else wr_sp sf m r v.

(** A double or single in a SIMD register; writing one clears the rest. *)
Definition fmt_of (type : Z) : option fmt :=
  if type =? 1 then Some f64 else if type =? 0 then Some f32 else None.
Definition rd_v (f : fmt) (m : machine) (r : Z) : Z := wrap (size f) (vr m r).
Definition wr_v (f : fmt) (m : machine) (r v : Z) : machine :=
  set_vr m (set_reg (vr m) r (wrap (size f) v)).

(** ShiftReg *)
Definition shift_reg (w type x n : Z) : Z :=
  match type with
  | 0 => wrap w (Z.shiftl x n)
  | 1 => Z.shiftr x n
  | 2 => wrap w (Z.shiftr (sgn w x) n)
  | _ => Z.lor (Z.shiftr x n) (wrap w (Z.shiftl x (w - n)))
  end.

(** ExtendReg *)
Definition extend_reg (option x n : Z) : Z :=
  let len := 8 * 2 ^ (option mod 4) in
  Z.shiftl (if option <? 4 then wrap len x else sgn len x) n.

Definition logical (opc a b : Z) : Z :=
  match opc with 0 => Z.land a b | 1 => Z.lor a b | 2 => Z.lxor a b | _ => Z.land a b end.

(** UBFM, SBFM and BFM by their aliases: an extraction when [imms] is at least
    [immr], an insertion at [w - immr] otherwise.  [dst] is the old value. *)
Definition bitfield (w opc immr imms dst src : Z) : Z :=
  let extract := immr <=? imms in
  let n := if extract then imms - immr + 1 else imms + 1 in
  let at_ := if extract then 0 else w - immr in
  let x := if extract then bits src immr n else bits src 0 n in
  match opc with
  | 0 => wrap w (Z.shiftl (sgn n x) at_)
  | 1 => Z.lor (Z.land dst (Z.lnot (Z.shiftl (Z.ones n) at_))) (Z.shiftl x at_)
  | _ => Z.shiftl x at_
  end.

Definition move_wide (w opc hw imm dst : Z) : Z :=
  match opc with
  | 0 => unot w (Z.shiftl imm (16 * hw))
  | 2 => Z.shiftl imm (16 * hw)
  | _ => Z.lor (Z.land dst (Z.lnot (Z.shiftl 0xFFFF (16 * hw)))) (Z.shiftl imm (16 * hw))
  end.

(** The flags of a floating-point comparison. *)
Definition fp_flags (c : option comparison) : Z :=
  match c with
  | None => 0x30000000
  | Some Lt => 0x80000000
  | Some Gt => 0x20000000
  | Some Eq => 0x60000000
  end.

(** FPExpandImm of an 8-bit immediate, 64-bit. *)
Definition fp_expand_imm (imm8 : Z) : Z :=
  let b6 := bits imm8 6 1 in
  Z.lor (Z.lor (Z.shiftl (bits imm8 7 1) 63) (Z.shiftl (1 - b6) 62))
        (Z.lor (Z.shiftl (b6 * 0xFF) 54) (Z.shiftl (bits imm8 0 6) 48)).

Definition fp1 (opcode : Z) (f : fmt) (a : Z) : option Z :=
  match opcode with
  | 0 => Some a
  | 1 => Some (fabs f a)
  | 2 => Some (fneg f a)
  | 3 => Some (fsqrt f a)
  | 8 => Some (round_integral RNE f a)
  | 9 => Some (round_integral RUp f a)
  | 10 => Some (round_integral RDown f a)
  | 11 => Some (round_integral RZero f a)
  | _ => None
  end.

Definition fp2 (opcode : Z) (f : fmt) (a b : Z) : option Z :=
  match opcode with
  | 0 => Some (fmul f a b)
  | 1 => Some (fdiv f a b)
  | 2 => Some (fadd f a b)
  | 3 => Some (fsub f a b)
  | 8 => Some (fnmul f a b)
  | _ => None
  end.

Definition fp3 (o1 o0 : bool) (f : fmt) (a b c : Z) : Z :=
  match o1, o0 with
  | false, false => fma f a b c
  | false, true => fmsub f a b c
  | true, false => fneg f (fma f a b c)
  | true, true => fnmsub f a b c
  end.

(** The rounding mode of an [rmode] field. *)
Definition rmode_of (r : Z) : rmode :=
  match r with 0 => RNE | 1 => RUp | 2 => RDown | _ => RZero end.

(** A load or store of [2^size] bytes at [a]. *)
Definition ldst (size : Z) (fp : bool) (opc a rt : Z) (m : machine) : option machine :=
  let n := Z.to_nat (2 ^ size) in
  let x := load n (mm m) a in
  if fp then
    match opc with
    | 0 => Some (set_mm m (store n (mm m) a (vr m rt)))
    | 1 => Some (set_vr m (set_reg (vr m) rt x))
    | _ => None
    end
  else
    match opc with
    | 0 => Some (set_mm m (store n (mm m) a (rd_zr true m rt)))
    | 1 => Some (wr_zr true m rt x)
    | 2 => if size <? 3 then Some (wr_zr true m rt (sgn (8 * 2 ^ size) x)) else None
    | _ => if size <? 2 then Some (wr_zr false m rt (sgn (8 * 2 ^ size) x)) else None
    end.

Definition ldp_stp (n : nat) (load_ : bool) (a rt rt2 : Z) (m : machine) : machine :=
  if load_ then
    set_vr m (set_reg (set_reg (vr m) rt (load n (mm m) a)) rt2 (load n (mm m) (a + Z.of_nat n)))
  else set_mm m (store n (store n (mm m) a (vr m rt)) (a + Z.of_nat n) (vr m rt2)).

Definition fp_int (sf : bool) (type rmode opcode rn rd : Z) (m : machine) : option machine :=
  let? f := fmt_of type in
  match opcode with
  | 0 => Some (wr_zr sf m rd (fcvt_int (rmode_of rmode) (w_of sf) f (rd_v f m rn)))
  | 2 => if rmode =? 0
         then Some (wr_v f m rd (of_int f (sgn (w_of sf) (rd_zr sf m rn)))) else None
  | 6 => if sf && (type =? 1) && (rmode =? 0) then Some (wr_zr true m rd (rd_v f64 m rn)) else None
  | 7 => if sf && (type =? 1) && (rmode =? 0) then Some (wr_v f64 m rd (rd_zr true m rn)) else None
  | _ => None
  end.

(** One instruction that is no branch and no literal load. *)
Definition exec (i : insn) (m : machine) : option machine :=
  match i with
  | AddSubImm sf sub setf sh imm rn rd =>
      let a := rd_sp sf m rn in
      let b := if sh =? 0 then imm else Z.shiftl imm 12 in
      guard (negb setf && (sh <? 2)) (Some (wr_sp sf m rd (if sub then a - b else a + b)))
  | LogicalImm sf opc n immr imms rn rd =>
      let? b := decode_bit_masks (w_of sf) n imms immr in
      guard (opc <? 3) (Some (wr_sp sf m rd (logical opc (rd_zr sf m rn) b)))
  | MoveWide sf opc hw imm rd =>
      guard (negb (opc =? 1) && (sf || (hw <? 2)))
        (Some (wr_zr sf m rd (move_wide (w_of sf) opc hw imm (rd_zr sf m rd))))
  | Bitfield sf opc n immr imms rn rd =>
      guard ((opc <? 3) && (n =? b2z sf) && (immr <? w_of sf) && (imms <? w_of sf))
        (Some (wr_zr sf m rd (bitfield (w_of sf) opc immr imms (rd_zr sf m rd) (rd_zr sf m rn))))
  | Adr _ _ _ => None
  | LogicalReg sf opc invert type rm imm rn rd =>
      let b := shift_reg (w_of sf) type (rd_zr sf m rm) imm in
      let b := if invert then unot (w_of sf) b else b in
      guard ((opc <? 3) && (imm <? w_of sf)) (Some (wr_zr sf m rd (logical opc (rd_zr sf m rn) b)))
  | AddSubReg sf sub setf type rm imm rn rd =>
      let a := rd_zr sf m rn in
      let b := shift_reg (w_of sf) type (rd_zr sf m rm) imm in
      guard (negb setf && (type <? 3) && (imm <? w_of sf))
        (Some (wr_zr sf m rd (if sub then a - b else a + b)))
  | AddSubExt sf sub setf rm option imm rn rd =>
      let a := rd_sp sf m rn in
      let b := extend_reg option (rd_zr sf m rm) imm in
      guard (negb setf && (imm <? 5)) (Some (wr_sp sf m rd (if sub then a - b else a + b)))
  | Lslv sf rm rn rd =>
      Some (wr_zr sf m rd (Z.shiftl (rd_zr sf m rn) (rd_zr sf m rm mod w_of sf)))
  | Csinc sf rm cond rn rd =>
      Some (wr_zr sf m rd (if a64_cond cond (nzcv m) then rd_zr sf m rn else rd_zr sf m rm + 1))
  | LdStImm size fp opc imm rn rt =>
      ldst size fp opc (u64 (rd_sp true m rn + Z.shiftl imm size)) rt m
  | LdStReg size fp opc rm option s rn rt =>
      guard (Z.testbit option 1)
        (ldst size fp opc
           (u64 (rd_sp true m rn + extend_reg option (rd_zr true m rm) (if s then size else 0))) rt m)
  | LdStUnscaled size fp opc imm rn rt | LdStUnpriv size fp opc imm rn rt =>
      ldst size fp opc (u64 (rd_sp true m rn + imm)) rt m
  | LdpStpFp opc load_ imm rt2 rn rt =>
      guard (opc <? 2)
        (Some (ldp_stp (Z.to_nat (4 * 2 ^ opc)) load_
                 (u64 (rd_sp true m rn + Z.shiftl imm (2 + opc))) rt rt2 m))
  | LdrLitFp _ _ _ => None
  | Fp1 type opcode rn rd =>
      let? f := fmt_of type in
      if opcode =? 4 then guard (type =? 1) (Some (wr_v f32 m rd (narrow (rd_v f m rn))))
      else if opcode =? 5 then guard (type =? 0) (Some (wr_v f64 m rd (widen (rd_v f m rn))))
      else let? x := fp1 opcode f (rd_v f m rn) in Some (wr_v f m rd x)
  | Fp2 type rm opcode rn rd =>
      let? f := fmt_of type in
      let? x := fp2 opcode f (rd_v f m rn) (rd_v f m rm) in Some (wr_v f m rd x)
  | Fp3 type o1 o0 rm ra rn rd =>
      let? f := fmt_of type in
      Some (wr_v f m rd (fp3 o1 o0 f (rd_v f m rn) (rd_v f m rm) (rd_v f m ra)))
  | Fcmp type rm rn zero =>
      let? f := fmt_of type in
      let c := fcompare f (rd_v f m rn) (if zero then 0 else rd_v f m rm) in
      Some (set_nzcv m (Z.lor (bits (nzcv m) 0 28) (fp_flags c)))
  | Fcsel type rm cond rn rd =>
      let? f := fmt_of type in
      Some (wr_v f m rd (if a64_cond cond (nzcv m) then rd_v f m rn else rd_v f m rm))
  | FmovImm type imm8 rd => guard (type =? 1) (Some (wr_v f64 m rd (fp_expand_imm imm8)))
  | FpInt sf type rmode opcode rn rd => fp_int sf type rmode opcode rn rd m
  | MoviD rd => Some (wr_v f64 m rd 0)
  | ScvtfD rn rd => Some (wr_v f64 m rd (of_int f64 (s64 (rd_v f64 m rn))))
  | MrsNzcv rt => Some (wr_zr true m rt (u32 (nzcv m)))
  | MsrNzcv rt => Some (set_nzcv m (Z.land (rd_zr true m rt) 0xFC000000))
  | Cbz _ _ _ _ | Tbz _ _ _ _ | B _ | Bcond _ _ => None
  end.

(** A forward branch of [off] words, as the number of words to skip. *)
Definition jump (taken : bool) (off : Z) : option nat :=
  if taken then (if 1 <=? off then Some (Z.to_nat (off - 1)) else None) else Some O.

Definition branch (i : insn) (m : machine) : option (option nat) :=
  match i with
  | Cbz sf nonzero off rt => Some (jump (Bool.eqb nonzero (nz (rd_zr sf m rt))) off)
  | Tbz nonzero bit off rt => Some (jump (Bool.eqb nonzero (Z.testbit (rd_zr true m rt) bit)) off)
  | B off => Some (jump true off)
  | Bcond cond off => Some (jump (a64_cond cond (nzcv m)) off)
  | _ => None
  end.

(** The instruction [w] followed by [rest]: the machine it leaves and how many
    words of [rest] are jumped over.  A literal is read from [rest]. *)
Definition step (w : Z) (rest : list Z) (m : machine) : option (machine * nat) :=
  let? i := decode w in
  match branch i m with
  | Some j => let? k := j in Some (m, k)
  | None =>
      match i with
      | LdrLitFp opc off rt =>
          guard ((opc =? 1) && (1 <=? off))
            (let? lo := nth_error rest (Z.to_nat (off - 1)) in
             let? hi := nth_error rest (Z.to_nat off) in
             Some (wr_v f64 m rt (lo + Z.shiftl hi 32), O))
      | _ => let? m' := exec i m in Some (m', O)
      end
  end.

(** Running a buffer of words, the first [skip] of them jumped over; the
    result has the words still to skip past its end. *)
Fixpoint run (code : list Z) (skip : nat) (m : machine) : option (machine * nat) :=
  match code with
  | [] => Some (m, skip)
  | w :: rest =>
      match skip with
      | S k => run rest k m
      | O => let? (m', k) := step w rest m in run rest k m'
      end
  end.

(** ** Composition *)

Lemma step_app w rest c m r : step w rest m = Some r -> step w (rest ++ c) m = Some r.
Proof.
  unfold step. destruct (decode w) as [i|]; [|discriminate].
  destruct (branch i m) as [j|]; [auto|].
  destruct i; auto.
  unfold guard. destruct ((opc =? 1) && (1 <=? imm19)); [|discriminate].
  destruct (nth_error rest (Z.to_nat (imm19 - 1))) as [lo|] eqn:E1; [|discriminate].
  destruct (nth_error rest (Z.to_nat imm19)) as [hi|] eqn:E2; [|discriminate].
  rewrite !nth_error_app1 by (apply nth_error_Some; congruence).
  rewrite E1, E2. auto.
Qed.

Lemma run_app c1 c2 k m m' k' :
  run c1 k m = Some (m', k') -> run (c1 ++ c2) k m = run c2 k' m'.
Proof.
  revert k m. induction c1 as [|w c1 IH]; intros k m; cbn [run app].
  - intros E. injection E as -> ->. reflexivity.
  - destruct k as [|k]; [|apply IH].
    destruct (step w c1 m) as [[m1 k1]|] eqn:E; [|discriminate].
    rewrite (step_app _ _ c2 _ _ E). apply IH.
Qed.

Lemma run_skip c1 c2 m : run (c1 ++ c2) (length c1) m = run c2 O m.
Proof. induction c1 as [|w c1 IH]; [reflexivity|]. cbn. exact IH. Qed.
