(* ===== verification/CodeExec.v ===== *)
(** Emitting and executing together.  [wp mo Q s m]: emitting [mo] from
    translator state [s] succeeds, and running the words it appends from
    machine [m] ends just past them in a state and machine that satisfy [Q].
    Proofs about emitters execute the emitter and its output side by side. *)

From S2P Require Import Prelude F64 GuestMem Emit Assembler A64 EmitDecode BitmaskImm Fpu A64Exec.

Definition wp {A} (mo : M A) (Q : A -> asm -> machine -> Prop) (s : asm) (m : machine) : Prop :=
  exists a s' ws m',
    mo s = Some (a, s') /\ insn_buf s' = insn_buf s ++ ws /\ run ws O m = Some (m', O) /\ Q a s' m'.

(** Emission that leaves the register pools alone. *)
Definition same_pools (s s' : asm) : Prop :=
  free_gpr_mask s' = free_gpr_mask s /\ free_fpr_mask s' = free_fpr_mask s.

Lemma same_pools_refl s : same_pools s s.
Proof. split; reflexivity. Qed.

Lemma same_pools_trans s s' s'' : same_pools s s' -> same_pools s' s'' -> same_pools s s''.
Proof. unfold same_pools. intuition congruence. Qed.

Lemma wp_ret {A} (a : A) (Q : A -> asm -> machine -> Prop) s m : Q a s m -> wp (ret a) Q s m.
Proof. intros H. exists a, s, [], m. rewrite app_nil_r. auto. Qed.

Lemma wp_bind {A B} (mo : M A) (k : A -> M B) Q s m :
  wp mo (fun a s1 m1 => wp (k a) Q s1 m1) s m -> wp (bind mo k) Q s m.
Proof.
  intros (a & s1 & w1 & m1 & E1 & B1 & R1 & b & s2 & w2 & m2 & E2 & B2 & R2 & HQ).
  exists b, s2, (w1 ++ w2), m2. repeat split; [| | |exact HQ].
  - unfold bind. rewrite E1. exact E2.
  - rewrite B2, B1, app_assoc. reflexivity.
  - rewrite (run_app _ _ _ _ _ _ R1). exact R2.
Qed.

Lemma wp_mono {A} (mo : M A) (P Q : A -> asm -> machine -> Prop) s m :
  wp mo P s m -> (forall a s' m', P a s' m' -> Q a s' m') -> wp mo Q s m.
Proof. intros (a & s' & ws & m' & H1 & H2 & H3 & HP) HQ. exists a, s', ws, m'. auto. Qed.

Lemma wp_ext {A} (mo mo' : M A) (Q : A -> asm -> machine -> Prop) s m :
  mo s = mo' s -> wp mo Q s m -> wp mo' Q s m.
Proof. intros E (a & s' & ws & m' & H & R). exists a, s', ws, m'. rewrite <- E. auto. Qed.

Lemma wp_assert b (Q : unit -> asm -> machine -> Prop) s m :
  b = true -> Q tt s m -> wp (rt_assert b) Q s m.
Proof. intros -> H. exists tt, s, [], m. rewrite app_nil_r. auto. Qed.

(** A step that touches the pools and emits nothing. *)
Lemma wp_pool {A} (mo : M A) (Q : A -> asm -> machine -> Prop) s m a s' :
  mo s = Some (a, s') -> insn_buf s' = insn_buf s -> Q a s' m -> wp mo Q s m.
Proof. intros E B H. exists a, s', [], m. rewrite app_nil_r. auto. Qed.

(** ** Code by its instructions *)

Definition step_insn (i : insn) (m : machine) : option (machine * nat) :=
  match branch i m with
  | Some j => let? k := j in Some (m, k)
  | None => let? m' := exec i m in Some (m', O)
  end.

Fixpoint run_insns (code : list insn) (skip : nat) (m : machine) : option (machine * nat) :=
  match code with
  | [] => Some (m, skip)
  | i :: rest =>
      match skip with
      | S k => run_insns rest k m
      | O => let? (m', k) := step_insn i m in run_insns rest k m'
      end
  end.

Lemma run_tbz z bit off r rest m :
  1 <= off ->
  run_insns (Tbz z bit off r :: rest) O m =
  run_insns rest (if Bool.eqb z (Z.testbit (rd_zr true m r) bit) then Z.to_nat (off - 1) else O) m.
Proof.
  intros H. cbn [run_insns]. unfold step_insn. cbn [branch]. unfold jump.
  destruct (Bool.eqb _ _); [|reflexivity]. replace (1 <=? off) with true by (symmetry; apply Z.leb_le; lia). reflexivity.
Qed.

Lemma run_b off rest m : 1 <= off -> run_insns (B off :: rest) O m = run_insns rest (Z.to_nat (off - 1)) m.
Proof.
  intros H. cbn [run_insns]. unfold step_insn. cbn [branch]. unfold jump.
  replace (1 <=? off) with true by (symmetry; apply Z.leb_le; lia). reflexivity.
Qed.

Lemma run_exec i rest m m' :
  branch i m = None -> exec i m = Some m' -> run_insns (i :: rest) O m = run_insns rest O m'.
Proof. intros Eb Ee. cbn [run_insns]. unfold step_insn. rewrite Eb, Ee. reflexivity. Qed.

Lemma step_of_insn w i rest m r : word_of w i -> step_insn i m = Some r -> step w rest m = Some r.
Proof.
  intros [_ Hd]. unfold step, step_insn. rewrite Hd.
  destruct (branch i m) as [j|] eqn:Eb; [auto|].
  destruct i; auto; cbn; discriminate.
Qed.

Lemma run_of_insns ws code k m r :
  Forall2 word_of ws code -> run_insns code k m = Some r -> run ws k m = Some r.
Proof.
  intros H. revert k m. induction H as [|w i ws code Hw Hf IH]; intros k m; cbn [run run_insns].
  - auto.
  - destruct k as [|k]; [|apply IH].
    destruct (step_insn i m) as [[m1 k1]|] eqn:E; [|discriminate].
    rewrite (step_of_insn w i ws m _ Hw E). apply IH.
Qed.

Lemma append_pools s c : same_pools s (append_code s c).
Proof. split; reflexivity. Qed.

Lemma wp_code {A} (mo : M A) a code (Q : A -> asm -> machine -> Prop) s m m' :
  assembles mo a code -> run_insns code O m = Some (m', O) ->
  (forall s', same_pools s s' -> Q a s' m') -> wp mo Q s m.
Proof.
  intros (ws & He & Hw) R HQ. exists a, (append_code s ws), ws, m'.
  repeat split; [apply He | exact (run_of_insns _ _ _ _ _ Hw R) | apply HQ, append_pools].
Qed.

(** The common case: one instruction. *)
Lemma wp_insn {A} (mo : M A) a i (Q : A -> asm -> machine -> Prop) s m m' :
  assembles mo a [i] -> step_insn i m = Some (m', O) ->
  (forall s', same_pools s s' -> Q a s' m') -> wp mo Q s m.
Proof. intros Ha E. apply wp_code with (code := [i]); [exact Ha|]. cbn [run_insns]. rewrite E. reflexivity. Qed.

(** The literal load jumps over its data. *)
Lemma wp_ldr_literal rd c (Q : unit -> asm -> machine -> Prop) s m :
  0 <= c < 2 ^ 64 ->
  (forall s', same_pools s s' -> Q tt s' (wr_v f64 m (reg rd) c)) ->
  wp (emit_ldr_literal_f64 rd c) Q s m.
Proof.
  intros Hc HQ. destruct (asm_ldr_literal_f64 rd c Hc) as (w & b & He & [_ Hw] & [_ Hb]).
  eexists tt, _, _, (wr_v f64 m (reg rd) c).
  split; [apply He|]. split; [reflexivity|]. split; [|apply HQ, append_pools].
  assert (E : Z.land c 0xFFFFFFFF + Z.shiftl (Z.shiftr c 32) 32 = c).
  { change 0xFFFFFFFF with (Z.ones 32).
    rewrite Z.land_ones, Z.shiftl_mul_pow2, Z.shiftr_div_pow2 by lia.
    pose proof (Z.div_mod c (2 ^ 32)). lia. }
  revert E. generalize (Z.land c 0xFFFFFFFF) (Z.shiftr c 32). intros lo hi E.
  cbn [run]. unfold step at 1. rewrite Hw. cbn [branch nth_error].
  change (guard _ _) with (Some (wr_v f64 m (reg rd) (lo + Z.shiftl hi 32), O)). rewrite E.
  unfold step. rewrite Hb. reflexivity.
Qed.

(** ** Frames: which parts of the machine a piece of code leaves alone *)

(** Only the general registers of [l] change. *)
Record frame (l : list Z) (m m' : machine) : Prop := mkFrame {
  fr_x : forall r, ~ In r l -> xr m' r = xr m r;
  fr_v : vr m' = vr m;
  fr_nzcv : nzcv m' = nzcv m;
  fr_mm : mm m' = mm m
}.

Lemma frame_refl l m : frame l m m.
Proof. split; auto. Qed.

Lemma frame_trans l m m1 m2 : frame l m m1 -> frame l m1 m2 -> frame l m m2.
Proof.
  intros [a b c d] [a' b' c' d']. split; try congruence. intros r Hr. rewrite a', a; auto.
Qed.

Lemma frame_mono l l' m m' : frame l m m' -> (forall r, In r l -> In r l') -> frame l' m m'.
Proof. intros [a b c d] H. split; auto. Qed.

Lemma set_reg_eq f d v : set_reg f d v d = v.
Proof. unfold set_reg. rewrite Z.eqb_refl. reflexivity. Qed.

Lemma set_reg_ne f d v r : r <> d -> set_reg f d v r = f r.
Proof. unfold set_reg. intros H. destruct (Z.eqb_spec r d); [contradiction|reflexivity]. Qed.

Lemma frame_wr_sp sf m r v : frame [r] m (wr_sp sf m r v).
Proof.
  split; try reflexivity. intros q Hq. cbn. apply set_reg_ne. intros ->. apply Hq. left; reflexivity.
Qed.

Lemma frame_wr_zr sf m r v : frame [r] m (wr_zr sf m r v).
Proof. unfold wr_zr. destruct (r =? 31); [apply frame_refl | apply frame_wr_sp]. Qed.

(** Code whose only effect is a new value in one register. *)
Definition writes (m m' : machine) (r v : Z) : Prop := xr m' r = v /\ frame [r] m m'.

Lemma writes_wr_sp sf m r v : writes m (wr_sp sf m r v) r (wrap (w_of sf) v).
Proof. split; [apply set_reg_eq | apply frame_wr_sp]. Qed.

Lemma writes_wr_zr sf m r v : r <> 31 -> writes m (wr_zr sf m r v) r (wrap (w_of sf) v).
Proof. intros H. unfold wr_zr. destruct (Z.eqb_spec r 31); [contradiction|]. apply writes_wr_sp. Qed.

Lemma writes_trans m m1 m2 r v v' : writes m m1 r v -> writes m1 m2 r v' -> writes m m2 r v'.
Proof. intros [_ H1] [E H2]. split; [exact E | eapply frame_trans; eassumption]. Qed.

Lemma rd_zr_frame sf l m m' r : frame l m m' -> ~ In r l -> rd_zr sf m' r = rd_zr sf m r.
Proof. intros H Hr. unfold rd_zr. rewrite (fr_x _ _ _ H r Hr). reflexivity. Qed.

Lemma rd_sp_frame sf l m m' r : frame l m m' -> ~ In r l -> rd_sp sf m' r = rd_sp sf m r.
Proof. intros H Hr. unfold rd_sp. rewrite (fr_x _ _ _ H r Hr). reflexivity. Qed.

(** ** Register numbers *)

(** A register an allocator hands out or a guest register: any but 31. *)
Definition gpr (r : Z) : Prop := 0 <= r < 31.

(** A value that fits a field of the instruction word. *)
Lemma field_small n x : 0 <= n -> 0 <= x < 2 ^ n -> Z.land x (Z.ones n) = x.
Proof. intros Hn Hx. rewrite Z.land_ones by lia. apply Z.mod_small, Hx. Qed.

Lemma field3 x : 0 <= x < 4 -> Z.land x 3 = x.
Proof. apply (field_small 2). lia. Qed.
Lemma field63 x : 0 <= x < 64 -> Z.land x 63 = x.
Proof. apply (field_small 6). lia. Qed.
Lemma field4095 x : 0 <= x < 4096 -> Z.land x 0xFFF = x.
Proof. apply (field_small 12). lia. Qed.
Lemma field65535 x : 0 <= x < 2 ^ 16 -> Z.land x 0xFFFF = x.
Proof. apply (field_small 16). lia. Qed.

Lemma gpr_field r : gpr r -> Z.land r 31 = r.
Proof. intros H. apply (field_small 5); unfold gpr in H; lia. Qed.

Lemma gpr_31 r : gpr r -> (r =? 31) = false.
Proof. unfold gpr. intros H. apply Z.eqb_neq. lia. Qed.

Lemma rd_zr_gpr sf m r : gpr r -> rd_zr sf m r = wrap (w_of sf) (xr m r).
Proof. intros H. unfold rd_zr. rewrite gpr_31 by assumption. reflexivity. Qed.

(** ** Loops over emitters *)

Lemma wp_for (I : nat -> asm -> machine -> Prop) (body : Z -> M unit) lo n s m :
  I O s m ->
  (forall k s m, (k < n)%nat -> I k s m -> wp (body (lo + Z.of_nat k)) (fun _ => I (S k)) s m) ->
  wp (for_ lo n body) (fun _ => I n) s m.
Proof.
  revert I lo s m. induction n as [|n IH]; intros I lo s m H0 HS; cbn [for_].
  - apply wp_ret, H0.
  - apply wp_bind. eapply wp_mono.
    + rewrite <- (Z.add_0_r lo). apply (HS O); [lia | exact H0].
    + cbv beta. intros [] s1 m1 H1. apply (IH (fun k => I (S k))); [exact H1|].
      intros k s2 m2 Hk H2. replace (lo + 1 + Z.of_nat k) with (lo + Z.of_nat (S k)) by lia.
      apply HS; [lia | exact H2].
Qed.
