(* ===== verification/TranslatorHelpers.v ===== *)
(** TranslatorHelpers.cpp: the pools of scratch registers, immediates, and the
    addresses of memory operands.  A C++ [int] argument that is tested for
    truth is a [Z]; an [assert] that fails is [None]. *)

From S2P Require Import Prelude Emit Assembler IROperand.

(** RosettaConfig: the options the translator reads; a null
    [g_rosetta_config] is the record of [false]s. *)
Record RosettaConfig := mkConfig {
  fast_round : bool;
  extended_fpr_scratch : bool;
  disable_addr_fold : bool;
  bridge_carry : bool
}.

(** What the translator knows about the thread context at X18, and the mode it
    translates for (TranslationResult). *)
Record Target := mkTarget {
  field_8 : Z;              (* thread_context_offsets->field_8, uint32_t *)
  x87_state_offset : Z;     (* thread_context_offsets->x87_state_offset *)
  translator_variant : Z
}.

(** ** Register.h: the scratch pools *)

Definition kGprScratchPool : list Z := [22; 23; 24; 25; 26; 27; 28; 29].
Definition kFprScratchPool : list Z := [24; 25; 26; 27; 28; 29; 30; 31].
Definition kFprScratchPoolExtended : list Z :=
  [24; 25; 26; 27; 28; 29; 30; 31; 16; 17; 18; 19; 20; 21; 22; 23].
Definition kGprScratchMask : Z := 0x3FC00000.
Definition kFprScratchMask : Z := 0xFF000000.
Definition kFprScratchMaskExt : Z := 0xFFFF0000.
Definition X18 : Z := 18.

Definition kRuntimeRoutine_get_tls_base : Z := 0x15.

(** [mask & ~(1u << reg)], [mask | 1u << reg], [(mask & (1u << reg)) != 0] *)
Definition clear_bit (mask reg : Z) : Z := Z.land mask (unot 32 (u32 (Z.shiftl 1 reg))).
Definition set_bit (mask reg : Z) : Z := Z.lor mask (u32 (Z.shiftl 1 reg)).
Definition has_bit (mask reg : Z) : bool := nz (Z.land mask (u32 (Z.shiftl 1 reg))).

Definition alloc_gpr (pool_index : Z) : M Z := fun s =>
  let reg := zget kGprScratchPool pool_index in
  if has_bit (free_gpr_mask s) reg
  then Some (reg, set_gpr_mask s (clear_bit (free_gpr_mask s) reg)) else None.

Definition alloc_free_gpr : M Z := fun s =>
  let mask := free_gpr_mask s in
  if nz mask
  then let reg := ctzll mask in Some (reg, set_gpr_mask s (clear_bit mask reg)) else None.

Definition resolve_hint_gpr (hint_reg : Z) : M Z :=
  if hint_reg =? GPR.XZR then alloc_free_gpr else ret hint_reg.

Definition free_gpr (reg : Z) : M unit := fun s =>
  if reg =? GPR.SP then None
  else Some (tt, if has_bit kGprScratchMask reg
                 then set_gpr_mask s (set_bit (free_gpr_mask s) reg) else s).

Section Fpr.
Context (cfg : RosettaConfig).

Definition alloc_fpr (pool_index : Z) : M Z := fun s =>
  let pool := if extended_fpr_scratch cfg then kFprScratchPoolExtended else kFprScratchPool in
  let reg := zget pool pool_index in
  if has_bit (free_fpr_mask s) reg
  then Some (reg, set_fpr_mask s (clear_bit (free_fpr_mask s) reg)) else None.

Definition alloc_free_fpr : M Z := fun s =>
  let mask := free_fpr_mask s in
  if nz mask
  then let reg := ctzll mask in Some (reg, set_fpr_mask s (clear_bit mask reg)) else None.

Definition free_fpr (reg : Z) : M unit := fun s =>
  let active_mask := if extended_fpr_scratch cfg then kFprScratchMaskExt else kFprScratchMask in
  Some (tt, if has_bit active_mask reg then set_fpr_mask s (set_bit (free_fpr_mask s) reg) else s).
End Fpr.

(** ** Immediates *)

(** [(uint16_t)(v >> (16 * i))] *)
Definition chunk (v i : Z) : Z := u16 (Z.shiftr v (16 * i)).

(** The chunk a scan for the first nonzero one ends at, 0 when there is none. *)
Definition find_chunk (v : Z) (order : list Z) : Z :=
  match find (fun i => nz (chunk v i)) order with Some i => i | None => 0 end.

(** [for (i = hi - 1; i >= lo; i--)] *)
Definition down_from (hi lo : Z) : list Z :=
  map (fun k => hi - 1 - Z.of_nat k) (seq 0 (Z.to_nat (hi - lo))).

Definition emit_move_wide_sequence (is_64bit v reg : Z) : M unit :=
  let chunks := if nz is_64bit then [0; 1; 2; 3] else [0; 1] in
  let zeros := length (filter (fun i => chunk v i =? 0) chunks) in
  let ones := length (filter (fun i => chunk v i =? 0xFFFF) chunks) in
  let use_movz := (ones <=? zeros)%nat in
  let working := if use_movz then v else unot 64 v in
  let hi_chunk := find_chunk working (rev chunks) in
  let lo_chunk := find_chunk working chunks in
  let trivial := if use_movz then 0 else 0xFFFF in
  emit_movn is_64bit (if use_movz then 2 else 0) hi_chunk (chunk working hi_chunk) reg ;;;
  for_each (down_from hi_chunk lo_chunk) (fun i =>
    if chunk v i =? trivial then ret tt else emit_movn is_64bit 3 i (chunk v i) reg).

(** The encodings tried in turn for a register that is chosen. *)
Definition load_immediate_into (is_64bit value reg : Z) : M Z :=
  let v := if nz is_64bit then value else u32 value in
  if v =? 0 then emit_movn is_64bit 2 0 0 reg ;;; ret reg
  else match is_bitmask_immediate (nz is_64bit) v with
  | BitmaskAssert => fun _ => None
  | Bitmask enc =>
      emit_orr_imm is_64bit reg GPR.XZR (b2z (N enc)) (immr enc) (Z.land (imms enc) 0x3F) ;;;
      ret reg
  | NotBitmask =>
      let w := if nz is_64bit && (Z.shiftr v 32 =? 0) then is_bitmask_immediate false v
               else NotBitmask in
      match w with
      | BitmaskAssert => fun _ => None
      | Bitmask enc =>
          emit_orr_imm 0 reg GPR.XZR (b2z (N enc)) (immr enc) (Z.land (imms enc) 0x3F) ;;;
          ret reg
      | NotBitmask => emit_move_wide_sequence is_64bit v reg ;;; ret reg
      end
  end.

(** [value] is a uint64_t. *)
Definition emit_load_immediate (is_64bit value dst_reg : Z) : M Z :=
  if value =? 0 then ret GPR.XZR
  else
    reg <- (if dst_reg =? GPR.XZR then alloc_free_gpr else ret dst_reg) ;;
    load_immediate_into is_64bit value reg.

Definition emit_load_immediate_no_xzr (is_64bit value dst_reg : Z) : M unit :=
  result_reg <- emit_load_immediate is_64bit value dst_reg ;;
  if result_reg =? GPR.XZR then emit_movn is_64bit 2 0 0 dst_reg
  else rt_assert (result_reg =? dst_reg).

(** ** Addresses *)

Definition is_scratch_pool_reg (reg : Z) : bool :=
  (0 <=? reg) && (reg <? 32) && nz (Z.land (Z.shiftr kGprScratchMask reg) 1).

(** The ADD or SUB immediate a displacement fits: is_sub, the imm12 shift and
    the value. *)
Definition disp_encoding (d : Z) : option (Z * Z * Z) :=
  if d <? 0x1000 then Some (0, 0, d)
  else if Z.land d 0xFFFFFFFFFF000FFF =? 0 then Some (0, 1, Z.shiftr d 12)
  else
    let neg := u64 (- s64 d) in
    if neg <? 0x1000 then Some (1, 0, neg)
    else if Z.land neg 0xFFFFFFFFFF000FFF =? 0 then Some (1, 1, Z.shiftr neg 12)
    else None.

(** The scratch and result registers where an address needs a temporary. *)
Definition address_temps (dst_reg : Z) : M (Z * Z) :=
  if is_scratch_pool_reg dst_reg then ret (dst_reg, dst_reg)
  else
    alloc <- alloc_free_gpr ;;
    ret (alloc, if dst_reg =? GPR.XZR then alloc else dst_reg).

(** [if (result_reg != scratch_reg) free_gpr(result_reg)], and the address. *)
Definition release_temp (result_reg scratch_reg : Z) : M Z :=
  if result_reg =? scratch_reg then ret result_reg
  else free_gpr result_reg ;;; ret scratch_reg.

Definition address_base_index (is_64 base_idx index_idx shift d dst_reg : Z) : M Z :=
  if nz d then
    '(result_reg, scratch_reg) <- address_temps dst_reg ;;
    match disp_encoding d with
    | Some (is_sub, imm_shift, imm) =>
        emit_add_imm is_64 is_sub 0 imm_shift imm base_idx result_reg ;;;
        emit_add_sub_shifted_reg is_64 0 0 0 index_idx shift result_reg scratch_reg
    | None =>
        emit_load_immediate_no_xzr is_64 d result_reg ;;;
        emit_add_sub_shifted_reg is_64 0 0 0 index_idx shift result_reg result_reg ;;;
        emit_add_reg is_64 scratch_reg base_idx result_reg
    end ;;;
    release_temp result_reg scratch_reg
  else
    result_reg <- resolve_hint_gpr dst_reg ;;
    emit_add_sub_shifted_reg is_64 0 0 0 index_idx shift base_idx result_reg ;;;
    ret result_reg.

Definition address_base (is_64 base_idx d dst_reg : Z) : M Z :=
  if nz d then
    match disp_encoding d with
    | None =>
        '(result_reg, scratch_reg) <- address_temps dst_reg ;;
        emit_load_immediate_no_xzr is_64 d result_reg ;;;
        emit_add_reg is_64 scratch_reg base_idx result_reg ;;;
        release_temp result_reg scratch_reg
    | Some (is_sub, imm_shift, imm) =>
        result_reg <- resolve_hint_gpr dst_reg ;;
        emit_add_imm is_64 is_sub 0 imm_shift imm base_idx result_reg ;;;
        ret result_reg
    end
  else if nz is_64 then ret base_idx
  else
    result_reg <- resolve_hint_gpr dst_reg ;;
    emit_mov_reg 0 result_reg base_idx ;;;
    ret result_reg.

Definition address_index (is_64 index_idx shift d dst_reg : Z) : M Z :=
  if nz d then
    '(disp_reg, result_reg) <- address_temps dst_reg ;;
    emit_load_immediate_no_xzr is_64 d disp_reg ;;;
    emit_add_sub_shifted_reg is_64 0 0 0 index_idx shift disp_reg result_reg ;;;
    (if disp_reg =? result_reg then ret tt else free_gpr disp_reg) ;;;
    ret result_reg
  else if nz shift then
    result_reg <- resolve_hint_gpr dst_reg ;;
    let reg_width := if nz is_64 then 64 else 32 in
    emit_bitfield is_64 2 (if nz is_64 then 1 else 0) (reg_width - shift) (reg_width - shift - 1)
      index_idx result_reg ;;;
    ret result_reg
  else if nz is_64 then ret index_idx
  else
    result_reg <- resolve_hint_gpr dst_reg ;;
    emit_mov_reg 0 result_reg index_idx ;;;
    ret result_reg.

Definition address_disp (is_64 d dst_reg : Z) : M Z :=
  if nz d then emit_load_immediate is_64 d dst_reg
  else
    result_reg <- resolve_hint_gpr dst_reg ;;
    emit_movn 0 2 0 0 result_reg ;;;
    ret result_reg.

(** Registers beyond the general ones fail an assertion. *)
Definition compute_mem_operand_address (is_64 : Z) (o : IROperand) (dst_reg : Z) : M Z :=
  let d := u64 (disp o) in
  let has_base := nz (Z.land (mem_flags o) 1) in
  let has_index := nz (Z.land (mem_flags o) 2) in
  let base_idx := Z.land (base_reg o) 0xF in
  let index_idx := Z.land (index_reg o) 0xF in
  rt_assert (negb (has_base && (0x50 <=? base_reg o))) ;;;
  rt_assert (negb (has_index && (0x50 <=? index_reg o))) ;;;
  match has_base, has_index with
  | true, true => address_base_index is_64 base_idx index_idx (shift_amount o) d dst_reg
  | true, false => address_base is_64 base_idx d dst_reg
  | false, true => address_index is_64 index_idx (shift_amount o) d dst_reg
  | false, false => address_disp is_64 d dst_reg
  end.

Section Address.
Context (cfg : RosettaConfig) (tgt : Target).

(** The cases of [compute_operand_address] without a segment override. *)
Definition compute_plain_address (is_64 : Z) (o : IROperand) (dst_reg : Z) : M Z :=
  if kind o =? IROperandKind.MemRef then compute_mem_operand_address is_64 o dst_reg
  else if kind o =? IROperandKind.AbsMem then
    out_reg <- resolve_hint_gpr dst_reg ;;
    emit_load_immediate_no_xzr is_64 (u64 (value o)) out_reg ;;;
    ret out_reg
  else if kind o =? IROperandKind.Immediate then
    out_reg <- resolve_hint_gpr dst_reg ;;
    let fixup_target := u32 (if nz (mem_flags o) then s32 (value o) else 0) in
    push_external_fixup Arm64Page21 fixup_target ;;;
    emit_adr 1 out_reg 0 ;;;
    push_external_fixup Arm64PageOffset12 fixup_target ;;;
    emit_add_imm is_64 0 0 0 0 out_reg out_reg ;;;
    (if Z.land (mem_flags o) 1 =? 0 then
       addend_reg <- alloc_free_gpr ;;
       emit_load_immediate_no_xzr 1 (u64 (value o)) addend_reg ;;;
       emit_add_reg is_64 out_reg out_reg addend_reg ;;;
       free_gpr addend_reg
     else ret tt) ;;;
    ret out_reg
  else fun _ => None.

(** [op->mem.addr_size] gives the width only where the caller asks for 64 bits;
    S128 and above have none. *)
Definition address_width (is_64bit : Z) (o : IROperand) : Z :=
  if nz is_64bit then b2z (addr_size o =? IROperandSize.S64) else 0.

Definition compute_operand_address (is_64bit : Z) (o : IROperand) (dst_reg : Z) : M Z :=
  rt_assert (negb (nz is_64bit && (4 <=? addr_size o))) ;;;
  let is_64 := address_width is_64bit o in
  if nz (seg_override o) then
    rt_assert (negb (nz is_64 && (4 <=? addr_size o))) ;;;
    inner_reg <- compute_plain_address (address_width is_64 o) o dst_reg ;;
    seg_reg <- alloc_free_gpr ;;
    (if seg_override o =? 1 then
       emit_ldr_imm 2 seg_reg X18 (Z.shiftr (field_8 tgt) 2) ;;;
       emit_add_reg is_64 seg_reg seg_reg inner_reg
     else if seg_override o =? 2 then
       tls_tmp <- alloc_gpr 7 ;;
       push_fixup Branch26 kRuntimeRoutine_get_tls_base ;;;
       emit 0x94000000 ;;;
       (if translator_variant tgt =? 1 then
          emit_ldr_imm 3 seg_reg tls_tmp 6 ;;;
          emit_add_reg 1 seg_reg seg_reg inner_reg
        else emit_add_reg 1 seg_reg tls_tmp inner_reg) ;;;
       free_gpr tls_tmp
     else fun _ => None) ;;;
    (if inner_reg =? dst_reg then ret tt else free_gpr inner_reg) ;;;
    ret seg_reg
  else compute_plain_address is_64 o dst_reg.

(** ** Accesses *)

Inductive Enc := ScaledImm12 | Unscaled9 | FullEA.
Record OperandAccess := mkAccess { base : Z; offset : Z; enc : Enc }.

Definition compute_operand_access (is_64bit : Z) (o : IROperand)
    (size_log2 extra_off extra_size_log2 : Z) : M OperandAccess :=
  let full := base <- compute_operand_address is_64bit o GPR.XZR ;; ret (mkAccess base 0 FullEA) in
  if negb (disable_addr_fold cfg) && (kind o =? IROperandKind.MemRef) && (seg_override o =? 0)
     && nz is_64bit && (addr_size o =? IROperandSize.S64) && (mem_flags o =? 1)
     && (base_reg o <? 0x50) then
    let cls := classify_ldst_disp (disp o) size_log2 in
    let cls := if nz cls && nz extra_off &&
                  negb (classify_ldst_disp (disp o + extra_off) extra_size_log2 =? cls)
               then 0 else cls in
    if nz cls then
      ret (mkAccess (Z.land (base_reg o) 0xF) (s32 (disp o))
             (if cls =? 1 then ScaledImm12 else Unscaled9))
    else full
  else full.

Definition emit_fp_mem_access (is_64bit : Z) (o : IROperand) (size is_load Vt : Z) : M unit :=
  a <- compute_operand_access is_64bit o size 0 0 ;;
  match enc a with
  | Unscaled9 => emit_fldur_fstur size is_load (s16 (offset a)) (base a) Vt
  | _ =>
      if nz is_load then emit_fldr_imm size Vt (base a) (s16 (Z.shiftr (offset a) size))
      else emit_fstr_imm size Vt (base a) (s16 (Z.shiftr (offset a) size))
  end ;;;
  free_gpr (base a).

Definition emit_gpr_mem_access (is_64bit : Z) (o : IROperand) (size_log2 is_load Rt : Z) : M unit :=
  a <- compute_operand_access is_64bit o size_log2 0 0 ;;
  match enc a with
  | Unscaled9 => emit_ldur_stur size_log2 is_load (s16 (offset a)) (base a) Rt
  | _ => emit_ldr_str_imm size_log2 0 is_load (s16 (Z.shiftr (offset a) size_log2)) (base a) Rt
  end ;;;
  free_gpr (base a).

Definition emit_load_int_operand (o : IROperand) (is_m16 : bool) : M Z :=
  let size := if is_m16 then 1 else 2 in
  a <- compute_operand_access 1 o size 0 0 ;;
  Wd_val <- (if nz (Z.land (Z.shiftr kGprScratchMask (base a)) 1) then ret (base a)
             else alloc_free_gpr) ;;
  match enc a with
  | Unscaled9 => emit_ldur_stur size 1 (s16 (offset a)) (base a) Wd_val
  | _ => emit_ldr_str_imm size 0 1 (s16 (Z.shiftr (offset a) size)) (base a) Wd_val
  end ;;;
  (if is_m16 then emit_bitfield 0 0 0 0 15 Wd_val Wd_val else ret tt) ;;;
  (if Wd_val =? base a then ret tt else free_gpr (base a)) ;;;
  ret Wd_val.
End Address.

(** ** Register operands *)

Definition translate_gpr (is_64bit reg extend_mode hint_reg : Z) : M Z :=
  rt_assert (reg <? 0x50) ;;;
  let index := Z.land reg 0xF in
  let size_class := Z.land (Z.shiftr reg 4) 0xF in
  let needs_extend := nz extend_mode && (0x10 <=? reg) in
  if negb needs_extend || (size_class =? 1) then
    if negb needs_extend && negb (size_class =? 1) then ret index
    else
      dst <- resolve_hint_gpr hint_reg ;;
      let n := if nz is_64bit then 1 else 0 in
      emit_bitfield n (if 1 <? extend_mode then 0 else 2) n
        (s8 (size_class * 8)) (s8 (Z.lor (s8 (size_class * 8)) 7)) index dst ;;;
      ret dst
  else if (size_class =? 3) && nz extend_mode && (is_64bit =? 1) then
    dst <- resolve_hint_gpr hint_reg ;;
    if extend_mode =? 2 then emit_bitfield 1 0 1 0 0x1F index dst ;;; ret dst
    else ret index
  else if (extend_mode =? 0) || negb (size_class =? 3) || nz is_64bit || (hint_reg =? GPR.XZR)
  then ret index
  else emit_mov_reg 0 hint_reg index ;;; ret hint_reg.

Definition S256 : Z := 5.
Definition BranchOffset : Z := 4.

Section Read.
Context (cfg : RosettaConfig) (tgt : Target).

Definition load_operand (is_64bit address_64 : Z) (o : IROperand) (extend_mode hint_reg : Z) : M Z :=
  dst_reg <- resolve_hint_gpr hint_reg ;;
  addr_reg <- compute_operand_address tgt address_64 o dst_reg ;;
  rt_assert (op_size o <? S256) ;;;
  let natural_size := if nz is_64bit then IROperandSize.S32 else IROperandSize.S16 in
  (if (extend_mode =? 2) && (op_size o <=? natural_size)
   then emit_ldrs is_64bit (op_size o) dst_reg addr_reg
   else emit_ldr_str_imm (op_size o) 0 1 0 addr_reg dst_reg) ;;;
  ret dst_reg.

Definition read_operand_to_gpr (is_64bit : Z) (o : IROperand) (extend_mode hint_reg : Z) : M Z :=
  if kind o =? IROperandKind.Register then translate_gpr is_64bit (IROperand.reg o) extend_mode hint_reg
  else if kind o =? BranchOffset then emit_load_immediate is_64bit (u64 (value o)) hint_reg
  else if kind o =? IROperandKind.Immediate then emit_load_immediate is_64bit (u64 (value o)) hint_reg
  else if kind o =? IROperandKind.MemRef then
    rt_assert (addr_size o <? 4) ;;;
    load_operand is_64bit (b2z (addr_size o =? IROperandSize.S64)) o extend_mode hint_reg
  else if kind o =? IROperandKind.AbsMem then load_operand is_64bit 1 o extend_mode hint_reg
  else fun _ => None.
End Read.
