(* ===== verification/ImmediateProps.v ===== *)
(** emit_load_immediate: the sequence it emits, run, leaves the constant in
    the register, whichever of the encodings it chooses. *)

From S2P Require Import Prelude F64 GuestMem Emit Assembler A64 EmitDecode BitmaskImm Fpu A64Exec CodeExec.
From S2P Require Import IROperand TranslatorHelpers.

Abbreviation w_int sf := (w_of (nz sf)).

Lemma w_of_range sf : 32 <= w_of sf <= 64.
Proof. destruct sf; cbn; lia. Qed.

(** ** 16-bit chunks *)

Lemma chunk_testbit v j i :
  0 <= j -> 0 <= i -> Z.testbit (chunk v j) i = (i <? 16) && Z.testbit v (16 * j + i).
Proof.
  intros Hj Hi. unfold chunk. rewrite wrap_testbit by lia. rewrite Z.shiftr_spec by lia.
  f_equal. f_equal. lia.
Qed.

Lemma chunk_range v j : 0 <= chunk v j < 2 ^ 16.
Proof. apply wrap_range. lia. Qed.

Lemma chunk_ext v v' j :
  0 <= j -> (forall i, 16 * j <= i < 16 * j + 16 -> Z.testbit v i = Z.testbit v' i) ->
  chunk v j = chunk v' j.
Proof.
  intros Hj H. apply Z.bits_inj'. intros i Hi. rewrite !chunk_testbit by lia.
  destruct (Z.ltb_spec i 16); [|reflexivity]. apply H. lia.
Qed.

Lemma chunks_eq sf v v' :
  0 <= v < 2 ^ w_of sf -> 0 <= v' < 2 ^ w_of sf ->
  (forall j, 0 <= j < w_of sf / 16 -> chunk v j = chunk v' j) -> v = v'.
Proof.
  intros Hv Hv' H. apply Z.bits_inj'. intros i Hi.
  destruct (Z.ltb_spec i (w_of sf)) as [L|L].
  - assert (Hj : 0 <= i / 16 < w_of sf / 16).
    { split; [apply Z.div_pos; lia|]. destruct sf; cbn [w_of] in *; [change (64 / 16) with 4 | change (32 / 16) with 2]; apply Z.div_lt_upper_bound; lia. }
    specialize (H _ Hj). apply (f_equal (fun x => Z.testbit x (i mod 16))) in H.
    rewrite !chunk_testbit in H by (try apply Z.mod_pos_bound; lia).
    replace (i mod 16 <? 16) with true in H
      by (symmetry; apply Z.ltb_lt, Z.mod_pos_bound; lia).
    rewrite <- Z.div_mod in H by lia. exact H.
  - rewrite <- (wrap_small (w_of sf) v), <- (wrap_small (w_of sf) v') by assumption.
    rewrite !wrap_testbit by (destruct sf; cbn; lia).
    replace (i <? w_of sf) with false by (symmetry; apply Z.ltb_ge; lia). reflexivity.
Qed.

Lemma chunk_wrap sf v j : 0 <= j < w_of sf / 16 -> chunk (wrap (w_of sf) v) j = chunk v j.
Proof.
  intros Hj. apply chunk_ext; [lia|]. intros i Hi. rewrite wrap_testbit by (destruct sf; cbn; lia).
  replace (i <? w_of sf) with true; [reflexivity|].
  symmetry. apply Z.ltb_lt. destruct sf; cbn [w_of] in *; [change (64 / 16) with 4 in * | change (32 / 16) with 2 in *]; lia.
Qed.

Lemma chunk_limit sf : w_of sf / 16 <= 4 /\ 16 * (w_of sf / 16) = w_of sf.
Proof. destruct sf; cbv; split; congruence. Qed.

Lemma chunk_unot sf v j : 0 <= j < w_of sf / 16 -> chunk (unot (w_of sf) v) j = 0xFFFF - chunk v j.
Proof.
  intros Hj. pose proof (chunk_limit sf) as [_ Hw]. pose proof (chunk_range v j) as Hc.
  transitivity (unot 16 (chunk v j)).
  - apply Z.bits_inj'. intros i Hi. unfold unot.
    rewrite chunk_testbit, !Z.lxor_spec, chunk_testbit by lia.
    destruct (Z.ltb_spec i 16).
    + rewrite !Z.ones_spec_low by lia. reflexivity.
    + cbn [andb xorb]. rewrite (Z.ones_spec_high 16) by lia. reflexivity.
  - unfold unot. rewrite lxor_ones by (assumption || lia). lia.
Qed.

Lemma chunk_move_wide sf opc hw imm dst j :
  opc = 0 \/ opc = 2 \/ opc = 3 ->
  0 <= hw < w_of sf / 16 -> 0 <= imm < 2 ^ 16 -> 0 <= j < w_of sf / 16 ->
  chunk (move_wide (w_of sf) opc hw imm dst) j =
  if j =? hw then (if opc =? 0 then 0xFFFF - imm else imm)
  else (if opc =? 0 then 0xFFFF else if opc =? 2 then 0 else chunk dst j).
Proof.
  intros Ho Hhw Himm Hj.
  pose proof (chunk_limit sf) as Hw.
  assert (Hi : forall i, 16 <= i -> Z.testbit imm i = false).
  { intros i Hi. rewrite <- (wrap_small 16 imm) by assumption. rewrite wrap_testbit by lia.
    replace (i <? 16) with false by (symmetry; apply Z.ltb_ge; lia). reflexivity. }
  assert (Hs : chunk (Z.shiftl imm (16 * hw)) j = if j =? hw then imm else 0).
  { apply Z.bits_inj'. intros i H0. rewrite chunk_testbit, Z.shiftl_spec by lia.
    destruct (Z.eqb_spec j hw) as [->|Hne].
    - replace (16 * hw + i - 16 * hw) with i by lia.
      destruct (Z.ltb_spec i 16); [reflexivity | rewrite Hi by lia; reflexivity].
    - rewrite Z.testbit_0_l. destruct (Z.ltb_spec i 16); [|reflexivity]. cbn [andb].
      destruct (Z.lt_ge_cases (16 * j + i - 16 * hw) 0); [apply Z.testbit_neg_r; lia | apply Hi; lia]. }
  destruct Ho as [-> | [-> | ->]]; cbn [move_wide Z.eqb Pos.eqb].
  - rewrite chunk_unot, Hs by assumption. destruct (j =? hw); lia.
  - exact Hs.
  - apply Z.bits_inj'. intros i H0. apply (f_equal (fun x => Z.testbit x i)) in Hs.
    rewrite chunk_testbit in Hs |- * by lia.
    rewrite Z.lor_spec, Z.land_spec, Z.lnot_spec, (Z.shiftl_spec 0xFFFF) by lia.
    change 0xFFFF with (Z.ones 16). destruct (Z.ltb_spec i 16) as [L|L].
    + cbn [andb] in *. rewrite Hs. destruct (Z.eqb_spec j hw) as [->|Hne].
      * rewrite Z.ones_spec_low by lia. rewrite andb_false_r. reflexivity.
      * rewrite Z.testbit_0_l, orb_false_r, chunk_testbit by lia.
        replace (i <? 16) with true by (symmetry; apply Z.ltb_lt; lia).
        replace (Z.testbit (Z.ones 16) (16 * j + i - 16 * hw)) with false; [apply andb_true_r|].
        symmetry. destruct (Z.lt_ge_cases (16 * j + i - 16 * hw) 0);
          [apply Z.testbit_neg_r; lia | apply Z.ones_spec_high; lia].
    + destruct (Z.eqb_spec j hw); [exact Hs|].
      rewrite chunk_testbit by lia. replace (i <? 16) with false by (symmetry; apply Z.ltb_ge; lia).
      reflexivity.
Qed.

(** ** The sequence *)

Lemma wp_movn sf opc hw imm rd (Q : unit -> asm -> machine -> Prop) s m :
  opc = 0 \/ opc = 2 \/ opc = 3 -> 0 <= hw < w_int sf / 16 -> 0 <= imm < 2 ^ 16 -> gpr rd ->
  (forall s' m', same_pools s s' ->
     writes m m' rd (wrap (w_int sf) (move_wide (w_int sf) opc hw imm (xr m rd))) -> Q tt s' m') ->
  wp (emit_movn sf opc hw imm rd) Q s m.
Proof.
  intros Ho Hhw Himm Hrd HQ. pose proof (chunk_limit (nz sf)) as Hw.
  eapply wp_insn; [apply asm_movn| |intros s' Hs; apply HQ; [exact Hs|]].
  - unfold step_insn. cbn [branch exec].
    rewrite (field3 hw), (field65535 imm), gpr_field by (assumption || lia).
    replace (Z.land opc 3) with opc by (destruct Ho as [-> | [-> | ->]]; reflexivity).
    replace (negb (opc =? 1) && (nz sf || (hw <? 2))) with true; [reflexivity|].
    symmetry. apply andb_true_iff. split; [destruct Ho as [-> | [-> | ->]]; reflexivity|].
    destruct (nz sf); [reflexivity|]. apply Z.ltb_lt. exact (proj2 Hhw).
  - rewrite rd_zr_gpr by assumption.
    assert (E : wrap (w_int sf) (move_wide (w_int sf) opc hw imm (wrap (w_int sf) (xr m rd))) =
                wrap (w_int sf) (move_wide (w_int sf) opc hw imm (xr m rd))).
    { apply (chunks_eq (nz sf)); try (apply wrap_range; destruct (nz sf); cbn; lia).
      intros j Hj. rewrite !chunk_wrap, !chunk_move_wide by assumption.
      rewrite chunk_wrap by assumption. reflexivity. }
    rewrite <- E. apply writes_wr_zr. unfold gpr in Hrd. lia.
Qed.

(** What a register holds, by chunks. *)
Definition holds_chunks (sf : Z) (m : machine) (r : Z) (f : Z -> Z) : Prop :=
  0 <= xr m r < 2 ^ w_int sf /\ forall j, 0 <= j < w_int sf / 16 -> chunk (xr m r) j = f j.

Lemma holds_value sf m r v :
  0 <= v < 2 ^ w_int sf -> holds_chunks sf m r (chunk v) -> xr m r = v.
Proof. intros Hv [Hr H]. exact (chunks_eq (nz sf) _ _ Hr Hv H). Qed.

Lemma move_holds sf opc hw imm m m' r :
  opc = 0 \/ opc = 2 \/ opc = 3 -> 0 <= hw < w_int sf / 16 -> 0 <= imm < 2 ^ 16 ->
  writes m m' r (wrap (w_int sf) (move_wide (w_int sf) opc hw imm (xr m r))) ->
  holds_chunks sf m' r (fun j =>
    if j =? hw then (if opc =? 0 then 0xFFFF - imm else imm)
    else (if opc =? 0 then 0xFFFF else if opc =? 2 then 0 else chunk (xr m r) j)).
Proof.
  intros Ho Hhw Himm [E _]. split.
  - rewrite E. apply wrap_range. destruct (nz sf); cbn; lia.
  - intros j Hj. rewrite E, chunk_wrap, chunk_move_wide by assumption. reflexivity.
Qed.

(** The MOVK loop. *)
Lemma wp_movk_loop sf v t rd l (Q : unit -> asm -> machine -> Prop) s m :
  gpr rd -> (forall i, In i l -> 0 <= i < w_int sf / 16) ->
  0 <= xr m rd < 2 ^ w_int sf ->
  (forall s' m', same_pools s s' -> frame [rd] m m' ->
     holds_chunks sf m' rd (fun j =>
       if existsb (Z.eqb j) l && negb (chunk v j =? t) then chunk v j else chunk (xr m rd) j) ->
     Q tt s' m') ->
  wp (for_each l (fun i => if chunk v i =? t then ret tt else emit_movn sf 3 i (chunk v i) rd)) Q s m.
Proof.
  intros Hrd. revert s m. induction l as [|i l IH]; intros s m Hl Hr HQ; cbn [for_each].
  - apply wp_ret. apply HQ; [apply same_pools_refl | apply frame_refl|]. split; [exact Hr|].
    intros j _. reflexivity.
  - apply wp_bind. destruct (Z.eqb_spec (chunk v i) t) as [Et|Et].
    + apply wp_ret. apply IH; [intros; apply Hl; right; assumption | exact Hr|].
      intros s' m' Hs Hf [Hb Hc]. apply HQ; [assumption..|]. split; [exact Hb|].
      intros j Hj. rewrite Hc by assumption. cbn [existsb].
      destruct (Z.eqb_spec j i) as [->|]; [|reflexivity].
      rewrite (proj2 (Z.eqb_eq _ _) Et). cbn [negb]. rewrite !andb_false_r. reflexivity.
    + apply wp_movn; [auto | apply Hl; left; reflexivity | apply chunk_range | exact Hrd|].
      intros s1 m1 Hs1 W. pose proof (move_holds sf 3 i (chunk v i) m m1 rd ltac:(auto)
        (Hl i (or_introl eq_refl)) (chunk_range v i) W) as [Hb1 Hc1].
      apply IH; [intros; apply Hl; right; assumption | exact Hb1|].
      intros s' m' Hs Hf [Hb Hc]. apply HQ.
      * eapply same_pools_trans; eassumption.
      * eapply frame_trans; [exact (proj2 W) | exact Hf].
      * split; [exact Hb|]. intros j Hj. rewrite Hc, Hc1 by assumption. cbn [existsb Z.eqb Pos.eqb].
        destruct (Z.eqb_spec j i) as [->|]; [|reflexivity].
        rewrite (proj2 (Z.eqb_neq _ _) Et). cbn [negb andb orb].
        destruct (existsb (Z.eqb i) l); reflexivity.
Qed.

Definition chunk_list (sf : Z) : list Z := if nz sf then [0; 1; 2; 3] else [0; 1].

Lemma find_chunk_bounds sf x :
  let hi := find_chunk x (rev (chunk_list sf)) in
  let lo := find_chunk x (chunk_list sf) in
  0 <= lo <= hi /\ hi < w_int sf / 16 /\
  (forall j, 0 <= j < w_int sf / 16 -> j < lo \/ hi < j -> chunk x j = 0).
Proof.
  unfold chunk_list, find_chunk, nz.
  destruct (negb (sf =? 0)); cbn [rev app find w_of];
    [change (64 / 16) with 4 | change (32 / 16) with 2];
    repeat match goal with
    | |- context [chunk x ?k =? 0] => destruct (Z.eqb_spec (chunk x k) 0); cbn [negb]
    end; (split; [lia|split; [lia|]]); intros j Hj Hout;
    assert (j = 0 \/ j = 1 \/ j = 2 \/ j = 3) as [-> | [-> | [-> | ->]]] by lia; lia || assumption.
Qed.

Lemma in_down_from hi lo j : lo <= j < hi -> existsb (Z.eqb j) (down_from hi lo) = true.
Proof.
  intros H. apply existsb_exists. exists j. split; [|apply Z.eqb_refl].
  unfold down_from. apply in_map_iff. exists (Z.to_nat (hi - 1 - j)). split; [lia|].
  apply in_seq. lia.
Qed.

Lemma down_from_in hi lo j : In j (down_from hi lo) -> lo <= j < hi.
Proof. unfold down_from. intros H. apply in_map_iff in H as (k & <- & Hk). apply in_seq in Hk. lia. Qed.

Lemma wp_move_wide_sequence sf v rd (Q : unit -> asm -> machine -> Prop) s m :
  0 <= v < 2 ^ w_int sf -> gpr rd ->
  (forall s' m', same_pools s s' -> writes m m' rd v -> Q tt s' m') ->
  wp (emit_move_wide_sequence sf v rd) Q s m.
Proof.
  intros Hv Hrd HQ. unfold emit_move_wide_sequence. cbv zeta.
  change (if nz sf then [0; 1; 2; 3] else [0; 1]) with (chunk_list sf).
  generalize (Nat.leb (length (filter (fun i => chunk v i =? 0xFFFF) (chunk_list sf)))
    (length (filter (fun i => chunk v i =? 0) (chunk_list sf)))). intros movz.
  set (working := if movz then v else unot 64 v).
  set (t := if movz then 0 else 0xFFFF).
  pose proof (chunk_limit (nz sf)) as [Hn _].
  assert (Hw : forall j, 0 <= j < w_int sf / 16 ->
            chunk working j = if movz then chunk v j else 0xFFFF - chunk v j).
  { intros j Hj. unfold working. destruct movz; [reflexivity|].
    apply (chunk_unot true). change (w_of true / 16) with 4. lia. }
  pose proof (find_chunk_bounds sf working) as (Hlo & Hhi & Hout). cbv zeta in Hout.
  set (hi := find_chunk working (rev (chunk_list sf))) in *.
  set (lo := find_chunk working (chunk_list sf)) in *.
  set (opc := if movz then 2 else 0).
  assert (Hopc : opc = 0 \/ opc = 2 \/ opc = 3) by (unfold opc; destruct movz; auto).
  apply wp_bind. apply wp_movn; [exact Hopc | lia | apply chunk_range | exact Hrd|].
  intros s1 m1 Hs1 W.
  pose proof (move_holds sf opc hi (chunk working hi) m m1 rd Hopc ltac:(lia) (chunk_range _ _) W) as [Hb1 Hc1].
  apply wp_movk_loop; [exact Hrd | intros i Hi; apply down_from_in in Hi; lia | exact Hb1|].
  intros s' m' Hs Hf [Hb Hc]. apply HQ; [eapply same_pools_trans; eassumption|]. split.
  - apply (holds_value sf); [exact Hv|]. split; [exact Hb|]. intros j Hj.
    rewrite Hc, Hc1 by assumption. specialize (Hout j Hj). rewrite Hw in Hout by assumption.
    destruct (Z.eqb_spec j hi) as [->|Hne].
    + rewrite Hw by assumption. unfold opc. pose proof (chunk_range v hi).
      destruct (existsb _ _ && _), movz; cbn [Z.eqb]; lia.
    + assert (Ht : (if opc =? 0 then 0xFFFF else if opc =? 2 then 0 else chunk (xr m rd) j) = t)
        by (unfold opc, t; destruct movz; reflexivity).
      rewrite Ht. destruct (Z.eqb_spec (chunk v j) t) as [->|Hnt]; [rewrite andb_false_r; reflexivity|].
      rewrite in_down_from; [reflexivity|]. unfold t in Hnt.
      destruct (Z.lt_ge_cases j lo); [exfalso; specialize (Hout (or_introl H)); destruct movz; lia|].
      destruct (Z.lt_ge_cases hi j); [exfalso; specialize (Hout (or_intror H0)); destruct movz; lia | lia].
  - eapply frame_trans; [exact (proj2 W) | exact Hf].
Qed.

(** ** The constant *)

Lemma wp_orr_imm sf rd n r i v (Q : unit -> asm -> machine -> Prop) s m :
  sf = 0 \/ sf = 1 -> gpr rd -> 0 <= r < 64 -> 0 <= i < 64 ->
  decode_bit_masks (w_int sf) (b2z n) i r = Some v -> 0 <= v < 2 ^ w_int sf ->
  (forall s' m', same_pools s s' -> writes m m' rd v -> Q tt s' m') ->
  wp (emit_orr_imm sf rd GPR.XZR (b2z n) r i) Q s m.
Proof.
  intros Hsf Hrd Hr Hi Hd Hv HQ. unfold gpr in Hrd.
  assert (Hn : (sf =? 1) || (b2z n =? 0) = true).
  { destruct Hsf as [-> | ->]; [|reflexivity]. destruct n; [exfalso|reflexivity].
    revert Hd. unfold decode_bit_masks. cbn [b2z w_of nz negb Z.eqb].
    set (x := Z.lor (Z.shiftl 1 6) (Z.lxor i 0x3F)).
    assert (Hx : 2 ^ 6 <= x).
    { unfold x. change (Z.shiftl 1 6) with 64.
      assert (0 <= Z.lxor i 0x3F < 2 ^ 6).
      { change 0x3F with (Z.ones 6). rewrite lxor_ones by lia. change (2 ^ 6) with 64. lia. }
      pose proof (Z.log2_lor 64 (Z.lxor i 63) ltac:(lia) ltac:(lia)) as HL.
      assert (6 <= Z.log2 (Z.lor 64 (Z.lxor i 63))) by (rewrite HL; apply Z.le_max_l).
      apply Z.log2_le_pow2; [|assumption].
      assert (0 <= Z.lor 64 (Z.lxor i 63)) by (apply Z.lor_nonneg; lia).
      destruct (Z.eq_dec (Z.lor 64 (Z.lxor i 63)) 0) as [E|]; [rewrite E in *; cbn in *; lia | lia]. }
    assert (6 <= Z.log2 x) by (apply Z.log2_le_pow2; lia).
    destruct (Z.log2 x <? 1); [discriminate|].
    replace (32 <? 2 ^ Z.log2 x) with true; [discriminate|].
    symmetry. apply Z.ltb_lt. apply Z.lt_le_trans with (2 ^ 6); [reflexivity | apply Z.pow_le_mono_r; lia]. }
  eapply wp_insn.
  - apply asm_orr_imm; [exact Hn | discriminate | unfold GPR.SP; lia].
  - unfold step_insn. cbn [branch exec]. rewrite !field63 by lia.
    replace (b2z (nz (b2z n))) with (b2z n) by (destruct n; reflexivity). rewrite Hd.
    cbn [guard]. change (1 <? 3) with true. cbn [guard]. reflexivity.
  - intros s' Hs. apply HQ; [exact Hs|].
    rewrite gpr_field by exact Hrd. change (rd_zr (nz sf) m (Z.land GPR.XZR 31)) with 0.
    cbn [logical]. rewrite Z.lor_0_l.
    rewrite <- (wrap_small (w_int sf) v) at 2 by exact Hv. apply writes_wr_sp.
Qed.

(** The register the constant goes to, and its value there. *)
Lemma wp_load_immediate_into sf v rd (Q : Z -> asm -> machine -> Prop) s m :
  sf = 0 \/ sf = 1 -> 0 <= v < 2 ^ 64 -> gpr rd ->
  (forall s' m', same_pools s s' -> writes m m' rd (wrap (w_int sf) v) -> Q rd s' m') ->
  wp (load_immediate_into sf v rd) Q s m.
Proof.
  intros Hsf Hv Hrd HQ. unfold load_immediate_into, gpr in *. cbv zeta.
  assert (Ev : (if nz sf then v else u32 v) = wrap (w_int sf) v).
  { destruct Hsf as [-> | ->]; cbn; [reflexivity | symmetry; apply wrap_small, Hv]. }
  rewrite Ev. set (x := wrap (w_int sf) v) in *.
  assert (Hx : 0 <= x < 2 ^ w_int sf) by (apply wrap_range; destruct (nz sf); cbn; lia).
  assert (Done : forall mo : M unit,
    (forall Q', (forall s' m', same_pools s s' -> writes m m' rd x -> Q' tt s' m') -> wp mo Q' s m) ->
    wp (mo ;;; ret rd) Q s m).
  { intros mo H. apply wp_bind. apply H. intros s' m' Hs W. apply wp_ret. apply HQ; assumption. }
  destruct (Z.eqb_spec x 0) as [E0|Hx0].
  - apply Done. intros Q' HQ'.
    apply wp_movn; [auto | destruct Hsf as [-> | ->]; cbn; lia | lia | exact Hrd|].
    intros s' m' Hs W. apply HQ'; [exact Hs|]. rewrite E0.
    assert (E : move_wide (w_int sf) 2 0 0 (xr m rd) = 0) by reflexivity.
    rewrite E, wrap_small in W by (destruct (nz sf); cbn; lia). exact W.
  - destruct (bitmask_answer (nz sf) x) as [-> | (enc & -> & Henc & Hr & Hi)];
      [destruct Hsf as [-> | ->]; exact Hx| |].
    + assert (Hseq : wp (emit_move_wide_sequence sf x rd ;;; ret rd) Q s m).
      { apply Done. intros Q' HQ'.
        apply wp_move_wide_sequence; assumption. }
      destruct (nz sf && (Z.shiftr x 32 =? 0)) eqn:Eh; [|exact Hseq].
      apply andb_true_iff in Eh as [Hnz Ehi]. apply Z.eqb_eq in Ehi.
      rewrite Hnz in Hx. cbn [w_of] in Hx.
      assert (Hx32 : 0 <= x < 2 ^ 32).
      { rewrite Z.shiftr_div_pow2 in Ehi by lia. apply Z.div_small_iff in Ehi; [|lia].
        destruct Ehi; lia. }
      destruct (bitmask_answer false x Hx32) as [-> | (enc & -> & Henc & Hr & Hi)]; [exact Hseq|].
      apply Done. intros Q' HQ'.
      rewrite (field63 (imms enc)) by exact Hi.
      apply wp_orr_imm with (v := x); auto.
    + apply Done. intros Q' HQ'.
      rewrite (field63 (imms enc)) by exact Hi.
      apply wp_orr_imm with (v := x); auto.
Qed.

Lemma wp_load_immediate_in sf v rd (Q : Z -> asm -> machine -> Prop) s m :
  sf = 0 \/ sf = 1 -> 0 <= v < 2 ^ 64 -> v <> 0 -> gpr rd ->
  (forall s' m', same_pools s s' -> writes m m' rd (wrap (w_int sf) v) -> Q rd s' m') ->
  wp (emit_load_immediate sf v rd) Q s m.
Proof.
  intros Hsf Hv Hv0 Hrd HQ. unfold emit_load_immediate.
  destruct (Z.eqb_spec v 0) as [|_]; [contradiction|].
  replace (rd =? GPR.XZR) with false by (symmetry; apply Z.eqb_neq; unfold gpr, GPR.XZR in *; lia).
  apply wp_bind, wp_ret, wp_load_immediate_into; assumption.
Qed.

Lemma wp_load_immediate_no_xzr sf v rd (Q : unit -> asm -> machine -> Prop) s m :
  sf = 0 \/ sf = 1 -> 0 <= v < 2 ^ 64 -> gpr rd ->
  (forall s' m', same_pools s s' -> writes m m' rd (wrap (w_int sf) v) -> Q tt s' m') ->
  wp (emit_load_immediate_no_xzr sf v rd) Q s m.
Proof.
  intros Hsf Hv Hrd HQ. unfold emit_load_immediate_no_xzr. apply wp_bind.
  destruct (Z.eq_dec v 0) as [->|Hv0].
  - apply wp_ret. cbn [Z.eqb]. change (GPR.XZR =? GPR.XZR) with true.
    apply wp_movn; [auto | destruct Hsf as [-> | ->]; cbn; lia | lia | exact Hrd|].
    intros s' m' Hs W. apply HQ; assumption.
  - apply wp_load_immediate_in; [assumption..|]. intros s' m' Hs W.
    unfold gpr, GPR.XZR in *. replace (rd =? 31) with false by (symmetry; apply Z.eqb_neq; lia).
    apply wp_assert; [apply Z.eqb_refl|]. apply HQ; assumption.
Qed.
