(* ===== verification/Pools.v ===== *)
(** The pools of scratch registers: what an allocation takes and a release
    gives back.

    The register pools as lists of the registers in use: allocation picks one
    that is not in the list, release takes it off. *)

From S2P Require Import Prelude Emit Assembler A64 A64Exec CodeExec IROperand TranslatorHelpers.

(** ** The lowest set bit *)

Lemma ctz_pos_spec p : exists q, Zpos p = Zpos q * 2 ^ ctz_pos p /\ Z.odd (Zpos q) = true /\ 0 <= ctz_pos p.
Proof.
  induction p as [p _|p (q & E & Ho & Hp)|]; cbn [ctz_pos].
  - exists (p~1)%positive. rewrite Z.mul_1_r. auto with zarith.
  - exists q. split; [|split; [exact Ho | lia]].
    rewrite Pos2Z.inj_xO, E, Z.pow_add_r by lia. lia.
  - exists 1%positive. auto with zarith.
Qed.

(** The lowest set bit, and the mask without it. *)
Lemma ctzll_lowest x :
  0 < x -> 0 <= ctzll x /\ Z.testbit x (ctzll x) = true /\
  (forall i, 0 <= i < ctzll x -> Z.testbit x i = false).
Proof.
  intros Hx. destruct x as [|p|p]; try lia. cbn [ctzll].
  destruct (ctz_pos_spec p) as (q & E & Ho & Hp). split; [exact Hp|]. rewrite E.
  split.
  - rewrite Z.mul_pow2_bits by exact Hp. rewrite Z.sub_diag, Z.bit0_odd. exact Ho.
  - intros i Hi. apply Z.mul_pow2_bits_low. lia.
Qed.

(** ** Masks as sets of registers *)

Lemma one_bit r i : 0 <= r < 32 -> 0 <= i -> Z.testbit (u32 (Z.shiftl 1 r)) i = (i =? r).
Proof.
  intros Hr Hi. rewrite wrap_testbit by lia. rewrite Z.shiftl_1_l, Z.pow2_bits_eqb by lia.
  rewrite (Z.eqb_sym r i). destruct (Z.eqb_spec i r); [|apply andb_false_r].
  rewrite andb_true_r. apply Z.ltb_lt. lia.
Qed.

Lemma has_bit_testbit mask r : 0 <= r < 32 -> has_bit mask r = Z.testbit mask r.
Proof.
  intros Hr. unfold has_bit, nz. destruct (Z.testbit mask r) eqn:E.
  - apply negb_true_iff, Z.eqb_neq. intros H. apply (f_equal (fun x => Z.testbit x r)) in H.
    rewrite Z.land_spec, one_bit, Z.eqb_refl, E, Z.testbit_0_l in H by lia. discriminate.
  - apply negb_false_iff, Z.eqb_eq. apply Z.bits_inj'. intros i Hi.
    rewrite Z.land_spec, one_bit, Z.testbit_0_l by lia.
    destruct (Z.eqb_spec i r) as [->|]; [rewrite E; reflexivity | apply andb_false_r].
Qed.

Lemma clear_bit_testbit mask r i :
  0 <= r < 32 -> 0 <= i < 32 -> Z.testbit (clear_bit mask r) i = Z.testbit mask i && negb (i =? r).
Proof.
  intros Hr Hi. unfold clear_bit, unot.
  rewrite Z.land_spec, Z.lxor_spec, one_bit, Z.ones_spec_low by lia. rewrite xorb_true_r. reflexivity.
Qed.

Lemma set_bit_testbit mask r i :
  0 <= r < 32 -> 0 <= i -> Z.testbit (set_bit mask r) i = Z.testbit mask i || (i =? r).
Proof. intros Hr Hi. unfold set_bit. rewrite Z.lor_spec, one_bit by lia. reflexivity. Qed.

(** ** The general registers *)

Definition scratch (r : Z) : bool := (22 <=? r) && (r <? 30).

Lemma scratch_mask r : 0 <= r < 32 -> Z.testbit kGprScratchMask r = scratch r.
Proof.
  intros Hr. assert (H : forallb (fun r => Bool.eqb (Z.testbit kGprScratchMask r) (scratch r))
    (map Z.of_nat (seq 0 32)) = true) by reflexivity.
  rewrite forallb_forall in H. apply eqb_prop, H, in_map_iff. exists (Z.to_nat r).
  split; [lia | apply in_seq; lia].
Qed.

Lemma is_scratch_pool_reg_eq r : is_scratch_pool_reg r = scratch r.
Proof.
  unfold is_scratch_pool_reg.
  destruct (Z.leb_spec 0 r), (Z.ltb_spec r 32); cbn [andb];
    try (unfold scratch; destruct (Z.leb_spec 22 r), (Z.ltb_spec r 30); cbn; (reflexivity || lia)).
  rewrite <- scratch_mask by lia. unfold nz. change 1 with (Z.ones 1).
  rewrite Z.land_ones by lia. change (2 ^ 1) with 2. rewrite <- (Z.bit0_mod (Z.shiftr kGprScratchMask r)).
  rewrite Z.shiftr_spec by lia. rewrite Z.add_0_l. destruct (Z.testbit _ r); reflexivity.
Qed.

Definition free (s : asm) (r : Z) : bool := Z.testbit (free_gpr_mask s) r.

(** The pool holds scratch registers only. *)
Definition pool_ok (s : asm) : Prop :=
  0 <= free_gpr_mask s /\ forall r, 0 <= r -> free s r = true -> scratch r = true.

Lemma scratch_gpr r : scratch r = true -> 22 <= r < 30.
Proof. unfold scratch. rewrite andb_true_iff, Z.leb_le, Z.ltb_lt. auto. Qed.

Lemma pool_high s i : pool_ok s -> 32 <= i -> free s i = false.
Proof.
  intros [_ H] Hi. destruct (free s i) eqn:E; [|reflexivity].
  specialize (H i ltac:(lia) E). apply scratch_gpr in H. lia.
Qed.

(** [s'] is [s] with register [r] taken out of the pool, where [r] is one of
    the pool's; a guest register is not. *)
Definition takes (s s' : asm) (r : Z) : Prop :=
  pool_ok s' /\ free_fpr_mask s' = free_fpr_mask s /\
  (if scratch r then free s r = true /\ forall i, 0 <= i -> free s' i = free s i && negb (i =? r)
   else 0 <= r < 16 /\ forall i, 0 <= i -> free s' i = free s i).

Lemma free_ext s s' :
  0 <= free_gpr_mask s -> 0 <= free_gpr_mask s' ->
  (forall i, 0 <= i -> free s i = free s' i) -> free_gpr_mask s = free_gpr_mask s'.
Proof. intros _ _ H. apply Z.bits_inj'. exact H. Qed.

Lemma free_pools s s' i : same_pools s s' -> free s' i = free s i.
Proof. intros [E _]. unfold free. rewrite E. reflexivity. Qed.

Lemma pool_ok_pools s s' : same_pools s s' -> pool_ok s -> pool_ok s'.
Proof. intros [E _] [H0 H]. unfold pool_ok, free. rewrite E. split; assumption. Qed.

Lemma takes_pools_r s s1 s2 r : takes s s1 r -> same_pools s1 s2 -> takes s s2 r.
Proof.
  intros (H1 & H2 & H3) Hs. split; [eapply pool_ok_pools; eassumption|].
  split; [destruct Hs; congruence|].
  destruct (scratch r), H3 as [H3 H4]; (split; [exact H3|]); intros i Hi;
    rewrite (free_pools _ _ i Hs); apply H4, Hi.
Qed.

Lemma takes_pools_l s s1 s2 r : same_pools s s1 -> takes s1 s2 r -> takes s s2 r.
Proof.
  intros Hs (H1 & H2 & H3). split; [exact H1|]. split; [destruct Hs; congruence|].
  destruct (scratch r), H3 as [H3 H4]; (split; [rewrite ?(free_pools _ _ r Hs) in H3; exact H3|]);
    intros i Hi; rewrite H4, (free_pools _ _ i Hs) by exact Hi; reflexivity.
Qed.

Lemma wp_alloc_free_gpr (Q : Z -> asm -> machine -> Prop) s m :
  pool_ok s -> free_gpr_mask s <> 0 ->
  (forall r s', scratch r = true -> takes s s' r -> Q r s' m) ->
  wp alloc_free_gpr Q s m.
Proof.
  intros [H0 Hp] Hne HQ. set (r := ctzll (free_gpr_mask s)).
  destruct (ctzll_lowest (free_gpr_mask s) ltac:(lia)) as (Hr & Hb & _). fold r in Hr, Hb.
  pose proof (Hp r Hr Hb) as Hs. pose proof (scratch_gpr r Hs) as Hr'.
  eapply (wp_pool _ _ _ _ r (set_gpr_mask s (clear_bit (free_gpr_mask s) r))).
  - unfold alloc_free_gpr. unfold nz. destruct (Z.eqb_spec (free_gpr_mask s) 0); [contradiction | reflexivity].
  - reflexivity.
  - assert (Hf : forall i, 0 <= i ->
      free (set_gpr_mask s (clear_bit (free_gpr_mask s) r)) i = free s i && negb (i =? r)).
    { intros i Hi. unfold free. cbn [set_gpr_mask free_gpr_mask].
      destruct (Z.ltb_spec i 32) as [L|L]; [apply clear_bit_testbit; lia|].
      pose proof (pool_high s i (conj H0 Hp) L) as Eh. unfold free in Eh. rewrite Eh. cbn [andb].
      unfold clear_bit. rewrite Z.land_spec, Eh. reflexivity. }
    apply HQ; [exact Hs|]. split; [split|split; [reflexivity|rewrite Hs; split; [exact Hb | exact Hf]]].
    + apply Z.land_nonneg. left. exact H0.
    + intros i Hi E. rewrite Hf in E by exact Hi. apply andb_true_iff in E as [E _]. apply Hp; assumption.
Qed.

(** Releasing what was taken restores the pool. *)
Lemma wp_free_gpr s0 r (Q : unit -> asm -> machine -> Prop) s m :
  pool_ok s0 -> takes s0 s r ->
  (forall s', same_pools s0 s' -> Q tt s' m) ->
  wp (free_gpr r) Q s m.
Proof.
  intros [H0 Hp] ([Hs0 Hsp] & Hf & Ht) HQ.
  assert (Hr : 0 <= r < 32).
  { destruct (scratch r) eqn:E; [apply scratch_gpr in E; lia | destruct Ht; lia]. }
  pose proof (has_bit_testbit kGprScratchMask r Hr) as Eb. rewrite scratch_mask in Eb by exact Hr.
  unfold free_gpr.
  eapply (wp_pool _ _ _ _ tt (if has_bit kGprScratchMask r
            then set_gpr_mask s (set_bit (free_gpr_mask s) r) else s)).
  - replace (r =? GPR.SP) with false; [reflexivity|]. symmetry. apply Z.eqb_neq. unfold GPR.SP. lia.
  - destruct (has_bit _ _); reflexivity.
  - apply HQ. rewrite Eb. destruct (scratch r) eqn:Es; destruct Ht as [Ht1 Ht2].
    + split; [|exact Hf]. symmetry. apply Z.bits_inj'. intros i Hi. cbn [set_gpr_mask free_gpr_mask].
      rewrite set_bit_testbit by lia.
      specialize (Ht2 i Hi). unfold free in *. rewrite Ht2.
      destruct (Z.eqb_spec i r) as [E|]; [rewrite E, Ht1; reflexivity|].
      cbn [negb]. rewrite andb_true_r, orb_false_r. reflexivity.
    + split; [|exact Hf]. symmetry. apply Z.bits_inj'. intros i Hi. symmetry. apply Ht2, Hi.
Qed.

Definition used (r : Z) (U : list Z) : bool := existsb (Z.eqb r) U.

Lemma used_In r U : used r U = true <-> In r U.
Proof.
  unfold used. rewrite existsb_exists. split.
  - intros (x & Hx & E). apply Z.eqb_eq in E. congruence.
  - intros H. exists r. split; [exact H | apply Z.eqb_refl].
Qed.

Lemma not_used r U : used r U = false <-> ~ In r U.
Proof. rewrite <- used_In. destruct (used r U); intuition congruence. Qed.

Lemma used_cons r q U : used r (q :: U) = (r =? q) || used r U.
Proof. reflexivity. Qed.

(** The general pool is the scratch registers not in [U]. *)
Definition gpool (s : asm) (U : list Z) : Prop :=
  0 <= free_gpr_mask s /\ forall r, 0 <= r -> free s r = scratch r && negb (used r U).

Lemma gpool_ok s U : gpool s U -> pool_ok s.
Proof. intros [H0 H]. split; [exact H0|]. intros r Hr E. rewrite H in E by exact Hr. apply andb_true_iff in E. apply E. Qed.

Lemma gpool_same s s' U : same_pools s s' -> gpool s U -> gpool s' U.
Proof. intros [E _] [H0 H]. unfold gpool, free. rewrite E. split; assumption. Qed.

Lemma gpool_ext s U U' : (forall r, In r U <-> In r U') -> gpool s U -> gpool s U'.
Proof.
  intros HU [H0 H]. split; [exact H0|]. intros r Hr. rewrite H by exact Hr. do 2 f_equal.
  apply eq_true_iff_eq. rewrite !used_In. apply HU.
Qed.

(** Eight registers: a list of fewer leaves one. *)
Lemma scratch_left U : (length U < 8)%nat -> exists r, scratch r = true /\ ~ In r U.
Proof.
  intros HU. set (pool := [22; 23; 24; 25; 26; 27; 28; 29]).
  destruct (existsb (fun r => negb (used r U)) pool) eqn:E.
  - apply existsb_exists in E as (r & Hr & Hu). apply negb_true_iff, not_used in Hu. exists r.
    split; [|exact Hu]. unfold scratch. cbn in Hr. apply andb_true_iff. rewrite Z.leb_le, Z.ltb_lt. lia.
  - exfalso. assert (Hin : incl pool U).
    { intros r Hr. destruct (used r U) eqn:Eu; [apply used_In, Eu|]. 
      rewrite <- not_true_iff_false in E. exfalso. apply E, existsb_exists. exists r. rewrite Eu. auto. }
    apply NoDup_incl_length in Hin; [cbn in Hin; lia|]. subst pool.
    repeat constructor; cbn; lia.
Qed.

Lemma gpool_nonempty s U : gpool s U -> (length U < 8)%nat -> free_gpr_mask s <> 0.
Proof.
  intros [_ H] HU E. destruct (scratch_left U HU) as (r & Hs & Hr).
  pose proof (scratch_gpr _ Hs). specialize (H r ltac:(lia)). unfold free in H.
  rewrite E, Z.testbit_0_l, Hs in H. cbn in H. symmetry in H. apply negb_false_iff, used_In in H. contradiction.
Qed.

Lemma wp_galloc U (Q : Z -> asm -> machine -> Prop) s m :
  gpool s U -> (length U < 8)%nat ->
  (forall r s', scratch r = true -> ~ In r U -> gpool s' (r :: U) ->
     free_fpr_mask s' = free_fpr_mask s -> Q r s' m) ->
  wp alloc_free_gpr Q s m.
Proof.
  intros Hp HU HQ. apply wp_alloc_free_gpr; [eapply gpool_ok; exact Hp | eapply gpool_nonempty; eassumption|].
  intros r s' Hs (Hok & Hf & Ht). rewrite Hs in Ht. destruct Ht as [Hfr Ht]. destruct Hp as [H0 Hp].
  assert (Hr : 0 <= r) by (apply scratch_gpr in Hs; lia).
  rewrite Hp, Hs in Hfr by exact Hr. cbn in Hfr. apply negb_true_iff, not_used in Hfr.
  apply HQ; [exact Hs | exact Hfr | | exact Hf]. split; [apply Hok|].
  intros i Hi. rewrite Ht, Hp, used_cons by exact Hi.
  destruct (scratch i), (i =? r), (used i U); reflexivity.
Qed.

Lemma wp_gfree r U (Q : unit -> asm -> machine -> Prop) s m :
  gpool s (r :: U) -> scratch r = true -> ~ In r U ->
  (forall s', gpool s' U -> free_fpr_mask s' = free_fpr_mask s -> Q tt s' m) ->
  wp (free_gpr r) Q s m.
Proof.
  intros [H0 Hp] Hs Hr HQ. pose proof (scratch_gpr _ Hs).
  unfold free_gpr. assert (Eb : has_bit kGprScratchMask r = true) by (rewrite has_bit_testbit, scratch_mask by lia; exact Hs).
  eapply (wp_pool _ _ _ _ tt (set_gpr_mask s (set_bit (free_gpr_mask s) r))).
  - replace (r =? GPR.SP) with false by (symmetry; apply Z.eqb_neq; unfold GPR.SP; lia).
    rewrite Eb. reflexivity.
  - reflexivity.
  - apply HQ; [|reflexivity]. split.
    + cbn. apply Z.lor_nonneg. split; [exact H0 | apply wrap_range; lia].
    + intros i Hi. unfold free. cbn [set_gpr_mask free_gpr_mask]. rewrite set_bit_testbit by lia.
      specialize (Hp i Hi). unfold free in Hp. rewrite Hp, used_cons. destruct (Z.eqb_spec i r) as [->|Hne].
      * rewrite Hs. apply not_used in Hr. rewrite Hr. reflexivity.
      * cbn. apply orb_false_r.
Qed.

(** A guest register is not the pool's. *)
Lemma wp_gfree_guest r (Q : unit -> asm -> machine -> Prop) s m :
  0 <= r < 16 -> Q tt s m -> wp (free_gpr r) Q s m.
Proof.
  intros Hr HQ. eapply (wp_pool _ _ _ _ tt s); [|reflexivity | exact HQ]. unfold free_gpr.
  replace (r =? GPR.SP) with false by (symmetry; apply Z.eqb_neq; unfold GPR.SP; lia).
  rewrite has_bit_testbit, scratch_mask by lia. unfold scratch.
  destruct (Z.leb_spec 22 r); [lia|]. reflexivity.
Qed.

(** ** The SIMD registers *)

Section Fpr.
Context (cfg : RosettaConfig).

Definition fscratch (r : Z) : bool :=
  (if extended_fpr_scratch cfg then 16 <=? r else 24 <=? r) && (r <? 32).

Definition fpr_count : nat := if extended_fpr_scratch cfg then 16 else 8.

Lemma fscratch_mask r :
  0 <= r < 32 ->
  Z.testbit (if extended_fpr_scratch cfg then kFprScratchMaskExt else kFprScratchMask) r = fscratch r.
Proof.
  intros Hr. unfold fscratch.
  assert (H : forallb (fun r => Bool.eqb (Z.testbit kFprScratchMaskExt r) ((16 <=? r) && (r <? 32)) &&
                                Bool.eqb (Z.testbit kFprScratchMask r) ((24 <=? r) && (r <? 32)))
    (map Z.of_nat (seq 0 32)) = true) by reflexivity.
  rewrite forallb_forall in H. specialize (H r). rewrite andb_true_iff in H. destruct H as [H1 H2].
  { apply in_map_iff. exists (Z.to_nat r). split; [lia | apply in_seq; lia]. }
  destruct (extended_fpr_scratch cfg); apply eqb_prop; assumption.
Qed.

Lemma fscratch_range r : fscratch r = true -> 16 <= r < 32.
Proof.
  unfold fscratch. rewrite andb_true_iff, Z.ltb_lt. destruct (extended_fpr_scratch cfg); rewrite Z.leb_le; lia.
Qed.

Definition fpool (s : asm) (V : list Z) : Prop :=
  0 <= free_fpr_mask s /\
  forall r, 0 <= r -> Z.testbit (free_fpr_mask s) r = fscratch r && negb (used r V).

Lemma fpool_mask s s' V : free_fpr_mask s' = free_fpr_mask s -> fpool s V -> fpool s' V.
Proof. intros E [H0 H]. unfold fpool. rewrite E. split; assumption. Qed.

Lemma fpool_ext s V V' : (forall r, In r V <-> In r V') -> fpool s V -> fpool s V'.
Proof.
  intros HV [H0 H]. split; [exact H0|]. intros r Hr. rewrite H by exact Hr. do 2 f_equal.
  apply eq_true_iff_eq. rewrite !used_In. apply HV.
Qed.

Lemma fscratch_left V : (length V < fpr_count)%nat -> exists r, fscratch r = true /\ ~ In r V.
Proof.
  intros HV. set (pool := if extended_fpr_scratch cfg then kFprScratchPoolExtended else kFprScratchPool).
  destruct (existsb (fun r => negb (used r V)) pool) eqn:E.
  - apply existsb_exists in E as (r & Hr & Hu). apply negb_true_iff, not_used in Hu. exists r.
    split; [|exact Hu]. subst pool. unfold fscratch.
    destruct (extended_fpr_scratch cfg); cbn in Hr; apply andb_true_iff; rewrite Z.leb_le, Z.ltb_lt; lia.
  - exfalso. assert (Hin : incl pool V).
    { intros r Hr. destruct (used r V) eqn:Eu; [apply used_In, Eu|].
      rewrite <- not_true_iff_false in E. exfalso. apply E, existsb_exists. exists r. rewrite Eu. auto. }
    apply NoDup_incl_length in Hin; subst pool; unfold fpr_count in HV.
    + destruct (extended_fpr_scratch cfg); cbn in Hin; lia.
    + destruct (extended_fpr_scratch cfg); repeat constructor; cbn; lia.
Qed.

Lemma wp_falloc V (Q : Z -> asm -> machine -> Prop) s m :
  fpool s V -> (length V < fpr_count)%nat ->
  (forall r s', fscratch r = true -> ~ In r V -> fpool s' (r :: V) ->
     free_gpr_mask s' = free_gpr_mask s -> Q r s' m) ->
  wp alloc_free_fpr Q s m.
Proof.
  intros [H0 Hp] HV HQ.
  assert (Hne : free_fpr_mask s <> 0).
  { intros E. destruct (fscratch_left V HV) as (r & Hs & Hr). pose proof (fscratch_range _ Hs).
    specialize (Hp r ltac:(lia)). rewrite E, Z.testbit_0_l, Hs in Hp. cbn in Hp.
    symmetry in Hp. apply negb_false_iff, used_In in Hp. contradiction. }
  set (r := ctzll (free_fpr_mask s)).
  destruct (ctzll_lowest (free_fpr_mask s) ltac:(lia)) as (Hr & Hb & _). fold r in Hr, Hb.
  pose proof (Hp r Hr) as Hr'. rewrite Hb in Hr'. symmetry in Hr'. apply andb_true_iff in Hr' as [Hs Hu].
  apply negb_true_iff, not_used in Hu. pose proof (fscratch_range _ Hs).
  eapply (wp_pool _ _ _ _ r (set_fpr_mask s (clear_bit (free_fpr_mask s) r))).
  - unfold alloc_free_fpr, nz. destruct (Z.eqb_spec (free_fpr_mask s) 0); [contradiction | reflexivity].
  - reflexivity.
  - apply HQ; [exact Hs | exact Hu | | reflexivity]. split; [cbn; apply Z.land_nonneg; left; exact H0|].
    intros i Hi. cbn [set_fpr_mask free_fpr_mask]. rewrite used_cons.
    destruct (Z.ltb_spec i 32) as [L|L].
    + rewrite clear_bit_testbit, Hp by lia. destruct (fscratch i), (i =? r), (used i V); reflexivity.
    + assert (E : fscratch i = false) by (unfold fscratch; destruct (Z.ltb_spec i 32); [lia | apply andb_false_r]).
      rewrite E. unfold clear_bit. rewrite Z.land_spec, Hp, E by exact Hi. reflexivity.
Qed.

Lemma wp_ffree r V (Q : unit -> asm -> machine -> Prop) s m :
  fpool s (r :: V) -> fscratch r = true -> ~ In r V ->
  (forall s', fpool s' V -> free_gpr_mask s' = free_gpr_mask s -> Q tt s' m) ->
  wp (free_fpr cfg r) Q s m.
Proof.
  intros [H0 Hp] Hs Hr HQ. pose proof (fscratch_range _ Hs). unfold free_fpr.
  rewrite has_bit_testbit, fscratch_mask, Hs by lia.
  eapply (wp_pool _ _ _ _ tt (set_fpr_mask s (set_bit (free_fpr_mask s) r))); [reflexivity..|].
  apply HQ; [|reflexivity]. split.
  - cbn. apply Z.lor_nonneg. split; [exact H0 | apply wrap_range; lia].
  - intros i Hi. cbn [set_fpr_mask free_fpr_mask]. rewrite set_bit_testbit, Hp, used_cons by lia.
    destruct (Z.eqb_spec i r) as [->|Hne].
    + rewrite Hs. apply not_used in Hr. rewrite Hr. reflexivity.
    + cbn. apply orb_false_r.
Qed.
End Fpr.
