(* ===== verification/AccessProps.v ===== *)
(** compute_operand_address: the register it returns holds the address of the
    operand, for every shape of base, index, scale and displacement, in 64-
    and 32-bit address sizes.

    Loads and stores through a memory operand: the bytes at the operand's
    address, with the displacement folded into the instruction or not; the
    pool is as before and only free registers are clobbered. *)

From S2P Require Import Prelude F64 GuestMem Emit Assembler A64 EmitDecode BitmaskImm Fpu A64Exec CodeExec.
From S2P Require Import IROperand TranslatorHelpers ImmediateProps Pools.

(** ** Arithmetic modulo 2^w *)

Lemma wrap_add_l w x y : wrap w (wrap w x + y) = wrap w (x + y).
Proof. unfold wrap. apply Zplus_mod_idemp_l. Qed.

Lemma wrap_add_r w x y : wrap w (x + wrap w y) = wrap w (x + y).
Proof. unfold wrap. apply Zplus_mod_idemp_r. Qed.

Lemma wrap_sub_l w x y : wrap w (wrap w x - y) = wrap w (x - y).
Proof. unfold wrap. apply Zminus_mod_idemp_l. Qed.

Lemma wrap_shiftl w x n : 0 <= n -> wrap w (Z.shiftl (wrap w x) n) = wrap w (Z.shiftl x n).
Proof. intros Hn. rewrite !Z.shiftl_mul_pow2 by lia. unfold wrap. apply Zmult_mod_idemp_l. Qed.

Lemma wrap_le w w' x : 0 <= w <= w' -> wrap w (wrap w' x) = wrap w x.
Proof.
  intros H. apply Z.bits_inj'. intros i Hi. rewrite !wrap_testbit by lia.
  destruct (Z.ltb_spec i w), (Z.ltb_spec i w'); cbn; (reflexivity || lia).
Qed.

Lemma wrap_64_small sf x : wrap 64 (wrap (w_of sf) x) = wrap (w_of sf) x.
Proof.
  apply wrap_small. pose proof (wrap_range (w_of sf) x ltac:(destruct sf; cbn; lia)).
  assert (2 ^ w_of sf <= 2 ^ 64) by (destruct sf; cbv; congruence). lia.
Qed.

Lemma w_of_nonneg sf : 0 <= w_of sf.
Proof. destruct sf; cbn; lia. Qed.
#[local] Hint Resolve w_of_nonneg : core.

(** Congruence of sums, [x] and [y] standing for the same residue. *)
Lemma wrap_congr_add w x x' y y' :
  wrap w x = wrap w x' -> wrap w y = wrap w y' -> wrap w (x + y) = wrap w (x' + y').
Proof. intros H H'. rewrite <- wrap_add_l, H, wrap_add_l, <- wrap_add_r, H', wrap_add_r. reflexivity. Qed.

(** ** Rules for the instructions an address takes *)

Lemma wp_add_imm sf sub sh imm rn rd (Q : unit -> asm -> machine -> Prop) s m :
  0 <= sh <= 1 -> 0 <= imm < 4096 -> gpr rn -> gpr rd ->
  (forall s' m', same_pools s s' ->
     writes m m' rd (wrap (w_int sf)
       (let b := if sh =? 0 then imm else Z.shiftl imm 12 in
        if nz sub then xr m rn - b else xr m rn + b)) -> Q tt s' m') ->
  wp (emit_add_imm sf sub 0 sh imm rn rd) Q s m.
Proof.
  intros Hsh Himm Hn Hd HQ. eapply wp_insn; [apply asm_add_imm, Hsh| |].
  - unfold step_insn. cbn [branch exec]. rewrite field4095, !gpr_field by assumption.
    replace (sh <? 2) with true by (symmetry; apply Z.ltb_lt; lia).
    change (nz 0) with false. cbn [negb andb guard]. reflexivity.
  - intros s' Hs. apply HQ; [exact Hs|]. unfold rd_sp. cbv zeta.
    set (b := if sh =? 0 then imm else Z.shiftl imm 12).
    replace (wrap (w_int sf) (if nz sub then xr m rn - b else xr m rn + b)) with
      (wrap (w_int sf) (if nz sub then wrap (w_int sf) (xr m rn) - b else wrap (w_int sf) (xr m rn) + b))
      by (destruct (nz sub); [apply wrap_sub_l | apply wrap_add_l]).
    apply writes_wr_sp.
Qed.

Lemma wp_add_shifted sf rm n rn rd (Q : unit -> asm -> machine -> Prop) s m :
  0 <= n < w_int sf -> n < 64 -> gpr rm -> gpr rn -> gpr rd ->
  (forall s' m', same_pools s s' ->
     writes m m' rd (wrap (w_int sf) (xr m rn + Z.shiftl (xr m rm) n)) -> Q tt s' m') ->
  wp (emit_add_sub_shifted_reg sf 0 0 0 rm n rn rd) Q s m.
Proof.
  intros Hn Hn' Hm Hrn Hd HQ. eapply wp_insn; [apply asm_add_sub_shifted_reg| |].
  - unfold step_insn. cbn [branch exec]. rewrite field63, !gpr_field by (assumption || lia).
    change (nz 0) with false. change (Z.land 0 3) with 0. cbn [negb andb].
    replace (n <? w_int sf) with true by (symmetry; apply Z.ltb_lt; lia).
    change (0 <? 3) with true. cbn [guard andb]. reflexivity.
  - intros s' Hs. apply HQ; [exact Hs|]. rewrite !rd_zr_gpr by assumption. cbn [shift_reg].
    replace (wrap (w_int sf) (xr m rn + Z.shiftl (xr m rm) n)) with
      (wrap (w_int sf) (wrap (w_int sf) (xr m rn) +
         wrap (w_int sf) (Z.shiftl (wrap (w_int sf) (xr m rm)) n)))
      by (rewrite wrap_add_l, wrap_add_r; apply wrap_congr_add; [reflexivity | apply wrap_shiftl; lia]).
    apply writes_wr_zr. unfold gpr in Hd. lia.
Qed.

Lemma wp_add_reg sf rd rn rm (Q : unit -> asm -> machine -> Prop) s m :
  gpr rm -> gpr rn -> gpr rd ->
  (forall s' m', same_pools s s' ->
     writes m m' rd (wrap (w_int sf) (xr m rn + xr m rm)) -> Q tt s' m') ->
  wp (emit_add_reg sf rd rn rm) Q s m.
Proof.
  intros Hm Hn Hd HQ. unfold emit_add_reg.
  replace ((rd =? GPR.SP) || (rn =? GPR.SP)) with false
    by (symmetry; apply orb_false_iff; split; apply Z.eqb_neq; unfold gpr, GPR.SP in *; lia).
  pose proof (w_of_range (nz sf)). apply wp_add_shifted; try assumption; try lia.
Qed.

Lemma wp_mov_reg sf rd rn (Q : unit -> asm -> machine -> Prop) s m :
  gpr rn -> gpr rd ->
  (forall s' m', same_pools s s' -> writes m m' rd (wrap (w_int sf) (xr m rn)) -> Q tt s' m') ->
  wp (emit_mov_reg sf rd rn) Q s m.
Proof.
  intros Hn Hd HQ. unfold emit_mov_reg.
  replace ((rd =? GPR.SP) || (rn =? GPR.SP)) with false
    by (symmetry; apply orb_false_iff; split; apply Z.eqb_neq; unfold gpr, GPR.SP in *; lia).
  eapply wp_insn; [apply asm_logical_shifted_reg| |].
  - unfold step_insn. cbn [branch exec]. rewrite !gpr_field by assumption.
    change (Z.land 0 63) with 0. change (Z.land 0 3) with 0. change (Z.land 0 1 =? 1) with false.
    change (Z.land 1 3) with 1. pose proof (w_of_range (nz sf)).
    replace (0 <? w_int sf) with true by (symmetry; apply Z.ltb_lt; lia).
    change (1 <? 3) with true. cbn [guard andb shift_reg logical]. reflexivity.
  - intros s' Hs. apply HQ; [exact Hs|]. rewrite (gpr_field rn), (rd_zr_gpr _ _ rn) by assumption.
    change (rd_zr (nz sf) m (Z.land GPR.XZR 31)) with 0. rewrite Z.lor_0_l, Z.shiftl_0_r.
    rewrite wrap_wrap by auto.
    rewrite <- (wrap_wrap (w_int sf) (xr m rn)) at 2 by auto.
    apply writes_wr_zr. unfold gpr in Hd. lia.
Qed.

(** [LSL Rd, Rn, #n] as a bitfield move. *)
Lemma wp_lsl sf rd rn n (Q : unit -> asm -> machine -> Prop) s m :
  sf = 0 \/ sf = 1 -> 0 < n < w_int sf -> gpr rn -> gpr rd ->
  (forall s' m', same_pools s s' ->
     writes m m' rd (wrap (w_int sf) (Z.shiftl (xr m rn) n)) -> Q tt s' m') ->
  wp (emit_bitfield sf 2 sf (w_int sf - n) (w_int sf - n - 1) rn rd) Q s m.
Proof.
  intros Hsf Hn Hrn Hd HQ. pose proof (w_of_range (nz sf)).
  eapply wp_insn; [apply asm_bitfield| |].
  - unfold step_insn. cbn [branch exec]. rewrite !field63, !gpr_field by (assumption || lia).
    change (Z.land 2 3) with 2. replace (Z.land sf 1) with (b2z (nz sf)) by (destruct Hsf as [-> | ->]; reflexivity).
    rewrite Z.eqb_refl. change (2 <? 3) with true.
    replace (w_int sf - n <? w_int sf) with true by (symmetry; apply Z.ltb_lt; lia).
    replace (w_int sf - n - 1 <? w_int sf) with true by (symmetry; apply Z.ltb_lt; lia).
    cbn [guard andb]. reflexivity.
  - intros s' Hs. apply HQ; [exact Hs|]. rewrite !rd_zr_gpr by assumption.
    unfold bitfield. replace (w_int sf - n <=? w_int sf - n - 1) with false by (symmetry; apply Z.leb_gt; lia).
    replace (w_int sf - n - 1 + 1) with (w_int sf - n) by lia.
    replace (w_int sf - (w_int sf - n)) with n by lia.
    replace (wrap (w_int sf) (Z.shiftl (xr m rn) n)) with
      (wrap (w_int sf) (Z.shiftl (bits (wrap (w_int sf) (xr m rn)) 0 (w_int sf - n)) n)).
    + apply writes_wr_zr. unfold gpr in Hd. lia.
    + apply Z.bits_inj'. intros i Hi. rewrite !wrap_testbit by auto.
      destruct (Z.ltb_spec i (w_int sf)); [cbn [andb]|reflexivity].
      rewrite !Z.shiftl_spec by lia. unfold bits.
      rewrite Z.land_spec, Z.shiftr_0_r, wrap_testbit by auto.
      destruct (Z.lt_ge_cases (i - n) 0); [rewrite !Z.testbit_neg_r by lia; apply andb_false_r|].
      rewrite Z.ones_spec_low by lia.
      replace (i - n <? w_int sf) with true by (symmetry; apply Z.ltb_lt; lia).
      rewrite andb_true_r. reflexivity.
Qed.

(** ** Displacements *)

Lemma page_immediate x :
  0 <= x < 2 ^ 64 -> Z.land x 0xFFFFFFFFFF000FFF = 0 ->
  0 <= Z.shiftr x 12 < 4096 /\ Z.shiftl (Z.shiftr x 12) 12 = x.
Proof.
  intros Hx H.
  assert (Hb : forall i, 0 <= i < 64 -> (i < 12 \/ 24 <= i) -> Z.testbit x i = false).
  { intros i Hi Ho. apply (f_equal (fun y => Z.testbit y i)) in H.
    rewrite Z.land_spec, Z.testbit_0_l in H.
    assert (E : Z.testbit 0xFFFFFFFFFF000FFF i = true).
    { change 0xFFFFFFFFFF000FFF with (Z.lor (Z.ones 12) (Z.shiftl (Z.ones 40) 24)).
      rewrite Z.lor_spec, Z.shiftl_spec by lia. destruct Ho.
      - rewrite Z.ones_spec_low by lia. reflexivity.
      - rewrite (Z.ones_spec_low 40) by lia. apply orb_true_r. }
    rewrite E, andb_true_r in H. exact H. }
  assert (E : Z.shiftl (Z.shiftr x 12) 12 = x).
  { apply Z.bits_inj'. intros i Hi. rewrite Z.shiftl_spec by lia.
    destruct (Z.lt_ge_cases (i - 12) 0).
    - rewrite Z.testbit_neg_r by lia. symmetry. apply Hb; lia.
    - rewrite Z.shiftr_spec by lia. f_equal. lia. }
  split; [|exact E].
  assert (Hlt : x < 2 ^ 24).
  { destruct (Z.eq_dec x 0) as [->|]; [lia|]. apply Z.log2_lt_pow2; [lia|].
    destruct (Z.lt_ge_cases (Z.log2 x) 24); [assumption|].
    assert (Z.log2 x < 64) by (apply Z.log2_lt_pow2; lia).
    pose proof (Z.bit_log2 x ltac:(lia)) as Hbit. rewrite (Hb (Z.log2 x)) in Hbit by lia. discriminate. }
  rewrite Z.shiftr_div_pow2 by lia. split; [apply Z.div_pos; lia|].
  apply Z.div_lt_upper_bound; lia.
Qed.

Lemma neg_u64 x : 0 <= x < 2 ^ 64 -> u64 (- u64 (- s64 x)) = x.
Proof.
  intros Hx. pose proof (sgn_wrap 64 x ltac:(lia)) as E. rewrite (wrap_small 64 x) in E by exact Hx.
  rewrite <- E at 2. rewrite <- (Z.sub_0_l (u64 (- s64 x))).
  unfold wrap. rewrite Zminus_mod_idemp_r. f_equal. lia.
Qed.

Lemma disp_encoding_spec d :
  0 <= d < 2 ^ 64 ->
  match disp_encoding d with
  | Some (sub, sh, imm) =>
      0 <= sh <= 1 /\ 0 <= imm < 4096 /\
      u64 (let b := if sh =? 0 then imm else Z.shiftl imm 12 in if nz sub then - b else b) = d
  | None => True
  end.
Proof.
  intros Hd. unfold disp_encoding.
  destruct (Z.ltb_spec d 0x1000); [cbn; split; [lia|split; [lia | apply wrap_small, Hd]]|].
  destruct (Z.eqb_spec (Z.land d 0xFFFFFFFFFF000FFF) 0) as [E|_].
  - destruct (page_immediate d Hd E) as [Hr Es].
    cbn -[Z.shiftl Z.shiftr wrap Z.pow]. rewrite Es. split; [lia|split; [lia | apply wrap_small, Hd]].
  - pose proof (wrap_range 64 (- s64 d) ltac:(lia)) as Hn. pose proof (neg_u64 d Hd) as E.
    set (neg := u64 (- s64 d)) in *.
    destruct (Z.ltb_spec neg 0x1000); [cbn -[wrap Z.pow]; split; [lia|split; [lia | exact E]]|].
    destruct (Z.eqb_spec (Z.land neg 0xFFFFFFFFFF000FFF) 0) as [E'|_]; [|exact I].
    destruct (page_immediate neg Hn E') as [Hr Es].
    cbn -[Z.shiftl Z.shiftr wrap Z.pow]. rewrite Es. split; [lia|split; [lia | exact E]].
Qed.

(** ** The shapes *)

(** What an address computation leaves: a register with the address, and no
    other register changed. *)
Definition addressed (s : asm) (m : machine) (a : Z) (r : Z) (s' : asm) (m' : machine) : Prop :=
  takes s s' r /\ gpr r /\ wrap 64 (xr m' r) = a /\ frame [r] m m' /\ (scratch r = true \/ m' = m).

Lemma addressed_scratch s s1 s2 m m' r v a :
  takes s s1 r -> same_pools s1 s2 -> scratch r = true -> writes m m' r v -> wrap 64 v = a ->
  addressed s m a r s2 m'.
Proof.
  intros Ht Hs Hr [E Hf] Hv. split; [eapply takes_pools_r; eassumption|].
  split; [apply scratch_gpr in Hr; unfold gpr; lia|]. rewrite E. auto.
Qed.

Lemma takes_guest s r : pool_ok s -> 0 <= r < 16 -> takes s s r.
Proof.
  intros Hp Hr. split; [exact Hp|]. split; [reflexivity|].
  replace (scratch r) with false; [auto|]. symmetry. unfold scratch.
  replace (22 <=? r) with false; [reflexivity|]. symmetry. apply Z.leb_gt. lia.
Qed.

Lemma addressed_guest s m r a : pool_ok s -> 0 <= r < 16 -> u64 (xr m r) = a -> addressed s m a r s m.
Proof.
  intros Hp Hr Ha. split; [apply takes_guest; assumption|].
  split; [unfold gpr; lia|]. split; [exact Ha|]. split; [apply frame_refl | right; reflexivity].
Qed.

Section Shapes.
Context (sf : Z) (s : asm) (m : machine).
Hypotheses (Hsf : sf = 0 \/ sf = 1) (Hpool : pool_ok s) (Hfree : free_gpr_mask s <> 0).

#[local] Abbreviation w := (w_int sf).

Lemma wrap_of_u64 d x : u64 x = d -> wrap w x = wrap w d.
Proof. intros <-. symmetry. apply wrap_le. destruct Hsf as [-> | ->]; cbv; split; congruence. Qed.

Lemma wp_resolve (Q : Z -> asm -> machine -> Prop) :
  (forall r s', scratch r = true -> gpr r -> takes s s' r -> Q r s' m) -> wp (resolve_hint_gpr GPR.XZR) Q s m.
Proof.
  intros HQ. change (resolve_hint_gpr GPR.XZR) with alloc_free_gpr.
  apply wp_alloc_free_gpr; [assumption..|]. intros r s' Hr Ht. apply HQ; auto.
  apply scratch_gpr in Hr. unfold gpr. lia.
Qed.

Lemma wp_temps (Q : Z * Z -> asm -> machine -> Prop) :
  (forall r s', scratch r = true -> gpr r -> takes s s' r -> Q (r, r) s' m) -> wp (address_temps GPR.XZR) Q s m.
Proof.
  intros HQ. unfold address_temps. change (is_scratch_pool_reg GPR.XZR) with false. cbn iota.
  apply wp_bind. change alloc_free_gpr with (resolve_hint_gpr GPR.XZR).
  apply wp_resolve. intros r s' Hr Hg Ht. apply wp_ret. change (GPR.XZR =? GPR.XZR) with true.
  apply HQ; assumption.
Qed.

Lemma wp_release r (Q : Z -> asm -> machine -> Prop) s1 m1 : Q r s1 m1 -> wp (release_temp r r) Q s1 m1.
Proof. intros H. unfold release_temp. rewrite Z.eqb_refl. apply wp_ret, H. Qed.

(** The displacement added by an ADD or SUB immediate. *)
Lemma disp_add d sub sh imm x :
  0 <= d < 2 ^ 64 -> disp_encoding d = Some (sub, sh, imm) ->
  wrap w (let b := if sh =? 0 then imm else Z.shiftl imm 12 in if nz sub then x - b else x + b) =
  wrap w (x + d).
Proof.
  intros Hd E. pose proof (disp_encoding_spec d Hd) as H. rewrite E in H. destruct H as (_ & _ & H).
  cbv zeta in *. apply wrap_of_u64 in H. set (b := if sh =? 0 then imm else Z.shiftl imm 12) in *.
  rewrite <- (wrap_add_r w x d), <- H, wrap_add_r. destruct (nz sub); f_equal; lia.
Qed.

Lemma wp_address_base b d :
  0 <= b < 16 -> 0 <= d < 2 ^ 64 ->
  wp (address_base sf b d GPR.XZR) (addressed s m (wrap w (xr m b + d))) s m.
Proof.
  intros Hb Hd. unfold address_base, nz at 1. assert (Hgb : gpr b) by (unfold gpr; lia).
  destruct (Z.eqb_spec d 0) as [->|Hd0]; cbn [negb].
  - rewrite Z.add_0_r. destruct (nz sf) eqn:Esf.
    + apply wp_ret. apply addressed_guest; [assumption..|].  reflexivity.
    + apply wp_bind, wp_resolve. intros r s1 Hr Hg Ht. apply wp_bind.
      apply wp_mov_reg; [assumption..|]. intros s2 m2 Hs2 W. apply wp_ret.
      eapply addressed_scratch; [eassumption..|].  apply (wrap_64_small false).
  - pose proof (disp_encoding_spec d Hd) as Hspec.
    destruct (disp_encoding d) as [[[sub sh] imm]|] eqn:Ed.
    + destruct Hspec as (Hsh & Himm & _). apply wp_bind, wp_resolve. intros r s1 Hr Hg Ht.
      apply wp_bind. apply wp_add_imm; [assumption..|]. intros s2 m2 Hs2 W. apply wp_ret.
      eapply addressed_scratch; [eassumption..|].  rewrite (disp_add d) by assumption.
      apply wrap_64_small.
    + apply wp_bind, wp_temps. intros r s1 Hr Hg Ht. apply wp_bind.
      apply wp_load_immediate_no_xzr; [assumption..|]. intros s2 m2 Hs2 [E2 F2].
      apply wp_bind. apply wp_add_reg; [assumption..|]. intros s3 m3 Hs3 [E3 F3].
      apply wp_release. eapply addressed_scratch;
        [exact Ht | eapply same_pools_trans; eassumption | exact Hr
        | split; [exact E3 | eapply frame_trans; eassumption] |].
      rewrite wrap_64_small, E2, wrap_add_r.
      rewrite (fr_x _ _ _ F2 b) by (intros [->|[]]; apply scratch_gpr in Hr; lia). reflexivity.
Qed.

Lemma wp_address_index i n d :
  0 <= i < 16 -> 0 <= n < 32 -> 0 <= d < 2 ^ 64 ->
  wp (address_index sf i n d GPR.XZR) (addressed s m (wrap w (Z.shiftl (xr m i) n + d))) s m.
Proof.
  intros Hi Hn Hd. unfold address_index, nz at 1. assert (Hgi : gpr i) by (unfold gpr; lia).
  pose proof (w_of_range (nz sf)) as Hw.
  destruct (Z.eqb_spec d 0) as [->|Hd0]; cbn [negb].
  - rewrite Z.add_0_r. unfold nz at 1. destruct (Z.eqb_spec n 0) as [->|Hn0]; cbn [negb].
    + rewrite Z.shiftl_0_r. destruct (nz sf) eqn:Esf.
      * apply wp_ret. apply addressed_guest; [assumption..|].  reflexivity.
      * apply wp_bind, wp_resolve. intros r s1 Hr Hg Ht. apply wp_bind.
        apply wp_mov_reg; [assumption..|]. intros s2 m2 Hs2 W. apply wp_ret.
        eapply addressed_scratch; [eassumption..|].  apply (wrap_64_small false).
    + apply wp_bind, wp_resolve. intros r s1 Hr Hg Ht. cbv zeta. apply wp_bind.
      replace (if nz sf then 64 else 32) with (w_int sf) by reflexivity.
      replace (if nz sf then 1 else 0) with sf by (destruct Hsf as [-> | ->]; reflexivity).
      apply wp_lsl; [assumption | lia | assumption..|]. intros s2 m2 Hs2 W. apply wp_ret.
      eapply addressed_scratch; [eassumption..|]. apply wrap_64_small.
  - apply wp_bind, wp_temps. intros r s1 Hr Hg Ht. apply wp_bind.
    apply wp_load_immediate_no_xzr; [assumption..|]. intros s2 m2 Hs2 [E2 F2].
    apply wp_bind. apply wp_add_shifted; [lia | lia | assumption..|]. intros s3 m3 Hs3 [E3 F3].
    rewrite Z.eqb_refl. apply wp_bind, wp_ret, wp_ret. eapply addressed_scratch;
      [exact Ht | eapply same_pools_trans; eassumption | exact Hr
      | split; [exact E3 | eapply frame_trans; eassumption] |].
    rewrite wrap_64_small, E2, wrap_add_l.
    rewrite (fr_x _ _ _ F2 i) by (intros [->|[]]; apply scratch_gpr in Hr; lia).
     f_equal. lia.
Qed.

Lemma wp_address_base_index b i n d :
  0 <= b < 16 -> 0 <= i < 16 -> 0 <= n < 32 -> 0 <= d < 2 ^ 64 ->
  wp (address_base_index sf b i n d GPR.XZR)
     (addressed s m (wrap w (xr m b + Z.shiftl (xr m i) n + d))) s m.
Proof.
  intros Hb Hi Hn Hd. unfold address_base_index, nz at 1.
  assert (Hgi : gpr i) by (unfold gpr; lia). assert (Hgb : gpr b) by (unfold gpr; lia).
  pose proof (w_of_range (nz sf)) as Hw.
  destruct (Z.eqb_spec d 0) as [->|Hd0]; cbn [negb].
  - rewrite Z.add_0_r. apply wp_bind, wp_resolve. intros r s1 Hr Hg Ht. apply wp_bind.
    apply wp_add_shifted; [lia | lia | assumption..|]. intros s2 m2 Hs2 W. apply wp_ret.
    eapply addressed_scratch; [eassumption..|]. apply wrap_64_small.
  - apply wp_bind, wp_temps. intros r s1 Hr Hg Ht. apply wp_bind.
    assert (Hri : i <> r /\ b <> r) by (apply scratch_gpr in Hr; lia).
    pose proof (disp_encoding_spec d Hd) as Hspec.
    destruct (disp_encoding d) as [[[sub sh] imm]|] eqn:Ed.
    + destruct Hspec as (Hsh & Himm & _).
      apply wp_bind. apply wp_add_imm; [assumption..|]. intros s2 m2 Hs2 [E2 F2].
      apply wp_add_shifted; [lia | lia | assumption..|]. intros s3 m3 Hs3 [E3 F3].
      apply wp_release. eapply addressed_scratch;
        [exact Ht | eapply same_pools_trans; eassumption | exact Hr
        | split; [exact E3 | eapply frame_trans; eassumption] |].
      rewrite wrap_64_small, E2.  rewrite (disp_add d), wrap_add_l by assumption.
      rewrite (fr_x _ _ _ F2 i) by (intros [->|[]]; lia). f_equal. lia.
    + apply wp_bind. apply wp_load_immediate_no_xzr; [assumption..|]. intros s2 m2 Hs2 [E2 F2].
      apply wp_bind. apply wp_add_shifted; [lia | lia | assumption..|]. intros s3 m3 Hs3 [E3 F3].
      apply wp_add_reg; [assumption..|]. intros s4 m4 Hs4 [E4 F4].
      apply wp_release. eapply addressed_scratch;
        [exact Ht | eapply same_pools_trans; [exact Hs2 | eapply same_pools_trans; eassumption] | exact Hr
        | split; [exact E4 | eapply frame_trans; [exact F2 | eapply frame_trans; eassumption]] |].
      rewrite wrap_64_small, E3, wrap_add_r, E2.
      rewrite (fr_x _ _ _ F3 b), (fr_x _ _ _ F2 b), (fr_x _ _ _ F2 i) by (intros [->|[]]; lia).
       rewrite Z.add_comm, <- Z.add_assoc, wrap_add_l. f_equal. lia.
Qed.

Lemma wp_address_disp d :
  0 <= d < 2 ^ 64 -> wp (address_disp sf d GPR.XZR) (addressed s m (wrap w d)) s m.
Proof.
  intros Hd. unfold address_disp, nz at 1. destruct (Z.eqb_spec d 0) as [->|Hd0]; cbn [negb].
  - apply wp_bind, wp_resolve. intros r s1 Hr Hg Ht. apply wp_bind.
    apply wp_movn; [auto | cbn; lia | lia | assumption|]. intros s2 m2 Hs2 W. apply wp_ret.
    eapply addressed_scratch; [eassumption..|]. destruct Hsf as [-> | ->]; reflexivity.
  - unfold emit_load_immediate. rewrite (proj2 (Z.eqb_neq _ _) Hd0).
    change (GPR.XZR =? GPR.XZR) with true. cbn iota. apply wp_bind.
    change alloc_free_gpr with (resolve_hint_gpr GPR.XZR). apply wp_resolve. intros r s1 Hr Hg Ht.
    apply wp_load_immediate_into; [assumption..|]. intros s2 m2 Hs2 W.
    eapply addressed_scratch; [eassumption..|]. apply wrap_64_small.
Qed.
End Shapes.

(** ** Operands *)

(** What the decoder guarantees of a memory operand: general registers for
    base and index, a scale of at most 8, a 64-bit displacement, and an address
    size of 32 or 64 bits. *)
Definition operand_ok (o : IROperand) : bool :=
  (0 <=? base_reg o) && (base_reg o <? 0x50) && (0 <=? index_reg o) && (index_reg o <? 0x50) &&
  (0 <=? shift_amount o) && (shift_amount o <=? 3) &&
  (- 2 ^ 63 <=? value o) && (value o <? 2 ^ 63) &&
  ((addr_size o =? IROperandSize.S32) || (addr_size o =? IROperandSize.S64)) &&
  ((kind o =? IROperandKind.MemRef) || (kind o =? IROperandKind.AbsMem)).

Lemma operand_okE o :
  operand_ok o = true ->
  (0 <= base_reg o < 0x50 /\ 0 <= index_reg o < 0x50 /\ 0 <= shift_amount o <= 3 /\
   - 2 ^ 63 <= value o < 2 ^ 63) /\
  (addr_size o = IROperandSize.S32 \/ addr_size o = IROperandSize.S64) /\
  (kind o = IROperandKind.MemRef \/ kind o = IROperandKind.AbsMem).
Proof.
  unfold operand_ok. rewrite !andb_true_iff, !orb_true_iff, !Z.leb_le, !Z.ltb_lt, !Z.eqb_eq.
  intuition lia.
Qed.

Definition width_flag (o : IROperand) : Z := b2z (addr_size o =? IROperandSize.S64).

Lemma width_flag_01 o : width_flag o = 0 \/ width_flag o = 1.
Proof. unfold width_flag. destruct (_ =? _); auto. Qed.

Lemma asize_flag o : w_int (width_flag o) = asize o.
Proof. unfold width_flag, asize. destruct (_ =? _); reflexivity. Qed.

Lemma wrap_sum3 w x y z y' z' :
  wrap w y = wrap w y' -> wrap w z = wrap w z' ->
  wrap w (wrap w x + y + z) = wrap w (x + y' + z').
Proof.
  intros Hy Hz. apply wrap_congr_add; [|exact Hz]. rewrite wrap_add_l.
  apply wrap_congr_add; [reflexivity | exact Hy].
Qed.

Lemma wp_mem_operand_address o s m :
  operand_ok o = true -> pool_ok s -> free_gpr_mask s <> 0 ->
  wp (compute_mem_operand_address (width_flag o) o GPR.XZR)
     (addressed s m (wrap (asize o) (mem_sum (xr m) o))) s m.
Proof.
  intros Ho Hp Hf. apply operand_okE in Ho as [(Hb & Hi & Hn & Hd) _].
  unfold compute_mem_operand_address. cbv zeta. unfold mem_sum.
  assert (Hb' : 0 <= Z.land (base_reg o) 0xF < 16) by (apply (land_bound _ 0xF 4); lia).
  assert (Hi' : 0 <= Z.land (index_reg o) 0xF < 16) by (apply (land_bound _ 0xF 4); lia).
  pose proof (wrap_range 64 (disp o) ltac:(lia)) as Hdr.
  assert (Ed : wrap (asize o) (u64 (disp o)) = wrap (asize o) (disp o)).
  { apply wrap_le. unfold asize. destruct (_ =? _); lia. }
  apply wp_bind, wp_assert.
  { replace (0x50 <=? base_reg o) with false by (symmetry; apply Z.leb_gt; lia).
    rewrite andb_false_r. reflexivity. }
  apply wp_bind, wp_assert.
  { replace (0x50 <=? index_reg o) with false by (symmetry; apply Z.leb_gt; lia).
    rewrite andb_false_r. reflexivity. }
  pose proof (width_flag_01 o) as Hw. rewrite <- !asize_flag in *.
  destruct (nz (Z.land (mem_flags o) 1)), (nz (Z.land (mem_flags o) 2)).
  - eapply wp_mono; [apply wp_address_base_index; (assumption || lia)|]. cbv beta. intros r s' m' H.
    rewrite (wrap_sum3 _ _ _ _ (Z.shiftl (xr m (Z.land (index_reg o) 0xF)) (shift_amount o)) (u64 (disp o)));
      [exact H | apply wrap_shiftl; lia | symmetry; exact Ed].
  - eapply wp_mono; [apply wp_address_base; (assumption || lia)|]. cbv beta. intros r s' m' H.
    rewrite (wrap_sum3 _ _ _ _ 0 (u64 (disp o))), Z.add_0_r; [exact H | reflexivity | symmetry; exact Ed].
  - eapply wp_mono; [apply wp_address_index; (assumption || lia)|]. cbv beta. intros r s' m' H.
    rewrite Z.add_0_l, (wrap_congr_add _ _ (Z.shiftl (xr m (Z.land (index_reg o) 0xF)) (shift_amount o)) _ (u64 (disp o)));
      [exact H | apply wrap_shiftl; lia | symmetry; exact Ed].
  - eapply wp_mono; [apply wp_address_disp; (assumption || lia)|]. cbv beta. intros r s' m' H.
    rewrite !Z.add_0_l, <- Ed. exact H.
Qed.

Lemma wp_operand_address tgt segbase o s m :
  operand_ok o = true -> seg_override o = 0 -> pool_ok s -> free_gpr_mask s <> 0 ->
  wp (compute_operand_address tgt 1 o GPR.XZR) (addressed s m (addr segbase (xr m) o)) s m.
Proof.
  intros Ho Hseg Hp Hf. pose proof (operand_okE o Ho) as [(_ & _ & _ & Hd) [Hs Hk]].
  unfold compute_operand_address. change (nz 1) with true. cbn [andb].
  apply wp_bind, wp_assert; [destruct Hs as [-> | ->]; reflexivity|]. cbv zeta.
  change (address_width 1 o) with (width_flag o). rewrite Hseg. change (nz 0) with false. cbn iota.
  unfold compute_plain_address, addr. rewrite Hseg. destruct Hk as [-> | ->].
  - change (IROperandKind.MemRef =? IROperandKind.MemRef) with true. change (0 =? 0) with true. cbn iota zeta.
    apply wp_mem_operand_address; assumption.
  - change (IROperandKind.AbsMem =? IROperandKind.MemRef) with false.
    change (IROperandKind.AbsMem =? IROperandKind.AbsMem) with true. cbn iota.
    apply wp_bind, wp_resolve; [assumption..|]. intros r s1 Hr Hg Ht. apply wp_bind.
    apply wp_load_immediate_no_xzr; [apply width_flag_01 | apply wrap_range; lia | exact Hg|].
    intros s2 m2 Hs2 W. apply wp_ret. eapply addressed_scratch; [eassumption..|].
    rewrite wrap_64_small, asize_flag. apply wrap_le. unfold asize. destruct (_ =? _); lia.
Qed.

(** ** What code may clobber *)

(** No register changes but those free in [s] and those of [l]. *)
Definition keeps (s : asm) (l : list Z) (m m' : machine) : Prop :=
  forall r, 0 <= r -> free s r = false -> ~ In r l -> xr m' r = xr m r.

Lemma keeps_refl s l m : keeps s l m m.
Proof. intros r _ _ _. reflexivity. Qed.

Lemma keeps_trans s l m m1 m2 : keeps s l m m1 -> keeps s l m1 m2 -> keeps s l m m2.
Proof. intros H1 H2 r Hr Hf Hl. rewrite H2, H1; auto. Qed.

Lemma keeps_pools s s' l m m' : same_pools s s' -> keeps s' l m m' -> keeps s l m m'.
Proof. intros Hs H r Hr Hf Hl. apply H; [exact Hr | rewrite (free_pools _ _ r Hs); exact Hf | exact Hl]. Qed.

Lemma keeps_mono s l l' m m' : (forall r, In r l -> In r l') -> keeps s l m m' -> keeps s l' m m'.
Proof. intros H Hk r Hr Hf Hl. apply Hk; auto. Qed.

Lemma keeps_frame s l m m' : frame l m m' -> keeps s l m m'.
Proof. intros [H _ _ _] r _ _ Hl. apply H, Hl. Qed.

(** A taken register was free. *)
Lemma keeps_taken s s1 r m m' :
  takes s s1 r -> frame [r] m m' -> scratch r = true \/ m' = m -> keeps s [] m m'.
Proof.
  intros (_ & _ & Ht) [Hx _ _ _] Hr q Hq Hf _. destruct Hr as [Hr | ->]; [|reflexivity].
  rewrite Hr in Ht. destruct Ht as [Ht _]. apply Hx. intros [->|[]]. congruence.
Qed.

Lemma addr_range segbase r o :
  operand_ok o = true -> seg_override o = 0 -> 0 <= addr segbase r o < 2 ^ 64.
Proof.
  intros Ho Hs. unfold addr. rewrite Hs. cbn [Z.eqb].
  assert (H : forall x, 0 <= wrap (asize o) x < 2 ^ 64).
  { intros x. rewrite <- asize_flag. pose proof (wrap_range (w_int (width_flag o)) x ltac:(destruct (nz _); cbn; lia)).
    assert (2 ^ w_int (width_flag o) <= 2 ^ 64) by (destruct (nz (width_flag o)); cbv; congruence). lia. }
  destruct (_ =? _); apply H.
Qed.

(** ** Where an access goes *)

Definition encodable (size : Z) (a : OperandAccess) : Prop :=
  match enc a with
  | Unscaled9 => -256 <= offset a <= 255
  | _ => 0 <= offset a /\ Z.shiftr (offset a) size <= 4095 /\ Z.shiftl (Z.shiftr (offset a) size) size = offset a
  end.

Record accessed (s : asm) (m : machine) (a size : Z) (x : OperandAccess) (s' : asm) (m' : machine) : Prop := {
  ac_takes : takes s s' (base x);
  ac_gpr : gpr (base x);
  ac_addr : u64 (u64 (xr m' (base x)) + offset x) = a;
  ac_enc : encodable size x;
  ac_frame : frame [base x] m m';
  ac_scratch : scratch (base x) = true \/ m' = m
}.

Lemma classify_cases d size :
  0 <= size -> -2 ^ 63 <= d < 2 ^ 63 ->
  (classify_ldst_disp d size = 1 /\ 0 <= d /\ Z.shiftr d size <= 4095 /\ Z.shiftl (Z.shiftr d size) size = d) \/
  (classify_ldst_disp d size = 2 /\ -256 <= d <= 255) \/ classify_ldst_disp d size = 0.
Proof.
  intros Hsz Hd. unfold classify_ldst_disp.
  destruct (Z.leb_spec 0 d), (Z.eqb_spec (Z.land d (Z.shiftl 1 size - 1)) 0) as [E|],
    (Z.leb_spec (Z.shiftr d size) 4095); cbn [andb];
    try (left; split; [reflexivity|]; split; [assumption|]; split; [assumption|];
         rewrite Z.shiftl_1_l in E; rewrite <- Z.ones_equiv in E || idtac;
         replace (2 ^ size - 1) with (Z.ones size) in E by (rewrite Z.ones_equiv; lia);
         rewrite Z.land_ones in E by lia;
         rewrite Z.shiftr_div_pow2, Z.shiftl_mul_pow2 by lia;
         pose proof (Z.div_mod d (2 ^ size) ltac:(apply Z.pow_nonzero; lia)); lia);
    destruct (Z.leb_spec (-256) d), (Z.leb_spec d 255); cbn [andb]; auto.
Qed.

Lemma wp_operand_access cfg tgt segbase o size s m :
  operand_ok o = true -> seg_override o = 0 -> pool_ok s -> free_gpr_mask s <> 0 -> 0 <= size <= 3 ->
  wp (compute_operand_access cfg tgt 1 o size 0 0) (accessed s m (addr segbase (xr m) o) size) s m.
Proof.
  intros Ho Hseg Hp Hf Hsz.
  assert (Full : wp (base0 <- compute_operand_address tgt 1 o GPR.XZR ;; ret (mkAccess base0 0 FullEA))
            (accessed s m (addr segbase (xr m) o) size) s m).
  { apply wp_bind. eapply wp_mono; [apply wp_operand_address; eassumption|].
    cbv beta. intros r s' m' (Ht & Hg & Ha & Hfr & Hs). apply wp_ret.
    split; cbn [base offset enc]; try assumption.
    - rewrite Z.add_0_r, wrap_wrap by lia. exact Ha.
    - cbn. rewrite Z.shiftr_0_l, Z.shiftl_0_l. lia. }
  unfold compute_operand_access. cbv zeta.
  match goal with |- context [if ?b then _ else _] => destruct b eqn:Ec end; [|exact Full].
  rewrite !andb_true_iff, !Z.eqb_eq, Z.ltb_lt in Ec.
  destruct Ec as ((((((_ & Hk) & _) & _) & Hs) & Hfl) & Hb).
  change (nz 0) with false. rewrite andb_false_r. cbn [andb].
  pose proof (operand_okE o Ho) as [(Hb0 & _ & _ & Hd) _].
  assert (Hb' : 0 <= Z.land (base_reg o) 0xF < 16) by (apply (land_bound _ 0xF 4); lia).
  assert (Ea : addr segbase (xr m) o = u64 (u64 (xr m (Z.land (base_reg o) 0xF)) + disp o)).
  { unfold addr, mem_sum, asize. rewrite Hk, Hs, Hseg, Hfl. cbn. rewrite Z.add_0_r. reflexivity. }
  destruct (classify_cases (disp o) size ltac:(lia) Hd) as [(E & H1 & H2 & H3) | [(E & H1) | E]]; rewrite E;
    [change (nz 1) with true; change (1 =? 1) with true | change (nz 2) with true; change (2 =? 1) with false | exact Full];
    cbn iota; apply wp_ret; rewrite Ea;
    (split; cbn [base offset enc];
     [apply takes_guest; assumption | unfold gpr; lia | | | apply frame_refl | right; reflexivity]).
  - rewrite (sgn_small 32); [reflexivity | lia|]. split; [lia|].
    rewrite <- H3. rewrite Z.shiftl_mul_pow2 by lia.
    assert (2 ^ size <= 2 ^ 3) by (apply Z.pow_le_mono_r; lia). pose proof (Z.shiftr_nonneg (disp o) size). nia.
  - unfold encodable. cbn [enc offset].
    rewrite (sgn_small 32); [auto | lia|]. split; [lia|].
    rewrite <- H3. rewrite Z.shiftl_mul_pow2 by lia.
    assert (2 ^ size <= 2 ^ 3) by (apply Z.pow_le_mono_r; lia). pose proof (Z.shiftr_nonneg (disp o) size). nia.
  - rewrite (sgn_small 32) by lia. reflexivity.
  - unfold encodable. cbn [enc offset]. rewrite (sgn_small 32) by lia. exact H1.
Qed.

(** ** The access *)

Lemma sgn9_field x : -256 <= x <= 255 -> sgn 9 (Z.land (s16 x) 0x1FF) = x.
Proof.
  intros Hx. rewrite (sgn_small 16) by lia.
  change 0x1FF with (Z.ones 9). rewrite Z.land_ones by lia. change (x mod 2 ^ 9) with (wrap 9 x).
  assert (E : sgn 9 (wrap 9 x) = sgn 9 x) by (unfold sgn; rewrite wrap_wrap by lia; reflexivity).
  rewrite E. apply sgn_small; lia.
Qed.

Lemma rd_sp_addr m r : rd_sp true m r = u64 (xr m r).
Proof. reflexivity. Qed.

Definition gpr_or_zr (r : Z) : Prop := 0 <= r <= 31.

Lemma gpr_or_zr_field r : gpr_or_zr r -> Z.land r 31 = r.
Proof. intros H. apply (field_small 5); unfold gpr_or_zr in H; lia. Qed.

Lemma size_cases size : 0 <= size <= 3 -> size = 0 \/ size = 1 \/ size = 2 \/ size = 3.
Proof. lia. Qed.

(** An access whose register and offset give the address. *)
Definition reaches (m : machine) (a size : Z) (x : OperandAccess) : Prop :=
  gpr (base x) /\ u64 (u64 (xr m (base x)) + offset x) = a /\ encodable size x.

Lemma accessed_reaches s0 m0 a size x s m : accessed s0 m0 a size x s m -> reaches m a size x.
Proof. intros []. split; [|split]; assumption. Qed.

(** The instruction of either encoding, as the [ldst] it performs. *)
Lemma wp_access_insn fp size is_load rt x a s m m' (Q : unit -> asm -> machine -> Prop) :
  0 <= size <= 3 -> is_load = 0 \/ is_load = 1 -> gpr_or_zr rt ->
  reaches m a size x -> ldst size fp is_load a rt m = Some m' ->
  (forall s', same_pools s s' -> Q tt s' m') ->
  wp (match enc x with
      | Unscaled9 =>
          if fp then emit_fldur_fstur size is_load (s16 (offset x)) (base x) rt
          else emit_ldur_stur size is_load (s16 (offset x)) (base x) rt
      | _ => emit_ldr_str_imm size (b2z fp) is_load (s16 (Z.shiftr (offset x) size)) (base x) rt
      end) Q s m.
Proof.
  intros Hsz Hl Hrt Ha Hld HQ.
  assert (Hs3 : Z.land size 3 = size) by (apply field3; lia).
  assert (Hop : Z.land is_load 3 = is_load /\ Z.land is_load 1 = is_load)
    by (destruct Hl as [-> | ->]; split; reflexivity).
  destruct Hop as [Hop1 Hop2]. destruct Ha as (Hg & Haddr & He). unfold encodable in He.
  assert (Hscaled : wp (emit_ldr_str_imm size (b2z fp) is_load (s16 (Z.shiftr (offset x) size)) (base x) rt) Q s m
     \/ enc x = Unscaled9).
  { destruct (enc x); [left | right; reflexivity | left]; destruct He as (H0 & H1 & H2);
      (eapply wp_insn; [apply asm_ldr_str_imm; destruct fp; cbn; lia | | exact HQ]);
      unfold step_insn; cbn [branch exec];
      rewrite Hs3, gpr_field, gpr_or_zr_field by assumption;
      replace (size =? 4) with false by (symmetry; apply Z.eqb_neq; lia);
      rewrite Hop1; replace (nz (b2z fp)) with fp by (destruct fp; reflexivity);
      pose proof (proj2 (Z.shiftr_nonneg (offset x) size) H0);
      rewrite (sgn_small 16) by lia; rewrite field4095 by lia;
      rewrite H2, rd_sp_addr, Haddr, Hld; reflexivity. }
  destruct (enc x) eqn:Ee; [destruct Hscaled as [H|]; [exact H | discriminate] | |
    destruct Hscaled as [H|]; [exact H | discriminate]].
  clear Hscaled. destruct fp; (eapply wp_insn; [apply asm_fldur_fstur || apply asm_ldur_stur | | exact HQ]);
    unfold step_insn; cbn [branch exec];
    rewrite Hs3, Hop2, gpr_field, gpr_or_zr_field, sgn9_field, rd_sp_addr, Haddr, Hld by assumption; reflexivity.
Qed.

Lemma load_64 size b a : 0 <= size <= 3 -> 0 <= load (Z.to_nat (2 ^ size)) b a < 2 ^ 64.
Proof.
  intros Hsz. pose proof (load_range (Z.to_nat (2 ^ size)) b a) as H.
  assert (8 * Z.of_nat (Z.to_nat (2 ^ size)) <= 64) by (destruct (size_cases size Hsz) as [-> | [-> | [-> | ->]]]; cbv; congruence).
  pose proof (Z.pow_le_mono_r 2 (8 * Z.of_nat (Z.to_nat (2 ^ size))) 64). lia.
Qed.

Section Access.
Context (cfg : RosettaConfig) (tgt : Target) (segbase : Z -> Z) (o : IROperand) (s : asm) (m : machine).
Hypotheses (Ho : operand_ok o = true) (Hseg : seg_override o = 0)
  (Hpool : pool_ok s) (Hfree : free_gpr_mask s <> 0).

#[local] Abbreviation a := (addr segbase (xr m) o).
#[local] Abbreviation bytes size := (Z.to_nat (2 ^ size)).

(** The address, then the access, then the release of the address register. *)
Lemma wp_access (fp : bool) size is_load rt (Q : unit -> asm -> machine -> Prop) :
  0 <= size <= 3 -> is_load = 0 \/ is_load = 1 -> gpr_or_zr rt ->
  (forall m1, keeps s [] m m1 -> vr m1 = vr m -> nzcv m1 = nzcv m -> mm m1 = mm m ->
     exists m2, ldst size fp is_load a rt m1 = Some m2 /\ forall s', same_pools s s' -> Q tt s' m2) ->
  wp (x <- compute_operand_access cfg tgt 1 o size 0 0 ;;
      match enc x with
      | Unscaled9 =>
          if fp then emit_fldur_fstur size is_load (s16 (offset x)) (base x) rt
          else emit_ldur_stur size is_load (s16 (offset x)) (base x) rt
      | _ => emit_ldr_str_imm size (b2z fp) is_load (s16 (Z.shiftr (offset x) size)) (base x) rt
      end ;;; free_gpr (base x)) Q s m.
Proof.
  intros Hsz Hl Hrt HQ. apply wp_bind.
  eapply wp_mono; [apply (wp_operand_access cfg tgt segbase); eassumption|].
  cbv beta. intros x s1 m1 Ha. apply wp_bind.
  pose proof (ac_takes _ _ _ _ _ _ _ Ha) as Ht. pose proof (ac_frame _ _ _ _ _ _ _ Ha) as Hf1.
  destruct (HQ m1) as (m2 & E & HQ2);
    [eapply keeps_taken; [exact Ht | exact Hf1 | exact (ac_scratch _ _ _ _ _ _ _ Ha)]
    | exact (fr_v _ _ _ Hf1) | exact (fr_nzcv _ _ _ Hf1) | exact (fr_mm _ _ _ Hf1)|].
  eapply wp_access_insn; [exact Hsz | exact Hl | exact Hrt | eapply accessed_reaches; exact Ha | exact E|]. intros s2 Hs2.
  eapply wp_free_gpr; [exact Hpool | eapply takes_pools_r; eassumption | exact HQ2].
Qed.

(** A load into a general register in use. *)
Lemma wp_gpr_load size rt (Q : unit -> asm -> machine -> Prop) :
  0 <= size <= 3 -> gpr rt ->
  (forall s' m', same_pools s s' -> keeps s [rt] m m' -> vr m' = vr m -> nzcv m' = nzcv m ->
     mm m' = mm m -> xr m' rt = load (bytes size) (mm m) a -> Q tt s' m') ->
  wp (emit_gpr_mem_access cfg tgt 1 o size 1 rt) Q s m.
Proof.
  intros Hsz Hrt HQ. apply (wp_access false); [exact Hsz | auto | unfold gpr, gpr_or_zr in *; lia|].
  intros m1 Hk Hv Hn Hm. eexists. split; [reflexivity|]. intros s' Hs. cbn [ldst].
  pose proof (writes_wr_zr true m1 rt (load (bytes size) (mm m1) a) ltac:(unfold gpr in Hrt; lia)) as [E F].
  apply HQ; [exact Hs | | rewrite (fr_v _ _ _ F); exact Hv | rewrite (fr_nzcv _ _ _ F); exact Hn
            | rewrite (fr_mm _ _ _ F); exact Hm|].
  - eapply keeps_trans; [eapply keeps_mono; [|exact Hk]; intros ? [] | apply keeps_frame, F].
  - rewrite E, Hm. apply wrap_small, load_64, Hsz.
Qed.

(** A store of a general register in use, or of XZR. *)
Lemma wp_gpr_store size rt (Q : unit -> asm -> machine -> Prop) :
  0 <= size <= 3 -> gpr_or_zr rt -> free s rt = false ->
  (forall s' m', same_pools s s' -> keeps s [] m m' -> vr m' = vr m -> nzcv m' = nzcv m ->
     mm m' = store (bytes size) (mm m) a (rd_zr true m rt) -> Q tt s' m') ->
  wp (emit_gpr_mem_access cfg tgt 1 o size 0 rt) Q s m.
Proof.
  intros Hsz Hrt Hfr HQ. apply (wp_access false); [exact Hsz | auto | exact Hrt|].
  intros m1 Hk Hv Hn Hm. eexists. split; [reflexivity|]. intros s' Hs. cbn [ldst].
  apply HQ; cbn [set_mm xr vr nzcv mm]; try assumption.
  rewrite Hm. f_equal. unfold rd_zr. destruct (rt =? 31); [reflexivity|].
  rewrite Hk; [reflexivity | unfold gpr_or_zr in Hrt; lia | exact Hfr | intros []].
Qed.

(** The same for a SIMD register. *)
Lemma s16_s16 x : s16 (s16 x) = s16 x.
Proof. apply sgn_small; [lia | apply sgn_range; lia]. Qed.

Lemma fp_access_code size is_load vt :
  is_load = 0 \/ is_load = 1 ->
  emit_fp_mem_access cfg tgt 1 o size is_load vt s =
  (x <- compute_operand_access cfg tgt 1 o size 0 0 ;;
   match enc x with
   | Unscaled9 => emit_fldur_fstur size is_load (s16 (offset x)) (base x) vt
   | _ => emit_ldr_str_imm size (b2z true) is_load (s16 (Z.shiftr (offset x) size)) (base x) vt
   end ;;; free_gpr (base x)) s.
Proof.
  intros Hl. unfold emit_fp_mem_access. unfold bind at 1 3.
  destruct (compute_operand_access cfg tgt 1 o size 0 0 s) as [[x s1]|]; [|reflexivity].
  unfold emit_fldr_imm, emit_fstr_imm. rewrite !s16_s16.
  destruct Hl as [-> | ->]; destruct (enc x); reflexivity.
Qed.

Lemma wp_fp_load size vt (Q : unit -> asm -> machine -> Prop) :
  0 <= size <= 3 -> gpr_or_zr vt ->
  (forall s' m', same_pools s s' -> keeps s [] m m' -> nzcv m' = nzcv m -> mm m' = mm m ->
     vr m' = set_reg (vr m) vt (load (bytes size) (mm m) a) -> Q tt s' m') ->
  wp (emit_fp_mem_access cfg tgt 1 o size 1 vt) Q s m.
Proof.
  intros Hsz Hvt HQ. eapply wp_ext; [symmetry; apply fp_access_code; auto|].
  apply (wp_access true); [exact Hsz | auto | exact Hvt|].
  intros m1 Hk Hv Hn Hm. eexists. split; [reflexivity|]. intros s' Hs.
  apply HQ; cbn [set_vr xr vr nzcv mm]; try assumption. rewrite Hv, Hm. reflexivity.
Qed.

Lemma wp_fp_store size vt (Q : unit -> asm -> machine -> Prop) :
  0 <= size <= 3 -> gpr_or_zr vt ->
  (forall s' m', same_pools s s' -> keeps s [] m m' -> vr m' = vr m -> nzcv m' = nzcv m ->
     mm m' = store (bytes size) (mm m) a (vr m vt) -> Q tt s' m') ->
  wp (emit_fp_mem_access cfg tgt 1 o size 0 vt) Q s m.
Proof.
  intros Hsz Hvt HQ. eapply wp_ext; [symmetry; apply fp_access_code; auto|].
  apply (wp_access true); [exact Hsz | auto | exact Hvt|].
  intros m1 Hk Hv Hn Hm. eexists. split; [reflexivity|]. intros s' Hs.
  apply HQ; cbn [set_mm xr vr nzcv mm]; try assumption. rewrite Hv, Hm. reflexivity.
Qed.
End Access.
