(* ===== verification/TranslatorHelpersProps.v ===== *)
(** What TranslatorHelpers.cpp promises its callers: constants, addresses and
    accesses, as properties of the code it emits when that code runs. *)

From S2P Require Import Prelude F64 GuestMem Emit Assembler A64 IROperand Fpu A64Exec CodeExec.
From S2P Require Import TranslatorHelpers ImmediateProps Pools AccessProps.

(** C20: emit_load_immediate_no_xzr loads every 64-bit constant: whichever of
    the ORR, MOVZ, MOVN and MOVK encodings it picks, the code it appends runs
    to its end with [value] (its low word when is_64bit is 0) in [dst_reg],
    nothing else of the machine changed and no pool register taken. *)
Theorem load_immediate_correct sf v rd s m :
  sf = 0 \/ sf = 1 -> 0 <= v < 2 ^ 64 -> gpr rd ->
  wp (emit_load_immediate_no_xzr sf v rd)
     (fun _ s' m' => same_pools s s' /\ xr m' rd = wrap (if nz sf then 64 else 32) v /\ frame [rd] m m') s m.
Proof.
  intros Hsf Hv Hrd. apply wp_load_immediate_no_xzr; [assumption..|].
  intros s' m' Hs [E F]. auto.
Qed.

(** A machine whose register [r] holds [0x1000 * r], over an empty memory. *)
Definition demo_machine : machine := mkMachine (fun r => 0x1000 * r) (fun r => 7 * r) 0 (fun _ => 0).
Definition demo_asm : asm := mkAsm [] kGprScratchMask kFprScratchMask [] [].

Lemma demo_pool_ok : pool_ok demo_asm.
Proof.
  split; [cbv; congruence|]. intros r Hr. unfold free, scratch.
  destruct (Z.leb_spec 22 r), (Z.ltb_spec r 30); cbn [andb]; auto; intros E; exfalso.
  - assert (H1 : r < 32 \/ 32 <= r) by lia. destruct H1 as [H1|H1].
    + assert (r = 30 \/ r = 31) as [-> | ->] by lia; discriminate E.
    + change (free_gpr_mask demo_asm) with (Z.land kGprScratchMask (Z.ones 32)) in E.
      rewrite Z.land_spec, Z.ones_spec_high, andb_false_r in E by lia. discriminate.
  - revert E. assert (Hall : forallb (fun i => negb (Z.testbit kGprScratchMask i)) (map Z.of_nat (seq 0 22)) = true) by reflexivity.
    rewrite forallb_forall in Hall. intros E. change (free_gpr_mask demo_asm) with kGprScratchMask in E.
    specialize (Hall r). rewrite E in Hall. cbv [negb] in Hall. assert (false = true); [apply Hall | discriminate].
    apply in_map_iff. exists (Z.to_nat r). rewrite in_seq. lia.
  - lia.
Qed.

Lemma load_immediate_correct_witness :
  wp (emit_load_immediate_no_xzr 1 0xDEAD00000000BEEF 22)
     (fun _ s' m' => same_pools demo_asm s' /\ xr m' 22 = 0xDEAD00000000BEEF /\ frame [22] demo_machine m')
     demo_asm demo_machine.
Proof.
  exact (load_immediate_correct 1 0xDEAD00000000BEEF 22 demo_asm demo_machine
    (or_intror eq_refl) ltac:(cbv; split; congruence) ltac:(unfold gpr; lia)).
Defined.

(** C19: compute_operand_address, asked for a register of its choice, puts
    the guest's effective address of a memory operand without a segment
    override - base, scaled index and displacement, at the operand's address
    size - into the register it returns: a guest register left as it is, or a
    pool register it takes and the only one it changes. *)
Theorem operand_address_correct tgt segbase o s m :
  operand_ok o = true -> seg_override o = 0 -> pool_ok s -> free_gpr_mask s <> 0 ->
  wp (compute_operand_address tgt 1 o GPR.XZR)
     (fun r s' m' => u64 (xr m' r) = addr segbase (xr m) o /\ takes s s' r /\ frame [r] m m') s m.
Proof.
  intros Ho Hs Hp Hf. eapply wp_mono; [apply (wp_operand_address tgt segbase); assumption|].
  cbv beta. intros r s' m' (Ht & _ & Ha & Hfr & _). auto.
Qed.

(** [rbx + 4 * rsi - 8] *)
Definition demo_operand : IROperand := mkOperand IROperandKind.MemRef 3 IROperandSize.S64 0 3 0x33 0x36 2 (-8).

Lemma operand_address_correct_witness :
  wp (compute_operand_address (mkTarget 0 0 0) 1 demo_operand GPR.XZR)
     (fun r s' m' => u64 (xr m' r) = 0x3000 + 4 * 0x6000 - 8 /\ takes demo_asm s' r /\ frame [r] demo_machine m')
     demo_asm demo_machine.
Proof.
  exact (operand_address_correct (mkTarget 0 0 0) (fun _ => 0) demo_operand demo_asm demo_machine
    eq_refl eq_refl demo_pool_ok ltac:(discriminate)).
Defined.

(** C21: emit_fp_mem_access moves [2 ^ size] bytes between a SIMD register and
    the guest's address of the operand, through the scaled, the unscaled or
    the computed-address form: a load changes that register only, a store the
    addressed bytes only; the pools are as before, and no general register in
    use has changed. *)
Theorem fp_mem_access_correct cfg tgt segbase o size is_load vt s m :
  operand_ok o = true -> seg_override o = 0 -> pool_ok s -> free_gpr_mask s <> 0 ->
  0 <= size <= 3 -> is_load = 0 \/ is_load = 1 -> gpr_or_zr vt ->
  wp (emit_fp_mem_access cfg tgt 1 o size is_load vt)
     (fun _ s' m' =>
        let a := addr segbase (xr m) o in
        let n := Z.to_nat (2 ^ size) in
        same_pools s s' /\ keeps s [] m m' /\ nzcv m' = nzcv m /\
        if nz is_load then vr m' = set_reg (vr m) vt (load n (mm m) a) /\ mm m' = mm m
        else vr m' = vr m /\ mm m' = store n (mm m) a (vr m vt)) s m.
Proof.
  intros Ho Hs Hp Hf Hsz [-> | ->] Hvt.
  - apply (wp_fp_store cfg tgt segbase o); auto. cbn. auto.
  - apply (wp_fp_load cfg tgt segbase o); auto. cbn. auto.
Qed.

Lemma fp_mem_access_correct_witness :
  wp (emit_fp_mem_access (mkConfig false false false false) (mkTarget 0 0 0) 1 demo_operand 3 0 5)
     (fun _ s' m' => same_pools demo_asm s' /\ keeps demo_asm [] demo_machine m' /\ nzcv m' = 0 /\
        vr m' = vr demo_machine /\ mm m' = store 8 (fun _ => 0) 0x1AFF8 35) demo_asm demo_machine.
Proof.
  exact (fp_mem_access_correct (mkConfig false false false false) (mkTarget 0 0 0) (fun _ => 0) demo_operand
    3 0 5 demo_asm demo_machine eq_refl eq_refl demo_pool_ok ltac:(discriminate) ltac:(lia)
    (or_introl eq_refl) ltac:(unfold gpr_or_zr; lia)).
Defined.

(** C22: emit_gpr_mem_access does the same for a general register: a load
    zero-extends the operand's bytes into the destination, a store writes the
    register's low bytes (zero for XZR). *)
Theorem gpr_mem_access_correct cfg tgt segbase o size rt s m :
  operand_ok o = true -> seg_override o = 0 -> pool_ok s -> free_gpr_mask s <> 0 ->
  0 <= size <= 3 -> gpr_or_zr rt -> free s rt = false ->
  let a := addr segbase (xr m) o in
  let n := Z.to_nat (2 ^ size) in
  (rt <> 31 ->
   wp (emit_gpr_mem_access cfg tgt 1 o size 1 rt)
      (fun _ s' m' => same_pools s s' /\ keeps s [rt] m m' /\ vr m' = vr m /\ nzcv m' = nzcv m /\
                      mm m' = mm m /\ xr m' rt = load n (mm m) a) s m) /\
  wp (emit_gpr_mem_access cfg tgt 1 o size 0 rt)
     (fun _ s' m' => same_pools s s' /\ keeps s [] m m' /\ vr m' = vr m /\ nzcv m' = nzcv m /\
                     mm m' = store n (mm m) a (rd_zr true m rt)) s m.
Proof.
  intros Ho Hs Hp Hf Hsz Hrt Hfr a n. split; [intros Hne|].
  - apply (wp_gpr_load cfg tgt segbase o); auto 10. unfold gpr, gpr_or_zr in *. lia.
  - apply (wp_gpr_store cfg tgt segbase o); auto 10.
Qed.

Lemma gpr_mem_access_correct_witness :
  let m := demo_machine in
  (9 <> 31 ->
   wp (emit_gpr_mem_access (mkConfig false false true false) (mkTarget 0 0 0) 1 demo_operand 2 1 9)
      (fun _ s' m' => same_pools demo_asm s' /\ keeps demo_asm [9] m m' /\ vr m' = vr m /\ nzcv m' = nzcv m /\
                      mm m' = mm m /\ xr m' 9 = 0) demo_asm m) /\
  wp (emit_gpr_mem_access (mkConfig false false true false) (mkTarget 0 0 0) 1 demo_operand 2 0 9)
     (fun _ s' m' => same_pools demo_asm s' /\ keeps demo_asm [] m m' /\ vr m' = vr m /\ nzcv m' = nzcv m /\
                     mm m' = store 4 (mm m) 0x1AFF8 0x9000) demo_asm m.
Proof.
  exact (gpr_mem_access_correct (mkConfig false false true false) (mkTarget 0 0 0) (fun _ => 0) demo_operand
    2 9 demo_asm demo_machine eq_refl eq_refl demo_pool_ok ltac:(discriminate) ltac:(lia)
    ltac:(unfold gpr_or_zr; lia) eq_refl).
Defined.
