(* ===== verification/InsnRules.v ===== *)
(** One rule per emitter for executing what it emits: the machine after the
    instruction, written out.  Proofs about longer sequences apply these one
    after another; [exec_code] does. *)

From S2P Require Import Prelude F64 GuestMem Emit Assembler A64 EmitDecode BitmaskImm Fpu A64Exec CodeExec.
From S2P Require Import TranslatorHelpers X87IREval AccessProps.

Definition put (m : machine) (r v : Z) : machine := set_xr m (set_reg (xr m) r v).
Definition putv (m : machine) (r v : Z) : machine := set_vr m (set_reg (vr m) r v).

(** The register a source operand reads, register 31 being zero. *)
Definition src (m : machine) (r : Z) : Z := if r =? 31 then 0 else xr m r.

Lemma src_gpr m r : gpr r -> src m r = xr m r.
Proof. intros H. unfold src. rewrite gpr_31 by exact H. reflexivity. Qed.

Lemma src_zr m : src m GPR.XZR = 0.
Proof. reflexivity. Qed.

Lemma rd_zr_src sf m r : rd_zr sf m r = wrap (w_of sf) (src m r).
Proof.
  unfold rd_zr, src. destruct (r =? 31); [|reflexivity].
  symmetry. apply wrap_small. destruct sf; cbn; lia.
Qed.

Lemma gpr_zr r : gpr r -> gpr_or_zr r.
Proof. unfold gpr, gpr_or_zr. lia. Qed.

Lemma zr_zr : gpr_or_zr GPR.XZR.
Proof. unfold gpr_or_zr, GPR.XZR. lia. Qed.

Lemma wr_zr_put sf m r v : gpr r -> wr_zr sf m r v = put m r (wrap (w_of sf) v).
Proof. intros H. unfold wr_zr. rewrite gpr_31 by exact H. reflexivity. Qed.

Create HintDb regs.
#[export] Hint Resolve gpr_zr zr_zr : regs.
#[export] Hint Extern 1 (gpr _) => assumption : regs.
#[export] Hint Extern 1 (gpr_or_zr _) => assumption : regs.

(** A rule's proof: the instruction, its fields, its effect. *)
Ltac rule asm_lemma :=
  eapply wp_insn; [apply asm_lemma | unfold step_insn; cbn [branch exec] | eassumption].

Ltac fields :=
  repeat first
    [ rewrite gpr_field by (auto with regs) | rewrite gpr_or_zr_field by (auto with regs)
    | rewrite field63 by lia | rewrite field4095 by lia | rewrite field65535 by lia | rewrite field3 by lia ].

(** The fields that are constants. *)
Ltac consts :=
  repeat match goal with
  | |- context [Z.land (Zpos ?a) (Zpos ?b)] =>
      let c := eval vm_compute in (Z.land (Zpos a) (Zpos b)) in change (Z.land (Zpos a) (Zpos b)) with c
  | |- context [Z.land 0 ?b] => change (Z.land 0 b) with 0
  end;
  change (0 =? 1) with false; change (1 =? 1) with true; change (0 <? 3) with true; change (1 <? 3) with true;
  change (nz 0) with false; change (nz 1) with true;
  cbn [guard andb negb orb w_of].

Section Rules.
Context (Q : unit -> asm -> machine -> Prop) (s : asm) (m : machine).

#[local] Abbreviation after m' := (forall s', same_pools s s' -> Q tt s' m').

(** ** General registers *)

Lemma r_add_imm sf sub imm rn rd :
  gpr rn -> gpr rd -> 0 <= imm < 4096 ->
  after (put m rd (wrap (w_of (nz sf)) (if nz sub then xr m rn - imm else xr m rn + imm))) ->
  wp (emit_add_imm sf sub 0 0 imm rn rd) Q s m.
Proof.
  intros Hn Hd Hi HQ. eapply wp_insn; [apply asm_add_imm; lia| |exact HQ].
  unfold step_insn. cbn [branch exec]. fields. change (nz 0) with false. change (0 <? 2) with true.
  change (0 =? 0) with true. cbn [guard negb andb]. unfold wr_sp, put, rd_sp.
  do 3 f_equal. f_equal. destruct (nz sub); [apply wrap_sub_l | apply wrap_add_l].
Qed.

Lemma r_and7 rn rd :
  gpr rn -> gpr rd -> after (put m rd (Z.land (xr m rn) 7)) -> wp (emit_and_imm 0 rd 0 0 2 rn) Q s m.
Proof.
  intros Hn Hd HQ. pose proof (gpr_31 _ Hn). unfold gpr in Hn, Hd.
  eapply wp_insn; [apply asm_and_imm; unfold GPR.SP; (reflexivity || lia)| |exact HQ].
  unfold step_insn. cbn [branch exec]. rewrite !gpr_field by (unfold gpr; lia).
  change (decode_bit_masks _ _ _ _) with (Some 7). cbn [guard Z.ltb Z.compare].
  unfold logical, wr_sp, put. do 3 f_equal. f_equal. rewrite rd_zr_src, src_gpr by (unfold gpr; lia).
  change (nz 0) with false. cbn [w_of]. rewrite !wrap_land, <- !Z.land_assoc by lia. f_equal.
Qed.

Lemma r_bitfield sf opc r i rn rd :
  gpr_or_zr rn -> gpr rd -> 0 <= opc < 3 -> 0 <= r < w_of (nz sf) -> 0 <= i < w_of (nz sf) ->
  after (put m rd (wrap (w_of (nz sf))
    (bitfield (w_of (nz sf)) opc r i (wrap (w_of (nz sf)) (xr m rd)) (wrap (w_of (nz sf)) (src m rn))))) ->
  wp (emit_bitfield sf opc (b2z (nz sf)) r i rn rd) Q s m.
Proof.
  intros Hn Hd Ho Hr Hi HQ. assert (Hw : w_of (nz sf) <= 64) by (destruct (nz sf); cbn; lia).
  eapply wp_insn; [apply asm_bitfield| |exact HQ].
  unfold step_insn. cbn [branch exec]. fields.
  replace (Z.land (b2z (nz sf)) 1) with (b2z (nz sf)) by (destruct (nz sf); reflexivity).
  rewrite Z.eqb_refl. replace (opc <? 3) with true by (symmetry; apply Z.ltb_lt; lia).
  replace (r <? _) with true by (symmetry; apply Z.ltb_lt; lia).
  replace (i <? _) with true by (symmetry; apply Z.ltb_lt; lia).
  cbn [guard andb]. rewrite wr_zr_put, !rd_zr_src, (src_gpr m rd) by exact Hd. reflexivity.
Qed.

Lemma r_movz imm rd :
  gpr rd -> 0 <= imm < 65536 -> after (put m rd imm) -> wp (emit_movn 0 2 0 imm rd) Q s m.
Proof.
  intros Hd Hi HQ. eapply wp_insn; [apply asm_movn| |exact HQ].
  unfold step_insn. cbn [branch exec]. fields. rewrite wr_zr_put by exact Hd. cbn [Z.land Pos.land].
  unfold guard. cbn [negb andb orb Z.eqb Pos.eqb Z.ltb Z.compare Pos.compare Pos.compare_cont].
  unfold move_wide. rewrite Z.shiftl_0_r. change (nz 0) with false. cbn [orb w_of]. do 2 f_equal. f_equal. apply wrap_small. cbn. lia.
Qed.

Lemma r_lslv rm rn rd :
  gpr rm -> gpr rn -> gpr rd ->
  after (put m rd (u32 (Z.shiftl (u32 (xr m rn)) (u32 (xr m rm) mod 32)))) ->
  wp (emit_lslv 0 rm rn rd) Q s m.
Proof.
  intros Hm Hn Hd HQ. eapply wp_insn; [apply asm_lslv| |exact HQ].
  unfold step_insn. cbn [branch exec]. fields. rewrite wr_zr_put, !rd_zr_src, !src_gpr by assumption.
  reflexivity.
Qed.

(** ORR, AND and BIC with a left-shifted operand. *)
Lemma r_orr rm n rn rd :
  gpr_or_zr rm -> gpr_or_zr rn -> gpr rd -> 0 <= n < 32 ->
  after (put m rd (Z.lor (u32 (src m rn)) (u32 (Z.shiftl (src m rm) n)))) ->
  wp (emit_logical_shifted_reg 0 1 0 0 rm n rn rd) Q s m.
Proof.
  intros Hm Hn Hd Hi HQ. eapply wp_insn; [apply asm_logical_shifted_reg| |exact HQ].
  unfold step_insn. cbn [branch exec]. fields. consts.
  replace (n <? 32) with true by (symmetry; apply Z.ltb_lt; lia). consts.
  rewrite wr_zr_put, !rd_zr_src by exact Hd. unfold logical, shift_reg. cbn [w_of Z.eqb].
  rewrite wrap_shiftl by lia. rewrite wrap_lor, !wrap_wrap by lia. reflexivity.
Qed.

Lemma r_and rm n rn rd :
  gpr_or_zr rm -> gpr_or_zr rn -> gpr rd -> 0 <= n < 32 ->
  after (put m rd (Z.land (u32 (src m rn)) (u32 (Z.shiftl (src m rm) n)))) ->
  wp (emit_logical_shifted_reg 0 0 0 0 rm n rn rd) Q s m.
Proof.
  intros Hm Hn Hd Hi HQ. eapply wp_insn; [apply asm_logical_shifted_reg| |exact HQ].
  unfold step_insn. cbn [branch exec]. fields. consts.
  replace (n <? 32) with true by (symmetry; apply Z.ltb_lt; lia). consts.
  rewrite wr_zr_put, !rd_zr_src by exact Hd. unfold logical, shift_reg. cbn [w_of Z.eqb].
  rewrite wrap_shiftl by lia. do 2 f_equal. f_equal. apply wrap_small, land_bound; [lia | apply wrap_range; lia].
Qed.

Lemma r_bic rm n rn rd :
  gpr_or_zr rm -> gpr_or_zr rn -> gpr rd -> 0 <= n < 32 ->
  after (put m rd (Z.land (u32 (src m rn)) (unot 32 (u32 (Z.shiftl (src m rm) n))))) ->
  wp (emit_logical_shifted_reg 0 0 1 0 rm n rn rd) Q s m.
Proof.
  intros Hm Hn Hd Hi HQ. eapply wp_insn; [apply asm_logical_shifted_reg| |exact HQ].
  unfold step_insn. cbn [branch exec]. fields. consts.
  replace (n <? 32) with true by (symmetry; apply Z.ltb_lt; lia). consts.
  rewrite wr_zr_put, !rd_zr_src by exact Hd. unfold logical, shift_reg. cbn [w_of Z.eqb].
  rewrite wrap_shiftl by lia. do 2 f_equal. f_equal. rewrite Z.land_comm.
  apply wrap_small, land_bound; [lia | apply wrap_range; lia].
Qed.

(** ORR with a right-shifted operand. *)
Lemma r_orr_lsr rm n rn rd :
  gpr rm -> gpr rn -> gpr rd -> 0 <= n < 32 ->
  after (put m rd (Z.lor (u32 (xr m rn)) (Z.shiftr (u32 (xr m rm)) n))) ->
  wp (emit_logical_shifted_reg 0 1 0 1 rm n rn rd) Q s m.
Proof.
  intros Hm Hn Hd Hi HQ. eapply wp_insn; [apply asm_logical_shifted_reg| |exact HQ].
  unfold step_insn. cbn [branch exec]. fields. consts.
  replace (n <? 32) with true by (symmetry; apply Z.ltb_lt; lia). consts.
  rewrite wr_zr_put, !rd_zr_src, !src_gpr by assumption. unfold logical, shift_reg. cbn [w_of Z.eqb].
  do 2 f_equal. f_equal. apply wrap_small, lor_bound; [lia | apply wrap_range; lia|].
  pose proof (wrap_range 32 (xr m rm) ltac:(lia)). split; [apply Z.shiftr_nonneg; lia|].
  apply Z.le_lt_trans with (u32 (xr m rm)); [|lia]. rewrite Z.shiftr_div_pow2 by lia.
  apply Z.div_le_upper_bound; [apply Z.pow_pos_nonneg; lia|]. pose proof (Z.pow_pos_nonneg 2 n). nia.
Qed.

Lemma r_mov_reg sf rd rn :
  gpr rn -> gpr rd -> after (put m rd (wrap (w_of (nz sf)) (xr m rn))) -> wp (emit_mov_reg sf rd rn) Q s m.
Proof.
  intros Hn Hd HQ. unfold emit_mov_reg.
  replace ((rd =? GPR.SP) || (rn =? GPR.SP)) with false
    by (symmetry; apply orb_false_iff; split; apply Z.eqb_neq; unfold gpr, GPR.SP in *; lia).
  eapply wp_insn; [apply asm_logical_shifted_reg| |exact HQ].
  unfold step_insn. cbn [branch exec]. fields. cbn [Z.land Pos.land].
  replace (0 <? w_of (nz sf)) with true by (destruct (nz sf); reflexivity).
  change (reg GPR.XZR) with 31. cbn [guard andb Z.ltb Z.compare Z.eqb].
  rewrite wr_zr_put, !rd_zr_src, (src_gpr m rn) by assumption.
  change (src m 31) with 0. unfold logical, shift_reg. rewrite Z.shiftl_0_r, Z.lor_comm.
  rewrite (wrap_small _ 0) by (destruct (nz sf); cbn; lia). rewrite Z.lor_0_r, !wrap_wrap by (destruct (nz sf); cbn; lia).
  reflexivity.
Qed.

Lemma r_cset cond rd :
  gpr rd -> 0 <= cond < 14 ->
  after (put m rd (b2z (a64_cond cond (nzcv m)))) -> wp (emit_cset 0 cond rd) Q s m.
Proof.
  intros Hd Hc HQ. eapply wp_insn; [apply asm_cset; lia| |exact HQ].
  unfold step_insn. cbn [branch exec]. fields. rewrite wr_zr_put by exact Hd.
  change (rd_zr (nz 0) m 31) with 0. do 2 f_equal. f_equal.
  assert (E : a64_cond (Z.land (Z.lxor cond 1) 15) (nzcv m) = negb (a64_cond cond (nzcv m))).
  { assert (In cond [0;1;2;3;4;5;6;7;8;9;10;11;12;13]) as H.
    { cbn. lia. }
    cbn in H. unfold a64_cond. repeat destruct H as [<-|H]; try destruct H; cbn;
      rewrite ?negb_involutive; reflexivity. }
  rewrite E. destruct (a64_cond cond (nzcv m)); reflexivity.
Qed.

Lemma r_mrs rd : gpr rd -> after (put m rd (u32 (nzcv m))) -> wp (emit_mrs_nzcv rd) Q s m.
Proof.
  intros Hd HQ. eapply wp_insn; [apply asm_mrs_nzcv| |exact HQ].
  unfold step_insn. cbn [branch exec]. fields. rewrite wr_zr_put by exact Hd.
  do 2 f_equal. f_equal. apply (wrap_64_small false).
Qed.

Lemma r_msr rt :
  gpr rt -> after (set_nzcv m (Z.land (u64 (xr m rt)) 0xFC000000)) -> wp (emit_msr_nzcv rt) Q s m.
Proof.
  intros Hd HQ. eapply wp_insn; [apply asm_msr_nzcv| |exact HQ].
  unfold step_insn. cbn [branch exec]. fields. rewrite rd_zr_src, src_gpr by exact Hd. reflexivity.
Qed.

(** ** Memory *)

Lemma r_ldr size imm rn rt :
  gpr rn -> gpr rt -> 0 <= size <= 3 -> 0 <= imm < 4096 ->
  after (put m rt (load (Z.to_nat (2 ^ size)) (mm m) (u64 (xr m rn + Z.shiftl imm size)))) ->
  wp (emit_ldr_str_imm size 0 1 imm rn rt) Q s m.
Proof.
  intros Hn Hd Hs Hi HQ. eapply wp_insn; [apply asm_ldr_str_imm; lia| |exact HQ].
  unfold step_insn. cbn [branch exec]. fields.
  replace (size =? 4) with false by (symmetry; apply Z.eqb_neq; lia).
  change (nz 0) with false. change (Z.land 1 3) with 1. unfold ldst. rewrite wr_zr_put by exact Hd.
  rewrite rd_sp_addr, wrap_add_l. cbn [w_of]. do 2 f_equal. f_equal. apply wrap_small, load_64, Hs.
Qed.

(** LDRSH into a W register. *)
Lemma r_ldrsh imm rn rt :
  gpr rn -> gpr rt -> 0 <= imm < 4096 ->
  after (put m rt (u32 (s16 (load 2 (mm m) (u64 (xr m rn + Z.shiftl imm 1)))))) ->
  wp (emit_ldr_str_imm 1 0 3 imm rn rt) Q s m.
Proof.
  intros Hn Hd Hi HQ. eapply wp_insn; [apply asm_ldr_str_imm; lia| |exact HQ].
  unfold step_insn. cbn [branch exec]. fields.
  change (1 =? 4) with false. change (nz 0) with false. change (Z.land 3 3) with 3. unfold ldst.
  change (1 <? 2) with true. rewrite wr_zr_put by exact Hd. rewrite rd_sp_addr, wrap_add_l. reflexivity.
Qed.

Lemma r_str size imm rn rt :
  gpr rn -> gpr_or_zr rt -> 0 <= size <= 3 -> 0 <= imm < 4096 ->
  after (set_mm m (store (Z.to_nat (2 ^ size)) (mm m) (u64 (xr m rn + Z.shiftl imm size)) (u64 (src m rt)))) ->
  wp (emit_ldr_str_imm size 0 0 imm rn rt) Q s m.
Proof.
  intros Hn Hd Hs Hi HQ. eapply wp_insn; [apply asm_ldr_str_imm; lia| |exact HQ].
  unfold step_insn. cbn [branch exec]. fields.
  replace (size =? 4) with false by (symmetry; apply Z.eqb_neq; lia).
  change (nz 0) with false. change (Z.land 0 3) with 0. unfold ldst.
  rewrite rd_sp_addr, wrap_add_l, rd_zr_src. reflexivity.
Qed.

Lemma r_fldr size imm rn rt :
  gpr rn -> gpr_or_zr rt -> 0 <= size <= 3 -> 0 <= imm < 4096 ->
  after (putv m rt (load (Z.to_nat (2 ^ size)) (mm m) (u64 (xr m rn + Z.shiftl imm size)))) ->
  wp (emit_fldr_imm size rt rn imm) Q s m.
Proof.
  intros Hn Hd Hs Hi HQ. unfold emit_fldr_imm. rewrite (sgn_small 16) by lia.
  eapply wp_insn; [apply asm_ldr_str_imm; lia| |exact HQ].
  unfold step_insn. cbn [branch exec]. fields.
  replace (size =? 4) with false by (symmetry; apply Z.eqb_neq; lia).
  change (nz 1) with true. change (Z.land 1 3) with 1. unfold ldst.
  rewrite rd_sp_addr, wrap_add_l. reflexivity.
Qed.

Lemma r_fstr size imm rn rt :
  gpr rn -> gpr_or_zr rt -> 0 <= size <= 3 -> 0 <= imm < 4096 ->
  after (set_mm m (store (Z.to_nat (2 ^ size)) (mm m) (u64 (xr m rn + Z.shiftl imm size)) (vr m rt))) ->
  wp (emit_fstr_imm size rt rn imm) Q s m.
Proof.
  intros Hn Hd Hs Hi HQ. unfold emit_fstr_imm. rewrite (sgn_small 16) by lia.
  eapply wp_insn; [apply asm_ldr_str_imm; lia| |exact HQ].
  unfold step_insn. cbn [branch exec]. fields.
  replace (size =? 4) with false by (symmetry; apply Z.eqb_neq; lia).
  change (nz 1) with true. change (Z.land 0 3) with 0. unfold ldst.
  rewrite rd_sp_addr, wrap_add_l. reflexivity.
Qed.

(** LDR and STR of a double at a base and an index, scaled by 8 or not. *)
Lemma r_fldr_reg rm (scaled : bool) rn rt :
  gpr rm -> gpr rn -> gpr_or_zr rt ->
  after (putv m rt (load 8 (mm m) (u64 (xr m rn + Z.shiftl (u64 (xr m rm)) (if scaled then 3 else 0))))) ->
  wp (emit_ldr_str_reg 3 1 1 rm (b2z scaled) rn rt) Q s m.
Proof.
  intros Hm Hn Hd HQ. eapply wp_insn; [apply asm_ldr_str_reg; lia| |exact HQ].
  unfold step_insn. cbn [branch exec]. fields. cbn [Z.land Pos.land Z.eqb Pos.eqb Z.testbit Pos.testbit guard].
  change (nz 1) with true. replace (nz (b2z scaled)) with scaled by (destruct scaled; reflexivity).
  unfold ldst, extend_reg. change (wrap (8 * 2 ^ (3 mod 4))) with (wrap 64). cbn [Z.ltb Z.compare Pos.compare Pos.compare_cont].
  rewrite rd_sp_addr, wrap_add_l, rd_zr_src, src_gpr by exact Hm. cbn [w_of]. rewrite (wrap_wrap 64) by lia. reflexivity.
Qed.

Lemma r_fstr_reg rm (scaled : bool) rn rt :
  gpr rm -> gpr rn -> gpr_or_zr rt ->
  after (set_mm m (store 8 (mm m) (u64 (xr m rn + Z.shiftl (u64 (xr m rm)) (if scaled then 3 else 0))) (vr m rt))) ->
  wp (emit_ldr_str_reg 3 1 0 rm (b2z scaled) rn rt) Q s m.
Proof.
  intros Hm Hn Hd HQ. eapply wp_insn; [apply asm_ldr_str_reg; lia| |exact HQ].
  unfold step_insn. cbn [branch exec]. fields. cbn [Z.land Pos.land Z.eqb Pos.eqb Z.testbit Pos.testbit guard].
  change (nz 1) with true. replace (nz (b2z scaled)) with scaled by (destruct scaled; reflexivity).
  unfold ldst, extend_reg. change (wrap (8 * 2 ^ (3 mod 4))) with (wrap 64). cbn [Z.ltb Z.compare Pos.compare Pos.compare_cont].
  rewrite rd_sp_addr, wrap_add_l, rd_zr_src, src_gpr by exact Hm. cbn [w_of]. rewrite (wrap_wrap 64) by lia. reflexivity.
Qed.
End Rules.

(** ** SIMD registers *)

Definition f_of (type : Z) : fmt := if type =? 1 then f64 else f32.

Lemma fmt_of_01 type : type = 0 \/ type = 1 -> fmt_of (Z.land type 3) = Some (f_of type).
Proof. intros [-> | ->]; reflexivity. Qed.

Lemma wr_v_putv f m r v : wr_v f m r v = putv m r (wrap (size f) v).
Proof. reflexivity. Qed.

Section FpRules.
Context (Q : unit -> asm -> machine -> Prop) (s : asm) (m : machine).

#[local] Abbreviation after m' := (forall s', same_pools s s' -> Q tt s' m').
#[local] Abbreviation sz f := (F64.size f).

Lemma r_fp2 type op rd rn rm v :
  type = 0 \/ type = 1 -> 0 <= op < 16 -> gpr_or_zr rd -> gpr_or_zr rn -> gpr_or_zr rm ->
  fp2 op (f_of type) (wrap (sz (f_of type)) (vr m rn)) (wrap (sz (f_of type)) (vr m rm)) = Some v ->
  after (putv m rd (wrap (sz (f_of type)) v)) -> wp (emit_fp_dp2 type op rd rn rm) Q s m.
Proof.
  intros Ht Ho Hd Hn Hm E HQ. eapply wp_insn; [apply asm_fp_dp2| |exact HQ].
  unfold step_insn. cbn [branch exec]. rewrite fmt_of_01 by exact Ht. fields.
  replace (Z.land op 15) with op by (symmetry; apply (field_small 4); lia).
  unfold rd_v. rewrite E. reflexivity.
Qed.

Lemma r_fp3 type o1 o0 rd rn rm ra :
  type = 0 \/ type = 1 -> o1 = 0 \/ o1 = 1 -> o0 = 0 \/ o0 = 1 ->
  gpr_or_zr rd -> gpr_or_zr rn -> gpr_or_zr rm -> gpr_or_zr ra ->
  after (putv m rd (wrap (sz (f_of type)) (fp3 (o1 =? 1) (o0 =? 1) (f_of type)
    (wrap (sz (f_of type)) (vr m rn)) (wrap (sz (f_of type)) (vr m rm)) (wrap (sz (f_of type)) (vr m ra))))) ->
  wp (emit_fp_dp3 type o1 o0 rd rn rm ra) Q s m.
Proof.
  intros Ht H1 H0 Hd Hn Hm Ha HQ. eapply wp_insn; [apply asm_fp_dp3| |exact HQ].
  unfold step_insn. cbn [branch exec]. rewrite fmt_of_01 by exact Ht. fields.
  replace (Z.land o1 1) with o1 by (destruct H1 as [-> | ->]; reflexivity).
  replace (Z.land o0 1) with o0 by (destruct H0 as [-> | ->]; reflexivity). reflexivity.
Qed.

Lemma r_fp1 type op rd rn v :
  type = 0 \/ type = 1 -> 0 <= op < 64 -> op <> 4 -> op <> 5 -> gpr_or_zr rd -> gpr_or_zr rn ->
  fp1 op (f_of type) (wrap (sz (f_of type)) (vr m rn)) = Some v ->
  after (putv m rd (wrap (sz (f_of type)) v)) -> wp (emit_fp_dp1 type op rd rn) Q s m.
Proof.
  intros Ht Ho N4 N5 Hd Hn E HQ. eapply wp_insn; [apply asm_fp_dp1| |exact HQ].
  unfold step_insn. cbn [branch exec]. rewrite fmt_of_01 by exact Ht. fields.
  rewrite (proj2 (Z.eqb_neq op 4)), (proj2 (Z.eqb_neq op 5)) by assumption.
  unfold rd_v. rewrite E. reflexivity.
Qed.

Lemma r_fcvt_s_to_d rd rn :
  gpr_or_zr rd -> gpr_or_zr rn -> after (putv m rd (u64 (widen (u32 (vr m rn))))) -> wp (emit_fcvt_s_to_d rd rn) Q s m.
Proof.
  intros Hd Hn HQ. eapply wp_insn; [apply asm_fcvt| |exact HQ].
  unfold step_insn. cbn [branch exec]. fields. reflexivity.
Qed.

Lemma r_fcvt_d_to_s rd rn :
  gpr_or_zr rd -> gpr_or_zr rn -> after (putv m rd (u32 (narrow (u64 (vr m rn))))) -> wp (emit_fcvt_d_to_s rd rn) Q s m.
Proof.
  intros Hd Hn HQ. eapply wp_insn; [apply asm_fcvt| |exact HQ].
  unfold step_insn. cbn [branch exec]. fields. reflexivity.
Qed.

Lemma r_fcsel rd rn rm cond :
  gpr_or_zr rd -> gpr_or_zr rn -> gpr_or_zr rm -> 0 <= cond < 16 ->
  after (putv m rd (u64 (if a64_cond cond (nzcv m) then u64 (vr m rn) else u64 (vr m rm)))) ->
  wp (emit_fcsel_f64 rd rn rm cond) Q s m.
Proof.
  intros Hd Hn Hm Hc HQ. eapply wp_insn; [apply asm_fcsel_f64| |exact HQ].
  unfold step_insn. cbn [branch exec]. fields.
  replace (Z.land cond 15) with cond by (symmetry; apply (field_small 4); lia). reflexivity.
Qed.

Lemma r_movi rd : gpr_or_zr rd -> after (putv m rd 0) -> wp (emit_movi_d_zero rd) Q s m.
Proof.
  intros Hd HQ. eapply wp_insn; [apply asm_movi_d_zero| |exact HQ].
  unfold step_insn. cbn [branch exec]. fields. reflexivity.
Qed.

Lemma r_fmov_one rd : gpr_or_zr rd -> after (putv m rd f_one) -> wp (emit_fmov_d_one rd) Q s m.
Proof.
  intros Hd HQ. eapply wp_insn; [apply asm_fmov_d_one| |exact HQ].
  unfold step_insn. cbn [branch exec]. fields. reflexivity.
Qed.

Lemma r_fmov_imm rd imm :
  gpr_or_zr rd -> 0 <= imm < 256 -> after (putv m rd (u64 (fp_expand_imm imm))) -> wp (emit_fmov_d_imm8 rd imm) Q s m.
Proof.
  intros Hd Hi HQ. eapply wp_insn; [apply asm_fmov_d_imm8| |exact HQ].
  unfold step_insn. cbn [branch exec]. fields.
  replace (Z.land imm 255) with imm by (symmetry; apply (field_small 8); lia). reflexivity.
Qed.

Lemma r_scvtf sf rd rn :
  sf = 0 \/ sf = 1 -> gpr_or_zr rd -> gpr rn ->
  after (putv m rd (u64 (of_int f64 (sgn (w_of (nz sf)) (xr m rn))))) -> wp (emit_scvtf sf 1 rd rn) Q s m.
Proof.
  intros Hs Hd Hn HQ. eapply wp_insn; [apply asm_scvtf| |exact HQ].
  unfold step_insn. cbn [branch exec]. fields. unfold fp_int. change (fmt_of (Z.land 1 3)) with (Some f64).
  change (0 =? 0) with true. rewrite rd_zr_src, src_gpr by exact Hn.
  assert (E : forall w x, 0 <= w -> sgn w (wrap w x) = sgn w x) by (intros; unfold sgn; rewrite wrap_wrap by lia; reflexivity).
  rewrite E by (destruct (nz sf); cbn; lia). reflexivity.
Qed.

Lemma r_scvtf_d rd rn :
  gpr_or_zr rd -> gpr_or_zr rn ->
  after (putv m rd (u64 (of_int f64 (s64 (vr m rn))))) -> wp (emit_scvtf_d_from_d rd rn) Q s m.
Proof.
  intros Hd Hn HQ. eapply wp_insn; [apply asm_scvtf_d_from_d| |exact HQ].
  unfold step_insn. cbn [branch exec]. fields. unfold rd_v. change (F64.size f64) with 64.
  assert (E : s64 (u64 (vr m rn)) = s64 (vr m rn)) by (unfold sgn; rewrite wrap_wrap by lia; reflexivity).
  rewrite E. reflexivity.
Qed.

Lemma r_fcvt_int sf rmode rd rn :
  sf = 0 \/ sf = 1 -> 0 <= rmode < 4 -> gpr rd -> gpr_or_zr rn ->
  after (put m rd (wrap (w_of (nz sf)) (fcvt_int (rmode_of rmode) (w_of (nz sf)) f64 (u64 (vr m rn))))) ->
  wp (emit_fcvt_fp_to_int sf 1 rmode rd rn) Q s m.
Proof.
  intros Hs Hr Hd Hn HQ. eapply wp_insn; [apply asm_fcvt_fp_to_int| |exact HQ].
  unfold step_insn. cbn [branch exec]. fields. unfold fp_int. change (fmt_of 1) with (Some f64).
  cbv iota beta. rewrite wr_zr_put by assumption. reflexivity.
Qed.

Lemma r_fcmp rn rm :
  gpr_or_zr rn -> gpr_or_zr rm ->
  after (set_nzcv m (Z.lor (bits (nzcv m) 0 28) (fp_flags (fcompare f64 (u64 (vr m rn)) (u64 (vr m rm)))))) ->
  wp (emit_fcmp_f64 rn rm) Q s m.
Proof.
  intros Hn Hm HQ. eapply wp_insn; [apply asm_fp_cmp| |exact HQ].
  unfold step_insn. cbn [branch exec]. fields. reflexivity.
Qed.

Lemma r_fcmp_zero rn :
  gpr_or_zr rn ->
  after (set_nzcv m (Z.lor (bits (nzcv m) 0 28) (fp_flags (fcompare f64 (u64 (vr m rn)) f_zero)))) ->
  wp (emit_fcmp_zero_f64 rn) Q s m.
Proof.
  intros Hn HQ. eapply wp_insn; [apply asm_fcmp_zero_f64| |exact HQ].
  unfold step_insn. cbn [branch exec]. fields. reflexivity.
Qed.

Lemma r_ldr_literal rd c :
  gpr_or_zr rd -> 0 <= c < 2 ^ 64 -> after (putv m rd c) -> wp (emit_ldr_literal_f64 rd c) Q s m.
Proof.
  intros Hd Hc HQ. apply wp_ldr_literal; [exact Hc|]. intros s' P. fields.
  rewrite wr_v_putv, wrap_small by exact Hc. apply HQ, P.
Qed.

(** LDP and STP of doubles and singles. *)
Lemma r_ldp_d imm rn v1 v2 :
  gpr rn -> gpr_or_zr v1 -> gpr_or_zr v2 -> -64 <= imm < 64 ->
  after (let a := u64 (xr m rn + 8 * imm) in
         putv (putv m v1 (load 8 (mm m) a)) v2 (load 8 (mm m) (a + 8))) ->
  wp (emit_fldp_fstp_d 1 imm rn v1 v2) Q s m.
Proof.
  intros Hn H1 H2 Hi HQ. eapply wp_insn; [apply asm_fldp_fstp_d| |exact HQ].
  unfold step_insn. cbn [branch exec]. fields.
  replace (sgn 7 (Z.land imm 0x7F)) with imm.
  - cbn [Z.land Pos.land]. change (1 =? 1) with true. cbn [guard Z.ltb Z.compare Pos.compare Pos.compare_cont].
    rewrite rd_sp_addr, wrap_add_l, Z.shiftl_mul_pow2 by lia. unfold ldp_stp.
    change (Z.of_nat (Z.to_nat (4 * 2 ^ 1))) with 8. change (Z.to_nat (4 * 2 ^ 1)) with 8%nat.
    replace (imm * 2 ^ (2 + 1)) with (8 * imm) by lia. reflexivity.
  - change 0x7F with (Z.ones 7). rewrite Z.land_ones by lia. change (imm mod 2 ^ 7) with (wrap 7 imm).
    unfold sgn at 1. rewrite wrap_wrap by lia. symmetry. apply (sgn_small 7); lia.
Qed.

Lemma r_stp_d imm rn v1 v2 :
  gpr rn -> gpr_or_zr v1 -> gpr_or_zr v2 -> -64 <= imm < 64 ->
  after (let a := u64 (xr m rn + 8 * imm) in
         set_mm m (store 8 (store 8 (mm m) a (vr m v1)) (a + 8) (vr m v2))) ->
  wp (emit_fldp_fstp_d 0 imm rn v1 v2) Q s m.
Proof.
  intros Hn H1 H2 Hi HQ. eapply wp_insn; [apply asm_fldp_fstp_d| |exact HQ].
  unfold step_insn. cbn [branch exec]. fields.
  replace (sgn 7 (Z.land imm 0x7F)) with imm.
  - cbn [Z.land Pos.land]. change (0 =? 1) with false. cbn [guard Z.ltb Z.compare Pos.compare Pos.compare_cont].
    rewrite rd_sp_addr, wrap_add_l, Z.shiftl_mul_pow2 by lia. unfold ldp_stp.
    change (Z.of_nat (Z.to_nat (4 * 2 ^ 1))) with 8. change (Z.to_nat (4 * 2 ^ 1)) with 8%nat.
    replace (imm * 2 ^ (2 + 1)) with (8 * imm) by lia. reflexivity.
  - change 0x7F with (Z.ones 7). rewrite Z.land_ones by lia. change (imm mod 2 ^ 7) with (wrap 7 imm).
    unfold sgn at 1. rewrite wrap_wrap by lia. symmetry. apply (sgn_small 7); lia.
Qed.
End FpRules.

(** ** Executing a sequence

    [exec_code] runs the rules over a sequence of emitters; the machine
    accumulates its updates, read back by [regs]. *)

Ltac pools :=
  lazymatch goal with
  | |- same_pools ?a ?a => apply same_pools_refl
  | H : same_pools ?b ?c |- same_pools ?a ?c => apply same_pools_trans with b; [|exact H]; clear H; pools
  end.

Ltac side := first [solve [auto with regs] | lia | cbn; lia].

(** Reading a register of an updated machine. *)
Ltac regs :=
  repeat first
    [ progress (unfold put, putv, set_xr, set_vr, set_mm, set_nzcv)
    | progress cbn [xr vr mm nzcv]
    | rewrite set_reg_eq
    | rewrite set_reg_ne by (assumption || (apply not_eq_sym; assumption) || (unfold gpr, gpr_or_zr in *; lia))
    | rewrite src_zr
    | rewrite src_gpr by (solve [auto with regs]) ].

Ltac exec_insn :=
  lazymatch goal with
  | |- wp (bind _ _) _ _ _ => apply wp_bind
  | |- wp (ret _) _ _ _ => apply wp_ret
  | |- wp (emit_add_imm _ _ 0 0 _ _ _) _ _ _ => apply r_add_imm; [side..|]; intros ? ?; regs
  | |- wp (emit_and_imm 0 _ 0 0 2 _) _ _ _ => apply r_and7; [side..|]; intros ? ?; regs
  | |- wp (emit_bitfield 0 ?o 0 ?r ?i ?n ?d) ?Q ?s ?m =>
      apply (r_bitfield Q s m 0 o r i n d); [side..|]; intros ? ?; regs
  | |- wp (emit_bitfield 1 ?o 1 ?r ?i ?n ?d) ?Q ?s ?m =>
      apply (r_bitfield Q s m 1 o r i n d); [side..|]; intros ? ?; regs
  | |- wp (emit_movn 0 2 0 _ _) _ _ _ => apply r_movz; [side..|]; intros ? ?; regs
  | |- wp (emit_lslv 0 _ _ _) _ _ _ => apply r_lslv; [side..|]; intros ? ?; regs
  | |- wp (emit_logical_shifted_reg 0 1 0 0 _ _ _ _) _ _ _ => apply r_orr; [side..|]; intros ? ?; regs
  | |- wp (emit_logical_shifted_reg 0 0 0 0 _ _ _ _) _ _ _ => apply r_and; [side..|]; intros ? ?; regs
  | |- wp (emit_logical_shifted_reg 0 0 1 0 _ _ _ _) _ _ _ => apply r_bic; [side..|]; intros ? ?; regs
  | |- wp (emit_logical_shifted_reg 0 1 0 1 _ _ _ _) _ _ _ => apply r_orr_lsr; [side..|]; intros ? ?; regs
  | |- wp (emit_mov_reg _ _ _) _ _ _ => apply r_mov_reg; [side..|]; intros ? ?; regs
  | |- wp (emit_cset 0 _ _) _ _ _ => apply r_cset; [side..|]; intros ? ?; regs
  | |- wp (emit_mrs_nzcv _) _ _ _ => apply r_mrs; [side..|]; intros ? ?; regs
  | |- wp (emit_msr_nzcv _) _ _ _ => apply r_msr; [side..|]; intros ? ?; regs
  | |- wp (emit_ldr_str_imm _ 0 1 _ _ _) _ _ _ => apply r_ldr; [side..|]; intros ? ?; regs
  | |- wp (emit_ldr_str_imm _ 0 0 _ _ _) _ _ _ => apply r_str; [side..|]; intros ? ?; regs
  | |- wp (emit_fldr_imm _ _ _ _) _ _ _ => apply r_fldr; [side..|]; intros ? ?; regs
  | |- wp (emit_fstr_imm _ _ _ _) _ _ _ => apply r_fstr; [side..|]; intros ? ?; regs
  | |- wp (emit_ldr_str_reg 3 1 1 _ 1 _ _) ?Q ?s ?m => apply (r_fldr_reg Q s m _ true); [side..|]; intros ? ?; regs
  | |- wp (emit_ldr_str_reg 3 1 1 _ 0 _ _) ?Q ?s ?m => apply (r_fldr_reg Q s m _ false); [side..|]; intros ? ?; regs
  | |- wp (emit_ldr_str_reg 3 1 0 _ 1 _ _) ?Q ?s ?m => apply (r_fstr_reg Q s m _ true); [side..|]; intros ? ?; regs
  | |- wp (emit_ldr_str_reg 3 1 0 _ 0 _ _) ?Q ?s ?m => apply (r_fstr_reg Q s m _ false); [side..|]; intros ? ?; regs
  | |- wp (emit_fcmp_f64 _ _) _ _ _ => apply r_fcmp; [side..|]; intros ? ?; regs
  | |- wp (emit_fcmp_zero_f64 _) _ _ _ => apply r_fcmp_zero; [side..|]; intros ? ?; regs
  | |- wp (emit_fcvt_fp_to_int _ 1 _ _ _) _ _ _ => apply r_fcvt_int; [side..|]; intros ? ?; regs
  end.

Ltac exec_code := repeat exec_insn.

(** Only the general registers of [l] and the memory change. *)
Record changes (l : list Z) (m m' : machine) : Prop := mkChanges {
  ch_x : forall r, ~ In r l -> xr m' r = xr m r;
  ch_v : vr m' = vr m;
  ch_nzcv : nzcv m' = nzcv m
}.

Lemma changes_refl l m : changes l m m.
Proof. split; auto. Qed.

Lemma changes_trans l m m1 m2 : changes l m m1 -> changes l m1 m2 -> changes l m m2.
Proof. intros [a b c] [a' b' c']. split; try congruence. intros r Hr. rewrite a', a; auto. Qed.

Lemma changes_mono l l' m m' : (forall r, In r l -> In r l') -> changes l m m' -> changes l' m m'.
Proof. intros H [a b c]. split; auto. Qed.

Lemma changes_mm l m m' f : changes l m m' -> changes l m (set_mm m' f).
Proof. intros [a b c]. split; cbn; auto. Qed.

(** The updates of a machine, all to registers of the list. *)
Ltac untouched :=
  let r := fresh "r" in let Hr := fresh "Hr" in
  intros r Hr; cbn in Hr; cbv beta delta [put putv set_xr set_vr set_mm set_nzcv]; cbn [xr vr nzcv mm]; repeat (rewrite set_reg_ne by intuition congruence); reflexivity.

Ltac chg := split; [untouched | reflexivity | reflexivity].

Ltac frm := split; [untouched | reflexivity | reflexivity | reflexivity].

Lemma frame_changes l m m' : frame l m m' -> changes l m m'.
Proof. intros [a b c d]. split; assumption. Qed.
