(* ===== verification/X87Helpers.v ===== *)
(** TranslatorX87Helpers.cpp: the code sequences over the x87 state in the
    thread context: its base address, TOP, the tag word, the register file,
    condition codes and the rounding-mode dispatch. *)

From S2P Require Import Prelude Emit Assembler IROperand TranslatorHelpers.

Definition kX87StatusWordOff : Z := 2.
Definition kX87ControlWordOff : Z := 0.
Definition kX87TagWordOff : Z := 4.
Definition kX87RegFileOff : Z := 8.
Definition kX87StatusWordImm12 : Z := 1.
Definition kX87TagWordImm12 : Z := 2.
Definition kX87ThreadReg : Z := X18.
Definition kX87TopShift : Z := 11.

(** ** Base address and TOP *)

Definition emit_x87_base (tgt : Target) (Xd : Z) : M unit :=
  let offset := x87_state_offset tgt in
  if offset <=? 0xFFF then emit_add_imm 1 0 0 0 offset kX87ThreadReg Xd
  else if Z.land offset 0xFFF =? 0 then emit_add_imm 1 0 0 1 (Z.shiftr offset 12) kX87ThreadReg Xd
  else
    emit_add_imm 1 0 0 1 (Z.shiftr offset 12) kX87ThreadReg Xd ;;;
    emit_add_imm 1 0 0 0 (Z.land offset 0xFFF) Xd Xd.

Definition emit_load_top (tgt : Target) (Xbase Wd_top : Z) : M unit :=
  let sw_byte_off := u32 (x87_state_offset tgt + kX87StatusWordOff) in
  let use_x18_direct := (Z.land sw_byte_off 1 =? 0) && (sw_byte_off <=? 0x1FFE) in
  let base_reg := if use_x18_direct then kX87ThreadReg else Xbase in
  let imm12 := if use_x18_direct then s16 (sw_byte_off / 2) else kX87StatusWordImm12 in
  emit_ldr_str_imm 1 0 1 imm12 base_reg Wd_top ;;;
  emit_bitfield 0 2 0 kX87TopShift (kX87TopShift + 2) Wd_top Wd_top.

Definition emit_store_top (Xbase Wd_new_top Wd_tmp : Z) : M unit :=
  emit_ldr_str_imm 1 0 1 kX87StatusWordImm12 Xbase Wd_tmp ;;;
  emit_bitfield 0 1 0 21 2 Wd_new_top Wd_tmp ;;;
  emit_ldr_str_imm 1 0 0 kX87StatusWordImm12 Xbase Wd_tmp.

Definition emit_phys_index (Wd_top stack_depth Wd_out : Z) : M unit :=
  if stack_depth =? 0 then
    if Wd_out =? Wd_top then ret tt else emit_mov_reg 0 Wd_out Wd_top
  else
    emit_add_imm 0 0 0 0 stack_depth Wd_top Wd_out ;;;
    emit_and_imm 0 Wd_out 0 0 2 Wd_out.

(** ** The register file *)

(** The byte offset of ST(i), for the path without a cached file base. *)
Definition emit_st_offset (Wd_top stack_depth Wd_tmp : Z) : M unit :=
  emit_phys_index Wd_top stack_depth Wd_tmp ;;;
  emit_bitfield 0 2 0 29 28 Wd_tmp Wd_tmp ;;;
  emit_add_imm 0 0 0 0 kX87RegFileOff Wd_tmp Wd_tmp.

Definition emit_load_st (Xbase Wd_top stack_depth Wd_tmp Dd Xbase_st : Z) : M Z :=
  if 0 <=? Xbase_st then
    if stack_depth =? 0 then emit_ldr_str_reg 3 1 1 Wd_top 1 Xbase_st Dd ;;; ret Wd_top
    else
      emit_phys_index Wd_top stack_depth Wd_tmp ;;;
      emit_ldr_str_reg 3 1 1 Wd_tmp 1 Xbase_st Dd ;;;
      ret Wd_tmp
  else
    emit_st_offset Wd_top stack_depth Wd_tmp ;;;
    emit_ldr_str_reg 3 1 1 Wd_tmp 0 Xbase Dd ;;;
    ret Wd_tmp.

Definition emit_store_st (Xbase Wd_top stack_depth Wd_tmp Dd Xbase_st : Z) : M unit :=
  if 0 <=? Xbase_st then
    if stack_depth =? 0 then emit_ldr_str_reg 3 1 0 Wd_top 1 Xbase_st Dd
    else
      emit_phys_index Wd_top stack_depth Wd_tmp ;;;
      emit_ldr_str_reg 3 1 0 Wd_tmp 1 Xbase_st Dd
  else
    emit_st_offset Wd_top stack_depth Wd_tmp ;;;
    emit_ldr_str_reg 3 1 0 Wd_tmp 0 Xbase Dd.

Definition emit_store_st_at_offset (Xbase Wd_key Dd Xbase_st : Z) : M unit :=
  if 0 <=? Xbase_st then emit_ldr_str_reg 3 1 0 Wd_key 1 Xbase_st Dd
  else emit_ldr_str_reg 3 1 0 Wd_key 0 Xbase Dd.

(** ** Push and pop *)

(** [Wd_top = (Wd_top -+ n) & 7] *)
Definition emit_top_add (is_sub n Wd_top : Z) : M unit :=
  emit_add_imm 0 is_sub 0 0 n Wd_top Wd_top ;;;
  emit_and_imm 0 Wd_top 0 0 2 Wd_top.

(** [mask = 3 << (Wd_idx * 2)] in [Wd_mask], through [Wd_pos]. *)
Definition emit_tag_mask (Wd_idx Wd_pos Wd_mask : Z) : M unit :=
  emit_bitfield 0 2 0 31 30 Wd_idx Wd_pos ;;;
  emit_movn 0 2 0 3 Wd_mask ;;;
  emit_lslv 0 Wd_pos Wd_mask Wd_mask.

(** [tagWord |= mask] or [tagWord &= ~mask]. *)
Definition emit_tag_update (set_empty : bool) (Xbase Wd_mask Wd_tag : Z) : M unit :=
  emit_ldr_str_imm 1 0 1 kX87TagWordImm12 Xbase Wd_tag ;;;
  (if set_empty then emit_logical_shifted_reg 0 1 0 0 Wd_mask 0 Wd_tag Wd_tag
   else emit_logical_shifted_reg 0 0 1 0 Wd_mask 0 Wd_tag Wd_tag) ;;;
  emit_ldr_str_imm 1 0 0 kX87TagWordImm12 Xbase Wd_tag.

Definition emit_x87_tag_clear (Xbase Wd_top Wd_tmp Wd_tmp2 : Z) : M unit :=
  emit_tag_mask Wd_top Wd_tmp2 Wd_tmp ;;;
  emit_tag_update false Xbase Wd_tmp Wd_tmp2.

Definition emit_x87_push (Xbase Wd_top Wd_tmp Wd_tmp2 : Z) : M unit :=
  emit_top_add 1 1 Wd_top ;;;
  emit_store_top Xbase Wd_top Wd_tmp ;;;
  emit_tag_mask Wd_top Wd_tmp2 Wd_tmp ;;;
  emit_tag_update false Xbase Wd_tmp Wd_tmp2.

Definition emit_x87_push_deferred (Xbase Wd_top Wd_tmp Wd_tmp2 : Z) : M unit :=
  emit_top_add 1 1 Wd_top ;;;
  emit_tag_mask Wd_top Wd_tmp2 Wd_tmp ;;;
  emit_tag_update false Xbase Wd_tmp Wd_tmp2.

Definition emit_x87_pop_deferred (Xbase Wd_top Wd_tmp Wd_tmp2 : Z) : M unit :=
  emit_tag_mask Wd_top Wd_tmp2 Wd_tmp ;;;
  emit_tag_update true Xbase Wd_tmp Wd_tmp2 ;;;
  emit_top_add 0 1 Wd_top.

Definition emit_x87_pop (Xbase Wd_top Wd_tmp Wd_tmp2 : Z) : M unit :=
  emit_tag_mask Wd_top Wd_tmp2 Wd_tmp ;;;
  emit_tag_update true Xbase Wd_tmp Wd_tmp2 ;;;
  emit_top_add 0 1 Wd_top ;;;
  emit_store_top Xbase Wd_top Wd_tmp.

Definition emit_x87_pop_n_deferred (Xbase Wd_top Wd_tmp Wd_tmp2 n : Z) : M unit :=
  for_ 0 (Z.to_nat n) (fun i =>
    (if i =? 0 then emit_bitfield 0 2 0 31 30 Wd_top Wd_tmp2
     else
       emit_add_imm 0 0 0 0 i Wd_top Wd_tmp2 ;;;
       emit_and_imm 0 Wd_tmp2 0 0 2 Wd_tmp2 ;;;
       emit_bitfield 0 2 0 31 30 Wd_tmp2 Wd_tmp2) ;;;
    emit_movn 0 2 0 3 Wd_tmp ;;;
    emit_lslv 0 Wd_tmp2 Wd_tmp Wd_tmp ;;;
    emit_tag_update true Xbase Wd_tmp Wd_tmp2) ;;;
  emit_top_add 0 n Wd_top.

Definition emit_x87_pop_n (Xbase Wd_top Wd_tmp Wd_tmp2 n : Z) : M unit :=
  emit_x87_pop_n_deferred Xbase Wd_top Wd_tmp Wd_tmp2 n ;;;
  emit_store_top Xbase Wd_top Wd_tmp.

Definition emit_x87_push_fully_deferred (Wd_top : Z) : M unit := emit_top_add 1 1 Wd_top.
Definition emit_x87_pop_top_only (Wd_top : Z) : M unit := emit_top_add 0 1 Wd_top.

Definition emit_x87_tag_set_empty_batch (Xbase Wd_top Wd_tmp Wd_tmp2 Wd_tagw count : Z) : M unit :=
  emit_ldr_str_imm 1 0 1 kX87TagWordImm12 Xbase Wd_tagw ;;;
  for_ 0 (Z.to_nat count) (fun i =>
    emit_add_imm 0 1 0 0 (count - i) Wd_top Wd_tmp ;;;
    emit_and_imm 0 Wd_tmp 0 0 2 Wd_tmp ;;;
    emit_bitfield 0 2 0 31 30 Wd_tmp Wd_tmp ;;;
    emit_movn 0 2 0 3 Wd_tmp2 ;;;
    emit_lslv 0 Wd_tmp Wd_tmp2 Wd_tmp2 ;;;
    emit_logical_shifted_reg 0 1 0 0 Wd_tmp2 0 Wd_tagw Wd_tagw) ;;;
  emit_ldr_str_imm 1 0 0 kX87TagWordImm12 Xbase Wd_tagw.

Definition emit_x87_tag_set_valid_batch (Xbase Wd_top Wd_tmp Wd_tmp2 Wd_tagw count : Z) : M unit :=
  emit_ldr_str_imm 1 0 1 kX87TagWordImm12 Xbase Wd_tagw ;;;
  emit_bitfield 0 2 0 31 30 Wd_top Wd_tmp ;;;
  let mask := u16 (u32 (Z.shiftl 1 (2 * count)) - 1) in
  emit_movn 0 2 0 mask Wd_tmp2 ;;;
  emit_lslv 0 Wd_tmp Wd_tmp2 Wd_tmp2 ;;;
  emit_logical_shifted_reg 0 1 0 1 Wd_tmp2 16 Wd_tmp2 Wd_tmp2 ;;;
  emit_logical_shifted_reg 0 0 1 0 Wd_tmp2 0 Wd_tagw Wd_tagw ;;;
  emit_ldr_str_imm 1 0 0 kX87TagWordImm12 Xbase Wd_tagw.

(** ** Condition codes *)

Definition emit_fcom_flags_to_sw (Xbase Wd_tmp1 Wd_tmp2 : Z) : M unit :=
  emit_mrs_nzcv Wd_tmp1 ;;;
  emit_bitfield 0 2 0 21 31 Wd_tmp1 Wd_tmp2 ;;;
  emit_and_imm 0 Wd_tmp2 0 24 0 Wd_tmp2 ;;;
  emit_bitfield 0 2 0 16 31 Wd_tmp1 Wd_tmp1 ;;;
  emit_bitfield 0 1 0 18 0 Wd_tmp1 Wd_tmp2 ;;;
  emit_bitfield 0 2 0 12 12 Wd_tmp1 Wd_tmp1 ;;;
  emit_bitfield 0 1 0 22 0 Wd_tmp1 Wd_tmp2 ;;;
  emit_ldr_str_imm 1 0 1 kX87StatusWordImm12 Xbase Wd_tmp1 ;;;
  emit_bitfield 0 1 0 24 2 GPR.XZR Wd_tmp1 ;;;
  emit_bitfield 0 1 0 18 0 GPR.XZR Wd_tmp1 ;;;
  emit_logical_shifted_reg 0 1 0 0 Wd_tmp2 0 Wd_tmp1 Wd_tmp1 ;;;
  emit_ldr_str_imm 1 0 0 kX87StatusWordImm12 Xbase Wd_tmp1.

(** The three CSETs and the packing around the restore of NZCV, if any. *)
Definition emit_cc_csets (Wd_cc Wd_vs Wd_result : Z) : M unit :=
  emit_cset 0 3 Wd_cc ;;;
  emit_cset 0 6 Wd_vs ;;;
  emit_cset 0 0 Wd_result.

Definition emit_cc_packing (Wd_cc Wd_vs Wd_result : Z) : M unit :=
  emit_logical_shifted_reg 0 1 0 0 Wd_vs 0 Wd_cc Wd_cc ;;;
  emit_logical_shifted_reg 0 1 0 0 Wd_vs 0 Wd_result Wd_result ;;;
  emit_bitfield 0 2 0 24 23 Wd_cc Wd_cc ;;;
  emit_logical_shifted_reg 0 1 0 0 Wd_vs 10 Wd_cc Wd_cc ;;;
  emit_logical_shifted_reg 0 1 0 0 Wd_result 14 Wd_cc Wd_result.

Definition emit_fcom_cc_pack (Wd_result Wd_save : Z) : M unit :=
  Wd_cc <- alloc_free_gpr ;;
  Wd_vs <- alloc_free_gpr ;;
  emit_cc_csets Wd_cc Wd_vs Wd_result ;;;
  emit_msr_nzcv Wd_save ;;;
  free_gpr Wd_save ;;;
  emit_cc_packing Wd_cc Wd_vs Wd_result ;;;
  free_gpr Wd_vs ;;;
  free_gpr Wd_cc.

Definition emit_fcom_cc_pack_hoisted (Wd_result : Z) : M unit :=
  Wd_cc <- alloc_free_gpr ;;
  Wd_vs <- alloc_free_gpr ;;
  emit_cc_csets Wd_cc Wd_vs Wd_result ;;;
  emit_cc_packing Wd_cc Wd_vs Wd_result ;;;
  free_gpr Wd_vs ;;;
  free_gpr Wd_cc.

Definition emit_fcom_cc_write_sw_keep (Xbase Wd_packed : Z) : M Z :=
  Wd_sw <- alloc_free_gpr ;;
  emit_ldr_str_imm 1 0 1 kX87StatusWordImm12 Xbase Wd_sw ;;;
  emit_bitfield 0 1 0 24 2 GPR.XZR Wd_sw ;;;
  emit_bitfield 0 1 0 18 0 GPR.XZR Wd_sw ;;;
  emit_logical_shifted_reg 0 1 0 0 Wd_packed 0 Wd_sw Wd_sw ;;;
  emit_ldr_str_imm 1 0 0 kX87StatusWordImm12 Xbase Wd_sw ;;;
  ret Wd_sw.

Definition emit_fcom_cc_write_sw (Xbase Wd_packed : Z) : M unit :=
  Wd_sw <- emit_fcom_cc_write_sw_keep Xbase Wd_packed ;;
  free_gpr Wd_sw.

(** ** Rounding-mode dispatch *)

Definition emit_x87_rc_dispatch_fcvt (Wd_rc Wd_int Dd_val is_64bit_int : Z) : M unit :=
  emit_tbz 1 1 Wd_rc 5 ;;;
  emit_fcvt_fp_to_int is_64bit_int 1 0 Wd_int Dd_val ;;;
  emit_tbz 0 0 Wd_rc 6 ;;;
  emit_fcvt_fp_to_int is_64bit_int 1 2 Wd_int Dd_val ;;;
  emit_b 4 ;;;
  emit_fcvt_fp_to_int is_64bit_int 1 1 Wd_int Dd_val ;;;
  emit_tbz 0 0 Wd_rc 2 ;;;
  emit_fcvt_fp_to_int is_64bit_int 1 3 Wd_int Dd_val.

Definition emit_x87_rc_dispatch_frint (Wd_rc Dd Dn : Z) : M unit :=
  emit_tbz 1 1 Wd_rc 6 ;;;
  emit_tbz 1 0 Wd_rc 3 ;;;
  emit_fp_dp1 1 8 Dd Dn ;;;
  emit_b 7 ;;;
  emit_fp_dp1 1 10 Dd Dn ;;;
  emit_b 5 ;;;
  emit_tbz 1 0 Wd_rc 3 ;;;
  emit_fp_dp1 1 9 Dd Dn ;;;
  emit_b 2 ;;;
  emit_fp_dp1 1 11 Dd Dn.

(** ** The deferred permutation *)

(** One cycle of [perm], from [i]: at most eight steps; the visited slots. *)
Fixpoint emit_perm_cycle (fuel : nat) (Xbase Wd_top Wd_tmp : Z) (perm : list Z)
    (Xst_base Dd_save Dd_chain i j : Z) (visited : list Z) : M (list Z) :=
  let next := zget perm j in
  if next =? i then emit_store_st Xbase Wd_top j Wd_tmp Dd_save Xst_base ;;; ret visited
  else
    match fuel with
    | O => fun _ => None
    | S fuel =>
        _ <- emit_load_st Xbase Wd_top next Wd_tmp Dd_chain Xst_base ;;
        emit_store_st Xbase Wd_top j Wd_tmp Dd_chain Xst_base ;;;
        emit_perm_cycle fuel Xbase Wd_top Wd_tmp perm Xst_base Dd_save Dd_chain i next (next :: visited)
    end.

Fixpoint emit_perm_cycles (order : list Z) (Xbase Wd_top Wd_tmp : Z) (perm : list Z)
    (Xst_base Dd_save Dd_chain : Z) (visited : list Z) : M unit :=
  match order with
  | [] => ret tt
  | i :: order =>
      if existsb (Z.eqb i) visited || (zget perm i =? i) then
        emit_perm_cycles order Xbase Wd_top Wd_tmp perm Xst_base Dd_save Dd_chain visited
      else
        _ <- emit_load_st Xbase Wd_top i Wd_tmp Dd_save Xst_base ;;
        visited <- emit_perm_cycle 8 Xbase Wd_top Wd_tmp perm Xst_base Dd_save Dd_chain i i
                     (i :: visited) ;;
        emit_perm_cycles order Xbase Wd_top Wd_tmp perm Xst_base Dd_save Dd_chain visited
  end.

Definition emit_x87_perm_flush (Xbase Wd_top Wd_tmp : Z) (perm : list Z)
    (Xst_base Dd_save Dd_chain : Z) : M unit :=
  emit_perm_cycles [0; 1; 2; 3; 4; 5; 6; 7] Xbase Wd_top Wd_tmp perm Xst_base Dd_save Dd_chain [].
