(* ===== verification/X87BridgeDemand.v ===== *)
(** X87BridgeDemand.cpp: how many scratch registers Rosetta's own translation
    of an instruction between two x87 groups may need at once.  One function
    per family of opcodes replays the handler's helper calls; an instruction
    no family covers is refused. *)

From S2P Require Import Prelude IROperand.

Import FlagLiveness.

(** ** Cost and Seq: the composition of helper calls *)

(** The most temporaries live inside a helper, and those live when it
    returns; both int8_t. *)
Record Cost := mkCost { peak : Z; held : Z }.

Record Seq := mkSeq { running : Z; seq_peak : Z }.

Definition Seq_init : Seq := mkSeq 0 0.

Definition step (s : Seq) (c : Cost) : Seq :=
  let p := running s + peak c in
  mkSeq (running s + held c) (if seq_peak s <? p then p else seq_peak s).

Definition free (s : Seq) (n : Z) : Seq := mkSeq (running s - n) (seq_peak s).

Definition demand (s : Seq) : Z := seq_peak s.

(** ** Shape tests on an operand *)

Definition has_kind (k : Z) (o : IROperand) : bool := kind o =? k.

#[local] Abbreviation is_reg := (has_kind IROperandKind.Register).
#[local] Abbreviation is_mem := (has_kind IROperandKind.MemRef).
#[local] Abbreviation is_abs := (has_kind IROperandKind.AbsMem).
#[local] Abbreviation is_imm := (has_kind IROperandKind.Immediate).
#[local] Abbreviation is_branch := (has_kind IROperandKind.BranchOffset).
#[local] Abbreviation is_size o s := (op_size o =? s).

(** [op.kind == Register && (size == S32 || size == S64)] *)
Definition arch_reg (o : IROperand) : bool :=
  is_reg o && (is_size o IROperandSize.S32 || is_size o IROperandSize.S64).

Definition has_base (o : IROperand) : bool := nz (Z.land (mem_flags o) 1).
Definition has_index (o : IROperand) : bool := nz (Z.land (mem_flags o) 2).

Definition none : Cost := mkCost 0 0.
Definition one : Cost := mkCost 1 1.

(** ** The shared helpers *)

Definition disp_add_encodable (d : Z) : bool :=
  let d := if d <? 0 then - d else d in
  if d <=? 0xFFF then true else (Z.land d 0xFFF =? 0) && (Z.shiftr d 12 <=? 0xFFF).

Definition addr_cost (op : IROperand) (fresh_dst : bool) : Cost :=
  let result := if fresh_dst then 1 else 0 in
  if is_mem op then
    if has_base op && has_index op then mkCost 2 result
    else if has_index op then mkCost 2 result
    else if has_base op then
      if disp op =? 0 then none
      else if disp_add_encodable (disp op) then mkCost result result
      else mkCost (s8 (1 + result)) result
    else mkCost 1 result
  else if is_abs op then mkCost 1 result
  else if is_imm op then mkCost 2 result
  else none.

Definition alloc_dst_gpr_cost (dst : IROperand) : Cost := if arch_reg dst then none else one.

Definition read_to_gpr_cost (src : IROperand) (hint_is_arch : bool) : Cost :=
  if is_reg src then if hint_is_arch then none else one
  else if is_imm src then if hint_is_arch then none else one
  else if is_mem src || is_abs src then
    let addr := addr_cost src false in
    if hint_is_arch then mkCost (peak addr) 0 else mkCost (s8 (1 + peak addr)) 1
  else one.

Definition write_to_operand_cost (dst : IROperand) : Cost :=
  if is_reg dst then none else mkCost (peak (addr_cost dst true)) 0.

Definition read_xmm_gpr_cost (src : IROperand) : Cost :=
  if is_reg src then none else mkCost (peak (addr_cost src true)) 1.

Definition lockable_rmw (op : Z) : bool :=
  existsb (Z.eqb op)
    [kOpcodeName.add; kOpcodeName.sub; kOpcodeName.and; kOpcodeName.or; kOpcodeName.xor; kOpcodeName.adc;
     kOpcodeName.sbb; kOpcodeName.inc; kOpcodeName.dec; kOpcodeName.neg; kOpcodeName.not; kOpcodeName.xchg].

(** ** family: mov, movnti *)

Definition ldst_disp_encodable (disp size : Z) : bool :=
  let size_log2 := if size <=? 3 then size else 3 in
  let u := u64 disp in
  if (Z.shiftr u size_log2 <=? 0xFFF) && (u64 (Z.shiftl (Z.shiftr u size_log2) size_log2) =? u) then true
  else (- 0x100 <=? disp) && (disp <=? 0xFF).

Definition mov_prefetch_allocs (m : IROperand) : Z :=
  if has_base m && negb (has_index m) then if ldst_disp_encodable (disp m) (op_size m) then 0 else 1
  else if has_base m && has_index m && (disp m =? 0) &&
          ((shift_amount m =? 0) || (shift_amount m =? op_size m)) then 0
  else if negb (has_base m) && has_index m && (disp m =? 0) && (shift_amount m =? 0) then 0
  else 1.

(** A prefetch with 32-bit addressing always takes one register. *)
Definition prefetch_allocs (m : IROperand) : Z :=
  if addr_size m =? IROperandSize.S32 then 1 else s8 (mov_prefetch_allocs m).

Definition mov_read_cost (src : IROperand) (hint_is_arch : bool) : Cost :=
  if is_reg src then
    if negb hint_is_arch && (Z.shiftr (reg src) 4 =? 1) then one else none
  else if is_imm src then mkCost 2 1
  else if is_mem src then
    if negb hint_is_arch then one
    else let a := prefetch_allocs src in mkCost a a
  else if is_abs src then one
  else if (value src =? 0) || hint_is_arch then none else one.

Definition mov_write_cost (dst : IROperand) : Cost :=
  if is_reg dst then none
  else if is_mem dst then mkCost (prefetch_allocs dst) 0
  else if is_abs dst then mkCost 1 0
  else if is_imm dst then mkCost 2 0
  else none.

Definition demand_mov_movnti (instr : IRInstr) : Z :=
  let dst := operand instr 0 in
  let src := operand instr 1 in
  if is_reg dst && is_size dst IROperandSize.S16 && is_branch src then 0
  else
    let hint_is_arch := arch_reg dst in
    let seq := step Seq_init (mov_read_cost src hint_is_arch) in
    demand (step seq (mov_write_cost dst)).

(** ** family: lea *)

Definition lea_addr_peak_arch (src : IROperand) : Z :=
  if is_mem src then
    let has_disp := negb (disp src =? 0) in
    if has_base src && has_index src then b2z has_disp
    else if has_index src then b2z has_disp
    else if has_base src then b2z (has_disp && negb (disp_add_encodable (disp src)))
    else 0
  else if is_abs src then 0
  else if is_imm src then b2z (Z.land (mem_flags src) 1 =? 0)
  else 0.

Definition demand_lea (instr : IRInstr) : Z :=
  let dst := operand instr 0 in
  let src := operand instr 1 in
  let seq :=
    if arch_reg dst then step (step Seq_init none) (mkCost (lea_addr_peak_arch src) 0)
    else
      let seq := step Seq_init one in
      if is_imm src && (Z.land (mem_flags src) 1 =? 0) then step seq (mkCost 1 0) else step seq none in
  demand (step seq none).

(** ** family: movss, movsd *)

Definition movs_write_mem_cost (dst : IROperand) : Cost :=
  if is_mem dst then let a := prefetch_allocs dst in mkCost a a
  else if is_abs dst then one
  else if is_imm dst then mkCost 2 1
  else none.

Definition movs_read_xmm_cost (src : IROperand) : Cost :=
  if is_mem src then let a := prefetch_allocs src in mkCost a a
  else if is_abs src then one
  else if is_imm src then mkCost 2 1
  else none.

Definition demand_sse_mov_scalar (instr : IRInstr) : Z :=
  let op0 := operand instr 0 in
  let op1 := operand instr 1 in
  let flush := is_reg op0 && (Z.land (reg op0) 0xF0 =? 0x90) in
  if negb (is_reg op0) then demand (step Seq_init (movs_write_mem_cost op0))
  else
    let seq := if negb (is_reg op1) then step Seq_init (movs_read_xmm_cost op1) else Seq_init in
    demand (if flush then step seq (mkCost (s8 (if is_imm op1 then 2 else 1)) 0) else seq).

(** ** family: add, sub, and, or, xor, cmp *)

Definition alu_reg_read_allocs (regop : IROperand) (em_nonzero is_64bit : bool) : bool :=
  let cls := Z.shiftr (reg regop) 4 in
  if cls =? 1 then true
  else if negb em_nonzero then false
  else if (cls =? 0) || (cls =? 2) then true
  else if cls =? 3 then is_64bit
  else false.

(** The do/while that halves [i]; from 64 it runs at most five times. *)
Fixpoint shrink (fuel : nat) (value i : Z) : Z :=
  match fuel with
  | O => i
  | S fuel =>
      let v4 := Z.shiftr i 1 in
      let i := Z.land i (unot 32 1) in
      if nz (Z.land (Z.lxor (Z.shiftr value v4) value) (unot 64 (u64 (Z.shiftl (Z.ones 64) v4)))) then i
      else if 2 <? v4 then shrink fuel value v4 else v4
  end.

(** [(((v7 - 1) | v7) + 1) & ((v7 - 1) | v7)] is zero. *)
Definition ones_run (v7 : Z) : bool :=
  let w := Z.lor (u64 (v7 - 1)) v7 in Z.land (u64 (w + 1)) w =? 0.

(** The count of the right shift is [(unsigned)(-(char)i)]: a 64-bit shift
    takes it modulo 64. *)
Definition alu_is_bitmask_immediate (is_64bit : bool) (value : Z) : bool :=
  let go value i :=
    let i := shrink 6 value i in
    let v6 := Z.shiftr (Z.ones 64) (Z.land (u32 (- s8 i)) 63) in
    let v7 := Z.land v6 value in
    if nz v7 && ones_run v7 then true
    else
      let v7 := Z.land v6 (unot 64 value) in
      negb ((v7 =? 0) || negb (ones_run v7)) in
  if is_64bit then if u64 (value + 1) <? 2 then false else go value 64
  else if u32 (u64 (value + 1)) <? 2 then false else go (u32 value) 32.

Definition alu_addimm_encodable (value : Z) : bool :=
  if value <? 0x1000 then true
  else if Z.land value 0xFFFFFFFFFF000FFF =? 0 then true
  else
    let neg := u64 (- s64 value) in
    if neg <? 0x1000 then true else Z.land neg 0xFFFFFFFFFF000FFF =? 0.

Definition alu_read_cost (op : IROperand) (em_nonzero is_64bit : bool) : Cost :=
  if is_reg op then if alu_reg_read_allocs op em_nonzero is_64bit then one else none
  else if is_mem op || is_abs op then one
  else if is_imm op then mkCost 2 1
  else if is_branch op then if value op =? 0 then none else one
  else one.

Definition alu_write_op0_cost (dst : IROperand) : Cost :=
  if is_reg dst then none
  else if is_mem dst then mkCost (prefetch_allocs dst) 0
  else if is_abs dst then mkCost 1 0
  else if is_imm dst then mkCost 2 0
  else none.

(** [fl & mask] *)
Definition live (instr : IRInstr) (mask : Z) : bool := nz (Z.land (flag_liveness instr) mask).

Definition sign_clear (o : IROperand) : bool := Z.land (u64 (value o)) 0x8000000000000000 =? 0.

Definition alu_extend_nonzero (op : Z) (instr : IRInstr) (src : IROperand) : bool :=
  if op =? kOpcodeName.add then live instr (Z.lor FLAG_OF FLAG_CF)
  else if (op =? kOpcodeName.sub) || (op =? kOpcodeName.cmp) then
    live instr (Z.lor (Z.lor FLAG_OF FLAG_CF) FLAG_ZF)
  else if (op =? kOpcodeName.or) || (op =? kOpcodeName.xor) then live instr FLAG_SF
  else if op =? kOpcodeName.and then
    if flag_liveness instr <? FLAG_OF then false
    else negb (is_branch src && sign_clear src)
  else false.

Definition is_mem_or_abs (o : IROperand) : bool := is_mem o || is_abs o.

Definition demand_alu_binary (instr : IRInstr) : Z :=
  let dst := operand instr 0 in
  let src := operand instr 1 in
  let op := opcode instr in
  let is_cmp := op =? kOpcodeName.cmp in
  let logical := (op =? kOpcodeName.and) || (op =? kOpcodeName.or) || (op =? kOpcodeName.xor) in
  let is_64bit := is_size dst IROperandSize.S64 in
  if (op =? kOpcodeName.xor) && is_reg dst && is_reg src && (reg dst =? reg src) then 0
  else
    let em_nonzero := alu_extend_nonzero op instr src in
    let second_read :=
      if is_mem_or_abs src then true
      else if is_reg src then
        if logical then true
        else let cls := Z.shiftr (reg src) 4 in negb (cls =? 0) && negb (cls =? 2)
      else if is_imm src then true
      else if is_branch src then
        let v := u64 (value src) in
        negb (if logical then alu_is_bitmask_immediate is_64bit v else alu_addimm_encodable v)
      else false in
    if negb is_cmp && is_imm dst then
      5 + (if second_read then peak (alu_read_cost src em_nonzero is_64bit) else 0)
    else
      let seq :=
        if is_cmp then
          let cmp_small := is_reg dst && (op_size dst <=? IROperandSize.S16) in
          let mask := Z.lor (Z.lor (Z.lor (Z.lor FLAG_AF FLAG_PF_LO) FLAG_OF) FLAG_SF) 0x1 in
          let t := s8 (b2z (cmp_small && live instr mask)) in
          step Seq_init (mkCost t t)
        else if arch_reg dst then step Seq_init none
        else step Seq_init one in
      let seq := step seq (alu_read_cost dst em_nonzero is_64bit) in
      let seq :=
        if second_read then
          let seq := step seq (alu_read_cost src em_nonzero is_64bit) in
          if negb (is_mem_or_abs dst) then free seq 1 else seq
        else seq in
      demand
        (if negb is_cmp then
           let seq := if negb (is_mem_or_abs dst) then free seq 1 else seq in
           step seq (alu_write_op0_cost dst)
         else seq).

(** ** family: adc, sbb *)

Definition demand_adc_sbb (instr : IRInstr) : Z :=
  let op := opcode instr in
  let dst := operand instr 0 in
  let src := operand instr 1 in
  let is_64bit := is_size dst IROperandSize.S64 in
  let em_nonzero := live instr (Z.lor FLAG_OF FLAG_CF) in
  let sbb_aliased := (op =? kOpcodeName.sbb) && is_reg dst && is_reg src && (reg dst =? reg src) in
  let second_read :=
    if op =? kOpcodeName.sbb then negb sbb_aliased
    else nz (flag_liveness instr) || negb (is_branch src) || negb (value src =? 0) in
  if is_imm dst then
    5 + (if second_read then peak (alu_read_cost src em_nonzero is_64bit) else 0)
  else if sbb_aliased then
    demand (step (step Seq_init (if arch_reg dst then none else one)) none)
  else
    let seq := step Seq_init (if arch_reg dst then none else one) in
    let seq := step seq (alu_read_cost dst em_nonzero is_64bit) in
    let seq :=
      if second_read then
        let seq := step seq (alu_read_cost src em_nonzero is_64bit) in
        if negb (is_mem_or_abs dst) then free seq 1 else seq
      else seq in
    let seq := if negb (is_mem_or_abs dst) then free seq 1 else seq in
    demand (step seq (alu_write_op0_cost dst)).

(** ** family: movzx, movsx, movsxd *)

Definition movext_read_cost (src : IROperand) (hint_is_arch : bool) : Cost :=
  if is_reg src then none
  else if is_mem src then
    if negb hint_is_arch then none else let a := prefetch_allocs src in mkCost a a
  else if is_abs src then if hint_is_arch then one else none
  else if hint_is_arch then mkCost 2 1 else one.

Definition demand_movzx_movsx_movsxd (instr : IRInstr) : Z :=
  let dst := operand instr 0 in
  let src := operand instr 1 in
  let hint_is_arch := arch_reg dst in
  let seq := step Seq_init (if hint_is_arch then none else one) in
  demand (step (step seq (movext_read_cost src hint_is_arch)) none).

(** ** family: push, pop and their sized forms *)

Definition push_read_cost (src : IROperand) : Cost :=
  if is_reg src then if is_size src IROperandSize.S16 then one else none
  else if is_mem src || is_abs src then one
  else if is_imm src then mkCost 2 1
  else if value src =? 0 then none else one.

Definition pop_write_cost (dst : IROperand) : Cost :=
  if is_reg dst then none
  else if is_mem dst then mkCost (prefetch_allocs dst) 0
  else if is_abs dst then mkCost 1 0
  else if is_imm dst then mkCost 2 0
  else none.

Definition demand_push_pop (instr : IRInstr) : Z :=
  let op := opcode instr in
  let operand := operand instr 0 in
  let operand_is_reg := is_reg operand in
  let operand_is_rsp := operand_is_reg && (Z.land (reg operand) 0xF =? 4) in
  let is_push := (op =? kOpcodeName.push) || (op =? kOpcodeName.pushd) || (op =? kOpcodeName.pushw) in
  if is_push then
    if (op =? kOpcodeName.push) && operand_is_reg && negb operand_is_rsp then 0
    else
      let seq := step Seq_init (push_read_cost operand) in
      let rsp_alias := operand_is_rsp && negb (is_size operand IROperandSize.S16) in
      demand (step seq (if rsp_alias then one else none))
  else if (op =? kOpcodeName.pop) && operand_is_reg && negb operand_is_rsp then 0
  else
    let seq := step Seq_init (if arch_reg operand && negb operand_is_rsp then none else one) in
    demand (step seq (pop_write_cost operand)).

(** ** family: inc, dec, neg, not *)

(** The CF of an INC or a DEC is live and needs a CSEL temporary. *)
Definition keeps_cf (instr : IRInstr) (tgt : IROperand) : bool :=
  let fl := flag_liveness instr in
  let v7 := live instr (Z.lor (Z.lor FLAG_PF_HI FLAG_CF) FLAG_ZF) || (IROperandSize.S16 <? op_size tgt) in
  (FLAG_AF <=? fl) && v7 && live instr FLAG_CF.

Definition demand_alu_unary (instr : IRInstr) : Z :=
  let op := opcode instr in
  let tgt := operand instr 0 in
  let inc_dec := (op =? kOpcodeName.inc) || (op =? kOpcodeName.dec) in
  if is_imm tgt then 5 + b2z (inc_dec && keeps_cf instr tgt)
  else
    let is_64bit := is_size tgt IROperandSize.S64 in
    let tgt_is_mem := is_mem tgt || is_abs tgt || is_imm tgt in
    let em_nonzero := negb (op =? kOpcodeName.not) && live instr (Z.lor (Z.lor FLAG_OF FLAG_CF) FLAG_ZF) in
    if op =? kOpcodeName.not then
      let seq := step Seq_init (alu_read_cost tgt em_nonzero is_64bit) in
      let seq := step seq (alloc_dst_gpr_cost tgt) in
      demand (step seq (alu_write_op0_cost tgt))
    else
      let seq := step Seq_init (alloc_dst_gpr_cost tgt) in
      let seq := step seq (alu_read_cost tgt em_nonzero is_64bit) in
      let seq := if inc_dec && keeps_cf instr tgt then step seq one else seq in
      let seq := if negb tgt_is_mem then free seq 1 else seq in
      demand (step seq (alu_write_op0_cost tgt)).

(** ** family: cmovcc *)

Definition cmov_read_cost (src : IROperand) : Cost :=
  if is_reg src then if Z.shiftr (reg src) 4 =? 1 then one else none
  else if is_mem src || is_abs src then one
  else if is_imm src then mkCost 2 1
  else if value src =? 0 then none else one.

Definition demand_cmovcc (instr : IRInstr) : Z :=
  let cc_op := operand instr 0 in
  let dst := operand instr 1 in
  let src := operand instr 2 in
  let parity := Z.land (op_size cc_op) 0xFE =? 0xA in
  let dst_cost := if arch_reg dst then none else one in
  let read_cost := cmov_read_cost src in
  if parity then peak read_cost + held dst_cost + 3
  else demand (step (step (step Seq_init read_cost) dst_cost) none).

(** ** family: setcc *)

Definition setcc_write_cost (dst : IROperand) : Cost :=
  if is_reg dst then none
  else if is_mem dst then mkCost (prefetch_allocs dst) 0
  else if is_abs dst then mkCost 1 0
  else if is_imm dst then mkCost 2 0
  else none.

Definition demand_setcc (instr : IRInstr) : Z :=
  let dst := operand instr 1 in
  demand (step (step (step Seq_init one) none) (setcc_write_cost dst)).

(** ** family: shl, shr, sar, rol, ror: allocation events *)

Definition shifts_read0_events (op0 : IROperand) : Z :=
  if is_reg op0 then if op_size op0 <=? IROperandSize.S16 then 1 else 0
  else if is_mem_or_abs op0 then 1
  else if is_imm op0 then 2
  else 1.

Definition shifts_dst_events (op0 : IROperand) : Z := if arch_reg op0 then 0 else 1.

Definition shifts_write_events (op0 : IROperand) : Z :=
  if is_reg op0 then 0
  else if is_mem op0 then if addr_size op0 =? IROperandSize.S32 then 1 else mov_prefetch_allocs op0
  else if is_abs op0 then 1
  else if is_imm op0 then 2
  else 0.

Definition shifts_nz_events (fl : Z) (op0 : IROperand) : Z :=
  if nz (Z.land fl FLAG_SF) && (op_size op0 <=? IROperandSize.S16) then 1 else 0.

Definition shifts_dup_events (op0 : IROperand) : Z := if arch_reg op0 then 1 else 0.

(** The OF bit, which only a shift by one defines. *)
Definition of_bit (fl value_b : Z) : Z := if value_b =? 1 then Z.land (Z.shiftr fl 4) 1 else 0.

Definition shl_imm_inline (fl value_b : Z) : Z :=
  let v10 := Z.land (Z.shiftr fl 5) 1 in
  let v10 := if value_b =? 0 then 0 else v10 in
  let v11 := of_bit fl value_b in
  let flags := nz (Z.land (Z.lor v10 v11) 1) in
  b2z flags + b2z (nz (Z.land fl 0xFF) && nz value_b && flags).

Definition shr_imm_inline (fl value_b : Z) : Z :=
  let of_live := of_bit fl value_b in
  b2z (nz value_b && nz (Z.land fl 0x20)) + b2z (nz (Z.land of_live 1)) +
  b2z (nz (Z.land fl 0xFF) && nz value_b && nz (Z.land (Z.lor of_live (Z.shiftr (Z.land fl 0xFF) 5)) 1)).

Definition sar_imm_inline (fl value_b : Z) : Z :=
  let v10 := of_bit fl value_b in
  b2z (nz value_b && nz (Z.land fl 0x20)) +
  b2z (nz (Z.land fl 0xFF) && nz value_b && nz (Z.land (Z.lor v10 (Z.shiftr (Z.land fl 0xFF) 5)) 1)).

(** [fl & (FLAG_OF | FLAG_CF)] *)
Definition of_cf (fl : Z) : bool := nz (Z.land fl (Z.lor FLAG_OF FLAG_CF)).

Definition rol_imm_inline (fl value_b : Z) : Z := 2 + b2z (of_cf fl && nz value_b).

Definition ror_imm_inline (fl value_b : Z) (size_le16 : bool) : Z :=
  (if size_le16 then 2 else 0) + (if of_cf fl && nz value_b then 2 else 0).

Definition shl_reg_inline (fl : Z) : Z :=
  b2z (nz (Z.land fl 0xFF)) + b2z (nz (Z.land fl 0xFF) && of_cf fl).

Definition shr_reg_inline (fl : Z) : Z :=
  b2z (nz (Z.land fl 0xFF)) + b2z (nz (Z.land fl 0xFF) && of_cf fl).

Definition sar_reg_inline (fl : Z) : Z :=
  b2z (nz (Z.land fl 0xFF)) + b2z (nz (Z.land fl 0xFF) && of_cf fl).

Definition rol_reg_inline (fl : Z) (size_le16 : bool) : Z :=
  b2z (of_cf fl) + (if size_le16 then 2 else 1) + b2z (of_cf fl).

Definition ror_reg_inline (fl : Z) (size_le16 : bool) : Z :=
  b2z (of_cf fl) + (if size_le16 then 2 else 0) + (if of_cf fl then 2 else 0).

Definition demand_shifts (instr : IRInstr) : Z :=
  let op := opcode instr in
  let op0 := operand instr 0 in
  let cnt := operand instr 1 in
  let fl := flag_liveness instr in
  let size_le16 := op_size op0 <=? IROperandSize.S16 in
  let shared := shifts_read0_events op0 + shifts_dst_events op0 + shifts_write_events op0 in
  let imm_path := is_branch cnt in
  let value_b := u8 (value cnt) in
  let dup := shifts_dup_events op0 in
  let nz_temp := shifts_nz_events fl op0 in
  let bitmask := Z.shiftl 8 (op_size op0) - 1 in
  let any := nz (Z.land fl 0xFF) in
  let rot_dup :=
    let rot := Z.land bitmask value_b in
    if nz (Z.land fl FLAG_CF) || ((rot =? 1) && nz (Z.land fl FLAG_OF)) then dup else 0 in
  let events :=  (* inline_events + dup_events + nz_events *)
    if imm_path then
      let nz_events := if any && nz value_b then nz_temp else 0 in
      if op =? kOpcodeName.shl then shl_imm_inline fl value_b + nz_events
      else if op =? kOpcodeName.shr then shr_imm_inline fl value_b + nz_events
      else if op =? kOpcodeName.sar then sar_imm_inline fl value_b + nz_events
      else if op =? kOpcodeName.rol then rol_imm_inline fl value_b + rot_dup
      else if op =? kOpcodeName.ror then ror_imm_inline fl value_b size_le16 + rot_dup
      else 0
    else
      let nz_events := if any then nz_temp else 0 in
      let dup_events := if any && of_cf fl then dup else 0 in
      if op =? kOpcodeName.shl then shl_reg_inline fl + nz_events + dup_events
      else if op =? kOpcodeName.shr then shr_reg_inline fl + nz_events + dup_events
      else if op =? kOpcodeName.sar then sar_reg_inline fl + nz_events + dup_events
      else if op =? kOpcodeName.rol then rol_reg_inline fl size_le16 + (if of_cf fl then dup else 0)
      else if op =? kOpcodeName.ror then ror_reg_inline fl size_le16 + (if of_cf fl then dup else 0)
      else 0 in
  shared + events.

(** ** family: cbw, cwde, cdqe, cwd, cdq, cqo *)

Definition demand_extends (instr : IRInstr) : Z :=
  if (opcode instr =? kOpcodeName.cbw) || (opcode instr =? kOpcodeName.cwd) then 1 else 0.

(** ** family: test *)

Definition demand_test (instr : IRInstr) : Z :=
  let op0 := operand instr 0 in
  let op1 := operand instr 1 in
  let fl := flag_liveness instr in
  let is_64bit := is_size op0 IROperandSize.S64 in
  let zf_mask := Z.lor (Z.lor (Z.lor (Z.lor (Z.lor FLAG_AF FLAG_PF_HI) FLAG_OF) FLAG_CF) FLAG_ZF) FLAG_SF in
  let only_zf := Z.land fl zf_mask =? FLAG_ZF in
  let op0_reg := is_reg op0 in
  let op1_reg := is_reg op1 in
  let op1_branch := is_branch op1 in
  if only_zf && op0_reg && op1_reg && (reg op0 =? reg op1) then 0
  else if op0_reg && (Z.land (reg op0) 0xF0 =? 0x10) && only_zf && op1_branch &&
          alu_is_bitmask_immediate is_64bit (Z.shiftl (u8 (value op1)) 8) then 0
  else
    let em_nonzero :=
      if fl <? FLAG_OF then false else negb (op1_branch && sign_clear op1) in
    let second_read :=
      if op1_branch then negb (alu_is_bitmask_immediate is_64bit (u64 (value op1)))
      else negb (op0_reg && op1_reg && (reg op0 =? reg op1)) in
    if is_imm op0 then
      2 + (if second_read then peak (alu_read_cost op1 em_nonzero is_64bit) else 0)
    else
      let seq := step Seq_init (alu_read_cost op0 em_nonzero is_64bit) in
      demand (if second_read then step seq (alu_read_cost op1 em_nonzero is_64bit) else seq).

(** ** family: mul, imul *)

Definition mul_read_events (op : IROperand) (em_nonzero is_64bit : bool) : Z :=
  if is_mem op then
    if has_base op && negb (has_index op) && negb (disp op =? 0) && negb (disp_add_encodable (disp op)) then 2 else 1
  else peak (alu_read_cost op em_nonzero is_64bit).

Definition mul_acc_read_events (op0 : IROperand) (is_64bit : bool) : Z :=
  if (op_size op0 =? IROperandSize.S8) || (op_size op0 =? IROperandSize.S16) then 1
  else if op_size op0 =? IROperandSize.S32 then b2z is_64bit
  else 0.

Definition demand_mul_imul (instr : IRInstr) : Z :=
  let op := opcode instr in
  let op0 := operand instr 0 in
  let nops := num_operands instr in
  let size := op_size op0 in
  let of_cf_live := of_cf (flag_liveness instr) in
  let two_read := (nops =? 2) || (nops =? 3) in
  let imul := op =? kOpcodeName.imul in
  let em_nonzero := true in
  let is_64bit := (size =? IROperandSize.S64) || ((size =? IROperandSize.S32) && of_cf_live) in
  let reads :=
    if negb two_read then mul_acc_read_events op0 is_64bit + mul_read_events op0 em_nonzero is_64bit
    else
      let ra := operand instr (if negb (nops =? 2) then 1 else 0) in
      let rb := operand instr (if negb (nops =? 2) then 2 else 1) in
      mul_read_events ra true is_64bit + mul_read_events rb true is_64bit + 1 in
  let mid :=
    if size <=? IROperandSize.S16 then 1
    else if size =? IROperandSize.S32 then b2z of_cf_live
    else
      let alias := if two_read then nops =? 2 else negb (is_mem op0) in
      b2z (of_cf_live && alias) in
  let flags :=
    if of_cf_live then
      if (size =? IROperandSize.S32) || (size =? IROperandSize.S64) then 2
      else if imul then 4 else 2
    else 0 in
  reads + mid + flags.

(** ** family: scalar SSE arithmetic *)

Definition demand_sse_arith (instr : IRInstr) : Z :=
  let dst := operand instr 0 in
  let src := operand instr 2 in
  let seq := step Seq_init (movs_read_xmm_cost src) in
  let dst_cls := Z.land (reg dst) 0xF0 in
  demand
    (if (dst_cls =? 0x90) || (dst_cls =? 0xA0) then step seq (mkCost (s8 (if is_imm src then 2 else 1)) 0) else seq).

(** ** The gate *)

(** The operand check: refused ([None]), or whether it is in memory. *)
Definition operand_admitted (o : IROperand) : option bool :=
  if is_mem o then
    if negb (seg_override o =? 0) ||
       (negb (addr_size o =? IROperandSize.S64) && negb (addr_size o =? IROperandSize.S32))
    then None else Some true
  else if is_abs o || is_imm o then if negb (seg_override o =? 0) then None else Some true
  else if kind o =? IROperandKind.SegmentRegister then None
  else Some false.

(** The loop over the first [n] operands. *)
Fixpoint operands_admitted (instr : IRInstr) (n : nat) (i : nat) (has_mem : bool) : option bool :=
  match n with
  | O => Some has_mem
  | S n =>
      match operand_admitted (operand instr i) with
      | None => None
      | Some m => operands_admitted instr n (S i) (has_mem || m)
      end
  end.

Definition family (op : Z) : option (IRInstr -> Z) :=
  let among ops := existsb (Z.eqb op) ops in
  if among [kOpcodeName.mov; kOpcodeName.movnti] then Some demand_mov_movnti
  else if among [kOpcodeName.lea] then Some demand_lea
  else if among [kOpcodeName.movss; kOpcodeName.movsd] then Some demand_sse_mov_scalar
  else if among [kOpcodeName.add; kOpcodeName.sub; kOpcodeName.and; kOpcodeName.or; kOpcodeName.xor; kOpcodeName.cmp]
  then Some demand_alu_binary
  else if among [kOpcodeName.adc; kOpcodeName.sbb] then Some demand_adc_sbb
  else if among [kOpcodeName.movzx; kOpcodeName.movsx; kOpcodeName.movsxd] then Some demand_movzx_movsx_movsxd
  else if among [kOpcodeName.push; kOpcodeName.pop; kOpcodeName.pushd; kOpcodeName.popd; kOpcodeName.pushw;
              kOpcodeName.popw] then Some demand_push_pop
  else if among [kOpcodeName.inc; kOpcodeName.dec; kOpcodeName.neg; kOpcodeName.not] then Some demand_alu_unary
  else if among [kOpcodeName.cmovcc] then Some demand_cmovcc
  else if among [kOpcodeName.shl; kOpcodeName.shr; kOpcodeName.sar; kOpcodeName.rol; kOpcodeName.ror]
  then Some demand_shifts
  else if among [kOpcodeName.nop; kOpcodeName.wait] then Some (fun _ => 0)
  else if among [kOpcodeName.cbw; kOpcodeName.cwde; kOpcodeName.cdqe; kOpcodeName.cwd; kOpcodeName.cdq; kOpcodeName.cqo]
  then Some demand_extends
  else if among [kOpcodeName.setcc] then Some demand_setcc
  else if among [kOpcodeName.test] then Some demand_test
  else if among [kOpcodeName.mul; kOpcodeName.imul] then Some demand_mul_imul
  else if among [kOpcodeName.addss; kOpcodeName.addsd; kOpcodeName.subss; kOpcodeName.subsd; kOpcodeName.mulss;
              kOpcodeName.mulsd; kOpcodeName.divss; kOpcodeName.divsd; kOpcodeName.sqrtss; kOpcodeName.sqrtsd;
              kOpcodeName.rsqrtss; kOpcodeName.rcpss] then Some demand_sse_arith
  else None.

(** The opcodes whose LOCK form the family refuses for any operand. *)
Definition lock_refused (op : Z) : bool :=
  existsb (Z.eqb op) [kOpcodeName.adc; kOpcodeName.sbb; kOpcodeName.inc; kOpcodeName.dec; kOpcodeName.neg; kOpcodeName.not].

Definition gap_gpr_demand (instr : IRInstr) : option Z :=
  let n := if num_operands instr <? 4 then num_operands instr else 4 in
  match operands_admitted instr (Z.to_nat n) 0 false with
  | None => None
  | Some has_mem =>
      if negb (rep_prefix instr =? 0) && has_mem && lockable_rmw (opcode instr) then None
      else
        match family (opcode instr) with
        | None => None
        | Some demand_of =>
            if lock_refused (opcode instr) && (rep_prefix instr =? 1) then None else Some (demand_of instr)
        end
  end.
