(* ===== verification/X87Cache.v ===== *)
(** X87Cache.h and X87Cache.cpp: what the translator remembers from one
    instruction of a run to the next - the pinned registers, the deferred
    updates of TOP and the tags, the deferred FXCH permutation, the carried
    bases - and the lookahead that delimits a run.  The block a cache belongs
    to ([prev_block]) is the translator's business and is left out. *)

From S2P Require Import Prelude OpcodeCompatibility IROperand.

(** ** The cache *)

(** A base address kept in register [c_gpr] (-1: none), by its expression
    without the displacement. *)
Record CarriedBase := mkCarried {
  c_addr_size : Z; c_mem_flags : Z; c_base_reg : Z; c_index_reg : Z; c_shift_amount : Z;
  c_gpr : Z
}.

Definition kMaxCarried : Z := 2.
Definition kMaxBridgeDemand : Z := 4.
Definition kMaxBridgeGap : Z := 16.

Record X87Cache := mkCache {
  base_gpr : Z;
  top_gpr : Z;
  run_remaining : Z;              (* int16_t *)
  st_base_gpr : Z;
  top_dirty : Z;
  gprs_valid : Z;
  deferred_push_count : Z;
  deferred_pop_count : Z;
  perm : list Z;                  (* 8 *)
  perm_dirty : Z;
  carried_base : list CarriedBase;  (* kMaxCarried *)
  carried_rc_gpr : Z
}.

Definition no_base : CarriedBase := mkCarried 0 0 0 0 0 (-1).
Definition identity_perm : list Z := [0; 1; 2; 3; 4; 5; 6; 7].
Definition X87Cache_init : X87Cache := mkCache 0 0 0 0 0 0 0 0 identity_perm 0 [no_base; no_base] (-1).

Section Setters.
Context (c : X87Cache).
Definition with_gprs (base top st_base valid : Z) : X87Cache :=
  mkCache base top (run_remaining c) st_base (top_dirty c) valid (deferred_push_count c)
    (deferred_pop_count c) (perm c) (perm_dirty c) (carried_base c) (carried_rc_gpr c).
Definition with_run (n : Z) : X87Cache :=
  mkCache (base_gpr c) (top_gpr c) n (st_base_gpr c) (top_dirty c) (gprs_valid c) (deferred_push_count c)
    (deferred_pop_count c) (perm c) (perm_dirty c) (carried_base c) (carried_rc_gpr c).
Definition with_deferred (dirty pushes pops : Z) : X87Cache :=
  mkCache (base_gpr c) (top_gpr c) (run_remaining c) (st_base_gpr c) dirty (gprs_valid c) pushes
    pops (perm c) (perm_dirty c) (carried_base c) (carried_rc_gpr c).
Definition with_perm (p : list Z) (dirty : Z) : X87Cache :=
  mkCache (base_gpr c) (top_gpr c) (run_remaining c) (st_base_gpr c) (top_dirty c) (gprs_valid c)
    (deferred_push_count c) (deferred_pop_count c) p dirty (carried_base c) (carried_rc_gpr c).
Definition with_carried (l : list CarriedBase) (rc : Z) : X87Cache :=
  mkCache (base_gpr c) (top_gpr c) (run_remaining c) (st_base_gpr c) (top_dirty c) (gprs_valid c)
    (deferred_push_count c) (deferred_pop_count c) (perm c) (perm_dirty c) l rc.
End Setters.

Definition drop_base (b : CarriedBase) : CarriedBase :=
  mkCarried (c_addr_size b) (c_mem_flags b) (c_base_reg b) (c_index_reg b) (c_shift_amount b) (-1).

Definition active (c : X87Cache) : bool := 0 <? run_remaining c.

Definition carried_any (c : X87Cache) : bool :=
  existsb (fun b => 0 <=? c_gpr b) (carried_base c) || (0 <=? carried_rc_gpr c).

Definition carried_clear (c : X87Cache) : X87Cache :=
  with_carried c (map drop_base (carried_base c)) (-1).

(** [1u << reg] *)
Definition reg_bit (reg : Z) : Z := u32 (Z.shiftl 1 reg).

(** The bits of the carried registers, or-ed into a mask. *)
Definition add_carried (c : X87Cache) (mask : Z) : Z :=
  let mask := fold_left (fun m b => if 0 <=? c_gpr b then Z.lor m (reg_bit (c_gpr b)) else m)
                (carried_base c) mask in
  if 0 <=? carried_rc_gpr c then Z.lor mask (reg_bit (carried_rc_gpr c)) else mask.

Definition carried_release (c : X87Cache) (free_gpr_mask : Z) : X87Cache * Z :=
  (carried_clear c, add_carried c free_gpr_mask).

(** A base or index register of [b] is in the mask of written registers. *)
Definition carried_hit (written : Z) (b : CarriedBase) : bool :=
  (nz (Z.land (c_mem_flags b) 1) && nz (Z.land (Z.shiftr written (Z.land (c_base_reg b) 0xF)) 1)) ||
  (nz (Z.land (c_mem_flags b) 2) && nz (Z.land (Z.shiftr written (Z.land (c_index_reg b) 0xF)) 1)).

Definition carried_drop_written (c : X87Cache) (guest_mask : Z) : X87Cache :=
  if guest_mask =? 0 then c
  else with_carried c
         (map (fun b => if (0 <=? c_gpr b) && carried_hit guest_mask b then drop_base b else b) (carried_base c))
         (carried_rc_gpr c).

Definition reset_perm (c : X87Cache) : X87Cache := with_perm c identity_perm 0.

Definition perm_is_identity (c : X87Cache) : bool :=
  forallb (fun i => zget (perm c) i =? i) identity_perm.

Definition invalidate (c : X87Cache) : X87Cache :=
  let c := with_gprs c (base_gpr c) (top_gpr c) (st_base_gpr c) 0 in
  let c := with_deferred c 0 0 0 in
  let c := with_run c 0 in
  reset_perm (carried_clear c).

(** The overload that also resets the free mask. *)
Definition invalidate_mask (c : X87Cache) (scratch_mask : Z) : X87Cache * Z := (invalidate c, scratch_mask).

Definition set_run (c : X87Cache) (run_length : Z) : X87Cache :=
  if 2 <=? run_length then with_run c (s16 run_length) else c.

Definition tick (c : X87Cache) : X87Cache :=
  if 0 <? run_remaining c then
    let c := with_run c (run_remaining c - 1) in
    if run_remaining c =? 0 then
      carried_clear (with_deferred (with_gprs c (base_gpr c) (top_gpr c) (st_base_gpr c) 0) 0 0 0)
    else c
  else c.

Definition pinned_mask (c : X87Cache) : Z :=
  add_carried c
    (if nz (gprs_valid c)
     then Z.lor (Z.lor (reg_bit (base_gpr c)) (reg_bit (top_gpr c))) (reg_bit (st_base_gpr c)) else 0).

(** ** Registers a bridged instruction writes *)

Definition gap_written_gpr_mask (instr : IRInstr) : Z :=
  let all := 0xFFFF in
  let op := opcode instr in
  let explicit mask :=
    if (1 <=? num_operands instr) && (kind (operand instr 0) =? IROperandKind.Register)
       && is_gpr (reg (operand instr 0))
    then Z.lor mask (Z.shiftl 1 (index (reg (operand instr 0)))) else mask in
  if existsb (Z.eqb op) [kOpcodeName.nop; kOpcodeName.cmp; kOpcodeName.ucomiss; kOpcodeName.ucomisd;
                         kOpcodeName.comiss; kOpcodeName.comisd] then 0
  else if existsb (Z.eqb op) [kOpcodeName.cbw; kOpcodeName.cwde; kOpcodeName.cdqe] then Z.shiftl 1 0
  else if existsb (Z.eqb op) [kOpcodeName.cwd; kOpcodeName.cdq] then Z.shiftl 1 2
  else if op =? kOpcodeName.mul then Z.lor (Z.shiftl 1 0) (Z.shiftl 1 2)
  else if (op =? kOpcodeName.imul) && (num_operands instr <=? 1) then Z.lor (Z.shiftl 1 0) (Z.shiftl 1 2)
  else if existsb (Z.eqb op) [kOpcodeName.push; kOpcodeName.pop; kOpcodeName.pushd; kOpcodeName.popd]
  then explicit (Z.shiftl 1 4)
  else if op =? kOpcodeName.xchg then
    (fix both l mask :=
       match l with
       | [] => mask
       | i :: l =>
           if i <? num_operands instr then
             let o := operand instr (Z.to_nat i) in
             if kind o =? IROperandKind.Register then
               if is_gpr (reg o) then both l (Z.lor mask (Z.shiftl 1 (index (reg o)))) else all
             else both l mask
           else mask
       end) [0; 1] 0
  else explicit 0.

(** ** Runs *)

Definition handled_opcodes : list Z :=
  [ kOpcodeName.fldz; kOpcodeName.fld1; kOpcodeName.fldl2e; kOpcodeName.fldl2t; kOpcodeName.fldlg2;
    kOpcodeName.fldln2; kOpcodeName.fldpi; kOpcodeName.fld; kOpcodeName.fild; kOpcodeName.fadd;
    kOpcodeName.faddp; kOpcodeName.fiadd; kOpcodeName.fsub; kOpcodeName.fsubr; kOpcodeName.fsubp;
    kOpcodeName.fsubrp; kOpcodeName.fdiv; kOpcodeName.fdivr; kOpcodeName.fdivp; kOpcodeName.fdivrp;
    kOpcodeName.fmul; kOpcodeName.fmulp; kOpcodeName.fst; kOpcodeName.fst_stack; kOpcodeName.fstp;
    kOpcodeName.fstp_stack; kOpcodeName.fstsw; kOpcodeName.fcom; kOpcodeName.fcomp; kOpcodeName.fcompp;
    kOpcodeName.fucom; kOpcodeName.fucomp; kOpcodeName.fucompp; kOpcodeName.fxch; kOpcodeName.fchs;
    kOpcodeName.fabs; kOpcodeName.fsqrt; kOpcodeName.fistp; kOpcodeName.fisttp; kOpcodeName.fidiv;
    kOpcodeName.fimul; kOpcodeName.fisub; kOpcodeName.fidivr; kOpcodeName.frndint; kOpcodeName.fcomi;
    kOpcodeName.fcomip; kOpcodeName.fucomi; kOpcodeName.fucomip; kOpcodeName.ftst; kOpcodeName.fist;
    kOpcodeName.fisubr; kOpcodeName.fcmovb; kOpcodeName.fcmovbe; kOpcodeName.fcmove; kOpcodeName.fcmovnb;
    kOpcodeName.fcmovnbe; kOpcodeName.fcmovne; kOpcodeName.fcmovu; kOpcodeName.fcmovnu; kOpcodeName.ficom;
    kOpcodeName.ficomp; kOpcodeName.fldcw; kOpcodeName.fnstcw; kOpcodeName.fnop ].

Definition is_handled_x87 (op : Z) : bool := existsb (Z.eqb op) handled_opcodes.
Definition is_handled (op : Z) : bool := is_handled_x87 op.

(** An opcode's bit in the mask of disabled opcodes: its OpcodeId (Config.h),
    [None] for kCount. *)
Definition opcode_to_id_local (op : Z) : option Z :=
  switch
  [ (kOpcodeName.fldz, 0); (kOpcodeName.fld1, 1); (kOpcodeName.fldl2e, 2); (kOpcodeName.fldl2t, 3);
    (kOpcodeName.fldlg2, 4); (kOpcodeName.fldln2, 5); (kOpcodeName.fldpi, 6); (kOpcodeName.fld, 7);
    (kOpcodeName.fild, 8); (kOpcodeName.fadd, 9); (kOpcodeName.faddp, 10); (kOpcodeName.fiadd, 11);
    (kOpcodeName.fsub, 12); (kOpcodeName.fsubr, 13); (kOpcodeName.fsubp, 14); (kOpcodeName.fsubrp, 15);
    (kOpcodeName.fdiv, 16); (kOpcodeName.fdivr, 17); (kOpcodeName.fdivp, 18); (kOpcodeName.fdivrp, 19);
    (kOpcodeName.fmul, 20); (kOpcodeName.fmulp, 21); (kOpcodeName.fst, 22); (kOpcodeName.fst_stack, 23);
    (kOpcodeName.fstp, 24); (kOpcodeName.fstp_stack, 25); (kOpcodeName.fstsw, 26); (kOpcodeName.fcom, 27);
    (kOpcodeName.fcomp, 28); (kOpcodeName.fcompp, 29); (kOpcodeName.fucom, 30); (kOpcodeName.fucomp, 31);
    (kOpcodeName.fucompp, 32); (kOpcodeName.fxch, 33); (kOpcodeName.fchs, 34); (kOpcodeName.fabs, 35);
    (kOpcodeName.fsqrt, 36); (kOpcodeName.fistp, 37); (kOpcodeName.fisttp, 58); (kOpcodeName.fidiv, 38);
    (kOpcodeName.fimul, 39); (kOpcodeName.fisub, 40); (kOpcodeName.fidivr, 41); (kOpcodeName.frndint, 42);
    (kOpcodeName.fcomi, 43); (kOpcodeName.fcomip, 44); (kOpcodeName.fucomi, 45); (kOpcodeName.fucomip, 46);
    (kOpcodeName.ftst, 47); (kOpcodeName.fist, 48); (kOpcodeName.fisubr, 49); (kOpcodeName.fcmovb, 50);
    (kOpcodeName.fcmovbe, 51); (kOpcodeName.fcmove, 52); (kOpcodeName.fcmovnb, 53); (kOpcodeName.fcmovnbe, 54);
    (kOpcodeName.fcmovne, 55); (kOpcodeName.fcmovu, 56); (kOpcodeName.fcmovnu, 57); (kOpcodeName.ficom, 59);
    (kOpcodeName.ficomp, 60) ] op.

Definition runtime_keepalive_top_delta (op : Z) : option Z :=
  if existsb (Z.eqb op) [kOpcodeName.f2xm1; kOpcodeName.fsin; kOpcodeName.fcos; kOpcodeName.fscale;
                         kOpcodeName.fxam; kOpcodeName.fprem; kOpcodeName.fprem1] then Some 0
  else if existsb (Z.eqb op) [kOpcodeName.fptan; kOpcodeName.fsincos] then Some (-1)
  else if existsb (Z.eqb op) [kOpcodeName.fyl2x; kOpcodeName.fyl2xp1; kOpcodeName.fpatan] then Some 1
  else None.

Definition op_disabled_for_run (op disabled_ops_mask : Z) : bool :=
  if disabled_ops_mask =? 0 then false
  else match opcode_to_id_local op with
       | Some id => nz (Z.land (Z.shiftr disabled_ops_mask id) 1)
       | None => false
       end.

Section Lookahead.
(** X87BridgeDemand.cpp's model of an instruction between two groups. *)
Context (gap_gpr_demand : IRInstr -> option Z).
Context (disabled_ops_mask : Z) (bridge runtime_keepalive : bool).

Definition run_member (op : Z) : bool :=
  if is_handled_x87 op then negb (op_disabled_for_run op disabled_ops_mask)
  else runtime_keepalive && match runtime_keepalive_top_delta op with Some _ => true | None => false end.

Definition bridgeable (i : IRInstr) : bool :=
  match gap_gpr_demand i with Some d => d | None => kMaxBridgeDemand + 1 end <=? kMaxBridgeDemand.

(** The run members at the head of the instructions left. *)
Fixpoint group_length (l : list IRInstr) : nat :=
  match l with
  | i :: l => if run_member (opcode i) then S (group_length l) else O
  | [] => O
  end.

(** The bridgeable instructions at the head, at most [n]. *)
Fixpoint gap_length (n : nat) (l : list IRInstr) : nat :=
  match n, l with
  | S n, i :: l => if bridgeable i then S (gap_length n l) else O
  | _, _ => O
  end.

(** The loop from an index on: each round but the last consumes an
    instruction. *)
Fixpoint lookahead_loop (fuel : nat) (l : list IRInstr) (count : Z) : option Z :=
  let group := group_length l in
  let count := count + Z.of_nat group in
  let rest := skipn group l in
  if negb bridge || (count =? 0) then Some count
  else
    let gap := gap_length (Z.to_nat kMaxBridgeGap) rest in
    let next := skipn gap rest in
    let lands := match next with i :: _ => run_member (opcode i) | [] => false end in
    if (gap =? 0)%nat || negb lands then Some count
    else match fuel with
         | O => None
         | S fuel => lookahead_loop fuel next (count + Z.of_nat gap)
         end.

(** [instr_array] from [insn_idx] on, to its end at [num_instrs]. *)
Definition lookahead (instr_array : list IRInstr) (insn_idx : nat) : option Z :=
  let l := skipn insn_idx instr_array in lookahead_loop (length l) l 0.
End Lookahead.
