(* ===== verification/X87IRPlan.v ===== *)
(** X87IRLower.cpp, the planning that comes before emission: last uses, the
    deadness of the guest's flags after the run, the base-address cache, the
    LDP/STP pairs, and the two pressure queries that gate the lowering. *)

From S2P Require Import Prelude Assembler IROperand X87IR TranslatorHelpers X87Cache.

(** ** Last uses

    [last_use] and [node_fpr] are arrays of kMaxNodes entries, all -1 before
    the run is scanned. *)

Definition no_nodes : list Z := repeat (-1) (Z.to_nat kMaxNodes).

(** The live nodes of a context with their ids, in order. *)
Definition numbered (c : Context) : list (Z * Node) :=
  combine (map Z.of_nat (seq 0 (length (nodes c)))) (nodes c).
Definition live_nodes (c : Context) : list (Z * Node) := filter (fun e => negb (dead (snd e))) (numbered c).

Definition use_inputs (n : Node) (i : Z) (l : list Z) : list Z :=
  fold_left (fun l j => if 0 <=? input n j then zset l (input n j) i else l) [0; 1; 2] l.

Definition compute_last_uses (c : Context) : list Z :=
  let l := fold_left (fun l e => use_inputs (snd e) (fst e) l) (live_nodes c) no_nodes in
  fold_left (fun l val => if (0 <=? val) && (val <? num_nodes c) then zset l val (num_nodes c) else l)
    (slot_val c) l.

(** ** Guest flags after the run *)

Definition shift_imm_count (t : IRInstr) : Z :=
  if num_operands t <? 2 then -1
  else
    let c := operand t 1 in
    if (kind c =? IROperandKind.Register) || (kind c =? IROperandKind.MemRef) || (kind c =? IROperandKind.AbsMem)
    then -1 else Z.land (value c) 0x1F.

Definition flag_definers : list Z :=
  [ kOpcodeName.and; kOpcodeName.or; kOpcodeName.xor; kOpcodeName.test; kOpcodeName.cmp; kOpcodeName.add;
    kOpcodeName.sub; kOpcodeName.neg; kOpcodeName.mul; kOpcodeName.imul ].

Definition flag_shifts : list Z := [ kOpcodeName.shl; kOpcodeName.shr; kOpcodeName.sar ].

Definition flag_neutral : list Z :=
  [ kOpcodeName.mov; kOpcodeName.movzx; kOpcodeName.movsx; kOpcodeName.movsxd; kOpcodeName.lea;
    kOpcodeName.push; kOpcodeName.pop; kOpcodeName.nop; kOpcodeName.not; kOpcodeName.xchg; kOpcodeName.leave;
    kOpcodeName.cbw; kOpcodeName.cwde; kOpcodeName.cdqe; kOpcodeName.cwd; kOpcodeName.cdq;
    kOpcodeName.movss; kOpcodeName.movsd; kOpcodeName.movaps; kOpcodeName.movapd; kOpcodeName.movups;
    kOpcodeName.movupd; kOpcodeName.movlps; kOpcodeName.movhps; kOpcodeName.movdqa; kOpcodeName.movdqu;
    kOpcodeName.movd; kOpcodeName.movq; kOpcodeName.cvtsi2ss; kOpcodeName.cvtsi2sd; kOpcodeName.cvtss2sd;
    kOpcodeName.cvtsd2ss; kOpcodeName.cvttss2si; kOpcodeName.cvttsd2si ].

Definition opcode_in (l : list Z) (i : IRInstr) : bool := existsb (Z.eqb (opcode i)) l.

(** The scan of the instructions from the end of the run on. *)
Fixpoint nzcv_dead_from (l : list IRInstr) : bool :=
  match l with
  | [] => false
  | i :: l =>
      if opcode_in flag_definers i then true
      else if opcode_in flag_shifts i then
        let cnt := shift_imm_count i in
        if 0 <? cnt then true else if cnt =? 0 then nzcv_dead_from l else false
      else if opcode_in flag_neutral i then nzcv_dead_from l
      else false
  end.

Definition nzcv_dead_after_run (instr_array : list IRInstr) (end_idx : Z) : bool :=
  nzcv_dead_from (skipn (Z.to_nat end_idx) instr_array).

(** ** The base-address cache *)

Definition addr_operand_base_cacheable (o : IROperand) : bool :=
  (kind o =? IROperandKind.MemRef) && (seg_override o =? 0) && nz (Z.land (mem_flags o) 1).

Definition addr_base_key_equal (a b : IROperand) : bool :=
  (addr_size a =? addr_size b) && (mem_flags a =? mem_flags b) && (base_reg a =? base_reg b) &&
  (index_reg a =? index_reg b) && (shift_amount a =? shift_amount b).

Definition addr_disp_foldable (o : IROperand) (is_f64 : bool) : bool :=
  let scale := if is_f64 then 8 else 4 in
  ((0 <=? disp o) && (Z.rem (disp o) scale =? 0) && (Z.quot (disp o) scale <=? 4095)) ||
  ((-256 <=? disp o) && (disp o <=? 255)).

Definition addr_uses_rax (o : IROperand) : bool :=
  (nz (Z.land (mem_flags o) 1) && (Z.land (base_reg o) 0xF =? 0)) ||
  (nz (Z.land (mem_flags o) 2) && (Z.land (index_reg o) 0xF =? 0)).

Definition addr_uses_written_reg (o : IROperand) (written_mask : Z) : bool :=
  negb (written_mask =? 0) &&
  ((nz (Z.land (mem_flags o) 1) && nz (Z.land (Z.shiftr written_mask (Z.land (base_reg o) 0xF)) 1)) ||
   (nz (Z.land (mem_flags o) 2) && nz (Z.land (Z.shiftr written_mask (Z.land (index_reg o) 0xF)) 1))).

(** [abs_mem.size] and [mem.size] are the same byte. *)
Definition guest_mem_size_log2 (o : IROperand) : Z :=
  if op_size o =? IROperandSize.S8 then 0 else if op_size o =? IROperandSize.S16 then 1
  else if op_size o =? IROperandSize.S32 then 2 else 3.

(** ** LDP/STP pairs *)

Definition kPairMaxSkip : Z := 4.

(** [is_load] and [scale]. *)
Definition pair_class (o : Op) : option (bool * Z) :=
  match o with
  | LoadF64 => Some (true, 8) | LoadF32Raw => Some (true, 4)
  | StoreF64 => Some (false, 8) | StoreF32Raw => Some (false, 4)
  | _ => None
  end.

Definition pair_node_skippable (o : Op) (lead_is_load : bool) : bool :=
  match o with
  | ReadSt | ConstZero | ConstOne | ConstF64 | CvtF32ToF64 | CvtF64ToF32
  | FAdd | FSub | FMul | FDiv | FNMul | FMAdd | FMSub | FNMSub | FNeg | FAbs | FSqrt | FCSel => true
  | LoadF64 | LoadF32Raw | LoadI16 | LoadI32 | LoadI64 | GuestLoad => lead_is_load
  | GuestMovRR | GuestMovRI | GuestLea | GuestExt => true
  | _ => false
  end.

Definition pair_disp_ok (d scale : Z) : bool :=
  (Z.rem d scale =? 0) && (-64 * scale <=? d) && (d <=? 63 * scale).

(** [pair_with] (-1: none) and [pair_skip] (0 or 1), by node id. *)
Definition pairs : Type := (list Z * list Z)%type.

(** The inner scan: the partner of node [n], whose displacement is [d1]. *)
Fixpoint find_partner (n : Node) (is_load : bool) (scale d1 : Z) (p : pairs) (l : list (Z * Node)) (skipped : Z) : option Z :=
  match l with
  | [] => None
  | (j, m) :: l =>
      if dead m then find_partner n is_load scale d1 p l skipped
      else
        let d2 := disp (mem_operand m) in
        if Op_eqb (op m) (op n) && (zget (snd p) j =? 0) && (zget (fst p) j <? 0) &&
           addr_operand_base_cacheable (mem_operand m) && addr_base_key_equal (mem_operand n) (mem_operand m) &&
           pair_disp_ok d2 scale && ((d2 =? d1 + scale) || (d2 =? d1 - scale))
        then Some j
        else if negb (pair_node_skippable (op m) is_load) then None
        else if kPairMaxSkip <? skipped + 1 then None
        else find_partner n is_load scale d1 p l (skipped + 1)
  end.

(** The operand's base is one of the planned ones; [reps] is [None] for the
    null pointer, which admits any. *)
Definition pair_base_ok (reps : option (list IROperand)) (o : IROperand) : bool :=
  match reps with None => true | Some l => existsb (addr_base_key_equal o) l end.

Fixpoint pair_loop (reps : option (list IROperand)) (l : list (Z * Node)) (p : pairs) : pairs :=
  match l with
  | [] => p
  | (i, n) :: l =>
      pair_loop reps l
        (if dead n || (zget (snd p) i =? 1) || (0 <=? zget (fst p) i) then p
         else match pair_class (op n) with
         | None => p
         | Some (is_load, scale) =>
             let mo := mem_operand n in
             if addr_operand_base_cacheable mo && pair_base_ok reps mo && pair_disp_ok (disp mo) scale then
               match find_partner n is_load scale (disp mo) p l 0 with
               | Some j =>
                   if is_load then (zset (fst p) i j, zset (snd p) j 1)
                   else (zset (fst p) j i, zset (snd p) i 1)
               | None => p
               end
             else p
         end)
  end.

Definition compute_pairs (c : Context) (reps : option (list IROperand)) : pairs :=
  pair_loop reps (numbered c) (no_nodes, repeat 0 (Z.to_nat kMaxNodes)).

(** ** Planning the cache *)

Definition kAddrCacheSlots : Z := 3.

Definition is_mem_access (o : Op) : bool :=
  match o with
  | LoadF64 | LoadF32Raw | LoadI16 | LoadI32 | LoadI64 | StoreF64 | StoreF32Raw
  | StoreI16 | StoreI32 | StoreI64 | StoreCW | LoadCW => true
  | _ => false
  end.

(** An access whose displacement fits a cached access; [None] for nodes that
    make no such access. *)
Definition foldable (n : Node) : option bool :=
  let mo := mem_operand n in
  let at_width w := (kind mo =? IROperandKind.MemRef) && negb (classify_ldst_disp (disp mo) w =? 0) in
  match op n with
  | LoadF64 | StoreF64 => Some (addr_disp_foldable mo true)
  | LoadF32Raw | StoreF32Raw => Some (addr_disp_foldable mo false)
  | GuestLoad | GuestStoreR | GuestStoreI => Some (at_width (guest_mem_size_log2 mo))
  | LoadI16 | StoreI16 | StoreCW | LoadCW => Some (at_width 1)
  | LoadI32 | StoreI32 => Some (at_width 2)
  | LoadI64 | StoreI64 => Some (at_width 3)
  | _ => None
  end.

(** The keys found so far, at most six: a node id and a count. *)
Fixpoint count_key (c : Context) (keys : list (Z * Z)) (mo : IROperand) (i : Z) (room : nat) : list (Z * Z) :=
  match keys with
  | [] => match room with O => [] | S _ => [(i, 1)] end
  | (k, n) :: keys =>
      if addr_base_key_equal (mem_operand (node c k)) mo then (k, n + 1) :: keys
      else (k, n) :: count_key c keys mo i (pred room)
  end.

(** The index of the first key with the largest count of at least two. *)
Definition best_key (keys : list (Z * Z)) : Z :=
  snd (fold_left (fun '(k, best) e =>
    (k + 1, if (2 <=? snd e) && ((best <? 0) || (snd (nth (Z.to_nat best) keys (0, 0)) <? snd e)) then k else best))
    keys (0, -1)).

Fixpoint pick_keys (rounds : nat) (keys : list (Z * Z)) : list Z :=
  match rounds with
  | O => []
  | S rounds =>
      let best := best_key keys in
      if best <? 0 then []
      else
        let e := nth (Z.to_nat best) keys (0, 0) in
        fst e :: pick_keys rounds (list_set keys (Z.to_nat best) (fst e, 0))
  end.

(** The representatives, [addr_cache_rep]; their number is what the source
    returns. *)
Definition plan_addr_cache (c : Context) : list Z :=
  let live := live_nodes c in
  let has_fstsw := existsb (fun e => Op_eqb (op (snd e)) FStsw) live in
  if existsb (fun e => is_mem_access (op (snd e)) && (kind (mem_operand (snd e)) =? IROperandKind.MemRef)
                       && negb (seg_override (mem_operand (snd e)) =? 0)) live then []
  else
    pick_keys (Z.to_nat kAddrCacheSlots)
      (fold_left (fun keys e =>
         let mo := mem_operand (snd e) in
         match foldable (snd e) with
         | None => keys
         | Some f =>
             if negb (addr_operand_base_cacheable mo) || (has_fstsw && addr_uses_rax mo)
                || addr_uses_written_reg mo (guest_written_mask c) || negb f then keys
             else count_key c keys mo (fst e) 6
         end) live []).

(** ** What the lowering is given besides the nodes

    The fields of X87IR::Context that compile_run sets for it. *)
Record Plan := mkPlan {
  addr_cache_rep : list Z;   (* the first addr_cache_n of them *)
  nzcv_dead : bool
}.

(** ** Compares and the host flags *)

Record CmpPlan := mkCmpPlan {
  nzcv_first_cmp : Z;
  nzcv_last_cmp : Z;
  nzcv_hoist : bool;
  nzcv_skip : bool
}.

Fixpoint scan_compares (l : list (Z * Node)) (first last count : Z) : Z * Z * Z * bool :=
  match l with
  | [] => (first, last, count, false)
  | (i, n) :: l =>
      match op n with
      | FComI | FCSel => (first, last, count, true)
      | FCmp | FTst => scan_compares l (if first <? 0 then i else first) i (count + 1)
      | _ => scan_compares l first last count
      end
  end.

Definition plan_compares (c : Context) (p : Plan) : CmpPlan :=
  let '(first, last, cmp_count, has_nzcv_user) := scan_compares (live_nodes c) (-1) (-1) 0 in
  let skip := nzcv_dead p && negb has_nzcv_user && (1 <=? cmp_count) in
  mkCmpPlan first last (negb skip && negb has_nzcv_user && (2 <=? cmp_count)) skip.

(** ** Rounding-control consumers *)

Definition is_rc_consumer (n : Node) : bool :=
  match op n with
  | FRndInt => true
  | StoreI16 | StoreI32 | StoreI64 => negb (nz (Z.land (flags n) kTruncate))
  | _ => false
  end.

Definition use_rc_cache (c : Context) : bool :=
  (2 <=? length (filter (fun e => is_rc_consumer (snd e)) (live_nodes c)))%nat.

(** ** Pressure *)

Section Pressure.
Context (cfg : RosettaConfig) (c : Context) (p : Plan).

Definition rc_cached : bool := negb (fast_round cfg) && use_rc_cache c.

(** A node's [transient], and [held] before and after its total is taken. *)
Definition gpr_transient (k : CmpPlan) (n : Node) : Z :=
  match op n with
  | LoadF64 | LoadF32Raw | StoreF64 | StoreF32Raw | LoadI64 => 1
  | LoadI16 | LoadI32 | StoreI16 | StoreI32 | StoreI64 => 2
  | FRndInt => if rc_cached then 0 else 1
  | FCmp | FTst => if nzcv_skip k || nzcv_hoist k then 3 else 4
  | FComI => 3
  | FStsw => 2
  | StoreCW | LoadCW => 2
  | GuestLea | GuestLoad | GuestStoreR => 1
  | GuestStoreI => 2
  | _ => 0
  end.

Definition is_compare (n : Node) : bool := match op n with FCmp | FTst => true | _ => false end.
Definition is_fused (n : Node) : bool := nz (Z.land (flags n) kFcomFused).

Definition held_before (k : CmpPlan) (i : Z) (n : Node) (held : Z) : Z :=
  match op n with
  | FCmp | FTst => if negb (nzcv_skip k) && nzcv_hoist k && (i =? nzcv_first_cmp k) then held + 1 else held
  | FStsw => if is_fused n then held - 1 else held
  | _ => held
  end.

Definition held_after (k : CmpPlan) (i : Z) (n : Node) (held : Z) : Z :=
  let held := if is_compare n && is_fused n then held + 1 else held in
  if nzcv_hoist k && (i =? nzcv_last_cmp k) then held - 1 else held.

Fixpoint gpr_loop (k : CmpPlan) (pinned : Z) (l : list (Z * Node)) (held peak : Z) : Z * Z :=
  match l with
  | [] => (held, peak)
  | (i, n) :: l =>
      let held := held_before k i n held in
      gpr_loop k pinned l (held_after k i n held) (Z.max peak (pinned + held + gpr_transient k n))
  end.

Definition peak_live_gprs (entry_deferred gprs_cached : bool) : Z :=
  let pinned := (if gprs_cached then 1 else 4) + (if rc_cached then 1 else 0) in
  let '(held, peak) := gpr_loop (plan_compares c p) pinned (live_nodes c) 0 pinned in
  if negb (top_delta c =? 0) || entry_deferred then Z.max peak (pinned + held + 2) else peak.
End Pressure.

(** The sunk store's input lives until the pair is stored. *)
Definition extend_pairs (c : Context) (pr : pairs) (last_use : list Z) : list Z :=
  fold_left (fun l e =>
    let s := zget (fst pr) (fst e) in
    if s <? 0 then l
    else match op (snd e) with
    | StoreF64 | StoreF32Raw =>
        let in_s := input (node c s) 0 in
        if (0 <=? in_s) && (zget l in_s <? fst e) then zset l in_s (fst e) else l
    | _ => l
    end) (numbered c) last_use.

(** Does the op hold an FPR, and can it take a dying input's? *)
Definition produces_fpr (o : Op) : bool :=
  match o with
  | ReadSt | LoadF64 | LoadF32Raw | LoadI16 | LoadI32 | LoadI64 | ConstZero | ConstOne | ConstF64
  | FAdd | FSub | FMul | FDiv | FNMul | FMAdd | FMSub | FNMSub | FNeg | FAbs | FSqrt | FRndInt
  | FCSel | CvtF32ToF64 | CvtF64ToF32 => true
  | _ => false
  end.

Definition can_reuse (o : Op) : bool :=
  match o with
  | FAdd | FSub | FMul | FDiv | FNMul | FMAdd | FMSub | FNMSub | FNeg | FAbs | FSqrt | FRndInt
  | FCSel | CvtF32ToF64 | CvtF64ToF32 => true
  | _ => false
  end.

(** The first input that dies at node [i] and holds a register. *)
Definition first_dying (last_use : list Z) (holds : Z -> bool) (n : Node) (i : Z) : option Z :=
  find (fun v => (0 <=? v) && (zget last_use v =? i) && holds v) [input n 0; input n 1; input n 2].

Section FprPressure.
Context (n_nodes : nat) (last_use : list Z) (pr : pairs).

(** [holding] (0 or 1 by node id), [live], [peak]. *)
Definition fpr_state : Type := (list Z * Z * Z)%type.

Definition fpr_node (i : Z) (n : Node) (s : fpr_state) : fpr_state :=
  let '(holding, live, peak) := s in
  let s1 :=
    if zget (snd pr) i =? 1 then s
    else
      let '(holding, live, peak) :=
        if produces_fpr (op n) then
          let '(holding, live) :=
            match (if can_reuse (op n) then first_dying last_use (fun v => zget holding v =? 1) n i else None) with
            | Some v => (zset holding v 0, live)
            | None => (holding, live + 1)
            end in
          (zset holding i 1, live, Z.max peak live)
        else s in
      let j := zget (fst pr) i in
      if (0 <=? j) && match op n with LoadF64 | LoadF32Raw => true | _ => false end
      then (zset holding j 1, live + 1, Z.max peak (live + 1))
      else (holding, live, peak) in
  let '(holding, live, peak) := s1 in
  fold_left (fun '(holding, live, peak) h =>
    if (zget holding h =? 1) && (zget last_use h =? i) then (zset holding h 0, live - 1, peak)
    else (holding, live, peak)) (map Z.of_nat (seq 0 n_nodes)) (holding, live, peak).

Definition fpr_loop (l : list (Z * Node)) (s : fpr_state) : fpr_state :=
  fold_left (fun s e => fpr_node (fst e) (snd e) s) l s.
End FprPressure.

Definition peak_live_fprs (c : Context) : Z :=
  let pr := compute_pairs c None in
  let last_use := extend_pairs c pr (compute_last_uses c) in
  snd (fpr_loop (length (nodes c)) last_use pr (live_nodes c) (repeat 0 (Z.to_nat kMaxNodes), 0, 0)).
