(* ===== verification/X87IRLower.v ===== *)
(** X87IRLower.cpp: the emission of a planned run.  [lower] takes the
    translator's cache and answers the cache it leaves; the buffer, the pools
    and the fixups are [Emit]'s state.  A lambda that captures the locals of
    [lower] is a function of the record [Frame] of those locals. *)

From S2P Require Import Prelude Emit Assembler IROperand X87IR TranslatorHelpers X87Helpers X87Cache X87IRPlan.

Section Lower.
Context (cfg : RosettaConfig) (tgt : Target).

(** ** Guest nodes *)

Definition emit_guest_add_disp (is64 dst src disp : Z) : M unit :=
  if disp =? 0 then (if negb (dst =? src) then emit_mov_reg is64 dst src else ret tt)
  else
    let is_sub := b2z (disp <? 0) in
    let mag := if disp <? 0 then - disp else disp in
    if mag <? 4096 then emit_add_imm is64 is_sub 0 0 mag src dst
    else if (Z.land mag 0xFFF =? 0) && (Z.shiftr mag 12 <? 4096) then
      emit_add_imm is64 is_sub 0 1 (Z.shiftr mag 12) src dst
    else
      tmp <- alloc_free_gpr ;;
      emit_load_immediate_no_xzr is64 (u64 disp) tmp ;;;
      emit_add_sub_shifted_reg is64 0 0 0 tmp 0 src dst ;;;
      free_gpr tmp.

Definition emit_guest_node (n : Node) : M unit :=
  let p := guest_unpack (imm_bits n) in
  match op n with
  | GuestMovRR => emit_mov_reg (b2z (p_is64 p)) (p_dst p) (p_src p)
  | GuestMovRI => emit_load_immediate_no_xzr 0 (p_imm p) (p_dst p)
  | GuestExt =>
      let lsb := if p_cls p =? 1 then 8 else 0 in
      let width := if 2 <=? p_cls p then (if p_cls p =? 3 then 32 else 16) else 8 in
      if negb (p_sign p) then emit_bitfield 0 2 0 lsb (lsb + width - 1) (p_src p) (p_dst p)
      else
        let sf := b2z (p_is64 p) in
        emit_bitfield sf 0 sf lsb (lsb + width - 1) (p_src p) (p_dst p)
  | GuestLea =>
      let is64 := b2z (p_is64 p && negb (p_addr32 p)) in
      let disp := s32 (p_imm p) in
      if p_has_base p && p_has_index p then
        emit_add_sub_shifted_reg is64 0 0 0 (p_idx p) (p_cls p) (p_src p) (p_dst p) ;;;
        emit_guest_add_disp is64 (p_dst p) (p_dst p) disp
      else if p_has_base p then emit_guest_add_disp is64 (p_dst p) (p_src p) disp
      else if p_has_index p then
        emit_add_sub_shifted_reg is64 0 0 0 (p_idx p) (p_cls p) GPR.XZR (p_dst p) ;;;
        emit_guest_add_disp is64 (p_dst p) (p_dst p) disp
      else emit_load_immediate_no_xzr is64 (u64 disp) (p_dst p)
  | _ => ret tt
  end.

Definition carried_key_match (b : CarriedBase) (o : IROperand) : bool :=
  (c_addr_size b =? addr_size o) && (c_mem_flags b =? mem_flags o) && (c_base_reg b =? base_reg o) &&
  (c_index_reg b =? index_reg o) && (c_shift_amount b =? shift_amount o).

(** ** Rounding control *)

Definition emit_rc_preamble (Xbase Wd_out : Z) : M unit :=
  emit_ldr_str_imm 1 0 1 0 Xbase Wd_out ;;;
  emit_bitfield 0 2 0 10 11 Wd_out Wd_out.

Definition emit_rcmode_dispatch (Wd_int Dd_val is_64bit_int Xbase Wd_rc : Z) : M unit :=
  if fast_round cfg then emit_fcvt_fp_to_int is_64bit_int 1 0 Wd_int Dd_val
  else
    emit_rc_preamble Xbase Wd_rc ;;;
    emit_x87_rc_dispatch_fcvt Wd_rc Wd_int Dd_val is_64bit_int.

(** ** The preamble: base, TOP and the register file (TranslatorX87Internal.hpp) *)

Definition x87_begin (c : X87Cache) : M (Z * Z * X87Cache) :=
  if (0 <? run_remaining c) && nz (gprs_valid c) then ret (base_gpr c, top_gpr c, c)
  else
    Xbase <- alloc_gpr 0 ;;
    Wd_top <- alloc_gpr 1 ;;
    emit_x87_base tgt Xbase ;;;
    emit_load_top tgt Xbase Wd_top ;;;
    if 0 <? run_remaining c then
      Xst_base <- alloc_gpr 6 ;;
      emit_add_imm 1 0 0 0 kX87RegFileOff Xbase Xst_base ;;;
      ret (Xbase, Wd_top, with_gprs c Xbase Wd_top Xst_base 1)
    else ret (Xbase, Wd_top, c).

Definition x87_get_st_base (c : X87Cache) : Z := if nz (gprs_valid c) then st_base_gpr c else -1.

(** ** The locals of [lower] that a body reads *)

(** A planned base: its operand and the register that holds its address; the
    register is the lowering's own to free when [b_owned]. *)
Record Base := mkBase { b_rep : IROperand; b_reg : Z; b_owned : bool }.

Record Frame := mkFrame {
  f_ctx : Context;
  f_last_use : list Z;
  f_pairs : pairs;
  f_bases : list Base;
  f_cmps : CmpPlan;
  Xbase : Z;
  Wd_top : Z;
  Wd_tmp : Z;
  Xst_base : Z;
  Wd_rc_cached : Z;
  rc_entry_valid : bool;
  entry_top_dirty : bool;
  entry_push_count : Z;
  entry_pop_count : Z;
  top_known : Z
}.

(** What changes from node to node. *)
Record Regs := mkRegs { node_fpr : list Z; rc_cache_valid : bool; Wd_nzcv_saved : Z }.

Definition set_fpr (s : Regs) (i r : Z) : Regs :=
  mkRegs (zset (node_fpr s) i r) (rc_cache_valid s) (Wd_nzcv_saved s).
Definition set_rc_valid (s : Regs) (b : bool) : Regs := mkRegs (node_fpr s) b (Wd_nzcv_saved s).
Definition set_saved (s : Regs) (r : Z) : Regs := mkRegs (node_fpr s) (rc_cache_valid s) r.

(** FPRState::get *)
Definition get (s : Regs) (id : Z) : Z :=
  if (id <? 0) || (kMaxNodes <=? id) then -1 else zget (node_fpr s) id.

Section Body.
Context (f : Frame).

#[local] Abbreviation xb := (Xbase f).
#[local] Abbreviation last_use := (f_last_use f).

(** FPRState::free_dead_inputs *)
Fixpoint free_inputs (l : list Z) (i : Z) (s : Regs) : M Regs :=
  match l with
  | [] => ret s
  | v :: l =>
      if (0 <=? v) && (zget last_use v =? i) && (0 <=? zget (node_fpr s) v) then
        free_fpr cfg (zget (node_fpr s) v) ;;;
        free_inputs l i (set_fpr s v (-1))
      else free_inputs l i s
  end.

Definition free_dead_inputs (n : Node) (i : Z) (s : Regs) : M Regs :=
  free_inputs [input n 0; input n 1; input n 2] i s.

(** The register of a node's result: a dying input's
    (FPRState::try_reuse_input), or a free one. *)
Definition result_fpr (n : Node) (i : Z) (s : Regs) : M (Z * Regs) :=
  match first_dying last_use (fun v => 0 <=? zget (node_fpr s) v) n i with
  | Some v => ret (zget (node_fpr s) v, set_fpr (set_fpr s v (-1)) i (zget (node_fpr s) v))
  | None => Dd <- alloc_free_fpr ;; ret (Dd, set_fpr s i Dd)
  end.

Definition fresh_fpr (i : Z) (s : Regs) : M (Z * Regs) :=
  Dd <- alloc_free_fpr ;; ret (Dd, set_fpr s i Dd).

(** *** Accesses through a cached base *)

Fixpoint emit_cached_access_from (bases : list Base) (n : Node) (size is_load Vt : Z) : M bool :=
  match bases with
  | [] => ret false
  | b :: bases =>
      if addr_base_key_equal (mem_operand n) (b_rep b) then
        done <- try_emit_fp_ldst_disp size is_load Vt (b_reg b) (disp (mem_operand n)) ;;
        if done : bool then ret true else emit_cached_access_from bases n size is_load Vt
      else emit_cached_access_from bases n size is_load Vt
  end.
Definition emit_cached_access := emit_cached_access_from (f_bases f).

Fixpoint emit_cached_gpr_access_from (bases : list Base) (n : Node) (size_log2 is_load Rt : Z) : M bool :=
  match bases with
  | [] => ret false
  | b :: bases =>
      if addr_base_key_equal (mem_operand n) (b_rep b) then
        let d := disp (mem_operand n) in
        let cls := classify_ldst_disp d size_log2 in
        if cls =? 1 then
          emit_ldr_str_imm size_log2 0 is_load (s16 (Z.shiftr d size_log2)) (b_reg b) Rt ;;; ret true
        else if cls =? 2 then emit_ldur_stur size_log2 is_load (s16 d) (b_reg b) Rt ;;; ret true
        else emit_cached_gpr_access_from bases n size_log2 is_load Rt
      else emit_cached_gpr_access_from bases n size_log2 is_load Rt
  end.
Definition emit_cached_gpr_access (n : Node) (size_log2 is_load Rt : Z) : M bool :=
  if negb (kind (mem_operand n) =? IROperandKind.MemRef) then ret false
  else emit_cached_gpr_access_from (f_bases f) n size_log2 is_load Rt.

(** A cached access, or one through the operand's own address. *)
Definition gpr_access (n : Node) (size_log2 is_load Rt : Z) : M unit :=
  cached <- emit_cached_gpr_access n size_log2 is_load Rt ;;
  if cached : bool then ret tt
  else emit_gpr_mem_access cfg tgt 1 (mem_operand n) size_log2 is_load Rt.

Definition fp_access (n : Node) (size is_load Vt : Z) : M unit :=
  cached <- emit_cached_access n size is_load Vt ;;
  if cached : bool then ret tt
  else
    addr <- compute_operand_address tgt 1 (mem_operand n) GPR.XZR ;;
    (if nz is_load then emit_fldr_imm size Vt addr 0 else emit_fstr_imm size Vt addr 0) ;;;
    free_gpr addr.

Definition emit_pair_access (a b : Node) (size is_load Va Vb : Z) : M unit :=
  match find (fun k => addr_base_key_equal (mem_operand a) (b_rep k)) (f_bases f) with
  | None => fun _ => None
  | Some k =>
      let d1 := disp (mem_operand a) in
      let d2 := disp (mem_operand b) in
      let lo := if d1 <? d2 then d1 else d2 in
      let Vt1 := if d1 <? d2 then Va else Vb in
      let Vt2 := if d1 <? d2 then Vb else Va in
      if size =? 3 then emit_fldp_fstp_d is_load (s16 (Z.quot lo 8)) (b_reg k) Vt1 Vt2
      else emit_fldp_fstp_s is_load (s16 (Z.quot lo 4)) (b_reg k) Vt1 Vt2
  end.

(** *** Loads and constants *)

Definition emit_read_st (i : Z) (n : Node) (s : Regs) : M Regs :=
  '(Dd, s) <- fresh_fpr i s ;;
  (if 0 <=? top_known f then
     emit_fldr_imm 3 Dd xb (s16 (Z.shiftr kX87RegFileOff 3 + Z.land (top_known f + initial_depth n) 7))
   else
     _ <- emit_load_st xb (Wd_top f) (initial_depth n) (Wd_tmp f) Dd (Xst_base f) ;; ret tt) ;;;
  ret s.

Definition emit_load_fp (i : Z) (n : Node) (size : Z) (s : Regs) : M Regs :=
  '(Dd, s) <- fresh_fpr i s ;;
  let j := zget (fst (f_pairs f)) i in
  if 0 <=? j then
    '(Dd2, s) <- fresh_fpr j s ;;
    emit_pair_access n (node (f_ctx f) j) size 1 Dd Dd2 ;;;
    ret s
  else fp_access n size 1 Dd ;;; ret s.

Definition emit_load_i16 (i : Z) (n : Node) (s : Regs) : M Regs :=
  '(Dd, s) <- fresh_fpr i s ;;
  Wd_val <- alloc_free_gpr ;;
  cached <- emit_cached_gpr_access n 1 1 Wd_val ;;
  (if cached : bool then emit_bitfield 0 0 0 0 15 Wd_val Wd_val
   else
     acc <- compute_operand_access cfg tgt 1 (mem_operand n) 1 0 0 ;;
     match enc acc with
     | Unscaled9 =>
         emit_ldur_stur 1 1 (s16 (offset acc)) (base acc) Wd_val ;;;
         emit_bitfield 0 0 0 0 15 Wd_val Wd_val
     | _ => emit_ldr_str_imm 1 0 3 (s16 (Z.shiftr (offset acc) 1)) (base acc) Wd_val
     end ;;;
     free_gpr (base acc)) ;;;
  emit_scvtf 0 1 Dd Wd_val ;;;
  free_gpr Wd_val ;;;
  ret s.

Definition emit_load_i32 (i : Z) (n : Node) (s : Regs) : M Regs :=
  '(Dd, s) <- fresh_fpr i s ;;
  Wd_val <- alloc_free_gpr ;;
  gpr_access n 2 1 Wd_val ;;;
  emit_scvtf 0 1 Dd Wd_val ;;;
  free_gpr Wd_val ;;;
  ret s.

Definition emit_load_i64 (i : Z) (n : Node) (s : Regs) : M Regs :=
  '(Dd, s) <- fresh_fpr i s ;;
  cached <- emit_cached_access n 3 1 Dd ;;
  (if cached : bool then ret tt else emit_fp_mem_access cfg tgt 1 (mem_operand n) 3 1 Dd) ;;;
  emit_scvtf_d_from_d Dd Dd ;;;
  ret s.

Definition emit_const (i : Z) (n : Node) (s : Regs) : M Regs :=
  '(Dd, s) <- fresh_fpr i s ;;
  match op n with
  | ConstZero => emit_movi_d_zero Dd
  | ConstOne => emit_fmov_d_one Dd
  | _ =>
      match f64_fmov_imm8 (imm_bits n) with
      | Some imm8 => emit_fmov_d_imm8 Dd imm8
      | None => emit_ldr_literal_f64 Dd (imm_bits n)
      end
  end ;;;
  ret s.

(** *** Arithmetic *)

Definition fp_type (n : Node) : Z := if nz (Z.land (flags n) kF32) then 0 else 1.

Definition emit_binary (i : Z) (n : Node) (s : Regs) : M Regs :=
  let Dn := get s (input n 0) in
  let Dm := get s (input n 1) in
  '(Dd, s) <- result_fpr n i s ;;
  let opc := match op n with FMul => 0 | FDiv => 1 | FAdd => 2 | FSub => 3 | _ => 8 end in
  emit_fp_dp2 (fp_type n) opc Dd Dn Dm ;;;
  ret s.

Definition emit_fma (i : Z) (n : Node) (s : Regs) : M Regs :=
  let Dn := get s (input n 0) in
  let Dm := get s (input n 1) in
  let Da := get s (input n 2) in
  '(Dd, s) <- result_fpr n i s ;;
  let o1 := match op n with FNMSub => 1 | _ => 0 end in
  let o0 := match op n with FMAdd => 0 | _ => 1 end in
  emit_fp_dp3 (fp_type n) o1 o0 Dd Dn Dm Da ;;;
  ret s.

Definition emit_unary (i : Z) (n : Node) (s : Regs) : M Regs :=
  let Dn := get s (input n 0) in
  '(Dd, s) <- result_fpr n i s ;;
  let opc := match op n with FAbs => 1 | FNeg => 2 | _ => 3 end in
  emit_fp_dp1 (fp_type n) opc Dd Dn ;;;
  ret s.

(** The cached rounding control, loaded on its first use. *)
Definition load_rc (s : Regs) : M Regs :=
  if rc_cache_valid s then ret s
  else emit_rc_preamble xb (Wd_rc_cached f) ;;; ret (set_rc_valid s true).

Definition emit_frndint (i : Z) (n : Node) (s : Regs) : M Regs :=
  let Dn := get s (input n 0) in
  '(Dd, s) <- result_fpr n i s ;;
  if fast_round cfg then emit_fp_dp1 1 8 Dd Dn ;;; ret s
  else if 0 <=? Wd_rc_cached f then
    s <- load_rc s ;;
    emit_x87_rc_dispatch_frint (Wd_rc_cached f) Dd Dn ;;;
    ret s
  else
    Wd_rc <- alloc_free_gpr ;;
    emit_rc_preamble xb Wd_rc ;;;
    emit_x87_rc_dispatch_frint Wd_rc Dd Dn ;;;
    free_gpr Wd_rc ;;;
    ret s.

Definition emit_fcsel (i : Z) (n : Node) (s : Regs) : M Regs :=
  let Dn := get s (input n 0) in
  let Dm := get s (input n 1) in
  '(Dd, s) <- result_fpr n i s ;;
  emit_fcsel_f64 Dd Dm Dn (Z.land (imm_bits n) 0xF) ;;;
  ret s.

Definition emit_cvt (i : Z) (n : Node) (s : Regs) : M Regs :=
  let Dn := get s (input n 0) in
  '(Dd, s) <- result_fpr n i s ;;
  match op n with
  | CvtF32ToF64 => emit_fcvt_s_to_d Dd Dn
  | _ => emit_fcvt_d_to_s Dd Dn
  end ;;;
  ret s.

(** *** Stores *)

Definition emit_store_fp (i : Z) (n : Node) (size : Z) (s : Regs) : M Regs :=
  let Dd_val := get s (input n 0) in
  let p := zget (fst (f_pairs f)) i in
  if 0 <=? p then
    let in_s := input (node (f_ctx f) p) 0 in
    emit_pair_access n (node (f_ctx f) p) size 0 Dd_val (get s in_s) ;;;
    if negb (in_s =? input n 0) && (zget last_use in_s =? i) && (0 <=? zget (node_fpr s) in_s) then
      free_fpr cfg (zget (node_fpr s) in_s) ;;;
      ret (set_fpr s in_s (-1))
    else ret s
  else fp_access n size 0 Dd_val ;;; ret s.

Definition emit_store_int (i : Z) (n : Node) (s : Regs) : M Regs :=
  let Dd_val := get s (input n 0) in
  Wd_int <- alloc_free_gpr ;;
  let is_64bit_int := match op n with StoreI64 => 1 | _ => 0 end in
  let store_size := match op n with StoreI16 => 1 | StoreI32 => 2 | _ => 3 end in
  s <- (if nz (Z.land (flags n) kTruncate) then
          emit_fcvt_fp_to_int is_64bit_int 1 3 Wd_int Dd_val ;;; ret s
        else if 0 <=? Wd_rc_cached f then
          s <- load_rc s ;;
          emit_x87_rc_dispatch_fcvt (Wd_rc_cached f) Wd_int Dd_val is_64bit_int ;;;
          ret s
        else emit_rcmode_dispatch Wd_int Dd_val is_64bit_int xb (Wd_tmp f) ;;; ret s) ;;
  gpr_access n store_size 0 Wd_int ;;;
  free_gpr Wd_int ;;;
  ret s.

(** *** Compares *)

(** [cmp] is the FCMP. *)
Definition emit_compare (i : Z) (n : Node) (cmp : M unit) (s : Regs) : M Regs :=
  let k := f_cmps f in
  '(Wd_packed, s) <-
    (if nzcv_skip k || nzcv_hoist k then
       s <- (if nzcv_hoist k && (Wd_nzcv_saved s <? 0) then
               Wd_nzcv_saved <- alloc_free_gpr ;;
               emit_mrs_nzcv Wd_nzcv_saved ;;;
               ret (set_saved s Wd_nzcv_saved)
             else ret s) ;;
       cmp ;;;
       Wd_packed <- alloc_free_gpr ;;
       emit_fcom_cc_pack_hoisted Wd_packed ;;;
       (if nzcv_hoist k && (i =? nzcv_last_cmp k) then
          emit_msr_nzcv (Wd_nzcv_saved s) ;;;
          free_gpr (Wd_nzcv_saved s) ;;;
          ret (Wd_packed, set_saved s (-1))
        else ret (Wd_packed, s))
     else
       Wd_save <- alloc_free_gpr ;;
       emit_mrs_nzcv Wd_save ;;;
       cmp ;;;
       Wd_packed <- alloc_free_gpr ;;
       emit_fcom_cc_pack Wd_packed Wd_save ;;;
       ret (Wd_packed, s)) ;;
  if is_fused n then ret (set_fpr s i Wd_packed)
  else
    emit_fcom_cc_write_sw xb Wd_packed ;;;
    free_gpr Wd_packed ;;;
    ret s.

Definition emit_fcomi (n : Node) (s : Regs) : M unit :=
  emit_fcmp_f64 (get s (input n 0)) (get s (input n 1)) ;;;
  Wd_z <- alloc_free_gpr ;;
  Wd_v <- alloc_free_gpr ;;
  Wd_c <- alloc_free_gpr ;;
  emit_cset 0 0 Wd_z ;;;
  emit_cset 0 6 Wd_v ;;;
  emit_cset 0 2 Wd_c ;;;
  emit_logical_shifted_reg 0 1 0 0 Wd_v 0 Wd_z Wd_z ;;;
  emit_logical_shifted_reg 0 0 1 0 Wd_v 0 Wd_c Wd_c ;;;
  emit_bitfield 0 2 0 2 1 Wd_z Wd_z ;;;
  emit_logical_shifted_reg 0 1 0 0 Wd_c 29 Wd_z Wd_z ;;;
  emit_logical_shifted_reg 0 1 0 0 Wd_v 28 Wd_z Wd_z ;;;
  emit_logical_shifted_reg 0 1 0 0 Wd_v 26 Wd_z Wd_z ;;;
  emit_msr_nzcv Wd_z ;;;
  free_gpr Wd_c ;;;
  free_gpr Wd_v ;;;
  free_gpr Wd_z.

(** *** Control and status words *)

Definition emit_store_cw (n : Node) (s : Regs) : M Regs :=
  Wd_cw <- alloc_free_gpr ;;
  gpr_access n 1 1 Wd_cw ;;;
  emit_ldr_str_imm 1 0 0 0 xb Wd_cw ;;;
  s <- (if 0 <=? Wd_rc_cached f then
          emit_bitfield 0 2 0 10 11 Wd_cw (Wd_rc_cached f) ;;; ret (set_rc_valid s true)
        else ret (set_rc_valid s false)) ;;
  free_gpr Wd_cw ;;;
  ret s.

Definition emit_load_cw (n : Node) : M unit :=
  Wd_cw <- alloc_free_gpr ;;
  emit_ldr_str_imm 1 0 1 0 xb Wd_cw ;;;
  gpr_access n 1 0 Wd_cw ;;;
  free_gpr Wd_cw.

(** The TOP field of the word in [Wd_sw]: [td] is TOP's distance from the
    entry's. *)
Definition emit_sw_top (td Wd_sw : Z) : M unit :=
  if negb (td =? 0) then
    Wd_adj <- alloc_free_gpr ;;
    (if 0 <=? top_known f then
       emit_movn 0 2 0 (u16 (Z.land (top_known f + td) 7)) Wd_adj
     else
       (if td <? 0 then emit_add_imm 0 1 0 0 (- td) (Wd_top f) Wd_adj
        else emit_add_imm 0 0 0 0 td (Wd_top f) Wd_adj) ;;;
       emit_and_imm 0 Wd_adj 0 0 2 Wd_adj) ;;;
    emit_bitfield 0 1 0 21 2 Wd_adj Wd_sw ;;;
    free_gpr Wd_adj
  else if entry_top_dirty f then
    emit_bitfield 0 1 0 21 2 (if top_known f =? 0 then GPR.XZR else Wd_top f) Wd_sw
  else ret tt.

Definition emit_fstsw (n : Node) (s : Regs) : M Regs :=
  '(Wd_sw, s) <-
    (if is_fused n then
       let fcmp_id := input n 0 in
       let Wd_packed := get s fcmp_id in
       Wd_sw <- emit_fcom_cc_write_sw_keep xb Wd_packed ;;
       free_gpr Wd_packed ;;;
       ret (Wd_sw, set_fpr s fcmp_id (-1))
     else
       Wd_sw <- alloc_free_gpr ;;
       emit_ldr_str_imm 1 0 1 (kX87StatusWordOff / 2) xb Wd_sw ;;;
       ret (Wd_sw, s)) ;;
  emit_sw_top (input n 2) Wd_sw ;;;
  emit_bitfield 0 1 0 0 15 Wd_sw (input n 1) ;;;
  free_gpr Wd_sw ;;;
  ret s.

(** *** Guest memory *)

Definition emit_guest_load (n : Node) : M unit :=
  let Rt := Z.land (aux n) 0xF in
  let sz := guest_mem_size_log2 (mem_operand n) in
  gpr_access n sz 1 Rt ;;;
  if nz (Z.land (Z.shiftr (aux n) 4) 1)
  then emit_bitfield 0 0 0 0 (if sz =? 0 then 7 else 15) Rt Rt else ret tt.

Definition emit_guest_store_r (n : Node) : M unit :=
  gpr_access n (guest_mem_size_log2 (mem_operand n)) 0 (Z.land (aux n) 0xF).

Definition emit_guest_store_i (n : Node) : M unit :=
  Rt <- emit_load_immediate 0 (u32 (aux n)) GPR.XZR ;;
  gpr_access n (guest_mem_size_log2 (mem_operand n)) 0 Rt ;;;
  free_gpr Rt.

(** *** The node loop *)

Definition emit_node (i : Z) (n : Node) (s : Regs) : M Regs :=
  match op n with
  | ReadSt => emit_read_st i n s
  | LoadF64 => emit_load_fp i n 3 s
  | LoadF32Raw => emit_load_fp i n 2 s
  | LoadI16 => emit_load_i16 i n s
  | LoadI32 => emit_load_i32 i n s
  | LoadI64 => emit_load_i64 i n s
  | ConstZero | ConstOne | ConstF64 => emit_const i n s
  | FAdd | FSub | FMul | FNMul | FDiv => emit_binary i n s
  | FMAdd | FMSub | FNMSub => emit_fma i n s
  | FNeg | FAbs | FSqrt => emit_unary i n s
  | FRndInt => emit_frndint i n s
  | FCSel => emit_fcsel i n s
  | CvtF32ToF64 | CvtF64ToF32 => emit_cvt i n s
  | StoreF64 => emit_store_fp i n 3 s
  | StoreF32Raw => emit_store_fp i n 2 s
  | StoreI16 | StoreI32 | StoreI64 => emit_store_int i n s
  | FCmp => emit_compare i n (emit_fcmp_f64 (get s (input n 0)) (get s (input n 1))) s
  | FTst => emit_compare i n (emit_fcmp_zero_f64 (get s (input n 0))) s
  | FComI => emit_fcomi n s ;;; ret s
  | StoreCW => emit_store_cw n s
  | LoadCW => emit_load_cw n ;;; ret s
  | GuestMovRR | GuestMovRI | GuestLea | GuestExt => emit_guest_node n ;;; ret s
  | GuestLoad => emit_guest_load n ;;; ret s
  | GuestStoreR => emit_guest_store_r n ;;; ret s
  | GuestStoreI => emit_guest_store_i n ;;; ret s
  | FStsw => emit_fstsw n s
  end.

Fixpoint emit_nodes (l : list (Z * Node)) (s : Regs) : M Regs :=
  match l with
  | [] => ret s
  | (i, n) :: l =>
      if dead n then emit_nodes l s
      else
        s <- (if zget (snd (f_pairs f)) i =? 1 then ret s else emit_node i n s) ;;
        s <- free_dead_inputs n i s ;;
        emit_nodes l s
  end.

(** ** The epilogue *)

#[local] Abbreviation ctx := (f_ctx f).

Definition final_top_known : Z :=
  if 0 <=? top_known f then Z.land (top_known f + top_delta ctx) 7 else -1.

Definition emit_final_top : M unit :=
  if negb (top_delta ctx =? 0) then
    if 0 <=? top_known f then emit_movn 0 2 0 (u16 final_top_known) (Wd_top f)
    else
      (if top_delta ctx <? 0 then emit_add_imm 0 1 0 0 (- top_delta ctx) (Wd_top f) (Wd_top f)
       else emit_add_imm 0 0 0 0 (top_delta ctx) (Wd_top f) (Wd_top f)) ;;;
      emit_and_imm 0 (Wd_top f) 0 0 2 (Wd_top f)
  else ret tt.

(** The slots to write back: depth and register. *)
Definition dirty_slots (s : Regs) : list (Z * Z) :=
  flat_map (fun d =>
    let val := zget (slot_val ctx) d in
    if val <? 0 then []
    else if match op (node ctx val) with ReadSt => initial_depth (node ctx val) =? d + top_delta ctx | _ => false end
    then []
    else if get s val <? 0 then [] else [(d, get s val)]) [0; 1; 2; 3; 4; 5; 6; 7].

(** [stp_phys] and [stp_fpr], sorted by physical index. *)
Fixpoint insert_slot (e : Z * Z) (l : list (Z * Z)) : list (Z * Z) :=
  match l with
  | [] => [e]
  | e' :: l' => if fst e <? fst e' then e :: l else e' :: insert_slot e l'
  end.

Definition sorted_slots (slots : list (Z * Z)) : list (Z * Z) :=
  fold_left (fun l e => insert_slot (Z.land (final_top_known + fst e) 7, snd e) l) slots [].

Fixpoint emit_static_stores (l : list (Z * Z)) : M unit :=
  match l with
  | [] => ret tt
  | (p1, d1) :: rest =>
      let single := emit_fstr_imm 3 d1 xb (s16 (Z.shiftr kX87RegFileOff 3 + p1)) in
      match rest with
      | (p2, d2) :: l' =>
          if p2 =? p1 + 1 then
            emit_fldp_fstp_d 0 (s16 (Z.shiftr kX87RegFileOff 3 + p1)) xb d1 d2 ;;;
            emit_static_stores l'
          else single ;;; emit_static_stores rest
      | [] => single
      end
  end.

Definition emit_slots (s : Regs) : M unit :=
  if 0 <=? top_known f then
    emit_static_stores (sorted_slots (dirty_slots s))
  else
    for_each (dirty_slots s) (fun e => emit_store_st xb (Wd_top f) (fst e) (Wd_tmp f) (snd e) (Xst_base f)).

(** [mask |= 3 << (((final_top + k) & 7) * 2)] over a list of offsets. *)
Definition static_tag_mask (offsets : list Z) : Z :=
  fold_left (fun m k => Z.lor m (u16 (Z.shiftl 3 (Z.land (final_top_known + k) 7 * 2)))) offsets 0.

Definition set_valid_count : Z :=
  if 0 <? entry_push_count f - top_delta ctx then entry_push_count f - top_delta ctx else 0.
Definition set_empty_count : Z :=
  if 0 <? top_delta ctx + entry_pop_count f - entry_push_count f
  then top_delta ctx + entry_pop_count f - entry_push_count f else 0.

(** The integers from 0 below [n]. *)
Definition upto (n : Z) : list Z := map Z.of_nat (seq 0 (Z.to_nat n)).

Definition emit_tags : M unit :=
  let set_valid := set_valid_count in
  let set_empty := set_empty_count in
  if (0 <? set_valid) || (0 <? set_empty) then
    Wd_tmp2 <- alloc_free_gpr ;;
    Wd_tagw <- alloc_free_gpr ;;
    (if 0 <=? top_known f then
       emit_ldr_str_imm 1 0 1 kX87TagWordImm12 xb Wd_tagw ;;;
       (if 0 <? set_empty then
          emit_movn 0 2 0 (static_tag_mask (map (fun k => - (k + 1)) (upto set_empty))) Wd_tmp2 ;;;
          emit_logical_shifted_reg 0 1 0 0 Wd_tmp2 0 Wd_tagw Wd_tagw
        else ret tt) ;;;
       (if 0 <? set_valid then
          emit_movn 0 2 0 (static_tag_mask (upto set_valid)) Wd_tmp2 ;;;
          emit_logical_shifted_reg 0 0 1 0 Wd_tmp2 0 Wd_tagw Wd_tagw
        else ret tt) ;;;
       emit_ldr_str_imm 1 0 0 kX87TagWordImm12 xb Wd_tagw
     else
       (if 0 <? set_empty then
          emit_x87_tag_set_empty_batch xb (Wd_top f) (Wd_tmp f) Wd_tmp2 Wd_tagw set_empty else ret tt) ;;;
       (if 0 <? set_valid then
          emit_x87_tag_set_valid_batch xb (Wd_top f) (Wd_tmp f) Wd_tmp2 Wd_tagw set_valid else ret tt)) ;;;
    free_gpr Wd_tagw ;;;
    free_gpr Wd_tmp2
  else ret tt.

(** The registers of values still held at the end. *)
Definition free_held (s : Regs) : M unit :=
  for_each (upto (num_nodes ctx)) (fun i =>
    if 0 <=? zget (node_fpr s) i then free_fpr cfg (zget (node_fpr s) i) else ret tt).

Definition emit_epilogue (s : Regs) : M unit :=
  emit_final_top ;;;
  emit_slots s ;;;
  (if negb (top_delta ctx =? 0) || entry_top_dirty f then emit_store_top xb (Wd_top f) (Wd_tmp f) else ret tt) ;;;
  emit_tags ;;;
  free_held s.

(** emit_body *)
Definition emit_body : M unit :=
  s <- emit_nodes (numbered ctx) (mkRegs no_nodes (rc_entry_valid f) (-1)) ;;
  emit_epilogue s.
End Body.

(** ** The frame *)

(** The body's frame with a known TOP, or -1. *)
Definition with_top_known (f : Frame) (t : Z) : Frame :=
  mkFrame (f_ctx f) (f_last_use f) (f_pairs f) (f_bases f) (f_cmps f) (Xbase f) (Wd_top f) (Wd_tmp f)
    (Xst_base f) (Wd_rc_cached f) (rc_entry_valid f) (entry_top_dirty f) (entry_push_count f)
    (entry_pop_count f) t.

Definition top0_benefit (c : Context) : Z :=
  let reads := filter (fun e => Op_eqb (op (snd e)) ReadSt && (0 <? initial_depth (snd e))) (live_nodes c) in
  let stores := filter (fun d =>
    let val := zget (slot_val c) d in
    negb ((val <? 0) || (num_nodes c <=? val)) &&
    negb (Op_eqb (op (node c val)) ReadSt && (initial_depth (node c val) =? d + top_delta c)))
    [1; 2; 3; 4; 5; 6; 7] in
  2 * Z.of_nat (length reads) + 2 * Z.of_nat (length stores) + (if negb (top_delta c =? 0) then 3 else 0).

(** A planned base: a carried register with its key, or its address computed
    with no displacement. *)
Definition with_disp0 (o : IROperand) : IROperand :=
  mkOperand (kind o) (op_size o) (byte2 o) (seg_override o) (mem_flags o) (base_reg o) (index_reg o)
    (shift_amount o) 0.

Definition materialize_base (c : X87Cache) (o : IROperand) : M Base :=
  match (if bridge_carry cfg
         then find (fun b => (0 <=? c_gpr b) && carried_key_match b o) (carried_base c) else None) with
  | Some b => ret (mkBase o (c_gpr b) false)
  | None =>
      r <- compute_operand_address tgt 1 (with_disp0 o) GPR.XZR ;;
      ret (mkBase o r (nz (Z.land (Z.shiftr kGprScratchMask r) 1)))
  end.

Fixpoint materialize_bases (c : X87Cache) (l : list IROperand) : M (list Base) :=
  match l with
  | [] => ret []
  | o :: l =>
      b <- materialize_base c o ;;
      bs <- materialize_bases c l ;;
      ret (b :: bs)
  end.

(** [Wd_rc_cached] and [rc_entry_valid]. *)
Definition acquire_rc (x : Context) (c : X87Cache) : M (Z * bool) :=
  if negb (fast_round cfg) then
    if bridge_carry cfg && (0 <=? carried_rc_gpr c) then ret (carried_rc_gpr c, true)
    else if use_rc_cache x then r <- alloc_free_gpr ;; ret (r, false)
    else ret (-1, false)
  else ret (-1, false).

(** ** What the run leaves in the cache *)

Definition gpr_carryable (g : Z) : bool :=
  (0 <=? g) && negb (g =? 29) && nz (Z.land (Z.shiftr kGprScratchMask g) 1).

Definition carried_of (b : Base) : CarriedBase :=
  let o := b_rep b in
  mkCarried (addr_size o) (mem_flags o) (base_reg o) (index_reg o) (shift_amount o) (b_reg b).

(** [base_carried]: which planned bases are carried on, at most [room]. *)
Fixpoint carry_planned (l : list Base) (room : nat) : list bool :=
  match l, room with
  | [], _ => []
  | _ :: l, O => false :: carry_planned l O
  | b :: l, S r => if gpr_carryable (b_reg b) then true :: carry_planned l r else false :: carry_planned l room
  end.

(** Then the older entries that are no duplicates and still valid. *)
Fixpoint carry_older (written : Z) (l : list CarriedBase) (next : list CarriedBase) : list CarriedBase :=
  match l with
  | [] => next
  | oc :: l =>
      if kMaxCarried <=? Z.of_nat (length next) then next
      else if (c_gpr oc <? 0) || existsb (fun b => c_gpr b =? c_gpr oc) next || carried_hit written oc
      then carry_older written l next
      else carry_older written l (next ++ [oc])
  end.

Definition run_has_fstsw (x : Context) : bool := existsb (fun e => Op_eqb (op (snd e)) FStsw) (live_nodes x).

(** [carried_base] filled from [next], the rest cleared. *)
Definition carried_slots (c : X87Cache) (next : list CarriedBase) : list CarriedBase :=
  next ++ skipn (length next) (map drop_base (carried_base c)).

(** The cache after the run, [base_carried] and [rc_carried]. *)
Definition transfer (x : Context) (c : X87Cache) (bases : list Base) (Wd_rc : Z) : X87Cache * list bool * bool :=
  let none := map (fun _ => false) bases in
  if negb (bridge_carry cfg) then (c, none, false)
  else if consumed x <? run_remaining c then
    let base_carried := carry_planned bases (Z.to_nat kMaxCarried) in
    let planned := map fst (filter snd (combine bases base_carried)) in
    let written := Z.lor (guest_written_mask x) (if run_has_fstsw x then 1 else 0) in
    let next := carry_older written (carried_base c) (map carried_of planned) in
    let rc := (0 <=? Wd_rc) && (Z.of_nat (length next) <? kMaxCarried) && gpr_carryable Wd_rc in
    (with_carried c (carried_slots c next) (if rc then Wd_rc else -1), base_carried, rc)
  else (carried_clear c, none, false).

(** ** lower *)

Definition buffer_end : M Z := fun s => Some (buf_end s, s).
Definition masks : M (Z * Z) := fun s => Some ((free_gpr_mask s, free_fpr_mask s), s).
Definition restore_masks (m : Z * Z) : M unit := fun s => Some (tt, set_fpr_mask (set_gpr_mask s (fst m)) (snd m)).

(** [buf.data[off / 4] |= v] *)
Definition patch (off v : Z) : M unit := fun s =>
  let k := Z.to_nat (off / 4) in
  Some (tt, mkAsm (list_set (insn_buf s) k (Z.lor (nth k (insn_buf s) 0) v)) (free_gpr_mask s)
              (free_fpr_mask s) (_fixups s) (external_fixups s)).

(** The two bodies behind the guard on TOP. *)
Definition emit_guarded (f : Frame) : M unit :=
  saved <- masks ;;
  guard_off <- buffer_end ;;
  emit_cbz 0 1 (Wd_top f) 0 ;;;
  emit_body (with_top_known f 0) ;;;
  skip_off <- buffer_end ;;
  emit_b 0 ;;;
  e <- buffer_end ;;
  patch guard_off (Z.shiftl (Z.land (u32 ((e - guard_off) / 4)) 0x7FFFF) 5) ;;;
  restore_masks saved ;;;
  emit_body (with_top_known f (-1)) ;;;
  e <- buffer_end ;;
  patch skip_off (Z.land (u32 ((e - skip_off) / 4)) 0x3FFFFFF).

Definition lower (x : Context) (p : Plan) (c : X87Cache) : M X87Cache :=
  '(xbase, top, c) <- x87_begin c ;;
  let xst := x87_get_st_base c in
  tmp <- alloc_gpr 2 ;;
  bases <- materialize_bases c (map (fun k => mem_operand (node x k)) (addr_cache_rep p)) ;;
  let pr := compute_pairs x (Some (map b_rep bases)) in
  '(rc, rc_valid) <- acquire_rc x c ;;
  let f := mkFrame x (extend_pairs x pr (compute_last_uses x)) pr bases (plan_compares x p)
             xbase top tmp xst rc rc_valid (nz (top_dirty c)) (deferred_push_count c)
             (deferred_pop_count c) (-1) in
  (if 4 <=? top0_benefit x then emit_guarded f else emit_body f) ;;;
  let c := reset_perm (with_deferred c 0 0 0) in
  let '(c, base_carried, rc_carried) := transfer x c bases rc in
  for_each (combine bases base_carried) (fun e =>
    if b_owned (fst e) && negb (snd e) then free_gpr (b_reg (fst e)) else ret tt) ;;;
  (if (0 <=? rc) && negb rc_carried then free_gpr rc else ret tt) ;;;
  free_gpr tmp ;;;
  ret c.
End Lower.
