(* ===== verification/X87IRCompile.v ===== *)
(** compile_run, the entry point of X87IRLower.cpp: build, optimize, plan, and
    lower a run when the free registers suffice. *)

From S2P Require Import Prelude Emit IROperand GuestMem X87IR X87IRBuild X87IROptimize.
From S2P Require Import TranslatorHelpers X87Cache X87IRPlan X87IRLower.

Inductive CompileError := kSuccess | kBuildFailed | kFprPressure | kGprPressure.

(** [while (pool) { n++; pool &= pool - 1; }] on a uint32_t. *)
Fixpoint count_bits (fuel : nat) (pool : Z) : Z :=
  match fuel with
  | O => 0
  | S fuel => if pool =? 0 then 0 else 1 + count_bits fuel (Z.land pool (pool - 1))
  end.
Definition popcount (pool : Z) : Z := count_bits 32 pool.

(** The options of the builder and the optimizer. *)
Record IrConfig := mkIrConfig {
  transparent_int : bool;
  ir_const_promote : bool;
  fast_recip_div : bool;
  f32_narrow : bool;
  f32_arith : bool
}.

Section Compile.
Context (cfg : RosettaConfig) (ir : IrConfig) (tgt : Target).
Context (range_is_readonly : Z -> Z -> bool) (host_mem : mem).

(** The registers the first [n] planned bases newly pin. *)
Definition chargeable (c : X87Cache) (x : Context) (reps : list Z) : Z :=
  if negb (bridge_carry cfg) then Z.of_nat (length reps)
  else
    Z.of_nat (length (filter (fun k =>
      let mo := mem_operand (node x k) in
      negb ((addr_size mo =? IROperandSize.S64) && (mem_flags mo =? 1)) &&
      negb (existsb (fun b => (0 <=? c_gpr b) && carried_key_match b mo) (carried_base c))) reps)).

(** [while (addr_n > 0 && peak + chargeable(addr_n) > gpr_available) addr_n--] *)
Fixpoint degrade_plan (c : X87Cache) (x : Context) (reps : list Z) (peak gpr_available : Z) (addr_n : nat) : list Z :=
  match addr_n with
  | O => []
  | S n =>
      if gpr_available <? peak + chargeable c x (firstn addr_n reps)
      then degrade_plan c x reps peak gpr_available n else firstn addr_n reps
  end.

(** The gate on general registers: the cache and the number available, after a
    release of the carried ones where that is needed. *)
Definition gpr_gate (c : X87Cache) (peak : Z) : M (X87Cache * Z) := fun s =>
  if (popcount (free_gpr_mask s) <? peak) && carried_any c then
    let '(c, mask) := carried_release c (free_gpr_mask s) in
    let s := set_gpr_mask s mask in
    Some ((c, popcount (free_gpr_mask s)), s)
  else Some ((c, popcount (free_gpr_mask s)), s).

Definition free_fprs : M Z := fun s => Some (popcount (free_fpr_mask s), s).

(** The instructions consumed, the outcome and the cache. *)
Definition compile_run (instr_array : list IRInstr) (start_idx run_length : nat) (c : X87Cache)
    : M (Z * CompileError * X87Cache) :=
  let perm := if nz (perm_dirty c) then Some (perm c) else None in
  match build range_is_readonly host_mem (transparent_int ir) instr_array start_idx run_length perm
          (ir_const_promote ir) with
  | None => fun _ => None
  | Some (false, _) => ret (0, kBuildFailed, c)
  | Some (true, x) =>
      match optimize (fast_recip_div ir) (f32_narrow ir) (f32_arith ir) x with
      | None => fun _ => None
      | Some x =>
          let dead := nzcv_dead_after_run instr_array (Z.of_nat start_idx + consumed x) in
          available <- free_fprs ;;
          if available <? peak_live_fprs x then ret (0, kFprPressure, c)
          else
            let entry_deferred := nz (top_dirty c) || (0 <? deferred_push_count c) || (0 <? deferred_pop_count c) in
            let gprs_cached := (0 <? run_remaining c) && nz (gprs_valid c) in
            let peak := peak_live_gprs cfg x (mkPlan [] dead) entry_deferred gprs_cached in
            '(c, gpr_available) <- gpr_gate c peak ;;
            if gpr_available <? peak then ret (0, kGprPressure, c)
            else
              let reps := plan_addr_cache x in
              let reps := degrade_plan c x reps peak gpr_available (length reps) in
              c <- lower cfg tgt x (mkPlan reps dead) c ;;
              ret (consumed x, kSuccess, c)
      end
  end.
End Compile.
