(* ===== verification/X87CacheProps.v ===== *)
(** The cache and the lookahead: the run the lookahead counts is the longest
    one there is, the keep-alive table agrees with the runtime's handlers, and
    what a cache pins is kept by its methods. *)

From S2P Require Import Prelude Opcodes IROperand X87Cache X87State X87Props X87Runtime X87RuntimeProps Fpu.

(** ** Runs *)

Section Runs.
Context (demand : IRInstr -> option Z) (disabled : Z) (bridge keepalive : bool).

#[local] Abbreviation member := (fun i => run_member disabled keepalive (opcode i)).
#[local] Abbreviation gap_ok := (bridgeable demand).

(** A run: groups of members, and between two groups at most [kMaxBridgeGap]
    bridgeable instructions. *)
Inductive run_of : list IRInstr -> Prop :=
| run_of_group g : Forall (fun i => member i = true) g -> run_of g
| run_of_bridge g gap r : bridge = true -> g <> [] -> Forall (fun i => member i = true) g ->
    gap <> [] -> (length gap <= Z.to_nat kMaxBridgeGap)%nat -> Forall (fun i => gap_ok i = true) gap ->
    r <> [] -> run_of r -> run_of (g ++ gap ++ r).

(** The longest run at the head of a list has [n] instructions. *)
Definition longest_run (l : list IRInstr) (n : nat) : Prop :=
  (exists p q, l = p ++ q /\ length p = n /\ run_of p) /\
  (forall p q, l = p ++ q -> run_of p -> (length p <= n)%nat).

Context (apart : forall i, gap_ok i = true -> member i = false).

Lemma run_of_head i r : run_of (i :: r) -> member i = true.
Proof.
  intros H. inversion H as [g Hg | g gap r' _ Hne Hg _ _ _ _ _ E]; subst.
  - apply Forall_inv in Hg. exact Hg.
  - destruct g as [|j g]; [congruence|]. injection E as -> _. apply Forall_inv in Hg. exact Hg.
Qed.

Definition stops (f : IRInstr -> bool) (l : list IRInstr) : Prop :=
  match l with [] => True | i :: _ => f i = false end.

Lemma group_split l :
  exists g rest, l = g ++ rest /\ group_length disabled keepalive l = length g /\
    Forall (fun i => member i = true) g /\ stops member rest.
Proof.
  induction l as [|i l (g & rest & -> & E & Hg & Hs)]; [exists [], []; repeat constructor|].
  cbn [group_length]. destruct (run_member disabled keepalive (opcode i)) eqn:Hi.
  - exists (i :: g), rest. rewrite E. repeat split; auto.
  - exists [], (i :: g ++ rest). repeat split; auto.
Qed.

Lemma gap_split n l :
  exists gap rest, l = gap ++ rest /\ gap_length demand n l = length gap /\ (length gap <= n)%nat /\
    Forall (fun i => gap_ok i = true) gap /\ (length gap = n \/ stops gap_ok rest).
Proof.
  revert l; induction n as [|n IH]; intros l.
  - exists [], l. destruct l; repeat split; cbn; auto.
  - destruct l as [|i l]; [exists [], []; repeat split; cbn; auto; lia|].
    cbn [gap_length]. destruct (gap_ok i) eqn:Hi.
    + destruct (IH l) as (gap & rest & -> & E & Hn & Hg & Hs).
      exists (i :: gap), rest. rewrite E. cbn. intuition auto with arith.
    + exists [], (i :: l). repeat split; cbn; auto; lia.
Qed.

(** A prefix all of whose elements pass a test the rest's head fails is the
    only one. *)
Lemma split_unique (f : IRInstr -> bool) a b a' b' :
  a ++ b = a' ++ b' -> Forall (fun i => f i = true) a -> Forall (fun i => f i = true) a' ->
  stops f b -> stops f b' -> a = a' /\ b = b'.
Proof.
  revert a'; induction a as [|x a IH]; intros [|y a'] E Ha Ha' Hb Hb'; cbn in *.
  - auto.
  - subst b. cbn in Hb. apply Forall_inv in Ha'. congruence.
  - subst b'. cbn in Hb'. apply Forall_inv in Ha. congruence.
  - injection E as -> E. apply Forall_cons_iff in Ha as [_ Ha]. apply Forall_cons_iff in Ha' as [_ Ha'].
    destruct (IH a' E Ha Ha' Hb Hb') as [-> ->]. auto.
Qed.

(** The group at the head bounds every run that crosses no gap. *)
Lemma group_longest g rest p q :
  g ++ rest = p ++ q -> stops member rest -> Forall (fun i => member i = true) p -> (length p <= length g)%nat.
Proof.
  revert p; induction g as [|x g IH]; intros p E Hs Hp; cbn in E.
  - destruct p as [|y p]; [cbn; lia|]. subst rest. cbn in Hs. apply Forall_inv in Hp. congruence.
  - destruct p as [|y p]; [cbn; lia|]. injection E as -> E. apply Forall_cons_iff in Hp as [_ Hp].
    specialize (IH p E Hs Hp). cbn. lia.
Qed.

Lemma stops_gap gap rest : gap <> [] -> Forall (fun i => gap_ok i = true) gap -> stops member (gap ++ rest).
Proof. destruct gap as [|i gap]; [congruence|]. intros _ H. apply Forall_inv in H. exact (apart i H). Qed.

Lemma stops_run r q : r <> [] -> run_of r -> stops gap_ok (r ++ q).
Proof.
  destruct r as [|i r]; [congruence|]. intros _ H. apply run_of_head in H. cbn.
  destruct (gap_ok i) eqn:E; [apply apart in E; congruence | reflexivity].
Qed.

Lemma app_same_length (a b a' b' : list IRInstr) : a ++ b = a' ++ b' -> length a = length a' -> a = a' /\ b = b'.
Proof.
  revert a'; induction a as [|x a IH]; intros [|y a'] E H; cbn in *; try discriminate; auto.
  injection E as -> E. injection H as H. destruct (IH a' E H) as [-> ->]. auto.
Qed.

(** A run that crosses a gap crosses the one the lookahead measures. *)
Lemma bridge_unique g rest g' gap' r q :
  g ++ rest = (g' ++ gap' ++ r) ++ q ->
  Forall (fun i => member i = true) g -> stops member rest ->
  Forall (fun i => member i = true) g' -> gap' <> [] -> Forall (fun i => gap_ok i = true) gap' ->
  g = g' /\ rest = gap' ++ r ++ q.
Proof.
  intros E Hg Hs Hg' Hne Hgap. rewrite <- !app_assoc in E.
  apply (split_unique member _ _ _ _ E); auto. apply stops_gap; assumption.
Qed.

Lemma gap_unique gap next gap' r q :
  gap ++ next = gap' ++ r ++ q ->
  (length gap = Z.to_nat kMaxBridgeGap \/ stops gap_ok next) -> Forall (fun i => gap_ok i = true) gap ->
  (length gap' <= Z.to_nat kMaxBridgeGap)%nat -> Forall (fun i => gap_ok i = true) gap' -> r <> [] -> run_of r ->
  gap = gap' /\ next = r ++ q.
Proof.
  intros E Hstop Hgap Hlen Hgap' Hr Hrun.
  assert (Hs' := stops_run r q Hr Hrun).
  destruct Hstop as [Hfull | Hstop]; [|apply (split_unique gap_ok _ _ _ _ E); assumption].
  assert (Hlen' : (length gap <= length gap')%nat).
  { clear -E Hgap Hgap' Hs'. revert gap' E Hgap'; induction gap as [|x gap IH]; intros [|y gap'] E Hgap'; cbn in *;
      try lia.
    - rewrite <- E in Hs'. cbn in Hs'. apply Forall_inv in Hgap. congruence.
    - injection E as -> E. apply Forall_cons_iff in Hgap as [_ Hgap]. apply Forall_cons_iff in Hgap' as [_ Hgap'].
      specialize (IH Hgap gap' E Hgap'). lia. }
  apply (app_same_length _ _ _ _ E). lia.
Qed.

(** What the loop counts from [l] on, after a gap or at the start. *)
Lemma lookahead_loop_correct fuel l count :
  (length l <= fuel)%nat -> 0 <= count -> (0 < count -> ~ stops member l) ->
  exists n, lookahead_loop demand disabled bridge keepalive fuel l count = Some (count + Z.of_nat n) /\
            longest_run l n.
Proof.
  revert l count; induction fuel as [|fuel IH]; intros l count Hfuel Hc Hm.
  { destruct l as [|i l]; [|cbn in Hfuel; lia].
    destruct (Z.ltb_spec 0 count) as [Hpos|]; [exfalso; exact (Hm Hpos I)|].
    replace count with 0 by lia.
    exists O. cbn. rewrite orb_true_r. split; [reflexivity|]. split.
    + exists [], []. repeat constructor.
    + intros p q E _. destruct p; [cbn; lia | discriminate]. }
  cbn [lookahead_loop]. destruct (group_split l) as (g & rest & -> & Eg & Hg & Hs). rewrite Eg.
  rewrite skipn_app, skipn_all, Nat.sub_diag. cbn [skipn app].
  destruct (gap_split (Z.to_nat kMaxBridgeGap) rest) as (gap & next & -> & Egap & Hlen & Hgap & Hstop).
  rewrite Egap, skipn_app, skipn_all, Nat.sub_diag. cbn [skipn app].
  assert (Hgroup : run_of g) by (constructor; exact Hg).
  assert (Hcross : forall p q, g ++ gap ++ next = p ++ q -> run_of p -> (length g < length p)%nat ->
            exists r q', bridge = true /\ g <> [] /\ gap <> [] /\ p = g ++ gap ++ r /\ next = r ++ q' /\
                         r <> [] /\ run_of r).
  { intros p q E Hp Hl.
    inversion Hp as [p' Hp' | g' gap' r Hb Hne Hg' Hne' Hlen' Hgap' Hr Hrun]; subst p.
    - assert (H := group_longest _ _ _ _ E Hs Hp'). lia.
    - apply bridge_unique in E; try assumption. destruct E as [<- E].
      apply gap_unique in E; try assumption. destruct E as [<- ->]. exists r, q. auto 9. }
  destruct (bool_dec (negb bridge || (count + Z.of_nat (length g) =? 0)) true) as [Hend | Hgo].
  - rewrite Hend. exists (length g). split; [reflexivity|]. split; [exists g, (gap ++ next); auto|].
    intros p q E Hp. destruct (Nat.le_gt_cases (length p) (length g)) as [|Hl]; [assumption|exfalso].
    destruct (Hcross p q E Hp Hl) as (r & q' & Hb & Hne & _). rewrite Hb in Hend. cbn [negb orb] in Hend.
    apply Z.eqb_eq in Hend. destruct g; [congruence | cbn [length] in Hend; lia].
  - apply not_true_is_false in Hgo. rewrite Hgo. apply orb_false_iff in Hgo as [Hb Hz].
    apply negb_false_iff in Hb. apply Z.eqb_neq in Hz.
    assert (Hgne : g <> []).
    { intros ->. cbn in Hz. apply Hm; [lia|]. exact Hs. }
    set (lands := match next with i :: _ => member i | [] => false end).
    destruct ((length gap =? 0)%nat || negb lands) eqn:Hland.
    + exists (length g). split; [reflexivity|]. split; [exists g, (gap ++ next); auto|].
      intros p q E Hp. destruct (Nat.le_gt_cases (length p) (length g)) as [|Hl]; [assumption|exfalso].
      destruct (Hcross p q E Hp Hl) as (r & q' & _ & _ & Hgap0 & _ & -> & Hr & Hrun).
      destruct gap as [|x gap]; [congruence|]. destruct r as [|y r]; [congruence|].
      apply run_of_head in Hrun. subst lands. cbn in Hland. rewrite Hrun in Hland. discriminate.
    + apply orb_false_iff in Hland as [Hg0 Hland]. apply Nat.eqb_neq in Hg0. apply negb_false_iff in Hland.
      destruct (IH next (count + Z.of_nat (length g) + Z.of_nat (length gap))) as (n & En & (r & q & -> & Hn & Hr) & Hmax).
      * rewrite !length_app in Hfuel. lia.
      * lia.
      * intros _ Hst. subst lands. destruct next as [|i next]; [discriminate|]. cbn in Hst. congruence.
      * exists (length g + length gap + n)%nat. split; [rewrite En; f_equal; lia|].
        assert (Hrne : r <> []).
        { intros ->. subst n lands. destruct q as [|i q]; [discriminate|]. cbn in Hland.
          specialize (Hmax [i] q eq_refl). cbn in Hmax. enough (1 <= 0)%nat by lia. apply Hmax.
          constructor. auto. }
        split.
        -- exists (g ++ gap ++ r), q. rewrite <- !app_assoc, !length_app. repeat split; [lia|].
           apply run_of_bridge; auto. intros ->; cbn in Hg0; lia.
        -- intros p q' E Hp. destruct (Nat.le_gt_cases (length p) (length g)) as [|Hl]; [lia|].
           destruct (Hcross p q' E Hp Hl) as (r' & q2 & _ & _ & _ & -> & E2 & _ & Hr').
           specialize (Hmax r' q2 E2 Hr'). rewrite !length_app. lia.
Qed.

(** The lookahead always answers, and its answer is the length of the
  longest run at [insn_idx].  The demand model is one that never admits a run
  member. *)
Lemma lookahead_spec (instr_array : list IRInstr) (insn_idx : nat) :
  exists n, lookahead demand disabled bridge keepalive instr_array insn_idx = Some (Z.of_nat n) /\
            longest_run (skipn insn_idx instr_array) n.
Proof. apply (lookahead_loop_correct _ (skipn insn_idx instr_array) 0); lia. Qed.
End Runs.

(** ** Runtime calls inside a run *)

(** The handler Rosetta calls for a keep-alive instruction. *)
Definition keepalive_handler (op : Z) : option handler :=
  option_map snd (find (fun e => fst e =? op)
    [ (kOpcodeName.f2xm1, Hf2xm1); (kOpcodeName.fsin, Hfsin); (kOpcodeName.fcos, Hfcos);
      (kOpcodeName.fscale, Hfscale); (kOpcodeName.fxam, Hfxam); (kOpcodeName.fprem, Hfprem);
      (kOpcodeName.fprem1, Hfprem1); (kOpcodeName.fptan, Hfptan); (kOpcodeName.fsincos, Hfsincos);
      (kOpcodeName.fyl2x, Hfyl2x); (kOpcodeName.fyl2xp1, Hfyl2xp1); (kOpcodeName.fpatan, Hfpatan) ]).

(** C35: The TOP delta the cache applies after a keep-alive call is the one the
  runtime's handler leaves, for every keep-alive instruction and every state. *)
Theorem keepalive_delta_correct (libm : LibM) (op d : Z) (s : X87State) :
  LibMOk libm -> wf s -> runtime_keepalive_top_delta op = Some d ->
  exists h, keepalive_handler op = Some h /\ topIndex (run h s) = (topIndex s + d) mod 8.
Proof.
  intros Hlib Hs Hd. unfold runtime_keepalive_top_delta in Hd.
  assert (Hop : exists h, keepalive_handler op = Some h /\ delta h = d /\ handler_ok h).
  { repeat match type of Hd with
    | (if existsb (Z.eqb op) ?l then Some _ else _) = _ =>
        let E := fresh "E" in destruct (existsb (Z.eqb op) l) eqn:E;
        [ injection Hd as <-; apply existsb_exists in E as (x & Hx & Ex); apply Z.eqb_eq in Ex; subst x;
          cbn [In] in Hx;
          repeat (destruct Hx as [<- | Hx]; [eexists; repeat split; reflexivity |]); destruct Hx
        | clear E ]
    end. discriminate. }
  destruct Hop as (h & Eh & <- & Hok). exists h. split; [exact Eh|].
  apply (eff_top _ _ _ _ (run_effect h s Hs Hok)).
Qed.

Lemma keepalive_delta_correct_witness :
  exists h, keepalive_handler kOpcodeName.fptan = Some h /\
            topIndex (@run trivial_libm h X87State_init) = (topIndex X87State_init + (-1)) mod 8.
Proof.
  apply (keepalive_delta_correct trivial_libm kOpcodeName.fptan (-1) X87State_init);
    [exact trivial_libm_ok | exact wf_init | reflexivity].
Defined.

(** ** Carried bases across a bridged instruction *)

(** The memory operand of a carried base. *)
Definition base_operand (b : CarriedBase) : IROperand :=
  mkOperand IROperandKind.MemRef IROperandSize.S64 (c_addr_size b) 0 (c_mem_flags b) (c_base_reg b)
    (c_index_reg b) (c_shift_amount b) 0.

(** A destination the decoder produces: memory or a general register. *)
Definition gpr_or_mem_dst (i : IRInstr) : bool :=
  (1 <=? num_operands i) &&
  (is_mem_kind (operand i 0) || ((kind (operand i 0) =? IROperandKind.Register) && is_gpr (reg (operand i 0)))).

Lemma index_range_gpr v : 0 <= index v < 16.
Proof.
  unfold index. destruct (is_mm v).
  - change 0x07 with (Z.ones 3). rewrite Z.land_ones by lia. pose proof (Z.mod_pos_bound v (2 ^ 3)). lia.
  - change 0x0F with (Z.ones 4). rewrite Z.land_ones by lia. pose proof (Z.mod_pos_bound v (2 ^ 4)). lia.
Qed.

Lemma gap_written_mov i :
  In (opcode i) [kOpcodeName.mov; kOpcodeName.movzx; kOpcodeName.movsx; kOpcodeName.movsxd; kOpcodeName.lea] ->
  gpr_or_mem_dst i = true ->
  gap_written_gpr_mask i = if is_mem_kind (operand i 0) then 0 else Z.shiftl 1 (index (reg (operand i 0))).
Proof.
  intros Hop Hd. unfold gpr_or_mem_dst in Hd. apply andb_true_iff in Hd as [Hn Hd].
  assert (E : gap_written_gpr_mask i =
    if (1 <=? num_operands i) && (kind (operand i 0) =? IROperandKind.Register) && is_gpr (reg (operand i 0))
    then Z.lor 0 (Z.shiftl 1 (index (reg (operand i 0)))) else 0).
  { unfold gap_written_gpr_mask. cbn [In] in Hop.
    repeat (destruct Hop as [<- | Hop]; [reflexivity|]). destruct Hop. }
  rewrite E, Hn. unfold is_mem_kind in *.
  destruct (Z.eqb_spec (kind (operand i 0)) IROperandKind.Register) as [Ek | Ek].
  - rewrite Ek in *. cbn in Hd. rewrite Hd. reflexivity.
  - rewrite andb_false_l, orb_false_r in Hd. rewrite Hd. reflexivity.
Qed.

Lemma mov_store_regs segbase ro s s' dst src : exec_mov_store segbase ro s dst src = Some s' -> regs s' = regs s.
Proof.
  unfold exec_mov_store, write, guard. destruct (0 <? _); [|discriminate].
  destruct (kind src =? _), (_ && _); intros H; first [discriminate | injection H as <-; reflexivity].
Qed.

(** The mask of a bridged guest instruction covers what it writes. *)
Lemma gap_written_sound segbase ro s s' i x :
  x87op_of (opcode i) = Some Guest -> gpr_or_mem_dst i = true -> exec segbase ro s i = Some s' ->
  Z.testbit (gap_written_gpr_mask i) x = false -> regs s' x = regs s x.
Proof.
  intros Hg Hd He Hx. unfold exec in He. rewrite Hg in He. unfold exec_guest in He.
  destruct ((opcode i =? kOpcodeName.nop) || (opcode i =? kOpcodeName.wait)) eqn:Hnop; [injection He as <-; reflexivity|].
  assert (Hop : In (opcode i) [kOpcodeName.mov; kOpcodeName.movzx; kOpcodeName.movsx; kOpcodeName.movsxd; kOpcodeName.lea]).
  { unfold x87op_of in Hg. destruct (find _ x87op_table) as [[o k]|] eqn:Ef; [|discriminate].
    cbn in Hg. injection Hg as ->. apply find_some in Ef as [Hin Ho]. cbn in Ho. apply Z.eqb_eq in Ho. subst o.
    unfold x87op_table in Hin. cbn [In] in Hin. apply orb_false_iff in Hnop as [H1 H2].
    apply Z.eqb_neq in H1, H2.
    repeat (destruct Hin as [Hin | Hin]; [first [discriminate | injection Hin as E; first [congruence | rewrite <- E; cbn; tauto]]|]). destruct Hin. }
  rewrite (gap_written_mov i Hop Hd) in Hx.
  destruct (is_mem_kind (operand i 0)) eqn:Hm.
  - apply mov_store_regs in He. rewrite He. reflexivity.
  - assert (Hne : x <> index (reg (operand i 0))).
    { intros ->. rewrite Z.shiftl_spec in Hx by (pose proof (index_range_gpr (reg (operand i 0))); lia).
      rewrite Z.sub_diag in Hx. discriminate. }
    assert (Hset : forall v, set_reg (regs s) (index (reg (operand i 0))) v x = regs s x).
    { intros v. unfold set_reg. destruct (Z.eqb_spec x (index (reg (operand i 0)))); congruence. }
    destruct (is_mem_kind (operand i 1) && negb (opcode i =? kOpcodeName.lea)).
    + unfold exec_mov_load, guard in He. destruct (0 <? Z.of_nat (size_bytes (op_size (operand i 1)))); [|discriminate].
      destruct (read _ _ _ _); [|discriminate]. injection He as <-. apply Hset.
    + destruct (exec_reg _ _ _ _); [|discriminate]. injection He as <-. apply Hset.
Qed.

Lemma addr_frame segbase r r' b :
  (nz (Z.land (c_mem_flags b) 1) = true -> r' (Z.land (c_base_reg b) 0xF) = r (Z.land (c_base_reg b) 0xF)) ->
  (nz (Z.land (c_mem_flags b) 2) = true -> r' (Z.land (c_index_reg b) 0xF) = r (Z.land (c_index_reg b) 0xF)) ->
  addr segbase r' (base_operand b) = addr segbase r (base_operand b).
Proof.
  intros Hb Hi. unfold addr, mem_sum, asize. cbn.
  destruct (nz (Z.land (c_mem_flags b) 1)), (nz (Z.land (c_mem_flags b) 2));
    rewrite ?Hb, ?Hi by reflexivity; reflexivity.
Qed.

Lemma hit_bit m x : nz (Z.land (Z.shiftr m x) 1) = Z.testbit m x.
Proof.
  unfold nz. change 1 with (Z.ones 1). rewrite Z.land_ones by lia. rewrite Z.testbit_odd.
  rewrite Zmod_odd. destruct (Z.odd (Z.shiftr m x)); reflexivity.
Qed.

(** An entry that is kept was there, and its registers are not in the mask. *)
Lemma kept_base c mask b : In b (carried_base (carried_drop_written c mask)) -> 0 <= c_gpr b ->
  In b (carried_base c) /\ carried_hit mask b = false.
Proof.
  intros Hin Hgpr. unfold carried_drop_written in Hin. destruct (Z.eqb_spec mask 0) as [E|E].
  - split; [exact Hin|]. unfold carried_hit. rewrite E, !Z.shiftr_0_l. cbn. rewrite !andb_false_r. reflexivity.
  - cbn in Hin. apply in_map_iff in Hin as (b' & Eb & Hb').
    destruct ((0 <=? c_gpr b') && carried_hit mask b') eqn:Eh; subst b.
    + cbn in Hgpr. lia.
    + split; [exact Hb'|]. replace (0 <=? c_gpr b') with true in Eh by (symmetry; apply Z.leb_le; lia). exact Eh.
Qed.

(** It names the same address where only registers of the mask change. *)
Lemma kept_base_addr segbase r r' c mask b : (forall x, Z.testbit mask x = false -> r' x = r x) ->
  In b (carried_base (carried_drop_written c mask)) -> 0 <= c_gpr b ->
  In b (carried_base c) /\ addr segbase r' (base_operand b) = addr segbase r (base_operand b).
Proof.
  intros Hr Hin Hgpr. destruct (kept_base c mask b Hin Hgpr) as [Hb Hhit]. split; [exact Hb|].
  unfold carried_hit in Hhit. rewrite !hit_bit in Hhit. apply orb_false_iff in Hhit as [H1 H2].
  apply addr_frame; intros Hf; apply Hr; rewrite Hf in *; assumption.
Qed.

(** The guest instructions [Fpu] executes keep a base's address. *)
Lemma guest_keeps_carried (segbase : Z -> Z) (ro : Z -> bool) (s s' : fpu) (i : IRInstr) (c : X87Cache) (b : CarriedBase) :
  x87op_of (opcode i) = Some Guest -> gpr_or_mem_dst i = true -> exec segbase ro s i = Some s' ->
  In b (carried_base (carried_drop_written c (gap_written_gpr_mask i))) -> 0 <= c_gpr b ->
  In b (carried_base c) /\ addr segbase (regs s') (base_operand b) = addr segbase (regs s) (base_operand b).
Proof.
  intros Hg Hd He. apply kept_base_addr. intros x Hx. exact (gap_written_sound segbase ro s s' i x Hg Hd He Hx).
Qed.
