(* ===== verification/BridgeDemandProps.v ===== *)
(** The demand model of bridged instructions: its composition scheme counts
    what a trace of allocations holds, its figures are bounded family by
    family, its recogniser of logical immediates agrees with the assembler's,
    and a run is what the lookahead says it is. *)

From S2P Require Import Prelude Emit Assembler BitmaskImm IROperand X87BridgeDemand X87Cache X87CacheProps.

(** ** Traces of allocations *)

Inductive event := Alloc | Free.

(** The registers held after a trace, and the most held at once, from [n]. *)
Definition count (e : event) (n : Z) : Z := match e with Alloc => n + 1 | Free => n - 1 end.

Fixpoint held_after (t : list event) (n : Z) : Z :=
  match t with [] => n | e :: t => held_after t (count e n) end.

Fixpoint most_held (t : list event) (n : Z) : Z :=
  match t with [] => n | e :: t => Z.max n (most_held t (count e n)) end.

(** What a handler does: a helper call with its trace, or explicit frees. *)
Inductive action := Call (c : Cost) (t : list event) | Release (n : nat).

Definition trace (a : action) : list event :=
  match a with Call _ t => t | Release n => repeat Free n end.

Definition priced (s : Seq) (a : action) : Seq :=
  match a with Call c _ => step s c | Release n => free s (Z.of_nat n) end.

(** The trace stays within the cost, or attains it. *)
Definition within (c : Cost) (t : list event) : Prop := held_after t 0 = held c /\ most_held t 0 <= peak c.
Definition attains (c : Cost) (t : list event) : Prop := held_after t 0 = held c /\ most_held t 0 = peak c.

Definition calls (P : Cost -> list event -> Prop) (l : list action) : Prop :=
  Forall (fun a => match a with Call c t => P c t | Release _ => True end) l.

Lemma held_app t u n : held_after (t ++ u) n = held_after u (held_after t n).
Proof. revert n; induction t as [|e t IH]; intros n; [reflexivity | apply IH]. Qed.

Lemma most_ge t n : n <= most_held t n.
Proof. destruct t; cbn; lia. Qed.

Lemma most_after t n : held_after t n <= most_held t n.
Proof. revert n; induction t as [|e t IH]; intros n; cbn; [lia|]. specialize (IH (count e n)). lia. Qed.

Lemma most_app t u n : most_held (t ++ u) n = Z.max (most_held t n) (most_held u (held_after t n)).
Proof.
  revert n; induction t as [|e t IH]; intros n; cbn.
  - pose proof (most_ge u n). lia.
  - rewrite IH. lia.
Qed.

Lemma held_shift t n : held_after t n = n + held_after t 0.
Proof.
  revert n; induction t as [|e t IH]; intros n; cbn; [lia|].
  rewrite (IH (count e n)), (IH (count e 0)). destruct e; cbn [count]; lia.
Qed.

Lemma most_shift t n : most_held t n = n + most_held t 0.
Proof.
  revert n; induction t as [|e t IH]; intros n; cbn; [lia|].
  rewrite (IH (count e n)), (IH (count e 0)). destruct e; cbn [count]; lia.
Qed.

Lemma frees n k : held_after (repeat Free n) k = k - Z.of_nat n /\ most_held (repeat Free n) k = k.
Proof.
  revert k; induction n as [|n IH]; intros k; cbn; [lia|].
  destruct (IH (k - 1)) as [E1 E2]. rewrite E1, E2. lia.
Qed.

Lemma step_peak s c : seq_peak (step s c) = Z.max (seq_peak s) (running s + peak c).
Proof. cbn. destruct (Z.ltb_spec (seq_peak s) (running s + peak c)); lia. Qed.

(** Where the actions from [s] on leave [running], and what they hold. *)
Lemma priced_running P l s :
  (forall c t, P c t -> held_after t 0 = held c) -> calls P l ->
  running (fold_left priced l s) = held_after (concat (map trace l)) (running s).
Proof.
  intros HP Hl. revert s. induction Hl as [|a l Ha Hl IH]; intros s; [reflexivity|].
  cbn [fold_left map concat]. rewrite IH, held_app. f_equal. destruct a as [c t|n]; cbn.
  - rewrite held_shift, (HP c t Ha). reflexivity.
  - symmetry. apply (proj1 (frees n (running s))).
Qed.

Lemma priced_most l s : calls within l -> running s <= seq_peak s ->
  Z.max (seq_peak s) (most_held (concat (map trace l)) (running s)) <= seq_peak (fold_left priced l s).
Proof.
  intros Hl. revert s. induction Hl as [|a l Ha Hl IH]; intros s Hs; [cbn; lia|].
  cbn [fold_left map concat]. rewrite most_app. destruct a as [c t|n]; cbn [trace priced].
  - destruct Ha as [Hh Hm]. specialize (IH (step s c)). rewrite step_peak in IH. cbn [step running] in IH.
    rewrite held_shift, Hh, (most_shift t). pose proof (most_ge t 0).
    pose proof (most_after t 0).
    specialize (IH ltac:(lia)). lia.
  - destruct (frees n (running s)) as [E1 E2]. rewrite E1, E2. specialize (IH (free s (Z.of_nat n))). cbn in IH. lia.
Qed.

Lemma priced_exact l s : calls attains l -> running s <= seq_peak s ->
  seq_peak (fold_left priced l s) = Z.max (seq_peak s) (most_held (concat (map trace l)) (running s)).
Proof.
  intros Hl. revert s. induction Hl as [|a l Ha Hl IH]; intros s Hs; [cbn; lia|].
  cbn [fold_left map concat]. rewrite most_app. destruct a as [c t|n]; cbn [trace priced].
  - destruct Ha as [Hh Hm]. rewrite held_shift, Hh, (most_shift t), Hm.
    pose proof (most_after t 0).
    rewrite IH; rewrite step_peak; cbn [step running]; lia.
  - destruct (frees n (running s)) as [E1 E2]. rewrite E1, E2, IH; cbn; lia.
Qed.

(** C29: the composition scheme is sound and exact: if each helper's
    allocations and frees stay within its (peak, held) pair, a handler that
    calls the helpers in turn, freeing registers between the calls, never
    holds more than the composed demand; and it holds exactly that many at
    some point when every helper attains its pair. *)
Theorem demand_counts_the_trace (l : list action) :
  let most := most_held (concat (map trace l)) 0 in
  let d := demand (fold_left priced l Seq_init) in
  (calls within l -> most <= d) /\ (calls attains l -> most = d).
Proof.
  cbv zeta. unfold demand. split; intros Hl.
  - pose proof (priced_most l Seq_init Hl ltac:(cbn; lia)) as H. cbn [Seq_init seq_peak running] in H. lia.
  - pose proof (priced_exact l Seq_init Hl ltac:(cbn; lia)) as H. cbn [Seq_init seq_peak running] in H.
    pose proof (most_ge (concat (map trace l)) 0). lia.
Qed.

(** ** The recogniser of logical immediates *)

Lemma shrink_loop fuel v i : shrink fuel v i = element_size_loop fuel v i.
Proof.
  revert i; induction fuel as [|fuel IH]; intros i; [reflexivity|]. cbn [shrink element_size_loop].
  destruct (nz _); [reflexivity|]. destruct (2 <? _); [apply IH | reflexivity].
Qed.

Lemma size_mask is_64bit e : In e (sizes is_64bit) ->
  Z.shiftr (Z.ones 64) (Z.land (u32 (- s8 e)) 63) = Z.shiftr (Z.ones 64) (64 - e).
Proof.
  destruct is_64bit; cbn [sizes In]; intros H;
    repeat (destruct H as [<-|H]; [vm_compute; reflexivity|]); destruct H.
Qed.

Lemma runs_agree v e :
  (let v7 := Z.land (Z.shiftr (Z.ones 64) (64 - e)) v in
   if nz v7 && ones_run v7 then true
   else let v7 := Z.land (Z.shiftr (Z.ones 64) (64 - e)) (unot 64 v) in negb ((v7 =? 0) || negb (ones_run v7))) =
  match find_run v e with Some _ => true | None => false end.
Proof.
  unfold find_run. cbv zeta. change ones_run with contiguous. destruct (nz _ && contiguous _); [reflexivity|].
  destruct (_ =? 0); [reflexivity|]. destruct (contiguous _); reflexivity.
Qed.

(** C31: the demand model's port of Rosetta's is_bitmask_immediate and the
    assembler's recogniser accept the same values, those some (N, immr, imms)
    encodes; so an AND, OR, XOR or TEST is priced without the second read
    exactly when its immediate fits the instruction. *)
Theorem alu_is_bitmask_immediate_correct (is_64bit : bool) (value : Z) :
  0 <= value < 2 ^ 64 ->
  alu_is_bitmask_immediate is_64bit value = match is_bitmask_immediate is_64bit value with NotBitmask => false | _ => true end /\
  (alu_is_bitmask_immediate is_64bit value = true <->
   exists n s r, 0 <= n < 2 /\ 0 <= s < 64 /\ 0 <= r < 64 /\
     decode_bit_masks (width is_64bit) n s r = Some (wrap (width is_64bit) value)).
Proof.
  intros Hv.
  assert (E : alu_is_bitmask_immediate is_64bit value =
              match is_bitmask_immediate is_64bit value with NotBitmask => false | _ => true end).
  { unfold alu_is_bitmask_immediate, is_bitmask_immediate.
    assert (G : forall v, 0 <= v < 2 ^ width is_64bit ->
      let e := element_size_loop 6 v (width is_64bit) in
      Z.shiftr (Z.ones 64) (Z.land (u32 (- s8 e)) 63) = Z.shiftr (Z.ones 64) (64 - e)).
    { intros v Hr. apply (size_mask is_64bit), loop_size, Hr. }
    destruct is_64bit; cbn [width] in G.
    - destruct (u64 (value + 1) <? 2); [reflexivity|]. specialize (G value Hv). cbv zeta in G. rewrite !shrink_loop, G.
      rewrite (runs_agree value). destruct (find_run _ _) as [[r k]|]; [|reflexivity]. destruct (_ <=? _); reflexivity.
    - replace (u32 (u64 (value + 1))) with (u32 (value + 1)) by (unfold wrap; symmetry; apply (Z.mod_mod_divide _ (2 ^ 64) (2 ^ 32)); exists (2 ^ 32); reflexivity).
      destruct (u32 (value + 1) <? 2); [reflexivity|]. specialize (G (u32 value) ltac:(apply wrap_range; lia)). cbv zeta in G. rewrite !shrink_loop, G.
      rewrite (runs_agree (u32 value)). destruct (find_run _ _) as [[r k]|]; [|reflexivity]. destruct (_ <=? _); reflexivity. }
  split; [exact E|]. rewrite E. 
  assert (Hw : 0 <= wrap (width is_64bit) value < 2 ^ width is_64bit) by (apply wrap_range; destruct is_64bit; cbn; lia).
  rewrite is_bitmask_low by exact Hv. split.
  - intros H. destruct (bitmask_answer is_64bit _ Hw) as [Eb | (enc & Eb & Ev & Hr & Hs)]; [rewrite Eb in H; discriminate|].
    exists (b2z (N enc)), (imms enc), (immr enc). unfold enc_value in Ev. repeat split; try lia; try exact Ev; destruct (N enc); cbn; lia.
  - intros (n & x & r & Hn & Hs & Hr & Hd). pose proof (code_accepted is_64bit n x r _ Hn Hs Hr Hd) as Ha.
    apply accepts_bitmask in Ha as (enc & Eb & _). rewrite Eb. reflexivity.
Qed.

Lemma alu_is_bitmask_immediate_correct_witness :
  alu_is_bitmask_immediate true 0x00FF00FF00FF00FF = true /\
  exists n s r, 0 <= n < 2 /\ 0 <= s < 64 /\ 0 <= r < 64 /\ decode_bit_masks 64 n s r = Some 0x00FF00FF00FF00FF.
Proof.
  assert (E : alu_is_bitmask_immediate true 0x00FF00FF00FF00FF = true) by (vm_compute; reflexivity).
  split; [exact E|]. exact (proj1 (proj2 (alu_is_bitmask_immediate_correct true 0x00FF00FF00FF00FF ltac:(lia))) E).
Defined.

(** ** How much each family can ask for *)

Lemma prefetch_cases m : prefetch_allocs m = 0 \/ prefetch_allocs m = 1.
Proof.
  unfold prefetch_allocs, mov_prefetch_allocs.
  repeat match goal with |- context [if ?b then _ else _] => destruct b end; auto.
Qed.

Lemma mov_prefetch_cases m : mov_prefetch_allocs m = 0 \/ mov_prefetch_allocs m = 1.
Proof. unfold mov_prefetch_allocs. repeat match goal with |- context [if ?b then _ else _] => destruct b end; auto. Qed.

(** What a helper's cost can be. *)
Ltac costs := intros; cbv beta delta [alu_read_cost alu_write_op0_cost mov_read_cost mov_write_cost movs_write_mem_cost
    movs_read_xmm_cost movext_read_cost push_read_cost pop_write_cost setcc_write_cost cmov_read_cost alloc_dst_gpr_cost]; cbv zeta;
  try match goal with |- context [prefetch_allocs ?m] => destruct (prefetch_cases m) as [-> | ->] end;
  repeat match goal with |- context [if ?b then _ else _] => destruct b end; cbn; tauto.

Lemma alu_read_cases o em b : In (alu_read_cost o em b) [none; one; mkCost 2 1].
Proof. costs. Qed.
Lemma alu_write_cases o : In (alu_write_op0_cost o) [none; mkCost 1 0; mkCost 2 0].
Proof. costs. Qed.
Lemma mov_read_cases o h : In (mov_read_cost o h) [none; one; mkCost 2 1].
Proof. costs. Qed.
Lemma mov_write_cases o : In (mov_write_cost o) [none; mkCost 1 0; mkCost 2 0].
Proof. costs. Qed.
Lemma movs_write_cases o : In (movs_write_mem_cost o) [none; one; mkCost 2 1].
Proof. costs. Qed.
Lemma movs_read_cases o : In (movs_read_xmm_cost o) [none; one; mkCost 2 1].
Proof. costs. Qed.
Lemma movext_read_cases o h : In (movext_read_cost o h) (if h then [none; one; mkCost 2 1] else [none; one]).
Proof. costs. Qed.
Lemma push_read_cases o : In (push_read_cost o) [none; one; mkCost 2 1].
Proof. costs. Qed.
Lemma pop_write_cases o : In (pop_write_cost o) [none; mkCost 1 0; mkCost 2 0].
Proof. costs. Qed.
Lemma setcc_write_cases o : In (setcc_write_cost o) [none; mkCost 1 0; mkCost 2 0].
Proof. costs. Qed.
Lemma cmov_read_cases o : In (cmov_read_cost o) [none; one; mkCost 2 1].
Proof. costs. Qed.
Lemma alloc_dst_cases o : In (alloc_dst_gpr_cost o) [none; one].
Proof. costs. Qed.

(** An operand that is no RIP-relative one. *)
Lemma alu_read_plain o em b : has_kind IROperandKind.Immediate o = false -> In (alu_read_cost o em b) [none; one].
Proof. intros E. unfold alu_read_cost. rewrite E. repeat match goal with |- context [if ?b then _ else _] => destruct b end; cbn; tauto. Qed.

Definition max_demands : list (list Z * Z) :=
  [ ([kOpcodeName.mov; kOpcodeName.movnti], 3); ([kOpcodeName.lea], 2); ([kOpcodeName.movss; kOpcodeName.movsd], 3);
    ([kOpcodeName.add; kOpcodeName.sub; kOpcodeName.and; kOpcodeName.or; kOpcodeName.xor; kOpcodeName.cmp], 7);
    ([kOpcodeName.adc; kOpcodeName.sbb], 7); ([kOpcodeName.movzx; kOpcodeName.movsx; kOpcodeName.movsxd], 2);
    ([kOpcodeName.push; kOpcodeName.pop; kOpcodeName.pushd; kOpcodeName.popd; kOpcodeName.pushw; kOpcodeName.popw], 3);
    ([kOpcodeName.inc; kOpcodeName.dec; kOpcodeName.neg; kOpcodeName.not], 6); ([kOpcodeName.cmovcc], 6);
    ([kOpcodeName.shl; kOpcodeName.shr; kOpcodeName.sar; kOpcodeName.rol; kOpcodeName.ror], 10);
    ([kOpcodeName.nop; kOpcodeName.wait], 0);
    ([kOpcodeName.cbw; kOpcodeName.cwde; kOpcodeName.cdqe; kOpcodeName.cwd; kOpcodeName.cdq; kOpcodeName.cqo], 1);
    ([kOpcodeName.setcc], 3); ([kOpcodeName.test], 4); ([kOpcodeName.mul; kOpcodeName.imul], 10);
    ([kOpcodeName.addss; kOpcodeName.addsd; kOpcodeName.subss; kOpcodeName.subsd; kOpcodeName.mulss; kOpcodeName.mulsd;
      kOpcodeName.divss; kOpcodeName.divsd; kOpcodeName.sqrtss; kOpcodeName.sqrtsd; kOpcodeName.rsqrtss; kOpcodeName.rcpss], 3) ].

(** Case analysis on a cost by a lemma about it, then on the conditions. *)
Ltac by_cost H := let C := fresh in pose proof H as C; cbn [In] in C;
  match type of C with ?c = _ \/ _ => idtac | _ = ?c \/ _ => generalize dependent c; intros ? C end;
  repeat destruct C as [<- | C]; try contradiction.

Ltac decided := repeat match goal with |- context [if ?b then _ else _] => destruct b end; vm_compute; split; discriminate.

Lemma demand_mov_bound i : 0 <= demand_mov_movnti i <= 3.
Proof.
  unfold demand_mov_movnti. by_cost (mov_read_cases (operand i 1) (arch_reg (operand i 0)));
  by_cost (mov_write_cases (operand i 0)); decided.
Qed.

Lemma demand_lea_bound i : 0 <= demand_lea i <= 2.
Proof.
  unfold demand_lea, lea_addr_peak_arch, b2z. cbv zeta.
  repeat match goal with |- context [if ?b then _ else _] => destruct b end; vm_compute; split; discriminate.
Qed.

Lemma demand_sse_mov_bound i : 0 <= demand_sse_mov_scalar i <= 3.
Proof.
  unfold demand_sse_mov_scalar. by_cost (movs_read_cases (operand i 1)); by_cost (movs_write_cases (operand i 0)); decided.
Qed.

Lemma demand_alu_bound i : 0 <= demand_alu_binary i <= 7.
Proof.
  unfold demand_alu_binary. cbv zeta.
  set (em := alu_extend_nonzero _ _ _). set (b := op_size (operand i 0) =? IROperandSize.S64).
  by_cost (alu_read_cases (operand i 1) em b); by_cost (alu_read_cases (operand i 0) em b);
  by_cost (alu_write_cases (operand i 0)).
  all: generalize (if is_mem_or_abs (operand i 1) then true else
    if has_kind IROperandKind.Register (operand i 1) then
      if (opcode i =? kOpcodeName.and) || (opcode i =? kOpcodeName.or) || (opcode i =? kOpcodeName.xor) then true
      else negb (Z.shiftr (reg (operand i 1)) 4 =? 0) && negb (Z.shiftr (reg (operand i 1)) 4 =? 2)
    else if has_kind IROperandKind.Immediate (operand i 1) then true
    else if has_kind IROperandKind.BranchOffset (operand i 1) then
      negb (if (opcode i =? kOpcodeName.and) || (opcode i =? kOpcodeName.or) || (opcode i =? kOpcodeName.xor)
            then alu_is_bitmask_immediate b (u64 (value (operand i 1))) else alu_addimm_encodable (u64 (value (operand i 1))))
    else false); intros second.
  all: generalize (opcode i =? kOpcodeName.cmp), (is_mem_or_abs (operand i 0)), (has_kind IROperandKind.Immediate (operand i 0)),
    (arch_reg (operand i 0)); intros is_cmp mem imm arch.
  all: generalize (has_kind IROperandKind.Register (operand i 0) && (op_size (operand i 0) <=? IROperandSize.S16) &&
      live i (Z.lor (Z.lor (Z.lor (Z.lor FlagLiveness.FLAG_AF FlagLiveness.FLAG_PF_LO) FlagLiveness.FLAG_OF) FlagLiveness.FLAG_SF) 1)); intros t.
  all: destruct (_ && _ && _ && _); [vm_compute; split; discriminate|].
  all: destruct second, is_cmp, mem, imm, arch, t; vm_compute; split; discriminate.
Qed.

Lemma demand_adc_bound i : 0 <= demand_adc_sbb i <= 7.
Proof.
  unfold demand_adc_sbb. cbv zeta.
  set (em := live i _). set (b := op_size (operand i 0) =? IROperandSize.S64).
  by_cost (alu_read_cases (operand i 1) em b); by_cost (alu_read_cases (operand i 0) em b);
  by_cost (alu_write_cases (operand i 0)).
  all: generalize (is_mem_or_abs (operand i 0)), (has_kind IROperandKind.Immediate (operand i 0)), (arch_reg (operand i 0));
    intros mem imm arch.
  all: decided.
Qed.

Lemma demand_movext_bound i : 0 <= demand_movzx_movsx_movsxd i <= 2.
Proof.
  unfold demand_movzx_movsx_movsxd. cbv zeta. pose proof (movext_read_cases (operand i 1) (arch_reg (operand i 0))) as C.
  destruct (arch_reg (operand i 0)); cbn [In] in C; repeat destruct C as [<- | C]; try contradiction; vm_compute; split; discriminate.
Qed.

Lemma demand_push_pop_bound i : 0 <= demand_push_pop i <= 3.
Proof.
  unfold demand_push_pop. cbv zeta. by_cost (push_read_cases (operand i 0)); by_cost (pop_write_cases (operand i 0)); decided.
Qed.

Lemma demand_unary_bound i : 0 <= demand_alu_unary i <= 6.
Proof.
  unfold demand_alu_unary. cbv zeta.
  set (em := negb _ && live i _). set (b := op_size (operand i 0) =? IROperandSize.S64).
  destruct (has_kind IROperandKind.Immediate (operand i 0)) eqn:Ei; [destruct (_ && keeps_cf _ _); vm_compute; split; discriminate|].
  by_cost (alu_read_plain (operand i 0) em b Ei); by_cost (alu_write_cases (operand i 0)); by_cost (alloc_dst_cases (operand i 0)).
  all: destruct (_ && keeps_cf _ _), (_ || _ || _), (opcode i =? _); vm_compute; split; discriminate.
Qed.

Lemma demand_cmovcc_bound i : 0 <= demand_cmovcc i <= 6.
Proof. unfold demand_cmovcc. cbv zeta. by_cost (cmov_read_cases (operand i 2)); decided. Qed.

Lemma demand_setcc_bound i : 0 <= demand_setcc i <= 3.
Proof. unfold demand_setcc. by_cost (setcc_write_cases (operand i 1)); vm_compute; split; discriminate. Qed.

Lemma demand_extends_bound i : 0 <= demand_extends i <= 1.
Proof. unfold demand_extends. decided. Qed.

Lemma demand_test_bound i : 0 <= demand_test i <= 4.
Proof.
  unfold demand_test. cbv zeta.
  set (em := if _ <? _ then _ else _). set (b := op_size (operand i 0) =? IROperandSize.S64).
  by_cost (alu_read_cases (operand i 1) em b); by_cost (alu_read_cases (operand i 0) em b);
  generalize (if has_kind IROperandKind.BranchOffset (operand i 1) then negb (alu_is_bitmask_immediate b (u64 (value (operand i 1))))
              else negb (has_kind IROperandKind.Register (operand i 0) && has_kind IROperandKind.Register (operand i 1) &&
                         (reg (operand i 0) =? reg (operand i 1)))); intros second;
  destruct second; decided.
Qed.

Lemma demand_sse_arith_bound i : 0 <= demand_sse_arith i <= 3.
Proof. unfold demand_sse_arith. cbv zeta. by_cost (movs_read_cases (operand i 2)); decided. Qed.

Lemma shifts_shared_bound o :
  0 <= shifts_read0_events o + shifts_dst_events o + shifts_write_events o <= 5 /\ 0 <= shifts_dup_events o <= 1 /\
  (shifts_dup_events o = 0 \/ shifts_dst_events o = 0 /\ shifts_write_events o = 0 /\ shifts_read0_events o <= 1).
Proof.
  unfold shifts_read0_events, shifts_dst_events, shifts_write_events, shifts_dup_events, arch_reg.
  destruct (mov_prefetch_cases o) as [-> | ->]; destruct (has_kind IROperandKind.Register o); cbn [andb];
    repeat match goal with |- context [if ?b then _ else _] => destruct b end; lia.
Qed.

Lemma b2z_le b : 0 <= b2z b <= 1.
Proof. destruct b; cbn; lia. Qed.

Lemma if_le (b : bool) x n : 0 <= x <= n -> 0 <= (if b then x else 0) <= n.
Proof. destruct b; lia. Qed.

Lemma shifts_inline_bound fl v s :
  0 <= shl_imm_inline fl v <= 2 /\ 0 <= shr_imm_inline fl v <= 3 /\ 0 <= sar_imm_inline fl v <= 2 /\
  0 <= rol_imm_inline fl v <= 3 /\ 0 <= ror_imm_inline fl v s <= 4 /\ 0 <= shl_reg_inline fl <= 2 /\
  0 <= shr_reg_inline fl <= 2 /\ 0 <= sar_reg_inline fl <= 2 /\ 0 <= rol_reg_inline fl s <= 4 /\ 0 <= ror_reg_inline fl s <= 5.
Proof.
  unfold shl_imm_inline, shr_imm_inline, sar_imm_inline, rol_imm_inline, ror_imm_inline, shl_reg_inline, shr_reg_inline,
    sar_reg_inline, rol_reg_inline, ror_reg_inline. cbv zeta.
  repeat match goal with
  | |- context [b2z ?b] => pose proof (b2z_le b); generalize dependent (b2z b); intros
  | |- context [if ?b then 2 else 0] => pose proof (if_le b 2 2 ltac:(lia)); generalize dependent (if b then 2 else 0); intros
  end.
  destruct s; lia.
Qed.

Lemma demand_shifts_bound i : 0 <= demand_shifts i <= 10.
Proof.
  unfold demand_shifts. cbv zeta.
  pose proof (shifts_shared_bound (operand i 0)) as (H1 & H2 & H3).
  pose proof (shifts_inline_bound (flag_liveness i) (u8 (value (operand i 1))) (op_size (operand i 0) <=? IROperandSize.S16)) as H4.
  assert (H5 : 0 <= shifts_nz_events (flag_liveness i) (operand i 0) <= 1)
    by (unfold shifts_nz_events; destruct (_ && _); lia).
  repeat match goal with |- context [if ?b then ?x else 0] =>
    let n := match x with shifts_nz_events _ _ => constr:(1) | shifts_dup_events ?o => constr:(shifts_dup_events o) end in
    pose proof (if_le b x n ltac:(lia)); generalize dependent (if b then x else 0); intros
  end.
  destruct (has_kind _ _); repeat (destruct (opcode i =? _); [lia|]); lia.
Qed.

Lemma mul_read_bound o em b : 0 <= mul_read_events o em b <= 2.
Proof.
  unfold mul_read_events. by_cost (alu_read_cases o em b);
  repeat match goal with |- context [if ?b then _ else _] => destruct b end; vm_compute; split; discriminate.
Qed.

Lemma demand_mul_bound i : 0 <= demand_mul_imul i <= 10.
Proof.
  unfold demand_mul_imul. cbv zeta.
  set (b := (op_size (operand i 0) =? IROperandSize.S64) || _).
  pose proof (mul_read_bound (operand i 0) true b). 
  set (ra := operand i (if negb (num_operands i =? 2) then 1 else 0)). set (rb := operand i (if negb (num_operands i =? 2) then 2 else 1)).
  pose proof (mul_read_bound ra true b). pose proof (mul_read_bound rb true b).
  assert (0 <= mul_acc_read_events (operand i 0) b <= 1).
  { unfold mul_acc_read_events. destruct b; repeat match goal with |- context [if ?b then _ else _] => destruct b end; cbn; lia. }
  assert (Hf : forall x y z : bool, 0 <= (if x then if y then 2 else if z then 4 else 2 else 0) <= 4) by (intros [] [] []; lia).
  match goal with |- context [if of_cf ?fl then if ?y then 2 else if ?z then 4 else 2 else 0] => pose proof (Hf (of_cf fl) y z);
    generalize dependent (if of_cf fl then if y then 2 else if z then 4 else 2 else 0); intros end.
  repeat match goal with |- context [b2z ?b] => pose proof (b2z_le b); generalize dependent (b2z b); intros end.
  destruct (negb (_ || _)), (_ <=? _); try lia; destruct (op_size _ =? IROperandSize.S32); lia.
Qed.

Lemma among_in op l : existsb (Z.eqb op) l = true -> In op l.
Proof. rewrite existsb_exists. intros (x & Hx & E). apply Z.eqb_eq in E. subst. exact Hx. Qed.

(** The group of an opcode with a family, and its bound. *)
Lemma family_bound op d : family op = Some d ->
  exists ops m, In (ops, m) max_demands /\ In op ops /\ forall i, 0 <= d i <= m.
Proof.
  unfold family. intros H.
  repeat match type of H with (if ?b then _ else _) = _ => destruct b eqn:E; [apply among_in in E; injection H as <-|clear E] end;
    try discriminate; (eexists _, _; split; [|split; [exact E|]]; [unfold max_demands; cbn [In]; tauto|]).
  - exact demand_mov_bound.
  - exact demand_lea_bound.
  - exact demand_sse_mov_bound.
  - exact demand_alu_bound.
  - exact demand_adc_bound.
  - exact demand_movext_bound.
  - exact demand_push_pop_bound.
  - exact demand_unary_bound.
  - exact demand_cmovcc_bound.
  - exact demand_shifts_bound.
  - lia.
  - exact demand_extends_bound.
  - exact demand_setcc_bound.
  - exact demand_test_bound.
  - exact demand_mul_bound.
  - exact demand_sse_arith_bound.
Qed.

Lemma gap_demand_family i d : gap_gpr_demand i = Some d -> exists f, family (opcode i) = Some f /\ d = f i.
Proof.
  unfold gap_gpr_demand. cbv zeta. destruct (operands_admitted _ _ _ _) as [hm|]; [|discriminate].
  destruct (_ && _ && _); [discriminate|]. destruct (family (opcode i)) as [f|]; [|discriminate].
  destruct (_ && _); [discriminate|]. intros [= <-]. eauto.
Qed.

(** Instructions that ask for the most. *)
Definition greediest : list IRInstr :=
  let r sz n := mkOperand IROperandKind.Register sz n 0 0 0 0 0 0 in
  let rip sz := mkOperand IROperandKind.Immediate sz IROperandSize.S64 0 0 0 0 0 0x100 in
  let m sz := mkOperand IROperandKind.MemRef sz IROperandSize.S64 0 3 1 2 1 0x12345 in
  let lit v := mkOperand IROperandKind.BranchOffset 0 0 0 0 0 0 0 v in
  let cc n := mkOperand IROperandKind.ConditionCode n 0 0 0 0 0 0 0 in
  let all := 0xFE in
  [ mkIRInstr kOpcodeName.mov 2 [rip 2; rip 2] 0 all; mkIRInstr kOpcodeName.lea 2 [r 1 0x20; rip 1] 0 all;
    mkIRInstr kOpcodeName.movss 2 [r 2 0x97; rip 2] 0 all; mkIRInstr kOpcodeName.add 2 [rip 2; rip 2] 0 all;
    mkIRInstr kOpcodeName.adc 2 [rip 2; rip 2] 0 all; mkIRInstr kOpcodeName.movzx 2 [r 1 0x22; rip 0] 0 all;
    mkIRInstr kOpcodeName.pop 1 [rip 3] 0 all; mkIRInstr kOpcodeName.inc 1 [rip 3] 0 all;
    mkIRInstr kOpcodeName.cmovcc 3 [cc 0xA; r 1 0x20; rip 1] 0 all; mkIRInstr kOpcodeName.ror 2 [rip 0; r 0 1] 0 all;
    mkIRInstr kOpcodeName.nop 0 [] 0 all; mkIRInstr kOpcodeName.cbw 0 [] 0 all;
    mkIRInstr kOpcodeName.setcc 2 [cc 4; rip 0] 0 all; mkIRInstr kOpcodeName.test 2 [rip 2; rip 2] 0 all;
    mkIRInstr kOpcodeName.imul 3 [r 1 0x20; rip 1; rip 1] 0 all; mkIRInstr kOpcodeName.addss 3 [r 2 0x97; r 2 0x57; rip 2] 0 all ].

Definition greedy (p : list Z * Z * IRInstr) : bool :=
  existsb (Z.eqb (opcode (snd p))) (fst (fst p)) &&
  match gap_gpr_demand (snd p) with Some d => d =? snd (fst p) | None => false end.

Lemma combine_left {A B} (x : A) (l : list A) (l' : list B) :
  In x l -> length l = length l' -> exists y, In (x, y) (combine l l').
Proof.
  revert l'; induction l as [|a l IH]; intros [|b l'] H E; cbn in *; try easy.
  destruct H as [-> | H]; [eauto|]. destruct (IH l' H ltac:(lia)) as [y Hy]. eauto.
Qed.

(** C30: the demand of an instruction the model prices is bounded by its
    family's, and each of these bounds is attained; an instruction over the
    ceiling of four is of the binary, unary, carry, CMOV, shift or multiply
    families. *)
Theorem gap_demand_bounds :
  (forall i d, gap_gpr_demand i = Some d ->
     exists ops m, In (ops, m) max_demands /\ In (opcode i) ops /\ 0 <= d <= m) /\
  (forall ops m, In (ops, m) max_demands -> exists i, In (opcode i) ops /\ gap_gpr_demand i = Some m).
Proof.
  split.
  - intros i d H. destruct (gap_demand_family i d H) as (f & Hf & ->).
    destruct (family_bound (opcode i) f Hf) as (ops & m & H1 & H2 & H3). exists ops, m. auto.
  - intros ops m H.
    destruct (combine_left (ops, m) max_demands greediest H eq_refl) as [i Hi].
    assert (E : forallb greedy (combine max_demands greediest) = true) by (vm_compute; reflexivity).
    rewrite forallb_forall in E. specialize (E _ Hi). unfold greedy in E. cbn [fst snd] in E.
    apply andb_true_iff in E as [E1 E2]. exists i. split; [apply among_in, E1|].
    destruct (gap_gpr_demand i); [apply Z.eqb_eq in E2; congruence | discriminate].
Qed.
