(* ===== verification/X87Memory.v ===== *)
(** The x87 state in memory: the [X87State] the runtime's C++ reads is the 72
    bytes at the base address the translated code computes.  What a store into
    it changes, and what it leaves. *)

From S2P Require Import Prelude F64 GuestMem X87State.

(** ** The structure at an address *)

Definition x87_at (m : mem) (b : Z) : X87State :=
  mkX87 (load 2 m b) (load 2 m (b + 2)) (s16 (load 2 m (b + 4)))
    (map (fun i => load 8 m (b + 8 + 8 * Z.of_nat i)) (seq 0 8)).

(** Everything but the structure is the same. *)
Definition outside (b : Z) (m m' : mem) : Prop := forall x, ~ (b <= x < b + 72) -> m' x = m x.

Lemma outside_refl b m : outside b m m.
Proof. intros x _. reflexivity. Qed.

Lemma outside_trans b m m1 m2 : outside b m m1 -> outside b m1 m2 -> outside b m m2.
Proof. intros H1 H2 x Hx. rewrite H2, H1 by exact Hx. reflexivity. Qed.

Lemma outside_store b m n a v : b <= a -> a + Z.of_nat n <= b + 72 -> outside b m (store n m a v).
Proof.
  intros Ha Hn x Hx. unfold store.
  destruct (Z.leb_spec a x), (Z.ltb_spec x (a + Z.of_nat n)); cbn; try reflexivity. lia.
Qed.

Lemma x87_at_ext m m' b : (forall x, b <= x < b + 72 -> m' x = m x) -> x87_at m' b = x87_at m b.
Proof.
  intros H. unfold x87_at.
  assert (L : forall n a, b <= a -> a + Z.of_nat n <= b + 72 -> load n m' a = load n m a).
  { intros n a Ha Hn. apply load_ext. intros x Hx. rewrite H by lia. reflexivity. }
  f_equal; rewrite ?L by lia; try reflexivity.
  apply map_ext_in. intros i Hi. apply in_seq in Hi. apply L; lia.
Qed.

(** A store elsewhere. *)
Lemma x87_at_store m b n a v :
  a + Z.of_nat n <= b \/ b + 72 <= a -> x87_at (store n m a v) b = x87_at m b.
Proof.
  intros H. apply x87_at_ext. intros x Hx. unfold store.
  destruct (Z.leb_spec a x), (Z.ltb_spec x (a + Z.of_nat n)); cbn; try reflexivity. lia.
Qed.

(** ** Stores of the fields *)

Ltac elsewhere := rewrite ?load_store_disjoint by lia.

Lemma st_store_elsewhere m b n a v :
  a + Z.of_nat n <= b + 8 -> st (x87_at (store n m a v) b) = st (x87_at m b).
Proof.
  intros H. cbn [st x87_at]. apply map_ext_in. intros i _. apply load_store_disjoint. lia.
Qed.

Lemma x87_at_sw m b v :
  x87_at (store 2 m (b + 2) v) b = with_sw (x87_at m b) (u16 v).
Proof.
  unfold with_sw. rewrite <- (st_store_elsewhere m b 2 (b + 2) v) by lia. unfold x87_at.
  cbn [controlWord tagWord]. rewrite load_store_same. elsewhere. reflexivity.
Qed.

Lemma x87_at_tag m b v :
  x87_at (store 2 m (b + 4) v) b = with_tag (x87_at m b) (s16 (u16 v)).
Proof.
  unfold with_tag. rewrite <- (st_store_elsewhere m b 2 (b + 4) v) by lia. unfold x87_at.
  cbn [controlWord statusWord]. rewrite load_store_same. elsewhere. reflexivity.
Qed.

Lemma x87_at_cw m b v :
  x87_at (store 2 m b v) b = mkX87 (u16 v) (statusWord (x87_at m b)) (tagWord (x87_at m b)) (st (x87_at m b)).
Proof.
  rewrite <- (st_store_elsewhere m b 2 b v) by lia. unfold x87_at.
  cbn [statusWord tagWord]. rewrite load_store_same. elsewhere. reflexivity.
Qed.

Lemma zget_st m b i : 0 <= i < 8 -> zget (st (x87_at m b)) i = load 8 m (b + 8 + 8 * i).
Proof.
  intros Hi. unfold zget. cbn [st x87_at].
  rewrite (nth_indep _ 0 (load 8 m (b + 8 + 8 * Z.of_nat 0))) by (rewrite length_map, length_seq; lia).
  rewrite (map_nth (fun i => load 8 m (b + 8 + 8 * Z.of_nat i)) (seq 0 8) 0%nat).
  rewrite seq_nth by lia. do 2 f_equal. lia.
Qed.

Lemma st_length m b : length (st (x87_at m b)) = 8%nat.
Proof. cbn [st x87_at]. rewrite length_map, length_seq. reflexivity. Qed.

Lemma list_ext8 (l l' : list Z) :
  length l = 8%nat -> length l' = 8%nat -> (forall i, 0 <= i < 8 -> zget l i = zget l' i) -> l = l'.
Proof.
  intros H H' E. apply (nth_ext _ _ 0 0); [congruence|]. intros n Hn.
  specialize (E (Z.of_nat n) ltac:(lia)). unfold zget in E. rewrite Nat2Z.id in E. exact E.
Qed.

Lemma x87_at_st m b i v :
  0 <= i < 8 -> x87_at (store 8 m (b + 8 + 8 * i) v) b = with_st (x87_at m b) (zset (st (x87_at m b)) i (u64 v)).
Proof.
  intros Hi. unfold with_st.
  assert (E : st (x87_at (store 8 m (b + 8 + 8 * i) v) b) = zset (st (x87_at m b)) i (u64 v)).
  { apply list_ext8; [apply st_length | rewrite zset_length; apply st_length|]. intros j Hj.
    rewrite zget_st by exact Hj. destruct (Z.eq_dec j i) as [->|Hne].
    - rewrite load_store_same, zget_zset_eq by (rewrite st_length; lia). reflexivity.
    - rewrite load_store_disjoint, zget_zset_ne, zget_st by lia. reflexivity. }
  rewrite <- E. unfold x87_at. cbn [controlWord statusWord tagWord]. elsewhere. reflexivity.
Qed.

(** ** Ranges *)

Lemma statusWord_range m b : 0 <= statusWord (x87_at m b) < 2 ^ 16.
Proof. cbn [statusWord x87_at]. apply (load_range 2). Qed.

Lemma controlWord_range m b : 0 <= controlWord (x87_at m b) < 2 ^ 16.
Proof. cbn [controlWord x87_at]. apply (load_range 2). Qed.

Lemma x87_st_range m b i : 0 <= i < 8 -> 0 <= zget (st (x87_at m b)) i < 2 ^ 64.
Proof. intros Hi. rewrite zget_st by exact Hi. apply (load_range 8). Qed.

(** The tag word's bits, whatever its sign. *)
Lemma load_tag m b : load 2 m (b + 4) = u16 (tagWord (x87_at m b)).
Proof. cbn [tagWord x87_at]. rewrite sgn_wrap by lia. symmetry. apply wrap_small, (load_range 2). Qed.

Lemma s16_u16 x : s16 (u16 x) = s16 x.
Proof. unfold sgn. rewrite wrap_wrap by lia. reflexivity. Qed.
