(* ===== verification/X87HelpersProps.v ===== *)
(** TranslatorX87Helpers.cpp against X87State.h: the translated code and the
    runtime's methods change the shared x87 state the same way. *)

From S2P Require Import Prelude F64 GuestMem Emit Assembler A64 EmitDecode X87IREval A64Exec CodeExec.
From S2P Require Import TranslatorHelpers Pools AccessProps InsnRules X87Memory X87Helpers.
From S2P Require Fpu X87Runtime CompareProps.
From S2P Require Import X87State.

(** ** Words *)

Ltac cases8 T H :=
  assert (T = 0 \/ T = 1 \/ T = 2 \/ T = 3 \/ T = 4 \/ T = 5 \/ T = 6 \/ T = 7) as H by lia;
  repeat (destruct H as [-> | H]; [|try (subst T)]).

Lemma ubfx_top d w : u32 (bitfield 32 2 11 13 d (u32 w)) = Z.land (Z.shiftr w 11) 7.
Proof.
  change (bitfield 32 2 11 13 d (u32 w)) with (Z.land (Z.shiftr (u32 w) 11) 7).
  apply Z.bits_inj'. intros i Hi.
  rewrite wrap_testbit, !Z.land_spec, !Z.shiftr_spec, wrap_testbit, testbit_7 by lia.
  destruct (Z.ltb_spec i 3); [|rewrite !andb_false_r; reflexivity].
  replace (i <? 32) with true by (symmetry; apply Z.ltb_lt; lia).
  replace (i + 11 <? 32) with true by (symmetry; apply Z.ltb_lt; lia). reflexivity.
Qed.

Lemma bfi_top d t : bitfield 32 1 21 2 d t = Z.lor (Z.land d (Z.lnot 0x3800)) (Z.shiftl (Z.land t 7) 11).
Proof. reflexivity. Qed.

Lemma lsl1_small d t : 0 <= t < 8 -> u32 (bitfield 32 2 31 30 d (u32 t)) = 2 * t.
Proof. intros H. cases8 t E; reflexivity. Qed.

Lemma mask_small t : 0 <= t < 8 -> u32 (Z.shiftl (u32 3) (u32 (2 * t) mod 32)) = Z.shiftl 3 (2 * t).
Proof. intros H. cases8 t E; reflexivity. Qed.

Lemma land7_small t : 0 <= t < 8 -> Z.land t 7 = t.
Proof. intros H. rewrite land7_mod. apply Z.mod_small, H. Qed.

Lemma land7_u32 x : Z.land (u32 x) 7 = Z.land x 7.
Proof.
  rewrite wrap_land, <- Z.land_assoc by lia. reflexivity.
Qed.

Lemma u32_of_16 x : 0 <= x < 2 ^ 16 -> u32 x = x.
Proof. intros H. apply wrap_small. lia. Qed.

(** Two words with the same low 16 bits. *)
Lemma s16_ext x y : (forall i, 0 <= i < 16 -> Z.testbit x i = Z.testbit y i) -> s16 x = s16 y.
Proof.
  intros H. rewrite <- (s16_u16 x), <- (s16_u16 y). f_equal. apply Z.bits_inj'. intros i Hi.
  rewrite !wrap_testbit by lia. destruct (Z.ltb_spec i 16); [cbn; apply H; lia | reflexivity].
Qed.

Lemma u16_u64 x : u16 (u64 x) = u16 x.
Proof. apply wrap_le. lia. Qed.

Ltac low_bits := match goal with |- context [?i <? 32] => replace (i <? 32) with true by (symmetry; apply Z.ltb_lt; lia) end.

Lemma tag_clear_word t n : 0 <= n -> 
  s16 (u16 (u64 (Z.land (u32 (u16 t)) (unot 32 (u32 n))))) = s16 (Z.land t (Z.lnot n)).
Proof.
  intros Hn. rewrite u16_u64, s16_u16. apply s16_ext. intros i Hi. unfold unot.
  rewrite !Z.land_spec, Z.lnot_spec, Z.lxor_spec, !wrap_testbit, Z.ones_spec_low by lia. low_bits.
  replace (i <? 16) with true by (symmetry; apply Z.ltb_lt; lia). cbn. rewrite xorb_true_r. reflexivity.
Qed.

Lemma tag_set_word t n :
  s16 (u16 (u64 (Z.lor (u32 (u16 t)) (u32 n)))) = s16 (Z.lor t n).
Proof.
  rewrite u16_u64, s16_u16. apply s16_ext. intros i Hi.
  rewrite !Z.lor_spec, !wrap_testbit by lia. low_bits.
  replace (i <? 16) with true by (symmetry; apply Z.ltb_lt; lia). reflexivity.
Qed.

(** ** TOP and the tag word *)

Definition with_top (x : X87State) (t : Z) : X87State :=
  with_sw x (u16 (Z.lor (Z.land (statusWord x) (Z.lnot kTopOfStack)) (Z.shiftl t 11))).

(** The tags of the registers [l] set to kEmpty, or cleared to kValid. *)
Definition tag_mask (l : list Z) : Z := fold_right (fun i m => Z.lor (Z.shiftl 3 (i * 2)) m) 0 l.

Definition mark (empty : bool) (x : X87State) (l : list Z) : X87State :=
  with_tag x (s16 (if empty then Z.lor (tagWord x) (tag_mask l) else Z.land (tagWord x) (Z.lnot (tag_mask l)))).

Lemma tag_mask_app l l' : tag_mask (l ++ l') = Z.lor (tag_mask l) (tag_mask l').
Proof. induction l as [|i l IH]; [reflexivity|]. cbn [app tag_mask fold_right]. fold (tag_mask (l ++ l')). rewrite IH. apply Z.lor_assoc. Qed.

Lemma tag_mask_1 i : tag_mask [i] = Z.shiftl 3 (i * 2).
Proof. apply Z.lor_0_r. Qed.

Lemma mark_mark e x l l' : mark e (mark e x l) l' = mark e x (l ++ l').
Proof.
  unfold mark, with_tag. cbn [tagWord controlWord statusWord st]. f_equal. rewrite tag_mask_app.
  apply s16_ext. intros i Hi. destruct e.
  - rewrite !Z.lor_spec, sgn_testbit, Z.lor_spec, orb_assoc by lia. reflexivity.
  - rewrite !Z.land_spec, sgn_testbit, Z.land_spec, !Z.lnot_spec, Z.lor_spec, negb_orb, andb_assoc by lia.
    reflexivity.
Qed.

Lemma mark_1 e x i : mark e x [i] = with_tag x (s16 (if e then Z.lor (tagWord x) (Z.shiftl 3 (i * 2)) else Z.land (tagWord x) (Z.lnot (Z.shiftl 3 (i * 2))))).
Proof. unfold mark. rewrite tag_mask_1. reflexivity. Qed.

(** The registers the [n] depths from [k] stand for. *)
Definition phys (T k : Z) (n : nat) : list Z := map (fun i => Z.land (T + k + Z.of_nat i) 7) (seq 0 n).

Lemma push_top x : X87State.push x = mark false (with_top x (Z.land (topIndex x - 1) 7)) [Z.land (topIndex x - 1) 7].
Proof. unfold mark. rewrite tag_mask_1. reflexivity. Qed.

(** What is left of POP without its store of zero to the freed register. *)
Definition pop_words (x : X87State) : X87State :=
  with_top (mark true x [topIndex x]) (Z.land (topIndex x + 1) 7).

Lemma pop_top x : X87State.pop x = with_st (pop_words x) (zset (st x) (topIndex x) f_zero).
Proof. unfold pop_words, mark. rewrite tag_mask_1. reflexivity. Qed.

Lemma topIndex_with_top x t : 0 <= t < 8 -> topIndex (with_top x t) = t.
Proof.
  intros Ht. unfold topIndex, with_top. cbn [statusWord with_sw].
  apply Z.bits_inj'. intros i Hi.
  rewrite Z.land_spec, Z.shiftr_spec, wrap_testbit, Z.lor_spec, Z.land_spec, Z.lnot_spec, Z.shiftl_spec by lia.
  rewrite testbit_7 by lia. destruct (Z.ltb_spec i 3).
  - replace (i + 11 <? 16) with true by (symmetry; apply Z.ltb_lt; lia).
    assert (i = 0 \/ i = 1 \/ i = 2) as [-> | [-> | ->]] by lia; cbn;
      rewrite ?andb_false_r, ?andb_true_r; reflexivity.
  - rewrite andb_false_r. symmetry. apply Z.bits_above_log2; [lia|].
    destruct (Z.eq_dec t 0) as [->|]; [cbn; lia|]. apply Z.log2_lt_pow2; [lia|].
    assert (2 ^ 3 <= 2 ^ i) by (apply Z.pow_le_mono_r; lia). lia.
Qed.

(** The base address of the state, in a register. *)
Definition based (b Xbase : Z) (m : machine) : Prop :=
  gpr Xbase /\ xr m Xbase = b /\ 0 <= b /\ b + 72 <= 2 ^ 64.

Lemma u64_small x : 0 <= x < 2 ^ 64 -> u64 x = x.
Proof. apply wrap_small. Qed.

(** The value of a state after code that wrote only to it. *)
Definition state_after (b : Z) (l : list Z) (x : X87State) (m m' : machine) : Prop :=
  changes l m m' /\ outside b (mm m) (mm m') /\ x87_at (mm m') b = x.

Lemma state_after_trans b l x y m m1 m2 :
  state_after b l x m m1 -> state_after b l y m1 m2 -> state_after b l y m m2.
Proof.
  intros (C1 & O1 & _) (C2 & O2 & E). split; [exact (changes_trans _ _ _ _ C1 C2)|].
  split; [exact (outside_trans _ _ _ _ O1 O2) | exact E].
Qed.

Lemma state_after_mono b l l' x m m' :
  (forall r, In r l -> In r l') -> state_after b l x m m' -> state_after b l' x m m'.
Proof. intros H (C & O & E). split; [exact (changes_mono _ _ _ _ H C) | auto]. Qed.

Lemma based_after b Xbase l x m m' :
  based b Xbase m -> state_after b l x m m' -> ~ In Xbase l -> based b Xbase m'.
Proof. intros (Hg & E & H) ([C _ _] & _) Hn. split; [exact Hg|]. split; [rewrite C by exact Hn; exact E | exact H]. Qed.

Section State.
Context (b Xbase : Z) (s : asm) (m : machine).
Hypothesis (Hb : based b Xbase m).

#[local] Abbreviation X := (x87_at (mm m) b).

Lemma base_gpr : gpr Xbase.
Proof. apply Hb. Qed.
#[local] Hint Resolve base_gpr : regs.

(** [off] bytes into the structure. *)
Lemma base_off off : 0 <= off < 72 -> u64 (b + off) = b + off.
Proof. intros H. apply u64_small. destruct Hb as (_ & _ & ?). lia. Qed.

Lemma wp_store_top top tmp (Q : unit -> asm -> machine -> Prop) :
  gpr top -> gpr tmp -> Xbase <> tmp -> top <> tmp -> 0 <= xr m top < 8 ->
  (forall s' m', same_pools s s' -> state_after b [tmp] (with_top X (xr m top)) m m' -> Q tt s' m') ->
  wp (emit_store_top Xbase top tmp) Q s m.
Proof.
  intros Ht Hp N1 N2 HT HQ. pose proof base_gpr. pose proof (proj1 (proj2 Hb)) as Eb.
  unfold emit_store_top, kX87StatusWordImm12. exec_code. apply HQ; [pools|].
  split; [chg|]. regs. rewrite Eb. change (Z.shiftl 1 1) with 2. rewrite base_off by lia.
  change (Z.to_nat (2 ^ 1)) with 2%nat. cbn [w_of nz Z.eqb negb]. split; [apply outside_store; lia|].
  rewrite x87_at_sw. unfold with_top. f_equal.
  change (load 2 (mm m) (b + 2)) with (statusWord X). pose proof (statusWord_range (mm m) b).
  rewrite bfi_top, land7_u32, land7_small by exact HT. rewrite u16_u64, wrap_le by lia.
  rewrite (u32_of_16 (statusWord X)) by assumption. reflexivity.
Qed.

Lemma wp_top_add is_sub n top (Q : unit -> asm -> machine -> Prop) :
  gpr top -> 0 <= n < 4096 ->
  (forall s' m', same_pools s s' ->
     writes m m' top (Z.land (if nz is_sub then xr m top - n else xr m top + n) 7) -> Q tt s' m') ->
  wp (emit_top_add is_sub n top) Q s m.
Proof.
  intros Ht Hn HQ. unfold emit_top_add. exec_code. apply HQ; [pools|].
  split; [regs; cbn [w_of nz Z.eqb negb]; apply land7_u32 | frm].
Qed.

Lemma wp_phys_index top d out (Q : unit -> asm -> machine -> Prop) :
  gpr top -> gpr out -> 0 <= d < 8 -> 0 <= xr m top < 8 ->
  (forall s' m', same_pools s s' -> writes m m' out (Z.land (xr m top + d) 7) -> Q tt s' m') ->
  wp (emit_phys_index top d out) Q s m.
Proof.
  intros Ht Ho Hd HT HQ. unfold emit_phys_index. destruct (Z.eqb_spec d 0) as [->|_].
  - rewrite Z.add_0_r, land7_small in HQ by exact HT. destruct (Z.eqb_spec out top) as [->|_].
    + apply wp_ret, HQ; [apply same_pools_refl | split; [reflexivity | apply frame_refl]].
    + exec_code. apply HQ; [pools|]. split; [regs; apply wrap_small; cbn; lia | frm].
  - exec_code. apply HQ; [pools|]. split; [regs; cbn [w_of nz Z.eqb negb]; apply land7_u32 | frm].
Qed.

(** ** The tag word *)

(** [3 << (idx * 2)] *)
Lemma wp_tag_mask idx pos mask (Q : unit -> asm -> machine -> Prop) :
  gpr idx -> gpr pos -> gpr mask -> pos <> mask -> 0 <= xr m idx < 8 ->
  (forall s' m', same_pools s s' -> frame [pos; mask] m m' ->
     xr m' mask = Z.shiftl 3 (xr m idx * 2) -> Q tt s' m') ->
  wp (emit_tag_mask idx pos mask) Q s m.
Proof.
  intros Hi Hp Hm N HT HQ. unfold emit_tag_mask. exec_code. apply HQ; [pools | frm|].
  regs. cbn [w_of nz Z.eqb negb]. rewrite lsl1_small, mask_small by exact HT. f_equal. lia.
Qed.

Lemma wp_tag_update (e : bool) mask tag i (Q : unit -> asm -> machine -> Prop) :
  gpr mask -> gpr tag -> Xbase <> tag -> mask <> tag -> xr m mask = Z.shiftl 3 (i * 2) ->
  (forall s' m', same_pools s s' -> state_after b [tag] (mark e X [i]) m m' -> Q tt s' m') ->
  wp (emit_tag_update e Xbase mask tag) Q s m.
Proof.
  intros Hm Ht N1 N2 En HQ. pose proof base_gpr.
  assert (Hn : 0 <= Z.shiftl 3 (i * 2)) by (apply Z.shiftl_nonneg; lia). rewrite mark_1 in HQ. pose proof (proj1 (proj2 Hb)) as Eb.
  unfold emit_tag_update, kX87TagWordImm12. destruct e; exec_code; (apply HQ; [pools|]);
    (split; [chg|]); regs; rewrite Eb, En; change (Z.shiftl 2 1) with 4; rewrite base_off by lia;
    change (Z.to_nat (2 ^ 1)) with 2%nat; (split; [apply outside_store; lia|]);
    rewrite x87_at_tag, load_tag, Z.shiftl_0_r;
    [rewrite tag_set_word | rewrite tag_clear_word by exact Hn]; reflexivity.
Qed.
End State.

(** A tag of the register [idx] holds, set or cleared. *)
Lemma wp_tag b Xbase (e : bool) idx pos mask (Q : unit -> asm -> machine -> Prop) s m :
  based b Xbase m -> gpr idx -> gpr pos -> gpr mask -> pos <> mask -> Xbase <> pos -> Xbase <> mask ->
  0 <= xr m idx < 8 ->
  (forall s' m', same_pools s s' ->
     state_after b [pos; mask]
       (mark e (x87_at (mm m) b) [xr m idx]) m m' -> Q tt s' m') ->
  wp (emit_tag_mask idx pos mask ;;; emit_tag_update e Xbase mask pos) Q s m.
Proof.
  intros Hb Hi Hp Hm N1 N2 N3 HT HQ. apply wp_bind. apply wp_tag_mask; try assumption.
  intros s1 m1 P1 F1 E1. 
  assert (Hb1 : based b Xbase m1).
  { destruct Hb as (Hg & Eb & Hr). split; [exact Hg|]. split; [|exact Hr].
    rewrite (fr_x _ _ _ F1); [exact Eb | cbn; intuition]. }
  eapply (wp_tag_update b Xbase s1 m1 Hb1 e mask pos); try eassumption; try congruence.
  - intros s2 m2 P2 (C & O & E). rewrite (fr_mm _ _ _ F1) in O, E. apply HQ; [pools|].
    split; [|split; [exact O|]].
    + eapply changes_trans; [apply frame_changes; exact F1 | eapply changes_mono; [|exact C]]. cbn. tauto.
    + exact E.
Qed.

Lemma based_frame b Xbase l m m' : based b Xbase m -> frame l m m' -> ~ In Xbase l -> based b Xbase m'.
Proof. intros (Hg & E & H) [F _ _ _] Hn. split; [exact Hg|]. split; [rewrite F by exact Hn; exact E | exact H]. Qed.

Lemma state_after_frame b l l' x m m1 m2 :
  frame l m m1 -> (forall r, In r l -> In r l') -> state_after b l' x m1 m2 -> state_after b l' x m m2.
Proof.
  intros F Hl (C & O & E). rewrite (fr_mm _ _ _ F) in O. split; [|split; assumption].
  eapply changes_trans; [eapply changes_mono; [exact Hl | apply frame_changes, F] | exact C].
Qed.

Lemma state_after_frame_r b l l' x m m1 m2 :
  state_after b l' x m m1 -> frame l m1 m2 -> (forall r, In r l -> In r l') -> state_after b l' x m m2.
Proof.
  intros (C & O & E) F Hl. rewrite <- (fr_mm _ _ _ F) in O, E. split; [|split; assumption].
  eapply changes_trans; [exact C | eapply changes_mono; [exact Hl | apply frame_changes, F]].
Qed.

Ltac not_in := cbn; intuition congruence.
Ltac sub_in := cbn; tauto.

(** ** Push and pop *)

Section PushPop.
Context (b Xbase top tmp tmp2 : Z).
Hypothesis (Gt : gpr top) (Gp : gpr tmp) (Gq : gpr tmp2).
Hypothesis (N1 : Xbase <> top) (N2 : Xbase <> tmp) (N3 : Xbase <> tmp2).
Hypothesis (N4 : top <> tmp) (N5 : top <> tmp2) (N6 : tmp <> tmp2).

(** The state becomes [x], the TOP register [t]. *)
Definition leaves (x : X87State) (t : Z) (m m' : machine) : Prop :=
  state_after b [top; tmp; tmp2] x m m' /\ xr m' top = t.

Section From.
Context (s : asm) (m : machine).
Hypothesis (Hb : based b Xbase m) (HT : 0 <= xr m top < 8).

#[local] Abbreviation X := (x87_at (mm m) b).
#[local] Abbreviation T := (xr m top).
#[local] Abbreviation after x t Q := (forall s' m', same_pools s s' -> leaves x t m m' -> Q tt s' m').

Lemma wp_push_deferred (Q : unit -> asm -> machine -> Prop) :
  after (mark false X [Z.land (T - 1) 7]) (Z.land (T - 1) 7) Q ->
  wp (emit_x87_push_deferred Xbase top tmp tmp2) Q s m.
Proof.
  intros HQ. unfold emit_x87_push_deferred. apply wp_bind. apply wp_top_add; [exact Gt | lia|].
  intros s1 m1 P1 [E1 F1]. cbn in E1. pose proof (based_frame _ _ _ _ _ Hb F1 ltac:(not_in)) as Hb1.
  apply (wp_tag b Xbase false top tmp2 tmp); try assumption; try congruence.
  - rewrite E1. apply land7_range.
  - intros s2 m2 P2 S2. apply HQ; [pools|]. split.
    + eapply state_after_frame; [exact F1 | sub_in|]. eapply state_after_mono; [|].
      2:{ rewrite <- E1, <- (fr_mm _ _ _ F1). exact S2. } sub_in.
    + destruct S2 as [[C _ _] _]. rewrite C by not_in. exact E1.
Qed.

Lemma wp_push (Q : unit -> asm -> machine -> Prop) :
  after (mark false (with_top X (Z.land (T - 1) 7)) [Z.land (T - 1) 7]) (Z.land (T - 1) 7) Q ->
  wp (emit_x87_push Xbase top tmp tmp2) Q s m.
Proof.
  intros HQ. unfold emit_x87_push. apply wp_bind. apply wp_top_add; [exact Gt | lia|].
  intros s1 m1 P1 [E1 F1]. cbn in E1. pose proof (based_frame _ _ _ _ _ Hb F1 ltac:(not_in)) as Hb1.
  assert (R1 : 0 <= xr m1 top < 8) by (rewrite E1; apply land7_range).
  apply wp_bind. apply (wp_store_top b Xbase); try assumption; try congruence.
  intros s2 m2 P2 S2. pose proof (based_after _ _ _ _ _ _ Hb1 S2 ltac:(not_in)) as Hb2.
  assert (E2 : xr m2 top = Z.land (T - 1) 7) by (rewrite <- E1; apply (ch_x _ _ _ (proj1 S2)); not_in).
  apply (wp_tag b Xbase false top tmp2 tmp); try assumption; try congruence.
  intros s3 m3 P3 S3. rewrite (proj2 (proj2 S2)), E2, E1, (fr_mm _ _ _ F1) in S3. apply HQ; [pools|]. split.
  - eapply state_after_frame; [exact F1 | sub_in|].
    eapply state_after_trans; [eapply state_after_mono; [|exact S2]; sub_in | eapply state_after_mono; [|exact S3]; sub_in].
  - rewrite (ch_x _ _ _ (proj1 S3)) by not_in. exact E2.
Qed.

Lemma wp_pop_deferred (Q : unit -> asm -> machine -> Prop) :
  after (mark true X [T]) (Z.land (T + 1) 7) Q ->
  wp (emit_x87_pop_deferred Xbase top tmp tmp2) Q s m.
Proof.
  intros HQ. unfold emit_x87_pop_deferred.
  eapply wp_ext with (mo := (emit_tag_mask top tmp2 tmp ;;; emit_tag_update true Xbase tmp tmp2) ;;; emit_top_add 0 1 top).
  { unfold bind. destruct (emit_tag_mask top tmp2 tmp s) as [[? ?]|]; reflexivity. }
  apply wp_bind. apply (wp_tag b Xbase true top tmp2 tmp); try assumption; try congruence.
  intros s1 m1 P1 S1. apply wp_top_add; [exact Gt | lia|].
  intros s2 m2 P2 [E2 F2]. cbn in E2. apply HQ; [pools|]. split.
  - eapply state_after_frame_r; [eapply state_after_mono; [|exact S1]; sub_in | exact F2 | sub_in].
  - rewrite E2, (ch_x _ _ _ (proj1 S1)) by not_in. reflexivity.
Qed.

Lemma wp_pop (Q : unit -> asm -> machine -> Prop) :
  after (with_top (mark true X [T]) (Z.land (T + 1) 7)) (Z.land (T + 1) 7) Q ->
  wp (emit_x87_pop Xbase top tmp tmp2) Q s m.
Proof.
  intros HQ. unfold emit_x87_pop.
  eapply wp_ext with (mo := (emit_tag_mask top tmp2 tmp ;;; emit_tag_update true Xbase tmp tmp2) ;;;
                            emit_top_add 0 1 top ;;; emit_store_top Xbase top tmp).
  { unfold bind. destruct (emit_tag_mask top tmp2 tmp s) as [[? ?]|]; reflexivity. }
  apply wp_bind. apply (wp_tag b Xbase true top tmp2 tmp); try assumption; try congruence.
  intros s1 m1 P1 S1. apply wp_bind. apply wp_top_add; [exact Gt | lia|].
  intros s2 m2 P2 [E2 F2]. cbn in E2. rewrite (ch_x _ _ _ (proj1 S1)) in E2 by not_in.
  pose proof (based_frame _ _ _ _ _ (based_after _ _ _ _ _ _ Hb S1 ltac:(not_in)) F2 ltac:(not_in)) as Hb2.
  apply (wp_store_top b Xbase); try assumption; try congruence.
  { rewrite E2. apply land7_range. }
  intros s3 m3 P3 S3. rewrite E2, (fr_mm _ _ _ F2), (proj2 (proj2 S1)) in S3. apply HQ; [pools|]. split.
  - eapply state_after_trans; [|eapply state_after_mono; [|exact S3]; sub_in].
    eapply state_after_frame_r; [eapply state_after_mono; [|exact S1]; sub_in | exact F2 | sub_in].
  - rewrite (ch_x _ _ _ (proj1 S3)) by not_in. exact E2.
Qed.
End From.

(** ** Several pops at once *)

(** One more register marked. *)
Definition marked (e : bool) (x : X87State) (l : list Z) (t : Z) (s0 : asm) (m0 : machine) (s : asm) (m : machine) : Prop :=
  same_pools s0 s /\ based b Xbase m /\ state_after b [tmp; tmp2] (mark e x l) m0 m /\ xr m top = t.

Lemma phys_S T k n : phys T k (S n) = phys T k n ++ [Z.land (T + k + Z.of_nat n) 7].
Proof. unfold phys. rewrite seq_S, map_app. reflexivity. Qed.

Lemma mark_nil e x : s16 (tagWord x) = tagWord x -> mark e x [] = x.
Proof.
  intros H. unfold mark, with_tag. destruct x; cbn in *. f_equal.
  destruct e; [rewrite Z.lor_0_r | rewrite Z.land_m1_r]; exact H.
Qed.

Lemma tagWord_s16 m : s16 (tagWord (x87_at (mm m) b)) = tagWord (x87_at (mm m) b).
Proof. cbn [tagWord x87_at]. apply sgn_small; [lia | apply sgn_range; lia]. Qed.

Lemma wp_pop_n_deferred n s m (Q : unit -> asm -> machine -> Prop) :
  based b Xbase m -> 0 <= xr m top < 8 -> 0 <= n < 4096 ->
  (forall s' m', same_pools s s' ->
     leaves (mark true (x87_at (mm m) b) (phys (xr m top) 0 (Z.to_nat n))) (Z.land (xr m top + n) 7) m m' -> Q tt s' m') ->
  wp (emit_x87_pop_n_deferred Xbase top tmp tmp2 n) Q s m.
Proof.
  intros Hb HT Hn HQ. unfold emit_x87_pop_n_deferred. apply wp_bind.
  eapply wp_mono.
  - apply (wp_for (fun k => marked true (x87_at (mm m) b) (phys (xr m top) 0 k) (xr m top) s m)).
    + repeat split; try apply changes_refl; try apply outside_refl; try apply Hb.
      rewrite mark_nil by apply tagWord_s16. reflexivity.
    + intros k s1 m1 Hk (P1 & Hb1 & S1 & E1). rewrite Z.add_0_l.
      set (i := Z.of_nat k). 
      assert (Idx : forall Q', (forall s2 m2, same_pools s1 s2 -> frame [tmp2] m1 m2 ->
           xr m2 tmp2 = 2 * Z.land (xr m top + i) 7 -> Q' tt s2 m2) ->
         wp (if i =? 0 then emit_bitfield 0 2 0 31 30 top tmp2
             else emit_add_imm 0 0 0 0 i top tmp2 ;;; emit_and_imm 0 tmp2 0 0 2 tmp2 ;;; emit_bitfield 0 2 0 31 30 tmp2 tmp2)
            Q' s1 m1).
      { intros Q' HQ'. destruct (Z.eqb_spec i 0) as [->|Hi].
        - exec_code. apply HQ'; [pools | frm|]. regs. rewrite E1. change (w_of (nz 0)) with 32.
          rewrite Z.add_0_r, lsl1_small, land7_small by exact HT. reflexivity.
        - exec_code. apply HQ'; [pools | frm|]. regs. rewrite E1. change (nz 0) with false. cbn [w_of].
          rewrite land7_u32, lsl1_small by apply land7_range. reflexivity. }
      apply wp_bind, Idx. intros s2 m2 P2 F2 E2.
      apply wp_bind. apply r_movz; [assumption | lia|]. intros s3 P3.
      apply wp_bind. apply r_lslv; [assumption..|]. intros s4 P4.
      match goal with |- wp _ _ _ ?x => set (m4 := x) end.
      assert (F4 : frame [tmp; tmp2] m1 m4) by (subst m4; eapply frame_trans; [eapply frame_mono; [exact F2 | sub_in] | frm]).
      pose proof (based_frame _ _ _ _ _ Hb1 F4 ltac:(not_in)) as Hb4.
      apply (wp_tag_update b Xbase s4 m4 Hb4 true tmp tmp2 (Z.land (xr m top + i) 7)); try assumption.
      { subst m4. regs. rewrite E2, mask_small by apply land7_range. f_equal. lia. }
      intros s5 m5 P5 S5. split; [pools|].
      assert (E5 : state_after b [tmp; tmp2] (mark true (x87_at (mm m) b) (phys (xr m top) 0 (S k))) m m5).
      { eapply state_after_trans; [exact S1|]. eapply state_after_frame; [exact F4 | sub_in|].
        eapply state_after_mono; [|rewrite (fr_mm _ _ _ F4), (proj2 (proj2 S1)), mark_mark in S5;
          rewrite phys_S, Z.add_0_r; exact S5]. sub_in. }
      split; [eapply based_after; [exact Hb | exact E5 | not_in]|]. split; [exact E5|].
      apply (ch_x _ _ _ (proj1 E5)). not_in.
  - cbv beta. intros [] s1 m1 (P1 & Hb1 & S1 & E1). apply wp_top_add; [exact Gt | lia|].
    intros s2 m2 P2 [E2 F2]. cbn in E2. rewrite E1 in E2. apply HQ; [pools|]. split; [|exact E2].
    eapply state_after_frame_r; [eapply state_after_mono; [|exact S1]; sub_in | exact F2 | sub_in].
Qed.

Lemma wp_pop_n n s m (Q : unit -> asm -> machine -> Prop) :
  based b Xbase m -> 0 <= xr m top < 8 -> 0 <= n < 4096 ->
  (forall s' m', same_pools s s' ->
     leaves (with_top (mark true (x87_at (mm m) b) (phys (xr m top) 0 (Z.to_nat n))) (Z.land (xr m top + n) 7))
       (Z.land (xr m top + n) 7) m m' -> Q tt s' m') ->
  wp (emit_x87_pop_n Xbase top tmp tmp2 n) Q s m.
Proof.
  intros Hb HT Hn HQ. unfold emit_x87_pop_n. apply wp_bind. apply wp_pop_n_deferred; try assumption.
  intros s1 m1 P1 [S1 E1].
  apply (wp_store_top b Xbase); try assumption; try congruence.
  { eapply based_after; [exact Hb | exact S1 | not_in]. }
  { rewrite E1. apply land7_range. }
  intros s2 m2 P2 S2. rewrite E1, (proj2 (proj2 S1)) in S2. apply HQ; [pools|]. split.
  - eapply state_after_trans; [exact S1 | eapply state_after_mono; [|exact S2]; sub_in].
  - rewrite (ch_x _ _ _ (proj1 S2)) by not_in. exact E1.
Qed.
End PushPop.

(** ** Finding the state and TOP *)

Lemma wp_x87_base tgt Xd (Q : unit -> asm -> machine -> Prop) s m :
  gpr Xd -> 0 <= x87_state_offset tgt < 2 ^ 24 ->
  (forall s' m', same_pools s s' -> writes m m' Xd (u64 (xr m X18 + x87_state_offset tgt)) -> Q tt s' m') ->
  wp (emit_x87_base tgt Xd) Q s m.
Proof.
  intros Hd Ho HQ. unfold emit_x87_base, kX87ThreadReg. set (off := x87_state_offset tgt) in *.
  assert (G18 : gpr X18) by (unfold gpr, X18; lia).
  assert (Hhi : 0 <= Z.shiftr off 12 < 4096).
  { rewrite Z.shiftr_div_pow2 by lia. split; [apply Z.div_pos; lia | apply Z.div_lt_upper_bound; lia]. }
  assert (Hlo : 0 <= Z.land off 0xFFF < 4096) by (apply (land_bound off 0xFFF 12); lia).
  assert (Esum : Z.shiftl (Z.shiftr off 12) 12 + Z.land off 0xFFF = off).
  { change 0xFFF with (Z.ones 12). rewrite Z.land_ones, Z.shiftl_mul_pow2, Z.shiftr_div_pow2 by lia.
    pose proof (Z.div_mod off (2 ^ 12)). lia. }
  destruct (Z.leb_spec off 0xFFF).
  - apply wp_add_imm; [lia | lia | assumption..|]. exact HQ.
  - destruct (Z.eqb_spec (Z.land off 0xFFF) 0) as [E0|_].
    + apply wp_add_imm; [lia | lia | assumption..|]. intros s' m' P W. apply HQ; [exact P|].
      replace off with (Z.shiftl (Z.shiftr off 12) 12) at 1 by lia. exact W.
    + apply wp_bind. apply wp_add_imm; [lia | lia | assumption..|]. intros s1 m1 P1 [E1 F1].
      apply wp_add_imm; [lia | lia | assumption..|]. intros s2 m2 P2 [E2 F2]. apply HQ; [pools|].
      split; [|eapply frame_trans; eassumption]. rewrite E2, E1. cbn [nz Z.eqb negb w_of].
      rewrite wrap_add_l. f_equal. change (0 =? 0) with true. change (1 =? 0) with false. cbv iota. lia.
Qed.

(** The status word is reached from X18 when its offset allows, else from the
    base register. *)
Lemma wp_load_top tgt b Xbase top (Q : unit -> asm -> machine -> Prop) s m :
  gpr top -> 0 <= x87_state_offset tgt < 2 ^ 24 -> based b Xbase m ->
  b = u64 (xr m X18 + x87_state_offset tgt) ->
  (forall s' m', same_pools s s' -> writes m m' top (topIndex (x87_at (mm m) b)) -> Q tt s' m') ->
  wp (emit_load_top tgt Xbase top) Q s m.
Proof.
  intros Ht Ho Hb Eb HQ. pose proof Hb as (Hg & EX & Hr).
  assert (G18 : gpr X18) by (unfold gpr, X18; lia).
  unfold emit_load_top, kX87StatusWordOff, kX87ThreadReg, kX87TopShift, kX87StatusWordImm12.
  rewrite (wrap_small 32) by lia. set (o := x87_state_offset tgt + 2) in *.
  match goal with |- context [if ?c then X18 else Xbase] => set (direct := c) end.
  assert (Ha : u64 (xr m (if direct then X18 else Xbase) +
                    Z.shiftl (if direct then s16 (o / 2) else 1) 1) = b + 2 /\
               0 <= (if direct then s16 (o / 2) else 1) < 4096 /\ gpr (if direct then X18 else Xbase)).
  { destruct direct eqn:Ed; subst direct.
    - apply andb_true_iff in Ed as [E0 E1]. apply Z.eqb_eq in E0. apply Z.leb_le in E1.
      assert (Hd : o = 2 * (o / 2)).
      { change 1 with (Z.ones 1) in E0. rewrite Z.land_ones in E0 by lia. change (2 ^ 1) with 2 in E0.
        pose proof (Z.div_mod o 2). lia. }
      assert (0 <= o / 2 < 4096) by lia. rewrite (sgn_small 16) by lia.
      split; [|split; [assumption | exact G18]].
      rewrite Z.shiftl_mul_pow2 by lia. replace (xr m X18 + o / 2 * 2 ^ 1) with (xr m X18 + x87_state_offset tgt + 2) by lia.
      rewrite <- wrap_add_l, <- Eb. apply u64_small. lia.
    - change (Z.shiftl 1 1) with 2. rewrite EX, u64_small by lia. split; [reflexivity|]. split; [lia | exact Hg]. }
  destruct Ha as (Ha & Hi & Gb). exec_code.
  apply HQ; [pools|]. split; [|frm]. regs. cbn [w_of nz Z.eqb negb].
  change (Z.to_nat (2 ^ 1)) with 2%nat. rewrite Ha. apply ubfx_top.
Qed.

(** ** The register file *)

Lemma phys_index_range T d : 0 <= Z.land (T + d) 7 < 8.
Proof. apply land7_range. Qed.

(** The register file's base, or -1 when there is none. *)
Definition st_based (b Xst : Z) (m : machine) : Prop :=
  Xst = -1 \/ (gpr Xst /\ xr m Xst = b + 8).

Section RegFile.
Context (b Xbase Xst top tmp : Z).
Hypothesis (Gt : gpr top) (Gp : gpr tmp) (N1 : Xbase <> tmp) (N2 : Xst <> tmp).

Section At.
Context (s : asm) (m : machine) (d : Z).
Hypothesis (Hb : based b Xbase m) (Hst : st_based b Xst m) (HT : 0 <= xr m top < 8) (Hd : 0 <= d < 8).

#[local] Abbreviation i := (Z.land (xr m top + d) 7).

(** The byte offset of the slot, and the address both forms compute. *)
Lemma wp_st_offset (Q : unit -> asm -> machine -> Prop) :
  (forall s' m', same_pools s s' -> writes m m' tmp (8 + 8 * i) -> Q tt s' m') ->
  wp (emit_st_offset top d tmp) Q s m.
Proof.
  intros HQ. unfold emit_st_offset, kX87RegFileOff. apply wp_bind. apply wp_phys_index; try assumption.
  intros s1 m1 P1 [E1 F1]. exec_code. apply HQ; [pools|].
  split; [|eapply frame_trans; [exact F1 | frm]]. regs. rewrite E1.
  pose proof (phys_index_range (xr m top) d) as Hi. revert Hi. generalize i. intros k Hi. cases8 k Ek; reflexivity.
Qed.

Lemma slot_scaled : u64 (b + 8 + Z.shiftl (u64 i) 3) = b + 8 + 8 * i.
Proof.
  pose proof (phys_index_range (xr m top) d). rewrite (u64_small i) by lia. rewrite Z.shiftl_mul_pow2 by lia.
  destruct Hb as (_ & _ & ?). rewrite u64_small by lia. lia.
Qed.

Lemma slot_offset : u64 (b + Z.shiftl (u64 (8 + 8 * i)) 0) = b + 8 + 8 * i.
Proof.
  pose proof (phys_index_range (xr m top) d). rewrite Z.shiftl_0_r, (u64_small (8 + 8 * i)) by lia.
  destruct Hb as (_ & _ & ?). rewrite u64_small by lia. lia.
Qed.

Lemma wp_load_st Dd (Q : Z -> asm -> machine -> Prop) :
  gpr_or_zr Dd ->
  (forall r s' m', same_pools s s' ->
     (forall r', r' <> tmp -> xr m' r' = xr m r') -> nzcv m' = nzcv m -> mm m' = mm m ->
     vr m' = Fpu.set_reg (vr m) Dd (zget (X87State.st (x87_at (mm m) b)) i) -> Q r s' m') ->
  wp (emit_load_st Xbase top d tmp Dd Xst) Q s m.
Proof.
  intros HD HQ. pose proof (phys_index_range (xr m top) d) as Hi. unfold emit_load_st.
  rewrite zget_st in HQ by exact Hi. pose proof Hb as (Hg & Eb & Hr).
  destruct Hst as [Exst | [Gst Est]].
  - rewrite Exst. cbn [Z.leb Z.compare]. apply wp_bind, wp_st_offset. intros s1 m1 P1 [E1 F1].
    exec_code. apply HQ; [pools|..]; regs; try apply F1.
    + intros r' Hr'. apply F1. cbn. intuition.
    + rewrite E1, (fr_x _ _ _ F1), Eb, slot_offset, (fr_v _ _ _ F1), (fr_mm _ _ _ F1) by not_in. reflexivity.
  - replace (0 <=? Xst) with true by (symmetry; apply Z.leb_le; unfold gpr in Gst; lia).
    destruct (Z.eqb_spec d 0) as [E0|_].
    + exec_code. apply HQ; [pools|..]; regs; try reflexivity.
      rewrite Est. rewrite <- slot_scaled. rewrite E0, Z.add_0_r, (land7_small (xr m top)) by exact HT. reflexivity.
    + apply wp_bind, wp_phys_index; try assumption. intros s1 m1 P1 [E1 F1].
      exec_code. apply HQ; [pools|..]; regs; try apply F1.
      * intros r' Hr'. apply F1. cbn. intuition.
      * rewrite E1, (fr_x _ _ _ F1), Est, slot_scaled, (fr_v _ _ _ F1), (fr_mm _ _ _ F1) by not_in. reflexivity.
Qed.

Lemma wp_store_st Dd (Q : unit -> asm -> machine -> Prop) :
  gpr_or_zr Dd ->
  (forall s' m', same_pools s s' ->
     state_after b [tmp] (with_st (x87_at (mm m) b) (zset (X87State.st (x87_at (mm m) b)) i (u64 (vr m Dd)))) m m' ->
     Q tt s' m') ->
  wp (emit_store_st Xbase top d tmp Dd Xst) Q s m.
Proof.
  intros HD HQ. pose proof (phys_index_range (xr m top) d) as Hi. unfold emit_store_st.
  rewrite <- x87_at_st in HQ by exact Hi. pose proof Hb as (Hg & Eb & Hr).
  assert (Done : forall s' m', same_pools s s' -> frame [tmp] m m' ->
            Q tt s' (set_mm m' (store 8 (mm m') (b + 8 + 8 * i) (vr m' Dd)))).
  { intros s' m' P F. apply HQ; [exact P|]. rewrite (fr_mm _ _ _ F), (fr_v _ _ _ F). split; [|split].
    - apply changes_mm, frame_changes, F.
    - cbn [mm set_mm]. apply outside_store; lia.
    - reflexivity. }
  destruct Hst as [Exst | [Gst Est]].
  - rewrite Exst. cbn [Z.leb Z.compare]. apply wp_bind, wp_st_offset. intros s1 m1 P1 [E1 F1].
    exec_code. specialize (Done s' m1 ltac:(pools) F1).
    rewrite E1, (fr_x _ _ _ F1), Eb, slot_offset by not_in. exact Done.
  - replace (0 <=? Xst) with true by (symmetry; apply Z.leb_le; unfold gpr in Gst; lia).
    destruct (Z.eqb_spec d 0) as [E0|_].
    + exec_code. specialize (Done s' m ltac:(pools) (frame_refl _ _)).
      rewrite Est. rewrite <- slot_scaled in Done. revert Done.
      rewrite E0, Z.add_0_r, (land7_small (xr m top)) by exact HT. auto.
    + apply wp_bind, wp_phys_index; try assumption. intros s1 m1 P1 [E1 F1].
      exec_code. specialize (Done s' m1 ltac:(pools) F1).
      rewrite E1, (fr_x _ _ _ F1), Est, slot_scaled by not_in. exact Done.
Qed.
End At.
End RegFile.

(** ** Condition codes *)

(** NZCV after FCMP: what the conditions of the packing say. *)
Definition compared (c : option comparison) (n : Z) : Prop :=
  exists k, n = Z.lor (bits k 0 28) (fp_flags c).

Lemma flag_bit k c i :
  28 <= i -> Z.testbit (Z.lor (bits k 0 28) (fp_flags c)) i = Z.testbit (fp_flags c) i.
Proof.
  intros Hi. unfold bits. rewrite Z.lor_spec, Z.land_spec, Z.ones_spec_high, andb_false_r by lia. reflexivity.
Qed.

Lemma compared_conds c n :
  compared c n ->
  a64_cond 3 n = match c with Some Lt => true | _ => false end /\
  a64_cond 6 n = match c with None => true | _ => false end /\
  a64_cond 0 n = match c with Some Eq => true | _ => false end /\
  a64_cond 2 n = match c with Some Lt => false | _ => true end.
Proof.
  intros [k ->]. unfold a64_cond. rewrite !flag_bit by lia. destruct c as [[]|]; repeat split.
Qed.

(** Registers in use, or none of the pool's, that are not in [l]. *)
Definition kept (U l : list Z) (m m' : machine) : Prop :=
  forall r, ~ In r l -> scratch r = false \/ In r U -> xr m' r = xr m r.

Lemma scratch_gpr' r : scratch r = true -> gpr r.
Proof. intros H. apply scratch_gpr in H. unfold gpr. lia. Qed.
#[local] Hint Resolve scratch_gpr' : regs.

Lemma not_scratch_ne r q : scratch r = false -> scratch q = true -> r <> q.
Proof. congruence. Qed.

Lemma in_ne (a b : Z) U : In a U -> ~ In b U -> a <> b.
Proof. intros Ha Hb ->. contradiction. Qed.

Lemma kept_ne U r x y z :
  ~ In r [z] -> scratch r = false \/ In r U -> scratch x = true -> scratch y = true ->
  ~ In x U -> ~ In y (x :: U) -> r <> x /\ r <> y /\ r <> z.
Proof.
  cbn. intros Hr Hk Sx Sy Nx Ny. repeat split; intros ->; [| |tauto]; destruct Hk; intuition congruence.
Qed.

(** The value the packing leaves. *)
Lemma cc_packed c x y z :
  x = b2z match c with Some Lt => true | _ => false end ->
  y = b2z match c with None => true | _ => false end ->
  z = b2z match c with Some Eq => true | _ => false end ->
  let cc := Z.lor (u32 x) (u32 (Z.shiftl y 0)) in
  let r := Z.lor (u32 z) (u32 (Z.shiftl y 0)) in
  let cc := u32 (bitfield 32 2 24 23 (u32 cc) (u32 cc)) in
  let cc := Z.lor (u32 cc) (u32 (Z.shiftl y 10)) in
  Z.lor (u32 cc) (u32 (Z.shiftl r 14)) = CompareProps.cc_bits c.
Proof. intros -> -> ->. destruct c as [[]|]; reflexivity. Qed.

Section CondCodes.
Context (c : option comparison) (res : Z) (U : list Z) (s : asm) (m : machine).
Hypothesis (Hp : gpool s U) (HU : (length U < 7)%nat) (Gr : gpr res) (Hin : In res U) (Hc : compared c (nzcv m)).

#[local] Abbreviation after Q nz := (forall s' m', gpool s' U -> free_fpr_mask s' = free_fpr_mask s ->
  kept U [res] m m' -> vr m' = vr m -> mm m' = mm m -> nzcv m' = nz ->
  xr m' res = CompareProps.cc_bits c -> Q tt s' m').

Lemma wp_cc_pack_hoisted (Q : unit -> asm -> machine -> Prop) :
  after Q (nzcv m) -> wp (emit_fcom_cc_pack_hoisted res) Q s m.
Proof.
  intros HQ. destruct (compared_conds _ _ Hc) as (C3 & C6 & C0 & _).
  unfold emit_fcom_cc_pack_hoisted. apply wp_bind, (wp_galloc U); [exact Hp | lia|].
  intros cc s1 Scc Ncc P1 F1. apply wp_bind, (wp_galloc (cc :: U)); [exact P1 | cbn; lia|].
  intros vs s2 Svs Nvs P2 F2.
  pose proof (in_ne _ _ (cc :: U) (in_eq _ _) Nvs) as D1. pose proof (in_ne _ _ _ Hin Ncc) as D2.
  pose proof (in_ne _ _ (cc :: U) (in_cons _ _ _ Hin) Nvs) as D3. unfold emit_cc_csets, emit_cc_packing.
  exec_code.
  match goal with |- wp _ _ ?x _ => assert (P3 : same_pools s2 x) by pools end.
  apply (wp_gfree vs (cc :: U)); [eapply gpool_same; eassumption | exact Svs | exact Nvs|].
  intros s3 P4 F4. apply (wp_gfree cc U); [exact P4 | exact Scc | exact Ncc|].
  intros s4 P5 F5. apply HQ; [exact P5 | destruct P3; congruence | | regs; reflexivity..|].
  - intros r Hr Hk. destruct (kept_ne U r cc vs res) as (R1 & R2 & R3); try assumption.
    regs. reflexivity.
  - regs. rewrite C3, C6, C0. apply cc_packed; reflexivity.
Qed.

(** With the restore of NZCV from [save] in between, which is released. *)
Lemma wp_cc_pack save U' (Q : unit -> asm -> machine -> Prop) :
  (forall r, In r U <-> In r (save :: U')) -> ~ In save U' -> scratch save = true -> res <> save ->
  (forall s' m', gpool s' U' -> free_fpr_mask s' = free_fpr_mask s ->
    kept U [res] m m' -> vr m' = vr m -> mm m' = mm m -> nzcv m' = Z.land (u64 (xr m save)) 0xFC000000 ->
    xr m' res = CompareProps.cc_bits c -> Q tt s' m') ->
  wp (emit_fcom_cc_pack res save) Q s m.
Proof.
  intros HUU Nsv Ssv Drs HQ. destruct (compared_conds _ _ Hc) as (C3 & C6 & C0 & _).
  unfold emit_fcom_cc_pack. apply wp_bind, (wp_galloc U); [exact Hp | lia|].
  intros cc s1 Scc Ncc P1 F1. apply wp_bind, (wp_galloc (cc :: U)); [exact P1 | cbn; lia|].
  intros vs s2 Svs Nvs P2 F2.
  assert (Isv : In save U) by (apply HUU; left; reflexivity).
  pose proof (in_ne _ _ (cc :: U) (in_eq _ _) Nvs) as D1. pose proof (in_ne _ _ _ Hin Ncc) as D2.
  pose proof (in_ne _ _ (cc :: U) (in_cons _ _ _ Hin) Nvs) as D3.
  pose proof (in_ne _ _ _ Isv Ncc) as D4. pose proof (in_ne _ _ (cc :: U) (in_cons _ _ _ Isv) Nvs) as D5. unfold emit_cc_csets, emit_cc_packing.
  exec_code.
  match goal with |- wp _ _ ?x _ => assert (P3 : same_pools s2 x) by pools end.
  apply (wp_gfree save (vs :: cc :: U')).
  { eapply gpool_ext; [|eapply gpool_same; eassumption]. intros r. specialize (HUU r). cbn in *. tauto. }
  { exact Ssv. } { cbn. intuition congruence. }
  intros s3 P4 F4. exec_code.
  match goal with |- wp _ _ ?x _ => assert (P5 : same_pools s3 x) by pools end.
  assert (Ncc' : ~ In cc U') by (intros HH; apply Ncc, HUU; right; exact HH).
  assert (Nvs' : ~ In vs U') by (intros HH; apply Nvs; right; apply HUU; right; exact HH).
  apply (wp_gfree vs (cc :: U')); [eapply gpool_same; eassumption | exact Svs | cbn; intuition congruence|].
  intros s4 P6 F6. apply (wp_gfree cc U'); [exact P6 | exact Scc | exact Ncc'|].
  intros s5 P7 F7. apply HQ; [exact P7 | destruct P3, P5; congruence | | regs; reflexivity..|].
  - intros r Hr Hk. destruct (kept_ne U r cc vs res) as (R1 & R2 & R3); try assumption.
    regs. reflexivity.
  - regs. rewrite C3, C6, C0. apply cc_packed; reflexivity.
Qed.
End CondCodes.

(** [statusWord = (statusWord & ~(C0|C1|C2|C3)) | packed] *)
Definition with_cc (x : X87State) (packed : Z) : X87State :=
  with_sw x (u16 (Z.lor (Z.land (statusWord x) (Z.lnot X87Runtime.kCC0123)) packed)).

Lemma cc_word sw p :
  0 <= p < 2 ^ 16 -> 0 <= sw < 2 ^ 16 ->
  Z.lor (u32 (u32 (bitfield 32 1 18 0 (u32 (u32 (bitfield 32 1 24 2 (u32 sw) (u32 0)))) (u32 0)))) (u32 (Z.shiftl p 0)) =
  u16 (Z.lor (Z.land sw (Z.lnot X87Runtime.kCC0123)) p).
Proof.
  intros Hp Hs. rewrite Z.shiftl_0_r, (u32_of_16 p), (u32_of_16 sw) by assumption.
  change (bitfield 32 1 24 2 sw (u32 0)) with (Z.lor (Z.land sw (Z.lnot 0x700)) 0).
  rewrite Z.lor_0_r. set (x := Z.land sw (Z.lnot 0x700)).
  assert (Hx : 0 <= x < 2 ^ 16) by (subst x; rewrite Z.land_comm; apply land_bound; lia).
  rewrite !(u32_of_16 x) by exact Hx.
  change (bitfield 32 1 18 0 x (u32 0)) with (Z.lor (Z.land x (Z.lnot 0x4000)) 0).
  rewrite Z.lor_0_r. subst x. rewrite <- Z.land_assoc.
  change (Z.land (Z.lnot 0x700) (Z.lnot 0x4000)) with (Z.lnot X87Runtime.kCC0123).
  set (x := Z.land sw _).
  assert (Hy : 0 <= x < 2 ^ 16) by (subst x; rewrite Z.land_comm; apply land_bound; lia).
  rewrite !(u32_of_16 x) by exact Hy. symmetry. apply wrap_small, lor_bound; [lia | exact Hy | exact Hp].
Qed.

Section WriteSw.
Context (b Xbase packed : Z) (U : list Z) (s : asm) (m : machine).
Hypothesis (Hb : based b Xbase m) (NX : ~ In Xbase U -> scratch Xbase = false).
Hypothesis (Hp : gpool s U) (HU : (length U < 8)%nat) (Gp : gpr packed) (Hin : In packed U)
  (Hr : 0 <= xr m packed < 2 ^ 16).

#[local] Abbreviation X := (x87_at (mm m) b).

(** The status word that stays in the register is the one written. *)
Lemma wp_cc_write_sw_keep (Q : Z -> asm -> machine -> Prop) :
  (forall r s' m', scratch r = true -> ~ In r U -> gpool s' (r :: U) -> free_fpr_mask s' = free_fpr_mask s ->
    state_after b [r] (with_cc X (xr m packed)) m m' ->
    xr m' r = statusWord (with_cc X (xr m packed)) -> Q r s' m') ->
  wp (emit_fcom_cc_write_sw_keep Xbase packed) Q s m.
Proof.
  intros HQ. unfold emit_fcom_cc_write_sw_keep, kX87StatusWordImm12. apply wp_bind, (wp_galloc U); [assumption..|].
  intros r s1 Sr Nr P1 F1. pose proof (scratch_gpr' r Sr) as Gr. pose proof (in_ne _ _ _ Hin Nr) as D1.
  assert (D2 : Xbase <> r).
  { intros E. destruct (in_dec Z.eq_dec Xbase U) as [H|H]; [congruence | apply NX in H; congruence]. }
  pose proof Hb as (Gb & Eb & Hbr). exec_code.
  match goal with |- Q _ ?x _ => assert (P2 : same_pools s1 x) by pools end.
  change (nz 0) with false. cbn [w_of]. rewrite Eb. change (Z.shiftl 1 1) with 2. rewrite (base_off b Xbase m Hb) by lia.
  change (Z.to_nat (2 ^ 1)) with 2%nat. change (load 2 (mm m) (b + 2)) with (statusWord X).
  rewrite !cc_word by (exact Hr || apply statusWord_range).
  apply HQ; [exact Sr | exact Nr | eapply gpool_same; eassumption | destruct P2; congruence | | regs; reflexivity].
  split; [chg|]. cbn [mm]. split; [apply outside_store; lia|].
  rewrite x87_at_sw. unfold with_cc. rewrite u16_u64, wrap_wrap by lia. reflexivity.
Qed.
End WriteSw.

(** ** Rounding *)

(** RC as the dispatch reads it. *)
Definition rc_of (cw : Z) : Z := Z.land (Z.shiftr cw 10) 3.


Lemma rc_mode_rc cw :
  X87Runtime.rc_mode cw =
  (if Z.testbit (rc_of cw) 1 then if Z.testbit (rc_of cw) 0 then RZero else RUp
   else if Z.testbit (rc_of cw) 0 then RDown else RNE).
Proof.
  assert (E : Z.land cw kRoundingControlMask = Z.shiftl (rc_of cw) 10).
  { unfold rc_of, kRoundingControlMask. apply Z.bits_inj'. intros i Hi.
    rewrite Z.shiftl_spec, !Z.land_spec by lia. change 0xC00 with (Z.shiftl 3 10).
    rewrite Z.shiftl_spec by lia. destruct (Z.ltb_spec i 10).
    - rewrite !(Z.testbit_neg_r _ (i - 10)), andb_false_r by lia. reflexivity.
    - rewrite Z.shiftr_spec by lia. replace (i - 10 + 10) with i by lia. reflexivity. }
  unfold X87Runtime.rc_mode, kRoundDown, kRoundUp, kRoundToZero. rewrite E.
  assert (H : 0 <= rc_of cw < 4) by (unfold rc_of; apply (land_bound _ 3 2); lia).
  assert (rc_of cw = 0 \/ rc_of cw = 1 \/ rc_of cw = 2 \/ rc_of cw = 3) as [-> | [-> | [-> | ->]]] by lia;
    reflexivity.
Qed.

Lemma rc_range cw : 0 <= rc_of cw < 4.
Proof. unfold rc_of. apply (land_bound _ 3 2); lia. Qed.

(** The instructions of a sequence of emitters, one lemma each. *)
Ltac assemble :=
  repeat lazymatch goal with
  | |- assembles (bind (emit_tbz _ _ _ _) _) _ _ => eapply assembles_bind; [apply asm_tbz|]
  | |- assembles (bind (emit_b _) _) _ _ => eapply assembles_bind; [apply asm_b|]
  | |- assembles (bind (emit_fcvt_fp_to_int _ _ _ _ _) _) _ _ => eapply assembles_bind; [apply asm_fcvt_fp_to_int|]
  | |- assembles (bind (emit_fp_dp1 _ _ _ _) _) _ _ => eapply assembles_bind; [apply asm_fp_dp1|]
  | |- assembles (emit_fcvt_fp_to_int _ _ _ _ _) _ _ => apply asm_fcvt_fp_to_int
  | |- assembles (emit_fp_dp1 _ _ _ _) _ _ => apply asm_fp_dp1
  end.

Section Rounding.
Context (cw rc : Z) (s : asm) (m : machine).
Hypothesis (Grc : gpr rc) (Hrc : xr m rc = rc_of cw).

Lemma rc_bit m' i : xr m' rc = rc_of cw -> 0 <= i < 6 -> Z.testbit (rd_zr true m' rc) i = Z.testbit (rc_of cw) i.
Proof.
  intros E Hi. rewrite rd_zr_src, src_gpr, E by exact Grc. rewrite wrap_testbit by (cbn; lia).
  cbn [w_of]. replace (i <? 64) with true by (symmetry; apply Z.ltb_lt; lia). reflexivity.
Qed.

(** The instructions of a dispatch one by one, the bits of RC being known. *)
Ltac skips :=
  lazymatch goal with
  | |- run_insns _ ?k _ = _ => let k' := eval vm_compute in k in change k with k'
  end.

Ltac dispatch E1 E0 :=
  repeat lazymatch goal with
  | |- run_insns (_ :: ?rest) (S ?k) ?m = ?r => change (run_insns rest k m = r)
  | |- run_insns (Tbz ?z ?i ?off ?r :: ?rest) O ?m = _ =>
      rewrite (run_tbz z i off r rest m) by (cbv; congruence);
      first [ change i with 1; rewrite (rc_bit m 1) by (lia || (regs; exact Hrc)); rewrite E1
            | change i with 0; rewrite (rc_bit m 0) by (lia || (regs; exact Hrc)); rewrite E0 ];
      skips
  | |- run_insns (B ?off :: ?rest) O ?m = _ => rewrite (run_b off rest m) by (cbv; congruence); skips
  | |- run_insns (_ :: _) O _ = _ => erewrite run_exec; [|reflexivity |
        solve [match goal with H : forall _ _, _ -> exec _ _ = _ |- _ => apply H; reflexivity end | reflexivity]]
  end.

Lemma wp_rc_dispatch_frint Dd Dn (Q : unit -> asm -> machine -> Prop) :
  gpr_or_zr Dd -> gpr_or_zr Dn ->
  (forall s', same_pools s s' ->
     Q tt s' (putv m Dd (u64 (round_integral (X87Runtime.rc_mode cw) f64 (u64 (vr m Dn)))))) ->
  wp (emit_x87_rc_dispatch_frint rc Dd Dn) Q s m.
Proof.
  intros Gd Gn HQ. eapply wp_code; [unfold emit_x87_rc_dispatch_frint; assemble| |exact HQ].
  rewrite rc_mode_rc. cbn [app].
  rewrite (gpr_field rc), (gpr_or_zr_field Dd), (gpr_or_zr_field Dn) by assumption.
  destruct (Z.testbit (rc_of cw) 1) eqn:E1, (Z.testbit (rc_of cw) 0) eqn:E0; dispatch E1 E0; reflexivity.
Qed.

Lemma wp_rc_dispatch_fcvt Wd Dn sf (Q : unit -> asm -> machine -> Prop) :
  gpr Wd -> gpr_or_zr Dn -> sf = 0 \/ sf = 1 -> Wd <> rc ->
  (forall s' m', same_pools s s' ->
     writes m m' Wd (wrap (w_of (nz sf)) (fcvt_int (X87Runtime.rc_mode cw) (w_of (nz sf)) f64 (u64 (vr m Dn)))) ->
     Q tt s' m') ->
  wp (emit_x87_rc_dispatch_fcvt rc Wd Dn sf) Q s m.
Proof.
  intros Gd Gn Hsf Nr HQ.
  set (v r := wrap (w_of (nz sf)) (fcvt_int r (w_of (nz sf)) f64 (u64 (vr m Dn)))).
  assert (Ex : forall m' r, vr m' = vr m ->
    exec (FpInt (nz sf) (Z.land 1 3) r 0 Dn Wd) m' = Some (put m' Wd (v (rmode_of r)))).
  { intros m' r Ev. cbn [exec]. unfold fp_int. change (fmt_of (Z.land 1 3)) with (Some f64). cbv iota beta.
    rewrite wr_zr_put by exact Gd. unfold rd_v. rewrite Ev. reflexivity. }
  eapply (wp_code _ tt _ _ _ _ (put (if Z.testbit (rc_of cw) 1
            then if Z.testbit (rc_of cw) 0 then put m Wd (v RUp) else m
            else if Z.testbit (rc_of cw) 0 then put m Wd (v RNE) else m) Wd (v (X87Runtime.rc_mode cw)))).
  - unfold emit_x87_rc_dispatch_fcvt. assemble.
  - rewrite rc_mode_rc. cbn [app].
    rewrite (gpr_field rc), (gpr_field Wd), (gpr_or_zr_field Dn) by assumption.
    destruct (Z.testbit (rc_of cw) 1) eqn:E1, (Z.testbit (rc_of cw) 0) eqn:E0; dispatch E1 E0; reflexivity.
  - intros s' P. apply HQ; [exact P|]. split; [regs; reflexivity|].
    destruct (Z.testbit _ 1), (Z.testbit _ 0); frm.
Qed.
End Rounding.

(** ** Tags in batches *)

Lemma tag_mask_range l : Forall (fun i => 0 <= i < 8) l -> 0 <= tag_mask l < 2 ^ 16.
Proof.
  induction 1 as [|i l Hi _ IH]; [cbn; lia|]. cbn [tag_mask fold_right]. fold (tag_mask l).
  apply lor_bound; [lia | | exact IH]. cases8 i E; cbn; lia.
Qed.

(** The registers [n] to 1 below TOP. *)
Definition below (T n : Z) (k : nat) : list Z := map (fun j => Z.land (T - (n - Z.of_nat j)) 7) (seq 0 k).

Lemma below_S T n k : below T n (S k) = below T n k ++ [Z.land (T - (n - Z.of_nat k)) 7].
Proof. unfold below. rewrite seq_S, map_app. reflexivity. Qed.

Lemma below_range T n k : Forall (fun i => 0 <= i < 8) (below T n k).
Proof. apply Forall_forall. intros x Hx. apply in_map_iff in Hx as (j & <- & _). apply land7_range. Qed.

Lemma phys_range T k n : Forall (fun i => 0 <= i < 8) (phys T k n).
Proof. apply Forall_forall. intros x Hx. apply in_map_iff in Hx as (j & <- & _). apply land7_range. Qed.

(** Eight registers, [n] of them from [T]: the mask rotated within 16 bits. *)
Lemma rotated_mask T n :
  0 <= T < 8 -> 0 <= n <= 8 ->
  u16 (Z.lor (u32 (u32 (Z.shiftl (u32 (u16 (u32 (Z.shiftl 1 (2 * n)) - 1))) (2 * T mod 32))))
             (Z.shiftr (u32 (u32 (Z.shiftl (u32 (u16 (u32 (Z.shiftl 1 (2 * n)) - 1))) (2 * T mod 32)))) 16)) =
  tag_mask (phys T 0 (Z.to_nat n)).
Proof.
  intros HT Hn.
  assert (H : forallb (fun T => forallb (fun n =>
    u16 (Z.lor (u32 (u32 (Z.shiftl (u32 (u16 (u32 (Z.shiftl 1 (2 * n)) - 1))) (2 * T mod 32))))
               (Z.shiftr (u32 (u32 (Z.shiftl (u32 (u16 (u32 (Z.shiftl 1 (2 * n)) - 1))) (2 * T mod 32)))) 16)) =?
    tag_mask (phys T 0 (Z.to_nat n))) (map Z.of_nat (seq 0 9))) (map Z.of_nat (seq 0 8)) = true) by (vm_compute; reflexivity).
  rewrite forallb_forall in H. specialize (H T). rewrite forallb_forall in H.
  apply Z.eqb_eq, H; apply in_map_iff; [exists (Z.to_nat T) | exists (Z.to_nat n)]; (split; [lia | apply in_seq; lia]).
Qed.

Section Batch.
Context (b Xbase top tmp tmp2 tagw : Z) (s : asm) (m : machine).
Hypothesis (Hb : based b Xbase m) (HT : 0 <= xr m top < 8).
Hypothesis (Gt : gpr top) (Gp : gpr tmp) (Gq : gpr tmp2) (Gw : gpr tagw).
Hypothesis (N2 : Xbase <> tmp) (N3 : Xbase <> tmp2) (N4 : Xbase <> tagw).
Hypothesis (N5 : top <> tmp) (N6 : top <> tmp2) (N7 : top <> tagw).
Hypothesis (N8 : tmp <> tmp2) (N9 : tmp <> tagw) (N10 : tmp2 <> tagw).

#[local] Abbreviation X := (x87_at (mm m) b).
#[local] Abbreviation T := (xr m top).
#[local] Abbreviation after x Q := (forall s' m', same_pools s s' -> state_after b [tmp; tmp2; tagw] x m m' -> Q tt s' m').

Lemma wp_tag_set_empty_batch n (Q : unit -> asm -> machine -> Prop) :
  0 <= n < 4096 -> after (mark true X (below T n (Z.to_nat n))) Q ->
  wp (emit_x87_tag_set_empty_batch Xbase top tmp tmp2 tagw n) Q s m.
Proof.
  intros Hn HQ. pose proof Hb as (Gb & Eb & Hr). unfold emit_x87_tag_set_empty_batch, kX87TagWordImm12.
  apply wp_bind. apply r_ldr; [assumption | assumption | lia | lia|]. intros s1 P1.
  rewrite Eb. change (Z.shiftl 2 1) with 4. rewrite (base_off b Xbase m Hb) by lia. change (Z.to_nat (2 ^ 1)) with 2%nat.
  rewrite load_tag. set (m1 := put m tagw (u16 (tagWord X))). apply wp_bind. eapply wp_mono.
  - apply (wp_for (fun k s' m' => same_pools s s' /\ frame [tmp; tmp2; tagw] m m' /\
             xr m' tagw = Z.lor (u16 (tagWord X)) (tag_mask (below T n k)))).
    + split; [pools|]. split; [subst m1; frm|]. subst m1. regs. rewrite Z.lor_0_r. reflexivity.
    + intros k s2 m2 Hk (P2 & F2 & E2). rewrite Z.add_0_l.
      assert (ET : xr m2 top = T) by (apply F2; cbn; intuition). exec_code. split; [pools|].
      split; [eapply frame_trans; [exact F2 | frm]|]. regs. change (nz 0) with false. change (nz 1) with true.
      cbv iota. cbn [w_of]. rewrite ET, E2, land7_u32, lsl1_small, mask_small by apply land7_range.
      rewrite below_S, tag_mask_app, tag_mask_1, Z.lor_assoc, Z.shiftl_0_r.
      pose proof (tag_mask_range _ (below_range T n k)).
      pose proof (tag_mask_range [Z.land (T - (n - Z.of_nat k)) 7] ltac:(repeat constructor; apply land7_range)) as R1.
      rewrite tag_mask_1 in R1. rewrite Z.mul_comm.
      rewrite (u32_of_16 (Z.shiftl _ _)) by exact R1.
      rewrite u32_of_16 by (apply lor_bound; [lia | apply wrap_range; lia | assumption]). reflexivity.
  - cbv beta. intros [] s2 m2 (P2 & F2 & E2).
    assert (EX : xr m2 Xbase = b) by (rewrite (fr_x _ _ _ F2) by (cbn; intuition); exact Eb).
    apply r_str; [assumption | auto with regs | lia | lia|]. intros s3 P3. apply HQ; [pools|].
    rewrite EX, src_gpr, E2 by assumption. change (Z.shiftl 2 1) with 4. rewrite (base_off b Xbase m Hb) by lia.
    change (Z.to_nat (2 ^ 1)) with 2%nat. rewrite (fr_mm _ _ _ F2).
    split; [apply changes_mm, frame_changes, F2|]. cbn [mm set_mm]. split; [apply outside_store; lia|].
    rewrite x87_at_tag. unfold mark. f_equal.
    rewrite <- (tag_set_word (tagWord X)). 
    rewrite (u32_of_16 (u16 _)) by (apply wrap_range; lia). rewrite (u32_of_16 (tag_mask _)) by apply tag_mask_range, below_range.
    reflexivity.
Qed.

Lemma wp_tag_set_valid_batch n (Q : unit -> asm -> machine -> Prop) :
  0 <= n <= 8 -> after (mark false X (phys T 0 (Z.to_nat n))) Q ->
  wp (emit_x87_tag_set_valid_batch Xbase top tmp tmp2 tagw n) Q s m.
Proof.
  intros Hn HQ. pose proof Hb as (Gb & Eb & Hr). unfold emit_x87_tag_set_valid_batch, kX87TagWordImm12.
  pose proof (wrap_range 16 (u32 (Z.shiftl 1 (2 * n)) - 1) ltac:(lia)) as Hm.
  exec_code. apply HQ; [pools|]. split; [chg|]. regs. rewrite Eb. change (Z.shiftl 2 1) with 4.
  rewrite (base_off b Xbase m Hb) by lia. change (Z.to_nat (2 ^ 1)) with 2%nat. split; [apply outside_store; lia|].
  rewrite x87_at_tag, load_tag. unfold mark. f_equal. change (nz 0) with false. cbn [w_of].
  rewrite lsl1_small, Z.shiftl_0_r by exact HT. rewrite (wrap_small 32 (2 * T)) by lia.
  pose proof (rotated_mask T n HT Hn) as E. set (M := Z.lor _ (Z.shiftr _ 16)) in *.
  rewrite tag_clear_word, <- E.
  - apply s16_ext. intros i Hi. rewrite !Z.land_spec, !Z.lnot_spec, wrap_testbit by lia.
    replace (i <? 16) with true by (symmetry; apply Z.ltb_lt; lia). reflexivity.
  - subst M. apply Z.lor_nonneg. split; [apply wrap_range; lia|]. apply Z.shiftr_nonneg, wrap_range. lia.
Qed.
End Batch.
