(* ===== verification/PermProps.v ===== *)
(** The deferred FXCH permutation: emit_x87_perm_flush moves the register file
    so that each slot holds what the permutation says, rotating each cycle
    through two SIMD registers. *)

From S2P Require Import Prelude F64 GuestMem Emit Assembler A64 A64Exec CodeExec.
From S2P Require Import TranslatorHelpers AccessProps InsnRules X87Memory X87Helpers X87HelpersProps.
From S2P Require Fpu.
From S2P Require Import X87State.

Section Flush.
Context (b Xbase Xst top tmp save chain : Z) (perm : list Z) (m0 : machine).
Hypothesis (Gt : gpr top) (Gp : gpr tmp) (N1 : Xbase <> tmp) (N2 : Xst <> tmp) (N3 : top <> tmp).
Hypothesis (Gs : gpr_or_zr save) (Gc : gpr_or_zr chain) (Nsc : save <> chain).
Hypothesis (Hb : based b Xbase m0) (Hst : st_based b Xst m0) (HT : 0 <= xr m0 top < 8).
Hypothesis (p_range : forall d, 0 <= d < 8 -> 0 <= zget perm d < 8).
Hypothesis (p_inj : forall d d', 0 <= d < 8 -> 0 <= d' < 8 -> zget perm d = zget perm d' -> d = d').

#[local] Abbreviation X := (x87_at (mm m0) b).
#[local] Abbreviation T := (xr m0 top).
#[local] Abbreviation p := (zget perm).

(** ST(d) of a register file. *)
Definition slot_at (l : list Z) (d : Z) : Z := zget l (Z.land (T + d) 7).

Lemma slot_inj d d' : 0 <= d < 8 -> 0 <= d' < 8 -> Z.land (T + d) 7 = Z.land (T + d') 7 -> d = d'.
Proof. intros Hd Hd'. rewrite !land7_mod. intros E. Z.to_euclidean_division_equations. lia. Qed.

Lemma slot_set l d v d' :
  length l = 8%nat -> 0 <= d < 8 -> 0 <= d' < 8 ->
  slot_at (zset l (Z.land (T + d) 7) v) d' = if d' =? d then v else slot_at l d'.
Proof.
  intros Hl Hd Hd'. unfold slot_at. pose proof (land7_range (T + d)). pose proof (land7_range (T + d')).
  destruct (Z.eqb_spec d' d) as [->|Hne].
  - apply zget_zset_eq. rewrite Hl. lia.
  - apply zget_zset_ne; try lia. intros E. apply Hne. symmetry. apply slot_inj; assumption.
Qed.

(** The machine part way through: the register file is [l]. *)
Record filed (l : list Z) (m : machine) : Prop := {
  fi_x : forall r, r <> tmp -> xr m r = xr m0 r;
  fi_v : forall r, r <> save -> r <> chain -> vr m r = vr m0 r;
  fi_nzcv : nzcv m = nzcv m0;
  fi_out : outside b (mm m0) (mm m);
  fi_at : x87_at (mm m) b = with_st X l;
  fi_len : length l = 8%nat
}.

Lemma filed_0 : filed (st X) m0.
Proof. split; auto. apply outside_refl. Qed.

Lemma filed_based l m : filed l m -> based b Xbase m.
Proof. intros H. destruct Hb as (Hg & E & Hr). split; [exact Hg|]. split; [|exact Hr]. rewrite (fi_x _ _ H); auto. Qed.

Lemma filed_st l m : filed l m -> st_based b Xst m.
Proof. intros H. destruct Hst as [E | [Hg E]]; [left; exact E | right; split; [exact Hg | rewrite (fi_x _ _ H); auto]]. Qed.

Lemma filed_top l m : filed l m -> xr m top = T.
Proof. intros H. apply (fi_x _ _ H), N3. Qed.

Lemma wp_load_slot l d Dd (Q : Z -> asm -> machine -> Prop) s m :
  filed l m -> 0 <= d < 8 -> Dd = save \/ Dd = chain ->
  (forall r s' m', same_pools s s' -> filed l m' -> vr m' = Fpu.set_reg (vr m) Dd (slot_at l d) -> Q r s' m') ->
  wp (emit_load_st Xbase top d tmp Dd Xst) Q s m.
Proof.
  intros H Hd HD HQ. pose proof (filed_top _ _ H) as ET.
  apply (wp_load_st b); try assumption; try (rewrite ET; assumption).
  { eapply filed_based; exact H. } { eapply filed_st; exact H. }
  { destruct HD as [-> | ->]; assumption. }
  intros r s' m' P Ex En Em Ev. rewrite (fi_at _ _ H), ET in Ev. apply (HQ r); [exact P | | exact Ev].
  destruct H. split; auto; try congruence.
  - intros q Hq. rewrite Ex; auto.
  - intros q H1 H2. rewrite Ev, set_reg_ne; [auto | destruct HD as [-> | ->]; assumption].
  - rewrite Em. assumption.
Qed.

Lemma wp_store_slot l d Dd (Q : unit -> asm -> machine -> Prop) s m :
  filed l m -> 0 <= d < 8 -> Dd = save \/ Dd = chain -> 0 <= vr m Dd < 2 ^ 64 ->
  (forall s' m', same_pools s s' -> vr m' = vr m ->
     filed (zset l (Z.land (T + d) 7) (vr m Dd)) m' -> Q tt s' m') ->
  wp (emit_store_st Xbase top d tmp Dd Xst) Q s m.
Proof.
  intros H Hd HD Hr HQ. pose proof (filed_top _ _ H) as ET.
  apply (wp_store_st b); try assumption; try (rewrite ET; assumption).
  { eapply filed_based; exact H. } { eapply filed_st; exact H. }
  { destruct HD as [-> | ->]; assumption. }
  intros s' m' P ([Cx Cv Cn] & O & E). rewrite (fi_at _ _ H), ET, (u64_small (vr m Dd)) in E by exact Hr.
  apply HQ; [exact P | exact Cv|]. destruct H. split.
  - intros q Hq. rewrite Cx; [auto | cbn; intuition].
  - intros q H1 H2. rewrite Cv. auto.
  - congruence.
  - eapply outside_trans; eassumption.
  - exact E.
  - rewrite zset_length. assumption.
Qed.

(** ** One cycle *)

(** Slots in [V] hold their final value, the others their first. *)
Definition rotated (V : list Z) (l : list Z) : Prop :=
  forall d, 0 <= d < 8 -> slot_at l d = slot_at (st X) (if existsb (Z.eqb d) V then p d else d).

Definition closed (V : list Z) : Prop := forall d, 0 <= d < 8 -> In (p d) V <-> In d V.

Lemma existsb_In d V : existsb (Z.eqb d) V = true <-> In d V.
Proof.
  rewrite existsb_exists. split; [intros (x & Hx & E); apply Z.eqb_eq in E; congruence|].
  intros H. exists d. split; [exact H | apply Z.eqb_refl].
Qed.

Lemma rotated_set V l j v :
  rotated V l -> length l = 8%nat -> 0 <= j < 8 -> v = slot_at (st X) (p j) ->
  rotated (j :: V) (zset l (Z.land (T + j) 7) v).
Proof.
  intros HV Hl Hj -> d Hd. rewrite slot_set by assumption. cbn [existsb].
  destruct (Z.eqb_spec d j) as [->|]; [reflexivity | apply HV, Hd].
Qed.

Lemma rotated_ext V V' l : (forall d, In d V <-> In d V') -> rotated V l -> rotated V' l.
Proof.
  intros H HV d Hd. rewrite HV by exact Hd. f_equal.
  replace (existsb (Z.eqb d) V') with (existsb (Z.eqb d) V); [reflexivity|].
  apply eq_true_iff_eq. rewrite !existsb_In. apply H.
Qed.

Lemma slot_range d : 0 <= d < 8 -> 0 <= slot_at (st X) d < 2 ^ 64.
Proof. intros Hd. apply x87_st_range, land7_range. Qed.

(** The chain [j :: C] from [i]: each slot but the first is where the one
    before it takes its value. *)
Record on_cycle (i : Z) (V0 C : list Z) (j : Z) : Prop := {
  oc_nodup : NoDup (j :: C);
  oc_range : Forall (fun d => 0 <= d < 8) (j :: C);
  oc_start : In i (j :: C);
  oc_pred : forall d, In d (j :: C) -> d <> i -> exists d', In d' C /\ p d' = d;
  oc_next : forall d, In d C -> In (p d) (j :: C);
  oc_fresh : forall d, In d (j :: C) -> ~ In d V0
}.

Lemma on_cycle_step i V0 C j :
  closed V0 -> on_cycle i V0 C j -> p j <> i -> on_cycle i V0 (j :: C) (p j).
Proof.
  intros HV H Hne. destruct H as [Hn Hr Hs Hp Hx Hf]. pose proof (Forall_inv Hr) as Hj. cbv beta in Hj.
  rewrite Forall_forall in Hr.
  split; auto using in_cons.
  - constructor; [|exact Hn]. intros Hin. destruct (Hp _ Hin Hne) as (d' & Hd' & E).
    apply p_inj in E; [|apply Hr; right; exact Hd' | exact Hj]. subst d'. inversion Hn. contradiction.
  - constructor; [apply p_range, Hj | apply Forall_forall, Hr].
  - intros d [<- | Hd] Hdi; [exists j; split; [left; reflexivity | reflexivity]|].
    destruct (Hp d Hd Hdi) as (d' & H1 & H2). exists d'. split; [right; exact H1 | exact H2].
  - intros d [<- | Hd]; [left; reflexivity | right; apply Hx, Hd].
  - intros d [<- | Hd]; [|apply Hf, Hd]. intros H. apply (Hf j); [left; reflexivity | apply HV; assumption].
Qed.

Lemma on_cycle_close i V0 C j : closed V0 -> on_cycle i V0 C j -> p j = i -> closed ((j :: C) ++ V0).
Proof.
  intros HV [Hn Hr Hs Hp Hx Hf] E d Hd. rewrite Forall_forall in Hr. rewrite !in_app_iff. split.
  - intros [H | H]; [|right; apply HV; assumption]. left.
    destruct (Z.eq_dec (p d) i) as [Ei|Hni].
    + left. apply p_inj; [apply Hr; left; reflexivity | exact Hd | congruence].
    + destruct (Hp _ H Hni) as (d' & H' & E'). right. apply p_inj in E'; [congruence | apply Hr; right; exact H' | exact Hd].
  - intros [[<- | H] | H]; [left; rewrite E; exact Hs | left; apply Hx, H | right; apply HV; assumption].
Qed.

Lemma NoDup_range_length l : NoDup l -> Forall (fun d => 0 <= d < 8) l -> (length l <= 8)%nat.
Proof.
  intros Hn Hr. change 8%nat with (length [0; 1; 2; 3; 4; 5; 6; 7]). apply NoDup_incl_length; [exact Hn|].
  intros d Hd. rewrite Forall_forall in Hr. apply Hr in Hd. cbn. lia.
Qed.

Lemma wp_perm_cycle fuel i V0 : forall C j l s m (Q : list Z -> asm -> machine -> Prop),
  closed V0 -> on_cycle i V0 C j -> (9 <= length (j :: C) + fuel)%nat ->
  filed l m -> rotated (C ++ V0) l -> vr m save = slot_at (st X) i ->
  (forall l' s' m' V, same_pools s s' -> filed l' m' -> rotated V l' -> closed V ->
     (forall d, In d V0 \/ In d (j :: C) -> In d V) -> (forall d, In d V -> 0 <= d < 8 \/ In d V0) -> Q V s' m') ->
  wp (emit_perm_cycle fuel Xbase top tmp perm Xst save chain i j ((j :: C) ++ V0)) Q s m.
Proof.
  induction fuel as [|fuel IH]; intros C j l s m Q HV HC Hf Hm Hl Es HQ.
  { pose proof (NoDup_range_length _ (oc_nodup _ _ _ _ HC) (oc_range _ _ _ _ HC)). lia. }
  pose proof (Forall_inv (oc_range _ _ _ _ HC)) as Hj. cbv beta in Hj. cbn [emit_perm_cycle].
  destruct (Z.eqb_spec (p j) i) as [E | Hne].
  - apply wp_bind. apply (wp_store_slot l); try assumption; [auto | rewrite Es; apply slot_range; rewrite <- E; apply p_range, Hj|].
    intros s1 m1 P1 _ F1. apply wp_ret. apply (HQ _ _ _ ((j :: C) ++ V0) P1 F1).
    + apply (rotated_set (C ++ V0)); try assumption; [apply (fi_len _ _ Hm) | rewrite Es, E; reflexivity].
    + apply (on_cycle_close i); assumption.
    + intros d Hd. apply in_app_iff. tauto.
    + intros d Hd. apply in_app_iff in Hd as [Hd | Hd]; [left | right; exact Hd].
      pose proof (oc_range _ _ _ _ HC) as Hr. rewrite Forall_forall in Hr. apply Hr, Hd.
  - pose proof (on_cycle_step _ _ _ _ HV HC Hne) as HC'.
    assert (Hfresh : existsb (Z.eqb (p j)) (C ++ V0) = false).
    { apply not_true_iff_false. rewrite existsb_In, in_app_iff. intros [H | H].
      - pose proof (oc_nodup _ _ _ _ HC') as Hn. inversion Hn. apply H2. right. exact H.
      - apply (oc_fresh _ _ _ _ HC' (p j)); [left; reflexivity | exact H]. }
    apply wp_bind. apply (wp_load_slot l); [exact Hm | apply p_range, Hj | auto|].
    intros r s1 m1 P1 F1 V1. apply wp_bind.
    assert (E1 : vr m1 chain = slot_at (st X) (p j)).
    { rewrite V1, set_reg_eq, Hl, Hfresh by apply p_range, Hj. reflexivity. }
    apply (wp_store_slot l); [exact F1 | exact Hj | auto | rewrite E1; apply slot_range, p_range, Hj|].
    intros s2 m2 P2 V2 F2. 
    apply (IH (j :: C) (p j) (zset l (Z.land (T + j) 7) (vr m1 chain)) s2 m2 Q HV HC'); [cbn in *; lia | exact F2 | | |].
    + apply (rotated_set (C ++ V0)); [exact Hl | apply (fi_len _ _ Hm) | exact Hj | exact E1].
    + rewrite V2, V1, set_reg_ne by congruence. exact Es.
    + intros l' s' m' V P F R Cl Hin Hr. apply (HQ l' s' m' V); try assumption; [pools|].
      intros d [Hd | Hd]; apply Hin; [left; exact Hd | right; right; exact Hd].
Qed.

(** ** All of them *)

Lemma wp_perm_cycles order : forall V l s m (Q : unit -> asm -> machine -> Prop),
  Forall (fun d => 0 <= d < 8) order -> closed V -> filed l m -> rotated V l ->
  (forall l' s' m' V', same_pools s s' -> filed l' m' -> rotated V' l' ->
     (forall d, In d V \/ In d order -> In d V' \/ p d = d) -> Q tt s' m') ->
  wp (emit_perm_cycles order Xbase top tmp perm Xst save chain V) Q s m.
Proof.
  induction order as [|i order IH]; intros V l s m Q Ho HV Hm Hl HQ; cbn [emit_perm_cycles].
  - apply wp_ret. apply (HQ l s m V (same_pools_refl _) Hm Hl). intros d [H | []]. left; exact H.
  - pose proof (Forall_inv Ho) as Hi. cbv beta in Hi. apply Forall_inv_tail in Ho.
    destruct (existsb (Z.eqb i) V || (p i =? i)) eqn:E.
    + apply (IH V l); try assumption. intros l' s' m' V' P F R H. apply (HQ l' s' m' V'); try assumption.
      intros d [Hd | [<- | Hd]]; [apply H; auto | | apply H; auto].
      apply orb_true_iff in E as [E | E]; [apply H; left; apply existsb_In, E | right; apply Z.eqb_eq, E].
    + apply orb_false_iff in E as [Ei Ep]. apply Z.eqb_neq in Ep.
      assert (NV : ~ In i V) by (rewrite <- existsb_In; congruence).
      apply wp_bind. apply (wp_load_slot l); [exact Hm | exact Hi | auto|]. intros r s1 m1 P1 F1 V1.
      apply wp_bind. apply (wp_perm_cycle 8 i V [] i l); try assumption.
      * split.
        -- repeat constructor; cbn; tauto.
        -- repeat constructor; apply Hi.
        -- left; reflexivity.
        -- intros d [<- | []] Hne. congruence.
        -- intros d [].
        -- intros d [<- | []]. exact NV.
      * cbn. lia.
      * rewrite V1, set_reg_eq, Hl, Ei by exact Hi. reflexivity.
      * intros l' s' m' V' P F R Cl Hin _. apply (IH V' l'); try assumption.
        intros l2 s2 m2 V2 P' F' R' H. apply (HQ l2 s2 m2 V2); try assumption; [pools|].
        intros d [Hd | [<- | Hd]]; apply H; [left; apply Hin; auto | left; apply Hin; right; left; reflexivity | auto].
Qed.

Lemma wp_perm_flush s (Q : unit -> asm -> machine -> Prop) :
  (forall l s' m', same_pools s s' -> filed l m' -> (forall d, 0 <= d < 8 -> slot_at l d = slot_at (st X) (p d)) -> Q tt s' m') ->
  wp (emit_x87_perm_flush Xbase top tmp perm Xst save chain) Q s m0.
Proof.
  intros HQ. unfold emit_x87_perm_flush. apply (wp_perm_cycles _ [] (st X)).
  - repeat constructor; lia.
  - intros d _. split; intros [].
  - apply filed_0.
  - intros d _. reflexivity.
  - intros l s' m' V P F R H. apply (HQ l s' m' P F). intros d Hd. rewrite R by exact Hd.
    destruct (existsb (Z.eqb d) V) eqn:E; [reflexivity|].
    destruct (H d) as [Hin | ->]; [right; cbn; lia | apply existsb_In in Hin; congruence | reflexivity].
Qed.
End Flush.
