(* ===== verification/StateRefine.v ===== *)
(** The code TranslatorX87Helpers.cpp emits and the runtime's X87State.h agree
    on the state they share: the properties of the code sequences. *)

From S2P Require Import Prelude F64 GuestMem Emit Assembler A64 X87IREval A64Exec CodeExec.
From S2P Require Import TranslatorHelpers Pools AccessProps InsnRules X87Memory X87Helpers X87HelpersProps PermProps.
From S2P Require X87Runtime CompareProps X87Props.
From S2P Require Import X87State.

(** Distinct general registers. *)
Definition registers (l : list Z) : Prop := Forall gpr l /\ NoDup l.

Lemma registers_4 a b c d :
  registers [a; b; c; d] ->
  gpr a /\ gpr b /\ gpr c /\ gpr d /\ a <> b /\ a <> c /\ a <> d /\ b <> c /\ b <> d /\ c <> d.
Proof.
  intros [Hg Hn]. rewrite Forall_forall in Hg.
  assert (H : forall (x : Z) l, NoDup (x :: l) -> (forall y, In y l -> x <> y) /\ NoDup l).
  { intros x l Hd. inversion Hd. split; [intros y Hy ->; contradiction | assumption]. }
  apply H in Hn as [Ha Hn]. apply H in Hn as [Hb Hn]. apply H in Hn as [Hc _].
  repeat split; try (apply Hg; cbn; tauto); first [apply Ha | apply Hb | apply Hc]; cbn; tauto.
Qed.

Lemma topIndex_mark e x l : topIndex (mark e x l) = topIndex x.
Proof. reflexivity. Qed.

(** C23: emit_x87_push and emit_x87_pop leave the x87 state in memory exactly
    as the runtime's push() and pop() leave it - control, status and tag words
    and the register file - except that pop() also zeroes the register it
    frees; nothing else in memory changes, and the TOP register follows. *)
Theorem push_pop_refine b Xbase top tmp tmp2 s m :
  registers [Xbase; top; tmp; tmp2] -> xr m Xbase = b -> 0 <= b -> b + 72 <= 2 ^ 64 ->
  let x := x87_at (mm m) b in
  xr m top = topIndex x ->
  wp (emit_x87_push Xbase top tmp tmp2)
     (fun _ s' m' => same_pools s s' /\ state_after b [top; tmp; tmp2] (X87State.push x) m m' /\
                     xr m' top = topIndex (X87State.push x)) s m /\
  wp (emit_x87_pop Xbase top tmp tmp2)
     (fun _ s' m' => same_pools s s' /\ outside b (mm m) (mm m') /\ xr m' top = topIndex (X87State.pop x) /\
                     with_st (x87_at (mm m') b) (zset (st x) (topIndex x) 0) = X87State.pop x /\
                     st (x87_at (mm m') b) = st x) s m.
Proof.
  intros Hr Eb H0 H1 x ET. destruct (registers_4 _ _ _ _ Hr) as (Gb & Gt & Gp & Gq & D).
  destruct D as (D1 & D2 & D3 & D4 & D5 & D6).
  assert (Hb : based b Xbase m) by exact (conj Gb (conj Eb (conj H0 H1))).
  assert (HT : 0 <= xr m top < 8) by (rewrite ET; apply X87Props.topIndex_range).
  split.
  - apply (wp_push b Xbase top tmp tmp2); try assumption. intros s' m' P [S E]. split; [exact P|].
    rewrite push_top, <- ET. split; [exact S|]. rewrite E, topIndex_mark, topIndex_with_top by apply land7_range. reflexivity.
  - apply (wp_pop b Xbase top tmp tmp2); try assumption. intros s' m' P [(C & O & E) ETop].
    split; [exact P|]. split; [exact O|]. rewrite pop_top, E, ETop. unfold pop_words. fold x. rewrite ET.
    split; [symmetry; apply topIndex_with_top, land7_range | split; reflexivity].
Qed.

(** A thread whose x87 state is at 0x8000 in X22, TOP in X23 and the register
    file's base in X28. *)
Definition x87_machine : machine :=
  mkMachine (fun r => if r =? 22 then 0x8000 else if r =? 28 then 0x8008 else 0) (fun r => r) 0x60000000 (fun _ => 0).

Lemma registers_22 : registers [22; 23; 24; 25].
Proof. split; [repeat constructor; unfold gpr; lia | repeat constructor; cbn; lia]. Qed.

Lemma push_pop_refine_witness :
  let x := x87_at (mm x87_machine) 0x8000 in
  wp (emit_x87_push 22 23 24 25)
     (fun _ s' m' => same_pools (mkAsm [] kGprScratchMask kFprScratchMask [] []) s' /\
                     state_after 0x8000 [23; 24; 25] (X87State.push x) x87_machine m' /\ xr m' 23 = 7)
     (mkAsm [] kGprScratchMask kFprScratchMask [] []) x87_machine /\
  wp (emit_x87_pop 22 23 24 25)
     (fun _ s' m' => same_pools (mkAsm [] kGprScratchMask kFprScratchMask [] []) s' /\
                     outside 0x8000 (mm x87_machine) (mm m') /\ xr m' 23 = 1 /\
                     with_st (x87_at (mm m') 0x8000) (zset (st x) 0 0) = X87State.pop x /\
                     st (x87_at (mm m') 0x8000) = st x)
     (mkAsm [] kGprScratchMask kFprScratchMask [] []) x87_machine.
Proof.
  exact (push_pop_refine 0x8000 22 23 24 25 (mkAsm [] kGprScratchMask kFprScratchMask [] []) x87_machine
    registers_22 eq_refl ltac:(lia) ltac:(lia) eq_refl).
Defined.

(** C24: emit_load_st and emit_store_st, with or without a cached base of the
    register file, read and write the register getStFast and setStFast do. *)
Theorem load_store_st_refine b Xbase Xst top tmp d Dd s m :
  registers [Xbase; top; tmp] -> xr m Xbase = b -> 0 <= b -> b + 72 <= 2 ^ 64 ->
  Xst <> tmp -> st_based b Xst m -> 0 <= d < 8 -> gpr_or_zr Dd ->
  let x := x87_at (mm m) b in
  xr m top = topIndex x ->
  wp (emit_load_st Xbase top d tmp Dd Xst)
     (fun _ s' m' => same_pools s s' /\ vr m' Dd = getStFast x d /\ mm m' = mm m /\
                     (forall v, v <> Dd -> vr m' v = vr m v) /\ (forall r, r <> tmp -> xr m' r = xr m r)) s m /\
  wp (emit_store_st Xbase top d tmp Dd Xst)
     (fun _ s' m' => same_pools s s' /\
        state_after b [tmp] (with_st x (st (setStFast x d (u64 (vr m Dd))))) m m') s m.
Proof.
  intros [Hg Hn] Eb H0 H1 N2 Hst Hd HD x ET. rewrite Forall_forall in Hg.
  assert (Gt : gpr top) by (apply Hg; cbn; tauto). assert (Gp : gpr tmp) by (apply Hg; cbn; tauto).
  assert (N1 : Xbase <> tmp) by (inversion Hn; intros ->; cbn in *; tauto).
  assert (Hb : based b Xbase m) by exact (conj (Hg Xbase (or_introl eq_refl)) (conj Eb (conj H0 H1))).
  assert (HT : 0 <= xr m top < 8) by (rewrite ET; apply X87Props.topIndex_range).
  assert (Ei : getStIndex x d = Z.land (xr m top + d) 7).
  { unfold getStIndex. rewrite land7_u32, ET. f_equal. lia. }
  split.
  - apply (wp_load_st b); try assumption. intros r s' m' P Ex _ Em Ev. fold x in Ev.
    split; [exact P|]. rewrite Ev. unfold getStFast. rewrite Ei.
    split; [apply set_reg_eq|]. split; [exact Em|]. split; [intros v Hv; apply set_reg_ne, Hv | exact Ex].
  - apply (wp_store_st b); try assumption. intros s' m' P S. split; [exact P|].
    unfold setStFast. rewrite Ei. exact S.
Qed.

Lemma load_store_st_refine_witness :
  let x := x87_at (mm x87_machine) 0x8000 in
  wp (emit_load_st 22 23 3 24 30 28)
     (fun _ s' m' => same_pools (mkAsm [] kGprScratchMask kFprScratchMask [] []) s' /\ vr m' 30 = getStFast x 3 /\
        mm m' = mm x87_machine /\ (forall v, v <> 30 -> vr m' v = v) /\ (forall r, r <> 24 -> xr m' r = xr x87_machine r))
     (mkAsm [] kGprScratchMask kFprScratchMask [] []) x87_machine /\
  wp (emit_store_st 22 23 3 24 30 28)
     (fun _ s' m' => same_pools (mkAsm [] kGprScratchMask kFprScratchMask [] []) s' /\
        state_after 0x8000 [24] (with_st x (st (setStFast x 3 30))) x87_machine m')
     (mkAsm [] kGprScratchMask kFprScratchMask [] []) x87_machine.
Proof.
  refine (load_store_st_refine 0x8000 22 28 23 24 3 30 (mkAsm [] kGprScratchMask kFprScratchMask [] []) x87_machine
    _ eq_refl _ _ _ _ _ _ eq_refl); try lia; try (unfold gpr_or_zr; lia).
  - split; [repeat constructor; unfold gpr; lia | repeat constructor; cbn; lia].
  - right. split; [unfold gpr; lia | reflexivity].
Defined.

(** C25: emit_x87_perm_flush, for any permutation of the eight depths, always
    finishes its cycle walk and leaves ST(d) holding what ST(perm[d]) held;
    the other words of the state, the rest of memory and every register but
    its temporaries are unchanged. *)
Theorem perm_flush_correct b Xbase Xst top tmp save chain perm s m :
  registers [Xbase; top; tmp] -> xr m Xbase = b -> 0 <= b -> b + 72 <= 2 ^ 64 ->
  Xst <> tmp -> st_based b Xst m -> gpr_or_zr save -> gpr_or_zr chain -> save <> chain ->
  (forall d, 0 <= d < 8 -> 0 <= zget perm d < 8) ->
  (forall d d', 0 <= d < 8 -> 0 <= d' < 8 -> zget perm d = zget perm d' -> d = d') ->
  let x := x87_at (mm m) b in
  xr m top = topIndex x ->
  wp (emit_x87_perm_flush Xbase top tmp perm Xst save chain)
     (fun _ s' m' => same_pools s s' /\ outside b (mm m) (mm m') /\
        (forall r, r <> tmp -> xr m' r = xr m r) /\ (forall v, v <> save -> v <> chain -> vr m' v = vr m v) /\
        let x' := x87_at (mm m') b in
        controlWord x' = controlWord x /\ statusWord x' = statusWord x /\ tagWord x' = tagWord x /\
        forall d, 0 <= d < 8 -> getStFast x' d = getStFast x (zget perm d)) s m.
Proof.
  intros [Hg Hn] Eb H0 H1 N2 Hst Gs Gc Nsc Hpr Hpi x ET. rewrite Forall_forall in Hg.
  assert (Gt : gpr top) by (apply Hg; cbn; tauto). assert (Gp : gpr tmp) by (apply Hg; cbn; tauto).
  assert (N1 : Xbase <> tmp) by (inversion Hn; intros ->; cbn in *; tauto).
  assert (N3 : top <> tmp) by (inversion Hn; inversion H4; intros ->; cbn in *; tauto).
  assert (Hb : based b Xbase m) by exact (conj (Hg Xbase (or_introl eq_refl)) (conj Eb (conj H0 H1))).
  assert (HT : 0 <= xr m top < 8) by (rewrite ET; apply X87Props.topIndex_range).
  apply (wp_perm_flush b); try assumption. intros l s' m' P [Fx Fv _ Fo Fa _] Hl.
  assert (Ei : forall y d, topIndex y = topIndex x -> getStIndex y d = Z.land (xr m top + d) 7).
  { intros y d Ey. unfold getStIndex. rewrite land7_u32, Ey, ET. f_equal. lia. }
  rewrite Fa. split; [exact P|]. split; [exact Fo|]. split; [exact Fx|]. split; [exact Fv|].
  cbv zeta. split; [reflexivity|]. split; [reflexivity|]. split; [reflexivity|].
  intros d Hd. unfold getStFast. rewrite !Ei by reflexivity. apply Hl, Hd.
Qed.

Lemma perm_flush_correct_witness :
  let x := x87_at (mm x87_machine) 0x8000 in
  wp (emit_x87_perm_flush 22 23 24 [3; 0; 2; 1; 5; 4; 6; 7] 28 30 31)
     (fun _ s' m' => same_pools (mkAsm [] kGprScratchMask kFprScratchMask [] []) s' /\ 
        outside 0x8000 (mm x87_machine) (mm m') /\
        (forall r, r <> 24 -> xr m' r = xr x87_machine r) /\ (forall v, v <> 30 -> v <> 31 -> vr m' v = v) /\
        let x' := x87_at (mm m') 0x8000 in
        controlWord x' = controlWord x /\ statusWord x' = statusWord x /\ tagWord x' = tagWord x /\
        forall d, 0 <= d < 8 -> getStFast x' d = getStFast x (zget [3; 0; 2; 1; 5; 4; 6; 7] d))
     (mkAsm [] kGprScratchMask kFprScratchMask [] []) x87_machine.
Proof.
  refine (perm_flush_correct 0x8000 22 28 23 24 30 31 [3; 0; 2; 1; 5; 4; 6; 7]
    (mkAsm [] kGprScratchMask kFprScratchMask [] []) x87_machine _ eq_refl _ _ _ _ _ _ _ _ _ eq_refl);
    try lia; try (unfold gpr_or_zr; lia).
  - split; [repeat constructor; unfold gpr; lia | repeat constructor; cbn; lia].
  - right. split; [unfold gpr; lia | reflexivity].
  - intros d Hd. cases8 d E; vm_compute; split; congruence.
  - intros d d' Hd Hd'. cases8 d E; cases8 d' E'; vm_compute; congruence.
Defined.

(** C26: the branch trees of emit_x87_rc_dispatch_fcvt and
    emit_x87_rc_dispatch_frint, given the two RC bits of the control word,
    run exactly the conversion or rounding whose mode the runtime's
    [x87_round_by_rc] would use, and change nothing but the destination. *)
Theorem rc_dispatch_correct cw rc Wd Dd Dn sf s m :
  gpr rc -> xr m rc = Z.land (Z.shiftr cw 10) 3 -> gpr Wd -> Wd <> rc -> gpr_or_zr Dd -> gpr_or_zr Dn ->
  sf = 0 \/ sf = 1 ->
  let w := if nz sf then 64 else 32 in
  wp (emit_x87_rc_dispatch_fcvt rc Wd Dn sf)
     (fun _ s' m' => same_pools s s' /\ frame [Wd] m m' /\
        xr m' Wd = wrap w (fcvt_int (X87Runtime.rc_mode cw) w f64 (u64 (vr m Dn)))) s m /\
  wp (emit_x87_rc_dispatch_frint rc Dd Dn)
     (fun _ s' m' => same_pools s s' /\ xr m' = xr m /\ nzcv m' = nzcv m /\ mm m' = mm m /\
        (forall v, v <> Dd -> vr m' v = vr m v) /\
        vr m' Dd = u64 (X87Runtime.x87_round_by_rc (u64 (vr m Dn)) cw)) s m.
Proof.
  intros Grc Erc Gw Nw Gd Gn Hsf w. split.
  - apply (wp_rc_dispatch_fcvt cw); try assumption. intros s' m' P [E F].
    split; [exact P|]. split; [exact F | exact E].
  - apply (wp_rc_dispatch_frint cw); try assumption. intros s' P. split; [exact P|].
    repeat (split; [reflexivity|]). split; [intros v Hv; apply set_reg_ne, Hv | apply set_reg_eq].
Qed.

Lemma rc_dispatch_correct_witness :
  let m := mkMachine (fun r => if r =? 25 then 2 else 0) (fun _ => 0x400199999999999A) 0 (fun _ => 0) in
  let s := mkAsm [] kGprScratchMask kFprScratchMask [] [] in
  wp (emit_x87_rc_dispatch_fcvt 25 26 31 0)
     (fun _ s' m' => same_pools s s' /\ frame [26] m m' /\ xr m' 26 = 3) s m /\
  wp (emit_x87_rc_dispatch_frint 25 30 31)
     (fun _ s' m' => same_pools s s' /\ xr m' = xr m /\ nzcv m' = nzcv m /\ mm m' = mm m /\
        (forall v, v <> 30 -> vr m' v = vr m v) /\ vr m' 30 = 0x4008000000000000) s m.
Proof.
  intros m s.
  refine (rc_dispatch_correct 0x0B7F 25 26 30 31 0 s m _ eq_refl _ _ _ _ (or_introl eq_refl));
  unfold gpr, gpr_or_zr; lia.
Defined.
