(* ===== verification/LowerRel.v ===== *)
(** The simulation between the nodes of a run and the code the lowering emits
    for them: which registers, memory and pools a machine must have for it to
    stand for an evaluation state, and how the relation moves.

    The accesses of a run's nodes: through a cached base, the displacement in
    the instruction, or through the operand's own address. *)

From S2P Require Import Prelude F64 GuestMem X87State X87Props F64Props Emit IROperand X87IR Fpu X87IREval A64Exec CodeExec.
From S2P Require Import TranslatorHelpers Pools InsnRules AccessProps X87Cache X87IRPlan X87IRLower.
From S2P Require Import X87Memory X87HelpersProps.
From S2P Require Import Assembler A64 EmitDecode.
From S2P Require Import AccessProps.

(** ** Memory outside the x87 state *)

Definition apart (b a : Z) (n : nat) : bool := (a + Z.of_nat n <=? b) || (b + 72 <=? a).

Definition agree (b : Z) (m m' : mem) : Prop := forall x, ~ (b <= x < b + 72) -> u8 (m x) = u8 (m' x).

Lemma apartE b a n : apart b a n = true -> a + Z.of_nat n <= b \/ b + 72 <= a.
Proof. unfold apart. rewrite orb_true_iff, !Z.leb_le. auto. Qed.

Lemma agree_load b m m' n a : agree b m m' -> apart b a n = true -> load n m a = load n m' a.
Proof. intros H Ha. apply apartE in Ha. apply load_ext. intros x Hx. apply H. intros Hn. lia. Qed.

Lemma u8_shiftr_ext w v v' k : 0 <= k -> k + 8 <= w -> wrap w v = wrap w v' -> u8 (Z.shiftr v k) = u8 (Z.shiftr v' k).
Proof.
  intros Hk Hw E. apply Z.bits_inj'. intros i Hi. rewrite !wrap_testbit, !Z.shiftr_spec by lia.
  destruct (Z.ltb_spec i 8); [|reflexivity]. cbn.
  assert (H1 : Z.testbit (wrap w v) (i + k) = Z.testbit (wrap w v') (i + k)) by (rewrite E; reflexivity).
  rewrite !wrap_testbit in H1 by lia. replace (i + k <? w) with true in H1 by (symmetry; apply Z.ltb_lt; lia). exact H1.
Qed.

Lemma agree_store b m m' n a v v' :
  agree b m m' -> wrap (8 * Z.of_nat n) v = wrap (8 * Z.of_nat n) v' -> agree b (store n m a v) (store n m' a v').
Proof.
  intros H E x Hx. unfold store. destruct (Z.leb_spec a x), (Z.ltb_spec x (a + Z.of_nat n)); cbn [andb]; try (apply H, Hx).
  apply (u8_shiftr_ext (8 * Z.of_nat n)); [lia | lia | exact E].
Qed.

Lemma agree_outside b m m1 m' : outside b m m1 -> agree b m m' -> agree b m1 m'.
Proof. intros H1 H2 x Hx. rewrite H1 by exact Hx. apply H2, Hx. Qed.

(** ** The address of an operand depends on the guest registers only *)

Lemma field15_range x : 0 <= Z.land x 0xF < 16.
Proof. apply (land_bound x 0xF 4); lia. Qed.

Lemma addr_regs segbase r r' o : (forall k, 0 <= k < 16 -> r k = r' k) -> addr segbase r o = addr segbase r' o.
Proof.
  intros H. unfold addr, mem_sum. rewrite (H (Z.land (base_reg o) 0xF)), (H (Z.land (index_reg o) 0xF)) by apply field15_range.
  reflexivity.
Qed.

(** ** The relation *)

(** A compare whose condition codes are still in a register: its node, the
    status word before it and its outcome. *)
Definition pending : Type := option (Z * Z * option comparison).

Section Rel.
Context (cfg : RosettaConfig) (segbase : Z -> Z) (b T0 Tmem : Z) (x0 : X87State) (m0 : machine).
Context (f : Frame) (pinned : list Z) (skip : bool) (single : Z -> bool).

Definition held (P : pending) (rg : Regs) : list Z :=
  match P with Some (id, _, _) => [zget (node_fpr rg) id] | None => [] end ++
  (if 0 <=? Wd_nzcv_saved rg then [Wd_nzcv_saved rg] else []).

(** The general registers in use. *)
Definition in_use (P : pending) (rg : Regs) : list Z := held P rg ++ pinned.

Definition memory_sw (P : pending) (e : ir) : Z := match P with Some (_, w, _) => w | None => i_sw e end.

Record machine_rel (e : ir) (P : pending) (rg : Regs) (m : machine) : Prop := mkMachineRel {
  mr_regs : forall r, 0 <= r < 16 -> xr m r = i_regs e r;
  mr_other : forall r, 16 <= r -> scratch r = false -> xr m r = xr m0 r;
  mr_v : forall r, fscratch cfg r = false -> vr m r = vr m0 r;
  mr_mem : agree b (mm m) (i_mem e);
  mr_state : x87_at (mm m) b = mkX87 (i_cw e) (status_word (memory_sw P e) Tmem) (tagWord x0) (X87State.st x0);
  mr_base : based b (Xbase f) m;
  mr_st : st_based b (Xst_base f) m;
  mr_top : xr m (Wd_top f) = T0;
  mr_bases : forall k, In k (f_bases f) -> u64 (xr m (b_reg k)) = addr segbase (i_regs e) (with_disp0 (b_rep k));
  mr_rc : rc_cache_valid rg = true -> 0 <= Wd_rc_cached f -> xr m (Wd_rc_cached f) = rc_of (i_cw e);
  mr_pend : match P with
            | Some (id, w, c) => 0 <= id < Z.of_nat (length (vals e)) /\ i_sw e = set_cc w c /\
                                 xr m (zget (node_fpr rg) id) = CompareProps.cc_bits c
            | None => True
            end;
  mr_nzcv : if skip then True else
            if 0 <=? Wd_nzcv_saved rg then xr m (Wd_nzcv_saved rg) = i_nzcv e else nzcv m = i_nzcv e;
  mr_flags : Z.land (i_nzcv e) 0xFC000000 = i_nzcv e;
  mr_sw : 0 <= i_sw e < 2 ^ 16;
  mr_old_sw : 0 <= memory_sw P e < 2 ^ 16
}.

(** [J]: the nodes whose value is in a SIMD register; those of [single] hold
    a single. *)
Record fprs_rel (e : ir) (P : pending) (J : list Z) (rg : Regs) (m : machine) : Prop := mkFprsRel {
  fr_len : length (node_fpr rg) = 128%nat;
  fr_ids : forall j, In j J -> 0 <= j < Z.of_nat (length (vals e));
  fr_nodup : NoDup J;
  fr_scratch : forall j, In j J -> fscratch cfg (zget (node_fpr rg) j) = true;
  fr_inj : NoDup (map (zget (node_fpr rg)) J);
  fr_val : forall j, In j J -> vr m (zget (node_fpr rg) j) = zget (vals e) j /\ in64 (zget (vals e) j);
  fr_single : forall j, In j J -> single j = true -> zget (vals e) j < 2 ^ 32;
  fr_none : forall j, 0 <= j < 128 -> ~ In j J -> match P with Some (id, _, _) => j <> id | None => True end ->
            zget (node_fpr rg) j = -1;
  fr_pend : match P with Some (id, _, _) => ~ In id J | None => True end
}.

Record pools_rel (P : pending) (rg : Regs) (V : list Z) (a : asm) : Prop := mkPoolsRel {
  pr_gpool : gpool a (in_use P rg);
  pr_nodup : NoDup (in_use P rg);
  pr_held : forall r, In r (held P rg) -> scratch r = true;
  pr_fpool : fpool cfg a V
}.

Definition Rel (e : ir) (P : pending) (J : list Z) (rg : Regs) (a : asm) (m : machine) : Prop :=
  machine_rel e P rg m /\ fprs_rel e P J rg m /\ pools_rel P rg (map (zget (node_fpr rg)) J) a.
(** The registers the frame names are taken, and none is [lower]'s own
    temporary or the rounding-control register by accident. *)
Record frame_ok : Prop := mkFrameOk {
  fk_top_known : top_known f = -1;
  fk_xb : In (Xbase f) pinned;
  fk_top : In (Wd_top f) pinned;
  fk_tmp : In (Wd_tmp f) pinned;
  fk_st : Xst_base f = -1 \/ In (Xst_base f) pinned;
  fk_rc : Wd_rc_cached f < 0 \/ In (Wd_rc_cached f) pinned;
  fk_bases : forall k, In k (f_bases f) -> 0 <= b_reg k < 16 \/ In (b_reg k) pinned;
  fk_scratch : forall r, In r pinned -> scratch r = true;
  fk_tmp_ne : Wd_tmp f <> Xbase f /\ Wd_tmp f <> Wd_top f /\ Wd_tmp f <> Xst_base f /\
              Wd_tmp f <> Wd_rc_cached f /\ forall k, In k (f_bases f) -> b_reg k <> Wd_tmp f;
  fk_rc_ne : Wd_rc_cached f <> Xbase f /\ Wd_rc_cached f <> Wd_top f /\
             (Wd_rc_cached f <> Xst_base f \/ Wd_rc_cached f < 0) /\
             forall k, In k (f_bases f) -> b_reg k <> Wd_rc_cached f;
  fk_T0 : 0 <= T0 < 8
}.
End Rel.

Lemma guest_not_scratch r : 0 <= r < 16 -> scratch r = false.
Proof. intros H. unfold scratch. destruct (Z.leb_spec 22 r); [lia | reflexivity]. Qed.

(** ** Registers code leaves alone *)

(** The registers in use, and those outside the pool, but for those of [l]. *)
Definition safe (U l : list Z) (m m' : machine) : Prop :=
  forall r, 0 <= r -> ~ In r l -> scratch r = false \/ In r U -> xr m' r = xr m r.

Lemma safe_refl U l m : safe U l m m.
Proof. intros r _ _ _. reflexivity. Qed.

Lemma safe_trans U l m m1 m2 : safe U l m m1 -> safe U l m1 m2 -> safe U l m m2.
Proof. intros H1 H2 r Hr Hl Hu. rewrite H2, H1; auto. Qed.

Lemma safe_mono U U' l l' m m' :
  (forall r, In r U' -> In r U) -> (forall r, In r l -> In r l') -> safe U l m m' -> safe U' l' m m'.
Proof. intros HU Hl H r Hr Hn Hu. apply H; [exact Hr | auto | destruct Hu; auto]. Qed.

Lemma safe_kept U l m m' : kept U l m m' -> safe U l m m'.
Proof. intros H r _. apply H. Qed.

Lemma safe_keeps a U l m m' : gpool a U -> keeps a l m m' -> safe U l m m'.
Proof.
  intros [_ Hp] Hk r Hr Hn Hu. apply Hk; [exact Hr | | exact Hn]. rewrite Hp by exact Hr.
  destruct Hu as [-> | Hu]; [reflexivity|]. apply used_In in Hu. rewrite Hu. apply andb_false_r.
Qed.

(** A register just allocated may change. *)
Lemma safe_only U l m m' (l' : list Z) :
  (forall r, ~ In r l' -> xr m' r = xr m r) ->
  (forall r, In r l' -> In r l \/ (scratch r = true /\ ~ In r U)) -> safe U l m m'.
Proof.
  intros H Hl r Hr Hn Hu. apply H. intros Hin. destruct (Hl r Hin) as [|[Hs Hnu]]; [contradiction|].
  destruct Hu as [Hu | Hu]; [congruence | contradiction].
Qed.

Lemma safe_frame U l m m' l' :
  frame l' m m' -> (forall r, In r l' -> In r l \/ (scratch r = true /\ ~ In r U)) -> safe U l m m'.
Proof. intros [H _ _ _]. apply safe_only, H. Qed.

Lemma safe_changes U l m m' l' :
  changes l' m m' -> (forall r, In r l' -> In r l \/ (scratch r = true /\ ~ In r U)) -> safe U l m m'.
Proof. intros [H _ _]. apply safe_only, H. Qed.

(** ** Lists without one of their elements *)

Lemma map_dropped (g : Z -> Z) l v : In v l -> NoDup (map g l) ->
  ~ In (g v) (map g (remove Z.eq_dec v l)) /\
  forall r, In r (g v :: map g (remove Z.eq_dec v l)) <-> In r (map g l).
Proof.
  intros Hv Hinj. split.
  - intros H. apply in_map_iff in H as (y & E & Hy). apply in_remove in Hy as [Hy Hne].
    apply Hne. clear -Hinj E Hy Hv. induction l as [|x l IH]; [destruct Hv|]. cbn in Hinj.
    apply NoDup_cons_iff in Hinj as [Hx Hl]. destruct Hv as [-> | Hv], Hy as [-> | Hy]; auto.
    + exfalso. apply Hx. rewrite <- E. apply in_map, Hy.
    + exfalso. apply Hx. rewrite E. apply in_map, Hv.
  - intros r. cbn. split.
    + intros [<- | H]; [apply in_map, Hv|]. apply in_map_iff in H as (y & <- & Hy). apply in_remove in Hy. apply in_map. tauto.
    + intros H. apply in_map_iff in H as (y & <- & Hy). destruct (Z.eq_dec y v) as [->|Hne]; [left; reflexivity|].
      right. apply in_map, in_in_remove; auto.
Qed.

Lemma nodup_map_dropped (g : Z -> Z) l v : NoDup (map g l) -> NoDup (map g (remove Z.eq_dec v l)).
Proof.
  induction l as [|x l IH]; cbn; [constructor|]. intros H. apply NoDup_cons_iff in H as [Hx Hl].
  destruct (Z.eq_dec v x); [apply IH, Hl|]. cbn. constructor; [|apply IH, Hl].
  intros H. apply Hx. apply in_map_iff in H as (y & E & Hy). apply in_remove in Hy. apply in_map_iff. exists y. tauto.
Qed.

(** ** How the relation moves *)

Section Moves.
Context (cfg : RosettaConfig) (segbase : Z -> Z) (b T0 Tmem : Z) (x0 : X87State) (m0 : machine).
Context (f : Frame) (pinned : list Z) (skip : bool) (single : Z -> bool).
Hypothesis (Hf : frame_ok T0 f pinned).

#[local] Abbreviation machine_rel := (machine_rel cfg segbase b T0 Tmem x0 m0 f skip).
#[local] Abbreviation fprs_rel := (fprs_rel cfg single).
#[local] Abbreviation pools_rel := (pools_rel cfg pinned).
#[local] Abbreviation Rel := (Rel cfg segbase b T0 Tmem x0 m0 f pinned skip single).
#[local] Abbreviation in_use := (in_use pinned).

Lemma pinned_in_use r P rg : In r pinned -> In r (in_use P rg).
Proof. intros H. apply in_or_app. right. exact H. Qed.

(** How many registers are in use. *)
Lemma in_use_saved P rg rg' :
  Wd_nzcv_saved rg' = Wd_nzcv_saved rg -> length (in_use P rg') = length (in_use P rg).
Proof. intros E. unfold LowerRel.in_use, held. rewrite E, !length_app. destruct P as [[[id w] c]|]; reflexivity. Qed.

Lemma held_in_use r P rg : In r (held P rg) -> In r (in_use P rg).
Proof. intros H. apply in_or_app. left. exact H. Qed.

Lemma held_pinned_ne P rg r q : NoDup (in_use P rg) -> In r (held P rg) -> In q pinned -> r <> q.
Proof.
  intros H Hr Hq ->. unfold LowerRel.in_use in H. induction (held P rg) as [|h l IH]; [destruct Hr|].
  cbn in H. apply NoDup_cons_iff in H as [Hn H]. destruct Hr as [-> | Hr]; [|exact (IH H Hr)].
  apply Hn, in_or_app. right. exact Hq.
Qed.

Lemma in_use_scratch P rg r :
  (forall r, In r (held P rg) -> scratch r = true) -> In r (in_use P rg) -> scratch r = true.
Proof. intros Hh H. apply in_app_or in H as [H | H]; [exact (Hh r H) | exact (fk_scratch _ _ _ Hf r H)]. Qed.

Lemma pinned_gpr r : In r pinned -> gpr r.
Proof. intros H. apply (fk_scratch _ _ _ Hf), scratch_gpr in H. unfold gpr. lia. Qed.

Lemma tmp_scratch : scratch (Wd_tmp f) = true.
Proof. apply (fk_scratch _ _ _ Hf), (fk_tmp _ _ _ Hf). Qed.

(** A register the relation speaks of is not changed by code that only
    uses the temporaries. *)
Lemma quiet_reg P rg m m' r :
  safe (in_use P rg) [Wd_tmp f] m m' -> 0 <= r -> r <> Wd_tmp f -> scratch r = false \/ In r (in_use P rg) ->
  xr m' r = xr m r.
Proof. intros H Hr Hn Hu. apply H; [exact Hr | intros [E | []]; congruence | exact Hu]. Qed.

Lemma quiet_guest P rg m m' r : safe (in_use P rg) [Wd_tmp f] m m' -> 0 <= r < 16 -> xr m' r = xr m r.
Proof.
  intros H Hr. apply (quiet_reg P rg _ _ _ H); [lia | | left; apply guest_not_scratch, Hr].
  intros ->. pose proof tmp_scratch as E. rewrite guest_not_scratch in E by exact Hr. discriminate.
Qed.

Lemma quiet_pinned P rg m m' r :
  safe (in_use P rg) [Wd_tmp f] m m' -> In r pinned -> r <> Wd_tmp f -> xr m' r = xr m r.
Proof.
  intros H Hr Hn. pose proof (pinned_gpr r Hr) as G. unfold gpr in G.
  apply (quiet_reg P rg _ _ _ H); [lia | exact Hn | right; apply pinned_in_use, Hr].
Qed.

Lemma quiet_held P rg m m' r :
  safe (in_use P rg) [Wd_tmp f] m m' -> NoDup (in_use P rg) ->
  (forall r, In r (held P rg) -> scratch r = true) -> In r (held P rg) -> xr m' r = xr m r.
Proof.
  intros H Hd Hs Hr. pose proof (Hs r Hr) as E. apply scratch_gpr in E.
  apply (quiet_reg P rg _ _ _ H); [lia | | right; apply held_in_use, Hr].
  apply (held_pinned_ne P rg); [exact Hd | exact Hr | exact (fk_tmp _ _ _ Hf)].
Qed.

Lemma held_pend id w c rg : In (zget (node_fpr rg) id) (held (Some (id, w, c)) rg).
Proof. left. reflexivity. Qed.

Lemma held_saved P rg : 0 <= Wd_nzcv_saved rg -> In (Wd_nzcv_saved rg) (held P rg).
Proof.
  intros H. apply in_or_app. right. replace (0 <=? Wd_nzcv_saved rg) with true by (symmetry; apply Z.leb_le, H).
  left. reflexivity.
Qed.

(** Code that keeps the registers in use, the flags and the x87 state. *)
Lemma machine_quiet e P rg V a m m' :
  machine_rel e P rg m -> pools_rel P rg V a ->
  safe (in_use P rg) [Wd_tmp f] m m' -> nzcv m' = nzcv m ->
  (forall r, fscratch cfg r = false -> vr m' r = vr m r) ->
  agree b (mm m') (i_mem e) -> x87_at (mm m') b = x87_at (mm m) b ->
  machine_rel e P rg m'.
Proof.
  intros [] [] Hk Hn Hv Hm Hx. destruct Hf as [_ Kxb Ktop Ktmp Kst Krc Kb Ks (N1 & N2 & N3 & N4 & N5) _ _]. constructor; auto.
  - intros r Hr. rewrite (quiet_guest P rg m m' r Hk Hr). auto.
  - intros r Hr Hs. rewrite (quiet_reg P rg m m' r Hk); [auto | lia | intros ->; rewrite tmp_scratch in Hs; discriminate | auto].
  - intros r Hr. rewrite Hv; auto.
  - congruence.
  - destruct mr_base0 as (G & E & ?). split; [exact G|]. split; [|assumption]. rewrite (quiet_pinned P rg m m'); auto.
  - destruct mr_st0 as [E | [G E]]; [left; exact E | right]. split; [exact G|].
    destruct Kst as [Kst | Kst]; [unfold gpr in G; lia|]. rewrite (quiet_pinned P rg m m'); auto.
  - rewrite (quiet_pinned P rg m m'); auto.
  - intros k Hin. specialize (Kb k Hin). rewrite <- (mr_bases0 k Hin). f_equal.
    destruct Kb as [Kb | Kb]; [apply (quiet_guest P rg m m' _ Hk Kb) | apply (quiet_pinned P rg m m'); auto].
  - intros Hv' Hrc. destruct Krc as [Krc | Krc]; [lia|]. rewrite (quiet_pinned P rg m m'); auto.
  - destruct P as [[[id w] c]|]; [|exact I]. destruct mr_pend0 as (? & ? & E). repeat split; [lia | lia | assumption|].
    rewrite (quiet_held (Some (id, w, c)) rg m m'); auto. apply held_pend.
  - destruct skip; [exact I|]. destruct (0 <=? Wd_nzcv_saved rg) eqn:Es; [|congruence].
    rewrite (quiet_held P rg m m'); auto. apply held_saved, Z.leb_le, Es.
Qed.

(** The rounding control read into its register. *)
Lemma machine_rc e P rg V a m m' :
  machine_rel e P rg m -> pools_rel P rg V a -> 0 <= Wd_rc_cached f ->
  (forall r, r <> Wd_rc_cached f -> xr m' r = xr m r) -> xr m' (Wd_rc_cached f) = rc_of (i_cw e) ->
  vr m' = vr m -> nzcv m' = nzcv m -> mm m' = mm m ->
  machine_rel e P (set_rc_valid rg true) m'.
Proof.
  intros [] [] H0 Hx Hrc Hv Hn Hm. destruct Hf as [_ Kxb Ktop Ktmp Kst Krc Kb Ks _ (N1 & N2 & N3 & N4) _].
  assert (Hpin : In (Wd_rc_cached f) pinned) by (destruct Krc; [lia | assumption]).
  pose proof (Ks _ Hpin) as Hs.
  assert (Hheld : forall r, In r (held P rg) -> r <> Wd_rc_cached f)
    by (intros r Hr; apply (held_pinned_ne P rg); assumption).
  constructor; rewrite ?Hv, ?Hm, ?Hn; auto.
  - intros r Hr. rewrite Hx; [auto|]. intros ->. rewrite guest_not_scratch in Hs by exact Hr. discriminate.
  - intros r Hr Hsr. rewrite Hx; [auto | congruence].
  - destruct mr_base0 as (G & E & ?). split; [exact G|]. split; [|assumption]. rewrite Hx; congruence.
  - destruct mr_st0 as [E | [G E]]; [left; exact E | right]. split; [exact G|]. rewrite Hx; [exact E|].
    unfold gpr in G. destruct N3; [congruence | lia].
  - rewrite Hx; congruence.
  - intros k Hin. rewrite <- (mr_bases0 k Hin). f_equal. apply Hx. exact (N4 k Hin).
  - destruct P as [[[id w] c]|]; [|exact I]. destruct mr_pend0 as (? & ? & E). split; [lia|]. split; [assumption|].
    rewrite <- E. apply Hx, Hheld. left. reflexivity.
  - cbn [Wd_nzcv_saved set_rc_valid]. destruct skip; [exact I|]. destruct (0 <=? Wd_nzcv_saved rg) eqn:Es; [|congruence].
    rewrite <- mr_nzcv0. apply Hx, Hheld, held_saved, Z.leb_le, Es.
Qed.

(** ** The bookkeeping of nodes *)

Definition free_id (P : pending) (i : Z) : Prop := match P with Some (id, _, _) => id <> i | None => True end.

Lemma held_set_fpr P rg i x : 0 <= i -> free_id P i ->
  match P with Some (id, _, _) => 0 <= id | None => True end -> held P (set_fpr rg i x) = held P rg.
Proof.
  intros Hi Hn H0. unfold held. cbn [Wd_nzcv_saved set_fpr node_fpr]. destruct P as [[[id w] c]|]; [|reflexivity].
  cbn in Hn. rewrite zget_zset_ne by (auto || lia). reflexivity.
Qed.

Lemma pend_nonneg e P rg m : machine_rel e P rg m -> match P with Some (id, _, _) => 0 <= id | None => True end.
Proof. intros H. pose proof (mr_pend _ _ _ _ _ _ _ _ _ _ _ _ _ H). destruct P as [[[id w] c]|]; [lia | exact I]. Qed.

Lemma pend_free e P rg m i : machine_rel e P rg m -> i = Z.of_nat (length (vals e)) -> free_id P i.
Proof. intros H ->. pose proof (mr_pend _ _ _ _ _ _ _ _ _ _ _ _ _ H). destruct P as [[[id w] c]|]; cbn in *; [lia | exact I]. Qed.

Lemma machine_set_fpr e P rg m i x :
  machine_rel e P rg m -> 0 <= i -> free_id P i -> machine_rel e P (set_fpr rg i x) m.
Proof.
  intros H Hi Hn. pose proof (pend_nonneg _ _ _ _ H) as H0. destruct H. constructor; auto.
  destruct P as [[[id w] c]|]; [|exact I]. cbn [node_fpr set_fpr]. cbn in Hn. rewrite zget_zset_ne by (auto || lia). exact mr_pend0.
Qed.

Lemma machine_add_val e P rg m v : machine_rel e P rg m -> machine_rel (add_val e v) P rg m.
Proof.
  intros []. constructor; auto. destruct P as [[[id w] c]|]; [|exact I]. cbn [vals add_val]. rewrite length_app.
  cbn. intuition lia.
Qed.

Lemma zget_app_old l v j : 0 <= j < Z.of_nat (length l) -> zget (l ++ [v]) j = zget l j.
Proof. intros H. unfold zget. apply app_nth1. lia. Qed.

Lemma zget_app_new l v j : j = Z.of_nat (length l) -> zget (l ++ [v]) j = v.
Proof. intros ->. unfold zget. rewrite Nat2Z.id, app_nth2, Nat.sub_diag by lia. reflexivity. Qed.

Lemma fprs_add_val e P J rg m v : fprs_rel e P J rg m -> fprs_rel (add_val e v) P J rg m.
Proof.
  intros []. constructor; auto; cbn [vals add_val].
  - intros j Hj. rewrite length_app. specialize (fr_ids0 j Hj). lia.
  - intros j Hj. rewrite zget_app_old; auto.
  - intros j Hj. rewrite zget_app_old; auto.
Qed.

Lemma fprs_machine e P J rg m m' :
  fprs_rel e P J rg m -> (forall j, In j J -> vr m' (zget (node_fpr rg) j) = vr m (zget (node_fpr rg) j)) ->
  fprs_rel e P J rg m'.
Proof. intros [] Hv. constructor; auto. intros j Hj. rewrite Hv; auto. Qed.

Lemma fprs_vr e P J rg m m' : fprs_rel e P J rg m -> vr m' = vr m -> fprs_rel e P J rg m'.
Proof. intros H E. apply (fprs_machine _ _ _ _ _ _ H). intros. rewrite E. reflexivity. Qed.

Lemma map_fpr_set J rg i x : 0 <= i -> (forall j, In j J -> 0 <= j) -> ~ In i J ->
  map (zget (node_fpr (set_fpr rg i x))) J = map (zget (node_fpr rg)) J.
Proof.
  intros Hi H0 Hn. apply map_ext_in. intros j Hj. cbn [node_fpr set_fpr].
  apply zget_zset_ne; [exact Hi | exact (H0 j Hj) | intros ->; contradiction].
Qed.

(** Node [i] has computed its value into a fresh register. *)
Lemma fprs_value e P J rg m Dd v m' i :
  fprs_rel e P J rg m -> i = Z.of_nat (length (vals e)) -> i < 128 -> free_id P i ->
  fscratch cfg Dd = true -> ~ In Dd (map (zget (node_fpr rg)) J) ->
  (forall r, vr m' r = Fpu.set_reg (vr m) Dd v r) -> in64 v -> (single i = true -> v < 2 ^ 32) ->
  fprs_rel (add_val e v) P (i :: J) (set_fpr rg i Dd) m'.
Proof.
  intros [] Ei Hi Hfree Hs Hn Hv Hr H32.
  assert (HnJ : ~ In i J) by (intros Hj; specialize (fr_ids0 i Hj); lia).
  assert (Emap : map (zget (node_fpr (set_fpr rg i Dd))) J = map (zget (node_fpr rg)) J).
  { apply map_fpr_set; [lia | intros j Hj; specialize (fr_ids0 j Hj); lia | exact HnJ]. }
  assert (Enew : zget (node_fpr (set_fpr rg i Dd)) i = Dd) by (cbn; apply zget_zset_eq; lia).
  assert (Eold : forall j, 0 <= j -> j <> i -> zget (node_fpr (set_fpr rg i Dd)) j = zget (node_fpr rg) j).
  { intros j Hj Hne. cbn. apply zget_zset_ne; [lia | exact Hj | congruence]. }
  assert (Hne : forall j, In j J -> 0 <= j /\ j <> i).
  { intros j Hj. specialize (fr_ids0 j Hj). lia. }
  constructor.
  - cbn. rewrite zset_length. exact fr_len0.
  - cbn [vals add_val]. intros j [<- | Hj]; rewrite length_app; cbn [length]; [lia|]. specialize (fr_ids0 j Hj). lia.
  - constructor; assumption.
  - intros j [<- | Hj]; [rewrite Enew; exact Hs|]. destruct (Hne j Hj). rewrite Eold by assumption. auto.
  - cbn [map]. rewrite Enew, Emap. constructor; assumption.
  - cbn [vals add_val]. intros j [<- | Hj].
    + rewrite Enew, Hv, set_reg_eq, zget_app_new by exact Ei. auto.
    + destruct (Hne j Hj). rewrite Eold, Hv, set_reg_ne, zget_app_old by
        (auto || (intros E; apply Hn; rewrite <- E; apply in_map; exact Hj)). auto.
  - cbn [vals add_val]. intros j [<- | Hj]; [rewrite zget_app_new by exact Ei; exact H32|]. rewrite zget_app_old; auto.
  - intros j H0 Hnin HP. cbn in Hnin. rewrite Eold; [apply fr_none0; tauto | lia | intros ->; tauto].
  - destruct P as [[[id w] c]|]; [|exact I]. cbn in Hfree. intros [E | Hin]; [congruence | contradiction].
Qed.

(** A value is given up: its register is free, or another node's. *)
Lemma fprs_drop e P J rg m v :
  fprs_rel e P J rg m -> In v J -> fprs_rel e P (remove Z.eq_dec v J) (set_fpr rg v (-1)) m.
Proof.
  intros [] Hv. pose proof (fr_ids0 v Hv) as Hvr.
  assert (Eold : forall j, 0 <= j -> j <> v -> zget (node_fpr (set_fpr rg v (-1))) j = zget (node_fpr rg) j).
  { intros j Hj Hne. cbn. apply zget_zset_ne; [lia | exact Hj | congruence]. }
  assert (Hin : forall j, In j (remove Z.eq_dec v J) -> In j J /\ 0 <= j /\ j <> v).
  { intros j Hj. apply in_remove in Hj as [Hj Hne]. specialize (fr_ids0 j Hj). intuition lia. }
  constructor.
  - cbn. rewrite zset_length. exact fr_len0.
  - intros j Hj. apply Hin in Hj. apply fr_ids0, Hj.
  - clear -fr_nodup0. induction fr_nodup0 as [|x l Hx _ IH]; cbn; [constructor|].
    destruct (Z.eq_dec v x); [exact IH|]. constructor; [|exact IH]. intros H. apply in_remove in H. tauto.
  - intros j Hj. apply Hin in Hj as (Hj & H0 & Hne). rewrite Eold; auto.
  - rewrite (map_ext_in _ (zget (node_fpr rg))).
    + clear -fr_inj0. induction J as [|x l IH]; cbn; [constructor|]. cbn in fr_inj0. apply NoDup_cons_iff in fr_inj0 as [Hx Hl].
      destruct (Z.eq_dec v x); [apply IH, Hl|]. cbn. constructor; [|apply IH, Hl].
      intros H. apply Hx. apply in_map_iff in H as (y & E & Hy). apply in_remove in Hy. apply in_map_iff. exists y. tauto.
    + intros j Hj. apply Hin in Hj. apply Eold; tauto.
  - intros j Hj. apply Hin in Hj as (Hj & H0 & Hne). rewrite Eold; auto.
  - intros j Hj. apply Hin in Hj. apply fr_single0, Hj.
  - intros j H0 Hn HP. destruct (Z.eq_dec j v) as [->|Hne].
    + cbn. assert (v < 128) by (destruct (Z.ltb_spec v 128) as [|Hge]; [assumption|]; exfalso;
        pose proof (fr_scratch0 v Hv) as Hs; unfold zget in Hs; rewrite nth_overflow in Hs by lia;
        unfold fscratch in Hs; destruct (extended_fpr_scratch cfg); discriminate).
      apply zget_zset_eq. lia.
    + rewrite Eold by (lia || assumption). apply fr_none0; [exact H0 | | exact HP]. intros Hj. apply Hn, in_in_remove; auto.
  - destruct P as [[[id w] c]|]; [|exact I]. intros H. apply in_remove in H. tauto.
Qed.

Lemma fpr_of_dropped e P J rg m v :
  fprs_rel e P J rg m -> In v J ->
  ~ In (zget (node_fpr rg) v) (map (zget (node_fpr rg)) (remove Z.eq_dec v J)) /\
  forall r, In r (zget (node_fpr rg) v :: map (zget (node_fpr rg)) (remove Z.eq_dec v J)) <->
            In r (map (zget (node_fpr rg)) J).
Proof. intros [] Hv. apply map_dropped; assumption. Qed.

(** ** Registers for results *)

Lemma pools_ext P rg rg' V a : in_use P rg' = in_use P rg -> held P rg' = held P rg -> pools_rel P rg V a -> pools_rel P rg' V a.
Proof. intros E1 E2 []. constructor; rewrite ?E1, ?E2; assumption. Qed.

Lemma pools_fprs P rg V V' a : (forall r, In r V <-> In r V') -> pools_rel P rg V a -> pools_rel P rg V' a.
Proof. intros H []. constructor; auto. apply (fpool_ext cfg a V); assumption. Qed.

Lemma pools_move P rg V a a' :
  pools_rel P rg V a -> gpool a' (in_use P rg) -> free_fpr_mask a' = free_fpr_mask a -> pools_rel P rg V a'.
Proof. intros [] Hg Hm. constructor; auto. apply (fpool_mask cfg a); assumption. Qed.

Lemma pools_set_fpr P rg i x V a :
  0 <= i -> free_id P i -> match P with Some (id, _, _) => 0 <= id | None => True end ->
  pools_rel P rg V a -> pools_rel P (set_fpr rg i x) V a.
Proof.
  intros Hi Hn H0. pose proof (held_set_fpr P rg i x Hi Hn H0) as E.
  apply pools_ext; [|exact E]. unfold LowerRel.in_use. rewrite E. reflexivity.
Qed.

(** A register [Dd] waits for the next value. *)
Record ready (e : ir) (P : pending) (J : list Z) (rg : Regs) (Dd : Z) (a : asm) (m : machine) : Prop := mkReady {
  rd_machine : machine_rel e P rg m;
  rd_fprs : fprs_rel e P J rg m;
  rd_pools : pools_rel P rg (Dd :: map (zget (node_fpr rg)) J) a;
  rd_scratch : fscratch cfg Dd = true;
  rd_fresh : ~ In Dd (map (zget (node_fpr rg)) J)
}.

Lemma wp_fresh_fpr e P J rg a m i (Q : Z * Regs -> asm -> machine -> Prop) :
  Rel e P J rg a m -> (length J < fpr_count cfg)%nat ->
  (forall Dd a', ready e P J rg Dd a' m -> Q (Dd, set_fpr rg i Dd) a' m) ->
  wp (fresh_fpr i rg) Q a m.
Proof.
  intros (Hm & Hr & Hp) HJ HQ. unfold fresh_fpr. apply wp_bind.
  apply (wp_falloc cfg (map (zget (node_fpr rg)) J)); [apply Hp | rewrite length_map; exact HJ|].
  intros Dd a' Hs Hn Hp' Hg. apply wp_ret, HQ. constructor; auto. destruct Hp. constructor; auto.
  destruct pr_gpool0 as [G0 G]. unfold gpool, free. rewrite Hg. split; assumption.
Qed.

(** The nodes that hold a register once a dying input has given its own. *)
Definition claim (v : option Z) (J : list Z) : list Z :=
  match v with Some v => remove Z.eq_dec v J | None => J end.

Lemma first_dying_held lu e P J rg m n i v :
  fprs_rel e P J rg m -> (forall j, In j [0; 1; 2] -> input n j < 0 \/ In (input n j) J) ->
  first_dying lu (fun v => 0 <=? zget (node_fpr rg) v) n i = Some v -> In v J /\ zget lu v = i.
Proof.
  intros Hr Hin H. unfold first_dying in H. apply find_some in H as [Hv Hb].
  apply andb_true_iff in Hb as [Hb _]. apply andb_true_iff in Hb as [H0 Hl].
  apply Z.leb_le in H0. apply Z.eqb_eq in Hl. split; [|exact Hl].
  cbn in Hv. destruct Hv as [<- | [<- | [<- | []]]].
  - destruct (Hin 0); [cbn; auto | lia | assumption].
  - destruct (Hin 1); [cbn; auto | lia | assumption].
  - destruct (Hin 2); [cbn; auto | lia | assumption].
Qed.

Lemma in_J_free e P J rg m j : fprs_rel e P J rg m -> In j J -> free_id P j.
Proof. intros [] Hj. destruct P as [[[id w] c]|]; [|exact I]. cbn. intros ->. contradiction. Qed.

Lemma wp_result_fpr e P J rg a m n i (Q : Z * Regs -> asm -> machine -> Prop) :
  Rel e P J rg a m -> (forall j, In j [0; 1; 2] -> input n j < 0 \/ In (input n j) J) ->
  let v := first_dying (f_last_use f) (fun v => 0 <=? zget (node_fpr rg) v) n i in
  (v = None -> (length J < fpr_count cfg)%nat) ->
  (forall rg' Dd a', ready e P (claim v J) rg' Dd a' m -> Wd_nzcv_saved rg' = Wd_nzcv_saved rg ->
     Q (Dd, set_fpr rg' i Dd) a' m) ->
  wp (result_fpr f n i rg) Q a m.
Proof.
  intros H Hin w Hroom HQ. unfold result_fpr. fold w. destruct w as [v|] eqn:Ev.
  - pose proof H as (Hm & Hr & Hp). subst w.
    apply (first_dying_held _ _ _ _ _ _ _ _ _ Hr Hin) in Ev as [Hv _].
    pose proof (fr_ids _ _ _ _ _ _ _ Hr v Hv) as Hvr. pose proof (in_J_free _ _ _ _ _ _ Hr Hv) as Hfree.
    destruct (fpr_of_dropped _ _ _ _ _ _ Hr Hv) as [Hfresh Hset].
    apply wp_ret, HQ; [|reflexivity]. cbn [claim]. constructor.
    + apply machine_set_fpr; [exact Hm | lia | exact Hfree].
    + apply fprs_drop; assumption.
    + apply pools_set_fpr; [lia | exact Hfree | exact (pend_nonneg _ _ _ _ Hm)|].
      apply (pools_fprs P rg (map (zget (node_fpr rg)) J)); [|exact Hp]. intros r. rewrite <- Hset.
      rewrite map_fpr_set; [reflexivity | lia | | intros Hj; apply in_remove in Hj; tauto].
      intros j Hj. apply in_remove in Hj as [Hj _]. pose proof (fr_ids _ _ _ _ _ _ _ Hr j Hj). lia.
    + exact (fr_scratch _ _ _ _ _ _ _ Hr v Hv).
    + rewrite map_fpr_set; [exact Hfresh | lia | | intros Hj; apply in_remove in Hj; tauto].
      intros j Hj. apply in_remove in Hj as [Hj _]. pose proof (fr_ids _ _ _ _ _ _ _ Hr j Hj). lia.
  - apply (wp_fresh_fpr e P J rg); [exact H | auto|]. intros Dd a' Hd. apply HQ; [exact Hd | reflexivity].
Qed.

(** The value is in: the node joins those that hold a register. *)
Lemma value_done e P J rg Dd a m i v a' m' :
  ready e P J rg Dd a m -> i = Z.of_nat (length (vals e)) -> i < 128 ->
  gpool a' (in_use P rg) -> free_fpr_mask a' = free_fpr_mask a ->
  safe (in_use P rg) [Wd_tmp f] m m' -> nzcv m' = nzcv m -> mm m' = mm m ->
  (forall r, vr m' r = Fpu.set_reg (vr m) Dd v r) -> in64 v -> (single i = true -> v < 2 ^ 32) ->
  Rel (add_val e v) P (i :: J) (set_fpr rg i Dd) a' m'.
Proof.
  intros [Hm Hr Hp Hs Hn] Ei Hi Hg Hfm Hk Hnz Hmm Hv Hv64 H32. pose proof (pend_free _ _ _ _ _ Hm Ei) as Hfree.
  assert (Hi0 : 0 <= i) by lia.
  assert (HnJ : ~ In i J) by (intros Hj; pose proof (fr_ids _ _ _ _ _ _ _ Hr i Hj); lia).
  split; [|split].
  - apply machine_add_val, machine_set_fpr; [|exact Hi0 | exact Hfree].
    apply (machine_quiet e P rg _ a m m' Hm Hp Hk Hnz); rewrite ?Hmm; [|apply Hm | reflexivity].
    intros r Er. rewrite Hv. apply set_reg_ne. intros ->. congruence.
  - eapply fprs_value; eassumption.
  - apply pools_set_fpr; [exact Hi0 | exact Hfree | exact (pend_nonneg _ _ _ _ Hm)|].
    apply (pools_move P rg _ a); [|exact Hg | exact Hfm].
    apply (pools_fprs P rg (Dd :: map (zget (node_fpr rg)) J)); [|exact Hp].
    intros r. cbn [map]. rewrite map_fpr_set; [|exact Hi0| |exact HnJ].
    + cbn [node_fpr set_fpr]. rewrite zget_zset_eq; [reflexivity|]. rewrite (fr_len _ _ _ _ _ _ _ Hr). lia.
    + intros j Hj. pose proof (fr_ids _ _ _ _ _ _ _ Hr j Hj). lia.
Qed.

(** A node without a value. *)
Lemma no_value e P J rg a m v : Rel e P J rg a m -> Rel (add_val e v) P J rg a m.
Proof. intros (Hm & Hr & Hp). split; [|split]; [apply machine_add_val, Hm | apply fprs_add_val, Hr | exact Hp]. Qed.

(** Code that keeps every register in use. *)
Lemma quiet_done e P J rg a m a' m' :
  Rel e P J rg a m -> gpool a' (in_use P rg) -> free_fpr_mask a' = free_fpr_mask a ->
  safe (in_use P rg) [Wd_tmp f] m m' -> nzcv m' = nzcv m -> vr m' = vr m -> mm m' = mm m ->
  Rel e P J rg a' m'.
Proof.
  intros (Hm & Hr & Hp) Hg Hfm Hk Hnz Hv Hmm. split; [|split].
  - apply (machine_quiet e P rg _ a m m' Hm Hp Hk Hnz); rewrite ?Hmm; [|apply Hm | reflexivity]. intros. rewrite Hv. reflexivity.
  - apply (fprs_vr _ _ _ _ m); assumption.
  - apply (pools_move P rg _ a); assumption.
Qed.

(** A store to guest memory. *)
Lemma store_done e P J rg a m a' m' n x v v' :
  Rel e P J rg a m -> gpool a' (in_use P rg) -> free_fpr_mask a' = free_fpr_mask a ->
  safe (in_use P rg) [Wd_tmp f] m m' -> nzcv m' = nzcv m -> vr m' = vr m ->
  mm m' = store n (mm m) x v -> wrap (8 * Z.of_nat n) v = wrap (8 * Z.of_nat n) v' -> apart b x n = true ->
  Rel (ir_mem e (store n (i_mem e) x v')) P J rg a' m'.
Proof.
  intros (Hm & Hr & Hp) Hg Hfm Hk Hnz Hv Hmm Ev Ha. apply apartE in Ha. split; [|split].
  - assert (H : machine_rel e P rg (set_mm m' (mm m))).
    { apply (machine_quiet e P rg _ a m _ Hm Hp); cbn; auto; [|apply Hm]. intros. rewrite Hv. reflexivity. }
    assert (Ha' : agree b (mm m') (store n (i_mem e) x v')) by (rewrite Hmm; apply agree_store; [apply Hm | exact Ev]).
    assert (Hx : x87_at (mm m') b = x87_at (mm m) b) by (rewrite Hmm; apply x87_at_store; lia).
    destruct H. cbn in *. constructor; cbn; auto. rewrite Hx. exact mr_state0.
  - destruct (fprs_vr _ _ _ _ m m' Hr Hv). constructor; auto.
  - apply (pools_move P rg _ a); assumption.
Qed.

(** ** Giving registers back *)

Definition drop_dying (lu : list Z) (i : Z) (l J : list Z) : list Z :=
  fold_left (fun J v => if (0 <=? v) && (zget lu v =? i) then remove Z.eq_dec v J else J) l J.

Lemma wp_drop e P J rg a m v (Q : unit -> asm -> machine -> Prop) :
  Rel e P J rg a m -> In v J ->
  (forall a', Rel e P (remove Z.eq_dec v J) (set_fpr rg v (-1)) a' m -> Q tt a' m) ->
  wp (free_fpr cfg (zget (node_fpr rg) v)) Q a m.
Proof.
  intros (Hm & Hr & Hp) Hv HQ. pose proof (fr_ids _ _ _ _ _ _ _ Hr v Hv) as Hvr.
  pose proof (in_J_free _ _ _ _ _ _ Hr Hv) as Hfree. destruct (fpr_of_dropped _ _ _ _ _ _ Hr Hv) as [Hfresh Hset].
  apply (wp_ffree cfg _ (map (zget (node_fpr rg)) (remove Z.eq_dec v J))).
  - apply (fpool_ext cfg a (map (zget (node_fpr rg)) J)); [intros r; symmetry; apply Hset | apply Hp].
  - exact (fr_scratch _ _ _ _ _ _ _ Hr v Hv).
  - exact Hfresh.
  - intros a' Hfp Hg. apply HQ. split; [|split].
    + apply machine_set_fpr; [exact Hm | lia | exact Hfree].
    + apply fprs_drop; assumption.
    + apply pools_set_fpr; [lia | exact Hfree | exact (pend_nonneg _ _ _ _ Hm)|]. rewrite map_fpr_set; [|lia| |].
      * destruct Hp. constructor; auto. destruct pr_gpool0 as [G0 G]. unfold gpool, free. rewrite Hg. split; assumption.
      * intros j Hj. apply in_remove in Hj as [Hj _]. pose proof (fr_ids _ _ _ _ _ _ _ Hr j Hj). lia.
      * intros Hj. apply in_remove in Hj. tauto.
Qed.

Lemma wp_free_inputs l i e P J rg a m (Q : Regs -> asm -> machine -> Prop) :
  Rel e P J rg a m -> (forall v, In v l -> 0 <= v -> v < 128 /\ free_id P v) ->
  (forall rg' a', Rel e P (drop_dying (f_last_use f) i l J) rg' a' m ->
     Wd_nzcv_saved rg' = Wd_nzcv_saved rg -> Q rg' a' m) ->
  wp (free_inputs cfg f l i rg) Q a m.
Proof.
  revert J rg a. induction l as [|v l IH]; intros J rg a H Hl HQ; cbn [free_inputs].
  - apply wp_ret, HQ; [exact H | reflexivity].
  - cbn [drop_dying fold_left] in HQ. destruct (0 <=? v) eqn:E0; cbn [andb] in *; [|apply (IH J); auto; intros; apply Hl; [right|]; assumption].
    destruct (zget (f_last_use f) v =? i); cbn [andb]; [|apply (IH J); auto; intros; apply Hl; [right|]; assumption].
    apply Z.leb_le in E0. destruct H as (Hm & Hr & Hp). destruct (in_dec Z.eq_dec v J) as [Hv | Hv].
    + assert (Hs : 0 <= zget (node_fpr rg) v) by (pose proof (fscratch_range _ _ (fr_scratch _ _ _ _ _ _ _ Hr v Hv)); lia).
      replace (0 <=? zget (node_fpr rg) v) with true by (symmetry; apply Z.leb_le, Hs).
      apply wp_bind, (wp_drop e P J rg); [split; auto | exact Hv|]. intros a' H'.
      apply (IH (remove Z.eq_dec v J)); [exact H' | intros; apply Hl; [right|]; assumption | exact HQ].
    + rewrite (fr_none _ _ _ _ _ _ _ Hr v (conj E0 (proj1 (Hl v (or_introl eq_refl) E0))) Hv).
      * rewrite (notin_remove _ _ _ Hv) in HQ. apply (IH J); [split; auto | intros; apply Hl; [right|]; assumption | exact HQ].
      * specialize (Hl v (or_introl eq_refl) E0). destruct Hl as [_ Hl]. destruct P as [[[id w] c]|]; [|exact I]. cbn in Hl. congruence.
Qed.
End Moves.

(** A memory operand without a segment override; an absolute one has no
    register flags, padding there. *)
Definition access_operand (o : IROperand) : bool :=
  operand_ok o && (seg_override o =? 0) && ((kind o =? IROperandKind.MemRef) || (mem_flags o =? 0)).

(** The displacement may be added to the base's address: always with 64-bit
    addresses, with 32-bit ones when neither sum wraps. *)
Definition folds (segbase : Z -> Z) (r : Z -> Z) (o : IROperand) : bool :=
  u64 (addr segbase r (with_disp0 o) + disp o) =? addr segbase r o.

Lemma access_operandE o :
  access_operand o = true ->
  operand_ok o = true /\ seg_override o = 0 /\ (kind o = IROperandKind.MemRef \/ mem_flags o = 0).
Proof. unfold access_operand. rewrite !andb_true_iff, orb_true_iff, !Z.eqb_eq. tauto. Qed.

Lemma key_equal_addr segbase r o o' :
  addr_base_key_equal o o' = true -> kind o = kind o' -> seg_override o = seg_override o' ->
  addr segbase r (with_disp0 o) = addr segbase r (with_disp0 o').
Proof.
  unfold addr_base_key_equal. rewrite !andb_true_iff, !Z.eqb_eq. intros ((((E1 & E2) & E3) & E4) & E5) Ek Es.
  unfold addr, mem_sum. cbn [with_disp0 kind seg_override base_reg index_reg shift_amount mem_flags value byte2].
  unfold asize. cbn [with_disp0 byte2]. rewrite Ek, Es, E1, E2, E3, E4, E5. reflexivity.
Qed.

Lemma folds_64 segbase r o :
  kind o = IROperandKind.MemRef -> seg_override o = 0 -> addr_size o = IROperandSize.S64 -> folds segbase r o = true.
Proof.
  intros Ek Es E. unfold folds, addr, mem_sum, asize. cbn [with_disp0 kind seg_override base_reg index_reg shift_amount mem_flags value byte2].
  rewrite Ek, Es, E. cbn [Z.eqb IROperandKind.MemRef IROperandSize.S64 Pos.eqb]. apply Z.eqb_eq.
  rewrite Z.add_0_r. apply wrap_add_l.
Qed.

Section Access.
Context (cfg : RosettaConfig) (tgt : Target) (segbase : Z -> Z) (f : Frame) (r : Z -> Z) (U : list Z).
Context (n : Node) (s : asm) (m : machine).
Hypothesis (Hr : forall q, 0 <= q < 16 -> xr m q = r q).
Hypothesis (Hb : forall k, In k (f_bases f) ->
  gpr (b_reg k) /\ u64 (xr m (b_reg k)) = addr segbase r (with_disp0 (b_rep k)) /\
  addr_operand_base_cacheable (b_rep k) = true).
Hypothesis (Ho : access_operand (mem_operand n) = true) (Hf : folds segbase r (mem_operand n) = true).
Hypothesis (Hp : gpool s U) (HU : (length U < 8)%nat).

#[local] Abbreviation mo := (mem_operand n).
#[local] Abbreviation a := (addr segbase r mo).
#[local] Abbreviation bytes size := (Z.to_nat (2 ^ size)).

Lemma addr_machine : addr segbase (xr m) mo = a.
Proof. apply addr_regs, Hr. Qed.

(** A cached base with the operand's key. *)
Lemma cached_reaches k size e :
  In k (f_bases f) -> addr_base_key_equal mo (b_rep k) = true -> encodable size (mkAccess (b_reg k) (disp mo) e) ->
  reaches m a size (mkAccess (b_reg k) (disp mo) e).
Proof.
  intros Hk E He. destruct (Hb k Hk) as (Hg & Ha & Hc). apply access_operandE in Ho as (_ & Hs & Hkind).
  unfold addr_operand_base_cacheable in Hc. apply andb_true_iff in Hc as [Hc Hc3]. apply andb_true_iff in Hc as [Hc1 Hc2].
  apply Z.eqb_eq in Hc1, Hc2. split; [exact Hg|]. split; [|exact He]. cbn [base offset]. rewrite Ha.
  assert (Em : mem_flags mo = mem_flags (b_rep k)).
  { unfold addr_base_key_equal in E. rewrite !andb_true_iff, !Z.eqb_eq in E. tauto. }
  rewrite <- (key_equal_addr segbase r mo); [| exact E | | congruence].
  - apply Z.eqb_eq, Hf.
  - destruct Hkind as [Hkind | H0]; [congruence|]. rewrite <- Em, H0 in Hc3. discriminate.
Qed.

Lemma disp_range : - 2 ^ 63 <= disp mo < 2 ^ 63.
Proof. apply access_operandE in Ho as (Ho' & _). apply operand_okE in Ho'. tauto. Qed.

(** The scan of the cached bases: the access, or nothing. *)
Lemma wp_cached_gpr size is_load rt m2 (Q : bool -> asm -> machine -> Prop) :
  0 <= size <= 3 -> is_load = 0 \/ is_load = 1 -> gpr_or_zr rt -> ldst size false is_load a rt m = Some m2 ->
  (forall s', same_pools s s' -> Q true s' m2) -> Q false s m ->
  wp (emit_cached_gpr_access f n size is_load rt) Q s m.
Proof.
  clear HU. intros Hsz Hl Hrt E HT HF. unfold emit_cached_gpr_access. destruct (negb _); [apply wp_ret, HF|].
  assert (Hin : forall k, In k (f_bases f) -> In k (f_bases f)) by auto. revert Hin.
  generalize (f_bases f) at 1 3. induction l as [|k l IH]; intros Hin; cbn [emit_cached_gpr_access_from]; [apply wp_ret, HF|].
  assert (IH' : wp (emit_cached_gpr_access_from l n size is_load rt) Q s m) by (apply IH; intros; apply Hin; right; assumption).
  destruct (addr_base_key_equal mo (b_rep k)) eqn:Ek; [|exact IH'].
  specialize (Hin k (or_introl eq_refl)).
  destruct (classify_cases (disp mo) size) as [(-> & H0 & H1 & H2) | [(-> & H) | ->]]; [lia | exact disp_range | | | exact IH'].
  - cbn [Z.eqb Pos.eqb]. apply wp_bind.
    apply (wp_access_insn false size is_load rt (mkAccess (b_reg k) (disp mo) ScaledImm12) a s m m2); auto.
    + apply cached_reaches; [exact Hin | exact Ek | repeat split; assumption].
    + intros s' Hs. apply wp_ret, HT, Hs.
  - cbn [Z.eqb Pos.eqb]. apply wp_bind.
    apply (wp_access_insn false size is_load rt (mkAccess (b_reg k) (disp mo) Unscaled9) a s m m2); auto.
    + apply cached_reaches; [exact Hin | exact Ek | exact H].
    + intros s' Hs. apply wp_ret, HT, Hs.
Qed.

Lemma wp_cached_fp size is_load rt m2 (Q : bool -> asm -> machine -> Prop) :
  0 <= size <= 3 -> is_load = 0 \/ is_load = 1 -> gpr_or_zr rt -> ldst size true is_load a rt m = Some m2 ->
  (forall s', same_pools s s' -> Q true s' m2) -> Q false s m ->
  wp (emit_cached_access f n size is_load rt) Q s m.
Proof.
  clear HU. intros Hsz Hl Hrt E HT HF. unfold emit_cached_access.
  assert (Hin : forall k, In k (f_bases f) -> In k (f_bases f)) by auto. revert Hin.
  generalize (f_bases f) at 1 3. induction l as [|k l IH]; intros Hin; cbn [emit_cached_access_from]; [apply wp_ret, HF|].
  assert (IH' : wp (emit_cached_access_from l n size is_load rt) Q s m) by (apply IH; intros; apply Hin; right; assumption).
  destruct (addr_base_key_equal mo (b_rep k)) eqn:Ek; [|exact IH'].
  specialize (Hin k (or_introl eq_refl)). apply wp_bind. unfold try_emit_fp_ldst_disp.
  destruct (classify_cases (disp mo) size) as [(-> & H0 & H1 & H2) | [(-> & H) | ->]]; [lia | exact disp_range | | | apply wp_ret, IH'].
  - cbn [Z.eqb Pos.eqb]. apply wp_bind.
    apply (wp_access_insn true size is_load rt (mkAccess (b_reg k) (disp mo) ScaledImm12) a s m m2); auto.
    + apply cached_reaches; [exact Hin | exact Ek | repeat split; assumption].
    + intros s' Hs. apply wp_ret, wp_ret, HT, Hs.
  - cbn [Z.eqb Pos.eqb]. apply wp_bind.
    apply (wp_access_insn true size is_load rt (mkAccess (b_reg k) (disp mo) Unscaled9) a s m m2); auto.
    + apply cached_reaches; [exact Hin | exact Ek | exact H].
    + intros s' Hs. apply wp_ret, wp_ret, HT, Hs.
Qed.

Lemma wp_gpr_access size is_load rt (Q : unit -> asm -> machine -> Prop) :
  0 <= size <= 3 -> is_load = 0 \/ is_load = 1 -> gpr_or_zr rt ->
  (forall m1, safe U [] m m1 -> vr m1 = vr m -> nzcv m1 = nzcv m -> mm m1 = mm m ->
     exists m2, ldst size false is_load a rt m1 = Some m2 /\ forall s', same_pools s s' -> Q tt s' m2) ->
  wp (gpr_access cfg tgt f n size is_load rt) Q s m.
Proof.
  intros Hsz Hl Hrt HQ. unfold gpr_access. apply wp_bind.
  destruct (HQ m (safe_refl U [] m) eq_refl eq_refl eq_refl) as (m2 & E & HQ2).
  apply (wp_cached_gpr size is_load rt m2); [exact Hsz | exact Hl | exact Hrt | exact E | |].
  - intros s' Hs. apply wp_ret, HQ2, Hs.
  - apply access_operandE in Ho as (Ho' & Hs & _). rewrite <- addr_machine in HQ.
    apply (wp_access cfg tgt segbase _ s m Ho' Hs (gpool_ok s U Hp) (gpool_nonempty s U Hp HU) false); [exact Hsz | exact Hl | exact Hrt|].
    intros m1 Hk. apply HQ. apply (safe_keeps s); [exact Hp | exact Hk].
Qed.

Lemma wp_fp_mem size is_load vt (Q : unit -> asm -> machine -> Prop) :
  0 <= size <= 3 -> is_load = 0 \/ is_load = 1 -> gpr_or_zr vt ->
  (forall m1, safe U [] m m1 -> vr m1 = vr m -> nzcv m1 = nzcv m -> mm m1 = mm m ->
     exists m2, ldst size true is_load a vt m1 = Some m2 /\ forall s', same_pools s s' -> Q tt s' m2) ->
  wp (emit_fp_mem_access cfg tgt 1 mo size is_load vt) Q s m.
Proof.
  intros Hsz Hl Hrt HQ. apply access_operandE in Ho as (Ho' & Hs & _). rewrite <- addr_machine in HQ.
  eapply wp_ext; [symmetry; apply fp_access_code; exact Hl|].
  apply (wp_access cfg tgt segbase _ s m Ho' Hs (gpool_ok s U Hp) (gpool_nonempty s U Hp HU) true); [exact Hsz | exact Hl | exact Hrt|].
  intros m1 Hk. apply HQ. apply (safe_keeps s); [exact Hp | exact Hk].
Qed.

Lemma wp_fp_access size is_load vt (Q : unit -> asm -> machine -> Prop) :
  0 <= size <= 3 -> is_load = 0 \/ is_load = 1 -> gpr_or_zr vt ->
  (forall m1, safe U [] m m1 -> vr m1 = vr m -> nzcv m1 = nzcv m -> mm m1 = mm m ->
     exists m2, ldst size true is_load a vt m1 = Some m2 /\ forall s', same_pools s s' -> Q tt s' m2) ->
  wp (fp_access tgt f n size is_load vt) Q s m.
Proof.
  intros Hsz Hl Hrt HQ. unfold fp_access. apply wp_bind.
  destruct (HQ m (safe_refl U [] m) eq_refl eq_refl eq_refl) as (m2 & E & HQ2).
  apply (wp_cached_fp size is_load vt m2); [exact Hsz | exact Hl | exact Hrt | exact E | |].
  - intros s' Hs. apply wp_ret, HQ2, Hs.
  - clear m2 E HQ2. apply access_operandE in Ho as (Ho' & Hs & _). rewrite <- addr_machine in HQ. apply wp_bind.
    eapply wp_mono; [apply (wp_operand_address tgt segbase mo s m Ho' Hs (gpool_ok s U Hp) (gpool_nonempty s U Hp HU))|].
    cbv beta. intros x s1 m1 (Ht & Hg & Ha & Hfr & Hsc).
    destruct (HQ m1) as (m2 & E & HQ2); [|exact (fr_v _ _ _ Hfr) | exact (fr_nzcv _ _ _ Hfr) | exact (fr_mm _ _ _ Hfr)|].
    { apply (safe_keeps s); [exact Hp|]. eapply keeps_taken; eassumption. }
    apply wp_bind.
    assert (Hre : reaches m1 (addr segbase (xr m) mo) size (mkAccess x 0 FullEA)).
    { split; [exact Hg|]. cbn [base offset]. rewrite Z.add_0_r, Ha.
      split; [apply wrap_small; exact (addr_range segbase (xr m) mo Ho' Hs)|].
      repeat split; cbn [enc offset]; rewrite ?Z.shiftr_0_l, ?Z.shiftl_0_l; lia. }
    apply (wp_ext (emit_ldr_str_imm size (b2z true) is_load (s16 (Z.shiftr 0 size)) x vt)); [rewrite Z.shiftr_0_l; destruct Hl as [-> | ->]; reflexivity|].
    apply (wp_access_insn true size is_load vt (mkAccess x 0 FullEA) (addr segbase (xr m) mo) s1 m1 m2); [exact Hsz | exact Hl | exact Hrt | exact Hre | exact E |].
    intros s2 Hs2. eapply wp_free_gpr; [exact (gpool_ok s U Hp) | eapply takes_pools_r; eassumption | exact HQ2].
Qed.

(** The four accesses. *)
Lemma wp_gpr_access_load size rt (Q : unit -> asm -> machine -> Prop) :
  0 <= size <= 3 -> gpr rt ->
  (forall s' m', same_pools s s' -> safe U [rt] m m' -> vr m' = vr m -> nzcv m' = nzcv m -> mm m' = mm m ->
     xr m' rt = load (bytes size) (mm m) a -> Q tt s' m') ->
  wp (gpr_access cfg tgt f n size 1 rt) Q s m.
Proof.
  intros Hsz Hrt HQ. apply wp_gpr_access; [exact Hsz | auto | unfold gpr, gpr_or_zr in *; lia|].
  intros m1 Hk Hv Hn Hm. eexists. split; [reflexivity|]. intros s' Hs. rewrite wr_zr_put by exact Hrt.
  apply HQ; [exact Hs | | exact Hv | exact Hn | exact Hm | ].
  - apply (safe_trans _ _ _ m1); [eapply safe_mono; [| |exact Hk]; [tauto | intros ? []]|].
    apply (safe_only _ _ _ _ [rt]); [untouched | auto].
  - unfold put. cbn [xr set_xr]. rewrite set_reg_eq, Hm. apply wrap_small, load_64, Hsz.
Qed.

Lemma wp_gpr_access_store size rt (Q : unit -> asm -> machine -> Prop) :
  0 <= size <= 3 -> gpr_or_zr rt -> rt = 31 \/ scratch rt = false \/ In rt U ->
  (forall s' m', same_pools s s' -> safe U [] m m' -> vr m' = vr m -> nzcv m' = nzcv m ->
     mm m' = store (bytes size) (mm m) a (rd_zr true m rt) -> Q tt s' m') ->
  wp (gpr_access cfg tgt f n size 0 rt) Q s m.
Proof.
  intros Hsz Hrt Hu HQ. apply wp_gpr_access; [exact Hsz | auto | exact Hrt|].
  intros m1 Hk Hv Hn Hm. eexists. split; [reflexivity|]. intros s' Hs.
  apply HQ; [exact Hs | exact Hk | exact Hv | exact Hn | ].
  cbn [mm set_mm]. rewrite Hm. f_equal. unfold rd_zr. destruct (Z.eqb_spec rt 31); [reflexivity|].
  rewrite (Hk rt); [reflexivity | unfold gpr_or_zr in Hrt; lia | intros [] | tauto].
Qed.

Lemma wp_fp_access_load size vt (Q : unit -> asm -> machine -> Prop) :
  0 <= size <= 3 -> gpr_or_zr vt ->
  (forall s' m', same_pools s s' -> safe U [] m m' -> nzcv m' = nzcv m -> mm m' = mm m ->
     vr m' = set_reg (vr m) vt (load (bytes size) (mm m) a) -> Q tt s' m') ->
  wp (fp_access tgt f n size 1 vt) Q s m.
Proof.
  intros Hsz Hrt HQ. apply wp_fp_access; [exact Hsz | auto | exact Hrt|].
  intros m1 Hk Hv Hn Hm. eexists. split; [reflexivity|]. intros s' Hs.
  apply HQ; [exact Hs | exact Hk | exact Hn | exact Hm | cbn; rewrite Hv, Hm; reflexivity].
Qed.

Lemma wp_fp_access_store size vt (Q : unit -> asm -> machine -> Prop) :
  0 <= size <= 3 -> gpr_or_zr vt ->
  (forall s' m', same_pools s s' -> safe U [] m m' -> vr m' = vr m -> nzcv m' = nzcv m ->
     mm m' = store (bytes size) (mm m) a (vr m vt) -> Q tt s' m') ->
  wp (fp_access tgt f n size 0 vt) Q s m.
Proof.
  intros Hsz Hrt HQ. apply wp_fp_access; [exact Hsz | auto | exact Hrt|].
  intros m1 Hk Hv Hn Hm. eexists. split; [reflexivity|]. intros s' Hs.
  apply HQ; [exact Hs | exact Hk | exact Hv | exact Hn | cbn; rewrite Hv, Hm; reflexivity].
Qed.
End Access.
