(* ===== verification/LowerValues.v ===== *)
(** The code of the nodes that compute a value: loads, constants, arithmetic,
    rounding and conversions.  Each leaves the value in the register the
    lowering assigned to its node. *)

From S2P Require Import Prelude F64 GuestMem X87State X87Props F64Props F32Props Emit Assembler A64 EmitDecode IROperand X87IR Fpu X87IREval A64Exec CodeExec.
From S2P Require Import TranslatorHelpers Pools InsnRules AccessProps X87Helpers X87Cache X87IRPlan X87IRLower.
From S2P Require Import X87Memory AccessProps X87HelpersProps X87IRWf LowerRel.

(** ** Code without an effect on memory or the flags *)

Record calm (U l : list Z) (a : asm) (m : machine) (a' : asm) (m' : machine) : Prop := mkCalm {
  cm_pool : gpool a' U;
  cm_fpr : free_fpr_mask a' = free_fpr_mask a;
  cm_safe : safe U l m m';
  cm_nzcv : nzcv m' = nzcv m;
  cm_mm : mm m' = mm m
}.

Lemma calm_same U l a a' m m' :
  gpool a U -> same_pools a a' -> safe U l m m' -> nzcv m' = nzcv m -> mm m' = mm m -> calm U l a m a' m'.
Proof. intros Hp Hs. constructor; auto; [exact (gpool_same _ _ _ Hs Hp) | apply Hs]. Qed.

Lemma calm_putv U l a a' m r v : gpool a U -> same_pools a a' -> calm U l a m a' (putv m r v).
Proof. intros Hp Hs. apply calm_same; auto. intros ? ? ? ?. reflexivity. Qed.

Lemma calm_trans U l a m a1 m1 a2 m2 : calm U l a m a1 m1 -> calm U l a1 m1 a2 m2 -> calm U l a m a2 m2.
Proof. intros [] []. constructor; try congruence. eapply safe_trans; eassumption. Qed.

Lemma calm_mono U l l' a m a' m' : (forall r, In r l -> In r l') -> calm U l a m a' m' -> calm U l' a m a' m'.
Proof. intros H []. constructor; auto. apply (safe_mono U U l); auto. Qed.

(** A register taken for a while. *)
Lemma safe_drop U l w m m' : scratch w = true -> ~ In w U -> safe (w :: U) (w :: l) m m' -> safe U l m m'.
Proof.
  intros Hs Hn H r Hr Hl Hu. assert (r <> w) by (intros ->; destruct Hu; congruence).
  apply H; [exact Hr | cbn; intuition congruence | cbn; intuition congruence].
Qed.

Lemma set_reg_twice f g d v v' q : (forall r, f r = Fpu.set_reg g d v r) -> Fpu.set_reg f d v' q = Fpu.set_reg g d v' q.
Proof. intros Hf. unfold Fpu.set_reg. destruct (q =? d) eqn:E; [reflexivity|]. rewrite Hf. unfold Fpu.set_reg. rewrite E. reflexivity. Qed.

Lemma in64_u64 x : in64 x -> u64 x = x.
Proof. apply wrap_small. Qed.

(** ** FMOV's immediate

    The byte [f64_fmov_imm8] finds, where it finds one, expands to the constant. *)

Definition imm8_bits (i : Z) : Z :=
  let b6 := Z.land (Z.shiftr i 6) 1 in
  u64 (Z.shiftl (Z.shiftr i 7) 63) .| Z.shiftl (Z.lxor b6 1) 62 .| (if nz b6 then Z.shiftl 0xFF 54 else 0)
  .| Z.shiftl (Z.land i 0x3F) 48.

Lemma imm8_bits_expand i : 0 <= i < 256 -> imm8_bits i = fp_expand_imm i.
Proof.
  intros Hi.
  assert (Hall : forallb (fun k => imm8_bits (Z.of_nat k) =? fp_expand_imm (Z.of_nat k)) (seq 0 256) = true) by (vm_compute; reflexivity).
  rewrite forallb_forall in Hall. specialize (Hall (Z.to_nat i) ltac:(apply in_seq; lia)).
  rewrite Z2Nat.id in Hall by lia. apply Z.eqb_eq, Hall.
Qed.

Lemma fmov_imm8_expand w i : f64_fmov_imm8 w = Some i -> 0 <= i < 256 /\ fp_expand_imm i = w.
Proof.
  unfold f64_fmov_imm8. set (j := u8 _). assert (Hj : 0 <= j < 256) by (apply wrap_range; lia).
  change (u64 (Z.shiftl (Z.shiftr j 7) 63) .| _ .| _ .| _) with (imm8_bits j).
  destruct (imm8_bits j =? w) eqn:E; [|discriminate]. intros [= <-]. split; [exact Hj|].
  rewrite <- imm8_bits_expand by exact Hj. apply Z.eqb_eq, E.
Qed.

(** ** Sign extensions *)

Lemma bits_low x k : 0 <= k -> bits x 0 k = wrap k x.
Proof. intros Hk. unfold bits. rewrite Z.shiftr_0_r, Z.land_ones by exact Hk. reflexivity. Qed.

Lemma sxt_word k d x : 0 < k <= 32 -> u32 (bitfield 32 0 0 (k - 1) d (u32 x)) = u32 (sgn k x).
Proof.
  intros Hk. unfold bitfield. replace (0 <=? k - 1) with true by (symmetry; apply Z.leb_le; lia).
  cbv zeta. replace (k - 1 - 0 + 1) with k by lia. rewrite Z.shiftl_0_r, bits_low, wrap_wrap by lia.
  unfold sgn. rewrite wrap_wrap, wrap_le by lia. reflexivity.
Qed.

Section Values.
Context (cfg : RosettaConfig) (tgt : Target) (segbase : Z -> Z) (b T0 Tmem : Z) (x0 : X87State) (m0 : machine).
Context (f : Frame) (pinned : list Z) (skip : bool) (single : Z -> bool) (stack0 : list (option Z)).
Hypothesis (Hf : frame_ok T0 f pinned).
Hypothesis (Hreps : forall k, In k (f_bases f) -> addr_operand_base_cacheable (b_rep k) = true).
Hypothesis (Hstack : forall d x, 0 <= d < 8 -> nth (Z.to_nat d) stack0 None = Some x ->
  zget (X87State.st x0) (Z.land (T0 + d) 7) = x).

#[local] Abbreviation machine_rel := (machine_rel cfg segbase b T0 Tmem x0 m0 f skip).
#[local] Abbreviation fprs_rel := (fprs_rel cfg single).
#[local] Abbreviation Rel := (Rel cfg segbase b T0 Tmem x0 m0 f pinned skip single).
#[local] Abbreviation ready := (ready cfg segbase b T0 Tmem x0 m0 f pinned skip single).
#[local] Abbreviation in_use := (in_use pinned).
#[local] Abbreviation eval_node := (eval_node segbase stack0 T0).
#[local] Abbreviation lu := (f_last_use f).

(** ** What the relation says of operands *)

Lemma fscratch_zr r : fscratch cfg r = true -> gpr_or_zr r.
Proof. intros H. apply fscratch_range in H. unfold gpr_or_zr. lia. Qed.

Lemma ids_128 e P J rg m j : fprs_rel e P J rg m -> In j J -> 0 <= j < 128.
Proof.
  intros Hr Hj. pose proof (fr_ids _ _ _ _ _ _ _ Hr j Hj) as H. split; [lia|].
  destruct (Z.ltb_spec j 128) as [|Hge]; [assumption|]. exfalso.
  pose proof (fr_scratch _ _ _ _ _ _ _ Hr j Hj) as Hs. unfold zget in Hs.
  rewrite nth_overflow in Hs by (rewrite (fr_len _ _ _ _ _ _ _ Hr); lia).
  apply fscratch_range in Hs. lia.
Qed.

Lemma get_in e P J rg m j : fprs_rel e P J rg m -> In j J -> get rg j = zget (node_fpr rg) j.
Proof.
  intros Hr Hj. pose proof (ids_128 _ _ _ _ _ _ Hr Hj). unfold get, kMaxNodes.
  destruct (Z.ltb_spec j 0), (Z.leb_spec 128 j); try lia. reflexivity.
Qed.

(** An input: its register and its value. *)
Lemma input_value e P J rg m j :
  fprs_rel e P J rg m -> In j J ->
  gpr_or_zr (get rg j) /\ vr m (get rg j) = zget (vals e) j /\ in64 (zget (vals e) j) /\
  (single j = true -> in_fmt f32 (zget (vals e) j)).
Proof.
  intros Hr Hj. rewrite (get_in _ _ _ _ _ _ Hr Hj). destruct (fr_val _ _ _ _ _ _ _ Hr j Hj) as [Hv H64].
  split; [apply fscratch_zr; exact (fr_scratch _ _ _ _ _ _ _ Hr j Hj)|]. split; [exact Hv|]. split; [exact H64|].
  intros Hs. pose proof (fr_single _ _ _ _ _ _ _ Hr j Hj Hs). unfold in_fmt, in64 in *. cbn. lia.
Qed.

Lemma bases_at e P rg m : machine_rel e P rg m ->
  forall k, In k (f_bases f) -> gpr (b_reg k) /\ u64 (xr m (b_reg k)) = addr segbase (i_regs e) (with_disp0 (b_rep k)) /\
    addr_operand_base_cacheable (b_rep k) = true.
Proof.
  intros Hm k Hk. split; [|split; [exact (mr_bases _ _ _ _ _ _ _ _ _ _ _ _ _ Hm k Hk) | exact (Hreps k Hk)]].
  destruct (fk_bases _ _ _ Hf k Hk) as [H | H]; [unfold gpr; lia | exact (pinned_gpr T0 f pinned Hf _ H)].
Qed.

(** What an access needs: an operand of the right form, whose displacement
    folds, away from the x87 state. *)
Definition access_ok (e : ir) (n : Node) (k : nat) : bool :=
  access_operand (mem_operand n) && folds segbase (i_regs e) (mem_operand n) &&
  apart b (addr segbase (i_regs e) (mem_operand n)) k.

Lemma access_okE e n k : access_ok e n k = true ->
  access_operand (mem_operand n) = true /\ folds segbase (i_regs e) (mem_operand n) = true /\
  apart b (addr segbase (i_regs e) (mem_operand n)) k = true.
Proof. unfold access_ok. rewrite !andb_true_iff. intros [[H1 H2] H3]. split; [exact H1|]. split; [exact H2 | exact H3]. Qed.

(** ** Rounding control *)

Lemma ubfx_rc d w : u32 (bitfield 32 2 10 11 d (u32 w)) = rc_of w.
Proof.
  unfold rc_of, bitfield. cbn [Z.leb Z.compare Pos.compare Pos.compare_cont]. rewrite Z.shiftl_0_r.
  change (11 - 10 + 1) with 2. rewrite bits_u32 by lia. unfold bits. change (Z.ones 2) with 3.
  pose proof (land_bound (Z.shiftr w 10) 3 2 ltac:(lia) ltac:(lia)). apply wrap_small. lia.
Qed.

Lemma wp_rc_preamble e P rg a m out (Q : unit -> asm -> machine -> Prop) :
  machine_rel e P rg m -> gpr out -> out <> Xbase f ->
  (forall a' m', same_pools a a' -> frame [out] m m' -> xr m' out = rc_of (i_cw e) -> Q tt a' m') ->
  wp (emit_rc_preamble (Xbase f) out) Q a m.
Proof.
  intros Hm Ho Hne HQ. unfold emit_rc_preamble. pose proof (mr_base _ _ _ _ _ _ _ _ _ _ _ _ _ Hm) as Hb.
  destruct Hb as (Gb & Eb & Hb0 & Hb1). apply wp_bind.
  apply r_ldr; [exact Gb | exact Ho | lia | lia|]. intros a1 Hs1.
  apply r_bitfield; [apply gpr_zr, Ho | exact Ho | lia | cbn; lia | cbn; lia|]. intros a2 Hs2.
  apply HQ; [eapply same_pools_trans; eassumption | |].
  - split; try reflexivity. intros q Hq. unfold put. cbn [xr set_xr]. rewrite !set_reg_ne by (intros ->; apply Hq; left; reflexivity). reflexivity.
  - unfold put. cbn [xr set_xr]. rewrite src_gpr by exact Ho. cbn [xr set_xr]. rewrite !set_reg_eq.
    change (w_of (nz 0)) with 32. change (Z.to_nat (2 ^ 1)) with 2%nat. rewrite Eb, Z.shiftl_0_l, Z.add_0_r.
    rewrite u64_small by lia.
    assert (Ecw : load 2 (mm m) b = i_cw e).
    { transitivity (controlWord (x87_at (mm m) b)); [reflexivity|]. rewrite (mr_state _ _ _ _ _ _ _ _ _ _ _ _ _ Hm). reflexivity. }
    rewrite Ecw. apply ubfx_rc.
Qed.

Lemma rc_pinned : 0 <= Wd_rc_cached f -> In (Wd_rc_cached f) pinned.
Proof. intros H. destruct (fk_rc _ _ _ Hf); [lia | assumption]. Qed.

Lemma rc_ne_base : Wd_rc_cached f <> Xbase f.
Proof. apply (fk_rc_ne _ _ _ Hf). Qed.

(** [load_rc], whatever waits for a value. *)
Lemma wp_load_rc e P rg V a0 a m (Q : Regs -> asm -> machine -> Prop) s :
  machine_rel e P rg m -> pools_rel cfg pinned P rg V a0 -> 0 <= Wd_rc_cached f -> rc_cache_valid s = rc_cache_valid rg ->
  (forall a' m', same_pools a a' -> machine_rel e P (set_rc_valid rg true) m' -> frame [Wd_rc_cached f] m m' ->
     xr m' (Wd_rc_cached f) = rc_of (i_cw e) -> Q (set_rc_valid s true) a' m') ->
  wp (load_rc f s) Q a m.
Proof.
  intros Hm Hp H0 Es HQ. unfold load_rc. rewrite Es. destruct (rc_cache_valid rg) eqn:Ev.
  - apply wp_ret. replace s with (set_rc_valid s true) by (destruct s; cbn in Es; subst; reflexivity).
    apply HQ; [apply same_pools_refl | | apply frame_refl | exact (mr_rc _ _ _ _ _ _ _ _ _ _ _ _ _ Hm Ev H0)].
    destruct rg; cbn in Ev; subst. exact Hm.
  - apply wp_bind, (wp_rc_preamble e P rg); [exact Hm | apply (pinned_gpr T0 f pinned Hf), rc_pinned, H0 | exact rc_ne_base|].
    intros a' m' Hs Hfr Hrc. apply wp_ret, HQ; [exact Hs | | exact Hfr | exact Hrc].
    eapply (machine_rc cfg segbase b T0 Tmem x0 m0 f pinned skip Hf e P rg V a0 m m'); try assumption; try apply Hfr.
    intros r Hr. apply (fr_x _ _ _ Hfr). intros [E | []]; congruence.
Qed.

(** ** Values into fresh registers and dying inputs' *)

(** The code that computes node [i]'s value into [Dd], and what follows. *)
Definition computes (e : ir) (P : pending) (rg : Regs) (Dd v : Z) (a : asm) (m : machine) (a' : asm) (m' : machine) : Prop :=
  calm (in_use P rg) [Wd_tmp f] a m a' m' /\ forall r, vr m' r = Fpu.set_reg (vr m) Dd v r.

Lemma wp_fresh_value e P J rg a m i v (k : Z -> Regs -> M Regs) (Q : Regs -> asm -> machine -> Prop) :
  Rel e P J rg a m -> i = Z.of_nat (length (vals e)) -> i < 128 -> (length J < fpr_count cfg)%nat ->
  in64 v -> (single i = true -> v < 2 ^ 32) ->
  (forall rg' a' m', Rel (add_val e v) P (i :: J) rg' a' m' -> Wd_nzcv_saved rg' = Wd_nzcv_saved rg -> Q rg' a' m') ->
  (forall Dd a1, ready e P J rg Dd a1 m ->
     (forall a' m', computes e P rg Dd v a1 m a' m' -> Q (set_fpr rg i Dd) a' m') ->
     wp (k Dd (set_fpr rg i Dd)) Q a1 m) ->
  wp ('(Dd, s) <- fresh_fpr i rg ;; k Dd s) Q a m.
Proof.
  intros H Ei Hi HJ Hv H32 HQ Hk. apply wp_bind.
  apply (wp_fresh_fpr cfg segbase b T0 Tmem x0 m0 f pinned skip single e P J rg); [exact H | exact HJ|].
  intros Dd a1 Hd. apply Hk; [exact Hd|]. intros a' m' ([] & Hvr). apply HQ; [|reflexivity].
  eapply value_done; eassumption.
Qed.

Lemma first_dying_inputs e P J rg m n i :
  fprs_rel e P J rg m -> (forall j, In j [0; 1; 2] -> input n j < 0 \/ In (input n j) J) ->
  first_dying lu (fun v => 0 <=? zget (node_fpr rg) v) n i = first_dying lu (fun _ => true) n i.
Proof.
  intros Hr Hin.
  assert (H : forall j, In j [0; 1; 2] -> (0 <=? input n j) = true -> (0 <=? zget (node_fpr rg) (input n j)) = true).
  { intros j Hj H0. apply Z.leb_le in H0. destruct (Hin j Hj) as [|HJ]; [lia|].
    pose proof (fscratch_range _ _ (fr_scratch _ _ _ _ _ _ _ Hr _ HJ)). apply Z.leb_le. lia. }
  unfold first_dying. cbn [find].
  assert (E : forall j, In j [0; 1; 2] ->
    (0 <=? input n j) && (zget lu (input n j) =? i) && (0 <=? zget (node_fpr rg) (input n j)) =
    (0 <=? input n j) && (zget lu (input n j) =? i) && true).
  { intros j Hj. specialize (H j Hj). destruct (0 <=? input n j); [|reflexivity]. rewrite H by reflexivity. reflexivity. }
  rewrite !E by (cbn; auto). reflexivity.
Qed.

Lemma wp_result_value e P J rg a m n i v (k : Z -> Regs -> M Regs) (Q : Regs -> asm -> machine -> Prop) :
  Rel e P J rg a m -> i = Z.of_nat (length (vals e)) -> i < 128 ->
  (forall j, In j [0; 1; 2] -> input n j < 0 \/ In (input n j) J) ->
  let w := first_dying lu (fun _ => true) n i in
  (w = None -> (length J < fpr_count cfg)%nat) ->
  in64 v -> (single i = true -> v < 2 ^ 32) ->
  (forall rg' a' m', Rel (add_val e v) P (i :: claim w J) rg' a' m' -> Wd_nzcv_saved rg' = Wd_nzcv_saved rg -> Q rg' a' m') ->
  (forall rg1 Dd a1, ready e P (claim w J) rg1 Dd a1 m ->
     (forall a' m', computes e P rg1 Dd v a1 m a' m' -> Q (set_fpr rg1 i Dd) a' m') ->
     wp (k Dd (set_fpr rg1 i Dd)) Q a1 m) ->
  wp ('(Dd, s) <- result_fpr f n i rg ;; k Dd s) Q a m.
Proof.
  intros H Ei Hi Hin w HJ Hv H32 HQ Hk. apply wp_bind.
  pose proof (first_dying_inputs e P J rg m n i (proj1 (proj2 H)) Hin) as Ew. fold w in Ew.
  apply (wp_result_fpr cfg segbase b T0 Tmem x0 m0 f pinned skip single e P J rg); [exact H | exact Hin | |].
  - rewrite Ew. exact HJ.
  - rewrite Ew. intros rg1 Dd a1 Hd Hs. apply Hk; [exact Hd|]. intros a' m' ([] & Hvr).
    apply HQ; [|exact Hs]. eapply value_done; eassumption.
Qed.

(** ** Loads and constants *)

Section Node.
Context (e : ir) (P : pending) (J : list Z) (rg : Regs) (a : asm) (m : machine) (i : Z) (n : Node).
Hypothesis (H : Rel e P J rg a m) (Ei : i = Z.of_nat (length (vals e))) (Hi : i < 128) (Hdead : dead n = false).

#[local] Abbreviation v := (snd (node_sem segbase stack0 T0 e (fun j => zget (vals e) (input n j)) n)).
#[local] Abbreviation after J' Q :=
  (forall rg' a' m', Rel (eval_node e n) P J' rg' a' m' -> Wd_nzcv_saved rg' = Wd_nzcv_saved rg -> Q rg' a' m').

Lemma tmp_ne : Wd_tmp f <> Xbase f /\ Wd_tmp f <> Wd_top f /\ Wd_tmp f <> Xst_base f.
Proof. pose proof (fk_tmp_ne _ _ _ Hf). tauto. Qed.

Lemma pool_of rg1 Dd a1 J' : ready e P J' rg1 Dd a1 m -> gpool a1 (in_use P rg1).
Proof. intros Hd. apply (rd_pools _ _ _ _ _ _ _ _ _ _ _ _ _ _ _ _ _ _ Hd). Qed.

Lemma wp_read_st (Q : Regs -> asm -> machine -> Prop) :
  op n = ReadSt -> 0 <= initial_depth n < 8 -> nth (Z.to_nat (initial_depth n)) stack0 None <> None ->
  (length J < fpr_count cfg)%nat -> single i = false -> after (i :: J) Q -> wp (emit_read_st f i n rg) Q a m.
Proof.
  intros Eo Hd Hocc HJ Hs HQ. unfold emit_read_st.
  destruct (nth _ stack0 None) as [x|] eqn:Ex; [clear Hocc | congruence].
  assert (Hm : machine_rel e P rg m) by apply H.
  assert (Est : forall k, zget (X87State.st (x87_at (mm m) b)) k = zget (X87State.st x0) k)
    by (intros k; rewrite (mr_state _ _ _ _ _ _ _ _ _ _ _ _ _ Hm); reflexivity).
  assert (Ev : eval_node e n = add_val e x).
  { unfold X87IREval.eval_node, node_sem. rewrite Hdead, Eo. unfold initial. rewrite Ex. reflexivity. }
  rewrite Ev in HQ. pose proof (Hstack _ _ Hd Ex) as Hx.
  assert (HxR : in64 x).
  { rewrite <- Hx, <- Est. apply x87_st_range, phys_index_range. }
  eapply (wp_fresh_value e P J rg a m i x (fun Dd s => _ ;;; ret s)); [exact H | exact Ei | exact Hi | exact HJ | exact HxR | congruence | exact HQ |].
  intros Dd a1 Hr Hdone. cbv beta. rewrite (fk_top_known _ _ _ Hf). cbn [Z.leb Z.compare].
  apply wp_bind. apply wp_bind. destruct tmp_ne as (N1 & N2 & N3).
  pose proof (pinned_gpr T0 f pinned Hf) as Hg.
  apply (wp_load_st b (Xbase f) (Xst_base f) (Wd_top f) (Wd_tmp f)).
  - apply Hg, (fk_top _ _ _ Hf).
  - apply Hg, (fk_tmp _ _ _ Hf).
  - congruence.
  - congruence.
  - exact (mr_base _ _ _ _ _ _ _ _ _ _ _ _ _ Hm).
  - exact (mr_st _ _ _ _ _ _ _ _ _ _ _ _ _ Hm).
  - rewrite (mr_top _ _ _ _ _ _ _ _ _ _ _ _ _ Hm). exact (fk_T0 _ _ _ Hf).
  - exact Hd.
  - apply fscratch_zr. exact (rd_scratch _ _ _ _ _ _ _ _ _ _ _ _ _ _ _ _ _ _ Hr).
  - intros r a' m' Hsp Hx' Hn Hmm Hv. apply wp_ret, wp_ret, Hdone. split.
    + apply calm_same; [exact (pool_of _ _ _ _ Hr) | exact Hsp | | exact Hn | exact Hmm].
      apply (safe_only _ _ _ _ [Wd_tmp f]); [intros; apply Hx'; cbn in *; intuition congruence | auto].
    + intros q. rewrite Hv, Est, (mr_top _ _ _ _ _ _ _ _ _ _ _ _ _ Hm), Hx. reflexivity.
Qed.

(** The value a load reads is the one the run's semantics reads. *)
Lemma load_same k :
  access_ok e n k = true ->
  load k (mm m) (addr segbase (i_regs e) (mem_operand n)) = load k (i_mem e) (addr segbase (i_regs e) (mem_operand n)).
Proof.
  intros Ha. apply access_okE in Ha as (_ & _ & Ha).
  apply (agree_load b); [apply H | exact Ha].
Qed.

(** The rules of [LowerAccess], once a register waits for the value. *)
Lemma wp_load_value k size Dd rg1 J' a1 (Q : unit -> asm -> machine -> Prop) :
  ready e P J' rg1 Dd a1 m -> access_ok e n k = true -> Z.to_nat (2 ^ size) = k -> 0 <= size <= 3 ->
  (length (in_use P rg1) < 8)%nat ->
  (forall a' m', computes e P rg1 Dd (load k (i_mem e) (addr segbase (i_regs e) (mem_operand n))) a1 m a' m' -> Q tt a' m') ->
  wp (fp_access tgt f n size 1 Dd) Q a1 m.
Proof.
  intros Hd Ha Ek Hsz HU HQ. pose proof (access_okE _ _ _ Ha) as (Ho & Hfold & _).
  apply (wp_fp_access_load tgt segbase f (i_regs e) (in_use P rg1));
    [apply H | exact (bases_at _ _ _ _ (proj1 H)) | exact Ho | exact Hfold | exact (pool_of _ _ _ _ Hd) | exact HU | exact Hsz
    | apply fscratch_zr; apply Hd |].
  intros a' m' Hsp Hs Hn Hmm Hv. apply HQ. split.
  - apply calm_same; [exact (pool_of _ _ _ _ Hd) | exact Hsp | | exact Hn | exact Hmm].
    eapply safe_mono; [| |exact Hs]; [auto | intros ? []].
  - intros q. rewrite Hv, Ek, load_same by exact Ha. reflexivity.
Qed.

Lemma wp_load_fp size (Q : Regs -> asm -> machine -> Prop) :
  op n = (if size =? 3 then LoadF64 else LoadF32Raw) -> size = 2 \/ size = 3 ->
  access_ok e n (Z.to_nat (2 ^ size)) = true -> zget (fst (f_pairs f)) i < 0 ->
  (length J < fpr_count cfg)%nat -> (length (in_use P rg) < 8)%nat -> (single i = true -> size = 2) ->
  after (i :: J) Q -> wp (emit_load_fp tgt f i n size rg) Q a m.
Proof.
  intros Eo Hsz Ha Hpair HJ HU Hs HQ. unfold emit_load_fp.
  set (x := load (Z.to_nat (2 ^ size)) (i_mem e) (addr segbase (i_regs e) (mem_operand n))).
  assert (Ev : eval_node e n = add_val e x).
  { unfold X87IREval.eval_node, node_sem. rewrite Hdead, Eo. destruct Hsz as [-> | ->]; reflexivity. }
  rewrite Ev in HQ. pose proof (load_range (Z.to_nat (2 ^ size)) (i_mem e) (addr segbase (i_regs e) (mem_operand n))) as Hx.
  fold x in Hx.
  assert (Hx64 : in64 x) by (unfold in64; destruct Hsz as [-> | ->]; change (8 * _) with 64 in Hx || change (8 * _) with 32 in Hx; lia).
  eapply (wp_fresh_value e P J rg a m i x (fun Dd s => _)); [exact H | exact Ei | exact Hi | exact HJ | exact Hx64 | | exact HQ |].
  - intros Hs'. rewrite (Hs Hs') in Hx. exact (proj2 Hx).
  - intros Dd a1 Hr Hdone. cbv zeta. replace (0 <=? zget (fst (f_pairs f)) i) with false by (symmetry; apply Z.leb_gt, Hpair).
    apply wp_bind. apply (wp_load_value (Z.to_nat (2 ^ size)) size Dd rg J a1); [exact Hr | exact Ha | reflexivity | lia | exact HU|].
    intros a' m' Hc. apply wp_ret, Hdone, Hc.
Qed.

Lemma wp_const (Q : Regs -> asm -> machine -> Prop) :
  op n = ConstZero \/ op n = ConstOne \/ op n = ConstF64 /\ in64 (imm_bits n) ->
  (length J < fpr_count cfg)%nat -> single i = false ->
  after (i :: J) Q -> wp (emit_const i n rg) Q a m.
Proof.
  intros Eo HJ Hs HQ. unfold emit_const.
  set (x := match op n with ConstZero => f_zero | ConstOne => f_one | _ => imm_bits n end).
  assert (Ev : eval_node e n = add_val e x).
  { unfold X87IREval.eval_node, node_sem, x. rewrite Hdead. destruct Eo as [-> | [-> | [-> _]]]; reflexivity. }
  rewrite Ev in HQ.
  assert (Hx : in64 x) by (unfold x; destruct Eo as [-> | [-> | [-> ?]]]; [unfold in64, f_zero; lia | unfold in64, f_one; lia | assumption]).
  eapply (wp_fresh_value e P J rg a m i x (fun Dd s => _ ;;; ret s)); [exact H | exact Ei | exact Hi | exact HJ | exact Hx | congruence | exact HQ |].
  intros Dd a1 Hr Hdone. cbv beta. apply wp_bind.
  pose proof (fscratch_zr _ (rd_scratch _ _ _ _ _ _ _ _ _ _ _ _ _ _ _ _ _ _ Hr)) as Hz.
  assert (Hput : forall a', same_pools a1 a' -> wp (ret (set_fpr rg i Dd)) Q a' (putv m Dd x)).
  { intros a' Hsp. apply wp_ret, Hdone. split; [apply calm_putv; [exact (pool_of _ _ _ _ Hr) | exact Hsp] | reflexivity]. }
  unfold x in *. destruct Eo as [E | [E | [E Hr64]]]; rewrite E in *.
  - apply r_movi; assumption.
  - apply r_fmov_one; assumption.
  - destruct (f64_fmov_imm8 (imm_bits n)) as [imm8|] eqn:E8; [|apply r_ldr_literal; assumption].
    apply fmov_imm8_expand in E8 as [Hi8 E8]. apply r_fmov_imm; [exact Hz | exact Hi8|].
    rewrite E8, in64_u64 by exact Hr64. exact Hput.
Qed.

(** ** Integer loads *)

(** The conversion of an integer in a register taken for it. *)
Lemma wp_convert_int Dd rg1 J' a1 a2 Wd x a3 m3 (Q : Regs -> asm -> machine -> Prop) s :
  ready e P J' rg1 Dd a1 m -> scratch Wd = true -> ~ In Wd (in_use P rg1) -> free_fpr_mask a2 = free_fpr_mask a1 ->
  calm (Wd :: in_use P rg1) [Wd] a2 m a3 m3 -> vr m3 = vr m -> u32 (xr m3 Wd) = u32 x ->
  (forall a' m', computes e P rg1 Dd (of_int f64 (s32 x)) a1 m a' m' -> Q s a' m') ->
  wp (emit_scvtf 0 1 Dd Wd ;;; free_gpr Wd ;;; ret s) Q a3 m3.
Proof.
  intros Hr Hsc Hni Hm2 [Hp3 Hf3 Hk3 Hn3 Hm3] Hv3 Hx HQ. apply wp_bind.
  apply r_scvtf; [auto | apply fscratch_zr; apply Hr | apply scratch_gpr', Hsc|].
  intros a4 Hsp4. apply wp_bind.
  apply (wp_gfree Wd (in_use P rg1)); [apply (gpool_same a3); assumption | exact Hsc | exact Hni|].
  intros a5 Hp5 Hm5. apply wp_ret, HQ. split.
  - constructor; [exact Hp5 | | | exact Hn3 | exact Hm3].
    + rewrite Hm5, (proj2 Hsp4), Hf3. exact Hm2.
    + apply (safe_mono (in_use P rg1) _ []); [auto | intros ? [] |].
      apply (safe_drop _ _ Wd); [exact Hsc | exact Hni | exact Hk3].
  - intros q. unfold putv. cbn [vr set_vr]. rewrite Hv3. change (w_of (nz 0)) with 32.
    replace (s32 (xr m3 Wd)) with (s32 x) by (unfold sgn; rewrite Hx; reflexivity).
    rewrite in64_u64 by apply of_int_range64. reflexivity.
Qed.


Lemma wp_load_i32 (Q : Regs -> asm -> machine -> Prop) :
  op n = LoadI32 -> access_ok e n 4 = true ->
  (length J < fpr_count cfg)%nat -> (length (in_use P rg) < 7)%nat -> single i = false ->
  after (i :: J) Q -> wp (emit_load_i32 cfg tgt f i n rg) Q a m.
Proof.
  intros Eo Ha HJ HU Hs HQ. unfold emit_load_i32. pose proof (access_okE _ _ _ Ha) as (Ho & Hfold & _).
  set (w := load 4 (i_mem e) (addr segbase (i_regs e) (mem_operand n))).
  assert (Ev : eval_node e n = add_val e (of_int f64 (s32 w))).
  { unfold X87IREval.eval_node, node_sem. rewrite Hdead, Eo. reflexivity. }
  rewrite Ev in HQ.
  eapply (wp_fresh_value e P J rg a m i _ (fun Dd s => _)); [exact H | exact Ei | exact Hi | exact HJ | apply of_int_range64 | congruence | exact HQ |].
  intros Dd a1 Hr Hdone. cbv beta. pose proof (pool_of _ _ _ _ Hr) as Hp.
  apply wp_bind, (wp_galloc (in_use P rg)); [exact Hp | lia|]. intros Wd a2 Hsc Hni Hp2 Hm2.
  apply wp_bind, (wp_gpr_access_load cfg tgt segbase f (i_regs e) (Wd :: in_use P rg));
    [apply H | exact (bases_at _ _ _ _ (proj1 H)) | exact Ho | exact Hfold | exact Hp2 | cbn; lia | lia | apply scratch_gpr', Hsc |].
  intros a3 m3 Hsp3 Hk Hv3 Hn3 Hm3 Hw3.
  apply (wp_convert_int Dd rg J a1 a2 Wd w); try assumption; [apply calm_same; assumption|].
  rewrite Hw3. change (Z.to_nat (2 ^ 2)) with 4%nat. rewrite (load_same 4 Ha). reflexivity.
Qed.

Lemma wp_load_i64 (Q : Regs -> asm -> machine -> Prop) :
  op n = LoadI64 -> access_ok e n 8 = true ->
  (length J < fpr_count cfg)%nat -> (length (in_use P rg) < 8)%nat -> single i = false ->
  after (i :: J) Q -> wp (emit_load_i64 cfg tgt f i n rg) Q a m.
Proof.
  intros Eo Ha HJ HU Hs HQ. unfold emit_load_i64. pose proof (access_okE _ _ _ Ha) as (Ho & Hfold & _).
  set (w := load 8 (i_mem e) (addr segbase (i_regs e) (mem_operand n))).
  assert (Ev : eval_node e n = add_val e (of_int f64 (s64 w))).
  { unfold X87IREval.eval_node, node_sem. rewrite Hdead, Eo. reflexivity. }
  rewrite Ev in HQ.
  eapply (wp_fresh_value e P J rg a m i _ (fun Dd s => _)); [exact H | exact Ei | exact Hi | exact HJ | apply of_int_range64 | congruence | exact HQ |].
  intros Dd a1 Hr Hdone. cbv beta. pose proof (pool_of _ _ _ _ Hr) as Hp.
  pose proof (fscratch_zr _ (rd_scratch _ _ _ _ _ _ _ _ _ _ _ _ _ _ _ _ _ _ Hr)) as Hz.
  assert (Hload : forall a2 m2, computes e P rg Dd w a1 m a2 m2 ->
    wp (emit_scvtf_d_from_d Dd Dd ;;; ret (set_fpr rg i Dd)) Q a2 m2).
  { intros a2 m2 [Hc Hv]. apply wp_bind, r_scvtf_d; [exact Hz | exact Hz|]. intros a3 Hsp. apply wp_ret, Hdone. split.
    - eapply calm_trans; [exact Hc|]. apply calm_putv; [apply Hc | exact Hsp].
    - intros q. unfold putv. cbn [vr set_vr]. rewrite Hv, set_reg_eq. rewrite in64_u64 by apply of_int_range64.
      eapply set_reg_twice. exact Hv. }
  assert (Hldst : forall m1, safe (in_use P rg) [] m m1 -> vr m1 = vr m -> nzcv m1 = nzcv m -> mm m1 = mm m ->
    exists m2, ldst 3 true 1 (addr segbase (i_regs e) (mem_operand n)) Dd m1 = Some m2 /\
      forall a2, same_pools a1 a2 -> computes e P rg Dd w a1 m a2 m2).
  { intros m1 Hk1 Hv1 Hn1 Hm1. eexists. split; [reflexivity|]. intros a2 Hsp. split.
    - apply calm_same; [exact Hp | exact Hsp | | exact Hn1 | exact Hm1].
      apply (safe_mono (in_use P rg) _ []); [auto | intros ? [] | exact Hk1].
    - intros q. cbn [vr set_vr]. rewrite Hv1, Hm1. change (Z.to_nat (2 ^ 3)) with 8%nat. rewrite (load_same 8 Ha). reflexivity. }
  apply wp_bind. destruct (Hldst m (safe_refl _ _ _) eq_refl eq_refl eq_refl) as (m2 & E2 & Hc2).
  apply (wp_cached_fp segbase f (i_regs e) n a1 m) with (m2 := m2);
    [exact (bases_at _ _ _ _ (proj1 H)) | exact Ho | exact Hfold | lia | auto | exact Hz | exact E2 | |].
  - intros a2 Hsp. apply wp_bind, wp_ret. exact (Hload _ _ (Hc2 a2 Hsp)).
  - apply wp_bind, (wp_fp_mem cfg tgt segbase (i_regs e) (in_use P rg));
      [apply H | exact Ho | exact Hp | exact HU | lia | auto | exact Hz|].
    intros m1 Hk1 Hv1 Hn1 Hm1. destruct (Hldst m1 Hk1 Hv1 Hn1 Hm1) as (m3 & E3 & Hc3).
    exists m3. split; [exact E3|]. intros a3 Hsp. exact (Hload _ _ (Hc3 a3 Hsp)).
Qed.

Lemma wp_sxt16 w x s1 m1 (Q : unit -> asm -> machine -> Prop) :
  gpr w -> u32 (xr m1 w) = u32 x -> (forall s2, same_pools s1 s2 -> Q tt s2 (put m1 w (u32 (s16 x)))) ->
  wp (emit_bitfield 0 0 0 0 15 w w) Q s1 m1.
Proof.
  intros Hw Hx HQ. apply r_bitfield; [apply gpr_zr, Hw | exact Hw | lia | cbn; lia | cbn; lia|].
  intros s2 Hs. change (w_of (nz 0)) with 32. rewrite (src_gpr m1 w Hw), Hx.
  rewrite (sxt_word 16) by lia. exact (HQ s2 Hs).
Qed.

(** The two encodings of the load outside the cache. *)
Lemma wp_load_i16_insn acc w a1 a2 m1 x (Q : unit -> asm -> machine -> Prop) :
  reaches m1 (addr segbase (i_regs e) (mem_operand n)) 1 acc -> gpr w ->
  x = load 2 (mm m1) (addr segbase (i_regs e) (mem_operand n)) -> same_pools a1 a2 ->
  (forall a3 m3, same_pools a1 a3 -> frame [w] m1 m3 -> u32 (xr m3 w) = u32 (s16 x) -> Q tt a3 m3) ->
  wp (match enc acc with
      | Unscaled9 =>
          emit_ldur_stur 1 1 (s16 (offset acc)) (base acc) w ;;;
          emit_bitfield 0 0 0 0 15 w w
      | _ => emit_ldr_str_imm 1 0 3 (s16 (Z.shiftr (offset acc) 1)) (base acc) w
      end) Q a2 m1.
Proof.
  intros Hre Hw Ex Hsp HQ.
  assert (Hfr : forall v, frame [w] m1 (put m1 w v)).
  { intros v. split; try reflexivity. intros q Hq. apply set_reg_ne. intros ->. apply Hq. left. reflexivity. }
  assert (Hscaled : 0 <= offset acc /\ Z.shiftr (offset acc) 1 <= 4095 /\ Z.shiftl (Z.shiftr (offset acc) 1) 1 = offset acc ->
    wp (emit_ldr_str_imm 1 0 3 (s16 (Z.shiftr (offset acc) 1)) (base acc) w) Q a2 m1).
  { intros (H0 & H1 & H2). pose proof (proj2 (Z.shiftr_nonneg (offset acc) 1) H0).
    rewrite (sgn_small 16) by lia. destruct Hre as (Hg & Hadr & _). apply r_ldrsh; [exact Hg | exact Hw | lia|].
    intros a3 Hs3. apply HQ; [eapply same_pools_trans; eassumption | apply Hfr|].
    unfold put. cbn [xr set_xr]. rewrite set_reg_eq, H2, wrap_wrap, <- wrap_add_l, Hadr, <- Ex by lia. reflexivity. }
  pose proof Hre as (Hg & Hadr & He). unfold encodable in He.
  destruct (enc acc) eqn:Ee; [exact (Hscaled He) | | exact (Hscaled He)].
  apply wp_bind. pose proof (wp_access_insn false 1 1 w acc (addr segbase (i_regs e) (mem_operand n)) a2 m1) as Hins.
  rewrite Ee in Hins. eapply Hins; [lia | auto | unfold gpr, gpr_or_zr in *; lia | exact Hre | reflexivity|].
  intros a3 Hs3. rewrite wr_zr_put by exact Hw. change (Z.to_nat (2 ^ 1)) with 2%nat. rewrite <- Ex.
  apply (wp_sxt16 w x); [exact Hw | unfold put; cbn [xr set_xr]; rewrite set_reg_eq; apply wrap_le; cbn; lia|].
  intros a4 Hs4. apply HQ; [eapply same_pools_trans; [exact Hsp|]; eapply same_pools_trans; eassumption | |].
  - eapply frame_trans; [apply Hfr|]. split; try reflexivity. intros q Hq. apply set_reg_ne. intros ->. apply Hq. left. reflexivity.
  - unfold put. cbn [xr set_xr]. rewrite set_reg_eq. apply wrap_wrap. lia.
Qed.

Lemma wp_load_i16 (Q : Regs -> asm -> machine -> Prop) :
  op n = LoadI16 -> access_ok e n 2 = true ->
  (length J < fpr_count cfg)%nat -> (length (in_use P rg) < 7)%nat -> single i = false ->
  after (i :: J) Q -> wp (emit_load_i16 cfg tgt f i n rg) Q a m.
Proof.
  intros Eo Ha HJ HU Hs HQ. unfold emit_load_i16. pose proof (access_okE _ _ _ Ha) as (Ho & Hfold & _).
  set (w := load 2 (i_mem e) (addr segbase (i_regs e) (mem_operand n))).
  assert (Ev : eval_node e n = add_val e (of_int f64 (s16 w))).
  { unfold X87IREval.eval_node, node_sem. rewrite Hdead, Eo. reflexivity. }
  assert (E32 : s32 (s16 w) = s16 w) by (apply sgn_small; [lia|]; pose proof (sgn_range 16 w); lia).
  rewrite Ev, <- E32 in HQ. pose proof (load_same 2 Ha) as Hw. fold w in Hw.
  eapply (wp_fresh_value e P J rg a m i _ (fun Dd s => _)); [exact H | exact Ei | exact Hi | exact HJ | apply of_int_range64 | congruence | exact HQ |].
  intros Dd a1 Hr Hdone. cbv beta. pose proof (pool_of _ _ _ _ Hr) as Hp.
  apply wp_bind, (wp_galloc (in_use P rg)); [exact Hp | lia|]. intros Wd a2 Hsc Hni Hp2 Hm2.
  assert (Hg : gpr Wd) by (apply scratch_gpr', Hsc).
  assert (Hdone' : forall a3 m3, calm (Wd :: in_use P rg) [Wd] a2 m a3 m3 -> vr m3 = vr m -> u32 (xr m3 Wd) = u32 (s16 w) ->
    wp (emit_scvtf 0 1 Dd Wd ;;; free_gpr Wd ;;; ret (set_fpr rg i Dd)) Q a3 m3).
  { intros a3 m3 Hc Hv Hx. exact (wp_convert_int Dd rg J a1 a2 Wd (s16 w) a3 m3 Q _ Hr Hsc Hni Hm2 Hc Hv Hx Hdone). }
  assert (Hput : forall m1 v, safe (Wd :: in_use P rg) [Wd] m m1 -> safe (Wd :: in_use P rg) [Wd] m (put m1 Wd v)).
  { intros m1 v Hk. eapply safe_trans; [exact Hk|]. apply (safe_only _ _ _ _ [Wd]); [untouched | auto]. }
  apply wp_bind. eapply (wp_cached_gpr segbase f (i_regs e) n a2 m);
    [exact (bases_at _ _ _ _ (proj1 H)) | exact Ho | exact Hfold | lia | auto | unfold gpr, gpr_or_zr in *; lia | reflexivity | |].
  - intros a3 Hs3. rewrite wr_zr_put by exact Hg. change (Z.to_nat (2 ^ 1)) with 2%nat. rewrite Hw. apply wp_bind.
    apply (wp_sxt16 Wd w); [exact Hg | unfold put; cbn [xr set_xr]; rewrite set_reg_eq; apply wrap_le; cbn; lia|].
    intros a4 Hs4. apply Hdone'; [|reflexivity | unfold put; cbn [xr set_xr]; rewrite set_reg_eq; apply wrap_wrap; lia].
    apply calm_same; [exact Hp2 | eapply same_pools_trans; eassumption | apply Hput, Hput, safe_refl | reflexivity | reflexivity].
  - apply wp_bind, wp_bind. pose proof (access_operandE _ Ho) as (Ho' & Hseg & _).
    eapply wp_mono; [apply (wp_operand_access cfg tgt segbase _ 1 a2 m Ho' Hseg (gpool_ok _ _ Hp2)); [|lia]|].
    { apply (gpool_nonempty _ _ Hp2). cbn. lia. }
    cbv beta. intros acc a3 m3 Hacc. apply wp_bind.
    pose proof (ac_frame _ _ _ _ _ _ _ Hacc) as Hfr. pose proof (accessed_reaches _ _ _ _ _ _ _ Hacc) as Hre.
    rewrite (addr_regs segbase (xr m) (i_regs e)) in Hre by apply H.
    eapply (wp_load_i16_insn acc Wd a3 a3 m3 w);
      [exact Hre | exact Hg | rewrite (fr_mm _ _ _ Hfr); symmetry; exact Hw | apply same_pools_refl|].
    intros a4 m4 Hs4 Hfr4 Hx. eapply wp_free_gpr; [exact (gpool_ok _ _ Hp2) | eapply takes_pools_r; [apply Hacc | exact Hs4]|].
    intros a5 Hs5. apply Hdone'; [| rewrite (fr_v _ _ _ Hfr4); apply Hfr | exact Hx].
    apply calm_same; [exact Hp2 | exact Hs5 | | rewrite (fr_nzcv _ _ _ Hfr4); apply Hfr | rewrite (fr_mm _ _ _ Hfr4); apply Hfr].
    eapply safe_trans; [|apply (safe_frame _ _ _ _ [Wd]); [exact Hfr4 | auto]].
    apply (safe_mono (Wd :: in_use P rg) _ []); [auto | intros ? [] |]. apply (safe_keeps a2); [exact Hp2|].
    eapply keeps_taken; [apply Hacc | exact Hfr | apply Hacc].
Qed.

(** ** Arithmetic *)

Hypothesis (Hin : forall j, In j [0; 1; 2] -> input n j < 0 \/ In (input n j) J).
Hypothesis (Hroom : first_dying lu (fun _ => true) n i = None -> (length J < fpr_count cfg)%nat).

#[local] Abbreviation J1 := (claim (first_dying lu (fun _ => true) n i) J).
#[local] Abbreviation fmt := (f_of (fp_type n)).

(** The inputs of a single-precision operation are singles. *)
Definition typed (l : list Z) : Prop := forall j, In j l -> In (input n j) J /\ (fp_type n = 0 -> single (input n j) = true).

Lemma fp_type_01 : fp_type n = 0 \/ fp_type n = 1.
Proof. unfold fp_type. destruct (nz _); auto. Qed.

Lemma fmt_cases : fmt = f64 \/ fmt = f32.
Proof. destruct fp_type_01 as [-> | ->]; cbn; auto. Qed.

Lemma fmt_sem : (if nz (Z.land (flags n) kF32) then f32 else f64) = fmt.
Proof. unfold fp_type. destruct (nz _); reflexivity. Qed.

Lemma operand_value l j :
  typed l -> In j l ->
  gpr_or_zr (get rg (input n j)) /\ vr m (get rg (input n j)) = zget (vals e) (input n j) /\ in_fmt fmt (zget (vals e) (input n j)).
Proof.
  intros Ht Hj. destruct (Ht j Hj) as [HJ Hs].
  destruct (input_value _ _ _ _ _ _ (proj1 (proj2 H)) HJ) as (Hz & Hv & H64 & H32).
  split; [exact Hz|]. split; [exact Hv|]. destruct fp_type_01 as [E | E]; rewrite E; [exact (H32 (Hs E)) | exact H64].
Qed.

(** One instruction that writes the result. *)
Lemma wp_result_insn v (code : Z -> M unit) (Q : Regs -> asm -> machine -> Prop) :
  eval_node e n = add_val e v -> in_fmt fmt v -> (single i = true -> fp_type n = 0) ->
  (forall Dd a1 (R : unit -> asm -> machine -> Prop), gpr_or_zr Dd ->
     (forall a2, same_pools a1 a2 -> R tt a2 (putv m Dd v)) -> wp (code Dd) R a1 m) ->
  after (i :: J1) Q -> wp ('(Dd, s) <- result_fpr f n i rg ;; code Dd ;;; ret s) Q a m.
Proof.
  intros Ev Hv Hs Hcode HQ. rewrite Ev in HQ.
  eapply (wp_result_value e P J rg a m n i v (fun Dd s => code Dd ;;; ret s));
    [exact H | exact Ei | exact Hi | exact Hin | exact Hroom | exact (in_fmt_wide _ _ fmt_cases Hv) | | exact HQ |].
  - intros Hsi. rewrite (Hs Hsi) in Hv. exact (proj2 Hv).
  - intros rg1 Dd a1 Hr Hdone. apply wp_bind, Hcode; [apply fscratch_zr; apply Hr|].
    intros a2 Hsp. apply wp_ret, Hdone. split; [apply calm_putv; [exact (pool_of _ _ _ _ Hr) | exact Hsp] | reflexivity].
Qed.

Lemma wp_binary (Q : Regs -> asm -> machine -> Prop) :
  In (op n) [FAdd; FSub; FMul; FNMul; FDiv] -> typed [0; 1] -> (single i = true -> fp_type n = 0) ->
  after (i :: J1) Q -> wp (emit_binary f i n rg) Q a m.
Proof.
  intros Eo Ht Hs. destruct (operand_value _ 0 Ht) as (Z0 & V0 & F0); [cbn; auto|].
  destruct (operand_value _ 1 Ht) as (Z1 & V1 & F1); [cbn; auto|].
  set (x := zget (vals e) (input n 0)) in *. set (y := zget (vals e) (input n 1)) in *. pose proof fmt_cases as Hfc.
  assert (Ev : exists v k, eval_node e n = add_val e v /\ in_fmt fmt v /\ 0 <= k < 16 /\
    fp2 k fmt x y = Some v /\ k = match op n with FMul => 0 | FDiv => 1 | FAdd => 2 | FSub => 3 | _ => 8 end).
  { unfold X87IREval.eval_node, node_sem. rewrite Hdead, fmt_sem. cbn [In] in Eo.
    decompose [or] Eo; clear Eo; try contradiction; match goal with E : _ = op n |- _ => rewrite <- E end;
      (eexists; eexists; split; [reflexivity|]; split; [|split; [|split; [|reflexivity]]]; [|lia|reflexivity]);
      cbn [snd]; first [apply arith2_fmt; assumption | apply fnmul_fmt; assumption]. }
  destruct Ev as (v & k & Ev & Hv & Hk & E2 & Ek). intros HQ. unfold emit_binary. rewrite <- Ek.
  apply (wp_result_insn v (fun Dd => emit_fp_dp2 (fp_type n) k Dd _ _)); [exact Ev | exact Hv | exact Hs | | exact HQ].
  intros Dd a1 R HD HR. apply (r_fp2 R a1 m _ _ _ _ _ v); [exact fp_type_01 | exact Hk | exact HD | exact Z0 | exact Z1 | |].
  - rewrite V0, V1, !wrap_in_fmt by assumption. exact E2.
  - rewrite wrap_in_fmt by exact Hv. exact HR.
Qed.

Lemma wp_fma (Q : Regs -> asm -> machine -> Prop) :
  In (op n) [FMAdd; FMSub; FNMSub] -> typed [0; 1; 2] -> (single i = true -> fp_type n = 0) ->
  after (i :: J1) Q -> wp (emit_fma f i n rg) Q a m.
Proof.
  intros Eo Ht Hs. destruct (operand_value _ 0 Ht) as (Z0 & V0 & F0); [cbn; auto|].
  destruct (operand_value _ 1 Ht) as (Z1 & V1 & F1); [cbn; auto|].
  destruct (operand_value _ 2 Ht) as (Z2 & V2 & F2); [cbn; auto|].
  set (x := zget (vals e) (input n 0)) in *. set (y := zget (vals e) (input n 1)) in *.
  set (z := zget (vals e) (input n 2)) in *. pose proof fmt_cases as Hfc.
  assert (Ev : exists v o1 o0, eval_node e n = add_val e v /\ in_fmt fmt v /\ (o1 = 0 \/ o1 = 1) /\ (o0 = 0 \/ o0 = 1) /\
    fp3 (o1 =? 1) (o0 =? 1) fmt x y z = v /\
    o1 = match op n with FNMSub => 1 | _ => 0 end /\ o0 = match op n with FMAdd => 0 | _ => 1 end).
  { unfold X87IREval.eval_node, node_sem. rewrite Hdead, fmt_sem. cbn [In] in Eo.
    decompose [or] Eo; clear Eo; try contradiction; match goal with E : _ = op n |- _ => rewrite <- E end;
      (do 3 eexists; split; [reflexivity|]; split; [|split; [|split; [|split; [|split; reflexivity]]]]; [|lia|lia|reflexivity]);
      cbn [snd]; first [apply fma_fmt; assumption | apply fmsub_fmt; assumption | apply fnmsub_fmt; assumption]. }
  destruct Ev as (v & o1 & o0 & Ev & Hv & H1 & H0 & E3 & Eo1 & Eo0). intros HQ. unfold emit_fma. rewrite <- Eo1, <- Eo0.
  apply (wp_result_insn v (fun Dd => emit_fp_dp3 (fp_type n) o1 o0 Dd _ _ _)); [exact Ev | exact Hv | exact Hs | | exact HQ].
  intros Dd a1 R HD HR. apply r_fp3; [exact fp_type_01 | exact H1 | exact H0 | exact HD | exact Z0 | exact Z1 | exact Z2 |].
  rewrite V0, V1, V2. rewrite (wrap_in_fmt fmt x F0), (wrap_in_fmt fmt y F1), (wrap_in_fmt fmt z F2), E3, wrap_in_fmt by exact Hv. exact HR.
Qed.

Lemma wp_unary (Q : Regs -> asm -> machine -> Prop) :
  In (op n) [FNeg; FAbs; FSqrt] -> typed [0] -> (single i = true -> fp_type n = 0) ->
  after (i :: J1) Q -> wp (emit_unary f i n rg) Q a m.
Proof.
  intros Eo Ht Hs. destruct (operand_value _ 0 Ht) as (Z0 & V0 & F0); [cbn; auto|].
  set (x := zget (vals e) (input n 0)) in *. pose proof fmt_cases as Hfc.
  assert (Ev : exists v k, eval_node e n = add_val e v /\ in_fmt fmt v /\ (k = 1 \/ k = 2 \/ k = 3) /\
    fp1 k fmt x = Some v /\ k = match op n with FAbs => 1 | FNeg => 2 | _ => 3 end).
  { unfold X87IREval.eval_node, node_sem. rewrite Hdead, fmt_sem. cbn [In] in Eo.
    decompose [or] Eo; clear Eo; try contradiction; match goal with E : _ = op n |- _ => rewrite <- E end;
      (eexists; eexists; split; [reflexivity|]; split; [|split; [|split; [|reflexivity]]]; [|lia|reflexivity]);
      cbn [snd]; first [apply fneg_fmt; assumption | apply fabs_fmt; assumption | apply fsqrt_fmt; assumption]. }
  destruct Ev as (v & k & Ev & Hv & Hk & E1 & Ek). intros HQ. unfold emit_unary. rewrite <- Ek.
  apply (wp_result_insn v (fun Dd => emit_fp_dp1 (fp_type n) k Dd _)); [exact Ev | exact Hv | exact Hs | | exact HQ].
  intros Dd a1 R HD HR. apply (r_fp1 R a1 m _ _ _ _ v); [exact fp_type_01 | lia | lia | lia | exact HD | exact Z0 | |].
  - rewrite V0, wrap_in_fmt by assumption. exact E1.
  - rewrite wrap_in_fmt by exact Hv. exact HR.
Qed.

Lemma wp_cvt (Q : Regs -> asm -> machine -> Prop) :
  op n = CvtF32ToF64 \/ op n = CvtF64ToF32 -> In (input n 0) J -> (single i = true -> op n = CvtF64ToF32) ->
  after (i :: J1) Q -> wp (emit_cvt f i n rg) Q a m.
Proof.
  intros Eo HJ0 Hs HQ. destruct (input_value _ _ _ _ _ _ (proj1 (proj2 H)) HJ0) as (Hz & Hv & H64 & _).
  set (x := zget (vals e) (input n 0)) in *. unfold emit_cvt. pose proof (narrow_fmt x) as Hnf.
  set (v := match op n with CvtF32ToF64 => widen x | _ => narrow x end).
  assert (Ev : eval_node e n = add_val e v).
  { unfold X87IREval.eval_node, node_sem, v, x. rewrite Hdead. destruct Eo as [-> | ->]; reflexivity. }
  assert (Hv64 : in64 v).
  { unfold v. destruct Eo as [-> | ->]; [apply widen_range64|]. unfold in_fmt in Hnf. unfold in64. cbn in Hnf. lia. }
  rewrite Ev in HQ.
  eapply (wp_result_value e P J rg a m n i v (fun Dd s => _ ;;; ret s)); [exact H | exact Ei | exact Hi | exact Hin | exact Hroom | exact Hv64 | | exact HQ |].
  { intros Hsi. unfold v. rewrite (Hs Hsi). exact (proj2 Hnf). }
  intros rg1 Dd a1 Hr Hdone. cbv beta. apply wp_bind. pose proof (fscratch_zr _ (rd_scratch _ _ _ _ _ _ _ _ _ _ _ _ _ _ _ _ _ _ Hr)) as Hzd.
  assert (Hput : forall a', same_pools a1 a' -> wp (ret (set_fpr rg1 i Dd)) Q a' (putv m Dd v)).
  { intros a' Hsp. apply wp_ret, Hdone. split; [apply calm_putv; [exact (pool_of _ _ _ _ Hr) | exact Hsp] | reflexivity]. }
  unfold v in *. destruct Eo as [E | E]; rewrite E in *.
  - apply r_fcvt_s_to_d; [exact Hzd | exact Hz|]. rewrite Hv, widen_u32, in64_u64 by exact Hv64. exact Hput.
  - apply r_fcvt_d_to_s; [exact Hzd | exact Hz|]. rewrite Hv, (in64_u64 x) by exact H64.
    rewrite (wrap_small 32 (narrow x)) by exact Hnf. exact Hput.
Qed.

Lemma wp_fcsel (Q : Regs -> asm -> machine -> Prop) :
  op n = FCSel -> In (input n 0) J -> In (input n 1) J -> single i = false -> skip = false -> Wd_nzcv_saved rg < 0 ->
  after (i :: J1) Q -> wp (emit_fcsel f i n rg) Q a m.
Proof.
  intros Eo HJ0 HJ1 Hs Hskip Hsv HQ.
  destruct (input_value _ _ _ _ _ _ (proj1 (proj2 H)) HJ0) as (Z0 & V0 & F0 & _).
  destruct (input_value _ _ _ _ _ _ (proj1 (proj2 H)) HJ1) as (Z1 & V1 & F1 & _).
  pose proof (mr_nzcv _ _ _ _ _ _ _ _ _ _ _ _ _ (proj1 H)) as Hnz. rewrite Hskip in Hnz.
  replace (0 <=? Wd_nzcv_saved rg) with false in Hnz by (symmetry; apply Z.leb_gt, Hsv).
  set (v := if a64_cond (Z.land (imm_bits n) 0xF) (i_nzcv e) then zget (vals e) (input n 1) else zget (vals e) (input n 0)).
  assert (Ev : eval_node e n = add_val e v).
  { unfold X87IREval.eval_node, node_sem, v. rewrite Hdead, Eo. reflexivity. }
  assert (Hv64 : in64 v) by (unfold v; destruct (a64_cond _ _); assumption).
  rewrite Ev in HQ. unfold emit_fcsel.
  eapply (wp_result_value e P J rg a m n i v (fun Dd s => _ ;;; ret s)); [exact H | exact Ei | exact Hi | exact Hin | exact Hroom | exact Hv64 | congruence | exact HQ |].
  intros rg1 Dd a1 Hr Hdone. cbv beta. apply wp_bind.
  apply r_fcsel; [apply fscratch_zr; apply Hr | exact Z1 | exact Z0 | apply (land_bound _ 0xF 4); lia|].
  intros a2 Hsp. apply wp_ret, Hdone. split; [apply calm_putv; [exact (pool_of _ _ _ _ Hr) | exact Hsp]|].
  intros q. unfold putv. cbn [vr set_vr]. rewrite V0, V1, Hnz, (in64_u64 _ F0), (in64_u64 _ F1). fold v.
  rewrite (in64_u64 v Hv64). reflexivity.
Qed.

(** [ready], the rounding control having been read. *)
Lemma ready_rc rg1 Dd a1 a2 J' m' :
  ready e P J' rg1 Dd a1 m -> same_pools a1 a2 -> machine_rel e P (set_rc_valid rg1 true) m' -> vr m' = vr m ->
  ready e P J' (set_rc_valid rg1 true) Dd a2 m'.
Proof.
  intros [] Hs Hm Hv. constructor; auto.
  - destruct (fprs_vr _ _ _ _ _ _ _ m' rd_fprs Hv). constructor; assumption.
  - destruct rd_pools. constructor; auto; [exact (gpool_same _ _ _ Hs pr_gpool) | exact (fpool_mask _ _ _ _ (proj2 Hs) pr_fpool)].
Qed.

(** FRINT, in the mode of the control word. *)
#[local] Abbreviation rounded x := (round_integral (X87Runtime.rc_mode (i_cw e)) f64 x).

Lemma wp_frint rc Dd x a2 m2 (R : unit -> asm -> machine -> Prop) :
  In (input n 0) J -> x = zget (vals e) (input n 0) -> gpr rc -> xr m2 rc = rc_of (i_cw e) -> vr m2 = vr m -> gpr_or_zr Dd ->
  (forall a3, same_pools a2 a3 -> R tt a3 (putv m2 Dd (rounded x))) ->
  wp (emit_x87_rc_dispatch_frint rc Dd (get rg (input n 0))) R a2 m2.
Proof.
  intros HJ0 -> Hg Hrc Hv2 Hzd HR. destruct (input_value _ _ _ _ _ _ (proj1 (proj2 H)) HJ0) as (Hz & Hv & H64 & _).
  apply (wp_rc_dispatch_frint (i_cw e)); [exact Hg | exact Hrc | exact Hzd | exact Hz|].
  rewrite Hv2, Hv, (in64_u64 _ H64), in64_u64 by (apply round_integral_range64, H64). exact HR.
Qed.

Lemma wp_frndint_code rg1 Dd a1 x (R : Regs -> asm -> machine -> Prop) :
  In (input n 0) J -> x = zget (vals e) (input n 0) -> fast_round cfg = false \/ rc_of (i_cw e) = 0 ->
  ready e P J1 rg1 Dd a1 m -> (Wd_rc_cached f < 0 -> (length (in_use P rg1) < 8)%nat) ->
  (forall rg2 a2 m2 a3 m3, ready e P J1 rg2 Dd a2 m2 -> Wd_nzcv_saved rg2 = Wd_nzcv_saved rg1 ->
     computes e P rg2 Dd (rounded x) a2 m2 a3 m3 -> R (set_fpr rg2 i Dd) a3 m3) ->
  wp (if fast_round cfg then emit_fp_dp1 1 8 Dd (get rg (input n 0)) ;;; ret (set_fpr rg1 i Dd)
      else if 0 <=? Wd_rc_cached f then
        s <- load_rc f (set_fpr rg1 i Dd) ;;
        emit_x87_rc_dispatch_frint (Wd_rc_cached f) Dd (get rg (input n 0)) ;;;
        ret s
      else
        Wd_rc <- alloc_free_gpr ;;
        emit_rc_preamble (Xbase f) Wd_rc ;;;
        emit_x87_rc_dispatch_frint Wd_rc Dd (get rg (input n 0)) ;;;
        free_gpr Wd_rc ;;;
        ret (set_fpr rg1 i Dd)) R a1 m.
Proof.
  intros HJ0 Ex Hfast Hr HU Hdone. destruct (input_value _ _ _ _ _ _ (proj1 (proj2 H)) HJ0) as (Hz & Hv & H64 & _).
  rewrite <- Ex in Hv, H64.
  assert (Hv64 : in64 (rounded x)) by (apply round_integral_range64, H64).
  pose proof (rd_machine _ _ _ _ _ _ _ _ _ _ _ _ _ _ _ _ _ _ Hr) as Hm. pose proof (pool_of _ _ _ _ Hr) as Hp.
  pose proof (fscratch_zr _ (rd_scratch _ _ _ _ _ _ _ _ _ _ _ _ _ _ _ _ _ _ Hr)) as Hzd.
  destruct (fast_round cfg); [|destruct (0 <=? Wd_rc_cached f) eqn:Erc].
  - apply wp_bind. destruct Hfast as [|Hrc]; [discriminate|].
    assert (Erne : round_integral RNE f64 x = rounded x) by (rewrite rc_mode_rc, Hrc; reflexivity).
    apply (r_fp1 _ a1 m 1 8 Dd _ (rounded x)); [auto | lia | lia | lia | exact Hzd | exact Hz | |].
    + cbn [f_of Z.eqb Pos.eqb]. rewrite Hv, wrap_in_fmt by exact H64. cbn [fp1]. rewrite Erne. reflexivity.
    + intros a2 Hsp. apply wp_ret. eapply Hdone; [exact Hr | reflexivity|]. split; [apply calm_putv; [exact Hp | exact Hsp]|].
      intros q. change (wrap (F64.size (f_of 1)) (rounded x)) with (u64 (rounded x)). rewrite in64_u64 by exact Hv64. reflexivity.
  - apply Z.leb_le in Erc. apply wp_bind.
    apply (wp_load_rc e P rg1 (Dd :: map (zget (node_fpr rg1)) J1) a1); [exact Hm | apply Hr | exact Erc | reflexivity|].
    intros a2 m2 Hs2 Hm2 Hfr2 Hrc2. pose proof (ready_rc _ _ _ _ _ _ Hr Hs2 Hm2 (fr_v _ _ _ Hfr2)) as Hr2.
    apply wp_bind, (wp_frint _ Dd x); [exact HJ0 | exact Ex | | exact Hrc2 | apply Hfr2 | exact Hzd |].
    { apply (pinned_gpr T0 f pinned Hf), rc_pinned, Erc. }
    intros a3 Hs3. apply wp_ret, (Hdone (set_rc_valid rg1 true) a2 m2); [exact Hr2 | reflexivity|].
    split; [apply calm_putv; [exact (gpool_same _ _ _ Hs2 Hp) | exact Hs3] | reflexivity].
  - apply Z.leb_gt in Erc. apply wp_bind, (wp_galloc (in_use P rg1)); [exact Hp | exact (HU Erc)|]. intros Wd a2 Hsc Hni Hp2 Hm2.
    assert (Hg : gpr Wd) by (apply scratch_gpr', Hsc).
    apply wp_bind, (wp_rc_preamble e P rg1); [exact Hm | exact Hg | intros ->; apply Hni, pinned_in_use, (fk_xb _ _ _ Hf) |].
    intros a3 m3 Hs3 Hfr3 Hrc3. apply wp_bind, (wp_frint Wd Dd x); [exact HJ0 | exact Ex | exact Hg | exact Hrc3 | apply Hfr3 | exact Hzd |].
    intros a4 Hs4. apply wp_bind, (wp_gfree Wd (in_use P rg1));
      [apply (gpool_same a3), (gpool_same a2); assumption | exact Hsc | exact Hni |].
    intros a5 Hp5 Hm5. apply wp_ret, (Hdone rg1 a1 m); [exact Hr | reflexivity|]. split.
    + constructor; [exact Hp5 | rewrite Hm5, (proj2 Hs4), (proj2 Hs3); exact Hm2 | | apply Hfr3 | apply Hfr3].
      apply (safe_only _ _ _ _ [Wd]); [exact (fr_x _ _ _ Hfr3) | intros q [<- | []]; auto].
    + intros q. unfold putv. cbn [vr set_vr]. rewrite (fr_v _ _ _ Hfr3). reflexivity.
Qed.

Lemma wp_frndint (Q : Regs -> asm -> machine -> Prop) :
  op n = FRndInt -> In (input n 0) J -> single i = false ->
  fast_round cfg = false \/ rc_of (i_cw e) = 0 -> (Wd_rc_cached f < 0 -> (length (in_use P rg) < 8)%nat) ->
  after (i :: J1) Q -> wp (emit_frndint cfg f i n rg) Q a m.
Proof.
  intros Eo HJ0 Hs Hfast HU HQ. destruct (input_value _ _ _ _ _ _ (proj1 (proj2 H)) HJ0) as (_ & _ & H64 & _).
  set (x := zget (vals e) (input n 0)) in *.
  assert (Ev : eval_node e n = add_val e (rounded x)) by (unfold X87IREval.eval_node, node_sem; rewrite Hdead, Eo; reflexivity).
  rewrite Ev in HQ. unfold emit_frndint.
  apply wp_bind. pose proof (first_dying_inputs e P J rg m n i (proj1 (proj2 H)) Hin) as Ew.
  apply (wp_result_fpr cfg segbase b T0 Tmem x0 m0 f pinned skip single e P J rg); [exact H | exact Hin | rewrite Ew; exact Hroom |].
  rewrite Ew. intros rg1 Dd a1 Hr Hsaved.
  apply (wp_frndint_code rg1 Dd a1 x); [exact HJ0 | reflexivity | exact Hfast | exact Hr | |].
  - rewrite (in_use_saved pinned P rg rg1 Hsaved). exact HU.
  - intros rg2 a2 m2 a3 m3 Hr2 Hs2 [[] Hc]. apply HQ; [|cbn; congruence].
    eapply value_done; try eassumption; [apply round_integral_range64, H64 | congruence].
Qed.
End Node.
End Values.
