(* ===== verification/LowerEffects.v ===== *)
(** The code of the nodes that have an effect: stores, compares, the control
    and status words, and the guest's own moves.  Each leaves the memory, the
    registers and the words the node's semantics gives. *)

From S2P Require Import Prelude F64 GuestMem X87State X87Props F64Props F32Props Emit Assembler A64 EmitDecode IROperand X87IR Fpu X87IREval A64Exec CodeExec.
From S2P Require Import TranslatorHelpers Pools InsnRules AccessProps X87Helpers X87Cache X87IRPlan X87IRLower.
From S2P Require Import X87Memory AccessProps X87HelpersProps X87IRWf LowerRel LowerValues.
From S2P Require X87Runtime CompareProps.

#[local] Hint Resolve scratch_gpr' : regs.

Section Effects.
Context (cfg : RosettaConfig) (tgt : Target) (segbase : Z -> Z) (b T0 Tmem : Z) (x0 : X87State) (m0 : machine).
Context (f : Frame) (pinned : list Z) (skip : bool) (single : Z -> bool) (stack0 : list (option Z)).
Hypothesis (Hf : frame_ok T0 f pinned).
Hypothesis (Hreps : forall k, In k (f_bases f) -> addr_operand_base_cacheable (b_rep k) = true).

#[local] Abbreviation machine_rel := (machine_rel cfg segbase b T0 Tmem x0 m0 f skip).
#[local] Abbreviation fprs_rel := (fprs_rel cfg single).
#[local] Abbreviation Rel := (Rel cfg segbase b T0 Tmem x0 m0 f pinned skip single).
#[local] Abbreviation in_use := (in_use pinned).
#[local] Abbreviation eval_node := (eval_node segbase stack0 T0).
#[local] Abbreviation access_ok := (access_ok segbase b).
#[local] Abbreviation bases_at := (bases_at cfg segbase b T0 Tmem x0 m0 f pinned skip Hf Hreps).

(** ** The status word written *)

Lemma machine_write_sw e P rg rg' V a m m' w :
  machine_rel e P rg m -> pools_rel cfg pinned P rg V a -> safe (in_use P rg) [Wd_tmp f] m m' ->
  nzcv m' = nzcv m -> vr m' = vr m -> outside b (mm m) (mm m') -> 0 <= w < 2 ^ 16 ->
  x87_at (mm m') b = mkX87 (i_cw e) (status_word w Tmem) (tagWord x0) (X87State.st x0) ->
  Wd_nzcv_saved rg' = Wd_nzcv_saved rg -> rc_cache_valid rg' = rc_cache_valid rg ->
  machine_rel (ir_sw e w) None rg' m'.
Proof.
  intros Hm Hp Hk Hn Hv Ho Hw Hx Es Erc.
  assert (Hq : machine_rel e P rg (set_mm m' (mm m))).
  { apply (machine_quiet cfg segbase b T0 Tmem x0 m0 f pinned skip Hf e P rg V a m _ Hm Hp); auto; [|apply Hm].
    intros. cbn [vr set_mm]. rewrite Hv. reflexivity. }
  pose proof (agree_outside b (mm m) (mm m') (i_mem e) Ho (mr_mem _ _ _ _ _ _ _ _ _ _ _ _ _ Hm)) as Ha.
  destruct Hq. constructor; auto; cbn [i_sw i_cw i_regs i_mem i_nzcv ir_sw memory_sw] in *; rewrite ?Erc, ?Es; auto.
Qed.

(** The pools once the pending compare's register is free. *)
Lemma pools_none P rg rg' V a a' :
  pools_rel cfg pinned P rg V a -> Wd_nzcv_saved rg' = Wd_nzcv_saved rg -> free_fpr_mask a' = free_fpr_mask a ->
  gpool a' (in_use None rg') -> pools_rel cfg pinned None rg' V a'.
Proof.
  intros [] Es Hm Hp.
  assert (E : exists l, in_use P rg = l ++ in_use None rg' /\ held P rg = l ++ held None rg').
  { unfold LowerRel.in_use, held. rewrite Es. destruct P as [[[id w] c]|]; [|exists []; auto].
    exists [zget (node_fpr rg) id]. auto. }
  destruct E as (l & Eu & Eh). constructor; [exact Hp | | | exact (fpool_mask _ _ _ _ Hm pr_fpool)].
  - rewrite Eu in pr_nodup. apply NoDup_app_remove_l in pr_nodup. exact pr_nodup.
  - intros r Hr. apply pr_held. rewrite Eh. apply in_or_app. right. exact Hr.
Qed.

Section Node.
Context (e : ir) (P : pending) (J : list Z) (rg : Regs) (a : asm) (m : machine) (i : Z) (n : Node).
Hypothesis (H : Rel e P J rg a m) (Hdead : dead n = false).

#[local] Abbreviation v := (snd (node_sem segbase stack0 T0 e (fun j => zget (vals e) (input n j)) n)).
#[local] Abbreviation adr := (addr segbase (i_regs e) (mem_operand n)).
#[local] Abbreviation after Q :=
  (forall rg' a' m', Rel (eval_node e n) P J rg' a' m' -> Wd_nzcv_saved rg' = Wd_nzcv_saved rg -> Q rg' a' m').

Lemma pool_rel : gpool a (in_use P rg).
Proof. apply H. Qed.

(** ** Stores of doubles and singles *)

Lemma wp_store_fp size (Q : Regs -> asm -> machine -> Prop) :
  op n = (if size =? 3 then StoreF64 else StoreF32Raw) -> size = 2 \/ size = 3 ->
  access_ok e n (Z.to_nat (2 ^ size)) = true -> zget (fst (f_pairs f)) i < 0 ->
  In (input n 0) J -> (length (in_use P rg) < 8)%nat -> after Q -> wp (emit_store_fp cfg tgt f i n size rg) Q a m.
Proof.
  intros Eo Hsz Ha Hpair HJ0 HU HQ. unfold emit_store_fp.
  destruct (input_value _ _ _ _ _ _ _ _ (proj1 (proj2 H)) HJ0) as (Hz & Hv & _ & _).
  set (x := zget (vals e) (input n 0)) in *. pose proof (access_okE _ _ _ _ _ Ha) as (Ho & Hfold & Hap).
  assert (Ev : eval_node e n = add_val (ir_mem e (store (Z.to_nat (2 ^ size)) (i_mem e) adr x)) 0).
  { unfold X87IREval.eval_node, node_sem. rewrite Hdead, Eo. destruct Hsz as [-> | ->]; reflexivity. }
  rewrite Ev in HQ. replace (0 <=? zget (fst (f_pairs f)) i) with false by (symmetry; apply Z.leb_gt, Hpair).
  apply wp_bind, (wp_fp_access_store tgt segbase f (i_regs e) (in_use P rg));
    [apply H | exact (bases_at _ _ _ _ (proj1 H)) | exact Ho | exact Hfold | exact pool_rel | exact HU | lia | exact Hz|].
  intros a' m' Hsp Hs Hvr Hn Hmm. apply wp_ret, HQ; [|reflexivity]. apply no_value.
  eapply (store_done cfg segbase b T0 Tmem x0 m0 f pinned skip single Hf e P J rg a m a' m');
    [exact H | exact (gpool_same _ _ _ Hsp pool_rel) | apply Hsp | eapply safe_mono; [| |exact Hs]; [auto | intros ? []]
    | exact Hn | exact Hvr | exact Hmm | rewrite Hv; reflexivity | exact Hap].
Qed.

(** ** Stores of integers *)

(** A register outside the pool's list, changed on the way. *)
Lemma rel_scratch w m' :
  scratch w = true -> ~ In w (in_use P rg) -> frame [w] m m' \/ frame [w; Wd_tmp f] m m' -> Rel e P J rg a m'.
Proof.
  intros Hs Hn Hfr.
  assert (F : (forall r, ~ In r [w; Wd_tmp f] -> xr m' r = xr m r) /\ vr m' = vr m /\ nzcv m' = nzcv m /\ mm m' = mm m).
  { destruct Hfr as [[]|[]]; repeat split; auto. intros r Hr. apply fr_x. intros [<- | []]. apply Hr. left. reflexivity. }
  destruct F as (Fx & Fv & Fn & Fm).
  apply (quiet_done cfg segbase b T0 Tmem x0 m0 f pinned skip single Hf e P J rg a m a m'); auto; [exact pool_rel|].
  apply (safe_only _ _ _ _ [w; Wd_tmp f]); [exact Fx|]. intros r [<- | [<- | []]]; [right; auto | left; left; reflexivity].
Qed.

#[local] Abbreviation mode := (if nz (Z.land (flags n) kTruncate) then RZero else X87Runtime.rc_mode (i_cw e)).
#[local] Abbreviation int_of sf := (wrap (w_of (nz sf)) (fcvt_int mode (w_of (nz sf)) f64 (zget (vals e) (input n 0)))).

(** The conversion: an integer in [Wd], the state otherwise the same. *)
Lemma wp_to_int sf Wd a2 (Q : Regs -> asm -> machine -> Prop) :
  sf = 0 \/ sf = 1 -> In (input n 0) J -> scratch Wd = true -> ~ In Wd (in_use P rg) -> gpool a2 (Wd :: in_use P rg) ->
  fast_round cfg = false \/ rc_of (i_cw e) = 0 \/ nz (Z.land (flags n) kTruncate) = true ->
  (0 <= Wd_rc_cached f -> fast_round cfg = false) ->
  (forall rg' a' m', Rel e P J rg' a m' -> Wd_nzcv_saved rg' = Wd_nzcv_saved rg -> in_use P rg' = in_use P rg ->
     same_pools a2 a' -> xr m' Wd = int_of sf -> Q rg' a' m') ->
  wp (if nz (Z.land (flags n) kTruncate) then
        emit_fcvt_fp_to_int sf 1 3 Wd (get rg (input n 0)) ;;; ret rg
      else if 0 <=? Wd_rc_cached f then
        s <- load_rc f rg ;;
        emit_x87_rc_dispatch_fcvt (Wd_rc_cached f) Wd (get rg (input n 0)) sf ;;;
        ret s
      else emit_rcmode_dispatch cfg Wd (get rg (input n 0)) sf (Xbase f) (Wd_tmp f) ;;; ret rg) Q a2 m.
Proof.
  intros Hsf HJ0 Hsc Hni Hp2 Hfast Hrcf HQ.
  destruct (input_value _ _ _ _ _ _ _ _ (proj1 (proj2 H)) HJ0) as (Hz & Hv & H64 & _).
  assert (Hg : gpr Wd) by (apply scratch_gpr', Hsc).
  assert (Hput : forall x, frame [Wd] m (put m Wd x)).
  { intros x. split; try reflexivity. intros q Hq. apply set_reg_ne. intros ->. apply Hq. left. reflexivity. }
  assert (Hconv : forall md rm, md = rmode_of rm -> 0 <= rm < 4 -> md = mode ->
    wp (emit_fcvt_fp_to_int sf 1 rm Wd (get rg (input n 0)) ;;; ret rg) Q a2 m).
  { intros md rm Emd Hrm Em. apply wp_bind, r_fcvt_int; [exact Hsf | exact Hrm | exact Hg | exact Hz|].
    intros a3 Hs3. apply wp_ret, HQ; [| reflexivity | reflexivity | exact Hs3 |].
    - apply (rel_scratch Wd); auto.
    - unfold put. cbn [xr set_xr]. rewrite set_reg_eq, Hv, in64_u64 by exact H64. rewrite <- Emd, Em. reflexivity. }
  destruct (nz (Z.land (flags n) kTruncate)) eqn:Et; [apply (Hconv RZero 3); [reflexivity | lia | reflexivity]|].
  destruct (0 <=? Wd_rc_cached f) eqn:Erc.
  - apply Z.leb_le in Erc. apply wp_bind.
    apply (wp_load_rc cfg segbase b T0 Tmem x0 m0 f pinned skip Hf e P rg (map (zget (node_fpr rg)) J) a); [apply H | apply H | exact Erc | reflexivity|].
    intros a3 m3 Hs3 Hm3 Hfr3 Hrc3. pose proof (rc_pinned T0 f pinned Hf Erc) as Hpin.
    assert (H3 : Rel e P J (set_rc_valid rg true) a m3).
    { split; [exact Hm3|]. destruct H as (_ & Hr & Hp). split.
      - destruct (fprs_vr _ _ _ _ _ _ _ m3 Hr (fr_v _ _ _ Hfr3)). constructor; assumption.
      - destruct Hp. constructor; assumption. }
    apply wp_bind, (wp_rc_dispatch_fcvt (i_cw e)); [apply (pinned_gpr T0 f pinned Hf), Hpin | exact Hrc3 | exact Hg | exact Hz | exact Hsf | |].
    { intros ->. apply Hni, pinned_in_use, Hpin. }
    intros a4 m4 Hs4 [Hw Hfr4]. apply wp_ret, HQ; [| reflexivity | reflexivity | eapply same_pools_trans; eassumption |].
    + apply (quiet_done cfg segbase b T0 Tmem x0 m0 f pinned skip single Hf e P J _ a m3 a m4); try apply Hfr4; auto; [exact pool_rel|].
      apply (safe_frame _ _ _ _ [Wd]); [exact Hfr4 | intros r [<- | []]; auto].
    + rewrite Hw, (fr_v _ _ _ Hfr3), Hv, in64_u64 by exact H64. reflexivity.
  - unfold emit_rcmode_dispatch. destruct (fast_round cfg) eqn:Efast.
    + apply (Hconv RNE 0); [reflexivity | lia|]. destruct Hfast as [|[Hrc|]]; [discriminate | | discriminate].
      rewrite rc_mode_rc, Hrc. reflexivity.
    + pose proof (fk_tmp _ _ _ Hf) as Hpt. destruct (tmp_ne T0 f pinned Hf) as (N1 & _).
      apply wp_bind, wp_bind, (wp_rc_preamble cfg segbase b T0 Tmem x0 m0 f skip e P rg);
        [apply H | apply (pinned_gpr T0 f pinned Hf), Hpt | exact N1 |].
      intros a3 m3 Hs3 Hfr3 Hrc3.
      apply (wp_rc_dispatch_fcvt (i_cw e)); [apply (pinned_gpr T0 f pinned Hf), Hpt | exact Hrc3 | exact Hg | exact Hz | exact Hsf | |].
      { intros ->. apply Hni, pinned_in_use, Hpt. }
      intros a4 m4 Hs4 [Hw Hfr4]. apply wp_ret, HQ; [| reflexivity | reflexivity | eapply same_pools_trans; eassumption |].
      * apply (rel_scratch Wd); [exact Hsc | exact Hni | right].
        eapply frame_trans; [eapply frame_mono; [exact Hfr3|] | eapply frame_mono; [exact Hfr4|]]; cbn; tauto.
      * rewrite Hw, (fr_v _ _ _ Hfr3), Hv, in64_u64 by exact H64. reflexivity.
Qed.

Lemma wp_store_int (Q : Regs -> asm -> machine -> Prop) :
  In (op n) [StoreI16; StoreI32; StoreI64] ->
  access_ok e n (match op n with StoreI16 => 2 | StoreI32 => 4 | _ => 8 end) = true ->
  In (input n 0) J -> (length (in_use P rg) < 7)%nat ->
  fast_round cfg = false \/ rc_of (i_cw e) = 0 \/ nz (Z.land (flags n) kTruncate) = true ->
  (0 <= Wd_rc_cached f -> fast_round cfg = false) ->
  after Q -> wp (emit_store_int cfg tgt f i n rg) Q a m.
Proof.
  intros Eo Ha HJ0 HU Hfast Hrcf HQ. pose proof (access_okE _ _ _ _ _ Ha) as (Ho & Hfold & Hap).
  set (sf := match op n with StoreI64 => 1 | _ => 0 end).
  set (size := match op n with StoreI16 => 1 | StoreI32 => 2 | _ => 3 end).
  assert (Hsf : sf = 0 \/ sf = 1) by (unfold sf; destruct (op n); auto).
  assert (Hsz : 0 <= size <= 3) by (unfold size; destruct (op n); lia).
  set (k := Z.to_nat (2 ^ size)). set (x := zget (vals e) (input n 0)).
  assert (Hk : 8 * Z.of_nat k <= w_of (nz sf) /\ k = match op n with StoreI16 => 2 | StoreI32 => 4 | _ => 8 end%nat).
  { unfold k, size, sf. cbn [In] in Eo. decompose [or] Eo; clear Eo; try contradiction;
      match goal with E : _ = op n |- _ => rewrite <- E end; cbv; split; congruence. }
  destruct Hk as [Hk Ek]. rewrite <- Ek in Hap.
  assert (Ev : eval_node e n = add_val (ir_mem e (store k (i_mem e) adr (fcvt_int mode (w_of (nz sf)) f64 x))) 0).
  { unfold X87IREval.eval_node, node_sem, k, size, sf, x. rewrite Hdead. cbn [In] in Eo. decompose [or] Eo; clear Eo; try contradiction;
      match goal with E : _ = op n |- _ => rewrite <- E end; reflexivity. }
  rewrite Ev in HQ. unfold emit_store_int. cbv zeta. fold sf size.
  apply wp_bind, (wp_galloc (in_use P rg)); [exact pool_rel | lia|]. intros Wd a2 Hsc Hni Hp2 Hm2.
  apply wp_bind, (wp_to_int sf Wd a2); try assumption.
  intros rg3 a3 m3 H3 Hsaved Eu Hs3 Hw3.
  assert (Hp3 : gpool a3 (Wd :: in_use P rg)) by exact (gpool_same _ _ _ Hs3 Hp2).
  apply wp_bind, (wp_gpr_access_store cfg tgt segbase f (i_regs e) (Wd :: in_use P rg));
    [apply H3 | exact (bases_at _ _ _ _ (proj1 H3)) | exact Ho | exact Hfold | exact Hp3 | cbn; lia | exact Hsz
    | apply gpr_zr, scratch_gpr', Hsc | right; right; left; reflexivity |].
  intros a4 m4 Hs4 Hk4 Hv4 Hn4 Hm4. apply wp_bind.
  apply (wp_gfree Wd (in_use P rg)); [exact (gpool_same _ _ _ Hs4 Hp3) | exact Hsc | exact Hni|].
  intros a5 Hp5 Hm5. apply wp_ret, HQ; [|exact Hsaved]. apply no_value.
  eapply (store_done cfg segbase b T0 Tmem x0 m0 f pinned skip single Hf e P J rg3 a m3 a5 m4);
    [exact H3 | rewrite Eu; exact Hp5 | rewrite Hm5, (proj2 Hs4), (proj2 Hs3); exact Hm2 | | exact Hn4 | exact Hv4 | exact Hm4 | | exact Hap].
  - rewrite Eu. apply (safe_mono (in_use P rg) _ []); [auto | intros ? [] |].
    apply (safe_drop _ _ Wd); [exact Hsc | exact Hni |]. eapply safe_mono; [| |exact Hk4]; [auto | intros ? []].
  - rewrite (rd_zr_gpr true m3) by (apply scratch_gpr', Hsc). rewrite Hw3. fold x.
    assert (w_of (nz sf) <= w_of true) by (destruct (nz sf); cbn; lia).
    rewrite !wrap_le by lia. reflexivity.
Qed.

End Node.

(** ** Compares *)

Section Compare.
Context (e : ir) (J : list Z) (rg : Regs) (a : asm) (m : machine) (i : Z) (n : Node).
Hypothesis (H : Rel e None J rg a m) (Hdead : dead n = false).


Definition wp_compares (cmp : M unit) (c : option comparison) : Prop :=
  forall a1 m1 (R : unit -> asm -> machine -> Prop), vr m1 = vr m ->
    (forall a2, same_pools a1 a2 -> R tt a2 (set_nzcv m1 (Z.lor (bits (nzcv m1) 0 28) (fp_flags c)))) -> wp cmp R a1 m1.

(** The codes of outcome [c] are in [Wd], the state otherwise the same; [ar]
    is the translator's state without that register. *)
Record packed (c : option comparison) (rg1 : Regs) (Wd : Z) (a1 : asm) (m1 : machine) : Prop := mkPacked {
  pk_scratch : scratch Wd = true;
  pk_fresh : ~ In Wd (in_use None rg1);
  pk_pool : gpool a1 (Wd :: in_use None rg1);
  pk_rel : exists ar, Rel e None J rg1 ar m1 /\ free_fpr_mask a1 = free_fpr_mask ar;
  pk_val : xr m1 Wd = CompareProps.cc_bits c
}.

(** The state while NZCV holds a comparison. *)
Lemma rel_set_nzcv rg1 a1 m1 x :
  Rel e None J rg1 a1 m1 -> skip = true \/ 0 <= Wd_nzcv_saved rg1 -> Rel e None J rg1 a1 (set_nzcv m1 x).
Proof.
  intros (Hm & Hr & Hp) Hor. split; [|split; [|exact Hp]].
  - destruct Hm. constructor; auto. cbn [xr nzcv set_nzcv]. destruct skip; [exact I|].
    destruct Hor as [|Hs]; [discriminate|]. replace (0 <=? Wd_nzcv_saved rg1) with true in * by (symmetry; apply Z.leb_le, Hs).
    exact mr_nzcv.
  - apply (fprs_vr _ _ _ _ _ _ m1); [exact Hr | reflexivity].
Qed.

Lemma wp_cmp_skip rg1 a1 m1 cmp c (k : Z -> M (Z * Regs)) (Q : Z * Regs -> asm -> machine -> Prop) :
  Rel e None J rg1 a1 m1 -> vr m1 = vr m -> skip = true \/ 0 <= Wd_nzcv_saved rg1 ->
  wp_compares cmp c -> (length (in_use None rg1) < 6)%nat ->
  (forall Wd a2 m2, packed c rg1 Wd a2 m2 -> wp (k Wd) Q a2 m2) ->
  wp (cmp ;;; Wd_packed <- alloc_free_gpr ;; emit_fcom_cc_pack_hoisted Wd_packed ;;; k Wd_packed) Q a1 m1.
Proof.
  intros H1 Hv1 Hor Hcmp HU HQ. apply wp_bind, Hcmp; [exact Hv1|]. intros a2 Hs2.
  pose proof (rel_set_nzcv rg1 a1 m1 (Z.lor (bits (nzcv m1) 0 28) (fp_flags c)) H1 Hor) as H2.
  set (m2 := set_nzcv m1 _) in *.
  assert (Hp2 : gpool a2 (in_use None rg1)) by (apply (gpool_same a1); [exact Hs2 | apply H1]).
  apply wp_bind, (wp_galloc (in_use None rg1)); [exact Hp2 | lia|]. intros Wd a3 Hsc Hni Hp3 Hm3.
  apply wp_bind, (wp_cc_pack_hoisted c Wd (Wd :: in_use None rg1));
    [exact Hp3 | cbn [length]; lia | apply scratch_gpr', Hsc | left; reflexivity | exists (nzcv m1); reflexivity |].
  intros a4 m4 Hp4 Hm4 Hk4 Hv4 Hmm4 Hn4 Hw4. apply HQ. constructor; [exact Hsc | exact Hni | exact Hp4 | | exact Hw4].
  exists a1. split; [|rewrite Hm4, Hm3; apply Hs2].
  apply (quiet_done cfg segbase b T0 Tmem x0 m0 f pinned skip single Hf e None J rg1 a1 m2 a1 m4); auto; [apply H1|].
  apply (safe_mono (in_use None rg1) _ []); [auto | intros ? [] |].
  apply (safe_drop _ _ Wd); [exact Hsc | exact Hni | apply safe_kept, Hk4].
Qed.

Lemma nzcv_word x : Z.land x 0xFC000000 = x -> 0 <= x < 2 ^ 32.
Proof. intros <-. apply (land_bound x 0xFC000000 32); lia. Qed.

(** NZCV saved in a register for the compares to come. *)
Lemma wp_save_nzcv (Q : Regs -> asm -> machine -> Prop) :
  skip = false -> Wd_nzcv_saved rg < 0 -> (length pinned < 8)%nat ->
  (forall w a1 m1, Rel e None J (set_saved rg w) a1 m1 -> 0 <= w -> vr m1 = vr m -> Q (set_saved rg w) a1 m1) ->
  wp (Wd_nzcv_saved <- alloc_free_gpr ;; emit_mrs_nzcv Wd_nzcv_saved ;;; ret (set_saved rg Wd_nzcv_saved)) Q a m.
Proof.
  intros Hskip Hsv HU HQ. destruct H as (Hm & Hr & Hp).
  assert (Eu : in_use None rg = pinned).
  { unfold LowerRel.in_use, held. replace (0 <=? Wd_nzcv_saved rg) with false by (symmetry; apply Z.leb_gt, Hsv). reflexivity. }
  apply wp_bind, (wp_galloc (in_use None rg)); [apply Hp | rewrite Eu; exact HU|]. intros w a1 Hsc Hni Hp1 Hm1.
  pose proof (scratch_gpr _ Hsc) as Hw. apply wp_bind, r_mrs; [unfold gpr; lia|]. intros a2 Hs2.
  assert (H0 : 0 <= w) by lia. apply wp_ret, HQ; [|exact H0 | reflexivity].
  assert (Eu2 : in_use None (set_saved rg w) = w :: in_use None rg).
  { rewrite Eu. unfold LowerRel.in_use, held. cbn [Wd_nzcv_saved set_saved].
    replace (0 <=? w) with true by (symmetry; apply Z.leb_le, H0). reflexivity. }
  split; [|split].
  - assert (Hq : machine_rel e None rg (put m w (u32 (nzcv m)))).
    { apply (machine_quiet cfg segbase b T0 Tmem x0 m0 f pinned skip Hf e None rg _ a m _ Hm Hp); auto; [|apply Hm].
      apply (safe_only _ _ _ _ [w]); [untouched | intros r [<- | []]; auto]. }
    pose proof (mr_nzcv _ _ _ _ _ _ _ _ _ _ _ _ _ Hm) as Hn. pose proof (mr_flags _ _ _ _ _ _ _ _ _ _ _ _ _ Hm) as Hfl.
    rewrite Hskip in Hn. replace (0 <=? Wd_nzcv_saved rg) with false in Hn by (symmetry; apply Z.leb_gt, Hsv).
    destruct Hq. constructor; auto. cbn [Wd_nzcv_saved set_saved]. rewrite Hskip.
    replace (0 <=? w) with true by (symmetry; apply Z.leb_le, H0).
    unfold put. cbn [xr set_xr]. rewrite set_reg_eq, Hn. apply wrap_small, nzcv_word, Hfl.
  - destruct (fprs_vr _ _ _ _ _ _ m (put m w (u32 (nzcv m))) Hr eq_refl). constructor; assumption.
  - destruct Hp. constructor.
    + rewrite Eu2. apply (gpool_same a1); assumption.
    + rewrite Eu2. constructor; assumption.
    + unfold held. cbn [Wd_nzcv_saved set_saved]. replace (0 <=? w) with true by (symmetry; apply Z.leb_le, H0).
      intros r [<- | []]. exact Hsc.
    + apply (fpool_mask _ a); [rewrite (proj2 Hs2); exact Hm1 | exact pr_fpool].
Qed.

(** Its restore after the last of them. *)
Lemma pool_without s r U : gpool s (r :: U) -> scratch r = true -> ~ In r U ->
  exists s', gpool s' U /\ free_fpr_mask s' = free_fpr_mask s.
Proof.
  intros Hp Hs Hn.
  assert (W : wp (free_gpr r) (fun _ s' _ => gpool s' U /\ free_fpr_mask s' = free_fpr_mask s) s m)
    by (apply (wp_gfree r U); auto).
  destruct W as (? & s' & ? & ? & _ & _ & _ & Hq). exists s'. exact Hq.
Qed.

Lemma in_use_saved_none rg1 : Wd_nzcv_saved rg1 < 0 -> in_use None rg1 = pinned.
Proof. intros Hs. unfold LowerRel.in_use, held. replace (0 <=? Wd_nzcv_saved rg1) with false by (symmetry; apply Z.leb_gt, Hs). reflexivity. Qed.

Lemma in_use_saved_some rg1 : 0 <= Wd_nzcv_saved rg1 -> in_use None rg1 = Wd_nzcv_saved rg1 :: pinned.
Proof. intros Hs. unfold LowerRel.in_use, held. replace (0 <=? Wd_nzcv_saved rg1) with true by (symmetry; apply Z.leb_le, Hs). reflexivity. Qed.

Lemma wp_restore_nzcv c rg1 Wd a1 m1 (Q : Z * Regs -> asm -> machine -> Prop) :
  packed c rg1 Wd a1 m1 -> 0 <= Wd_nzcv_saved rg1 -> skip = false ->
  (forall a2 m2, packed c (set_saved rg1 (-1)) Wd a2 m2 -> Q (Wd, set_saved rg1 (-1)) a2 m2) ->
  wp (emit_msr_nzcv (Wd_nzcv_saved rg1) ;;; free_gpr (Wd_nzcv_saved rg1) ;;; ret (Wd, set_saved rg1 (-1))) Q a1 m1.
Proof.
  intros [Hsc Hni Hp1 (ar & (Hm & Hr & Hp) & Hfm) Hval] Hs0 Hskip HQ.
  set (sv := Wd_nzcv_saved rg1) in *. pose proof (in_use_saved_some rg1 Hs0) as Eu. fold sv in Eu.
  assert (Eu' : in_use None (set_saved rg1 (-1)) = pinned) by (apply in_use_saved_none; cbn; lia).
  assert (Hsv : scratch sv = true).
  { apply (pr_held _ _ _ _ _ _ Hp). unfold held. fold sv. replace (0 <=? sv) with true by (symmetry; apply Z.leb_le, Hs0). left. reflexivity. }
  pose proof (pr_nodup _ _ _ _ _ _ Hp) as Hnd. rewrite Eu in Hnd, Hni, Hp1. apply NoDup_cons_iff in Hnd as [Hnsv Hnd].
  assert (Hex : xr m1 sv = i_nzcv e).
  { pose proof (mr_nzcv _ _ _ _ _ _ _ _ _ _ _ _ _ Hm) as Hn. rewrite Hskip in Hn. fold sv in Hn.
    replace (0 <=? sv) with true in Hn by (symmetry; apply Z.leb_le, Hs0). exact Hn. }
  pose proof (mr_flags _ _ _ _ _ _ _ _ _ _ _ _ _ Hm) as Hfl. pose proof (nzcv_word _ Hfl) as Hfr.
  apply wp_bind, r_msr; [apply scratch_gpr', Hsv|]. intros a2 Hs2. apply wp_bind.
  apply (wp_gfree sv (Wd :: pinned)).
  { apply (gpool_same a1); [exact Hs2|]. apply (gpool_ext a1 (Wd :: sv :: pinned)); [intros r; cbn; tauto | exact Hp1]. }
  { exact Hsv. }
  { intros [<- | Hin]; [apply Hni; left; reflexivity | exact (Hnsv Hin)]. }
  intros a3 Hp3 Hm3. apply wp_ret, HQ. destruct (pool_without ar sv pinned) as (ar' & Hpr' & Hfr');
    [rewrite <- Eu; apply Hp | exact Hsv | exact Hnsv |].
  constructor; [exact Hsc | rewrite Eu'; cbn in Hni; tauto | rewrite Eu'; exact Hp3 | | exact Hval].
  exists ar'. split; [|rewrite Hm3, (proj2 Hs2), Hfr'; exact Hfm].
  split; [|split].
  - destruct Hm. constructor; auto. cbn [Wd_nzcv_saved set_saved nzcv set_nzcv Z.leb Z.compare]. rewrite Hskip, Hex.
    rewrite wrap_small by lia. exact Hfl.
  - destruct (fprs_vr _ _ _ _ _ _ m1 (set_nzcv m1 (Z.land (u64 (xr m1 sv)) 0xFC000000)) Hr eq_refl). constructor; assumption.
  - destruct Hp. constructor; [rewrite Eu'; exact Hpr' | rewrite Eu'; exact Hnd | intros r [] | exact (fpool_mask _ _ _ _ Hfr' pr_fpool)].
Qed.

(** A compare that saves and restores NZCV itself. *)
Lemma wp_cmp_saved cmp c (Q : Z * Regs -> asm -> machine -> Prop) :
  skip = false -> Wd_nzcv_saved rg < 0 -> wp_compares cmp c -> (length (in_use None rg) < 5)%nat ->
  (forall Wd a' m', packed c rg Wd a' m' -> Q (Wd, rg) a' m') ->
  wp (Wd_save <- alloc_free_gpr ;;
      emit_mrs_nzcv Wd_save ;;;
      cmp ;;;
      Wd_packed <- alloc_free_gpr ;;
      emit_fcom_cc_pack Wd_packed Wd_save ;;;
      ret (Wd_packed, rg)) Q a m.
Proof.
  intros Hskip Hsv Hcmp HU HQ. set (U := in_use None rg) in *.
  assert (Hp : gpool a U) by apply H.
  pose proof (mr_nzcv _ _ _ _ _ _ _ _ _ _ _ _ _ (proj1 H)) as Hn. rewrite Hskip in Hn.
  replace (0 <=? Wd_nzcv_saved rg) with false in Hn by (symmetry; apply Z.leb_gt, Hsv).
  pose proof (mr_flags _ _ _ _ _ _ _ _ _ _ _ _ _ (proj1 H)) as Hfl. pose proof (nzcv_word _ Hfl) as Hfr.
  apply wp_bind, (wp_galloc U); [exact Hp | lia|]. intros ws a1 Hss Hns Hp1 Hm1.
  apply wp_bind, r_mrs; [apply scratch_gpr', Hss|]. intros a2 Hs2.
  apply wp_bind, Hcmp; [reflexivity|]. intros a3 Hs3. set (m3 := set_nzcv _ _).
  assert (Hp3 : gpool a3 (ws :: U)) by (apply (gpool_same a2), (gpool_same a1); assumption).
  apply wp_bind, (wp_galloc (ws :: U)); [exact Hp3 | cbn [length]; lia|]. intros Wd a4 Hsc Hni Hp4 Hm4.
  apply wp_bind, (wp_cc_pack c Wd (Wd :: ws :: U)) with (U' := Wd :: U);
    [exact Hp4 | cbn [length]; lia | apply scratch_gpr', Hsc | left; reflexivity | eexists; reflexivity | | | exact Hss | intros ->; apply Hni; left; reflexivity |].
  { intros r. cbn. tauto. }
  { intros [<- | Hin]; [apply Hni; left; reflexivity | exact (Hns Hin)]. }
  intros a5 m5 Hp5 Hm5 Hk5 Hv5 Hmm5 Hn5 Hw5.
  assert (HniU : ~ In Wd U) by (intros Hin; apply Hni; right; exact Hin).
  apply wp_ret, HQ. constructor; [exact Hsc | exact HniU | exact Hp5 | | exact Hw5].
  exists a. split; [|rewrite Hm5, Hm4, (proj2 Hs3), (proj2 Hs2); exact Hm1].
  apply (quiet_done cfg segbase b T0 Tmem x0 m0 f pinned skip single Hf e None J rg a m a m5); auto.
  - apply (safe_mono U _ []); [auto | intros ? [] |].
    apply (safe_drop _ _ ws); [exact Hss | exact Hns|]. apply (safe_drop _ _ Wd); [exact Hsc | exact Hni|].
    apply (safe_trans _ _ _ m3); [apply (safe_only _ _ _ _ [ws]); [subst m3; untouched | intros r [<- | []]; cbn; auto]|].
    apply (safe_mono (Wd :: ws :: U) _ [Wd]); [auto | cbn; tauto | apply safe_kept, Hk5].
  - rewrite Hn5, Hn. subst m3. cbn [xr set_nzcv]. unfold put. cbn [xr set_xr]. rewrite set_reg_eq, Hn.
    rewrite (wrap_small 32) by exact Hfr. rewrite wrap_small by lia. exact Hfl.
Qed.

(** What the run's semantics makes of a comparison. *)
Lemma cc_status w t c :
  0 <= w < 2 ^ 16 -> 0 <= t < 8 ->
  u16 (Z.lor (Z.land (status_word w t) (Z.lnot X87Runtime.kCC0123)) (CompareProps.cc_bits c)) = status_word (set_cc w c) t.
Proof.
  intros Hw Ht. unfold status_word, set_cc.
  set (A := Z.lnot X87Runtime.kCC0123). set (B := Z.lnot 0x3800). set (C := CompareProps.cc_bits c).
  assert (ET : Z.land (Z.shiftl t 11) A = Z.shiftl t 11).
  { assert (t = 0 \/ t = 1 \/ t = 2 \/ t = 3 \/ t = 4 \/ t = 5 \/ t = 6 \/ t = 7) as Hc by lia.
    repeat destruct Hc as [-> | Hc]; try reflexivity. subst. reflexivity. }
  assert (EC : Z.land C B = C) by (destruct c as [[]|]; reflexivity).
  assert (E : Z.lor (Z.land (Z.lor (Z.land w B) (Z.shiftl t 11)) A) C = Z.lor (Z.land (Z.lor (Z.land w A) C) B) (Z.shiftl t 11)).
  { rewrite !Z.land_lor_distr_l, ET, EC. rewrite <- !Z.land_assoc, (Z.land_comm B A).
    rewrite <- !Z.lor_assoc. f_equal. apply Z.lor_comm. }
  rewrite E. apply wrap_small.
  assert (HC : 0 <= C < 2 ^ 16) by (destruct c as [[]|]; cbv; split; congruence).
  assert (HL : 0 <= Z.lor (Z.land w A) C < 2 ^ 16).
  { apply lor_bound; [lia | | exact HC]. rewrite Z.land_comm. apply land_bound; lia. }
  apply lor_bound; [lia | |].
  - rewrite Z.land_comm. apply land_bound; lia.
  - rewrite Z.shiftl_mul_pow2 by lia. lia.
Qed.

(** The codes written to the status word, or left for the FSTSW to come. *)
Lemma wp_cmp_unfused c rg1 Wd a1 m1 (Q : Regs -> asm -> machine -> Prop) :
  packed c rg1 Wd a1 m1 -> (length (in_use None rg1) < 7)%nat -> 0 <= Tmem < 8 ->
  (forall a' m', Rel (ir_sw e (set_cc (i_sw e) c)) None J rg1 a' m' -> Q rg1 a' m') ->
  wp (emit_fcom_cc_write_sw (Xbase f) Wd ;;; free_gpr Wd ;;; ret rg1) Q a1 m1.
Proof.
  intros [Hsc Hni Hp1 (ar & (Hm & Hr & Hp) & Hfm) Hval] HU HT HQ.
  assert (Hcc : 0 <= CompareProps.cc_bits c < 2 ^ 16) by (destruct c as [[]|]; cbv; split; congruence).
  pose proof (mr_sw _ _ _ _ _ _ _ _ _ _ _ _ _ Hm) as Hsw.
  assert (Hin : In (Xbase f) (Wd :: in_use None rg1)) by (right; apply pinned_in_use, (fk_xb _ _ _ Hf)).
  apply wp_bind. unfold emit_fcom_cc_write_sw. apply wp_bind.
  apply (wp_cc_write_sw_keep b (Xbase f) Wd (Wd :: in_use None rg1));
    [exact (mr_base _ _ _ _ _ _ _ _ _ _ _ _ _ Hm) | contradiction | exact Hp1 | cbn [length]; lia
    | apply scratch_gpr', Hsc | left; reflexivity | rewrite Hval; exact Hcc |].
  intros r a2 m2 Hsr Hnr Hp2 Hm2 (Hch & Ho & Hx) _.
  apply (wp_gfree r (Wd :: in_use None rg1)); [exact Hp2 | exact Hsr | exact Hnr|]. intros a3 Hp3 Hm3. apply wp_bind.
  apply (wp_gfree Wd (in_use None rg1)); [exact Hp3 | exact Hsc | exact Hni|]. intros a4 Hp4 Hm4. apply wp_ret, HQ.
  split; [|split].
  - apply (machine_write_sw e None rg1 rg1 _ ar m1 m2 _ Hm Hp); [| exact (ch_nzcv _ _ _ Hch) | exact (ch_v _ _ _ Hch) | exact Ho | | | reflexivity | reflexivity].
    + apply (safe_changes _ _ _ _ [r]); [exact Hch|]. intros q [<- | []]. right. split; [exact Hsr|]. intros Hq. apply Hnr. right. exact Hq.
    + unfold set_cc. apply lor_bound; [lia | | exact Hcc]. rewrite Z.land_comm. apply land_bound; lia.
    + rewrite Hx. unfold with_cc. rewrite (mr_state _ _ _ _ _ _ _ _ _ _ _ _ _ Hm), Hval.
      cbn [with_sw controlWord statusWord tagWord X87State.st memory_sw]. rewrite cc_status by (exact Hsw || exact HT). reflexivity.
  - destruct (fprs_vr _ _ _ _ _ _ _ m2 Hr (ch_v _ _ _ Hch)). constructor; assumption.
  - destruct Hp. constructor; [exact Hp4 | exact pr_nodup | exact pr_held|].
    apply (fpool_mask _ ar); [rewrite Hm4, Hm3, Hm2; exact Hfm | exact pr_fpool].
Qed.

Lemma rel_fused c rg1 Wd a1 m1 :
  packed c rg1 Wd a1 m1 -> i = Z.of_nat (length (vals e)) -> i < 128 -> 0 <= i_sw e < 2 ^ 16 ->
  0 <= set_cc (i_sw e) c < 2 ^ 16 ->
  Rel (add_val (ir_sw e (set_cc (i_sw e) c)) 0) (Some (i, i_sw e, c)) J (set_fpr rg1 i Wd) a1 m1.
Proof.
  intros [Hsc Hni Hp1 (ar & (Hm & Hr & Hp) & Hfm) Hval] Ei Hi Hsw Hcc.
  assert (Hi0 : 0 <= i) by lia.
  assert (Eget : zget (node_fpr (set_fpr rg1 i Wd)) i = Wd).
  { cbn [node_fpr set_fpr]. apply zget_zset_eq. rewrite (fr_len _ _ _ _ _ _ _ Hr). lia. }
  assert (Eu : in_use (Some (i, i_sw e, c)) (set_fpr rg1 i Wd) = Wd :: in_use None rg1).
  { unfold LowerRel.in_use, held. rewrite Eget. reflexivity. }
  split; [|split].
  - destruct Hm. constructor; auto; cbn [i_sw ir_sw add_val memory_sw].
    + split; [cbn [vals ir_sw add_val]; rewrite length_app; cbn [length]; lia|]. split; [reflexivity|].
      rewrite Eget. exact Hval.
  - assert (HnJ : ~ In i J) by (intros Hj; pose proof (fr_ids _ _ _ _ _ _ _ Hr i Hj); lia).
    assert (HJ0 : forall j, In j J -> 0 <= j) by (intros j Hj; pose proof (fr_ids _ _ _ _ _ _ _ Hr j Hj); lia).
    assert (Hold : forall j, 0 <= j -> j <> i -> zget (node_fpr (set_fpr rg1 i Wd)) j = zget (node_fpr rg1) j)
      by (intros j H0 Hne; cbn [node_fpr set_fpr]; apply zget_zset_ne; [exact Hi0 | exact H0 | congruence]).
    pose proof (fprs_add_val cfg single e None J rg1 m1 0 Hr) as Hr2. destruct Hr2. constructor.
    + cbn [node_fpr set_fpr]. rewrite zset_length. assumption.
    + exact fr_ids.
    + assumption.
    + intros j Hj. rewrite Hold; [auto | auto | intros ->; contradiction].
    + rewrite map_fpr_set; assumption.
    + intros j Hj. rewrite Hold; [apply fr_val, Hj | auto | intros ->; contradiction].
    + exact fr_single.
    + intros j H0 Hn Hne. rewrite Hold by (lia || assumption). apply fr_none; auto.
    + exact HnJ.
  - destruct Hp. constructor; [rewrite Eu; exact Hp1 | rewrite Eu; constructor; assumption | |].
    + unfold held. rewrite Eget. intros r Hin. apply in_app_or in Hin as [[<- | []] | Hin]; [exact Hsc|].
      apply pr_held. exact Hin.
    + rewrite map_fpr_set; [| exact Hi0 | |].
      * exact (fpool_mask _ _ _ _ Hfm pr_fpool).
      * intros j Hj. pose proof (fr_ids _ _ _ _ _ _ _ Hr j Hj). lia.
      * intros Hj. pose proof (fr_ids _ _ _ _ _ _ _ Hr i Hj). lia.
Qed.

#[local] Abbreviation k := (f_cmps f).

(** Room for the registers a compare takes. *)
Definition compare_room : Prop :=
  if nzcv_skip k || nzcv_hoist k then (length pinned + (if nzcv_hoist k then 1 else 0) < 6)%nat else (length pinned < 5)%nat.

(** The comparison, its codes packed, by the three ways of keeping NZCV. *)
Lemma wp_compare_pack cmp c (Q : Z * Regs -> asm -> machine -> Prop) :
  skip = nzcv_skip k -> (skip = true -> nzcv_hoist k = false) -> (nzcv_hoist k = false -> Wd_nzcv_saved rg < 0) ->
  wp_compares cmp c -> compare_room ->
  (forall rg1 Wd a' m', packed c rg1 Wd a' m' ->
     (0 <=? Wd_nzcv_saved rg1) = nzcv_hoist k && negb (i =? nzcv_last_cmp k) -> Q (Wd, rg1) a' m') ->
  wp (if nzcv_skip k || nzcv_hoist k then
        s <- (if nzcv_hoist k && (Wd_nzcv_saved rg <? 0) then
                Wd_nzcv_saved <- alloc_free_gpr ;;
                emit_mrs_nzcv Wd_nzcv_saved ;;;
                ret (set_saved rg Wd_nzcv_saved)
              else ret rg) ;;
        cmp ;;;
        Wd_packed <- alloc_free_gpr ;;
        emit_fcom_cc_pack_hoisted Wd_packed ;;;
        (if nzcv_hoist k && (i =? nzcv_last_cmp k) then
           emit_msr_nzcv (Wd_nzcv_saved s) ;;;
           free_gpr (Wd_nzcv_saved s) ;;;
           ret (Wd_packed, set_saved s (-1))
         else ret (Wd_packed, s))
      else
        Wd_save <- alloc_free_gpr ;;
        emit_mrs_nzcv Wd_save ;;;
        cmp ;;;
        Wd_packed <- alloc_free_gpr ;;
        emit_fcom_cc_pack Wd_packed Wd_save ;;;
        ret (Wd_packed, rg)) Q a m.
Proof.
  intros Esk Hsh Hns Hcmp HU HQ. unfold compare_room in HU. rewrite <- Esk in HU |- *.
  destruct (nzcv_hoist k) eqn:Eh.
  - assert (Hskip : skip = false) by (destruct skip; [discriminate (Hsh eq_refl) | reflexivity]).
    rewrite Hskip in HU |- *. cbn [orb andb] in HU, HQ |- *. apply wp_bind.
    assert (Hrest : forall rg1 a1 m1, Rel e None J rg1 a1 m1 -> 0 <= Wd_nzcv_saved rg1 -> vr m1 = vr m ->
      wp (cmp ;;;
          Wd_packed <- alloc_free_gpr ;;
          emit_fcom_cc_pack_hoisted Wd_packed ;;;
          (if i =? nzcv_last_cmp k then
             emit_msr_nzcv (Wd_nzcv_saved rg1) ;;;
             free_gpr (Wd_nzcv_saved rg1) ;;;
             ret (Wd_packed, set_saved rg1 (-1))
           else ret (Wd_packed, rg1))) Q a1 m1).
    { intros rg1 a1 m1 H1 Hs1 Hv1.
      apply (wp_cmp_skip rg1 a1 m1 cmp c (fun Wd => if i =? nzcv_last_cmp k then _ else _)); auto.
      - rewrite in_use_saved_some by exact Hs1. cbn [length]. lia.
      - intros Wd a2 m2 Hpk. destruct (i =? nzcv_last_cmp k) eqn:El.
        + apply (wp_restore_nzcv c); [exact Hpk | exact Hs1 | exact Hskip|]. intros a3 m3 Hpk3. apply HQ; [exact Hpk3 | reflexivity].
        + apply wp_ret, HQ; [exact Hpk | apply Z.leb_le, Hs1]. }
    destruct (Z.ltb_spec (Wd_nzcv_saved rg) 0) as [Hlt | Hge].
    + apply wp_save_nzcv; [exact Hskip | exact Hlt | lia|]. intros w a1 m1 H1 Hw Hv1. exact (Hrest _ _ _ H1 Hw Hv1).
    + apply wp_ret. exact (Hrest _ _ _ H Hge eq_refl).
  - specialize (Hns eq_refl). revert HU. case_eq skip; intros Hskip HU; cbn [orb andb] in HU, HQ |- *.
    + apply wp_bind, wp_ret.
      apply (wp_cmp_skip rg a m cmp c (fun Wd => ret (Wd, rg))); [exact H | reflexivity | left; exact Hskip | exact Hcmp | |].
      * rewrite in_use_saved_none by exact Hns. lia.
      * intros Wd a2 m2 Hpk. apply wp_ret, HQ; [exact Hpk | apply Z.leb_gt, Hns].
    + apply (wp_cmp_saved cmp c); [exact Hskip | exact Hns | exact Hcmp | rewrite in_use_saved_none by exact Hns; exact HU|].
      intros Wd a' m' Hpk. apply HQ; [exact Hpk | apply Z.leb_gt, Hns].
Qed.

Lemma wp_compare (Q : Regs -> asm -> machine -> Prop) :
  op n = FCmp \/ op n = FTst -> In (input n 0) J -> (op n = FCmp -> In (input n 1) J) ->
  i = Z.of_nat (length (vals e)) -> i < 128 -> 0 <= Tmem < 8 ->
  skip = nzcv_skip k -> (skip = true -> nzcv_hoist k = false) -> (nzcv_hoist k = false -> Wd_nzcv_saved rg < 0) -> compare_room ->
  (forall P' rg' a' m', Rel (eval_node e n) P' J rg' a' m' ->
     option_map (fun p => fst (fst p)) P' = (if is_fused n then Some i else None) ->
     (0 <=? Wd_nzcv_saved rg') = nzcv_hoist k && negb (i =? nzcv_last_cmp k) -> Q rg' a' m') ->
  wp (emit_compare f i n (match op n with
                          | FCmp => emit_fcmp_f64 (get rg (input n 0)) (get rg (input n 1))
                          | _ => emit_fcmp_zero_f64 (get rg (input n 0)) end) rg) Q a m.
Proof.
  intros Eo HJ0 HJ1 Ei Hi HT Esk Hsh Hns HU HQ.
  destruct (input_value _ _ _ _ _ _ _ _ (proj1 (proj2 H)) HJ0) as (Z0 & V0 & R0 & _).
  set (y := match op n with FCmp => zget (vals e) (input n 1) | _ => f_zero end).
  set (c := fcompare f64 (zget (vals e) (input n 0)) y).
  assert (Ev : eval_node e n = add_val (ir_sw e (set_cc (i_sw e) c)) 0).
  { unfold X87IREval.eval_node, node_sem, c, y. rewrite Hdead. destruct Eo as [-> | ->]; reflexivity. }
  rewrite Ev in HQ. unfold emit_compare. apply wp_bind.
  apply (wp_compare_pack _ c); [exact Esk | exact Hsh | exact Hns | | exact HU |].
  - intros a1 m1 R Hv1 HR. unfold c, y in HR. destruct Eo as [E | E]; rewrite E in *.
    + destruct (input_value _ _ _ _ _ _ _ _ (proj1 (proj2 H)) (HJ1 eq_refl)) as (Z1 & V1 & R1 & _).
      apply r_fcmp; [exact Z0 | exact Z1|]. rewrite Hv1, V0, V1, (in64_u64 _ R0), (in64_u64 _ R1). exact HR.
    + apply r_fcmp_zero; [exact Z0|]. rewrite Hv1, V0, (in64_u64 _ R0). exact HR.
  - intros rg1 Wd a1 m1 Hpk Hsv.
    assert (Hsw : 0 <= i_sw e < 2 ^ 16) by (destruct Hpk as [_ _ _ (ar & (Hm & _) & _) _]; apply Hm).
    destruct (is_fused n).
    + apply wp_ret, (HQ (Some (i, i_sw e, c))); [|reflexivity | exact Hsv].
      apply rel_fused; auto. unfold set_cc. apply lor_bound; [lia | | destruct c as [[]|]; cbv; split; congruence].
      rewrite Z.land_comm. apply land_bound; lia.
    + apply (wp_cmp_unfused c); [exact Hpk | | exact HT |].
      * unfold compare_room in HU. rewrite <- Esk in HU. destruct (Z.leb_spec 0 (Wd_nzcv_saved rg1)).
        -- rewrite in_use_saved_some by assumption. cbn [length]. destruct (skip || nzcv_hoist k); [destruct (nzcv_hoist k)|]; lia.
        -- rewrite in_use_saved_none by assumption. destruct (skip || nzcv_hoist k); [destruct (nzcv_hoist k)|]; lia.
      * intros a' m' HR. apply (HQ None); [apply no_value, HR | reflexivity | exact Hsv].
Qed.
End Compare.

(** ** FCOMI, the control word and the status word *)

Section Words.
Context (e : ir) (P : pending) (J : list Z) (rg : Regs) (a : asm) (m : machine) (n : Node).
Hypothesis (H : Rel e P J rg a m) (Hdead : dead n = false).

#[local] Abbreviation U := (in_use P rg).
#[local] Abbreviation adr := (addr segbase (i_regs e) (mem_operand n)).

(** The flags of FCOMI by the comparison. *)
Lemma fcomi_flags_compare x y :
  X87Runtime.fcomi_flags x y =
  match fcompare f64 x y with None => 0x54000000 | Some Lt => 0 | Some Gt => 0x20000000 | Some Eq => 0x60000000 end.
Proof.
  unfold X87Runtime.fcomi_flags, X87Runtime.fgt, flt. rewrite !CompareProps.x87_is_nan_spec, (CompareProps.fcompare_swap f64 x y).
  unfold fcompare. destruct (is_nan f64 x || is_nan f64 y); [reflexivity|]. destruct (Z.compare _ _); reflexivity.
Qed.

(** Code that ends in a new NZCV and changes registers outside the list only. *)
Lemma rel_nzcv a' m' x :
  skip = false -> Wd_nzcv_saved rg < 0 -> gpool a' U -> free_fpr_mask a' = free_fpr_mask a ->
  safe U [] m m' -> vr m' = vr m -> mm m' = mm m -> nzcv m' = x -> Z.land x 0xFC000000 = x ->
  Rel (ir_nzcv e x) P J rg a' m'.
Proof.
  intros Hskip Hsv Hp Hm Hk Hv Hmm Hn Hx. pose proof H as (Hma & Hr & Hpo).
  assert (Hq : machine_rel e P rg (set_nzcv m' (nzcv m))).
  { apply (machine_quiet cfg segbase b T0 Tmem x0 m0 f pinned skip Hf e P rg _ a m _ Hma Hpo); auto.
    - eapply safe_mono; [| |exact Hk]; [auto | intros ? []].
    - intros. cbn [vr set_nzcv]. rewrite Hv. reflexivity.
    - cbn [mm set_nzcv]. rewrite Hmm. apply Hma.
    - cbn [mm set_nzcv]. rewrite Hmm. reflexivity. }
  split; [|split].
  - destruct Hq. constructor; auto. rewrite Hskip.
    replace (0 <=? Wd_nzcv_saved rg) with false by (symmetry; apply Z.leb_gt, Hsv). exact Hn.
  - destruct (fprs_vr _ _ _ _ _ _ _ m' Hr Hv). constructor; auto.
  - destruct Hpo. constructor; auto. exact (fpool_mask _ _ _ _ Hm pr_fpool).
Qed.

Lemma wp_fcomi (Q : unit -> asm -> machine -> Prop) :
  op n = FComI -> In (input n 0) J -> In (input n 1) J -> skip = false -> Wd_nzcv_saved rg < 0 -> (length U < 6)%nat ->
  (forall a' m', Rel (eval_node e n) P J rg a' m' -> Q tt a' m') -> wp (emit_fcomi n rg) Q a m.
Proof.
  intros Eo HJ0 HJ1 Hskip Hsv HU HQ.
  destruct (input_value _ _ _ _ _ _ _ _ (proj1 (proj2 H)) HJ0) as (Z0 & V0 & R0 & _).
  destruct (input_value _ _ _ _ _ _ _ _ (proj1 (proj2 H)) HJ1) as (Z1 & V1 & R1 & _).
  set (x := zget (vals e) (input n 0)) in *. set (y := zget (vals e) (input n 1)) in *.
  assert (Ev : eval_node e n = add_val (ir_nzcv e (X87Runtime.fcomi_flags x y)) 0)
    by (unfold X87IREval.eval_node, node_sem, x, y; rewrite Hdead, Eo; reflexivity).
  rewrite Ev in HQ. unfold emit_fcomi. apply wp_bind, r_fcmp; [exact Z0 | exact Z1|].
  rewrite V0, V1, (in64_u64 _ R0), (in64_u64 _ R1). intros a1 Hs1. set (m1 := set_nzcv m _).
  assert (Hc : compared (fcompare f64 x y) (nzcv m1)) by (eexists; reflexivity).
  destruct (compared_conds _ _ Hc) as (_ & C6 & C0 & C2).
  assert (P1 : gpool a1 U) by (apply (gpool_same a); [exact Hs1 | apply H]).
  apply wp_bind, (wp_galloc U); [exact P1 | lia|]. intros z s2 Sz Nz P2 F2.
  apply wp_bind, (wp_galloc (z :: U)); [exact P2 | cbn [length]; lia|]. intros v s3 Sv Nv P3 F3.
  apply wp_bind, (wp_galloc (v :: z :: U)); [exact P3 | cbn [length]; lia|]. intros w s4 Sw Nw P4 F4.
  assert (D1 : z <> v) by (intros ->; apply Nv; left; reflexivity).
  assert (D2 : v <> w) by (intros ->; apply Nw; left; reflexivity).
  assert (D3 : z <> w) by (intros ->; apply Nw; right; left; reflexivity).
  exec_code. rewrite C0, C2, C6.
  match goal with |- wp _ _ ?s8 ?m8 => assert (P8 : same_pools s4 s8) by pools; set (m9 := m8) end.
  assert (Hn9 : nzcv m9 = X87Runtime.fcomi_flags x y).
  { subst m9. cbn [nzcv]. rewrite fcomi_flags_compare. destruct (fcompare f64 x y) as [[]|]; vm_compute; reflexivity. }
  assert (Hk9 : safe U [] m m9).
  { apply (safe_only _ _ _ _ [z; v; w]).
    - intros r Hr. cbn in Hr. subst m9. cbn [xr]. rewrite !set_reg_ne by intuition congruence. reflexivity.
    - intros r [<- | [<- | [<- | []]]]; right; (split; [assumption|]); [exact Nz | |].
      + intros Hin. apply Nv. right. exact Hin.
      + intros Hin. apply Nw. right. right. exact Hin. }
  apply (wp_gfree w (v :: z :: U)); [exact (gpool_same _ _ _ P8 P4) | exact Sw | exact Nw|]. intros s9 P9 F9. apply wp_bind.
  apply (wp_gfree v (z :: U)); [exact P9 | exact Sv | exact Nv|]. intros s10 P10 F10.
  apply (wp_gfree z U); [exact P10 | exact Sz | exact Nz|]. intros s11 P11 F11.
  apply HQ, no_value. apply rel_nzcv; [exact Hskip | exact Hsv | exact P11 | | exact Hk9 | reflexivity | reflexivity | exact Hn9 |].
  - rewrite F11, F10, F9, (proj2 P8), F4, F3, F2. apply Hs1.
  - rewrite fcomi_flags_compare. destruct (fcompare f64 x y) as [[]|]; reflexivity.
Qed.

(** *** The control word *)

Lemma cw_at m1 rg1 : machine_rel e P rg1 m1 -> load 2 (mm m1) b = i_cw e.
Proof.
  intros Hm. transitivity (controlWord (x87_at (mm m1) b)); [reflexivity|].
  rewrite (mr_state _ _ _ _ _ _ _ _ _ _ _ _ _ Hm). reflexivity.
Qed.

Lemma machine_cw m1 w x :
  machine_rel e P rg m1 -> u16 x = w -> machine_rel (ir_cw e w) P (set_rc_valid rg false) (set_mm m1 (store 2 (mm m1) b x)).
Proof.
  intros Hm Hx. pose proof (mr_state _ _ _ _ _ _ _ _ _ _ _ _ _ Hm) as Hst.
  assert (Ho : outside b (mm m1) (store 2 (mm m1) b x)) by (apply outside_store; lia).
  pose proof (agree_outside b _ _ _ Ho (mr_mem _ _ _ _ _ _ _ _ _ _ _ _ _ Hm)) as Ha.
  destruct Hm. constructor; auto; try discriminate. cbn [mm set_mm]. rewrite x87_at_cw, Hst, Hx. reflexivity.
Qed.

Lemma wp_store_cw (Q : Regs -> asm -> machine -> Prop) :
  op n = StoreCW -> access_ok e n 2 = true -> (length U < 7)%nat ->
  (forall rg' a' m', Rel (eval_node e n) P J rg' a' m' -> Wd_nzcv_saved rg' = Wd_nzcv_saved rg -> Q rg' a' m') ->
  wp (emit_store_cw cfg tgt f n rg) Q a m.
Proof.
  intros Eo Ha HU HQ. pose proof (access_okE _ _ _ _ _ Ha) as (Ho & Hfold & Hap).
  set (w := load 2 (i_mem e) adr).
  assert (Ev : eval_node e n = add_val (ir_cw e w) 0) by (unfold X87IREval.eval_node, node_sem, w; rewrite Hdead, Eo; reflexivity).
  rewrite Ev in HQ. pose proof (load_range 2 (i_mem e) adr) as Hw. fold w in Hw. change (8 * Z.of_nat 2) with 16 in Hw.
  assert (Hp : gpool a U) by apply H.
  unfold emit_store_cw. apply wp_bind, (wp_galloc U); [exact Hp | lia|]. intros Wd a1 Hsc Hni Hp1 Hm1.
  assert (Hg : gpr Wd) by (apply scratch_gpr', Hsc).
  apply wp_bind, (wp_gpr_access_load cfg tgt segbase f (i_regs e) (Wd :: U));
    [apply H | exact (bases_at _ _ _ _ (proj1 H)) | exact Ho | exact Hfold | exact Hp1 | cbn [length]; lia | lia | exact Hg|].
  intros a2 m2 Hs2 Hk2 Hv2 Hn2 Hmm2 Hw2. change (Z.to_nat (2 ^ 1)) with 2%nat in Hw2.
  rewrite (load_same cfg segbase b T0 Tmem x0 m0 f pinned skip single e P J rg a m n H 2 Ha) in Hw2. fold w in Hw2.
  assert (Hk2' : safe U [] m m2) by (apply (safe_drop _ _ Wd); assumption).
  assert (H2 : Rel e P J rg a m2).
  { apply (quiet_done cfg segbase b T0 Tmem x0 m0 f pinned skip single Hf e P J rg a m a m2); auto.
    eapply safe_mono; [| |exact Hk2']; [auto | intros ? []]. }
  destruct H2 as (Hma2 & Hr2 & Hpo2). pose proof (mr_base _ _ _ _ _ _ _ _ _ _ _ _ _ Hma2) as (Gb & Eb & Hb0 & Hb1).
  apply wp_bind, r_str; [exact Gb | apply gpr_zr, Hg | lia | lia|].
  rewrite Eb, Z.shiftl_0_l, Z.add_0_r, (u64_small b), src_gpr, Hw2, (u64_small w) by (exact Hg || lia).
  change (Z.to_nat (2 ^ 1)) with 2%nat. intros a3 Hs3.
  pose proof (machine_cw m2 w w Hma2 ltac:(apply wrap_small; exact Hw)) as Hma3. set (m3 := set_mm m2 _) in *.
  assert (Hr3 : forall rg' m', node_fpr rg' = node_fpr rg -> vr m' = vr m2 -> fprs_rel (ir_cw e w) P J rg' m').
  { intros rg' m' En Ev'. destruct (fprs_vr _ _ _ _ _ _ _ m' Hr2 Ev'). constructor; rewrite ?En in *; auto. }
  assert (Hp3 : gpool a3 (Wd :: U)) by (apply (gpool_same a2), (gpool_same a1); assumption).
  assert (Hdone : forall rg' a4 m4, machine_rel (ir_cw e w) P rg' m4 -> rg' = set_rc_valid rg (rc_cache_valid rg') -> vr m4 = vr m2 ->
    same_pools a3 a4 -> wp (free_gpr Wd ;;; ret rg') Q a4 m4).
  { intros rg' a4 m4 Hma4 Erg Hv4 Hs4. apply wp_bind, (wp_gfree Wd U); [exact (gpool_same _ _ _ Hs4 Hp3) | exact Hsc | exact Hni|].
    intros a5 Hp5 Hm5. apply wp_ret, HQ; [|rewrite Erg; reflexivity]. apply no_value.
    split; [exact Hma4|]. split; [apply Hr3; [rewrite Erg; reflexivity | exact Hv4]|].
    rewrite Erg. destruct Hpo2. constructor; [exact Hp5 | exact pr_nodup | exact pr_held|].
    apply (fpool_mask _ a); [rewrite Hm5, (proj2 Hs4), (proj2 Hs3), (proj2 Hs2); exact Hm1 | exact pr_fpool]. }
  destruct (0 <=? Wd_rc_cached f) eqn:Erc.
  - apply Z.leb_le in Erc. pose proof (rc_pinned T0 f pinned Hf Erc) as Hpin.
    apply wp_bind, wp_bind, r_bitfield; [apply gpr_zr, Hg | apply (pinned_gpr T0 f pinned Hf), Hpin | lia | cbn; lia | cbn; lia|].
    intros a4 Hs4. apply wp_ret, Hdone; [| reflexivity | reflexivity | exact Hs4].
    apply (machine_rc cfg segbase b T0 Tmem x0 m0 f pinned skip Hf (ir_cw e w) P (set_rc_valid rg false) (map (zget (node_fpr rg)) J) a m3); try reflexivity.
    + exact Hma3.
    + destruct Hpo2. constructor; assumption.
    + exact Erc.
    + intros r Hr. apply set_reg_ne, Hr.
    + unfold put. cbn [xr set_xr]. rewrite set_reg_eq, src_gpr by exact Hg. subst m3. cbn [xr set_mm]. rewrite Hw2.
      change (w_of (nz 0)) with 32. apply ubfx_rc.
  - apply wp_bind, wp_ret, Hdone; [exact Hma3 | reflexivity | reflexivity | apply same_pools_refl].
Qed.

Lemma wp_load_cw (Q : unit -> asm -> machine -> Prop) :
  op n = LoadCW -> access_ok e n 2 = true -> (length U < 7)%nat ->
  (forall a' m', Rel (eval_node e n) P J rg a' m' -> Q tt a' m') -> wp (emit_load_cw cfg tgt f n) Q a m.
Proof.
  intros Eo Ha HU HQ. pose proof (access_okE _ _ _ _ _ Ha) as (Ho & Hfold & Hap).
  assert (Ev : eval_node e n = add_val (ir_mem e (store 2 (i_mem e) adr (i_cw e))) 0)
    by (unfold X87IREval.eval_node, node_sem; rewrite Hdead, Eo; reflexivity).
  rewrite Ev in HQ. assert (Hp : gpool a U) by apply H. pose proof (proj1 H) as Hma.
  pose proof (mr_base _ _ _ _ _ _ _ _ _ _ _ _ _ Hma) as (Gb & Eb & Hb0 & Hb1).
  unfold emit_load_cw. apply wp_bind, (wp_galloc U); [exact Hp | lia|]. intros Wd a1 Hsc Hni Hp1 Hm1.
  assert (Hg : gpr Wd) by (apply scratch_gpr', Hsc).
  apply wp_bind, r_ldr; [exact Gb | exact Hg | lia | lia|].
  rewrite Eb, Z.shiftl_0_l, Z.add_0_r, (u64_small b) by lia. change (Z.to_nat (2 ^ 1)) with 2%nat. rewrite (cw_at m rg Hma).
  intros a2 Hs2. set (m2 := put m Wd (i_cw e)).
  assert (H2 : Rel e P J rg a m2).
  { apply (quiet_done cfg segbase b T0 Tmem x0 m0 f pinned skip single Hf e P J rg a m a m2); auto.
    apply (safe_only _ _ _ _ [Wd]); [subst m2; untouched | intros r [<- | []]; auto]. }
  assert (Hp2 : gpool a2 (Wd :: U)) by (apply (gpool_same a1); assumption).
  apply wp_bind, (wp_gpr_access_store cfg tgt segbase f (i_regs e) (Wd :: U));
    [apply H2 | exact (bases_at _ _ _ _ (proj1 H2)) | exact Ho | exact Hfold | exact Hp2 | cbn [length]; lia | lia
    | apply gpr_zr, Hg | right; right; left; reflexivity |].
  intros a4 m4 Hs4 Hk4 Hv4 Hn4 Hm4.
  apply (wp_gfree Wd U); [exact (gpool_same _ _ _ Hs4 Hp2) | exact Hsc | exact Hni|].
  intros a5 Hp5 Hm5. apply HQ, no_value.
  eapply (store_done cfg segbase b T0 Tmem x0 m0 f pinned skip single Hf e P J rg a m2 a5 m4);
    [exact H2 | exact Hp5 | rewrite Hm5, (proj2 Hs4), (proj2 Hs2); exact Hm1 | | exact Hn4 | exact Hv4 | exact Hm4 | | exact Hap].
  - apply (safe_mono U _ []); [auto | intros ? [] |].
    apply (safe_drop _ _ Wd); [exact Hsc | exact Hni |]. eapply safe_mono; [| |exact Hk4]; [auto | intros ? []].
  - rewrite (rd_zr_gpr true m2) by exact Hg. subst m2. unfold put. cbn [xr set_xr]. rewrite set_reg_eq.
    apply wrap_le. cbn. lia.
Qed.
End Words.
End Effects.
