(* ===== verification/LowerGuest.v ===== *)
(** The code of the guest's own instructions inside a run - moves, LEA,
    extensions, loads and stores - and of FSTSW, which writes a guest
    register. *)

From S2P Require Import Prelude F64 GuestMem X87State X87Props Emit Assembler A64 EmitDecode IROperand X87IR Fpu X87IREval A64Exec CodeExec.
From S2P Require Import TranslatorHelpers ImmediateProps Pools InsnRules AccessProps X87Helpers X87Cache X87IRPlan X87IRLower.
From S2P Require Import X87Memory AccessProps X87HelpersProps LowerRel LowerValues LowerEffects.
From S2P Require X87Runtime CompareProps.

#[local] Hint Resolve scratch_gpr' : regs.

(** ** A register an address does not use *)

Definition uses_reg (o : IROperand) (d : Z) : bool :=
  (nz (Z.land (mem_flags o) 1) && (Z.land (base_reg o) 0xF =? d)) ||
  (nz (Z.land (mem_flags o) 2) && (Z.land (index_reg o) 0xF =? d)).

Lemma addr_set_reg segbase r o d v : uses_reg o d = false ->
  addr segbase (Fpu.set_reg r d v) (with_disp0 o) = addr segbase r (with_disp0 o).
Proof.
  intros H. unfold uses_reg in H. apply orb_false_iff in H as [H1 H2].
  unfold addr, mem_sum. cbn [with_disp0 kind seg_override base_reg index_reg shift_amount mem_flags value byte2].
  assert (E : forall x q, nz x && (q =? d) = false -> nz x = true -> Fpu.set_reg r d v q = r q).
  { intros x q Hq Hx. rewrite Hx in Hq. cbn [andb] in Hq. apply Z.eqb_neq in Hq. apply set_reg_ne, Hq. }
  destruct (nz (Z.land (mem_flags o) 1)) eqn:E1; [rewrite (E 1 (Z.land (base_reg o) 0xF)) by (exact H1 || reflexivity)|];
    (destruct (nz (Z.land (mem_flags o) 2)) eqn:E2; [rewrite (E 1 (Z.land (index_reg o) 0xF)) by (exact H2 || reflexivity)|]); reflexivity.
Qed.

Section Guest.
Context (cfg : RosettaConfig) (tgt : Target) (segbase : Z -> Z) (b T0 Tmem : Z) (x0 : X87State) (m0 : machine).
Context (f : Frame) (pinned : list Z) (skip : bool) (single : Z -> bool) (stack0 : list (option Z)).
Hypothesis (Hf : frame_ok T0 f pinned).
Hypothesis (Hreps : forall k, In k (f_bases f) -> addr_operand_base_cacheable (b_rep k) = true).

#[local] Abbreviation machine_rel := (machine_rel cfg segbase b T0 Tmem x0 m0 f skip).
#[local] Abbreviation fprs_rel := (fprs_rel cfg single).
#[local] Abbreviation Rel := (Rel cfg segbase b T0 Tmem x0 m0 f pinned skip single).
#[local] Abbreviation in_use := (in_use pinned).
#[local] Abbreviation eval_node := (eval_node segbase stack0 T0).
#[local] Abbreviation access_ok := (access_ok segbase b).
#[local] Abbreviation bases_at := (bases_at cfg segbase b T0 Tmem x0 m0 f pinned skip Hf Hreps).

(** No cached base depends on register [d]. *)
Definition spares (d : Z) : Prop := forall k, In k (f_bases f) -> b_reg k <> d /\ uses_reg (b_rep k) d = false.

Section Node.
Context (e : ir) (P : pending) (J : list Z) (rg : Regs) (a : asm) (m : machine) (n : Node).
Hypothesis (H : Rel e P J rg a m) (Hdead : dead n = false).

#[local] Abbreviation U := (in_use P rg).
#[local] Abbreviation adr := (addr segbase (i_regs e) (mem_operand n)).

Lemma guest_gpr d : 0 <= d < 16 -> gpr d.
Proof. unfold gpr. lia. Qed.

Lemma guest_reg d : 0 <= d < 16 -> xr m d = i_regs e d.
Proof. intros Hd. exact (mr_regs _ _ _ _ _ _ _ _ _ _ _ _ _ (proj1 H) d Hd). Qed.

(** A guest register is written. *)
Lemma guest_done d v a' m' :
  0 <= d < 16 -> spares d -> gpool a' U -> free_fpr_mask a' = free_fpr_mask a ->
  safe U [Wd_tmp f; d] m m' -> xr m' d = v -> nzcv m' = nzcv m -> vr m' = vr m -> mm m' = mm m ->
  Rel (ir_regs e (Fpu.set_reg (i_regs e) d v)) P J rg a' m'.
Proof.
  intros Hd Hsp Hp Hm Hk Hv Hn Hvr Hmm. pose proof H as (Hma & Hr & Hpo).
  set (m2 := set_xr m' (Fpu.set_reg (xr m') d (xr m d))).
  assert (Hx2 : forall r, r <> d -> xr m' r = xr m2 r) by (intros r Hr'; symmetry; apply set_reg_ne, Hr').
  assert (Hq : machine_rel e P rg m2).
  { apply (machine_quiet cfg segbase b T0 Tmem x0 m0 f pinned skip Hf e P rg _ a m _ Hma Hpo); auto.
    - intros r Hr0 Hnr Hu. destruct (Z.eq_dec r d) as [->|Hne]; [apply set_reg_eq|]. rewrite <- Hx2 by exact Hne.
      apply Hk; [exact Hr0 | cbn in *; intuition congruence | exact Hu].
    - intros r _. cbn [vr set_xr m2]. rewrite Hvr. reflexivity.
    - cbn [mm set_xr m2]. rewrite Hmm. apply Hma.
    - cbn [mm set_xr m2]. rewrite Hmm. reflexivity. }
  assert (Hsd : scratch d = false) by apply guest_not_scratch, Hd.
  assert (Hpin : forall r, In r pinned -> r <> d) by (intros r Hr' ->; rewrite (fk_scratch _ _ _ Hf d Hr') in Hsd; discriminate).
  assert (Hheld : forall r, In r (held P rg) -> r <> d)
    by (intros r Hr' ->; rewrite (pr_held _ _ _ _ _ _ Hpo d Hr') in Hsd; discriminate).
  split; [|split].
  - destruct Hf as [_ Kxb Ktop _ Kst Krc Kb _ _ _ _]. destruct Hq. constructor; auto; cbn [i_regs i_nzcv ir_regs].
    + intros r Hr'. destruct (Z.eq_dec r d) as [->|Hne]; [rewrite set_reg_eq; exact Hv|].
      rewrite set_reg_ne, Hx2 by exact Hne. auto.
    + intros r Hr' Hs'. rewrite Hx2 by lia. auto.
    + destruct mr_base as (G & E & ?). split; [exact G|]. split; [|assumption]. rewrite Hx2; auto.
    + destruct mr_st as [E | [G E]]; [left; exact E | right]. split; [exact G|].
      destruct Kst as [Kst | Kst]; [unfold gpr in G; lia|]. rewrite Hx2; auto.
    + rewrite Hx2; auto.
    + intros k Hin. destruct (Hsp k Hin) as [Hne Hu]. rewrite Hx2, addr_set_reg by assumption. exact (mr_bases k Hin).
    + intros Hv' H0. destruct Krc as [Krc | Krc]; [lia|]. rewrite Hx2; auto.
    + destruct P as [[[id w] c]|]; [|exact I]. destruct mr_pend as (? & ? & E). split; [assumption|]. split; [assumption|].
      rewrite Hx2; [exact E|]. apply Hheld. left. reflexivity.
    + destruct skip; [exact I|]. destruct (0 <=? Wd_nzcv_saved rg) eqn:Es; [|exact mr_nzcv].
      rewrite Hx2; [exact mr_nzcv|]. apply Hheld, held_saved, Z.leb_le, Es.
  - destruct (fprs_vr _ _ _ _ _ _ _ m' Hr Hvr). constructor; auto.
  - destruct Hpo. constructor; auto. exact (fpool_mask _ _ _ _ Hm pr_fpool).
Qed.

(** Code that only writes the register. *)
Lemma guest_writes d v a' m' :
  0 <= d < 16 -> spares d -> same_pools a a' -> writes m m' d v -> Rel (ir_regs e (Fpu.set_reg (i_regs e) d v)) P J rg a' m'.
Proof.
  intros Hd Hsp Hs [Hv Hfr]. apply guest_done; try assumption; try apply Hfr; try apply Hs.
  - apply (gpool_same a); [exact Hs | apply H].
  - apply (safe_frame _ _ _ _ [d]); [exact Hfr | cbn; auto].
Qed.

(** ** Moves and extensions *)

#[local] Abbreviation p := (guest_unpack (imm_bits n)).
#[local] Abbreviation after Q := (forall a' m', Rel (eval_node e n) P J rg a' m' -> Q tt a' m').

Lemma writes_put m1 d v : writes m1 (put m1 d v) d v.
Proof.
  split; [apply set_reg_eq|]. split; try reflexivity. intros q Hq. apply set_reg_ne. intros ->. apply Hq. left. reflexivity.
Qed.

Lemma p_regs : 0 <= p_dst p < 16 /\ 0 <= p_src p < 16 /\ 0 <= p_idx p < 16 /\ 0 <= p_cls p < 4.
Proof. cbn [guest_unpack p_dst p_src p_idx p_cls]. repeat split; try apply field15_range; apply (land_bound _ 3 2); lia. Qed.

Lemma wp_guest_mov (Q : unit -> asm -> machine -> Prop) :
  op n = GuestMovRR \/ op n = GuestMovRI -> spares (p_dst p) -> after Q -> wp (emit_guest_node n) Q a m.
Proof.
  intros Eo Hsp HQ. destruct p_regs as (Hd & Hs & _ & _).
  assert (Ev : eval_node e n = add_val (ir_regs e (Fpu.set_reg (i_regs e) (p_dst p) (guest_value (op n) (i_regs e) p))) 0)
    by (unfold X87IREval.eval_node, node_sem; rewrite Hdead; destruct Eo as [-> | ->]; reflexivity).
  rewrite Ev in HQ. unfold emit_guest_node. destruct Eo as [E | E]; rewrite E in *; cbn [guest_value] in HQ.
  - apply r_mov_reg; [apply guest_gpr, Hs | apply guest_gpr, Hd|]. intros a' Hsp'. apply HQ, no_value.
    apply (guest_writes _ _ _ (put m (p_dst p) _)); [exact Hd | exact Hsp | exact Hsp' |].
    rewrite guest_reg by exact Hs. replace (w_of (nz (b2z (p_is64 p)))) with (if p_is64 p then 64 else 32) by (destruct (p_is64 p); reflexivity).
    apply writes_put.
  - assert (Himm : 0 <= p_imm p < 2 ^ 32) by (apply wrap_range; lia).
    apply wp_load_immediate_no_xzr; [auto | lia | apply guest_gpr, Hd|]. intros a' m' Hsp' Hw. apply HQ, no_value.
    apply guest_writes; [exact Hd | exact Hsp | exact Hsp' |]. change (w_int 0) with 32 in Hw. rewrite wrap_small in Hw by exact Himm. exact Hw.
Qed.

(** The field of an extension: the two widths it may have. *)
Lemma ext_field (cls : Z) (sf : bool) x d :
  0 <= cls < 4 ->
  let lsb := if cls =? 1 then 8 else 0 in
  let width := if 2 <=? cls then (if cls =? 3 then 32 else 16) else 8 in
  wrap 32 (bitfield 32 2 lsb (lsb + width - 1) d (u32 x)) = bits x lsb width /\
  wrap (w_of sf) (bitfield (w_of sf) 0 lsb (lsb + width - 1) d (wrap (w_of sf) x)) = wrap (w_of sf) (sgn width (bits x lsb width)).
Proof.
  intros Hc lsb width.
  assert (B : forall w, 32 <= w -> bits (wrap w x) lsb width = bits x lsb width).
  { intros w Hw. unfold bits. apply Z.bits_inj'. intros i Hi.
    assert (Hlw : 0 <= lsb /\ 0 <= width /\ lsb + width <= 32).
    { subst lsb width. destruct (cls =? 1) eqn:E1; [apply Z.eqb_eq in E1; subst cls; cbn; lia|]. destruct (2 <=? cls), (cls =? 3); lia. }
    rewrite !Z.land_spec, Z.testbit_ones_nonneg, !Z.shiftr_spec, wrap_testbit by lia.
    destruct (Z.ltb_spec i width); [|rewrite !andb_false_r; reflexivity].
    replace (i + lsb <? w) with true by (symmetry; apply Z.ltb_lt; lia). reflexivity. }
  assert (Hext : (lsb <=? lsb + width - 1) = true /\ lsb + width - 1 - lsb + 1 = width /\ 0 < width <= 32).
  { subst width. split; [apply Z.leb_le|split]; destruct (2 <=? cls), (cls =? 3); lia. }
  destruct Hext as (E1 & E2 & Hwd).
  assert (R : 0 <= bits x lsb width < 2 ^ width) by (unfold bits; rewrite Z.land_ones by lia; apply Z.mod_pos_bound; lia).
  unfold bitfield. cbv zeta. rewrite E1, E2, !Z.shiftl_0_r. split.
  - rewrite B by lia. apply wrap_small. pose proof (Z.pow_le_mono_r 2 width 32). lia.
  - rewrite B by (destruct sf; cbn; lia). apply wrap_wrap. destruct sf; cbn; lia.
Qed.

Lemma wp_guest_ext (Q : unit -> asm -> machine -> Prop) :
  op n = GuestExt -> spares (p_dst p) -> after Q -> wp (emit_guest_node n) Q a m.
Proof.
  intros E Hsp HQ. destruct p_regs as (Hd & Hs & _ & Hcls).
  assert (Ev : eval_node e n = add_val (ir_regs e (Fpu.set_reg (i_regs e) (p_dst p) (guest_value GuestExt (i_regs e) p))) 0)
    by (unfold X87IREval.eval_node, node_sem; rewrite Hdead, E; reflexivity).
  rewrite Ev in HQ. unfold emit_guest_node. rewrite E. cbn [guest_value] in HQ. cbv zeta in *.
  set (lsb := if p_cls p =? 1 then 8 else 0) in *.
  set (width := if 2 <=? p_cls p then (if p_cls p =? 3 then 32 else 16) else 8) in *.
  assert (Hlw : 0 <= lsb /\ lsb + width - 1 < 32 /\ 0 <= lsb + width - 1 /\ lsb < 32).
  { subst lsb width. destruct (p_cls p =? 1) eqn:E1; [apply Z.eqb_eq in E1; rewrite E1; cbn; lia|]. destruct (2 <=? p_cls p), (p_cls p =? 3); lia. }
  pose proof (ext_field (p_cls p) (p_is64 p) (i_regs e (p_src p))) as Hext. cbv zeta in Hext. fold lsb width in Hext.
  destruct (p_sign p); cbn [negb].
  - destruct (p_is64 p); cbn [b2z];
      match goal with |- wp (emit_bitfield ?sf 0 ?sf ?r ?i ?rn ?rd) ?Q ?s ?m => apply (r_bitfield Q s m sf 0 r i rn rd) end;
      try (apply guest_gpr, Hd); try (apply gpr_zr, guest_gpr, Hs); try lia; try (cbn; lia);
      intros a' Hsp'; apply HQ, no_value; apply (guest_writes _ _ _ (put m (p_dst p) _)); try assumption;
      rewrite (src_gpr m (p_src p)) by (apply guest_gpr, Hs); rewrite (guest_reg (p_src p)) by exact Hs.
    + destruct (Hext (wrap (w_of true) (xr m (p_dst p))) Hcls) as [_ E2]. change (w_of (nz 1)) with (w_of true). rewrite E2. apply writes_put.
    + destruct (Hext (wrap (w_of false) (xr m (p_dst p))) Hcls) as [_ E2]. change (w_of (nz 0)) with (w_of false). rewrite E2. apply writes_put.
  - apply (r_bitfield Q a m 0 2); [apply gpr_zr, guest_gpr, Hs | apply guest_gpr, Hd | lia | cbn; lia | cbn; lia |].
    intros a' Hsp'. apply HQ, no_value. apply (guest_writes _ _ _ (put m (p_dst p) _)); try assumption.
    rewrite (src_gpr m (p_src p)) by (apply guest_gpr, Hs). rewrite (guest_reg (p_src p)) by exact Hs.
    change (w_of (nz 0)) with 32. destruct (Hext (u32 (xr m (p_dst p))) Hcls) as [E2 _]. rewrite E2. apply writes_put.
Qed.

(** ** LEA *)

Lemma wp_add_shifted_zr sf rm k rd a1 m1 (Q : unit -> asm -> machine -> Prop) :
  0 <= k < w_int sf -> k < 64 -> gpr rm -> gpr rd ->
  (forall s' m', same_pools a1 s' -> writes m1 m' rd (wrap (w_int sf) (Z.shiftl (xr m1 rm) k)) -> Q tt s' m') ->
  wp (emit_add_sub_shifted_reg sf 0 0 0 rm k GPR.XZR rd) Q a1 m1.
Proof.
  intros Hk Hk' Hm Hd HQ. eapply wp_insn; [apply asm_add_sub_shifted_reg| |].
  - unfold step_insn. cbn [branch exec]. rewrite field63, (gpr_field rm), (gpr_field rd) by (assumption || lia).
    change (nz 0) with false. change (Z.land 0 3) with 0. cbn [negb andb].
    replace (k <? w_int sf) with true by (symmetry; apply Z.ltb_lt; lia).
    change (0 <? 3) with true. cbn [guard andb]. reflexivity.
  - intros s' Hs. apply HQ; [exact Hs|]. change (Z.land GPR.XZR 0x1F) with 31. change (rd_zr (nz sf) m1 31) with 0.
    rewrite rd_zr_gpr by assumption. cbn [shift_reg].
    assert (Hw : 0 <= w_int sf) by (destruct (nz sf); cbn; lia).
    replace (wrap (w_int sf) (Z.shiftl (xr m1 rm) k)) with
      (wrap (w_int sf) (0 + wrap (w_int sf) (Z.shiftl (wrap (w_int sf) (xr m1 rm)) k)))
      by (rewrite Z.add_0_l, wrap_wrap by exact Hw; apply wrap_shiftl; lia).
    apply writes_wr_zr. unfold gpr in Hd. lia.
Qed.

(** The displacement of an address added to a guest register. *)
Definition adds (w : Z) (d src x : Z) (a1 : asm) (m1 : machine) (a' : asm) (m' : machine) : Prop :=
  gpool a' U /\ free_fpr_mask a' = free_fpr_mask a1 /\ safe U [d] m1 m' /\ xr m' d = wrap w (xr m1 src + x) /\
  nzcv m' = nzcv m1 /\ vr m' = vr m1 /\ mm m' = mm m1.

Lemma adds_writes w d src x v a1 m1 a' m' :
  gpool a1 U -> same_pools a1 a' -> writes m1 m' d v -> v = wrap w (xr m1 src + x) -> adds w d src x a1 m1 a' m'.
Proof.
  intros Hp Hs [Hv Hfr] Ev. split; [exact (gpool_same _ _ _ Hs Hp)|]. split; [apply Hs|].
  split; [apply (safe_frame _ _ _ _ [d]); [exact Hfr | auto]|]. split; [congruence|]. repeat split; apply Hfr.
Qed.

Lemma wp_guest_add_disp sf d src x a1 m1 (Q : unit -> asm -> machine -> Prop) :
  sf = 0 \/ sf = 1 -> 0 <= d < 16 -> 0 <= src < 16 -> - 2 ^ 31 <= x < 2 ^ 31 -> gpool a1 U -> (length U < 8)%nat ->
  (x = 0 -> d = src -> wrap (w_int sf) (xr m1 src) = xr m1 src) ->
  (forall a' m', adds (w_int sf) d src x a1 m1 a' m' -> Q tt a' m') ->
  wp (emit_guest_add_disp sf d src x) Q a1 m1.
Proof.
  intros Hsf Hd Hs Hx Hp HU Hz HQ. unfold emit_guest_add_disp. cbv zeta.
  assert (Gd : gpr d) by (unfold gpr; lia). assert (Gs : gpr src) by (unfold gpr; lia).
  destruct (Z.eqb_spec x 0) as [E0|N0].
  { destruct (Z.eqb_spec d src) as [Ed|Nd]; cbn [negb].
    - apply wp_ret, HQ. split; [exact Hp|]. split; [reflexivity|]. split; [apply safe_refl|].
      split; [rewrite E0, Z.add_0_r, (Hz E0 Ed), Ed; reflexivity | auto].
    - apply wp_mov_reg; [exact Gs | exact Gd|]. intros a2 m2 Hs2 Hw. apply HQ.
      apply (adds_writes _ _ _ _ _ _ _ _ _ Hp Hs2 Hw). rewrite E0, Z.add_0_r. reflexivity. }
  set (mag := if x <? 0 then - x else x).
  assert (Hmag : 0 < mag <= 2 ^ 31 /\ (if nz (b2z (x <? 0)) then - mag else mag) = x)
    by (subst mag; destruct (Z.ltb_spec x 0); [change (nz (b2z true)) with true | change (nz (b2z false)) with false]; cbv iota; lia).
  destruct Hmag as [Hmag Esgn]. clearbody mag.
  assert (Hadd : forall y, (if nz (b2z (x <? 0)) then y - mag else y + mag) = y + x) by (intros y; revert Esgn; destruct (x <? 0); cbn; intros; lia).
  destruct (Z.ltb_spec mag 4096) as [Hsm|Hbig].
  { apply wp_add_imm; [lia | lia | exact Gs | exact Gd|]. intros a2 m2 Hs2 Hw. cbn [Z.eqb] in Hw. rewrite Hadd in Hw.
    apply HQ. exact (adds_writes _ _ _ _ _ _ _ _ _ Hp Hs2 Hw eq_refl). }
  destruct ((Z.land mag 0xFFF =? 0) && (Z.shiftr mag 12 <? 4096)) eqn:Epg.
  { apply andb_true_iff in Epg as [E1 E2]. apply Z.eqb_eq in E1. apply Z.ltb_lt in E2.
    apply wp_add_imm; [lia | split; [apply Z.shiftr_nonneg; lia | exact E2] | exact Gs | exact Gd|]. intros a2 m2 Hs2 Hw.
    assert (Em : Z.shiftl (Z.shiftr mag 12) 12 = mag).
    { change 0xFFF with (Z.ones 12) in E1. rewrite Z.land_ones in E1 by lia.
      rewrite Z.shiftr_div_pow2, Z.shiftl_mul_pow2 by lia. pose proof (Z.div_mod mag (2 ^ 12) ltac:(lia)). lia. }
    cbn [Z.eqb] in Hw. rewrite Em, Hadd in Hw. apply HQ. exact (adds_writes _ _ _ _ _ _ _ _ _ Hp Hs2 Hw eq_refl). }
  apply wp_bind, (wp_galloc U); [exact Hp | exact HU|]. intros t a2 Ht Nt Hp2 Hm2.
  pose proof (scratch_gpr _ Ht) as Gt. assert (Gt' : gpr t) by (unfold gpr; lia).
  apply wp_bind, wp_load_immediate_no_xzr; [exact Hsf | apply wrap_range; lia | exact Gt'|]. intros a3 m3 Hs3 [Hw3 Hfr3].
  apply wp_bind, wp_add_shifted; [destruct (nz sf); cbn; lia | lia | exact Gt' | exact Gs | exact Gd|]. intros a4 m4 Hs4 [Hw4 Hfr4].
  apply (wp_gfree t U); [apply (gpool_same a3), (gpool_same a2); assumption | exact Ht | exact Nt|]. intros a5 Hp5 Hm5.
  apply HQ. split; [exact Hp5|]. split; [rewrite Hm5, (proj2 Hs4), (proj2 Hs3); exact Hm2|].
  assert (Hfr : frame [t; d] m1 m4) by (eapply frame_trans; [eapply frame_mono; [exact Hfr3|] | eapply frame_mono; [exact Hfr4|]]; cbn; tauto).
  split; [apply (safe_frame _ _ _ _ [t; d]); [exact Hfr | intros q [<- | [<- | []]]; [right; auto | left; left; reflexivity]]|].
  split; [|repeat split; apply Hfr].
  rewrite Hw4, Z.shiftl_0_r, (fr_x _ _ _ Hfr3), Hw3 by (intros [E | []]; lia).
  apply wrap_congr_add; [reflexivity|]. rewrite wrap_wrap by (destruct (nz sf); cbn; lia). apply wrap_le. destruct (nz sf); cbn; lia.
Qed.

Definition lea_width : Z := if p_is64 p && negb (p_addr32 p) then 64 else 32.

(** [lea r, \[r\]] emits nothing; it is right when the register is within the
    operand size. *)
Definition lea_ok : bool :=
  if p_has_base p && negb (p_has_index p) && (s32 (p_imm p) =? 0) && (p_dst p =? p_src p)
  then wrap lea_width (i_regs e (p_src p)) =? i_regs e (p_src p) else true.

Lemma wp_guest_lea (Q : unit -> asm -> machine -> Prop) :
  op n = GuestLea -> spares (p_dst p) -> lea_ok = true -> (length U < 8)%nat -> after Q -> wp (emit_guest_node n) Q a m.
Proof.
  intros E Hsp Hok HU HQ. destruct p_regs as (Hd & Hs & Hx & Hcls).
  set (d := p_dst p) in *. set (src := p_src p) in *. set (idx := p_idx p) in *. set (cls := p_cls p) in *.
  assert (Ev : eval_node e n = add_val (ir_regs e (Fpu.set_reg (i_regs e) d (guest_value GuestLea (i_regs e) p))) 0)
    by (unfold X87IREval.eval_node, node_sem; rewrite Hdead, E; reflexivity).
  rewrite Ev in HQ. unfold emit_guest_node. rewrite E. cbv zeta. fold d src idx cls.
  cbn [guest_value] in HQ. fold src idx cls in HQ. cbv zeta in HQ.
  set (sf := b2z (p_is64 p && negb (p_addr32 p))).
  assert (Ew : w_int sf = lea_width) by (unfold sf, lea_width; destruct (_ && _); reflexivity).
  assert (Hw : 32 <= w_int sf <= 64) by (destruct (nz sf); cbn; lia).
  assert (Hsf : sf = 0 \/ sf = 1) by (unfold sf; destruct (_ && _); auto).
  fold lea_width in HQ. rewrite <- Ew in HQ.
  set (x := s32 (p_imm p)) in *.
  assert (Hxr : - 2 ^ 31 <= x < 2 ^ 31) by (apply (sgn_range 32); lia).
  assert (Hp : gpool a U) by apply H.
  assert (Gd : gpr d) by (unfold gpr; lia). assert (Gs : gpr src) by (unfold gpr; lia). assert (Gx : gpr idx) by (unfold gpr; lia).
  assert (Hfin : forall v0 a' m', v0 = wrap (w_int sf) ((if p_has_base p then i_regs e src else 0) +
      (if p_has_index p then Z.shiftl (i_regs e idx) cls else 0) + x) ->
    gpool a' U -> free_fpr_mask a' = free_fpr_mask a -> safe U [d] m m' -> xr m' d = v0 ->
    nzcv m' = nzcv m -> vr m' = vr m -> mm m' = mm m -> Q tt a' m').
  { intros v0 a' m' Ev0 Hp' Hm' Hk' Hv' Hn' Hvr' Hmm'. apply HQ, no_value. rewrite <- Ev0. apply guest_done; try assumption.
    eapply safe_mono; [| |exact Hk']; cbn; tauto. }
  assert (Hadd : forall y a1 m1 a2 m2, gpool a1 U -> same_pools a a1 -> writes m m1 d (wrap (w_int sf) y) ->
      y = (if p_has_base p then i_regs e src else 0) + (if p_has_index p then Z.shiftl (i_regs e idx) cls else 0) ->
      adds (w_int sf) d d x a1 m1 a2 m2 -> Q tt a2 m2).
  { intros y a1 m1 a2 m2 Hp1 Hs1 [Hw1 Hfr1] Ey (Hp2 & Hm2 & Hk2 & Hv2 & Hn2 & Hvr2 & Hmm2).
    apply (Hfin (xr m2 d) a2 m2); try assumption.
    - rewrite Hv2, Hw1, wrap_add_l, Ey. reflexivity.
    - rewrite Hm2. apply Hs1.
    - eapply safe_trans; [apply (safe_frame _ _ _ _ [d]); [exact Hfr1 | auto] | exact Hk2].
    - reflexivity.
    - rewrite Hn2. apply Hfr1.
    - rewrite Hvr2. apply Hfr1.
    - rewrite Hmm2. apply Hfr1. }
  destruct (p_has_base p) eqn:Eb, (p_has_index p) eqn:Exi; cbn [andb].
  - apply wp_bind, wp_add_shifted; [lia | lia | exact Gx | exact Gs | exact Gd|]. intros a1 m1 Hs1 Hw1.
    rewrite !guest_reg in Hw1 by assumption.
    assert (Hp1 : gpool a1 U) by exact (gpool_same _ _ _ Hs1 Hp).
    apply wp_guest_add_disp; try assumption; [intros _ _; rewrite (proj1 Hw1); apply wrap_wrap; lia|].
    intros a2 m2 Ha. exact (Hadd _ a1 m1 a2 m2 Hp1 Hs1 Hw1 eq_refl Ha).
  - apply wp_guest_add_disp; try assumption.
    + intros E0 Ed. unfold lea_ok in Hok. rewrite Eb, Exi in Hok. fold d src x in Hok.
      rewrite (proj2 (Z.eqb_eq x 0) E0), (proj2 (Z.eqb_eq d src) Ed) in Hok. cbn [andb negb] in Hok.
      apply Z.eqb_eq in Hok. rewrite guest_reg, Ew by assumption. exact Hok.
    + intros a2 m2 (Hp2 & Hm2 & Hk2 & Hv2 & Hn2 & Hvr2 & Hmm2). rewrite guest_reg in Hv2 by assumption.
      apply (Hfin _ a2 m2 eq_refl); try assumption. rewrite Hv2, Z.add_0_r. reflexivity.
  - apply wp_bind, wp_add_shifted_zr; [lia | lia | exact Gx | exact Gd|]. intros a1 m1 Hs1 Hw1.
    rewrite guest_reg in Hw1 by assumption.
    assert (Hp1 : gpool a1 U) by exact (gpool_same _ _ _ Hs1 Hp).
    apply wp_guest_add_disp; try assumption; [intros _ _; rewrite (proj1 Hw1); apply wrap_wrap; lia|].
    intros a2 m2 Ha. exact (Hadd _ a1 m1 a2 m2 Hp1 Hs1 Hw1 eq_refl Ha).
  - apply wp_load_immediate_no_xzr; [exact Hsf | apply wrap_range; lia | exact Gd|]. intros a1 m1 Hs1 [Hw1 Hfr1].
    apply (Hfin _ a1 m1 eq_refl); try apply Hfr1.
    + exact (gpool_same _ _ _ Hs1 Hp).
    + apply Hs1.
    + apply (safe_frame _ _ _ _ [d]); [exact Hfr1 | auto].
    + rewrite Hw1. apply wrap_le. lia.
Qed.

(** ** Loads and stores *)

#[local] Abbreviation osz := (op_size (mem_operand n)).

Lemma guest_size : 0 <= osz <= 3 -> 0 <= guest_mem_size_log2 (mem_operand n) <= 3 /\
  Z.to_nat (2 ^ guest_mem_size_log2 (mem_operand n)) = size_bytes osz /\ (0 < size_bytes osz <= 8)%nat.
Proof.
  intros Ho. assert (osz = 0 \/ osz = 1 \/ osz = 2 \/ osz = 3) as Hc by lia.
  unfold guest_mem_size_log2, size_bytes. repeat destruct Hc as [-> | Hc]; try rewrite Hc; cbn; lia.
Qed.

(** The load sign-extends bytes and words only. *)
Definition load_ext_ok : bool := negb (Z.testbit (aux n) 4) || (osz =? IROperandSize.S8) || (osz =? IROperandSize.S16).

Lemma wp_guest_load (Q : unit -> asm -> machine -> Prop) :
  op n = GuestLoad -> access_ok e n (size_bytes osz) = true -> 0 <= osz <= 3 -> load_ext_ok = true -> spares (Z.land (aux n) 0xF) ->
  (length U < 8)%nat -> after Q -> wp (emit_guest_load cfg tgt f n) Q a m.
Proof.
  intros Eo Ha Hosz Hext Hsp HU HQ. pose proof (access_okE _ _ _ _ _ Ha) as (Ho & Hfold & Hap).
  destruct (guest_size Hosz) as (Hsz & Ek & Hkb). set (d := Z.land (aux n) 0xF) in *.
  assert (Hd : 0 <= d < 16) by apply field15_range. assert (Gd : gpr d) by (unfold gpr; lia).
  set (x := load (size_bytes osz) (i_mem e) adr).
  assert (Ev : eval_node e n = add_val (ir_regs e (Fpu.set_reg (i_regs e) d
      (if Z.testbit (aux n) 4 then u32 (sgn (8 * Z.of_nat (size_bytes osz)) x) else x))) 0)
    by (unfold X87IREval.eval_node, node_sem, x, d; rewrite Hdead, Eo; reflexivity).
  rewrite Ev in HQ. assert (Hp : gpool a U) by apply H.
  unfold emit_guest_load. cbv zeta. fold d.
  apply wp_bind, (wp_gpr_access_load cfg tgt segbase f (i_regs e) U);
    [apply H | exact (bases_at _ _ _ _ (proj1 H)) | exact Ho | exact Hfold | exact Hp | exact HU | exact Hsz | exact Gd|].
  intros a1 m1 Hs1 Hk1 Hv1 Hn1 Hm1 Hw1.
  rewrite Ek, (load_same cfg segbase b T0 Tmem x0 m0 f pinned skip single e P J rg a m n H _ Ha) in Hw1. fold x in Hw1.
  assert (Ebit : nz (Z.land (Z.shiftr (aux n) 4) 1) = Z.testbit (aux n) 4).
  { change 1 with (Z.ones 1). rewrite Z.land_ones by lia. rewrite <- Z.bit0_mod, Z.shiftr_spec by lia. cbn [Z.add].
    destruct (Z.testbit (aux n) 4); reflexivity. }
  rewrite Ebit. destruct (Z.testbit (aux n) 4) eqn:E4.
  - assert (Esz : (if guest_mem_size_log2 (mem_operand n) =? 0 then 7 else 15) = 8 * Z.of_nat (size_bytes osz) - 1 /\
      8 * Z.of_nat (size_bytes osz) <= 16).
    { unfold load_ext_ok in Hext. rewrite E4 in Hext. cbn [negb orb] in Hext. apply orb_true_iff in Hext.
      unfold guest_mem_size_log2, size_bytes. destruct Hext as [Hext | Hext]; apply Z.eqb_eq in Hext; rewrite Hext; cbv; intuition congruence. }
    destruct Esz as [Esz H16]. rewrite Esz.
    apply r_bitfield; [apply gpr_zr, Gd | exact Gd | lia | change (w_of (nz 0)) with 32; lia | change (w_of (nz 0)) with 32; lia|]. intros a2 Hs2.
    rewrite src_gpr, Hw1 by exact Gd. change (w_of (nz 0)) with 32. rewrite sxt_word by lia.
    apply HQ, no_value, (guest_done d _ _ (put m1 d _)); [exact Hd | exact Hsp | apply (gpool_same a1); [exact Hs2|exact (gpool_same _ _ _ Hs1 Hp)]
      | rewrite (proj2 Hs2); apply Hs1 | | apply set_reg_eq | exact Hn1 | exact Hv1 | exact Hm1].
    eapply safe_trans; [eapply safe_mono; [| |exact Hk1]; cbn; tauto|].
    apply (safe_only _ _ _ _ [d]); [untouched | intros q [<- | []]; cbn; auto].
  - apply wp_ret, HQ, no_value, guest_done; [exact Hd | exact Hsp | exact (gpool_same _ _ _ Hs1 Hp) | apply Hs1 | | exact Hw1 | exact Hn1 | exact Hv1 | exact Hm1].
    eapply safe_mono; [| |exact Hk1]; cbn; tauto.
Qed.

Lemma wp_guest_store_r (Q : unit -> asm -> machine -> Prop) :
  op n = GuestStoreR -> access_ok e n (size_bytes osz) = true -> 0 <= osz <= 3 -> (length U < 8)%nat -> after Q ->
  wp (emit_guest_store_r cfg tgt f n) Q a m.
Proof.
  intros Eo Ha Hosz HU HQ. pose proof (access_okE _ _ _ _ _ Ha) as (Ho & Hfold & Hap).
  destruct (guest_size Hosz) as (Hsz & Ek & Hkb). set (d := Z.land (aux n) 0xF).
  assert (Hd : 0 <= d < 16) by apply field15_range. assert (Gd : gpr d) by (unfold gpr; lia).
  assert (Ev : eval_node e n = add_val (ir_mem e (store (size_bytes osz) (i_mem e) adr (i_regs e d))) 0)
    by (unfold X87IREval.eval_node, node_sem, d; rewrite Hdead, Eo; reflexivity).
  rewrite Ev in HQ. assert (Hp : gpool a U) by apply H. unfold emit_guest_store_r. fold d.
  apply (wp_gpr_access_store cfg tgt segbase f (i_regs e) U);
    [apply H | exact (bases_at _ _ _ _ (proj1 H)) | exact Ho | exact Hfold | exact Hp | exact HU | exact Hsz
    | apply gpr_zr, Gd | right; left; apply guest_not_scratch, Hd |].
  intros a1 m1 Hs1 Hk1 Hv1 Hn1 Hm1. apply HQ, no_value. rewrite Ek in Hm1.
  eapply (store_done cfg segbase b T0 Tmem x0 m0 f pinned skip single Hf e P J rg a m a1 m1);
    [exact H | exact (gpool_same _ _ _ Hs1 Hp) | apply Hs1 | eapply safe_mono; [| |exact Hk1]; [auto | intros ? []] | exact Hn1 | exact Hv1 | exact Hm1 | | exact Hap].
  rewrite rd_zr_gpr, guest_reg by assumption. apply wrap_le. change (w_of true) with 64. lia.
Qed.

Lemma wp_guest_store_i (Q : unit -> asm -> machine -> Prop) :
  op n = GuestStoreI -> access_ok e n (size_bytes osz) = true -> 0 <= osz <= 3 -> (length U < 7)%nat -> after Q ->
  wp (emit_guest_store_i cfg tgt f n) Q a m.
Proof.
  intros Eo Ha Hosz HU HQ. pose proof (access_okE _ _ _ _ _ Ha) as (Ho & Hfold & Hap).
  destruct (guest_size Hosz) as (Hsz & Ek & Hkb). set (x := u32 (aux n)).
  assert (Hx : 0 <= x < 2 ^ 32) by (apply wrap_range; lia).
  assert (Ev : eval_node e n = add_val (ir_mem e (store (size_bytes osz) (i_mem e) adr x)) 0)
    by (unfold X87IREval.eval_node, node_sem, x; rewrite Hdead, Eo; reflexivity).
  rewrite Ev in HQ. assert (Hp : gpool a U) by apply H. unfold emit_guest_store_i. fold x.
  assert (Hst : forall rt a1 m1 a2 m2, Rel e P J rg a m1 -> rd_zr true m1 rt = x ->
    gpool a2 U -> free_fpr_mask a2 = free_fpr_mask a1 -> free_fpr_mask a1 = free_fpr_mask a -> safe U [] m1 m2 -> vr m2 = vr m1 -> nzcv m2 = nzcv m1 ->
    mm m2 = store (Z.to_nat (2 ^ guest_mem_size_log2 (mem_operand n))) (mm m1) adr (rd_zr true m1 rt) -> Q tt a2 m2).
  { intros rt a1 m1 a2 m2 H1 Hrt Hp2 Hf2 Hf1 Hk2 Hv2 Hn2 Hm2. rewrite Ek, Hrt in Hm2. apply HQ, no_value.
    eapply (store_done cfg segbase b T0 Tmem x0 m0 f pinned skip single Hf e P J rg a m1 a2 m2);
      [exact H1 | exact Hp2 | congruence | eapply safe_mono; [| |exact Hk2]; [auto | intros ? []] | exact Hn2 | exact Hv2 | exact Hm2 | reflexivity | exact Hap]. }
  unfold emit_load_immediate. destruct (Z.eqb_spec x 0) as [E0|N0].
  - apply wp_bind, wp_ret, wp_bind.
    apply (wp_gpr_access_store cfg tgt segbase f (i_regs e) U);
      [apply H | exact (bases_at _ _ _ _ (proj1 H)) | exact Ho | exact Hfold | exact Hp | lia | exact Hsz
      | apply zr_zr | left; reflexivity |].
    intros a1 m1 Hs1 Hk1 Hv1 Hn1 Hm1. apply (wp_pool _ _ _ _ tt a1); [reflexivity | reflexivity|].
    apply (Hst GPR.XZR a m a1 m1); auto; [exact (gpool_same _ _ _ Hs1 Hp) | apply Hs1].
  - change (GPR.XZR =? GPR.XZR) with true. cbv iota. apply wp_bind, wp_bind, (wp_galloc U); [exact Hp | lia|].
    intros t a1 Ht Nt Hp1 Hm1. assert (Gt : gpr t) by (apply scratch_gpr', Ht).
    apply wp_load_immediate_into; [auto | lia | exact Gt|]. intros a2 m2 Hs2 [Hw2 Hfr2].
    change (w_int 0) with 32 in Hw2. rewrite wrap_small in Hw2 by exact Hx.
    assert (H2 : Rel e P J rg a m2).
    { apply (quiet_done cfg segbase b T0 Tmem x0 m0 f pinned skip single Hf e P J rg a m a m2); try apply Hfr2; auto.
      apply (safe_frame _ _ _ _ [t]); [exact Hfr2 | intros r [<- | []]; auto]. }
    assert (Hp2 : gpool a2 (t :: U)) by exact (gpool_same _ _ _ Hs2 Hp1).
    apply wp_bind, (wp_gpr_access_store cfg tgt segbase f (i_regs e) (t :: U));
      [apply H2 | exact (bases_at _ _ _ _ (proj1 H2)) | exact Ho | exact Hfold | exact Hp2 | cbn [length]; lia | exact Hsz
      | apply gpr_zr, Gt | right; right; left; reflexivity |].
    intros a3 m3 Hs3 Hk3 Hv3 Hn3 Hm3.
    apply (wp_gfree t U); [exact (gpool_same _ _ _ Hs3 Hp2) | exact Ht | exact Nt|]. intros a4 Hp4 Hm4.
    apply (Hst t a1 m2 a4 m3); auto.
    + rewrite rd_zr_gpr, Hw2 by exact Gt. apply wrap_small. change (w_of true) with 64. lia.
    + rewrite Hm4, (proj2 Hs3). apply Hs2.
    + apply (safe_drop _ _ t); [exact Ht | exact Nt |]. eapply safe_mono; [| |exact Hk3]; [auto | intros ? []].
Qed.
End Node.

(** ** FSTSW *)

Section Fstsw.
Context (e : ir) (J : list Z) (n : Node).
Hypothesis (Hdead : dead n = false) (HTmem : 0 <= Tmem < 8).

Lemma status_word_range w t : 0 <= w < 2 ^ 16 -> 0 <= t < 8 -> 0 <= status_word w t < 2 ^ 16.
Proof.
  intros Hw Ht. unfold status_word. apply lor_bound; [lia | rewrite Z.land_comm; apply land_bound; lia|].
  rewrite Z.shiftl_mul_pow2 by lia. lia.
Qed.

(** TOP replaced in a status word. *)
Lemma status_word_top w t t' : 0 <= t < 8 ->
  Z.lor (Z.land (status_word w t) (Z.lnot 0x3800)) (Z.shiftl t' 11) = status_word w t'.
Proof.
  intros Ht. unfold status_word. rewrite Z.land_lor_distr_l, <- Z.land_assoc, Z.land_diag.
  assert (E : Z.land (Z.shiftl t 11) (Z.lnot 0x3800) = 0).
  { assert (t = 0 \/ t = 1 \/ t = 2 \/ t = 3 \/ t = 4 \/ t = 5 \/ t = 6 \/ t = 7) as Hc by lia.
    repeat destruct Hc as [-> | Hc]; try reflexivity. subst. reflexivity. }
  rewrite E, Z.lor_0_r. reflexivity.
Qed.

Lemma bfi_status w t v : 0 <= w < 2 ^ 16 -> 0 <= t < 8 -> 0 <= Z.land v 7 < 8 ->
  u32 (bitfield 32 1 21 2 (u32 (status_word w t)) (u32 v)) = status_word w (Z.land v 7).
Proof.
  intros Hw Ht Hv. pose proof (status_word_range w t Hw Ht). pose proof (status_word_range w (Z.land v 7) Hw Hv).
  rewrite bfi_top, land7_u32, (wrap_small 32 (status_word w t)) by lia. rewrite status_word_top by exact Ht. apply wrap_small. lia.
Qed.

Section Top.
Context (w Wd : Z) (V : list Z) (a1 : asm) (m1 : machine).
Hypothesis (Hp : gpool a1 (Wd :: V)) (HV : (length V < 7)%nat) (Hsc : scratch Wd = true) (Hni : ~ In Wd V).
Hypothesis (Htop : In (Wd_top f) V) (Ht : xr m1 (Wd_top f) = T0) (Hx : xr m1 Wd = status_word w Tmem) (Hw : 0 <= w < 2 ^ 16).

Definition topped (td : Z) (a2 : asm) (m2 : machine) : Prop :=
  gpool a2 (Wd :: V) /\ free_fpr_mask a2 = free_fpr_mask a1 /\ safe V [] m1 m2 /\
  xr m2 Wd = status_word w ((T0 + td) mod 8) /\ nzcv m2 = nzcv m1 /\ vr m2 = vr m1 /\ mm m2 = mm m1.

Lemma top_gpr : gpr (Wd_top f).
Proof. apply (pinned_gpr T0 f pinned Hf), (fk_top _ _ _ Hf). Qed.

Lemma wp_sw_top td (Q : unit -> asm -> machine -> Prop) :
  -8 <= td <= 8 -> (td = 0 -> entry_top_dirty f = false -> Tmem = T0) ->
  (forall a2 m2, topped td a2 m2 -> Q tt a2 m2) -> wp (emit_sw_top f td Wd) Q a1 m1.
Proof.
  intros Htd Hdirty HQ. unfold emit_sw_top. rewrite (fk_top_known _ _ _ Hf). cbn [Z.leb Z.compare Z.eqb].
  pose proof (fk_T0 _ _ _ Hf) as HT. pose proof top_gpr as Gt. assert (Gw : gpr Wd) by (apply scratch_gpr', Hsc).
  assert (Htw : Wd_top f <> Wd) by (intros E; rewrite E in Htop; contradiction).
  destruct (Z.eqb_spec td 0) as [->|N0]; cbn [negb].
  - destruct (entry_top_dirty f).
    + apply r_bitfield; [apply gpr_zr, Gt | exact Gw | lia | cbn; lia | cbn; lia|]. intros a2 Hs2. apply HQ.
      change (w_of (nz 0)) with 32. rewrite src_gpr, Hx, Ht by exact Gt.
      rewrite bfi_status by (exact Hw || exact HTmem || (rewrite land7_mod; apply Z.mod_pos_bound; lia)).
      split; [exact (gpool_same _ _ _ Hs2 Hp)|]. split; [apply Hs2|]. split.
      { apply (safe_only _ _ _ _ [Wd]); [untouched | intros r [<- | []]; auto]. }
      split; [unfold put; cbn [xr set_xr]; rewrite set_reg_eq, land7_mod, Z.add_0_r; reflexivity | auto].
    + apply wp_ret, HQ. split; [exact Hp|]. split; [reflexivity|]. split; [apply safe_refl|].
      split; [rewrite Hx, Hdirty, Z.add_0_r, Z.mod_small by (reflexivity || lia); reflexivity | auto].
  - apply wp_bind, (wp_galloc (Wd :: V)); [exact Hp | cbn [length]; lia|]. intros q a2 Hsq Nq Hp2 Hm2.
    assert (Gq : gpr q) by (apply scratch_gpr', Hsq).
    assert (Hqw : q <> Wd) by (intros ->; apply Nq; left; reflexivity).
    assert (HqV : ~ In q V) by (intros Hq; apply Nq; right; exact Hq).
    apply wp_bind, wp_bind.
    assert (Hadd : forall sub imm, 0 <= imm < 4096 -> (if nz sub then T0 - imm else T0 + imm) = T0 + td ->
      wp (emit_add_imm 0 sub 0 0 imm (Wd_top f) q) (fun _ a3 m3 => same_pools a2 a3 /\ writes m1 m3 q (u32 (T0 + td))) a2 m1).
    { intros sub imm Hi E. apply wp_add_imm; [lia | exact Hi | exact Gt | exact Gq|]. intros a3 m3 Hs3 Hw3.
      rewrite Ht in Hw3. cbn [Z.eqb] in Hw3. rewrite E in Hw3. split; [exact Hs3 | exact Hw3]. }
    eapply wp_mono with (P := fun _ a3 m3 => same_pools a2 a3 /\ writes m1 m3 q (u32 (T0 + td))).
    { destruct (Z.ltb_spec td 0); apply Hadd; try lia; cbn; lia. }
    cbv beta. intros _ a3 m3 (Hs3 & Hq3 & Hfr3).
    apply r_and7; [exact Gq | exact Gq|]. intros a4 Hs4. rewrite Hq3, land7_u32.
    apply wp_bind, r_bitfield; [apply gpr_zr, Gq | exact Gw | lia | cbn; lia | cbn; lia|]. intros a5 Hs5.
    change (w_of (nz 0)) with 32. rewrite src_gpr by exact Gq.
    assert (E1 : xr (put m3 q (Z.land (T0 + td) 7)) Wd = status_word w Tmem).
    { unfold put. cbn [xr set_xr]. rewrite set_reg_ne by congruence. rewrite (fr_x _ _ _ Hfr3 Wd), Hx; [reflexivity|].
      intros [E | []]. congruence. }
    assert (E2 : xr (put m3 q (Z.land (T0 + td) 7)) q = Z.land (T0 + td) 7) by (unfold put; cbn [xr set_xr]; apply set_reg_eq).
    rewrite E1, E2.
    assert (Hr7 : 0 <= (T0 + td) mod 8 < 8) by (apply Z.mod_pos_bound; lia).
    rewrite bfi_status by (exact Hw || exact HTmem || (rewrite land7_mod; apply Z.mod_pos_bound; lia)).
    apply (wp_gfree q (Wd :: V)); [apply (gpool_same a4), (gpool_same a3), (gpool_same a2); assumption | exact Hsq | exact Nq|].
    intros a6 Hp6 Hm6. apply HQ. split; [exact Hp6|].
    split; [rewrite Hm6, (proj2 Hs5), (proj2 Hs4), (proj2 Hs3); exact Hm2|]. split.
    { apply (safe_only _ _ _ _ [q; Wd]).
      - intros r Hr. unfold put. cbn [xr set_xr]. rewrite !set_reg_ne by (cbn in Hr; intuition congruence).
        apply (fr_x _ _ _ Hfr3). cbn in *. tauto.
      - intros r [<- | [<- | []]]; auto. }
    split; [unfold put; cbn [xr set_xr]; rewrite set_reg_eq, !land7_mod, Z.mod_mod by lia; reflexivity|].
    split; [apply Hfr3|]. split; apply Hfr3.
Qed.
End Top.

(** AX takes the low half of the word; the instruction clears the bits above
    the 32 it writes. *)
Lemma insert_ax r w : 0 <= r < 2 ^ 32 -> 0 <= w < 2 ^ 16 ->
  u32 (bitfield 32 1 0 15 (u32 r) (u32 w)) = Z.lor (Z.land r (Z.lnot 0xFFFF)) (u16 w).
Proof.
  intros Hr Hw. rewrite (wrap_small 32 r), (wrap_small 32 w), (wrap_small 16 w) by lia.
  assert (E : bitfield 32 1 0 15 r w = Z.lor (Z.land r (Z.lnot 0xFFFF)) w).
  { unfold bitfield. cbn [Z.leb Z.compare]. rewrite Z.shiftl_0_r. change (15 - 0 + 1) with 16. rewrite bits_low by lia.
    rewrite wrap_small by lia. reflexivity. }
  rewrite E. apply wrap_small, lor_bound; [lia | rewrite Z.land_comm; apply land_bound; lia | lia].
Qed.

(** The word [Wd] holds goes to the guest register. *)
Lemma wp_sw_insert rg1 ar Wd a1 m1 (Q : Regs -> asm -> machine -> Prop) :
  Rel e None J rg1 ar m1 -> free_fpr_mask a1 = free_fpr_mask ar -> scratch Wd = true -> ~ In Wd (in_use None rg1) ->
  gpool a1 (Wd :: in_use None rg1) -> xr m1 Wd = status_word (i_sw e) Tmem -> (length (in_use None rg1) < 7)%nat ->
  op n = FStsw -> 0 <= input n 1 < 16 -> spares (input n 1) -> 0 <= i_regs e (input n 1) < 2 ^ 32 ->
  -8 <= input n 2 <= 8 -> (input n 2 = 0 -> entry_top_dirty f = false -> Tmem = T0) ->
  (forall a' m', Rel (eval_node e n) None J rg1 a' m' -> Q rg1 a' m') ->
  wp (emit_sw_top f (input n 2) Wd ;;; emit_bitfield 0 1 0 0 15 Wd (input n 1) ;;; free_gpr Wd ;;; ret rg1) Q a1 m1.
Proof.
  intros H1 Hfm Hsc Hni Hp Hx HU Eo Hd Hsp Hrd Htd Hdirty HQ. pose proof H1 as (Hm & _ & _).
  pose proof (mr_sw _ _ _ _ _ _ _ _ _ _ _ _ _ Hm) as Hsw. pose proof (mr_top _ _ _ _ _ _ _ _ _ _ _ _ _ Hm) as Ht.
  set (t := (T0 + input n 2) mod 8) in *. assert (Ht8 : 0 <= t < 8) by (apply Z.mod_pos_bound; lia).
  assert (Ev : eval_node e n = add_val (ir_regs e (Fpu.set_reg (i_regs e) (input n 1)
      (Z.lor (Z.land (i_regs e (input n 1)) (Z.lnot 0xFFFF)) (u16 (status_word (i_sw e) t))))) 0)
    by (unfold X87IREval.eval_node, node_sem; rewrite Hdead, Eo; reflexivity).
  rewrite Ev in HQ. apply wp_bind.
  apply (wp_sw_top (i_sw e) Wd (in_use None rg1)); try assumption; [apply pinned_in_use, (fk_top _ _ _ Hf)|].
  intros a2 m2 (Hp2 & Hm2 & Hk2 & Hx2 & Hn2 & Hv2 & Hmm2). fold t in Hx2.
  assert (Gd : gpr (input n 1)) by (unfold gpr; lia). assert (Gw : gpr Wd) by (apply scratch_gpr', Hsc).
  assert (Hsd : scratch (input n 1) = false) by (apply guest_not_scratch, Hd).
  apply wp_bind, r_bitfield; [apply gpr_zr, Gw | exact Gd | lia | cbn; lia | cbn; lia|]. intros a3 Hs3.
  change (w_of (nz 0)) with 32. rewrite src_gpr, Hx2 by exact Gw.
  assert (Hd2 : xr m2 (input n 1) = i_regs e (input n 1)).
  { rewrite Hk2; [apply (mr_regs _ _ _ _ _ _ _ _ _ _ _ _ _ Hm), Hd | lia | intros [] | left; exact Hsd]. }
  rewrite Hd2, insert_ax by (exact Hrd || apply status_word_range; assumption).
  apply wp_bind, (wp_gfree Wd (in_use None rg1)); [exact (gpool_same _ _ _ Hs3 Hp2) | exact Hsc | exact Hni|].
  intros a4 Hp4 Hm4. apply wp_ret, HQ, no_value.
  apply (guest_done e None J rg1 ar m1 H1 (input n 1)); try assumption.
  - rewrite Hm4, (proj2 Hs3), Hm2. exact Hfm.
  - apply (safe_trans _ _ _ m2).
    + eapply safe_mono; [| |exact Hk2]; [auto | intros ? []].
    + apply (safe_only _ _ _ _ [input n 1]); [untouched | intros q [<- | []]; cbn; auto].
  - apply set_reg_eq.
Qed.

Hypothesis (Eo : op n = FStsw) (Hd : 0 <= input n 1 < 16) (Hsp : spares (input n 1)).
Hypothesis (Hrd : 0 <= i_regs e (input n 1) < 2 ^ 32) (Htd : -8 <= input n 2 <= 8).
Hypothesis (Hdirty : input n 2 = 0 -> entry_top_dirty f = false -> Tmem = T0).

Lemma wp_fstsw_unfused rg a m (Q : Regs -> asm -> machine -> Prop) :
  Rel e None J rg a m -> is_fused n = false -> (length (in_use None rg) < 7)%nat ->
  (forall a' m', Rel (eval_node e n) None J rg a' m' -> Q rg a' m') -> wp (emit_fstsw f n rg) Q a m.
Proof.
  intros H Hfu HU HQ. unfold emit_fstsw. rewrite Hfu. pose proof H as (Hm & _ & _).
  pose proof (mr_base _ _ _ _ _ _ _ _ _ _ _ _ _ Hm) as (Gb & Eb & Hb0 & Hb1).
  apply wp_bind, wp_bind, (wp_galloc (in_use None rg)); [apply H | lia|]. intros Wd a1 Hsc Hni Hp1 Hm1.
  assert (Hg : gpr Wd) by (apply scratch_gpr', Hsc).
  apply wp_bind, r_ldr; [exact Gb | exact Hg | lia | cbn; lia|]. intros a2 Hs2.
  change (Z.shiftl (kX87StatusWordOff / 2) 1) with 2. rewrite Eb, (u64_small (b + 2)) by lia.
  change (Z.to_nat (2 ^ 1)) with 2%nat.
  assert (Esw : load 2 (mm m) (b + 2) = status_word (i_sw e) Tmem).
  { transitivity (statusWord (x87_at (mm m) b)); [reflexivity|].
    rewrite (mr_state _ _ _ _ _ _ _ _ _ _ _ _ _ Hm). reflexivity. }
  rewrite Esw. apply wp_ret. apply (wp_sw_insert rg a Wd); try assumption.
  - apply (quiet_done cfg segbase b T0 Tmem x0 m0 f pinned skip single Hf e None J rg a m a); auto; [apply H|].
    apply (safe_only _ _ _ _ [Wd]); [untouched | intros q [<- | []]; auto].
  - rewrite (proj2 Hs2). exact Hm1.
  - exact (gpool_same _ _ _ Hs2 Hp1).
  - apply set_reg_eq.
Qed.

Lemma wp_fstsw_fused w0 c rg a m (Q : Regs -> asm -> machine -> Prop) :
  Rel e (Some (input n 0, w0, c)) J rg a m -> is_fused n = true -> (length (in_use None rg) < 7)%nat ->
  (forall rg' a' m', Rel (eval_node e n) None J rg' a' m' -> Wd_nzcv_saved rg' = Wd_nzcv_saved rg -> Q rg' a' m') ->
  wp (emit_fstsw f n rg) Q a m.
Proof.
  intros H Hfu HU HQ. unfold emit_fstsw. rewrite Hfu. pose proof H as (Hm & Hr & Hp). cbv zeta.
  set (id := input n 0) in *. set (P := Some (id, w0, c)) in *. set (pk := zget (node_fpr rg) id) in *.
  assert (Eu : in_use P rg = pk :: in_use None rg) by reflexivity.
  pose proof (mr_pend _ _ _ _ _ _ _ _ _ _ _ _ _ Hm) as (Hid & Esw & Epk). fold pk in Epk.
  assert (Hsp' : scratch pk = true) by (apply (pr_held _ _ _ _ _ _ Hp); left; reflexivity).
  assert (Hid128 : id < 128).
  { destruct (Z.ltb_spec id 128) as [|Hge]; [assumption|]. exfalso. pose proof (scratch_gpr _ Hsp') as Hs. unfold pk, zget in Hs.
    rewrite nth_overflow in Hs by (rewrite (fr_len _ _ _ _ _ _ _ Hr); lia). lia. }
  assert (Eg : get rg id = pk).
  { unfold get, kMaxNodes. destruct (Z.ltb_spec id 0), (Z.leb_spec 128 id); try lia. reflexivity. }
  rewrite Eg. pose proof (pr_nodup _ _ _ _ _ _ Hp) as Hnd. rewrite Eu in Hnd. apply NoDup_cons_iff in Hnd as [Hnpk _].
  assert (Hcc : 0 <= CompareProps.cc_bits c < 2 ^ 16) by (destruct c as [[]|]; cbv; split; congruence).
  assert (Hin : In (Xbase f) (in_use P rg)) by (apply pinned_in_use, (fk_xb _ _ _ Hf)).
  pose proof (mr_old_sw _ _ _ _ _ _ _ _ _ _ _ _ _ Hm) as Hw0. cbn [memory_sw P] in Hw0.
  apply wp_bind, wp_bind, (wp_cc_write_sw_keep b (Xbase f) pk (in_use P rg));
    [exact (mr_base _ _ _ _ _ _ _ _ _ _ _ _ _ Hm) | contradiction | apply Hp | rewrite Eu; cbn [length]; lia
    | apply scratch_gpr', Hsp' | rewrite Eu; left; reflexivity | rewrite Epk; exact Hcc |].
  intros r a2 m2 Hsr Hnr Hp2 Hm2 (Hch & Ho & Hx) Hxr.
  apply wp_bind, (wp_gfree pk (r :: in_use None rg)).
  { apply (gpool_ext a2 (r :: in_use P rg)); [rewrite Eu; intros q; cbn; tauto | exact Hp2]. }
  { exact Hsp'. }
  { intros [E | Hq]; [|contradiction]. apply Hnr. rewrite E, Eu. left. reflexivity. }
  intros a3 Hp3 Hm3. apply wp_ret.
  set (rg1 := set_fpr rg id (-1)).
  assert (Eu1 : in_use None rg1 = in_use None rg) by reflexivity.
  assert (Hstate : with_cc (x87_at (mm m) b) (xr m pk) = mkX87 (i_cw e) (status_word (i_sw e) Tmem) (tagWord x0) (X87State.st x0)).
  { unfold with_cc. rewrite (mr_state _ _ _ _ _ _ _ _ _ _ _ _ _ Hm), Epk. cbn [with_sw controlWord statusWord tagWord X87State.st memory_sw P].
    rewrite (cc_status w0 Tmem c Hw0 HTmem), <- Esw. reflexivity. }
  destruct (pool_without m a pk (in_use None rg)) as (ar & Hpr & Hfr); [rewrite <- Eu; apply Hp | exact Hsp' | exact Hnpk|].
  assert (HJ0 : forall j, In j J -> 0 <= j /\ j <> id).
  { intros j Hj. pose proof (fr_ids _ _ _ _ _ _ _ Hr j Hj). split; [lia|]. intros ->. exact (fr_pend _ _ _ _ _ _ _ Hr Hj). }
  assert (Emap : map (zget (node_fpr rg1)) J = map (zget (node_fpr rg)) J).
  { apply map_fpr_set; [lia | apply HJ0 | exact (fr_pend _ _ _ _ _ _ _ Hr)]. }
  assert (H3 : Rel e None J rg1 ar m2).
  { split; [|split].
    - replace e with (ir_sw e (i_sw e)) by (destruct e; reflexivity).
      apply (machine_write_sw cfg segbase b T0 Tmem x0 m0 f pinned skip Hf e P rg rg1 _ a m m2 (i_sw e) Hm Hp); try apply Hch; try reflexivity.
      + apply (safe_changes _ _ _ _ [r]); [exact Hch|]. intros q [<- | []]. auto.
      + exact Ho.
      + apply Hm.
      + rewrite Hx. exact Hstate.
    - pose proof (fprs_vr _ _ _ _ _ _ _ m2 Hr (ch_v _ _ _ Hch)) as Hr2. destruct Hr2. constructor; auto.
      + cbn [node_fpr set_fpr rg1]. rewrite zset_length. assumption.
      + intros j Hj. cbn [node_fpr set_fpr rg1]. rewrite zget_zset_ne by (apply HJ0 in Hj; intuition lia). auto.
      + rewrite Emap. assumption.
      + intros j Hj. cbn [node_fpr set_fpr rg1]. rewrite zget_zset_ne by (apply HJ0 in Hj; intuition lia). auto.
      + intros j H0 Hn _. cbn [node_fpr set_fpr rg1]. destruct (Z.eq_dec j id) as [->|Hne].
        * apply zget_zset_eq. rewrite fr_len. lia.
        * rewrite zget_zset_ne by (lia || congruence). apply fr_none; auto.
    - destruct Hp. constructor; [exact Hpr | rewrite Eu in pr_nodup; apply NoDup_cons_iff in pr_nodup; apply pr_nodup | |].
      + intros q Hq. apply pr_held. right. exact Hq.
      + rewrite Emap. exact (fpool_mask _ _ _ _ Hfr pr_fpool). }
  apply (wp_sw_insert rg1 ar r); try assumption.
  - rewrite Hm3, Hm2, Hfr. reflexivity.
  - intros Hq. apply Hnr. rewrite Eu. right. exact Hq.
  - rewrite Hxr, Hstate. reflexivity.
  - intros a' m' HR. apply HQ; [exact HR | reflexivity].
Qed.
End Fstsw.
End Guest.
