(* ===== verification/LowerNodes.v ===== *)
(** One node of a run: the code [emit_node] and [free_dead_inputs] emit for it
    takes a machine that stands for an evaluation state to one that stands for
    the state after the node.  What the code relies on is checked in two
    parts: [node_fits] looks at the plan alone (registers, the pending
    compare, the saved flags), [node_runs] at the state (addresses, stack
    slots, the rounding mode). *)

From S2P Require Import Prelude F64 GuestMem X87State X87Props Emit IROperand X87IR Fpu X87IREval A64Exec CodeExec.
From S2P Require Import TranslatorHelpers Pools InsnRules AccessProps X87Helpers X87Cache X87IRPlan X87IRLower.
From S2P Require Import X87Memory AccessProps X87HelpersProps X87IRSim LowerRel LowerValues LowerEffects LowerGuest.
From S2P Require X87Runtime.

(** ** What the lowering keeps track of *)

(** The nodes in SIMD registers, the compare whose codes wait in a register,
    whether NZCV is saved. *)
Record track := mkTrack { tk_fprs : list Z; tk_pend : option Z; tk_saved : bool }.

Definition is_some (o : option Z) : bool := match o with Some _ => true | None => false end.

Definition mem (l : list Z) (x : Z) : bool := existsb (Z.eqb x) l.

Lemma memE l x : mem l x = true -> In x l.
Proof. unfold mem. rewrite existsb_exists. intros (y & Hy & E). apply Z.eqb_eq in E. subst. exact Hy. Qed.

(** The inputs that name a value. *)
Definition value_inputs (o : Op) : list Z :=
  match o with
  | FAdd | FSub | FMul | FNMul | FDiv | FCSel | FCmp | FComI => [0; 1]
  | FMAdd | FMSub | FNMSub => [0; 1; 2]
  | FNeg | FAbs | FSqrt | FRndInt | CvtF32ToF64 | CvtF64ToF32 | FTst
  | StoreF64 | StoreF32Raw | StoreI16 | StoreI32 | StoreI64 => [0]
  | _ => []
  end.

Definition is_arith (o : Op) : bool :=
  match o with
  | FAdd | FSub | FMul | FNMul | FDiv | FMAdd | FMSub | FNMSub | FNeg | FAbs | FSqrt => true
  | _ => false
  end.

(** The node's value is a single. *)
Definition single_op (n : Node) : bool :=
  match op n with
  | LoadF32Raw | CvtF64ToF32 => true
  | o => is_arith o && (fp_type n =? 0)
  end.

Section Check.
Context (cfg : RosettaConfig) (f : Frame) (np : Z).

#[local] Abbreviation k := (f_cmps f).
#[local] Abbreviation lu := (f_last_use f).

Definition held_gprs (T : track) (n : Node) : Z :=
  match op n with
  | FCmp | FTst => b2z (nzcv_hoist k)
  | FStsw => b2z (is_some (tk_pend T)) + b2z (tk_saved T) - b2z (is_fused n)
  | _ => b2z (is_some (tk_pend T)) + b2z (tk_saved T)
  end.

Definition gpr_room (T : track) (n : Node) : bool :=
  np + held_gprs T n + gpr_transient cfg (f_ctx f) k n <=? 8.

Definition fpr_room (T : track) (i : Z) (n : Node) : bool :=
  negb (produces_fpr (op n)) || (length (tk_fprs T) <? fpr_count cfg)%nat ||
  (can_reuse (op n) && match first_dying lu (fun _ => true) n i with Some _ => true | None => false end).

(** The cached bases do not depend on guest register [d]. *)
Definition sparesb (d : Z) : bool :=
  forallb (fun k => negb (b_reg k =? d) && negb (uses_reg (b_rep k) d)) (f_bases f).

Definition size_ok (n : Node) : bool := (0 <=? op_size (mem_operand n)) && (op_size (mem_operand n) <=? 3).

Definition op_fits (T : track) (n : Node) : bool :=
  match op n with
  | ReadSt => (0 <=? initial_depth n) && (initial_depth n <? 8)
  | ConstF64 => (0 <=? imm_bits n) && (imm_bits n <? 2 ^ 64)
  | FCSel | FComI => negb (nzcv_skip k) && negb (tk_saved T)
  | FCmp | FTst => negb (is_some (tk_pend T)) && (nzcv_hoist k || negb (tk_saved T))
  | FStsw =>
      (0 <=? input n 1) && (input n 1 <? 16) && (-8 <=? input n 2) && (input n 2 <=? 8) && sparesb (input n 1) &&
      match tk_pend T with
      | Some id => is_fused n && (id =? input n 0)
      | None => negb (is_fused n)
      end
  | GuestMovRR | GuestMovRI | GuestLea | GuestExt => sparesb (p_dst (guest_unpack (imm_bits n)))
  | GuestLoad => size_ok n && load_ext_ok n && sparesb (Z.land (aux n) 0xF)
  | GuestStoreR | GuestStoreI => size_ok n
  | _ => true
  end.

Definition node_fits (T : track) (i : Z) (n : Node) : bool :=
  (zget (fst (f_pairs f)) i <? 0) && negb (zget (snd (f_pairs f)) i =? 1) &&
  forallb (fun j => mem (tk_fprs T) (input n j)) (value_inputs (op n)) &&
  (negb (can_reuse (op n)) || forallb (fun j => (input n j <? 0) || mem (tk_fprs T) (input n j)) [0; 1; 2]) &&
  (negb (is_arith (op n)) ||
   forallb (fun j => (fp_type n =? 1) || single_op (node (f_ctx f) (input n j))) (value_inputs (op n))) &&
  gpr_room T n && fpr_room T i n && op_fits T n.

(** After the node's code, and after the dying inputs' registers are free. *)
Definition after_node (T : track) (i : Z) (n : Node) : track :=
  mkTrack
    (if can_reuse (op n) then i :: claim (first_dying lu (fun _ => true) n i) (tk_fprs T)
     else if produces_fpr (op n) then i :: tk_fprs T else tk_fprs T)
    (match op n with
     | FCmp | FTst => if is_fused n then Some i else None
     | FStsw => None
     | _ => tk_pend T
     end)
    (match op n with
     | FCmp | FTst => nzcv_hoist k && negb (i =? nzcv_last_cmp k)
     | _ => tk_saved T
     end).

Definition inputs_free (T : track) (n : Node) : bool :=
  forallb (fun j => (input n j <? 128) && match tk_pend T with Some id => negb (input n j =? id) | None => true end) [0; 1; 2].

Definition drop_inputs (T : track) (i : Z) (n : Node) : track :=
  mkTrack (drop_dying lu i [input n 0; input n 1; input n 2] (tk_fprs T)) (tk_pend T) (tk_saved T).

Fixpoint track_nodes (l : list (Z * Node)) (T : track) : option track :=
  match l with
  | [] => Some T
  | (i, n) :: l =>
      if dead n then track_nodes l T
      else
        let T' := after_node T i n in
        if node_fits T i n && inputs_free T' n then track_nodes l (drop_inputs T' i n) else None
  end.
End Check.

(** ** What a node's code relies on when it runs *)

Section Runs.
Context (cfg : RosettaConfig) (segbase : Z -> Z) (b T0 : Z) (stack0 : list (option Z)).

#[local] Abbreviation access_ok := (access_ok segbase b).

(** FRINTN and FCVTNS are right in the default mode only. *)
Definition rounds (e : ir) : bool := negb (fast_round cfg) || (rc_of (i_cw e) =? 0).

Definition node_runs (e : ir) (n : Node) : bool :=
  match op n with
  | ReadSt => match nth (Z.to_nat (initial_depth n)) stack0 None with Some _ => true | None => false end
  | LoadF64 | LoadI64 | StoreF64 => access_ok e n 8
  | LoadF32Raw | LoadI32 | StoreF32Raw => access_ok e n 4
  | LoadI16 | StoreCW | LoadCW => access_ok e n 2
  | StoreI16 => access_ok e n 2 && (rounds e || nz (Z.land (flags n) kTruncate))
  | StoreI32 => access_ok e n 4 && (rounds e || nz (Z.land (flags n) kTruncate))
  | StoreI64 => access_ok e n 8 && (rounds e || nz (Z.land (flags n) kTruncate))
  | FRndInt => rounds e
  | GuestLea => lea_ok e n
  | GuestLoad | GuestStoreR | GuestStoreI => access_ok e n (size_bytes (op_size (mem_operand n)))
  | FStsw => (0 <=? i_regs e (input n 1)) && (i_regs e (input n 1) <? 2 ^ 32)
  | _ => true
  end.

Fixpoint nodes_run (e : ir) (l : list Node) : bool :=
  match l with
  | [] => true
  | n :: l => (dead n || node_runs e n) && nodes_run (eval_node segbase stack0 T0 e n) l
  end.
End Runs.

(** ** The simulation *)

(** Conditions decided by computation. *)
Ltac bools :=
  repeat match goal with
  | H : _ && _ = true |- _ => apply andb_true_iff in H as [? ?]
  | H : negb _ = true |- _ => apply negb_true_iff in H
  | H : (_ <? _) = true |- _ => apply Z.ltb_lt in H
  | H : (_ <=? _) = true |- _ => apply Z.leb_le in H
  | H : (_ <=? _) = false |- _ => apply Z.leb_gt in H
  | H : (_ =? _) = true |- _ => apply Z.eqb_eq in H
  | H : (_ <? _)%nat = true |- _ => apply Nat.ltb_lt in H
  | H : forallb _ (_ :: _) = true |- _ => cbn [forallb] in H
  | H : mem _ _ = true |- _ => apply memE in H
  end.

Section Simulation.
Context (cfg : RosettaConfig) (tgt : Target) (segbase : Z -> Z) (b T0 Tmem : Z) (x0 : X87State) (m0 : machine).
Context (f : Frame) (pinned : list Z) (stack0 : list (option Z)).

#[local] Abbreviation skip := (nzcv_skip (f_cmps f)).
#[local] Abbreviation single := (fun i => single_op (node (f_ctx f) i)).
#[local] Abbreviation Rel := (Rel cfg segbase b T0 Tmem x0 m0 f pinned skip single).
#[local] Abbreviation in_use := (in_use pinned).
#[local] Abbreviation eval_node := (eval_node segbase stack0 T0).
#[local] Abbreviation np := (Z.of_nat (length pinned)).
#[local] Abbreviation lu := (f_last_use f).
#[local] Abbreviation node_fits := (node_fits cfg f np).
#[local] Abbreviation node_runs := (node_runs cfg segbase b stack0).

(** What the frame and the state at the entry of the run owe the nodes. *)
Record entry_ok : Prop := mkEntryOk {
  en_frame : frame_ok T0 f pinned;
  en_reps : forall k, In k (f_bases f) -> addr_operand_base_cacheable (b_rep k) = true;
  en_stack : forall d x, 0 <= d < 8 -> nth (Z.to_nat d) stack0 None = Some x -> zget (X87State.st x0) (Z.land (T0 + d) 7) = x;
  en_top : 0 <= Tmem < 8;
  en_dirty : entry_top_dirty f = false -> Tmem = T0;
  en_rc : rc_cached cfg (f_ctx f) = true -> 0 <= Wd_rc_cached f;
  en_fast : 0 <= Wd_rc_cached f -> fast_round cfg = false;
  en_hoist : skip = true -> nzcv_hoist (f_cmps f) = false
}.
Hypothesis (He : entry_ok).

(** [T] says where the lowering is. *)
Record tracks (T : track) (P : pending) (J : list Z) (rg : Regs) : Prop := mkTracks {
  tr_fprs : J = tk_fprs T;
  tr_pend : option_map (fun p => fst (fst p)) P = tk_pend T;
  tr_saved : (0 <=? Wd_nzcv_saved rg) = tk_saved T
}.

Lemma in_use_length P rg :
  Z.of_nat (length (in_use P rg)) = np + b2z (is_some (option_map (fun p => fst (fst p)) P)) + b2z (0 <=? Wd_nzcv_saved rg).
Proof.
  unfold LowerRel.in_use, held. rewrite !length_app.
  destruct P as [[[id w] c]|], (0 <=? Wd_nzcv_saved rg); cbn [length option_map is_some b2z]; lia.
Qed.

Section Node.
Context (e : ir) (P : pending) (J : list Z) (rg : Regs) (a : asm) (m : machine) (i : Z) (n : Node) (T : track).
Hypothesis (H : Rel e P J rg a m) (Ei : i = Z.of_nat (length (vals e))) (Hi : i < 128) (Hdead : dead n = false).
Hypothesis (Hn : node (f_ctx f) i = n) (HT : tracks T P J rg).
Hypothesis (Hfits : node_fits T i n = true) (Hruns : node_runs e n = true).

#[local] Abbreviation T' := (after_node f T i n).

Definition done (Q : Regs -> asm -> machine -> Prop) : Prop :=
  forall P' rg' a' m', Rel (eval_node e n) P' (tk_fprs T') rg' a' m' -> tracks T' P' (tk_fprs T') rg' -> Q rg' a' m'.

(** *** What the check says *)

Lemma fit_pairs : zget (fst (f_pairs f)) i < 0.
Proof. clear -Hfits. unfold LowerNodes.node_fits in Hfits. bools. assumption. Qed.

Lemma fit_input j : In j (value_inputs (op n)) -> In (input n j) J.
Proof.
  intros Hj. rewrite (tr_fprs _ _ _ _ HT). clear -Hfits Hj. unfold LowerNodes.node_fits in Hfits. bools.
  match goal with H : forallb (fun j => mem _ _) (value_inputs _) = true |- _ => rewrite forallb_forall in H; specialize (H j Hj) end.
  bools. assumption.
Qed.

Lemma fit_inputs : can_reuse (op n) = true -> forall j, In j [0; 1; 2] -> input n j < 0 \/ In (input n j) J.
Proof.
  intros Hr j Hj. rewrite (tr_fprs _ _ _ _ HT). clear -Hfits Hr Hj. unfold LowerNodes.node_fits in Hfits. rewrite Hr in Hfits. bools.
  match goal with H : negb true || _ = true |- _ => cbn [negb orb] in H; rewrite forallb_forall in H; specialize (H j Hj);
    apply orb_true_iff in H as [H | H] end; bools; auto.
Qed.

Lemma fit_fresh : produces_fpr (op n) = true -> can_reuse (op n) = false -> (length J < fpr_count cfg)%nat.
Proof.
  intros Hp Hr. rewrite (tr_fprs _ _ _ _ HT). clear -Hfits Hp Hr. unfold LowerNodes.node_fits, fpr_room in Hfits.
  rewrite Hp, Hr in Hfits. cbn [negb orb andb] in Hfits. bools.
  match goal with H : _ || false = true |- _ => rewrite orb_false_r in H end. bools. assumption.
Qed.

Lemma fit_result : produces_fpr (op n) = true -> can_reuse (op n) = true ->
  first_dying lu (fun _ => true) n i = None -> (length J < fpr_count cfg)%nat.
Proof.
  intros Hp Hr Hd. rewrite (tr_fprs _ _ _ _ HT). clear -Hfits Hp Hr Hd. unfold LowerNodes.node_fits, fpr_room in Hfits.
  rewrite Hp, Hd, andb_false_r in Hfits. cbn [negb orb andb] in Hfits. bools.
  match goal with H : _ || false = true |- _ => rewrite orb_false_r in H end. bools. assumption.
Qed.

Lemma fit_typed : is_arith (op n) = true -> typed single J n (value_inputs (op n)).
Proof.
  intros Ha j Hj. split; [exact (fit_input j Hj)|]. intros Ht. clear -Hfits Ha Hj Ht. unfold LowerNodes.node_fits in Hfits.
  rewrite Ha in Hfits. bools.
  match goal with H : negb true || _ = true |- _ => cbn [negb orb] in H; rewrite forallb_forall in H; specialize (H j Hj) end.
  rewrite Ht in *. assumption.
Qed.

Lemma fit_op : op_fits f T n = true.
Proof. clear -Hfits. unfold LowerNodes.node_fits in Hfits. bools. assumption. Qed.

Lemma fit_gprs t : gpr_transient cfg (f_ctx f) (f_cmps f) n = t ->
  held_gprs f T n = b2z (is_some (tk_pend T)) + b2z (tk_saved T) -> Z.of_nat (length (in_use P rg)) + t <= 8.
Proof.
  intros Et Eh. rewrite in_use_length, (tr_pend _ _ _ _ HT), (tr_saved _ _ _ _ HT).
  clear -Hfits Et Eh. unfold LowerNodes.node_fits, gpr_room in Hfits. rewrite Et, Eh in Hfits. bools. lia.
Qed.

Lemma spares_ok d : sparesb f d = true -> spares f d.
Proof.
  intros Hs k Hk. unfold sparesb in Hs. rewrite forallb_forall in Hs. specialize (Hs k Hk). bools.
  apply Z.eqb_neq in H0. auto.
Qed.

(** *** The state after the node *)

(** Nodes that keep what is tracked but for the values. *)
Lemma done_value (Q : Regs -> asm -> machine -> Prop) :
  op n <> FCmp -> op n <> FTst -> op n <> FStsw -> done Q ->
  forall rg' a' m', Rel (eval_node e n) P (tk_fprs T') rg' a' m' -> Wd_nzcv_saved rg' = Wd_nzcv_saved rg -> Q rg' a' m'.
Proof.
  intros N1 N2 N3 HQ rg' a' m' HR Hs. apply (HQ P); [exact HR|]. destruct HT as [_ Hpd Hsv].
  constructor; [reflexivity | | rewrite Hs]; cbn [tk_pend tk_saved after_node]; destruct (op n); congruence.
Qed.

Lemma done_same (Q : Regs -> asm -> machine -> Prop) :
  op n <> FCmp -> op n <> FTst -> op n <> FStsw -> produces_fpr (op n) = false -> done Q ->
  forall rg' a' m', Rel (eval_node e n) P J rg' a' m' -> Wd_nzcv_saved rg' = Wd_nzcv_saved rg -> Q rg' a' m'.
Proof.
  intros N1 N2 N3 Hp HQ rg' a' m' HR Hs. apply (done_value Q N1 N2 N3 HQ); [|exact Hs].
  assert (E : tk_fprs T' = J); [|rewrite E; exact HR].
  rewrite (tr_fprs _ _ _ _ HT). cbn [tk_fprs after_node]. rewrite Hp.
  destruct (can_reuse (op n)) eqn:Er; [|reflexivity]. destruct (op n); discriminate.
Qed.

(** *** Values *)

Lemma fresh_fprs : produces_fpr (op n) = true -> can_reuse (op n) = false -> tk_fprs T' = i :: J.
Proof. intros Hp Hr. cbn [tk_fprs after_node]. rewrite Hp, Hr, (tr_fprs _ _ _ _ HT). reflexivity. Qed.

Lemma result_fprs : can_reuse (op n) = true -> tk_fprs T' = i :: claim (first_dying lu (fun _ => true) n i) J.
Proof. intros Hr. cbn [tk_fprs after_node]. rewrite Hr, (tr_fprs _ _ _ _ HT). reflexivity. Qed.

Lemma not_single : op n <> LoadF32Raw -> op n <> CvtF64ToF32 -> is_arith (op n) = false -> single i = false.
Proof. intros N1 N2 Ha. cbv beta. rewrite Hn. unfold single_op. destruct (op n); cbn in Ha |- *; congruence. Qed.

Ltac gprs t := pose proof (fit_gprs t); 
  match goal with G : gpr_transient _ _ _ _ = t -> _ |- _ =>
    let E := fresh in assert (E : gpr_transient cfg (f_ctx f) (f_cmps f) n = t /\ held_gprs f T n = b2z (is_some (tk_pend T)) + b2z (tk_saved T))
      by (unfold gpr_transient, held_gprs; match goal with Eo : op n = _ |- _ => rewrite Eo end; split; reflexivity);
    specialize (G (proj1 E) (proj2 E)); clear E end.

Lemma wp_node_load (Q : Regs -> asm -> machine -> Prop) :
  In (op n) [ReadSt; LoadF64; LoadF32Raw; LoadI16; LoadI32; LoadI64; ConstZero; ConstOne; ConstF64] -> done Q ->
  wp (emit_node cfg tgt f i n rg) Q a m.
Proof.
  intros Eo HQ.
  assert (Hp : produces_fpr (op n) = true /\ can_reuse (op n) = false /\ op n <> FCmp /\ op n <> FTst /\ op n <> FStsw)
    by (cbn [In] in Eo; decompose [or] Eo; clear Eo; try contradiction; match goal with E : _ = op n |- _ => rewrite <- E end;
        repeat split; congruence).
  destruct Hp as (Hp & Hr & N1 & N2 & N3). pose proof (fit_fresh Hp Hr) as HJ. pose proof (fresh_fprs Hp Hr) as EJ.
  pose proof (done_value Q N1 N2 N3 HQ) as HQ'. rewrite EJ in HQ'. pose proof fit_pairs as Hpr. pose proof fit_op as Hop.
  pose proof not_single as Hns. pose proof Hruns as Hrun.
  unfold emit_node. cbn [In] in Eo. decompose [or] Eo; clear Eo; try contradiction;
    match goal with E : _ = op n |- _ => symmetry in E; rename E into Eo end;
    rewrite Eo in *; unfold op_fits in Hop; unfold LowerNodes.node_runs in Hrun; rewrite Eo in Hop, Hrun; bools.
  all: destruct He as [Hf Hreps Hst Htm Hdt Hrc Hfast Hho].
  all: try (assert (Hs : single i = false) by (apply Hns; [discriminate | discriminate | reflexivity])).
  - eapply wp_read_st; eauto. destruct (nth _ _ _); discriminate.
  - gprs 1. eapply wp_load_fp with (size := 3); eauto; [lia | congruence].
  - gprs 1. eapply wp_load_fp with (size := 2); eauto. lia.
  - gprs 2. eapply wp_load_i16; eauto. lia.
  - gprs 2. eapply wp_load_i32; eauto. lia.
  - gprs 1. eapply wp_load_i64; eauto. lia.
  - eapply wp_const; eauto.
  - eapply wp_const; eauto.
  - eapply wp_const; eauto. right. right. split; [exact Eo | split; assumption].
Qed.

(** The operation at hand, its checks read off. *)
Ltac cases_op Eo :=
  pose proof Hruns as Hrun; pose proof fit_op as Hop;
  cbn [In] in Eo; decompose [or] Eo; clear Eo; try contradiction;
  match goal with E : _ = op n |- _ => symmetry in E; rename E into Eo end;
  unfold op_fits in Hop; unfold LowerNodes.node_runs in Hrun; rewrite Eo in Hop, Hrun; bools;
  pose proof (fit_input) as Hin; rewrite Eo in Hin; cbn [value_inputs In] in Hin;
  destruct He as [Hf Hreps Hst Htm Hdt Hrc Hfast Hho].

Lemma wp_node_result (Q : Regs -> asm -> machine -> Prop) :
  can_reuse (op n) = true -> done Q -> wp (emit_node cfg tgt f i n rg) Q a m.
Proof.
  intros Hr HQ.
  assert (Eo : In (op n) [FAdd; FSub; FMul; FDiv; FNMul; FMAdd; FMSub; FNMSub; FNeg; FAbs; FSqrt; FRndInt; FCSel; CvtF32ToF64; CvtF64ToF32])
    by (destruct (op n); try discriminate Hr; cbn; tauto).
  assert (Hp : produces_fpr (op n) = true /\ op n <> FCmp /\ op n <> FTst /\ op n <> FStsw)
    by (clear Eo; destruct (op n); try discriminate Hr; repeat split; discriminate).
  destruct Hp as (Hp & N1 & N2 & N3). pose proof (fit_result Hp Hr) as HJ. pose proof (result_fprs Hr) as EJ.
  pose proof (done_value Q N1 N2 N3 HQ) as HQ'. rewrite EJ in HQ'. pose proof (fit_inputs Hr) as Hins.
  pose proof not_single as Hns. pose proof fit_typed as Hty.
  assert (Hsa : is_arith (op n) = true -> single i = true -> fp_type n = 0).
  { intros Ha Hsi. cbv beta in Hsi. rewrite Hn in Hsi. unfold single_op in Hsi. destruct (op n); try discriminate Ha; apply Z.eqb_eq, Hsi. }
  unfold emit_node. cases_op Eo; rewrite Eo in Hns, Hty, Hsa |- *; cbn [value_inputs] in Hty.
  1-5: eapply wp_binary; eauto; rewrite Eo; cbn; tauto.
  1-3: eapply wp_fma; eauto; rewrite Eo; cbn; tauto.
  1-3: eapply wp_unary; eauto; rewrite Eo; cbn; tauto.
  - eapply wp_frndint; eauto.
    + apply Hns; [discriminate | discriminate | reflexivity].
    + apply orb_true_iff in Hrun as [E | E]; bools; auto.
    + intros H0. gprs (if rc_cached cfg (f_ctx f) then 0 else 1). destruct (rc_cached _ _); [specialize (Hrc eq_refl); lia | lia].
  - eapply wp_fcsel; eauto.
    + apply Hns; [discriminate | discriminate | reflexivity].
    + apply Z.leb_gt. rewrite (tr_saved _ _ _ _ HT). assumption.
  - eapply wp_cvt; eauto. intros Hsi. cbv beta in Hsi. rewrite Hn in Hsi. unfold single_op in Hsi. rewrite Eo in Hsi. discriminate Hsi.
  - eapply wp_cvt; eauto.
Qed.

(** *** Effects *)

Lemma wp_node_store (Q : Regs -> asm -> machine -> Prop) :
  In (op n) [StoreF64; StoreF32Raw; StoreI16; StoreI32; StoreI64] -> done Q -> wp (emit_node cfg tgt f i n rg) Q a m.
Proof.
  intros Eo HQ.
  assert (Hp : produces_fpr (op n) = false /\ op n <> FCmp /\ op n <> FTst /\ op n <> FStsw).
  { cbn [In] in Eo; decompose [or] Eo; clear Eo; try contradiction; match goal with E : _ = op n |- _ => rewrite <- E end;
      repeat split; congruence. }
  destruct Hp as (Hp & N1 & N2 & N3). pose proof (done_same Q N1 N2 N3 Hp HQ) as HQ'. pose proof fit_pairs as Hpr.
  assert (Hrd : forall r t, r || t = true -> rounds cfg e = r -> fast_round cfg = false \/ rc_of (i_cw e) = 0 \/ t = true).
  { unfold rounds. intros r t Hrt <-. apply orb_true_iff in Hrt as [Hrt | Hrt]; [|auto]. apply orb_true_iff in Hrt as [E | E]; bools; auto. }
  unfold emit_node. cases_op Eo; rewrite Eo.
  - gprs 1. eapply wp_store_fp with (size := 3); eauto. lia.
  - gprs 1. eapply wp_store_fp with (size := 2); eauto. lia.
  - gprs 2. eapply wp_store_int; eauto; try rewrite Eo; cbn; try tauto. lia.
  - gprs 2. eapply wp_store_int; eauto; try rewrite Eo; cbn; try tauto. lia.
  - gprs 2. eapply wp_store_int; eauto; try rewrite Eo; cbn; try tauto. lia.
Qed.

Lemma tracks_none : tk_pend T = None -> P = None.
Proof. intros E. pose proof (tr_pend _ _ _ _ HT) as Et. rewrite E in Et. destruct P; [discriminate | reflexivity]. Qed.

Lemma wp_node_compare (Q : Regs -> asm -> machine -> Prop) :
  In (op n) [FCmp; FTst] -> done Q -> wp (emit_node cfg tgt f i n rg) Q a m.
Proof.
  intros Eo HQ.
  assert (EJ : tk_fprs T' = J).
  { rewrite (tr_fprs _ _ _ _ HT). cbn [In] in Eo; decompose [or] Eo; try contradiction;
      cbn [tk_fprs after_node]; match goal with E : _ = op n |- _ => rewrite <- E end; reflexivity. }
  assert (Etr : tk_pend T' = (if is_fused n then Some i else None) /\ tk_saved T' = nzcv_hoist (f_cmps f) && negb (i =? nzcv_last_cmp (f_cmps f))).
  { cbn [In] in Eo; decompose [or] Eo; try contradiction;
      cbn [tk_pend tk_saved after_node]; match goal with E : _ = op n |- _ => rewrite <- E end; split; reflexivity. }
  destruct Etr as [Epd Esv].
  assert (HP : P = None).
  { apply tracks_none. pose proof fit_op as Hop. unfold op_fits in Hop. cbn [In] in Eo; decompose [or] Eo; try contradiction;
      match goal with E : _ = op n |- _ => rewrite <- E in Hop end; bools; destruct (tk_pend T); (discriminate || reflexivity). }
  assert (H0 : Rel e None J rg a m) by (rewrite <- HP; exact H).
  assert (Hroom : compare_room f pinned).
  { assert (Hg : np + b2z (nzcv_hoist (f_cmps f)) + (if skip || nzcv_hoist (f_cmps f) then 3 else 4) <= 8).
    { pose proof Hfits as Hfi. unfold LowerNodes.node_fits, gpr_room, held_gprs, gpr_transient in Hfi.
      cbn [In] in Eo; decompose [or] Eo; try contradiction;
      match goal with E : _ = op n |- _ => rewrite <- E in Hfi end; bools; lia. }
    clear -Hg. unfold compare_room. destruct skip, (nzcv_hoist _); cbn [orb b2z] in *; lia. }
  assert (Hok : forall P' rg' a' m', Rel (eval_node e n) P' J rg' a' m' ->
     option_map (fun p => fst (fst p)) P' = (if is_fused n then Some i else None) ->
     (0 <=? Wd_nzcv_saved rg') = nzcv_hoist (f_cmps f) && negb (i =? nzcv_last_cmp (f_cmps f)) -> Q rg' a' m').
  { intros P' rg' a' m' HR HP' Hsv. apply (HQ P'); [rewrite EJ; exact HR|]. constructor; [reflexivity | |]; congruence. }
  assert (Hsaved : nzcv_hoist (f_cmps f) = false -> Wd_nzcv_saved rg < 0).
  { intros Eh. apply Z.leb_gt. rewrite (tr_saved _ _ _ _ HT). pose proof fit_op as Hop. unfold op_fits in Hop. rewrite Eh in Hop.
    cbn [In] in Eo; decompose [or] Eo; try contradiction;
      match goal with E : _ = op n |- _ => rewrite <- E in Hop end; cbn [orb] in Hop; bools; assumption. }
  unfold emit_node. cases_op Eo; rewrite Eo.
  - pose proof (wp_compare cfg segbase b T0 Tmem x0 m0 f pinned skip single stack0 Hf e J rg a m i n H0 Hdead Q) as W.
    rewrite Eo in W. eapply W; eauto.
  - pose proof (wp_compare cfg segbase b T0 Tmem x0 m0 f pinned skip single stack0 Hf e J rg a m i n H0 Hdead Q) as W.
    rewrite Eo in W. eapply W; eauto. discriminate.
Qed.

Lemma wp_node_guest (Q : Regs -> asm -> machine -> Prop) :
  In (op n) [FComI; StoreCW; LoadCW; GuestMovRR; GuestMovRI; GuestLea; GuestExt; GuestLoad; GuestStoreR; GuestStoreI] ->
  done Q -> wp (emit_node cfg tgt f i n rg) Q a m.
Proof.
  intros Eo HQ.
  assert (Hp : produces_fpr (op n) = false /\ op n <> FCmp /\ op n <> FTst /\ op n <> FStsw).
  { cbn [In] in Eo; decompose [or] Eo; clear Eo; try contradiction; match goal with E : _ = op n |- _ => rewrite <- E end;
      repeat split; congruence. }
  destruct Hp as (Hp & N1 & N2 & N3). pose proof (done_same Q N1 N2 N3 Hp HQ) as HQ'.
  assert (Hret : forall c, (forall R : unit -> asm -> machine -> Prop,
      (forall a' m', Rel (eval_node e n) P J rg a' m' -> R tt a' m') -> wp c R a m) -> wp (c ;;; ret rg) Q a m).
  { intros c Hc. apply wp_bind, Hc. intros a' m' HR. apply wp_ret, HQ'; [exact HR | reflexivity]. }
  assert (Hsz : size_ok n = true -> 0 <= op_size (mem_operand n) <= 3) by (unfold size_ok; intros; bools; lia).
  unfold emit_node. cases_op Eo; rewrite Eo.
  - gprs 3. apply Hret. intros R HR. eapply wp_fcomi; eauto; [apply Z.leb_gt; rewrite (tr_saved _ _ _ _ HT); assumption | lia].
  - gprs 2. eapply wp_store_cw; eauto. lia.
  - gprs 2. apply Hret. intros R HR. eapply wp_load_cw; eauto. lia.
  - apply Hret. intros R HR. eapply wp_guest_mov; eauto using spares_ok.
  - apply Hret. intros R HR. eapply wp_guest_mov; eauto using spares_ok.
  - gprs 1. apply Hret. intros R HR. eapply wp_guest_lea; eauto using spares_ok. lia.
  - apply Hret. intros R HR. eapply wp_guest_ext; eauto using spares_ok.
  - gprs 1. apply Hret. intros R HR. eapply wp_guest_load; eauto using spares_ok. lia.
  - gprs 1. apply Hret. intros R HR. eapply wp_guest_store_r; eauto. lia.
  - gprs 2. apply Hret. intros R HR. eapply wp_guest_store_i; eauto. lia.
Qed.

Lemma wp_node_fstsw (Q : Regs -> asm -> machine -> Prop) :
  op n = FStsw -> done Q -> wp (emit_node cfg tgt f i n rg) Q a m.
Proof.
  intros Eo HQ.
  assert (EJ : tk_fprs T' = J /\ tk_pend T' = None /\ tk_saved T' = tk_saved T).
  { rewrite (tr_fprs _ _ _ _ HT). cbn [tk_fprs tk_pend tk_saved after_node]. rewrite Eo. auto. }
  destruct EJ as (EJ & Epd & Esv).
  assert (HQ' : forall rg' a' m', Rel (eval_node e n) None J rg' a' m' -> Wd_nzcv_saved rg' = Wd_nzcv_saved rg -> Q rg' a' m').
  { intros rg' a' m' HR Hs. apply (HQ None); [rewrite EJ; exact HR|]. constructor; [reflexivity | rewrite Epd; reflexivity|].
    rewrite Hs, Esv. apply HT. }
  assert (Hg : Z.of_nat (length (in_use None rg)) + 2 <= 8).
  { pose proof Hfits as Hfi. unfold LowerNodes.node_fits, gpr_room, held_gprs, gpr_transient in Hfi. rewrite Eo in Hfi.
    pose proof fit_op as Hop. unfold op_fits in Hop. rewrite Eo in Hop. bools.
    rewrite in_use_length. cbn [option_map is_some b2z]. rewrite (tr_saved _ _ _ _ HT).
    destruct (tk_pend T) as [id|]; bools; match goal with E : is_fused n = _ |- _ => rewrite E in * end; cbn [is_some b2z] in *; lia. }
  unfold emit_node. rewrite Eo. pose proof Hruns as Hrun. unfold LowerNodes.node_runs in Hrun. rewrite Eo in Hrun.
  pose proof fit_op as Hop. unfold op_fits in Hop. rewrite Eo in Hop. bools.
  pose proof (tr_pend _ _ _ _ HT) as Ept. destruct He as [Hf Hreps Hst Htm Hdt Hrc Hfast Hho].
  destruct (tk_pend T) as [id|] eqn:Etp; bools.
  - destruct P as [[[id' w0] c]|] eqn:EP; [|discriminate]. injection Ept as Eid. cbn [option_map fst] in Eid. subst.
    eapply wp_fstsw_fused; eauto using spares_ok; lia.
  - assert (HP : P = None) by (destruct P; [discriminate | reflexivity]).
    assert (HR0 : Rel e None J rg a m) by (rewrite <- HP; exact H).
    eapply wp_fstsw_unfused; eauto using spares_ok; lia.
Qed.

(** The code of a node, whichever it is. *)
Lemma wp_emit_node (Q : Regs -> asm -> machine -> Prop) : done Q -> wp (emit_node cfg tgt f i n rg) Q a m.
Proof.
  intros HQ. destruct (can_reuse (op n)) eqn:Er; [apply wp_node_result; assumption|].
  destruct (op n) eqn:Eo; try discriminate Er;
    first [ apply wp_node_load; [rewrite Eo; cbn; tauto | exact HQ]
          | apply wp_node_store; [rewrite Eo; cbn; tauto | exact HQ]
          | apply wp_node_compare; [rewrite Eo; cbn; tauto | exact HQ]
          | apply wp_node_guest; [rewrite Eo; cbn; tauto | exact HQ]
          | apply wp_node_fstsw; [exact Eo | exact HQ] ].
Qed.
End Node.

(** ** A node and its dying inputs *)

Lemma wp_node e P J rg a m i n T (Q : Regs -> asm -> machine -> Prop) :
  Rel e P J rg a m -> i = Z.of_nat (length (vals e)) -> i < 128 -> dead n = false -> node (f_ctx f) i = n ->
  tracks T P J rg -> node_fits T i n = true -> inputs_free (after_node f T i n) n = true -> node_runs e n = true ->
  (forall P' J' rg' a' m', Rel (eval_node e n) P' J' rg' a' m' ->
     tracks (drop_inputs f (after_node f T i n) i n) P' J' rg' -> Q rg' a' m') ->
  wp (if zget (snd (f_pairs f)) i =? 1 then ret rg else emit_node cfg tgt f i n rg)
    (fun s a1 m1 => wp (free_dead_inputs cfg f n i s) Q a1 m1) a m.
Proof.
  intros H Ei Hi Hd Hn HT Hfits Hnp Hruns HQ.
  assert (Ep : (zget (snd (f_pairs f)) i =? 1) = false) by (unfold LowerNodes.node_fits in Hfits; bools; assumption).
  rewrite Ep. apply (wp_emit_node e P J rg a m i n T); try assumption.
  intros P' rg' a' m' HR HT'. unfold free_dead_inputs.
  apply (wp_free_inputs cfg segbase b T0 Tmem x0 m0 f pinned skip single _ i _ _ _ _ _ _ _ HR).
  - intros v Hv H0. pose proof (tr_pend _ _ _ _ HT') as Ep'. unfold inputs_free in Hnp. rewrite forallb_forall in Hnp.
    assert (Hj : exists j, In j [0; 1; 2] /\ input n j = v).
    { destruct Hv as [<- | [<- | [<- | []]]]; eexists; (split; [|reflexivity]); cbn; auto. }
    destruct Hj as (j & Hj & <-). specialize (Hnp j Hj). bools. split; [assumption|].
    destruct P' as [[[id w] c]|]; [|exact I]. cbn [option_map fst] in Ep'. rewrite <- Ep' in *. bools. cbn [free_id].
    apply Z.eqb_neq in H2. congruence.
  - intros rg2 a2 HR2 Hs. apply (HQ P' _ rg2 a2 m' HR2). destruct HT'. constructor; [reflexivity | assumption | rewrite Hs; assumption].
Qed.

(** ** The node loop *)

Lemma eval_dead e n : dead n = true -> eval_node e n = add_val e 0.
Proof. intros Hd. unfold X87IREval.eval_node, node_sem. rewrite Hd. reflexivity. Qed.

Definition numbered_from (k : nat) (l : list Node) : list (Z * Node) := combine (map Z.of_nat (seq k (length l))) l.

Lemma wp_emit_nodes l e P J rg a m T T' (Q : Regs -> asm -> machine -> Prop) :
  Rel e P J rg a m -> tracks T P J rg ->
  (length (vals e) + length l <= 128)%nat ->
  (forall j n, nth_error l j = Some n -> node (f_ctx f) (Z.of_nat (length (vals e) + j)) = n) ->
  track_nodes cfg f np (numbered_from (length (vals e)) l) T = Some T' ->
  nodes_run cfg segbase b T0 stack0 e l = true ->
  (forall P' J' rg' a' m', Rel (eval segbase stack0 T0 e l) P' J' rg' a' m' -> tracks T' P' J' rg' -> Q rg' a' m') ->
  wp (emit_nodes cfg tgt f (numbered_from (length (vals e)) l) rg) Q a m.
Proof.
  revert e P J rg a m T. induction l as [|n l IH]; intros e P J rg a m T H HT Hlen Hnodes Htr Hrun HQ.
  - cbn in Htr |- *. injection Htr as <-. apply wp_ret, (HQ P J); assumption.
  - unfold numbered_from in *. cbn [length seq map combine track_nodes nodes_run emit_nodes] in *.
    assert (El : length (vals (eval_node e n)) = S (length (vals e))).
    { unfold X87IREval.eval_node. cbn [vals add_val]. rewrite length_app, vals_node_sem. cbn. lia. }
    assert (Hnodes' : forall j n0, nth_error l j = Some n0 -> node (f_ctx f) (Z.of_nat (length (vals (eval_node e n)) + j)) = n0).
    { intros j n0 Hj. rewrite El. specialize (Hnodes (S j) n0 Hj). replace (S (length (vals e)) + j)%nat with (length (vals e) + S j)%nat by lia. exact Hnodes. }
    apply andb_true_iff in Hrun as [Hd Hrun]. rewrite <- El in Htr |- *.
    change (eval segbase stack0 T0 e (n :: l)) with (eval segbase stack0 T0 (eval_node e n) l) in HQ.
    destruct (dead n) eqn:Ed.
    + rewrite (eval_dead e n Ed) in *. apply (IH _ P J rg a m T); auto; [apply no_value, H | lia].
    + destruct (node_fits T _ n && _) eqn:Ef in Htr; [|discriminate]. bools.
      assert (Hnode : node (f_ctx f) (Z.of_nat (length (vals e))) = n).
      { rewrite <- (Hnodes 0%nat n eq_refl). f_equal. lia. }
      assert (W : wp (if zget (snd (f_pairs f)) (Z.of_nat (length (vals e))) =? 1 then ret rg
                      else emit_node cfg tgt f (Z.of_nat (length (vals e))) n rg)
                     (fun s a1 m1 => wp (free_dead_inputs cfg f n (Z.of_nat (length (vals e))) s)
                        (fun s a2 m2 => wp (emit_nodes cfg tgt f (combine (map Z.of_nat (seq (length (vals (eval_node e n))) (length l))) l) s) Q a2 m2) a1 m1) a m).
      { apply (wp_node e P J rg a m _ n T); try assumption; [reflexivity | lia|].
        intros P' J' rg' a' m' HR HT'. apply (IH _ P' J' rg' a' m' _ HR HT'); auto. lia. }
      apply wp_bind. eapply wp_mono; [exact W|]. intros s1 a1 m1 Hw. apply wp_bind, Hw.
Qed.
End Simulation.
