(* ===== verification/LowerEpilogue.v ===== *)
(** The register stack as the run's semantics sees it and as the x87 state
    holds it: values by physical index, occupancy by tag, with the pushes and
    pops whose tags are deferred.

    The epilogue of a run: TOP, the registers written back, the status word's
    TOP field, the tags with those deferred from before the run, and the SIMD
    registers given back. *)

From S2P Require Import Prelude X87State X87Props IROperand X87IR Fpu X87IREval X87Memory X87HelpersProps.
From S2P Require Import F64 GuestMem Emit Assembler A64Exec CodeExec.
From S2P Require Import TranslatorHelpers Pools InsnRules AccessProps X87Helpers X87Cache X87IRPlan X87IRLower.
From S2P Require Import AccessProps LowerRel LowerValues LowerEffects LowerGuest LowerNodes.
From S2P Require X87Runtime.

(** ** Occupancy *)

Definition nonempty (x : X87State) (i : Z) : bool := negb (tag_at x i =? kEmpty).

Lemma mod8_inj a c : a mod 8 = c mod 8 -> - 8 < a - c < 8 -> a = c.
Proof. intros E H. pose proof (Z.div_mod a 8 ltac:(lia)). pose proof (Z.div_mod c 8 ltac:(lia)). lia. Qed.

Lemma tag_empty_bits x i : 0 <= i < 8 ->
  (tag_at x i =? kEmpty) = Z.testbit (tagWord x) (i * 2) && Z.testbit (tagWord x) (i * 2 + 1).
Proof.
  intros Hi. unfold tag_at, kEmpty.
  assert (E : forall y, (Z.land y 3 =? 3) = Z.testbit y 0 && Z.testbit y 1).
  { intros y. apply eq_true_iff_eq. rewrite Z.eqb_eq, andb_true_iff. split.
    - intros E. split; [assert (H : Z.testbit (Z.land y 3) 0 = true) by (rewrite E; reflexivity)
                       |assert (H : Z.testbit (Z.land y 3) 1 = true) by (rewrite E; reflexivity)];
        rewrite Z.land_spec in H; apply andb_true_iff in H; apply H.
    - intros [H0 H1]. apply Z.bits_inj'. intros n Hn. rewrite Z.land_spec.
      destruct (Z.eq_dec n 0) as [->|]; [rewrite H0; reflexivity|]. destruct (Z.eq_dec n 1) as [->|]; [rewrite H1; reflexivity|].
      change 3 with (Z.ones 2). rewrite Z.ones_spec_high by lia. apply andb_false_r. }
  rewrite E, !Z.shiftr_spec by lia. f_equal; f_equal; lia.
Qed.

Lemma tag_mask_bit l i k : Forall (fun j => 0 <= j < 8) l -> 0 <= i < 8 -> 0 <= k < 2 ->
  Z.testbit (tag_mask l) (i * 2 + k) = existsb (Z.eqb i) l.
Proof.
  intros Hl Hi Hk. induction Hl as [|j l Hj _ IH]; [apply Z.testbit_0_l|].
  cbn [tag_mask fold_right existsb]. fold (tag_mask l). rewrite Z.lor_spec, IH, Z.shiftl_spec by lia. f_equal.
  destruct (Z.eqb_spec i j) as [->|Hne].
  - replace (j * 2 + k - j * 2) with k by lia. assert (k = 0 \/ k = 1) as [-> | ->] by lia; reflexivity.
  - destruct (Z.ltb_spec i j); [apply Z.testbit_neg_r; lia|]. change 3 with (Z.ones 2). apply Z.ones_spec_high. lia.
Qed.

Lemma nonempty_mark e x l i : Forall (fun j => 0 <= j < 8) l -> 0 <= i < 8 ->
  nonempty (mark e x l) i = if existsb (Z.eqb i) l then negb e else nonempty x i.
Proof.
  intros Hl Hi. unfold nonempty. rewrite !tag_empty_bits by exact Hi.
  pose proof (tag_mask_bit l i 0 Hl Hi ltac:(lia)) as B0. pose proof (tag_mask_bit l i 1 Hl Hi ltac:(lia)) as B1. rewrite Z.add_0_r in B0.
  unfold mark. cbn [tagWord with_tag]. rewrite !sgn_testbit by lia.
  destruct e; [rewrite !Z.lor_spec | rewrite !Z.land_spec, !Z.lnot_spec by lia]; rewrite B0, B1;
    destruct (existsb _ l); cbn [negb]; rewrite ?orb_true_r, ?orb_false_r, ?andb_true_r, ?andb_false_r; reflexivity.
Qed.

(** The registers at the depths [\[0, n)] and those at [\[8 - n, 8)]. *)
Lemma phys_depth T n d : 0 <= d < 8 -> 0 <= n <= 8 ->
  existsb (Z.eqb (Z.land (T + d) 7)) (phys T 0 (Z.to_nat n)) = (d <? n).
Proof.
  intros Hd Hn. apply eq_true_iff_eq. rewrite existsb_exists, Z.ltb_lt. unfold phys. split.
  - intros (y & Hy & E). apply Z.eqb_eq in E. apply in_map_iff in Hy as (j & <- & Hj). apply in_seq in Hj.
    rewrite !land7_mod in E. apply mod8_inj in E; lia.
  - intros H. exists (Z.land (T + 0 + Z.of_nat (Z.to_nat d)) 7). split.
    + apply in_map_iff. exists (Z.to_nat d). split; [reflexivity | apply in_seq; lia].
    + apply Z.eqb_eq. f_equal. lia.
Qed.

Lemma below_depth T n d : 0 <= d < 8 -> 0 <= n <= 8 ->
  existsb (Z.eqb (Z.land (T + d) 7)) (below T n (Z.to_nat n)) = (8 - n <=? d).
Proof.
  intros Hd Hn. apply eq_true_iff_eq. rewrite existsb_exists, Z.leb_le. unfold below. split.
  - intros (y & Hy & E). apply Z.eqb_eq in E. apply in_map_iff in Hy as (j & <- & Hj). apply in_seq in Hj.
    rewrite !land7_mod in E.
    assert (E' : (T + d) mod 8 = (T - (n - Z.of_nat j) + 8) mod 8) by (rewrite E, <- (Z.mod_add (T - (n - Z.of_nat j)) 1 8) by lia; f_equal; lia).
    apply mod8_inj in E'; lia.
  - intros H. exists (Z.land (T - (n - Z.of_nat (Z.to_nat (d - (8 - n))))) 7). split.
    + apply in_map_iff. exists (Z.to_nat (d - (8 - n))). split; [reflexivity | apply in_seq; lia].
    + apply Z.eqb_eq. rewrite !land7_mod. rewrite Z2Nat.id by lia. replace (T - (n - (d - (8 - n)))) with (T + d + (-1) * 8) by lia.
      symmetry. apply Z.mod_add. lia.
Qed.

(** The tag word with [M] registers below TOP marked empty and [V] from TOP
    on marked valid. *)
Definition retagged (x : X87State) (T V M : Z) : X87State :=
  let x := if 0 <? M then mark true x (below T M (Z.to_nat M)) else x in
  if 0 <? V then mark false x (phys T 0 (Z.to_nat V)) else x.

Lemma nonempty_retagged x T V M d : 0 <= d < 8 -> 0 <= V <= 8 -> 0 <= M <= 8 ->
  nonempty (retagged x T V M) (Z.land (T + d) 7) =
  if d <? V then true else if 8 - M <=? d then false else nonempty x (Z.land (T + d) 7).
Proof.
  intros Hd HV HM. unfold retagged. pose proof (land7_range (T + d)) as Hr.
  assert (E1 : nonempty (if 0 <? M then mark true x (below T M (Z.to_nat M)) else x) (Z.land (T + d) 7) =
    if 8 - M <=? d then false else nonempty x (Z.land (T + d) 7)).
  { destruct (Z.ltb_spec 0 M).
    - rewrite nonempty_mark, below_depth by (auto using below_range). reflexivity.
    - replace (8 - M <=? d) with false by (symmetry; apply Z.leb_gt; lia). reflexivity. }
  destruct (Z.ltb_spec 0 V).
  - rewrite nonempty_mark, phys_depth, E1 by (auto using phys_range). reflexivity.
  - replace (d <? V) with false by (symmetry; apply Z.ltb_ge; lia). exact E1.
Qed.

(** Is the register at depth [d] in use, [P] pushes' or [Q] pops' tags being
    deferred? *)
Definition occupied (x : X87State) (T P Q d : Z) : bool :=
  if d <? P then true else if 8 - Q <=? d then false else nonempty x (Z.land (T + d) 7).

(** The stack [l] is what the x87 state [x] holds. *)
Definition holds (x : X87State) (T P Q : Z) (l : list (option Z)) : Prop :=
  forall d, 0 <= d < 8 ->
    match nth (Z.to_nat d) l None with
    | Some v => occupied x T P Q d = true /\ zget (X87State.st x) (Z.land (T + d) 7) = v
    | None => occupied x T P Q d = false
    end.

(** ** Registers written back *)

(** The registers at depths [fst e], TOP being [T], get the values [snd e]. *)
Definition written (T : Z) (l : list (Z * Z)) (s : list Z) : list Z :=
  fold_left (fun s e => zset s (Z.land (T + fst e) 7) (snd e)) l s.

Lemma written_cons T e l s : written T (e :: l) s = written T l (zset s (Z.land (T + fst e) 7) (snd e)).
Proof. reflexivity. Qed.

Lemma written_length T l s : length (written T l s) = length s.
Proof. unfold written. revert s. induction l as [|e l IH]; intros s; [reflexivity|]. cbn [fold_left]. rewrite IH. apply zset_length. Qed.

Lemma written_other T l s d : 0 <= d < 8 -> Forall (fun e => 0 <= fst e < 8) l -> ~ In d (map fst l) ->
  zget (written T l s) (Z.land (T + d) 7) = zget s (Z.land (T + d) 7).
Proof.
  intros Hd Hl Hn. revert s. induction Hl as [|e l He _ IH]; intros s; [reflexivity|]. cbn in Hn.
  rewrite written_cons. rewrite IH by tauto.
  pose proof (land7_range (T + d)). pose proof (land7_range (T + fst e)).
  apply zget_zset_ne; [lia | lia|]. rewrite !land7_mod. intros E. apply Hn. left. apply mod8_inj in E; lia.
Qed.

Lemma written_get T l s d v : length s = 8%nat -> Forall (fun e => 0 <= fst e < 8) l -> NoDup (map fst l) -> In (d, v) l ->
  zget (written T l s) (Z.land (T + d) 7) = v.
Proof.
  intros Hs Hl Hn Hin. revert s Hs. induction Hl as [|e l He Hl IH]; intros s Hs; [destruct Hin|].
  cbn [map] in Hn. apply NoDup_cons_iff in Hn as [Hne Hn]. rewrite written_cons.
  destruct Hin as [-> | Hin].
  - cbn [fst snd] in *. rewrite written_other by assumption. apply zget_zset_eq. pose proof (land7_range (T + d)). lia.
  - apply IH; [exact Hn | exact Hin | rewrite zset_length; exact Hs].
Qed.

(** ** The stack after a run *)

Section After.
Context (c : Context) (stack0 : list (option Z)) (e : ir) (x0 : X87State) (T0 P Q : Z).

#[local] Abbreviation D := (top_delta c).
#[local] Abbreviation T1 := ((T0 + D) mod 8).

(** The slot holds what it held at the entry: a register read and not
    changed since. *)
Definition unmoved (d : Z) : bool :=
  match op (node c (slot c d)) with ReadSt => initial_depth (node c (slot c d)) =? d + D | _ => false end.

Definition dirty_depths : list Z := filter (fun d => (0 <=? slot c d) && negb (unmoved d)) [0; 1; 2; 3; 4; 5; 6; 7].

Definition set_valid : Z := if 0 <? P - D then P - D else 0.
Definition set_empty : Z := if 0 <? D + Q - P then D + Q - P else 0.

(** A slot that is no node is a register in its place, or one that is empty:
    popped, or pushed out of the builder's model. *)
Definition slot_ok (J : list Z) (d : Z) : bool :=
  let v := slot c d in
  if v <? 0 then ((v =? - (d + D + 1)) && (0 <=? d + D) && (d + D <? 8)) || ((v <? -8) && (0 <=? d + D))
  else (v <? num_nodes c) && (if unmoved d then negb (dead (node c v)) && (0 <=? d + D) && (d + D <? 8) else existsb (Z.eqb v) J).

Definition slots_ok (J : list Z) : bool :=
  (-8 <=? D) && (D <=? 8) && (P - D <=? 8) && (D + Q - P <=? 8) && (length (slot_val c) =? 8)%nat &&
  forallb (slot_ok J) [0; 1; 2; 3; 4; 5; 6; 7].

(** Values go to registers in use, or to those a push has just made so; the
    registers pushed out of the model were empty. *)
Definition in_use_at (d : Z) : bool := match nth (Z.to_nat (d + D)) stack0 None with Some _ => true | None => false end.

Definition filled : bool :=
  forallb (fun d =>
    if slot c d <? 0 then (-8 <=? slot c d) || (8 <=? d + D) || negb (in_use_at d)
    else (d <? P - D) || ((d + D <? 8) && in_use_at d)) [0; 1; 2; 3; 4; 5; 6; 7].

(** The tags the pushes have not set yet are still those of empty registers. *)
Record deferred_ok : Prop := mkDeferredOk {
  df_push : 0 <= P <= 8;
  df_pop : 0 <= Q <= 8;
  df_one : P = 0 \/ Q = 0;
  df_fresh : forall d, 0 <= d < P -> nonempty x0 (Z.land (T0 + d) 7) = false
}.

(** What the epilogue leaves in memory. *)
Definition final_state : X87State :=
  retagged (mkX87 (i_cw e) (status_word (i_sw e) T1) (tagWord x0)
              (written T1 (map (fun d => (d, zget (vals e) (slot c d))) dirty_depths) (X87State.st x0)))
    T1 set_valid set_empty.

Definition result_stack : list (option Z) := map (slot_value stack0 e) (slot_val c).

Lemma final_st : X87State.st final_state = written T1 (map (fun d => (d, zget (vals e) (slot c d))) dirty_depths) (X87State.st x0).
Proof. unfold final_state, retagged. destruct (0 <? set_empty), (0 <? set_valid); reflexivity. Qed.

Lemma depths d : 0 <= d < 8 <-> In d [0; 1; 2; 3; 4; 5; 6; 7].
Proof. cbn. lia. Qed.

Lemma dirty_in d : In d dirty_depths <-> 0 <= d < 8 /\ 0 <= slot c d /\ unmoved d = false.
Proof.
  unfold dirty_depths. rewrite filter_In, <- depths, andb_true_iff, Z.leb_le, negb_true_iff. tauto.
Qed.

Lemma dirty_nodup : NoDup dirty_depths.
Proof. apply NoDup_filter. repeat constructor; cbn; lia. Qed.

Hypothesis (Hd : deferred_ok) (Hx : holds x0 T0 P Q stack0) (Hlen : length (X87State.st x0) = 8%nat).
Hypothesis (Hread : forall v, 0 <= v < num_nodes c -> op (node c v) = ReadSt -> dead (node c v) = false ->
  nth (Z.to_nat (initial_depth (node c v))) stack0 None = Some (zget (vals e) v)).

Lemma depth_phys d : Z.land (T1 + d) 7 = Z.land (T0 + (d + D)) 7.
Proof. rewrite !land7_mod, Z.add_mod_idemp_l by lia. f_equal. lia. Qed.

Lemma final_occupied d : -8 <= D <= 8 -> P - D <= 8 -> D + Q - P <= 8 -> 0 <= d < 8 ->
  occupied final_state T1 0 0 d =
  if d <? P - D then true else if 8 - (D + Q - P) <=? d then false else nonempty x0 (Z.land (T0 + (d + D)) 7).
Proof.
  intros HD HV HM Hr. unfold occupied, final_state.
  replace (d <? 0) with false by (symmetry; apply Z.ltb_ge; lia). replace (8 - 0 <=? d) with false by (symmetry; apply Z.leb_gt; lia).
  unfold set_valid, set_empty. rewrite nonempty_retagged; [|exact Hr | |].
  - rewrite <- depth_phys. change (nonempty (mkX87 _ _ (tagWord x0) _)) with (nonempty x0).
    destruct (Z.ltb_spec 0 (P - D)), (Z.ltb_spec 0 (D + Q - P)), (Z.ltb_spec d (P - D)), (Z.leb_spec (8 - (D + Q - P)) d);
      repeat match goal with |- context [?x <? ?y] => destruct (Z.ltb_spec x y); try lia | |- context [?x <=? ?y] => destruct (Z.leb_spec x y); try lia end; reflexivity.
  - destruct (Z.ltb_spec 0 (P - D)); lia.
  - destruct (Z.ltb_spec 0 (D + Q - P)); lia.
Qed.

Lemma nth_result d : length (slot_val c) = 8%nat -> 0 <= d < 8 ->
  nth (Z.to_nat d) result_stack None = slot_value stack0 e (slot c d).
Proof.
  intros Hl Hr. unfold result_stack, slot, zget. 
  rewrite (nth_indep _ None (slot_value stack0 e 0)) by (rewrite length_map; lia). apply map_nth.
Qed.

(** A register that is not written keeps its value; one that is has the node's. *)
Lemma final_get d : 0 <= d < 8 ->
  zget (X87State.st final_state) (Z.land (T1 + d) 7) =
  if (0 <=? slot c d) && negb (unmoved d) then zget (vals e) (slot c d) else zget (X87State.st x0) (Z.land (T0 + (d + D)) 7).
Proof.
  intros Hr. rewrite final_st.
  assert (Hf : Forall (fun e => 0 <= fst e < 8) (map (fun d => (d, zget (vals e) (slot c d))) dirty_depths)).
  { apply Forall_forall. intros p Hp. apply in_map_iff in Hp as (y & <- & Hy). apply dirty_in in Hy. cbn. tauto. }
  assert (Hfst : map fst (map (fun d => (d, zget (vals e) (slot c d))) dirty_depths) = dirty_depths).
  { rewrite map_map. cbn [fst]. apply map_id. }
  destruct ((0 <=? slot c d) && negb (unmoved d)) eqn:Ed.
  - assert (Hin : In d dirty_depths).
    { apply dirty_in. apply andb_true_iff in Ed as [E1 E2]. apply Z.leb_le in E1. apply negb_true_iff in E2. auto. }
    apply written_get; [exact Hlen | exact Hf | rewrite Hfst; exact dirty_nodup |].
    apply in_map_iff. exists d. auto.
  - rewrite <- depth_phys. apply written_other; [exact Hr | exact Hf |]. rewrite Hfst. intros Hin.
    apply dirty_in in Hin as (_ & H0 & Hu). apply Z.leb_le in H0. rewrite H0, Hu in Ed. discriminate.
Qed.

(** What a register held at the entry, by its depth there. *)
Lemma entry_depth k : 0 <= k < 8 ->
  match nth (Z.to_nat k) stack0 None with
  | Some v => occupied x0 T0 P Q k = true /\ zget (X87State.st x0) (Z.land (T0 + k) 7) = v
  | None => occupied x0 T0 P Q k = false
  end.
Proof. exact (Hx k). Qed.

Lemma occupied_entry d : -8 <= D <= 8 -> P - D <= 8 -> D + Q - P <= 8 -> 0 <= d < 8 -> 0 <= d + D < 8 ->
  occupied final_state T1 0 0 d = occupied x0 T0 P Q (d + D).
Proof.
  intros HD HV HM Hr Hk. rewrite final_occupied by assumption. unfold occupied. destruct Hd as [HP HQ H1 _].
  destruct (Z.ltb_spec d (P - D)), (Z.ltb_spec (d + D) P); try lia.
  destruct (Z.leb_spec (8 - (D + Q - P)) d), (Z.leb_spec (8 - Q) (d + D)); try reflexivity; try lia.
Qed.

(** The registers the pops leave behind are free. *)
Lemma popped_free d : -8 <= D -> D <= 8 -> P - D <= 8 -> D + Q - P <= 8 -> 0 <= d < 8 -> 8 <= d + D ->
  occupied final_state T1 0 0 d = false.
Proof.
  intros D1 D2 D3 D4 Hr K0. rewrite final_occupied by lia.
  destruct Hd as [HP HQ H1 Hfr]. destruct (Z.ltb_spec d (P - D)); [lia|].
  destruct (Z.leb_spec (8 - (D + Q - P)) d); [reflexivity|].
  replace (Z.land (T0 + (d + D)) 7) with (Z.land (T0 + (d + D - 8)) 7); [apply Hfr; lia|].
  rewrite !land7_mod. rewrite <- (Z.mod_add (T0 + (d + D - 8)) 1 8) by lia. f_equal. lia.
Qed.

Theorem result_holds J : slots_ok J = true -> filled = true -> holds final_state T1 0 0 result_stack.
Proof.
  intros Hok Hfi d Hr. unfold slots_ok in Hok. rewrite !andb_true_iff, !Z.leb_le, Nat.eqb_eq, forallb_forall in Hok.
  destruct Hok as (((((D1 & D2) & D3) & D4) & Hl) & Hs). specialize (Hs d (proj1 (depths d) Hr)).
  unfold filled in Hfi. rewrite forallb_forall in Hfi. specialize (Hfi d (proj1 (depths d) Hr)).
  rewrite (nth_result d Hl Hr), (final_get d Hr). unfold slot_ok in Hs. set (v := slot c d) in *. unfold slot_value.
  destruct (Z.ltb_spec v 0) as [Hv | Hv].
  - replace (0 <=? v) with false by (symmetry; apply Z.leb_gt; lia). cbn [andb].
    apply orb_true_iff in Hs as [Hs | Hs]; rewrite !andb_true_iff in Hs.
    + destruct Hs as ((E & K0) & K1). apply Z.eqb_eq in E. apply Z.leb_le in K0. apply Z.ltb_lt in K1.
      replace (-8 <=? v) with true by (symmetry; apply Z.leb_le; lia). replace (- (v + 1)) with (d + D) by lia.
      rewrite occupied_entry by lia. exact (entry_depth (d + D) ltac:(lia)).
    + destruct Hs as (E & K0). apply Z.ltb_lt in E. apply Z.leb_le in K0.
      assert (E8 : (-8 <=? v) = false) by (apply Z.leb_gt; lia). rewrite E8 in *. cbn [orb] in Hfi.
      apply orb_true_iff in Hfi as [H8 | Hn]; [apply Z.leb_le in H8; exact (popped_free d D1 D2 D3 D4 Hr H8)|].
      destruct (Z_lt_le_dec (d + D) 8) as [Hlt | H8]; [|exact (popped_free d ltac:(lia) ltac:(lia) D3 D4 Hr H8)].
      rewrite occupied_entry by lia. pose proof (entry_depth (d + D) ltac:(lia)) as He. unfold in_use_at in Hn.
      destruct (nth _ stack0 None); [discriminate | exact He].
  - replace (0 <=? v) with true by (symmetry; apply Z.leb_le; lia). cbn [andb] in Hs |- *.
    apply andb_true_iff in Hs as [Hvn Hs]. apply Z.ltb_lt in Hvn. split.
    + apply orb_true_iff in Hfi as [Hlt | Hfi].
      * rewrite final_occupied, Hlt by lia. reflexivity.
      * apply andb_true_iff in Hfi as [Hk Hn]. apply Z.ltb_lt in Hk. destruct Hd as [HP HQ H1 _].
        destruct (Z.ltb_spec d (P - D)) as [Hlt|Hge]; [rewrite final_occupied by lia; apply Z.ltb_lt in Hlt; rewrite Hlt; reflexivity|].
        rewrite occupied_entry by lia. pose proof (entry_depth (d + D) ltac:(lia)) as He.
        unfold in_use_at in Hn. destruct (nth _ stack0 None); [apply He | discriminate].
    + destruct (unmoved d) eqn:Eu; cbn [negb]; [|reflexivity].
      rewrite !andb_true_iff in Hs. destruct Hs as ((Hdd & K0) & K1). apply negb_true_iff in Hdd. apply Z.leb_le in K0. apply Z.ltb_lt in K1.
      unfold unmoved in Eu. fold v in Eu. destruct (op (node c v)) eqn:Eo; try discriminate. apply Z.eqb_eq in Eu.
      pose proof (Hread v ltac:(lia) Eo Hdd) as Hrd. rewrite Eu in Hrd.
      pose proof (entry_depth (d + D) ltac:(lia)) as He. rewrite Hrd in He. apply He.
Qed.
End After.

Lemma upto_nodup n : NoDup (upto n).
Proof.
  unfold upto. induction (seq_NoDup (Z.to_nat n) 0) as [|k l Hk _ IH]; cbn [map]; constructor; [|exact IH].
  intros H. apply in_map_iff in H as (y & E & Hy). apply Nat2Z.inj in E. subst. contradiction.
Qed.

Section Epilogue.
Context (cfg : RosettaConfig) (tgt : Target) (segbase : Z -> Z) (b T0 Tmem : Z) (x0 : X87State) (m0 : machine).
Context (f : Frame) (pinned : list Z) (stack0 : list (option Z)).

#[local] Abbreviation skip := (nzcv_skip (f_cmps f)).
#[local] Abbreviation single := (fun i => single_op (node (f_ctx f) i)).
#[local] Abbreviation Rel := (Rel cfg segbase b T0 Tmem x0 m0 f pinned skip single).
#[local] Abbreviation c := (f_ctx f).
#[local] Abbreviation D := (top_delta (f_ctx f)).
#[local] Abbreviation T1 := ((T0 + D) mod 8).

Hypothesis (He : entry_ok cfg T0 Tmem x0 f pinned stack0).
Hypothesis (Htop_ne : Wd_top f <> Xbase f /\ Wd_top f <> Xst_base f).

Section Code.
Context (e : ir) (J : list Z) (rg : Regs) (a : asm) (m : machine).
Hypothesis (H : Rel e None J rg a m) (Hsv : Wd_nzcv_saved rg < 0).

(** The epilogue on its way: the x87 state is [X], TOP's register holds [t]. *)
Record ep (X : X87State) (t : Z) (a' : asm) (m' : machine) : Prop := mkEp {
  ep_pool : gpool a' pinned;
  ep_fpr : free_fpr_mask a' = free_fpr_mask a;
  ep_safe : safe pinned [Wd_tmp f; Wd_top f] m m';
  ep_v : vr m' = vr m;
  ep_nzcv : nzcv m' = nzcv m;
  ep_mem : outside b (mm m) (mm m');
  ep_x : x87_at (mm m') b = X;
  ep_top : xr m' (Wd_top f) = t
}.

Lemma in_use_pinned : in_use pinned None rg = pinned.
Proof. unfold in_use, held. replace (0 <=? Wd_nzcv_saved rg) with false by (symmetry; apply Z.leb_gt, Hsv). reflexivity. Qed.

Lemma ep_start : ep (x87_at (mm m) b) T0 a m.
Proof.
  constructor; auto using safe_refl, outside_refl.
  - rewrite <- in_use_pinned. apply H.
  - apply (mr_top _ _ _ _ _ _ _ _ _ _ _ _ _ (proj1 H)).
Qed.

Lemma pinned_g r : In r pinned -> gpr r.
Proof. apply (pinned_gpr T0 f pinned (en_frame _ _ _ _ _ _ _ He)). Qed.

Lemma ep_keeps X t a1 m1 r : ep X t a1 m1 -> In r pinned -> r <> Wd_tmp f -> r <> Wd_top f -> xr m1 r = xr m r.
Proof.
  intros He1 Hr N1 N2. apply (ep_safe _ _ _ _ He1); [apply pinned_g in Hr; unfold gpr in Hr; lia | cbn; intuition congruence | auto].
Qed.

Lemma ep_based X t a1 m1 : ep X t a1 m1 -> based b (Xbase f) m1.
Proof.
  intros He1. destruct (mr_base _ _ _ _ _ _ _ _ _ _ _ _ _ (proj1 H)) as (G & E & Hb). split; [exact G|]. split; [|exact Hb].
  destruct He as [Hf _ _ _ _ _ _ _]. pose proof (fk_tmp_ne _ _ _ Hf). rewrite (ep_keeps _ _ _ _ _ He1); [exact E | apply Hf | |]; intuition congruence.
Qed.

Lemma ep_st_based X t a1 m1 : ep X t a1 m1 -> st_based b (Xst_base f) m1.
Proof.
  intros He1. destruct (mr_st _ _ _ _ _ _ _ _ _ _ _ _ _ (proj1 H)) as [E | [G E]]; [left; exact E | right; split; [exact G|]].
  destruct He as [Hf _ _ _ _ _ _ _]. pose proof (fk_tmp_ne _ _ _ Hf). destruct (fk_st _ _ _ Hf) as [Hst | Hst]; [unfold gpr in G; lia|].
  rewrite (ep_keeps _ _ _ _ _ He1); [exact E | exact Hst | |]; intuition congruence.
Qed.

(** A step that changes the state and the temporary. *)
Lemma ep_step X Y t a1 m1 a2 m2 :
  ep X t a1 m1 -> same_pools a1 a2 -> state_after b [Wd_tmp f] Y m1 m2 -> ep Y t a2 m2.
Proof.
  intros [] Hs (Hch & Ho & Hx). destruct He as [Hf _ _ _ _ _ _ _]. pose proof (fk_tmp_ne _ _ _ Hf) as Hne.
  constructor.
  - exact (gpool_same _ _ _ Hs ep_pool0).
  - rewrite (proj2 Hs). exact ep_fpr0.
  - eapply safe_trans; [exact ep_safe0|]. apply (safe_changes _ _ _ _ [Wd_tmp f]); [exact Hch | intros r [<- | []]; cbn; auto].
  - rewrite (ch_v _ _ _ Hch). exact ep_v0.
  - rewrite (ch_nzcv _ _ _ Hch). exact ep_nzcv0.
  - eapply outside_trans; eassumption.
  - exact Hx.
  - rewrite (ch_x _ _ _ Hch); [exact ep_top0 | intros [E | []]; intuition congruence].
Qed.

Lemma top_g : gpr (Wd_top f).
Proof. apply pinned_g, (fk_top _ _ _ (en_frame _ _ _ _ _ _ _ He)). Qed.

Lemma tmp_g : gpr (Wd_tmp f).
Proof. apply pinned_g, (fk_tmp _ _ _ (en_frame _ _ _ _ _ _ _ He)). Qed.

(** *** TOP *)

Lemma wp_final_top (Q : unit -> asm -> machine -> Prop) :
  -8 <= D <= 8 -> (forall a1 m1, ep (x87_at (mm m) b) T1 a1 m1 -> Q tt a1 m1) -> wp (emit_final_top f) Q a m.
Proof.
  intros HD HQ. unfold emit_final_top. destruct He as [Hf _ _ _ _ _ _ _]. rewrite (fk_top_known _ _ _ Hf). cbn [Z.leb Z.compare].
  pose proof (fk_T0 _ _ _ Hf) as HT. pose proof ep_start as H0. pose proof (ep_top _ _ _ _ H0) as Et.
  destruct (Z.eqb_spec D 0) as [E|N0]; cbn [negb].
  - apply wp_ret, HQ. rewrite E, Z.add_0_r, Z.mod_small by lia. exact H0.
  - assert (Hw : forall a1 m1, same_pools a a1 -> writes m m1 (Wd_top f) T1 -> Q tt a1 m1).
    { intros a1 m1 Hs [Ew Hfr]. apply HQ. destruct H0. constructor; try apply Hfr; auto.
      - exact (gpool_same _ _ _ Hs ep_pool0).
      - rewrite (proj2 Hs). exact ep_fpr0.
      - apply (safe_frame _ _ _ _ [Wd_top f]); [exact Hfr | intros r [<- | []]; cbn; auto].
      - rewrite (fr_mm _ _ _ Hfr). apply outside_refl.
      - rewrite (fr_mm _ _ _ Hfr). reflexivity. }
    assert (Hadd : forall sub n, 0 <= n < 4096 -> (if nz sub then T0 - n else T0 + n) = T0 + D -> wp (emit_top_add sub n (Wd_top f)) Q a m).
    { intros sub n Hn E. apply wp_top_add; [exact top_g | exact Hn|]. intros a1 m1 Hs Hwr. rewrite Et, E, land7_mod in Hwr. exact (Hw a1 m1 Hs Hwr). }
    destruct (Z.ltb_spec D 0).
    + apply (Hadd 1 (- D)); [lia | cbn; lia].
    + apply (Hadd 0 D); [lia | cbn; lia].
Qed.

(** *** The registers *)

Lemma wp_store_slots l s0 a1 m1 (Q : unit -> asm -> machine -> Prop) :
  let X s := mkX87 (controlWord (x87_at (mm m) b)) (statusWord (x87_at (mm m) b)) (tagWord (x87_at (mm m) b)) s in
  ep (X s0) T1 a1 m1 -> Forall (fun e => 0 <= fst e < 8 /\ gpr_or_zr (snd e)) l ->
  (forall a2 m2, ep (X (written T1 (map (fun e => (fst e, u64 (vr m (snd e)))) l) s0)) T1 a2 m2 -> Q tt a2 m2) ->
  wp (for_each l (fun e => emit_store_st (Xbase f) (Wd_top f) (fst e) (Wd_tmp f) (snd e) (Xst_base f))) Q a1 m1.
Proof.
  intros X H1 Hl. revert s0 a1 m1 H1. induction Hl as [|p l [Hp Hg] _ IH]; intros s0 a1 m1 H1 HQ; cbn [for_each].
  - apply wp_ret, HQ, H1.
  - destruct (tmp_ne T0 f pinned (en_frame _ _ _ _ _ _ _ He)) as (N1 & N2 & N3).
    apply wp_bind, (wp_store_st b (Xbase f) (Xst_base f) (Wd_top f) (Wd_tmp f)).
    + exact top_g.
    + exact tmp_g.
    + congruence.
    + congruence.
    + exact (ep_based _ _ _ _ H1).
    + exact (ep_st_based _ _ _ _ H1).
    + rewrite (ep_top _ _ _ _ H1). apply Z.mod_pos_bound. lia.
    + exact Hp.
    + exact Hg.
    + intros a2 m2 Hs Hst. rewrite (ep_top _ _ _ _ H1), (ep_x _ _ _ _ H1), (ep_v _ _ _ _ H1) in Hst.
      pose proof (ep_step _ _ _ _ _ _ _ H1 Hs Hst) as H2. apply (IH _ a2 m2 H2). exact HQ.
Qed.

Lemma flat_map_filter {A B} (g : A -> list B) (p : A -> bool) (h : A -> B) l :
  (forall x, In x l -> g x = if p x then [h x] else []) -> flat_map g l = map h (filter p l).
Proof.
  induction l as [|x l IH]; intros Hg; [reflexivity|]. cbn [flat_map filter]. rewrite Hg by (left; reflexivity).
  rewrite IH by (intros; apply Hg; right; assumption). destruct (p x); reflexivity.
Qed.

(** The slots the epilogue writes back are the dirty ones. *)
Lemma dirty_slots_map :
  (forall d, In d (dirty_depths c) -> In (slot c d) J) ->
  dirty_slots f rg = map (fun d => (d, get rg (slot c d))) (dirty_depths c).
Proof.
  intros HJ. apply flat_map_filter. intros d Hd. change (zget (slot_val c) d) with (slot c d).
  pose proof (HJ d) as Hj. unfold dirty_depths in Hj. rewrite filter_In in Hj. unfold unmoved in *.
  destruct (Z.ltb_spec (slot c d) 0) as [Hlt|Hge].
  - replace (0 <=? slot c d) with false by (symmetry; apply Z.leb_gt; lia). reflexivity.
  - replace (0 <=? slot c d) with true in * by (symmetry; apply Z.leb_le; lia). cbn [andb] in *.
    destruct (match op (node c (slot c d)) with ReadSt => _ | _ => false end); [reflexivity|]. cbn [negb] in *.
    specialize (Hj (conj Hd eq_refl)). destruct H as (_ & Hr & _).
    pose proof (input_value _ _ _ _ _ _ _ _ Hr Hj) as (Hz & _ & _). unfold gpr_or_zr in Hz.
    destruct (Z.ltb_spec (get rg (slot c d)) 0); [lia | reflexivity].
Qed.

Lemma wp_slots a1 m1 (Q : unit -> asm -> machine -> Prop) :
  let X s := mkX87 (controlWord (x87_at (mm m) b)) (statusWord (x87_at (mm m) b)) (tagWord (x87_at (mm m) b)) s in
  (forall d, In d (dirty_depths c) -> In (slot c d) J) ->
  ep (x87_at (mm m) b) T1 a1 m1 ->
  (forall a2 m2, ep (X (written T1 (map (fun d => (d, zget (vals e) (slot c d))) (dirty_depths c)) (X87State.st x0))) T1 a2 m2 -> Q tt a2 m2) ->
  wp (emit_slots f rg) Q a1 m1.
Proof.
  intros X HJ H1 HQ. unfold emit_slots. destruct He as [Hf _ _ _ _ _ _ _]. rewrite (fk_top_known _ _ _ Hf). cbn [Z.leb Z.compare].
  rewrite (dirty_slots_map HJ). pose proof (mr_state _ _ _ _ _ _ _ _ _ _ _ _ _ (proj1 H)) as Hst.
  assert (Hr : forall d, In d (dirty_depths c) -> gpr_or_zr (get rg (slot c d)) /\ u64 (vr m (get rg (slot c d))) = zget (vals e) (slot c d)).
  { intros d Hd. destruct H as (_ & Hr & _). destruct (input_value _ _ _ _ _ _ _ _ Hr (HJ d Hd)) as (Hz & Hv & H64 & _).
    split; [exact Hz|]. rewrite Hv. apply in64_u64, H64. }
  apply (wp_store_slots _ (X87State.st x0) a1 m1).
  - rewrite Hst in H1 |- *. exact H1.
  - apply Forall_forall. intros p Hp. apply in_map_iff in Hp as (d & <- & Hd). cbn [fst snd]. split; [apply dirty_in in Hd; apply Hd | apply Hr, Hd].
  - intros a2 m2 H2. apply HQ. unfold X. rewrite map_map in H2. cbn [fst snd] in H2.
    rewrite (map_ext_in _ (fun d => (d, zget (vals e) (slot c d)))) in H2; [exact H2|].
    intros d Hd. rewrite (proj2 (Hr d Hd)). reflexivity.
Qed.

(** *** TOP's field and the tags *)

Lemma wp_top_field s0 a1 m1 (Q : unit -> asm -> machine -> Prop) :
  -8 <= D <= 8 -> 0 <= i_sw e < 2 ^ 16 ->
  ep (mkX87 (i_cw e) (status_word (i_sw e) Tmem) (tagWord x0) s0) T1 a1 m1 ->
  (forall a2 m2, ep (mkX87 (i_cw e) (status_word (i_sw e) T1) (tagWord x0) s0) T1 a2 m2 -> Q tt a2 m2) ->
  wp (if negb (D =? 0) || entry_top_dirty f then emit_store_top (Xbase f) (Wd_top f) (Wd_tmp f) else ret tt) Q a1 m1.
Proof.
  intros HD Hsw H1 HQ. pose proof He as Hen. destruct He as [Hf _ _ Htm Hdt _ _ _]. pose proof (fk_T0 _ _ _ Hf) as HT0.
  assert (HT1 : 0 <= T1 < 8) by (apply Z.mod_pos_bound; lia).
  destruct (negb (D =? 0) || entry_top_dirty f) eqn:Ed.
  - destruct (tmp_ne T0 f pinned Hf) as (N1 & N2 & N3). apply (wp_store_top b (Xbase f) _ _ (ep_based _ _ _ _ H1)).
    + exact top_g.
    + exact tmp_g.
    + congruence.
    + congruence.
    + rewrite (ep_top _ _ _ _ H1). exact HT1.
    + intros a2 m2 Hs Hst. apply HQ. rewrite (ep_top _ _ _ _ H1), (ep_x _ _ _ _ H1) in Hst.
      apply (ep_step _ _ _ _ _ _ _ H1 Hs). unfold with_top in Hst. cbn [with_sw controlWord statusWord tagWord X87State.st] in Hst.
      change kTopOfStack with 0x3800 in Hst. rewrite status_word_top in Hst by exact Htm.
      rewrite wrap_small in Hst by (apply status_word_range; assumption). exact Hst.
  - apply orb_false_iff in Ed as [E1 E2]. apply negb_false_iff, Z.eqb_eq in E1. apply wp_ret, HQ.
    replace (status_word (i_sw e) T1) with (status_word (i_sw e) Tmem); [exact H1|].
    rewrite (Hdt E2), E1, Z.add_0_r, Z.mod_small by lia. reflexivity.
Qed.

#[local] Abbreviation V := (set_valid_count f).
#[local] Abbreviation M := (set_empty_count f).

Section Tags.
Context (t2 tw : Z).
Hypothesis (Hs2 : scratch t2 = true) (Hn2 : ~ In t2 pinned) (Hsw : scratch tw = true) (Hnw : ~ In tw (t2 :: pinned)).

(** The epilogue with the two registers taken. *)
Definition taken (X : X87State) (a' : asm) (m' : machine) : Prop :=
  gpool a' (tw :: t2 :: pinned) /\ free_fpr_mask a' = free_fpr_mask a /\ exists a1, ep X T1 a1 m'.

Lemma apart_pinned r : In r pinned -> r <> t2 /\ r <> tw.
Proof. intros Hr. split; intros ->; [exact (Hn2 Hr) | apply Hnw; right; exact Hr]. Qed.

Lemma taken_step X Y a4 m4 a5 m5 :
  taken X a4 m4 -> same_pools a4 a5 -> state_after b [Wd_tmp f; t2; tw] Y m4 m5 -> taken Y a5 m5.
Proof.
  intros (P4 & F4 & a1 & E4) Hs (Hch & Ho & Hx). split; [exact (gpool_same _ _ _ Hs P4)|].
  split; [rewrite (proj2 Hs); exact F4|]. exists a1. destruct He as [Hf _ _ _ _ _ _ _].
  destruct (tmp_ne T0 f pinned Hf) as (_ & N2 & _). destruct (apart_pinned _ (fk_top _ _ _ Hf)) as [U1 U2].
  destruct E4. constructor; auto.
  - eapply safe_trans; [exact ep_safe0|]. apply (safe_changes _ _ _ _ [Wd_tmp f; t2; tw]); [exact Hch|].
    intros r [<- | [<- | [<- | []]]]; [left; left; reflexivity | right; auto | right; split; [exact Hsw|]; intros Hr; apply Hnw; right; exact Hr].
  - rewrite (ch_v _ _ _ Hch). exact ep_v0.
  - rewrite (ch_nzcv _ _ _ Hch). exact ep_nzcv0.
  - eapply outside_trans; eassumption.
  - rewrite (ch_x _ _ _ Hch); [exact ep_top0 | cbn; intuition congruence].
Qed.

Definition batch (empty : bool) (n : Z) : list Z := if empty then below T1 n (Z.to_nat n) else phys T1 0 (Z.to_nat n).

Lemma wp_batch X (empty : bool) n a4 m4 (Q : unit -> asm -> machine -> Prop) :
  0 <= n <= 8 -> taken X a4 m4 -> (forall a5 m5, taken (mark empty X (batch empty n)) a5 m5 -> Q tt a5 m5) ->
  wp (if empty then emit_x87_tag_set_empty_batch (Xbase f) (Wd_top f) (Wd_tmp f) t2 tw n
      else emit_x87_tag_set_valid_batch (Xbase f) (Wd_top f) (Wd_tmp f) t2 tw n) Q a4 m4.
Proof.
  intros Hn H4 HQ. pose proof H4 as (_ & _ & a1 & E4). pose proof (ep_based _ _ _ _ E4) as Hb4.
  assert (HT : 0 <= xr m4 (Wd_top f) < 8) by (rewrite (ep_top _ _ _ _ E4); apply Z.mod_pos_bound; lia).
  pose proof top_g as Gt. pose proof tmp_g as Gp. destruct He as [Hf _ _ _ _ _ _ _].
  destruct (tmp_ne T0 f pinned Hf) as (N1 & N2 & _).
  destruct (apart_pinned _ (fk_top _ _ _ Hf)) as [U1 U2]. destruct (apart_pinned _ (fk_xb _ _ _ Hf)) as [U3 U4].
  destruct (apart_pinned _ (fk_tmp _ _ _ Hf)) as [U5 U6].
  assert (U7 : t2 <> tw) by (intros ->; apply Hnw; left; reflexivity).
  assert (Hst : forall a5 m5, same_pools a4 a5 ->
    state_after b [Wd_tmp f; t2; tw] (mark empty (x87_at (mm m4) b) (if empty then below (xr m4 (Wd_top f)) n (Z.to_nat n) else phys (xr m4 (Wd_top f)) 0 (Z.to_nat n))) m4 m5 ->
    Q tt a5 m5).
  { intros a5 m5 Hs Hst. rewrite (ep_top _ _ _ _ E4), (ep_x _ _ _ _ E4) in Hst. exact (HQ _ _ (taken_step _ _ _ _ _ _ H4 Hs Hst)). }
  destruct empty.
  - apply (wp_tag_set_empty_batch b); auto using scratch_gpr'. lia.
  - apply (wp_tag_set_valid_batch b); auto using scratch_gpr'.
Qed.

Lemma wp_untake X a4 m4 (Q : unit -> asm -> machine -> Prop) :
  taken X a4 m4 -> (forall a5 m5, ep X T1 a5 m5 -> Q tt a5 m5) -> wp (free_gpr tw ;;; free_gpr t2) Q a4 m4.
Proof.
  intros (P4 & F4 & a1 & E4) HQ. apply wp_bind, (wp_gfree tw (t2 :: pinned)); [exact P4 | exact Hsw | exact Hnw|]. intros a5 P5 F5.
  apply (wp_gfree t2 pinned); [exact P5 | exact Hs2 | exact Hn2|]. intros a6 P6 F6. apply HQ.
  destruct E4. constructor; auto. rewrite F6, F5. exact F4.
Qed.
End Tags.

Lemma wp_tags X a1 m1 (Q : unit -> asm -> machine -> Prop) :
  V <= 8 -> M <= 8 -> (length pinned <= 6)%nat -> ep X T1 a1 m1 ->
  (forall a2 m2, ep (retagged X T1 V M) T1 a2 m2 -> Q tt a2 m2) -> wp (emit_tags f) Q a1 m1.
Proof.
  intros HV HM Hp H1 HQ. unfold emit_tags. cbv zeta. destruct ((0 <? V) || (0 <? M)) eqn:Eb.
  2:{ apply orb_false_iff in Eb as [E1 E2]. apply wp_ret, HQ. unfold retagged. rewrite E1, E2. exact H1. }
  clear Eb. rewrite (fk_top_known _ _ _ (en_frame _ _ _ _ _ _ _ He)). cbn [Z.leb Z.compare].
  apply wp_bind, (wp_galloc pinned); [apply H1 | lia|]. intros t2 a2 Hs2 Hn2 Hp2 Hm2.
  apply wp_bind, (wp_galloc (t2 :: pinned)); [exact Hp2 | cbn [length]; lia|]. intros tw a3 Hsw Hnw Hp3 Hm3.
  assert (H3 : taken t2 tw X a3 m1) by (split; [exact Hp3|]; split; [rewrite Hm3, Hm2; apply H1 | exists a1; exact H1]).
  apply wp_bind, wp_bind.
  assert (Hvalid : forall Y a4 m4, taken t2 tw Y a4 m4 ->
    (if 0 <? V then mark false Y (phys T1 0 (Z.to_nat V)) else Y) = retagged X T1 V M ->
    wp (if 0 <? V then emit_x87_tag_set_valid_batch (Xbase f) (Wd_top f) (Wd_tmp f) t2 tw V else ret tt)
      (fun _ a5 m5 => wp (free_gpr tw ;;; free_gpr t2) Q a5 m5) a4 m4).
  { intros Y a4 m4 H4 E. destruct (Z.ltb_spec 0 V).
    - apply (wp_batch t2 tw Hs2 Hn2 Hsw Hnw Y false V a4 m4); [lia | exact H4|]. intros a5 m5 H5.
      eapply wp_untake; [exact Hs2 | exact Hn2 | exact Hsw | exact Hnw | exact H5 |]. unfold batch. rewrite E. exact HQ.
    - apply wp_ret. eapply wp_untake; [exact Hs2 | exact Hn2 | exact Hsw | exact Hnw | exact H4 |]. rewrite E. exact HQ. }
  unfold retagged in Hvalid. cbv zeta in Hvalid. destruct (Z.ltb_spec 0 M) as [HM0|HM0].
  - apply (wp_batch t2 tw Hs2 Hn2 Hsw Hnw X true M a3 m1); [lia | exact H3|]. intros a5 m5 H5. exact (Hvalid _ _ _ H5 eq_refl).
  - apply wp_ret. exact (Hvalid _ _ _ H3 eq_refl).
Qed.

(** *** The SIMD registers given back *)

Lemma wp_free_list l J' a1 (Q : unit -> asm -> machine -> Prop) m1 :
  let g := zget (node_fpr rg) in
  fpool cfg a1 (map g J') -> NoDup l -> incl J' l -> NoDup (map g J') ->
  (forall j, In j J' -> fscratch cfg (g j) = true) -> (forall j, In j l -> In j J' \/ g j = -1) ->
  (forall a2, fpool cfg a2 [] -> free_gpr_mask a2 = free_gpr_mask a1 -> Q tt a2 m1) ->
  wp (for_each l (fun i => if 0 <=? zget (node_fpr rg) i then free_fpr cfg (zget (node_fpr rg) i) else ret tt)) Q a1 m1.
Proof.
  intros g. revert J' a1. induction l as [|i l IH]; intros J' a1 Hp Hl Hinc Hinj Hsc Hno HQ; cbn [for_each].
  - apply wp_ret, HQ; [|reflexivity]. destruct J' as [|j J']; [exact Hp|]. destruct (Hinc j); left; reflexivity.
  - apply NoDup_cons_iff in Hl as [Hi Hl]. apply wp_bind. fold (g i). destruct (in_dec Z.eq_dec i J') as [Hj | Hj].
    + pose proof (fscratch_range _ _ (Hsc i Hj)). replace (0 <=? g i) with true by (symmetry; apply Z.leb_le; lia).
      destruct (map_dropped g J' i Hj Hinj) as [Hfresh Hset].
      apply (wp_ffree cfg _ (map g (remove Z.eq_dec i J'))).
      * apply (fpool_ext cfg a1 (map g J')); [intros r; symmetry; apply Hset | exact Hp].
      * exact (Hsc i Hj).
      * exact Hfresh.
      * intros a2 Hp2 Hm2. apply (IH (remove Z.eq_dec i J') a2 Hp2 Hl).
        -- intros j Hjj. apply in_remove in Hjj as [Hjj Hne]. destruct (Hinc j Hjj); [congruence | assumption].
        -- apply nodup_map_dropped, Hinj.
        -- intros j Hjj. apply in_remove in Hjj as [Hjj _]. exact (Hsc j Hjj).
        -- intros j Hjl. destruct (Hno j (or_intror Hjl)) as [Hjj | E]; [left | right; exact E].
           apply in_in_remove; [intros ->; contradiction | exact Hjj].
        -- intros a3 Hp3 Hm3. apply HQ; [exact Hp3 | congruence].
    + destruct (Hno i (or_introl eq_refl)) as [Hjj | E]; [contradiction|]. rewrite E. apply wp_ret, (IH J' a1 Hp Hl); auto.
      * intros j Hjj. destruct (Hinc j Hjj) as [-> | Hjl]; [contradiction | exact Hjl].
      * intros j Hjl. apply Hno. right. exact Hjl.
Qed.

Lemma wp_free_held a1 m1 (Q : unit -> asm -> machine -> Prop) :
  fpool cfg a1 (map (zget (node_fpr rg)) J) -> num_nodes c = Z.of_nat (length (vals e)) -> num_nodes c <= 128 ->
  (forall a2, fpool cfg a2 [] -> free_gpr_mask a2 = free_gpr_mask a1 -> Q tt a2 m1) -> wp (free_held cfg f rg) Q a1 m1.
Proof.
  intros Hp En H128 HQ. unfold free_held. destruct H as (_ & Hr & _).
  assert (Hup : forall j, In j (upto (num_nodes c)) <-> 0 <= j < num_nodes c).
  { intros j. unfold upto. rewrite in_map_iff. split.
    - intros (k & <- & Hk). apply in_seq in Hk. lia.
    - intros Hj. exists (Z.to_nat j). rewrite in_seq. lia. }
  apply (wp_free_list _ J a1); [exact Hp | | | exact (fr_inj _ _ _ _ _ _ _ Hr) | exact (fr_scratch _ _ _ _ _ _ _ Hr) | | exact HQ].
  - apply upto_nodup.
  - intros j Hj. apply Hup. rewrite En. exact (fr_ids _ _ _ _ _ _ _ Hr j Hj).
  - intros j Hj. apply Hup in Hj. destruct (in_dec Z.eq_dec j J) as [Hin | Hn]; [left; exact Hin | right].
    apply (fr_none _ _ _ _ _ _ _ Hr); [lia | exact Hn | exact I].
Qed.

(** *** The whole epilogue *)

#[local] Abbreviation pushed := (entry_push_count f).
#[local] Abbreviation popped := (entry_pop_count f).

(** What the run leaves: the machine stands for the run's result, the pools
    are as they were at the entry but for what the frame pins. *)
Record finished (a' : asm) (m' : machine) : Prop := mkFinished {
  fi_regs : forall r, 0 <= r < 16 -> xr m' r = i_regs e r;
  fi_other : forall r, 16 <= r -> scratch r = false -> xr m' r = xr m0 r;
  fi_v : forall r, fscratch cfg r = false -> vr m' r = vr m0 r;
  fi_mem : agree b (mm m') (i_mem e);
  fi_x87 : x87_at (mm m') b = final_state c e x0 T0 pushed popped;
  fi_nzcv : skip = false -> nzcv m' = i_nzcv e;
  fi_top : xr m' (Wd_top f) = T1;
  fi_base : xr m' (Xbase f) = b;
  fi_gpool : gpool a' pinned;
  fi_fpool : fpool cfg a' []
}.

Lemma wp_epilogue (Q : unit -> asm -> machine -> Prop) :
  num_nodes c = Z.of_nat (length (vals e)) -> num_nodes c <= 128 -> (length pinned <= 6)%nat ->
  slots_ok c pushed popped J = true -> (forall a' m', finished a' m' -> Q tt a' m') ->
  wp (emit_epilogue cfg f rg) Q a m.
Proof.
  intros En H128 Hp6 Hok HQ. unfold emit_epilogue. pose proof He as Hen. destruct H as (Hm & Hr & Hpo).
  unfold slots_ok in Hok. rewrite !andb_true_iff, !Z.leb_le, forallb_forall in Hok.
  destruct Hok as (((((D1 & D2) & D3) & D4) & _) & Hs).
  assert (HJ : forall d, In d (dirty_depths c) -> In (slot c d) J).
  { intros d Hd. apply dirty_in in Hd as (Hd & H0 & Hu). apply depths in Hd. specialize (Hs d Hd). unfold slot_ok in Hs.
    rewrite Hu in Hs. replace (slot c d <? 0) with false in Hs by (symmetry; apply Z.ltb_ge; lia).
    apply andb_true_iff in Hs as [_ Hs]. apply memE, Hs. }
  pose proof (mr_state _ _ _ _ _ _ _ _ _ _ _ _ _ Hm) as Hst. pose proof (mr_sw _ _ _ _ _ _ _ _ _ _ _ _ _ Hm) as Hsw.
  cbn [memory_sw] in Hst.
  apply wp_bind, wp_final_top; [lia|]. intros a1 m1 H1. apply wp_bind, wp_slots; [exact HJ | exact H1|].
  intros a2 m2 H2. rewrite Hst in H2. apply wp_bind. eapply wp_top_field; [lia | exact Hsw | exact H2|].
  intros a3 m3 H3. apply wp_bind. eapply wp_tags; [| | exact Hp6 | exact H3|].
  { unfold set_valid_count. destruct (Z.ltb_spec 0 (pushed - D)); lia. }
  { unfold set_empty_count. destruct (Z.ltb_spec 0 (D + popped - pushed)); lia. }
  intros a4 m4 H4. apply wp_free_held; [| exact En | exact H128 |].
  { apply (fpool_mask _ a); [apply H4 | apply Hpo]. }
  intros a5 Hf5 Hg5. apply HQ. destruct Hen as [Hf _ _ _ _ _ _ _]. destruct (tmp_ne T0 f pinned Hf) as (N1 & N2 & N3).
  pose proof (ep_safe _ _ _ _ H4) as Hsf.
  assert (Hkeep : forall r, 0 <= r -> scratch r = false -> xr m4 r = xr m r).
  { intros r H0 Hsr. apply Hsf; [exact H0 | | left; exact Hsr]. pose proof (fk_scratch _ _ _ Hf) as Hsc.
    intros [E | [E | []]]; subst r; [rewrite (Hsc _ (fk_tmp _ _ _ Hf)) in Hsr | rewrite (Hsc _ (fk_top _ _ _ Hf)) in Hsr]; discriminate. }
  constructor.
  - intros r Hr0. rewrite Hkeep by (lia || apply guest_not_scratch, Hr0). apply Hm, Hr0.
  - intros r Hr0 Hsr. rewrite Hkeep by (lia || exact Hsr). apply Hm; assumption.
  - intros r Hfr. rewrite (ep_v _ _ _ _ H4). apply Hm, Hfr.
  - eapply agree_outside; [apply H4 | apply Hm].
  - exact (ep_x _ _ _ _ H4).
  - intros Hsk. rewrite (ep_nzcv _ _ _ _ H4). pose proof (mr_nzcv _ _ _ _ _ _ _ _ _ _ _ _ _ Hm) as Hn. rewrite Hsk in Hn.
    replace (0 <=? Wd_nzcv_saved rg) with false in Hn by (symmetry; apply Z.leb_gt, Hsv). exact Hn.
  - exact (ep_top _ _ _ _ H4).
  - apply (ep_based _ _ _ _ H4).
  - destruct (ep_pool _ _ _ _ H4) as [G0 G]. unfold gpool, free. rewrite Hg5. split; assumption.
  - exact Hf5.
Qed.
End Code.
End Epilogue.
