(* ===== verification/LowerProps.v ===== *)
(** The body of a lowered run: the machine that stands for the abstract state
    at the entry is taken to one that stands for the state the run's nodes
    give.

    The properties of the run lowering: the body of a run. *)

From S2P Require Import Prelude F64 GuestMem X87State X87Props Emit Assembler IROperand X87IR Fpu X87IREval A64Exec CodeExec.
From S2P Require Import TranslatorHelpers Pools InsnRules AccessProps X87Helpers X87Cache X87IRPlan X87IRLower.
From S2P Require Import X87Memory AccessProps X87HelpersProps X87IRSim LowerRel LowerValues LowerEffects LowerGuest LowerNodes LowerEpilogue.
From S2P Require Import X87IROptimize OptimizeProps.
From S2P Require GuestProps.

(** ** A machine that stands for an abstract state

    The x87 state is at address [b], its TOP field is [Tm]; [P] pushes' and
    [Q] pops' tags are deferred; the guest's flags are in NZCV when [live]. *)
Record stands (b : Z) (live : bool) (Tm P Q : Z) (s : fpu) (m : machine) : Prop := mkStands {
  sd_regs : forall r, 0 <= r < 16 -> xr m r = regs s r;
  sd_mem : agree b (mm m) (gmem s);
  sd_cw : controlWord (x87_at (mm m) b) = cw s;
  sd_sw : statusWord (x87_at (mm m) b) = status_word (sw s) Tm;
  sd_swr : 0 <= sw s < 2 ^ 16;
  sd_top : 0 <= top s < 8;
  sd_stack : holds (x87_at (mm m) b) (top s) P Q (stack s);
  sd_defer : deferred_ok (x87_at (mm m) b) (top s) P Q;
  sd_flags : live = true -> zf s = Z.testbit (nzcv m) 30 /\ pf s = Z.testbit (nzcv m) 28 /\ cf s = negb (Z.testbit (nzcv m) 29)
}.

(** ** Evaluation: reads of the stack, and flags without an FCOMI *)

Lemma eval_vals segbase stack0 T0 l : forall e k, 0 <= k < Z.of_nat (length (vals e)) ->
  zget (vals (eval segbase stack0 T0 e l)) k = zget (vals e) k /\
  (length (vals (eval segbase stack0 T0 e l)) = length (vals e) + length l)%nat.
Proof.
  induction l as [|n l IH]; intros e k Hk; [cbn; split; [reflexivity | lia]|].
  change (eval segbase stack0 T0 e (n :: l)) with (eval segbase stack0 T0 (eval_node segbase stack0 T0 e n) l).
  assert (El : vals (eval_node segbase stack0 T0 e n) = vals e ++ [snd (node_sem segbase stack0 T0 e (fun j => zget (vals e) (input n j)) n)])
    by apply eval_node_vals_eq.
  destruct (IH (eval_node segbase stack0 T0 e n) k) as [E1 E2]; [rewrite El, length_app; cbn; lia|].
  split; [rewrite E1, El; apply zget_app_old; exact Hk | rewrite E2, El, length_app; cbn; lia].
Qed.

Lemma eval_length segbase stack0 T0 l e : (length (vals (eval segbase stack0 T0 e l)) = length (vals e) + length l)%nat.
Proof.
  revert e. induction l as [|n l IH]; intros e; [cbn; lia|].
  change (eval segbase stack0 T0 e (n :: l)) with (eval segbase stack0 T0 (eval_node segbase stack0 T0 e n) l).
  rewrite IH, eval_node_vals_eq, length_app. cbn. lia.
Qed.

Lemma eval_read_st cfg segbase b stack0 T0 l : forall e j n,
  nodes_run cfg segbase b T0 stack0 e l = true -> nth_error l j = Some n -> op n = ReadSt -> dead n = false ->
  nth (Z.to_nat (initial_depth n)) stack0 None =
  Some (zget (vals (eval segbase stack0 T0 e l)) (Z.of_nat (length (vals e) + j))).
Proof.
  induction l as [|n l IH]; intros e j n0 Hr Hj Eo Hd; [destruct j; discriminate|].
  cbn [nodes_run] in Hr. apply andb_true_iff in Hr as [Hn Hr].
  change (eval segbase stack0 T0 e (n :: l)) with (eval segbase stack0 T0 (eval_node segbase stack0 T0 e n) l).
  assert (El : vals (eval_node segbase stack0 T0 e n) = vals e ++ [snd (node_sem segbase stack0 T0 e (fun j => zget (vals e) (input n j)) n)])
    by apply eval_node_vals_eq.
  destruct j as [|j].
  - injection Hj as ->. rewrite Hd in Hn. cbn [orb] in Hn. unfold node_runs in Hn. rewrite Eo in Hn.
    destruct (eval_vals segbase stack0 T0 l (eval_node segbase stack0 T0 e n0) (Z.of_nat (length (vals e) + 0))) as [E1 _].
    { rewrite El, length_app. cbn. lia. }
    rewrite E1, El, zget_app_new by (f_equal; lia). unfold node_sem. rewrite Hd, Eo. cbn [snd]. unfold initial.
    destruct (nth _ stack0 None); [reflexivity | discriminate].
  - rewrite (IH (eval_node segbase stack0 T0 e n) j n0 Hr Hj Eo Hd). rewrite El, length_app. cbn [length]. do 3 f_equal. lia.
Qed.

Definition no_fcomi (l : list Node) : bool := forallb (fun n => dead n || negb (Op_eqb (op n) FComI)) l.

Lemma eval_nzcv segbase stack0 T0 l : forall e, no_fcomi l = true -> i_nzcv (eval segbase stack0 T0 e l) = i_nzcv e.
Proof.
  induction l as [|n l IH]; intros e Hl; [reflexivity|]. cbn [no_fcomi forallb] in Hl. apply andb_true_iff in Hl as [Hn Hl].
  change (eval segbase stack0 T0 e (n :: l)) with (eval segbase stack0 T0 (eval_node segbase stack0 T0 e n) l).
  rewrite IH by exact Hl. unfold eval_node, add_val. cbn [i_nzcv]. unfold node_sem. destruct (dead n); [reflexivity|].
  cbn [orb] in Hn. destruct (op n); try reflexivity. discriminate.
Qed.

(** ** The body *)

Section Body.
Context (cfg : RosettaConfig) (tgt : Target) (segbase : Z -> Z) (b Tm : Z) (f : Frame) (pinned : list Z) (s : fpu) (m0 : machine).

#[local] Abbreviation c := (f_ctx f).
#[local] Abbreviation live := (negb (nzcv_skip (f_cmps f))).
#[local] Abbreviation P := (entry_push_count f).
#[local] Abbreviation Q := (entry_pop_count f).
#[local] Abbreviation x0 := (x87_at (mm m0) b).
#[local] Abbreviation np := (Z.of_nat (length pinned)).
#[local] Abbreviation E := (eval_context segbase c s (nzcv m0)).

(** The registers of the frame hold what their names say. *)
Record frame_at (a0 : asm) : Prop := mkFrameAt {
  fa_entry : entry_ok cfg (top s) Tm x0 f pinned (stack s);
  fa_top_ne : Wd_top f <> Xbase f /\ Wd_top f <> Xst_base f;
  fa_nodup : NoDup pinned;
  fa_base : based b (Xbase f) m0;
  fa_st : st_based b (Xst_base f) m0;
  fa_top : xr m0 (Wd_top f) = top s;
  fa_bases : forall k, In k (f_bases f) -> u64 (xr m0 (b_reg k)) = addr segbase (regs s) (with_disp0 (b_rep k));
  fa_rc : rc_entry_valid f = true -> 0 <= Wd_rc_cached f -> xr m0 (Wd_rc_cached f) = rc_of (cw s);
  fa_nzcv : Z.land (nzcv m0) 0xFC000000 = nzcv m0;
  fa_gpool : gpool a0 pinned;
  fa_fpool : fpool cfg a0 []
}.

Definition track0 : track := mkTrack [] None false.

(** What the lowering needs of the plan, and the run of the machine state. *)
Definition body_fits : bool :=
  match track_nodes cfg f np (numbered c) track0 with
  | Some T => negb (is_some (tk_pend T)) && negb (tk_saved T) && slots_ok c P Q (tk_fprs T)
  | None => false
  end && (np <=? 6) && (num_nodes c <=? 128) && ((0 <=? last_fcomi c) || no_fcomi (nodes c)).

Definition body_runs : bool :=
  nodes_run cfg segbase b (top s) (stack s) (ir_start s (nzcv m0)) (nodes c) && filled c (stack s) P.

Record body_done (a' : asm) (m' : machine) : Prop := mkBodyDone {
  bd_stands : stands b live ((top s + top_delta c) mod 8) 0 0 (ir_result c s E) m';
  bd_other : forall r, 16 <= r -> scratch r = false -> xr m' r = xr m0 r;
  bd_v : forall r, fscratch cfg r = false -> vr m' r = vr m0 r;
  bd_top : xr m' (Wd_top f) = (top s + top_delta c) mod 8;
  bd_base : xr m' (Xbase f) = b;
  bd_gpool : gpool a' pinned;
  bd_fpool : fpool cfg a' []
}.

Hypothesis (Hs : stands b live Tm P Q s m0).

Lemma rel_entry a0 : frame_at a0 ->
  Rel cfg segbase b (top s) Tm x0 m0 f pinned (nzcv_skip (f_cmps f)) (fun i => single_op (node c i)) (ir_start s (nzcv m0)) None []
    (mkRegs no_nodes (rc_entry_valid f) (-1)) a0 m0.
Proof.
  intros []. destruct Hs. split; [|split].
  - constructor; auto; cbn [ir_start i_regs i_mem i_cw i_sw i_nzcv memory_sw Wd_nzcv_saved Z.leb Z.compare].
    + rewrite <- sd_cw0, <- sd_sw0. destruct x0. reflexivity.
    + destruct (nzcv_skip _); [exact I | reflexivity].
  - constructor; try exact I; try reflexivity; try apply NoDup_nil; try solve [intros ? []].
    intros j Hj _ _. unfold no_nodes, zget. cbn [node_fpr]. apply nth_repeat_lt. unfold kMaxNodes. lia.
  - constructor; auto.
Qed.

Lemma numbered_0 : numbered c = numbered_from 0 (nodes c).
Proof. reflexivity. Qed.

Lemma stack_entry a0 : frame_at a0 -> forall v, 0 <= v < num_nodes c -> body_runs = true ->
  op (node c v) = ReadSt -> dead (node c v) = false ->
  nth (Z.to_nat (initial_depth (node c v))) (stack s) None = Some (zget (vals E) v).
Proof.
  intros Ha v Hv Hr Eo Hd. unfold body_runs in Hr. apply andb_true_iff in Hr as [Hr _].
  pose proof (eval_read_st cfg segbase b (stack s) (top s) (nodes c) (ir_start s (nzcv m0)) (Z.to_nat v) (node c v) Hr) as He.
  cbn [vals ir_start length Nat.add] in He. rewrite Z2Nat.id in He by lia. apply He; try assumption.
  unfold node. apply nth_error_nth'. unfold num_nodes in Hv. lia.
Qed.

(** The machine the epilogue leaves stands for the run's result. *)
Lemma finished_stands J rg a m a' m' :
  Rel cfg segbase b (top s) Tm x0 m0 f pinned (nzcv_skip (f_cmps f)) (fun i => single_op (node c i)) E None J rg a m ->
  frame_ok (top s) f pinned -> slots_ok c P Q J = true -> filled c (stack s) P = true ->
  (0 <=? last_fcomi c) || no_fcomi (nodes c) = true ->
  (forall v, 0 <= v < num_nodes c -> op (node c v) = ReadSt -> dead (node c v) = false ->
     nth (Z.to_nat (initial_depth (node c v))) (stack s) None = Some (zget (vals E) v)) ->
  finished cfg b (top s) x0 m0 f pinned E a' m' ->
  stands b live ((top s + top_delta c) mod 8) 0 0 (ir_result c s E) m'.
Proof.
  intros HR Hf Hok Hfi Hfc Hrd [F1 F2 F3 F4 F5 F6 F7 F8 F9 F10]. pose proof (proj1 HR) as Hm. destruct Hs as [S1 S2 S3 S4 S5 S6 S7 S8 S9].
  assert (Hlen : length (X87State.st x0) = 8%nat) by reflexivity.
  assert (HT1 : 0 <= (top s + top_delta c) mod 8 < 8) by (apply Z.mod_pos_bound; lia).
  assert (Hfs : forall P' Q', controlWord (final_state c E x0 (top s) P' Q') = i_cw E /\
    statusWord (final_state c E x0 (top s) P' Q') = status_word (i_sw E) ((top s + top_delta c) mod 8)).
  { intros P' Q'. unfold final_state, retagged. destruct (0 <? set_empty c P' Q'), (0 <? set_valid c P'); split; reflexivity. }
  destruct (Hfs P Q) as [Ecw Esw].
  constructor; cbn [ir_result regs gmem Fpu.cw Fpu.sw top stack zf pf cf]; rewrite ?F5; auto.
  - apply Hm.
  - exact (result_holds c (stack s) E x0 (top s) P Q S8 S7 Hlen Hrd J Hok Hfi).
  - constructor; lia.
  - intros Hl. rewrite F6 by (apply negb_true_iff, Hl). destruct (Z.ltb_spec (last_fcomi c) 0) as [Hlt|Hge]; [|auto].
    assert (En : i_nzcv E = nzcv m0).
    { apply eval_nzcv. apply orb_true_iff in Hfc as [Hge | Hfc]; [apply Z.leb_le in Hge; lia | exact Hfc]. }
    rewrite En. apply S9, Hl.
Qed.

Lemma wp_emit_body a0 : frame_at a0 -> body_fits = true -> body_runs = true ->
  wp (emit_body cfg tgt f) (fun _ a' m' => body_done a' m') a0 m0.
Proof.
  intros Ha Hfit Hrun. pose proof (rel_entry a0 Ha) as H0. pose proof Hrun as Hrun'. unfold body_runs in Hrun'. apply andb_true_iff in Hrun' as [Hn Hfi].
  unfold body_fits in Hfit. destruct (track_nodes cfg f np (numbered c) track0) as [T|] eqn:Et; [|discriminate].
  rewrite !andb_true_iff, !Z.leb_le in Hfit. destruct Hfit as ((((( Hpd & Hsv) & Hok) & Hp6) & H128) & Hfc).
  assert (Eval : length (vals E) = length (nodes c)) by (unfold eval_context; rewrite eval_length; reflexivity).
  unfold emit_body. apply wp_bind. rewrite numbered_0 in Et |- *.
  eapply (wp_emit_nodes cfg tgt segbase b (top s) Tm x0 m0 f pinned (stack s) (fa_entry _ Ha) (nodes c) (ir_start s (nzcv m0)) None [] _ _ _ track0 T);
    [exact H0 | constructor; reflexivity | unfold num_nodes in H128; cbn [vals ir_start length]; lia | | exact Et | exact Hn |].
  { intros j n Hj. cbn [vals ir_start length Nat.add]. unfold node. rewrite Nat2Z.id. apply nth_error_nth, Hj. }
  intros P' J rg a m HR HT. change (eval segbase (stack s) (top s) (ir_start s (nzcv m0)) (nodes c)) with E in HR.
  destruct HT as [EJ EP ES]. apply negb_true_iff in Hpd, Hsv. rewrite Hsv in ES. apply Z.leb_gt in ES.
  assert (P' = None) by (rewrite <- EP in Hpd; destruct P'; [discriminate | reflexivity]). subst P' J.
  apply (wp_epilogue cfg segbase b (top s) Tm x0 m0 f pinned (stack s) (fa_entry _ Ha) (fa_top_ne _ Ha) E (tk_fprs T) rg a m HR ES);
    [unfold num_nodes; rewrite Eval; reflexivity | exact H128 | lia | exact Hok |].
  intros a' m' Hfin. constructor; try apply Hfin.
  eapply finished_stands; [exact HR | exact (en_frame _ _ _ _ _ _ _ (fa_entry _ Ha)) | exact Hok | exact Hfi | exact Hfc | | exact Hfin].
  intros v Hv. exact (stack_entry a0 Ha v Hv Hrun).
Qed.
End Body.

(** C3: the code of a lowered run - that of its nodes and of its epilogue -
    started on a machine that stands for an abstract x87 state (registers,
    memory, control and status word, stack, tags and flags, with the pushes'
    and pops' tags of the cache still deferred) ends, on every branch it
    emits, on one that stands for the state the run's nodes specify: TOP is
    moved and stored, the registers changed are written back, every deferred
    tag is set, every pool register but the frame's is free again, and no
    register outside the pools but the guest's has changed. The two checks say
    that the plan keeps within the register pools and that the accesses miss
    the x87 state. *)
Theorem lowered_body_refines cfg tgt segbase b Tm f pinned s a0 m0 :
  stands b (negb (nzcv_skip (f_cmps f))) Tm (entry_push_count f) (entry_pop_count f) s m0 ->
  frame_at cfg segbase b Tm f pinned s m0 a0 ->
  body_fits cfg f pinned = true -> body_runs cfg segbase b f s m0 = true ->
  wp (emit_body cfg tgt f) (fun _ a' m' =>
    stands b (negb (nzcv_skip (f_cmps f))) ((top s + top_delta (f_ctx f)) mod 8) 0 0
      (ir_result (f_ctx f) s (eval_context segbase (f_ctx f) s (nzcv m0))) m' /\
    (forall r, 16 <= r -> scratch r = false -> xr m' r = xr m0 r) /\
    (forall r, fscratch cfg r = false -> vr m' r = vr m0 r) /\
    gpool a' pinned /\ fpool cfg a' []) a0 m0.
Proof.
  intros Hs Ha Hf Hr. eapply wp_mono; [exact (wp_emit_body cfg tgt segbase b Tm f pinned s m0 Hs a0 Ha Hf Hr)|].
  intros _ a' m' []. auto.
Qed.

(** ** The optimized sample, with TOP in X23 and no address base *)

Definition sample_opt : Context := match optimize false false false sample_ctx with Some c => c | None => Context_init end.

Definition sample_cfg : RosettaConfig := mkConfig false false false false.

Definition sample_frame : Frame :=
  mkFrame sample_opt (compute_last_uses sample_opt) (compute_pairs sample_opt None) []
    (plan_compares sample_opt (mkPlan [] false)) 22 23 24 28 (-1) false false 0 0 (-1).

(** The sample's state, its x87 part at 0x8000. *)
Definition sample_memory : GuestMem.mem := fun x =>
  if (0x8000 <=? x) && (x <? 0x8048)
  then store 8 (store 8 (store 2 (store 2 (store 2 (fun _ => 0) 0x8000 0x37F) 0x8002 0x3000) 0x8004 0x0FFF)
         0x8038 f_one) 0x8040 0x4000000000000000 x
  else gmem sample_state x.

Definition sample_machine : machine :=
  mkMachine (fun r => if r =? 0 then 0x1000 else if r =? 22 then 0x8000 else if r =? 23 then 6 else if r =? 28 then 0x8008 else 0)
    (fun r => r) 0x20000000 sample_memory.

Definition sample_asm : asm := mkAsm [] (Z.lxor kGprScratchMask 0x11C00000) kFprScratchMask [] [].

(** Where a pool's mask and the list of registers in use agree. *)
Lemma mask_agrees mask (g : Z -> bool) :
  0 <= mask < 2 ^ 32 -> (forall r, 32 <= r -> g r = false) ->
  forallb (fun r => Bool.eqb (Z.testbit mask (Z.of_nat r)) (g (Z.of_nat r))) (seq 0 32) = true ->
  forall r, 0 <= r -> Z.testbit mask r = g r.
Proof.
  intros Hm Hg Hb r Hr. destruct (Z_lt_le_dec r 32).
  - rewrite forallb_forall in Hb. specialize (Hb (Z.to_nat r) ltac:(apply in_seq; lia)).
    rewrite Z2Nat.id in Hb by lia. apply Bool.eqb_prop, Hb.
  - rewrite Hg by lia. apply (GuestProps.high_bit _ 32); lia.
Qed.

Lemma sample_gpool : gpool sample_asm [22; 23; 24; 28].
Proof.
  split; [vm_compute; discriminate|]. apply mask_agrees; [vm_compute; intuition discriminate | | vm_compute; reflexivity].
  intros r Hr. unfold scratch. replace (r <? 30) with false by (symmetry; apply Z.ltb_ge; lia). rewrite andb_false_r. reflexivity.
Qed.

Lemma sample_fpool : fpool sample_cfg sample_asm [].
Proof.
  split; [vm_compute; discriminate|]. apply mask_agrees; [vm_compute; intuition discriminate | | vm_compute; reflexivity].
  intros r Hr. unfold fscratch. replace (r <? 32) with false by (symmetry; apply Z.ltb_ge; lia). rewrite andb_false_r. reflexivity.
Qed.

(** The eight depths one by one. *)
Ltac each_depth d := assert (d = 0 \/ d = 1 \/ d = 2 \/ d = 3 \/ d = 4 \/ d = 5 \/ d = 6 \/ d = 7) as [-> | [-> | [-> | [-> | [-> | [-> | [-> | ->]]]]]]] by lia.

Lemma sample_stands :
  stands 0x8000 (negb (nzcv_skip (f_cmps sample_frame))) 6 (entry_push_count sample_frame) (entry_pop_count sample_frame)
    sample_state sample_machine.
Proof.
  cbn [entry_push_count entry_pop_count sample_frame]. constructor.
  - intros r Hr. cbn [xr sample_machine regs sample_state].
    destruct (Z.eqb_spec r 0); [reflexivity|]. destruct (Z.eqb_spec r 22), (Z.eqb_spec r 23), (Z.eqb_spec r 28); lia.
  - intros x Hx. cbn [mm sample_machine]. unfold sample_memory.
    destruct (Z.leb_spec 0x8000 x), (Z.ltb_spec x 0x8048); cbn [andb]; try reflexivity. lia.
  - vm_compute. reflexivity.
  - vm_compute. reflexivity.
  - cbn. lia.
  - cbn. lia.
  - intros d Hd. each_depth d; vm_compute; auto.
  - constructor; cbn; lia.
  - intros _. vm_compute. auto.
Qed.

Lemma sample_frame_ok : frame_ok 6 sample_frame [22; 23; 24; 28].
Proof.
  constructor; cbn [top_known Xbase Wd_top Wd_tmp Xst_base Wd_rc_cached f_bases sample_frame]; try (cbn; lia).
  - intros r [<- | [<- | [<- | [<- | []]]]]; reflexivity.
  - repeat split; try lia. intros k [].
  - repeat split; try lia. intros k [].
Qed.

Lemma sample_frame_at : frame_at sample_cfg (fun _ => 0) 0x8000 6 sample_frame [22; 23; 24; 28] sample_state sample_machine sample_asm.
Proof.
  constructor; try exact sample_gpool; try exact sample_fpool.
  - constructor.
    + exact sample_frame_ok.
    + intros k [].
    + intros d x Hd. each_depth d; vm_compute; congruence.
    + lia.
    + intros _. reflexivity.
    + vm_compute. discriminate.
    + intros _. reflexivity.
    + vm_compute. discriminate.
  - cbn [Wd_top Xbase Xst_base sample_frame]. lia.
  - repeat constructor; cbn; lia.
  - unfold based, gpr. cbn. lia.
  - right. split; [unfold gpr; cbn; lia | reflexivity].
  - reflexivity.
  - intros k [].
  - discriminate.
  - reflexivity.
Qed.

Lemma lowered_body_refines_witness :
  wp (emit_body sample_cfg (mkTarget 0 0 0) sample_frame) (fun _ a' m' =>
    stands 0x8000 (negb (nzcv_skip (f_cmps sample_frame))) ((top sample_state + top_delta (f_ctx sample_frame)) mod 8) 0 0
      (ir_result (f_ctx sample_frame) sample_state (eval_context (fun _ => 0) (f_ctx sample_frame) sample_state (nzcv sample_machine))) m' /\
    (forall r, 16 <= r -> scratch r = false -> xr m' r = xr sample_machine r) /\
    (forall r, fscratch sample_cfg r = false -> vr m' r = vr sample_machine r) /\
    gpool a' [22; 23; 24; 28] /\ fpool sample_cfg a' []) sample_asm sample_machine.
Proof.
  apply (lowered_body_refines sample_cfg (mkTarget 0 0 0) (fun _ => 0) 0x8000 6 sample_frame [22; 23; 24; 28]
    sample_state sample_asm sample_machine sample_stands sample_frame_at); vm_compute; reflexivity.
Defined.
