(* ===== verification/TranslatorX87Internal.v ===== *)
(** TranslatorX87Internal.hpp: the preamble, the epilogue and the push, pop and
    flush wrappers the per-instruction translators share.  A wrapper takes the
    cache ([TranslationResult::x87_cache]) and answers the one it leaves; the
    deferred counts are int8_t.  [x87_begin] and [x87_get_st_base] are in
    [X87IRLower], which uses them too. *)

From S2P Require Import Prelude Emit Assembler TranslatorHelpers X87Helpers X87Cache X87IRLower.

Section Internal.
Context (cfg : RosettaConfig).

Definition resolve_depth (c : X87Cache) (logical_depth : Z) : Z :=
  if nz (perm_dirty c) then zget (perm c) logical_depth else logical_depth.

(** ** What is written back *)

(** [emit_x87_perm_flush] with the two registers it needs, and [reset_perm]. *)
Definition flush_perm (c : X87Cache) (Xbase Wd_top Wd_tmp : Z) : M X87Cache :=
  let Xst_base := x87_get_st_base c in
  Dd_save <- alloc_free_fpr ;;
  Dd_chain <- alloc_free_fpr ;;
  emit_x87_perm_flush Xbase Wd_top Wd_tmp (perm c) Xst_base Dd_save Dd_chain ;;;
  free_fpr cfg Dd_chain ;;;
  free_fpr cfg Dd_save ;;;
  ret (reset_perm c).

Definition perm_flush_before_stack_change (c : X87Cache) (Xbase Wd_top Wd_tmp : Z) : M X87Cache :=
  if nz (perm_dirty c) then flush_perm c Xbase Wd_top Wd_tmp else ret c.

Definition x87_flush_top (c : X87Cache) (Xbase Wd_top Wd_tmp : Z) : M X87Cache :=
  if nz (top_dirty c) then
    emit_store_top Xbase Wd_top Wd_tmp ;;;
    ret (with_deferred c 0 (deferred_push_count c) (deferred_pop_count c))
  else ret c.

Definition x87_flush_deferred_pops (c : X87Cache) (Xbase Wd_top Wd_tmp : Z) : M X87Cache :=
  if 0 <? deferred_pop_count c then
    Wd_tmp2 <- alloc_free_gpr ;;
    Wd_tagw <- alloc_free_gpr ;;
    emit_x87_tag_set_empty_batch Xbase Wd_top Wd_tmp Wd_tmp2 Wd_tagw (deferred_pop_count c) ;;;
    free_gpr Wd_tagw ;;;
    free_gpr Wd_tmp2 ;;;
    ret (with_deferred c (top_dirty c) (deferred_push_count c) 0)
  else ret c.

Definition x87_flush_deferred_pushes (c : X87Cache) (Xbase Wd_top Wd_tmp Wd_tmp2 : Z) : M X87Cache :=
  let count := deferred_push_count c in
  if count =? 1 then
    emit_x87_tag_clear Xbase Wd_top Wd_tmp Wd_tmp2 ;;;
    ret (with_deferred c (top_dirty c) 0 (deferred_pop_count c))
  else if 1 <? count then
    Wd_tagw <- alloc_free_gpr ;;
    emit_x87_tag_set_valid_batch Xbase Wd_top Wd_tmp Wd_tmp2 Wd_tagw count ;;;
    free_gpr Wd_tagw ;;;
    ret (with_deferred c (top_dirty c) 0 (deferred_pop_count c))
  else ret c.

Definition x87_flush_tags (c : X87Cache) (Xbase Wd_top Wd_tmp Wd_tmp2 : Z) : M X87Cache :=
  c <- x87_flush_deferred_pops c Xbase Wd_top Wd_tmp ;;
  x87_flush_deferred_pushes c Xbase Wd_top Wd_tmp Wd_tmp2.

(** ** The end of an instruction *)

Definition x87_end (c : X87Cache) (Xbase Wd_top Wd_tmp consumed : Z) : M X87Cache :=
  let last := run_remaining c <=? consumed in
  c <- (if nz (perm_dirty c) && last then flush_perm c Xbase Wd_top Wd_tmp else ret c) ;;
  c <- (if (0 <? deferred_pop_count c) && last then x87_flush_deferred_pops c Xbase Wd_top Wd_tmp else ret c) ;;
  c <- (if (0 <? deferred_push_count c) && last then
          Wd_tmp2 <- alloc_free_gpr ;;
          c <- x87_flush_deferred_pushes c Xbase Wd_top Wd_tmp Wd_tmp2 ;;
          free_gpr Wd_tmp2 ;;;
          ret c
        else ret c) ;;
  c <- (if nz (top_dirty c) && last then x87_flush_top c Xbase Wd_top Wd_tmp else ret c) ;;
  if 0 <? run_remaining c then ret c
  else free_gpr Wd_top ;;; free_gpr Xbase ;;; ret c.

(** [a1.free_gpr_mask |= 1u << reg] *)
Definition unpin (reg : Z) : M unit := fun s => Some (tt, set_gpr_mask s (set_bit (free_gpr_mask s) reg)).

Definition x87_cache_force_release (c : X87Cache) : M X87Cache :=
  let valid := nz (gprs_valid c) in
  let xbase := base_gpr c in
  let top := top_gpr c in
  c <- (if nz (perm_dirty c) && valid then
          tmp <- alloc_gpr 2 ;;
          c <- flush_perm c xbase top tmp ;;
          free_gpr tmp ;;;
          ret c
        else ret c) ;;
  c <- (if (0 <? deferred_pop_count c) && valid then
          tmp <- alloc_gpr 2 ;;
          c <- x87_flush_deferred_pops c xbase top tmp ;;
          free_gpr tmp ;;;
          ret c
        else ret c) ;;
  c <- (if (0 <? deferred_push_count c) && valid then
          tmp <- alloc_gpr 2 ;;
          tmp2 <- alloc_gpr 3 ;;
          c <- x87_flush_deferred_pushes c xbase top tmp tmp2 ;;
          free_gpr tmp2 ;;;
          free_gpr tmp ;;;
          ret c
        else ret c) ;;
  c <- (if nz (top_dirty c) && valid then
          tmp <- alloc_gpr 2 ;;
          c <- x87_flush_top c xbase top tmp ;;
          free_gpr tmp ;;;
          ret c
        else ret c) ;;
  (if valid then unpin (base_gpr c) ;;; unpin (top_gpr c) ;;; unpin (st_base_gpr c) else ret tt) ;;;
  ret (invalidate c).

(** ** Push and pop *)

Definition x87_push (c : X87Cache) (Xbase Wd_top Wd_tmp Wd_tmp2 : Z) : M X87Cache :=
  if 0 <? run_remaining c then
    c <- x87_flush_deferred_pops c Xbase Wd_top Wd_tmp ;;
    c <- (if 8 <=? deferred_push_count c then x87_flush_deferred_pushes c Xbase Wd_top Wd_tmp Wd_tmp2 else ret c) ;;
    c <- (if (deferred_push_count c =? 0) && nz (top_dirty c) then x87_flush_top c Xbase Wd_top Wd_tmp else ret c) ;;
    c <- perm_flush_before_stack_change c Xbase Wd_top Wd_tmp ;;
    emit_x87_push_fully_deferred Wd_top ;;;
    ret (with_deferred c 1 (s8 (deferred_push_count c + 1)) (deferred_pop_count c))
  else
    emit_x87_push Xbase Wd_top Wd_tmp Wd_tmp2 ;;;
    ret c.

Definition x87_pop (c : X87Cache) (Xbase Wd_top Wd_tmp : Z) : M X87Cache :=
  if 0 <? run_remaining c then
    c <- perm_flush_before_stack_change c Xbase Wd_top Wd_tmp ;;
    emit_x87_pop_top_only Wd_top ;;;
    if 0 <? deferred_push_count c then
      let n := s8 (deferred_push_count c - 1) in
      if nz (top_dirty c) then
        ret (with_deferred c (if n =? 0 then 0 else top_dirty c) n (deferred_pop_count c))
      else
        emit_store_top Xbase Wd_top Wd_tmp ;;;
        ret (with_deferred c (top_dirty c) n (deferred_pop_count c))
    else ret (with_deferred c 1 (deferred_push_count c) (s8 (deferred_pop_count c + 1)))
  else
    Wd_tmp2 <- alloc_free_gpr ;;
    emit_x87_pop Xbase Wd_top Wd_tmp Wd_tmp2 ;;;
    free_gpr Wd_tmp2 ;;;
    ret (with_deferred c 0 (deferred_push_count c) (deferred_pop_count c)).

Definition x87_pop_n (c : X87Cache) (Xbase Wd_top Wd_tmp n : Z) : M X87Cache :=
  c <- x87_flush_deferred_pops c Xbase Wd_top Wd_tmp ;;
  Wd_tmp2 <- alloc_free_gpr ;;
  c <- x87_flush_tags c Xbase Wd_top Wd_tmp Wd_tmp2 ;;
  c <- (if 0 <? run_remaining c then
          c <- perm_flush_before_stack_change c Xbase Wd_top Wd_tmp ;;
          emit_x87_pop_n_deferred Xbase Wd_top Wd_tmp Wd_tmp2 n ;;;
          ret (with_deferred c 1 (deferred_push_count c) (deferred_pop_count c))
        else
          emit_x87_pop_n Xbase Wd_top Wd_tmp Wd_tmp2 n ;;;
          ret (with_deferred c 0 (deferred_push_count c) (deferred_pop_count c))) ;;
  free_gpr Wd_tmp2 ;;;
  ret c.
End Internal.
