(* ===== verification/TranslatorX87.v ===== *)
(** TranslatorX87.cpp: the single-instruction translators.  Each takes the
    cache and answers the one it leaves.  Handlers that differ in the one
    arithmetic instruction they emit share their frame here: [translate_fiadd]
    to [translate_fisubr] are [translate_int_arith], the four basic operations
    are [emit_st_st] and [emit_st_mem]. *)

From S2P Require Import Prelude OpcodeCompatibility Emit Assembler IROperand TranslatorHelpers X87Helpers.
From S2P Require Import X87Cache X87IRLower TranslatorX87Internal.

Definition kRuntimeRoutine_fld_fp80 : Z := 0x3F.

Section Translators.
Context (cfg : RosettaConfig) (tgt : Target) (disable_deferred_fxch : bool).

#[local] Abbreviation x87_begin := (x87_begin tgt).
#[local] Abbreviation x87_end := (x87_end cfg).
#[local] Abbreviation x87_push := (x87_push cfg).
#[local] Abbreviation x87_pop := (x87_pop cfg).
#[local] Abbreviation free_fpr := (free_fpr cfg).
#[local] Abbreviation fp_access := (emit_fp_mem_access cfg tgt).
#[local] Abbreviation gpr_mem_access := (emit_gpr_mem_access cfg tgt).

(** [operands[n].reg.reg.index()] *)
Definition st_index (i : IRInstr) (n : nat) : Z := index (reg (operand i n)).
Definition is_register (i : IRInstr) (n : nat) : bool := kind (operand i n) =? IROperandKind.Register.
Definition is_size (i : IRInstr) (n : nat) (size : Z) : bool := op_size (operand i n) =? size.

(** ** Constants *)

(** The value is put into [Dd_val] by [load]. *)
Definition push_value (c : X87Cache) (load : Z -> M unit) : M X87Cache :=
  '(Xbase, Wd_top, c) <- x87_begin c ;;
  let Xst_base := x87_get_st_base c in
  Wd_tmp <- alloc_gpr 2 ;;
  Wd_tmp2 <- alloc_gpr 3 ;;
  Dd_val <- alloc_free_fpr ;;
  c <- x87_push c Xbase Wd_top Wd_tmp Wd_tmp2 ;;
  load Dd_val ;;;
  emit_store_st Xbase Wd_top (resolve_depth c 0) Wd_tmp Dd_val Xst_base ;;;
  free_fpr Dd_val ;;;
  free_gpr Wd_tmp2 ;;;
  c <- x87_end c Xbase Wd_top Wd_tmp 1 ;;
  free_gpr Wd_tmp ;;;
  ret c.

Definition translate_fldz (c : X87Cache) : M X87Cache := push_value c emit_movi_d_zero.
Definition translate_fld1 (c : X87Cache) : M X87Cache := push_value c emit_fmov_d_one.

Definition translate_fld_const (c : X87Cache) (bits : Z) : M X87Cache :=
  '(Xbase, Wd_top, c) <- x87_begin c ;;
  let Xst_base := x87_get_st_base c in
  Wd_tmp <- alloc_gpr 2 ;;
  Wd_tmp2 <- alloc_gpr 3 ;;
  Dd_val <- alloc_free_fpr ;;
  c <- x87_push c Xbase Wd_top Wd_tmp Wd_tmp2 ;;
  free_gpr Wd_tmp2 ;;;
  emit_ldr_literal_f64 Dd_val bits ;;;
  emit_store_st Xbase Wd_top (resolve_depth c 0) Wd_tmp Dd_val Xst_base ;;;
  free_fpr Dd_val ;;;
  c <- x87_end c Xbase Wd_top Wd_tmp 1 ;;
  free_gpr Wd_tmp ;;;
  ret c.

Definition translate_fldl2e (c : X87Cache) : M X87Cache := translate_fld_const c 0x3FF71547652B82FE.
Definition translate_fldl2t (c : X87Cache) : M X87Cache := translate_fld_const c 0x400A934F0979A371.
Definition translate_fldlg2 (c : X87Cache) : M X87Cache := translate_fld_const c 0x3FD34413509F79FF.
Definition translate_fldln2 (c : X87Cache) : M X87Cache := translate_fld_const c 0x3FE62E42FEFA39EF.
Definition translate_fldpi (c : X87Cache) : M X87Cache := translate_fld_const c 0x400921FB54442D18.

(** ** Loads *)

(** FLD m80fp, by the runtime routine. *)
Definition translate_fld_m80 (c : X87Cache) (i : IRInstr) : M X87Cache :=
  c <- x87_cache_force_release cfg c ;;
  W_lo <- alloc_gpr 0 ;;
  W_hi <- alloc_gpr 1 ;;
  acc <- compute_operand_access cfg tgt 1 (operand i 0) 3 8 1 ;;
  match enc acc with
  | Unscaled9 =>
      emit_ldur_stur 3 1 (s16 (offset acc)) (base acc) W_lo ;;;
      emit_ldur_stur 1 1 (s16 (offset acc + 8)) (base acc) W_hi
  | _ =>
      emit_ldr_imm 3 W_lo (base acc) (s16 (Z.shiftr (offset acc) 3)) ;;;
      emit_ldr_imm 1 W_hi (base acc) (s16 (Z.shiftr (offset acc + 8) 1))
  end ;;;
  free_gpr (base acc) ;;;
  push_fixup Branch26 kRuntimeRoutine_fld_fp80 ;;;
  emit 0x94000000 ;;;
  free_gpr W_hi ;;;
  free_gpr W_lo ;;;
  ret c.

Definition translate_fld (c : X87Cache) (i : IRInstr) : M X87Cache :=
  if negb (is_register i 0) && is_size i 0 IROperandSize.S80 then translate_fld_m80 c i
  else
    '(Xbase, Wd_top, c) <- x87_begin c ;;
    let Xst_base := x87_get_st_base c in
    Wd_tmp <- alloc_gpr 2 ;;
    Wd_tmp2 <- alloc_gpr 3 ;;
    Dd_val <- alloc_free_fpr ;;
    let addr_is_64 := b2z (addr_size (operand i 0) =? IROperandSize.S64) in
    c <- (if is_register i 0 then
            _ <- emit_load_st Xbase Wd_top (resolve_depth c (st_index i 1)) Wd_tmp Dd_val Xst_base ;;
            c <- x87_push c Xbase Wd_top Wd_tmp Wd_tmp2 ;;
            free_gpr Wd_tmp2 ;;;
            ret c
          else if is_size i 0 IROperandSize.S32 then
            c <- x87_push c Xbase Wd_top Wd_tmp Wd_tmp2 ;;
            free_gpr Wd_tmp2 ;;;
            fp_access addr_is_64 (operand i 0) 2 1 Dd_val ;;;
            emit_fcvt_s_to_d Dd_val Dd_val ;;;
            ret c
          else
            c <- x87_push c Xbase Wd_top Wd_tmp Wd_tmp2 ;;
            free_gpr Wd_tmp2 ;;;
            fp_access addr_is_64 (operand i 0) 3 1 Dd_val ;;;
            ret c) ;;
    emit_store_st Xbase Wd_top (resolve_depth c 0) Wd_tmp Dd_val Xst_base ;;;
    free_fpr Dd_val ;;;
    c <- x87_end c Xbase Wd_top Wd_tmp 1 ;;
    free_gpr Wd_tmp ;;;
    ret c.

Definition translate_fild (c : X87Cache) (i : IRInstr) : M X87Cache :=
  '(Xbase, Wd_top, c) <- x87_begin c ;;
  let Xst_base := x87_get_st_base c in
  let m64 := is_size i 0 IROperandSize.S64 in
  Wd_tmp <- alloc_gpr 2 ;;
  Wd_tmp2 <- alloc_gpr 3 ;;
  Wd_int <- (if m64 then ret (-1) else alloc_free_gpr) ;;
  Dd_val <- alloc_free_fpr ;;
  (if is_size i 0 IROperandSize.S16 then
     gpr_mem_access 1 (operand i 0) 1 1 Wd_int ;;;
     emit_bitfield 0 0 0 0 15 Wd_int Wd_int
   else if is_size i 0 IROperandSize.S32 then gpr_mem_access 1 (operand i 0) 2 1 Wd_int
   else fp_access 1 (operand i 0) 3 1 Dd_val) ;;;
  c <- x87_push c Xbase Wd_top Wd_tmp Wd_tmp2 ;;
  free_gpr Wd_tmp2 ;;;
  (if m64 then emit_scvtf_d_from_d Dd_val Dd_val else emit_scvtf 0 1 Dd_val Wd_int) ;;;
  emit_store_st Xbase Wd_top (resolve_depth c 0) Wd_tmp Dd_val Xst_base ;;;
  free_fpr Dd_val ;;;
  (if 0 <=? Wd_int then free_gpr Wd_int else ret tt) ;;;
  c <- x87_end c Xbase Wd_top Wd_tmp 1 ;;
  free_gpr Wd_tmp ;;;
  ret c.

(** ** Arithmetic *)

Section Operands.
Context (c : X87Cache) (Xbase Wd_top Wd_tmp Xst_base : Z).

(** ST(dst), with [arith] applied to it and ST(src). *)
Definition emit_st_st (Dd_dst Dd_src depth_dst depth_src : Z) (arith : M unit) : M unit :=
  _ <- emit_load_st Xbase Wd_top (resolve_depth c depth_src) Wd_tmp Dd_src Xst_base ;;
  Wk <- emit_load_st Xbase Wd_top (resolve_depth c depth_dst) Wd_tmp Dd_dst Xst_base ;;
  arith ;;;
  emit_store_st_at_offset Xbase Wk Dd_dst Xst_base.

(** ST(0), with [arith] applied to it and a float in memory. *)
Definition emit_st_mem (Dd_dst Dd_src : Z) (o : IROperand) (arith : M unit) : M unit :=
  let is_f32 := op_size o =? IROperandSize.S32 in
  Wk <- emit_load_st Xbase Wd_top (resolve_depth c 0) Wd_tmp Dd_dst Xst_base ;;
  fp_access 1 o (if is_f32 then 2 else 3) 1 Dd_src ;;;
  (if is_f32 then emit_fcvt_s_to_d Dd_src Dd_src else ret tt) ;;;
  arith ;;;
  emit_store_st_at_offset Xbase Wk Dd_dst Xst_base.
End Operands.

(** The frame of the handlers on two values: [body] gets the preamble's
    registers, the temporary and the two SIMD registers. *)
Definition with_two (c : X87Cache) (body : X87Cache -> Z -> Z -> Z -> Z -> Z -> Z -> M X87Cache) : M X87Cache :=
  '(Xbase, Wd_top, c) <- x87_begin c ;;
  let Xst_base := x87_get_st_base c in
  Wd_tmp <- alloc_gpr 2 ;;
  Dd_dst <- alloc_free_fpr ;;
  Dd_src <- alloc_free_fpr ;;
  c <- body c Xbase Wd_top Wd_tmp Xst_base Dd_dst Dd_src ;;
  free_fpr Dd_src ;;;
  free_fpr Dd_dst ;;;
  c <- x87_end c Xbase Wd_top Wd_tmp 1 ;;
  free_gpr Wd_tmp ;;;
  ret c.

(** Both forms of a non-popping operation; [arith Dd_dst Dd_src] leaves its
    result in [Dd_dst]. *)
Definition translate_arith (c : X87Cache) (i : IRInstr) (arith : Z -> Z -> M unit) : M X87Cache :=
  with_two c (fun c Xbase Wd_top Wd_tmp Xst_base Dd_dst Dd_src =>
    (if is_register i 0 then
       emit_st_st c Xbase Wd_top Wd_tmp Xst_base Dd_dst Dd_src (st_index i 0) (st_index i 1) (arith Dd_dst Dd_src)
     else emit_st_mem c Xbase Wd_top Wd_tmp Xst_base Dd_dst Dd_src (operand i 0) (arith Dd_dst Dd_src)) ;;;
    ret c).

(** ST(i) with ST(0), popped. *)
Definition translate_arithp (c : X87Cache) (i : IRInstr) (arith : Z -> Z -> M unit) : M X87Cache :=
  with_two c (fun c Xbase Wd_top Wd_tmp Xst_base Dd_dst Dd_src =>
    emit_st_st c Xbase Wd_top Wd_tmp Xst_base Dd_dst Dd_src (st_index i 0) 0 (arith Dd_dst Dd_src) ;;;
    x87_pop c Xbase Wd_top Wd_tmp).

Definition sub_or_rev (rev : bool) (Dd_dst Dd_src : Z) : M unit :=
  if rev then emit_fsub_f64 Dd_dst Dd_src Dd_dst else emit_fsub_f64 Dd_dst Dd_dst Dd_src.
Definition div_or_rev (rev : bool) (Dd_dst Dd_src : Z) : M unit :=
  if rev then emit_fdiv_f64 Dd_dst Dd_src Dd_dst else emit_fdiv_f64 Dd_dst Dd_dst Dd_src.

Definition translate_fadd (c : X87Cache) (i : IRInstr) : M X87Cache :=
  translate_arith c i (fun dst src => emit_fadd_f64 dst dst src).
Definition translate_faddp (c : X87Cache) (i : IRInstr) : M X87Cache :=
  translate_arithp c i (fun dst src => emit_fadd_f64 dst dst src).
Definition translate_fsub (c : X87Cache) (i : IRInstr) : M X87Cache :=
  translate_arith c i (sub_or_rev (opcode i =? kOpcodeName.fsubr)).
Definition translate_fsubp (c : X87Cache) (i : IRInstr) : M X87Cache :=
  translate_arithp c i (sub_or_rev (opcode i =? kOpcodeName.fsubrp)).
Definition translate_fdiv (c : X87Cache) (i : IRInstr) : M X87Cache :=
  translate_arith c i (div_or_rev (opcode i =? kOpcodeName.fdivr)).
Definition translate_fdivp (c : X87Cache) (i : IRInstr) : M X87Cache :=
  translate_arithp c i (div_or_rev (opcode i =? kOpcodeName.fdivrp)).
Definition translate_fmul (c : X87Cache) (i : IRInstr) : M X87Cache :=
  let mul dst src := emit_fmul_f64 dst dst src in
  if opcode i =? kOpcodeName.fmulp then translate_arithp c i mul else translate_arith c i mul.

(** ST(0) and a signed integer in memory; [arith Dd_st0 Dd_int]. *)
Definition translate_int_arith (c : X87Cache) (i : IRInstr) (arith : Z -> Z -> M unit) : M X87Cache :=
  with_two c (fun c Xbase Wd_top Wd_tmp Xst_base Dd_st0 Dd_int =>
    Wk <- emit_load_st Xbase Wd_top (resolve_depth c 0) Wd_tmp Dd_st0 Xst_base ;;
    Wd_val <- emit_load_int_operand cfg tgt (operand i 0) (is_size i 0 IROperandSize.S16) ;;
    emit_scvtf 0 1 Dd_int Wd_val ;;;
    free_gpr Wd_val ;;;
    arith Dd_st0 Dd_int ;;;
    emit_store_st_at_offset Xbase Wk Dd_st0 Xst_base ;;;
    ret c).

Definition translate_fiadd (c : X87Cache) (i : IRInstr) : M X87Cache :=
  translate_int_arith c i (fun st0 n => emit_fadd_f64 st0 st0 n).
Definition translate_fidiv (c : X87Cache) (i : IRInstr) : M X87Cache :=
  translate_int_arith c i (fun st0 n => emit_fdiv_f64 st0 st0 n).
Definition translate_fimul (c : X87Cache) (i : IRInstr) : M X87Cache :=
  translate_int_arith c i (fun st0 n => emit_fmul_f64 st0 st0 n).
Definition translate_fisub (c : X87Cache) (i : IRInstr) : M X87Cache :=
  translate_int_arith c i (fun st0 n => emit_fsub_f64 st0 st0 n).
Definition translate_fidivr (c : X87Cache) (i : IRInstr) : M X87Cache :=
  translate_int_arith c i (fun st0 n => emit_fdiv_f64 st0 n st0).
Definition translate_fisubr (c : X87Cache) (i : IRInstr) : M X87Cache :=
  translate_int_arith c i (fun st0 n => emit_fsub_f64 st0 n st0).

(** FCHS, FABS, FSQRT *)
Definition translate_unary (c : X87Cache) (f : Z -> M unit) : M X87Cache :=
  '(Xbase, Wd_top, c) <- x87_begin c ;;
  let Xst_base := x87_get_st_base c in
  Wd_tmp <- alloc_gpr 2 ;;
  Dd <- alloc_free_fpr ;;
  Wk <- emit_load_st Xbase Wd_top (resolve_depth c 0) Wd_tmp Dd Xst_base ;;
  f Dd ;;;
  emit_store_st_at_offset Xbase Wk Dd Xst_base ;;;
  free_fpr Dd ;;;
  c <- x87_end c Xbase Wd_top Wd_tmp 1 ;;
  free_gpr Wd_tmp ;;;
  ret c.

Definition translate_fchs (c : X87Cache) : M X87Cache := translate_unary c (fun Dd => emit_fneg_f64 Dd Dd).
Definition translate_fabs (c : X87Cache) : M X87Cache := translate_unary c (fun Dd => emit_fabs_f64 Dd Dd).
Definition translate_fsqrt (c : X87Cache) : M X87Cache := translate_unary c (fun Dd => emit_fsqrt_f64 Dd Dd).

(** ** Stores *)

Definition logical_imm (is_64bit : bool) (value : Z) : LogicalImmEncoding :=
  match is_bitmask_immediate is_64bit value with Bitmask e => e | _ => mkEnc false 0 0 end.

(** FSTP m80fp: the double is converted inline. *)
Definition translate_fst_m80 (c : X87Cache) (i : IRInstr) (is_fstp : bool) : M X87Cache :=
  '(Xbase, Wd_top, c) <- x87_begin c ;;
  let Xst_base := x87_get_st_base c in
  Wd_tmp <- alloc_gpr 2 ;;
  Dd_src <- alloc_free_fpr ;;
  _ <- emit_load_st Xbase Wd_top (resolve_depth c 0) Wd_tmp Dd_src Xst_base ;;
  acc <- compute_operand_access cfg tgt 1 (operand i 0) 3 8 1 ;;
  let str_mant Rt :=
    match enc acc with
    | Unscaled9 => emit_ldur_stur 3 0 (s16 (offset acc)) (base acc) Rt
    | _ => emit_str_imm 3 Rt (base acc) (s16 (Z.shiftr (offset acc) 3))
    end in
  let str_exp Rt :=
    match enc acc with
    | Unscaled9 => emit_ldur_stur 1 0 (s16 (offset acc + 8)) (base acc) Rt
    | _ => emit_str_imm 1 Rt (base acc) (s16 (Z.shiftr (offset acc + 8) 1))
    end in
  Xbits <- alloc_free_gpr ;;
  Wexp <- alloc_free_gpr ;;
  emit_fmov_d_to_x Xbits Dd_src ;;;
  free_fpr Dd_src ;;;
  emit_bitfield 1 2 1 52 62 Xbits Wexp ;;;
  emit_bitfield 1 2 1 48 63 Xbits Wd_tmp ;;;
  let enc_sign := logical_imm false 0x8000 in
  emit_and_imm 0 Wd_tmp (b2z (N enc_sign)) (immr enc_sign) (imms enc_sign) Wd_tmp ;;;
  emit_bitfield 1 2 1 53 52 Xbits Xbits ;;;
  emit_cbz 0 0 Wexp 10 ;;;
  emit_add_imm 0 1 1 0 0x7FF Wexp 31 ;;;
  emit_b_cond 0 11 ;;;
  let enc_intbit := logical_imm true 0x8000000000000000 in
  emit_orr_imm 1 Xbits Xbits (b2z (N enc_intbit)) (immr enc_intbit) (imms enc_intbit) ;;;
  emit_add_imm 0 0 0 1 3 Wexp Wexp ;;;
  emit_add_imm 0 0 0 0 0xC00 Wexp Wexp ;;;
  emit_logical_shifted_reg 0 1 0 0 Wd_tmp 0 Wexp Wexp ;;;
  str_mant Xbits ;;;
  str_exp Wexp ;;;
  emit_b 8 ;;;
  str_mant 31 ;;;
  str_exp Wd_tmp ;;;
  emit_b 5 ;;;
  emit_orr_imm 1 Xbits Xbits (b2z (N enc_intbit)) (immr enc_intbit) (imms enc_intbit) ;;;
  str_mant Xbits ;;;
  let enc_7fff := logical_imm false 0x7FFF in
  emit_orr_imm 0 Wexp Wd_tmp (b2z (N enc_7fff)) (immr enc_7fff) (imms enc_7fff) ;;;
  str_exp Wexp ;;;
  free_gpr (base acc) ;;;
  free_gpr Wexp ;;;
  free_gpr Xbits ;;;
  c <- (if is_fstp then x87_pop c Xbase Wd_top Wd_tmp else ret c) ;;
  c <- x87_end c Xbase Wd_top Wd_tmp 1 ;;
  free_gpr Wd_tmp ;;;
  ret c.

Definition translate_fst (c : X87Cache) (i : IRInstr) : M X87Cache :=
  let is_fstp := (opcode i =? kOpcodeName.fstp) || (opcode i =? kOpcodeName.fstp_stack) in
  if negb (is_register i 0) && is_size i 0 IROperandSize.S80 then translate_fst_m80 c i is_fstp
  else
    '(Xbase, Wd_top, c) <- x87_begin c ;;
    let Xst_base := x87_get_st_base c in
    Wd_tmp <- alloc_gpr 2 ;;
    Dd_src <- alloc_free_fpr ;;
    (if is_register i 0 then
       let depth_dst := st_index i 0 in
       if negb (depth_dst =? 0) then
         _ <- emit_load_st Xbase Wd_top (resolve_depth c 0) Wd_tmp Dd_src Xst_base ;;
         emit_store_st Xbase Wd_top (resolve_depth c depth_dst) Wd_tmp Dd_src Xst_base
       else ret tt
     else
       let is_f32 := is_size i 0 IROperandSize.S32 in
       _ <- emit_load_st Xbase Wd_top (resolve_depth c 0) Wd_tmp Dd_src Xst_base ;;
       (if is_f32 then emit_fcvt_d_to_s Dd_src Dd_src else ret tt) ;;;
       fp_access 1 (operand i 0) (if is_f32 then 2 else 3) 0 Dd_src) ;;;
    c <- (if is_fstp then x87_pop c Xbase Wd_top Wd_tmp else ret c) ;;
    free_fpr Dd_src ;;;
    c <- x87_end c Xbase Wd_top Wd_tmp 1 ;;
    free_gpr Wd_tmp ;;;
    ret c.

(** The integer stores: [convert Xbase Wd_rc Wd_int Dd_val is_64bit_int]
    emits the conversion, [pop] says whether the stack is popped. *)
Definition translate_int_store (c : X87Cache) (i : IRInstr) (pop : bool)
    (convert : Z -> Z -> Z -> Z -> Z -> M unit) : M X87Cache :=
  '(Xbase, Wd_top, c) <- x87_begin c ;;
  let Xst_base := x87_get_st_base c in
  Wd_tmp <- alloc_gpr 2 ;;
  Wd_int <- alloc_free_gpr ;;
  Dd_val <- alloc_free_fpr ;;
  _ <- emit_load_st Xbase Wd_top (resolve_depth c 0) Wd_tmp Dd_val Xst_base ;;
  convert Xbase Wd_tmp Wd_int Dd_val (b2z (is_size i 0 IROperandSize.S64)) ;;;
  gpr_mem_access 1 (operand i 0)
    (if is_size i 0 IROperandSize.S16 then 1 else if is_size i 0 IROperandSize.S32 then 2 else 3) 0 Wd_int ;;;
  c <- (if pop then x87_pop c Xbase Wd_top Wd_tmp else ret c) ;;
  free_fpr Dd_val ;;;
  free_gpr Wd_int ;;;
  c <- x87_end c Xbase Wd_top Wd_tmp 1 ;;
  free_gpr Wd_tmp ;;;
  ret c.

(** The conversion by the control word's rounding mode. *)
Definition convert_by_rc (Xbase Wd_rc Wd_int Dd_val is_64bit_int : Z) : M unit :=
  if fast_round cfg then emit_fcvt_fp_to_int is_64bit_int 1 0 Wd_int Dd_val
  else
    emit_ldr_str_imm 1 0 1 0 Xbase Wd_rc ;;;
    emit_bitfield 0 2 0 10 11 Wd_rc Wd_rc ;;;
    emit_x87_rc_dispatch_fcvt Wd_rc Wd_int Dd_val is_64bit_int.

Definition translate_fistp (c : X87Cache) (i : IRInstr) : M X87Cache := translate_int_store c i true convert_by_rc.
Definition translate_fist (c : X87Cache) (i : IRInstr) : M X87Cache := translate_int_store c i false convert_by_rc.
Definition translate_fisttp (c : X87Cache) (i : IRInstr) : M X87Cache :=
  translate_int_store c i true (fun _ _ Wd_int Dd_val sf => emit_fcvt_fp_to_int sf 1 3 Wd_int Dd_val).

Definition translate_fstsw (c : X87Cache) (i : IRInstr) : M X87Cache :=
  let base_cached := (0 <? run_remaining c) && nz (gprs_valid c) in
  Xbase <- (if base_cached then ret (base_gpr c)
            else Xbase <- alloc_gpr 0 ;; emit_x87_base tgt Xbase ;;; ret Xbase) ;;
  Wd_sw <- (if base_cached then alloc_free_gpr else alloc_gpr 1) ;;
  c <- (if nz (top_dirty c) && base_cached then x87_flush_top c Xbase (top_gpr c) Wd_sw else ret c) ;;
  c <- (if (0 <? deferred_push_count c) && base_cached then
          Wd_tag_tmp <- alloc_free_gpr ;;
          c <- x87_flush_deferred_pushes c Xbase (top_gpr c) Wd_sw Wd_tag_tmp ;;
          free_gpr Wd_tag_tmp ;;;
          ret c
        else ret c) ;;
  emit_ldr_str_imm 1 0 1 kX87StatusWordImm12 Xbase Wd_sw ;;;
  (if is_register i 0 then emit_bitfield 0 1 0 0 15 Wd_sw (st_index i 0)
   else gpr_mem_access 1 (operand i 0) 1 0 Wd_sw) ;;;
  free_gpr Wd_sw ;;;
  (if negb base_cached then free_gpr Xbase else ret tt) ;;;
  ret c.

(** ** Comparisons *)

(** The comparison of [Dd_st0] with [cmp]'s operand into the condition bits of
    the status word, NZCV being saved in [Wd_tmp2]; the SIMD registers are
    given back as soon as they are compared. *)
Definition compare_to_sw (Xbase Wd_tmp Wd_tmp2 : Z) (cmp : M unit) (free_fprs : M unit) : M unit :=
  emit_mrs_nzcv Wd_tmp2 ;;;
  cmp ;;;
  free_fprs ;;;
  emit_fcom_cc_pack Wd_tmp Wd_tmp2 ;;;
  emit_fcom_cc_write_sw Xbase Wd_tmp.

Definition among (op : Z) (l : list Z) : bool := existsb (Z.eqb op) l.

Definition translate_fcom (c : X87Cache) (i : IRInstr) : M X87Cache :=
  '(Xbase, Wd_top, c) <- x87_begin c ;;
  let Xst_base := x87_get_st_base c in
  let is_fcompp := among (opcode i) [kOpcodeName.fcompp; kOpcodeName.fucompp] in
  let is_popping := among (opcode i) [kOpcodeName.fcomp; kOpcodeName.fcompp; kOpcodeName.fucomp; kOpcodeName.fucompp] in
  Wd_tmp <- alloc_gpr 2 ;;
  Wd_tmp2 <- alloc_gpr 3 ;;
  Dd_st0 <- alloc_free_fpr ;;
  Dd_src <- alloc_free_fpr ;;
  _ <- emit_load_st Xbase Wd_top (resolve_depth c 0) Wd_tmp Dd_st0 Xst_base ;;
  (if is_fcompp then
     _ <- emit_load_st Xbase Wd_top (resolve_depth c 1) Wd_tmp Dd_src Xst_base ;; ret tt
   else if is_register i 1 then
     _ <- emit_load_st Xbase Wd_top (resolve_depth c (st_index i 1)) Wd_tmp Dd_src Xst_base ;; ret tt
   else
     let is_f32 := is_size i 1 IROperandSize.S32 in
     fp_access 1 (operand i 1) (if is_f32 then 2 else 3) 1 Dd_src ;;;
     (if is_f32 then emit_fcvt_s_to_d Dd_src Dd_src else ret tt)) ;;;
  compare_to_sw Xbase Wd_tmp Wd_tmp2 (emit_fcmp_f64 Dd_st0 Dd_src) (free_fpr Dd_src ;;; free_fpr Dd_st0) ;;;
  c <- (if is_popping then
          if is_fcompp then x87_pop_n cfg c Xbase Wd_top Wd_tmp 2 else x87_pop c Xbase Wd_top Wd_tmp
        else ret c) ;;
  c <- x87_end c Xbase Wd_top Wd_tmp 1 ;;
  free_gpr Wd_tmp ;;;
  ret c.

Definition translate_ftst (c : X87Cache) : M X87Cache :=
  '(Xbase, Wd_top, c) <- x87_begin c ;;
  let Xst_base := x87_get_st_base c in
  Wd_tmp <- alloc_gpr 2 ;;
  Wd_tmp2 <- alloc_gpr 3 ;;
  c <- x87_flush_tags c Xbase Wd_top Wd_tmp Wd_tmp2 ;;
  c <- x87_flush_top c Xbase Wd_top Wd_tmp ;;
  Dd_st0 <- alloc_free_fpr ;;
  _ <- emit_load_st Xbase Wd_top (resolve_depth c 0) Wd_tmp Dd_st0 Xst_base ;;
  compare_to_sw Xbase Wd_tmp Wd_tmp2 (emit_fcmp_zero_f64 Dd_st0) (free_fpr Dd_st0) ;;;
  c <- x87_end c Xbase Wd_top Wd_tmp 1 ;;
  free_gpr Wd_tmp ;;;
  ret c.

Definition translate_ficom (c : X87Cache) (i : IRInstr) : M X87Cache :=
  '(Xbase, Wd_top, c) <- x87_begin c ;;
  let Xst_base := x87_get_st_base c in
  let is_popping := opcode i =? kOpcodeName.ficomp in
  let is_m16 := is_size i 0 IROperandSize.S16 in
  Wd_tmp <- alloc_gpr 2 ;;
  Wd_tmp2 <- alloc_gpr 3 ;;
  Dd_st0 <- alloc_free_fpr ;;
  Dd_int <- alloc_free_fpr ;;
  _ <- emit_load_st Xbase Wd_top (resolve_depth c 0) Wd_tmp Dd_st0 Xst_base ;;
  Wd_val <- emit_load_int_operand cfg tgt (operand i 0) is_m16 ;;
  emit_scvtf 0 1 Dd_int Wd_val ;;;
  free_gpr Wd_val ;;;
  compare_to_sw Xbase Wd_tmp Wd_tmp2 (emit_fcmp_f64 Dd_st0 Dd_int) (free_fpr Dd_int ;;; free_fpr Dd_st0) ;;;
  c <- (if is_popping then x87_pop c Xbase Wd_top Wd_tmp else ret c) ;;
  c <- x87_end c Xbase Wd_top Wd_tmp 1 ;;
  free_gpr Wd_tmp ;;;
  ret c.

(** FCOMI's flags: Z, C and V of the comparison, PF also at bit 26. *)
Definition emit_fcomi_flags (Wd_z Wd_v Wd_c : Z) : M unit :=
  emit_cset 0 0 Wd_z ;;;
  emit_cset 0 6 Wd_v ;;;
  emit_cset 0 2 Wd_c ;;;
  emit_logical_shifted_reg 0 1 0 0 Wd_v 0 Wd_z Wd_z ;;;
  emit_logical_shifted_reg 0 0 1 0 Wd_v 0 Wd_c Wd_c ;;;
  emit_bitfield 0 2 0 2 1 Wd_z Wd_z ;;;
  emit_logical_shifted_reg 0 1 0 0 Wd_c 29 Wd_z Wd_z ;;;
  emit_logical_shifted_reg 0 1 0 0 Wd_v 28 Wd_z Wd_z ;;;
  emit_logical_shifted_reg 0 1 0 0 Wd_v 26 Wd_z Wd_z ;;;
  emit_msr_nzcv Wd_z.

Definition translate_fcomi (c : X87Cache) (i : IRInstr) : M X87Cache :=
  '(Xbase, Wd_top, c) <- x87_begin c ;;
  let Xst_base := x87_get_st_base c in
  let is_popping := among (opcode i) [kOpcodeName.fcomip; kOpcodeName.fucomip] in
  Wd_tmp <- alloc_gpr 2 ;;
  Dd_st0 <- alloc_free_fpr ;;
  Dd_src <- alloc_free_fpr ;;
  _ <- emit_load_st Xbase Wd_top (resolve_depth c 0) Wd_tmp Dd_st0 Xst_base ;;
  _ <- emit_load_st Xbase Wd_top (resolve_depth c (st_index i 1)) Wd_tmp Dd_src Xst_base ;;
  emit_fcmp_f64 Dd_st0 Dd_src ;;;
  free_fpr Dd_src ;;;
  free_fpr Dd_st0 ;;;
  Wd_z <- alloc_free_gpr ;;
  Wd_v <- alloc_free_gpr ;;
  Wd_c <- alloc_free_gpr ;;
  emit_fcomi_flags Wd_z Wd_v Wd_c ;;;
  free_gpr Wd_c ;;;
  free_gpr Wd_v ;;;
  free_gpr Wd_z ;;;
  c <- (if is_popping then x87_pop c Xbase Wd_top Wd_tmp else ret c) ;;
  c <- x87_end c Xbase Wd_top Wd_tmp 1 ;;
  free_gpr Wd_tmp ;;;
  ret c.

(** The A64 condition of an FCMOVcc, AL for any other opcode. *)
Definition fcmov_cond (op : Z) : Z :=
  if op =? kOpcodeName.fcmovb then 3
  else if op =? kOpcodeName.fcmovbe then 9
  else if op =? kOpcodeName.fcmove then 0
  else if op =? kOpcodeName.fcmovnb then 2
  else if op =? kOpcodeName.fcmovnbe then 8
  else if op =? kOpcodeName.fcmovne then 1
  else if op =? kOpcodeName.fcmovu then 6
  else if op =? kOpcodeName.fcmovnu then 7
  else 14.

Definition translate_fcmov (c : X87Cache) (i : IRInstr) : M X87Cache :=
  '(Xbase, Wd_top, c) <- x87_begin c ;;
  let Xst_base := x87_get_st_base c in
  let aarch64_cond := fcmov_cond (opcode i) in
  Wd_tmp <- alloc_gpr 2 ;;
  Dd_st0 <- alloc_free_fpr ;;
  Dd_src <- alloc_free_fpr ;;
  Wd_tmp2 <- alloc_free_gpr ;;
  c <- x87_flush_tags c Xbase Wd_top Wd_tmp Wd_tmp2 ;;
  free_gpr Wd_tmp2 ;;;
  c <- x87_flush_top c Xbase Wd_top Wd_tmp ;;
  emit_st_st c Xbase Wd_top Wd_tmp Xst_base Dd_st0 Dd_src 0 (st_index i 1)
    (emit_fcsel_f64 Dd_st0 Dd_src Dd_st0 aarch64_cond) ;;;
  free_fpr Dd_src ;;;
  free_fpr Dd_st0 ;;;
  c <- x87_end c Xbase Wd_top Wd_tmp 1 ;;
  free_gpr Wd_tmp ;;;
  ret c.

(** ** The stack and the control word *)

(** [std::swap(perm[0], perm[depth])] *)
Definition swap_perm (c : X87Cache) (depth : Z) : X87Cache :=
  let p := perm c in
  with_perm c (zset (zset p 0 (zget p depth)) depth (zget p 0)) 1.

Definition translate_fxch (c : X87Cache) (i : IRInstr) : M X87Cache :=
  '(Xbase, Wd_top, c) <- x87_begin c ;;
  let Xst_base := x87_get_st_base c in
  let depth := st_index i 1 in
  let finish c :=
    Wd_scratch <- alloc_gpr 2 ;;
    c <- x87_end c Xbase Wd_top Wd_scratch 1 ;;
    free_gpr Wd_scratch ;;;
    ret c in
  if depth =? 0 then finish c
  else if (0 <? run_remaining c) && negb disable_deferred_fxch then finish (swap_perm c depth)
  else
    Wd_off0 <- alloc_gpr 2 ;;
    Wd_offi <- alloc_gpr 3 ;;
    Dd_a <- alloc_free_fpr ;;
    Dd_b <- alloc_free_fpr ;;
    Wk15 <- emit_load_st Xbase Wd_top 0 Wd_off0 Dd_a Xst_base ;;
    Wk14 <- emit_load_st Xbase Wd_top depth Wd_offi Dd_b Xst_base ;;
    emit_store_st_at_offset Xbase Wk14 Dd_a Xst_base ;;;
    emit_store_st_at_offset Xbase Wk15 Dd_b Xst_base ;;;
    free_fpr Dd_b ;;;
    free_fpr Dd_a ;;;
    free_gpr Wd_offi ;;;
    c <- x87_end c Xbase Wd_top Wd_off0 1 ;;
    free_gpr Wd_off0 ;;;
    ret c.

Definition translate_frndint (c : X87Cache) : M X87Cache :=
  '(Xbase, Wd_top, c) <- x87_begin c ;;
  let Xst_base := x87_get_st_base c in
  Wd_tmp <- alloc_gpr 2 ;;
  Wd_rc <- alloc_gpr 3 ;;
  Dd <- alloc_free_fpr ;;
  Wk <- emit_load_st Xbase Wd_top (resolve_depth c 0) Wd_tmp Dd Xst_base ;;
  (if fast_round cfg then emit_fp_dp1 1 8 Dd Dd
   else
     emit_ldr_str_imm 1 0 1 0 Xbase Wd_rc ;;;
     emit_bitfield 0 2 0 10 11 Wd_rc Wd_rc ;;;
     emit_x87_rc_dispatch_frint Wd_rc Dd Dd) ;;;
  emit_store_st_at_offset Xbase Wk Dd Xst_base ;;;
  free_fpr Dd ;;;
  free_gpr Wd_rc ;;;
  c <- x87_end c Xbase Wd_top Wd_tmp 1 ;;
  free_gpr Wd_tmp ;;;
  ret c.

Definition translate_fldcw (c : X87Cache) (i : IRInstr) : M X87Cache :=
  '(Xbase, Wd_top, c) <- x87_begin c ;;
  Wd_tmp <- alloc_gpr 2 ;;
  c <- x87_flush_top c Xbase Wd_top Wd_tmp ;;
  Wd_cw <- alloc_free_gpr ;;
  gpr_mem_access 1 (operand i 0) 1 1 Wd_cw ;;;
  emit_ldr_str_imm 1 0 0 0 Xbase Wd_cw ;;;
  free_gpr Wd_cw ;;;
  c <- x87_end c Xbase Wd_top Wd_tmp 1 ;;
  free_gpr Wd_tmp ;;;
  ret c.

Definition translate_fnstcw (c : X87Cache) (i : IRInstr) : M X87Cache :=
  '(Xbase, Wd_top, c) <- x87_begin c ;;
  Wd_tmp <- alloc_gpr 2 ;;
  Wd_cw <- alloc_free_gpr ;;
  emit_ldr_str_imm 1 0 1 0 Xbase Wd_cw ;;;
  gpr_mem_access 1 (operand i 0) 1 0 Wd_cw ;;;
  free_gpr Wd_cw ;;;
  c <- x87_end c Xbase Wd_top Wd_tmp 1 ;;
  free_gpr Wd_tmp ;;;
  ret c.

Definition translate_fnop (c : X87Cache) : M X87Cache :=
  '(Xbase, Wd_top, c) <- x87_begin c ;;
  Wd_tmp <- alloc_gpr 2 ;;
  c <- x87_end c Xbase Wd_top Wd_tmp 1 ;;
  free_gpr Wd_tmp ;;;
  ret c.

(** Everything deferred is written before a runtime call; TOP's register then
    follows the routine's known stack change. *)
Definition runtime_keepalive_flush (c : X87Cache) (top_delta : Z) : M X87Cache :=
  if negb (nz (gprs_valid c)) then ret c
  else
    let Xbase := base_gpr c in
    let Wd_top := top_gpr c in
    Wd_tmp <- alloc_gpr 2 ;;
    c <- perm_flush_before_stack_change cfg c Xbase Wd_top Wd_tmp ;;
    Wd_tmp2 <- alloc_free_gpr ;;
    c <- x87_flush_tags c Xbase Wd_top Wd_tmp Wd_tmp2 ;;
    free_gpr Wd_tmp2 ;;;
    c <- x87_flush_top c Xbase Wd_top Wd_tmp ;;
    free_gpr Wd_tmp ;;;
    (if top_delta <? 0 then emit_x87_push_fully_deferred Wd_top
     else if 0 <? top_delta then emit_x87_pop_top_only Wd_top else ret tt) ;;;
    ret c.
End Translators.
