(* ===== verification/TranslatorX87Fusion.v ===== *)
(** TranslatorX87Fusion.cpp: two to four adjacent instructions translated
    together.  Whether a pattern applies is decided by the instructions alone:
    a [try_fuse_*] answers, where its pattern applies, the code, which takes
    the cache and answers the one it leaves, and the number of instructions it
    covers. *)

From S2P Require Import Prelude OpcodeCompatibility Emit Assembler IROperand TranslatorHelpers X87Helpers.
From S2P Require Import X87Cache X87IRLower TranslatorX87Internal TranslatorX87.

Module FusionId.
Definition fld_arithp : Z := 0.
Definition fld_fstp : Z := 1.
Definition fld_arith_fstp : Z := 2.
Definition fld_fcomp_fstsw : Z := 3.
Definition fxch_arithp : Z := 4.
Definition fxch_fstp : Z := 5.
Definition fcom_fstsw : Z := 6.
Definition fld_fcompp_fstsw : Z := 7.
Definition fld_fld_fucompp : Z := 8.
Definition fld_fcomp : Z := 9.
Definition fld_arith_arithp : Z := 10.
Definition arithp_fstp : Z := 11.
Definition fstp_fld : Z := 12.
Definition arith_fstp : Z := 13.
Definition arith_faddp : Z := 14.
End FusionId.

Definition fusion_disabled (mask id : Z) : bool := Z.testbit mask id.

(** ** What an FLD pushes *)

Inductive FldSource :=
  kFldReg | kFldM32 | kFldM64 | kFldZero | kFldOne | kFldConst64 | kFildM16 | kFildM32 | kFildM64 | kFldInvalid.

Record FldClassification := mkFld { source : FldSource; reg_depth : Z; const_bits : Z }.

Definition fld_from (source : FldSource) : FldClassification := mkFld source 0 0.
Definition fld_const (bits : Z) : FldClassification := mkFld kFldConst64 0 bits.

Definition classify_fld_source (i : IRInstr) : FldClassification :=
  let op := opcode i in
  if op =? kOpcodeName.fld then
    if is_register i 0 then mkFld kFldReg (st_index i 1) 0
    else if is_size i 0 IROperandSize.S32 then fld_from kFldM32
    else if is_size i 0 IROperandSize.S64 then fld_from kFldM64
    else fld_from kFldInvalid
  else if op =? kOpcodeName.fild then
    if is_size i 0 IROperandSize.S16 then fld_from kFildM16
    else if is_size i 0 IROperandSize.S32 then fld_from kFildM32
    else fld_from kFildM64
  else if op =? kOpcodeName.fldz then fld_from kFldZero
  else if op =? kOpcodeName.fld1 then fld_from kFldOne
  else if op =? kOpcodeName.fldl2e then fld_const 0x3FF71547652B82FE
  else if op =? kOpcodeName.fldl2t then fld_const 0x400A934F0979A371
  else if op =? kOpcodeName.fldlg2 then fld_const 0x3FD34413509F79FF
  else if op =? kOpcodeName.fldln2 then fld_const 0x3FE62E42FEFA39EF
  else if op =? kOpcodeName.fldpi then fld_const 0x400921FB54442D18
  else fld_from kFldInvalid.

(** The classification, where there is one. *)
Definition with_fld {A} (i : IRInstr) (f : FldClassification -> option A) : option A :=
  let cls := classify_fld_source i in
  match source cls with kFldInvalid => None | _ => f cls end.

(** ** The arithmetic in a pattern *)

Inductive ArithOp := kAdd | kSub | kSubR | kMul | kDiv | kDivR.

Definition arith_op (op : Z) : option ArithOp :=
  if op =? kOpcodeName.fadd then Some kAdd
  else if op =? kOpcodeName.fsub then Some kSub
  else if op =? kOpcodeName.fsubr then Some kSubR
  else if op =? kOpcodeName.fmul then Some kMul
  else if op =? kOpcodeName.fdiv then Some kDiv
  else if op =? kOpcodeName.fdivr then Some kDivR
  else None.

Definition arithp_op (op : Z) : option ArithOp :=
  if op =? kOpcodeName.faddp then Some kAdd
  else if op =? kOpcodeName.fsubp then Some kSub
  else if op =? kOpcodeName.fsubrp then Some kSubR
  else if op =? kOpcodeName.fmulp then Some kMul
  else if op =? kOpcodeName.fdivp then Some kDiv
  else if op =? kOpcodeName.fdivrp then Some kDivR
  else None.

(** [Dd = op(Dd, Ds)] *)
Definition emit_arith (op : ArithOp) (Dd Ds : Z) : M unit :=
  match op with
  | kAdd => emit_fadd_f64 Dd Dd Ds
  | kSub => emit_fsub_f64 Dd Dd Ds
  | kSubR => emit_fsub_f64 Dd Ds Dd
  | kMul => emit_fmul_f64 Dd Dd Ds
  | kDiv => emit_fdiv_f64 Dd Dd Ds
  | kDivR => emit_fdiv_f64 Dd Ds Dd
  end.

(** [Da = Da op Dn * Dm] *)
Definition emit_fma (op : ArithOp) (Da Dn Dm : Z) : M unit :=
  match op with
  | kAdd => emit_fmadd_f64 Da Dn Dm Da
  | kSub => emit_fmsub_f64 Da Dn Dm Da
  | kSubR => emit_fnmsub_f64 Da Dn Dm Da
  | _ => ret tt
  end.

(** The code of a pattern, and how many instructions it covers. *)
Definition fusion : Type := (X87Cache -> M X87Cache) * nat.

Definition when {A} (b : bool) (x : option A) : option A := if b then x else None.

Section Fusions.
Context (cfg : RosettaConfig) (tgt : Target).

#[local] Abbreviation x87_begin := (x87_begin tgt).
#[local] Abbreviation x87_end := (x87_end cfg).
#[local] Abbreviation x87_pop := (x87_pop cfg).
#[local] Abbreviation x87_pop_n := (x87_pop_n cfg).
#[local] Abbreviation free_fpr := (free_fpr cfg).
#[local] Abbreviation fp_access := (emit_fp_mem_access cfg tgt).
#[local] Abbreviation gpr_mem_access := (emit_gpr_mem_access cfg tgt).

(** A float in memory, widened when it has 32 bits; a double, narrowed. *)
Definition load_float (o : IROperand) (D : Z) : M unit :=
  let is_f32 := op_size o =? IROperandSize.S32 in
  fp_access 1 o (if is_f32 then 2 else 3) 1 D ;;;
  (if is_f32 then emit_fcvt_s_to_d D D else ret tt).

Definition store_float (o : IROperand) (D : Z) : M unit :=
  let is_f32 := op_size o =? IROperandSize.S32 in
  (if is_f32 then emit_fcvt_d_to_s D D else ret tt) ;;;
  fp_access 1 o (if is_f32 then 2 else 3) 0 D.

Definition emit_fld_value (c : X87Cache) (cls : FldClassification) (i : IRInstr) (Xbase Wd_top Wd_tmp Dd_val Xst_base : Z) : M unit :=
  let a64 := b2z (addr_size (operand i 0) =? IROperandSize.S64) in
  match source cls with
  | kFldReg => _ <- emit_load_st Xbase Wd_top (resolve_depth c (reg_depth cls)) Wd_tmp Dd_val Xst_base ;; ret tt
  | kFldM32 => fp_access a64 (operand i 0) 2 1 Dd_val ;;; emit_fcvt_s_to_d Dd_val Dd_val
  | kFldM64 => fp_access a64 (operand i 0) 3 1 Dd_val
  | kFildM64 => fp_access 1 (operand i 0) 3 1 Dd_val ;;; emit_scvtf_d_from_d Dd_val Dd_val
  | kFildM16 | kFildM32 =>
      Wd_int <- alloc_free_gpr ;;
      (match source cls with
       | kFildM16 => gpr_mem_access 1 (operand i 0) 1 1 Wd_int ;;; emit_bitfield 0 0 0 0 15 Wd_int Wd_int
       | _ => gpr_mem_access 1 (operand i 0) 2 1 Wd_int
       end) ;;;
      emit_scvtf 0 1 Dd_val Wd_int ;;;
      free_gpr Wd_int
  | kFldZero => emit_movi_d_zero Dd_val
  | kFldOne => emit_fmov_d_one Dd_val
  | kFldConst64 => emit_ldr_literal_f64 Dd_val (const_bits cls)
  | kFldInvalid => ret tt
  end.

(** A deferred batch of pushes keeps its TOP; any other is written. *)
Definition flush_top_unless_batched (c : X87Cache) (Xbase Wd_top Wd_tmp : Z) : M X87Cache :=
  if nz (deferred_push_count c) && nz (top_dirty c) then ret c else x87_flush_top c Xbase Wd_top Wd_tmp.

(** The end of a fusion of [consumed] instructions. *)
Definition finish (c : X87Cache) (Xbase Wd_top Wd_tmp consumed : Z) : M X87Cache :=
  c <- x87_end c Xbase Wd_top Wd_tmp consumed ;;
  free_gpr Wd_tmp ;;;
  ret c.

(** ** FLD and a popping operation *)

Definition fuse_fld_arithp (cls : FldClassification) (arith : ArithOp) (c : X87Cache) (fld : IRInstr) : M X87Cache :=
  '(Xbase, Wd_top, c) <- x87_begin c ;;
  let Xst_base := x87_get_st_base c in
  Wd_tmp <- alloc_gpr 2 ;;
  c <- flush_top_unless_batched c Xbase Wd_top Wd_tmp ;;
  Dd_st0 <- alloc_free_fpr ;;
  Dd_fld <- alloc_free_fpr ;;
  emit_fld_value c cls fld Xbase Wd_top Wd_tmp Dd_fld Xst_base ;;;
  Wk24 <- emit_load_st Xbase Wd_top (resolve_depth c 0) Wd_tmp Dd_st0 Xst_base ;;
  emit_arith arith Dd_st0 Dd_fld ;;;
  emit_store_st_at_offset Xbase Wk24 Dd_st0 Xst_base ;;;
  free_fpr Dd_fld ;;;
  free_fpr Dd_st0 ;;;
  finish c Xbase Wd_top Wd_tmp 2.

Definition try_fuse_fld_arithp (fld arithp : IRInstr) : option fusion :=
  with_fld fld (fun cls =>
  let? arith := arithp_op (opcode arithp) in
  when (st_index arithp 0 =? 1) (Some (fun c => fuse_fld_arithp cls arith c fld, 2%nat))).

(** ** FXCH ST(1) and a popping operation *)

(** The popping operation with its operands exchanged. *)
Definition exchanged (i : IRInstr) : option (X87Cache -> M X87Cache) :=
  let op := opcode i in
  let as_op op' := mkIRInstr op' (num_operands i) (operands i) (rep_prefix i) (flag_liveness i) in
  if op =? kOpcodeName.faddp then Some (fun c => translate_faddp cfg tgt c i)
  else if op =? kOpcodeName.fmulp then Some (fun c => translate_fmul cfg tgt c i)
  else if op =? kOpcodeName.fsubp then Some (fun c => translate_fsubp cfg tgt c (as_op kOpcodeName.fsubrp))
  else if op =? kOpcodeName.fsubrp then Some (fun c => translate_fsubp cfg tgt c (as_op kOpcodeName.fsubp))
  else if op =? kOpcodeName.fdivp then Some (fun c => translate_fdivp cfg tgt c (as_op kOpcodeName.fdivrp))
  else if op =? kOpcodeName.fdivrp then Some (fun c => translate_fdivp cfg tgt c (as_op kOpcodeName.fdivp))
  else None.

(** The run is one shorter while the second instruction is translated. *)
Definition fuse_fxch_arithp (t : X87Cache -> M X87Cache) (c : X87Cache) : M X87Cache :=
  let borrowed_tick := 0 <? run_remaining c in
  c <- t (if borrowed_tick then with_run c (run_remaining c - 1) else c) ;;
  ret (if borrowed_tick && (0 <? run_remaining c) then with_run c (run_remaining c + 1) else c).

Definition try_fuse_fxch_arithp (fxch next : IRInstr) : option fusion :=
  when ((opcode fxch =? kOpcodeName.fxch) && (st_index fxch 1 =? 1) && (st_index next 0 =? 1))
    (let? t := exchanged next in Some (fuse_fxch_arithp t, 2%nat)).

(** ** FLD and FSTP *)

Definition fuse_fld_fstp (cls : FldClassification) (c : X87Cache) (fld fstp : IRInstr) : M X87Cache :=
  '(Xbase, Wd_top, c) <- x87_begin c ;;
  let Xst_base := x87_get_st_base c in
  Wd_tmp <- alloc_gpr 2 ;;
  c <- flush_top_unless_batched c Xbase Wd_top Wd_tmp ;;
  Dd_val <- alloc_free_fpr ;;
  emit_fld_value c cls fld Xbase Wd_top Wd_tmp Dd_val Xst_base ;;;
  (if is_register fstp 0 then emit_store_st Xbase Wd_top (resolve_depth c 0) Wd_tmp Dd_val Xst_base
   else store_float (operand fstp 0) Dd_val) ;;;
  free_fpr Dd_val ;;;
  finish c Xbase Wd_top Wd_tmp 2.

(** FSTP to ST(1), or to memory but for 80 bits. *)
Definition fstp_target (fstp : IRInstr) : bool :=
  if is_register fstp 0 then st_index fstp 0 =? 1 else negb (is_size fstp 0 IROperandSize.S80).

Definition try_fuse_fld_fstp (fld fstp : IRInstr) : option fusion :=
  when (among (opcode fstp) [kOpcodeName.fstp; kOpcodeName.fstp_stack] && fstp_target fstp)
    (with_fld fld (fun cls => Some (fun c => fuse_fld_fstp cls c fld fstp, 2%nat))).

(** ** FXCH ST(1) and FSTP ST(1): a pop *)

Definition fuse_fxch_fstp (c : X87Cache) : M X87Cache :=
  '(Xbase, Wd_top, c) <- x87_begin c ;;
  Wd_tmp <- alloc_gpr 2 ;;
  c <- x87_flush_top c Xbase Wd_top Wd_tmp ;;
  c <- x87_pop c Xbase Wd_top Wd_tmp ;;
  finish c Xbase Wd_top Wd_tmp 2.

Definition try_fuse_fxch_fstp (fxch fstp : IRInstr) : option fusion :=
  when ((opcode fxch =? kOpcodeName.fxch) && (st_index fxch 1 =? 1) &&
        (opcode fstp =? kOpcodeName.fstp_stack) && is_register fstp 0 && (st_index fstp 0 =? 1))
    (Some (fuse_fxch_fstp, 2%nat)).

(** ** A compare and FSTSW AX *)

(** The comparison's condition bits into [Wd_tmp]; NZCV goes through
    [Wd_tmp2], and the SIMD registers are given back. *)
Definition compare_packed (Wd_tmp Wd_tmp2 Dn Dm Dfirst Dsecond : Z) : M unit :=
  emit_mrs_nzcv Wd_tmp2 ;;;
  emit_fcmp_f64 Dn Dm ;;;
  free_fpr Dfirst ;;;
  free_fpr Dsecond ;;;
  emit_fcom_cc_pack Wd_tmp Wd_tmp2.

(** They replace the ones of the status word, which also goes to AX when
    [ax] is its register; TOP is written first, as [flush] says. *)
Definition status_to_ax (flush : X87Cache -> Z -> M X87Cache) (c : X87Cache) (Xbase Wd_tmp : Z) (ax : option Z) : M X87Cache :=
  Wd_sw <- alloc_free_gpr ;;
  c <- flush c Wd_sw ;;
  emit_ldr_str_imm 1 0 1 kX87StatusWordImm12 Xbase Wd_sw ;;;
  emit_bitfield 0 1 0 24 2 GPR.XZR Wd_sw ;;;
  emit_bitfield 0 1 0 18 0 GPR.XZR Wd_sw ;;;
  emit_logical_shifted_reg 0 1 0 0 Wd_tmp 0 Wd_sw Wd_sw ;;;
  (match ax with Some W_ax => emit_bitfield 0 1 0 0 15 Wd_sw W_ax | None => ret tt end) ;;;
  emit_ldr_str_imm 1 0 0 kX87StatusWordImm12 Xbase Wd_sw ;;;
  free_gpr Wd_sw ;;;
  ret c.

Definition flush_always (Xbase Wd_top : Z) (c : X87Cache) (Wd_sw : Z) : M X87Cache := x87_flush_top c Xbase Wd_top Wd_sw.
Definition flush_batched (Xbase Wd_top : Z) (c : X87Cache) (Wd_sw : Z) : M X87Cache := flush_top_unless_batched c Xbase Wd_top Wd_sw.

(** The TOP after a pop, into AX. *)
Definition patch_top (Wd_top W_ax : Z) : M unit := emit_bitfield 0 1 0 21 2 Wd_top W_ax.

Definition fuse_fcom_fstsw (c : X87Cache) (fcom fstsw : IRInstr) : M X87Cache :=
  let is_double_pop := among (opcode fcom) [kOpcodeName.fcompp; kOpcodeName.fucompp] in
  let is_popping := is_double_pop || among (opcode fcom) [kOpcodeName.fcomp; kOpcodeName.fucomp] in
  let W_ax := st_index fstsw 0 in
  '(Xbase, Wd_top, c) <- x87_begin c ;;
  let Xst_base := x87_get_st_base c in
  Wd_tmp <- alloc_gpr 2 ;;
  Wd_tmp2 <- alloc_gpr 3 ;;
  Dd_st0 <- alloc_free_fpr ;;
  Dd_src <- alloc_free_fpr ;;
  _ <- emit_load_st Xbase Wd_top (resolve_depth c 0) Wd_tmp Dd_st0 Xst_base ;;
  (if is_double_pop then _ <- emit_load_st Xbase Wd_top (resolve_depth c 1) Wd_tmp Dd_src Xst_base ;; ret tt
   else if is_register fcom 1 then
     _ <- emit_load_st Xbase Wd_top (resolve_depth c (st_index fcom 1)) Wd_tmp Dd_src Xst_base ;; ret tt
   else load_float (operand fcom 1) Dd_src) ;;;
  compare_packed Wd_tmp Wd_tmp2 Dd_st0 Dd_src Dd_src Dd_st0 ;;;
  c <- status_to_ax (flush_always Xbase Wd_top) c Xbase Wd_tmp (Some W_ax) ;;
  c <- (if is_popping then
          c <- (if is_double_pop then x87_pop_n c Xbase Wd_top Wd_tmp 2 else x87_pop c Xbase Wd_top Wd_tmp) ;;
          patch_top Wd_top W_ax ;;;
          ret c
        else ret c) ;;
  finish c Xbase Wd_top Wd_tmp 2.

Definition fstsw_ax (i : IRInstr) : bool := (opcode i =? kOpcodeName.fstsw) && is_register i 0.

Definition try_fuse_fcom_fstsw (fcom fstsw : IRInstr) : option fusion :=
  when (fstsw_ax fstsw) (Some (fun c => fuse_fcom_fstsw c fcom fstsw, 2%nat)).

(** ** FLD, an operation and FSTP *)

(** The operation's destination is ST(0) and, from a register, its source
    ST(1), which is ST(0) before the FLD. *)
Definition st0_st1 (arith : IRInstr) : bool :=
  negb (is_register arith 0) || (st_index arith 0 =? 0) && (st_index arith 1 =? 1).

Definition fuse_fld_arith_fstp (cls : FldClassification) (op : ArithOp) (c : X87Cache) (fld arith fstp : IRInstr) : M X87Cache :=
  '(Xbase, Wd_top, c) <- x87_begin c ;;
  let Xst_base := x87_get_st_base c in
  Wd_tmp <- alloc_gpr 2 ;;
  c <- flush_top_unless_batched c Xbase Wd_top Wd_tmp ;;
  Dd_fld <- alloc_free_fpr ;;
  Dd_src <- alloc_free_fpr ;;
  emit_fld_value c cls fld Xbase Wd_top Wd_tmp Dd_fld Xst_base ;;;
  Wk_st0 <- (if is_register arith 0 then emit_load_st Xbase Wd_top (resolve_depth c 0) Wd_tmp Dd_src Xst_base
             else load_float (operand arith 0) Dd_src ;;; ret (-1)) ;;
  emit_arith op Dd_fld Dd_src ;;;
  free_fpr Dd_src ;;;
  (if is_register fstp 0 then
     if 0 <=? Wk_st0 then emit_store_st_at_offset Xbase Wk_st0 Dd_fld Xst_base
     else emit_store_st Xbase Wd_top (resolve_depth c 0) Wd_tmp Dd_fld Xst_base
   else store_float (operand fstp 0) Dd_fld) ;;;
  free_fpr Dd_fld ;;;
  finish c Xbase Wd_top Wd_tmp 3.

Definition try_fuse_fld_arith_fstp (fld arith fstp : IRInstr) : option fusion :=
  with_fld fld (fun cls =>
  let? op := arith_op (opcode arith) in
  when (st0_st1 arith && among (opcode fstp) [kOpcodeName.fstp; kOpcodeName.fstp_stack] && fstp_target fstp)
    (Some (fun c => fuse_fld_arith_fstp cls op c fld arith fstp, 3%nat))).

(** ** FLD, an operation and a popping operation *)

Definition fma_eligible (arith1 arith2 : ArithOp) : bool :=
  match arith1, arith2 with kMul, (kAdd | kSub | kSubR) => true | _, _ => false end.

(** A float in memory in a register of its own. *)
Definition with_memory (o : IROperand) (f : Z -> M unit) : M unit :=
  Dd_mem <- alloc_free_fpr ;;
  load_float o Dd_mem ;;;
  f Dd_mem ;;;
  free_fpr Dd_mem.

(** Both operations, as one multiply-add where there is an instruction for
    it. *)
Definition emit_two_arith (arith1 arith2 : ArithOp) (arith : IRInstr) (Dd_fld Dd_st0 : Z) : M unit :=
  if fma_eligible arith1 arith2 then
    if is_register arith 0 then emit_fma arith2 Dd_st0 Dd_fld Dd_st0
    else with_memory (operand arith 0) (emit_fma arith2 Dd_st0 Dd_fld)
  else
    (if is_register arith 0 then emit_arith arith1 Dd_fld Dd_st0
     else with_memory (operand arith 0) (emit_arith arith1 Dd_fld)) ;;;
    emit_arith arith2 Dd_st0 Dd_fld.

Definition fuse_fld_arith_arithp (cls : FldClassification) (arith1 arith2 : ArithOp) (c : X87Cache) (fld arith : IRInstr) : M X87Cache :=
  '(Xbase, Wd_top, c) <- x87_begin c ;;
  let Xst_base := x87_get_st_base c in
  Wd_tmp <- alloc_gpr 2 ;;
  c <- flush_top_unless_batched c Xbase Wd_top Wd_tmp ;;
  Dd_fld <- alloc_free_fpr ;;
  Dd_st0 <- alloc_free_fpr ;;
  emit_fld_value c cls fld Xbase Wd_top Wd_tmp Dd_fld Xst_base ;;;
  Wk_st0 <- emit_load_st Xbase Wd_top (resolve_depth c 0) Wd_tmp Dd_st0 Xst_base ;;
  emit_two_arith arith1 arith2 arith Dd_fld Dd_st0 ;;;
  free_fpr Dd_fld ;;;
  emit_store_st_at_offset Xbase Wk_st0 Dd_st0 Xst_base ;;;
  free_fpr Dd_st0 ;;;
  finish c Xbase Wd_top Wd_tmp 3.

Definition try_fuse_fld_arith_arithp (fld arith arithp : IRInstr) : option fusion :=
  with_fld fld (fun cls =>
  let? arith1 := arith_op (opcode arith) in
  when (st0_st1 arith)
    (let? arith2 := arithp_op (opcode arithp) in
     when (st_index arithp 0 =? 1) (Some (fun c => fuse_fld_arith_arithp cls arith1 arith2 c fld arith, 3%nat)))).

(** ** FLD and a popping compare *)

(** The frame of a compare of the loaded value: [load] puts what it is
    compared with in its register. *)
Definition fuse_fld_compare (cls : FldClassification) (c : X87Cache) (fld : IRInstr) (load : X87Cache -> Z -> Z -> Z -> Z -> Z -> M unit)
    (always : bool) (ax : option Z) (pops : bool) (consumed : Z) : M X87Cache :=
  '(Xbase, Wd_top, c) <- x87_begin c ;;
  let Xst_base := x87_get_st_base c in
  Wd_tmp <- alloc_gpr 2 ;;
  Wd_tmp2 <- alloc_gpr 3 ;;
  Dd_fld <- alloc_free_fpr ;;
  Dd_cmp <- alloc_free_fpr ;;
  emit_fld_value c cls fld Xbase Wd_top Wd_tmp Dd_fld Xst_base ;;;
  load c Xbase Wd_top Wd_tmp Dd_cmp Xst_base ;;;
  compare_packed Wd_tmp Wd_tmp2 Dd_fld Dd_cmp Dd_cmp Dd_fld ;;;
  c <- status_to_ax (if always then flush_always Xbase Wd_top else flush_batched Xbase Wd_top) c Xbase Wd_tmp ax ;;
  c <- (if pops then
          c <- x87_pop c Xbase Wd_top Wd_tmp ;;
          (match ax with Some W_ax => patch_top Wd_top W_ax | None => ret tt end) ;;;
          ret c
        else ret c) ;;
  finish c Xbase Wd_top Wd_tmp consumed.

Definition load_st0 (c : X87Cache) (Xbase Wd_top Wd_tmp D Xst_base : Z) : M unit :=
  _ <- emit_load_st Xbase Wd_top (resolve_depth c 0) Wd_tmp D Xst_base ;; ret tt.

(** What FCOMP compares the loaded value with. *)
Definition load_comparand (fcomp : IRInstr) (c : X87Cache) (Xbase Wd_top Wd_tmp D Xst_base : Z) : M unit :=
  if is_register fcomp 1 then load_st0 c Xbase Wd_top Wd_tmp D Xst_base else load_float (operand fcomp 1) D.

Definition is_fcomp (i : IRInstr) : bool := among (opcode i) [kOpcodeName.fcomp; kOpcodeName.fucomp].
Definition is_fcompp (i : IRInstr) : bool := among (opcode i) [kOpcodeName.fcompp; kOpcodeName.fucompp].

Definition try_fuse_fld_fcomp_fstsw (fld fcomp fstsw : IRInstr) : option fusion :=
  when (is_fcomp fcomp && (if is_register fcomp 1 then st_index fcomp 1 =? 1 else negb (is_size fcomp 1 IROperandSize.S80)) &&
        fstsw_ax fstsw)
    (with_fld fld (fun cls =>
     Some (fun c => fuse_fld_compare cls c fld (load_comparand fcomp) false (Some (st_index fstsw 0)) false 3, 3%nat))).

Definition try_fuse_fld_fcomp (fld fcomp : IRInstr) : option fusion :=
  when (is_fcomp fcomp && is_register fcomp 0 && (st_index fcomp 1 =? 1))
    (with_fld fld (fun cls => Some (fun c => fuse_fld_compare cls c fld load_st0 false None false 2, 2%nat))).

Definition try_fuse_fld_fcompp_fstsw (fld fcompp fstsw : IRInstr) : option fusion :=
  when (is_fcompp fcompp && fstsw_ax fstsw)
    (with_fld fld (fun cls =>
     Some (fun c => fuse_fld_compare cls c fld load_st0 true (Some (st_index fstsw 0)) true 3, 3%nat))).

(** ** Two FLDs and a compare that pops both *)

(** The second FLD reads the stack after the first one's push. *)
Definition emit_second_fld (c : X87Cache) (cls : FldClassification) (fld : IRInstr) (Xbase Wd_top Wd_tmp Dd_val1 Dd_val2 Xst_base : Z) : M unit :=
  match source cls with
  | kFldReg =>
      if reg_depth cls =? 0 then emit_fmov_f64_reg Dd_val2 Dd_val1
      else emit_fld_value c (mkFld kFldReg (reg_depth cls - 1) (const_bits cls)) fld Xbase Wd_top Wd_tmp Dd_val2 Xst_base
  | _ => emit_fld_value c cls fld Xbase Wd_top Wd_tmp Dd_val2 Xst_base
  end.

Definition fuse_fld_fld_fucompp (cls1 cls2 : FldClassification) (c : X87Cache) (fld1 fld2 : IRInstr) (ax : option Z) : M X87Cache :=
  '(Xbase, Wd_top, c) <- x87_begin c ;;
  let Xst_base := x87_get_st_base c in
  Wd_tmp <- alloc_gpr 2 ;;
  Wd_tmp2 <- alloc_gpr 3 ;;
  Dd_val1 <- alloc_free_fpr ;;
  Dd_val2 <- alloc_free_fpr ;;
  emit_fld_value c cls1 fld1 Xbase Wd_top Wd_tmp Dd_val1 Xst_base ;;;
  emit_second_fld c cls2 fld2 Xbase Wd_top Wd_tmp Dd_val1 Dd_val2 Xst_base ;;;
  compare_packed Wd_tmp Wd_tmp2 Dd_val2 Dd_val1 Dd_val1 Dd_val2 ;;;
  c <- status_to_ax (flush_batched Xbase Wd_top) c Xbase Wd_tmp ax ;;
  finish c Xbase Wd_top Wd_tmp (match ax with Some _ => 4 | None => 3 end).

Definition try_fuse_fld_fld_fucompp (fld1 fld2 fucompp : IRInstr) (fstsw : option IRInstr) : option fusion :=
  with_fld fld1 (fun cls1 =>
  with_fld fld2 (fun cls2 =>
  when (is_fcompp fucompp)
    (let ax := match fstsw with Some i => when (fstsw_ax i) (Some (st_index i 0)) | None => None end in
     Some (fun c => fuse_fld_fld_fucompp cls1 cls2 c fld1 fld2 ax, match ax with Some _ => 4%nat | None => 3%nat end)))).

(** ** An operation and FSTP *)

Definition fuse_arithp_fstp (arith : ArithOp) (c : X87Cache) (fstp : IRInstr) : M X87Cache :=
  '(Xbase, Wd_top, c) <- x87_begin c ;;
  let Xst_base := x87_get_st_base c in
  Wd_tmp <- alloc_gpr 2 ;;
  Dd_src <- alloc_free_fpr ;;
  Dd_dst <- alloc_free_fpr ;;
  _ <- emit_load_st Xbase Wd_top (resolve_depth c 0) Wd_tmp Dd_src Xst_base ;;
  _ <- emit_load_st Xbase Wd_top (resolve_depth c 1) Wd_tmp Dd_dst Xst_base ;;
  emit_arith arith Dd_dst Dd_src ;;;
  store_float (operand fstp 0) Dd_dst ;;;
  c <- x87_pop_n c Xbase Wd_top Wd_tmp 2 ;;
  free_fpr Dd_src ;;;
  free_fpr Dd_dst ;;;
  finish c Xbase Wd_top Wd_tmp 2.

(** FSTP to memory, but for 80 bits. *)
Definition fstp_memory (i : IRInstr) : bool :=
  (opcode i =? kOpcodeName.fstp) && negb (is_register i 0) && negb (is_size i 0 IROperandSize.S80).

Definition try_fuse_arithp_fstp (arithp fstp : IRInstr) : option fusion :=
  let? arith := arithp_op (opcode arithp) in
  when ((st_index arithp 0 =? 1) && fstp_memory fstp) (Some (fun c => fuse_arithp_fstp arith c fstp, 2%nat)).

(** The destination is ST(0). *)
Definition into_st0 (arith : IRInstr) : bool := negb (is_register arith 0) || (st_index arith 0 =? 0).

(** ST(0) and the other operand of an operation, each in its register. *)
Definition load_two (c : X87Cache) (arith : IRInstr) (Xbase Wd_top Wd_tmp Dd_st0 Dd_other Xst_base : Z) : M unit :=
  if is_register arith 0 then
    _ <- emit_load_st Xbase Wd_top (resolve_depth c (st_index arith 1)) Wd_tmp Dd_other Xst_base ;;
    _ <- emit_load_st Xbase Wd_top (resolve_depth c 0) Wd_tmp Dd_st0 Xst_base ;;
    ret tt
  else
    _ <- emit_load_st Xbase Wd_top (resolve_depth c 0) Wd_tmp Dd_st0 Xst_base ;;
    load_float (operand arith 0) Dd_other.

Definition fuse_arith_fstp (op : ArithOp) (c : X87Cache) (arith fstp : IRInstr) : M X87Cache :=
  '(Xbase, Wd_top, c) <- x87_begin c ;;
  let Xst_base := x87_get_st_base c in
  Wd_tmp <- alloc_gpr 2 ;;
  Dd_dst <- alloc_free_fpr ;;
  Dd_src <- alloc_free_fpr ;;
  load_two c arith Xbase Wd_top Wd_tmp Dd_dst Dd_src Xst_base ;;;
  emit_arith op Dd_dst Dd_src ;;;
  store_float (operand fstp 0) Dd_dst ;;;
  c <- x87_pop c Xbase Wd_top Wd_tmp ;;
  free_fpr Dd_src ;;;
  free_fpr Dd_dst ;;;
  finish c Xbase Wd_top Wd_tmp 2.

Definition try_fuse_arith_fstp (arith fstp : IRInstr) : option fusion :=
  let? op := arith_op (opcode arith) in
  when (into_st0 arith && fstp_memory fstp) (Some (fun c => fuse_arith_fstp op c arith fstp, 2%nat)).

(** ** FMUL and a popping addition *)

Definition fuse_arith_faddp (kind : ArithOp) (c : X87Cache) (mul : IRInstr) : M X87Cache :=
  '(Xbase, Wd_top, c) <- x87_begin c ;;
  let Xst_base := x87_get_st_base c in
  Wd_tmp <- alloc_gpr 2 ;;
  Dd_st0 <- alloc_free_fpr ;;
  Dd_mul_op <- alloc_free_fpr ;;
  Dd_st1 <- alloc_free_fpr ;;
  load_two c mul Xbase Wd_top Wd_tmp Dd_st0 Dd_mul_op Xst_base ;;;
  Wk_st1 <- emit_load_st Xbase Wd_top (resolve_depth c 1) Wd_tmp Dd_st1 Xst_base ;;
  emit_fma kind Dd_st1 Dd_st0 Dd_mul_op ;;;
  emit_store_st_at_offset Xbase Wk_st1 Dd_st1 Xst_base ;;;
  c <- x87_pop c Xbase Wd_top Wd_tmp ;;
  free_fpr Dd_mul_op ;;;
  free_fpr Dd_st0 ;;;
  free_fpr Dd_st1 ;;;
  finish c Xbase Wd_top Wd_tmp 2.

(** The popping operations with a multiply-add. *)
Definition fma_kind (op : Z) : option ArithOp :=
  if op =? kOpcodeName.faddp then Some kAdd
  else if op =? kOpcodeName.fsubp then Some kSub
  else if op =? kOpcodeName.fsubrp then Some kSubR
  else None.

Definition try_fuse_arith_faddp (mul addp : IRInstr) : option fusion :=
  when ((opcode mul =? kOpcodeName.fmul) && into_st0 mul)
    (let? kind := fma_kind (opcode addp) in
     when (st_index addp 0 =? 1) (Some (fun c => fuse_arith_faddp kind c mul, 2%nat))).

(** ** FSTP and FLD *)

Definition fuse_fstp_fld (cls : FldClassification) (c : X87Cache) (fstp fld : IRInstr) : M X87Cache :=
  let fstp_is_discard := is_register fstp 0 && (st_index fstp 0 =? 0) in
  '(Xbase, Wd_top, c) <- x87_begin c ;;
  let Xst_base := x87_get_st_base c in
  Wd_tmp <- alloc_gpr 2 ;;
  c <- flush_top_unless_batched c Xbase Wd_top Wd_tmp ;;
  Dd_fld <- alloc_free_fpr ;;
  Dd_st0 <- (if fstp_is_discard then ret (-1)
             else
               Dd_st0 <- alloc_free_fpr ;;
               _ <- emit_load_st Xbase Wd_top (resolve_depth c 0) Wd_tmp Dd_st0 Xst_base ;;
               ret Dd_st0) ;;
  (if is_register fstp 0 then
     if fstp_is_discard then ret tt
     else emit_store_st Xbase Wd_top (resolve_depth c (st_index fstp 0)) Wd_tmp Dd_st0 Xst_base
   else store_float (operand fstp 0) Dd_st0) ;;;
  (match source cls with
   | kFldReg => _ <- emit_load_st Xbase Wd_top (resolve_depth c (reg_depth cls + 1)) Wd_tmp Dd_fld Xst_base ;; ret tt
   | _ => emit_fld_value c cls fld Xbase Wd_top Wd_tmp Dd_fld Xst_base
   end) ;;;
  emit_store_st Xbase Wd_top (resolve_depth c 0) Wd_tmp Dd_fld Xst_base ;;;
  (if 0 <=? Dd_st0 then free_fpr Dd_st0 else ret tt) ;;;
  free_fpr Dd_fld ;;;
  finish c Xbase Wd_top Wd_tmp 2.

Definition try_fuse_fstp_fld (fstp fld : IRInstr) : option fusion :=
  when (is_register fstp 0 || negb (is_size fstp 0 IROperandSize.S80))
    (with_fld fld (fun cls => Some (fun c => fuse_fstp_fld cls c fstp fld, 2%nat))).

(** ** The choice *)

(** The first of the patterns that is enabled and applies. *)
Fixpoint first_fusion (disabled_mask : Z) (l : list (Z * option fusion)) : option fusion :=
  match l with
  | [] => None
  | (id, r) :: l =>
      match when (negb (fusion_disabled disabled_mask id)) r with
      | Some t => Some t
      | None => first_fusion disabled_mask l
      end
  end.

(** The patterns a group tries, the longest first. *)
Definition try_fuse_fld_group (cur next : IRInstr) (rest : list IRInstr) : list (Z * option fusion) :=
  (match rest with
   | i2 :: i3 :: _ => [(FusionId.fld_fld_fucompp, try_fuse_fld_fld_fucompp cur next i2 (Some i3))]
   | _ => []
   end) ++
  (match rest with
   | i2 :: _ =>
       [(FusionId.fld_arith_fstp, try_fuse_fld_arith_fstp cur next i2);
        (FusionId.fld_arith_arithp, try_fuse_fld_arith_arithp cur next i2);
        (FusionId.fld_fcomp_fstsw, try_fuse_fld_fcomp_fstsw cur next i2);
        (FusionId.fld_fcompp_fstsw, try_fuse_fld_fcompp_fstsw cur next i2);
        (FusionId.fld_fld_fucompp, try_fuse_fld_fld_fucompp cur next i2 None)]
   | [] => []
   end) ++
  [(FusionId.fld_arithp, try_fuse_fld_arithp cur next);
   (FusionId.fld_fstp, try_fuse_fld_fstp cur next);
   (FusionId.fld_fcomp, try_fuse_fld_fcomp cur next)].

Definition try_fuse_fxch_group (cur next : IRInstr) : list (Z * option fusion) :=
  [(FusionId.fxch_arithp, try_fuse_fxch_arithp cur next); (FusionId.fxch_fstp, try_fuse_fxch_fstp cur next)].
Definition try_fuse_fcom_group (cur next : IRInstr) : list (Z * option fusion) :=
  [(FusionId.fcom_fstsw, try_fuse_fcom_fstsw cur next)].
Definition try_fuse_arithp_group (cur next : IRInstr) : list (Z * option fusion) :=
  [(FusionId.arithp_fstp, try_fuse_arithp_fstp cur next)].
Definition try_fuse_arith_group (cur next : IRInstr) : list (Z * option fusion) :=
  [(FusionId.arith_faddp, try_fuse_arith_faddp cur next); (FusionId.arith_fstp, try_fuse_arith_fstp cur next)].
Definition try_fuse_fstp_group (cur next : IRInstr) : list (Z * option fusion) :=
  [(FusionId.fstp_fld, try_fuse_fstp_fld cur next)].

(** The patterns of the first instruction's opcode. *)
Definition candidates (instrs : list IRInstr) : list (Z * option fusion) :=
  match instrs with
  | cur :: next :: rest =>
      let op := opcode cur in
      if among op [kOpcodeName.fld; kOpcodeName.fild; kOpcodeName.fldz; kOpcodeName.fld1; kOpcodeName.fldl2e;
                   kOpcodeName.fldl2t; kOpcodeName.fldlg2; kOpcodeName.fldln2; kOpcodeName.fldpi]
      then try_fuse_fld_group cur next rest
      else if op =? kOpcodeName.fxch then try_fuse_fxch_group cur next
      else if among op [kOpcodeName.fcom; kOpcodeName.fcomp; kOpcodeName.fucom; kOpcodeName.fucomp;
                        kOpcodeName.fcompp; kOpcodeName.fucompp]
      then try_fuse_fcom_group cur next
      else if among op [kOpcodeName.faddp; kOpcodeName.fsubp; kOpcodeName.fsubrp; kOpcodeName.fmulp;
                        kOpcodeName.fdivp; kOpcodeName.fdivrp]
      then try_fuse_arithp_group cur next
      else if among op [kOpcodeName.fadd; kOpcodeName.fsub; kOpcodeName.fsubr; kOpcodeName.fmul;
                        kOpcodeName.fdiv; kOpcodeName.fdivr]
      then try_fuse_arith_group cur next
      else if among op [kOpcodeName.fstp; kOpcodeName.fstp_stack] then try_fuse_fstp_group cur next
      else []
  | _ => []
  end.

Definition try_peephole (disabled_mask : Z) (instrs : list IRInstr) : option fusion :=
  first_fusion disabled_mask (candidates instrs).
End Fusions.
