(* ===== verification/Translator.v ===== *)
(** Translator.cpp and TranslatorCustom.cpp: what the translator does with one
    instruction - the start of a run, the choice of the single-instruction
    translator and the bookkeeping after it, a runtime call kept inside a run,
    an instruction that is not an x87 one in the middle of a run.  The run
    compiler is X87IRCompile.v, the fusions TranslatorX87Fusion.v; the telemetry
    is left out. *)

From S2P Require Import Prelude Emit Assembler IROperand X87BridgeDemand X87Cache TranslatorHelpers X87Helpers X87IRLower X87IRCompile.
From S2P Require Import TranslatorX87Internal TranslatorX87 TranslatorX87Fusion.

(** [kGprScratchMask & ~cache.pinned_mask()] while the cache is active. *)
Definition free_pool (c : X87Cache) : Z :=
  if active c then Z.land kGprScratchMask (unot 32 (pinned_mask c)) else kGprScratchMask.

(** The bridge check: the demand of an instruction the translator leaves to
    Rosetta without ending the run. *)
Definition bridge_need (run_bridge : bool) (c : X87Cache) (i : IRInstr) : option Z :=
  if active c && run_bridge then
    match gap_gpr_demand i with
    | Some need => if need <=? kMaxBridgeDemand then Some need else None
    | None => None
    end
  else None.

(** A bridged instruction: the carried bases it may change are dropped, all of
    the carried registers are released when what is left is not more than the
    instruction needs, and the run advances. *)
Definition bridge_instruction (c : X87Cache) (i : IRInstr) (need free_gpr_mask : Z) : X87Cache * Z :=
  let c := if carried_any c then carried_drop_written c (gap_written_gpr_mask i) else c in
  let have := popcount (Z.land kGprScratchMask (unot 32 (pinned_mask c))) in
  let release := (have <=? need) && carried_any c in
  let '(c, free_gpr_mask) := if release then carried_release c free_gpr_mask else (c, free_gpr_mask) in
  let c := tick c in
  (c, free_pool c).

(** An instruction neither the x87 translators nor a keep-alive call handles:
    the cache, the free registers, and whether the run went on. *)
Definition hand_back (run_bridge : bool) (c : X87Cache) (i : IRInstr) (free_gpr_mask : Z) : X87Cache * Z * bool :=
  match bridge_need run_bridge c i with
  | Some need => (bridge_instruction c i need free_gpr_mask, true)
  | None => (invalidate_mask c kGprScratchMask, false)
  end.

(** ** ARPL *)

Section Custom.
Context (tgt : Target).

Definition translate_arpl (i : IRInstr) : M unit :=
  let W_src := st_index i 1 in
  Wsave <- alloc_free_gpr ;;
  Wa <- alloc_free_gpr ;;
  Wb <- alloc_free_gpr ;;
  Wc <- alloc_free_gpr ;;
  emit_bitfield 0 2 0 0 1 W_src Wb ;;;
  let dst_is_reg := is_register i 0 in
  '(addr_reg, dst) <- (if dst_is_reg then ret (GPR.XZR, st_index i 0)
                       else
                         addr_reg <- compute_operand_address tgt 1 (operand i 0) GPR.XZR ;;
                         dst <- alloc_free_gpr ;;
                         emit_ldr_str_imm 1 0 1 0 addr_reg dst ;;;
                         ret (addr_reg, dst)) ;;
  emit_mrs_nzcv Wsave ;;;
  emit_bitfield 0 2 0 0 1 dst Wa ;;;
  emit_subs_reg 0 Wa Wb GPR.XZR ;;;
  emit_cset 0 3 Wc ;;;
  emit_bitfield 0 1 0 2 0 Wc Wsave ;;;
  emit_msr_nzcv Wsave ;;;
  emit_cbz 0 0 Wc 2 ;;;
  emit_bitfield 0 1 0 0 1 Wb dst ;;;
  (if dst_is_reg then ret tt
   else
     emit_ldr_str_imm 1 0 0 0 addr_reg dst ;;;
     free_gpr dst ;;;
     free_gpr addr_reg) ;;;
  free_gpr Wc ;;;
  free_gpr Wb ;;;
  free_gpr Wa ;;;
  free_gpr Wsave.
End Custom.

(** ** One x87 instruction by its own translator *)

Section Single.
Context (cfg : RosettaConfig) (tgt : Target) (disable_deferred_fxch : bool).

(** The switch of [translate_instruction]; [None] is its default. *)
Definition translate_single (c : X87Cache) (i : IRInstr) : option (M X87Cache) :=
  let op := opcode i in
  if op =? kOpcodeName.fldz then Some (translate_fldz cfg tgt c)
  else if op =? kOpcodeName.fld1 then Some (translate_fld1 cfg tgt c)
  else if op =? kOpcodeName.fldl2e then Some (translate_fldl2e cfg tgt c)
  else if op =? kOpcodeName.fldl2t then Some (translate_fldl2t cfg tgt c)
  else if op =? kOpcodeName.fldlg2 then Some (translate_fldlg2 cfg tgt c)
  else if op =? kOpcodeName.fldln2 then Some (translate_fldln2 cfg tgt c)
  else if op =? kOpcodeName.fldpi then Some (translate_fldpi cfg tgt c)
  else if op =? kOpcodeName.fld then Some (translate_fld cfg tgt c i)
  else if op =? kOpcodeName.fild then Some (translate_fild cfg tgt c i)
  else if op =? kOpcodeName.fadd then Some (translate_fadd cfg tgt c i)
  else if op =? kOpcodeName.faddp then Some (translate_faddp cfg tgt c i)
  else if op =? kOpcodeName.fiadd then Some (translate_fiadd cfg tgt c i)
  else if among op [kOpcodeName.fsub; kOpcodeName.fsubr] then Some (translate_fsub cfg tgt c i)
  else if among op [kOpcodeName.fsubp; kOpcodeName.fsubrp] then Some (translate_fsubp cfg tgt c i)
  else if among op [kOpcodeName.fdiv; kOpcodeName.fdivr] then Some (translate_fdiv cfg tgt c i)
  else if among op [kOpcodeName.fdivp; kOpcodeName.fdivrp] then Some (translate_fdivp cfg tgt c i)
  else if among op [kOpcodeName.fmul; kOpcodeName.fmulp] then Some (translate_fmul cfg tgt c i)
  else if among op [kOpcodeName.fst; kOpcodeName.fst_stack; kOpcodeName.fstp; kOpcodeName.fstp_stack]
  then Some (translate_fst cfg tgt c i)
  else if op =? kOpcodeName.fstsw then Some (translate_fstsw cfg tgt c i)
  else if among op [kOpcodeName.fcom; kOpcodeName.fcomp; kOpcodeName.fcompp; kOpcodeName.fucom; kOpcodeName.fucomp;
                    kOpcodeName.fucompp]
  then Some (translate_fcom cfg tgt c i)
  else if op =? kOpcodeName.fxch then Some (translate_fxch cfg tgt disable_deferred_fxch c i)
  else if op =? kOpcodeName.fchs then Some (translate_fchs cfg tgt c)
  else if op =? kOpcodeName.fabs then Some (translate_fabs cfg tgt c)
  else if op =? kOpcodeName.fsqrt then Some (translate_fsqrt cfg tgt c)
  else if op =? kOpcodeName.fistp then Some (translate_fistp cfg tgt c i)
  else if op =? kOpcodeName.fisttp then Some (translate_fisttp cfg tgt c i)
  else if op =? kOpcodeName.fidiv then Some (translate_fidiv cfg tgt c i)
  else if op =? kOpcodeName.fimul then Some (translate_fimul cfg tgt c i)
  else if op =? kOpcodeName.fisub then Some (translate_fisub cfg tgt c i)
  else if op =? kOpcodeName.fidivr then Some (translate_fidivr cfg tgt c i)
  else if op =? kOpcodeName.frndint then Some (translate_frndint cfg tgt c)
  else if among op [kOpcodeName.fcomi; kOpcodeName.fcomip; kOpcodeName.fucomi; kOpcodeName.fucomip]
  then Some (translate_fcomi cfg tgt c i)
  else if op =? kOpcodeName.ftst then Some (translate_ftst cfg tgt c)
  else if op =? kOpcodeName.fist then Some (translate_fist cfg tgt c i)
  else if op =? kOpcodeName.fisubr then Some (translate_fisubr cfg tgt c i)
  else if among op [kOpcodeName.ficom; kOpcodeName.ficomp] then Some (translate_ficom cfg tgt c i)
  else if among op [kOpcodeName.fcmovb; kOpcodeName.fcmovbe; kOpcodeName.fcmove; kOpcodeName.fcmovnb; kOpcodeName.fcmovnbe;
                    kOpcodeName.fcmovne; kOpcodeName.fcmovu; kOpcodeName.fcmovnu]
  then Some (translate_fcmov cfg tgt c i)
  else if op =? kOpcodeName.fldcw then Some (translate_fldcw cfg tgt c i)
  else if op =? kOpcodeName.fnstcw then Some (translate_fnstcw cfg tgt c i)
  else if op =? kOpcodeName.fnop then Some (translate_fnop cfg tgt c)
  else if op =? kOpcodeName.arpl then Some (translate_arpl tgt i ;;; ret c)
  else None.

Context (xmm_temporaries : Z).   (* _unoccupied_temporary_fprs_for_xmm_scalars *)

(** After an instruction: the cache ticked once for each of [consumed], the
    free registers reset but for the pinned ones. *)
Definition after_instruction (consumed : nat) (c : X87Cache) : M X87Cache := fun s =>
  let c := Nat.iter consumed tick c in
  Some (c, set_fpr_mask (set_gpr_mask s (free_pool c)) xmm_temporaries).

(** The extended SIMD pool replaces the default one on first use. *)
Definition upgrade_fprs (s : asm) : asm :=
  if extended_fpr_scratch cfg && (free_fpr_mask s =? kFprScratchMask) then set_fpr_mask s kFprScratchMaskExt else s.

(** A runtime routine's call inside a run: everything deferred is written and
    the registers kept. *)
Definition keep_alive (c : X87Cache) (top_delta : Z) : M X87Cache := fun s =>
  let '(c, mask) := if carried_any c then carried_release c (free_gpr_mask s) else (c, free_gpr_mask s) in
  (c <- runtime_keepalive_flush cfg c top_delta ;; after_instruction 1 c) (set_gpr_mask s mask).

(** The carried registers are given back before an x87 instruction. *)
Definition release_carried (c : X87Cache) (op : Z) (s : asm) : X87Cache * asm :=
  if carried_any c && is_handled op then
    let '(c, mask) := carried_release c (free_gpr_mask s) in (c, set_gpr_mask s mask)
  else (c, s).

(** An instruction by its own translator, unless its opcode is disabled.  The
    answer counts the instructions translated: 0 leaves this one to Rosetta. *)
Definition translate_unfused (run_bridge runtime_keepalive : bool) (disabled_ops_mask : Z) (c : X87Cache) (i : IRInstr) : M (X87Cache * nat) := fun s =>
  if op_disabled_for_run (opcode i) disabled_ops_mask then
    let '(c, mask) := invalidate_mask c kGprScratchMask in
    Some ((c, 0%nat), set_fpr_mask (set_gpr_mask s mask) xmm_temporaries)
  else
  match translate_single c i with
  | Some t => (c <- t ;; c <- after_instruction 1 c ;; ret (c, 1%nat)) s
  | None =>
      match (if active c && runtime_keepalive then runtime_keepalive_top_delta (opcode i) else None) with
      | Some top_delta => (c <- keep_alive c top_delta ;; ret (c, 0%nat)) s
      | None =>
          let '(c, mask, _) := hand_back run_bridge c i (free_gpr_mask s) in
          Some ((c, 0%nat), set_fpr_mask (set_gpr_mask s mask) xmm_temporaries)
      end
  end.

(** The first of [instrs], which the run compiler does not take: with those
    after it where a fusion applies, else by itself. *)
Definition translate_next (run_bridge runtime_keepalive : bool) (disabled_ops_mask disabled_fusions_mask : Z)
    (c : X87Cache) (instrs : list IRInstr) : M (X87Cache * nat) := fun s =>
  match instrs with
  | [] => None
  | i :: _ =>
      let '(c, s) := release_carried c (opcode i) (upgrade_fprs s) in
      match try_peephole cfg tgt disabled_fusions_mask instrs with
      | Some (t, consumed) => (c <- t c ;; c <- after_instruction consumed c ;; ret (c, consumed)) s
      | None => translate_unfused run_bridge runtime_keepalive disabled_ops_mask c i s
      end
  end.
End Single.

(** A run starts where none is active: [block_changed] says that the
    instruction is in another block than the last one. *)
Definition start_run (disable_x87_cache run_bridge runtime_keepalive block_changed : bool)
    (c : X87Cache) (run free_gpr_mask : Z) : X87Cache * Z :=
  let '(c, free_gpr_mask) := if block_changed then invalidate_mask c kGprScratchMask else (c, free_gpr_mask) in
  let c := if negb (active c) && negb disable_x87_cache then set_run c run else c in
  (c, if (run_bridge || runtime_keepalive) && active c then Z.land free_gpr_mask (unot 32 (pinned_mask c)) else free_gpr_mask).
