(* ===== verification/TranslatorProps.v ===== *)
(** The translator around a run: the pool Rosetta translates a bridged
    instruction from has a register to spare, which of the registers that
    instruction writes the cache knows about, which carried bases outlive it,
    the lookahead under the demand model, and the opcodes the translator's switch has a case for. *)

From S2P Require GuestProps.
From S2P Require Import Prelude IROperand Fpu X87BridgeDemand X87Cache X87CacheProps BridgeDemandProps TranslatorHelpers Pools X87IRCompile TranslatorX87 Translator.

(** ** The registers left *)

Definition bits_of (l : list Z) (f : Z -> bool) : Z := fold_right (fun r m => Z.lor (if f r then 2 ^ r else 0) m) 0 l.

Lemma bits_of_test l f i : 0 <= i -> (forall r, In r l -> 0 <= r) -> Z.testbit (bits_of l f) i = existsb (Z.eqb i) l && f i.
Proof.
  intros Hi. induction l as [|r l IH]; intros Hl; cbn [bits_of fold_right existsb]; [apply Z.testbit_0_l|].
  fold (bits_of l f). rewrite Z.lor_spec, IH by (intros; apply Hl; cbn; auto). specialize (Hl r ltac:(cbn; auto)).
  destruct (Z.eqb_spec i r) as [->|Hne]; cbn [orb].
  - destruct (f r); [rewrite Z.pow2_bits_true by exact Hl; reflexivity | rewrite Z.testbit_0_l, andb_false_r; reflexivity].
  - destruct (f r); [rewrite Z.pow2_bits_false by lia; reflexivity | rewrite Z.testbit_0_l; reflexivity].
Qed.

Lemma unot_testbit w x i : 0 <= i < w -> Z.testbit (unot w x) i = negb (Z.testbit x i).
Proof. intros H. unfold unot. rewrite Z.lxor_spec, Z.ones_spec_low by lia. apply xorb_true_r. Qed.

Lemma pool_minus mask : Z.land kGprScratchMask (unot 32 mask) = bits_of kGprScratchPool (fun r => negb (Z.testbit mask r)).
Proof.
  apply Z.bits_inj'. intros i Hi. rewrite Z.land_spec, bits_of_test.
  - destruct (Z_lt_le_dec i 32).
    + f_equal.
      * assert (In i (map Z.of_nat (seq 0 32))) by (replace i with (Z.of_nat (Z.to_nat i)) by lia; apply in_map, in_seq; lia).
        cbn [seq map In] in H. repeat (destruct H as [<-|H]; [reflexivity|]). destruct H.
      * apply unot_testbit; lia.
    + replace (Z.testbit kGprScratchMask i) with false; [|symmetry; apply (GuestProps.high_bit _ 32); [unfold kGprScratchMask|]; lia].
      replace (existsb (Z.eqb i) kGprScratchPool) with false; [reflexivity|]. symmetry. cbn [kGprScratchPool existsb].
      repeat match goal with |- context [i =? ?k] => destruct (Z.eqb_spec i k); [lia|] end. reflexivity.
  - exact Hi.
  - intros r Hr. cbn in Hr. lia.
Qed.

(** The pool's registers not in a mask, counted. *)
Lemma popcount_minus mask :
  popcount (Z.land kGprScratchMask (unot 32 mask)) = Z.of_nat (length (filter (fun r => negb (Z.testbit mask r)) kGprScratchPool)).
Proof.
  rewrite pool_minus. unfold kGprScratchPool. cbn [filter bits_of fold_right].
  repeat match goal with |- context [Z.testbit mask ?r] => destruct (Z.testbit mask r) end; vm_compute; reflexivity.
Qed.

Lemma reg_bit_test a r : 0 <= r < 32 -> Z.testbit (reg_bit a) r = true -> r = a.
Proof.
  intros Hr H. unfold reg_bit in H. rewrite wrap_testbit in H by lia.
  apply andb_true_iff in H as [_ H]. destruct (Z_lt_le_dec a 0).
  - rewrite Z.shiftl_spec, Z.bits_above_log2 in H by (cbn; lia). discriminate.
  - rewrite Z.shiftl_1_l, Z.pow2_bits_eqb in H by lia. apply Z.eqb_eq in H. auto.
Qed.

(** Three pinned registers leave five. *)
Lemma three_pins a b c mask :
  (forall r, 0 <= r < 32 -> Z.testbit mask r = true -> r = a \/ r = b \/ r = c) ->
  5 <= popcount (Z.land kGprScratchMask (unot 32 mask)).
Proof.
  intros H. rewrite popcount_minus.
  assert (Hl : (length (filter (fun r => negb (Z.testbit mask r)) kGprScratchPool) +
                length (filter (Z.testbit mask) kGprScratchPool) = 8)%nat).
  { change 8%nat with (length kGprScratchPool). generalize kGprScratchPool. induction l as [|r l IH]; [reflexivity|].
    cbn [filter]. destruct (Z.testbit mask r); cbn [negb length]; lia. }
  assert (Hin : incl (filter (Z.testbit mask) kGprScratchPool) [a; b; c]).
  { intros r Hr. apply filter_In in Hr as [Hr Ht]. assert (0 <= r < 32) by (cbn in Hr; lia).
    specialize (H r ltac:(lia) Ht). cbn. intuition. }
  apply NoDup_incl_length in Hin; [cbn [length] in Hin; lia|]. apply NoDup_filter. repeat constructor; cbn; lia.
Qed.

Lemma pinned_fixed c : carried_any c = false -> 5 <= popcount (Z.land kGprScratchMask (unot 32 (pinned_mask c))).
Proof.
  intros Hc. apply (three_pins (base_gpr c) (top_gpr c) (st_base_gpr c)). intros r Hr H. unfold pinned_mask, add_carried in H.
  unfold carried_any in Hc. apply orb_false_iff in Hc as [H1 H2]. rewrite H2 in H.
  assert (E : forall l m, existsb (fun b => 0 <=? c_gpr b) l = false ->
            fold_left (fun m b => if 0 <=? c_gpr b then Z.lor m (reg_bit (c_gpr b)) else m) l m = m).
  { induction l as [|x l IH]; intros m E; [reflexivity|]. cbn [existsb] in E. apply orb_false_iff in E as [E1 E2].
    cbn [fold_left]. rewrite E1. apply IH, E2. }
  rewrite (E _ _ H1) in H. destruct (nz (gprs_valid c)); [|rewrite Z.testbit_0_l in H; discriminate].
  rewrite !Z.lor_spec in H. apply orb_true_iff in H as [H | H]; [apply orb_true_iff in H as [H|H]|];
    apply reg_bit_test in H; auto; lia.
Qed.

Lemma carried_clear_none c : carried_any (carried_clear c) = false.
Proof.
  unfold carried_any, carried_clear. cbn [with_carried carried_base carried_rc_gpr Z.leb Z.compare]. rewrite orb_false_r.
  generalize (carried_base c). induction l as [|x l IH]; [reflexivity | exact IH].
Qed.

(** Ending or going on, a tick leaves the pins of a run that goes on alone. *)
Lemma tick_pool c : popcount (Z.land kGprScratchMask (unot 32 (pinned_mask c))) <= popcount (free_pool (tick c)).
Proof.
  assert (H8 : popcount (Z.land kGprScratchMask (unot 32 (pinned_mask c))) <= 8).
  { rewrite popcount_minus. pose proof (filter_length_le (fun r => negb (Z.testbit (pinned_mask c) r)) kGprScratchPool).
    cbn [kGprScratchPool length] in *. lia. }
  unfold free_pool. destruct (active (tick c)) eqn:Ea; [|exact H8].
  assert (E : pinned_mask (tick c) = pinned_mask c); [|rewrite E; lia].
  unfold tick in *. destruct (0 <? run_remaining c); [|reflexivity].
  destruct (run_remaining (with_run c (run_remaining c - 1)) =? 0) eqn:E; [|reflexivity].
  cbn in Ea, E. unfold active in Ea. cbn in Ea. apply Z.eqb_eq in E. rewrite E in Ea. discriminate.
Qed.

(** What a bridged instruction leaves: a tick of a cache with the registers it
    needs free. *)
Lemma bridge_leaves c i need mask0 c' mask : need <= kMaxBridgeDemand ->
  bridge_instruction c i need mask0 = (c', mask) ->
  exists c2, c' = tick c2 /\ mask = free_pool (tick c2) /\ run_remaining c2 = run_remaining c /\
    need < popcount (Z.land kGprScratchMask (unot 32 (pinned_mask c2))).
Proof.
  unfold bridge_instruction, kMaxBridgeDemand. intros Hle. set (c1 := if carried_any c then _ else c).
  assert (E1 : run_remaining c1 = run_remaining c).
  { subst c1. destruct (carried_any c); [|reflexivity]. unfold carried_drop_written. destruct (_ =? 0); reflexivity. }
  clearbody c1. pose proof (pinned_fixed c1) as Hp. pose proof (pinned_fixed _ (carried_clear_none c1)) as Hq.
  cbv zeta. destruct (Z.leb_spec (popcount (Z.land kGprScratchMask (unot 32 (pinned_mask c1)))) need) as [Hh|Hh]; cbn [andb].
  - destruct (carried_any c1); unfold carried_release; intros [= <- <-].
    + exists (carried_clear c1). split; [reflexivity|]. split; [reflexivity|]. split; [exact E1 | lia].
    + specialize (Hp eq_refl). exists c1. split; [reflexivity|]. split; [reflexivity|]. split; [exact E1 | lia].
  - intros [= <- <-]. exists c1. split; [reflexivity|]. split; [reflexivity|]. split; [exact E1 | exact Hh].
Qed.

Lemma pool_scratch r : 0 <= r -> Z.testbit kGprScratchMask r = true -> scratch r = true.
Proof.
  intros Hr Hs. destruct (Z_lt_le_dec r 32) as [Hlt|Hge].
  - assert (Hin : In r (map Z.of_nat (seq 0 32))) by (replace r with (Z.of_nat (Z.to_nat r)) by lia; apply in_map, in_seq; lia).
    cbn [seq map In] in Hin. repeat (destruct Hin as [<-|Hin]; [first [reflexivity | discriminate]|]). destruct Hin.
  - rewrite (GuestProps.high_bit _ 32) in Hs; [discriminate | unfold kGprScratchMask; lia | lia].
Qed.

Lemma free_pool_scratch c r : 0 <= r -> Z.testbit (free_pool c) r = true -> scratch r = true.
Proof.
  intros Hr. unfold free_pool. destruct (active c); [rewrite Z.land_spec, andb_true_iff; intros [H _] | intros H]; exact (pool_scratch r Hr H).
Qed.

Lemma free_pool_unpinned c : active c = true -> Z.land (free_pool c) (pinned_mask c) = 0.
Proof.
  intros Ha. unfold free_pool. rewrite Ha. apply Z.bits_inj'. intros r Hr. rewrite !Z.land_spec, Z.bits_0.
  destruct (Z_lt_le_dec r 32).
  - rewrite unot_testbit by lia. destruct (Z.testbit (pinned_mask _) r); rewrite ?andb_false_r; reflexivity.
  - rewrite (GuestProps.high_bit kGprScratchMask 32) by (unfold kGprScratchMask; lia). reflexivity.
Qed.

Lemma tick_run c : active c = true -> run_remaining (tick c) = run_remaining c - 1.
Proof. unfold active, tick. intros ->. cbv zeta. destruct (_ =? 0); reflexivity. Qed.

(** C28: a bridged instruction is translated by Rosetta from a pool that has
    at least one register more than the instruction's demand, whatever the
    cache has pinned and carried: the instruction is one the model admits, its
    demand is at most four, no pinned register is in the pool, and the run
    goes on with one instruction less. *)
Theorem bridge_keeps_headroom run_bridge c i free_gpr_mask c' mask :
  hand_back run_bridge c i free_gpr_mask = (c', mask, true) ->
  exists need, gap_gpr_demand i = Some need /\ need <= kMaxBridgeDemand /\ need < popcount mask /\
    (active c' = true -> Z.land mask (pinned_mask c') = 0) /\ 
    (forall r, 0 <= r -> Z.testbit mask r = true -> scratch r = true) /\
    run_remaining c' = run_remaining c - 1.
Proof.
  unfold hand_back, bridge_need. destruct (active c && run_bridge) eqn:Ea; [|discriminate]. apply andb_true_iff in Ea as [Ea _].
  destruct (gap_gpr_demand i) as [need|]; [|discriminate].
  destruct (Z.leb_spec need kMaxBridgeDemand) as [Hle|]; [|discriminate].
  destruct (bridge_instruction c i need free_gpr_mask) as [c1 m1] eqn:Eb. intros [= -> ->].
  destruct (bridge_leaves c i need free_gpr_mask c' mask Hle Eb) as (c2 & -> & -> & Er & Hn). pose proof (tick_pool c2).
  assert (Ha : active c2 = true) by (unfold active in *; rewrite Er; exact Ea).
  exists need. split; [reflexivity|]. split; [exact Hle|]. split; [lia|]. split; [apply free_pool_unpinned|].
  split; [apply free_pool_scratch|]. rewrite (tick_run c2 Ha), Er. reflexivity.
Qed.

(** The second instruction of a run, with every register but one pinned or
    carried: the carried ones are released. *)
Lemma bridge_keeps_headroom_witness :
  let c := with_carried (with_run (with_gprs X87Cache_init 22 23 28 1) 3)
             [mkCarried IROperandSize.S64 1 0x40 0 0 24; mkCarried IROperandSize.S64 1 0x43 0 0 25] 26 in
  let j := mkInstr kOpcodeName.test 2 [mkOperand IROperandKind.Immediate 2 3 0 0 0 0 0 8; mkOperand IROperandKind.Immediate 2 3 0 0 0 0 0 8] in
  hand_back true c j 0 = (tick (carried_clear c), 0x2F000000, true) /\
  exists need, gap_gpr_demand j = Some need /\ need <= 4 /\ need < popcount 0x2F000000 /\
    (active (tick (carried_clear c)) = true -> Z.land 0x2F000000 (pinned_mask (tick (carried_clear c))) = 0) /\
    (forall r, 0 <= r -> Z.testbit 0x2F000000 r = true -> scratch r = true) /\
    run_remaining (tick (carried_clear c)) = 2.
Proof.
  intros c j. assert (E : hand_back true c j 0 = (tick (carried_clear c), 0x2F000000, true)) by (vm_compute; reflexivity).
  split; [exact E | exact (bridge_keeps_headroom true c j 0 _ _ E)].
Defined.

(** ** The registers a bridged instruction writes *)

(** The general registers the architecture says an instruction of an audited
    family writes. *)
Definition reg_dst (o : IROperand) : list Z :=
  if (kind o =? IROperandKind.Register) && is_gpr (reg o) then [index (reg o)] else [].

Definition x86_written (i : IRInstr) : list Z :=
  let op := opcode i in
  let among ops := existsb (Z.eqb op) ops in
  let dst n := if Z.of_nat n <? num_operands i then reg_dst (operand i n) else [] in
  if among [kOpcodeName.nop; kOpcodeName.wait; kOpcodeName.cmp; kOpcodeName.test] then []
  else if among [kOpcodeName.cbw; kOpcodeName.cwde; kOpcodeName.cdqe] then [0]
  else if among [kOpcodeName.cwd; kOpcodeName.cdq; kOpcodeName.cqo] then [2]
  else if (op =? kOpcodeName.mul) || ((op =? kOpcodeName.imul) && (num_operands i <=? 1)) then [0; 2]
  else if among [kOpcodeName.push; kOpcodeName.pushd; kOpcodeName.pushw] then [4]
  else if among [kOpcodeName.pop; kOpcodeName.popd; kOpcodeName.popw] then 4 :: dst 0%nat
  else if among [kOpcodeName.setcc; kOpcodeName.cmovcc] then dst 1%nat
  else dst 0%nat.

(** The admitted opcodes whose destination the mask does not see. *)
Definition blind : list Z :=
  [kOpcodeName.setcc; kOpcodeName.cmovcc; kOpcodeName.cqo; kOpcodeName.pushw; kOpcodeName.popw].

Lemma explicit_dst i mask r : In r (if 0 <? num_operands i then reg_dst (operand i 0) else []) ->
  Z.testbit (if (1 <=? num_operands i) && (kind (operand i 0) =? IROperandKind.Register) && is_gpr (reg (operand i 0))
             then Z.lor mask (Z.shiftl 1 (index (reg (operand i 0)))) else mask) r = true.
Proof.
  unfold reg_dst. pose proof (index_range (reg (operand i 0))).
  destruct (Z.ltb_spec 0 (num_operands i)); [|contradiction]. replace (1 <=? num_operands i) with true by (symmetry; apply Z.leb_le; lia).
  destruct (_ =? _), (is_gpr _); cbn [andb]; try contradiction. intros [<- | []].
  rewrite Z.lor_spec, Z.shiftl_1_l, Z.pow2_bits_true by lia. apply orb_true_r.
Qed.

Lemma explicit_keeps i mask r : Z.testbit mask r = true ->
  Z.testbit (if (1 <=? num_operands i) && (kind (operand i 0) =? IROperandKind.Register) && is_gpr (reg (operand i 0))
             then Z.lor mask (Z.shiftl 1 (index (reg (operand i 0)))) else mask) r = true.
Proof. intros H. destruct (_ && _ && _); [rewrite Z.lor_spec, H; reflexivity | exact H]. Qed.

(** An opcode with a family is one of the bounds' table. *)
Lemma family_listed op d : family op = Some d -> In op (concat (map fst max_demands)).
Proof.
  intros H. destruct (family_bound op d H) as (ops & m & Hm & Ho & _).
  apply in_concat. exists ops. split; [exact (in_map fst _ _ Hm) | exact Ho].
Qed.

Lemma written_covered i d r : gap_gpr_demand i = Some d -> ~ In (opcode i) blind -> In r (x86_written i) ->
  Z.testbit (gap_written_gpr_mask i) r = true.
Proof.
  intros Hd Hb Hr. destruct (gap_demand_family i d Hd) as (f & Hf & _). apply family_listed in Hf.
  unfold x86_written, gap_written_gpr_mask in *. cbv zeta in *. generalize dependent (opcode i). intros op Hb Hr Hf.
  cbn [max_demands map fst concat app In] in Hf.
  repeat (destruct Hf as [<-|Hf]; [try (exfalso; apply Hb; cbn; tauto)|]); try contradiction; clear Hb;
    cbn -[index is_gpr operand Z.ltb Z.leb Z.land Z.lor Z.shiftl reg_dst Z.testbit] in Hr |- *;
    try contradiction; try exact (explicit_dst i 0 r Hr).
  all: try solve [repeat destruct Hr as [<-|Hr]; try contradiction; reflexivity].
  all: try solve [destruct Hr as [<-|Hr]; [apply explicit_keeps; reflexivity | first [contradiction | exact (explicit_dst i _ r Hr)]]].
  destruct (num_operands i <=? 1); [|exact (explicit_dst i 0 r Hr)].
  cbn [In] in Hr. repeat destruct Hr as [<-|Hr]; try contradiction; reflexivity.
Qed.

(** C32: the mask of written registers the cache drops carried bases by
    covers every general register an admitted instruction writes - its
    explicit destination and the implicit ones - except for SETcc, CMOVcc, CQO
    and the 16-bit PUSH and POP: for each of these five some instruction is
    admitted and a base carried in a register it writes is kept. *)
Theorem gap_written_mask_covers :
  (forall i d r, gap_gpr_demand i = Some d -> ~ In (opcode i) blind -> In r (x86_written i) ->
     Z.testbit (gap_written_gpr_mask i) r = true) /\
  (forall op, In op blind -> exists i r, opcode i = op /\ bridgeable gap_gpr_demand i = true /\ In r (x86_written i) /\
     let b := mkCarried IROperandSize.S64 1 (0x40 + r) 0 0 24 in
     let c := with_carried X87Cache_init [b; no_base] (-1) in
     In b (carried_base (carried_drop_written c (gap_written_gpr_mask i)))).
Proof.
  split; [exact written_covered|].
  intros op H. cbn [blind In] in H.
  set (al := mkOperand IROperandKind.Register IROperandSize.S8 0 0 0 0 0 0 0).
  set (cc := mkOperand IROperandKind.ConditionCode 4 0 0 0 0 0 0 0).
  repeat destruct H as [<-|H]; try contradiction.
  - exists (mkInstr kOpcodeName.setcc 2 [cc; al]), 0. repeat split; cbn; tauto.
  - exists (mkInstr kOpcodeName.cmovcc 3 [cc; al; al]), 0. repeat split; cbn; tauto.
  - exists (mkInstr kOpcodeName.cqo 0 []), 2. repeat split; cbn; tauto.
  - exists (mkInstr kOpcodeName.pushw 1 [al]), 4. repeat split; cbn; tauto.
  - exists (mkInstr kOpcodeName.popw 1 [al]), 4. repeat split; cbn; tauto.
Qed.

(** C33: a base carried across an admitted guest instruction other than SETcc,
    CMOVcc, CQO and the 16-bit PUSH and POP still holds the address it was
    computed for: the instruction changing no general register but those it
    writes, every entry [carried_drop_written] keeps was carried before and
    names the same address after the instruction as before it. *)
Theorem carried_bases_survive segbase (r r' : Z -> Z) i d c b :
  gap_gpr_demand i = Some d -> ~ In (opcode i) blind -> (forall x, ~ In x (x86_written i) -> r' x = r x) ->
  In b (carried_base (carried_drop_written c (gap_written_gpr_mask i))) -> 0 <= c_gpr b ->
  In b (carried_base c) /\ addr segbase r' (base_operand b) = addr segbase r (base_operand b).
Proof.
  intros Hd Hb Hr. apply kept_base_addr. intros x Hx. apply Hr. intros Hin.
  rewrite (written_covered i d x Hd Hb Hin) in Hx. discriminate.
Qed.

Lemma carried_bases_survive_witness :
  let i := mkInstr kOpcodeName.mul 1 [mkOperand IROperandKind.Register IROperandSize.S32 0x23 0 0 0 0 0 0] in
  let kept := mkCarried IROperandSize.S32 1 5 0 0 22 in
  let c := with_carried X87Cache_init [kept; mkCarried IROperandSize.S32 1 2 0 0 23] (-1) in
  let r := fun x => 100 * x in let r' := set_reg (set_reg r 0 7) 2 8 in
  carried_base (carried_drop_written c (gap_written_gpr_mask i)) = [kept; mkCarried IROperandSize.S32 1 2 0 0 (-1)] /\
  addr (fun _ => 0) r' (base_operand kept) = addr (fun _ => 0) r (base_operand kept).
Proof.
  intros i kept c r r'. split; [reflexivity|].
  assert (Hd : exists d, gap_gpr_demand i = Some d) by (eexists; reflexivity). destruct Hd as [d Hd].
  apply (carried_bases_survive (fun _ => 0) r r' i d c kept); [exact Hd | cbn; intuition discriminate | | left; reflexivity | cbn; lia].
  intros x Hx. unfold r', set_reg. cbn in Hx. destruct (Z.eqb_spec x 2), (Z.eqb_spec x 0); (reflexivity || (exfalso; apply Hx; auto)).
Defined.

(** ** The run an instruction starts *)

Lemma admitted_apart keepalive disabled i :
  bridgeable gap_gpr_demand i = true -> run_member disabled keepalive (opcode i) = false.
Proof.
  unfold bridgeable. destruct (gap_gpr_demand i) as [d|] eqn:Ed; [|discriminate]. intros _.
  destruct (gap_demand_family i d Ed) as (f & Hf & _). apply family_listed in Hf.
  assert (E : forallb (fun op => negb (is_handled_x87 op) && match runtime_keepalive_top_delta op with Some _ => false | None => true end)
                (concat (map fst max_demands)) = true) by (vm_compute; reflexivity).
  rewrite forallb_forall in E. specialize (E _ Hf). apply andb_true_iff in E as [E1 E2]. apply negb_true_iff in E1.
  unfold run_member. rewrite E1. destruct (runtime_keepalive_top_delta _); [discriminate | apply andb_false_r].
Qed.

(** C27: The lookahead always answers, and its answer is the length of the
  longest run at [insn_idx]: groups of enabled x87 instructions (and
  keep-alive calls) with at most sixteen instructions the demand model admits
  between two groups, the last group ending the run. *)
Theorem lookahead_longest disabled bridge keepalive (instr_array : list IRInstr) (insn_idx : nat) :
  exists n, lookahead gap_gpr_demand disabled bridge keepalive instr_array insn_idx = Some (Z.of_nat n) /\
            longest_run gap_gpr_demand disabled bridge keepalive (skipn insn_idx instr_array) n.
Proof. apply lookahead_spec. intros i H. exact (admitted_apart keepalive disabled i H). Qed.

Example lookahead_bridges :
  lookahead gap_gpr_demand 0 true false
    (map (fun o => mkInstr o 0 []) [kOpcodeName.nop; kOpcodeName.fld1; kOpcodeName.nop; kOpcodeName.cdq; kOpcodeName.fchs; kOpcodeName.nop]) 1 = Some 4.
Proof. vm_compute. reflexivity. Qed.

(** ** The switch and the run agree on what is translated *)

Lemma translated_opcode op : In op (kOpcodeName.arpl :: handled_opcodes) \/
  forall k, In k (kOpcodeName.arpl :: handled_opcodes) -> (op =? k) = false.
Proof.
  destruct (in_dec Z.eq_dec op (kOpcodeName.arpl :: handled_opcodes)) as [H|H]; [left; exact H | right].
  intros k Hk. apply Z.eqb_neq. intros ->. exact (H Hk).
Qed.

(** C36: The switch of the translator has a case for an instruction exactly
    when the lookahead and the cache take its opcode for one, and for ARPL. *)
Theorem handled_is_translated cfg tgt disable_deferred_fxch c i :
  match translate_single cfg tgt disable_deferred_fxch c i with Some _ => true | None => false end =
  is_handled (opcode i) || (opcode i =? kOpcodeName.arpl).
Proof.
  unfold translate_single. destruct (translated_opcode (opcode i)) as [Hin | Hout].
  - repeat (destruct Hin as [<- | Hin]; [reflexivity|]). destruct Hin.
  - cbv zeta. unfold among, is_handled, is_handled_x87, handled_opcodes. cbn [existsb].
    rewrite !Hout by (vm_compute; tauto). reflexivity.
Qed.
