(* ===== verification/CacheView.v ===== *)
(** The x87 state behind the translator's deferred updates: what the register
    file, the tags and TOP in memory stand for when the cache holds a pending
    permutation, pushes and pops, and that each update written or deferred
    keeps it. *)

From S2P Require Import Prelude X87State X87Props F64 GuestMem Fpu IROperand A64Exec X87Memory X87HelpersProps X87Cache.
From S2P Require Import LowerRel LowerEpilogue TranslatorX87Internal.

(** ** Values through the permutation *)

(** The register file with ST(d) of TOP [T] holding what ST(p d) held. *)
Definition moved (T : Z) (p l : list Z) : list Z :=
  map (fun i => zget l (Z.land (T + zget p (Z.land (i - T) 7)) 7)) [0; 1; 2; 3; 4; 5; 6; 7].

Definition view (c : X87Cache) (T : Z) (x : X87State) : X87State :=
  if nz (perm_dirty c) then with_st x (moved T (perm c) (X87State.st x)) else x.

Record is_perm (p : list Z) : Prop := mkIsPerm {
  pm_range : forall d, 0 <= d < 8 -> 0 <= zget p d < 8;
  pm_inj : forall d d', 0 <= d < 8 -> 0 <= d' < 8 -> zget p d = zget p d' -> d = d'
}.

Lemma depth_back T d : 0 <= d < 8 -> Z.land (Z.land (T + d) 7 - T) 7 = d.
Proof. intros Hd. rewrite !land7_mod, Zminus_mod_idemp_l. replace (T + d - T) with d by lia. apply Z.mod_small, Hd. Qed.

Lemma moved_at T p l d : 0 <= d < 8 -> zget (moved T p l) (Z.land (T + d) 7) = zget l (Z.land (T + zget p d) 7).
Proof.
  intros Hd. pose proof (land7_range (T + d)) as Hr. rewrite <- (depth_back T d Hd) at 2. revert Hr. generalize (Z.land (T + d) 7).
  intros i Hi. unfold moved. assert (In i [0; 1; 2; 3; 4; 5; 6; 7]) as H by (cbn; lia).
  cbn in H. repeat destruct H as [<- | H]; try reflexivity. destruct H.
Qed.

Lemma depth_inj T d d' : 0 <= d < 8 -> 0 <= d' < 8 -> Z.land (T + d) 7 = Z.land (T + d') 7 -> d = d'.
Proof. intros Hd Hd' E. rewrite <- (depth_back T d Hd), <- (depth_back T d' Hd'), E. reflexivity. Qed.

(** Every register is some depth. *)
Lemma depth_of T i : 0 <= i < 8 -> exists d, 0 <= d < 8 /\ i = Z.land (T + d) 7.
Proof.
  intros Hi. exists (Z.land (i - T) 7). split; [apply land7_range|].
  rewrite !land7_mod, Z.add_mod_idemp_r by lia. replace (T + (i - T)) with i by lia. symmetry. apply Z.mod_small, Hi.
Qed.

Lemma view_tag c T x : tagWord (view c T x) = tagWord x.
Proof. unfold view. destruct (nz _); reflexivity. Qed.

Lemma nonempty_tag x y i : tagWord x = tagWord y -> nonempty x i = nonempty y i.
Proof. unfold nonempty, tag_at. intros ->. reflexivity. Qed.

Lemma occupied_tag x y T P Q d : tagWord x = tagWord y -> occupied x T P Q d = occupied y T P Q d.
Proof. intros E. unfold occupied. rewrite (nonempty_tag _ _ _ E). reflexivity. Qed.

(** ST(d) as the translators address it. *)
Lemma view_at c T x d : 0 <= d < 8 ->
  zget (X87State.st (view c T x)) (Z.land (T + d) 7) = zget (X87State.st x) (Z.land (T + resolve_depth c d) 7).
Proof. intros Hd. unfold view, resolve_depth. destruct (nz (perm_dirty c)); [apply moved_at, Hd | reflexivity]. Qed.

Lemma resolve_range c d : (nz (perm_dirty c) = true -> is_perm (perm c)) -> 0 <= d < 8 -> 0 <= resolve_depth c d < 8.
Proof. intros Hp Hd. unfold resolve_depth. destruct (nz (perm_dirty c)); [apply Hp; auto | exact Hd]. Qed.

Lemma resolve_inj c d d' : (nz (perm_dirty c) = true -> is_perm (perm c)) -> 0 <= d < 8 -> 0 <= d' < 8 ->
  resolve_depth c d = resolve_depth c d' -> d = d'.
Proof. intros Hp Hd Hd'. unfold resolve_depth. destruct (nz (perm_dirty c)); [apply Hp; auto | auto]. Qed.

(** ** The stack an x87 state holds *)

Lemma holds_tags x y T P Q l : X87State.st x = X87State.st y -> tagWord x = tagWord y -> holds x T P Q l -> holds y T P Q l.
Proof.
  intros Es Et H d Hd. specialize (H d Hd). rewrite (occupied_tag y x) by congruence. rewrite <- Es. exact H.
Qed.

Lemma nth_list_set {A} (l : list A) k v n d :
  nth k (list_set l n v) d = if (k =? n)%nat && (n <? length l)%nat then v else nth k l d.
Proof.
  revert k n. induction l as [|x l IH]; intros k n.
  - cbn [list_set]. destruct n; rewrite andb_false_r; reflexivity.
  - destruct n as [|n], k as [|k]; cbn [list_set nth length Nat.eqb]; try reflexivity. rewrite IH. reflexivity.
Qed.

(** A new value in a register in use. *)
Lemma holds_set c x T P Q l d v u :
  (nz (perm_dirty c) = true -> is_perm (perm c)) -> length (X87State.st x) = 8%nat ->
  0 <= d < 8 -> nth (Z.to_nat d) l None = Some u -> holds (view c T x) T P Q l ->
  holds (view c T (with_st x (zset (X87State.st x) (Z.land (T + resolve_depth c d) 7) v))) T P Q (list_set l (Z.to_nat d) (Some v)).
Proof.
  intros Hp Hlen Hd Hn H k Hk. specialize (H k Hk).
  rewrite (occupied_tag _ (view c T x)) by (rewrite !view_tag; reflexivity).
  rewrite view_at by exact Hk. rewrite view_at in H by exact Hk. cbn [X87State.st with_st].
  rewrite nth_list_set. pose proof (resolve_range c d Hp Hd) as Hrd. pose proof (resolve_range c k Hp Hk) as Hrk.
  destruct (Z.eq_dec k d) as [-> | Hne].
  - rewrite Nat.eqb_refl. replace (Z.to_nat d <? length l)%nat with true.
    + cbn [andb]. rewrite Hn in H. split; [apply H|]. apply zget_zset_eq. pose proof (land7_range (T + resolve_depth c d)). lia.
    + symmetry. apply Nat.ltb_lt. destruct (Nat.lt_ge_cases (Z.to_nat d) (length l)) as [L|L]; [exact L|].
      rewrite nth_overflow in Hn by exact L. discriminate.
  - replace (Z.to_nat k =? Z.to_nat d)%nat with false by (symmetry; apply Nat.eqb_neq; lia). cbn [andb].
    rewrite zget_zset_ne; [exact H | pose proof (land7_range (T + resolve_depth c d)); lia | apply land7_range|].
    intros E. apply Hne, (resolve_inj c k d Hp Hk Hd), (depth_inj T); auto.
Qed.

(** ** The deferred updates *)

#[local] Abbreviation pushes := deferred_push_count.
#[local] Abbreviation pops := deferred_pop_count.

Lemma occupied_shift x T P Q d T' P' Q' : T' = (T + 1) mod 8 -> 0 <= d < 7 -> P' = P - 1 \/ P = 0 /\ P' = 0 ->
  Q' = Q + 1 \/ Q = 0 /\ Q' = 0 -> occupied x T' P' Q' d = occupied x T P Q (d + 1).
Proof.
  intros -> Hd HP HQ. unfold occupied. replace (Z.land ((T + 1) mod 8 + d) 7) with (Z.land (T + (d + 1)) 7).
  2:{ rewrite !land7_mod, Z.add_mod_idemp_l by lia. f_equal. lia. }
  replace (d <? P') with (d + 1 <? P) by (apply eq_true_iff_eq; rewrite !Z.ltb_lt; lia).
  destruct (d + 1 <? P); [reflexivity|].
  replace (8 - Q' <=? d) with (8 - Q <=? d + 1) by (apply eq_true_iff_eq; rewrite !Z.leb_le; lia). reflexivity.
Qed.

Lemma nth_popped {A} (l : list (option A)) n : nth n (tl l ++ [None]) None = nth (S n) l None.
Proof.
  destruct l as [|x l]; cbn [tl nth app]; [destruct n as [|[|n]]; reflexivity|].
  destruct (Nat.lt_ge_cases n (length l)) as [L|L]; [apply app_nth1, L|].
  rewrite app_nth2 by exact L. rewrite (nth_overflow l) by exact L. destruct (n - length l)%nat as [|[|k]]; reflexivity.
Qed.

(** POP: the register at depth 0 goes to depth 7, empty. *)
Lemma holds_pop x T P Q l T' P' Q' : length l = 8%nat -> T' = (T + 1) mod 8 ->
  (0 < P /\ P' = P - 1 /\ Q' = Q) \/ (P = 0 /\ P' = 0 /\ Q' = Q + 1) ->
  0 <= P <= 8 -> 0 <= Q < 8 -> (0 < P -> nonempty x (Z.land T 7) = false) -> (P = 0 \/ Q = 0) ->
  holds x T P Q l -> holds x T' P' Q' (tl l ++ [None]).
Proof.
  intros Hl ET H1 HP HQ Hfr Hone H d Hd. rewrite nth_popped. destruct (Z.eq_dec d 7) as [-> | Hne].
  - rewrite nth_overflow by (rewrite Hl; cbn; lia). unfold occupied.
    replace (7 <? P') with false by (symmetry; apply Z.ltb_ge; lia).
    destruct (Z.leb_spec (8 - Q') 7); [reflexivity|]. rewrite ET.
    replace (Z.land ((T + 1) mod 8 + 7) 7) with (Z.land T 7); [apply Hfr; lia|].
    rewrite !land7_mod, Z.add_mod_idemp_l by lia. replace (T + 1 + 7) with (T + 1 * 8) by lia. symmetry. apply Z.mod_add. lia.
  - specialize (H (d + 1) ltac:(lia)). replace (Z.to_nat (d + 1)) with (S (Z.to_nat d)) in H by lia.
    rewrite (occupied_shift x T P Q d T' P' Q') by (auto; lia).
    replace (Z.land (T' + d) 7) with (Z.land (T + (d + 1)) 7); [exact H|].
    rewrite ET, !land7_mod, Z.add_mod_idemp_l by lia. f_equal. lia.
Qed.

(** PUSH: a register below TOP becomes depth 0; what was at depth 7 is lost. *)
Lemma holds_push x T P Q l T' v : T' = (T - 1) mod 8 -> Q = 0 -> 0 <= P < 8 -> length (X87State.st x) = 8%nat ->
  holds x T P Q l -> holds (with_st x (zset (X87State.st x) (Z.land T' 7) v)) T' (P + 1) Q (Some v :: firstn 7 l).
Proof.
  intros ET -> HP Hlen H d Hd. pose proof (land7_range T') as Hr.
  rewrite (occupied_tag _ x) by reflexivity. cbn [X87State.st with_st].
  assert (HT' : 0 <= T' < 8) by (rewrite ET; apply Z.mod_pos_bound; lia).
  destruct (Z.eq_dec d 0) as [-> | Hne].
  - rewrite Z.add_0_r. cbn [Z.to_nat nth]. split; [|apply zget_zset_eq; lia].
    unfold occupied. replace (0 <? P + 1) with true by (symmetry; apply Z.ltb_lt; lia). reflexivity.
  - specialize (H (d - 1) ltac:(lia)). replace (Z.to_nat d) with (S (Z.to_nat (d - 1))) by lia. cbn [nth].
    rewrite nth_firstn. replace (Z.to_nat (d - 1) <? 7)%nat with true by (symmetry; apply Nat.ltb_lt; lia).
    assert (Ep : Z.land (T' + d) 7 = Z.land (T + (d - 1)) 7).
    { rewrite !land7_mod, ET, Z.add_mod_idemp_l by lia. f_equal. lia. }
    rewrite Ep, zget_zset_ne; [| rewrite <- ?Ep; lia | apply land7_range |].
    + replace (occupied x T' (P + 1) 0 d) with (occupied x T P 0 (d - 1)); [exact H|].
      unfold occupied. rewrite Ep. replace (d <? P + 1) with (d - 1 <? P) by (apply eq_true_iff_eq; rewrite !Z.ltb_lt; lia).
      replace (8 - 0 <=? d) with false by (symmetry; apply Z.leb_gt; lia).
      replace (8 - 0 <=? d - 1) with false by (symmetry; apply Z.leb_gt; lia). reflexivity.
    + rewrite <- Ep, <- (Z.add_0_r T') at 1. intros E. apply depth_inj in E; lia.
Qed.

(** The tags of pending pushes, or pops, written. *)
Lemma holds_flush_pushes x T P Q l : 0 <= P <= 8 -> 0 <= Q <= 8 -> P = 0 \/ Q = 0 ->
  holds x T P Q l -> holds (mark false x (phys T 0 (Z.to_nat P))) T 0 Q l.
Proof.
  intros HP HQ Hone H d Hd. specialize (H d Hd).
  replace (occupied (mark false x _) T 0 Q d) with (occupied x T P Q d); [exact H|].
  unfold occupied. rewrite nonempty_mark, phys_depth by (auto using phys_range, land7_range).
  replace (d <? 0) with false by (symmetry; apply Z.ltb_ge; lia).
  destruct (Z.ltb_spec d P); [|reflexivity]. destruct (Z.leb_spec (8 - Q) d); [lia | reflexivity].
Qed.

Lemma holds_flush_pops x T P Q l : 0 <= P <= 8 -> 0 <= Q <= 8 ->
  holds x T P Q l -> holds (mark true x (below T Q (Z.to_nat Q))) T P 0 l.
Proof.
  intros HP HQ H d Hd. specialize (H d Hd).
  replace (occupied (mark true x _) T P 0 d) with (occupied x T P Q d); [exact H|].
  unfold occupied. rewrite nonempty_mark, below_depth by (auto using below_range, land7_range).
  destruct (d <? P); [reflexivity|]. replace (8 - 0 <=? d) with false by (symmetry; apply Z.leb_gt; lia).
  destruct (8 - Q <=? d); reflexivity.
Qed.

(** ** What the stack stands for under a cache *)

Record perm_ok (c : X87Cache) : Prop := mkPermOk {
  po_length : length (perm c) = 8%nat;
  po_perm : is_perm (perm c);
  po_identity : nz (perm_dirty c) = false -> perm c = identity_perm
}.

Lemma identity_ok : is_perm identity_perm.
Proof.
  assert (E : forall d, 0 <= d < 8 -> zget identity_perm d = d).
  { intros d Hd. assert (In d identity_perm) as H by (cbn; lia). cbn in H. repeat destruct H as [<- | H]; try reflexivity. destruct H. }
  split; intros; rewrite ?E in *; auto.
Qed.

Lemma resolve_perm c d : perm_ok c -> 0 <= d < 8 -> resolve_depth c d = zget (perm c) d.
Proof.
  intros [_ _ Hi] Hd. unfold resolve_depth. destruct (nz (perm_dirty c)); [reflexivity|]. rewrite Hi by reflexivity.
  assert (In d identity_perm) as H by (cbn; lia). cbn in H. repeat destruct H as [<- | H]; try reflexivity. destruct H.
Qed.

(** Below the cache [c], TOP being [T], the x87 state [x] holds the stack [l]:
    memory's TOP is current, or the one from before the pending pushes. *)
Record stacked (c : X87Cache) (l : list (option Z)) (T : Z) (x : X87State) : Prop := mkStacked {
  sk_top : 0 <= T < 8;
  sk_len : length l = 8%nat;
  sk_st : length (X87State.st x) = 8%nat;
  sk_stack : holds (view c T x) T (pushes c) (pops c) l;
  sk_defer : deferred_ok x T (pushes c) (pops c);
  sk_perm : perm_ok c;
  sk_clean : nz (top_dirty c) = false -> topIndex x = T;
  sk_base : nz (top_dirty c) = true -> 0 < pushes c -> topIndex x = (T + pushes c) mod 8;
  sk_idle : run_remaining c <= 0 -> pushes c = 0 /\ pops c = 0 /\ nz (top_dirty c) = false /\ nz (perm_dirty c) = false
}.

Lemma topIndex_sw x y : statusWord x = statusWord y -> topIndex x = topIndex y.
Proof. unfold topIndex. intros ->. reflexivity. Qed.

(** Same tags, same registers. *)
Lemma deferred_tag x y T P Q : tagWord x = tagWord y -> deferred_ok x T P Q -> deferred_ok y T P Q.
Proof. intros E []. constructor; auto. intros d Hd. rewrite <- (nonempty_tag x y _ E). auto. Qed.

Lemma holds_view c c' T x y P Q l : perm_dirty c' = perm_dirty c -> perm c' = perm c ->
  X87State.st x = X87State.st y -> tagWord x = tagWord y -> holds (view c T x) T P Q l -> holds (view c' T y) T P Q l.
Proof.
  intros Ed Ep Es Et. apply holds_tags.
  - unfold view. rewrite Ed, Ep. destruct (nz _); cbn [X87State.st with_st]; congruence.
  - rewrite !view_tag. exact Et.
Qed.

Lemma perm_deferred c d p q : perm_ok c -> perm_ok (with_deferred c d p q).
Proof. intros []. split; assumption. Qed.
#[local] Hint Resolve perm_deferred : core.

Lemma stacked_top c l T x : stacked c l T x -> stacked (with_deferred c 0 (pushes c) (pops c)) l T (with_top x T).
Proof.
  intros []. constructor; auto.
  - eapply holds_view; [| | | | exact sk_stack0]; reflexivity.
  - eapply deferred_tag; [|exact sk_defer0]; reflexivity.
  - intros _. apply topIndex_with_top, sk_top0.
  - discriminate.
  - intros H. destruct (sk_idle0 H) as (? & ? & _ & ?). auto.
Qed.

Lemma stacked_pops c l T x : stacked c l T x -> 0 < pops c ->
  stacked (with_deferred c (top_dirty c) (pushes c) 0) l T (mark true x (below T (pops c) (Z.to_nat (pops c)))).
Proof.
  intros [] Hq. destruct sk_defer0 as [HP HQ Hone Hfr]. constructor; auto.
  - eapply holds_tags; [| |apply (holds_flush_pops (view c T x) T (pushes c) (pops c)); [exact HP | exact HQ | exact sk_stack0]];
      unfold view; cbn [with_deferred perm_dirty perm]; destruct (nz (perm_dirty c)); reflexivity.
  - constructor; cbn [with_deferred deferred_push_count deferred_pop_count]; try lia. 
  - intros H. destruct (sk_idle0 H) as (? & ? & ?). lia.
Qed.

Lemma stacked_pushes c l T x : stacked c l T x ->
  stacked (with_deferred c (top_dirty c) 0 (pops c)) l T (mark false x (phys T 0 (Z.to_nat (pushes c)))).
Proof.
  intros []. destruct sk_defer0 as [HP HQ Hone Hfr]. constructor; auto.
  - eapply holds_tags; [| |apply (holds_flush_pushes (view c T x) T (pushes c) (pops c)); [exact HP | exact HQ | exact Hone | exact sk_stack0]];
      unfold view; cbn [with_deferred perm_dirty perm]; destruct (nz (perm_dirty c)); reflexivity.
  - constructor; cbn [with_deferred deferred_push_count deferred_pop_count]; try lia.
  - cbn [with_deferred deferred_push_count]. lia.
  - intros H. destruct (sk_idle0 H) as (? & ? & ?). cbn [with_deferred deferred_push_count deferred_pop_count top_dirty perm_dirty]. auto.
Qed.

(** The permutation written: [l'] is the register file it gives. *)
Lemma stacked_perm c l T x l' : stacked c l T x -> nz (perm_dirty c) = true -> length l' = 8%nat ->
  (forall d, 0 <= d < 8 -> zget l' (Z.land (T + d) 7) = zget (X87State.st x) (Z.land (T + zget (perm c) d) 7)) ->
  stacked (reset_perm c) l T (with_st x l').
Proof.
  intros [] Hd Hl H. constructor; auto.
  - intros d Hr. specialize (sk_stack0 d Hr). rewrite (occupied_tag _ (view c T x)) by (rewrite !view_tag; reflexivity).
    unfold view at 1. cbn [reset_perm with_perm perm_dirty]. change (nz 0) with false. cbn [X87State.st with_st].
    rewrite view_at in sk_stack0 by exact Hr. unfold resolve_depth in sk_stack0. rewrite Hd in sk_stack0. rewrite H by exact Hr. exact sk_stack0.
  - eapply deferred_tag; [|exact sk_defer0]; reflexivity.
  - split; [reflexivity | exact identity_ok | reflexivity].
  - intros Hi. destruct (sk_idle0 Hi) as (? & ? & ? & E). congruence.
Qed.

(** FXCH deferred. *)
Lemma holds_bounds c l T x : stacked c l T x -> forall d v, 0 <= d < 8 -> nth (Z.to_nat d) l None = Some v ->
  occupied x T (pushes c) (pops c) d = true /\ zget (X87State.st x) (Z.land (T + resolve_depth c d) 7) = v.
Proof.
  intros [] d v Hd Hn. specialize (sk_stack0 d Hd). rewrite Hn, view_at in sk_stack0 by exact Hd.
  rewrite (occupied_tag (view c T x) x) in sk_stack0 by apply view_tag. exact sk_stack0.
Qed.

Lemma s8_small n : -128 <= n < 128 -> s8 n = n.
Proof. intros H. apply sgn_small; lia. Qed.

(** PUSH, its tag and TOP pending. *)
Lemma stacked_push c l T x : stacked c l T x -> 0 < run_remaining c -> nz (perm_dirty c) = false ->
  pops c = 0 -> pushes c < 8 -> (pushes c = 0 <-> nz (top_dirty c) = false) -> nth 7 l None = None ->
  let T' := (T - 1) mod 8 in
  stacked (with_deferred c 1 (s8 (pushes c + 1)) (pops c)) (Some (zget (X87State.st x) (Z.land T' 7)) :: firstn 7 l) T' x.
Proof.
  intros H Hr Hp HQ HP Hd H7 T'. pose proof H as []. destruct sk_defer0 as [HPr HQr Hone Hfr].
  assert (HT' : 0 <= T' < 8) by (apply Z.mod_pos_bound; lia).
  constructor; auto; cbn [with_deferred deferred_push_count deferred_pop_count top_dirty run_remaining perm_dirty perm];
    rewrite ?s8_small by lia.
  - cbn [length]. rewrite length_firstn, sk_len0. reflexivity.
  - pose proof (land7_range T') as Hr7. eapply holds_tags; [| |apply (holds_push x T (pushes c) (pops c) l T' (zget (X87State.st x) (Z.land T' 7)));
      [reflexivity | exact HQ | lia | exact sk_st0|]].
    + unfold view. cbn [with_deferred perm_dirty]. rewrite Hp. cbn [with_st X87State.st].
      apply (list_ext8 _ _); [rewrite zset_length; exact sk_st0 | exact sk_st0|]. intros i Hi.
      destruct (Z.eq_dec i (Z.land T' 7)) as [->|Hne]; [apply zget_zset_eq; lia | apply zget_zset_ne; lia].
    + rewrite view_tag. reflexivity.
    + eapply holds_tags; [| |exact sk_stack0]; [unfold view; rewrite Hp; reflexivity | apply view_tag].
  - constructor; try lia. intros d Hdd. destruct (Z.eq_dec d 0) as [-> | Hne].
    + specialize (sk_stack0 7 ltac:(lia)). change (Z.to_nat 7) with 7%nat in sk_stack0. rewrite H7 in sk_stack0.
      unfold occupied in sk_stack0. rewrite (nonempty_tag _ x) in sk_stack0 by apply view_tag.
      destruct (7 <? pushes c); [discriminate|]. rewrite HQ in sk_stack0. change (8 - 0 <=? 7) with false in sk_stack0. cbv iota in sk_stack0.
      rewrite <- sk_stack0. f_equal. unfold T'. rewrite !land7_mod, Z.add_mod_idemp_l by lia.
      rewrite <- (Z.mod_add (T - 1 + 0) 1 8) by lia. f_equal. lia.
    + replace (Z.land (T' + d) 7) with (Z.land (T + (d - 1)) 7); [apply Hfr; lia|].
      unfold T'. rewrite !land7_mod, Z.add_mod_idemp_l by lia. f_equal. lia.
  - discriminate.
  - intros _ _. unfold T'. rewrite Z.add_mod_idemp_l by lia.
    destruct (Z.eq_dec (pushes c) 0) as [E|E].
    + rewrite (sk_clean0 (proj1 Hd E)), E. replace (T - 1 + (0 + 1)) with T by lia. symmetry. apply Z.mod_small, sk_top0.
    + rewrite sk_base0; [f_equal; lia | | lia]. destruct (nz (top_dirty c)) eqn:Ed; [reflexivity | exfalso; apply E, Hd, eq_refl].
  - lia.
Qed.

(** A pop needs ST(0), so at most seven were pending. *)
Lemma pops_left c l T x v : stacked c l T x -> nth 0 l None = Some v -> pops c < 8.
Proof.
  intros H Hn. destruct (holds_bounds c l T x H 0 v ltac:(lia) Hn) as [Ho _]. unfold occupied in Ho.
  destruct (df_push _ _ _ _ (sk_defer _ _ _ _ H)). destruct (df_one _ _ _ _ (sk_defer _ _ _ _ H)).
  - replace (0 <? pushes c) with false in Ho by (symmetry; apply Z.ltb_ge; lia).
    destruct (Z.leb_spec (8 - pops c) 0); [discriminate | lia].
  - lia.
Qed.

Lemma top_next T d : Z.land ((T + 1) mod 8 + d) 7 = Z.land (T + (d + 1)) 7.
Proof. rewrite !land7_mod, Z.add_mod_idemp_l by lia. f_equal. lia. Qed.

(** What a pop does to the counts: it cancels a pending push or is deferred. *)
Definition after_pop (c : X87Cache) : X87Cache :=
  if 0 <? pushes c then
    with_deferred c (if nz (top_dirty c) && (s8 (pushes c - 1) =? 0) then 0 else top_dirty c) (s8 (pushes c - 1)) (pops c)
  else with_deferred c 1 (pushes c) (s8 (pops c + 1)).

Lemma stacked_pop c l T x v : stacked c l T x -> 0 < run_remaining c -> nz (perm_dirty c) = false -> nth 0 l None = Some v ->
  let T' := (T + 1) mod 8 in
  stacked (after_pop c) (tl l ++ [None]) T' (if (0 <? pushes c) && negb (nz (top_dirty c)) then with_top x T' else x).
Proof.
  intros H Hr Hp Hn T'. pose proof (pops_left _ _ _ _ _ H Hn) as HQ8. destruct H as []. destruct sk_defer0 as [HP HQ Hone Hfr].
  assert (HT' : 0 <= T' < 8) by (apply Z.mod_pos_bound; lia).
  set (y := if (0 <? pushes c) && negb (nz (top_dirty c)) then with_top x T' else x).
  assert (Ey : tagWord y = tagWord x /\ X87State.st y = X87State.st x) by (unfold y; destruct (_ && _); auto).
  assert (Ev : holds y T (pushes c) (pops c) l).
  { eapply holds_tags; [| |exact sk_stack0]; unfold view; rewrite Hp; symmetry; apply Ey. }
  assert (Hc : (0 < pushes c /\ pushes (after_pop c) = pushes c - 1 /\ pops (after_pop c) = pops c) \/
               (pushes c = 0 /\ pushes (after_pop c) = 0 /\ pops (after_pop c) = pops c + 1)).
  { unfold after_pop. destruct (Z.ltb_spec 0 (pushes c)); [left | right];
      cbn [with_deferred deferred_push_count deferred_pop_count]; rewrite s8_small by lia; repeat split; lia. }
  assert (Ed : perm_dirty (after_pop c) = perm_dirty c /\ perm (after_pop c) = perm c /\ run_remaining (after_pop c) = run_remaining c)
    by (unfold after_pop; destruct (0 <? pushes c); repeat split).
  destruct Ed as (E1 & E2 & E3). constructor; try exact HT'.
  - rewrite length_app. destruct l; [discriminate|]. cbn [tl length] in *. lia.
  - rewrite (proj2 Ey). exact sk_st0.
  - unfold view. rewrite E1, Hp.
    apply (holds_pop y T (pushes c) (pops c) l); auto; try lia.
    intros H0. rewrite (nonempty_tag y x) by apply Ey. rewrite <- (Z.add_0_r T). apply Hfr. lia.
  - constructor; try lia. intros d Hdd. rewrite (nonempty_tag y x) by apply Ey. unfold T'. rewrite top_next. apply Hfr. lia.
  - destruct sk_perm0. split; rewrite ?E2; auto. 
  - intros Hd. unfold y, after_pop in *. destruct (Z.ltb_spec 0 (pushes c)) as [L|L]; cbn [andb with_deferred top_dirty] in *; [|discriminate].
    destruct (nz (top_dirty c)) eqn:Et; cbn [negb andb] in *; [|apply topIndex_with_top, HT'].
    rewrite (s8_small (pushes c - 1)) in Hd by lia. destruct (Z.eqb_spec (pushes c - 1) 0) as [Z0|]; [|congruence].
    rewrite sk_base0 by auto. unfold T'. f_equal. lia.
  - intros Hd HP'. unfold y, after_pop in *. destruct (Z.ltb_spec 0 (pushes c)) as [L|L]; cbn [andb with_deferred top_dirty deferred_push_count] in *; [|lia].
    destruct (nz (top_dirty c)) eqn:Et; cbn [negb andb] in *; [|congruence].
    rewrite (s8_small (pushes c - 1)) in * by lia. rewrite sk_base0 by auto. unfold T'. rewrite Z.add_mod_idemp_l by lia. f_equal. lia.
  - rewrite E3. lia.
Qed.

(** A value stored at a depth in use. *)
Lemma stacked_set c l T x d v u : stacked c l T x -> 0 <= d < 8 -> nth (Z.to_nat d) l None = Some u ->
  stacked c (list_set l (Z.to_nat d) (Some v)) T (with_st x (zset (X87State.st x) (Z.land (T + resolve_depth c d) 7) v)).
Proof.
  intros [] Hd Hn. constructor; auto.
  - rewrite <- sk_len0. clear. revert l. generalize (Z.to_nat d). intros n l. revert n. induction l as [|a l IH]; intros [|n]; cbn; auto.
  - cbn [with_st X87State.st]. rewrite zset_length. exact sk_st0.
  - eapply holds_set; try eassumption. intros _. apply sk_perm0.
  - eapply deferred_tag; [|exact sk_defer0]; reflexivity.
Qed.

(** ** Without a run, nothing is deferred *)

Lemma idle_view c l T x : stacked c l T x -> run_remaining c <= 0 ->
  pushes c = 0 /\ pops c = 0 /\ nz (top_dirty c) = false /\ nz (perm_dirty c) = false /\ holds x T 0 0 l /\ topIndex x = T.
Proof.
  intros [] Hr. destruct (sk_idle0 Hr) as (E1 & E2 & E3 & E4). repeat split; auto.
  rewrite E1, E2 in sk_stack0. unfold view in sk_stack0. rewrite E4 in sk_stack0. exact sk_stack0.
Qed.

Lemma stacked_idle c l T x : 0 <= T < 8 -> length l = 8%nat -> length (X87State.st x) = 8%nat -> holds x T 0 0 l -> topIndex x = T ->
  perm_ok c -> pushes c = 0 -> pops c = 0 -> nz (top_dirty c) = false -> nz (perm_dirty c) = false -> stacked c l T x.
Proof.
  intros HT Hl Hst Hh Ht Hp E1 E2 E3 E4. constructor; auto.
  - unfold view. rewrite E1, E2, E4. exact Hh.
  - rewrite E1, E2. constructor; lia.
  - congruence.
Qed.

Lemma stacked_push_idle c l T x : stacked c l T x -> run_remaining c <= 0 ->
  let T' := (T - 1) mod 8 in
  stacked c (Some (zget (X87State.st x) (Z.land T' 7)) :: firstn 7 l) T' (mark false (with_top x T') [T']).
Proof.
  intros H Hr T'. destruct (idle_view _ _ _ _ H Hr) as (E1 & E2 & E3 & E4 & Hh & Et). pose proof H as [].
  assert (HT' : 0 <= T' < 8) by (apply Z.mod_pos_bound; lia). pose proof (land7_range T') as Hr7.
  apply stacked_idle; auto.
  - cbn [length]. rewrite length_firstn, sk_len0. reflexivity.
  - pose proof (holds_push x T 0 0 l T' (zget (X87State.st x) (Z.land T' 7)) eq_refl eq_refl ltac:(lia) sk_st0 Hh) as Hp.
    apply (holds_flush_pushes _ _ 1 0) in Hp; [|lia | lia | auto]. eapply holds_tags; [| |exact Hp].
    + cbn [mark with_tag with_st with_top with_sw X87State.st]. apply list_ext8; [rewrite zset_length; exact sk_st0 | exact sk_st0|].
      intros i Hi. destruct (Z.eq_dec i (Z.land T' 7)) as [->|Hne]; [apply zget_zset_eq; lia | apply zget_zset_ne; lia].
    + change (phys T' 0 (Z.to_nat 1)) with [Z.land (T' + 0 + 0) 7]. rewrite !Z.add_0_r, land7_small by exact HT'. reflexivity.
  - rewrite (topIndex_sw _ (with_top x T')) by reflexivity. apply topIndex_with_top, HT'.
Qed.

Lemma stacked_pop_idle c l T x v : stacked c l T x -> run_remaining c <= 0 -> nth 0 l None = Some v ->
  let T' := (T + 1) mod 8 in
  stacked (with_deferred c 0 (pushes c) (pops c)) (tl l ++ [None]) T' (with_top (mark true x [T]) T').
Proof.
  intros H Hr Hn T'. destruct (idle_view _ _ _ _ H Hr) as (E1 & E2 & E3 & E4 & Hh & Et). pose proof H as [].
  assert (HT' : 0 <= T' < 8) by (apply Z.mod_pos_bound; lia).
  apply stacked_idle; auto.
  - rewrite length_app. destruct l; [discriminate|]. cbn [tl length] in *. lia.
  - assert (Hp : holds x T' 0 1 (tl l ++ [None])) by (apply (holds_pop x T 0 0 l); auto; lia).
    apply holds_flush_pops in Hp; [|lia | lia]. eapply holds_tags; [| |exact Hp]; [reflexivity|].
    change (below T' 1 (Z.to_nat 1)) with [Z.land (T' - (1 - 0)) 7].
    replace (Z.land (T' - (1 - 0)) 7) with T; [reflexivity|]. unfold T'. rewrite land7_mod, Zminus_mod_idemp_l.
    replace (T + 1 - (1 - 0)) with T by lia. symmetry. apply Z.mod_small, sk_top0.
  - apply topIndex_with_top, HT'.
Qed.

(** FXCH deferred: the permutation exchanges what depths 0 and [d] stand for. *)
Lemma stacked_swap c l T x d u v : stacked c l T x -> 0 < run_remaining c -> 0 < d < 8 ->
  nth 0 l None = Some u -> nth (Z.to_nat d) l None = Some v ->
  stacked (with_perm c (zset (zset (perm c) 0 (zget (perm c) d)) d (zget (perm c) 0)) 1)
    (list_set (list_set l 0 (Some v)) (Z.to_nat d) (Some u)) T x.
Proof.
  intros H Hr Hd Hu Hv. pose proof H as []. set (p' := zset _ _ _). destruct sk_perm0 as [Hl Hpm Hid].
  assert (Ep : forall k, 0 <= k < 8 -> zget p' k = zget (perm c) (if k =? 0 then d else if k =? d then 0 else k)).
  { intros k Hk. unfold p'. destruct (Z.eqb_spec k 0) as [->|N0]; [|destruct (Z.eqb_spec k d) as [->|Nd]].
    - rewrite zget_zset_ne by lia. apply zget_zset_eq. lia.
    - apply zget_zset_eq. rewrite zset_length. lia.
    - rewrite !zget_zset_ne by lia. reflexivity. }
  assert (Hsw : forall k, 0 <= k < 8 -> 0 <= (if k =? 0 then d else if k =? d then 0 else k) < 8)
    by (intros k Hk; destruct (k =? 0), (k =? d); lia).
  constructor; auto; cbn [with_perm perm_dirty perm deferred_push_count deferred_pop_count run_remaining top_dirty].
  - assert (E : forall (l : list (option Z)) n v, length (list_set l n v) = length l).
    { clear. intros l. induction l as [|a l IH]; intros [|n] v; cbn; auto. }
    rewrite !E. exact sk_len0.
  - intros k Hk. unfold view. cbn [with_perm perm_dirty perm with_st X87State.st]. change (nz 1) with true. cbv iota.
    rewrite (occupied_tag _ x) by reflexivity. cbn [X87State.st with_st]. rewrite moved_at, Ep by exact Hk.
    assert (Hl1 : (0 <? length l)%nat = true /\ (Z.to_nat d <? length (list_set l 0 (Some v)))%nat = true).
    { split; apply Nat.ltb_lt; [lia|]. destruct l; cbn [list_set length] in *; lia. }
    rewrite !nth_list_set, (proj1 Hl1), (proj2 Hl1), !andb_true_r.
    destruct (holds_bounds c l T x H 0 u ltac:(lia) Hu) as [O0 V0]. destruct (holds_bounds c l T x H d v ltac:(lia) Hv) as [Od Vd].
    rewrite resolve_perm in V0, Vd by (try lia; split; auto).
    destruct (Z.eqb_spec k 0) as [->|N0].
    + replace (Z.to_nat 0 =? Z.to_nat d)%nat with false by (symmetry; apply Nat.eqb_neq; lia).
      cbn [Z.to_nat Nat.eqb]. auto.
    + destruct (Z.eqb_spec k d) as [->|Nd].
      * rewrite Nat.eqb_refl. auto.
      * replace (Z.to_nat k =? Z.to_nat d)%nat with false by (symmetry; apply Nat.eqb_neq; lia).
        replace (Z.to_nat k =? 0)%nat with false by (symmetry; apply Nat.eqb_neq; lia).
        specialize (sk_stack0 k Hk). rewrite view_at, (occupied_tag _ x), resolve_perm in sk_stack0 by (try apply view_tag; try lia; split; auto).
        exact sk_stack0.
  - split; [cbn [with_perm perm]; unfold p'; rewrite !zset_length; exact Hl | | discriminate].
    split.
    + intros k Hk. cbn [with_perm perm]. rewrite Ep by exact Hk. apply Hpm, Hsw, Hk.
    + intros k k' Hk Hk'. cbn [with_perm perm]. rewrite !Ep by assumption. intros E. apply Hpm in E; [|apply Hsw, Hk | apply Hsw, Hk'].
      destruct (Z.eqb_spec k 0), (Z.eqb_spec k' 0), (Z.eqb_spec k d), (Z.eqb_spec k' d); lia.
  - lia.
Qed.

(** POP with its tag written at once, nothing pending before it. *)
Lemma holds_pop_marked x T l : length l = 8%nat -> 0 <= T < 8 -> holds x T 0 0 l ->
  holds (mark true x [T]) ((T + 1) mod 8) 0 0 (tl l ++ [None]).
Proof.
  intros Hl HT Hh. assert (Hp : holds x ((T + 1) mod 8) 0 1 (tl l ++ [None])) by (apply (holds_pop x T 0 0 l); auto; lia).
  apply holds_flush_pops in Hp; [|lia | lia]. eapply holds_tags; [| |exact Hp]; [reflexivity|].
  change (below ((T + 1) mod 8) 1 (Z.to_nat 1)) with [Z.land ((T + 1) mod 8 - (1 - 0)) 7].
  replace (Z.land ((T + 1) mod 8 - (1 - 0)) 7) with T; [reflexivity|]. rewrite land7_mod, Zminus_mod_idemp_l.
  replace (T + 1 - (1 - 0)) with T by lia. symmetry. apply Z.mod_small, HT.
Qed.

(** Two of them. *)
Lemma holds_pop2_marked x T l : length l = 8%nat -> 0 <= T < 8 -> holds x T 0 0 l ->
  holds (mark true x (phys T 0 2)) ((T + 2) mod 8) 0 0 (tl (tl l ++ [None]) ++ [None]).
Proof.
  intros Hl HT Hh. apply holds_pop_marked in Hh; [|exact Hl | exact HT].
  apply holds_pop_marked in Hh; [| |apply Z.mod_pos_bound; lia].
  - rewrite mark_mark in Hh. rewrite Z.add_mod_idemp_l in Hh by lia. replace (T + 1 + 1) with (T + 2) in Hh by lia.
    replace (phys T 0 2) with ([T] ++ [(T + 1) mod 8]); [exact Hh|].
    change (phys T 0 2) with [Z.land (T + 0 + 0) 7; Z.land (T + 0 + 1) 7]. rewrite !Z.add_0_r, land7_small, land7_mod by exact HT. reflexivity.
  - rewrite length_app. destruct l; [discriminate|]. cbn [tl length] in *. lia.
Qed.

Lemma pop2_length {A} (l : list (option A)) : length l = 8%nat -> length (tl (tl l ++ [None]) ++ [None]) = 8%nat.
Proof. intros H. do 8 (destruct l as [|? l]; [discriminate|]). destruct l; [reflexivity | discriminate]. Qed.

(** Two pops in a run: TOP stays pending. *)
Lemma stacked_pop2 c l T x : stacked c l T x -> 0 < run_remaining c -> nz (perm_dirty c) = false -> pushes c = 0 -> pops c = 0 ->
  stacked (with_deferred c 1 0 0) (tl (tl l ++ [None]) ++ [None]) ((T + 2) mod 8) (mark true x (phys T 0 2)).
Proof.
  intros H Hr Hp E1 E2. destruct H as []. constructor; auto.
  - apply Z.mod_pos_bound. lia.
  - apply pop2_length, sk_len0.
  - unfold view in *. cbn [with_deferred perm_dirty perm deferred_push_count deferred_pop_count]. rewrite Hp in *. rewrite E1, E2 in sk_stack0.
    apply holds_pop2_marked; assumption.
  - cbn [with_deferred deferred_push_count deferred_pop_count]. constructor; lia.
  - discriminate.
  - cbn [with_deferred deferred_push_count]. lia.
  - cbn [with_deferred run_remaining]. lia.
Qed.

(** Outside one it is written. *)
Lemma stacked_pop2_idle c l T x : stacked c l T x -> run_remaining c <= 0 ->
  stacked (with_deferred c 0 (pushes c) (pops c)) (tl (tl l ++ [None]) ++ [None]) ((T + 2) mod 8)
    (with_top (mark true x (phys T 0 2)) ((T + 2) mod 8)).
Proof.
  intros H Hr. destruct (idle_view _ _ _ _ H Hr) as (E1 & E2 & E3 & E4 & Hh & Et). destruct H as [].
  assert (HT' : 0 <= (T + 2) mod 8 < 8) by (apply Z.mod_pos_bound; lia).
  apply stacked_idle; auto; [apply pop2_length, sk_len0 | | apply topIndex_with_top, HT'].
  eapply holds_tags; [| |apply holds_pop2_marked; eassumption]; reflexivity.
Qed.
