(* ===== verification/CacheRefine.v ===== *)
(** The translator's wrappers refine the stack's operations: whatever the
    cache has deferred, the code x87_push, x87_pop and the flushes emit leaves
    a machine that stands for the stack pushed, popped or unchanged. *)

From S2P Require Import Prelude X87State X87Props F64 GuestMem Fpu Emit Assembler IROperand A64Exec CodeExec InsnRules AccessProps.
From S2P Require Import TranslatorHelpers Pools X87Memory X87Helpers X87HelpersProps PermProps X87Cache X87IRLower.
From S2P Require Import LowerRel LowerEpilogue TranslatorX87Internal CacheView.

(** The control word and the status word without TOP. *)
Definition rest (x : X87State) : Z * Z := (controlWord x, Z.land (statusWord x) (Z.lnot kTopOfStack)).

Lemma rest_with_top x t : 0 <= statusWord x < 2 ^ 16 -> 0 <= t < 8 -> rest (with_top x t) = rest x.
Proof.
  intros Hw Ht. unfold rest, with_top, kTopOfStack. cbn [controlWord statusWord X87State.with_sw]. f_equal.
  apply Z.bits_inj'. intros i Hi. rewrite !Z.land_spec, wrap_testbit, Z.lor_spec, Z.land_spec, !Z.lnot_spec, Z.shiftl_spec by lia.
  destruct (Z.ltb_spec i 16).
  - cbn [andb]. destruct (Z.testbit 0x3800 i) eqn:E; cbn [negb]; rewrite ?andb_false_r, ?andb_true_r; [reflexivity|].
    assert (Es : Z.testbit t (i - 11) = false).
    { assert (Hb : forallb (fun i => Z.testbit 0x3800 i || (i <? 11) || (13 <? i)) (map Z.of_nat (seq 0 16)) = true) by reflexivity.
      rewrite forallb_forall in Hb. specialize (Hb i). rewrite E in Hb. cbn [orb] in Hb.
      assert (Hin : In i (map Z.of_nat (seq 0 16))) by (apply in_map_iff; exists (Z.to_nat i); split; [lia | apply in_seq; lia]).
      apply Hb, orb_true_iff in Hin as [L|L]; apply Z.ltb_lt in L; [apply Z.testbit_neg_r; lia|].
      destruct (Z.eq_dec t 0) as [->|]; [apply Z.testbit_0_l|]. apply Z.bits_above_log2; [lia|].
      apply Z.log2_lt_pow2; [lia|]. apply Z.lt_le_trans with (2 ^ 3); [lia | apply Z.pow_le_mono_r; lia]. }
    rewrite Es, orb_false_r. reflexivity.
  - cbn [andb]. replace (Z.testbit (statusWord x) i) with false; [reflexivity|].
    symmetry. destruct (Z.eq_dec (statusWord x) 0) as [->|]; [apply Z.testbit_0_l|]. apply Z.bits_above_log2; [lia|].
    apply Z.log2_lt_pow2; [lia|]. apply Z.lt_le_trans with (2 ^ 16); [lia | apply Z.pow_le_mono_r; lia].
Qed.

Lemma state_after_refl b l m : state_after b l (x87_at (mm m) b) m m.
Proof. split; [apply changes_refl | split; [apply outside_refl | reflexivity]]. Qed.

Section Refine.
Context (cfg : RosettaConfig) (b Xbase Xst top : Z).
Hypothesis (Nbt : Xbase <> top) (Nst : Xst <> top).

(** Registers taken: the base, TOP and the register file's base among them. *)
Record pins (U : list Z) : Prop := mkPins {
  pn_scratch : forall r, In r U -> scratch r = true;
  pn_base : In Xbase U;
  pn_top : In top U;
  pn_st : Xst = -1 \/ In Xst U
}.

Record temp (U : list Z) (tmp : Z) : Prop := mkTemp {
  tp_in : In tmp U;
  tp_base : tmp <> Xbase;
  tp_top : tmp <> top;
  tp_st : tmp <> Xst
}.

(** What a wrapper leaves alone but for the registers [l]. *)
Record undisturbed (U V l : list Z) (m m' : machine) : Prop := mkUndisturbed {
  un_x : safe U l m m';
  un_v : forall r, fscratch cfg r = false \/ In r V -> vr m' r = vr m r;
  un_nzcv : nzcv m' = nzcv m;
  un_mem : outside b (mm m) (mm m');
  un_rest : rest (x87_at (mm m') b) = rest (x87_at (mm m) b)
}.

Record work (c : X87Cache) (l : list (option Z)) (U V : list Z) (a : asm) (m : machine) : Prop := mkWork {
  wk_stacked : stacked c l (xr m top) (x87_at (mm m) b);
  wk_g : gpool a U;
  wk_f : fpool cfg a V;
  wk_base : based b Xbase m;
  wk_st : st_based b Xst m;
  wk_xst : x87_get_st_base c = Xst
}.

Lemma undisturbed_refl U V l m : undisturbed U V l m m.
Proof. constructor; auto using safe_refl, outside_refl. Qed.

Lemma undisturbed_trans U V l m m1 m2 : undisturbed U V l m m1 -> undisturbed U V l m1 m2 -> undisturbed U V l m m2.
Proof.
  intros [A1 A2 A3 A4 A5] [B1 B2 B3 B4 B5]. constructor; try congruence; [eapply safe_trans; eassumption | | eapply outside_trans; eassumption].
  intros r Hr. rewrite B2, A2; auto.
Qed.

Lemma undisturbed_mono U U' V V' l l' m m' : incl U' U -> incl V' V -> incl l l' ->
  undisturbed U V l m m' -> undisturbed U' V' l' m m'.
Proof.
  intros HU HV Hl []. constructor; auto; [eapply safe_mono; [exact HU | exact Hl | assumption]|].
  intros r [Hr | Hr]; auto.
Qed.

(** A register taken for a while and given back. *)
Lemma undisturbed_drop U V l r m m' : scratch r = true -> ~ In r U ->
  undisturbed (r :: U) V (r :: l) m m' -> undisturbed U V l m m'.
Proof.
  intros Hs Hn []. constructor; auto. intros q Hq Hql Hu. apply un_x0; [exact Hq | | destruct Hu; cbn; auto].
  intros [<- | H]; [destruct Hu as [Hu | Hu]; [congruence | contradiction] | contradiction].
Qed.

Lemma pins_cons U r : pins U -> scratch r = true -> pins (r :: U).
Proof.
  intros [] Hs. constructor; cbn; auto; [intros q [<- | Hq]; auto | tauto].
Qed.

Lemma temp_cons U r t : temp U t -> temp (r :: U) t.
Proof. intros []. constructor; cbn; auto. Qed.

(** A register just allocated is a temporary. *)
Lemma temp_new U r : pins U -> scratch r = true -> ~ In r U -> temp (r :: U) r.
Proof.
  intros [] Hs Hn. constructor; [left; reflexivity | intros -> | intros -> |]; try contradiction.
  intros ->. destruct pn_st0 as [E | Hin]; [rewrite E in Hs; discriminate | contradiction].
Qed.

Lemma pin_gpr U r : pins U -> In r U -> gpr r.
Proof. intros [] Hr. apply scratch_gpr', pn_scratch0, Hr. Qed.

Lemma work_top c l U V a m : work c l U V a m -> 0 <= xr m top < 8.
Proof. intros []. apply wk_stacked0. Qed.

(** The steps of an emitter that writes the state and the registers [tl]. *)
Lemma work_after c c' l l' U V a m a' m' tl x' :
  work c l U V a m -> same_pools a a' -> state_after b tl x' m m' ->
  ~ In Xbase tl -> ~ In Xst tl \/ Xst = -1 -> stacked c' l' (xr m' top) x' -> x87_get_st_base c' = Xst ->
  work c' l' U V a' m'.
Proof.
  intros [] Hs Hst Nb Ns Hk Hx. pose proof Hst as (Hch & Ho & Hat). constructor; auto.
  - rewrite Hat. exact Hk.
  - eapply gpool_same; eassumption.
  - eapply fpool_mask; [apply Hs | exact wk_f0].
  - eapply based_after; eassumption.
  - destruct wk_st0 as [E | [G E]]; [left; exact E|]. right. split; [exact G|]. rewrite (ch_x _ _ _ Hch); [exact E|].
    destruct Ns as [Ns | Ns]; [exact Ns | rewrite Ns in G; unfold gpr in G; lia].
Qed.

Lemma undisturbed_after U V l tl x' m m' : state_after b tl x' m m' ->
  (forall r, In r tl -> In r l \/ (scratch r = true /\ ~ In r U)) -> rest x' = rest (x87_at (mm m) b) -> undisturbed U V l m m'.
Proof.
  intros (Hch & Ho & Hat) Hl Hr. constructor; [eapply safe_changes; eassumption | | apply Hch | exact Ho | rewrite Hat; exact Hr].
  intros r _. rewrite (ch_v _ _ _ Hch). reflexivity.
Qed.

Lemma sw_range m : 0 <= statusWord (x87_at (mm m) b) < 2 ^ 16.
Proof. apply statusWord_range. Qed.

Section Steps.
Context (U V : list Z) (tmp : Z).
Hypothesis (HU : pins U) (Ht : temp U tmp).

Lemma top_reg : gpr top.  Proof. eapply pin_gpr; [exact HU | apply HU]. Qed.
Lemma base_reg_ok : gpr Xbase.  Proof. eapply pin_gpr; [exact HU | apply HU]. Qed.
Lemma tmp_reg : gpr tmp.  Proof. eapply pin_gpr; [exact HU | apply Ht]. Qed.

#[local] Hint Resolve top_reg base_reg_ok tmp_reg : core.

Lemma tmp_apart : Xbase <> tmp /\ top <> tmp /\ Xst <> tmp.
Proof. destruct Ht. repeat split; congruence. Qed.

Ltac ne := destruct Ht; cbn; intuition congruence.

(** *** TOP written *)

Definition clean_top (c : X87Cache) : X87Cache :=
  if nz (top_dirty c) then with_deferred c 0 (deferred_push_count c) (deferred_pop_count c) else c.

(** The x87 state with the cached TOP in memory. *)
Definition top_written (c : X87Cache) (T : Z) (x : X87State) : X87State := if nz (top_dirty c) then with_top x T else x.

Lemma wp_flush_top_at c l a m (Q : X87Cache -> asm -> machine -> Prop) :
  work c l U V a m ->
  (forall a' m', work (clean_top c) l U V a' m' -> undisturbed U V [tmp] m m' -> xr m' top = xr m top ->
     state_after b [tmp] (top_written c (xr m top) (x87_at (mm m) b)) m m' -> Q (clean_top c) a' m') ->
  wp (x87_flush_top c Xbase top tmp) Q a m.
Proof.
  intros Hw HQ. unfold x87_flush_top, clean_top, top_written in *. pose proof (work_top _ _ _ _ _ _ Hw) as HT. destruct (nz (top_dirty c)).
  - apply wp_bind. apply (wp_store_top b Xbase a m (wk_base _ _ _ _ _ _ Hw)); auto; try (destruct Ht; congruence).
    intros a' m' Hs Hst. apply wp_ret. pose proof Hst as (Hch & _).
    assert (Et : xr m' top = xr m top) by (apply (ch_x _ _ _ Hch); ne).
    apply HQ; [| |exact Et | exact Hst].
    + eapply work_after; [exact Hw | exact Hs | exact Hst | ne | ne | | exact (wk_xst _ _ _ _ _ _ Hw)].
      rewrite Et. apply stacked_top, (wk_stacked _ _ _ _ _ _ Hw).
    + eapply undisturbed_after; [exact Hst | cbn; tauto |]. apply rest_with_top; [apply sw_range | exact HT].
  - apply wp_ret, HQ; auto using undisturbed_refl. apply state_after_refl.
Qed.

Lemma wp_flush_top c l a m (Q : X87Cache -> asm -> machine -> Prop) :
  work c l U V a m ->
  (forall a' m', work (clean_top c) l U V a' m' -> undisturbed U V [tmp] m m' -> xr m' top = xr m top -> Q (clean_top c) a' m') ->
  wp (x87_flush_top c Xbase top tmp) Q a m.
Proof. intros Hw HQ. apply (wp_flush_top_at c l a m); [exact Hw | auto]. Qed.

(** *** The tags written *)

Definition clean_pops (c : X87Cache) : X87Cache :=
  if 0 <? deferred_pop_count c then with_deferred c (top_dirty c) (deferred_push_count c) 0 else c.

Lemma temps_apart r r' : scratch r = true -> ~ In r U -> scratch r' = true -> ~ In r' (r :: U) ->
  gpr r /\ gpr r' /\ r <> r' /\ tmp <> r /\ tmp <> r' /\ top <> r /\ top <> r' /\ Xbase <> r /\ Xbase <> r' /\
  (Xst <> r /\ Xst <> r').
Proof.
  intros Hs Hn Hs' Hn'. destruct HU, Ht. cbn [In] in Hn'.
  assert (H : forall q, In q U -> q <> r /\ q <> r') by (intros q Hq; split; intros ->; tauto).
  assert (Hst : Xst <> r /\ Xst <> r').
  { destruct pn_st0 as [E | E]; [|apply H, E]. split; intros E2; [rewrite <- E2, E in Hs | rewrite <- E2, E in Hs']; discriminate. }
  refine (conj (scratch_gpr' _ Hs) (conj (scratch_gpr' _ Hs') _)).
  pose proof (H _ pn_base0). pose proof (H _ pn_top0). pose proof (H _ tp_in0). intuition congruence.
Qed.

Lemma wp_flush_pops c l a m (Q : X87Cache -> asm -> machine -> Prop) :
  work c l U V a m -> (length U <= 6)%nat ->
  (forall a' m', work (clean_pops c) l U V a' m' -> undisturbed U V [tmp] m m' -> xr m' top = xr m top -> Q (clean_pops c) a' m') ->
  wp (x87_flush_deferred_pops c Xbase top tmp) Q a m.
Proof.
  intros Hw Hlen HQ. unfold x87_flush_deferred_pops, clean_pops in *. pose proof (work_top _ _ _ _ _ _ Hw) as HT.
  destruct (Z.ltb_spec 0 (deferred_pop_count c)) as [Hq|]; [|apply wp_ret, HQ; auto using undisturbed_refl].
  pose proof (df_pop _ _ _ _ (sk_defer _ _ _ _ (wk_stacked _ _ _ _ _ _ Hw))) as Hq8.
  apply wp_bind, (wp_galloc U); [apply Hw | lia|]. intros r a1 Hs Hn Hp1 Hm1.
  apply wp_bind, (wp_galloc (r :: U)); [exact Hp1 | cbn [length]; lia|]. intros r' a2 Hs' Hn' Hp2 Hm2.
  destruct (temps_apart r r' Hs Hn Hs' Hn') as (G1 & G2 & N1 & N2 & N3 & N4 & N5 & N6 & N7 & N8 & N9).
  destruct tmp_apart as (M1 & M2 & M3).
  apply wp_bind, (wp_tag_set_empty_batch b Xbase top tmp r r' a2 m (wk_base _ _ _ _ _ _ Hw) HT); auto; [lia|].
  intros a3 m3 Hsp Hst. apply wp_bind, (wp_gfree r' (r :: U)); [eapply gpool_same; eassumption | exact Hs' | exact Hn'|].
  intros a4 Hp4 Hm4. apply wp_bind, (wp_gfree r U); [exact Hp4 | exact Hs | exact Hn|]. intros a5 Hp5 Hm5. apply wp_ret.
  pose proof Hst as (Hch & Ho & Hat).
  assert (Et : xr m3 top = xr m top) by (apply (ch_x _ _ _ Hch); ne). apply HQ; [| |exact Et].
  - constructor; [| exact Hp5 | | | | exact (wk_xst _ _ _ _ _ _ Hw)].
    + rewrite Et, Hat. apply stacked_pops; [exact (wk_stacked _ _ _ _ _ _ Hw) | exact Hq].
    + eapply fpool_mask; [|apply Hw]. rewrite Hm5, Hm4, (proj2 Hsp), Hm2, Hm1. reflexivity.
    + eapply based_after; [apply Hw | exact Hst | ne].
    + destruct (wk_st _ _ _ _ _ _ Hw) as [E | [G E]]; [left; exact E|]. right. split; [exact G|].
      rewrite (ch_x _ _ _ Hch); [exact E | ne].
  - eapply undisturbed_after; [exact Hst | | reflexivity]. intros q [<- | [<- | [<- | []]]]; [left; left; reflexivity | right; auto | right].
    split; [exact Hs'|]. intros Hq'. apply Hn'. right. exact Hq'.
Qed.

Definition clean_pushes (c : X87Cache) : X87Cache :=
  if 0 <? deferred_push_count c then with_deferred c (top_dirty c) 0 (deferred_pop_count c) else c.

(** The x87 state with the pending pushes' tags in memory. *)
Definition pushes_written (c : X87Cache) (T : Z) (x : X87State) : X87State :=
  if 0 <? deferred_push_count c then mark false x (phys T 0 (Z.to_nat (deferred_push_count c))) else x.

Lemma wp_flush_pushes_at tmp2 c l a m (Q : X87Cache -> asm -> machine -> Prop) :
  work c l U V a m -> (length U <= 7)%nat -> temp U tmp2 -> tmp <> tmp2 ->
  (forall a' m', work (clean_pushes c) l U V a' m' -> undisturbed U V [tmp; tmp2] m m' -> xr m' top = xr m top ->
     (exists tl, state_after b tl (pushes_written c (xr m top) (x87_at (mm m) b)) m m') -> Q (clean_pushes c) a' m') ->
  wp (x87_flush_deferred_pushes c Xbase top tmp tmp2) Q a m.
Proof.
  intros Hw Hlen Ht2 N HQ. unfold x87_flush_deferred_pushes, clean_pushes, pushes_written in *. pose proof (work_top _ _ _ _ _ _ Hw) as HT.
  destruct tmp_apart as (M1 & M2 & M3). pose proof (pin_gpr U tmp2 HU (tp_in _ _ Ht2)) as G2.
  pose proof (df_push _ _ _ _ (sk_defer _ _ _ _ (wk_stacked _ _ _ _ _ _ Hw))) as Hp8.
  assert (Done : forall a' m', gpool a' U -> free_fpr_mask a' = free_fpr_mask a -> 0 < deferred_push_count c ->
    forall r, scratch r = true -> ~ In r U \/ r = tmp ->
    state_after b [tmp; tmp2; r] (mark false (x87_at (mm m) b) (phys (xr m top) 0 (Z.to_nat (deferred_push_count c)))) m m' ->
    work (with_deferred c (top_dirty c) 0 (deferred_pop_count c)) l U V a' m' /\ undisturbed U V [tmp; tmp2] m m' /\ xr m' top = xr m top /\
    (exists tl, state_after b tl (mark false (x87_at (mm m) b) (phys (xr m top) 0 (Z.to_nat (deferred_push_count c)))) m m')).
  { intros a' m' Hg Hf H0 r Hs Hn Hst. pose proof Hst as (Hch & Ho & Hat).
    assert (Nr : r <> top /\ r <> Xbase /\ r <> Xst).
    { destruct Hn as [Hn | ->]; [|destruct Ht; auto]. destruct HU. repeat split; intros ->; try contradiction.
      destruct pn_st0 as [E | E]; [rewrite E in Hs; discriminate | contradiction]. }
    assert (Et : xr m' top = xr m top) by (apply (ch_x _ _ _ Hch); destruct Ht2; ne).
    split; [|split; [|split; [exact Et | eexists; exact Hst]]].
    - constructor; [| exact Hg | | | | exact (wk_xst _ _ _ _ _ _ Hw)].
      + rewrite Et, Hat. apply stacked_pushes, (wk_stacked _ _ _ _ _ _ Hw).
      + eapply fpool_mask; [exact Hf | exact (wk_f _ _ _ _ _ _ Hw)].
      + eapply based_after; [exact (wk_base _ _ _ _ _ _ Hw) | exact Hst | destruct Ht2; ne].
      + destruct (wk_st _ _ _ _ _ _ Hw) as [E | [G E]]; [left; exact E|]. right. split; [exact G|].
        rewrite (ch_x _ _ _ Hch); [exact E | destruct Ht2; ne].
    - eapply undisturbed_after; [exact Hst | | reflexivity]. intros q [<- | [<- | [<- | []]]]; cbn; auto.
      destruct Hn as [Hn | ->]; [right; auto | left; auto]. }
  destruct (Z.eqb_spec (deferred_push_count c) 1) as [E1|N1].
  - rewrite E1 in *. change (0 <? 1) with true in HQ. cbv iota in HQ.
    apply wp_bind. unfold emit_x87_tag_clear. apply (wp_tag b Xbase false top tmp2 tmp); auto; try (destruct Ht2; congruence); [exact (wk_base _ _ _ _ _ _ Hw)|].
    intros a' m' Hs Hst. apply wp_ret.
    destruct (Done a' m') with (r := tmp) as (D1 & D2 & D3 & D4); [eapply gpool_same; [exact Hs | exact (wk_g _ _ _ _ _ _ Hw)] | apply Hs | lia | apply HU, Ht | auto | | auto].
    change (phys (xr m top) 0 (Z.to_nat 1)) with [Z.land (xr m top + 0 + 0) 7]. rewrite !Z.add_0_r, land7_small by exact HT.
    eapply state_after_mono; [|exact Hst]. cbn. tauto.
  - destruct (Z.ltb_spec 1 (deferred_push_count c)) as [L|L].
    + replace (0 <? deferred_push_count c) with true in HQ by (symmetry; apply Z.ltb_lt; lia).
      apply wp_bind, (wp_galloc U); [exact (wk_g _ _ _ _ _ _ Hw) | lia|]. intros r a1 Hs Hn Hp1 Hm1.
      assert (Nr : tmp <> r /\ tmp2 <> r /\ top <> r /\ Xbase <> r).
      { destruct HU, Ht, Ht2. repeat split; intros ->; contradiction. }
      destruct Nr as (R1 & R2 & R3 & R4).
      apply wp_bind, (wp_tag_set_valid_batch b Xbase top tmp tmp2 r a1 m (wk_base _ _ _ _ _ _ Hw) HT); auto using scratch_gpr'; try (destruct Ht2; congruence).
      intros a2 m2 Hsp Hst. apply wp_bind, (wp_gfree r U); [eapply gpool_same; eassumption | exact Hs | exact Hn|].
      intros a3 Hp3 Hm3. apply wp_ret.
      destruct (Done a3 m2) with (r := r) as (D1 & D2 & D3 & D4); [exact Hp3 | rewrite Hm3, (proj2 Hsp); exact Hm1 | lia | exact Hs | auto | exact Hst | auto].
    + apply wp_ret. replace (0 <? deferred_push_count c) with false in * by (symmetry; apply Z.ltb_ge; lia).
      apply HQ; auto using undisturbed_refl. exists []. apply state_after_refl.
Qed.

Lemma wp_flush_pushes tmp2 c l a m (Q : X87Cache -> asm -> machine -> Prop) :
  work c l U V a m -> (length U <= 7)%nat -> temp U tmp2 -> tmp <> tmp2 ->
  (forall a' m', work (clean_pushes c) l U V a' m' -> undisturbed U V [tmp; tmp2] m m' -> xr m' top = xr m top -> Q (clean_pushes c) a' m') ->
  wp (x87_flush_deferred_pushes c Xbase top tmp tmp2) Q a m.
Proof. intros Hw Hl Ht2 N HQ. apply (wp_flush_pushes_at tmp2 c l a m); auto. Qed.

(** *** The permutation written *)

Definition clean_perm (c : X87Cache) : X87Cache := if nz (perm_dirty c) then reset_perm c else c.

Lemma wp_flush_perm c l a m (Q : X87Cache -> asm -> machine -> Prop) :
  work c l U V a m -> nz (perm_dirty c) = true -> (length V <= 6)%nat ->
  (forall a' m', work (reset_perm c) l U V a' m' -> undisturbed U V [tmp] m m' -> xr m' top = xr m top -> Q (reset_perm c) a' m') ->
  wp (flush_perm cfg c Xbase top tmp) Q a m.
Proof.
  intros Hw Hd HV HQ. unfold flush_perm. rewrite (wk_xst _ _ _ _ _ _ Hw). pose proof (work_top _ _ _ _ _ _ Hw) as HT.
  assert (Hc : (8 <= fpr_count cfg)%nat) by (unfold fpr_count; destruct (extended_fpr_scratch cfg); lia).
  apply wp_bind, (wp_falloc cfg V); [exact (wk_f _ _ _ _ _ _ Hw) | lia|]. intros r a1 Hs Hn Hp1 Hm1.
  apply wp_bind, (wp_falloc cfg (r :: V)); [exact Hp1 | cbn [length]; lia|]. intros r' a2 Hs' Hn' Hp2 Hm2.
  destruct tmp_apart as (M1 & M2 & M3).
  assert (Hz : forall q, fscratch cfg q = true -> gpr_or_zr q) by (intros q Hq; apply fscratch_range in Hq; unfold gpr_or_zr; lia).
  pose proof (po_perm _ (sk_perm _ _ _ _ (wk_stacked _ _ _ _ _ _ Hw))) as Hpm.
  apply wp_bind, (wp_perm_flush b Xbase Xst top tmp r r' (perm c) m top_reg tmp_reg M1 M3 M2 (Hz r Hs) (Hz r' Hs'));
    [intros ->; apply Hn'; left; reflexivity | exact (wk_base _ _ _ _ _ _ Hw) | exact (wk_st _ _ _ _ _ _ Hw) | exact HT | apply Hpm | apply Hpm |].
  intros l' a3 m3 Hsp [Fx Fv Fn Fo Fa Fl] Hl.
  apply wp_bind, (wp_ffree cfg r' (r :: V)); [eapply fpool_mask; [apply Hsp | exact Hp2] | exact Hs' | exact Hn'|]. intros a4 Hp4 Hm4.
  apply wp_bind, (wp_ffree cfg r V); [exact Hp4 | exact Hs | exact Hn|]. intros a5 Hp5 Hm5. apply wp_ret.
  assert (Et : xr m3 top = xr m top) by (apply Fx, M2). apply HQ; [| |exact Et].
  - constructor; [| | exact Hp5 | | | exact (wk_xst _ _ _ _ _ _ Hw)].
    + rewrite Et, Fa. apply stacked_perm with (c := c); auto; exact (wk_stacked _ _ _ _ _ _ Hw).
    + destruct (wk_g _ _ _ _ _ _ Hw) as [G0 G]. unfold gpool, free. rewrite Hm5, Hm4, (proj1 Hsp), Hm2, Hm1. split; assumption.
    + destruct (wk_base _ _ _ _ _ _ Hw) as (B1 & B2 & B3). split; [exact B1|]. split; [rewrite Fx; auto | exact B3].
    + destruct (wk_st _ _ _ _ _ _ Hw) as [E | [G E]]; [left; exact E|]. right. split; [exact G|]. rewrite Fx; auto.
  - constructor; [| | exact Fn | exact Fo | rewrite Fa; reflexivity].
    + intros q _ Hq _. apply Fx. intros ->. apply Hq. left. reflexivity.
    + intros q Hq. apply Fv; intros ->; (destruct Hq as [Hq | Hq]; [congruence | cbn in Hn'; tauto]).
Qed.

Lemma wp_flush_perm_if c l a m (Q : X87Cache -> asm -> machine -> Prop) :
  work c l U V a m -> (length V <= 6)%nat ->
  (forall a' m', work (clean_perm c) l U V a' m' -> undisturbed U V [tmp] m m' -> xr m' top = xr m top -> Q (clean_perm c) a' m') ->
  wp (perm_flush_before_stack_change cfg c Xbase top tmp) Q a m.
Proof.
  intros Hw HV HQ. unfold perm_flush_before_stack_change, clean_perm in *. destruct (nz (perm_dirty c)) eqn:Hd.
  - eapply wp_flush_perm; eauto.
  - apply wp_ret, HQ; auto using undisturbed_refl.
Qed.

(** *** Push and pop *)

(** The part of a cache the wrappers leave alone. *)
Definition run_of (c : X87Cache) :=
  (run_remaining c, gprs_valid c, base_gpr c, top_gpr c, st_base_gpr c, carried_base c, carried_rc_gpr c).

(** Pending pushes are those since TOP was last written. *)
Definition batch_ok (c : X87Cache) : Prop := deferred_push_count c = 0 \/ nz (top_dirty c) = true.

Lemma run_remaining_of c c' : run_of c' = run_of c -> run_remaining c' = run_remaining c.
Proof. intros [= ->]. reflexivity. Qed.

Lemma work_cache c c' l U' V' a m : work c l U' V' a m -> c' = c -> work c' l U' V' a m.
Proof. intros H ->. exact H. Qed.

Lemma run_with_deferred c d p q : run_of (with_deferred c d p q) = run_of c.
Proof. reflexivity. Qed.

Lemma run_clean_pops c : run_of (clean_pops c) = run_of c.
Proof. unfold clean_pops. destruct (_ <? _); reflexivity. Qed.
Lemma run_clean_pushes c : run_of (clean_pushes c) = run_of c.
Proof. unfold clean_pushes. destruct (_ <? _); reflexivity. Qed.
Lemma run_clean_top c : run_of (clean_top c) = run_of c.
Proof. unfold clean_top. destruct (nz _); reflexivity. Qed.
Lemma run_clean_perm c : run_of (clean_perm c) = run_of c.
Proof. unfold clean_perm. destruct (nz _); reflexivity. Qed.

Lemma pops_cleaned c : 0 <= deferred_pop_count c -> deferred_pop_count (clean_pops c) = 0.
Proof. unfold clean_pops. intros H. destruct (Z.ltb_spec 0 (deferred_pop_count c)); cbn; lia. Qed.
Lemma pushes_cleaned c : 0 <= deferred_push_count c -> deferred_push_count (clean_pushes c) = 0.
Proof. unfold clean_pushes. intros H. destruct (Z.ltb_spec 0 (deferred_push_count c)); cbn; lia. Qed.

Lemma work_push_range c l a m : work c l U V a m -> 0 <= deferred_push_count c <= 8 /\ 0 <= deferred_pop_count c <= 8.
Proof. intros Hw. destruct (sk_defer _ _ _ _ (wk_stacked _ _ _ _ _ _ Hw)). auto. Qed.

(** TOP's register moved by one, the cache's counts with it. *)
Lemma work_top_add c c' l l' a m t :
  work c l U V a m -> x87_get_st_base c' = Xst -> stacked c' l' t (x87_at (mm m) b) ->
  forall a' m', same_pools a a' -> writes m m' top t -> work c' l' U V a' m' /\ undisturbed U V [top] m m'.
Proof.
  intros Hw Hx Hk a' m' Hs [Et F].
  assert (Hst : state_after b [top] (x87_at (mm m) b) m m').
  { split; [apply frame_changes, F|]. rewrite (fr_mm _ _ _ F). split; [apply outside_refl | reflexivity]. }
  split.
  - eapply work_after; [exact Hw | exact Hs | exact Hst | cbn; intuition congruence | cbn; intuition congruence | | exact Hx]. rewrite Et. exact Hk.
  - eapply undisturbed_after; [exact Hst | cbn; auto | reflexivity].
Qed.

Section Push.
Context (tmp2 : Z).
Hypothesis (Ht2 : temp U tmp2) (N12 : tmp <> tmp2) (HlU : (length U <= 6)%nat) (HlV : (length V <= 6)%nat).

Ltac widen := eapply undisturbed_mono; [apply incl_refl | apply incl_refl | | eassumption]; intros ?; cbn; tauto.

Lemma wp_push_wrapper c l a m (Q : X87Cache -> asm -> machine -> Prop) :
  work c l U V a m -> batch_ok c -> nth 7 l None = None ->
  (forall c' u a' m', work c' (Some u :: firstn 7 l) U V a' m' -> undisturbed U V [tmp; tmp2; top] m m' ->
     xr m' top = (xr m top - 1) mod 8 -> run_of c' = run_of c -> batch_ok c' -> Q c' a' m') ->
  wp (x87_push cfg c Xbase top tmp tmp2) Q a m.
Proof.
  intros Hw Hb H7 HQ. unfold x87_push. destruct (Z.ltb_spec 0 (run_remaining c)) as [Hr|Hr].
  - pose proof (work_push_range _ _ _ _ Hw) as [HP HQ0].
    apply wp_bind, (wp_flush_pops c l a m); [exact Hw | exact HlU|]. intros a1 m1 W1 U1 T1.
    set (c1 := clean_pops c) in *. assert (B1 : batch_ok c1) by (unfold c1, clean_pops; destruct (_ <? _); exact Hb).
    assert (Q1 : deferred_pop_count c1 = 0) by (apply pops_cleaned; lia). assert (R1 : run_of c1 = run_of c) by apply run_clean_pops.
    apply wp_bind.
    assert (Cap : forall c2 a2 m2, work c2 l U V a2 m2 -> undisturbed U V [tmp; tmp2] m1 m2 -> xr m2 top = xr m1 top ->
      run_of c2 = run_of c -> deferred_pop_count c2 = 0 -> deferred_push_count c2 < 8 -> batch_ok c2 ->
      wp (c <- (if (deferred_push_count c2 =? 0) && nz (top_dirty c2) then x87_flush_top c2 Xbase top tmp else ret c2) ;;
          c <- perm_flush_before_stack_change cfg c Xbase top tmp ;;
          emit_x87_push_fully_deferred top ;;;
          ret (with_deferred c 1 (s8 (deferred_push_count c + 1)) (deferred_pop_count c))) Q a2 m2).
    { intros c2 a2 m2 W2 U2 T2 R2 Q2 P2 B2. apply wp_bind.
      assert (Fin : forall c3 a3 m3, work c3 l U V a3 m3 -> undisturbed U V [tmp] m2 m3 -> xr m3 top = xr m2 top ->
        run_of c3 = run_of c -> deferred_pop_count c3 = 0 -> deferred_push_count c3 < 8 ->
        (deferred_push_count c3 = 0 <-> nz (top_dirty c3) = false) ->
        wp (c <- perm_flush_before_stack_change cfg c3 Xbase top tmp ;;
            emit_x87_push_fully_deferred top ;;;
            ret (with_deferred c 1 (s8 (deferred_push_count c + 1)) (deferred_pop_count c))) Q a3 m3).
      { intros c3 a3 m3 W3 U3 T3 R3 Q3 P3 B3. apply wp_bind, (wp_flush_perm_if c3 l a3 m3); [exact W3 | exact HlV|].
        intros a4 m4 W4 U4 T4. set (c4 := clean_perm c3) in *.
        assert (R4 : run_of c4 = run_of c) by (rewrite <- R3; apply run_clean_perm).
        assert (E4 : deferred_push_count c4 = deferred_push_count c3 /\ deferred_pop_count c4 = deferred_pop_count c3 /\
                     top_dirty c4 = top_dirty c3 /\ nz (perm_dirty c4) = false).
        { unfold c4, clean_perm. destruct (nz (perm_dirty c3)) eqn:Ed; repeat split; try reflexivity. exact Ed. }
        destruct E4 as (E41 & E42 & E43 & E44).
        apply wp_bind. unfold emit_x87_push_fully_deferred. apply wp_top_add; [exact top_reg | lia|].
        intros a5 m5 Hs5 W5. apply wp_ret. cbn [nz Z.eqb negb] in W5. rewrite land7_mod in W5. change (nz 1) with true in W5. cbv iota in W5.
        assert (Hk := stacked_push c4 l (xr m4 top) _ (wk_stacked _ _ _ _ _ _ W4)).
        rewrite (run_remaining_of c c4 R4), E41, E42, E43, E44, Q3 in Hk.
        specialize (Hk ltac:(lia) eq_refl eq_refl ltac:(lia) B3 H7). cbv zeta in Hk.
        destruct (work_top_add c4 (with_deferred c4 1 (s8 (deferred_push_count c3 + 1)) 0) l _ a4 m4 _ W4 (wk_xst _ _ _ _ _ _ W4) Hk a5 m5 Hs5 W5) as [W6 U6].
        rewrite E41, E42, Q3. eapply (HQ _ _ a5 m5); [exact W6 | | | exact R4 | right; reflexivity].
        - eapply undisturbed_trans; [widen|]. eapply undisturbed_trans; [widen|]. eapply undisturbed_trans; [widen|].
          eapply undisturbed_trans; [widen|]. widen.
        - rewrite (proj1 W5), T4, T3, T2, T1. reflexivity. }
      destruct ((deferred_push_count c2 =? 0) && nz (top_dirty c2)) eqn:Ec.
      - apply andb_true_iff in Ec as [Ec Ed]. apply Z.eqb_eq in Ec.
        apply (wp_flush_top c2 l a2 m2); [exact W2|]. intros a3 m3 W3 U3 T3. apply Fin; auto.
        + rewrite run_clean_top. exact R2.
        + unfold clean_top. rewrite Ed. exact Q2.
        + unfold clean_top. rewrite Ed. exact P2.
        + unfold clean_top. rewrite Ed. cbn. rewrite Ec. split; auto.
      - apply wp_ret, Fin; auto using undisturbed_refl.
        apply andb_false_iff in Ec. destruct B2 as [B2 | B2].
        + rewrite B2 in *. destruct Ec as [Ec | Ec]; [discriminate|]. split; auto.
        + rewrite B2 in *. destruct Ec as [Ec | Ec]; [|discriminate]. apply Z.eqb_neq in Ec. split; [contradiction | discriminate]. }
    destruct (Z.leb_spec 8 (deferred_push_count c1)) as [L|L].
    + apply (wp_flush_pushes tmp2 c1 l a1 m1); [exact W1 | lia | exact Ht2 | exact N12|]. intros a2 m2 W2 U2 T2.
      apply Cap; auto.
      * rewrite run_clean_pushes. exact R1.
      * unfold clean_pushes. destruct (_ <? _); exact Q1.
      * rewrite pushes_cleaned; lia.
      * left. apply pushes_cleaned. lia.
    + apply wp_ret, Cap; auto using undisturbed_refl.
  - destruct tmp_apart as (M1 & M2 & M3). pose proof (pin_gpr U tmp2 HU (tp_in _ _ Ht2)) as G2. pose proof (work_top _ _ _ _ _ _ Hw) as HT.
    assert (N2 : Xbase <> tmp2 /\ top <> tmp2) by (destruct Ht2; split; congruence). destruct N2 as [N2 N3].
    apply wp_bind, (wp_push b Xbase top tmp tmp2 top_reg tmp_reg G2 Nbt M1 N2 M2 N3 N12 a m (wk_base _ _ _ _ _ _ Hw) HT).
    intros a1 m1 Hs [Hst Et]. apply wp_ret. rewrite land7_mod in Hst, Et.
    apply (HQ c (zget (X87State.st (x87_at (mm m) b)) (Z.land ((xr m top - 1) mod 8) 7)) a1 m1); auto.
    + eapply work_after; [exact Hw | exact Hs | exact Hst | destruct Ht2; ne | destruct Ht2; ne | | exact (wk_xst _ _ _ _ _ _ Hw)].
      rewrite Et. apply stacked_push_idle; [exact (wk_stacked _ _ _ _ _ _ Hw) | exact Hr].
    + eapply undisturbed_after; [exact Hst | cbn; tauto |]. apply rest_with_top; [apply sw_range | apply Z.mod_pos_bound; lia].
Qed.
End Push.

Lemma wp_pop_wrapper c l a m v (Q : X87Cache -> asm -> machine -> Prop) :
  work c l U V a m -> (length U <= 7)%nat -> (length V <= 6)%nat -> nth 0 l None = Some v -> batch_ok c ->
  (forall c' a' m', work c' (tl l ++ [None]) U V a' m' -> undisturbed U V [tmp; top] m m' ->
     xr m' top = (xr m top + 1) mod 8 -> run_of c' = run_of c -> batch_ok c' -> Q c' a' m') ->
  wp (x87_pop cfg c Xbase top tmp) Q a m.
Proof.
  intros Hw HlU HlV H0 Hb HQ. unfold x87_pop. pose proof (work_top _ _ _ _ _ _ Hw) as HT. destruct tmp_apart as (M1 & M2 & M3).
  destruct (Z.ltb_spec 0 (run_remaining c)) as [Hr|Hr].
  - apply wp_bind, (wp_flush_perm_if c l a m); [exact Hw | exact HlV|]. intros a1 m1 W1 U1 T1. set (c1 := clean_perm c) in *.
    assert (R1 : run_of c1 = run_of c) by apply run_clean_perm.
    assert (E1 : nz (perm_dirty c1) = false) by (unfold c1, clean_perm; destruct (nz (perm_dirty c)) eqn:E; [reflexivity | exact E]).
    assert (B1 : batch_ok c1) by (clear E1; unfold c1, clean_perm; destruct (nz (perm_dirty c)); exact Hb).
    pose proof (work_push_range _ _ _ _ W1) as [HP HQ0].
    apply wp_bind. unfold emit_x87_pop_top_only. apply wp_top_add; [exact top_reg | lia|].
    intros a2 m2 Hs2 W2. change (nz 0) with false in W2. cbv iota in W2. rewrite land7_mod in W2.
    assert (Hk := stacked_pop c1 l (xr m1 top) _ v (wk_stacked _ _ _ _ _ _ W1)).
    rewrite (run_remaining_of c c1 R1) in Hk. specialize (Hk Hr E1 H0). cbv zeta in Hk.
    assert (Hb' : batch_ok (after_pop c1)).
    { unfold after_pop, batch_ok in *. destruct (Z.ltb_spec 0 (deferred_push_count c1)); cbn [with_deferred deferred_push_count top_dirty]; [|right; reflexivity].
      destruct B1 as [B1 | B1]; [lia|]. rewrite B1. cbn [andb]. destruct (Z.eqb_spec (s8 (deferred_push_count c1 - 1)) 0); auto. }
    assert (Plain : (0 <? deferred_push_count c1) && negb (nz (top_dirty c1)) = false -> Q (after_pop c1) a2 m2).
    { intros Ep. rewrite Ep in Hk.
      assert (Hx : x87_get_st_base (after_pop c1) = Xst) by (unfold after_pop; destruct (_ <? _); exact (wk_xst _ _ _ _ _ _ W1)).
      destruct (work_top_add c1 (after_pop c1) l (tl l ++ [None]) a1 m1 ((xr m1 top + 1) mod 8) W1 Hx Hk a2 m2 Hs2 W2) as [W6 U6].
      apply HQ; auto.
      - eapply undisturbed_trans; (eapply undisturbed_mono; [apply incl_refl | apply incl_refl | | eassumption]; intros ?; cbn; tauto).
      - rewrite (proj1 W2), T1. reflexivity.
      - rewrite <- R1. unfold after_pop. destruct (_ <? _); reflexivity. }
    unfold after_pop in Plain, Hk. destruct (Z.ltb_spec 0 (deferred_push_count c1)) as [L|L].
    + destruct B1 as [B1 | B1]; [lia|]. rewrite B1 in *. cbn [negb andb] in *. apply wp_ret. auto.
    + apply wp_ret. apply Plain. reflexivity.
  - apply wp_bind, (wp_galloc U); [exact (wk_g _ _ _ _ _ _ Hw) | lia|]. intros r a1 Hs Hn Hp1 Hm1.
    assert (Nr : tmp <> r /\ top <> r /\ Xbase <> r /\ Xst <> r).
    { destruct HU, Ht. repeat split; intros ->; try contradiction. destruct pn_st0 as [E | E]; [rewrite E in Hs; discriminate | contradiction]. }
    destruct Nr as (R1 & R2 & R3 & R4).
    apply wp_bind, (wp_pop b Xbase top tmp r top_reg tmp_reg (scratch_gpr' _ Hs) Nbt M1 R3 M2 R2 R1 a1 m (wk_base _ _ _ _ _ _ Hw) HT).
    intros a2 m2 Hs2 [Hst Et]. rewrite land7_mod in Hst, Et. pose proof Hst as (Hch & _ & Hat).
    apply wp_bind, (wp_gfree r U); [eapply gpool_same; eassumption | exact Hs | exact Hn|]. intros a3 Hp3 Hm3. apply wp_ret.
    apply (HQ _ a3 m2); auto.
    + constructor; [| exact Hp3 | | | | exact (wk_xst _ _ _ _ _ _ Hw)].
      * rewrite Et, Hat. apply stacked_pop_idle with (v := v); [exact (wk_stacked _ _ _ _ _ _ Hw) | exact Hr | exact H0].
      * eapply fpool_mask; [|exact (wk_f _ _ _ _ _ _ Hw)]. rewrite Hm3, (proj2 Hs2). exact Hm1.
      * eapply based_after; [exact (wk_base _ _ _ _ _ _ Hw) | exact Hst | ne].
      * destruct (wk_st _ _ _ _ _ _ Hw) as [E | [G E]]; [left; exact E|]. right. split; [exact G|]. rewrite (ch_x _ _ _ Hch); [exact E | ne].
    + eapply undisturbed_after; [exact Hst | |].
      * intros q [<- | [<- | [<- | []]]]; cbn; auto.
      * transitivity (rest (mark true (x87_at (mm m) b) [xr m top])); [apply rest_with_top | reflexivity]; [apply sw_range | apply Z.mod_pos_bound; lia].
    + left. destruct (sk_idle _ _ _ _ (wk_stacked _ _ _ _ _ _ Hw) Hr) as (E & _). exact E.
Qed.
End Steps.

(** A scratch register taken. *)
Lemma work_take c l U V a a' m r : work c l U V a m -> gpool a' (r :: U) -> free_fpr_mask a' = free_fpr_mask a -> work c l (r :: U) V a' m.
Proof. intros [] Hg Hf. constructor; auto. eapply fpool_mask; eassumption. Qed.

Lemma work_give c l U V a a' m r : work c l (r :: U) V a m -> gpool a' U -> free_fpr_mask a' = free_fpr_mask a -> work c l U V a' m.
Proof. intros [] Hg Hf. constructor; auto. eapply fpool_mask; eassumption. Qed.

(** *** Several pops at once *)

Section PopN.
Context (U V : list Z) (tmp : Z).
Hypothesis (HU : pins U) (Ht : temp U tmp) (HlU : (length U <= 6)%nat) (HlV : (length V <= 6)%nat).

(** The state the code of two pops leaves. *)
Lemma work_pop2 r c c' l x' a a' m m' :
  work c l (r :: U) V a m -> ~ In r U -> scratch r = true -> same_pools a a' ->
  leaves b top tmp r x' ((xr m top + 2) mod 8) m m' ->
  stacked c' (tl (tl l ++ [None]) ++ [None]) ((xr m top + 2) mod 8) x' -> x87_get_st_base c' = Xst -> rest x' = rest (x87_at (mm m) b) ->
  work c' (tl (tl l ++ [None]) ++ [None]) (r :: U) V a' m' /\ undisturbed U V [tmp; top] m m' /\ xr m' top = (xr m top + 2) mod 8.
Proof.
  intros Hw Hn Hsr Hs [Hst Et] Hk Hx Hrest.
  assert (Nr : r <> Xbase /\ r <> Xst) by (destruct HU; split; intros ->; [contradiction | destruct pn_st0 as [E | E]; [rewrite E in Hsr; discriminate | contradiction]]).
  split; [|split; [|exact Et]].
  - eapply work_after; [exact Hw | exact Hs | exact Hst | destruct Ht; cbn; intuition congruence | destruct Ht; cbn; intuition congruence | rewrite Et; exact Hk | exact Hx].
  - eapply undisturbed_after; [exact Hst | | exact Hrest]. intros q. cbn. intuition (subst; auto).
Qed.

Lemma wp_pop_n_wrapper c l a m (Q : X87Cache -> asm -> machine -> Prop) :
  work c l U V a m ->
  (forall c' a' m', work c' (tl (tl l ++ [None]) ++ [None]) U V a' m' -> undisturbed U V [tmp; top] m m' ->
     xr m' top = (xr m top + 2) mod 8 -> run_of c' = run_of c -> batch_ok c' -> Q c' a' m') ->
  wp (x87_pop_n cfg c Xbase top tmp 2) Q a m.
Proof.
  intros Hw HQ. unfold x87_pop_n, x87_flush_tags. destruct (tmp_apart U tmp Ht) as (M1 & M2 & M3).
  destruct (work_push_range U V _ _ _ _ Hw) as [HP0 HQ0].
  apply wp_bind, (wp_flush_pops U V tmp HU Ht c l a m); [exact Hw | exact HlU|]. intros a1 m1 W1 U1 T1.
  set (c1 := clean_pops c) in *. assert (Q1 : deferred_pop_count c1 = 0) by (apply pops_cleaned; lia).
  assert (R1 : run_of c1 = run_of c) by apply run_clean_pops.
  apply wp_bind, (wp_galloc U); [apply W1 | lia|]. intros r a2 Hs Hn Hp2 Hm2. pose proof (work_take _ _ _ _ _ _ _ _ W1 Hp2 Hm2) as W2.
  pose proof (pins_cons U r HU Hs) as HU'. pose proof (temp_cons U r tmp Ht) as Ht'. pose proof (temp_new U r HU Hs Hn) as Hr'.
  assert (Nr : tmp <> r) by (intros <-; apply Hn, Ht). pose proof (scratch_gpr' r Hs) as Gr.
  assert (Nrt : top <> r /\ Xbase <> r) by (destruct Hr'; split; congruence). destruct Nrt as [Nrt Nrb].
  apply wp_bind, wp_bind. unfold x87_flush_deferred_pops. replace (0 <? deferred_pop_count c1) with false by (rewrite Q1; reflexivity). apply wp_ret.
  apply (wp_flush_pushes (r :: U) V tmp HU' Ht' r c1 l a2 m1); [exact W2 | cbn [length]; lia | exact Hr' | exact Nr|]. intros a3 m3 W3 U3 T3.
  set (c3 := clean_pushes c1) in *.
  assert (E3 : deferred_push_count c3 = 0 /\ deferred_pop_count c3 = 0 /\ run_of c3 = run_of c).
  { destruct (work_push_range _ V _ _ _ _ W2). split; [apply pushes_cleaned; lia|]. split; [|rewrite <- R1; apply run_clean_pushes].
    unfold c3, clean_pushes. destruct (_ <? _); exact Q1. }
  destruct E3 as (P3 & Q3 & R3). 
  assert (U13 : undisturbed U V [tmp; top] m m3).
  { apply (undisturbed_drop U V [tmp; top] r); [exact Hs | exact Hn|].
    eapply undisturbed_trans; [|eapply undisturbed_mono; [apply incl_refl | apply incl_refl | | exact U3]; intros ?; cbn; tauto].
    destruct U1. constructor; auto. intros q Hq Hq' Hu. apply un_x0; [exact Hq | intros [<- | []]; apply Hq'; cbn; auto|].
    destruct Hu as [Hu | [<- | Hu]]; [left; exact Hu | exfalso; apply Hq'; cbn; auto | right; exact Hu]. }
  assert (T13 : xr m3 top = xr m top) by congruence.
  assert (Fin : forall c4 c' x' a4 m4 a5 m5, work c4 l (r :: U) V a4 m4 ->
    undisturbed U V [tmp; top] m m4 -> xr m4 top = xr m top -> same_pools a4 a5 ->
    leaves b top tmp r x' ((xr m4 top + 2) mod 8) m4 m5 -> stacked c' (tl (tl l ++ [None]) ++ [None]) ((xr m4 top + 2) mod 8) x' ->
    x87_get_st_base c' = Xst -> rest x' = rest (x87_at (mm m4) b) -> run_of c' = run_of c -> batch_ok c' ->
    wp (free_gpr r ;;; ret c') Q a5 m5).
  { intros c4 c' x' a4 m4 a5 m5 W4 U4 T4 Hsp Hl Hk Hx Hrest R B.
    destruct (work_pop2 r c4 c' l x' a4 a5 m4 m5 W4 Hn Hs Hsp Hl Hk Hx Hrest) as (W5 & U5 & T5).
    apply wp_bind, (wp_gfree r U); [apply W5 | exact Hs | exact Hn|]. intros a6 Hg6 Hf6. apply wp_ret, HQ; auto.
    - eapply work_give; eassumption.
    - eapply undisturbed_trans; eassumption.
    - rewrite T5, T4. reflexivity. }
  pose proof (top_reg U HU) as Gt. pose proof (tmp_reg U tmp HU Ht) as Gm. pose proof (run_remaining_of _ _ R3) as Er.
  apply wp_bind. destruct (Z.ltb_spec 0 (run_remaining c3)) as [Hr|Hr].
  - apply wp_bind, (wp_flush_perm_if (r :: U) V tmp HU' Ht' c3 l a3 m3); [exact W3 | exact HlV|]. intros a4 m4 W4 U4 T4. set (c4 := clean_perm c3) in *.
    assert (E4 : deferred_push_count c4 = 0 /\ deferred_pop_count c4 = 0 /\ nz (perm_dirty c4) = false /\ run_of c4 = run_of c).
    { split; [|split; [|split; [|rewrite <- R3; apply run_clean_perm]]]; unfold c4, clean_perm; destruct (nz (perm_dirty c3)) eqn:E; auto. }
    destruct E4 as (P4 & Q4 & D4 & R4).
    apply wp_bind, (wp_pop_n_deferred b Xbase top tmp r Gt Gm Gr Nbt M1 Nrb M2 Nrt Nr 2 a4 m4); [apply W4 | exact (work_top _ _ _ _ _ _ W4) | lia|].
    intros a5 m5 Hsp Hl. rewrite land7_mod in Hl. apply wp_ret. rewrite P4, Q4.
    eapply (Fin c4); [exact W4 | | congruence | exact Hsp | exact Hl | | exact (wk_xst _ _ _ _ _ _ W4) | reflexivity | exact R4 | left; reflexivity].
    + eapply undisturbed_trans; [exact U13|]. eapply undisturbed_mono; [| apply incl_refl | | exact U4]; intros ?; cbn; tauto.
    + apply stacked_pop2; auto; [apply W4 | rewrite (run_remaining_of _ _ R4); lia].
  - apply wp_bind, (wp_pop_n b Xbase top tmp r Gt Gm Gr Nbt M1 Nrb M2 Nrt Nr 2 a3 m3); [apply W3 | exact (work_top _ _ _ _ _ _ W3) | lia|].
    intros a5 m5 Hsp Hl. rewrite land7_mod in Hl. apply wp_ret.
    eapply (Fin c3); [exact W3 | exact U13 | exact T13 | exact Hsp | exact Hl | | exact (wk_xst _ _ _ _ _ _ W3) | | exact R3 | left; exact P3].
    + apply stacked_pop2_idle; [apply W3 | lia].
    + transitivity (rest (mark true (x87_at (mm m3) b) (phys (xr m3 top) 0 (Z.to_nat 2)))); [apply rest_with_top | reflexivity]; [apply sw_range | apply Z.mod_pos_bound; lia].
Qed.
End PopN.

(** ** The end of an instruction *)

(** Nothing is deferred. *)
Definition settled (c : X87Cache) : Prop :=
  deferred_push_count c = 0 /\ deferred_pop_count c = 0 /\ nz (top_dirty c) = false /\ nz (perm_dirty c) = false.

(** The cache with everything written. *)
Definition settle (c : X87Cache) : X87Cache := clean_top (clean_pushes (clean_pops (clean_perm c))).

Lemma settle_settled c : 0 <= deferred_push_count c -> 0 <= deferred_pop_count c -> settled (settle c).
Proof.
  intros HP HQ. unfold settle, settled.
  assert (E1 : nz (perm_dirty (clean_perm c)) = false /\ deferred_push_count (clean_perm c) = deferred_push_count c /\
               deferred_pop_count (clean_perm c) = deferred_pop_count c).
  { unfold clean_perm. destruct (nz (perm_dirty c)) eqn:E; repeat split; auto. }
  destruct E1 as (E1 & E2 & E3). set (c1 := clean_perm c) in *.
  assert (E4 : deferred_pop_count (clean_pops c1) = 0 /\ deferred_push_count (clean_pops c1) = deferred_push_count c1 /\
               perm_dirty (clean_pops c1) = perm_dirty c1).
  { split; [apply pops_cleaned; lia|]. unfold clean_pops. destruct (_ <? _); auto. }
  destruct E4 as (E4 & E5 & E6). set (c2 := clean_pops c1) in *.
  assert (E7 : deferred_push_count (clean_pushes c2) = 0 /\ deferred_pop_count (clean_pushes c2) = 0 /\ perm_dirty (clean_pushes c2) = perm_dirty c2).
  { split; [apply pushes_cleaned; lia|]. unfold clean_pushes. destruct (_ <? _); auto. }
  destruct E7 as (E7 & E8 & E9). set (c3 := clean_pushes c2) in *.
  unfold clean_top. destruct (nz (top_dirty c3)) eqn:Ed; cbn [with_deferred deferred_push_count deferred_pop_count top_dirty perm_dirty];
    repeat split; auto; rewrite E9, E6; exact E1.
Qed.

Lemma run_settle c : run_of (settle c) = run_of c.
Proof. unfold settle. rewrite run_clean_top, run_clean_pushes, run_clean_pops, run_clean_perm. reflexivity. Qed.

Section End_.
Context (U V : list Z) (tmp : Z).
Hypothesis (HU : pins U) (Ht : temp U tmp) (HlU : (length U <= 6)%nat) (HlV : (length V <= 6)%nat).

Lemma wp_if {A} (P : bool) (x y : M A) (Q : A -> asm -> machine -> Prop) a m :
  (P = true -> wp x Q a m) -> (P = false -> wp y Q a m) -> wp (if P then x else y) Q a m.
Proof. destruct P; auto. Qed.

(** The part of x87_end that writes what is deferred, when [last]. *)
Definition end_flushes (last : bool) (c : X87Cache) (k : X87Cache -> M X87Cache) : M X87Cache :=
  c <- (if nz (perm_dirty c) && last then flush_perm cfg c Xbase top tmp else ret c) ;;
  c <- (if (0 <? deferred_pop_count c) && last then x87_flush_deferred_pops c Xbase top tmp else ret c) ;;
  c <- (if (0 <? deferred_push_count c) && last then
          Wd_tmp2 <- alloc_free_gpr ;;
          c <- x87_flush_deferred_pushes c Xbase top tmp Wd_tmp2 ;;
          free_gpr Wd_tmp2 ;;;
          ret c
        else ret c) ;;
  c <- (if nz (top_dirty c) && last then x87_flush_top c Xbase top tmp else ret c) ;;
  k c.

Lemma wp_end_last c l a m k (Q : X87Cache -> asm -> machine -> Prop) :
  work c l U V a m ->
  (forall a' m', work (settle c) l U V a' m' -> undisturbed U V [tmp] m m' -> xr m' top = xr m top -> wp (k (settle c)) Q a' m') ->
  wp (end_flushes true c k) Q a m.
Proof.
  intros Hw HQ. unfold end_flushes, settle in *. rewrite !andb_true_r. apply wp_bind.
  assert (S1 : forall a1 m1, work (clean_perm c) l U V a1 m1 -> undisturbed U V [tmp] m m1 -> xr m1 top = xr m top ->
    wp (c <- (if (0 <? deferred_pop_count (clean_perm c)) && true then x87_flush_deferred_pops (clean_perm c) Xbase top tmp else ret (clean_perm c)) ;;
        c <- (if (0 <? deferred_push_count c) && true then
                Wd_tmp2 <- alloc_free_gpr ;;
                c <- x87_flush_deferred_pushes c Xbase top tmp Wd_tmp2 ;;
                free_gpr Wd_tmp2 ;;;
                ret c
              else ret c) ;;
        c <- (if nz (top_dirty c) && true then x87_flush_top c Xbase top tmp else ret c) ;;
        k c) Q a1 m1).
  { intros a1 m1 W1 U1 T1. rewrite andb_true_r. set (c1 := clean_perm c) in *. apply wp_bind.
    assert (S2 : forall a2 m2, work (clean_pops c1) l U V a2 m2 -> undisturbed U V [tmp] m1 m2 -> xr m2 top = xr m1 top ->
      wp (c <- (if (0 <? deferred_push_count (clean_pops c1)) && true then
                  Wd_tmp2 <- alloc_free_gpr ;;
                  c <- x87_flush_deferred_pushes (clean_pops c1) Xbase top tmp Wd_tmp2 ;;
                  free_gpr Wd_tmp2 ;;;
                  ret c
                else ret (clean_pops c1)) ;;
          c <- (if nz (top_dirty c) && true then x87_flush_top c Xbase top tmp else ret c) ;;
          k c) Q a2 m2).
    { intros a2 m2 W2 U2 T2. rewrite andb_true_r. set (c2 := clean_pops c1) in *. apply wp_bind.
      assert (S3 : forall a3 m3, work (clean_pushes c2) l U V a3 m3 -> undisturbed U V [tmp] m2 m3 -> xr m3 top = xr m2 top ->
        wp (c <- (if nz (top_dirty (clean_pushes c2)) && true then x87_flush_top (clean_pushes c2) Xbase top tmp else ret (clean_pushes c2)) ;;
            k c) Q a3 m3).
      { intros a3 m3 W3 U3 T3. rewrite andb_true_r. set (c3 := clean_pushes c2) in *. apply wp_bind.
        assert (S4 : forall a4 m4, work (clean_top c3) l U V a4 m4 -> undisturbed U V [tmp] m3 m4 -> xr m4 top = xr m3 top -> wp (k (clean_top c3)) Q a4 m4).
        { intros a4 m4 W4 U4 T4. apply HQ; [exact W4 | | congruence]. eapply undisturbed_trans; [exact U1|].
          eapply undisturbed_trans; [exact U2|]. eapply undisturbed_trans; [exact U3 | exact U4]. }
        destruct (nz (top_dirty c3)) eqn:Ed.
        - apply (wp_flush_top U V tmp HU Ht c3 l a3 m3); assumption.
        - apply wp_ret. unfold clean_top in S4. rewrite Ed in S4. apply S4; auto using undisturbed_refl. }
      destruct (0 <? deferred_push_count c2) eqn:Ed.
      - apply wp_bind, (wp_galloc U); [exact (wk_g _ _ _ _ _ _ W2) | lia|]. intros r a3 Hs Hn Hp3 Hm3.
        assert (W3 : work c2 l (r :: U) V a3 m2).
        { destruct W2. constructor; auto. eapply fpool_mask; eassumption. }
        assert (Nr : tmp <> r) by (intros ->; apply Hn, Ht).
        apply wp_bind, (wp_flush_pushes (r :: U) V tmp (pins_cons U r HU Hs) (temp_cons U r tmp Ht) r c2 l a3 m2);
          [exact W3 | cbn [length]; lia | apply temp_new; assumption | exact Nr|].
        intros a4 m4 W4 U4 T4. apply wp_bind, (wp_gfree r U); [exact (wk_g _ _ _ _ _ _ W4) | exact Hs | exact Hn|].
        intros a5 Hp5 Hm5. apply wp_ret. apply S3; [| | exact T4].
        + destruct W4. constructor; auto. eapply fpool_mask; eassumption.
        + apply (undisturbed_drop U V [tmp] r); [exact Hs | exact Hn|].
          eapply undisturbed_mono; [apply incl_refl | apply incl_refl | | exact U4]. intros q. cbn. tauto.
      - apply wp_ret. unfold clean_pushes in S3. rewrite Ed in S3. apply S3; auto using undisturbed_refl. }
    destruct (0 <? deferred_pop_count c1) eqn:Ed.
    - apply (wp_flush_pops U V tmp HU Ht c1 l a1 m1); assumption.
    - apply wp_ret. unfold clean_pops in S2. rewrite Ed in S2. apply S2; auto using undisturbed_refl. }
  destruct (nz (perm_dirty c)) eqn:Ed.
  - apply (wp_flush_perm U V tmp HU Ht c l a m); [exact Hw | exact Ed | exact HlV|]. 
    unfold clean_perm in S1. rewrite Ed in S1. exact S1.
  - apply wp_ret. unfold clean_perm in S1. rewrite Ed in S1. apply S1; auto using undisturbed_refl.
Qed.

(** At the end of a run everything is written; before it nothing is. *)
Lemma wp_end_cached c l a m consumed (Q : X87Cache -> asm -> machine -> Prop) :
  work c l U V a m -> 0 < run_remaining c ->
  let c' := if run_remaining c <=? consumed then settle c else c in
  (forall a' m', work c' l U V a' m' -> undisturbed U V [tmp] m m' -> xr m' top = xr m top -> Q c' a' m') ->
  wp (x87_end cfg c Xbase top tmp consumed) Q a m.
Proof.
  intros Hw Hr c' HQ.
  change (wp (end_flushes (run_remaining c <=? consumed) c (fun c => if 0 <? run_remaining c then ret c else free_gpr top ;;; free_gpr Xbase ;;; ret c)) Q a m).
  unfold c' in *. destruct (run_remaining c <=? consumed).
  - apply (wp_end_last c l a m); [exact Hw|]. intros a' m' W1 U1 T1.
    rewrite (run_remaining_of c (settle c) (run_settle c)). replace (0 <? run_remaining c) with true by (symmetry; apply Z.ltb_lt, Hr).
    apply wp_ret, HQ; assumption.
  - unfold end_flushes. rewrite !andb_false_r. apply wp_bind, wp_ret. rewrite !andb_false_r. apply wp_bind, wp_ret.
    rewrite !andb_false_r. apply wp_bind, wp_ret. rewrite !andb_false_r. apply wp_bind, wp_ret.
    replace (0 <? run_remaining c) with true by (symmetry; apply Z.ltb_lt, Hr). apply wp_ret, HQ; auto using undisturbed_refl.
Qed.

(** Without a run the base and TOP are given back. *)
Lemma wp_end_idle c l a m U' n (Q : X87Cache -> asm -> machine -> Prop) :
  work c l U V a m -> run_remaining c <= 0 <= n ->
  (forall r, In r U <-> In r (top :: Xbase :: U')) -> ~ In top (Xbase :: U') -> ~ In Xbase U' ->
  (forall a' m', gpool a' U' -> fpool cfg a' V -> stacked (settle c) l (xr m top) (x87_at (mm m') b) ->
     undisturbed U V [tmp] m m' -> Q (settle c) a' m') ->
  wp (x87_end cfg c Xbase top tmp n) Q a m.
Proof.
  intros Hw Hr Hset N1 N2 HQ.
  change (wp (end_flushes (run_remaining c <=? n) c (fun c => if 0 <? run_remaining c then ret c else free_gpr top ;;; free_gpr Xbase ;;; ret c)) Q a m).
  replace (run_remaining c <=? n) with true by (symmetry; apply Z.leb_le; lia).
  apply (wp_end_last c l a m); [exact Hw|]. intros a' m' W1 U1 T1.
  rewrite (run_remaining_of c (settle c) (run_settle c)). replace (0 <? run_remaining c) with false by (symmetry; apply Z.ltb_ge; lia).
  destruct HU as [Hsc Hb Htp _].
  apply wp_bind, (wp_gfree top (Xbase :: U')); [eapply gpool_ext; [exact Hset | exact (wk_g _ _ _ _ _ _ W1)] | apply Hsc, Htp | exact N1|].
  intros a1 Hp1 Hm1. apply wp_bind, (wp_gfree Xbase U'); [exact Hp1 | apply Hsc, Hb | exact N2|]. intros a2 Hp2 Hm2. apply wp_ret.
  apply HQ; [exact Hp2 | | | exact U1].
  - eapply fpool_mask; [|exact (wk_f _ _ _ _ _ _ W1)]. congruence.
  - rewrite <- T1. exact (wk_stacked _ _ _ _ _ _ W1).
Qed.
End End_.
End Refine.
