(* ===== verification/TranslateProps.v ===== *)
(** An x87 instruction by its own translator, and two or three of them by a
    fusion: the code they emit, whatever the cache has deferred, takes the
    machine to one that stands for the state the instruction set gives, and so
    does the code of a run.  The last theorems are about an FSTSW that ends a
    run and about TOP written while pushes are deferred, where it does not. *)

From S2P Require Import Prelude X87State X87Props F64 F64Props F32Props GuestMem Fpu Emit Assembler IROperand A64Exec CodeExec InsnRules AccessProps.
From S2P Require Import TranslatorHelpers Pools X87Memory AccessProps X87Helpers X87HelpersProps PermProps X87Cache X87IRLower.
From S2P Require Import LowerRel LowerValues LowerNodes LowerEpilogue LowerProps TranslatorX87Internal TranslatorX87 TranslatorX87Fusion Translator CacheView CacheRefine.
From S2P Require OptimizeProps LowerGuest.

Section Translate.
Context (cfg : RosettaConfig) (tgt : Target) (segbase : Z -> Z) (b : Z).
Hypothesis (Hoff : 0 <= x87_state_offset tgt < 2 ^ 24) (Hb72 : 0 <= b /\ b + 72 <= 2 ^ 64).

(** ** The machine between and inside instructions *)

(** What the machine keeps of the guest outside the x87 stack. *)
Record guest_at (s : fpu) (m : machine) : Prop := mkGuestAt {
  ga_regs : forall r, 0 <= r < 16 -> xr m r = regs s r;
  ga_mem : agree b (mm m) (gmem s);
  ga_rest : rest (x87_at (mm m) b) = (cw s, Z.land (sw s) (Z.lnot kTopOfStack));
  ga_swr : 0 <= sw s < 2 ^ 16;
  ga_flags : zf s = Z.testbit (nzcv m) 30 /\ pf s = Z.testbit (nzcv m) 28 /\ cf s = negb (Z.testbit (nzcv m) 29);
  ga_thread : b = u64 (xr m X18 + x87_state_offset tgt)
}.

(** The host's registers outside the pools. *)
Record hosts (m m' : machine) : Prop := mkHosts {
  ho_x : forall r, 16 <= r -> scratch r = false -> xr m' r = xr m r;
  ho_v : forall r, fscratch cfg r = false -> vr m' r = vr m r
}.

Lemma hosts_refl m : hosts m m.
Proof. constructor; auto. Qed.

Lemma hosts_trans m m1 m2 : hosts m m1 -> hosts m1 m2 -> hosts m m2.
Proof. intros [A1 A2] [B1 B2]. constructor; intros r Hr; [intros Hs; rewrite B1, A1; auto | rewrite B2, A2; auto]. Qed.

Lemma guest_kept s U V l m m' : (forall r, In r l -> scratch r = true) ->
  guest_at s m -> undisturbed cfg b U V l m m' -> guest_at s m' /\ hosts m m'.
Proof.
  intros Hl [] [].
  assert (Hx : forall r, 0 <= r -> scratch r = false -> xr m' r = xr m r).
  { intros r H0 Hs. apply un_x; [exact H0 | | left; exact Hs]. intros Hin. apply Hl in Hin. congruence. }
  split; constructor; auto.
  - intros r Hr. rewrite Hx; [apply ga_regs0, Hr | lia | apply guest_not_scratch, Hr].
  - eapply agree_outside; [exact un_mem | exact ga_mem0].
  - rewrite un_rest. exact ga_rest0.
  - rewrite un_nzcv. exact ga_flags0.
  - rewrite Hx; [exact ga_thread0 | unfold X18; lia | reflexivity].
  - intros r H16. apply Hx. lia.
Qed.

(** The registers a run or an instruction holds: the state's base in X22, TOP
    in X23, and in a run the register file's base in X28. *)
Definition held_regs (Xst : Z) : list Z := if 0 <=? Xst then [28; 23; 22] else [23; 22].

#[local] Abbreviation work := (work cfg b 22).

(** Nothing is deferred between the runs; inside, the registers are held. *)
Record between (c : X87Cache) (s : fpu) (a : asm) (m : machine) : Prop := mkBetween {
  bw_guest : guest_at s m;
  bw_batch : batch_ok c;
  bw_carried : carried_any c = false;
  bw_cache :
    if active c && nz (gprs_valid c) then
      work 28 23 c (stack s) [28; 23; 22] [] a m /\ xr m 23 = top s /\ base_gpr c = 22 /\ top_gpr c = 23 /\ st_base_gpr c = 28
    else nz (gprs_valid c) = false /\ settled c /\ stacked c (stack s) (top s) (x87_at (mm m) b) /\
         gpool a [] /\ fpool cfg a []
}.

(** What the run's part of a cache says of the registers it holds. *)
Definition holds_as (Xst : Z) (c : X87Cache) : Prop :=
  carried_any c = false /\
  if active c then nz (gprs_valid c) = true /\ base_gpr c = 22 /\ top_gpr c = 23 /\ st_base_gpr c = 28 /\ Xst = 28
  else nz (gprs_valid c) = false /\ Xst = -1.

Lemma holds_as_run Xst c c' : run_of c' = run_of c -> holds_as Xst c -> holds_as Xst c'.
Proof.
  unfold run_of, holds_as, active, carried_any. intros [= E1 E2 E3 E4 E5 E6 E7]. rewrite E1, E2, E3, E4, E5, E6, E7. auto.
Qed.

Lemma holds_as_st Xst c : holds_as Xst c -> Xst = 28 \/ Xst = -1.
Proof. unfold holds_as. destruct (active c); intuition. Qed.

Section Inside.
Context (Xst : Z) (m0 : machine) (c0 : X87Cache).
Hypothesis (Hheld : holds_as Xst c0).

(** Inside an instruction: the stack is [l] with TOP [T], the registers [U]
    and [V] are taken. *)
Record mid (s : fpu) (c : X87Cache) (l : list (option Z)) (T : Z) (U V : list Z) (a : asm) (m : machine) : Prop := mkMid {
  md_work : work Xst 23 c l U V a m;
  md_guest : guest_at s m;
  md_hosts : hosts m0 m;
  md_top : xr m 23 = T;
  md_run : run_of c = run_of c0;
  md_batch : batch_ok c
}.

Lemma st_ne_top : Xst <> 23.
Proof. destruct (holds_as_st _ _ Hheld); lia. Qed.

#[local] Hint Resolve st_ne_top : core.

Lemma held_pins : pins 22 Xst 23 (held_regs Xst).
Proof.
  destruct (holds_as_st _ _ Hheld) as [-> | ->]; constructor; cbn; auto; intros r; intuition; subst; reflexivity.
Qed.

(** An instruction's temporaries are X24 and X25. *)
Definition temps_of (U : list Z) : Prop := pins 22 Xst 23 U /\ temp 22 Xst 23 U 24.

Lemma temps_24 : temps_of (24 :: held_regs Xst).
Proof.
  split; [apply pins_cons; [apply held_pins | reflexivity]|].
  destruct (holds_as_st _ _ Hheld) as [-> | ->]; constructor; cbn; auto; lia.
Qed.

Lemma temps_cons U r : temps_of U -> scratch r = true -> temps_of (r :: U).
Proof. intros [Hp Ht] Hs. split; [apply pins_cons; assumption | apply temp_cons, Ht]. Qed.

Lemma temps_25 : temp 22 Xst 23 (25 :: 24 :: held_regs Xst) 25.
Proof. destruct (holds_as_st _ _ Hheld) as [-> | ->]; constructor; cbn; auto; lia. Qed.

(** A step of the pools. *)
Lemma mid_pools s c l T U V U' V' a a' m :
  mid s c l T U V a m -> gpool a' U' -> fpool cfg a' V' -> mid s c l T U' V' a' m.
Proof. intros [[] ] Hg Hf. constructor; auto. constructor; auto. Qed.

(** A step of the machine that keeps the x87 state. *)
Lemma mid_change s c c' l l' T T' U V U1 V1 ls a a' m m' :
  mid s c l T U V a m -> work Xst 23 c' l' U V a' m' -> undisturbed cfg b U1 V1 ls m m' ->
  (forall r, In r ls -> scratch r = true) -> xr m' 23 = T' -> run_of c' = run_of c -> batch_ok c' ->
  mid s c' l' T' U V a' m'.
Proof.
  intros [] Hw Hu Hl Ht Hr Hbo. destruct (guest_kept s U1 V1 ls m m' Hl md_guest0 Hu) as [Hg Hh].
  constructor; auto; [eapply hosts_trans; eassumption | congruence].
Qed.

(** ** Registers taken and given back *)

Lemma wp_alloc_gpr i U (Q : Z -> asm -> machine -> Prop) a m :
  let r := zget kGprScratchPool i in
  gpool a U -> scratch r = true -> ~ In r U ->
  (forall a', gpool a' (r :: U) -> free_fpr_mask a' = free_fpr_mask a -> Q r a' m) -> wp (alloc_gpr i) Q a m.
Proof.
  intros r [H0 Hp] Hs Hn HQ. pose proof (scratch_gpr _ Hs) as Hr.
  assert (Ef : has_bit (free_gpr_mask a) r = true).
  { rewrite has_bit_testbit by lia. specialize (Hp r ltac:(lia)). unfold free in Hp. rewrite Hp, Hs. apply not_used in Hn. rewrite Hn. reflexivity. }
  eapply (wp_pool _ _ _ _ r (set_gpr_mask a (clear_bit (free_gpr_mask a) r))); [| reflexivity |].
  - unfold alloc_gpr. fold r. rewrite Ef. reflexivity.
  - apply HQ; [|reflexivity]. split; [cbn; apply Z.land_nonneg; left; exact H0|].
    intros i' Hi'. unfold free. cbn [set_gpr_mask free_gpr_mask]. rewrite used_cons. specialize (Hp i' Hi'). unfold free in Hp.
    destruct (Z.ltb_spec i' 32).
    + rewrite clear_bit_testbit, Hp by lia. destruct (scratch i'), (i' =? r), (used i' U); reflexivity.
    + assert (E : scratch i' = false) by (unfold scratch; destruct (Z.ltb_spec i' 30); [lia | apply andb_false_r]).
      rewrite E. unfold clear_bit. rewrite Z.land_spec, Hp, E. reflexivity.
Qed.

Lemma wp_take_gpr i s c l T U V a m (Q : Z -> asm -> machine -> Prop) :
  let r := zget kGprScratchPool i in
  mid s c l T U V a m -> scratch r = true -> ~ In r U ->
  (forall a', mid s c l T (r :: U) V a' m -> Q r a' m) -> wp (alloc_gpr i) Q a m.
Proof.
  intros r Hm Hs Hn HQ. apply (wp_alloc_gpr i U); [apply Hm | exact Hs | exact Hn|]. intros a' Hg Hf. apply HQ.
  eapply mid_pools; [exact Hm | exact Hg | eapply fpool_mask; [exact Hf | apply Hm]].
Qed.

Lemma wp_give_gpr r s c l T U V a m (Q : unit -> asm -> machine -> Prop) :
  mid s c l T (r :: U) V a m -> scratch r = true -> ~ In r U ->
  (forall a', mid s c l T U V a' m -> Q tt a' m) -> wp (free_gpr r) Q a m.
Proof.
  intros Hm Hs Hn HQ. apply (wp_gfree r U); [apply Hm | exact Hs | exact Hn|]. intros a' Hg Hf. apply HQ.
  eapply mid_pools; [exact Hm | exact Hg | eapply fpool_mask; [exact Hf | apply Hm]].
Qed.

Lemma gpool_mask a a' U : free_gpr_mask a' = free_gpr_mask a -> gpool a U -> gpool a' U.
Proof. intros E [H0 H]. unfold gpool, free. rewrite E. auto. Qed.

Lemma wp_take_fpr s c l T U V a m (Q : Z -> asm -> machine -> Prop) :
  mid s c l T U V a m -> (length V < 6)%nat ->
  (forall r a', fscratch cfg r = true -> ~ In r V -> mid s c l T U (r :: V) a' m -> Q r a' m) -> wp alloc_free_fpr Q a m.
Proof.
  intros Hm HV HQ.
  apply (wp_falloc cfg V); [apply Hm | unfold fpr_count; destruct (extended_fpr_scratch cfg); lia|].
  intros r a' Hs Hn Hp Hg. apply HQ; auto. eapply mid_pools; [exact Hm | eapply gpool_mask; [exact Hg | apply Hm] | exact Hp].
Qed.

Lemma wp_give_fpr r s c l T U V a m (Q : unit -> asm -> machine -> Prop) :
  mid s c l T U (r :: V) a m -> fscratch cfg r = true -> ~ In r V ->
  (forall a', mid s c l T U V a' m -> Q tt a' m) -> wp (free_fpr cfg r) Q a m.
Proof.
  intros Hm Hs Hn HQ. apply (wp_ffree cfg r V); [apply Hm | exact Hs | exact Hn|]. intros a' Hf Hg. apply HQ.
  eapply mid_pools; [exact Hm | eapply gpool_mask; [exact Hg | apply Hm] | exact Hf].
Qed.

(** ** Registers of the stack read and written *)

Section At.
Context (U : list Z) (tmp : Z).
Hypothesis (HU : pins 22 Xst 23 U) (Ht : temp 22 Xst 23 U tmp).

Lemma reg_facts : gpr 23 /\ gpr tmp /\ 22 <> tmp /\ Xst <> tmp /\ scratch tmp = true /\ 23 <> tmp.
Proof.
  pose proof (pn_scratch _ _ _ _ HU tmp (tp_in _ _ _ _ _ Ht)) as Hs. pose proof (scratch_gpr' _ Hs). destruct Ht.
  refine (conj _ (conj H (conj _ (conj _ (conj Hs _))))); [unfold gpr; lia | congruence..].
Qed.

(** The register that addresses a slot: its index, or its offset. *)
Definition key_of (m : machine) (r i : Z) : Prop :=
  gpr r /\ (r = tmp \/ r = 23) /\ xr m r = if 0 <=? Xst then i else 8 + 8 * i.

Lemma wp_load_key s m d Dd (Q : Z -> asm -> machine -> Prop) :
  based b 22 m -> st_based b Xst m -> 0 <= xr m 23 < 8 -> 0 <= d < 8 -> gpr_or_zr Dd ->
  let i := Z.land (xr m 23 + d) 7 in
  (forall r s' m', same_pools s s' -> (forall r', r' <> tmp -> xr m' r' = xr m r') -> nzcv m' = nzcv m -> mm m' = mm m ->
     vr m' = set_reg (vr m) Dd (zget (X87State.st (x87_at (mm m) b)) i) -> key_of m' r i -> Q r s' m') ->
  wp (emit_load_st 22 23 d tmp Dd Xst) Q s m.
Proof.
  intros Hb Hst HT Hd HD i HQ. destruct reg_facts as (G23 & Gt & N1 & N2 & _ & N3). pose proof (phys_index_range (xr m 23) d) as Hi.
  fold i in Hi. unfold emit_load_st. rewrite zget_st in HQ by exact Hi. pose proof Hb as (Hg & Eb & Hr). unfold key_of in HQ.
  destruct Hst as [Exst | [Gst Est]].
  - rewrite Exst in *. cbn [Z.leb Z.compare] in *. apply wp_bind, wp_st_offset; try assumption. intros s1 m1 P1 [E1 F1]. fold i in E1.
    exec_code. apply HQ; [pools|..]; regs; try apply F1.
    + intros r' Hr'. apply F1. cbn. intuition.
    + unfold i. rewrite E1, (fr_x _ _ _ F1), Eb by not_in. unfold i. rewrite (slot_offset b 22 23 m d Hb), (fr_v _ _ _ F1), (fr_mm _ _ _ F1). reflexivity.
    + auto.
  - assert (E0 : (0 <=? Xst) = true) by (apply Z.leb_le; unfold gpr in Gst; lia). rewrite E0 in *.
    destruct (Z.eqb_spec d 0) as [Ed|_].
    + assert (Ei : i = xr m 23) by (unfold i; rewrite Ed, Z.add_0_r; apply land7_small, HT).
      exec_code. apply HQ; [pools|..]; regs; try reflexivity.
      * unfold i. rewrite <- (slot_scaled b 22 23 m d Hb). fold i. rewrite Est, Ei. reflexivity.
      * auto.
    + apply wp_bind, wp_phys_index; try assumption. intros s1 m1 P1 [E1 F1]. fold i in E1.
      exec_code. apply HQ; [pools|..]; regs; try apply F1.
      * intros r' Hr'. apply F1. cbn. intuition.
      * rewrite E1, (fr_x _ _ _ F1), Est by not_in. unfold i. rewrite (slot_scaled b 22 23 m d Hb), (fr_v _ _ _ F1), (fr_mm _ _ _ F1). reflexivity.
      * auto.
Qed.

Lemma wp_store_key s m i r Dd (Q : unit -> asm -> machine -> Prop) :
  based b 22 m -> st_based b Xst m -> 0 <= i < 8 -> gpr_or_zr Dd -> key_of m r i ->
  (forall s' m', same_pools s s' ->
     state_after b [] (with_st (x87_at (mm m) b) (zset (X87State.st (x87_at (mm m) b)) i (u64 (vr m Dd)))) m m' -> Q tt s' m') ->
  wp (emit_store_st_at_offset 22 r Dd Xst) Q s m.
Proof.
  intros Hb Hst Hi HD (Gr & _ & Er) HQ. unfold emit_store_st_at_offset.
  rewrite <- x87_at_st in HQ by exact Hi. pose proof Hb as (Hg & Eb & Hr).
  assert (Done : forall s', same_pools s s' -> Q tt s' (set_mm m (store 8 (mm m) (b + 8 + 8 * i) (vr m Dd)))).
  { intros s' P. apply HQ; [exact P|]. split; [|split].
    - apply changes_mm, changes_refl.
    - cbn [mm set_mm]. apply outside_store; lia.
    - reflexivity. }
  destruct Hst as [Exst | [Gst Est]].
  - rewrite Exst in *. cbn [Z.leb Z.compare] in *. exec_code.
    rewrite Er, Eb, Z.shiftl_0_r, (u64_small (8 + 8 * i)), u64_small by lia. replace (b + (8 + 8 * i)) with (b + 8 + 8 * i) by lia.
    apply Done. pools.
  - assert (E0 : (0 <=? Xst) = true) by (apply Z.leb_le; unfold gpr in Gst; lia). rewrite E0 in *. exec_code.
    rewrite Er, Est, (u64_small i), Z.shiftl_mul_pow2 by lia. replace (b + 8 + i * 2 ^ 3) with (b + 8 + 8 * i) by lia.
    rewrite u64_small by lia. apply Done. pools.
Qed.

Lemma depth_range l d v : length l = 8%nat -> 0 <= d -> nth (Z.to_nat d) l (None : option Z) = Some v -> d < 8.
Proof.
  intros Hl Hd Hn. destruct (Nat.lt_ge_cases (Z.to_nat d) 8) as [L|L]; [lia|]. rewrite nth_overflow in Hn by lia. discriminate.
Qed.

Lemma fscratch_or_zr r : fscratch cfg r = true -> gpr_or_zr r.
Proof. intros H. apply fscratch_range in H. unfold gpr_or_zr. lia. Qed.

(** ST(d) read. *)
Lemma wp_load_depth s c l T V a m d v Dd (Q : Z -> asm -> machine -> Prop) :
  mid s c l T U V a m -> 0 <= d -> nth (Z.to_nat d) l None = Some v -> fscratch cfg Dd = true ->
  (forall r a' m', mid s c l T U V a' m' -> vr m' Dd = v -> in64 v -> (forall q, q <> Dd -> vr m' q = vr m q) ->
     key_of m' r (Z.land (T + resolve_depth c d) 7) -> (forall q, q <> tmp -> xr m' q = xr m q) -> Q r a' m') ->
  wp (emit_load_st 22 23 (resolve_depth c d) tmp Dd Xst) Q a m.
Proof.
  intros Hm Hd Hn HD HQ. destruct reg_facts as (_ & Gt & N1 & N2 & Hst & N3). pose proof Hm as [Hw _ _ ET _ _].
  pose proof (wk_stacked _ _ _ _ _ _ _ _ _ _ _ Hw) as Hk. pose proof (depth_range l d v (sk_len _ _ _ _ Hk) Hd Hn) as Hd8.
  destruct (holds_bounds _ _ _ _ Hk d v ltac:(lia) Hn) as [_ Ev]. rewrite ET in Ev.
  apply wp_load_key; [exact (wk_base _ _ _ _ _ _ _ _ _ _ _ Hw) | exact (wk_st _ _ _ _ _ _ _ _ _ _ _ Hw) | apply Hk | | apply fscratch_or_zr, HD |].
  { apply resolve_range; [intros _; apply (sk_perm _ _ _ _ Hk) | lia]. }
  intros r s' m' Hs Hx Hz Hmm Hv Hkey. rewrite ET in Hv, Hkey. rewrite Ev in Hv. apply HQ; auto.
  - assert (E23 : xr m' 23 = xr m 23) by (apply Hx, N3).
    eapply (mid_change s c c l l T T U V U [] [tmp]); [exact Hm | | | intros q [<- | []]; exact Hst | congruence | reflexivity | apply Hm].
    + destruct Hw. constructor; auto; [rewrite E23, Hmm; exact wk_stacked | eapply gpool_same; eassumption | eapply fpool_mask; [apply Hs | exact wk_f] | |].
      * destruct wk_base as (? & ? & ?). split; [assumption|]. rewrite Hx by congruence. auto.
      * destruct wk_st as [E | [G E]]; [left; exact E | right; split; [exact G|]]. rewrite Hx by congruence. exact E.
    + constructor; auto; [|rewrite Hv | rewrite Hmm; apply outside_refl | rewrite Hmm; reflexivity].
      * intros q _ Hq _. apply Hx. intros ->. apply Hq. left. reflexivity.
      * intros q [Hq | []]. apply set_reg_ne. intros ->. congruence.
  - rewrite Hv. apply set_reg_eq.
  - rewrite <- Ev. unfold in64. apply x87_st_range, phys_index_range.
  - intros q Hq. rewrite Hv. apply set_reg_ne, Hq.
Qed.

Lemma set_mid s c l T V a m a' m' d u v Dd ls :
  mid s c l T U V a m -> same_pools a a' -> 0 <= d < 8 -> nth (Z.to_nat d) l None = Some u -> vr m Dd = v -> in64 v ->
  (forall r, In r ls -> r = tmp) ->
  state_after b ls (with_st (x87_at (mm m) b)
    (zset (X87State.st (x87_at (mm m) b)) (Z.land (T + resolve_depth c d) 7) (u64 (vr m Dd)))) m m' ->
  mid s c (list_set l (Z.to_nat d) (Some v)) T U V a' m'.
Proof.
  intros Hm Hs Hd Hn Ev Hv64 Hls Hst. pose proof Hm as [Hw _ _ ET _ _]. destruct reg_facts as (_ & _ & N1 & N2 & Hsc & N3).
  assert (Hni : forall q, q <> tmp -> ~ In q ls) by (intros q Hq Hin; apply Hq, Hls, Hin). pose proof Hst as (Hch & _).
  assert (E23 : xr m' 23 = T) by (rewrite (ch_x _ _ _ Hch), ET by (apply Hni, N3); reflexivity).
  rewrite Ev, (u64_small v) in Hst by exact Hv64.
  eapply mid_change; [exact Hm | | | | exact E23 | reflexivity | apply Hm].
  - eapply work_after; [exact Hw | exact Hs | exact Hst | apply Hni, N1 | left; apply Hni, N2 | | exact (wk_xst _ _ _ _ _ _ _ _ _ _ _ Hw)].
    rewrite E23, <- ET. eapply stacked_set; [|exact Hd | exact Hn]. rewrite ET. pose proof (wk_stacked _ _ _ _ _ _ _ _ _ _ _ Hw) as H. rewrite ET in H. exact H.
  - eapply (undisturbed_after cfg b U V ls); [exact Hst | auto | reflexivity].
  - intros r Hr. rewrite (Hls r Hr). exact Hsc.
Qed.

(** ST(d) written. *)
Lemma wp_store_depth s c l T V a m d u v Dd (Q : unit -> asm -> machine -> Prop) :
  mid s c l T U V a m -> 0 <= d < 8 -> nth (Z.to_nat d) l None = Some u -> fscratch cfg Dd = true -> vr m Dd = v -> in64 v ->
  (forall a' m', mid s c (list_set l (Z.to_nat d) (Some v)) T U V a' m' -> vr m' = vr m -> Q tt a' m') ->
  wp (emit_store_st 22 23 (resolve_depth c d) tmp Dd Xst) Q a m.
Proof.
  intros Hm Hd Hn HD Ev Hv64 HQ. destruct reg_facts as (G23 & Gt & N1 & N2 & _ & N3). pose proof Hm as [Hw _ _ ET _ _].
  pose proof (wk_stacked _ _ _ _ _ _ _ _ _ _ _ Hw) as Hk.
  apply (wp_store_st b 22 Xst 23 tmp G23 Gt N1 N2); [exact (wk_base _ _ _ _ _ _ _ _ _ _ _ Hw) | exact (wk_st _ _ _ _ _ _ _ _ _ _ _ Hw) | apply Hk | | apply fscratch_or_zr, HD |].
  { apply resolve_range; [intros _; apply (sk_perm _ _ _ _ Hk) | lia]. }
  intros s' m' Hs Hst. rewrite ET in Hst. apply HQ; [|apply Hst].
  eapply set_mid; [exact Hm | exact Hs | exact Hd | exact Hn | exact Ev | exact Hv64 | | exact Hst]. intros r [<- | []]. reflexivity.
Qed.

Lemma wp_store_at s c l T V a m d u v r Dd (Q : unit -> asm -> machine -> Prop) :
  mid s c l T U V a m -> 0 <= d < 8 -> nth (Z.to_nat d) l None = Some u -> fscratch cfg Dd = true -> vr m Dd = v -> in64 v ->
  key_of m r (Z.land (T + resolve_depth c d) 7) ->
  (forall a' m', mid s c (list_set l (Z.to_nat d) (Some v)) T U V a' m' -> vr m' = vr m -> (forall q, xr m' q = xr m q) -> Q tt a' m') ->
  wp (emit_store_st_at_offset 22 r Dd Xst) Q a m.
Proof.
  intros Hm Hd Hn HD Ev Hv64 Hkey HQ. pose proof Hm as [Hw _ _ ET _ _].
  apply (wp_store_key a m (Z.land (T + resolve_depth c d) 7) r);
    [exact (wk_base _ _ _ _ _ _ _ _ _ _ _ Hw) | exact (wk_st _ _ _ _ _ _ _ _ _ _ _ Hw) | apply land7_range | apply fscratch_or_zr, HD | exact Hkey |].
  intros s' m' Hs Hst. apply HQ; [|apply Hst|].
  - eapply (set_mid s c l T V a m s' m' d u v Dd []); [exact Hm | exact Hs | exact Hd | exact Hn | exact Ev | exact Hv64 | intros ? [] | exact Hst].
  - intros q. apply Hst. intros [].
Qed.
End At.

(** A value computed in a SIMD register of the pool. *)
Lemma mid_putv s c l T U V a a' m Dd v : mid s c l T U V a m -> same_pools a a' -> fscratch cfg Dd = true ->
  mid s c l T U V a' (putv m Dd v).
Proof.
  intros Hm Hs HD. pose proof Hm as [Hw _ _ ET _ _].
  eapply (mid_change s c c l l T T U V U [] []); [exact Hm | | | intros q Hq; destruct Hq | exact ET | reflexivity | apply Hm].
  - destruct Hw. constructor; auto; [eapply gpool_same; eassumption | eapply fpool_mask; [apply Hs | exact wk_f]].
  - constructor; auto using outside_refl; [intros q _ _ _; reflexivity|]. intros q [Hq | []]. apply set_reg_ne. intros ->. congruence.
Qed.

(** ** Push and pop *)

Lemma wp_push_mid s c l T U V a m (Q : X87Cache -> asm -> machine -> Prop) :
  mid s c l T U V a m -> temps_of U -> temp 22 Xst 23 U 25 -> (length U <= 6)%nat -> (length V <= 6)%nat ->
  nth 7 l None = None ->
  (forall c' u a' m', mid s c' (Some u :: firstn 7 l) ((T - 1) mod 8) U V a' m' -> (forall r, In r V -> vr m' r = vr m r) -> Q c' a' m') ->
  wp (x87_push cfg c 22 23 24 25) Q a m.
Proof.
  intros Hm [HU Ht] Ht2 HlU HlV H7 HQ. pose proof Hm as [Hw _ _ ET _ _].
  apply (wp_push_wrapper cfg b 22 Xst 23 ltac:(lia) st_ne_top U V 24 HU Ht 25 Ht2 ltac:(lia) HlU HlV c l a m); [exact Hw | apply Hm | exact H7|].
  intros c' u a' m' W Hu T' R B. apply (HQ c' u a' m').
  - eapply mid_change; [exact Hm | exact W | exact Hu | | congruence | exact R | exact B]. intros r [<- | [<- | [<- | []]]]; reflexivity.
  - intros r Hr. apply Hu. right. exact Hr.
Qed.

Lemma wp_pop_mid s c l T U V a m v (Q : X87Cache -> asm -> machine -> Prop) :
  mid s c l T U V a m -> temps_of U -> (length U <= 7)%nat -> (length V <= 6)%nat ->
  nth 0 l None = Some v ->
  (forall c' a' m', mid s c' (tl l ++ [None]) ((T + 1) mod 8) U V a' m' -> (forall r, In r V -> vr m' r = vr m r) -> Q c' a' m') ->
  wp (x87_pop cfg c 22 23 24) Q a m.
Proof.
  intros Hm [HU Ht] HlU HlV H0 HQ. pose proof Hm as [Hw _ _ ET _ _].
  apply (wp_pop_wrapper cfg b 22 Xst 23 ltac:(lia) st_ne_top U V 24 HU Ht c l a m v); [exact Hw | exact HlU | exact HlV | exact H0 | apply Hm |].
  intros c' a' m' W Hu T' R B. apply (HQ c' a' m').
  - eapply mid_change; [exact Hm | exact W | exact Hu | | congruence | exact R | exact B]. intros r [<- | [<- | []]]; reflexivity.
  - intros r Hr. apply Hu. right. exact Hr.
Qed.

Lemma wp_pop2_mid s c l T U V a m (Q : X87Cache -> asm -> machine -> Prop) :
  mid s c l T U V a m -> temps_of U -> (length U <= 6)%nat -> (length V <= 6)%nat ->
  (forall c' a' m', mid s c' (tl (tl l ++ [None]) ++ [None]) ((T + 2) mod 8) U V a' m' -> Q c' a' m') ->
  wp (x87_pop_n cfg c 22 23 24 2) Q a m.
Proof.
  intros Hm [HU Ht] HlU HlV HQ. pose proof Hm as [Hw _ _ ET _ _].
  apply (wp_pop_n_wrapper cfg b 22 Xst 23 ltac:(lia) st_ne_top U V 24 HU Ht HlU HlV c l a m); [exact Hw|].
  intros c' a' m' W Hu T' R B. apply (HQ c' a' m').
  eapply mid_change; [exact Hm | exact W | exact Hu | | congruence | exact R | exact B]. intros r [<- | [<- | []]]; reflexivity.
Qed.

(** ** The end of an instruction *)

Record done (n : Z) (s : fpu) (l : list (option Z)) (T : Z) (c : X87Cache) (a : asm) (m : machine) : Prop := mkDone {
  dn_guest : guest_at s m;
  dn_hosts : hosts m0 m;
  dn_batch : batch_ok c;
  dn_run : run_of c = run_of c0;
  dn_cache :
    if active c then work Xst 23 c l (held_regs Xst) [] a m /\ xr m 23 = T /\ (run_remaining c <= n -> settled c)
    else stacked c l T (x87_at (mm m) b) /\ settled c /\ gpool a [] /\ fpool cfg a []
}.

Lemma settle_batch c : 0 <= deferred_push_count c -> 0 <= deferred_pop_count c -> batch_ok (settle c).
Proof. intros HP HQ. left. apply settle_settled; assumption. Qed.

Lemma temp_length : (length (24%Z :: held_regs Xst) <= 6)%nat.
Proof. unfold held_regs. destruct (0 <=? Xst); cbn; lia. Qed.

Lemma temp_fresh : ~ In 24 (held_regs Xst).
Proof. unfold held_regs. destruct (0 <=? Xst); cbn; lia. Qed.

Lemma wp_finish n s c l T a m : 0 <= n -> mid s c l T (24 :: held_regs Xst) [] a m ->
  wp (c <- x87_end cfg c 22 23 24 n ;; free_gpr 24 ;;; ret c) (done n s l T) a m.
Proof.
  intros Hn Hm. pose proof Hm as [Hw Hg Hh ET Hr Hb]. destruct temps_24 as [HU Ht].
  destruct (work_push_range _ _ _ _ _ _ _ _ _ _ _ Hw) as [HP HQ0].
  apply wp_bind. destruct (Z.ltb_spec 0 (run_remaining c)) as [Hrun|Hrun].
  - apply (wp_end_cached cfg b 22 Xst 23 ltac:(lia) st_ne_top (24 :: held_regs Xst) [] 24 HU Ht temp_length ltac:(cbn; lia) c l a m n); [exact Hw | exact Hrun|].
    intros a' m' W Hu T'. set (c' := if run_remaining c <=? n then settle c else c) in *.
    assert (Ec : run_of c' = run_of c) by (unfold c'; destruct (run_remaining c <=? n); [apply run_settle | reflexivity]).
    destruct (guest_kept s _ _ [24] m m' ltac:(intros r [<- | []]; reflexivity) Hg Hu) as [Hg' Hh'].
    apply wp_bind, (wp_gfree 24 (held_regs Xst)); [exact (wk_g _ _ _ _ _ _ _ _ _ _ _ W) | reflexivity | apply temp_fresh|].
    intros a2 Hp2 Hm2. apply wp_ret.
    assert (Ea : active c' = true) by (unfold active; rewrite (run_remaining_of _ _ Ec); apply Z.ltb_lt, Hrun).
    constructor; [exact Hg' | eapply hosts_trans; eassumption | | congruence | rewrite Ea].
    + unfold c'. destruct (run_remaining c <=? n); [apply settle_batch; lia | exact Hb].
    + split; [|split; [congruence|]].
      * destruct W. constructor; auto. eapply fpool_mask; eassumption.
      * rewrite (run_remaining_of _ _ Ec). intros H1. unfold c'. replace (run_remaining c <=? n) with true by (symmetry; apply Z.leb_le, H1).
        apply settle_settled; lia.
  - assert (Ei : active c0 = false).
    { unfold active. rewrite <- (run_remaining_of _ _ Hr). apply Z.ltb_ge, Hrun. }
    assert (EX : Xst = -1) by (destruct Hheld as [_ H]; rewrite Ei in H; apply H).
    apply (wp_end_idle cfg b 22 Xst 23 ltac:(lia) st_ne_top (24 :: held_regs Xst) [] 24 HU Ht temp_length ltac:(cbn; lia) c l a m [24] n);
      [exact Hw | lia | rewrite EX; cbn; intuition | cbn; lia | cbn; lia|].
    intros a' m' Hgp Hfp Hk Hu.
    destruct (guest_kept s _ _ [24] m m' ltac:(intros r [<- | []]; reflexivity) Hg Hu) as [Hg' Hh'].
    apply wp_bind, (wp_gfree 24 []); [exact Hgp | reflexivity | intros []|]. intros a2 Hp2 Hm2. apply wp_ret.
    assert (Ea : active (settle c) = false) by (unfold active; rewrite (run_remaining_of _ _ (run_settle c)); apply Z.ltb_ge, Hrun).
    constructor; [exact Hg' | eapply hosts_trans; eassumption | apply settle_batch; lia | rewrite run_settle; exact Hr | rewrite Ea].
    rewrite ET in Hk. refine (conj Hk (conj (settle_settled c _ _) (conj Hp2 _))); [lia | lia|]. eapply fpool_mask; eassumption.
Qed.
End Inside.

(** ** Between instructions *)

(** The extended pool replaces the default one on first use. *)
Definition upgrade (a : asm) : asm := upgrade_fprs cfg a.

Lemma guest_with_stack s l T m : guest_at s m -> guest_at (with_stack s l T) m.
Proof. intros []. constructor; assumption. Qed.

Lemma pool_gpr_mask a mask U : 0 <= mask < 2 ^ 32 ->
  forallb (fun r => Bool.eqb (Z.testbit mask (Z.of_nat r)) (scratch (Z.of_nat r) && negb (used (Z.of_nat r) U))) (seq 0 32) = true ->
  free_gpr_mask a = mask -> gpool a U.
Proof.
  intros Hm Hb E. split; [lia|]. unfold free. rewrite E. apply (mask_agrees mask (fun r => scratch r && negb (used r U))); [exact Hm | | exact Hb].
  intros r Hr. unfold scratch. replace (r <? 30) with false by (symmetry; apply Z.ltb_ge; lia). rewrite andb_false_r. reflexivity.
Qed.

Lemma upgrade_fpool a : free_fpr_mask a = kFprScratchMask -> fpool cfg (upgrade a) [].
Proof.
  intros E. unfold upgrade, upgrade_fprs. rewrite E, Z.eqb_refl, andb_true_r.
  assert (H : forall a', free_fpr_mask a' = (if extended_fpr_scratch cfg then kFprScratchMaskExt else kFprScratchMask) -> fpool cfg a' []).
  { intros a' E'. split; [rewrite E'; destruct (extended_fpr_scratch cfg); discriminate|]. rewrite E'. intros r Hr. rewrite andb_true_r.
    destruct (Z_lt_le_dec r 32); [apply fscratch_mask; lia|].
    unfold fscratch. replace (r <? 32) with false by (symmetry; apply Z.ltb_ge; lia). rewrite andb_false_r.
    apply (GuestProps.high_bit _ 32); [destruct (extended_fpr_scratch cfg); cbv; intuition discriminate | lia]. }
  apply H. destruct (extended_fpr_scratch cfg); [reflexivity | exact E].
Qed.

Lemma stacked_gprs c base top st v l T x : stacked c l T x -> stacked (with_gprs c base top st v) l T x.
Proof. intros [A1 A2 A3 A4 A5 [] A7 A8 A9]. constructor; try assumption. constructor; assumption. Qed.

(** The cache when its run is over, or goes on. *)
Lemma stacked_settled c c' l T x : stacked c l T x -> settled c -> perm c' = perm c -> perm_dirty c' = perm_dirty c ->
  deferred_push_count c' = 0 -> deferred_pop_count c' = 0 -> nz (top_dirty c') = false -> stacked c' l T x.
Proof.
  intros [] (S1 & S2 & S3 & S4) Ep Ed E1 E2 E3. apply stacked_idle; auto; [| | congruence].
  - rewrite S1, S2 in sk_stack. unfold view in sk_stack. rewrite S4 in sk_stack. exact sk_stack.
  - destruct sk_perm. constructor; rewrite ?Ep, ?Ed; auto.
Qed.

(** What is left of a run of [n] after an instruction. *)
Definition left (n : Z) : Z := if 0 <? n then n - 1 else n.

(** The cache when its run is over. *)
Definition expired (c : X87Cache) : X87Cache :=
  carried_clear (with_deferred (with_gprs (with_run c 0) (base_gpr c) (top_gpr c) (st_base_gpr c) 0) 0 0 0).

Lemma iter_step {A} k (f : A -> A) x : Nat.iter (S k) f x = f (Nat.iter k f x).
Proof. reflexivity. Qed.

Lemma iter_tick_active k c : Z.of_nat k < run_remaining c -> Nat.iter k tick c = with_run c (run_remaining c - Z.of_nat k).
Proof.
  induction k as [|k IH]; intros Hk.
  - destruct c. cbn. unfold with_run. cbn. f_equal. lia.
  - rewrite iter_step, IH by lia. unfold tick. cbn [with_run run_remaining].
    replace (0 <? run_remaining c - Z.of_nat k) with true by (symmetry; apply Z.ltb_lt; lia).
    replace (run_remaining c - Z.of_nat k - 1) with (run_remaining c - Z.of_nat (S k)) by lia.
    replace (run_remaining c - Z.of_nat (S k) =? 0) with false by (symmetry; apply Z.eqb_neq; lia). reflexivity.
Qed.

Lemma iter_tick_expired k c : 0 < run_remaining c <= Z.of_nat k -> Nat.iter k tick c = expired c.
Proof.
  induction k as [|k IH]; intros Hk; [lia|]. rewrite iter_step. destruct (Z.leb_spec (run_remaining c) (Z.of_nat k)); [rewrite IH by lia; reflexivity|].
  rewrite iter_tick_active by lia. unfold tick. cbn [with_run run_remaining].
  replace (run_remaining c - Z.of_nat k) with 1 by lia. reflexivity.
Qed.

Lemma iter_tick_idle k c : run_remaining c <= 0 -> Nat.iter k tick c = c.
Proof.
  intros Hc. induction k as [|k IH]; [reflexivity|]. rewrite iter_step, IH. unfold tick.
  replace (0 <? run_remaining c) with false by (symmetry; apply Z.ltb_ge, Hc). reflexivity.
Qed.

Lemma iter_left k n : Nat.iter k left n = if 0 <? n then Z.max 0 (n - Z.of_nat k) else n.
Proof.
  induction k as [|k IH]; [cbn; destruct (Z.ltb_spec 0 n); lia|]. rewrite iter_step, IH. unfold left.
  destruct (Z.ltb_spec 0 n); [|destruct (Z.ltb_spec 0 n); lia]. destruct (Z.ltb_spec 0 (Z.max 0 (n - Z.of_nat k))); lia.
Qed.

Lemma free_pool_gpool a c s : active c = false -> gpool (upgrade (set_fpr_mask (set_gpr_mask a (free_pool c)) s)) [].
Proof.
  intros Ha. eapply gpool_mask; [|eapply (pool_gpr_mask (set_gpr_mask a kGprScratchMask) kGprScratchMask []); [cbv; intuition discriminate | reflexivity | reflexivity]].
  unfold free_pool. rewrite Ha. unfold upgrade, upgrade_fprs. destruct (_ && _); reflexivity.
Qed.

(** Of a held run only the three registers are pinned. *)
Lemma held_pinned c : carried_any c = false -> nz (gprs_valid c) = true -> base_gpr c = 22 -> top_gpr c = 23 -> st_base_gpr c = 28 ->
  pinned_mask c = 0x10C00000.
Proof.
  intros Hcar Hv Hbg Htg Hsg. unfold pinned_mask. rewrite Hv, Hbg, Htg, Hsg.
  unfold carried_any in Hcar. apply orb_false_iff in Hcar as [Hc1 Hc2]. unfold add_carried. rewrite Hc2.
  clear - Hc1. change (Z.lor (Z.lor (reg_bit 22) (reg_bit 23)) (reg_bit 28)) with 0x10C00000. revert Hc1. generalize 0x10C00000.
  induction (carried_base c) as [|x l' IH]; intros mask Hc1; [reflexivity|]. cbn [existsb] in Hc1. apply orb_false_iff in Hc1 as [Hx Hc1].
  cbn [fold_left]. rewrite Hx. apply IH, Hc1.
Qed.

Lemma held_gpool a c s : active c = true -> carried_any c = false -> nz (gprs_valid c) = true ->
  base_gpr c = 22 -> top_gpr c = 23 -> st_base_gpr c = 28 -> gpool (upgrade (set_fpr_mask (set_gpr_mask a (free_pool c)) s)) [28; 23; 22].
Proof.
  intros Ha Hcar Hv Hbg Htg Hsg.
  eapply gpool_mask; [|eapply (pool_gpr_mask (set_gpr_mask a (Z.lxor kGprScratchMask 0x10C00000)) _ [28; 23; 22]); [| | reflexivity]; vm_compute; intuition discriminate].
  unfold free_pool. rewrite Ha, (held_pinned c Hcar Hv Hbg Htg Hsg). unfold upgrade, upgrade_fprs. destruct (_ && _); reflexivity.
Qed.

Lemma work_with_run Xst c l U V a m n : Xst = x87_get_st_base (with_run c n) -> work Xst 23 c l U V a m -> 0 < run_remaining c -> 0 < n ->
  work Xst 23 (with_run c n) l U V a m.
Proof.
  intros EX [W1 W2 W3 W4 W5 W6] Hr Hn. constructor; auto.
  destruct W1 as [A1 A2 A3 A4 A5 [] A7 A8 A9]. constructor; try assumption; [constructor; assumption | cbn; intros; apply A9; lia].
Qed.

Lemma wp_after_instruction xmm n Xst m0 c0 s l T c a m : holds_as Xst c0 -> xmm = kFprScratchMask ->
  done Xst m0 c0 (Z.of_nat n) s l T c a m ->
  wp (after_instruction xmm n c) (fun c' a' m' => between c' (with_stack s l T) (upgrade a') m' /\ hosts m0 m' /\
    run_remaining c' = Nat.iter n left (run_remaining c0)) a m.
Proof.
  intros Hh Hx [Hg Ho Hb Hr Hc]. eapply wp_pool; [reflexivity | reflexivity|]. cbv beta.
  pose proof (holds_as_run Xst c0 c Hr Hh) as [Hcar Hact]. pose proof (run_remaining_of _ _ Hr) as Er. rewrite <- Er, iter_left.
  assert (Efp : forall a', free_fpr_mask a' = xmm -> fpool cfg (upgrade a') []) by (intros a' E; apply upgrade_fpool; congruence).
  unfold active in Hact, Hc. destruct (Z.ltb_spec 0 (run_remaining c)) as [Hrun|Hrun].
  - destruct Hact as (Hv & Hbg & Htg & Hsg & EX). destruct Hc as (W & ET & Hset). destruct (Z.leb_spec (run_remaining c) (Z.of_nat n)) as [Hn|Hn].
    + rewrite iter_tick_expired by lia. specialize (Hset Hn). split; [|split; [exact Ho | cbn; lia]].
      constructor; [apply guest_with_stack, Hg | left; reflexivity | |].
      * unfold carried_any, expired. cbn [carried_clear with_carried carried_base carried_rc_gpr]. rewrite orb_false_r.
        cbn [with_deferred with_gprs with_run carried_base]. induction (carried_base c) as [|x l' IH]; [reflexivity | exact IH].
      * change (active (expired c)) with false. cbn [andb]. split; [reflexivity|].
        assert (S4 := proj2 (proj2 (proj2 Hset))). split; [repeat split; try exact S4; reflexivity|].
        split; [|split; [apply free_pool_gpool; reflexivity | apply Efp; reflexivity]].
        rewrite <- ET. eapply stacked_settled; [exact (wk_stacked _ _ _ _ _ _ _ _ _ _ _ W) | exact Hset | reflexivity..].
    + rewrite iter_tick_active by lia. set (c' := with_run c (run_remaining c - Z.of_nat n)). split; [|split; [exact Ho | cbn; lia]].
      assert (Ea : active c' = true) by (apply Z.ltb_lt; cbn; lia).
      constructor; [apply guest_with_stack, Hg | exact Hb | exact Hcar |]. rewrite Ea. change (gprs_valid c') with (gprs_valid c). rewrite Hv. cbn [andb].
      split; [|auto]. rewrite EX in W.
      assert (Ex : x87_get_st_base c' = 28) by (unfold x87_get_st_base; cbn [c' with_run gprs_valid st_base_gpr]; rewrite Hv; exact Hsg).
      destruct (work_with_run 28 c l _ _ a m (run_remaining c - Z.of_nat n) (eq_sym Ex) W Hrun ltac:(lia)) as [W1 W2 W3 W4 W5 W6].
      constructor; [exact W1 | apply held_gpool; assumption | apply Efp; reflexivity | exact W4 | exact W5 | exact W6].
  - destruct Hact as [Hv EX]. destruct Hc as (Hk & Hset & Hgp & Hfp). rewrite iter_tick_idle by lia. split; [|split; [exact Ho | reflexivity]].
    assert (Ea : active c = false) by (apply Z.ltb_ge, Hrun).
    constructor; [apply guest_with_stack, Hg | exact Hb | exact Hcar |]. rewrite Ea. cbn [andb]. split; [exact Hv|].
    split; [exact Hset|]. split; [exact Hk|]. split; [apply free_pool_gpool, Ea | apply Efp; reflexivity].
Qed.

(** ** The preamble *)

Lemma held_28 a m c s T : between c s a m -> T = top s -> active c = true -> nz (gprs_valid c) = true ->
  holds_as 28 c /\ mid 28 m c s c (stack s) T (held_regs 28) [] a m.
Proof.
  intros [Hg Hb Hcar H] ET Ha Hv. rewrite Ha, Hv in H. cbn [andb] in H. destruct H as (W & E & E1 & E2 & E3). split.
  - split; [exact Hcar|]. rewrite Ha. auto.
  - constructor; auto using hosts_refl. congruence.
Qed.

Lemma wp_begin c s a m (Q : Z * Z * X87Cache -> asm -> machine -> Prop) :
  between c s a m ->
  (forall Xst c1 a' m', holds_as Xst c1 -> mid Xst m c1 s c1 (stack s) (top s) (held_regs Xst) [] a' m' ->
     run_remaining c1 = run_remaining c -> Q (22, 23, c1) a' m') ->
  wp (x87_begin tgt c) Q a m.
Proof.
  intros Hbw HQ. unfold x87_begin. destruct ((0 <? run_remaining c) && nz (gprs_valid c)) eqn:Ec.
  { apply andb_true_iff in Ec as [Ea Ev]. destruct (held_28 a m c s _ Hbw eq_refl Ea Ev) as [Hh Hm].
    destruct Hbw as [_ _ _ H]. unfold active in H. rewrite Ea, Ev in H. destruct H as (_ & _ & E1 & E2 & E3).
    apply wp_ret. rewrite E1, E2. apply (HQ 28); auto. }
  destruct Hbw as [Hg Hb Hcar H]. unfold active in H. rewrite Ec in H. destruct H as (Hv & Hset & Hk & Hgp & Hfp).
  apply wp_bind, (wp_alloc_gpr 0 []); [exact Hgp | reflexivity | vm_compute; tauto|]. intros a1 Hp1 Hf1.
  apply wp_bind, (wp_alloc_gpr 1 [22]); [exact Hp1 | reflexivity | vm_compute; lia|]. intros a2 Hp2 Hf2.
  change (zget kGprScratchPool 0) with 22 in *. change (zget kGprScratchPool 1) with 23 in *.
  assert (G : gpr 22 /\ gpr 23 /\ gpr 28) by (unfold gpr; lia). destruct G as (G22 & G23 & G28).
  apply wp_bind, wp_x87_base; [exact G22 | exact Hoff|]. intros a3 m3 P3 [E3 F3]. rewrite <- (ga_thread _ _ Hg) in E3.
  assert (B3 : based b 22 m3) by (split; [exact G22 | split; [exact E3 | exact Hb72]]).
  apply wp_bind, (wp_load_top tgt b 22 23); [exact G23 | exact Hoff | exact B3 | |].
  { rewrite (fr_x _ _ _ F3) by (cbn; unfold X18; lia). apply (ga_thread _ _ Hg). }
  intros a4 m4 P4 [E4 F4]. rewrite (fr_mm _ _ _ F3) in E4.
  assert (ET : topIndex (x87_at (mm m) b) = top s) by (apply (sk_clean _ _ _ _ Hk), Hset). rewrite ET in E4.
  assert (F : frame [22; 23] m m4).
  { eapply frame_trans; [eapply frame_mono; [exact F3|] | eapply frame_mono; [exact F4|]]; intros r; cbn; tauto. }
  assert (Fin : forall Xst c1 a5 m5 l, holds_as Xst c1 -> x87_get_st_base c1 = Xst -> run_remaining c1 = run_remaining c -> batch_ok c1 ->
    stacked c1 (stack s) (top s) (x87_at (mm m) b) -> frame l m4 m5 -> (forall r, In r l -> r = 28) -> st_based b Xst m5 ->
    gpool a5 (held_regs Xst) -> free_fpr_mask a5 = free_fpr_mask a -> Q (22, 23, c1) a5 m5).
  { intros Xst c1 a5 m5 l Hh Hx Hr Hbo Hk1 F5 Hl Hst Hg5 Hf5.
    assert (Hl' : forall r, r <> 28 -> ~ In r l) by (intros r Hr' Hin; apply Hr', Hl, Hin).
    assert (E22 : xr m5 22 = b) by (rewrite (fr_x _ _ _ F5), (fr_x _ _ _ F4) by (first [apply Hl'; lia | cbn; lia]); exact E3).
    assert (E23 : xr m5 23 = top s) by (rewrite (fr_x _ _ _ F5) by (apply Hl'; lia); exact E4).
    assert (Fm : frame [22; 23; 28] m m5).
    { eapply frame_trans; [eapply frame_mono; [exact F|] | eapply frame_mono; [exact F5|]]; intros r; [cbn; tauto|]. intros Hin. rewrite (Hl r Hin). cbn. auto. }
    destruct (guest_kept s [] [] [22; 23; 28] m m5) as [Hg5' Hh5]; [intros r [<- | [<- | [<- | []]]]; reflexivity | exact Hg | |].
    { constructor.
      - intros r _ Hr' _. apply Fm, Hr'.
      - intros r _. rewrite (fr_v _ _ _ Fm). reflexivity.
      - apply Fm.
      - rewrite (fr_mm _ _ _ Fm). apply outside_refl.
      - rewrite (fr_mm _ _ _ Fm). reflexivity. }
    apply (HQ Xst); [exact Hh | | exact Hr]. constructor; auto. constructor; auto.
    - rewrite E23, (fr_mm _ _ _ Fm). exact Hk1.
    - eapply fpool_mask; eassumption.
    - split; [exact G22 | split; [exact E22 | exact Hb72]]. }
  assert (Hf4 : free_fpr_mask a4 = free_fpr_mask a) by (rewrite (proj2 P4), (proj2 P3), Hf2; exact Hf1).
  assert (Hg4 : gpool a4 [23; 22]) by (eapply gpool_same; [exact P4|]; eapply gpool_same; eassumption).
  destruct (Z.ltb_spec 0 (run_remaining c)) as [Hrun|Hrun].
  - apply wp_bind, (wp_alloc_gpr 6 [23; 22]); [exact Hg4 | reflexivity | vm_compute; lia|]. intros a5 Hp5 Hf5.
    change (zget kGprScratchPool 6) with 28 in *.
    apply wp_bind, wp_add_imm; [lia | unfold kX87RegFileOff; lia | exact G22 | exact G28|]. intros a6 m6 P6 [E6 F6]. apply wp_ret.
    assert (Ea : (0 <? run_remaining c) = true) by (apply Z.ltb_lt, Hrun).
    apply (Fin 28 _ a6 m6 [28]); auto.
    + split; [exact Hcar|]. unfold active. cbn [with_gprs run_remaining gprs_valid base_gpr top_gpr st_base_gpr]. rewrite Ea. auto.
    + apply stacked_gprs, Hk.
    + intros r [<- | []]. reflexivity.
    + right. split; [exact G28|]. rewrite E6. change (nz 0) with false. change (0 =? 0) with true. cbv iota zeta beta.
      rewrite (fr_x _ _ _ F4), E3 by (cbn; lia). unfold kX87RegFileOff. apply u64_small. lia.
    + eapply gpool_same; eassumption.
    + rewrite (proj2 P6), Hf5. exact Hf4.
  - apply wp_ret. assert (Ea : (0 <? run_remaining c) = false) by (apply Z.ltb_ge, Hrun).
    apply (Fin (-1) c a4 m4 []); auto.
    + split; [exact Hcar|]. unfold active. rewrite Ea. auto.
    + unfold x87_get_st_base. rewrite Hv. reflexivity.
    + apply frame_refl.
    + intros r [].
    + left. reflexivity.
Qed.

(** ** The instructions *)

(** What an instruction's code leaves, [s'] being the state it specifies. *)
Definition outcome (n : Z) (c : X87Cache) (s' : fpu) (m : machine) (c' : X87Cache) (a' : asm) (m' : machine) : Prop :=
  exists Xst c0 s0 l T, holds_as Xst c0 /\ run_remaining c0 = run_remaining c /\ s' = with_stack s0 l T /\
    done Xst m c0 n s0 l T c' a' m'.

Section Code.
Context (Xst : Z) (m0 : machine) (c0 c : X87Cache) (s : fpu).
Hypothesis (Hheld : holds_as Xst c0) (Hrun : run_remaining c0 = run_remaining c).

#[local] Abbreviation mid := (mid Xst m0 c0).
#[local] Abbreviation held := (held_regs Xst).

Lemma held_fresh_25 : ~ In 25 (24 :: held).
Proof. unfold held_regs. destruct (0 <=? Xst); cbn; lia. Qed.

Lemma temps_2 : temps_of Xst (25 :: 24 :: held).
Proof. apply temps_cons; [apply (temps_24 Xst c0 Hheld) | reflexivity]. Qed.

Lemma length_2 : (length (25%Z :: 24%Z :: held) <= 6)%nat.
Proof. unfold held_regs. destruct (0 <=? Xst); cbn; lia. Qed.

(** The end of an instruction that left the stack [l]. *)
Lemma wp_leave n s1 c1 l T a m s' : 0 <= n -> mid s1 c1 l T (24 :: held) [] a m -> s' = with_stack s1 l T ->
  wp (c <- x87_end cfg c1 22 23 24 n ;; free_gpr 24 ;;; ret c) (outcome n c s' m0) a m.
Proof.
  intros Hn Hm Es. eapply wp_mono; [apply (wp_finish Xst m0 c0 Hheld n _ _ _ _ _ _ Hn Hm)|].
  intros c' a' m' Hd. exists Xst, c0, s1, l, T. auto.
Qed.

Lemma mid_length s1 c1 l T U V a m : mid s1 c1 l T U V a m -> length l = 8%nat.
Proof. intros Hm. apply (sk_len _ _ _ _ (wk_stacked _ _ _ _ _ _ _ _ _ _ _ (md_work _ _ _ _ _ _ _ _ _ _ _ Hm))). Qed.

(** The steps of a translator: a register taken or given back, a slot read or
    written, the stack pushed or popped. *)
Ltac given := first [eassumption | reflexivity | exact Hheld | apply temp_fresh | apply held_fresh_25 | tauto
  | solve [apply temps_24 with c0; exact Hheld] | solve [apply temps_25 with c0; exact Hheld] | exact temps_2 | exact length_2
  | solve [apply temp_length] | solve [cbn; lia] | lia].

Ltac take i H := eapply wp_bind, (wp_take_gpr Xst m0 c0 i); [given.. | intros ? H];
  change (zget kGprScratchPool 2) with 24 in *; change (zget kGprScratchPool 3) with 25 in *.
Ltac take_f D H := eapply wp_bind, (wp_take_fpr Xst m0 c0); [given.. | intros D ? ? ? H].
Ltac give_f H := eapply wp_bind, (wp_give_fpr Xst m0 c0); [given.. | intros ? H].
Ltac give H := eapply wp_bind, (wp_give_gpr Xst m0 c0); [given.. | intros ? H].

(** The value in [Dd] becomes ST(0). *)
Lemma wp_push_tail s1 c1 l u T v Dd a m s' : mid s1 c1 (Some u :: l) T (24 :: held) [Dd] a m -> fscratch cfg Dd = true ->
  vr m Dd = v -> in64 v -> s' = with_stack s1 (Some v :: l) T ->
  wp (emit_store_st 22 23 (resolve_depth c1 0) 24 Dd Xst ;;; free_fpr cfg Dd ;;;
      c <- x87_end cfg c1 22 23 24 1 ;; free_gpr 24 ;;; ret c) (outcome 1 c s' m0) a m.
Proof.
  intros Hm HD Ev Hv Es. destruct (temps_24 Xst c0 Hheld) as [HU Ht].
  eapply wp_bind, (wp_store_depth Xst m0 c0 _ 24 HU Ht); [given.. | intros a1 m1 H1 _].
  give_f H2. eapply wp_leave; [lia | exact H2 | exact Es].
Qed.

(** A code that puts [v] into a SIMD register. *)
Definition puts (f : Z -> M unit) (v : Z) : Prop := forall Dd Q a m,
  gpr_or_zr Dd -> (forall a', same_pools a a' -> Q tt a' (putv m Dd v)) -> wp (f Dd) Q a m.

Lemma wp_push_value load v a m : mid s c0 (stack s) (top s) held [] a m -> puts load v -> in64 v -> nth 7 (stack s) None = None ->
  wp (let Xst_base := x87_get_st_base c0 in
      Wd_tmp <- alloc_gpr 2 ;;
      Wd_tmp2 <- alloc_gpr 3 ;;
      Dd_val <- alloc_free_fpr ;;
      c <- x87_push cfg c0 22 23 Wd_tmp Wd_tmp2 ;;
      load Dd_val ;;;
      emit_store_st 22 23 (resolve_depth c 0) Wd_tmp Dd_val Xst_base ;;;
      free_fpr cfg Dd_val ;;;
      free_gpr Wd_tmp2 ;;;
      c <- x87_end cfg c 22 23 Wd_tmp 1 ;;
      free_gpr Wd_tmp ;;;
      ret c) (outcome 1 c (fpush s v) m0) a m.
Proof.
  intros Hm Hl Hv H7. cbv zeta. rewrite (wk_xst _ _ _ _ _ _ _ _ _ _ _ (md_work _ _ _ _ _ _ _ _ _ _ _ Hm)).
  take 2 H1. take 3 H2. take_f Dd H3.
  eapply wp_bind, (wp_push_mid Xst m0 c0 Hheld); [given.. | intros c1 u a4 m4 H4 _].
  apply wp_bind, Hl; [apply fscratch_or_zr; assumption|]. intros a5 Hs5.
  eapply mid_putv with (Dd := Dd) (v := v) in H4; [|exact Hs5 | assumption]. destruct temps_2 as [HU Ht].
  eapply wp_bind, (wp_store_depth Xst m0 c0 _ 24 HU Ht) with (v := v); [given.. | apply set_reg_eq | given | intros a6 m6 H6 _].
  give_f H7'. give H8. eapply wp_leave; [lia | exact H8 | reflexivity].
Qed.

(** ** Two registers of the stack *)

(** An operation on two SIMD registers that puts [v] into the first. *)
Definition computes (D1 D2 x y v : Z) (arith : M unit) : Prop := forall Q a m,
  vr m D1 = x -> vr m D2 = y -> in64 x -> in64 y -> (forall a', same_pools a a' -> Q tt a' (putv m D1 v)) -> wp arith Q a m.

Lemma wp_st_st s1 c1 l T V a m D1 D2 d1 d2 x y v arith (Q : unit -> asm -> machine -> Prop) :
  mid s1 c1 l T (24 :: held) V a m -> fscratch cfg D1 = true -> fscratch cfg D2 = true -> D1 <> D2 -> 0 <= d1 -> 0 <= d2 ->
  nth (Z.to_nat d1) l None = Some x -> nth (Z.to_nat d2) l None = Some y -> computes D1 D2 x y v arith -> (in64 x -> in64 y -> in64 v) ->
  (forall a' m', mid s1 c1 (list_set l (Z.to_nat d1) (Some v)) T (24 :: held) V a' m' -> Q tt a' m') ->
  wp (emit_st_st c1 22 23 24 Xst D1 D2 d1 d2 arith) Q a m.
Proof.
  intros Hm F1 F2 N H1 H2 E1 E2 Ha Hv HQ. destruct (temps_24 Xst c0 Hheld) as [HU Ht]. pose proof (mid_length _ _ _ _ _ _ _ _ Hm) as Hlen.
  unfold emit_st_st. eapply wp_bind, (wp_load_depth Xst m0 c0 Hheld _ 24 HU Ht) with (v := y); [given.. | intros r1 a1 m1 M1 V2 Y2 _ _ _].
  eapply wp_bind, (wp_load_depth Xst m0 c0 Hheld _ 24 HU Ht) with (v := x); [given.. | intros r2 a2 m2 M2 V1 X1 Vo K _].
  rewrite <- (Vo D2) in V2 by congruence. apply wp_bind, Ha; [assumption..|]. intros a3 Hs3.
  eapply mid_putv with (Dd := D1) (v := v) in M2; [|exact Hs3 | assumption].
  pose proof (depth_range l d1 x Hlen H1 E1).
  eapply (wp_store_at Xst m0 c0 Hheld _ 24 HU Ht) with (d := d1) (v := v); [exact M2 | lia | exact E1 | exact F1 | apply set_reg_eq | auto | exact K |].
  intros a4 m4 M4 _ _. apply HQ, M4.
Qed.

(** ** Memory operands *)

Lemma mid_base s1 c1 l T U V a m : mid s1 c1 l T U V a m -> pins 22 Xst 23 U ->
  forall m', safe U [] m m' -> based b 22 m' /\ st_based b Xst m' /\ xr m' 23 = T.
Proof.
  intros [Hw _ _ ET _ _] HU m' Hs. destruct Hw as [_ _ _ (G & E & H) Hst _].
  assert (Hx : forall r, In r U -> xr m' r = xr m r).
  { intros r Hr. apply Hs; [|intros [] | right; exact Hr]. pose proof (scratch_gpr _ (pn_scratch _ _ _ _ HU r Hr)). lia. }
  split; [split; [exact G | rewrite (Hx 22) by apply HU; auto]|]. split; [|rewrite (Hx 23) by apply HU; exact ET].
  destruct Hst as [E1 | [G1 E1]]; [left; exact E1 | right; split; [exact G1|]].
  destruct (pn_st _ _ _ _ HU) as [E2 | Hin]; [rewrite E2 in G1; unfold gpr in G1; lia | rewrite (Hx Xst Hin); exact E1].
Qed.

Lemma mid_quiet s1 c1 l T U V a m a' m' : mid s1 c1 l T U V a m -> pins 22 Xst 23 U -> same_pools a a' -> safe U [] m m' ->
  (forall q, fscratch cfg q = false -> vr m' q = vr m q) -> nzcv m' = nzcv m -> mm m' = mm m -> mid s1 c1 l T U V a' m'.
Proof.
  intros Hm HU Hp Hs Hv Hn Hmm. destruct (mid_base _ _ _ _ _ _ _ _ Hm HU m' Hs) as (B & S & E). pose proof Hm as [Hw _ _ ET _ _].
  eapply (mid_change Xst m0 c0 s1 c1 c1 l l T T U V U [] []); [exact Hm | | | intros r [] | exact E | reflexivity | apply Hm].
  - destruct Hw. constructor; auto; [rewrite E, Hmm, <- ET; exact wk_stacked | eapply gpool_same; eassumption | eapply fpool_mask; [apply Hp | exact wk_f]].
  - constructor; auto; [intros q [Hq | []]; apply Hv, Hq | rewrite Hmm; apply outside_refl | rewrite Hmm; reflexivity].
Qed.

(** A store into the guest's memory. *)
Lemma mid_stored s1 c1 l T U V a m a' m' n x v v' : mid s1 c1 l T U V a m -> pins 22 Xst 23 U -> same_pools a a' -> safe U [] m m' ->
  vr m' = vr m -> nzcv m' = nzcv m -> mm m' = store n (mm m) x v -> apart b x n = true -> wrap (8 * Z.of_nat n) v = wrap (8 * Z.of_nat n) v' ->
  mid (with_gmem s1 (store n (gmem s1) x v')) c1 l T U V a' m'.
Proof.
  intros Hm HU Hp Hs Hv Hn Hmm Hx Ev. destruct (mid_base _ _ _ _ _ _ _ _ Hm HU m' Hs) as (B & S & E).
  assert (Hat : x87_at (mm m') b = x87_at (mm m) b) by (rewrite Hmm; apply x87_at_store, apartE, Hx).
  pose proof Hm as [[W1 W2 W3 W4 W5 W6] [G1 G2 G3 G4 G5 G6] [H1 H2] ET Hr Hb]. 
  assert (Ho : forall r, 0 <= r -> scratch r = false -> xr m' r = xr m r) by (intros r H0 Hsc; apply Hs; [exact H0 | intros [] | auto]).
  constructor; auto.
  - constructor; auto; [rewrite E, Hat, <- ET; exact W1 | eapply gpool_same; eassumption | eapply fpool_mask; [apply Hp | exact W3]].
  - constructor; cbn [with_gmem regs gmem cw sw zf pf cf]; auto.
    + intros r H0. rewrite Ho; [apply G1, H0 | lia | apply guest_not_scratch, H0].
    + rewrite Hmm. apply agree_store; assumption.
    + rewrite Hat. exact G3.
    + rewrite Hn. exact G5.
    + rewrite Ho; [exact G6 | unfold X18; lia | reflexivity].
  - constructor; intros r Hr'; [intros Hsc; rewrite Ho; auto; lia | rewrite Hv; auto].
Qed.

(** An operand a handler may access: away from the x87 state, and one the
    address computation is proved for. *)
Definition reachable (s1 : fpu) (o : IROperand) (n : nat) : bool :=
  operand_ok o && (seg_override o =? 0) && apart b (addr segbase (regs s1) o) n.

Section Access.
Context (s1 : fpu) (c1 : X87Cache) (l : list (option Z)) (T : Z) (U V : list Z) (a : asm) (m : machine) (o : IROperand) (size : Z).
Hypothesis (Hm : mid s1 c1 l T U V a m) (HU : pins 22 Xst 23 U) (HlU : (length U < 8)%nat) (Hsz : 0 <= size <= 3).

#[local] Abbreviation bytes := (Z.to_nat (2 ^ size)).
#[local] Abbreviation adr := (addr segbase (regs s1) o).

Hypothesis (Hreach : reachable s1 o bytes = true).

Lemma adr_machine : addr segbase (xr m) o = adr.
Proof. apply addr_regs. intros r Hr. apply (ga_regs _ _ (md_guest _ _ _ _ _ _ _ _ _ _ _ Hm)), Hr. Qed.

Lemma reach_parts : operand_ok o = true /\ seg_override o = 0 /\ apart b adr bytes = true /\ gpool a U.
Proof.
  unfold reachable in Hreach. rewrite !andb_true_iff, Z.eqb_eq in Hreach. destruct Hreach as ((H1 & H2) & H3).
  refine (conj H1 (conj H2 (conj H3 _))). apply (md_work _ _ _ _ _ _ _ _ _ _ _ Hm).
Qed.

Lemma wp_mem_load D (Q : unit -> asm -> machine -> Prop) : fscratch cfg D = true ->
  (forall a' m', mid s1 c1 l T U V a' m' -> vr m' = set_reg (vr m) D (load bytes (gmem s1) adr) ->
     (forall q, In q U -> xr m' q = xr m q) -> Q tt a' m') ->
  wp (emit_fp_mem_access cfg tgt 1 o size 1 D) Q a m.
Proof.
  intros HD HQ. destruct reach_parts as (Ho & Hseg & Hap & Hg).
  apply (wp_fp_load cfg tgt segbase o a m Ho Hseg (gpool_ok a U Hg) (gpool_nonempty a U Hg HlU)); [exact Hsz | apply fscratch_or_zr, HD|].
  rewrite adr_machine. intros a' m' Hs Hk Hn Hmm Hv. apply (safe_keeps a U) in Hk; [|exact Hg].
  rewrite (agree_load b (mm m) (gmem s1)) in Hv; [|apply (ga_mem _ _ (md_guest _ _ _ _ _ _ _ _ _ _ _ Hm)) | exact Hap].
  apply HQ; [|exact Hv|].
  - eapply mid_quiet; [exact Hm | exact HU | exact Hs | exact Hk | | exact Hn | exact Hmm].
    intros q Hq. rewrite Hv. apply set_reg_ne. congruence.
  - intros q Hq. apply Hk; [|intros [] | right; exact Hq]. pose proof (scratch_gpr _ (pn_scratch _ _ _ _ HU q Hq)). lia.
Qed.

Lemma wp_mem_store D v (Q : unit -> asm -> machine -> Prop) : fscratch cfg D = true ->
  wrap (8 * Z.of_nat bytes) (vr m D) = wrap (8 * Z.of_nat bytes) v ->
  (forall a' m', mid (with_gmem s1 (store bytes (gmem s1) adr v)) c1 l T U V a' m' -> Q tt a' m') ->
  wp (emit_fp_mem_access cfg tgt 1 o size 0 D) Q a m.
Proof.
  intros HD Ev HQ. destruct reach_parts as (Ho & Hseg & Hap & Hg).
  apply (wp_fp_store cfg tgt segbase o a m Ho Hseg (gpool_ok a U Hg) (gpool_nonempty a U Hg HlU)); [exact Hsz | apply fscratch_or_zr, HD|].
  rewrite adr_machine. intros a' m' Hs Hk Hv Hn Hmm. apply (safe_keeps a U) in Hk; [|exact Hg].
  apply HQ. eapply mid_stored; [exact Hm | exact HU | exact Hs | exact Hk | exact Hv | exact Hn | exact Hmm | exact Hap | exact Ev].
Qed.
End Access.
End Code.

(** *** The translators *)

Ltac given := first [eassumption | reflexivity | apply temp_fresh | apply held_fresh_25 | tauto
  | solve [eapply temps_24; eassumption] | solve [eapply temps_25; eassumption] | solve [eapply temps_2; eassumption]
  | solve [apply length_2] | solve [apply temp_length] | solve [eapply Nat.le_lt_trans; [apply temp_length | lia]] | solve [eapply Nat.le_trans; [apply temp_length | lia]] | solve [cbn; lia] | lia].
Ltac pool_reg := change (zget kGprScratchPool 2) with 24 in *; change (zget kGprScratchPool 3) with 25 in *.
Ltac take i H := eapply wp_bind, (wp_take_gpr _ _ _ i); [given.. | intros ? H]; pool_reg.
Ltac take_f D HD HN H := eapply wp_bind, wp_take_fpr; [given.. | intros D ? HD HN H].
Ltac give_f H := eapply wp_bind, wp_give_fpr; [given.. | intros ? H].
Ltac give H := eapply wp_bind, wp_give_gpr; [given.. | intros ? H].
Ltac leave := eapply wp_leave; [eassumption | eassumption | lia | eassumption | reflexivity].

(** The preamble's answer, and the registers it leaves held. *)
Ltac begin Hb Xst c0 Hh Hr Hm :=
  eapply wp_bind, wp_begin; [exact Hb|]; intros Xst c0 ? ? Hh Hm Hr; cbv beta iota zeta;
  rewrite ?(wk_xst _ _ _ _ _ _ _ _ _ _ _ (md_work _ _ _ _ _ _ _ _ _ _ _ Hm));
  let HU := fresh "HU" in let Ht := fresh "Ht" in destruct (temps_24 Xst c0 Hh) as [HU Ht].

Section Each.
Context (c : X87Cache) (s : fpu) (a : asm) (m : machine).
Hypothesis (Hb : between c s a m).

Lemma puts_push_value load v : puts load v -> in64 v -> nth 7 (stack s) None = None ->
  wp (push_value cfg tgt c load) (outcome 1 c (fpush s v) m) a m.
Proof.
  intros Hl Hv H7. unfold push_value. eapply wp_bind, wp_begin; [exact Hb|]. intros Xst c0 a1 m1 Hh Hm Hr.
  eapply wp_push_value; eassumption.
Qed.

Lemma puts_fld_const bits : in64 bits -> nth 7 (stack s) None = None ->
  wp (translate_fld_const cfg tgt c bits) (outcome 1 c (fpush s bits) m) a m.
Proof.
  intros Hv H7. unfold translate_fld_const. begin Hb Xst c0 Hh Hr Hm. take 2 H1. take 3 H2. take_f D HD HN H3.
  eapply wp_bind, wp_push_mid; [given.. | intros c1 u a4 m4 H4 _]. give H5.
  apply wp_bind, r_ldr_literal; [apply fscratch_or_zr, HD | exact Hv|]. intros a6 Hs6.
  eapply mid_putv with (Dd := D) (v := bits) in H5; [|exact Hs6 | exact HD].
  eapply wp_push_tail; [given | given | exact H5 | exact HD | apply set_reg_eq | exact Hv | reflexivity].
Qed.

(** FCHS, FABS, FSQRT *)
Lemma unary_outcome f g x : nth 0 (stack s) None = Some x -> (in64 x -> in64 (g x)) ->
  (forall D Q a m, gpr_or_zr D -> vr m D = x -> in64 x -> (forall a', same_pools a a' -> Q tt a' (putv m D (g x))) -> wp (f D) Q a m) ->
  wp (translate_unary cfg tgt c f) (outcome 1 c (set_st s 0 (g x)) m) a m.
Proof.
  intros Hx Hg Hf. unfold translate_unary. begin Hb Xst c0 Hh Hr Hm. take 2 H1. take_f D HD HN H2.
  eapply wp_bind, (wp_load_depth Xst m c0 Hh _ 24 HU Ht) with (d := 0); [given.. | intros r a3 m3 H3 E3 X3 _ K _].
  apply wp_bind, Hf; [apply fscratch_or_zr, HD | exact E3 | exact X3|]. intros a4 Hs4.
  eapply mid_putv with (Dd := D) (v := g x) in H3; [|exact Hs4 | exact HD].
  eapply wp_bind, (wp_store_at Xst m c0 Hh _ 24 HU Ht) with (d := 0) (v := g x);
    [exact H3 | given | exact Hx | exact HD | apply set_reg_eq | auto | exact K | intros a5 m5 H5 _ _].
  give_f H6. leave.
Qed.

(** The frame of the handlers on two values. *)
Lemma two_outcome body s' :
  (forall Xst c0 D1 D2 a1 m1, holds_as Xst c0 -> fscratch cfg D1 = true -> fscratch cfg D2 = true -> D1 <> D2 ->
     mid Xst m c0 s c0 (stack s) (top s) (24 :: held_regs Xst) [D2; D1] a1 m1 ->
     wp (body c0 22 23 24 Xst D1 D2) (fun c1 a2 m2 => exists s1 l T,
       mid Xst m c0 s1 c1 l T (24 :: held_regs Xst) [D2; D1] a2 m2 /\ s' = with_stack s1 l T) a1 m1) ->
  wp (with_two cfg tgt c body) (outcome 1 c s' m) a m.
Proof.
  intros Hbody. unfold with_two. begin Hb Xst c0 Hh Hr Hm. take 2 H1. take_f D1 HD1 HN1 H2. take_f D2 HD2 HN2 H3.
  apply wp_bind. eapply wp_mono; [apply (Hbody Xst c0 D1 D2); [exact Hh | exact HD1 | exact HD2 | cbn in HN2; tauto | exact H3]|].
  cbv beta. intros c1 a4 m4 (s1 & l & T & H4 & Es). 
  eapply wp_bind, (wp_give_fpr _ _ _ D2 _ _ _ _ _ [D1]); [exact H4 | exact HD2 | exact HN2 | intros a5 H5].
  give_f H6. eapply wp_leave; [exact Hh | exact Hr | lia | exact H6 | exact Es].
Qed.

Lemma arith_st_outcome i arith v x y :
  is_register i 0 = true -> nth (Z.to_nat (st_index i 0)) (stack s) None = Some x -> nth (Z.to_nat (st_index i 1)) (stack s) None = Some y ->
  (forall D1 D2, gpr_or_zr D1 -> gpr_or_zr D2 -> computes D1 D2 x y v (arith D1 D2)) -> (in64 x -> in64 y -> in64 v) ->
  wp (translate_arith cfg tgt c i arith) (outcome 1 c (set_st s (st_index i 0) v) m) a m.
Proof.
  intros Hi Hx Hy Hc Hv. unfold translate_arith. apply two_outcome. intros Xst c0 D1 D2 a1 m1 Hh F1 F2 N Hm. rewrite Hi.
  pose proof (index_range (reg (operand i 0))). pose proof (index_range (reg (operand i 1))).
  eapply wp_bind, wp_st_st; [exact Hh | exact Hm | exact F1 | exact F2 | exact N | unfold st_index; lia.. | exact Hx | exact Hy | | exact Hv |].
  { apply Hc; apply fscratch_or_zr; assumption. }
  intros a2 m2 H2. apply wp_ret. eexists _, _, _. split; [exact H2 | reflexivity].
Qed.

Lemma arithp_outcome i arith v x y :
  nth (Z.to_nat (st_index i 0)) (stack s) None = Some x -> nth 0 (stack s) None = Some y ->
  (forall D1 D2, gpr_or_zr D1 -> gpr_or_zr D2 -> computes D1 D2 x y v (arith D1 D2)) -> (in64 x -> in64 y -> in64 v) ->
  wp (translate_arithp cfg tgt c i arith) (outcome 1 c (fpop (set_st s (st_index i 0) v)) m) a m.
Proof.
  intros Hx Hy Hc Hv. unfold translate_arithp. apply two_outcome. intros Xst c0 D1 D2 a1 m1 Hh F1 F2 N Hm.
  pose proof (index_range (reg (operand i 0))). pose proof (mid_length _ _ _ _ _ _ _ _ _ _ _ Hm) as Hlen.
  eapply wp_bind, wp_st_st; [exact Hh | exact Hm | exact F1 | exact F2 | exact N | unfold st_index; lia | lia | exact Hx | exact Hy | | exact Hv |].
  { apply Hc; apply fscratch_or_zr; assumption. }
  intros a2 m2 H2. assert (E0 : exists v0, nth 0 (list_set (stack s) (Z.to_nat (st_index i 0)) (Some v)) None = Some v0).
  { rewrite nth_list_set. destruct (_ && _); eauto. }
  destruct E0 as [v0 E0]. eapply wp_pop_mid; [given.. | intros c1 a3 m3 H3 _].
  eexists _, _, _. split; [exact H3 | reflexivity].
Qed.

(** A float in memory, as the load reads it. *)
Lemma fp_load_32 s1 o y : op_size o = IROperandSize.S32 -> fp_load segbase s1 o = Some y ->
  y = widen (load (Z.to_nat (2 ^ 2)) (gmem s1) (addr segbase (regs s1) o)).
Proof.
  intros Es. unfold fp_load, Fpu.read, Fpu.guard. rewrite Es. change (IROperandSize.S32 =? IROperandSize.S32) with true. cbv iota.
  destruct (in_model _ _ _ _); [|discriminate]. destruct (negb _); [|discriminate]. intros E. exact (eq_sym (some_inj _ _ E)).
Qed.

Lemma fp_load_64 s1 o y : op_size o = IROperandSize.S64 -> fp_load segbase s1 o = Some y ->
  y = load (Z.to_nat (2 ^ 3)) (gmem s1) (addr segbase (regs s1) o).
Proof.
  intros Es. unfold fp_load, Fpu.read, Fpu.guard. rewrite Es. change (IROperandSize.S64 =? IROperandSize.S32) with false.
  change (IROperandSize.S64 =? IROperandSize.S64) with true. cbv iota.
  destruct (in_model _ _ _ _); [|discriminate]. intros E. exact (eq_sym (some_inj _ _ E)).
Qed.

(** An operation with a float in memory. *)
Lemma arith_mem_outcome i arith v x y :
  is_register i 0 = false -> nth 0 (stack s) None = Some x -> fp_load segbase s (operand i 0) = Some y ->
  op_size (operand i 0) = IROperandSize.S32 \/ op_size (operand i 0) = IROperandSize.S64 ->
  reachable s (operand i 0) (size_bytes (op_size (operand i 0))) = true ->
  (forall D1 D2, gpr_or_zr D1 -> gpr_or_zr D2 -> computes D1 D2 x y v (arith D1 D2)) -> (in64 x -> in64 y -> in64 v) ->
  wp (translate_arith cfg tgt c i arith) (outcome 1 c (set_st s 0 v) m) a m.
Proof.
  intros Hi Hx Hy Hsz Hre Hc Hv. unfold translate_arith. apply two_outcome. intros Xst c0 D1 D2 a1 m1 Hh F1 F2 N Hm. rewrite Hi.
  destruct (temps_24 Xst c0 Hh) as [HU Ht]. apply wp_bind. unfold emit_st_mem.
  eapply wp_bind, (wp_load_depth Xst m c0 Hh _ 24 HU Ht) with (d := 0); [given.. | intros r a2 m2 H2 E2 X2 _ K _].
  assert (Step : forall a3 m3, mid Xst m c0 s c0 (stack s) (top s) (24 :: held_regs Xst) [D2; D1] a3 m3 ->
    vr m3 D1 = x -> vr m3 D2 = y -> in64 y -> (forall q, In q (24 :: held_regs Xst) -> xr m3 q = xr m2 q) ->
    wp (arith D1 D2 ;;; emit_store_st_at_offset 22 r D1 Xst) (fun _ a' m' => wp (ret c0) (fun c1 a2 m2 => exists s1 l T,
       mid Xst m c0 s1 c1 l T (24 :: held_regs Xst) [D2; D1] a2 m2 /\ set_st s 0 v = with_stack s1 l T) a' m') a3 m3).
  { intros a3 m3 H3 E1 Ey Y3 Hq. apply wp_bind, Hc; [apply fscratch_or_zr, F1 | apply fscratch_or_zr, F2 | exact E1 | exact Ey | exact X2 | exact Y3|].
    intros a4 Hs4. eapply mid_putv with (Dd := D1) (v := v) in H3; [|exact Hs4 | exact F1].
    assert (K' : key_of Xst 24 (putv m3 D1 v) r (Z.land (top s + resolve_depth c0 0) 7)).
    { destruct K as (G & Hr & E). refine (conj G (conj Hr _)). change (xr m3 r = if 0 <=? Xst then Z.land (top s + resolve_depth c0 0) 7 else 8 + 8 * Z.land (top s + resolve_depth c0 0) 7).
      rewrite Hq; [exact E|]. destruct Hr as [-> | ->]; [left; reflexivity | apply (pn_top _ _ _ _ HU)]. }
    eapply (wp_store_at Xst m c0 Hh _ 24 HU Ht) with (d := 0) (v := v);
      [exact H3 | given | exact Hx | exact F1 | apply set_reg_eq | auto | exact K' | intros a5 m5 H5 _ _].
    apply wp_ret. eexists _, _, _. split; [exact H5 | reflexivity]. }
  destruct Hsz as [Es | Es]; rewrite Es in *.
  - change (IROperandSize.S32 =? IROperandSize.S32) with true. cbv iota. apply fp_load_32 in Hy as Ey; [|exact Es].
    eapply wp_bind, wp_mem_load with (size := 2); [exact H2 | exact HU | given | lia | exact Hre | exact F2 | intros a3 m3 H3 V3 X3].
    apply wp_bind, r_fcvt_s_to_d; [apply fscratch_or_zr, F2 | apply fscratch_or_zr, F2|]. intros a4 Hs4.
    eapply mid_putv with (Dd := D2) in H3; [|exact Hs4 | exact F2]. apply (Step a4); [exact H3 | | | | exact X3].
    + cbn [vr putv set_vr]. rewrite set_reg_ne, V3, set_reg_ne by congruence. exact E2.
    + cbn [vr putv set_vr]. rewrite set_reg_eq, V3, set_reg_eq, widen_u32, in64_u64 by apply widen_range64. symmetry. exact Ey.
    + rewrite Ey. apply widen_range64.
  - change (IROperandSize.S64 =? IROperandSize.S32) with false. cbv iota. apply fp_load_64 in Hy as Ey; [|exact Es].
    eapply wp_bind, wp_mem_load with (size := 3); [exact H2 | exact HU | given | lia | exact Hre | exact F2 | intros a3 m3 H3 V3 X3].
    apply wp_bind, wp_ret. apply (Step a3); [exact H3 | | | | exact X3].
    + rewrite V3, set_reg_ne by congruence. exact E2.
    + rewrite V3, set_reg_eq. symmetry. exact Ey.
    + rewrite Ey. apply (load_64 3). lia.
Qed.

Lemma list_set_same (l : list (option Z)) d v : nth d l None = Some v -> list_set l d (Some v) = l.
Proof.
  revert d. induction l as [|x l IH]; intros [|d]; cbn [nth list_set]; intros H; try congruence. rewrite IH by exact H. reflexivity.
Qed.

(** FLD ST(i) and FLD of a float in memory. *)
Lemma fld_outcome i v : nth 7 (stack s) None = None ->
  (if is_register i 0 then nth (Z.to_nat (st_index i 1)) (stack s) None = Some v
   else fp_load segbase s (operand i 0) = Some v /\ addr_size (operand i 0) = IROperandSize.S64 /\
        (op_size (operand i 0) = IROperandSize.S32 \/ op_size (operand i 0) = IROperandSize.S64) /\
        reachable s (operand i 0) (size_bytes (op_size (operand i 0))) = true) ->
  wp (translate_fld cfg tgt c i) (outcome 1 c (fpush s v) m) a m.
Proof.
  intros H7 Hi. unfold translate_fld.
  replace (negb (is_register i 0) && is_size i 0 IROperandSize.S80) with false.
  2:{ destruct (is_register i 0); [reflexivity|]. destruct Hi as (_ & _ & [E | E] & _); unfold is_size; rewrite E; reflexivity. }
  begin Hb Xst c0 Hh Hr Hm. take 2 H1. take 3 H2. take_f D HD HN H3.
  destruct (is_register i 0) eqn:Ei.
  - pose proof (index_range (reg (operand i 1))). destruct (temps_2 Xst c0 Hh) as [HU2 Ht2].
    apply wp_bind. eapply wp_bind, (wp_load_depth Xst m c0 Hh _ 24 HU2 Ht2); [exact H3 | unfold st_index; lia | exact Hi | exact HD | intros r a4 m4 H4 E4 X4 _ _ _].
    eapply wp_bind, wp_push_mid; [given.. | intros c1 u a5 m5 H5 V5]. give H6. apply wp_ret.
    eapply wp_push_tail; [exact Hh | exact Hr | eassumption | exact HD | rewrite V5 by (left; reflexivity); exact E4 | exact X4 | reflexivity].
  - destruct Hi as (Hl & Ea & Hsz & Hre). rewrite Ea. change (b2z (IROperandSize.S64 =? IROperandSize.S64)) with 1.
    unfold is_size. destruct Hsz as [Es | Es]; rewrite Es in *.
    + change (IROperandSize.S32 =? IROperandSize.S32) with true. cbv iota. apply fp_load_32 in Hl as Ev; [|exact Es].
      apply wp_bind. eapply wp_bind, wp_push_mid; [given.. | intros c1 u a5 m5 H5 _]. give H6.
      eapply wp_bind, wp_mem_load with (size := 2); [exact H6 | exact HU | given | lia | exact Hre | exact HD | intros a7 m7 H7' V7 _].
      apply wp_bind, r_fcvt_s_to_d; [apply fscratch_or_zr, HD | apply fscratch_or_zr, HD|]. intros a8 Hs8. apply wp_ret.
      eapply mid_putv with (Dd := D) in H7'; [|exact Hs8 | exact HD].
      eapply wp_push_tail; [exact Hh | exact Hr | exact H7' | exact HD | | | reflexivity].
      * cbn [vr putv set_vr]. rewrite set_reg_eq, V7, set_reg_eq, widen_u32, in64_u64 by apply widen_range64. symmetry. exact Ev.
      * rewrite Ev. apply widen_range64.
    + change (IROperandSize.S64 =? IROperandSize.S32) with false. cbv iota. apply fp_load_64 in Hl as Ev; [|exact Es].
      apply wp_bind. eapply wp_bind, wp_push_mid; [given.. | intros c1 u a5 m5 H5 _]. give H6.
      eapply wp_bind, wp_mem_load with (size := 3); [exact H6 | exact HU | given | lia | exact Hre | exact HD | intros a7 m7 H7' V7 _]. apply wp_ret.
      eapply wp_push_tail; [exact Hh | exact Hr | exact H7' | exact HD | | | reflexivity].
      * rewrite V7, set_reg_eq. symmetry. exact Ev.
      * rewrite Ev. apply (load_64 3). lia.
Qed.

(** The end of FST: the stack popped or not. *)
Lemma wp_fst_tail Xst c0 s1 l T D a1 m1 (pops : bool) s' x : holds_as Xst c0 -> run_remaining c0 = run_remaining c ->
  mid Xst m c0 s1 c0 l T (24 :: held_regs Xst) [D] a1 m1 -> fscratch cfg D = true -> nth 0 l None = Some x ->
  s' = (if pops then with_stack s1 (tl l ++ [None]) ((T + 1) mod 8) else with_stack s1 l T) ->
  wp (c <- (if pops then x87_pop cfg c0 22 23 24 else ret c0) ;; free_fpr cfg D ;;;
      c <- x87_end cfg c 22 23 24 1 ;; free_gpr 24 ;;; ret c) (outcome 1 c s' m) a1 m1.
Proof.
  intros Hh Hr Hm HD Hx Es. apply wp_bind. destruct pops.
  - eapply wp_pop_mid; [given.. | intros c1 a3 m3 H3 _]. give_f H4. eapply wp_leave; [exact Hh | exact Hr | lia | eassumption | exact Es].
  - apply wp_ret. give_f H4. eapply wp_leave; [exact Hh | exact Hr | lia | eassumption | exact Es].
Qed.

Definition fst_pops (i : IRInstr) : bool := (opcode i =? kOpcodeName.fstp) || (opcode i =? kOpcodeName.fstp_stack).

Lemma fst_st_outcome i x y : is_register i 0 = true -> nth 0 (stack s) None = Some x ->
  nth (Z.to_nat (st_index i 0)) (stack s) None = Some y ->
  wp (translate_fst cfg tgt c i) (outcome 1 c (if fst_pops i then fpop (set_st s (st_index i 0) x) else set_st s (st_index i 0) x) m) a m.
Proof.
  intros Hi Hx Hy. unfold translate_fst. rewrite Hi. cbn [negb andb]. fold (fst_pops i).
  begin Hb Xst c0 Hh Hr Hm. take 2 H1. take_f D HD HN H2. pose proof (index_range (reg (operand i 0))).
  assert (Hlen := mid_length _ _ _ _ _ _ _ _ _ _ _ Hm). set (d := st_index i 0) in *.
  assert (H0 : exists v0, nth 0 (list_set (stack s) (Z.to_nat d) (Some x)) None = Some v0) by (rewrite nth_list_set; destruct (_ && _); eauto).
  destruct H0 as [v0 H0].
  assert (Fin : forall a3 m3, mid Xst m c0 s c0 (list_set (stack s) (Z.to_nat d) (Some x)) (top s) (24 :: held_regs Xst) [D] a3 m3 ->
    wp (c <- (if fst_pops i then x87_pop cfg c0 22 23 24 else ret c0) ;; free_fpr cfg D ;;;
        c <- x87_end cfg c 22 23 24 1 ;; free_gpr 24 ;;; ret c) (outcome 1 c (if fst_pops i then fpop (set_st s d x) else set_st s d x) m) a3 m3).
  { intros a3 m3 H3. eapply wp_fst_tail; [exact Hh | exact Hr | exact H3 | exact HD | exact H0 | destruct (fst_pops i); reflexivity]. }
  apply wp_bind. destruct (Z.eqb_spec d 0) as [E0 | N0]; cbn [negb].
  - apply wp_ret, Fin. rewrite E0 in Hy |- *. change (Z.to_nat 0) with 0%nat in *. rewrite list_set_same by congruence. exact H2.
  - eapply wp_bind, (wp_load_depth Xst m c0 Hh _ 24 HU Ht) with (d := 0); [given.. | intros r a3 m3 H3 E3 X3 _ _ _].
    eapply (wp_store_depth Xst m c0 _ 24 HU Ht) with (d := d) (v := x); [exact H3 | | exact Hy | exact HD | exact E3 | exact X3 | intros a4 m4 H4 _; apply Fin, H4].
    pose proof (depth_range (stack s) d y Hlen ltac:(unfold d, st_index; lia) Hy). unfold d, st_index in *. lia.
Qed.

Lemma fst_mem_outcome ro i x s1 : is_register i 0 = false -> nth 0 (stack s) None = Some x -> fp_store segbase ro s (operand i 0) x = Some s1 ->
  op_size (operand i 0) = IROperandSize.S32 \/ op_size (operand i 0) = IROperandSize.S64 ->
  reachable s (operand i 0) (size_bytes (op_size (operand i 0))) = true ->
  wp (translate_fst cfg tgt c i) (outcome 1 c (if fst_pops i then fpop s1 else s1) m) a m.
Proof.
  intros Hi Hx Hst Hsz Hre. unfold translate_fst. rewrite Hi. cbn [negb].
  replace (true && is_size i 0 IROperandSize.S80) with false by (destruct Hsz as [E | E]; unfold is_size; rewrite E; reflexivity).
  fold (fst_pops i). unfold fp_store, Fpu.write, Fpu.guard in Hst. unfold is_size.
  begin Hb Xst c0 Hh Hr Hm. take 2 H1. take_f D HD HN H2. apply wp_bind.
  eapply wp_bind, (wp_load_depth Xst m c0 Hh _ 24 HU Ht) with (d := 0); [given.. | intros r a3 m3 H3 E3 X3 _ _ _].
  destruct Hsz as [Es | Es]; rewrite Es in *.
  - change (IROperandSize.S32 =? IROperandSize.S32) with true in *. cbv iota in *. destruct (_ && _); [|discriminate]. injection Hst as <-.
    apply wp_bind, r_fcvt_d_to_s; [apply fscratch_or_zr, HD | apply fscratch_or_zr, HD|]. intros a4 Hs4.
    eapply mid_putv with (Dd := D) in H3; [|exact Hs4 | exact HD].
    eapply wp_mem_store with (size := 2) (v := narrow x); [exact H3 | exact HU | given | lia | exact Hre | exact HD | | intros a5 m5 H5].
    + cbn [vr putv set_vr]. rewrite set_reg_eq, E3, in64_u64 by exact X3. change (8 * Z.of_nat (Z.to_nat (2 ^ 2))) with 32. apply wrap_wrap. lia.
    + eapply wp_fst_tail; [exact Hh | exact Hr | exact H5 | exact HD | exact Hx | destruct (fst_pops i); reflexivity].
  - change (IROperandSize.S64 =? IROperandSize.S32) with false in *. change (IROperandSize.S64 =? IROperandSize.S64) with true in Hst. cbv iota in *.
    destruct (_ && _); [|discriminate]. injection Hst as <-. apply wp_bind, wp_ret.
    eapply wp_mem_store with (size := 3) (v := x); [exact H3 | exact HU | given | lia | exact Hre | exact HD | rewrite E3; reflexivity | intros a5 m5 H5].
    eapply wp_fst_tail; [exact Hh | exact Hr | exact H5 | exact HD | exact Hx | destruct (fst_pops i); reflexivity].
Qed.

Lemma fnop_outcome : length (stack s) = 8%nat -> wp (translate_fnop cfg tgt c) (outcome 1 c s m) a m.
Proof.
  intros _. unfold translate_fnop. begin Hb Xst c0 Hh Hr Hm. take 2 H1. eapply wp_leave; [exact Hh | exact Hr | lia | exact H1 | destruct s; reflexivity].
Qed.

(** FXCH, deferred in a run. *)
Lemma list_set_comm (l : list (option Z)) n v w : list_set (list_set l (S n) v) 0 w = list_set (list_set l 0 w) (S n) v.
Proof. destruct l; reflexivity. Qed.

Lemma swapped_mid Xst c0 d x y a1 m1 : 0 < run_remaining c0 ->
  mid Xst m c0 s c0 (stack s) (top s) (held_regs Xst) [] a1 m1 -> 0 < d < 8 ->
  nth 0 (stack s) None = Some x -> nth (Z.to_nat d) (stack s) None = Some y ->
  mid Xst m c0 s (swap_perm c0 d) (list_set (list_set (stack s) 0 (Some y)) (Z.to_nat d) (Some x)) (top s) (held_regs Xst) [] a1 m1.
Proof.
  intros Hrun [[W1 W2 W3 W4 W5 W6] G H E R B] Hd Hx Hy. constructor; auto. constructor; auto. apply stacked_swap; assumption.
Qed.

Lemma fxch_outcome i x y : nth 0 (stack s) None = Some x -> nth (Z.to_nat (st_index i 1)) (stack s) None = Some y ->
  wp (translate_fxch cfg tgt false c i) (outcome 1 c (set_st (set_st s 0 y) (st_index i 1) x) m) a m.
Proof.
  intros Hx Hy. unfold translate_fxch. begin Hb Xst c0 Hh Hr Hm. pose proof (index_range (reg (operand i 1))).
  assert (Hlen := mid_length _ _ _ _ _ _ _ _ _ _ _ Hm). set (d := st_index i 1) in *.
  pose proof (depth_range (stack s) d y Hlen ltac:(unfold d, st_index; lia) Hy) as Hd8.
  assert (Hd0 : 0 <= d) by (unfold d, st_index; lia).
  destruct (Z.eqb_spec d 0) as [E0 | N0].
  - take 2 H1. eapply wp_leave; [exact Hh | exact Hr | lia | exact H1|]. rewrite E0 in *. change (Z.to_nat 0) with 0%nat in Hy.
    assert (y = x) by congruence. subst y. unfold set_st. cbn [stack with_stack]. change (Z.to_nat 0) with 0%nat.
    rewrite !list_set_same by (try rewrite list_set_same by exact Hx; exact Hx). destruct s; reflexivity.
  - destruct (Z.ltb_spec 0 (run_remaining c0)) as [Hrun|Hrun]; cbn [andb negb].
    + assert (Hm' := swapped_mid Xst c0 d x y _ _ Hrun Hm ltac:(lia) Hx Hy). take 2 H1.
      eapply wp_leave; [exact Hh | exact Hr | lia | exact H1 | reflexivity].
    + assert (Ed : forall k, resolve_depth c0 k = k).
      { intros k. unfold resolve_depth. pose proof (wk_stacked _ _ _ _ _ _ _ _ _ _ _ (md_work _ _ _ _ _ _ _ _ _ _ _ Hm)) as Hk.
        destruct (idle_view _ _ _ _ Hk Hrun) as (_ & _ & _ & -> & _). reflexivity. }
      take 2 H1. take 3 H2. take_f Da HDa HNa H3. take_f Db HDb HNb H4. destruct (temps_2 Xst c0 Hh) as [HU2 Ht2].
      pose proof (temps_25 Xst c0 Hh) as Ht25.
      rewrite <- (Ed 0) at 1. eapply wp_bind, (wp_load_depth Xst m c0 Hh _ 24 HU2 Ht2) with (d := 0); [given.. | intros r1 a5 m5 H5 E5 X5 _ K5 _].
      rewrite <- (Ed d) at 1. eapply wp_bind, (wp_load_depth Xst m c0 Hh _ 25 HU2 Ht25) with (d := d); [given.. | intros r2 a6 m6 H6 E6 X6 Vo K6 Xo].
      assert (K5' : key_of Xst 24 m6 r1 (Z.land (top s + resolve_depth c0 0) 7)).
      { destruct K5 as (G & Hk & E). refine (conj G (conj Hk _)). rewrite Xo; [exact E|]. destruct Hk as [-> | ->]; lia. }
      eapply wp_bind, (wp_store_at Xst m c0 Hh _ 25 HU2 Ht25) with (d := d) (v := x);
        [exact H6 | lia | exact Hy | exact HDa | rewrite Vo; [exact E5 | cbn in HNb; intuition congruence] | exact X5 | exact K6 | intros a7 m7 H7 V7 X7].
      assert (K5'' : key_of Xst 24 m7 r1 (Z.land (top s + resolve_depth c0 0) 7)) by (destruct K5' as (G & Hk & E); refine (conj G (conj Hk _)); rewrite X7; exact E).
      assert (H0 : nth 0 (list_set (stack s) (Z.to_nat d) (Some x)) None = Some x).
      { rewrite nth_list_set. replace (0 =? Z.to_nat d)%nat with false by (symmetry; apply Nat.eqb_neq; lia). exact Hx. }
      eapply wp_bind, (wp_store_at Xst m c0 Hh _ 24 HU2 Ht2) with (d := 0) (v := y);
        [exact H7 | lia | exact H0 | exact HDb | rewrite V7; exact E6 | exact X6 | exact K5'' | intros a8 m8 H8 _ _].
      eapply wp_bind, (wp_give_fpr _ _ _ Db _ _ _ _ _ [Da]); [exact H8 | exact HDb | exact HNb | intros a9 H9].
      give_f H10. give H11. eapply wp_leave; [exact Hh | exact Hr | lia | exact H11 |].
      unfold set_st. cbn [stack with_stack]. change (Z.to_nat 0) with 0%nat. destruct (Z.to_nat d) eqn:En; [lia|]. rewrite list_set_comm. reflexivity.
Qed.
End Each.

(** ** An instruction *)

(** A float operand in memory a handler may access. *)
Definition float_operand (s : fpu) (o : IROperand) : bool :=
  ((op_size o =? IROperandSize.S32) || (op_size o =? IROperandSize.S64)) && reachable s o (size_bytes (op_size o)).

(** Room for a push. *)
Definition room (s : fpu) : bool := negb (is_some (nth 7 (stack s) None)).

(** The instructions whose code is proved, with what it needs: room for a
    push, a register in use for FST, a memory operand it may access. *)
Definition single_ok (s : fpu) (i : IRInstr) : bool :=
  match x87op_of (opcode i) with
  | Some (Fconst _) => room s
  | Some Fld => room s && (is_register i 0 || (addr_size (operand i 0) =? IROperandSize.S64) && float_operand s (operand i 0))
  | Some (Fst _) => if is_register i 0 then is_some (st s (st_index i 0)) else float_operand s (operand i 0)
  | Some (Farith _ _) => is_register i 0 || float_operand s (operand i 0)
  | Some (Farithp _ _) | Some Fchs | Some Fabs | Some Fsqrt | Some Fxch | Some Fnop => true
  | _ => false
  end.

Lemma float_operandE s o : float_operand s o = true ->
  (op_size o = IROperandSize.S32 \/ op_size o = IROperandSize.S64) /\ reachable s o (size_bytes (op_size o)) = true.
Proof. unfold float_operand. rewrite andb_true_iff, orb_true_iff, !Z.eqb_eq. auto. Qed.

Lemma roomE s : room s = true -> nth 7 (stack s) None = None.
Proof. unfold room. destruct (nth 7 (stack s) None); [discriminate | reflexivity]. Qed.

Lemma computes_op op D1 D2 Dn Dm x y v : gpr_or_zr D1 -> gpr_or_zr D2 -> 0 <= op < 16 -> (in64 x -> in64 y -> in64 v) ->
  (Dn = D1 /\ Dm = D2 /\ fp2 op f64 x y = Some v) \/ (Dn = D2 /\ Dm = D1 /\ fp2 op f64 y x = Some v) ->
  computes D1 D2 x y v (emit_fp_dp2 1 op D1 Dn Dm).
Proof.
  intros Z1 Z2 Ho Hv H Q a m E1 E2 X Y HQ.
  apply (r_fp2 Q a m 1 op D1 Dn Dm v); [auto | exact Ho | exact Z1 | destruct H as [(-> & _) | (-> & _)]; assumption
    | destruct H as [(_ & -> & _) | (_ & -> & _)]; assumption | |].
  - change (f_of 1) with f64. change (F64.size f64) with 64.
    destruct H as [(-> & -> & E) | (-> & -> & E)]; rewrite E1, E2, !in64_u64; assumption.
  - change (f_of 1) with f64. change (F64.size f64) with 64. rewrite in64_u64 by auto. exact HQ.
Qed.

(** The instruction an arithmetic handler emits. *)
Definition arith_emit (o : arith) (rev : bool) (D1 D2 : Z) : M unit :=
  match o with
  | Add => emit_fadd_f64 D1 D1 D2
  | Mul => emit_fmul_f64 D1 D1 D2
  | Sub => sub_or_rev rev D1 D2
  | Div => div_or_rev rev D1 D2
  end.

Lemma arith_in64 o rev x y : in64 x -> in64 y -> in64 (arith_apply o rev x y).
Proof. intros X Y. unfold arith_apply. destruct o, rev; apply arith2_range64; assumption. Qed.

Lemma arith_computes o rev x y D1 D2 : rev = false \/ o = Sub \/ o = Div -> gpr_or_zr D1 -> gpr_or_zr D2 ->
  computes D1 D2 x y (arith_apply o rev x y) (arith_emit o rev D1 D2).
Proof.
  intros Ho Z1 Z2. pose proof (arith_in64 o rev x y) as Hr.
  destruct o, rev; cbn [arith_emit sub_or_rev div_or_rev]; try (destruct Ho as [H | [H | H]]; discriminate);
    (apply computes_op; [exact Z1 | exact Z2 | lia | exact Hr | auto]).
Qed.

Lemma unary_puts k g x D (Q : unit -> asm -> machine -> Prop) a m : 0 <= k < 4 -> (forall y, fp1 k f64 y = Some (g y)) -> in64 (g x) ->
  gpr_or_zr D -> vr m D = x -> in64 x -> (forall a', same_pools a a' -> Q tt a' (putv m D (g x))) -> wp (emit_fp_dp1 1 k D D) Q a m.
Proof.
  intros Hk Hg Hgx HD E X HQ. apply (r_fp1 Q a m 1 k D D (g x)); [auto | lia | lia | lia | exact HD | exact HD | |].
  - change (f_of 1) with f64. change (F64.size f64) with 64. rewrite E, in64_u64 by exact X. apply Hg.
  - change (f_of 1) with f64. change (F64.size f64) with 64. rewrite in64_u64 by exact Hgx. exact HQ.
Qed.

Lemma x87op_in k o : x87op_of k = Some o -> In (k, o) x87op_table.
Proof.
  unfold x87op_of. destruct (find _ _) as [[k' o']|] eqn:E; [|discriminate]. cbn [option_map snd]. intros [= ->].
  apply find_some in E as [Hin Ek]. cbn [fst] in Ek. apply Z.eqb_eq in Ek. congruence.
Qed.

Section One.
Context (ro : Z -> bool) (c : X87Cache) (s s' : fpu) (a : asm) (m : machine) (i : IRInstr).
Hypothesis (Hb : between c s a m) (Hs : Fpu.exec segbase ro s i = Some s').

Lemma between_length : length (stack s) = 8%nat.
Proof.
  destruct Hb as [_ _ _ H]. destruct (active c && nz (gprs_valid c)).
  - apply (sk_len _ _ _ _ (wk_stacked _ _ _ _ _ _ _ _ _ _ _ (proj1 H))).
  - apply (sk_len _ _ _ _ (proj1 (proj2 (proj2 H)))).
Qed.

Lemma arith_ok o rev : rev = false \/ o = Sub \/ o = Div -> x87op_of (opcode i) = Some (Farith o rev) ->
  is_register i 0 || float_operand s (operand i 0) = true ->
  wp (translate_arith cfg tgt c i (arith_emit o rev)) (outcome 1 c s' m) a m.
Proof.
  intros Ho Eo Hok. unfold Fpu.exec in Hs. rewrite Eo in Hs. unfold exec_arith in Hs. fold (is_register i 0) in Hs.
  destruct (is_register i 0) eqn:Ei.
  - destruct (st s _) as [x|] eqn:Ex; [|discriminate]. destruct (st s (index (reg (operand i 1)))) as [y|] eqn:Ey; [|discriminate].
    injection Hs as <-. eapply arith_st_outcome; [exact Hb | exact Ei | exact Ex | exact Ey | | apply arith_in64].
    intros D1 D2. apply arith_computes, Ho.
  - destruct (st s 0) as [x|] eqn:Ex; [|discriminate]. destruct (fp_load segbase s (operand i 0)) as [y|] eqn:Ey; [|discriminate].
    injection Hs as <-. apply float_operandE in Hok as [Hsz Hre].
    eapply arith_mem_outcome; [exact Hb | exact Ei | exact Ex | exact Ey | exact Hsz | exact Hre | | apply arith_in64].
    intros D1 D2. apply arith_computes, Ho.
Qed.

Lemma arithp_ok o rev : rev = false \/ o = Sub \/ o = Div -> x87op_of (opcode i) = Some (Farithp o rev) ->
  wp (translate_arithp cfg tgt c i (arith_emit o rev)) (outcome 1 c s' m) a m.
Proof.
  intros Ho Eo. unfold Fpu.exec in Hs. rewrite Eo in Hs.
  destruct (st s _) as [x|] eqn:Ex; [|discriminate]. destruct (st s 0) as [y|] eqn:Ey; [|discriminate].
  injection Hs as <-. eapply arithp_outcome; [exact Hb | exact Ex | exact Ey | | apply arith_in64].
  intros D1 D2. apply arith_computes, Ho.
Qed.

Lemma unary_ok k g : 0 <= k < 4 -> (forall y, fp1 k f64 y = Some (g y)) -> (forall x, in64 x -> in64 (g x)) ->
  unary s g = Some s' -> wp (translate_unary cfg tgt c (fun D => emit_fp_dp1 1 k D D)) (outcome 1 c s' m) a m.
Proof.
  intros Hk Hg Hr. unfold unary. destruct (st s 0) as [x|] eqn:Ex; [|discriminate]. intros [= <-].
  apply (unary_outcome c s a m Hb _ g x Ex (Hr x)). intros D Q a1 m1 HD E X HQ. apply (unary_puts k g x D Q a1 m1); auto.
Qed.

Lemma fst_ok pops : x87op_of (opcode i) = Some (Fst pops) -> fst_pops i = pops ->
  (if is_register i 0 then is_some (st s (st_index i 0)) else float_operand s (operand i 0)) = true ->
  wp (translate_fst cfg tgt c i) (outcome 1 c s' m) a m.
Proof.
  intros Eo Ep Hok. unfold Fpu.exec in Hs. rewrite Eo in Hs. unfold exec_fst in Hs. fold (is_register i 0) in Hs.
  destruct (st s 0) as [x|] eqn:Ex; [|discriminate]. destruct (is_register i 0) eqn:Ei.
  - destruct (st s (st_index i 0)) as [y|] eqn:Ey; [|discriminate]. injection Hs as <-. rewrite <- Ep.
    eapply fst_st_outcome; [exact Hb | exact Ei | exact Ex | exact Ey].
  - destruct (fp_store segbase ro s (operand i 0) x) as [s1|] eqn:Est; [|discriminate]. injection Hs as <-. rewrite <- Ep.
    apply float_operandE in Hok as [Hsz Hre]. eapply fst_mem_outcome; [exact Hb | exact Ei | exact Ex | exact Est | exact Hsz | exact Hre].
Qed.

Lemma fld_ok : x87op_of (opcode i) = Some Fld ->
  room s && (is_register i 0 || (addr_size (operand i 0) =? IROperandSize.S64) && float_operand s (operand i 0)) = true ->
  wp (translate_fld cfg tgt c i) (outcome 1 c s' m) a m.
Proof.
  intros Eo Hok. apply andb_true_iff in Hok as [H7 Hok]. apply roomE in H7. unfold Fpu.exec in Hs. rewrite Eo in Hs. fold (is_register i 0) in Hs.
  destruct (if is_register i 0 then _ else _) as [v|] eqn:Ev; [|discriminate]. injection Hs as <-.
  apply fld_outcome; [exact Hb | exact H7|]. destruct (is_register i 0); [exact Ev|]. cbn [orb] in Hok.
  apply andb_true_iff in Hok as [Ha Hok]. apply Z.eqb_eq in Ha. apply float_operandE in Hok as [Hsz Hre]. auto.
Qed.

Lemma fxch_ok : x87op_of (opcode i) = Some Fxch -> wp (translate_fxch cfg tgt false c i) (outcome 1 c s' m) a m.
Proof.
  intros Eo. unfold Fpu.exec in Hs. rewrite Eo in Hs.
  destruct (st s 0) as [x|] eqn:Ex; [|discriminate]. destruct (st s (index (reg (operand i 1)))) as [y|] eqn:Ey; [|discriminate].
  injection Hs as <-. eapply fxch_outcome; [exact Hb | exact Ex | exact Ey].
Qed.

Lemma const_ok load v : x87op_of (opcode i) = Some (Fconst v) -> room s = true -> puts load v -> in64 v ->
  wp (push_value cfg tgt c load) (outcome 1 c s' m) a m.
Proof.
  intros Eo H7 Hl Hv. apply roomE in H7. unfold Fpu.exec in Hs. rewrite Eo in Hs. injection Hs as <-. apply puts_push_value; assumption.
Qed.

Lemma fld_const_ok v : x87op_of (opcode i) = Some (Fconst v) -> room s = true -> in64 v ->
  wp (translate_fld_const cfg tgt c v) (outcome 1 c s' m) a m.
Proof.
  intros Eo H7 Hv. apply roomE in H7. unfold Fpu.exec in Hs. rewrite Eo in Hs. injection Hs as <-. apply puts_fld_const; assumption.
Qed.

Lemma unary_exec_ok o k g : x87op_of (opcode i) = Some o -> 0 <= k < 4 -> (forall y, fp1 k f64 y = Some (g y)) -> (forall x, in64 x -> in64 (g x)) ->
  (forall s1, Fpu.exec segbase ro s1 i = unary s1 g) -> wp (translate_unary cfg tgt c (fun D => emit_fp_dp1 1 k D D)) (outcome 1 c s' m) a m.
Proof. intros Eo Hk Hg Hr He. pose proof Hs as H. rewrite He in H. exact (unary_ok k g Hk Hg Hr H). Qed.
End One.

Lemma puts_movi : puts emit_movi_d_zero 0.
Proof. intros D Q a m HD HQ. apply r_movi; assumption. Qed.

Lemma puts_one : puts emit_fmov_d_one f_one.
Proof. intros D Q a m HD HQ. apply r_fmov_one; assumption. Qed.

(** The switch answers code that takes the machine where the instruction
    takes the state. *)
Lemma single_code ro c s s' a m i : between c s a m -> Fpu.exec segbase ro s i = Some s' -> single_ok s i = true ->
  exists t, translate_single cfg tgt false c i = Some t /\ wp t (outcome 1 c s' m) a m.
Proof.
  intros Hb Hs Hok. unfold single_ok in Hok. destruct (x87op_of (opcode i)) as [o|] eqn:Eo; [|discriminate].
  pose proof (x87op_in _ _ Eo) as Hin. cbn [In x87op_table] in Hin. unfold translate_single. cbv zeta.
  assert (Hc : forall v, 0 <= v < 2 ^ 64 -> in64 v) by (intros v H; exact H).
  repeat (destruct Hin as [Hin | Hin]; [apply pair_equal_spec in Hin as [Ek <-]; try discriminate Hok | ]); try contradiction;
    rewrite <- Ek; (eexists; split; [reflexivity|]);
    first
      [ solve [eapply const_ok; [exact Hb | exact Hs | exact Eo | exact Hok | first [apply puts_movi | apply puts_one] | apply Hc; cbv; intuition discriminate]]
      | solve [eapply fld_const_ok; [exact Hb | exact Hs | exact Eo | exact Hok | apply Hc; cbv; intuition discriminate]]
      | solve [eapply fld_ok; [exact Hb | exact Hs | exact Eo | exact Hok]]
      | solve [eapply fst_ok; [exact Hb | exact Hs | exact Eo | unfold fst_pops; rewrite <- Ek; reflexivity | exact Hok]]
      | solve [eapply fxch_ok; [exact Hb | exact Hs | exact Eo]]
      | idtac ].
  all: first
    [ match type of Eo with _ = Some (Farith ?o ?rev) =>
        unfold translate_fadd, translate_fsub, translate_fdiv, translate_fmul; rewrite <- ?Ek;
        exact (arith_ok ro c s s' a m i Hb Hs o rev ltac:(auto) Eo Hok) end
    | match type of Eo with _ = Some (Farithp ?o ?rev) =>
        unfold translate_faddp, translate_fsubp, translate_fdivp, translate_fmul; rewrite <- ?Ek;
        exact (arithp_ok ro c s s' a m i Hb Hs o rev ltac:(auto) Eo) end
    | eapply (unary_exec_ok ro c s s' a m i Hb Hs Fchs 2 (fneg f64)); [exact Eo | lia | reflexivity | apply fneg_range64 | intros s1; unfold Fpu.exec; rewrite Eo; reflexivity]
    | eapply (unary_exec_ok ro c s s' a m i Hb Hs IROperand.Fabs 1 (fabs f64)); [exact Eo | lia | reflexivity | intros; apply fabs_range64 | intros s1; unfold Fpu.exec; rewrite Eo; reflexivity]
    | eapply (unary_exec_ok ro c s s' a m i Hb Hs Fsqrt 3 (fsqrt f64)); [exact Eo | lia | reflexivity | apply fsqrt_range64 | intros s1; unfold Fpu.exec; rewrite Eo; reflexivity]
    | unfold Fpu.exec in Hs; rewrite Eo in Hs; injection Hs as <-; apply fnop_outcome; [exact Hb | eapply between_length; exact Hb] ].
Qed.

(** ** Fused instructions *)

(** What an FLD of a double, a float, a register or a constant pushes. *)
Definition fld_value (s : fpu) (i : IRInstr) : option Z :=
  match x87op_of (opcode i) with
  | Some (Fconst v) => Some v
  | Some Fld => if is_register i 0 then st s (st_index i 1) else fp_load segbase s (operand i 0)
  | _ => None
  end.

(** The source is a constant, a register, or a float the code may access. *)
Definition source_ok (s : fpu) (i : IRInstr) : bool :=
  match x87op_of (opcode i) with
  | Some (Fconst _) => true
  | Some Fld => is_register i 0 || (addr_size (operand i 0) =? IROperandSize.S64) && float_operand s (operand i 0)
  | _ => false
  end.

Lemma exec_fld ro s i s' : source_ok s i = true -> Fpu.exec segbase ro s i = Some s' ->
  exists v, fld_value s i = Some v /\ s' = fpush s v.
Proof.
  unfold source_ok, fld_value, Fpu.exec. destruct (x87op_of (opcode i)) as [[]|]; try discriminate; intros _.
  - intros [= <-]. eauto.
  - unfold is_register, st_index. destruct (_ =? _); (destruct (st _ _) || destruct (fp_load _ _ _)); try discriminate; intros [= <-]; eauto.
Qed.

Lemma fld_value_stack s l T i : is_register i 0 = false -> fld_value (with_stack s l T) i = fld_value s i.
Proof. intros H. unfold fld_value. rewrite H. reflexivity. Qed.

(** The classification of a covered source. *)
Definition classified (s : fpu) (i : IRInstr) (v : Z) (cls : FldClassification) : Prop :=
  (source cls = kFldReg /\ reg_depth cls = st_index i 1 /\ is_register i 0 = true /\ st s (st_index i 1) = Some v) \/
  (is_register i 0 = false /\ float_operand s (operand i 0) = true /\ addr_size (operand i 0) = IROperandSize.S64 /\
   fp_load segbase s (operand i 0) = Some v /\
   (source cls = kFldM32 /\ op_size (operand i 0) = IROperandSize.S32 \/ source cls = kFldM64 /\ op_size (operand i 0) = IROperandSize.S64)) \/
  (in64 v /\ (source cls = kFldZero /\ v = 0 \/ source cls = kFldOne /\ v = f_one \/ source cls = kFldConst64 /\ const_bits cls = v)).

Lemma classify_source s i v : source_ok s i = true -> fld_value s i = Some v ->
  classified s i v (classify_fld_source i) /\ source (classify_fld_source i) <> kFldInvalid.
Proof.
  unfold source_ok, fld_value, classify_fld_source. destruct (x87op_of (opcode i)) as [o|] eqn:Eo; [|discriminate].
  pose proof (x87op_in _ _ Eo) as Hin. clear Eo. cbv [x87op_table In] in Hin. cbv zeta.
  repeat (destruct Hin as [Hin | Hin]; [apply pair_equal_spec in Hin as [Ek <-]; try discriminate | ]); try contradiction;
    rewrite <- Ek; cbn -[is_size Z.eqb operand float_operand fp_load is_register];
    change (kOpcodeName.fld =? kOpcodeName.fld) with true; intros Hok Hv; cbv iota;
    try (injection Hv as <-; split; [right; right; split; [cbv; intuition discriminate | cbn; tauto] | cbn; congruence]).
  destruct (is_register i 0) eqn:Er; [split; [left; cbn; auto | cbn; congruence]|]. cbn [orb] in Hok.
  apply andb_true_iff in Hok as [Ha Hf]. apply Z.eqb_eq in Ha. pose proof (proj1 (float_operandE _ _ Hf)) as Hs. unfold is_size.
  destruct Hs as [Es | Es]; rewrite Es; cbn; (split; [right; left; auto 10 | congruence]).
Qed.

Lemma bind_ret_tt (x : M unit) a : (x ;;; ret tt) a = x a.
Proof. unfold bind, ret. destruct (x a) as [[[] a']|]; reflexivity. Qed.

Section Steps.
Context (Xst : Z) (m0 : machine) (c0 : X87Cache).
Hypothesis (Hheld : holds_as Xst c0).

#[local] Abbreviation mid := (mid Xst m0 c0).
#[local] Abbreviation held := (24 :: held_regs Xst).

Lemma pins_held : pins 22 Xst 23 held.
Proof. apply (temps_24 Xst c0 Hheld). Qed.

Lemma wp_flush_unless_batched s c l T V a m (Q : X87Cache -> asm -> machine -> Prop) :
  mid s c l T held V a m -> (forall c' a' m', mid s c' l T held V a' m' -> Q c' a' m') ->
  wp (flush_top_unless_batched c 22 23 24) Q a m.
Proof.
  intros Hm HQ. unfold flush_top_unless_batched. destruct (nz (deferred_push_count c) && nz (top_dirty c)) eqn:E.
  { apply wp_ret, (HQ c), Hm. }
  pose proof Hm as [Hw _ _ ET _ Hb]. destruct (temps_24 Xst c0 Hheld) as [HU Ht].
  apply (wp_flush_top cfg b 22 Xst 23 held V 24 HU Ht c l a m); [exact Hw|].
  intros a' m' W Hu T'. apply (HQ (clean_top c)). eapply mid_change; [exact Hm | exact W | exact Hu | | congruence | apply run_clean_top |].
  - intros r [<- | []]. reflexivity.
  - assert (P : deferred_push_count c = 0).
    { destruct Hb as [H | H]; [exact H|]. rewrite H, andb_true_r in E. unfold nz in E. apply negb_false_iff, Z.eqb_eq in E. exact E. }
    unfold clean_top. destruct (nz (top_dirty c)); [left; exact P | left; exact P].
Qed.

(** A float in memory, as the handlers load and store it. *)
Lemma wp_load_float s c l T V a m o y D (Q : unit -> asm -> machine -> Prop) :
  mid s c l T held V a m -> fscratch cfg D = true -> float_operand s o = true -> fp_load segbase s o = Some y ->
  (forall a' m', mid s c l T held V a' m' -> vr m' D = y -> in64 y -> (forall q, q <> D -> vr m' q = vr m q) ->
     (forall q, In q held -> xr m' q = xr m q) -> Q tt a' m') ->
  wp (load_float cfg tgt o D) Q a m.
Proof.
  intros Hm HD Hf Hy HQ. destruct (float_operandE _ _ Hf) as [Hsz Hre]. unfold load_float.
  assert (HlU : (length held < 8)%nat) by (eapply Nat.le_lt_trans; [apply temp_length | lia]).
  destruct Hsz as [Es | Es]; rewrite Es in *.
  - change (IROperandSize.S32 =? IROperandSize.S32) with true. cbv iota. apply fp_load_32 in Hy as Ey; [|exact Es].
    eapply wp_bind, wp_mem_load with (size := 2); [exact Hm | exact pins_held | exact HlU | lia | exact Hre | exact HD | intros a3 m3 H3 V3 X3].
    apply r_fcvt_s_to_d; [apply fscratch_or_zr, HD | apply fscratch_or_zr, HD|]. intros a4 Hs4.
    eapply mid_putv with (Dd := D) in H3; [|exact Hs4 | exact HD].
    apply (HQ _ _ H3); [| | | exact X3].
    + cbn [vr putv set_vr]. rewrite set_reg_eq, V3, set_reg_eq, widen_u32, in64_u64 by apply widen_range64. symmetry. exact Ey.
    + rewrite Ey. apply widen_range64.
    + intros q Hq. cbn [vr putv set_vr]. rewrite set_reg_ne, V3, set_reg_ne by exact Hq. reflexivity.
  - change (IROperandSize.S64 =? IROperandSize.S32) with false. cbv iota. apply fp_load_64 in Hy as Ey; [|exact Es].
    eapply wp_bind, wp_mem_load with (size := 3); [exact Hm | exact pins_held | exact HlU | lia | exact Hre | exact HD | intros a3 m3 H3 V3 X3].
    apply wp_ret, (HQ _ _ H3); [| | | exact X3].
    + rewrite V3, set_reg_eq. symmetry. exact Ey.
    + rewrite Ey. apply (load_64 3). lia.
    + intros q Hq. rewrite V3, set_reg_ne by exact Hq. reflexivity.
Qed.

Lemma wp_store_float ro s s1 c l T V a m o x D (Q : unit -> asm -> machine -> Prop) :
  mid s c l T held V a m -> fscratch cfg D = true -> float_operand s o = true -> fp_store segbase ro s o x = Some s1 ->
  vr m D = x -> in64 x -> (forall a' m', mid s1 c l T held V a' m' -> Q tt a' m') ->
  wp (store_float cfg tgt o D) Q a m.
Proof.
  intros Hm HD Hf Hst Ex X64 HQ. destruct (float_operandE _ _ Hf) as [Hsz Hre]. unfold store_float.
  assert (HlU : (length held < 8)%nat) by (eapply Nat.le_lt_trans; [apply temp_length | lia]).
  unfold fp_store, Fpu.write, Fpu.guard in Hst. destruct Hsz as [Es | Es]; rewrite Es in *.
  - change (IROperandSize.S32 =? IROperandSize.S32) with true in *. cbv iota in *. destruct (_ && _); [|discriminate]. injection Hst as <-.
    apply wp_bind, r_fcvt_d_to_s; [apply fscratch_or_zr, HD | apply fscratch_or_zr, HD|]. intros a4 Hs4.
    eapply mid_putv with (Dd := D) in Hm; [|exact Hs4 | exact HD].
    eapply wp_mem_store with (size := 2) (v := narrow x); [exact Hm | exact pins_held | exact HlU | lia | exact Hre | exact HD | | intros a5 m5 H5; apply HQ, H5].
    cbn [vr putv set_vr]. rewrite set_reg_eq, Ex, in64_u64 by exact X64. change (8 * Z.of_nat (Z.to_nat (2 ^ 2))) with 32. apply wrap_wrap. lia.
  - change (IROperandSize.S64 =? IROperandSize.S32) with false in *. change (IROperandSize.S64 =? IROperandSize.S64) with true in Hst. cbv iota in *.
    destruct (_ && _); [|discriminate]. injection Hst as <-. apply wp_bind, wp_ret.
    eapply wp_mem_store with (size := 3) (v := x); [exact Hm | exact pins_held | exact HlU | lia | exact Hre | exact HD | rewrite Ex; reflexivity | intros a5 m5 H5; apply HQ, H5].
Qed.

(** The value an FLD pushes, in a SIMD register. *)
Lemma wp_fld_value s c l T V a m i v D (Q : unit -> asm -> machine -> Prop) :
  mid s c l T held V a m -> fscratch cfg D = true -> classified (with_stack s l T) i v (classify_fld_source i) ->
  (forall a' m', mid s c l T held V a' m' -> vr m' D = v -> in64 v -> (forall q, q <> D -> vr m' q = vr m q) -> Q tt a' m') ->
  wp (emit_fld_value cfg tgt c (classify_fld_source i) i 22 23 24 D Xst) Q a m.
Proof.
  intros Hm HD Hc HQ. unfold emit_fld_value. destruct (temps_24 Xst c0 Hheld) as [HU Ht].
  destruct Hc as [(-> & -> & _ & Hst) | [(_ & Hf & -> & Hv & Hsrc) | (Hv & [(-> & E) | [(-> & E) | (-> & E)]])]].
  - pose proof (index_range (reg (operand i 1))).
    eapply wp_bind, (wp_load_depth Xst m0 c0 Hheld _ 24 HU Ht); [exact Hm | | exact Hst | exact HD | intros r a1 m1 H1 E1 X1 Vo _ _].
    { unfold st_index. lia. }
    apply wp_ret, (HQ _ _ H1); assumption.
  - change (b2z (IROperandSize.S64 =? IROperandSize.S64)) with 1.
    assert (H := wp_load_float s c l T V a m (operand i 0) v D Q Hm HD Hf Hv). unfold load_float in H.
    destruct Hsrc as [[-> Es] | [-> Es]]; rewrite Es in H.
    + change (IROperandSize.S32 =? IROperandSize.S32) with true in H. cbv iota in H. apply H. intros; apply HQ; auto.
    + change (IROperandSize.S64 =? IROperandSize.S32) with false in H. cbv iota in H.
      eapply wp_ext, H; [apply bind_ret_tt|]. intros; apply HQ; auto.
  - apply puts_movi; [apply fscratch_or_zr, HD|]. intros a' Hs. subst v. eapply HQ; [eapply mid_putv; [exact Hm | exact Hs | exact HD] | apply set_reg_eq | exact Hv |].
    intros q Hq. apply set_reg_ne, Hq.
  - apply puts_one; [apply fscratch_or_zr, HD|]. intros a' Hs. subst v. eapply HQ; [eapply mid_putv; [exact Hm | exact Hs | exact HD] | apply set_reg_eq | exact Hv |].
    intros q Hq. apply set_reg_ne, Hq.
  - rewrite E. apply r_ldr_literal; [apply fscratch_or_zr, HD | exact Hv|]. intros a' Hs.
    eapply HQ; [eapply mid_putv; [exact Hm | exact Hs | exact HD] | apply set_reg_eq | exact Hv |].
    intros q Hq. apply set_reg_ne, Hq.
Qed.
End Steps.

(** *** The arithmetic of a fusion *)

Definition op_parts (op : ArithOp) : arith * bool :=
  match op with
  | kAdd => (Add, false) | kSub => (Sub, false) | kSubR => (Sub, true)
  | kMul => (Mul, false) | kDiv => (Div, false) | kDivR => (Div, true)
  end.

Definition apply_op (op : ArithOp) (x y : Z) : Z := arith_apply (fst (op_parts op)) (snd (op_parts op)) x y.

Lemma emit_arith_computes op x y D1 D2 : gpr_or_zr D1 -> gpr_or_zr D2 -> computes D1 D2 x y (apply_op op x y) (emit_arith op D1 D2).
Proof.
  intros Z1 Z2. unfold apply_op. replace (emit_arith op D1 D2) with (arith_emit (fst (op_parts op)) (snd (op_parts op)) D1 D2) by (destruct op; reflexivity).
  apply arith_computes; [destruct op; cbn; auto | exact Z1 | exact Z2].
Qed.

Lemma apply_op_range op x y : in64 x -> in64 y -> in64 (apply_op op x y).
Proof. apply arith_in64. Qed.

Lemma arith_op_exec opc op : arith_op opc = Some op -> x87op_of opc = Some (Farith (fst (op_parts op)) (snd (op_parts op))).
Proof.
  unfold arith_op. repeat match goal with |- context[if opc =? ?k then _ else _] => destruct (Z.eqb_spec opc k) as [->|]; [intros [= <-]; reflexivity|] end. discriminate.
Qed.

Lemma arithp_op_exec opc op : arithp_op opc = Some op -> x87op_of opc = Some (Farithp (fst (op_parts op)) (snd (op_parts op))).
Proof.
  unfold arithp_op. repeat match goal with |- context[if opc =? ?k then _ else _] => destruct (Z.eqb_spec opc k) as [->|]; [intros [= <-]; reflexivity|] end. discriminate.
Qed.

Lemma exec_two ro s i1 i2 s' : exec_all segbase ro s [i1; i2] = Some s' ->
  exists s1, Fpu.exec segbase ro s i1 = Some s1 /\ Fpu.exec segbase ro s1 i2 = Some s'.
Proof.
  cbn [exec_all]. destruct (Fpu.exec segbase ro s i1) as [s1|]; [|discriminate]. destruct (Fpu.exec segbase ro s1 i2) as [s2|] eqn:E; [|discriminate].
  intros [= <-]. eauto.
Qed.

(** *** A push and a pop that cancel *)

Lemma stack_of_eight (l : list (option Z)) : length l = 8%nat -> exists x0 x1 x2 x3 x4 x5 x6 x7, l = [x0; x1; x2; x3; x4; x5; x6; x7].
Proof. intros H. do 8 (destruct l as [|? l]; [discriminate|]). destruct l; [|discriminate]. repeat eexists. Qed.

Lemma top_back T : 0 <= T < 8 -> ((T - 1) mod 8 + 1) mod 8 = T /\ ((T + 1) mod 8 - 1) mod 8 = T.
Proof. intros H. each_depth T; split; reflexivity. Qed.

(** A state whose stack has eight slots, the last one free, after a push. *)
Record pushable (s : fpu) : Prop := mkPushable {
  pu_len : length (stack s) = 8%nat;
  pu_room : nth 7 (stack s) None = None;
  pu_top : 0 <= top s < 8
}.

Ltac open_stack H :=
  let L := fresh "L" in let R := fresh "R" in let T := fresh "T" in destruct H as [L R T];
  let E := fresh "E" in destruct (stack_of_eight _ L) as (? & ? & ? & ? & ? & ? & ? & ? & E);
  rewrite E in R; cbn [nth] in R; subst.

Lemma net_arithp s v w : pushable s ->
  fpop (set_st (fpush s v) 1 w) = with_stack s (list_set (stack s) 0 (Some w)) (top s).
Proof.
  intros H. open_stack H. unfold fpop, set_st, fpush, with_stack. cbn [stack top]. rewrite E. rewrite (proj1 (top_back _ T)). reflexivity.
Qed.

Lemma net_st1 s v : st (fpush s v) 1 = st s 0.
Proof. unfold st, fpush, with_stack. cbn [stack]. change (Z.to_nat 1) with 1%nat. change (Z.to_nat 0) with 0%nat. destruct (stack s); reflexivity. Qed.

Section Fused.
Context (ro : Z -> bool) (c : X87Cache) (s : fpu) (a : asm) (m : machine).
Hypothesis (Hb : between c s a m).

Lemma between_top : 0 <= top s < 8.
Proof.
  destruct Hb as [_ _ _ H]. destruct (active c && nz (gprs_valid c)).
  - destruct H as (W & E & _). rewrite <- E. eapply work_top. exact W.
  - destruct H as (_ & _ & Hk & _). apply (sk_top _ _ _ _ Hk).
Qed.

Lemma between_pushable : room s = true -> pushable s.
Proof. intros H. constructor; [eapply between_length; exact Hb | apply roomE, H | apply between_top]. Qed.

(** *** The destination of an FSTP whose push is cancelled *)

Lemma fp_store_stack s1 l T o x s' : fp_store segbase ro (with_stack s1 l T) o x = Some s' ->
  exists s2, fp_store segbase ro s1 o x = Some s2 /\ s' = with_stack s2 l T /\ stack s2 = stack s1 /\ top s2 = top s1.
Proof.
  unfold fp_store, Fpu.write, Fpu.guard. cbn [with_stack regs].
  destruct (op_size o =? IROperandSize.S32); [|destruct (op_size o =? IROperandSize.S64); [|discriminate]];
    (destruct (_ && _); [|discriminate]); intros [= <-]; eexists; (split; [reflexivity | auto]).
Qed.

Lemma fstp_x87 i : among (opcode i) [kOpcodeName.fstp; kOpcodeName.fstp_stack] = true -> x87op_of (opcode i) = Some (Fst true).
Proof.
  unfold among. cbn [existsb]. rewrite orb_false_r, orb_true_iff, !Z.eqb_eq. intros [-> | ->]; reflexivity.
Qed.

Lemma exec_cancelled_fstp s1 i v s' : among (opcode i) [kOpcodeName.fstp; kOpcodeName.fstp_stack] = true -> fstp_target i = true ->
  pushable s1 -> Fpu.exec segbase ro (fpush s1 v) i = Some s' ->
  if is_register i 0 then s' = with_stack s1 (list_set (stack s1) 0 (Some v)) (top s1)
  else exists s2, fp_store segbase ro s1 (operand i 0) v = Some s2 /\ s' = with_stack s2 (stack s1) (top s1).
Proof.
  intros Hop Ht Hp. unfold Fpu.exec. rewrite (fstp_x87 i Hop). unfold exec_fst, fstp_target in *. change (st (fpush s1 v) 0) with (Some v).
  fold (is_register i 0). destruct (is_register i 0).
  - apply Z.eqb_eq in Ht. unfold st_index in Ht. rewrite Ht. intros [= <-]. apply net_arithp, Hp.
  - destruct (fp_store segbase ro (fpush s1 v) (operand i 0) v) as [s2|] eqn:E; [|discriminate]. intros [= <-].
    apply fp_store_stack in E as (s3 & E3 & -> & Es & Et). exists s3. split; [exact E3|].
    open_stack Hp. unfold fpop, with_stack. cbn [stack top]. rewrite E. cbn [firstn tl app]. rewrite (proj1 (top_back _ T)). reflexivity.
Qed.

(** The register it writes, or the memory. *)
Definition dest_ok (s : fpu) (i : IRInstr) : bool :=
  if is_register i 0 then match st s 0 with Some _ => true | None => false end else float_operand s (operand i 0).

Lemma wp_cancelled_fstp n Xst c0 c1 i v D s' (store : M unit) a1 m1 : holds_as Xst c0 -> run_remaining c0 = run_remaining c -> 0 <= n ->
  mid Xst m c0 s c1 (stack s) (top s) (24 :: held_regs Xst) [D] a1 m1 -> fscratch cfg D = true -> vr m1 D = v -> in64 v ->
  among (opcode i) [kOpcodeName.fstp; kOpcodeName.fstp_stack] = true -> fstp_target i = true -> dest_ok s i = true -> pushable s ->
  (forall x (Q : unit -> asm -> machine -> Prop), nth 0 (stack s) None = Some x ->
     (forall a2 m2, mid Xst m c0 s c1 (list_set (stack s) 0 (Some v)) (top s) (24 :: held_regs Xst) [D] a2 m2 -> Q tt a2 m2) -> wp store Q a1 m1) ->
  Fpu.exec segbase ro (fpush s v) i = Some s' ->
  wp ((if is_register i 0 then store else store_float cfg tgt (operand i 0) D) ;;;
      free_fpr cfg D ;;; finish cfg c1 22 23 24 n) (outcome n c s' m) a1 m1.
Proof.
  intros Hh Hr Hn Hm HD Ev Hv Hop Ht Hok Hp Hstore Hs. apply (exec_cancelled_fstp s i v s' Hop Ht Hp) in Hs. unfold dest_ok in Hok. unfold finish.
  destruct (is_register i 0).
  - unfold st in Hok. change (Z.to_nat 0) with 0%nat in Hok. destruct (nth 0 (stack s) None) as [x|] eqn:E0; [|discriminate].
    apply wp_bind, (Hstore x); [reflexivity | intros a2 m2 H2]. give_f H3. eapply wp_leave; [exact Hh | exact Hr | exact Hn | exact H3 | exact Hs].
  - destruct Hs as (s2 & Hst & ->). eapply wp_bind, (wp_store_float Xst m c0 Hh ro); [exact Hm | exact HD | exact Hok | exact Hst | exact Ev | exact Hv | intros a2 m2 H2].
    give_f H3. eapply wp_leave; [exact Hh | exact Hr | exact Hn | exact H3 | reflexivity].
Qed.

(** The store computes the register's address anew. *)
Lemma wp_store_anew Xst c0 c1 D v a1 m1 x (Q : unit -> asm -> machine -> Prop) : holds_as Xst c0 ->
  mid Xst m c0 s c1 (stack s) (top s) (24 :: held_regs Xst) [D] a1 m1 -> fscratch cfg D = true -> vr m1 D = v -> in64 v ->
  nth 0 (stack s) None = Some x ->
  (forall a2 m2, mid Xst m c0 s c1 (list_set (stack s) 0 (Some v)) (top s) (24 :: held_regs Xst) [D] a2 m2 -> Q tt a2 m2) ->
  wp (emit_store_st 22 23 (resolve_depth c1 0) 24 D Xst) Q a1 m1.
Proof.
  intros Hh Hm HD Ev Hv E0 HQ. destruct (temps_24 Xst c0 Hh) as [HU Htmp].
  eapply (wp_store_depth Xst m c0 _ 24 HU Htmp) with (d := 0); [exact Hm | given | exact E0 | exact HD | exact Ev | exact Hv |].
  intros a2 m2 H2 _. apply HQ, H2.
Qed.

(** *** FLD with what follows *)

(** The preamble of a fusion that starts with an FLD. *)
Ltac begin_fld Hcl Xst c0 Hh Hr c1 Dn HDn HNn D HD HN H :=
  let Hm := fresh "Hm" in let H1 := fresh "H1" in let H2 := fresh "H2" in let H3 := fresh "H3" in
  begin Hb Xst c0 Hh Hr Hm; take 2 H1;
  eapply wp_bind, (wp_flush_unless_batched Xst m c0 Hh); [exact H1|]; intros c1 ? ? H2;
  take_f D HD HN H3; take_f Dn HDn HNn H.

Lemma fld_arithp_outcome fld arithp op s' : room s = true -> source_ok s fld = true -> arithp_op (opcode arithp) = Some op ->
  st_index arithp 0 = 1 -> exec_all segbase ro s [fld; arithp] = Some s' ->
  wp (fuse_fld_arithp cfg tgt (classify_fld_source fld) op c fld) (outcome 2 c s' m) a m.
Proof.
  intros Hroom Hsrc Hop Hi Hs. pose proof (between_pushable Hroom) as Hp.
  apply exec_two in Hs as (s1 & E1 & E2). apply (exec_fld ro s fld s1 Hsrc) in E1 as (v & Hv & ->).
  destruct (classify_source s fld v Hsrc Hv) as [Hcl _].
  unfold Fpu.exec in E2. rewrite (arithp_op_exec _ _ Hop) in E2. fold (st_index arithp 0) in E2. rewrite Hi, net_st1 in E2.
  change (st (fpush s v) 0) with (Some v) in E2. destruct (st s 0) as [x|] eqn:E0; [|discriminate]. injection E2 as <-.
  rewrite net_arithp by exact Hp. fold (apply_op op x v). unfold fuse_fld_arithp, finish.
  begin_fld Hcl Xst c0 Hh Hr c1 D1 HD1 HN1 D2 HD2 HN2 H3.
  eapply wp_bind, (wp_fld_value Xst m c0 Hh s c1 (stack s) (top s)); [exact H3 | exact HD1 | | intros a4 m4 H4 V4 X4 _].
  { replace (with_stack s (stack s) (top s)) with s by (destruct s; reflexivity). exact Hcl. }
  eapply wp_bind, (wp_load_depth Xst m c0 Hh _ 24 HU Ht) with (d := 0) (v := x); [exact H4 | lia | exact E0 | exact HD2 | intros r a5 m5 H5 V5 X5 Vo K _].
  rewrite <- (Vo D1) in V4 by (cbn in HN1; intuition congruence).
  apply wp_bind, (emit_arith_computes op x v D2 D1); [apply fscratch_or_zr, HD2 | apply fscratch_or_zr, HD1 | exact V5 | exact V4 | exact X5 | exact X4|].
  intros a6 Hs6. eapply mid_putv with (Dd := D2) in H5; [|exact Hs6 | exact HD2].
  eapply wp_bind, (wp_store_at Xst m c0 Hh _ 24 HU Ht) with (d := 0) (v := apply_op op x v);
    [exact H5 | given | exact E0 | exact HD2 | apply set_reg_eq | apply apply_op_range; assumption | exact K | intros a7 m7 H7 _ _].
  eapply wp_bind, (wp_give_fpr _ _ _ D1 _ _ _ _ _ [D2]); [exact H7 | exact HD1 | exact HN1 | intros a8 H8].
  give_f H9. eapply wp_leave; [exact Hh | exact Hr | lia | exact H9 | reflexivity].
Qed.

Lemma fld_fstp_outcome fld fstp s' : room s = true -> source_ok s fld = true ->
  among (opcode fstp) [kOpcodeName.fstp; kOpcodeName.fstp_stack] = true -> fstp_target fstp = true -> dest_ok s fstp = true ->
  exec_all segbase ro s [fld; fstp] = Some s' ->
  wp (fuse_fld_fstp cfg tgt (classify_fld_source fld) c fld fstp) (outcome 2 c s' m) a m.
Proof.
  intros Hroom Hsrc Hop Htg Hd Hs. pose proof (between_pushable Hroom) as Hp.
  apply exec_two in Hs as (s1 & E1 & E2). apply (exec_fld ro s fld s1 Hsrc) in E1 as (v & Hv & ->).
  destruct (classify_source s fld v Hsrc Hv) as [Hcl _]. unfold fuse_fld_fstp.
  begin Hb Xst c0 Hh Hr Hm. take 2 H1. eapply wp_bind, (wp_flush_unless_batched Xst m c0 Hh); [exact H1|]. intros c1 a2 m2 H2. take_f D HD HN H3.
  eapply wp_bind, (wp_fld_value Xst m c0 Hh s c1 (stack s) (top s)); [exact H3 | exact HD | | intros a4 m4 H4 V4 X4 _].
  { replace (with_stack s (stack s) (top s)) with s by (destruct s; reflexivity). exact Hcl. }
  eapply wp_cancelled_fstp; [exact Hh | exact Hr | lia | exact H4 | exact HD | exact V4 | exact X4 | exact Hop | exact Htg | exact Hd | exact Hp | | exact E2].
  intros x Q Ex HQ. eapply wp_store_anew; [exact Hh | exact H4 | exact HD | exact V4 | exact X4 | exact Ex | exact HQ].
Qed.

(** *** FLD, an operation, and what consumes its result *)

Lemma exec_three i1 i2 i3 s' : exec_all segbase ro s [i1; i2; i3] = Some s' ->
  exists s1 s2, Fpu.exec segbase ro s i1 = Some s1 /\ Fpu.exec segbase ro s1 i2 = Some s2 /\ Fpu.exec segbase ro s2 i3 = Some s'.
Proof.
  cbn [exec_all]. destruct (Fpu.exec segbase ro s i1) as [s1|]; [|discriminate].
  destruct (Fpu.exec segbase ro s1 i2) as [s2|] eqn:E2; [|discriminate]. destruct (Fpu.exec segbase ro s2 i3) as [s3|] eqn:E3; [|discriminate].
  intros [= <-]. exists s1, s2. auto.
Qed.

(** The other operand of the operation after an FLD. *)
Definition middle_value (s : fpu) (arith : IRInstr) : option Z :=
  if is_register arith 0 then st s 0 else fp_load segbase s (operand arith 0).

Definition middle_ok (s : fpu) (arith : IRInstr) : bool := is_register arith 0 || float_operand s (operand arith 0).

Lemma exec_middle v arith op s1 : arith_op (opcode arith) = Some op -> st0_st1 arith = true ->
  Fpu.exec segbase ro (fpush s v) arith = Some s1 ->
  exists y, middle_value s arith = Some y /\ s1 = fpush s (apply_op op v y).
Proof.
  intros Hop Hst. unfold Fpu.exec. rewrite (arith_op_exec _ _ Hop). unfold exec_arith, middle_value, st0_st1 in *. fold (is_register arith 0).
  fold (st_index arith 0) (st_index arith 1). destruct (is_register arith 0).
  - cbn [negb orb] in Hst. apply andb_true_iff in Hst as [H0 H1]. apply Z.eqb_eq in H0, H1. rewrite H0, H1, net_st1.
    change (st (fpush s v) 0) with (Some v). destruct (st s 0) as [y|]; [|discriminate]. intros [= <-]. exists y. split; reflexivity.
  - change (st (fpush s v) 0) with (Some v). change (fp_load segbase (fpush s v) (operand arith 0)) with (fp_load segbase s (operand arith 0)).
    destruct (fp_load segbase s (operand arith 0)) as [y|]; [|discriminate]. intros [= <-]. exists y. split; reflexivity.
Qed.

(** An operation on two registers, the second then given back. *)
Lemma wp_op_free {A} Xst m0 c0 op v y D1 D2 s1 c1 l T U a1 m1 (rest : M A) (Q : A -> asm -> machine -> Prop) :
  mid Xst m0 c0 s1 c1 l T U [D2; D1] a1 m1 -> fscratch cfg D1 = true -> fscratch cfg D2 = true -> D1 <> D2 ->
  vr m1 D1 = v -> vr m1 D2 = y -> in64 v -> in64 y ->
  (forall a2 m2, mid Xst m0 c0 s1 c1 l T U [D1] a2 m2 -> vr m2 D1 = apply_op op v y -> in64 (apply_op op v y) ->
     (forall q, xr m2 q = xr m1 q) -> wp rest Q a2 m2) ->
  wp (emit_arith op D1 D2 ;;; free_fpr cfg D2 ;;; rest) Q a1 m1.
Proof.
  intros Hm HD1 HD2 N V Y XV XY HQ.
  apply wp_bind, (emit_arith_computes op v y D1 D2); [apply fscratch_or_zr, HD1 | apply fscratch_or_zr, HD2 | exact V | exact Y | exact XV | exact XY|].
  intros a7 Hs7. eapply mid_putv with (Dd := D1) in Hm; [|exact Hs7 | exact HD1].
  eapply wp_bind, (wp_give_fpr _ _ _ D2 _ _ _ _ _ [D1]); [exact Hm | exact HD2 | cbn; intuition congruence | intros a8 H8].
  eapply HQ; [exact H8 | apply set_reg_eq | apply apply_op_range; assumption | reflexivity].
Qed.

Lemma fld_arith_fstp_outcome fld arith fstp op s' : room s = true -> source_ok s fld = true -> arith_op (opcode arith) = Some op ->
  st0_st1 arith = true -> middle_ok s arith = true ->
  among (opcode fstp) [kOpcodeName.fstp; kOpcodeName.fstp_stack] = true -> fstp_target fstp = true -> dest_ok s fstp = true ->
  exec_all segbase ro s [fld; arith; fstp] = Some s' ->
  wp (fuse_fld_arith_fstp cfg tgt (classify_fld_source fld) op c fld arith fstp) (outcome 3 c s' m) a m.
Proof.
  intros Hroom Hsrc Hop H01 Hmid Hfop Htg Hd Hs. pose proof (between_pushable Hroom) as Hp.
  apply exec_three in Hs as (s1 & s2 & E1 & E2 & E3). apply (exec_fld ro s fld s1 Hsrc) in E1 as (v & Hv & ->).
  destruct (classify_source s fld v Hsrc Hv) as [Hcl _].
  apply (exec_middle v arith op s2 Hop H01) in E2 as (y & Hy & ->). set (w := apply_op op v y) in *.
  unfold fuse_fld_arith_fstp. begin Hb Xst c0 Hh Hr Hm. take 2 H1.
  eapply wp_bind, (wp_flush_unless_batched Xst m c0 Hh); [exact H1|]. intros c1 a2 m2 H2. take_f D1 HD1 HN1 H3. take_f D2 HD2 HN2 H4.
  assert (N12 : D1 <> D2) by (cbn in HN2; tauto).
  eapply wp_bind, (wp_fld_value Xst m c0 Hh s c1 (stack s) (top s)); [exact H4 | exact HD1 | | intros a5 m5 H5 V5 X5 _].
  { replace (with_stack s (stack s) (top s)) with s by (destruct s; reflexivity). exact Hcl. }
  unfold middle_value, middle_ok in *. destruct (is_register arith 0).
  - eapply wp_bind, (wp_load_depth Xst m c0 Hh _ 24 HU Ht) with (d := 0) (v := y); [exact H5 | lia | exact Hy | exact HD2 | intros r a6 m6 H6 V6 X6 Vo K _].
    rewrite <- (Vo D1 N12) in V5. eapply (wp_op_free Xst m c0 op v y D1 D2); [exact H6 | exact HD1 | exact HD2 | exact N12 | exact V5 | exact V6 | exact X5 | exact X6|].
    intros a7 m7 H7 V7 X7 Kx. eapply wp_cancelled_fstp; [exact Hh | exact Hr | lia | exact H7 | exact HD1 | exact V7 | exact X7 | exact Hfop | exact Htg | exact Hd | exact Hp | | exact E3].
    intros x Q Ex HQ. assert (E : (0 <=? r) = true) by (destruct K as (_ & [-> | ->] & _); reflexivity). rewrite E.
    eapply (wp_store_at Xst m c0 Hh _ 24 HU Ht) with (d := 0) (v := w); [exact H7 | lia | exact Ex | exact HD1 | exact V7 | exact X7 | | intros a8 m8 H8 _ _; apply HQ, H8].
    destruct K as (G & Hk & E'). refine (conj G (conj Hk _)). rewrite Kx. exact E'.
  - cbn [orb] in Hmid. apply wp_bind. eapply wp_bind, (wp_load_float Xst m c0 Hh); [exact H5 | exact HD2 | exact Hmid | exact Hy | intros a6 m6 H6 V6 X6 Vo _].
    apply wp_ret. rewrite <- (Vo D1 N12) in V5. eapply (wp_op_free Xst m c0 op v y D1 D2); [exact H6 | exact HD1 | exact HD2 | exact N12 | exact V5 | exact V6 | exact X5 | exact X6|].
    intros a7 m7 H7 V7 X7 _. eapply wp_cancelled_fstp; [exact Hh | exact Hr | lia | exact H7 | exact HD1 | exact V7 | exact X7 | exact Hfop | exact Htg | exact Hd | exact Hp | | exact E3].
    intros x Q Ex HQ. change (0 <=? -1) with false. cbv iota.
    eapply wp_store_anew; [exact Hh | exact H7 | exact HD1 | exact V7 | exact X7 | exact Ex | exact HQ].
Qed.

(** *** Multiply and add *)

(** What the fused instruction computes: [acc op x * y], rounded once. *)
Definition fma_value (op : ArithOp) (acc x y : Z) : Z :=
  match op with
  | kAdd => fma f64 x y acc
  | kSub => fmsub f64 x y acc
  | _ => fnmsub f64 x y acc
  end.

Lemma wp_multiply_add op Da Dn Dm x y z r a1 m1 (Q : unit -> asm -> machine -> Prop) : op = kAdd \/ op = kSub \/ op = kSubR ->
  gpr_or_zr Da -> gpr_or_zr Dn -> gpr_or_zr Dm -> vr m1 Da = z -> vr m1 Dn = x -> vr m1 Dm = y -> in64 x -> in64 y -> in64 z ->
  fma_value op z x y = r -> in64 r ->
  (forall a2, same_pools a1 a2 -> Q tt a2 (putv m1 Da r)) -> wp (emit_fma op Da Dn Dm) Q a1 m1.
Proof.
  intros Hop Ga Gn Gm Ez Ex Ey Xx Xy Xz Er Xr HQ.
  assert (F : forall o1 o0, o1 = 0 \/ o1 = 1 -> o0 = 0 \/ o0 = 1 -> fp3 (o1 =? 1) (o0 =? 1) f64 x y z = r ->
    wp (emit_fp_dp3 1 o1 o0 Da Dn Dm Da) Q a1 m1).
  { intros o1 o0 H1 H0 E. apply r_fp3; [lia | exact H1 | exact H0 | exact Ga | exact Gn | exact Gm | exact Ga|].
    change (f_of 1) with f64. change (F64.size f64) with 64. rewrite Ex, Ey, Ez, (in64_u64 x), (in64_u64 y), (in64_u64 z) by assumption. rewrite E, in64_u64 by exact Xr. exact HQ. }
  destruct Hop as [-> | [-> | ->]]; [apply (F 0 0) | apply (F 0 1) | apply (F 1 1)]; auto.
Qed.

(** The two roundings of the separate instructions give the same. *)
Definition fma_agrees (op : ArithOp) (acc x y : Z) : bool := fma_value op acc x y =? apply_op op acc (apply_op kMul x y).

Lemma fma_kind_op opc op : fma_kind opc = Some op -> (op = kAdd \/ op = kSub \/ op = kSubR) /\ arithp_op opc = Some op.
Proof.
  unfold fma_kind. repeat match goal with |- context[if opc =? ?k then _ else _] => destruct (Z.eqb_spec opc k) as [->|]; [intros [= <-]; split; [tauto | reflexivity]|] end. discriminate.
Qed.

Lemma fma_eligible_op op1 op2 : fma_eligible op1 op2 = true -> op1 = kMul /\ (op2 = kAdd \/ op2 = kSub \/ op2 = kSubR).
Proof. destruct op1, op2; try discriminate; tauto. Qed.

(** *** FLD, an operation and a popping operation *)

Definition two_arith_ok (op1 op2 : ArithOp) (v x y : Z) : bool := negb (fma_eligible op1 op2) || fma_agrees op2 x v y.

Lemma wp_mid_perm Xst m0 c0 s1 c1 l T U V V' a1 m1 : (forall r, In r V <-> In r V') ->
  mid Xst m0 c0 s1 c1 l T U V a1 m1 -> mid Xst m0 c0 s1 c1 l T U V' a1 m1.
Proof. intros HV [[W1 W2 W3 W4 W5 W6] G H E R B]. constructor; auto. constructor; auto. eapply fpool_ext; eassumption. Qed.

Lemma wp_with_memory Xst c0 s1 c1 l T o y V a1 m1 f (Q : unit -> asm -> machine -> Prop) : holds_as Xst c0 ->
  mid Xst m c0 s1 c1 l T (24 :: held_regs Xst) V a1 m1 -> (length V < 6)%nat -> float_operand s1 o = true -> fp_load segbase s1 o = Some y ->
  (forall D a2 m2, fscratch cfg D = true -> ~ In D V -> mid Xst m c0 s1 c1 l T (24 :: held_regs Xst) (D :: V) a2 m2 -> vr m2 D = y -> in64 y ->
     (forall q, In q V -> vr m2 q = vr m1 q) -> (forall q, In q (24 :: held_regs Xst) -> xr m2 q = xr m1 q) ->
     wp (f D) (fun _ a3 m3 => mid Xst m c0 s1 c1 l T (24 :: held_regs Xst) (D :: V) a3 m3 /\
       (forall a4, mid Xst m c0 s1 c1 l T (24 :: held_regs Xst) V a4 m3 -> Q tt a4 m3)) a2 m2) ->
  wp (with_memory cfg tgt o f) Q a1 m1.
Proof.
  intros Hh Hm HV Hf Hy HQ. unfold with_memory. take_f D HD HN H1.
  eapply wp_bind, (wp_load_float Xst m c0 Hh); [exact H1 | exact HD | exact Hf | exact Hy | intros a2 m2 H2 V2 X2 Vo Xo].
  apply wp_bind. eapply wp_mono; [apply (HQ D a2 m2 HD HN H2 V2 X2); [| exact Xo]|].
  { intros q Hq. apply Vo. intros ->. exact (HN Hq). }
  cbv beta. intros _ a3 m3 [H3 H4]. eapply wp_give_fpr; [exact H3 | exact HD | exact HN|]. intros a4 H5. apply H4, H5.
Qed.

Lemma wp_two_arith Xst c0 s1 c1 l T op1 op2 arith v x y D1 D2 a1 m1 (Q : unit -> asm -> machine -> Prop) : holds_as Xst c0 ->
  mid Xst m c0 s1 c1 l T (24 :: held_regs Xst) [D1; D2] a1 m1 -> fscratch cfg D1 = true -> fscratch cfg D2 = true -> D1 <> D2 ->
  vr m1 D1 = v -> vr m1 D2 = x -> in64 v -> in64 x -> middle_ok s1 arith = true ->
  (if is_register arith 0 then y = x else fp_load segbase s1 (operand arith 0) = Some y) -> two_arith_ok op1 op2 v x y = true ->
  (forall a2 m2, mid Xst m c0 s1 c1 l T (24 :: held_regs Xst) [D1; D2] a2 m2 -> vr m2 D2 = apply_op op2 x (apply_op op1 v y) ->
     in64 (apply_op op2 x (apply_op op1 v y)) -> (forall q, In q (24 :: held_regs Xst) -> xr m2 q = xr m1 q) -> Q tt a2 m2) ->
  wp (emit_two_arith cfg tgt op1 op2 arith D1 D2) Q a1 m1.
Proof.
  intros Hh Hm F1 F2 N V X Xv Xx Hmid Hy Hok HQ. unfold emit_two_arith, middle_ok, two_arith_ok in *.
  pose proof (fscratch_or_zr _ F1) as Z1. pose proof (fscratch_or_zr _ F2) as Z2.
  assert (Xy : is_register arith 0 = true -> in64 y) by (intros E; rewrite E in Hy; congruence).
  destruct (fma_eligible op1 op2) eqn:El.
  - apply fma_eligible_op in El as [-> Hop]. cbn [negb orb] in Hok. apply Z.eqb_eq in Hok. destruct (is_register arith 0).
    + subst y. apply (wp_multiply_add op2 D2 D1 D2 v x x (apply_op op2 x (apply_op kMul v x))); try assumption; [unfold apply_op; repeat apply arith_in64; assumption|].
      intros a2 Hs2. eapply HQ; [eapply mid_putv; [exact Hm | exact Hs2 | exact F2] | apply set_reg_eq | unfold apply_op; repeat apply arith_in64; assumption | reflexivity].
    + eapply wp_with_memory; [exact Hh | exact Hm | cbn; lia | exact Hmid | exact Hy|]. intros D a2 m2 HD HN H2 V2 X2 Vo Xo.
      apply (wp_multiply_add op2 D2 D1 D v y x (apply_op op2 x (apply_op kMul v y))); try first [assumption | apply fscratch_or_zr, HD];
        [rewrite Vo by (cbn; auto); exact X | rewrite Vo by (cbn; auto); exact V | unfold apply_op; repeat apply arith_in64; assumption |].
      intros a3 Hs3. split; [eapply mid_putv; [exact H2 | exact Hs3 | exact F2]|]. intros a4 H4.
      eapply HQ; [exact H4 | apply set_reg_eq | unfold apply_op; repeat apply arith_in64; assumption | exact Xo].
  - assert (Fin : forall a2 m2, mid Xst m c0 s1 c1 l T (24 :: held_regs Xst) [D1; D2] a2 m2 -> vr m2 D1 = apply_op op1 v y -> in64 y -> vr m2 D2 = x ->
      (forall q, In q (24 :: held_regs Xst) -> xr m2 q = xr m1 q) -> wp (emit_arith op2 D2 D1) Q a2 m2).
    { intros a2 m2 H2 V2 Y2 X2 Xo. apply (emit_arith_computes op2 x (apply_op op1 v y) D2 D1); try assumption; [apply apply_op_range; assumption|].
      intros a3 Hs3. eapply HQ; [eapply mid_putv; [exact H2 | exact Hs3 | exact F2] | apply set_reg_eq | unfold apply_op; repeat apply arith_in64; assumption | exact Xo]. }
    apply wp_bind. destruct (is_register arith 0).
    + subst y. apply (emit_arith_computes op1 v x D1 D2); try assumption. intros a2 Hs2.
      apply (Fin _ (putv m1 D1 (apply_op op1 v x))); [eapply mid_putv; [exact Hm | exact Hs2 | exact F1] | apply set_reg_eq | exact Xx | | reflexivity].
      cbn [vr putv set_vr]. rewrite set_reg_ne by congruence. exact X.
    + eapply wp_with_memory; [exact Hh | exact Hm | cbn; lia | exact Hmid | exact Hy|]. intros D a2 m2 HD HN H2 V2 X2 Vo Xo.
      apply (emit_arith_computes op1 v y D1 D); try first [assumption | apply fscratch_or_zr, HD]; [rewrite Vo by (cbn; auto); exact V|].
      intros a3 Hs3. split; [eapply mid_putv; [exact H2 | exact Hs3 | exact F1]|]. intros a4 H4.
      apply (Fin _ (putv m2 D1 (apply_op op1 v y))); [exact H4 | apply set_reg_eq | exact X2 | | exact Xo].
      cbn [vr putv set_vr]. rewrite set_reg_ne, Vo by (cbn; auto). exact X.
Qed.

Lemma fld_arith_arithp_outcome fld arith arithp op1 op2 v x y s' : room s = true -> source_ok s fld = true ->
  arith_op (opcode arith) = Some op1 -> st0_st1 arith = true -> middle_ok s arith = true ->
  arithp_op (opcode arithp) = Some op2 -> st_index arithp 0 = 1 ->
  fld_value s fld = Some v -> st s 0 = Some x -> middle_value s arith = Some y -> two_arith_ok op1 op2 v x y = true ->
  exec_all segbase ro s [fld; arith; arithp] = Some s' ->
  wp (fuse_fld_arith_arithp cfg tgt (classify_fld_source fld) op1 op2 c fld arith) (outcome 3 c s' m) a m.
Proof.
  intros Hroom Hsrc Hop1 H01 Hmid Hop2 Hi Hv Hx Hy Hok Hs. pose proof (between_pushable Hroom) as Hp.
  apply exec_three in Hs as (s1 & s2 & E1 & E2 & E3). apply (exec_fld ro s fld s1 Hsrc) in E1 as (v' & Hv' & ->).
  assert (v' = v) by congruence. subst v'. destruct (classify_source s fld v Hsrc Hv) as [Hcl _].
  apply (exec_middle v arith op1 s2 Hop1 H01) in E2 as (y' & Hy' & ->). assert (y' = y) by congruence. subst y'. set (w := apply_op op1 v y) in *.
  unfold Fpu.exec in E3. rewrite (arithp_op_exec _ _ Hop2) in E3. fold (st_index arithp 0) in E3. rewrite Hi, net_st1, Hx in E3.
  change (st (fpush s w) 0) with (Some w) in E3. injection E3 as <-. fold (apply_op op2 x w). rewrite net_arithp by exact Hp.
  unfold fuse_fld_arith_arithp, finish. begin Hb Xst c0 Hh Hr Hm. take 2 H1.
  eapply wp_bind, (wp_flush_unless_batched Xst m c0 Hh); [exact H1|]. intros c1 a2 m2 H2. take_f D1 HD1 HN1 H3. take_f D2 HD2 HN2 H4.
  assert (N12 : D1 <> D2) by (cbn in HN2; tauto).
  eapply wp_bind, (wp_fld_value Xst m c0 Hh s c1 (stack s) (top s)); [exact H4 | exact HD1 | | intros a5 m5 H5 V5 X5 _].
  { replace (with_stack s (stack s) (top s)) with s by (destruct s; reflexivity). exact Hcl. }
  eapply wp_bind, (wp_load_depth Xst m c0 Hh _ 24 HU Ht) with (d := 0) (v := x); [exact H5 | lia | exact Hx | exact HD2 | intros r a6 m6 H6 V6 X6 Vo K _].
  rewrite <- (Vo D1 N12) in V5. apply (wp_mid_perm _ _ _ _ _ _ _ _ _ [D1; D2]) in H6; [|cbn; tauto].
  eapply wp_bind, (wp_two_arith Xst c0 s c1 (stack s) (top s) op1 op2 arith v x y D1 D2);
    [exact Hh | exact H6 | exact HD1 | exact HD2 | exact N12 | exact V5 | exact V6 | exact X5 | exact X6 | exact Hmid | | exact Hok | intros a7 m7 H7 V7 X7 Xo].
  { unfold middle_value in Hy. destruct (is_register arith 0); [congruence | exact Hy]. }
  eapply wp_bind, (wp_give_fpr _ _ _ D1 _ _ _ _ _ [D2]); [exact H7 | exact HD1 | cbn; intuition congruence | intros a8 H8].
  eapply wp_bind, (wp_store_at Xst m c0 Hh _ 24 HU Ht) with (d := 0) (v := apply_op op2 x w);
    [exact H8 | given | exact Hx | exact HD2 | exact V7 | exact X7 | | intros a9 m9 H9 _ _].
  { destruct K as (G & Hk & E'). refine (conj G (conj Hk _)). rewrite Xo; [exact E'|]. destruct Hk as [-> | ->]; [left; reflexivity | apply (pn_top _ _ _ _ HU)]. }
  give_f H10. eapply wp_leave; [exact Hh | exact Hr | lia | exact H10 | reflexivity].
Qed.

(** *** An operation whose result is consumed at once *)

Definition other_value (s : fpu) (arith : IRInstr) : option Z :=
  if is_register arith 0 then st s (st_index arith 1) else fp_load segbase s (operand arith 0).

Lemma exec_into_st0 arith op s1 : arith_op (opcode arith) = Some op -> into_st0 arith = true -> Fpu.exec segbase ro s arith = Some s1 ->
  exists x y, st s 0 = Some x /\ other_value s arith = Some y /\ s1 = set_st s 0 (apply_op op x y).
Proof.
  intros Hop Hin. unfold Fpu.exec. rewrite (arith_op_exec _ _ Hop). unfold exec_arith, other_value, into_st0 in *. fold (is_register arith 0).
  fold (st_index arith 0) (st_index arith 1). destruct (is_register arith 0).
  - cbn [negb orb] in Hin. apply Z.eqb_eq in Hin. rewrite Hin. destruct (st s 0) as [x|]; [|discriminate].
    destruct (st s (st_index arith 1)) as [y|]; [|discriminate]. intros [= <-]. exists x, y. auto.
  - destruct (st s 0) as [x|]; [|discriminate]. destruct (fp_load _ _ _) as [y|]; [|discriminate]. intros [= <-]. exists x, y. auto.
Qed.

Lemma wp_load_two Xst c0 c1 arith x y D1 D2 V a1 m1 (Q : unit -> asm -> machine -> Prop) : holds_as Xst c0 ->
  mid Xst m c0 s c1 (stack s) (top s) (24 :: held_regs Xst) V a1 m1 -> fscratch cfg D1 = true -> fscratch cfg D2 = true -> D1 <> D2 ->
  middle_ok s arith = true -> st s 0 = Some x -> other_value s arith = Some y ->
  (forall a2 m2, mid Xst m c0 s c1 (stack s) (top s) (24 :: held_regs Xst) V a2 m2 -> vr m2 D1 = x -> vr m2 D2 = y -> in64 x -> in64 y -> Q tt a2 m2) ->
  wp (load_two cfg tgt c1 arith 22 23 24 D1 D2 Xst) Q a1 m1.
Proof.
  intros Hh Hm F1 F2 N Hok Hx Hy HQ. unfold load_two, middle_ok, other_value in *. destruct (temps_24 Xst c0 Hh) as [HU Ht].
  destruct (is_register arith 0).
  - pose proof (index_range (reg (operand arith 1))).
    eapply wp_bind, (wp_load_depth Xst m c0 Hh _ 24 HU Ht) with (v := y); [exact Hm | unfold st_index; lia | exact Hy | exact F2 | intros r1 a2 m2 H2 V2 X2 _ _ _].
    eapply wp_bind, (wp_load_depth Xst m c0 Hh _ 24 HU Ht) with (d := 0) (v := x); [exact H2 | lia | exact Hx | exact F1 | intros r2 a3 m3 H3 V3 X3 Vo _ _].
    apply wp_ret. apply (HQ _ _ H3); auto. rewrite Vo by congruence. exact V2.
  - eapply wp_bind, (wp_load_depth Xst m c0 Hh _ 24 HU Ht) with (d := 0) (v := x); [exact Hm | lia | exact Hx | exact F1 | intros r2 a2 m2 H2 V2 X2 _ _ _].
    eapply (wp_load_float Xst m c0 Hh); [exact H2 | exact F2 | exact Hok | exact Hy | intros a3 m3 H3 V3 X3 Vo _].
    apply (HQ _ _ H3); auto. rewrite Vo by congruence. exact V2.
Qed.

Lemma fstp_memory_x87 i : fstp_memory i = true -> x87op_of (opcode i) = Some (Fst true) /\ is_register i 0 = false.
Proof.
  unfold fstp_memory. rewrite !andb_true_iff, !negb_true_iff, Z.eqb_eq. intros [[-> H] _]. auto.
Qed.

(** The tail of these fusions: the result popped to memory. *)
Lemma arith_fstp_outcome arith fstp op s' : arith_op (opcode arith) = Some op -> into_st0 arith = true -> middle_ok s arith = true ->
  fstp_memory fstp = true -> float_operand s (operand fstp 0) = true -> exec_all segbase ro s [arith; fstp] = Some s' ->
  wp (fuse_arith_fstp cfg tgt op c arith fstp) (outcome 2 c s' m) a m.
Proof.
  intros Hop Hin Hok Hfm Hf Hs. apply exec_two in Hs as (s1 & E1 & E2). apply (exec_into_st0 arith op s1 Hop Hin) in E1 as (x & y & Hx & Hy & ->).
  destruct (fstp_memory_x87 fstp Hfm) as [Ef Er]. unfold Fpu.exec in E2. rewrite Ef in E2. unfold exec_fst in E2. fold (is_register fstp 0) in E2. rewrite Er in E2.
  set (w := apply_op op x y) in *. unfold st in Hx. change (Z.to_nat 0) with 0%nat in Hx.
  assert (E0 : st (set_st s 0 w) 0 = Some w).
  { unfold st, set_st, with_stack. cbn [stack]. change (Z.to_nat 0) with 0%nat. destruct (stack s); [discriminate | reflexivity]. }
  rewrite E0 in E2. destruct (fp_store segbase ro (set_st s 0 w) (operand fstp 0) w) as [s2|] eqn:Es; [|discriminate]. injection E2 as <-.
  apply fp_store_stack in Es as (s3 & Es & -> & _ & _).
  unfold fuse_arith_fstp, finish. begin Hb Xst c0 Hh Hr Hm. take 2 H1. take_f D1 HD1 HN1 H2. take_f D2 HD2 HN2 H3.
  assert (N12 : D1 <> D2) by (cbn in HN2; tauto).
  eapply wp_bind, (wp_load_two Xst c0 c0 arith x y D1 D2); [exact Hh | exact H3 | exact HD1 | exact HD2 | exact N12 | exact Hok | exact Hx | exact Hy | intros a4 m4 H4 V1 V2 X1 X2].
  apply wp_bind, (emit_arith_computes op x y D1 D2); [apply fscratch_or_zr, HD1 | apply fscratch_or_zr, HD2 | exact V1 | exact V2 | exact X1 | exact X2|].
  intros a5 Hs5. eapply mid_putv with (Dd := D1) in H4; [|exact Hs5 | exact HD1].
  eapply wp_bind, (wp_store_float Xst m c0 Hh ro); [exact H4 | exact HD1 | exact Hf | exact Es | apply set_reg_eq | apply apply_op_range; assumption | intros a6 m6 H6].
  eapply wp_bind, wp_pop_mid; [exact Hh | exact H6 | given | given | cbn; lia | exact Hx | intros c1 a7 m7 H7 _].
  eapply wp_bind, (wp_give_fpr _ _ _ D2 _ _ _ _ _ [D1]); [exact H7 | exact HD2 | exact HN2 | intros a8 H8].
  give_f H9. eapply wp_leave; [exact Hh | exact Hr | lia | exact H9|].
  unfold fpop, with_stack. cbn [stack top]. change (Z.to_nat 0) with 0%nat. destruct (stack s); [discriminate Hx | reflexivity].
Qed.

(** FMUL and a popping addition, by one multiply-add. *)
Lemma arith_faddp_outcome mul addp op x y z s' : opcode mul = kOpcodeName.fmul -> into_st0 mul = true -> middle_ok s mul = true ->
  fma_kind (opcode addp) = Some op -> st_index addp 0 = 1 ->
  st s 0 = Some x -> other_value s mul = Some y -> st s 1 = Some z -> fma_agrees op z x y = true ->
  exec_all segbase ro s [mul; addp] = Some s' ->
  wp (fuse_arith_faddp cfg tgt op c mul) (outcome 2 c s' m) a m.
Proof.
  intros Hmul Hin Hok Hk Hi Hx Hy Hz Hfma Hs. apply exec_two in Hs as (s1 & E1 & E2). destruct (fma_kind_op _ _ Hk) as [Hop3 Hop].
  apply (exec_into_st0 mul kMul s1) in E1 as (x' & y' & Hx' & Hy' & ->); [|rewrite Hmul; reflexivity | exact Hin].
  assert (x' = x) by congruence. assert (y' = y) by congruence. subst x' y'. set (p := apply_op kMul x y) in *.
  unfold Fpu.exec in E2. rewrite (arithp_op_exec _ _ Hop) in E2. fold (st_index addp 0) in E2. rewrite Hi in E2.
  unfold st in Hx, Hz. change (Z.to_nat 0) with 0%nat in Hx. change (Z.to_nat 1) with 1%nat in Hz.
  assert (E0 : st (set_st s 0 p) 0 = Some p /\ st (set_st s 0 p) 1 = Some z).
  { unfold st, set_st, with_stack. cbn [stack]. change (Z.to_nat 0) with 0%nat. change (Z.to_nat 1) with 1%nat.
    destruct (stack s); [discriminate | split; [reflexivity | exact Hz]]. }
  destruct E0 as [-> ->] in E2. injection E2 as <-. fold (apply_op op z p). apply Z.eqb_eq in Hfma. fold p in Hfma. set (w := apply_op op z p) in *.
  unfold fuse_arith_faddp, finish. begin Hb Xst c0 Hh Hr Hm. take 2 H1. take_f D1 HD1 HN1 H2. take_f D2 HD2 HN2 H3. take_f D3 HD3 HN3 H4.
  assert (N : D1 <> D2 /\ D1 <> D3 /\ D2 <> D3) by (cbn in HN2, HN3; intuition congruence). destruct N as (N12 & N13 & N23).
  eapply wp_bind, (wp_load_two Xst c0 c0 mul x y D1 D2); [exact Hh | exact H4 | exact HD1 | exact HD2 | exact N12 | exact Hok | exact Hx | exact Hy | intros a5 m5 H5 V1 V2 X1 X2].
  eapply wp_bind, (wp_load_depth Xst m c0 Hh _ 24 HU Ht) with (d := 1) (v := z); [exact H5 | lia | exact Hz | exact HD3 | intros r a6 m6 H6 V3 X3 Vo K _].
  assert (Xw : in64 w) by (unfold w, p, apply_op; repeat apply arith_in64; assumption).
  apply wp_bind, (wp_multiply_add op D3 D1 D2 x y z w); try first [assumption | apply fscratch_or_zr; assumption]; [rewrite Vo by assumption; exact V1 | rewrite Vo by assumption; exact V2 |].
  intros a7 Hs7. eapply mid_putv with (Dd := D3) in H6; [|exact Hs7 | exact HD3].
  eapply wp_bind, (wp_store_at Xst m c0 Hh _ 24 HU Ht) with (d := 1) (v := w);
    [exact H6 | given | exact Hz | exact HD3 | apply set_reg_eq | exact Xw | exact K | intros a8 m8 H8 _ _].
  eapply wp_bind, (wp_pop_mid Xst m c0 Hh) with (v := x); [exact H8 | given | given | cbn; lia | | intros c1 a9 m9 H9 _].
  { rewrite nth_list_set. exact Hx. }
  apply (wp_mid_perm _ _ _ _ _ _ _ _ _ [D2; D1; D3]) in H9; [|cbn; tauto].
  eapply wp_bind, (wp_give_fpr _ _ _ D2 _ _ _ _ _ [D1; D3]); [exact H9 | exact HD2 | cbn; intuition congruence | intros a10 H10].
  eapply wp_bind, (wp_give_fpr _ _ _ D1 _ _ _ _ _ [D3]); [exact H10 | exact HD1 | cbn; intuition congruence | intros a11 H11].
  give_f H12. eapply wp_leave; [exact Hh | exact Hr | lia | exact H12|].
  unfold fpop, set_st, with_stack. cbn [stack top]. change (Z.to_nat 0) with 0%nat. change (Z.to_nat 1) with 1%nat. destruct (stack s); [discriminate Hx | reflexivity].
Qed.

(** A popping operation whose result is popped to memory: the second pop's
    register needs no store. *)
Lemma arithp_fstp_outcome arithp fstp op s' : arithp_op (opcode arithp) = Some op -> st_index arithp 0 = 1 ->
  fstp_memory fstp = true -> float_operand s (operand fstp 0) = true -> exec_all segbase ro s [arithp; fstp] = Some s' ->
  wp (fuse_arithp_fstp cfg tgt op c fstp) (outcome 2 c s' m) a m.
Proof.
  intros Hop Hi Hfm Hf Hs. apply exec_two in Hs as (s1 & E1 & E2).
  unfold Fpu.exec in E1. rewrite (arithp_op_exec _ _ Hop) in E1. fold (st_index arithp 0) in E1. rewrite Hi in E1.
  destruct (st s 1) as [x|] eqn:Hx; [|discriminate]. destruct (st s 0) as [y|] eqn:Hy; [|discriminate]. injection E1 as <-.
  fold (apply_op op x y) in E2. set (w := apply_op op x y) in *.
  destruct (fstp_memory_x87 fstp Hfm) as [Ef Er]. unfold Fpu.exec in E2. rewrite Ef in E2. unfold exec_fst in E2. fold (is_register fstp 0) in E2. rewrite Er in E2.
  assert (Hlen : length (stack s) = 8%nat) by (eapply between_length; exact Hb).
  unfold st in Hx, Hy. change (Z.to_nat 0) with 0%nat in Hy. change (Z.to_nat 1) with 1%nat in Hx.
  destruct (stack_of_eight _ Hlen) as (x0 & x1 & x2 & x3 & x4 & x5 & x6 & x7 & El).
  set (l1 := tl (list_set (stack s) 1 (Some w)) ++ [None]).
  change (fpop (set_st s 1 w)) with (with_stack s l1 ((top s + 1) mod 8)) in E2.
  assert (E0 : st (with_stack s l1 ((top s + 1) mod 8)) 0 = Some w) by (unfold l1, st, with_stack; rewrite El; reflexivity).
  rewrite E0 in E2. destruct (fp_store segbase ro (with_stack s l1 ((top s + 1) mod 8)) (operand fstp 0) w) as [s2|] eqn:Es; [|discriminate]. injection E2 as <-.
  apply fp_store_stack in Es as (s3 & Es & -> & _ & _).
  unfold fuse_arithp_fstp, finish. begin Hb Xst c0 Hh Hr Hm. take 2 H1. take_f D1 HD1 HN1 H2. take_f D2 HD2 HN2 H3.
  assert (N12 : D1 <> D2) by (cbn in HN2; tauto).
  eapply wp_bind, (wp_load_depth Xst m c0 Hh _ 24 HU Ht) with (d := 0) (v := y); [exact H3 | lia | exact Hy | exact HD1 | intros r1 a4 m4 H4 V4 X4 _ _ _].
  eapply wp_bind, (wp_load_depth Xst m c0 Hh _ 24 HU Ht) with (d := 1) (v := x); [exact H4 | lia | exact Hx | exact HD2 | intros r2 a5 m5 H5 V5 X5 Vo _ _].
  rewrite <- (Vo D1 N12) in V4.
  apply wp_bind, (emit_arith_computes op x y D2 D1); [apply fscratch_or_zr, HD2 | apply fscratch_or_zr, HD1 | exact V5 | exact V4 | exact X5 | exact X4|].
  intros a6 Hs6. eapply mid_putv with (Dd := D2) in H5; [|exact Hs6 | exact HD2].
  eapply wp_bind, (wp_store_float Xst m c0 Hh ro); [exact H5 | exact HD2 | exact Hf | exact Es | apply set_reg_eq | apply apply_op_range; assumption | intros a7 m7 H7].
  eapply wp_bind, wp_pop2_mid; [exact Hh | exact H7 | given | given | cbn; lia | intros c1 a8 m8 H8].
  eapply wp_bind, (wp_give_fpr _ _ _ D1 _ _ _ _ _ [D2]); [apply (wp_mid_perm _ _ _ _ _ _ _ _ _ [D1; D2]) in H8; [exact H8 | cbn; tauto] | exact HD1 | cbn; intuition congruence | intros a9 H9].
  give_f H10. eapply wp_leave; [exact Hh | exact Hr | lia | exact H10|].
  unfold fpop, with_stack. cbn [stack top]. unfold l1. rewrite El, Z.add_mod_idemp_l by lia. rewrite <- Z.add_assoc. reflexivity.
Qed.

(** *** FSTP and FLD: a pop and a push that cancel *)

Definition discards (fstp : IRInstr) : bool := is_register fstp 0 && (st_index fstp 0 =? 0).

(** The state FSTP leaves before its pop. *)
Lemma exec_fstp_parts fstp s1 : among (opcode fstp) [kOpcodeName.fstp; kOpcodeName.fstp_stack] = true -> Fpu.exec segbase ro s fstp = Some s1 ->
  exists x s2 l, st s 0 = Some x /\ s1 = fpop (with_stack s2 l (top s)) /\
    if is_register fstp 0 then s2 = s /\ l = list_set (stack s) (Z.to_nat (st_index fstp 0)) (Some x)
    else fp_store segbase ro s (operand fstp 0) x = Some s2 /\ l = stack s.
Proof.
  intros Hop. unfold Fpu.exec. rewrite (fstp_x87 fstp Hop). unfold exec_fst. fold (is_register fstp 0) (st_index fstp 0).
  destruct (st s 0) as [x|]; [|discriminate]. destruct (is_register fstp 0).
  - intros [= <-]. exists x, s, (list_set (stack s) (Z.to_nat (st_index fstp 0)) (Some x)). auto.
  - destruct (fp_store segbase ro s (operand fstp 0) x) as [s2|] eqn:E; [|discriminate]. intros [= <-]. exists x, s2, (stack s).
    assert (Ew : with_stack s2 (stack s) (top s) = s2).
    { replace s with (with_stack s (stack s) (top s)) in E by (destruct s; reflexivity). apply fp_store_stack in E as (s3 & _ & -> & _). reflexivity. }
    rewrite Ew. auto.
Qed.

Lemma net_fstp_fld s2 l v : length l = 8%nat -> 0 <= top s < 8 ->
  fpush (fpop (with_stack s2 l (top s))) v = with_stack s2 (list_set l 0 (Some v)) (top s).
Proof.
  intros Hl HT. destruct (stack_of_eight l Hl) as (x0 & x1 & x2 & x3 & x4 & x5 & x6 & x7 & ->).
  unfold fpush, fpop, with_stack. cbn. rewrite (proj2 (top_back _ HT)). reflexivity.
Qed.

Lemma popped_register s2 l v k : length l = 8%nat -> 0 <= k -> st (fpop (with_stack s2 l (top s))) k = Some v ->
  nth (Z.to_nat (k + 1)) l None = Some v.
Proof.
  intros Hl Hk. unfold st, fpop, with_stack. cbn [stack]. replace (Z.to_nat (k + 1)) with (S (Z.to_nat k)) by lia.
  destruct l as [|y l]; [discriminate|]. cbn [tl nth]. destruct (Nat.lt_ge_cases (Z.to_nat k) (length l)) as [H|H].
  - rewrite app_nth1 by exact H. auto.
  - rewrite app_nth2 by exact H. destruct (Z.to_nat k - length l)%nat as [|[|n]]; discriminate.
Qed.

Definition store_ok (s : fpu) (fstp : IRInstr) : bool :=
  if is_register fstp 0 then match st s (st_index fstp 0) with Some _ => true | None => false end else float_operand s (operand fstp 0).

(** The value of an FLD whose register is read before the pop. *)
Lemma wp_fld_popped Xst c0 s2 c1 l V a1 m1 i v D (Q : unit -> asm -> machine -> Prop) : holds_as Xst c0 ->
  mid Xst m c0 s2 c1 l (top s) (24 :: held_regs Xst) V a1 m1 -> fscratch cfg D = true ->
  classified (fpop (with_stack s2 l (top s))) i v (classify_fld_source i) ->
  (forall a2 m2, mid Xst m c0 s2 c1 l (top s) (24 :: held_regs Xst) V a2 m2 -> vr m2 D = v -> in64 v -> Q tt a2 m2) ->
  wp (match source (classify_fld_source i) with
      | kFldReg => _ <- emit_load_st 22 23 (resolve_depth c1 (reg_depth (classify_fld_source i) + 1)) 24 D Xst ;; ret tt
      | _ => emit_fld_value cfg tgt c1 (classify_fld_source i) i 22 23 24 D Xst
      end) Q a1 m1.
Proof.
  intros Hh Hm HD Hc HQ. destruct (temps_24 Xst c0 Hh) as [HU Ht]. pose proof (mid_length _ _ _ _ _ _ _ _ _ _ _ Hm) as Hl.
  destruct Hc as [(Es & Ed & _ & Hst) | Hc].
  - rewrite Es, Ed. pose proof (index_range (reg (operand i 1))). apply popped_register in Hst; [|exact Hl | unfold st_index; lia].
    eapply wp_bind, (wp_load_depth Xst m c0 Hh _ 24 HU Ht); [exact Hm | unfold st_index; lia | exact Hst | exact HD | intros r a2 m2 H2 V2 X2 _ _ _].
    apply wp_ret, (HQ _ _ H2); assumption.
  - assert (Hc' : classified (with_stack s2 l (top s)) i v (classify_fld_source i)) by (right; exact Hc).
    assert (E : source (classify_fld_source i) <> kFldReg) by (destruct Hc as [(_ & _ & _ & _ & [[-> _] | [-> _]]) | (_ & [[-> _] | [[-> _] | [-> _]]])]; discriminate).
    assert (W : wp (emit_fld_value cfg tgt c1 (classify_fld_source i) i 22 23 24 D Xst) Q a1 m1).
    { eapply (wp_fld_value Xst m c0 Hh); [exact Hm | exact HD | exact Hc' | intros a2 m2 H2 V2 X2 _; apply HQ; assumption]. }
    destruct (source (classify_fld_source i)); first [exact W | congruence].
Qed.

Lemma fstp_fld_outcome fstp fld s' : among (opcode fstp) [kOpcodeName.fstp; kOpcodeName.fstp_stack] = true -> store_ok s fstp = true ->
  (forall s1, Fpu.exec segbase ro s fstp = Some s1 -> source_ok s1 fld = true) ->
  exec_all segbase ro s [fstp; fld] = Some s' ->
  wp (fuse_fstp_fld cfg tgt (classify_fld_source fld) c fstp fld) (outcome 2 c s' m) a m.
Proof.
  intros Hop Hok Hsrc Hs. apply exec_two in Hs as (s1 & E1 & E2). specialize (Hsrc s1 E1). apply (exec_fstp_parts fstp s1 Hop) in E1 as (x & s2 & l & Hx & -> & Hd).
  apply (exec_fld ro _ fld s' Hsrc) in E2 as (v & Hv & ->). destruct (classify_source _ fld v Hsrc Hv) as [Hcl _].
  assert (Hlen : length (stack s) = 8%nat) by (eapply between_length; exact Hb).
  assert (Hll : length l = 8%nat) by (destruct (is_register fstp 0); destruct Hd as [_ ->]; [rewrite list_set_length|]; exact Hlen).
  rewrite net_fstp_fld by (exact Hll || exact between_top).
  assert (H0 : exists u, nth 0 l None = Some u).
  { unfold st in Hx. change (Z.to_nat 0) with 0%nat in Hx. destruct (is_register fstp 0); destruct Hd as [_ ->]; [rewrite nth_list_set; destruct (_ && _)|]; eauto. }
  destruct H0 as [u H0]. unfold fuse_fstp_fld. fold (discards fstp). begin Hb Xst c0 Hh Hr Hm. take 2 H1.
  eapply wp_bind, (wp_flush_unless_batched Xst m c0 Hh); [exact H1|]. intros c1 a2 m2 H2. take_f D1 HD1 HN1 H3.
  assert (Fin : forall V D2 a4 m4, mid Xst m c0 s2 c1 l (top s) (24 :: held_regs Xst) V a4 m4 ->
    (D2 = -1 /\ V = [D1] \/ fscratch cfg D2 = true /\ D2 <> D1 /\ V = [D2; D1]) ->
    wp ((match source (classify_fld_source fld) with
         | kFldReg => _ <- emit_load_st 22 23 (resolve_depth c1 (reg_depth (classify_fld_source fld) + 1)) 24 D1 Xst ;; ret tt
         | _ => emit_fld_value cfg tgt c1 (classify_fld_source fld) fld 22 23 24 D1 Xst
         end) ;;;
        emit_store_st 22 23 (resolve_depth c1 0) 24 D1 Xst ;;;
        (if 0 <=? D2 then free_fpr cfg D2 else ret tt) ;;;
        free_fpr cfg D1 ;;; finish cfg c1 22 23 24 2) (outcome 2 c (with_stack s2 (list_set l 0 (Some v)) (top s)) m) a4 m4).
  { intros V D2 a4 m4 H4 HD2. unfold finish.
    eapply wp_bind, (wp_fld_popped Xst c0 s2 c1 l V); [exact Hh | exact H4 | exact HD1 | exact Hcl | intros a5 m5 H5 V5 X5].
    eapply wp_bind, (wp_store_depth Xst m c0 _ 24 HU Ht) with (d := 0) (v := v); [exact H5 | given | exact H0 | exact HD1 | exact V5 | exact X5 | intros a6 m6 H6 _].
    apply wp_bind. destruct HD2 as [[-> ->] | (HD2 & N & ->)].
    - apply wp_ret. give_f H7. eapply wp_leave; [exact Hh | exact Hr | lia | exact H7 | reflexivity].
    - replace (0 <=? D2) with true by (symmetry; apply Z.leb_le; apply fscratch_range in HD2; lia).
      eapply (wp_give_fpr _ _ _ D2 _ _ _ _ _ [D1]); [exact H6 | exact HD2 | cbn; intuition congruence | intros a7 H7].
      give_f H8. eapply wp_leave; [exact Hh | exact Hr | lia | exact H8 | reflexivity]. }
  unfold discards, store_ok in *. destruct (is_register fstp 0) eqn:Er; cbn [andb].
  - destruct Hd as [-> ->]. pose proof (index_range (reg (operand fstp 0))).
    destruct (st s (st_index fstp 0)) as [z|] eqn:Ez; [|discriminate]. unfold st in Ez, Hx. change (Z.to_nat 0) with 0%nat in Hx.
    destruct (Z.eqb_spec (st_index fstp 0) 0) as [E0|N0].
    + apply wp_bind, wp_ret, wp_bind, wp_ret. apply (Fin [D1]); [|left; auto]. rewrite E0. change (Z.to_nat 0) with 0%nat. rewrite list_set_same by exact Hx. exact H3.
    + apply wp_bind. take_f D2 HD2 HN2 H4.
      eapply wp_bind, (wp_load_depth Xst m c0 Hh _ 24 HU Ht) with (d := 0) (v := x); [exact H4 | lia | exact Hx | exact HD2 | intros r a5 m5 H5 V5 X5 _ _ _].
      apply wp_ret. pose proof (depth_range (stack s) (st_index fstp 0) z Hlen ltac:(unfold st_index; lia) Ez) as Hd8.
      eapply wp_bind, (wp_store_depth Xst m c0 _ 24 HU Ht) with (d := st_index fstp 0) (v := x);
        [exact H5 | unfold st_index in *; lia | exact Ez | exact HD2 | exact V5 | exact X5 | intros a6 m6 H6 _].
      apply (Fin [D2; D1]); [exact H6|]. right. split; [exact HD2 | split; [cbn in HN2; intuition congruence | reflexivity]].
  - destruct Hd as [Hst ->]. apply wp_bind. take_f D2 HD2 HN2 H4.
    eapply wp_bind, (wp_load_depth Xst m c0 Hh _ 24 HU Ht) with (d := 0) (v := x); [exact H4 | lia | exact Hx | exact HD2 | intros r a5 m5 H5 V5 X5 _ _ _].
    apply wp_ret. eapply wp_bind, (wp_store_float Xst m c0 Hh ro); [exact H5 | exact HD2 | exact Hok | exact Hst | exact V5 | exact X5 | intros a6 m6 H6].
    apply (Fin [D2; D1]); [exact H6|]. right. split; [exact HD2 | split; [cbn in HN2; intuition congruence | reflexivity]].
Qed.
End Fused.

(** *** FXCH ST(1) and a popping operation: the operands exchanged *)

Definition swap_op (op : ArithOp) : ArithOp :=
  match op with kAdd => kAdd | kMul => kMul | kSub => kSubR | kSubR => kSub | kDiv => kDivR | kDivR => kDiv end.

Lemma exchanged_spec i t : exchanged cfg tgt i = Some t ->
  exists op i', arithp_op (opcode i) = Some op /\ arithp_op (opcode i') = Some (swap_op op) /\ operands i' = operands i /\
    forall c, translate_single cfg tgt false c i' = Some (t c).
Proof.
  unfold exchanged. cbv zeta.
  repeat match goal with |- context[if opcode i =? ?k then _ else _] => destruct (Z.eqb_spec (opcode i) k) as [E|] end; try discriminate; intros [= <-];
    rewrite E.
  - exists kAdd, i. rewrite E. repeat split. intros c. unfold translate_single. rewrite E. reflexivity.
  - exists kMul, i. rewrite E. repeat split. intros c. unfold translate_single. rewrite E. reflexivity.
  - eexists kSub, (mkIRInstr kOpcodeName.fsubrp (num_operands i) (operands i) (rep_prefix i) (flag_liveness i)). repeat split.
  - eexists kSubR, (mkIRInstr kOpcodeName.fsubp (num_operands i) (operands i) (rep_prefix i) (flag_liveness i)). repeat split.
  - eexists kDiv, (mkIRInstr kOpcodeName.fdivrp (num_operands i) (operands i) (rep_prefix i) (flag_liveness i)). repeat split.
  - eexists kDivR, (mkIRInstr kOpcodeName.fdivp (num_operands i) (operands i) (rep_prefix i) (flag_liveness i)). repeat split.
Qed.

(** The result does not depend on the order: for a sum or a product of two
    NaNs it does. *)
Definition order_agrees (op : ArithOp) (x y : Z) : bool := apply_op (swap_op op) y x =? apply_op op x y.

Lemma exec_exchanged ro s fxch next i' op x y s' : x87op_of (opcode fxch) = Some Fxch -> st_index fxch 1 = 1 -> st_index next 0 = 1 ->
  arithp_op (opcode next) = Some op -> arithp_op (opcode i') = Some (swap_op op) -> operands i' = operands next ->
  st s 0 = Some x -> st s 1 = Some y -> order_agrees op x y = true ->
  exec_all segbase ro s [fxch; next] = Some s' -> Fpu.exec segbase ro s i' = Some s'.
Proof.
  intros Hf H1 Hn Hop Hop' Ho Hx Hy Hag Hs. apply exec_two in Hs as (s1 & E1 & E2). apply Z.eqb_eq in Hag.
  unfold Fpu.exec in *. rewrite Hf in E1. fold (st_index fxch 1) in E1. rewrite H1, Hx, Hy in E1. injection E1 as <-.
  rewrite (arithp_op_exec _ _ Hop) in E2. rewrite (arithp_op_exec _ _ Hop').
  assert (Ei : st_index i' 0 = 1) by (unfold st_index, operand in *; rewrite Ho; exact Hn). fold (st_index i' 0). fold (st_index next 0) in E2.
  rewrite Hn in E2. rewrite Ei, Hy, Hx. fold (apply_op (swap_op op) y x). rewrite Hag.
  unfold st in Hx, Hy. change (Z.to_nat 0) with 0%nat in Hx. change (Z.to_nat 1) with 1%nat in Hy.
  assert (Es : st (set_st (set_st s 0 y) 1 x) 1 = Some x /\ st (set_st (set_st s 0 y) 1 x) 0 = Some y).
  { unfold st, set_st, with_stack. cbn [stack]. change (Z.to_nat 0) with 0%nat. change (Z.to_nat 1) with 1%nat.
    destruct (stack s) as [|? [|]]; try discriminate. split; reflexivity. }
  destruct Es as [-> ->] in E2. injection E2 as <-. fold (apply_op op x y). f_equal.
  unfold fpop, set_st, with_stack. cbn [stack top]. change (Z.to_nat 0) with 0%nat. change (Z.to_nat 1) with 1%nat.
  destruct (stack s) as [|? [|]]; try discriminate. reflexivity.
Qed.

Lemma stacked_with_run c n l T x : 0 < run_remaining c -> 0 < n -> stacked c l T x -> stacked (with_run c n) l T x.
Proof.
  intros Hr Hn [A1 A2 A3 A4 A5 [] A7 A8 A9]. constructor; try assumption; [constructor; assumption | cbn; intros; apply A9; lia].
Qed.

Lemma active_with_run c n : 0 < run_remaining c -> 0 < n -> active (with_run c n) = active c.
Proof. intros Hr Hn. unfold active. cbn [with_run run_remaining]. rewrite !(proj2 (Z.ltb_lt _ _)) by assumption. reflexivity. Qed.

Lemma between_with_run c n s a m : 0 < run_remaining c -> 0 < n -> between c s a m -> between (with_run c n) s a m.
Proof.
  intros Hr Hn [G B C H]. constructor; [exact G | exact B | exact C |]. rewrite active_with_run by assumption. change (gprs_valid (with_run c n)) with (gprs_valid c).
  destruct (active c && nz (gprs_valid c)) eqn:E.
  - destruct H as (W & ET & E1 & E2 & E3). split; [|auto]. apply andb_true_iff in E as [_ Ev].
    apply work_with_run; [|exact W | exact Hr | exact Hn]. unfold x87_get_st_base. cbn [with_run gprs_valid st_base_gpr]. rewrite Ev. symmetry. exact E3.
  - destruct H as (Hv & Hset & Hk & Hg & Hf). refine (conj Hv (conj Hset (conj _ (conj Hg Hf)))). apply stacked_with_run; assumption.
Qed.

(** The borrowed tick given back. *)
Lemma outcome_borrowed c s' m c' a' m' : 1 < run_remaining c -> outcome 1 (with_run c (run_remaining c - 1)) s' m c' a' m' ->
  0 < run_remaining c' /\ outcome 2 c s' m (with_run c' (run_remaining c' + 1)) a' m'.
Proof.
  intros Hr (Xst & c0 & s0 & l & T & Hh & Hr0 & Es & [G H B R C]). cbn [with_run run_remaining] in Hr0.
  pose proof (run_remaining_of _ _ R) as Er. split; [lia|].
  pose proof (holds_as_run Xst c0 c' R Hh) as Hh'.
  exists Xst, (with_run c0 (run_remaining c0 + 1)), s0, l, T.
  assert (Hh2 : holds_as Xst (with_run c0 (run_remaining c0 + 1))).
  { destruct Hh as [H1 H2]. split; [exact H1|]. rewrite active_with_run by lia. exact H2. }
  split; [exact Hh2|]. split; [cbn [with_run run_remaining]; lia|]. split; [exact Es|]. constructor; [exact G | exact H | exact B | |].
  - unfold run_of in *. cbn. injection R as R1 R2 R3 R4 R5 R6 R7. rewrite R1, R2, R3, R4, R5, R6, R7. reflexivity.
  - rewrite active_with_run by lia. assert (Ea : active c' = true) by (unfold active; apply Z.ltb_lt; lia). rewrite Ea in *.
    destruct C as (W & ET & Hset). split; [|split; [exact ET | cbn [with_run run_remaining]; intros; apply Hset; lia]].
    apply work_with_run; [|exact W | lia | lia]. destruct Hh' as [_ H2]. rewrite Ea in H2. destruct H2 as (Hv & _ & _ & E3 & EX).
    unfold x87_get_st_base. cbn [with_run gprs_valid st_base_gpr]. rewrite Hv. congruence.
Qed.

Lemma outcome_idle n c s' m c' a' m' : run_remaining c <= 0 -> outcome 1 c s' m c' a' m' -> outcome n c s' m c' a' m'.
Proof.
  intros Hr (Xst & c0 & s0 & l & T & Hh & Hr0 & Es & [G H B R C]). exists Xst, c0, s0, l, T. repeat (split; [assumption|]).
  constructor; try assumption. pose proof (run_remaining_of _ _ R) as Er.
  assert (Ea : active c' = false) by (unfold active; apply Z.ltb_ge; lia). rewrite Ea in *. exact C.
Qed.

Lemma fxch_arithp_outcome ro c s a m fxch next t op x y s' : between c s a m -> run_remaining c <= 0 \/ 2 <= run_remaining c ->
  opcode fxch = kOpcodeName.fxch -> st_index fxch 1 = 1 -> st_index next 0 = 1 -> exchanged cfg tgt next = Some t ->
  arithp_op (opcode next) = Some op -> st s 0 = Some x -> st s 1 = Some y -> order_agrees op x y = true ->
  exec_all segbase ro s [fxch; next] = Some s' ->
  wp (fuse_fxch_arithp t c) (outcome 2 c s' m) a m.
Proof.
  intros Hb Hrun Hf H1 Hn Ht Hop Hx Hy Hag Hs. destruct (exchanged_spec next t Ht) as (op' & i' & Hop1 & Hop2 & Ho & Hsingle).
  assert (op' = op) by congruence. subst op'.
  assert (Hs' : Fpu.exec segbase ro s i' = Some s') by (eapply exec_exchanged; try eassumption; rewrite Hf; reflexivity).
  assert (Hok : single_ok s i' = true) by (unfold single_ok; rewrite (arithp_op_exec _ _ Hop2); reflexivity).
  unfold fuse_fxch_arithp. destruct (Z.ltb_spec 0 (run_remaining c)) as [Hr|Hr].
  - assert (Hb' : between (with_run c (run_remaining c - 1)) s a m) by (apply between_with_run; [lia | lia | exact Hb]).
    destruct (single_code ro _ s s' a m i' Hb' Hs' Hok) as (t' & Et & Hw). rewrite Hsingle in Et. injection Et as <-.
    apply wp_bind. eapply wp_mono; [exact Hw|]. cbv beta. intros c' a' m' Hout. destruct (outcome_borrowed c s' m c' a' m' ltac:(lia) Hout) as [Hp Hout'].
    rewrite (proj2 (Z.ltb_lt _ _) Hp). cbn [andb]. apply wp_ret, Hout'.
  - destruct (single_code ro c s s' a m i' Hb Hs' Hok) as (t' & Et & Hw). rewrite Hsingle in Et. injection Et as <-.
    apply wp_bind. eapply wp_mono; [exact Hw|]. cbv beta. intros c' a' m' Hout. cbn [andb]. apply wp_ret. apply outcome_idle; [lia | exact Hout].
Qed.

(** *** Which patterns are covered, and when *)

(** The first candidate that is enabled, with its name. *)
Fixpoint fired (disabled_mask : Z) (l : list (Z * option fusion)) : option (Z * fusion) :=
  match l with
  | [] => None
  | (id, Some t) :: l => if fusion_disabled disabled_mask id then fired disabled_mask l else Some (id, t)
  | (_, None) :: l => fired disabled_mask l
  end.

Lemma first_fusion_fired mask l : first_fusion mask l = option_map snd (fired mask l).
Proof.
  induction l as [|[id [t|]] l IH]; cbn [first_fusion fired]; [reflexivity | |];
    destruct (fusion_disabled mask id); cbn [negb when]; first [exact IH | reflexivity].
Qed.

Lemma fired_in mask l id t : fired mask l = Some (id, t) -> In (id, Some t) l.
Proof.
  induction l as [|[id' [t'|]] l IH]; cbn [fired]; [discriminate | | right; auto].
  destruct (fusion_disabled mask id'); [right; auto|]. intros [= -> ->]. left. reflexivity.
Qed.

(** What a pattern needs of the state, where its code and the instructions one
    by one have the same result. *)
Definition fusion_ok (ro : Z -> bool) (id : Z) (s : fpu) (l : list IRInstr) : bool :=
  match l with
  | i1 :: i2 :: rest =>
      if id =? FusionId.fld_arithp then room s && source_ok s i1
      else if id =? FusionId.fld_fstp then room s && source_ok s i1 && dest_ok s i2
      else if id =? FusionId.fld_arith_fstp then
        match rest with
        | i3 :: _ => room s && source_ok s i1 && middle_ok s i2 && dest_ok s i3
        | [] => false
        end
      else if id =? FusionId.fld_arith_arithp then
        match rest with
        | i3 :: _ =>
            room s && source_ok s i1 && middle_ok s i2 &&
            match arith_op (opcode i2), arithp_op (opcode i3), fld_value s i1, st s 0, middle_value s i2 with
            | Some op1, Some op2, Some v, Some x, Some y => two_arith_ok op1 op2 v x y
            | _, _, _, _, _ => false
            end
        | [] => false
        end
      else if id =? FusionId.fxch_arithp then
        match arithp_op (opcode i2), st s 0, st s 1 with
        | Some op, Some x, Some y => order_agrees op x y
        | _, _, _ => false
        end
      else if id =? FusionId.arith_fstp then middle_ok s i1 && float_operand s (operand i2 0)
      else if id =? FusionId.arith_faddp then
        middle_ok s i1 &&
        match fma_kind (opcode i2), st s 0, other_value s i1, st s 1 with
        | Some op, Some x, Some y, Some z => fma_agrees op z x y
        | _, _, _, _ => false
        end
      else if id =? FusionId.arithp_fstp then float_operand s (operand i2 0)
      else if id =? FusionId.fstp_fld then
        store_ok s i1 && match Fpu.exec segbase ro s i1 with Some s1 => source_ok s1 i2 | None => false end
      else false
  | _ => false
  end.

Lemma with_fld_some {A} i (f : FldClassification -> option A) x : with_fld i f = Some x -> f (classify_fld_source i) = Some x.
Proof. unfold with_fld. cbv zeta. destruct (source (classify_fld_source i)); first [discriminate | auto]. Qed.

Lemma when_some {A} b1 (x : option A) y : when b1 x = Some y -> b1 = true /\ x = Some y.
Proof. destruct b1; [auto | discriminate]. Qed.

(** The run's counter is that of the instructions left, or there is no run. *)
Definition counts (c : X87Cache) (l : list IRInstr) : Prop := run_remaining c = 0 \/ run_remaining c = Z.of_nat (length l).

(** A pattern of the list, with its conditions. *)
Ltac pick Hin Hok :=
  let E := fresh "E" in let Et := fresh "Et" in
  destruct Hin as [E | Hin];
  [ apply pair_equal_spec in E as [<- Et];
    cbv beta iota delta [fusion_ok FusionId.fld_arithp FusionId.fld_fstp FusionId.fld_arith_fstp FusionId.fld_fcomp_fstsw
      FusionId.fxch_arithp FusionId.fxch_fstp FusionId.fcom_fstsw FusionId.fld_fcompp_fstsw FusionId.fld_fld_fucompp FusionId.fld_fcomp
      FusionId.fld_arith_arithp FusionId.arithp_fstp FusionId.fstp_fld FusionId.arith_fstp FusionId.arith_faddp Z.eqb Pos.eqb] in Hok;
    try discriminate Hok | ].

Ltac conditions := repeat match goal with
  | H : _ && _ = true |- _ => apply andb_true_iff in H as [? ?]
  | H : (_ =? _) = true |- _ => apply Z.eqb_eq in H
  end.

(** The code of a covered pattern. *)
Definition covered (ro : Z -> bool) (c : X87Cache) (s : fpu) (a : asm) (m : machine) (l : list IRInstr) (f : fusion) : Prop :=
  (0 < snd f <= length l)%nat /\
  forall s', exec_all segbase ro s (firstn (snd f) l) = Some s' -> wp (fst f c) (outcome (Z.of_nat (snd f)) c s' m) a m.

Section Groups.
Context (ro : Z -> bool) (c : X87Cache) (s : fpu) (a : asm) (m : machine).
Hypothesis (Hb : between c s a m).

Lemma fld_arithp_covered i1 i2 rest f : try_fuse_fld_arithp cfg tgt i1 i2 = Some f -> room s && source_ok s i1 = true ->
  covered ro c s a m (i1 :: i2 :: rest) f.
Proof.
  intros Et Hok. apply with_fld_some in Et. destruct (arithp_op (opcode i2)) as [op|] eqn:Eo; [|discriminate].
  apply when_some in Et as [E1 [= <-]]. conditions. split; [cbn; lia|]. intros s' Hs.
  eapply (fld_arithp_outcome ro c s a m Hb); eassumption.
Qed.

Lemma fld_fstp_covered i1 i2 rest f : try_fuse_fld_fstp cfg tgt i1 i2 = Some f -> room s && source_ok s i1 && dest_ok s i2 = true ->
  covered ro c s a m (i1 :: i2 :: rest) f.
Proof.
  intros Et Hok. apply when_some in Et as [E1 Et]. apply with_fld_some in Et. injection Et as <-. conditions.
  split; [cbn; lia|]. intros s' Hs. eapply (fld_fstp_outcome ro c s a m Hb); eassumption.
Qed.

Lemma fld_arith_fstp_covered i1 i2 i3 rest f : try_fuse_fld_arith_fstp cfg tgt i1 i2 i3 = Some f ->
  room s && source_ok s i1 && middle_ok s i2 && dest_ok s i3 = true -> covered ro c s a m (i1 :: i2 :: i3 :: rest) f.
Proof.
  intros Et Hok. apply with_fld_some in Et. destruct (arith_op (opcode i2)) as [op|] eqn:Eo; [|discriminate].
  apply when_some in Et as [E1 [= <-]]. conditions. split; [cbn; lia|]. intros s' Hs.
  eapply (fld_arith_fstp_outcome ro c s a m Hb); eassumption.
Qed.

Lemma fld_arith_arithp_covered i1 i2 i3 rest f : try_fuse_fld_arith_arithp cfg tgt i1 i2 i3 = Some f ->
  fusion_ok ro FusionId.fld_arith_arithp s (i1 :: i2 :: i3 :: rest) = true -> covered ro c s a m (i1 :: i2 :: i3 :: rest) f.
Proof.
  intros Et Hok. change (fusion_ok _ _ _ _) with (room s && source_ok s i1 && middle_ok s i2 &&
    match arith_op (opcode i2), arithp_op (opcode i3), fld_value s i1, st s 0, middle_value s i2 with
    | Some op1, Some op2, Some v, Some x, Some y => two_arith_ok op1 op2 v x y | _, _, _, _, _ => false end) in Hok.
  apply with_fld_some in Et. destruct (arith_op (opcode i2)) as [op1|] eqn:Eo1; [|discriminate].
  apply when_some in Et as [E1 Et]. destruct (arithp_op (opcode i3)) as [op2|] eqn:Eo2; [|discriminate]. apply when_some in Et as [E2 [= <-]].
  destruct (fld_value s i1) as [v|] eqn:Ev; [|conditions; discriminate]. destruct (st s 0) as [x|] eqn:Ex; [|conditions; discriminate].
  destruct (middle_value s i2) as [y|] eqn:Ey; [|conditions; discriminate]. conditions. split; [cbn; lia|]. intros s' Hs.
  eapply (fld_arith_arithp_outcome ro c s a m Hb); eassumption.
Qed.

Lemma fxch_arithp_covered i1 i2 rest f : counts c (i1 :: i2 :: rest) -> try_fuse_fxch_arithp cfg tgt i1 i2 = Some f ->
  fusion_ok ro FusionId.fxch_arithp s (i1 :: i2 :: rest) = true -> covered ro c s a m (i1 :: i2 :: rest) f.
Proof.
  intros Hl Et Hok. change (fusion_ok _ _ _ _) with (match arithp_op (opcode i2), st s 0, st s 1 with
    | Some op, Some x, Some y => order_agrees op x y | _, _, _ => false end) in Hok.
  apply when_some in Et as [E1 Et]. destruct (exchanged cfg tgt i2) as [t|] eqn:Ex; [|discriminate]. injection Et as <-.
  destruct (arithp_op (opcode i2)) as [op|] eqn:Eo; [|discriminate]. destruct (st s 0) as [x|] eqn:E0; [|discriminate].
  destruct (st s 1) as [y|] eqn:Ey; [|discriminate]. conditions. split; [cbn; lia|]. intros s' Hs.
  eapply (fxch_arithp_outcome ro c s a m); try eassumption.
  destruct Hl as [-> | ->]; [left | right; cbn [length]]; lia.
Qed.

Lemma arith_fstp_covered i1 i2 rest f : try_fuse_arith_fstp cfg tgt i1 i2 = Some f -> middle_ok s i1 && float_operand s (operand i2 0) = true ->
  covered ro c s a m (i1 :: i2 :: rest) f.
Proof.
  intros Et Hok. unfold try_fuse_arith_fstp in Et. destruct (arith_op (opcode i1)) as [op|] eqn:Eo; [|discriminate].
  apply when_some in Et as [E1 [= <-]]. conditions. split; [cbn; lia|]. intros s' Hs.
  eapply (arith_fstp_outcome ro c s a m Hb); eassumption.
Qed.

Lemma arithp_fstp_covered i1 i2 rest f : try_fuse_arithp_fstp cfg tgt i1 i2 = Some f -> float_operand s (operand i2 0) = true ->
  covered ro c s a m (i1 :: i2 :: rest) f.
Proof.
  intros Et Hok. unfold try_fuse_arithp_fstp in Et. destruct (arithp_op (opcode i1)) as [op|] eqn:Eo; [|discriminate].
  apply when_some in Et as [E1 [= <-]]. conditions. split; [cbn; lia|]. intros s' Hs.
  eapply (arithp_fstp_outcome ro c s a m Hb); eassumption.
Qed.

Lemma arith_faddp_covered i1 i2 rest f : try_fuse_arith_faddp cfg tgt i1 i2 = Some f ->
  fusion_ok ro FusionId.arith_faddp s (i1 :: i2 :: rest) = true -> covered ro c s a m (i1 :: i2 :: rest) f.
Proof.
  intros Et Hok. change (fusion_ok _ _ _ _) with (middle_ok s i1 && match fma_kind (opcode i2), st s 0, other_value s i1, st s 1 with
    | Some op, Some x, Some y, Some z => fma_agrees op z x y | _, _, _, _ => false end) in Hok.
  apply when_some in Et as [E1 Et]. destruct (fma_kind (opcode i2)) as [op|] eqn:Eo; [|discriminate]. apply when_some in Et as [E2 [= <-]].
  destruct (st s 0) as [x|] eqn:E0; [|conditions; discriminate]. destruct (other_value s i1) as [y|] eqn:Ey; [|conditions; discriminate].
  destruct (st s 1) as [z|] eqn:Ez; [|conditions; discriminate]. conditions. split; [cbn; lia|]. intros s' Hs.
  eapply (arith_faddp_outcome ro c s a m Hb); eassumption.
Qed.

Lemma fstp_fld_covered i1 i2 rest f : among (opcode i1) [kOpcodeName.fstp; kOpcodeName.fstp_stack] = true ->
  try_fuse_fstp_fld cfg tgt i1 i2 = Some f -> fusion_ok ro FusionId.fstp_fld s (i1 :: i2 :: rest) = true ->
  covered ro c s a m (i1 :: i2 :: rest) f.
Proof.
  intros Hop Et Hok. change (fusion_ok _ _ _ _) with (store_ok s i1 &&
    match Fpu.exec segbase ro s i1 with Some s1 => source_ok s1 i2 | None => false end) in Hok.
  apply when_some in Et as [E1 Et]. apply with_fld_some in Et. injection Et as <-. apply andb_true_iff in Hok as [Hst Hsrc].
  split; [cbn; lia|]. intros s' Hs. eapply (fstp_fld_outcome ro c s a m Hb); try eassumption.
  intros s1 E. rewrite E in Hsrc. exact Hsrc.
Qed.

Lemma fld_group_covered i1 i2 rest id f : In (id, Some f) (try_fuse_fld_group cfg tgt i1 i2 rest) ->
  fusion_ok ro id s (i1 :: i2 :: rest) = true -> covered ro c s a m (i1 :: i2 :: rest) f.
Proof.
  unfold try_fuse_fld_group. intros Hin Hok. apply in_app_or in Hin as [Hin | Hin]; [|apply in_app_or in Hin as [Hin | Hin]].
  - destruct rest as [|? [|]]; try contradiction. pick Hin Hok. contradiction.
  - destruct rest as [|i3 rest]; [contradiction|]. pick Hin Hok; [eapply fld_arith_fstp_covered; eassumption|].
    pick Hin Hok; [eapply fld_arith_arithp_covered; [exact Et | exact Hok]|]. pick Hin Hok. pick Hin Hok. pick Hin Hok. contradiction.
  - pick Hin Hok; [eapply fld_arithp_covered; eassumption|]. pick Hin Hok; [eapply fld_fstp_covered; eassumption|]. pick Hin Hok. contradiction.
Qed.

Lemma fused_covered l id f : counts c l -> In (id, Some f) (candidates cfg tgt l) -> fusion_ok ro id s l = true -> covered ro c s a m l f.
Proof.
  intros Hl Hin Hok. destruct l as [|i1 [|i2 rest]]; try contradiction. cbn [candidates] in Hin. cbv zeta in Hin.
  destruct (among _ _); [eapply fld_group_covered; eassumption|].
  destruct (_ =? _); [unfold try_fuse_fxch_group in Hin; pick Hin Hok; [eapply fxch_arithp_covered; eassumption|]; pick Hin Hok; contradiction|].
  destruct (among _ _); [unfold try_fuse_fcom_group in Hin; pick Hin Hok; contradiction|].
  destruct (among _ _); [unfold try_fuse_arithp_group in Hin; pick Hin Hok; [eapply arithp_fstp_covered; eassumption | contradiction]|].
  destruct (among _ _); [unfold try_fuse_arith_group in Hin; pick Hin Hok; [eapply arith_faddp_covered; eassumption|];
    pick Hin Hok; [eapply arith_fstp_covered; eassumption | contradiction]|].
  destruct (among _ _) eqn:Eop; [|contradiction]. unfold try_fuse_fstp_group in Hin. pick Hin Hok; [eapply fstp_fld_covered; eassumption | contradiction].
Qed.
End Groups.

(** ** The next instructions with the bookkeeping around them *)

Section Run.
Context (ro : Z -> bool) (run_bridge runtime_keepalive : bool) (disabled_ops_mask disabled_fusions_mask : Z).

#[local] Abbreviation translate_next :=
  (translate_next cfg tgt false kFprScratchMask run_bridge runtime_keepalive disabled_ops_mask disabled_fusions_mask).
#[local] Abbreviation translate_unfused := (translate_unfused cfg tgt false kFprScratchMask run_bridge runtime_keepalive disabled_ops_mask).

Lemma wp_pre {A} (mo : M A) (g : asm -> asm) (Q : A -> asm -> machine -> Prop) a m :
  insn_buf (g a) = insn_buf a -> wp mo Q (g a) m -> wp (fun s => mo (g s)) Q a m.
Proof. intros E (x & s' & ws & m' & H1 & H2 & H3 & H4). exists x, s', ws, m'. rewrite E in H2. auto. Qed.

Lemma upgrade_buf a : insn_buf (upgrade a) = insn_buf a.
Proof. unfold upgrade, upgrade_fprs. destruct (_ && _); reflexivity. Qed.

(** The code, then what is kept of it for the next instruction. *)
Lemma wp_bookkeeping c s' a m n t (Q : X87Cache * nat -> asm -> machine -> Prop) :
  wp t (outcome (Z.of_nat n) c s' m) a m ->
  (forall c' a' m', between c' s' (upgrade a') m' -> hosts m m' -> run_remaining c' = Nat.iter n left (run_remaining c) -> Q (c', n) a' m') ->
  wp (c <- t ;; c <- after_instruction kFprScratchMask n c ;; ret (c, n)) Q a m.
Proof.
  intros Ht HQ. apply wp_bind. eapply wp_mono; [exact Ht|]. cbv beta.
  intros c1 a1 m1 (Xst & c0 & s0 & l & T & Hh & Hr & Es & Hdone). apply wp_bind.
  eapply wp_mono; [exact (wp_after_instruction kFprScratchMask n Xst m c0 s0 l T c1 a1 m1 Hh eq_refl Hdone)|]. cbv beta.
  intros c2 a2 m2 (B & H & R). apply wp_ret, HQ; [rewrite Es; exact B | exact H | congruence].
Qed.

(** How many of the instructions are translated next, and the state after
    them; nothing where they are not covered. *)
Definition next_step (s : fpu) (l : list IRInstr) : option (nat * fpu) :=
  match l with
  | [] => None
  | i :: _ =>
      match fired disabled_fusions_mask (candidates cfg tgt l) with
      | Some (id, (_, n)) => if fusion_ok ro id s l then option_map (pair n) (exec_all segbase ro s (firstn n l)) else None
      | None =>
          if single_ok s i && negb (op_disabled_for_run (opcode i) disabled_ops_mask)
          then option_map (pair 1%nat) (Fpu.exec segbase ro s i) else None
      end
  end.

Lemma wp_unfused c s s' a m i (Q : X87Cache * nat -> asm -> machine -> Prop) :
  between c s a m -> Fpu.exec segbase ro s i = Some s' -> single_ok s i = true ->
  op_disabled_for_run (opcode i) disabled_ops_mask = false ->
  (forall c' a' m', between c' s' (upgrade a') m' -> hosts m m' -> run_remaining c' = left (run_remaining c) -> Q (c', 1%nat) a' m') ->
  wp (translate_unfused c i) Q a m.
Proof.
  intros Hb Hs Hok Hd HQ. destruct (single_code ro c s s' a m i Hb Hs Hok) as (t & Et & Ht).
  eapply (wp_ext (c <- t ;; c <- after_instruction kFprScratchMask 1 c ;; ret (c, 1%nat))).
  { unfold translate_unfused. rewrite Hd, Et. reflexivity. }
  eapply wp_bookkeeping; [exact Ht | exact HQ].
Qed.

Lemma next_step_covers c s a m l n s' : between c s a m -> counts c l -> next_step s l = Some (n, s') ->
  (0 < n <= length l)%nat /\ exec_all segbase ro s (firstn n l) = Some s' /\
  match try_peephole cfg tgt disabled_fusions_mask l with
  | Some (t, n') => n' = n /\ wp (t c) (outcome (Z.of_nat n) c s' m) a m
  | None => n = 1%nat /\ match l with i :: _ => single_ok s i = true /\ op_disabled_for_run (opcode i) disabled_ops_mask = false | [] => False end
  end.
Proof.
  intros Hb Hl. unfold next_step, try_peephole. destruct l as [|i l]; [discriminate|]. rewrite first_fusion_fired.
  destruct (fired _ _) as [[id [t k]]|] eqn:Ef; cbn [option_map snd].
  - destruct (fusion_ok ro id s (i :: l)) eqn:Ok; [|discriminate].
    destruct (fused_covered ro c s a m Hb (i :: l) id (t, k) Hl (fired_in _ _ _ _ Ef) Ok) as [Hk Hc]. cbn [fst snd] in Hk, Hc.
    destruct (exec_all _ _ _ _) as [s1|] eqn:Es; [|discriminate]. cbn [option_map]. intros [= <- <-]. auto.
  - destruct (single_ok s i) eqn:Ok; [|discriminate]. destruct (op_disabled_for_run _ _) eqn:Ed; [discriminate|]. cbn [andb negb].
    destruct (Fpu.exec _ _ _ _) as [s1|] eqn:Es; [|discriminate]. cbn [option_map]. intros [= <- <-].
    cbn [firstn exec_all length]. rewrite Es. repeat split; auto; lia.
Qed.

Lemma wp_next c s s' a m l n (Q : X87Cache * nat -> asm -> machine -> Prop) :
  between c s (upgrade a) m -> counts c l -> next_step s l = Some (n, s') ->
  (forall c' a' m', between c' s' (upgrade a') m' -> hosts m m' -> run_remaining c' = Nat.iter n left (run_remaining c) -> Q (c', n) a' m') ->
  wp (translate_next c l) Q a m.
Proof.
  intros Hb Hl Hn HQ. destruct (next_step_covers c s (upgrade a) m l n s' Hb Hl Hn) as (Hk & Hs & Hc).
  destruct l as [|i l]; [cbn in Hk; lia|].
  eapply (wp_ext (fun s0 => (match try_peephole cfg tgt disabled_fusions_mask (i :: l) with
      | Some (t, consumed) => c <- t c ;; c <- after_instruction kFprScratchMask consumed c ;; ret (c, consumed)
      | None => translate_unfused c i
      end) (upgrade s0))).
  { unfold translate_next, release_carried, upgrade. rewrite (bw_carried _ _ _ _ Hb). cbn [andb].
    destruct (try_peephole _ _ _ _) as [[]|]; reflexivity. }
  apply wp_pre; [apply upgrade_buf|]. destruct (try_peephole _ _ _ _) as [[t n']|].
  - destruct Hc as [-> Hc]. eapply wp_bookkeeping; [exact Hc | exact HQ].
  - destruct Hc as (-> & Ok & Ed). cbn [firstn exec_all] in Hs. destruct (Fpu.exec segbase ro s i) as [s1|] eqn:E1; [|discriminate].
    injection Hs as ->. eapply wp_unfused; [exact Hb | exact E1 | exact Ok | exact Ed | exact HQ].
Qed.

(** Instructions one after the other, as Rosetta asks for them: the next
    [covered] ones are translated already. *)
Fixpoint translate_run (c : X87Cache) (covered : nat) (l : list IRInstr) : M X87Cache :=
  match l with
  | [] => ret c
  | _ :: rest =>
      match covered with
      | S k => translate_run c k rest
      | O => '(c, n) <- translate_next c l ;; match n with S k => translate_run c k rest | O => fun _ => None end
      end
  end.

Fixpoint run_ok (s : fpu) (covered : nat) (l : list IRInstr) : bool :=
  match l with
  | [] => true
  | _ :: rest =>
      match covered with
      | S k => run_ok s k rest
      | O => match next_step s l with Some (S k, s') => run_ok s' k rest | _ => false end
      end
  end.

Lemma exec_all_skipn n l : forall s s1, exec_all segbase ro s (firstn n l) = Some s1 -> exec_all segbase ro s l = exec_all segbase ro s1 (skipn n l).
Proof.
  revert l. induction n as [|n IH]; intros l s s1; [intros [= <-]; reflexivity|]. destruct l as [|i l]; [intros [= <-]; reflexivity|].
  cbn [firstn skipn exec_all]. destruct (Fpu.exec segbase ro s i); [apply IH | discriminate].
Qed.

Lemma left_run n k : 0 <= n -> Nat.iter k left n = Z.max 0 (n - Z.of_nat k).
Proof.
  revert n. induction k as [|k IH]; intros n Hn; [cbn; lia|]. rewrite Nat.iter_succ_r. unfold left.
  destruct (Z.ltb_spec 0 n); rewrite IH; lia.
Qed.

Lemma wp_run l : forall k c s s' a m (Q : X87Cache -> asm -> machine -> Prop),
  between c s (upgrade a) m -> counts c (skipn k l) -> exec_all segbase ro s (skipn k l) = Some s' -> run_ok s k l = true ->
  (forall c' a' m', between c' s' (upgrade a') m' -> hosts m m' -> run_remaining c' = 0 -> Q c' a' m') ->
  wp (translate_run c k l) Q a m.
Proof.
  induction l as [|i l IH]; intros k c s s' a m Q Hb Hc Hs Hok HQ.
  - rewrite skipn_nil in Hs, Hc. injection Hs as <-. apply wp_ret, HQ; [exact Hb | apply hosts_refl | destruct Hc; assumption].
  - destruct k as [|k]; [|eapply IH; [exact Hb | exact Hc | exact Hs | exact Hok | exact HQ]].
    change (skipn 0 (i :: l)) with (i :: l) in Hs, Hc. cbn [run_ok] in Hok. destruct (next_step s (i :: l)) as [[[|k] s1]|] eqn:En; try discriminate.
    destruct (next_step_covers c s (upgrade a) m _ _ _ Hb Hc En) as (Hk & E1 & _).
    rewrite (exec_all_skipn _ _ _ _ E1) in Hs. cbn [skipn] in Hs.
    cbn [translate_run]. apply wp_bind. eapply wp_next; [exact Hb | exact Hc | exact En|].
    intros c1 a1 m1 B1 H1 R1. cbv beta iota. eapply IH; [exact B1 | | exact Hs | exact Hok|].
    + unfold counts in *. rewrite R1, length_skipn. cbn [length skipn] in *. rewrite left_run by lia. lia.
    + intros c2 a2 m2 B2 H2 R2. apply HQ; [exact B2 | eapply hosts_trans; eassumption | exact R2].
Qed.
End Run.

(** *** Where no run is active the machine stands for the state *)

Lemma sw_split w : 0 <= w < 2 ^ 16 -> w = status_word (Z.land w (Z.lnot kTopOfStack)) (Z.land (Z.shiftr w 11) 7).
Proof.
  intros Hw. unfold status_word, kTopOfStack. apply Z.bits_inj'. intros i Hi.
  rewrite Z.lor_spec, !Z.land_spec, Z.lnot_spec, Z.shiftl_spec by lia.
  destruct (Z.ltb_spec i 11) as [L|L].
  - rewrite (Z.testbit_neg_r _ (i - 11)) by lia. rewrite orb_false_r.
    replace (Z.testbit 0x3800 i) with false; [destruct (Z.testbit w i); reflexivity|].
    symmetry. assert (Hin : In i (map Z.of_nat (seq 0 11))) by (apply in_map_iff; exists (Z.to_nat i); split; [lia | apply in_seq; lia]).
    revert Hin. cbn. intros Hin. repeat (destruct Hin as [<- | Hin]; [reflexivity|]). destruct Hin.
  - rewrite Z.land_spec, Z.shiftr_spec by lia. replace (i - 11 + 11) with i by lia.
    change 0x3800 with (Z.shiftl 7 11). rewrite Z.shiftl_spec by lia.
    destruct (Z.testbit 7 (i - 11)), (Z.testbit w i); reflexivity.
Qed.

Lemma status_word_land w t : status_word (Z.land w (Z.lnot kTopOfStack)) t = status_word w t.
Proof. unfold status_word, kTopOfStack. rewrite <- Z.land_assoc, Z.land_diag. reflexivity. Qed.

Lemma status_rest w t : 0 <= t < 8 -> Z.land (status_word w t) (Z.lnot kTopOfStack) = Z.land w (Z.lnot kTopOfStack).
Proof.
  intros Ht. unfold status_word, kTopOfStack. rewrite Z.land_lor_distr_l, <- Z.land_assoc, Z.land_diag.
  replace (Z.land (Z.shiftl t 11) (Z.lnot 0x3800)) with 0; [apply Z.lor_0_r|].
  assert (t = 0 \/ t = 1 \/ t = 2 \/ t = 3 \/ t = 4 \/ t = 5 \/ t = 6 \/ t = 7) as H by lia.
  repeat destruct H as [-> | H]; try reflexivity. subst. reflexivity.
Qed.

Lemma between_stands c s a m : between c s a m -> active c = false ->
  stands b true (top s) 0 0 s m /\ gpool a [] /\ fpool cfg a [].
Proof.
  intros [[G1 G2 G3 G4 G5 G6] _ _ H] Ha. rewrite Ha in H. cbn [andb] in H. destruct H as (_ & Hset & Hk & Hg & Hf).
  pose proof Hk as [K1 K2 K3 K4 K5 K6 K7 K8 K9]. destruct Hset as (S1 & S2 & S3 & S4).
  assert (Ec := f_equal fst G3). assert (Esw := f_equal snd G3). unfold rest in Ec, Esw. cbn [fst snd] in Ec, Esw. split; [|auto]. constructor; auto.
  - rewrite (sw_split (statusWord (x87_at (mm m) b))) by apply sw_range. rewrite Esw, status_word_land.
    f_equal. exact (K7 S3).
  - unfold view in K4. rewrite S1, S2, S4 in K4. exact K4.
  - constructor; lia.
Qed.

Lemma stands_between c s a m : stands b true (top s) 0 0 s m -> b = u64 (xr m X18 + x87_state_offset tgt) -> length (stack s) = 8%nat ->
  nz (gprs_valid c) = false -> carried_any c = false -> settled c -> perm_ok c -> gpool a [] -> fpool cfg a [] -> between c s a m.
Proof.
  intros [S1 S2 S3 S4 S5 S6 S7 S8 S9] Ht Hl Hv Hc (D1 & D2 & D3 & D4) Hp Hg Hf.
  assert (HT : topIndex (x87_at (mm m) b) = top s).
  { unfold topIndex. rewrite S4.
    unfold status_word. apply Z.bits_inj'. intros i Hi.
    rewrite Z.land_spec, Z.shiftr_spec, Z.lor_spec, Z.land_spec, Z.lnot_spec, Z.shiftl_spec by lia. replace (i + 11 - 11) with i by lia.
    change 0x3800 with (Z.shiftl 7 11). rewrite Z.shiftl_spec by lia. replace (i + 11 - 11) with i by lia.
    rewrite <- (land7_small (top s) S6) at 2. rewrite Z.land_spec. destruct (Z.testbit 7 i); rewrite ?andb_false_r, ?andb_true_r; reflexivity. }
  constructor; [| left; exact D1 | exact Hc |].
  - constructor; auto. unfold rest. rewrite S3, S4, status_rest by exact S6. reflexivity.
  - rewrite Hv, andb_false_r. refine (conj eq_refl (conj _ (conj _ (conj Hg Hf)))); [repeat split; assumption|].
    apply stacked_idle; auto.
Qed.

(** An instruction stream starts and ends with nothing held or deferred. *)
Record idle (c : X87Cache) : Prop := mkIdle {
  id_run : run_remaining c = 0;
  id_gprs : nz (gprs_valid c) = false;
  id_carried : carried_any c = false;
  id_settled : settled c;
  id_perm : perm_ok c
}.

Lemma idle_set_run c n : idle c -> 0 <= n < 2 ^ 15 ->
  nz (gprs_valid (set_run c n)) = false /\ carried_any (set_run c n) = false /\ settled (set_run c n) /\ perm_ok (set_run c n) /\
  (run_remaining (set_run c n) = 0 \/ run_remaining (set_run c n) = n).
Proof.
  intros [R G C S P] Hn. unfold set_run. destruct (Z.leb_spec 2 n) as [H|H]; [|refine (conj G (conj C (conj S (conj P _)))); lia].
  replace (s16 n) with n by (symmetry; apply sgn_small; lia).
  refine (conj G (conj C (conj S (conj _ _)))); [destruct P; constructor; assumption | cbn; lia].
Qed.

Lemma upgrade_gpool a : gpool (upgrade a) [] <-> gpool a [].
Proof. unfold upgrade, upgrade_fprs. destruct (_ && _); reflexivity. Qed.

Lemma between_start c s a m n : stands b true (top s) 0 0 s m -> b = u64 (xr m X18 + x87_state_offset tgt) -> length (stack s) = 8%nat ->
  idle c -> 0 <= n < 2 ^ 15 -> gpool a [] -> free_fpr_mask a = kFprScratchMask -> between (set_run c n) s (upgrade a) m.
Proof.
  intros Hst Hb0 Hl Hc Hn Hg Hf. destruct (idle_set_run c n Hc Hn) as (G & C & S & P & _).
  apply stands_between; auto; [apply upgrade_gpool, Hg | apply upgrade_fpool, Hf].
Qed.
(** ** FSTSW at the end of a run *)






Section Last.
Context (ro : Z -> bool) (c : X87Cache) (s s' : fpu) (i : IRInstr).
Hypothesis (Ha : active c = true) (Hv : nz (gprs_valid c) = true).
Hypothesis (Eo : opcode i = kOpcodeName.fstsw) (Hi : is_register i 0 = true) (Hs : Fpu.exec segbase ro s i = Some s').
Hypothesis (Hax : 0 <= regs s 0 < 2 ^ 32).






End Last.
End Translate.

(** C4: The code of consecutive x87 instructions, two or three of them at once
    where an enabled fusion applies and each by its own translator elsewhere,
    with the cache's deferred TOP, tags and exchanges, the run's length given
    to the cache as the lookahead gives it: a machine that stands for the
    state before them is taken to one that stands for the state the
    instruction set gives after them, with nothing left held or deferred. *)
Theorem translated_run_refines cfg tgt segbase b ro run_bridge runtime_keepalive disabled_ops_mask disabled_fusions_mask (c : X87Cache) l s s' a m
  (Hoff : 0 <= x87_state_offset tgt < 2 ^ 24) (Hb : 0 <= b /\ b + 72 <= 2 ^ 64)
  (Hat : b = u64 (xr m X18 + x87_state_offset tgt)) (Hst : stands b true (top s) 0 0 s m) (Hlen : length (stack s) = 8%nat)
  (Hc : idle c) (Hg : gpool a []) (Hf : free_fpr_mask a = kFprScratchMask) (Hn : Z.of_nat (length l) < 2 ^ 15)
  (Hs : exec_all segbase ro s l = Some s') (Hok : run_ok cfg tgt segbase b ro disabled_ops_mask disabled_fusions_mask s 0 l = true) :
  wp (translate_run cfg tgt run_bridge runtime_keepalive disabled_ops_mask disabled_fusions_mask (set_run c (Z.of_nat (length l))) 0 l)
    (fun c' a' m' => stands b true (top s') 0 0 s' m' /\ hosts cfg m m' /\ active c' = false /\ gpool a' [] /\ fpool cfg (upgrade_fprs cfg a') [])
    a m.
Proof.
  eapply (wp_run cfg tgt segbase b Hoff Hb ro run_bridge runtime_keepalive disabled_ops_mask disabled_fusions_mask l 0);
    [apply between_start; eauto; lia | apply (idle_set_run c); [exact Hc | cbn [skipn]; lia] | exact Hs | exact Hok|].
  intros c' a' m' B H R.
  assert (Ha : active c' = false) by (unfold active; rewrite R; reflexivity).
  destruct (between_stands cfg tgt b c' s' _ m' B Ha) as (S & G & F). apply upgrade_gpool in G. auto.
Qed.

(** A run that pushes, exchanges, pops and stores, with an exchange left to
    flush at its end.  With no fusion disabled three apply: the exchange and
    the division after it, FLD1 with the multiplication and the addition after
    it, by one multiply-add, and the multiplication with the store after it. *)
Definition sample_run : list IRInstr :=
  let st i := mkOperand 0 2 (0x70 + i) 0 0 0 0 0 0 in
  let m sz d := mkOperand 1 sz 3 0 1 0 0 0 d in
  [ mkInstr kOpcodeName.fld 1 [m 2 0]; mkInstr kOpcodeName.fld1 0 []; mkInstr kOpcodeName.fxch 2 [st 0; st 1];
    mkInstr kOpcodeName.fdivp 2 [st 1; st 0]; mkInstr kOpcodeName.fchs 0 [];
    mkInstr kOpcodeName.fst 1 [st 2]; mkInstr kOpcodeName.fld1 0 []; mkInstr kOpcodeName.fmul 2 [st 0; st 1];
    mkInstr kOpcodeName.faddp 2 [st 1; st 0]; mkInstr kOpcodeName.fmul 1 [m 3 0];
    mkInstr kOpcodeName.fstp 1 [m 3 8]; mkInstr kOpcodeName.fxch 2 [st 0; st 1] ].

Definition sample_after : fpu :=
  match exec_all (fun _ => 0) (fun _ => false) OptimizeProps.sample_state sample_run with Some s => s | None => OptimizeProps.sample_state end.

Definition full_pools : asm := mkAsm [] kGprScratchMask kFprScratchMask [] [].

Lemma sample_machine_stands : stands 0x8000 true 6 0 0 OptimizeProps.sample_state sample_machine.
Proof. destruct sample_stands. constructor; auto. Qed.

Lemma idle_init : idle X87Cache_init.
Proof. constructor; [reflexivity.. | repeat split | constructor; [reflexivity | exact identity_ok | reflexivity]]. Qed.

Lemma full_gpool : gpool full_pools [].
Proof. eapply pool_gpr_mask; [| | reflexivity]; vm_compute; intuition discriminate. Qed.

Lemma translated_run_refines_witness :
  wp (translate_run sample_cfg (mkTarget 0 0x8000 0) false false 0 0 (set_run X87Cache_init 12) 0 sample_run)
    (fun c' a' m' => stands 0x8000 true (top sample_after) 0 0 sample_after m' /\ hosts sample_cfg sample_machine m' /\
       active c' = false /\ gpool a' [] /\ fpool sample_cfg (upgrade_fprs sample_cfg a') []) full_pools sample_machine.
Proof.
  apply (translated_run_refines sample_cfg (mkTarget 0 0x8000 0) (fun _ => 0) 0x8000 (fun _ => false) false false 0 0
    X87Cache_init sample_run OptimizeProps.sample_state sample_after full_pools sample_machine);
    [cbn; lia | lia | reflexivity | exact sample_machine_stands | reflexivity | exact idle_init | exact full_gpool | reflexivity
    | cbn; lia | vm_compute; reflexivity | vm_compute; reflexivity].
Defined.




Definition held_pools : asm := mkAsm [] (Z.lxor kGprScratchMask 0x10C00000) kFprScratchMask [] [].



(** ** TOP written while pushes are deferred *)

Section Stale.
Context (cfg : RosettaConfig) (b Xbase Wd_top Wd_tmp Wd_tmp2 : Z).
Hypothesis (Gt : gpr Wd_top).

Fixpoint x87_pops (n : nat) (c : X87Cache) : M X87Cache :=
  match n with O => ret c | S n => c <- x87_pop cfg c Xbase Wd_top Wd_tmp ;; x87_pops n c end.

(** As many pops as pushes are deferred: TOP's register moves, memory does not. *)
Lemma wp_pops n : forall c a m (Q : X87Cache -> asm -> machine -> Prop),
  0 < run_remaining c -> nz (perm_dirty c) = false -> deferred_pop_count c = 0 -> Z.of_nat n <= 8 ->
  deferred_push_count c = Z.of_nat n -> nz (top_dirty c) = negb (deferred_push_count c =? 0) -> 0 <= xr m Wd_top < 8 ->
  (forall c' a' m', settled c' -> mm m' = mm m -> xr m' Wd_top = (xr m Wd_top + Z.of_nat n) mod 8 -> Q c' a' m') ->
  wp (x87_pops n c) Q a m.
Proof.
  induction n as [|n IH]; intros c a m Q Hr Hp Hq H8 Hn Hd HT HQ; cbn [x87_pops].
  - rewrite Hn in Hd. apply wp_ret, HQ; [repeat split; assumption | reflexivity|]. rewrite Z.add_0_r. symmetry. apply Z.mod_small, HT.
  - apply wp_bind. unfold x87_pop, perm_flush_before_stack_change. rewrite (proj2 (Z.ltb_lt _ _) Hr), Hp.
    apply wp_bind, wp_ret, wp_bind. unfold emit_x87_pop_top_only. apply wp_top_add; [exact Gt | lia|]. intros a1 m1 _ [E1 F1].
    change (nz 0) with false in E1. cbv iota in E1. rewrite land7_mod in E1.
    assert (E0 : (deferred_push_count c =? 0) = false) by (apply Z.eqb_neq; lia). rewrite E0 in Hd. cbn [negb] in Hd.
    replace (0 <? deferred_push_count c) with true by (symmetry; apply Z.ltb_lt; lia). rewrite Hd, s8_small by lia. apply wp_ret.
    apply IH; cbn [with_deferred run_remaining perm_dirty deferred_pop_count deferred_push_count top_dirty]; auto; try lia.
    + destruct (Z.eqb_spec (deferred_push_count c - 1) 0); [reflexivity | exact Hd].
    + rewrite E1. apply Z.mod_pos_bound. lia.
    + intros c' a' m' S Em Et. apply HQ; [exact S | rewrite Em; apply F1 |].
      rewrite Et, E1, Z.add_mod_idemp_l by lia. f_equal. lia.
Qed.

(** A push and the pops that take it and the deferred ones back. *)
Definition push_and_pops (P : Z) (c : X87Cache) : M X87Cache :=
  c <- x87_push cfg c Xbase Wd_top Wd_tmp Wd_tmp2 ;; x87_pops (S (Z.to_nat P)) c.

Lemma wp_push_and_pops c a m (Q : X87Cache -> asm -> machine -> Prop) :
  0 < run_remaining c -> nz (perm_dirty c) = false -> deferred_pop_count c = 0 -> 0 < deferred_push_count c < 8 -> 0 <= xr m Wd_top < 8 ->
  (forall c' a' m', settled c' -> mm m' = mm m -> xr m' Wd_top = (xr m Wd_top + deferred_push_count c) mod 8 -> Q c' a' m') ->
  wp (push_and_pops (deferred_push_count c) c) Q a m.
Proof.
  intros Hr Hp Hq HP HT HQ. unfold push_and_pops, x87_push, x87_flush_deferred_pops, perm_flush_before_stack_change.
  rewrite (proj2 (Z.ltb_lt _ _) Hr), Hq. change (0 <? 0) with false. apply wp_bind, wp_bind, wp_ret.
  replace (8 <=? deferred_push_count c) with false by (symmetry; apply Z.leb_gt; lia). apply wp_bind, wp_ret.
  replace (deferred_push_count c =? 0) with false by (symmetry; apply Z.eqb_neq; lia). apply wp_bind, wp_ret.
  rewrite Hp. apply wp_bind, wp_ret, wp_bind. unfold emit_x87_push_fully_deferred. apply wp_top_add; [exact Gt | lia|]. intros a1 m1 _ [E1 F1].
  change (nz 1) with true in E1. cbv iota in E1. rewrite land7_mod in E1. apply wp_ret.
  apply wp_pops; cbn [with_deferred run_remaining perm_dirty deferred_pop_count deferred_push_count top_dirty]; rewrite ?s8_small by lia; auto; try lia.
  - replace (deferred_push_count c + 1 =? 0) with false by (symmetry; apply Z.eqb_neq; lia). reflexivity.
  - rewrite E1. apply Z.mod_pos_bound. lia.
  - intros c' a' m' S Em Et. apply HQ; [exact S | rewrite Em; apply F1|].
    rewrite Et, E1, Z.add_mod_idemp_l by lia. f_equal. lia.
Qed.
End Stale.

(** C37: x87_flush_top, with which FLDCW and the fusions of FXCH and FSTP and
    of the compares with FSTSW write TOP in the middle of a run, leaves the
    pushes before it deferred: when another push and then as many pops as
    pushes follow, the last pop takes the TOP in memory for the one before the
    run's pushes, forgets TOP, and leaves the TOP of the flush in memory, as
    many registers below the right one as pushes were deferred.  Without the
    flush the same push and pops leave the right one. *)
Theorem flushed_top_goes_stale cfg b Xbase Wd_top Wd_tmp Wd_tmp2 c a m
  (Gt : gpr Wd_top) (Gp : gpr Wd_tmp) (N1 : Xbase <> Wd_top) (N2 : Xbase <> Wd_tmp) (N3 : Wd_top <> Wd_tmp)
  (Hb : based b Xbase m) (HT : 0 <= xr m Wd_top < 8)
  (Hr : 0 < run_remaining c) (Hp : nz (perm_dirty c) = false) (Hq : deferred_pop_count c = 0)
  (HP : 0 < deferred_push_count c < 8) (Hd : nz (top_dirty c) = true)
  (Hm : topIndex (x87_at (mm m) b) = (xr m Wd_top + deferred_push_count c) mod 8) :
  let T := xr m Wd_top in let P := deferred_push_count c in
  let after (t : Z) (c' : X87Cache) (a' : asm) (m' : machine) :=
    settled c' /\ xr m' Wd_top = (T + P) mod 8 /\ topIndex (x87_at (mm m') b) = t in
  wp (push_and_pops cfg Xbase Wd_top Wd_tmp Wd_tmp2 P c) (after ((T + P) mod 8)) a m /\
  wp (c <- x87_flush_top c Xbase Wd_top Wd_tmp ;; push_and_pops cfg Xbase Wd_top Wd_tmp Wd_tmp2 P c) (after T) a m /\
  T <> (T + P) mod 8.
Proof.
  intros T P after. split; [|split].
  - apply (wp_push_and_pops cfg Xbase Wd_top Wd_tmp Wd_tmp2 Gt c a m); auto. intros c' a' m' S Em Et.
    split; [exact S | split; [exact Et | rewrite Em; exact Hm]].
  - apply wp_bind. unfold x87_flush_top. rewrite Hd. apply wp_bind, (wp_store_top b Xbase a m Hb); auto.
    intros a1 m1 _ (Hch & _ & Hat). apply wp_ret.
    assert (Et : xr m1 Wd_top = T) by (apply (ch_x _ _ _ Hch); cbn; intuition congruence).
    apply (wp_push_and_pops cfg Xbase Wd_top Wd_tmp Wd_tmp2 Gt (with_deferred c 0 P (deferred_pop_count c)) a1 m1); auto; [rewrite Et; exact HT|].
    intros c' a' m' S Em Et'. split; [exact S|]. split; [rewrite Et', Et; reflexivity|].
    rewrite Em, Hat. apply topIndex_with_top, HT.
  - unfold P, T in *. clear - HT HP. Z.div_mod_to_equations. lia.
Qed.

Lemma flushed_top_goes_stale_witness :
  let c := with_deferred (with_run X87Cache_init 5) 1 2 0 in
  let m := put sample_machine 23 4 in
  let after (t : Z) (c' : X87Cache) (a' : asm) (m' : machine) :=
    settled c' /\ xr m' 23 = 6 /\ topIndex (x87_at (mm m') 0x8000) = t in
  wp (push_and_pops sample_cfg 22 23 24 25 2 c) (after 6) held_pools m /\
  wp (c <- x87_flush_top c 22 23 24 ;; push_and_pops sample_cfg 22 23 24 25 2 c) (after 4) held_pools m /\ 4 <> 6.
Proof.
  intros c m after. apply (flushed_top_goes_stale sample_cfg 0x8000 22 23 24 25 c held_pools m);
    try (unfold gpr; lia); try (cbn; lia); try reflexivity.
  repeat split; cbn; lia.
Defined.

(** ** Runs whose code leaves the state wrong

    A run's code executed on the sample machine, with the fusions the mask
    does not disable; the cache after it. *)
Definition executed_with (disabled_fusions_mask : Z) (l : list IRInstr) : option (X87Cache * machine) :=
  match translate_run sample_cfg (mkTarget 0 0x8000 0) false false 0 disabled_fusions_mask (set_run X87Cache_init (Z.of_nat (length l))) 0 l full_pools with
  | Some (c, a) => match run (insn_buf a) O sample_machine with Some (m, O) => Some (c, m) | _ => None end
  | None => None
  end.

(** With no fusion. *)
Definition executed : list IRInstr -> option (X87Cache * machine) := executed_with (-1).

Definition expected (l : list IRInstr) : option fpu := exec_all (fun _ => 0) (fun _ => false) OptimizeProps.sample_state l.

Lemma read_out {A B} (f : A -> B) (o : option A) v : option_map f o = Some v -> exists x, o = Some x /\ f x = v.
Proof. destruct o as [x|]; [|discriminate]. intros [= E]. exists x. auto. Qed.

(** Two ones pushed and stored, an FLDCW between the pushes. *)
Definition fldcw_run : list IRInstr :=
  let m sz d := mkOperand 1 sz 3 0 1 0 0 0 d in
  [ mkInstr kOpcodeName.fld1 0 []; mkInstr kOpcodeName.fldcw 1 [m 1 16]; mkInstr kOpcodeName.fld1 0 [];
    mkInstr kOpcodeName.fstp 1 [m 3 8]; mkInstr kOpcodeName.fstp 1 [m 3 24] ].

(** Two ones pushed, the lower one dropped by FXCH ST(1) and FSTP ST(1), a
    third pushed, and the two stored. *)
Definition fxch_fstp_run : list IRInstr :=
  let st i := mkOperand 0 2 (0x70 + i) 0 0 0 0 0 0 in
  let m sz d := mkOperand 1 sz 3 0 1 0 0 0 d in
  [ mkInstr kOpcodeName.fld1 0 []; mkInstr kOpcodeName.fld1 0 []; mkInstr kOpcodeName.fxch 2 [st 0; st 1];
    mkInstr kOpcodeName.fstp_stack 1 [st 1]; mkInstr kOpcodeName.fld1 0 []; mkInstr kOpcodeName.fchs 0 [];
    mkInstr kOpcodeName.fstp 1 [m 3 8]; mkInstr kOpcodeName.fstp 1 [m 3 24] ].

(** The mask that leaves one fusion. *)
Definition only (id : Z) : Z := Z.lnot (Z.shiftl 1 id).

(** A run that leaves TOP in memory one below where it belongs, nothing being
    deferred any more. *)
Definition top_stale (mask : Z) (l : list IRInstr) : Prop := exists c m s,
  executed_with mask l = Some (c, m) /\ active c = false /\ nz (top_dirty c) = false /\
  expected l = Some s /\ topIndex (x87_at (mm m) 0x8000) = top s - 1.

Definition top_right (mask : Z) (l : list IRInstr) : Prop := exists c m s,
  executed_with mask l = Some (c, m) /\ expected l = Some s /\ topIndex (x87_at (mm m) 0x8000) = top s.

(** A push, and FLD, FCOMP and FSTSW AX after it. *)
Definition compare_run : list IRInstr :=
  let st i := mkOperand 0 2 (0x70 + i) 0 0 0 0 0 0 in
  [ mkInstr kOpcodeName.fld1 0 []; mkInstr kOpcodeName.fld1 0 []; mkInstr kOpcodeName.fcomp 2 [st 0; st 1];
    mkInstr kOpcodeName.fstsw 1 [mkOperand 0 1 0x10 0 0 0 0 0 0]; mkInstr kOpcodeName.fchs 0 [] ].

(** The TOP in AX after it. *)
Definition top_in_ax (r : X87Cache * machine) : Z := Z.land (Z.shiftr (xr (snd r) 0) 11) 7.

Ltac compare_tops t1 t2 :=
  match goal with |- context[executed_with ?k ?l = _] =>
    let c := fresh "c" in let m := fresh "m" in let s := fresh "s" in let E := fresh "E" in let H := fresh "H" in let Es := fresh "Es" in let Hs := fresh "Hs" in
    destruct (read_out (fun '(c, m) => (active c, nz (top_dirty c), topIndex (x87_at (mm m) 0x8000))) (executed_with k l) (false, false, t1)
      ltac:(vm_compute; reflexivity)) as ([c m] & E & H);
    rewrite !pair_equal_spec in H;
    destruct (read_out top (expected l) t2 ltac:(vm_compute; reflexivity)) as (s & Es & Hs);
    exists c, m, s; rewrite Hs; intuition (try (assumption || lia))
  end.

(** Runs with an FLDCW, and with FXCH ST(1) fused with FSTP ST(1), between
    deferred pushes leave TOP in memory one too low; without the FLDCW, and
    without the fusion, they do not.  FSTSW AX fused with an FLD and a compare
    does not write TOP where pushes are deferred, and AX has the TOP before
    them; by itself it has the TOP after them. *)
Example stale_top_runs :
  (top_stale (-1) fldcw_run /\ top_right (-1) (firstn 1 fldcw_run ++ skipn 2 fldcw_run)) /\
  (top_stale (only FusionId.fxch_fstp) fxch_fstp_run /\ top_right (-1) fxch_fstp_run) /\
  (option_map (fun s => Z.land (Z.shiftr (regs s 0) 11) 7) (expected compare_run) = Some 5 /\
   option_map top_in_ax (executed_with (-1) compare_run) = Some 5 /\
   option_map top_in_ax (executed_with (only FusionId.fld_fcomp_fstsw) compare_run) = Some 6).
Proof.
  repeat split; unfold top_stale, top_right;
    first [compare_tops 5 6 | compare_tops 6 6 | vm_compute; reflexivity].
Qed.

(** The status word read last in a run, after a compare that pops or after an
    exchange. *)
Definition fstsw_after (i : IRInstr) : list IRInstr := [ i; mkInstr kOpcodeName.fstsw 1 [mkOperand 0 1 0x10 0 0 0 0 0 0] ].

Definition st_pair (op : Z) : IRInstr :=
  let st i := mkOperand 0 2 (0x70 + i) 0 0 0 0 0 0 in mkInstr op 2 [st 0; st 1].

(** The tag of the register an FCOMP before it popped stays valid although no
    pop is deferred any more, and an exchange stays in the cache, the registers
    in memory in the order they had. *)
Example fstsw_last_runs :
  (exists c m s,
    executed (fstsw_after (st_pair kOpcodeName.fcomp)) = Some (c, m) /\ expected (fstsw_after (st_pair kOpcodeName.fcomp)) = Some s /\
    active c = false /\ deferred_pop_count c = 0 /\
    topIndex (x87_at (mm m) 0x8000) = top s /\ nth 7 (stack s) None = None /\
    Z.land (Z.shiftr (tagWord (x87_at (mm m) 0x8000)) (2 * ((top s + 7) mod 8))) 3 = kValid) /\
  (exists c m s x,
    executed (fstsw_after (st_pair kOpcodeName.fxch)) = Some (c, m) /\ expected (fstsw_after (st_pair kOpcodeName.fxch)) = Some s /\
    active c = false /\ nz (perm_dirty c) = true /\
    nth 0 (stack s) None = Some x /\ load 8 (mm m) (0x8008 + 8 * top s) <> x).
Proof.
  split.
  - destruct (read_out (fun '(c, m) => (active c, topIndex (x87_at (mm m) 0x8000), tagWord (x87_at (mm m) 0x8000), deferred_pop_count c))
      (executed (fstsw_after (st_pair kOpcodeName.fcomp))) (false, 7, 0x0FFF, 0) ltac:(vm_compute; reflexivity)) as ([c m] & E & H).
    rewrite !pair_equal_spec in H. destruct H as [[[Ea Et] Eg] Ep].
    destruct (read_out (fun s => (top s, nth 7 (stack s) None)) (expected (fstsw_after (st_pair kOpcodeName.fcomp))) (7, None)
      ltac:(vm_compute; reflexivity)) as (s & Es & [= Hs H7]).
    exists c, m, s. rewrite Hs, Et, Eg. repeat apply conj; try assumption; reflexivity.
  - destruct (read_out (fun '(c, m) => (active c, nz (perm_dirty c), load 8 (mm m) (0x8008 + 8 * 6)))
      (executed (fstsw_after (st_pair kOpcodeName.fxch))) (false, true, f_one) ltac:(vm_compute; reflexivity)) as ([c m] & E & H).
    rewrite !pair_equal_spec in H. destruct H as [[Ea Ed] Ev].
    destruct (read_out (fun s => (top s, nth 0 (stack s) None)) (expected (fstsw_after (st_pair kOpcodeName.fxch))) (6, Some 0x4000000000000000)
      ltac:(vm_compute; reflexivity)) as (s & Es & [= Hs H0]).
    exists c, m, s, 0x4000000000000000. rewrite Hs, Ev. repeat apply conj; try assumption; try reflexivity. discriminate.
Qed.
